(* ===== verification/_CoqProject ===== *)
-Q . S2P
Prelude.v
GoStrings.v
NetIP.v
GoTime.v
GoFiles.v
NetIPText.v
DomainName.v
ConfigTypes.v
ConfigCompile.v
Rules.v
FakeIPPool.v
FakeIPPoolFacts.v
FakeIPAlloc.v
FakeIPNew.v
FakeIPRestore.v
FakeIPRestoreFacts.v
FakeIPSystem.v
FakeIPProperties.v
FakeIPFiles.v
FakeIPFilesFacts.v
FakeIPDurable.v
ConfigFacts.v
Outbound.v
Resolver.v
ResolverFacts.v
Relay.v
Session.v
SessionHandle.v
SessionFacts.v
SessionProperties.v
SessionAccounting.v
EffectiveDNS.v
DataPlane.v
DataPlaneFacts.v
DataPlaneThreads.v
FakeDNS.v
FakeDNSFacts.v
Tun.v
Netstack.v
TunFacts.v
HostState.v
HostRoutes.v
HostDNS.v
DefaultRoutes.v
RunHost.v
DefaultRoutesFacts.v
Run.v
RunFacts.v
RunLoop.v
RunProperties.v
Apperror.v
Privsep.v
LaunchLayout.v
Supervisor.v
SupervisorFacts.v
RunLife.v
SupervisorOrder.v
SupervisorWorker.v
PrivsepSession.v
PrivsepSessionFacts.v
PrivsepSystem.v
PrivsepProperties.v
LaunchFiles.v
LaunchStorage.v
LaunchAccounts.v
LaunchManager.v
LaunchTransactions.v
LaunchFacts.v
LaunchInstall.v
LaunchUninstall.v
Control.v
ControlFacts.v
Locks.v
LocksFacts.v
ServiceCommand.v
ServiceCommandFacts.v
Worker.v
Explain.v
Diagnose.v
ServiceLogs.v
