(* ===== verification/Prelude.v ===== *)
(** * A verification development for tun-proxy

    tun-proxy is a transparent proxy for macOS.  A Fake DNS server answers
    queries with addresses of a reserved range and remembers which domain got
    which address; packets to these addresses reach a TUN device; a user-space
    TCP/IP stack turns them into flows; for each flow the rules choose an
    outbound - a physical interface with its own DNS servers - on which the
    domain is resolved again and the connection is made, with fallbacks.  This
    library models the decision logic of that program, written in Go, and
    proves what makes it correct.

    ** Conventions

    A Go function returning [(value, error)] is a function into
    [result E A].  Mutable state is passed explicitly; where goroutines share
    it, the atomic steps are an inductive relation or a list of events.  A
    machine integer is a [Z], with [wrap64] where the code can wrap.  A string
    is a list of bytes.  A Go map is a [gmap]; where the code iterates over
    one, the order is an argument and theorems quantify over it.  A nil
    dereference, an index out of range and a blocked call are values of the
    result ([None], or a constructor of their own).  Code outside the
    repository - the YAML and JSON libraries, SHA-256, the DNS library, sockets,
    the TCP/IP stack, commands of the system - is a parameter.

    ** Files

    Foundations: [Prelude] (results, computations on a state that
    may fail, notations, list and map lemmas),
    [GoStrings], [NetIP] with [NetIPText] (net/netip and its text round
    trips), [GoTime] (durations), [GoFiles] (paths, and a file system whose
    calls may fail or write partially).

    - [DomainName]: internal/domainname/domain.go.
    - [ConfigTypes], [ConfigCompile], [ConfigFacts]:
      internal/config/config.go and reload.go, from the decoded document to the
      runtime configuration.
    - [Rules]: internal/rules/engine.go.
    - [FakeIPPool], [FakeIPPoolFacts], [FakeIPAlloc], [FakeIPNew],
      [FakeIPSystem], [FakeIPProperties]: internal/fakeip/pool.go; entries are
      shared objects in a store, and each critical section is a step.  A run
      starts with a new pool or with one that [FakeIPRestore.reopen] restored.
    - [FakeIPRestore], [FakeIPRestoreFacts], [FakeIPFiles],
      [FakeIPFilesFacts], [FakeIPDurable]: internal/fakeip/persistence.go.
      [FakeIPFiles] has the calls on the files one by one; [FakeIPDurable] the
      pool together with its disk through calls that succeed, fail, or fail
      although their data reached the files, deaths of the process and
      restarts.
    - [Outbound]: internal/outbound; [Resolver], [ResolverFacts]:
      internal/resolver.
    - [Relay], [Session], [SessionHandle], [SessionFacts],
      [SessionProperties], [SessionAccounting]: internal/session and
      internal/netstack/relay.go, from the decision of a flow to the counters
      it leaves.
    - [EffectiveDNS], [DataPlane], [DataPlaneFacts], [DataPlaneThreads]:
      internal/app/dataplane_darwin.go, effective_dns_darwin.go and
      internal/system/interface_dns_darwin.go.
    - [FakeDNS], [FakeDNSFacts]: internal/fakedns/server.go.
    - [Tun], [TunFacts]: internal/tun/pump.go, pool.go, io.go; [Netstack]:
      internal/netstack/stack.go.
    - [HostState], [HostRoutes], [HostDNS]: internal/system - the recovery record, routes and the
      TUN interface, DNS services, the commands that change them.
    - [DefaultRoutes], [DefaultRoutesFacts]:
      internal/app/default_routes_darwin.go.
    - [RunHost], [Run], [RunFacts], [RunLoop], [RunProperties], [RunLife]:
      internal/app/run_darwin.go from the process lock on, routes_darwin.go,
      cleanup_darwin.go, network_refresh_state.go, the route installation of
      service_supervisor_darwin.go, PreflightReload and refreshNetwork.
    - [Apperror]: internal/apperror.
    - [Privsep]: internal/privsep/protocol.go and identity.go;
      [PrivsepSession], [PrivsepSessionFacts], [PrivsepSystem]: the worker of
      session.go and handshake.go and the session of supervisor.go over two
      streams of messages; [PrivsepProperties] has the theorems, and an
      instance of the parameters for its examples.
    - [LaunchLayout]: internal/launchservice/layout.go; [Supervisor],
      [SupervisorFacts], [SupervisorOrder], [SupervisorWorker]:
      internal/app/service_supervisor_darwin.go from the process lock on.
    - [Worker]: internal/app/service_worker_darwin.go and monitor.go, the other
      process of the managed service: one event per call of [ServiceWorker].
    - internal/launchservice: [LaunchFiles] is files.go over a file system
      whose calls may fail, [LaunchStorage] storage.go and the commands that
      manager.go runs, [LaunchAccounts] account.go; the rest of manager.go is
      [LaunchManager] (start, stop, status) and
      [LaunchTransactions] (Install, Upgrade, SynchronizeConfig, Uninstall).
      [LaunchFacts] holds
      the lemmas on which [LaunchInstall] and [LaunchUninstall] build.
    - [Control], [ControlFacts]: internal/control - the protocol between the
      commands and the supervisor, its cache of requests, server and client.
    - [Locks], [LocksFacts]: internal/daemon/lock_darwin.go and
      internal/launchservice/operation_lock_darwin.go, programs over system
      calls of several processes, interleaved call by call.
    - [ServiceCommand], [ServiceCommandFacts]: cmd/tun-proxy/service.go and
      paths.go over the manager and the control client; [Explain]: explain.go
      over the rules engine and the resolver; [Diagnose]: diagnose.go;
      [ServiceLogs]: service_logs.go.

    ** What the theorems show

    - Configuration: a compiled configuration meets the preconditions of every
      consumer ([ConfigFacts]): its pools can be created, its fallbacks are
      closed and acyclic, its rules route every flow, its data plane starts
      ([DataPlaneFacts.compiled_configuration_starts]); reloads are accepted
      exactly when the host state stays ([ConfigCompile]).
    - Addresses: in every state that interleaved operations reach, no two
      domains share an address, a mapping in use stays unless its own
      allocation is undone, and what a crash leaves on disk restores every
      allocation that was answered, as long as no persistence call failed
      although its data reached the files and nothing expired while it was
      persisted - after such a failure the code can lose mappings, as examples
      show ([FakeIPProperties], [FakeIPDurable],
      [FakeIPFilesFacts]).
    - Flows: a flow talks only to outbounds that its rules allow, with
      addresses resolved through the same outbound ([SessionProperties]);
      decisions are those of the first matching rule ([Rules]); every loop
      along fallbacks, aliases and upstreams ends; counters, limits and
      references balance ([SessionAccounting], [DataPlaneThreads]).
    - Packets and queries: bounds of packets and buffers ([TunFacts]), flows
      within their slots ([Netstack]), one reply to every query
      ([FakeDNSFacts]).
    - The host: whenever a run, a managed service or a clean-up stops, the state file lists what
      is left to undo, and success means that nothing is left ([RunLife]); the
      record is replaced atomically ([HostState]), DNS servers come back
      and only owned routes are deleted ([HostDNS], [HostRoutes]);
      captured traffic keeps its way out ([DefaultRoutesFacts]).
    - Processes: frames arrive in order, and when a call of the supervisor
      succeeds the worker carried it out, except that a second shutdown
      forgets the error of the first ([PrivsepProperties]); errors
      keep their form and code across processes ([Apperror]).
    - Commands and locks: a reload that is retried runs once, and its answer
      reaches the client ([ControlFacts]); operations on the service exclude
      each other, and only its holder removes the lock of an instance, though
      this lock can fail to keep a second instance out ([LocksFacts]); a
      reload command keeps the managed configuration consistent with the
      running one ([ServiceCommandFacts], with at most one failing call
      on the files); what explain says of a domain is
      what a session does with it ([Explain]); the diagnosis finds every entry
      of the hosts file that hides a domain from Fake DNS ([Diagnose]);
      following the logs loses and repeats nothing ([ServiceLogs]).
    - The managed service: the host is changed only with a prepared worker
      ([SupervisorOrder]), and the worker runs what the supervisor remembers,
      unless a call that it carried out was reported as failed
      ([SupervisorWorker]).  The worker itself runs exactly what it accepted
      last, accepts exactly what it can run, and leaves nothing behind
      ([Worker]).
    - The installation: installing and uninstalling are all or nothing as far
      as undoing works, and the account of the worker is its own
      ([LaunchInstall], [LaunchUninstall], [LaunchAccounts]).  At most
      one call on the files fails there, since the code drops what fails
      while a backup is put back.

    ** Interfaces

    The session is generic in the rules engine and in the address pool:
    [Session.Matcher] and [Session.MappingPool] are classes with laws,
    implemented by [Rules] and [FakeIPPool].  Parameters with laws are the
    JSON encoders (a value decodes to itself) of [FakeIPFiles] and
    [RunFacts.faithful] and [Privsep.EncodingLaw], and the tool
    [HostDNS.networksetup]; each
    theorem under such a law has a witness with a concrete instance.

    ** Bounds and fuel

    [ConfigCompile.visit] and [Session.visit_route] take one more than the
    number of outbounds, which [validate_fallbacks_spec] and [new_tcp_spec]
    show to be enough; the loops along fallbacks of a session take one more
    than the number of routes ([sessions_terminate]), and so does
    [Explain.resolveConfigured] with outbounds; the chase of aliases
    takes one more than the number of answers ([answer_target_spec]); the
    attempts of an allocation are those of the code, which suffice to find a
    free address; the parsers of addresses and durations take the length of
    the text.  Machines over events ([Relay], [Netstack.flow_run], [Tun.Run],
    [Control.serve], [Worker.worker_run]) and loops over waits
    ([ServiceCommand.request_loop]) follow a finite list of events.

    ** Not modelled

    - Of persistence: power loss (what was written and not synced survives in
      [FakeIPDurable]), a start that fails while it opens the files, and two
      journal epochs that are equal by chance.
    - Processes and sockets: the checks of service_supervisor_darwin.go before
      its lock, the socket of internal/status, closing the
      control server, the probe of
      internal/launchservice, the start of the worker process and the SupervisorHandshake of
      internal/privsep, which only tests use, the sockets of
      internal/fakedns.  They are calls of the system with little logic of
      their own.
    - Of internal/system, Transaction, which the program does not use, and the
      check for root; of internal/app, the IPv6 probe, the checks
      of preflight, the network fingerprint and the snapshots for the status
      page.
    - Reporting: reading the interfaces (internal/interfaceinfo),
      internal/procattrib, internal/defaultconfig; of cmd/tun-proxy the flags,
      help and output, and the commands other than explain, diagnose and
      those of the service; and the scripts. *)

From Stdlib Require Export Ascii ZArith Lia Sorting.Permutation.
From stdpp Require Export base option numbers gmap sets strings sorting relations list.

#[global] Open Scope Z_scope.
#[global] Set Default Goal Selector "!".

(** ** Results

    A Go function that returns [(value, error)] becomes a function into
    [result E A]: [Ok value] when the error is nil, [Err e] otherwise, where
    [e] names the return statement that produced the error. *)

Inductive result (E A : Type) : Type :=
| Ok (a : A)
| Err (e : E).
Arguments Ok {E A} a.
Arguments Err {E A} e.

#[export] Instance result_ret {E} : MRet (result E) := fun A a => Ok a.

#[export] Instance result_bind {E} : MBind (result E) := fun A B f r =>
  match r with
  | Ok a => f a
  | Err e => Err e
  end.

#[export] Instance result_fmap {E} : FMap (result E) := fun A B f r =>
  match r with
  | Ok a => Ok (f a)
  | Err e => Err e
  end.

(** [guard_err b e k]: Go's [if b { return e }] followed by [k]. *)
Definition guard_err {E A} (b : bool) (e : E) (k : result E A) : result E A :=
  if b then Err e else k.

Definition is_ok {E A} (r : result E A) : bool :=
  match r with Ok _ => true | Err _ => false end.

Definition is_err {E A} (r : result E A) : bool := negb (is_ok r).

Definition map_err {E F A} (f : E -> F) (r : result E A) : result F A :=
  match r with Ok a => Ok a | Err e => Err (f e) end.

#[export] Instance result_eq_dec {E A} `{EqDecision E, EqDecision A} :
  EqDecision (result E A).
Proof. solve_decision. Defined.

(** [fail_if b e k] reads better in a chain of guards. *)
Declare Scope go_scope.
Delimit Scope go_scope with go.
Notation "'fail_if' b 'with' e 'in' k" := (guard_err b e k)
  (at level 10, b at level 100, e at level 100, k at level 200) : go_scope.
Notation "'let!' x ':=' m 'in' k" := (mbind (fun x => k) m)
  (at level 10, x pattern, m at level 100, k at level 200) : go_scope.
#[global] Open Scope go_scope.

Section result_lemmas.
Context {E A B : Type}.

Lemma guard_err_Ok (b : bool) (e : E) (k : result E A) a :
  guard_err b e k = Ok a <-> b = false /\ k = Ok a.
Proof. unfold guard_err. destruct b; naive_solver. Qed.

Lemma guard_err_Err (b : bool) (e : E) (k : result E A) e' :
  guard_err b e k = Err e' <-> (b = true /\ e = e') \/ (b = false /\ k = Err e').
Proof. unfold guard_err. destruct b; naive_solver. Qed.

Lemma bind_Ok (m : result E A) (k : A -> result E B) b :
  mbind k m = Ok b <-> exists a, m = Ok a /\ k a = Ok b.
Proof. destruct m; cbn; naive_solver. Qed.

Lemma bind_Err (m : result E A) (k : A -> result E B) e :
  mbind k m = Err e <-> m = Err e \/ exists a, m = Ok a /\ k a = Err e.
Proof. destruct m; cbn; naive_solver. Qed.

Lemma map_err_Ok {F} (f : E -> F) (m : result E A) a :
  map_err f m = Ok a <-> m = Ok a.
Proof. destruct m; cbn; naive_solver. Qed.

Lemma is_ok_spec (m : result E A) : is_ok m = true <-> exists a, m = Ok a.
Proof. destruct m; naive_solver. Qed.
End result_lemmas.

(** The chain of guards of a Go function inverts in one step. *)
Ltac inv_result :=
  repeat match goal with
  | H : guard_err _ _ _ = Ok _ |- _ => apply guard_err_Ok in H as [? H]
  | H : mbind _ _ = Ok _ |- _ => apply bind_Ok in H as (? & ? & H)
  | H : map_err _ _ = Ok _ |- _ => apply map_err_Ok in H
  | H : Ok _ = Ok _ |- _ => injection H as H
  | H : Err _ = Err _ |- _ => injection H as H
  | H : Ok _ = Err _ |- _ => discriminate H
  | H : Err _ = Ok _ |- _ => discriminate H
  end.

(** Boolean guards become propositions. *)
Lemma bool_decide_eqb {A} `{EqDecision A} (x y : A) :
  bool_decide (x = y) = true <-> x = y.
Proof. apply bool_decide_eq_true. Qed.

Ltac to_prop :=
  repeat match goal with
  | H : (_ || _) = false |- _ => apply orb_false_iff in H as [? ?]
  | H : (_ && _) = true |- _ => apply andb_true_iff in H as [? ?]
  | H : negb _ = true |- _ => apply negb_true_iff in H
  | H : negb _ = false |- _ => apply negb_false_iff in H
  | H : bool_decide _ = true |- _ => apply bool_decide_eq_true in H
  | H : bool_decide _ = false |- _ => apply bool_decide_eq_false in H
  | H : (_ <? _) = true |- _ => apply Z.ltb_lt in H
  | H : (_ <? _) = false |- _ => apply Z.ltb_ge in H
  | H : (_ <=? _) = true |- _ => apply Z.leb_le in H
  | H : (_ <=? _) = false |- _ => apply Z.leb_gt in H
  | H : (_ =? _) = true |- _ => apply Z.eqb_eq in H
  | H : (_ =? _) = false |- _ => apply Z.eqb_neq in H
  end.

(** ** Machine integers *)

Definition wrap64 (z : Z) : Z := z mod 2 ^ 64.

Definition u64_max : Z := 2 ^ 64 - 1.

(** ** Lists *)

Create HintDb tunproxy.

Section list_lemmas.
Context {A : Type}.

(** Go's first-match loop: the first element that satisfies the test. *)
Fixpoint first_match (f : A -> bool) (l : list A) : option A :=
  match l with
  | [] => None
  | x :: l' => if f x then Some x else first_match f l'
  end.

Lemma first_match_Some (f : A -> bool) l x :
  first_match f l = Some x <->
  exists l1 l2, l = l1 ++ x :: l2 /\ f x = true /\ Forall (fun y => f y = false) l1.
Proof.
  induction l as [|y l IH]; cbn.
  - split; [done | intros ([|??] & ? & ? & _); done].
  - destruct (f y) eqn:Hy; split.
    + intros [= ->]. exists [], l. done.
    + intros ([|z l1] & l2 & Heq & Hx & Hall); cbn in Heq; [congruence|].
      injection Heq as -> ->. apply Forall_cons_1 in Hall as [? _]. congruence.
    + intros (l1 & l2 & -> & Hx & Hall)%IH. exists (y :: l1), l2. auto.
    + intros ([|z l1] & l2 & Heq & Hx & Hall); cbn in Heq; [congruence|].
      injection Heq as -> ->. apply IH. apply Forall_cons_1 in Hall as [_ ?]. eauto.
Qed.

Lemma first_match_None (f : A -> bool) l :
  first_match f l = None <-> Forall (fun y => f y = false) l.
Proof.
  induction l as [|y l IH]; cbn; [done|].
  destruct (f y) eqn:Hy; (split; [intros H | intros [? ?]%Forall_cons_1]);
    try congruence; [constructor|]; intuition.
Qed.

Lemma first_match_is_Some (f : A -> bool) l x :
  x ∈ l -> f x = true -> is_Some (first_match f l).
Proof.
  intros Hin Hx. destruct (first_match f l) eqn:Hm; [done|].
  apply first_match_None in Hm. rewrite Forall_forall in Hm.
  specialize (Hm x Hin). congruence.
Qed.

Lemma existsb_elem_of (f : A -> bool) l :
  existsb f l = true <-> exists x, x ∈ l /\ f x = true.
Proof.
  rewrite existsb_exists. by split; intros (x & Hx & ?); exists x; rewrite list_elem_of_In in *.
Qed.

Lemma forallb_elem_of (f : A -> bool) l :
  forallb f l = true <-> forall x, x ∈ l -> f x = true.
Proof.
  rewrite forallb_forall. by split; intros Hall x Hx; apply Hall; rewrite list_elem_of_In in *.
Qed.
End list_lemmas.

#[export] Hint Resolve first_match_is_Some : tunproxy.

Section split_first.
Context {A : Type}.

(** The elements before the first one that satisfies the test, and the rest
    from that element on. *)
Fixpoint split_first (f : A -> bool) (l : list A) : list A * list A :=
  match l with
  | [] => ([], [])
  | x :: l' => if f x then ([], l) else
      let '(before, after) := split_first f l' in (x :: before, after)
  end.

Lemma split_first_app (f : A -> bool) l :
  l = fst (split_first f l) ++ snd (split_first f l).
Proof.
  induction l as [|x l IH]; [done|]. cbn. destruct (f x); [done|].
  destruct (split_first f l) as [b a]. cbn in *. by rewrite IH at 1.
Qed.

Lemma split_first_match (f : A -> bool) l x :
  first_match f l = Some x -> exists after, snd (split_first f l) = x :: after.
Proof.
  induction l as [|y l IH]; [done|]. cbn. destruct (f y).
  - intros [= ->]. by exists l.
  - intros Hx. destruct (IH Hx) as [after Ha]. destruct (split_first f l). by exists after.
Qed.

(** The first match of a weaker test lies before or at the first match of
    the stronger one. *)
Lemma first_match_weaken (f g : A -> bool) l x :
  (forall y, f y = true -> g y = true) ->
  first_match f l = Some x ->
  exists y, first_match g l = Some y /\ (y = x \/ y ∈ fst (split_first f l)).
Proof.
  intros Hfg. induction l as [|z l IH]; [done|]. cbn. destruct (f z) eqn:Hf.
  - intros [= ->]. exists x. rewrite Hfg by done. auto.
  - intros Hx. destruct (IH Hx) as (y & Hy & Hin). destruct (g z).
    + exists z. split; [done|]. right. destruct (split_first f l). left.
    + exists y. split; [done|]. destruct Hin as [->|Hin]; [by left|right].
      destruct (split_first f l). by right.
Qed.
End split_first.

(** ** Finite maps *)

Section map_values.
Context {V : Type}.

Lemma map_values_NoDup `{Countable K} (m : gmap K V) :
  (forall i j x, m !! i = Some x -> m !! j = Some x -> i = j) -> NoDup (map_to_list m).*2.
Proof.
  intros Hinj. apply NoDup_fmap_2_strong; [|apply NoDup_map_to_list].
  intros [i x] [j y] Hi Hj Heq. cbn in Heq. subst y.
  apply elem_of_map_to_list in Hi, Hj. by rewrite (Hinj i j x).
Qed.

Lemma elem_of_map_values `{Countable K} (m : gmap K V) x :
  x ∈ (map_to_list m).*2 <-> exists i, m !! i = Some x.
Proof.
  rewrite list_elem_of_fmap. split.
  - intros ([i y] & -> & Hi). apply elem_of_map_to_list in Hi. eauto.
  - intros [i Hi]. exists (i, x). split; [done|]. by apply elem_of_map_to_list.
Qed.

(** Two injective maps with the same values have the same size. *)
Lemma map_size_same_values `{Countable K1, Countable K2} (m1 : gmap K1 V) (m2 : gmap K2 V) :
  (forall i j x, m1 !! i = Some x -> m1 !! j = Some x -> i = j) ->
  (forall i j x, m2 !! i = Some x -> m2 !! j = Some x -> i = j) ->
  (forall x, (exists i, m1 !! i = Some x) <-> (exists i, m2 !! i = Some x)) ->
  size m1 = size m2.
Proof.
  intros H1 H2 Hx. rewrite <- !length_map_to_list.
  rewrite <- (length_fmap snd (map_to_list m1)), <- (length_fmap snd (map_to_list m2)).
  apply Permutation_length, NoDup_Permutation; auto using map_values_NoDup.
  intros x. by rewrite !elem_of_map_values.
Qed.

(** Pigeonhole: distinct keys of a map are at most as many as its size. *)
Lemma NoDup_keys_size `{Countable K} (m : gmap K V) (l : list K) :
  NoDup l -> (forall k, k ∈ l -> is_Some (m !! k)) -> (length l <= size m)%nat.
Proof.
  intros Hl Hin. rewrite <- size_dom, <- (size_list_to_set (C := gset K)) by done.
  apply subseteq_size. intros k Hk. apply elem_of_list_to_set in Hk. apply elem_of_dom. auto.
Qed.
Lemma map_size_insert_le `{Countable K} (m : gmap K V) k v : (size (<[k:=v]> m) <= S (size m))%nat.
Proof. rewrite map_size_insert. destruct (m !! k); cbn; lia. Qed.
End map_values.

(** A fold whose steps commute does not depend on the order of the list, so
    it models a loop over a Go map. *)
Lemma fold_left_Permutation {A B} (f : A -> B -> A) (l1 l2 : list B) (a : A) :
  (forall a x y, f (f a x) y = f (f a y) x) ->
  l1 ≡ₚ l2 -> fold_left f l1 a = fold_left f l2 a.
Proof.
  intros Hcomm Hperm. revert a. induction Hperm; intros a'; cbn; [done|auto| |].
  - by rewrite Hcomm.
  - by rewrite IHHperm1.
Qed.

(** Replaces a closed computation by its value, which the kernel checks by
    evaluation. *)
Ltac evaluate H :=
  match type of H with
  | ?computation = _ =>
      let value := eval vm_compute in computation in
      let E := fresh in
      assert (computation = value) as E by (vm_compute; reflexivity);
      rewrite E in H; clear E
  end.

(** * Computations on a state *)

Definition act (S E A : Type) : Type := S -> result E A * S.

Section act.
Context {S E : Type}.

Definition act_ret {A} (a : A) : act S E A := fun s => (Ok a, s).
Definition act_fail {A} (e : E) : act S E A := fun s => (Err e, s).
Definition act_of {A} (r : result E A) : act S E A := fun s => (r, s).

Definition act_bind {A B} (m : act S E A) (f : A -> act S E B) : act S E B := fun s =>
  match m s with
  | (Ok a, s) => f a s
  | (Err e, s) => (Err e, s)
  end.

(** A call whose error becomes part of another one. *)
Definition act_wrap {E' A} (f : E' -> E) (m : act S E' A) : act S E A := fun s =>
  match m s with
  | (Ok a, s) => (Ok a, s)
  | (Err e, s) => (Err (f e), s)
  end.

(** Runs [k] unless [b] holds. *)
Definition act_unless {A} (b : bool) (e : E) (k : act S E A) : act S E A := if b then act_fail e else k.
End act.

Notation "'act!' x ':=' m 'in' k" := (act_bind m (fun x => k))
  (at level 10, x pattern, m at level 100, k at level 200) : go_scope.

Notation "'stop_if' b 'with' e 'in' k" := (act_unless b e k)
  (at level 10, b at level 100, e at level 100, k at level 200) : go_scope.

(** ** Reasoning *)

Section triples.
Context {S E : Type}.
Implicit Types P : S -> Prop.

(** From a state with [P], [m] ends with [Q]. *)
Definition act_triple {A} P (m : act S E A) (Q : result E A -> S -> Prop) : Prop := forall s, P s -> Q (m s).1 (m s).2.

Lemma act_triple_bind {A B} P (m : act S E A) (f : A -> act S E B) R Q :
  act_triple P m R -> (forall a, act_triple (R (Ok a)) (f a) Q) -> (forall e s, R (Err e) s -> Q (Err e) s) ->
  act_triple P (act_bind m f) Q.
Proof.
  intros Hm Hf He s HP. unfold act_bind. specialize (Hm s HP). destruct (m s) as [[a|e] s']; cbn in *; [by apply Hf|by apply He].
Qed.

Lemma act_triple_ret {A} P (a : A) Q : (forall s, P s -> Q (Ok a) s) -> act_triple P (act_ret a) Q.
Proof. intros H s. apply H. Qed.

Lemma act_triple_fail {A} P e Q : (forall s, P s -> Q (Err e) s) -> act_triple P (act_fail (A := A) e) Q.
Proof. intros H s. apply H. Qed.

Lemma act_triple_of {A} P (r : result E A) Q : (forall s, P s -> Q r s) -> act_triple P (act_of r) Q.
Proof. intros H s. apply H. Qed.

Lemma act_triple_unless {A} P b e (k : act S E A) Q :
  (b = true -> forall s, P s -> Q (Err e) s) -> (b = false -> act_triple P k Q) -> act_triple P (act_unless b e k) Q.
Proof. intros Ht Hf s HP. unfold act_unless. destruct b; [by apply Ht|by apply Hf]. Qed.

Lemma act_triple_weaken {A} P P' (m : act S E A) R Q :
  act_triple P m R -> (forall s, P' s -> P s) -> (forall r s, R r s -> Q r s) -> act_triple P' m Q.
Proof. intros Hm HP HQ s HP'. apply HQ, Hm, HP, HP'. Qed.

Lemma act_triple_wrap {A E'} P (f : E' -> E) (m : act S E' A) (Q : result E A -> S -> Prop) :
  (forall s, P s -> match (m s).1 with Ok a => Q (Ok a) (m s).2 | Err e => Q (Err (f e)) (m s).2 end) ->
  act_triple P (act_wrap f m) Q.
Proof. intros H s HP. specialize (H s HP). unfold act_wrap. by destruct (m s) as [[a|e] s']. Qed.
End triples.

Lemma act_bind_Ok {S E A B} (m : act S E A) (f : A -> act S E B) s b s' :
  act_bind m f s = (Ok b, s') <-> exists a s1, m s = (Ok a, s1) /\ f a s1 = (Ok b, s').
Proof.
  unfold act_bind. split.
  - destruct (m s) as [[a|e] s1]; [by eauto|done].
  - by intros (a & s1 & -> & ?).
Qed.

Lemma act_unless_Ok {S E A} b e (k : act S E A) s a s' :
  act_unless b e k s = (Ok a, s') <-> b = false /\ k s = (Ok a, s').
Proof. unfold act_unless. destruct b; cbn; [|by split; [|intros [_ ?]]]. by split; [|intros []]. Qed.
