(* ===== verification/GoStrings.v ===== *)
(** * Go strings

    The part of Go's [strings] and [strconv] packages that tun-proxy uses, on
    byte strings: a [string] is a list of bytes, [String.length] is Go's
    [len].  [to_lower] maps the ASCII letters and the two code points whose
    lower case is an ASCII letter (U+0130 and U+212A); every other code point
    keeps its bytes, where Go may pick another non-ASCII code point.  Every
    caller compares the result with ASCII text or rejects non-ASCII bytes
    afterwards, so the difference is not observable.  [trim_space] removes all
    of [unicode.IsSpace]. *)

From S2P Require Import Prelude.

(** ** Bytes *)

Definition code (c : ascii) : Z := Z.of_N (N_of_ascii c).

Definition byte (z : Z) : ascii := ascii_of_N (Z.to_N z).

(** [lo <= c <= hi] for byte literals. *)
Definition between (lo c hi : ascii) : bool :=
  (code lo <=? code c) && (code c <=? code hi).

Definition is_digit (c : ascii) : bool := between "0" c "9".
Definition is_lower (c : ascii) : bool := between "a" c "z".
Definition is_upper (c : ascii) : bool := between "A" c "Z".

Definition lower_byte (c : ascii) : ascii :=
  if is_upper c then byte (code c + 32) else c.

Definition is_byte (z : Z) (c : ascii) : bool := code c =? z.

(** ** Lists of bytes *)

Fixpoint sforall (f : ascii -> bool) (s : string) : bool :=
  match s with
  | EmptyString => true
  | String c s' => f c && sforall f s'
  end.

Fixpoint sappend_rev (s acc : string) : string :=
  match s with
  | EmptyString => acc
  | String c s' => sappend_rev s' (String c acc)
  end.

Definition srev (s : string) : string := sappend_rev s "".

Definition slen (s : string) : Z := Z.of_nat (String.length s).

(** ** [strings.ToLower] *)

Fixpoint to_lower (s : string) : string :=
  match s with
  | EmptyString => EmptyString
  | String c s1 =>
      match s1 with
      | String c2 s2 =>
          if is_byte 0xC4 c && is_byte 0xB0 c2 then String "i" (to_lower s2)
          else match s2 with
               | String c3 s3 =>
                   if is_byte 0xE2 c && is_byte 0x84 c2 && is_byte 0xAA c3
                   then String "k" (to_lower s3)
                   else String (lower_byte c) (to_lower s1)
               | EmptyString => String (lower_byte c) (to_lower s1)
               end
      | EmptyString => String (lower_byte c) (to_lower s1)
      end
  end.

(** ** [strings.TrimSpace] *)

Definition space1 (c : ascii) : bool :=
  between (byte 9) c (byte 13) || is_byte 32 c.

(** U+0085 and U+00A0. *)
Definition space2 (c1 c2 : ascii) : bool :=
  is_byte 0xC2 c1 && (is_byte 0x85 c2 || is_byte 0xA0 c2).

(** U+1680, U+2000-U+200A, U+2028, U+2029, U+202F, U+205F and U+3000. *)
Definition space3 (c1 c2 c3 : ascii) : bool :=
  (is_byte 0xE1 c1 && is_byte 0x9A c2 && is_byte 0x80 c3) ||
  (is_byte 0xE2 c1 && is_byte 0x80 c2 &&
     (between (byte 0x80) c3 (byte 0x8A) || is_byte 0xA8 c3 || is_byte 0xA9 c3 || is_byte 0xAF c3)) ||
  (is_byte 0xE2 c1 && is_byte 0x81 c2 && is_byte 0x9F c3) ||
  (is_byte 0xE3 c1 && is_byte 0x80 c2 && is_byte 0x80 c3).

(** Strips leading white space; [sp2] and [sp3] recognise the encodings of
    two and three bytes in reading order. *)
Fixpoint strip (sp2 : ascii -> ascii -> bool) (sp3 : ascii -> ascii -> ascii -> bool)
    (s : string) : string :=
  match s with
  | EmptyString => EmptyString
  | String c s1 =>
      if space1 c then strip sp2 sp3 s1
      else match s1 with
           | String c2 s2 =>
               if sp2 c c2 then strip sp2 sp3 s2
               else match s2 with
                    | String c3 s3 => if sp3 c c2 c3 then strip sp2 sp3 s3 else s
                    | EmptyString => s
                    end
           | EmptyString => s
           end
  end.

Definition trim_left (s : string) : string := strip space2 space3 s.

(** The same from the right: the reversed string shows the encodings
    backwards. *)
Definition trim_right (s : string) : string :=
  srev (strip (fun c1 c2 => space2 c2 c1) (fun c1 c2 c3 => space3 c3 c2 c1) (srev s)).

Definition trim_space (s : string) : string := trim_right (trim_left s).

(** ** Prefixes and suffixes *)

Fixpoint has_prefix (s p : string) : bool :=
  match p, s with
  | EmptyString, _ => true
  | String a p', String b s' => Ascii.eqb a b && has_prefix s' p'
  | String _ _, EmptyString => false
  end.

Fixpoint sdrop (n : nat) (s : string) : string :=
  match n, s with
  | O, _ => s
  | S n', String _ s' => sdrop n' s'
  | S _, EmptyString => EmptyString
  end.

Fixpoint stake (n : nat) (s : string) : string :=
  match n, s with
  | O, _ => EmptyString
  | S n', String c s' => String c (stake n' s')
  | S _, EmptyString => EmptyString
  end.

Definition has_suffix (s p : string) : bool :=
  (String.length p <=? String.length s)%nat &&
  String.eqb (sdrop (String.length s - String.length p) s) p.

Definition trim_prefix (s p : string) : string :=
  if has_prefix s p then sdrop (String.length p) s else s.

Definition trim_suffix (s p : string) : string :=
  if has_suffix s p then stake (String.length s - String.length p) s else s.

(** [strings.Index] and [strings.Contains]. *)
Fixpoint index_of (sub s : string) : option nat :=
  if has_prefix s sub then Some 0%nat
  else match s with
       | EmptyString => None
       | String _ s' => S <$> index_of sub s'
       end.

Definition contains (s sub : string) : bool := match index_of sub s with Some _ => true | None => false end.

(** [strings.LastIndex] *)
Fixpoint last_index_of (sub s : string) : option nat :=
  match s with
  | EmptyString => if has_prefix s sub then Some 0%nat else None
  | String _ s' =>
      match last_index_of sub s' with
      | Some n => Some (S n)
      | None => if has_prefix s sub then Some 0%nat else None
      end
  end.

(** ** [strings.Split] on one byte, [IndexByte] and [LastIndexByte] *)

Fixpoint split_on (sep : ascii) (s : string) : list string :=
  match s with
  | EmptyString => [""]
  | String c s' =>
      if Ascii.eqb c sep then "" :: split_on sep s'
      else match split_on sep s' with
           | [] => [String c ""]
           | w :: ws => String c w :: ws
           end
  end.

Fixpoint cut_at (sep : ascii) (s : string) : option (string * string) :=
  match s with
  | EmptyString => None
  | String c s' =>
      if Ascii.eqb c sep then Some ("", s')
      else match cut_at sep s' with
           | Some (l, r) => Some (String c l, r)
           | None => None
           end
  end.

(** The text before and after the last occurrence. *)
Fixpoint cut_last (sep : ascii) (s : string) : option (string * string) :=
  match s with
  | EmptyString => None
  | String c s' =>
      match cut_last sep s' with
      | Some (l, r) => Some (String c l, r)
      | None => if Ascii.eqb c sep then Some ("", s') else None
      end
  end.

Fixpoint string_join (sep : string) (l : list string) : string :=
  match l with
  | [] => ""
  | [w] => w
  | w :: ws => String.append w (String.append sep (string_join sep ws))
  end.

(** ** Numbers *)

Definition digit_value (c : ascii) : Z := code c - 48.

Definition digit_char (z : Z) : ascii := byte (48 + z).

Fixpoint digits_value (acc : Z) (s : string) : option Z :=
  match s with
  | EmptyString => Some acc
  | String c s' =>
      if is_digit c then digits_value (acc * 10 + digit_value c) s' else None
  end.

(** [strconv.ParseUint(s, 10, bits)]. *)
Definition parse_uint (bits : Z) (s : string) : option Z :=
  if String.eqb s "" then None
  else match digits_value 0 s with
       | Some v => if v <? 2 ^ bits then Some v else None
       | None => None
       end.

(** Decimal text of a number below 1000. *)
Definition dec3 (z : Z) : string :=
  if z <? 10 then String (digit_char z) ""
  else if z <? 100 then String (digit_char (z / 10)) (String (digit_char (z mod 10)) "")
  else String (digit_char (z / 100))
         (String (digit_char (z / 10 mod 10)) (String (digit_char (z mod 10)) "")).

Definition hex_char (z : Z) : ascii :=
  if z <? 10 then byte (48 + z) else byte (87 + z).

(** Lower-case hexadecimal text of a 16-bit number, without leading zeros. *)
Definition hex4 (z : Z) : string :=
  let d3 := z / 4096 in let d2 := z / 256 mod 16 in
  let d1 := z / 16 mod 16 in let d0 := z mod 16 in
  if 4096 <=? z then
    String (hex_char d3) (String (hex_char d2) (String (hex_char d1) (String (hex_char d0) "")))
  else if 256 <=? z then
    String (hex_char d2) (String (hex_char d1) (String (hex_char d0) ""))
  else if 16 <=? z then String (hex_char d1) (String (hex_char d0) "")
  else String (hex_char d0) "".

(** The value of one hexadecimal digit, upper or lower case. *)
Definition hex_value (c : ascii) : option Z :=
  if is_digit c then Some (code c - 48)
  else if between "a" c "f" then Some (code c - 87)
  else if between "A" c "F" then Some (code c - 55)
  else None.

(** [hex.DecodeString] succeeds: an even number of hexadecimal digits. *)
Definition hex_decodes (s : string) : bool :=
  Nat.even (String.length s) && sforall (fun c => bool_decide (is_Some (hex_value c))) s.

(** ** Facts about bytes *)

Lemma code_range c : 0 <= code c < 256.
Proof. unfold code. pose proof (N_ascii_bounded c). lia. Qed.

Lemma byte_code c : byte (code c) = c.
Proof. unfold byte, code. rewrite N2Z.id. apply ascii_N_embedding. Qed.

Lemma code_byte z : 0 <= z < 256 -> code (byte z) = z.
Proof.
  intros Hz. unfold byte, code. rewrite N_ascii_embedding; lia.
Qed.

Lemma code_inj c1 c2 : code c1 = code c2 -> c1 = c2.
Proof. intros H. rewrite <- (byte_code c1), <- (byte_code c2). by f_equal. Qed.

Lemma between_spec lo c hi : between lo c hi = true <-> code lo <= code c <= code hi.
Proof. unfold between. rewrite andb_true_iff, !Z.leb_le. done. Qed.

Lemma lower_byte_id c : is_upper c = false -> lower_byte c = c.
Proof. unfold lower_byte. by intros ->. Qed.

(** ** Facts about strings *)

Lemma sapp_cons c s1 s2 : String c s1 +:+ s2 = String c (s1 +:+ s2).
Proof. done. Qed.

Lemma sapp_nil_l s : "" +:+ s = s.
Proof. done. Qed.

Lemma sapp_nil_r s : s +:+ "" = s.
Proof. induction s as [|c s IH]; [done|]. by rewrite sapp_cons, IH. Qed.

Lemma sapp_assoc s1 s2 s3 : s1 +:+ (s2 +:+ s3) = (s1 +:+ s2) +:+ s3.
Proof. induction s1 as [|c s1 IH]; [done|]. by rewrite !sapp_cons, IH. Qed.

Lemma sapp_length s1 s2 :
  String.length (s1 +:+ s2) = (String.length s1 + String.length s2)%nat.
Proof. induction s1 as [|c s1 IH]; [done|]. rewrite sapp_cons; cbn. by rewrite IH. Qed.

Lemma sappend_rev_app s acc : sappend_rev s acc = srev s +:+ acc.
Proof.
  unfold srev. revert acc. induction s as [|c s IH]; intros acc; cbn; [done|].
  rewrite IH, (IH (String c "")), <- sapp_assoc. done.
Qed.

Lemma srev_cons c s : srev (String c s) = srev s +:+ String c "".
Proof. unfold srev at 1. cbn. by rewrite sappend_rev_app. Qed.

Lemma srev_app s1 s2 : srev (s1 +:+ s2) = srev s2 +:+ srev s1.
Proof.
  induction s1 as [|c s1 IH]; [by rewrite sapp_nil_l, sapp_nil_r|].
  by rewrite sapp_cons, !srev_cons, IH, sapp_assoc.
Qed.

Lemma srev_involutive s : srev (srev s) = s.
Proof. induction s as [|c s IH]; [done|]. by rewrite srev_cons, srev_app, IH. Qed.

Lemma sforall_app f s1 s2 : sforall f (s1 +:+ s2) = sforall f s1 && sforall f s2.
Proof. induction s1 as [|c s1 IH]; [done|]. rewrite sapp_cons; cbn. by rewrite IH, andb_assoc. Qed.

Lemma sforall_srev f s : sforall f (srev s) = sforall f s.
Proof.
  induction s as [|c s IH]; [done|].
  rewrite srev_cons, sforall_app, IH; cbn. by rewrite andb_true_r, andb_comm.
Qed.

Lemma sforall_impl (f g : ascii -> bool) s :
  (forall c, f c = true -> g c = true) -> sforall f s = true -> sforall g s = true.
Proof.
  intros Hfg. induction s as [|c s IH]; cbn; [done|].
  rewrite !andb_true_iff. intros [??]. auto.
Qed.

(** *** Prefixes, suffixes, cutting *)

Lemma has_prefix_spec s p : has_prefix s p = true <-> exists q, s = p +:+ q.
Proof.
  revert s. induction p as [|c p IH]; intros s; [by destruct s; split; eauto|].
  destruct s as [|c' s]; cbn; [split; [done | by intros [q Hq]]|].
  rewrite andb_true_iff, IH, Ascii.eqb_eq. split.
  - intros [<- [q ->]]. by exists q.
  - intros [q Hq]. rewrite sapp_cons in Hq. injection Hq as -> ->. eauto.
Qed.

Lemma sdrop_app s1 s2 : sdrop (String.length s1) (s1 +:+ s2) = s2.
Proof. induction s1; done. Qed.

Lemma stake_app s1 s2 : stake (String.length s1) (s1 +:+ s2) = s1.
Proof. induction s1 as [|c s1 IH]; [by destruct s2|]. cbn. by f_equal. Qed.

Lemma stake_all s n : (String.length s <= n)%nat -> stake n s = s.
Proof. revert n. induction s as [|c s IH]; intros [|n] Hn; cbn in *; try done; [lia|]. by rewrite IH by lia. Qed.

Lemma stake_sdrop n s : stake n s +:+ sdrop n s = s.
Proof.
  revert s. induction n as [|n IH]; intros s; [done|].
  destruct s as [|c s]; [done|]. cbn. by rewrite sapp_cons, IH.
Qed.

Lemma stake_app_le n s1 s2 : (n <= String.length s1)%nat -> stake n (s1 +:+ s2) = stake n s1 /\ sdrop n (s1 +:+ s2) = sdrop n s1 +:+ s2.
Proof.
  revert s1. induction n as [|n IH]; intros [|c s1] Hn; cbn [String.length] in *; [done|done|lia|]. rewrite sapp_cons. cbn [stake sdrop].
  destruct (IH s1) as [H1 H2]; [lia|]. by rewrite H1, H2.
Qed.

Lemma stake_app_ge n s1 s2 : (String.length s1 <= n)%nat ->
  stake n (s1 +:+ s2) = s1 +:+ stake (n - String.length s1) s2 /\ sdrop n (s1 +:+ s2) = sdrop (n - String.length s1) s2.
Proof.
  revert n. induction s1 as [|c s1 IH]; intros n Hn; [by rewrite Nat.sub_0_r|]. destruct n as [|n]; cbn [String.length] in *; [lia|].
  rewrite !sapp_cons. cbn [stake sdrop]. destruct (IH n) as [H1 H2]; [lia|]. by rewrite H1, H2.
Qed.

Lemma has_suffix_spec s p : has_suffix s p = true <-> exists q, s = q +:+ p.
Proof.
  unfold has_suffix. rewrite andb_true_iff, Nat.leb_le, String.eqb_eq. split.
  - intros [_ Hdrop]. exists (stake (String.length s - String.length p) s).
    by rewrite <- Hdrop at 2; rewrite stake_sdrop.
  - intros [q ->]. rewrite sapp_length.
    replace (String.length q + String.length p - String.length p)%nat with (String.length q) by lia.
    rewrite sdrop_app. split; [lia|done].
Qed.

Lemma has_suffix_app q p : has_suffix (q +:+ p) p = true.
Proof. apply has_suffix_spec. eauto. Qed.

Lemma trim_suffix_app q p : trim_suffix (q +:+ p) p = q.
Proof.
  unfold trim_suffix. rewrite has_suffix_app, sapp_length.
  replace (String.length q + String.length p - String.length p)%nat with (String.length q) by lia.
  apply stake_app.
Qed.

Lemma split_on_nonempty sep s : split_on sep s <> [].
Proof. destruct s as [|c s]; cbn; [done|]. destruct (Ascii.eqb c sep); [done|]. by destruct (split_on sep s). Qed.

Lemma split_on_app sep s1 s2 :
  split_on sep (s1 +:+ String sep s2) = split_on sep s1 ++ split_on sep s2.
Proof.
  induction s1 as [|c s1 IH].
  - rewrite sapp_nil_l. cbn [split_on]. by rewrite Ascii.eqb_refl.
  - rewrite sapp_cons. cbn [split_on]. rewrite IH. destruct (Ascii.eqb c sep); [done|].
    pose proof (split_on_nonempty sep s1). by destruct (split_on sep s1).
Qed.

Lemma string_join_cons sep w ws :
  ws <> [] -> string_join sep (w :: ws) = w +:+ sep +:+ string_join sep ws.
Proof. by destruct ws. Qed.

Lemma join_split sep s : string_join (String sep "") (split_on sep s) = s.
Proof.
  induction s as [|c s IH]; [done|]. cbn [split_on].
  destruct (Ascii.eqb c sep) eqn:Heq.
  - apply Ascii.eqb_eq in Heq as ->.
    rewrite string_join_cons by apply split_on_nonempty. by rewrite IH.
  - pose proof (split_on_nonempty sep s). destruct (split_on sep s) as [|w [|w' ws]]; [done| |].
    + cbn in *. by rewrite IH.
    + rewrite string_join_cons in * by done. by rewrite sapp_cons, IH.
Qed.

Lemma string_join_app sep l1 l2 :
  l1 <> [] -> l2 <> [] ->
  string_join sep (l1 ++ l2) = string_join sep l1 +:+ sep +:+ string_join sep l2.
Proof.
  intros H1 H2. induction l1 as [|w l1 IH]; [done|].
  destruct l1 as [|w' l1]; [by rewrite <- string_join_cons|].
  change ((w :: w' :: l1) ++ l2) with (w :: ((w' :: l1) ++ l2)).
  rewrite string_join_cons by done.
  rewrite IH by done. rewrite (string_join_cons sep w (w' :: l1)) by done.
  by rewrite <- !sapp_assoc.
Qed.

Lemma sforall_split f sep s :
  sforall f s = true -> Forall (fun w => sforall f w = true) (split_on sep s).
Proof.
  induction s as [|c s IH]; cbn; [intros _; repeat constructor|].
  rewrite andb_true_iff. intros [Hc Hs]. specialize (IH Hs).
  destruct (Ascii.eqb c sep); [by constructor|].
  destruct (split_on sep s) as [|w ws].
  - constructor; [|done]. cbn. by rewrite Hc.
  - inversion IH; subst. constructor; [|done]. cbn. by rewrite Hc.
Qed.

(** ** [ToLower] and [TrimSpace] on plain text *)

(** Text that [ToLower] keeps: no upper-case letter, and not one of the two
    lead bytes that start a code point with an ASCII lower case. *)
Definition lower_stable (c : ascii) : bool :=
  negb (is_upper c) && (code c <? 128).

Lemma to_lower_id s : sforall lower_stable s = true -> to_lower s = s.
Proof.
  assert (Hlead : forall c z, lower_stable c = true -> 128 <= z -> is_byte z c = false).
  { intros c z Hc Hz. unfold lower_stable, is_byte in *. to_prop. apply Z.eqb_neq. lia. }
  induction s as [|c s IH]; [done|]. cbn [sforall]. rewrite andb_true_iff.
  intros [Hc Hs]. specialize (IH Hs).
  assert (Hlow : lower_byte c = c).
  { apply lower_byte_id. unfold lower_stable in Hc. to_prop. done. }
  cbn [to_lower]. destruct s as [|c2 s2]; [by rewrite Hlow|].
  rewrite (Hlead c 0xC4) by done. cbn [andb].
  destruct s2 as [|c3 s3]; [by rewrite Hlow, IH|].
  rewrite (Hlead c 0xE2) by done. cbn [andb]. by rewrite Hlow, IH.
Qed.

(** A byte of printable ASCII text is neither a space nor part of the
    encoding of one. *)
Definition solid (c : ascii) : bool := (33 <=? code c) && (code c <? 127).

Lemma strip_solid sp2 sp3 c s :
  space1 c = false -> (forall c2, sp2 c c2 = false) -> (forall c2 c3, sp3 c c2 c3 = false) ->
  strip sp2 sp3 (String c s) = String c s.
Proof.
  intros H1 H2 H3. cbn [strip]. rewrite H1.
  destruct s as [|c2 s2]; [done|]. rewrite H2. destruct s2 as [|c3 s3]; [done|]. by rewrite H3.
Qed.

Lemma solid_byte z c : solid c = true -> 128 <= z -> is_byte z c = false.
Proof. unfold solid, is_byte. intros Hc Hz. to_prop. apply Z.eqb_neq. lia. Qed.

Lemma solid_between lo hi c :
  solid c = true -> 128 <= code lo -> between lo c hi = false.
Proof.
  unfold solid, between. intros Hc Hlo. to_prop. apply andb_false_iff. left. apply Z.leb_gt. lia.
Qed.

Lemma solid_space1 c : solid c = true -> space1 c = false.
Proof.
  unfold solid, space1, between, is_byte. intros Hc. to_prop.
  rewrite !code_byte by lia. apply orb_false_iff. split.
  - apply andb_false_iff. right. apply Z.leb_gt. lia.
  - apply Z.eqb_neq. lia.
Qed.

Lemma trim_left_solid c s : solid c = true -> trim_left (String c s) = String c s.
Proof.
  intros Hc. apply strip_solid; [by apply solid_space1 | intros; unfold space2 | intros; unfold space3];
    rewrite !(solid_byte _ c) by (done || lia); done.
Qed.

Lemma trim_right_solid c s : solid c = true -> trim_right (s +:+ String c "") = s +:+ String c "".
Proof.
  intros Hc. unfold trim_right. rewrite srev_app.
  change (srev (String c "") +:+ srev s) with (String c (srev s)).
  rewrite strip_solid; [by rewrite srev_cons, srev_involutive | by apply solid_space1 | |].
  - intros c2. unfold space2. rewrite !(solid_byte _ c) by (done || lia). by rewrite andb_false_r.
  - intros c2 c3. unfold space3.
    rewrite !(solid_byte _ c) by (done || lia).
    rewrite (solid_between (byte 0x80) _ c) by (done || (rewrite code_byte; lia)).
    by rewrite !andb_false_r.
Qed.

Lemma snoc_inv s : s <> "" -> exists s' c, s = s' +:+ String c "".
Proof.
  intros Hs. destruct (srev s) as [|c r] eqn:Hr.
  - apply (f_equal srev) in Hr. rewrite srev_involutive in Hr. done.
  - exists (srev r), c. by rewrite <- srev_cons, <- Hr, srev_involutive.
Qed.

Lemma trim_space_id s : s <> "" -> sforall solid s = true -> trim_space s = s.
Proof.
  intros Hs Hsolid. unfold trim_space.
  assert (Hleft : trim_left s = s).
  { destruct s as [|c s]; [done|]. cbn in Hsolid. apply andb_true_iff in Hsolid as [? _].
    by apply trim_left_solid. }
  rewrite Hleft. destruct (snoc_inv s Hs) as (s' & c & ->).
  rewrite sforall_app in Hsolid. cbn in Hsolid. to_prop. by apply trim_right_solid.
Qed.

Lemma digit_value_nonneg c : is_digit c = true -> 0 <= digit_value c <= 9.
Proof.
  unfold is_digit, digit_value. rewrite between_spec. change (code "0") with 48. change (code "9") with 57. lia.
Qed.

Lemma hex_value_nonneg c d : hex_value c = Some d -> 0 <= d < 16.
Proof.
  unfold hex_value, is_digit. destruct (between "0" c "9") eqn:H1; [|destruct (between "a" c "f") eqn:H2];
    [| |destruct (between "A" c "F") eqn:H3; [|done]]; intros [= <-].
  - apply between_spec in H1. change (code "0") with 48 in H1. change (code "9") with 57 in H1. lia.
  - apply between_spec in H2. change (code "a") with 97 in H2. change (code "f") with 102 in H2. lia.
  - apply between_spec in H3. change (code "A") with 65 in H3. change (code "F") with 70 in H3. lia.
Qed.

Lemma digits_value_nonneg s acc v : 0 <= acc -> digits_value acc s = Some v -> 0 <= v.
Proof.
  revert acc. induction s as [|c s IH]; intros acc Hacc; cbn [digits_value]; [by intros [= <-]|].
  destruct (is_digit c) eqn:Hc; [|done]. apply digit_value_nonneg in Hc. apply IH. lia.
Qed.

Lemma parse_uint_nonneg bits s v : parse_uint bits s = Some v -> 0 <= v < 2 ^ bits.
Proof.
  unfold parse_uint. destruct (String.eqb s ""); [done|].
  destruct (digits_value 0 s) as [w|] eqn:Hw; [|done]. destruct (w <? 2 ^ bits) eqn:Hlt; [|done].
  intros [= <-]. to_prop. split; [|done]. by eapply digits_value_nonneg in Hw.
Qed.
