(* ===== verification/NetIP.v ===== *)
(** * Go's [net/netip]

    Addresses, prefixes and address-port pairs as tun-proxy uses them: the
    value types of [netip.Addr], [netip.Prefix] and [netip.AddrPort], the
    predicates on them, [ParseAddr], [ParsePrefix], [ParseAddrPort] and the
    text of an address.  Parse errors carry no detail here, a failed parse is
    [None]. *)

From stdpp Require Import pretty.
From S2P Require Import Prelude.
From S2P Require Import GoStrings.

(** ** Addresses *)

(** [netip.Addr]: the zero value, a 32-bit IPv4 value, or a 128-bit IPv6
    value with its zone (empty when there is none). *)
Inductive addr : Type :=
| AddrZero
| Addr4 (v : Z)
| Addr6 (v : Z) (zone : string).

#[export] Instance addr_eq_dec : EqDecision addr.
Proof. solve_decision. Defined.

#[export] Instance addr_countable : Countable addr.
Proof.
  refine (inj_countable'
    (fun a => match a with
              | AddrZero => inl (inl tt)
              | Addr4 v => inl (inr v)
              | Addr6 v z => inr (v, z)
              end)
    (fun x => match x with
              | inl (inl tt) => AddrZero
              | inl (inr v) => Addr4 v
              | inr (v, z) => Addr6 v z
              end) _).
  by intros [].
Defined.

Definition addr_wf (a : addr) : Prop :=
  match a with
  | AddrZero => True
  | Addr4 v => 0 <= v < 2 ^ 32
  | Addr6 v _ => 0 <= v < 2 ^ 128
  end.

Definition addr_valid (a : addr) : bool :=
  match a with AddrZero => false | _ => true end.

Definition bit_len (a : addr) : Z :=
  match a with AddrZero => 0 | Addr4 _ => 32 | Addr6 _ _ => 128 end.

Definition addr_val (a : addr) : Z :=
  match a with AddrZero => 0 | Addr4 v => v | Addr6 v _ => v end.

Definition is4 (a : addr) : bool :=
  match a with Addr4 _ => true | _ => false end.

Definition is6 (a : addr) : bool :=
  match a with Addr6 _ _ => true | _ => false end.

Definition addr_zone (a : addr) : string :=
  match a with Addr6 _ z => z | _ => "" end.

Definition has_zone (a : addr) : bool := negb (bool_decide (addr_zone a = "")).

(** [WithZone]: only IPv6 addresses carry a zone. *)
Definition with_zone (a : addr) (z : string) : addr :=
  match a with Addr6 v _ => Addr6 v z | _ => a end.

Definition is4in6 (a : addr) : bool :=
  match a with Addr6 v _ => Z.shiftr v 32 =? 0xffff | _ => false end.

Definition unmap (a : addr) : addr :=
  match a with
  | Addr6 v _ => if is4in6 a then Addr4 (v mod 2 ^ 32) else a
  | _ => a
  end.

(** [Next]: the following address of the family, or the zero value after the
    last one. *)
Definition addr_next (a : addr) : addr :=
  match a with
  | AddrZero => AddrZero
  | Addr4 v => if v + 1 =? 2 ^ 32 then AddrZero else Addr4 (v + 1)
  | Addr6 v z => if v + 1 =? 2 ^ 128 then AddrZero else Addr6 (v + 1) z
  end.

(** [Compare]: by family, value, then zone. *)
Definition addr_compare (a b : addr) : comparison :=
  match Z.compare (bit_len a) (bit_len b) with
  | Eq => match Z.compare (addr_val a) (addr_val b) with
          | Eq => String.compare (addr_zone a) (addr_zone b)
          | c => c
          end
  | c => c
  end.

Definition addr_ltb (a b : addr) : bool :=
  match addr_compare a b with Lt => true | _ => false end.

(** ** Address classes *)

Definition is_unspecified (a : addr) : bool :=
  bool_decide (a = Addr4 0) || bool_decide (a = Addr6 0 "").

Definition is_loopback (a : addr) : bool :=
  match unmap a with
  | Addr4 v => Z.shiftr v 24 =? 127
  | Addr6 v _ => v =? 1
  | AddrZero => false
  end.

Definition is_multicast (a : addr) : bool :=
  match unmap a with
  | Addr4 v => Z.shiftr v 28 =? 0xe
  | Addr6 v _ => Z.shiftr v 120 =? 0xff
  | AddrZero => false
  end.

Definition is_private (a : addr) : bool :=
  match unmap a with
  | Addr4 v =>
      (Z.shiftr v 24 =? 10) || (Z.shiftr v 20 =? 0xac1) || (Z.shiftr v 16 =? 0xc0a8)
  | Addr6 v _ => Z.shiftr v 121 =? 0x7e
  | AddrZero => false
  end.

(** ** Prefixes *)

(** [netip.Prefix]: the address without its zone and [bits + 1], 0 for an
    invalid prefix. *)
Record prefix : Type := Prefix { prefix_addr : addr; bits_plus_one : Z }.

#[export] Instance prefix_eq_dec : EqDecision prefix.
Proof. solve_decision. Defined.

Definition prefix_from (a : addr) (bits : Z) : prefix :=
  Prefix (with_zone a "")
    (if addr_valid a && (0 <=? bits) && (bits <=? bit_len a) then bits + 1 else 0).

Definition prefix_zero : prefix := Prefix AddrZero 0.

Definition prefix_valid (p : prefix) : bool := 0 <? bits_plus_one p.

Definition prefix_bits (p : prefix) : Z := bits_plus_one p - 1.

(** Clears the host bits of a value of [len] bits. *)
Definition mask_value (len bits v : Z) : Z :=
  Z.shiftl (Z.shiftr v (len - bits)) (len - bits).

Definition mask_addr (a : addr) (bits : Z) : addr :=
  match a with
  | AddrZero => AddrZero
  | Addr4 v => Addr4 (mask_value 32 bits v)
  | Addr6 v _ => Addr6 (mask_value 128 bits v) ""
  end.

Definition masked (p : prefix) : prefix :=
  if prefix_valid p then Prefix (mask_addr (prefix_addr p) (prefix_bits p)) (bits_plus_one p)
  else prefix_zero.

(** [Contains]: no zones, the same family and equal network bits. *)
Definition prefix_contains (p : prefix) (a : addr) : bool :=
  prefix_valid p && negb (has_zone a) && addr_valid a &&
  (bit_len (prefix_addr p) =? bit_len a) &&
  (Z.shiftr (addr_val a) (bit_len a - prefix_bits p) =?
   Z.shiftr (addr_val (prefix_addr p)) (bit_len a - prefix_bits p)).

Record addr_port : Type := AddrPort { ap_addr : addr; ap_port : Z }.

#[export] Instance addr_port_eq_dec : EqDecision addr_port.
Proof. solve_decision. Defined.

#[export] Instance addr_port_countable : Countable addr_port.
Proof.
  refine (inj_countable' (fun x => (ap_addr x, ap_port x)) (fun '(a, p) => AddrPort a p) _).
  by intros [].
Defined.

Definition ap_valid (x : addr_port) : bool := addr_valid (ap_addr x).

(** ** Parsing addresses *)

(** [parseIPv4Fields]: [first] and [prev_dot] say where the byte stands,
    [val] and [digits] describe the field read so far, [pos] counts the
    finished fields. *)
Fixpoint parse_ipv4_loop (s : string) (first prev_dot : bool) (val digits pos : Z)
    (fields : list Z) : option (list Z) :=
  match s with
  | EmptyString => if pos <? 3 then None else Some (fields ++ [val])
  | String c s' =>
      if is_digit c then
        if (digits =? 1) && (val =? 0) then None
        else let val' := val * 10 + digit_value c in
             if 255 <? val' then None
             else parse_ipv4_loop s' false false val' (digits + 1) pos fields
      else if Ascii.eqb c "." then
        if first || bool_decide (s' = "") || prev_dot then None
        else if pos =? 3 then None
        else parse_ipv4_loop s' false true 0 0 (pos + 1) (fields ++ [val])
      else None
  end.

Definition parse_ipv4_fields (s : string) : option (list Z) :=
  parse_ipv4_loop s true false 0 0 0 [].

(** Big-endian value of a list of bytes. *)
Definition be_value (bytes : list Z) : Z := fold_left (fun acc b => acc * 256 + b) bytes 0.

Definition parse_ipv4 (s : string) : option addr :=
  match parse_ipv4_fields s with
  | Some fields => Some (Addr4 (be_value fields))
  | None => None
  end.

(** One group of hexadecimal digits: the value, the number of digits and the
    rest of the text; more than four digits fail. *)
Fixpoint parse_hex_group (s : string) (acc : Z) (count : nat) : option (Z * nat * string) :=
  match s with
  | EmptyString => Some (acc, count, s)
  | String c s' =>
      match hex_value c with
      | Some d =>
          if (3 <? Z.of_nat count) then None
          else let acc' := acc * 16 + d in
               if 0xffff <? acc' then None else parse_hex_group s' acc' (S count)
      | None => Some (acc, count, s)
      end
  end.

(** The loop of [parseIPv6].  [bytes] are the bytes read so far ([i] is their
    number), [ellipsis] the position of the "::".  [fuel] bounds the eight
    iterations that the condition [i < 16] allows. *)
Fixpoint parse_ipv6_loop (fuel : nat) (s : string) (bytes : list Z) (ellipsis : option nat)
    : option (list Z * option nat * string) :=
  match fuel with
  | O => Some (bytes, ellipsis, s)
  | S fuel' =>
      if (16 <=? length bytes)%nat then Some (bytes, ellipsis, s)
      else
        match parse_hex_group s 0 0 with
        | None => None
        | Some (acc, off, rest) =>
            if (off =? 0)%nat then None
            else if has_prefix rest "." then
              if bool_decide (ellipsis = None) && negb (length bytes =? 12)%nat then None
              else if (16 <? length bytes + 4)%nat then None
              else match parse_ipv4_fields s with
                   | Some fields => Some (bytes ++ fields, ellipsis, "")
                   | None => None
                   end
            else
              let bytes' := bytes ++ [acc / 256; acc mod 256] in
              match rest with
              | EmptyString => Some (bytes', ellipsis, "")
              | String c s1 =>
                  if negb (Ascii.eqb c ":") then None
                  else match s1 with
                       | EmptyString => None
                       | String c1 s2 =>
                           if Ascii.eqb c1 ":" then
                             match ellipsis with
                             | Some _ => None
                             | None =>
                                 if bool_decide (s2 = "")
                                 then Some (bytes', Some (length bytes'), "")
                                 else parse_ipv6_loop fuel' s2 bytes' (Some (length bytes'))
                             end
                           else parse_ipv6_loop fuel' s1 bytes' ellipsis
                       end
              end
        end
  end.

(** The end of [parseIPv6]: the whole text is used and the ellipsis expands
    to at least one group. *)
Definition finish_ipv6 (r : list Z * option nat * string) (zone : string) : option addr :=
  let '(bytes, ellipsis, rest) := r in
  if negb (bool_decide (rest = "")) then None
  else if (length bytes <? 16)%nat then
    match ellipsis with
    | None => None
    | Some e =>
        Some (Addr6 (be_value (take e bytes ++ replicate (16 - length bytes) 0 ++ drop e bytes)) zone)
    end
  else match ellipsis with
       | Some _ => None
       | None => Some (Addr6 (be_value bytes) zone)
       end.

Definition parse_ipv6_body (s zone : string) : option addr :=
  if has_prefix s "::" then
    let s' := sdrop 2 s in
    if bool_decide (s' = "") then Some (Addr6 0 zone)
    else match parse_ipv6_loop 8 s' [] (Some 0%nat) with
         | Some r => finish_ipv6 r zone
         | None => None
         end
  else match parse_ipv6_loop 8 s [] None with
       | Some r => finish_ipv6 r zone
       | None => None
       end.

Definition parse_ipv6 (s : string) : option addr :=
  match cut_at "%" s with
  | Some (s', zone) => if bool_decide (zone = "") then None else parse_ipv6_body s' zone
  | None => parse_ipv6_body s ""
  end.

(** [ParseAddr]: the first of '.', ':' and '%' decides the syntax. *)
Fixpoint addr_syntax (s : string) : option ascii :=
  match s with
  | EmptyString => None
  | String c s' =>
      if Ascii.eqb c "." || Ascii.eqb c ":" || Ascii.eqb c "%" then Some c else addr_syntax s'
  end.

Definition parse_addr (s : string) : option addr :=
  match addr_syntax s with
  | Some c => if Ascii.eqb c "." then parse_ipv4 s
              else if Ascii.eqb c ":" then parse_ipv6 s
              else None
  | None => None
  end.

(** [ParsePrefix]: no zones, and the length has no sign or leading zero. *)
Definition parse_prefix (s : string) : option prefix :=
  match cut_last "/" s with
  | None => None
  | Some (ip, bits_text) =>
      match parse_addr ip with
      | None => None
      | Some a =>
          if is6 a && has_zone a then None
          else if (1 <? String.length bits_text)%nat &&
                  negb (match bits_text with String c _ => between "1" c "9" | _ => false end)
          then None
          else match parse_uint 63 bits_text with
               | None => None
               | Some bits =>
                   if (if is6 a then 128 else 32) <? bits then None
                   else Some (prefix_from a bits)
               end
      end
  end.

(** [ParseAddrPort]: brackets exactly around IPv6 addresses. *)
Definition parse_addr_port (s : string) : option addr_port :=
  match cut_last ":" s with
  | None => None
  | Some (ip, port) =>
      if bool_decide (ip = "") || bool_decide (port = "") then None
      else
        let v6 := has_prefix ip "[" in
        if v6 && ((String.length ip <? 2)%nat || negb (has_suffix ip "]")) then None
        else
          let ip' := if v6 then stake (String.length ip - 2) (sdrop 1 ip) else ip in
          match parse_uint 16 port, parse_addr ip' with
          | Some p, Some a =>
              if v6 && is4 a then None
              else if negb v6 && is6 a then None
              else Some (AddrPort a p)
          | _, _ => None
          end
  end.

(** ** The text of an address *)

Definition ipv4_text (v : Z) : string :=
  dec3 (v / 2 ^ 24 mod 256) +:+ "." +:+ dec3 (v / 2 ^ 16 mod 256) +:+ "." +:+
  dec3 (v / 2 ^ 8 mod 256) +:+ "." +:+ dec3 (v mod 256).

(** The eight groups of an IPv6 value. *)
Definition groups (v : Z) : list Z :=
  (fun i => v / 2 ^ (112 - 16 * i) mod 2 ^ 16) <$> [0; 1; 2; 3; 4; 5; 6; 7].

(** The length of the run of zero groups at the head of the list. *)
Fixpoint zero_run (gs : list Z) : nat :=
  match gs with
  | g :: gs' => if g =? 0 then S (zero_run gs') else O
  | [] => O
  end.

(** The first longest run of at least two zero groups: [(start, end)]. *)
Fixpoint longest_run (gs : list Z) (i : nat) (best : nat * nat) : nat * nat :=
  match gs with
  | [] => best
  | _ :: gs' =>
      let l := zero_run gs in
      let best' := if (2 <=? l)%nat && (snd best - fst best <? l)%nat then (i, (i + l)%nat) else best in
      longest_run gs' (S i) best'
  end.

Definition zero_span (gs : list Z) : nat * nat := longest_run gs 0 (255%nat, 255%nat).

(** The printing loop of [appendTo6] from group [i] on; [skip] groups are
    still covered by the ellipsis. *)
Fixpoint groups_text (gs : list Z) (i skip : nat) (span : nat * nat) : string :=
  match gs with
  | [] => ""
  | g :: gs' =>
      match skip with
      | S skip' => groups_text gs' (S i) skip' span
      | O =>
          if (i =? fst span)%nat then
            "::" +:+ groups_text gs' (S i) (snd span - fst span - 1) span
          else
            (if ((i =? 0) || (i =? snd span))%nat then "" else ":") +:+
            hex4 g +:+ groups_text gs' (S i) 0 span
      end
  end.

Definition ipv6_text (v : Z) : string :=
  let gs := groups v in groups_text gs 0 0 (zero_span gs).

Definition zone_text (z : string) : string := if bool_decide (z = "") then "" else "%" +:+ z.

Definition addr_text (a : addr) : string :=
  match a with
  | AddrZero => "invalid IP"
  | Addr4 v => ipv4_text v
  | Addr6 v z =>
      if is4in6 a then "::ffff:" +:+ ipv4_text (v mod 2 ^ 32) +:+ zone_text z
      else ipv6_text v +:+ zone_text z
  end.

Definition prefix_text (p : prefix) : string :=
  if prefix_valid p then addr_text (prefix_addr p) +:+ "/" +:+ dec3 (prefix_bits p)
  else "invalid Prefix".

(** [AddrPort.String] *)
Definition addr_port_text (x : addr_port) : string :=
  match ap_addr x with
  | AddrZero => "invalid AddrPort"
  | Addr4 _ => addr_text (ap_addr x) +:+ ":" +:+ pretty (ap_port x)
  | Addr6 _ _ => "[" +:+ addr_text (ap_addr x) +:+ "]:" +:+ pretty (ap_port x)
  end.
