(* ===== verification/GoTime.v ===== *)
(** * Go's [time.ParseDuration]

    Durations are nanoseconds.  The fraction of a number goes through float64
    arithmetic, as in Go; the binary64 operations are those of [SpecFloat]. *)

From Stdlib Require Import Floats.SpecFloat.
From stdpp Require Import pretty.
From S2P Require Import Prelude.
From S2P Require Import GoStrings.

Definition nanosecond : Z := 1.
Definition microsecond : Z := 1000 * nanosecond.
Definition millisecond : Z := 1000 * microsecond.
Definition second : Z := 1000 * millisecond.
Definition minute : Z := 60 * second.
Definition hour : Z := 60 * minute.

(** ** float64 *)

Definition float64_of (z : Z) : spec_float := binary_normalize 53 1024 z 0 false.

Definition float64_mul (a b : spec_float) : spec_float := SFmul 53 1024 a b.

Definition float64_div (a b : spec_float) : spec_float := SFdiv 53 1024 a b.

(** Conversion of a non-negative number to [uint64]. *)
Definition float64_trunc (a : spec_float) : Z :=
  match a with
  | S754_finite false m e => Z.shiftl (Z.pos m) e
  | _ => 0
  end.

(** ** Parsing *)

Definition duration_limit : Z := 2 ^ 63.

(** [leadingInt]: the value of the leading digits and the rest; [None] on
    overflow. *)
Fixpoint leading_int (s : string) (x : Z) : option (Z * string) :=
  match s with
  | String c s' =>
      if is_digit c then
        if duration_limit / 10 <? x then None
        else let x' := x * 10 + digit_value c in
             if duration_limit <? x' then None else leading_int s' x'
      else Some (x, s)
  | EmptyString => Some (x, s)
  end.

(** [leadingFraction]: the value, its scale, and the rest.  Digits past the
    precision are skipped. *)
Fixpoint leading_fraction (s : string) (x scale : Z) (overflow : bool) : Z * Z * string :=
  match s with
  | String c s' =>
      if is_digit c then
        if overflow then leading_fraction s' x scale true
        else if (duration_limit - 1) / 10 <? x then leading_fraction s' x scale true
        else let y := x * 10 + digit_value c in
             if duration_limit <? y then leading_fraction s' x scale true
             else leading_fraction s' y (scale * 10) false
      else (x, scale, s)
  | EmptyString => (x, scale, s)
  end.

(** The text of the unit: everything up to a digit or a period. *)
Fixpoint unit_text (s : string) : string * string :=
  match s with
  | String c s' =>
      if Ascii.eqb c "." || is_digit c then ("", s)
      else let '(u, rest) := unit_text s' in (String c u, rest)
  | EmptyString => ("", "")
  end.

(** [unitMap]; the micro sign has two encodings. *)
Definition unit_of (u : string) : option Z :=
  if bool_decide (u = "ns") then Some nanosecond
  else if bool_decide (u = "us") || bool_decide (u = String (byte 0xC2) (String (byte 0xB5) "s")) ||
          bool_decide (u = String (byte 0xCE) (String (byte 0xBC) "s")) then Some microsecond
  else if bool_decide (u = "ms") then Some millisecond
  else if bool_decide (u = "s") then Some second
  else if bool_decide (u = "m") then Some minute
  else if bool_decide (u = "h") then Some hour
  else None.

(** One number with its unit: its nanoseconds and the rest. *)
Definition duration_term (s : string) : option (Z * string) :=
  match s with
  | String c _ =>
      if negb (Ascii.eqb c "." || is_digit c) then None
      else
        match leading_int s 0 with
        | None => None
        | Some (v, s1) =>
            let pre := negb (String.length s1 =? String.length s)%nat in
            let '(f, scale, s2, post) :=
              match s1 with
              | String "." s1' =>
                  let '(f, scale, s2) := leading_fraction s1' 0 1 false in
                  (f, scale, s2, negb (String.length s2 =? String.length s1')%nat)
              | _ => (0, 1, s1, false)
              end in
            if negb pre && negb post then None
            else
              let '(u, rest) := unit_text s2 in
              match unit_of u with
              | None => None
              | Some unit =>
                  if duration_limit / unit <? v then None
                  else
                    let v := v * unit in
                    let v := if 0 <? f
                             then v + float64_trunc (float64_mul (float64_of f) (float64_div (float64_of unit) (float64_of scale)))
                             else v in
                    if duration_limit <? v then None else Some (v, rest)
              end
        end
  | EmptyString => None
  end.

(** The loop over the terms.  Every term consumes text, so the length of the
    text is enough fuel. *)
Fixpoint duration_terms (fuel : nat) (s : string) (d : Z) : option Z :=
  match fuel with
  | O => None
  | S fuel' =>
      if bool_decide (s = "") then Some d
      else match duration_term s with
           | None => None
           | Some (v, rest) =>
               let d := d + v in
               if duration_limit <? d then None else duration_terms fuel' rest d
           end
  end.

(** [ParseDuration] *)
Definition parse_duration (s : string) : option Z :=
  let '(neg, s) := match s with
                   | String "-" s' => (true, s')
                   | String "+" s' => (false, s')
                   | _ => (false, s)
                   end in
  if bool_decide (s = "0") then Some 0
  else if bool_decide (s = "") then None
  else match duration_terms (S (String.length s)) s 0 with
       | None => None
       | Some d => if neg then Some (- d) else if duration_limit - 1 <? d then None else Some d
       end.

(** The fraction that the digits [v] make of a unit of [10 ^ prec], without
    trailing zeros, and the whole units. *)
Fixpoint fraction_text (prec : nat) (v : Z) (printing : bool) (acc : string) : string * Z :=
  match prec with
  | O => (if printing then String "." acc else acc, v)
  | S prec' =>
      let digit := v mod 10 in
      let printing := printing || negb (digit =? 0) in
      fraction_text prec' (v / 10) printing (if printing then String (digit_char digit) acc else acc)
  end.

(** [Duration.String] *)
Definition duration_text (d : Z) : string :=
  let u := Z.abs d in
  let text :=
    if u <? second then
      if u =? 0 then "0s"
      else if u <? microsecond then pretty u +:+ "ns"
      else
        let '(prec, name) :=
          if u <? millisecond then (3%nat, String (byte 0xc2) (String (byte 0xb5) "s")) else (6%nat, "ms") in
        let '(fraction, whole) := fraction_text prec u false "" in
        pretty whole +:+ fraction +:+ name
    else
      let '(fraction, whole) := fraction_text 9 u false "" in
      let seconds := pretty (whole mod 60) +:+ fraction +:+ "s" in
      let minutes := whole / 60 in
      if minutes =? 0 then seconds
      else
        let hours := minutes / 60 in
        (if hours =? 0 then "" else pretty hours +:+ "h") +:+ pretty (minutes mod 60) +:+ "m" +:+ seconds in
  if d <? 0 then String "-" text else text.

Example duration_texts :
  duration_text <$> [0; 1; 1500; 1500000; second; 90 * minute; 3661500000000; - 2 * second] =
  ["0s"; "1ns"; "1.5" +:+ String (byte 0xc2) (String (byte 0xb5) "s"); "1.5ms"; "1s"; "1h30m0s"; "1h1m1.5s"; "-2s"].
Proof. vm_compute. reflexivity. Qed.

Example parse_minute : parse_duration "1m" = Some minute.
Proof. reflexivity. Qed.

Example parse_mixed : parse_duration "1h15m30.918273645s" = Some (hour + 15 * minute + 30918273645).
Proof. vm_compute. reflexivity. Qed.

Example parse_fraction : parse_duration "1.5h" = Some (90 * minute) /\ parse_duration "0.3333333333333333333h" = Some 1200000000000.
Proof. vm_compute. split; reflexivity. Qed.

Example parse_bad : parse_duration "1" = None /\ parse_duration "m" = None /\ parse_duration "9223372036854775808ns" = None.
Proof. vm_compute. repeat split; reflexivity. Qed.

(** ** Bounds *)

Lemma duration_terms_bounds fuel s d v :
  0 <= d <= duration_limit -> (forall t w r, duration_term t = Some (w, r) -> 0 <= w) ->
  duration_terms fuel s d = Some v -> 0 <= v <= duration_limit.
Proof.
  intros Hd Hterm. revert s d Hd. induction fuel as [|fuel IH]; intros s d Hd; [done|]. cbn [duration_terms].
  case_bool_decide; [by intros [= <-]|]. destruct (duration_term s) as [[w r]|] eqn:Ht; [|done].
  apply Hterm in Ht. destruct (duration_limit <? d + w) eqn:Hlt; [done|]. to_prop. apply IH. lia.
Qed.

Lemma leading_int_nonneg s x v r : 0 <= x -> leading_int s x = Some (v, r) -> 0 <= v.
Proof.
  revert x. induction s as [|c s IH]; intros x Hx; cbn [leading_int]; [by intros [= <- _]|].
  destruct (is_digit c) eqn:Hc; [|by intros [= <- _]]. apply digit_value_nonneg in Hc.
  destruct (_ <? x); [done|]. destruct (_ <? _); [done|]. apply IH. lia.
Qed.

Lemma float64_trunc_nonneg a : 0 <= float64_trunc a.
Proof.
  destruct a as [| | |[] m e]; cbn; try done. apply Z.shiftl_nonneg. lia.
Qed.

Lemma duration_term_nonneg s v r : duration_term s = Some (v, r) -> 0 <= v.
Proof.
  unfold duration_term. destruct s as [|c s]; [done|]. destruct (negb _); [done|].
  destruct (leading_int (String c s) 0) as [[x s1]|] eqn:Hl; [|done]. apply leading_int_nonneg in Hl; [|done].
  destruct (match s1 with String "." _ => _ | _ => _ end) as [[[f scale] s2] post].
  destruct (_ && _); [done|]. destruct (unit_text s2) as [u rest]. destruct (unit_of u) as [unit|] eqn:Hu; [|done].
  destruct (_ <? x); [done|]. destruct (duration_limit <? _); [done|]. intros [= <- _].
  assert (0 < unit).
  { unfold unit_of in Hu. repeat (destruct (bool_decide _); [injection Hu as <-; done|]).
    repeat case_bool_decide; try (injection Hu as <-; done); cbn in Hu; try (injection Hu as <-; done); done. }
  pose proof (float64_trunc_nonneg (float64_mul (float64_of f) (float64_div (float64_of unit) (float64_of scale)))).
  destruct (0 <? f); nia.
Qed.

(** A positive duration fits in an [int64]. *)
Lemma parse_duration_bounds s d : parse_duration s = Some d -> 0 < d -> d < 2 ^ 63.
Proof.
  unfold parse_duration. destruct (match s with String "-" _ => _ | _ => _ end) as [neg s'].
  case_bool_decide; [intros [= <-]; done|]. case_bool_decide; [done|].
  destruct (duration_terms _ s' 0) as [v|] eqn:Ht; [|done].
  apply duration_terms_bounds in Ht; [|done|apply duration_term_nonneg].
  destruct neg; [intros [= <-]; unfold duration_limit in *; lia|].
  destruct (_ <? v) eqn:Hv; [done|]. to_prop. intros [= <-]. unfold duration_limit in *. lia.
Qed.
