(* ===== verification/GoFiles.v ===== *)
(** * Go's [path/filepath] and [os]

    The lexical path functions, and a small model of the file system calls
    that tun-proxy makes: a map from paths to files, and a list of outcomes
    that decides which calls fail.  Every call consumes one outcome; when the
    list is used up calls succeed. *)

From S2P Require Import Prelude.
From S2P Require Import GoStrings.

(** ** Paths *)

(** [filepath.IsAbs] *)
Definition is_abs (path : string) : bool := has_prefix path "/".

(** The components that [filepath.Clean] keeps, in reverse order. *)
Fixpoint clean_components (rooted : bool) (parts : list string) (kept : list string) : list string :=
  match parts with
  | [] => kept
  | part :: parts' =>
      if bool_decide (part = "") || bool_decide (part = ".") then clean_components rooted parts' kept
      else if bool_decide (part = "..") then
        match kept with
        | k :: kept' =>
            if bool_decide (k = "..") then clean_components rooted parts' (".." :: kept)
            else clean_components rooted parts' kept'
        | [] => clean_components rooted parts' (if rooted then [] else [".."])
        end
      else clean_components rooted parts' (part :: kept)
  end.

(** [filepath.Clean] *)
Definition clean (path : string) : string :=
  if bool_decide (path = "") then "."
  else
    let rooted := is_abs path in
    let body := string_join "/" (rev (clean_components rooted (split_on "/" path) [])) in
    if rooted then "/" +:+ body else if bool_decide (body = "") then "." else body.

(** [filepath.Dir] *)
Definition dir (path : string) : string :=
  match cut_last "/" path with
  | Some (before, _) => clean (before +:+ "/")
  | None => "."
  end.

(** [filepath.Base] *)
Definition base (path : string) : string :=
  if bool_decide (path = "") then "."
  else
    let stripped := fix strip (s : string) : string :=
      match s with String "/" s' => strip s' | _ => s end in
    let s := srev (stripped (srev path)) in
    if bool_decide (s = "") then "/"
    else match cut_last "/" s with Some (_, after) => after | None => s end.

(** ** Files *)

Inductive file_kind : Type := Regular | Symlink | Directory | Special.

#[export] Instance file_kind_eq_dec : EqDecision file_kind.
Proof. solve_decision. Defined.

Record inode : Type := MkInode {
  in_kind : file_kind;
  in_perm : Z;
  in_uid : Z;
  in_data : string
}.

(** 0600 in octal. *)
Definition mode_0600 : Z := 6 * 64.

(** The outcome of one call: it works, it moves only some bytes, or it fails
    after some bytes. *)
Inductive outcome : Type := Fine | Part (n : nat) | Fails (n : nat).

Record world : Type := MkWorld {
  w_fs : gmap string inode;
  w_outcomes : list outcome;
  w_euid : Z;
  w_random : list string;
  w_stamps : list string
}.

Definition set_fs (fs : gmap string inode) (w : world) : world :=
  MkWorld fs (w_outcomes w) (w_euid w) (w_random w) (w_stamps w).

Definition set_outcomes (os : list outcome) (w : world) : world :=
  MkWorld (w_fs w) os (w_euid w) (w_random w) (w_stamps w).

Inductive lstat_result : Type :=
| NotExist
| StatFailed
| Info (i : inode).

(** The next outcome. *)
Definition next_outcome (w : world) : outcome * world :=
  match w_outcomes w with
  | [] => (Fine, w)
  | o :: os => (o, set_outcomes os w)
  end.

Definition fails (o : outcome) : bool := match o with Fails _ => true | _ => false end.

(** A call without an effect on the files: [Sync], [Close], [Chmod] to the
    mode the file already has. *)
Definition plain_call (w : world) : bool * world :=
  let '(o, w) := next_outcome w in (negb (fails o), w).

Definition lstat (path : string) (w : world) : lstat_result * world :=
  let '(o, w) := next_outcome w in
  (if fails o then StatFailed
   else match w_fs w !! path with None => NotExist | Some i => Info i end, w).

(** Reads the whole file. *)
Definition read_file (path : string) (w : world) : option string * world :=
  let '(o, w) := next_outcome w in
  (if fails o then None else in_data <$> w_fs w !! path, w).

(** [OpenFile] with [O_CREATE] and [O_APPEND], mode 0600. *)
Definition open_append (path : string) (w : world) : bool * world :=
  let '(o, w) := next_outcome w in
  if fails o then (false, w)
  else (true, match w_fs w !! path with
              | Some _ => w
              | None => set_fs (<[path := MkInode Regular mode_0600 (w_euid w) ""]> (w_fs w)) w
              end).

(** One [Write] at the end of the file: the number of bytes and success. *)
Definition write_end (path contents : string) (w : world) : nat * bool * world :=
  let '(o, w) := next_outcome w in
  let n := match o with Fine => String.length contents | Part n | Fails n => Nat.min n (String.length contents) end in
  let w := match w_fs w !! path with
           | Some i => set_fs (<[path := MkInode (in_kind i) (in_perm i) (in_uid i) (in_data i +:+ stake n contents)]>
                                 (w_fs w)) w
           | None => w
           end in
  (n, negb (fails o), w).

(** [Truncate] *)
Definition truncate (path : string) (size : nat) (w : world) : bool * world :=
  let '(o, w) := next_outcome w in
  if fails o then (false, w)
  else (true, match w_fs w !! path with
              | Some i => set_fs (<[path := MkInode (in_kind i) (in_perm i) (in_uid i) (stake size (in_data i))]> (w_fs w)) w
              | None => w
              end).

(** [Remove]; the second result says whether the file was missing. *)
Definition remove (path : string) (w : world) : bool * bool * world :=
  let '(o, w) := next_outcome w in
  if fails o then (false, false, w)
  else match w_fs w !! path with
       | Some _ => (true, false, set_fs (delete path (w_fs w)) w)
       | None => (false, true, w)
       end.

(** [Rename] of an existing file. *)
Definition rename (from to : string) (w : world) : bool * world :=
  let '(o, w) := next_outcome w in
  if fails o then (false, w)
  else match w_fs w !! from with
       | Some i => (true, set_fs (<[to := i]> (delete from (w_fs w))) w)
       | None => (false, w)
       end.

(** [rand.Read] of 16 bytes in hexadecimal. *)
Definition read_random (w : world) : option string * world :=
  match w_random w with
  | [] => (None, w)
  | r :: rs => (Some r, MkWorld (w_fs w) (w_outcomes w) (w_euid w) rs (w_stamps w))
  end.

(** The time stamp of a quarantined file, or the name of a temporary one. *)
Definition next_stamp (w : world) : string * world :=
  match w_stamps w with
  | [] => ("", w)
  | t :: ts => (t, MkWorld (w_fs w) (w_outcomes w) (w_euid w) (w_random w) ts)
  end.

(** [CreateTemp] with a pattern that ends in a star: a new file of mode 0600;
    the name comes from the stamps. *)
Definition create_temp (pattern : string) (w : world) : option string * world :=
  let '(o, w) := next_outcome w in
  let '(name, w) := next_stamp w in
  let path := pattern +:+ name in
  if fails o || bool_decide (is_Some (w_fs w !! path)) then (None, w)
  else (Some path, set_fs (<[path := MkInode Regular mode_0600 (w_euid w) ""]> (w_fs w)) w).

(** ** A monad of fallible calls *)

Definition IO (E A : Type) : Type := world -> result E A * world.

Definition io_return {E A} (a : A) : IO E A := fun w => (Ok a, w).

Definition io_then {E A B} (m : IO E A) (f : A -> IO E B) : IO E B := fun w =>
  match m w with
  | (Ok a, w) => f a w
  | (Err e, w) => (Err e, w)
  end.

Notation "'do!' x ':=' m 'in' k" := (io_then m (fun x => k))
  (at level 10, x pattern, m at level 100, k at level 200) : go_scope.

Definition io_fail {E A} (e : E) : IO E A := fun w => (Err e, w).

(** A call that returns [false] on failure. *)
Definition io_check {E} (call : world -> bool * world) (e : E) : IO E unit := fun w =>
  let '(ok, w) := call w in (if ok then Ok tt else Err e, w).

Definition io_get {E A} (call : world -> A * world) : IO E A := fun w =>
  let '(a, w) := call w in (Ok a, w).

(** A call whose error is ignored. *)
Definition io_ignore {E} (call : world -> bool * world) : IO E unit := fun w =>
  let '(_, w) := call w in (Ok tt, w).

(** Runs [cleanup] before the error of [m] is returned. *)
Definition io_on_error {E A} (m : IO E A) (cleanup : IO E unit) : IO E A := fun w =>
  match m w with
  | (Ok a, w) => (Ok a, w)
  | (Err e, w) => let '(_, w) := cleanup w in (Err e, w)
  end.

(** ** Facts about paths *)

Lemma clean_idempotent_components rooted parts kept :
  (rooted = true -> ".." ∉ kept) -> rooted = true -> ".." ∉ clean_components rooted parts kept.
Proof.
  intros Hk Hr. specialize (Hk Hr). subst rooted. revert kept Hk.
  induction parts as [|part parts IH]; intros kept Hk; [done|]. cbn [clean_components].
  destruct (bool_decide (part = "") || bool_decide (part = ".")); [auto|]. case_bool_decide as Hd.
  - destruct kept as [|k kept]; [apply IH; done|]. case_bool_decide as Hkd.
    + subst k. exfalso. apply Hk. by left.
    + apply IH. intros Hin. apply Hk. by right.
  - apply IH. intros [Heq|Hin]%elem_of_cons; [congruence|done].
Qed.

(** ** Reasoning about sequences of calls *)

(** From a world with [P], whatever the outcomes are, [m] ends with [Q]. *)
Definition triple {E A} (P : world -> Prop) (m : IO E A) (Q : result E A -> world -> Prop) : Prop :=
  forall w, P w -> Q (m w).1 (m w).2.

Section triples.
Context {E A B : Type}.
Implicit Types (P : world -> Prop).

Lemma triple_then P (m : IO E A) (f : A -> IO E B) R Q :
  triple P m R -> (forall a, triple (R (Ok a)) (f a) Q) -> (forall e w, R (Err e) w -> Q (Err e) w) ->
  triple P (io_then m f) Q.
Proof.
  intros Hm Hf He w HP. unfold io_then. specialize (Hm w HP). destruct (m w) as [[a|e] w']; cbn in *.
  - by apply Hf.
  - by apply He.
Qed.

Lemma triple_return P (a : A) Q : (forall w, P w -> Q (Ok a) w) -> triple P (io_return (E := E) a) Q.
Proof. intros H w. apply H. Qed.

Lemma triple_on_error P (m : IO E A) c R Q :
  triple P m R -> (forall e, triple (R (Err e)) c (fun _ w => Q (Err e) w)) ->
  (forall a w, R (Ok a) w -> Q (Ok a) w) -> triple P (io_on_error m c) Q.
Proof.
  intros Hm Hc Hok w HP. unfold io_on_error. specialize (Hm w HP). destruct (m w) as [[a|e] w']; cbn in *; [by apply Hok|].
  specialize (Hc e w' Hm). by destruct (c w') as [? w''].
Qed.

Lemma triple_weaken P (m : IO E A) R Q :
  triple P m R -> (forall r w, R r w -> Q r w) -> triple P m Q.
Proof. intros Hm HQ w HP. apply HQ. by apply Hm. Qed.

(** A predicate that no call of [m] can break. *)
Definition preserves P (m : IO E A) : Prop := triple P m (fun _ => P).
End triples.

Lemma preserves_check {E} P call (e : E) :
  (forall w ok w', call w = (ok, w') -> P w -> P w') -> preserves P (io_check call e).
Proof.
  intros H w HP. unfold io_check. destruct (call w) as [ok w'] eqn:Hc. cbn. by eapply H.
Qed.

Lemma preserves_ignore {E} P call :
  (forall w ok w', call w = (ok, w') -> P w -> P w') -> preserves P (io_ignore (E := E) call).
Proof.
  intros H w HP. unfold io_ignore. destruct (call w) as [ok w'] eqn:Hc. cbn. by eapply H.
Qed.

Lemma preserves_then {E A B} P (m : IO E A) (f : A -> IO E B) :
  preserves P m -> (forall a, preserves P (f a)) -> preserves P (io_then m f).
Proof. intros Hm Hf. by eapply triple_then. Qed.
