(* ===== verification/NetIPText.v ===== *)
(** * Go's [net/netip]: text round trips

    The text of an address parses back to the address. *)

From S2P Require Import Prelude.
From S2P Require Import GoStrings.
From S2P Require Import NetIP.

(** ** Decimal fields *)

Lemma digit_char_code z : 0 <= z < 10 -> code (digit_char z) = 48 + z.
Proof. intros Hz. unfold digit_char. apply code_byte. lia. Qed.

Lemma digit_char_is_digit z : 0 <= z < 10 -> is_digit (digit_char z) = true.
Proof.
  intros Hz. unfold is_digit. rewrite between_spec, digit_char_code by done.
  change (code "0") with 48. change (code "9") with 57. lia.
Qed.

Lemma digit_char_value z : 0 <= z < 10 -> digit_value (digit_char z) = z.
Proof. intros Hz. unfold digit_value. rewrite digit_char_code by done. lia. Qed.

(** One digit of a field. *)
Lemma ipv4_digit z r first prev_dot val digits pos fields :
  0 <= z < 10 -> 0 <= val -> val * 10 + z <= 255 -> (digits = 1 -> val <> 0) ->
  parse_ipv4_loop (String (digit_char z) r) first prev_dot val digits pos fields =
  parse_ipv4_loop r false false (val * 10 + z) (digits + 1) pos fields.
Proof.
  intros Hz Hval Hle Hlead. cbn [parse_ipv4_loop]. rewrite digit_char_is_digit, digit_char_value by done.
  assert ((digits =? 1) && (val =? 0) = false) as ->.
  { destruct (Z.eqb_spec digits 1); [|done]. cbn. apply Z.eqb_neq. auto. }
  by rewrite (proj2 (Z.ltb_ge 255 _)) by lia.
Qed.

(** A whole field: the loop stands behind its text with its value. *)
Lemma ipv4_field x r first prev_dot pos fields :
  0 <= x < 256 ->
  exists digits, 0 < digits /\
  parse_ipv4_loop (dec3 x +:+ r) first prev_dot 0 0 pos fields =
  parse_ipv4_loop r false false x digits pos fields.
Proof.
  intros Hx. unfold dec3.
  pose proof (Z.mod_pos_bound x 10). pose proof (Z.div_mod x 10). pose proof (Z.mod_pos_bound (x / 10) 10).
  pose proof (Z.div_mod (x / 10) 10). assert (x / 10 / 10 = x / 100) by (rewrite Z.div_div; [done|lia..]).
  destruct (Z.ltb_spec x 10); [|destruct (Z.ltb_spec x 100)]; rewrite !sapp_cons, !sapp_nil_l.
  - exists 1. split; [lia|]. rewrite ipv4_digit by lia. f_equal; lia.
  - exists 2. split; [lia|]. rewrite !ipv4_digit by lia. f_equal; lia.
  - exists 3. split; [lia|]. rewrite !ipv4_digit by lia. f_equal; lia.
Qed.

Lemma dec3_nonempty z : dec3 z <> "".
Proof. unfold dec3. destruct (z <? 10); [done|]. by destruct (z <? 100). Qed.

Lemma ipv4_field_dot x r first prev_dot pos fields :
  0 <= x < 256 -> r <> "" -> pos <> 3 ->
  parse_ipv4_loop (dec3 x +:+ "." +:+ r) first prev_dot 0 0 pos fields =
  parse_ipv4_loop r false true 0 0 (pos + 1) (fields ++ [x]).
Proof.
  intros Hx Hr Hpos. destruct (ipv4_field x ("." +:+ r) first prev_dot pos fields Hx) as (n & _ & ->).
  rewrite sapp_cons, sapp_nil_l. cbn [parse_ipv4_loop].
  change (is_digit ".") with false. change (Ascii.eqb "." ".") with true. cbv iota.
  rewrite bool_decide_eq_false_2 by done. cbn [orb]. by rewrite (proj2 (Z.eqb_neq pos 3)).
Qed.

Lemma sapp_nonempty_l a b : a <> "" -> a +:+ b <> "".
Proof. by destruct a. Qed.

Definition octets (v : Z) : list Z :=
  [v / 2 ^ 24 mod 256; v / 2 ^ 16 mod 256; v / 2 ^ 8 mod 256; v mod 256].

Lemma ipv4_fields_text v :
  parse_ipv4_fields (ipv4_text v) = Some (octets v).
Proof.
  unfold parse_ipv4_fields, ipv4_text, octets.
  assert (Hm : forall z, 0 <= z mod 256 < 256) by (intros; apply Z.mod_pos_bound; lia).
  rewrite !ipv4_field_dot by (done || apply sapp_nonempty_l, dec3_nonempty || apply dec3_nonempty).
  rewrite <- (sapp_nil_r (dec3 (v mod 256))).
  destruct (ipv4_field (v mod 256) "" false true (0 + 1 + 1 + 1)
    (((([] ++ [v / 2 ^ 24 mod 256]) ++ [v / 2 ^ 16 mod 256]) ++ [v / 2 ^ 8 mod 256])) (Hm v)) as (n & _ & ->).
  done.
Qed.

Lemma be_value_octets v : 0 <= v < 2 ^ 32 -> be_value (octets v) = v.
Proof.
  intros Hv. unfold be_value, octets. cbn [fold_left].
  rewrite (Z.mod_small (v / 2 ^ 24)) by (split; [apply Z.div_pos; lia|apply Z.div_lt_upper_bound; lia]).
  pose proof (Z.div_mod v 256). pose proof (Z.div_mod (v / 2 ^ 8) 256). pose proof (Z.div_mod (v / 2 ^ 16) 256).
  rewrite !Z.div_div in * by lia. change (2 ^ 8 * 256) with (2 ^ 16) in *. change (2 ^ 16 * 256) with (2 ^ 24) in *.
  change 256 with (2 ^ 8) in *. lia.
Qed.

(** ** The syntax of a text *)

Definition plain_char (c : ascii) : bool :=
  negb (Ascii.eqb c "." || Ascii.eqb c ":" || Ascii.eqb c "%").

Lemma addr_syntax_plain s c r :
  sforall plain_char s = true -> plain_char c = false -> addr_syntax (s +:+ String c r) = Some c.
Proof.
  intros Hs Hc. induction s as [|d s IH].
  - rewrite sapp_nil_l. cbn. apply negb_false_iff in Hc. by rewrite Hc.
  - cbn in Hs. apply andb_true_iff in Hs as [Hd Hs]. rewrite sapp_cons. cbn.
    apply negb_true_iff in Hd. by rewrite Hd, IH.
Qed.

Lemma digit_char_plain z : 0 <= z < 10 -> plain_char (digit_char z) = true.
Proof.
  intros Hz. pose proof (digit_char_code z Hz) as Hc. unfold plain_char.
  apply negb_true_iff, orb_false_iff; split; [apply orb_false_iff; split|];
    apply Ascii.eqb_neq; intros Heq; rewrite Heq in Hc;
    [change (code ".") with 46 in Hc|change (code ":") with 58 in Hc|change (code "%") with 37 in Hc]; lia.
Qed.

Lemma dec3_plain x : 0 <= x < 256 -> sforall plain_char (dec3 x) = true.
Proof.
  intros Hx. unfold dec3. pose proof (Z.mod_pos_bound x 10). pose proof (Z.mod_pos_bound (x / 10) 10).
  pose proof (Z.div_mod x 10). pose proof (Z.div_mod x 100). pose proof (Z.mod_pos_bound x 100).
  destruct (Z.ltb_spec x 10); [|destruct (Z.ltb_spec x 100)]; cbn [sforall];
    rewrite !digit_char_plain by lia; done.
Qed.

Lemma parse_ipv4_text v : 0 <= v < 2 ^ 32 -> parse_addr (ipv4_text v) = Some (Addr4 v).
Proof.
  intros Hv. unfold parse_addr.
  assert (addr_syntax (ipv4_text v) = Some "."%char) as ->.
  { unfold ipv4_text. rewrite (sapp_cons "."). apply addr_syntax_plain; [|done].
    apply dec3_plain, Z.mod_pos_bound. lia. }
  cbn [Ascii.eqb]. unfold parse_ipv4. rewrite ipv4_fields_text, be_value_octets by done. done.
Qed.

(** ** Hexadecimal groups *)

Lemma hex_char_value z : 0 <= z < 16 -> hex_value (hex_char z) = Some z.
Proof.
  intros Hz. assert (Hall : forall n, (n < 16)%nat -> hex_value (hex_char (Z.of_nat n)) = Some (Z.of_nat n)).
  { intros n Hn. do 16 (destruct n as [|n]; [reflexivity|]). lia. }
  rewrite <- (Z2Nat.id z) by lia. apply Hall. lia.
Qed.

(** The text behind a group: its end or a colon. *)
Definition group_end (r : string) : Prop := r = "" \/ exists r', r = String ":" r'.

Lemma hex_group_end r acc n : group_end r -> parse_hex_group r acc n = Some (acc, n, r).
Proof. intros [->|[r' ->]]; done. Qed.

Lemma hex_digit_step z r acc n :
  0 <= z < 16 -> (n < 4)%nat -> 0 <= acc * 16 + z <= 0xffff ->
  parse_hex_group (String (hex_char z) r) acc n = parse_hex_group r (acc * 16 + z) (S n).
Proof.
  intros Hz Hn Hacc. cbn [parse_hex_group]. rewrite hex_char_value by done.
  by rewrite (proj2 (Z.ltb_ge 3 _)), (proj2 (Z.ltb_ge 0xffff _)) by lia.
Qed.

Lemma hex_group_text g r :
  0 <= g < 2 ^ 16 -> group_end r ->
  exists n, (0 < n)%nat /\ parse_hex_group (hex4 g +:+ r) 0 0 = Some (g, n, r).
Proof.
  intros Hg Hr. unfold hex4.
  pose proof (Z.mod_pos_bound g 16). pose proof (Z.mod_pos_bound (g / 16) 16).
  pose proof (Z.mod_pos_bound (g / 256) 16). pose proof (Z.div_mod g 16). pose proof (Z.div_mod (g / 16) 16).
  pose proof (Z.div_mod (g / 256) 16).
  assert (g / 16 / 16 = g / 256) by (rewrite Z.div_div; [done|lia..]).
  assert (g / 256 / 16 = g / 4096) by (rewrite Z.div_div; [done|lia..]).
  destruct (Z.leb_spec 4096 g); [|destruct (Z.leb_spec 256 g); [|destruct (Z.leb_spec 16 g)]];
    rewrite !sapp_cons, sapp_nil_l.
  - exists 4%nat. split; [lia|]. rewrite !hex_digit_step, hex_group_end by (done || lia). repeat f_equal; lia.
  - exists 3%nat. split; [lia|]. rewrite !hex_digit_step, hex_group_end by (done || lia). repeat f_equal; lia.
  - exists 2%nat. split; [lia|]. rewrite !hex_digit_step, hex_group_end by (done || lia). repeat f_equal; lia.
  - exists 1%nat. split; [lia|]. rewrite !hex_digit_step, hex_group_end by (done || lia). repeat f_equal; lia.
Qed.

Definition join_groups (gs : list Z) : string := string_join ":" (hex4 <$> gs).

Definition group_bytes (gs : list Z) : list Z := gs ≫= (fun g => [g / 256; g mod 256]).

Definition group_ok (g : Z) : Prop := 0 <= g < 2 ^ 16.

Lemma hex4_cons g : 0 <= g -> exists c s, hex4 g = String c s.
Proof.
  intros Hg. unfold hex4. destruct (4096 <=? g); [eauto|]. destruct (256 <=? g); [eauto|].
  destruct (16 <=? g); eauto.
Qed.

Lemma group_bytes_length gs : length (group_bytes gs) = (2 * length gs)%nat.
Proof. unfold group_bytes. induction gs as [|g gs IH]; [done|]. cbn in *. rewrite IH. lia. Qed.

Lemma group_bytes_app l1 l2 : group_bytes (l1 ++ l2) = group_bytes l1 ++ group_bytes l2.
Proof. unfold group_bytes. by rewrite bind_app. Qed.

Lemma join_groups_cons g gs :
  gs <> [] -> join_groups (g :: gs) = hex4 g +:+ String ":" (join_groups gs).
Proof. intros H. unfold join_groups. cbn [fmap list_fmap]. rewrite string_join_cons by by destruct gs. done. Qed.

Lemma join_groups_one g : join_groups [g] = hex4 g.
Proof. done. Qed.

(** The start of a non-empty list of groups is no colon. *)
Lemma join_groups_start gs :
  gs <> [] -> Forall group_ok gs -> exists c s, join_groups gs = String c s /\ c <> ":"%char.
Proof.
  intros Hne Hall. destruct gs as [|g gs]; [done|]. apply Forall_cons_1 in Hall as [Hg _].
  assert (Hstart : exists c s, hex4 g = String c s /\ c <> ":"%char).
  { destruct (hex_group_text g "" Hg) as (n & Hn & Hp); [by left|]. rewrite sapp_nil_r in Hp.
    destruct (hex4 g) as [|c s] eqn:Hh; [injection Hp as <- <-; lia|]. exists c, s. split; [done|]. intros ->.
    cbn in Hp. injection Hp as <- <-. lia. }
  destruct Hstart as (c & s & Hh & Hc). destruct gs as [|g' gs].
  - exists c, s. by rewrite join_groups_one.
  - exists c. eexists. rewrite join_groups_cons, Hh, sapp_cons by done. done.
Qed.

(** ** The loop of [parseIPv6] on groups *)

Section ipv6_loop.
Implicit Types (gs : list Z).

(** One group in front of a single colon. *)
Lemma ipv6_step fuel g r bytes ell c s :
  group_ok g -> (length bytes < 16)%nat -> r = String c s -> c <> ":"%char ->
  parse_ipv6_loop (S fuel) (hex4 g +:+ String ":" r) bytes ell =
  parse_ipv6_loop fuel r (bytes ++ [g / 256; g mod 256]) ell.
Proof.
  intros Hg Hlen -> Hc. cbn [parse_ipv6_loop]. rewrite (proj2 (Nat.leb_gt 16 _)) by lia.
  destruct (hex_group_text g (String ":" (String c s)) Hg) as (n & Hn & ->); [right; eauto|].
  rewrite (proj2 (Nat.eqb_neq n 0)) by lia. cbn [has_prefix].
  change (Ascii.eqb "." ":") with false. cbn [andb]. change (Ascii.eqb ":" ":") with true. cbn [negb].
  by rewrite (proj2 (Ascii.eqb_neq c ":")).
Qed.

Lemma ipv6_last fuel g bytes ell :
  group_ok g -> (length bytes < 16)%nat ->
  parse_ipv6_loop (S fuel) (hex4 g) bytes ell = Some (bytes ++ [g / 256; g mod 256], ell, "").
Proof.
  intros Hg Hlen. cbn [parse_ipv6_loop]. rewrite (proj2 (Nat.leb_gt 16 _)) by lia.
  destruct (hex_group_text g "" Hg) as (n & Hn & Hp); [by left|]. rewrite sapp_nil_r in Hp. rewrite Hp.
  by rewrite (proj2 (Nat.eqb_neq n 0)) by lia.
Qed.

Lemma ipv6_groups gs fuel bytes ell :
  gs <> [] -> Forall group_ok gs -> (length gs <= fuel)%nat -> (length bytes + 2 * length gs <= 16)%nat ->
  parse_ipv6_loop fuel (join_groups gs) bytes ell = Some (bytes ++ group_bytes gs, ell, "").
Proof.
  revert fuel bytes. induction gs as [|g gs IH]; intros fuel bytes Hne Hall Hfuel Hlen; [done|].
  apply Forall_cons_1 in Hall as [Hg Hall]. destruct fuel as [|fuel]; [cbn in Hfuel; lia|].
  cbn [length] in *. destruct gs as [|g' gs].
  - rewrite join_groups_one. rewrite ipv6_last by (done || lia). done.
  - rewrite join_groups_cons by done.
    destruct (join_groups_start (g' :: gs)) as (c & s & Hs & Hc); [done..|].
    rewrite (ipv6_step _ _ _ _ _ c s) by (done || lia). rewrite IH; [|done|done|cbn in *; lia|].
    + change (group_bytes (g :: g' :: gs)) with ([g / 256; g mod 256] ++ group_bytes (g' :: gs)).
      by rewrite <- app_assoc.
    + rewrite length_app. cbn in *. lia.
Qed.

(** Groups in front of the ellipsis. *)
Lemma ipv6_ellipsis gs fuel r bytes :
  gs <> [] -> Forall group_ok gs -> (length gs <= fuel)%nat -> (length bytes + 2 * length gs <= 16)%nat ->
  parse_ipv6_loop fuel (join_groups gs +:+ String ":" (String ":" r)) bytes None =
  let bytes' := bytes ++ group_bytes gs in
  if bool_decide (r = "") then Some (bytes', Some (length bytes'), "")
  else parse_ipv6_loop (fuel - length gs) r bytes' (Some (length bytes')).
Proof.
  revert fuel bytes. induction gs as [|g gs IH]; intros fuel bytes Hne Hall Hfuel Hlen; [done|].
  apply Forall_cons_1 in Hall as [Hg Hall]. destruct fuel as [|fuel]; [cbn in Hfuel; lia|].
  cbn [length] in *. destruct gs as [|g' gs].
  - rewrite join_groups_one. cbn [parse_ipv6_loop]. rewrite (proj2 (Nat.leb_gt 16 _)) by lia.
    destruct (hex_group_text g (String ":" (String ":" r)) Hg) as (n & Hn & ->); [right; eauto|].
    rewrite (proj2 (Nat.eqb_neq n 0)) by lia. cbn [has_prefix length]. rewrite Nat.sub_succ, Nat.sub_0_r.
    done.
  - rewrite join_groups_cons by done. rewrite <- sapp_assoc, sapp_cons.
    destruct (join_groups_start (g' :: gs)) as (c & s & Hs & Hc); [done..|].
    rewrite (ipv6_step _ _ _ _ _ c (s +:+ String ":" (String ":" r)));
      [|done|lia|by rewrite Hs|done].
    rewrite IH; [|done|done|cbn in *; lia|rewrite length_app; cbn in *; lia].
    change (group_bytes (g :: g' :: gs)) with ([g / 256; g mod 256] ++ group_bytes (g' :: gs)).
    rewrite <- app_assoc. done.
Qed.
End ipv6_loop.

(** ** The ellipsis *)

Lemma zero_run_split gs : gs = replicate (zero_run gs) 0 ++ drop (zero_run gs) gs.
Proof.
  induction gs as [|g gs IH]; [done|]. cbn [zero_run]. destruct (Z.eqb_spec g 0) as [->|]; [|done].
  cbn [replicate drop app]. by f_equal.
Qed.

Lemma zero_run_le gs : (zero_run gs <= length gs)%nat.
Proof. induction gs as [|g gs IH]; cbn; [done|]. destruct (g =? 0); lia. Qed.

Lemma longest_run_spec gs i best :
  longest_run gs i best = best \/
  exists k, (k < length gs)%nat /\ (2 <= zero_run (drop k gs))%nat /\
    longest_run gs i best = ((i + k)%nat, (i + k + zero_run (drop k gs))%nat).
Proof.
  revert i best. induction gs as [|g gs IH]; intros i best; [by left|].
  change (longest_run (g :: gs) i best) with
    (longest_run gs (S i)
      (if ((2 <=? zero_run (g :: gs)) && (snd best - fst best <? zero_run (g :: gs)))%nat
       then (i, (i + zero_run (g :: gs))%nat) else best)).
  destruct (IH (S i) (if ((2 <=? zero_run (g :: gs)) && (snd best - fst best <? zero_run (g :: gs)))%nat
       then (i, (i + zero_run (g :: gs))%nat) else best)) as [->|(k & Hk & Hz & ->)].
  - destruct ((2 <=? zero_run (g :: gs)) && _)%nat eqn:Hc; [|by left]. right. exists 0%nat.
    apply andb_true_iff in Hc as [Hc _]. apply Nat.leb_le in Hc. rewrite drop_0.
    split_and!; [cbn; lia|done|f_equal; lia].
  - right. exists (S k). cbn [drop length]. split_and!; [lia|done|f_equal; lia].
Qed.

(** The groups without an ellipsis, or its prefix, run and suffix. *)
Lemma zero_span_spec gs :
  length gs = 8%nat ->
  zero_span gs = (255, 255)%nat \/
  exists l1 l2 n, (2 <= n)%nat /\ gs = l1 ++ replicate n 0 ++ l2 /\
    zero_span gs = (length l1, (length l1 + n)%nat).
Proof.
  intros Hlen. destruct (longest_run_spec gs 0 (255%nat, 255%nat)) as [H|(k & Hk & Hz & H)]; [by left|right].
  exists (take k gs), (drop (zero_run (drop k gs)) (drop k gs)), (zero_run (drop k gs)). split_and!.
  - done.
  - rewrite <- zero_run_split. by rewrite take_drop.
  - unfold zero_span. rewrite H, length_take_le by lia. done.
Qed.

Lemma groups_text_plain gs i span :
  (fst span < i \/ i + length gs <= fst span)%nat ->
  (snd span <= i \/ i + length gs <= snd span)%nat ->
  groups_text gs i 0 span =
  if bool_decide (gs = []) then "" else
  (if ((i =? 0) || (i =? snd span))%nat then "" else ":") +:+ join_groups gs.
Proof.
  revert i. induction gs as [|g gs IH]; intros i Hf Hs; [done|]. cbn [length] in *.
  cbn [groups_text]. rewrite (proj2 (Nat.eqb_neq i (fst span))) by lia. f_equal.
  rewrite IH by lia. case_bool_decide as Hgs.
  - subst gs. by rewrite sapp_nil_r.
  - rewrite (join_groups_cons g gs) by done. rewrite (proj2 (Nat.eqb_neq (S i) 0)) by lia.
    rewrite (proj2 (Nat.eqb_neq (S i) (snd span))) by (destruct gs; [done|]; cbn in *; lia). done.
Qed.

Lemma groups_text_skip l1 l2 i span :
  groups_text (l1 ++ l2) i (length l1) span = groups_text l2 (i + length l1) 0 span.
Proof.
  revert i. induction l1 as [|g l1 IH]; intros i; [cbn; f_equal; lia|].
  cbn [app length groups_text]. rewrite IH. f_equal. lia.
Qed.

(** The printed prefix in front of the ellipsis. *)
Lemma groups_text_before l1 r i span :
  (i + length l1 <= fst span)%nat -> (fst span < snd span)%nat ->
  groups_text (l1 ++ r) i 0 span =
  (if bool_decide (l1 = []) then "" else (if (i =? 0)%nat then "" else ":") +:+ join_groups l1) +:+
  groups_text r (i + length l1) 0 span.
Proof.
  revert i. induction l1 as [|g l1 IH]; intros i Hi Hs; [cbn [app length]; by rewrite Nat.add_0_r|]. cbn [length] in *.
  cbn [app groups_text]. rewrite (proj2 (Nat.eqb_neq i (fst span))) by lia.
  rewrite (proj2 (Nat.eqb_neq i (snd span))), orb_false_r by lia.
  rewrite (bool_decide_eq_false_2 (g :: l1 = [])) by done. rewrite IH by lia. rewrite <- !sapp_assoc. f_equal. rewrite (proj2 (Nat.eqb_neq (S i) 0)) by lia.
  replace (i + S (length l1))%nat with (S i + length l1)%nat by lia. case_bool_decide as Hl.
  - subst l1. by rewrite sapp_nil_l.
  - rewrite (join_groups_cons g l1) by done. rewrite <- !sapp_assoc. rewrite !sapp_cons. done.
Qed.

Lemma join_groups_nil : join_groups [] = "".
Proof. done. Qed.

Lemma groups_text_ellipsis l1 l2 n :
  (1 <= n)%nat ->
  groups_text (l1 ++ replicate n 0 ++ l2) 0 0 (length l1, (length l1 + n)%nat) =
  join_groups l1 +:+ String ":" (String ":" (join_groups l2)).
Proof.
  intros Hn. rewrite groups_text_before by (cbn; lia). f_equal.
  { case_bool_decide as Hl; [by subst|]. done. }
  destruct n as [|n]; [lia|]. cbn [replicate app groups_text fst snd]. rewrite Nat.add_0_l, Nat.eqb_refl.
  rewrite (sapp_cons ":" ":"), (sapp_cons ":" ""), sapp_nil_l. do 2 f_equal.
  replace (length l1 + S n - length l1 - 1)%nat with (length (replicate n 0)) by (rewrite length_replicate; lia).
  rewrite groups_text_skip, length_replicate. rewrite groups_text_plain by (cbn; lia). cbn [snd].
  replace (S (length l1) + n)%nat with (length l1 + S n)%nat by lia. rewrite Nat.eqb_refl, orb_true_r, sapp_nil_l.
  case_bool_decide as Hl; [by subst|done].
Qed.

(** ** The value of the bytes *)

Lemma be_value_app l1 l2 :
  fold_left (fun acc b => acc * 256 + b) (l1 ++ l2) 0 =
  fold_left (fun acc b => acc * 256 + b) l2 (be_value l1).
Proof. by rewrite fold_left_app. Qed.

Lemma be_value_groups gs acc :
  fold_left (fun acc b => acc * 256 + b) (group_bytes gs) acc =
  fold_left (fun acc g => acc * 2 ^ 16 + g) gs acc.
Proof.
  revert acc. induction gs as [|g gs IH]; intros acc; [done|].
  change (group_bytes (g :: gs)) with ([g / 256; g mod 256] ++ group_bytes gs).
  rewrite fold_left_app, IH. cbn [fold_left]. f_equal. pose proof (Z.div_mod g 256). lia.
Qed.

Lemma groups_value v : 0 <= v < 2 ^ 128 -> fold_left (fun acc g => acc * 2 ^ 16 + g) (groups v) 0 = v.
Proof.
  intros Hv. unfold groups. cbn [fmap list_fmap fold_left].
  change (112 - 16 * 0) with 112. change (112 - 16 * 1) with 96. change (112 - 16 * 2) with 80.
  change (112 - 16 * 3) with 64. change (112 - 16 * 4) with 48. change (112 - 16 * 5) with 32.
  change (112 - 16 * 6) with 16. change (112 - 16 * 7) with 0. rewrite Z.pow_0_r, Z.div_1_r.
  rewrite (Z.mod_small (v / 2 ^ 112)) by (split; [apply Z.div_pos; lia|apply Z.div_lt_upper_bound; lia]).
  assert (Hstep : forall k k', 0 <= k -> k' = k + 16 ->
    v / 2 ^ k' * 2 ^ 16 + v / 2 ^ k mod 2 ^ 16 = v / 2 ^ k).
  { intros k k' Hk ->. rewrite Z.pow_add_r, <- Z.div_div by lia. pose proof (Z.div_mod (v / 2 ^ k) (2 ^ 16)). lia. }
  rewrite Z.add_0_l, (Hstep 96 112), (Hstep 80 96), (Hstep 64 80), (Hstep 48 64), (Hstep 32 48), (Hstep 16 32) by done.
  pose proof (Hstep 0 16 ltac:(done) eq_refl) as H0. rewrite Z.pow_0_r, Z.div_1_r in H0. exact H0.
Qed.

Lemma groups_ok v : Forall group_ok (groups v).
Proof.
  unfold groups. apply Forall_fmap, Forall_forall. intros i _. unfold compose, group_ok.
  apply Z.mod_pos_bound. lia.
Qed.

Lemma groups_length v : length (groups v) = 8%nat.
Proof. done. Qed.

(** ** IPv6 addresses *)

(** The end of the parse: the bytes around the ellipsis and the zeros between. *)
Lemma finish_ellipsis l1 l2 n z :
  (length l1 + n + length l2 = 8)%nat -> (1 <= n)%nat ->
  finish_ipv6 (group_bytes l1 ++ group_bytes l2, Some (length (group_bytes l1)), "") z =
  Some (Addr6 (be_value (group_bytes (l1 ++ replicate n 0 ++ l2))) z).
Proof.
  intros Hlen Hn. unfold finish_ipv6. cbn [negb bool_decide decide_rel].
  rewrite bool_decide_eq_true_2 by done. cbn [negb].
  rewrite length_app, !group_bytes_length. rewrite (proj2 (Nat.ltb_lt _ 16)) by lia. do 3 f_equal.
  rewrite <- !group_bytes_length, take_app_length, drop_app_length, !group_bytes_app. f_equal. f_equal.
  rewrite !group_bytes_length. replace (16 - _)%nat with (2 * n)%nat by lia.
  clear. induction n as [|n IH]; [done|]. replace (2 * S n)%nat with (S (S (2 * n))) by lia.
  cbn [replicate]. rewrite IH. done.
Qed.

Lemma parse_ipv6_body_ellipsis l1 l2 n z :
  Forall group_ok l1 -> Forall group_ok l2 -> (length l1 + n + length l2 = 8)%nat -> (1 <= n)%nat ->
  parse_ipv6_body (join_groups l1 +:+ String ":" (String ":" (join_groups l2))) z =
  Some (Addr6 (be_value (group_bytes (l1 ++ replicate n 0 ++ l2))) z).
Proof.
  intros H1 H2 Hlen Hn. unfold parse_ipv6_body. destruct (decide (l1 = [])) as [->|Hl1].
  - rewrite join_groups_nil, sapp_nil_l.
    assert (has_prefix (String ":" (String ":" (join_groups l2))) "::" = true) as ->
      by by destruct (join_groups l2).
    cbv iota. cbn [sdrop]. case_bool_decide as He.
    + destruct l2 as [|g l2]; [|destruct (join_groups_start (g :: l2)) as (c & s & Hs & _); [done..|congruence]].
      cbn in Hlen. replace n with 8%nat by lia. done.
    + destruct l2 as [|g l2]; [done|]. rewrite ipv6_groups by (done || (cbn [length] in *; lia)).
      by rewrite (finish_ellipsis [] (g :: l2) n).
  - destruct (join_groups_start l1 Hl1 H1) as (c & s & Hs & Hc).
    assert (has_prefix (join_groups l1 +:+ String ":" (String ":" (join_groups l2))) "::" = false) as ->.
    { rewrite Hs, sapp_cons. cbn [has_prefix]. by rewrite (proj2 (Ascii.eqb_neq ":" c)) by congruence. }
    rewrite ipv6_ellipsis by (done || (cbn [length]; lia)). cbn zeta. rewrite app_nil_l.
    case_bool_decide as He.
    + destruct l2 as [|g l2]; [|destruct (join_groups_start (g :: l2)) as (c' & s' & Hs' & _); [done..|congruence]].
      rewrite <- (finish_ellipsis l1 [] n z) by (done || lia). by rewrite app_nil_r.
    + destruct l2 as [|g l2]; [done|]. rewrite ipv6_groups by (done || (rewrite ?group_bytes_length; cbn [length] in *; lia)).
      by rewrite (finish_ellipsis l1 (g :: l2) n).
Qed.

Lemma hex_char_neq z c : 0 <= z < 16 -> hex_value c = None -> hex_char z <> c.
Proof. intros Hz Hc Heq. pose proof (hex_char_value z Hz) as Hv. rewrite Heq in Hv. congruence. Qed.

(** A byte that is no hexadecimal digit does not occur in a group. *)
Lemma hex4_chars f g :
  group_ok g -> (forall z, 0 <= z < 16 -> f (hex_char z) = true) -> sforall f (hex4 g) = true.
Proof.
  intros Hg Hf. unfold group_ok, hex4 in *.
  pose proof (Z.mod_pos_bound g 16). pose proof (Z.mod_pos_bound (g / 16) 16).
  pose proof (Z.mod_pos_bound (g / 256) 16).
  assert (0 <= g / 4096 < 16) by (split; [apply Z.div_pos; lia|apply Z.div_lt_upper_bound; lia]).
  destruct (4096 <=? g); [|destruct (256 <=? g); [|destruct (16 <=? g)]]; cbn [sforall];
    rewrite !Hf by lia; done.
Qed.

Lemma join_groups_chars f gs :
  Forall group_ok gs -> (forall z, 0 <= z < 16 -> f (hex_char z) = true) -> f ":"%char = true ->
  sforall f (join_groups gs) = true.
Proof.
  intros Hall Hf Hc. induction Hall as [|g gs Hg Hall IH]; [done|]. destruct gs as [|g' gs].
  - rewrite join_groups_one. by apply hex4_chars.
  - rewrite join_groups_cons, sforall_app by done. cbn [sforall]. rewrite hex4_chars, Hc, IH by done. done.
Qed.

Lemma cut_at_none c s : sforall (fun d => negb (Ascii.eqb d c)) s = true -> cut_at c s = None.
Proof.
  induction s as [|d s IH]; [done|]. cbn. rewrite andb_true_iff, negb_true_iff. intros [-> Hs].
  by rewrite IH.
Qed.

(** The first syntax byte of an IPv6 text is a colon. *)
Lemma addr_syntax_colon s r :
  sforall plain_char s = true -> addr_syntax (s +:+ String ":" r) = Some ":"%char.
Proof. intros Hs. by apply addr_syntax_plain. Qed.

Lemma hex_char_plain z : 0 <= z < 16 -> plain_char (hex_char z) = true.
Proof.
  intros Hz. unfold plain_char. apply negb_true_iff.
  rewrite !orb_false_iff, !Ascii.eqb_neq. split_and!; by apply hex_char_neq.
Qed.

Lemma hex_char_no_percent z : 0 <= z < 16 -> negb (Ascii.eqb (hex_char z) "%") = true.
Proof. intros Hz. apply negb_true_iff, Ascii.eqb_neq. by apply hex_char_neq. Qed.

Lemma ipv6_text_cases v :
  ipv6_text v = join_groups (groups v) \/
  exists l1 l2 n, (2 <= n)%nat /\ groups v = l1 ++ replicate n 0 ++ l2 /\
    ipv6_text v = join_groups l1 +:+ String ":" (String ":" (join_groups l2)).
Proof.
  unfold ipv6_text. destruct (zero_span_spec (groups v) (groups_length v)) as [Hs|(l1 & l2 & n & Hn & Hg & Hs)].
  - left. rewrite Hs, groups_text_plain; [|cbn [fst]; rewrite groups_length; lia|cbn [snd]; rewrite groups_length; lia].
    by rewrite bool_decide_eq_false_2.
  - right. exists l1, l2, n. split_and!; [done|done|]. rewrite Hs, Hg. apply groups_text_ellipsis. lia.
Qed.

(** What the parser needs to know about a text. *)
Lemma parse_ipv6_shape t s r a :
  t = s +:+ String ":" r -> sforall plain_char s = true ->
  sforall (fun d => negb (Ascii.eqb d "%")) t = true -> parse_ipv6_body t "" = Some a ->
  parse_addr t = Some a.
Proof.
  intros Ht Hs Hp Hb. unfold parse_addr. rewrite Ht at 1. rewrite addr_syntax_colon by done.
  change (Ascii.eqb ":" ".") with false. change (Ascii.eqb ":" ":") with true. cbv iota.
  unfold parse_ipv6. by rewrite cut_at_none.
Qed.

(** Eight groups without an ellipsis. *)
Lemma parse_ipv6_body_plain g0 gs z :
  Forall group_ok (g0 :: gs) -> length gs = 7%nat ->
  parse_ipv6_body (join_groups (g0 :: gs)) z = Some (Addr6 (be_value (group_bytes (g0 :: gs))) z).
Proof.
  intros Hall Hlen. unfold parse_ipv6_body. destruct (join_groups_start (g0 :: gs)) as (c & s & Hs & Hc); [done..|].
  assert (has_prefix (join_groups (g0 :: gs)) "::" = false) as ->.
  { rewrite Hs. cbn [has_prefix]. by rewrite (proj2 (Ascii.eqb_neq ":" c)) by congruence. }
  rewrite ipv6_groups by (done || (cbn [length]; lia)). rewrite app_nil_l. unfold finish_ipv6.
  rewrite bool_decide_eq_true_2 by done. cbn [negb]. rewrite group_bytes_length.
  cbn [length]. rewrite Hlen. done.
Qed.

Lemma parse_ipv6_text v :
  0 <= v < 2 ^ 128 -> parse_addr (ipv6_text v) = Some (Addr6 v "").
Proof.
  intros Hv. pose proof (groups_ok v) as Hok.
  assert (Hval : be_value (group_bytes (groups v)) = v).
  { unfold be_value. by rewrite be_value_groups, groups_value. }
  destruct (ipv6_text_cases v) as [Ht|(l1 & l2 & n & Hn & Hg & Ht)]; rewrite Ht.
  - pose proof (groups_length v) as Hlen. destruct (groups v) as [|g0 gs]; [done|]. injection Hlen as Hlen.
    destruct gs as [|g1 gs]; [done|]. pose proof Hok as Hall. apply Forall_cons_1 in Hok as [Hg0 _].
    eapply parse_ipv6_shape; [by apply join_groups_cons| | |].
    + apply hex4_chars; [done|apply hex_char_plain].
    + apply join_groups_chars; [done|apply hex_char_no_percent|done].
    + by rewrite parse_ipv6_body_plain, Hval.
  - pose proof (groups_length v) as Hlen. rewrite Hg in Hlen, Hok, Hval.
    rewrite !length_app, length_replicate in Hlen.
    apply Forall_app in Hok as [H1 [_ H2]%Forall_app].
    assert (Hp : sforall (fun d => negb (Ascii.eqb d "%"))
      (join_groups l1 +:+ String ":" (String ":" (join_groups l2))) = true).
    { rewrite sforall_app. cbn [sforall]. rewrite !join_groups_chars; (done || apply hex_char_no_percent). }
    assert (Hb : parse_ipv6_body (join_groups l1 +:+ String ":" (String ":" (join_groups l2))) "" = Some (Addr6 v "")).
    { rewrite (parse_ipv6_body_ellipsis l1 l2 n) by (done || lia). by rewrite Hval. }
    destruct l1 as [|g [|g' l1]].
    + by apply (parse_ipv6_shape _ "" (String ":" (join_groups l2))).
    + apply Forall_cons_1 in H1 as [Hg1 _]. eapply (parse_ipv6_shape _ (hex4 g)); [done| |done|done].
      apply hex4_chars; [done|apply hex_char_plain].
    + apply Forall_cons_1 in H1 as [Hg1 _].
      eapply (parse_ipv6_shape _ (hex4 g)); [|apply hex4_chars; [done|apply hex_char_plain]|done|done].
      rewrite join_groups_cons, <- sapp_assoc by done. done.
Qed.

(** ** Every usable address *)

(** The addresses that print without a zone and without embedded IPv4. *)
Definition printable (a : addr) : Prop :=
  addr_wf a /\ addr_valid a = true /\ addr_zone a = "" /\ is4in6 a = false.

Lemma parse_addr_text a : printable a -> parse_addr (addr_text a) = Some a.
Proof.
  intros (Hwf & Hval & Hz & H46). destruct a as [|v|v z]; [done|by apply parse_ipv4_text|].
  cbn in Hz. subst z. unfold addr_text. rewrite H46. unfold zone_text. rewrite bool_decide_eq_true_2 by done.
  rewrite sapp_nil_r. by apply parse_ipv6_text.
Qed.

(** ** The values that parsing returns *)

Definition bytes_ok (l : list Z) : Prop := Forall (fun b => 0 <= b < 256) l.

Lemma be_value_bounds_from l acc :
  bytes_ok l -> 0 <= acc ->
  0 <= fold_left (fun a b => a * 256 + b) l acc < (acc + 1) * 256 ^ Z.of_nat (length l).
Proof.
  revert acc. induction l as [|b l IH]; intros acc Hl Hacc; cbn [fold_left length]; [lia|].
  apply Forall_cons_1 in Hl as [Hb Hl]. specialize (IH (acc * 256 + b) Hl ltac:(lia)).
  rewrite Nat2Z.inj_succ, Z.pow_succ_r by lia.
  assert (0 < 256 ^ Z.of_nat (length l)) by (apply Z.pow_pos_nonneg; lia). nia.
Qed.

Lemma be_value_bounds l n :
  bytes_ok l -> length l = n -> 0 <= be_value l < 256 ^ Z.of_nat n.
Proof. intros Hl <-. pose proof (be_value_bounds_from l 0 Hl). unfold be_value. lia. Qed.

Lemma be_value_bits l n w :
  bytes_ok l -> length l = n -> w = 8 * Z.of_nat n -> 0 <= be_value l < 2 ^ w.
Proof.
  intros Hl Hn ->. rewrite Z.pow_mul_r by lia. change (2 ^ 8) with 256. by apply be_value_bounds.
Qed.

Lemma parse_ipv4_loop_ok s first prev_dot val digits pos fields r :
  parse_ipv4_loop s first prev_dot val digits pos fields = Some r ->
  0 <= val < 256 -> bytes_ok fields -> pos = Z.of_nat (length fields) -> (length fields <= 3)%nat ->
  bytes_ok r /\ length r = 4%nat.
Proof.
  revert first prev_dot val digits pos fields.
  induction s as [|c s IH]; intros first prev_dot val digits pos fields; cbn [parse_ipv4_loop].
  - destruct (pos <? 3) eqn:Hpos; [done|]. intros [= <-] Hv Hf Hp Hl. to_prop. split.
    + by apply Forall_app; split; [|apply Forall_singleton].
    + rewrite length_app. cbn. lia.
  - destruct (is_digit c) eqn:Hd.
    + destruct ((digits =? 1) && (val =? 0)); [done|].
      destruct (255 <? _) eqn:H255; [done|]. to_prop. intros Hr Hv Hf Hp Hl.
      pose proof (digit_value_nonneg c Hd). eapply IH; eauto. lia.
    + destruct (Ascii.eqb c "."); [|done]. destruct (first || _ || prev_dot); [done|].
      destruct (pos =? 3) eqn:H3; [done|]. to_prop. intros Hr Hv Hf Hp Hl. eapply IH; eauto; [lia|..].
      * by apply Forall_app; split; [|apply Forall_singleton].
      * rewrite length_app. cbn. lia.
      * rewrite length_app. cbn. lia.
Qed.

Lemma parse_ipv4_fields_ok s r : parse_ipv4_fields s = Some r -> bytes_ok r /\ length r = 4%nat.
Proof.
  intros H. eapply parse_ipv4_loop_ok in H; [done|lia|by apply Forall_nil|done|cbn; lia].
Qed.

Lemma parse_hex_group_ok s acc count r n rest :
  parse_hex_group s acc count = Some (r, n, rest) -> 0 <= acc < 2 ^ 16 -> 0 <= r < 2 ^ 16.
Proof.
  revert acc count. induction s as [|c s IH]; intros acc count; cbn [parse_hex_group].
  - by intros [= <- _ _].
  - destruct (hex_value c) as [d|] eqn:Hd; [|by intros [= <- _ _]].
    destruct (3 <? Z.of_nat count); [done|]. destruct (0xffff <? _) eqn:Hle; [done|]. to_prop.
    intros Hr Hacc. eapply IH; [done|]. pose proof (hex_value_nonneg c d Hd). lia.
Qed.

Definition half_read (bytes : list Z) : Prop := bytes_ok bytes /\ exists k, length bytes = (2 * k)%nat /\ (k <= 8)%nat.

Lemma half_read_push bytes acc :
  half_read bytes -> (length bytes < 16)%nat -> 0 <= acc < 2 ^ 16 -> half_read (bytes ++ [acc / 256; acc mod 256]).
Proof.
  intros (Hb & k & Hk & Hle) Hlt Hacc. split.
  - apply Forall_app. split; [done|]. repeat constructor; try (apply Z.mod_pos_bound; lia).
    + apply Z.div_pos; lia.
    + apply Z.div_lt_upper_bound; lia.
  - exists (S k). rewrite length_app. cbn. lia.
Qed.

Lemma parse_ipv6_loop_ok fuel s bytes ell r e rest :
  parse_ipv6_loop fuel s bytes ell = Some (r, e, rest) -> half_read bytes ->
  bytes_ok r /\ (length r <= 16)%nat.
Proof.
  revert s bytes ell. induction fuel as [|fuel IH]; intros s bytes ell; cbn [parse_ipv6_loop].
  - intros [= <- _ _] (Hb & k & Hk & Hle). split; [done|lia].
  - destruct (16 <=? length bytes)%nat eqn:H16.
    { intros [= <- _ _] (Hb & k & Hk & Hle). split; [done|lia]. }
    apply Nat.leb_gt in H16. destruct (parse_hex_group s 0 0) as [[[acc off] rest']|] eqn:Hg; [|done].
    apply parse_hex_group_ok in Hg; [|lia].
    destruct (off =? 0)%nat; [done|]. destruct (has_prefix rest' ".").
    { destruct (bool_decide _ && _); [done|]. destruct (16 <? length bytes + 4)%nat eqn:Hl; [done|].
      apply Nat.ltb_ge in Hl. destruct (parse_ipv4_fields s) as [fields|] eqn:Hf; [|done].
      apply parse_ipv4_fields_ok in Hf as [Hf Hlen]. intros [= <- _ _] (Hb & _).
      split; [by apply Forall_app|]. rewrite length_app. lia. }
    intros H Hb. pose proof (half_read_push _ _ Hb H16 Hg) as Hb'. revert H.
    assert (Hdone : bytes_ok (bytes ++ [acc / 256; acc mod 256]) /\
                    Z.of_nat (length (bytes ++ [acc / 256; acc mod 256])) <= 16).
    { destruct Hb' as (Hok & k & Hk & Hle). split; [done|lia]. }
    destruct rest' as [|c s1]; [intros [= <- _ _]; split; [apply Hdone|lia]|].
    destruct (negb _); [done|]. destruct s1 as [|c1 s2]; [done|].
    destruct (Ascii.eqb c1 ":"); [|intros H; by eapply IH].
    destruct ell; [done|]. case_bool_decide; [intros [= <- _ _]; split; [apply Hdone|lia]|]. intros H'. by eapply IH.
Qed.

Lemma finish_ipv6_wf bytes e rest zone a :
  bytes_ok bytes -> (length bytes <= 16)%nat -> finish_ipv6 (bytes, e, rest) zone = Some a -> addr_wf a.
Proof.
  intros Hb Hl. unfold finish_ipv6. destruct (negb _); [done|].
  destruct (length bytes <? 16)%nat eqn:Hlt; destruct e as [e|]; try done; intros [= <-];
    cbn [addr_wf]; (apply (be_value_bits _ 16 128); [| |reflexivity]).
  - apply Forall_app. split; [by apply Forall_take|].
    apply Forall_app. split; [apply Forall_replicate; lia|by apply Forall_drop].
  - apply Nat.ltb_lt in Hlt. rewrite !length_app, length_take, length_replicate, length_drop. lia.
  - done.
  - apply Nat.ltb_ge in Hlt. lia.
Qed.

Lemma half_read_nil : half_read [].
Proof. split; [by apply Forall_nil|]. exists 0%nat. cbn. lia. Qed.

Lemma parse_ipv6_body_wf s zone a : parse_ipv6_body s zone = Some a -> addr_wf a.
Proof.
  unfold parse_ipv6_body. destruct (has_prefix s "::").
  - case_bool_decide; [intros [= <-]; cbn; lia|].
    destruct (parse_ipv6_loop _ _ _ _) as [[[r e] rest]|] eqn:Hl; [|done].
    apply parse_ipv6_loop_ok in Hl as [Hr Hlen]; [|apply half_read_nil]. by apply finish_ipv6_wf.
  - destruct (parse_ipv6_loop _ _ _ _) as [[[r e] rest]|] eqn:Hl; [|done].
    apply parse_ipv6_loop_ok in Hl as [Hr Hlen]; [|apply half_read_nil]. by apply finish_ipv6_wf.
Qed.

Lemma parse_addr_wf s a : parse_addr s = Some a -> addr_wf a /\ addr_valid a = true.
Proof.
  unfold parse_addr. destruct (addr_syntax s) as [c|]; [|done].
  destruct (Ascii.eqb c "."); [|destruct (Ascii.eqb c ":"); [|done]].
  - unfold parse_ipv4. destruct (parse_ipv4_fields s) as [fields|] eqn:Hf; [|done]. intros [= <-].
    apply parse_ipv4_fields_ok in Hf as [Hf Hl]. split; [|done]. cbn [addr_wf]. by apply (be_value_bits _ 4 32).
  - unfold parse_ipv6. intros H.
    assert (Hbody : exists s' zone, parse_ipv6_body s' zone = Some a).
    { destruct (cut_at "%" s) as [[s' zone]|]; [|by exists s, ""]. case_bool_decide; [done|]. by exists s', zone. }
    destruct Hbody as (s' & zone & Hbody). split; [by eapply parse_ipv6_body_wf|].
    unfold parse_ipv6_body, finish_ipv6 in Hbody.
    repeat (case_match; simplify_eq; try done).
Qed.

(** [ParsePrefix] returns a valid prefix whose address has no zone. *)
Lemma parse_prefix_facts s p :
  parse_prefix s = Some p ->
  addr_wf (prefix_addr p) /\ addr_valid (prefix_addr p) = true /\ addr_zone (prefix_addr p) = "" /\
  1 <= bits_plus_one p <= bit_len (prefix_addr p) + 1.
Proof.
  unfold parse_prefix. destruct (cut_last "/" s) as [[ip bits]|]; [|done].
  destruct (parse_addr ip) as [a|] eqn:Ha; [|done]. apply parse_addr_wf in Ha as [Hwf Hv].
  destruct (_ && _); [done|]. destruct (_ && _); [done|].
  destruct (parse_uint 63 bits) as [n|] eqn:Hn; [|done]. apply parse_uint_nonneg in Hn.
  destruct (_ <? n) eqn:Hlt; [done|]. to_prop. intros [= <-]. unfold prefix_from. cbn [prefix_addr bits_plus_one].
  assert (Hlen : n <= bit_len a) by (destruct a; cbn in *; [done|lia|lia]).
  rewrite Hv. replace (0 <=? n) with true by (symmetry; apply Z.leb_le; lia).
  replace (n <=? bit_len a) with true by (symmetry; apply Z.leb_le; lia). cbn [andb].
  destruct a; cbn in *; try done; repeat split; lia.
Qed.
