(* ===== verification/DomainName.v ===== *)
(** * Component [internal/domainname]

    One canonical representation of host names, shared by the configuration,
    Fake DNS, the address pool and the rules engine. *)

From S2P Require Import Prelude.
From S2P Require Import GoStrings.
From S2P Require Import NetIP.

(** ** Operations *)

Inductive domain_error : Type :=
| InvalidDomain
| IPLiteral.

#[export] Instance domain_error_eq_dec : EqDecision domain_error.
Proof. solve_decision. Defined.

Definition label_char (c : ascii) : bool :=
  is_lower c || is_digit c || Ascii.eqb c "-" || Ascii.eqb c "_".

Definition first_is (s : string) (c : ascii) : bool :=
  match s with String c' _ => Ascii.eqb c' c | EmptyString => false end.

Definition last_is (s : string) (c : ascii) : bool := first_is (srev s) c.

Definition valid_label (label : string) : bool :=
  negb (bool_decide (label = "")) && (slen label <=? 63) &&
  negb (first_is label "-") && negb (last_is label "-") && sforall label_char label.

(** [Normalize] *)
Definition Normalize (value : string) : result domain_error string :=
  let domain := trim_suffix (to_lower (trim_space value)) "." in
  fail_if bool_decide (domain = "") || (253 <? slen domain) with InvalidDomain in
  fail_if bool_decide (is_Some (parse_addr domain)) with IPLiteral in
  fail_if negb (forallb valid_label (split_on "." domain)) with InvalidDomain in
  Ok domain.

Record Pattern : Type := MkPattern { Suffix : bool; Domain : string }.

#[export] Instance Pattern_eq_dec : EqDecision Pattern.
Proof. solve_decision. Defined.

(** [ParsePattern] *)
Definition ParsePattern (value : string) : result domain_error Pattern :=
  let value := trim_space (to_lower value) in
  let suffix := has_prefix value "*." in
  let value := if suffix then trim_prefix value "*." else value in
  let! domain := Normalize value in
  Ok (MkPattern suffix domain).

(** [Pattern.Matches] *)
Definition Matches (p : Pattern) (normalizedDomain : string) : bool :=
  if Suffix p then
    bool_decide (normalizedDomain = Domain p) || has_suffix normalizedDomain ("." +:+ Domain p)
  else bool_decide (normalizedDomain = Domain p).

(** ** Specification *)

(** The shape of a canonical domain. *)
Definition canonical (d : string) : Prop :=
  d <> "" /\ slen d <= 253 /\ parse_addr d = None /\
  Forall (fun l => valid_label l = true) (split_on "." d).

(** The labels of a name. *)
Definition labels (d : string) : list string := split_on "." d.

(** ** Lemmas *)

Lemma label_char_code c :
  label_char c = true -> 45 <= code c <= 122 /\ is_upper c = false /\ c <> "."%char.
Proof.
  unfold label_char, is_lower, is_digit, is_upper, between.
  intros Hc. repeat setoid_rewrite orb_true_iff in Hc.
  rewrite !Ascii.eqb_eq, !andb_true_iff, !Z.leb_le in Hc. change (code "a") with 97 in *.
  change (code "z") with 122 in *. change (code "0") with 48 in *.
  change (code "9") with 57 in *. change (code "A") with 65. change (code "Z") with 90.
  assert (code c <> 46 -> c <> "."%char) by (intros ? ->; done).
  assert (Hcase : 97 <= code c <= 122 \/ 48 <= code c <= 57 \/ code c = 45 \/ code c = 95).
  { destruct Hc as [[[?|?]| ->]| ->]; [lia|lia|right..]; cbv; auto. }
  split; [lia|]. split; [|apply H; lia].
  apply andb_false_iff. rewrite !Z.leb_gt. lia.
Qed.

Lemma label_char_solid c : label_char c = true -> solid c = true.
Proof.
  intros Hc%label_char_code. unfold solid. apply andb_true_iff.
  rewrite Z.leb_le, Z.ltb_lt. lia.
Qed.

Lemma label_char_lower_stable c : label_char c = true -> lower_stable c = true.
Proof.
  intros (Hc & Hup & _)%label_char_code. unfold lower_stable. rewrite Hup. cbn.
  apply Z.ltb_lt. lia.
Qed.

(** Every byte of a canonical domain is a label byte or a dot. *)
Definition domain_char (c : ascii) : bool := label_char c || Ascii.eqb c ".".

Lemma labels_chars d :
  Forall (fun l => sforall label_char l = true) (split_on "." d) -> sforall domain_char d = true.
Proof.
  induction d as [|c d IH]; [done|]. cbn [split_on sforall].
  destruct (Ascii.eqb c ".") eqn:Hdot.
  - intros [_ Hd]%Forall_cons_1. unfold domain_char at 1. by rewrite Hdot, orb_true_r, IH.
  - pose proof (split_on_nonempty "." d) as Hne. destruct (split_on "." d) as [|w ws]; [done|].
    intros [Hw Hws]%Forall_cons_1. cbn in Hw. apply andb_true_iff in Hw as [Hc Hw].
    unfold domain_char at 1. rewrite Hc. cbn. apply IH. by constructor.
Qed.

Lemma canonical_chars d : canonical d -> sforall domain_char d = true.
Proof.
  intros (_ & _ & _ & Hl). apply labels_chars. eapply Forall_impl; [exact Hl|].
  intros l Hv. unfold valid_label in Hv. to_prop. done.
Qed.

Lemma canonical_no_dot_end d : canonical d -> has_suffix d "." = false.
Proof.
  intros (_ & _ & _ & Hl). apply not_true_iff_false. intros [q ->]%has_suffix_spec.
  change "." with (String "." "") in Hl. rewrite split_on_app in Hl.
  apply Forall_app in Hl as [_ Hl]. apply Forall_cons_1 in Hl as [Hl _]. done.
Qed.

Lemma Normalize_Ok v d :
  Normalize v = Ok d <->
  d = trim_suffix (to_lower (trim_space v)) "." /\ canonical d.
Proof.
  unfold Normalize, canonical. cbv zeta. set (d0 := trim_suffix _ _).
  rewrite !guard_err_Ok, orb_false_iff, Z.ltb_ge, negb_false_iff, forallb_elem_of,
    !bool_decide_eq_false, <- eq_None_not_Some, Forall_forall.
  split.
  - intros ([Hne Hlen] & Hip & Hl & [= <-]). done.
  - intros (-> & Hne & Hlen & Hip & Hl). done.
Qed.

Lemma domain_char_solid c : domain_char c = true -> solid c = true.
Proof.
  unfold domain_char. intros [?| ->%Ascii.eqb_eq]%orb_true_iff; [by apply label_char_solid|done].
Qed.

Lemma domain_char_lower_stable c : domain_char c = true -> lower_stable c = true.
Proof.
  unfold domain_char.
  intros [?| ->%Ascii.eqb_eq]%orb_true_iff; [by apply label_char_lower_stable|done].
Qed.

Lemma canonical_Normalize d : canonical d -> Normalize d = Ok d.
Proof.
  intros Hd. apply Normalize_Ok. split; [|done].
  pose proof (canonical_chars d Hd) as Hchars.
  rewrite trim_space_id by (apply Hd || eauto using sforall_impl, domain_char_solid).
  rewrite to_lower_id by eauto using sforall_impl, domain_char_lower_stable.
  unfold trim_suffix. by rewrite canonical_no_dot_end.
Qed.

#[export] Hint Resolve canonical_Normalize : tunproxy.

Lemma Normalize_canonical v d : Normalize v = Ok d -> canonical d.
Proof. intros H. apply Normalize_Ok in H. apply H. Qed.

Lemma Normalize_nonempty v d : Normalize v = Ok d -> d <> "".
Proof. intros H%Normalize_canonical. apply H. Qed.

(** A suffix match is a match of whole labels. *)
Lemma label_suffix d p :
  bool_decide (d = p) || has_suffix d ("." +:+ p) = true <->
  exists l, labels d = l ++ labels p.
Proof.
  unfold labels. rewrite orb_true_iff, bool_decide_eq_true, has_suffix_spec. split.
  - intros [-> | [q ->]]; [by exists []|].
    exists (split_on "." q). by rewrite <- split_on_app.
  - intros [l Hl]. apply (f_equal (string_join ".")) in Hl.
    change "." with (String "." "") in Hl. rewrite join_split in Hl.
    destruct l as [|w l]; [left; by rewrite Hl, app_nil_l, join_split|right].
    rewrite string_join_app, join_split in Hl; [eauto|done|apply split_on_nonempty].
Qed.

(** ** Properties *)

(** [Normalize] is idempotent: what it returns is canonical, and a
    canonical domain is returned unchanged, so the config, the Fake DNS
    server, the address pool and the rules engine agree on one text. *)
Theorem normalize_idempotent (v d : string) :
  Normalize v = Ok d -> Normalize d = Ok d.
Proof. intros H%Normalize_canonical. auto with tunproxy. Qed.

Lemma normalize_idempotent_witness :
  Normalize "  Example.COM. " = Ok "example.com" /\ Normalize "example.com" = Ok "example.com".
Proof.
  split; [vm_compute; reflexivity|].
  apply (normalize_idempotent "  Example.COM. "). vm_compute. reflexivity.
Defined.

(** A pattern matches exactly at label boundaries: [*.p] matches the
    domains whose labels end with the labels of [p] (p itself included), a
    plain pattern matches only itself. *)
Theorem matches_label_suffix (p : Pattern) (d : string) :
  Matches p d = true <->
  if Suffix p then exists l, labels d = l ++ labels (Domain p) else d = Domain p.
Proof.
  unfold Matches. destruct (Suffix p); [apply label_suffix | apply bool_decide_eq_true].
Qed.
