(* ===== verification/ConfigTypes.v ===== *)
(** * The compiled configuration

    The data types of [internal/config/config.go] that the rest of the program
    reads: the runtime [Config] and its parts.  Durations are nanoseconds,
    [int] fields are integers (their 64-bit bounds follow from validation). *)

From S2P Require Import Prelude.
From S2P Require Import GoStrings.
From S2P Require Import NetIP.
From S2P Require Import DomainName.

Record Capture : Type := MkCapture { DefaultRoute : bool }.

Record Log : Type := MkLog { Level : string; Format : string }.

Record System : Type := MkSystem {
  StateFile : string;
  LockFile : string;
  ManageDNS : bool
}.

Record TUN : Type := MkTUN {
  Address : addr;
  Peer : addr;
  IPv6Address : addr;
  IPv6Peer : addr;
  MTU : Z;
  PacketQueue : Z;
  BufferPool : Z
}.

Record FakeIP : Type := MkFakeIP {
  FakePrefix : prefix;
  DNSTTL : Z;
  MappingTTL : Z;
  MaxMappings : Z;
  PersistenceFile : string;
  Exclude : list Pattern
}.

Record FakeIPv6 : Type := MkFakeIPv6 {
  FakePrefix6 : prefix;
  MaxMappings6 : Z;
  PersistenceFile6 : string
}.

Record DNS : Type := MkDNS {
  Listen : addr_port;
  UDP : bool;
  TCP : bool;
  DefaultOutbound : string;
  MaxConcurrent : Z
}.

Record Sessions : Type := MkSessions {
  MaxTCPFlows : Z;
  UDPIdleTimeout : Z;
  MaxUDPSessions : Z;
  MaxUDPSessionsPerSource : Z
}.

Record Outbound : Type := MkOutbound {
  Name : string;
  OutType : string;
  Interface : string;
  DNSSource : string;
  OutDNS : list addr_port;
  ConnectTimeout : Z;
  Fallback : string
}.

Record Rule : Type := MkRule {
  ID : Z;
  Domains : list string;
  DomainSuffixes : list string;
  DestinationCIDRs : list prefix;
  RuleOutbound : string
}.

(** [Rule.Default] *)
Definition Default (r : Rule) : bool :=
  bool_decide (Domains r = []) && bool_decide (DomainSuffixes r = []) &&
  bool_decide (DestinationCIDRs r = []).

Record Config : Type := MkConfig {
  Version : Z;
  CLog : Log;
  CSystem : System;
  CCapture : Capture;
  CTUN : TUN;
  CFakeIP : FakeIP;
  CFakeIPv6 : option FakeIPv6;
  CDNS : DNS;
  CSessions : Sessions;
  Outbounds : gmap string Outbound;
  Rules : list Rule
}.

#[export] Instance Outbound_eq_dec : EqDecision Outbound.
Proof. solve_decision. Defined.
