(* ===== verification/ConfigCompile.v ===== *)
(** * Component [internal/config]: compilation

    From the decoded YAML to the runtime configuration: every default, every
    check and every derived value of [compile], in the order of the code.  The
    YAML decoder is a parameter, and so is SHA-256.  Also [reload.go]: which
    configurations a running service accepts. *)

From S2P Require Import Prelude.
From S2P Require Import GoStrings.
From S2P Require Import GoTime.
From S2P Require Import GoFiles.
From S2P Require Import NetIP.
From S2P Require Import DomainName.
From S2P Require Import ConfigTypes.

(** ** The decoded document *)

Record rawCapture : Type := MkRawCapture { raw_DefaultRoute : option bool }.

Record rawLog : Type := MkRawLog { raw_Level : string; raw_Format : string }.

Record rawSystem : Type := MkRawSystem {
  raw_StateFile : string;
  raw_LockFile : string;
  raw_ManageDNS : option bool;
  raw_RestoreOnExit : option bool
}.

Record rawTUN : Type := MkRawTUN {
  raw_Address : string;
  raw_Peer : string;
  raw_IPv6Address : string;
  raw_IPv6Peer : string;
  raw_MTU : Z;
  raw_PacketQueue : Z;
  raw_BufferPool : Z
}.

Record rawFakeIP : Type := MkRawFakeIP {
  raw_CIDR : string;
  raw_DNSTTL : string;
  raw_MappingTTL : string;
  raw_MaxMappings : Z;
  raw_PersistenceFile : string;
  raw_Exclude : option (list string)
}.

Record rawFakeIPv6 : Type := MkRawFakeIPv6 {
  raw_CIDR6 : string;
  raw_MaxMappings6 : Z;
  raw_PersistenceFile6 : string
}.

Record rawDNS : Type := MkRawDNS {
  raw_Listen : string;
  raw_UDP : option bool;
  raw_TCP : option bool;
  raw_DefaultOutbound : string;
  raw_MaxConcurrent : Z
}.

Record rawSessions : Type := MkRawSessions {
  raw_MaxTCPFlows : Z;
  raw_UDPIdleTimeout : string;
  raw_MaxUDPSessions : Z;
  raw_MaxUDPSessionsPerSource : Z
}.

Record rawOutbound : Type := MkRawOutbound {
  raw_Type : string;
  raw_Interface : string;
  raw_DNSSource : string;
  raw_DNS : list string;
  raw_ConnectTimeout : string;
  raw_Fallback : string
}.

Record rawRule : Type := MkRawRule {
  raw_Domain : list string;
  raw_DomainSuffix : list string;
  raw_IPCIDR : list string;
  raw_RuleOutbound : string
}.

Record rawConfig : Type := MkRawConfig {
  raw_Version : Z;
  raw_Log : rawLog;
  raw_System : rawSystem;
  raw_Capture : rawCapture;
  raw_TUN : rawTUN;
  raw_FakeIP : rawFakeIP;
  raw_FakeIPv6 : option rawFakeIPv6;
  raw_CDNS : rawDNS;
  raw_Sessions : rawSessions;
  raw_Outbounds : gmap string rawOutbound;
  raw_Rules : list rawRule
}.

Inductive config_error : Type :=
| BadConfigVersion
| BadLogLevel
| BadLogFormat
| RestoreDisabled
| BadPath (name : string)
| SamePaths
| BadTunAddress (name : string)
| SameTunAddresses
| TunIPv6Incomplete
| OutOfRange (name : string)
| BadFakeCIDR
| NoUsableCapacity
| BadDuration (name : string)
| DNSTTLTooShort
| MappingTTLTooShort
| BadExclude (e : domain_error)
| FakeIPv6Missing
| NotUniqueLocal
| SamePersistence
| TunIPv6Required
| TunIPv6Unexpected
| FakePrefixContainsTUN
| BadListen
| NoDNSProtocol
| NoDefaultOutbound
| NoOutbounds
| BadOutboundName
| BadOutboundType
| RejectWithSettings
| BadInterface
| NoDNSServers
| BadDNSSource
| BadDNSServer
| UndefinedDefaultOutbound
| RejectDefaultOutbound
| UndefinedFallback
| SelfFallback
| FallbackCycle
| NoRules
| UndefinedRuleOutbound
| BadRuleDomain (e : domain_error)
| BadRulePrefix
| DefaultNotLast
| DefaultCount
| EmptyConfig
| ConfigTooLarge
| DecodeFailed.

#[export] Instance config_error_eq_dec : EqDecision config_error.
Proof. solve_decision. Defined.

(** ** Helpers *)

Definition defaultString (value fallback : string) : string :=
  if bool_decide (value = "") then fallback else value.

Definition defaultBool (value : option bool) (fallback : bool) : bool :=
  match value with Some b => b | None => fallback end.

Definition oneOf (value : string) (allowed : list string) : bool :=
  existsb (fun candidate => bool_decide (value = candidate)) allowed.

Definition appendUnique (values : list string) (value : string) : list string :=
  if existsb (fun existing => bool_decide (existing = value)) values then values else values ++ [value].

Definition appendUniquePrefix (values : list prefix) (value : prefix) : list prefix :=
  if existsb (fun existing => bool_decide (existing = value)) values then values else values ++ [value].

Definition name_char (c : ascii) : bool := is_lower c || is_upper c || is_digit c || Ascii.eqb c "_".

Definition validIdentifier (value : string) : bool :=
  negb (bool_decide (value = "") || first_is value "-" || first_is value "_") &&
  sforall (fun c => name_char c || Ascii.eqb c "-") value.

Definition validInterfaceName (value : string) : bool :=
  negb (bool_decide (value = "") || (15 <? slen value)) && sforall name_char value.

Definition validateAbsolutePath (name value : string) : result config_error unit :=
  fail_if negb (is_abs value) || negb (bool_decide (clean value = value)) with BadPath name in Ok tt.

Definition parsePositiveDuration (name value : string) : result config_error Z :=
  match parse_duration value with
  | Some d => fail_if d <=? 0 with BadDuration name in Ok d
  | None => Err (BadDuration name)
  end.

Definition parseIPv4 (name value : string) : result config_error addr :=
  match parse_addr value with
  | Some a =>
      fail_if negb (is4 a) || is_unspecified a || is_loopback a || is_multicast a with BadTunAddress name in Ok a
  | None => Err (BadTunAddress name)
  end.

Definition parseIPv6 (name value : string) : result config_error addr :=
  match parse_addr value with
  | Some a =>
      fail_if negb (is6 a) || is4in6 a || is_unspecified a || is_multicast a with BadTunAddress name in Ok a
  | None => Err (BadTunAddress name)
  end.

(** An [int] with its default for zero and its bounds. *)
Definition bounded (name : string) (value default low high : Z) : result config_error Z :=
  let v := if value =? 0 then default else value in
  fail_if (v <? low) || (high <? v) with OutOfRange name in Ok v.

(** ** The sections *)

Definition compileLog (raw : rawLog) : result config_error Log :=
  let level := defaultString (to_lower (raw_Level raw)) "info" in
  let format := defaultString (to_lower (raw_Format raw)) "text" in
  fail_if negb (oneOf level ["debug"; "info"; "warn"; "error"]) with BadLogLevel in
  fail_if negb (oneOf format ["text"; "json"]) with BadLogFormat in
  Ok (MkLog level format).

Definition compileSystem (raw : rawSystem) : result config_error System :=
  fail_if negb (defaultBool (raw_RestoreOnExit raw) true) with RestoreDisabled in
  let state := defaultString (raw_StateFile raw) "/var/run/tun-proxy/state.json" in
  let lock := defaultString (raw_LockFile raw) "/var/run/tun-proxy/tun-proxy.lock" in
  let! _ := validateAbsolutePath "system.state_file" state in
  let! _ := validateAbsolutePath "system.lock_file" lock in
  fail_if bool_decide (state = lock) with SamePaths in
  Ok (MkSystem state lock (defaultBool (raw_ManageDNS raw) true)).

(** The IPv6 pair of [compileTUN]: both addresses or none. *)
Definition compile_tun_ipv6 (raw : rawTUN) : result config_error (addr * addr) :=
  if bool_decide (raw_IPv6Address raw = "") && bool_decide (raw_IPv6Peer raw = "") then Ok (AddrZero, AddrZero)
  else
    fail_if bool_decide (raw_IPv6Address raw = "") || bool_decide (raw_IPv6Peer raw = "") with TunIPv6Incomplete in
    let! address := parseIPv6 "tun.ipv6_address" (raw_IPv6Address raw) in
    let! peer := parseIPv6 "tun.ipv6_peer" (raw_IPv6Peer raw) in
    fail_if bool_decide (address = peer) with SameTunAddresses in
    Ok (address, peer).

Definition compileTUN (raw : rawTUN) : result config_error TUN :=
  let! address := parseIPv4 "tun.address" (defaultString (raw_Address raw) "10.255.0.2") in
  let! peer := parseIPv4 "tun.peer" (defaultString (raw_Peer raw) "10.255.0.1") in
  fail_if bool_decide (address = peer) with SameTunAddresses in
  let! ipv6 := compile_tun_ipv6 raw in
  let! mtu := bounded "tun.mtu" (raw_MTU raw) 1400 576 9000 in
  let! queue := bounded "tun.packet_queue" (raw_PacketQueue raw) 1024 64 65536 in
  let! pool := bounded "tun.buffer_pool" (raw_BufferPool raw) 128 8 4096 in
  Ok (MkTUN address peer (fst ipv6) (snd ipv6) mtu queue pool).

(** The limit on the mappings: its default is 65536 or the capacity. *)
Definition compile_max_mappings (name : string) (value usable : Z) : result config_error Z :=
  let v := if value =? 0 then Z.min 65536 usable else value in
  fail_if (v <=? 0) || (usable <? v) with OutOfRange name in Ok v.

(** The exclude patterns, without repetitions. *)
Fixpoint compile_excludes (values : list string) (patterns : list Pattern) : result config_error (list Pattern) :=
  match values with
  | [] => Ok patterns
  | value :: values' =>
      let! pattern := map_err BadExclude (ParsePattern value) in
      compile_excludes values' (if bool_decide (pattern ∈ patterns) then patterns else patterns ++ [pattern])
  end.

Definition compileFakeIP (raw : rawFakeIP) : result config_error FakeIP :=
  match parse_prefix (defaultString (raw_CIDR raw) "198.18.0.0/15") with
  | None => Err BadFakeCIDR
  | Some pre =>
      fail_if negb (is4 (prefix_addr pre)) with BadFakeCIDR in
      let pre := masked pre in
      let total := 2 ^ (32 - prefix_bits pre) in
      fail_if total <=? 11 with NoUsableCapacity in
      let! dnsTTL := parsePositiveDuration "fake_ip.dns_ttl" (defaultString (raw_DNSTTL raw) "1m") in
      fail_if dnsTTL <? second with DNSTTLTooShort in
      let! mappingTTL := parsePositiveDuration "fake_ip.mapping_ttl" (defaultString (raw_MappingTTL raw) "24h") in
      fail_if mappingTTL <=? dnsTTL with MappingTTLTooShort in
      let! maxMappings := compile_max_mappings "fake_ip.max_mappings" (raw_MaxMappings raw) (total - 11) in
      let persistence := defaultString (raw_PersistenceFile raw) "/var/lib/tun-proxy/fake-ip.yaml" in
      let! _ := validateAbsolutePath "fake_ip.persistence_file" persistence in
      let! patterns := compile_excludes
        (match raw_Exclude raw with Some l => l | None => ["localhost"; "*.local"; "*.lan"] end) [] in
      Ok (MkFakeIP pre dnsTTL mappingTTL maxMappings persistence patterns)
  end.

(** The usable capacity of an IPv6 prefix as a [uint64]. *)
Definition usable_ipv6 (pre : prefix) : result config_error Z :=
  let hostBits := 128 - prefix_bits pre in
  if 64 <? hostBits then Ok u64_max
  else if hostBits =? 64 then Ok (u64_max - 10)
  else fail_if 2 ^ hostBits <=? 11 with NoUsableCapacity in Ok (2 ^ hostBits - 11).

Definition compileFakeIPv6 (raw : rawFakeIPv6) : result config_error FakeIPv6 :=
  fail_if bool_decide (raw_CIDR6 raw = "") with FakeIPv6Missing in
  match parse_prefix (raw_CIDR6 raw) with
  | None => Err BadFakeCIDR
  | Some pre =>
      fail_if negb (is6 (prefix_addr pre)) || is4in6 (prefix_addr pre) with BadFakeCIDR in
      let pre := masked pre in
      fail_if negb (is_private (prefix_addr pre)) with NotUniqueLocal in
      let! usable := usable_ipv6 pre in
      let! maxMappings := compile_max_mappings "fake_ipv6.max_mappings" (raw_MaxMappings6 raw) usable in
      let persistence := defaultString (raw_PersistenceFile6 raw) "/var/lib/tun-proxy/fake-ipv6.yaml" in
      let! _ := validateAbsolutePath "fake_ipv6.persistence_file" persistence in
      Ok (MkFakeIPv6 pre maxMappings persistence)
  end.

Definition compileDNS (raw : rawDNS) : result config_error DNS :=
  match parse_addr_port (defaultString (raw_Listen raw) "127.0.0.1:53") with
  | None => Err BadListen
  | Some listen =>
      fail_if negb (is4 (ap_addr listen)) || negb (is_loopback (ap_addr listen)) with BadListen in
      fail_if ap_port listen =? 0 with BadListen in
      let udp := defaultBool (raw_UDP raw) true in
      let tcp := defaultBool (raw_TCP raw) true in
      fail_if negb udp && negb tcp with NoDNSProtocol in
      fail_if bool_decide (raw_DefaultOutbound raw = "") with NoDefaultOutbound in
      let! maxConcurrent := bounded "dns.max_concurrent" (raw_MaxConcurrent raw) 256 1 65536 in
      Ok (MkDNS listen udp tcp (raw_DefaultOutbound raw) maxConcurrent)
  end.

Definition compileSessions (raw : rawSessions) : result config_error Sessions :=
  let! maxTCPFlows := bounded "sessions.max_tcp_flows" (raw_MaxTCPFlows raw) 1024 1 1000000 in
  let! idle := parsePositiveDuration "sessions.udp_idle_timeout" (defaultString (raw_UDPIdleTimeout raw) "2m") in
  let! maxSessions := bounded "sessions.max_udp_sessions" (raw_MaxUDPSessions raw) 4096 1 1000000 in
  let! maxPerSource := bounded "sessions.max_udp_sessions_per_source"
    (raw_MaxUDPSessionsPerSource raw) 256 1 maxSessions in
  Ok (MkSessions maxTCPFlows idle maxSessions maxPerSource).

(** ** Outbounds *)

Definition DNSSourceDHCP : string := "dhcp".
Definition DNSSourceStatic : string := "static".

(** The DNS servers of a direct outbound. *)
Fixpoint compile_servers (servers : list string) : result config_error (list addr_port) :=
  match servers with
  | [] => Ok []
  | server :: servers' =>
      match parse_addr_port server with
      | None => Err BadDNSServer
      | Some address =>
          fail_if (ap_port address =? 0) || is_unspecified (ap_addr address) || is_loopback (ap_addr address) ||
                  is4in6 (ap_addr address) with BadDNSServer in
          let! rest := compile_servers servers' in
          Ok (address :: rest)
      end
  end.

(** One iteration of [compileOutbounds]. *)
Definition compile_outbound (name : string) (value : rawOutbound) : result config_error Outbound :=
  fail_if negb (validIdentifier name) with BadOutboundName in
  let kind := to_lower (raw_Type value) in
  fail_if negb (oneOf kind ["direct"; "reject"]) with BadOutboundType in
  if bool_decide (kind = "reject") then
    fail_if negb (bool_decide (raw_Interface value = "")) || negb (bool_decide (raw_DNSSource value = "")) ||
            negb (bool_decide (raw_DNS value = [])) || negb (bool_decide (raw_ConnectTimeout value = "")) ||
            negb (bool_decide (raw_Fallback value = "")) with RejectWithSettings in
    Ok (MkOutbound name kind (raw_Interface value) "" [] 0 (raw_Fallback value))
  else
    fail_if bool_decide (raw_Interface value = "") || negb (validInterfaceName (raw_Interface value))
    with BadInterface in
    fail_if bool_decide (raw_DNS value = []) with NoDNSServers in
    let source := to_lower (defaultString (raw_DNSSource value) DNSSourceDHCP) in
    fail_if negb (oneOf source [DNSSourceDHCP; DNSSourceStatic]) with BadDNSSource in
    let! servers := compile_servers (raw_DNS value) in
    let! timeout := parsePositiveDuration "connect_timeout" (defaultString (raw_ConnectTimeout value) "10s") in
    Ok (MkOutbound name kind (raw_Interface value) source servers timeout (raw_Fallback value)).

(** The loop of [compileOutbounds] over the sorted names. *)
Fixpoint compile_outbounds_loop (items : list (string * rawOutbound)) (acc : gmap string Outbound)
    : result config_error (gmap string Outbound) :=
  match items with
  | [] => Ok acc
  | (name, value) :: items' =>
      let! outbound := compile_outbound name value in
      compile_outbounds_loop items' (<[name := outbound]> acc)
  end.

Definition name_le (a b : string * rawOutbound) : Prop := String.le (fst a) (fst b).

#[export] Instance name_le_dec : RelDecision name_le.
Proof. intros a b. unfold name_le. apply _. Defined.

Definition compileOutbounds (raw : gmap string rawOutbound) : result config_error (gmap string Outbound) :=
  fail_if bool_decide (raw = ∅) with NoOutbounds in
  compile_outbounds_loop (merge_sort name_le (map_to_list raw)) ∅.

(** ** Fallbacks *)

(** [outbounds[name].Fallback]; the zero value of a missing name has none. *)
Definition fallback_of (outbounds : gmap string Outbound) (name : string) : string :=
  match outbounds !! name with Some o => Fallback o | None => "" end.

(** The first loop of [validateFallbacks]. *)
Definition check_target (outbounds : gmap string Outbound) (name : string) : result config_error unit :=
  let next := fallback_of outbounds name in
  if bool_decide (next = "") then Ok tt
  else
    fail_if negb (bool_decide (is_Some (outbounds !! next))) with UndefinedFallback in
    fail_if bool_decide (next = name) with SelfFallback in Ok tt.

Inductive visit_state : Type := Visiting | Done.

#[export] Instance visit_state_eq_dec : EqDecision visit_state.
Proof. solve_decision. Defined.

(** [visit]; unvisited names are absent.  Every call marks a new name of the
    map, so one more than the number of outbounds is enough fuel. *)
Fixpoint visit (fuel : nat) (outbounds : gmap string Outbound) (name : string)
    (states : gmap string visit_state) : result config_error (gmap string visit_state) :=
  match fuel with
  | O => Err FallbackCycle
  | S fuel' =>
      match states !! name with
      | Some Visiting => Err FallbackCycle
      | Some Done => Ok states
      | None =>
          let states := <[name := Visiting]> states in
          let next := fallback_of outbounds name in
          let! states := (if bool_decide (next = "") then Ok states else visit fuel' outbounds next states) in
          Ok (<[name := Done]> states)
      end
  end.

Fixpoint check_targets (outbounds : gmap string Outbound) (names : list string) : result config_error unit :=
  match names with
  | [] => Ok tt
  | name :: names' => let! _ := check_target outbounds name in check_targets outbounds names'
  end.

Fixpoint visit_all (fuel : nat) (outbounds : gmap string Outbound) (names : list string)
    (states : gmap string visit_state) : result config_error (gmap string visit_state) :=
  match names with
  | [] => Ok states
  | name :: names' =>
      let! states := visit fuel outbounds name states in
      visit_all fuel outbounds names' states
  end.

(** [validateFallbacks], with the orders in which its two loops happen to
    range over the map. *)
Definition validate_fallbacks_in (order1 order2 : list string) (outbounds : gmap string Outbound)
    : result config_error unit :=
  let! _ := check_targets outbounds order1 in
  let! _ := visit_all (S (size outbounds)) outbounds order2 ∅ in
  Ok tt.

Definition map_names (outbounds : gmap string Outbound) : list string := (map_to_list outbounds).*1.

Definition validateFallbacks (outbounds : gmap string Outbound) : result config_error unit :=
  validate_fallbacks_in (map_names outbounds) (map_names outbounds) outbounds.

(** ** Rules *)

Fixpoint compile_domains (values acc : list string) : result config_error (list string) :=
  match values with
  | [] => Ok acc
  | value :: values' =>
      let! normalized := map_err BadRuleDomain (Normalize value) in
      compile_domains values' (appendUnique acc normalized)
  end.

Fixpoint compile_prefixes (values : list string) (acc : list prefix) : result config_error (list prefix) :=
  match values with
  | [] => Ok acc
  | value :: values' =>
      match parse_prefix value with
      | None => Err BadRulePrefix
      | Some pre =>
          fail_if is4in6 (prefix_addr pre) with BadRulePrefix in
          fail_if negb (bool_decide (pre = masked pre)) with BadRulePrefix in
          compile_prefixes values' (appendUniquePrefix acc pre)
      end
  end.

(** The loop of [compileRules]: [index] rules are done, [total] are given. *)
Fixpoint compile_rules_loop (values : list rawRule) (index total : Z) (outbounds : gmap string Outbound)
    (acc : list Rule) (defaults : Z) : result config_error (list Rule * Z) :=
  match values with
  | [] => Ok (acc, defaults)
  | value :: values' =>
      fail_if negb (bool_decide (is_Some (outbounds !! raw_RuleOutbound value))) with UndefinedRuleOutbound in
      let! domains := compile_domains (raw_Domain value) [] in
      let! suffixes := compile_domains (raw_DomainSuffix value) [] in
      let! cidrs := compile_prefixes (raw_IPCIDR value) [] in
      let rule := MkRule (index + 1) domains suffixes cidrs (raw_RuleOutbound value) in
      fail_if Default rule && negb (index =? total - 1) with DefaultNotLast in
      compile_rules_loop values' (index + 1) total outbounds (acc ++ [rule])
        (if Default rule then defaults + 1 else defaults)
  end.

Definition compileRules (raw : list rawRule) (outbounds : gmap string Outbound) : result config_error (list Rule) :=
  fail_if bool_decide (raw = []) with NoRules in
  let! r := compile_rules_loop raw 0 (Z.of_nat (length raw)) outbounds [] 0 in
  fail_if negb (snd r =? 1) with DefaultCount in
  Ok (fst r).

(** ** The document *)

Definition CurrentVersion : Z := 1.

(** The IPv6 part of [compile]. *)
Definition compile_fake_ipv6 (raw : option rawFakeIPv6) (tun : TUN) (fake : FakeIP)
    : result config_error (option FakeIPv6) :=
  match raw with
  | Some raw =>
      let! fake6 := compileFakeIPv6 raw in
      fail_if bool_decide (PersistenceFile6 fake6 = PersistenceFile fake) with SamePersistence in
      fail_if negb (addr_valid (IPv6Address tun)) || negb (addr_valid (IPv6Peer tun)) with TunIPv6Required in
      fail_if prefix_contains (FakePrefix6 fake6) (IPv6Address tun) ||
              prefix_contains (FakePrefix6 fake6) (IPv6Peer tun) with FakePrefixContainsTUN in
      Ok (Some fake6)
  | None =>
      fail_if addr_valid (IPv6Address tun) || addr_valid (IPv6Peer tun) with TunIPv6Unexpected in
      Ok None
  end.

(** [compile] *)
Definition compile (raw : rawConfig) : result config_error Config :=
  fail_if negb (raw_Version raw =? CurrentVersion) with BadConfigVersion in
  let! log := compileLog (raw_Log raw) in
  let! system := compileSystem (raw_System raw) in
  let capture := MkCapture (defaultBool (raw_DefaultRoute (raw_Capture raw)) false) in
  let! tun := compileTUN (raw_TUN raw) in
  let! fake := compileFakeIP (raw_FakeIP raw) in
  let! fake6 := compile_fake_ipv6 (raw_FakeIPv6 raw) tun fake in
  let! dns := compileDNS (raw_CDNS raw) in
  let! sessions := compileSessions (raw_Sessions raw) in
  fail_if prefix_contains (FakePrefix fake) (Address tun) || prefix_contains (FakePrefix fake) (Peer tun)
  with FakePrefixContainsTUN in
  let! outbounds := compileOutbounds (raw_Outbounds raw) in
  match outbounds !! DefaultOutbound dns with
  | None => Err UndefinedDefaultOutbound
  | Some default =>
      fail_if bool_decide (OutType default = "reject") with RejectDefaultOutbound in
      let! _ := validateFallbacks outbounds in
      let! rules := compileRules (raw_Rules raw) outbounds in
      Ok (MkConfig (raw_Version raw) log system capture tun fake fake6 dns sessions outbounds rules)
  end.

Definition maxConfigSize : Z := Z.shiftl 1 20.

Section decoding.
(** The strict YAML decoder of one document, and the digest of the bytes. *)
Context (yaml_decode : string -> option rawConfig) (sha256 : string -> string).

(** [Decode] *)
Definition Decode (contents : string) : result config_error Config :=
  match yaml_decode contents with
  | None => Err DecodeFailed
  | Some raw => compile raw
  end.

(** [LoadBytesWithDigest] *)
Definition LoadBytesWithDigest (contents : string) : result config_error (Config * string) :=
  fail_if slen contents =? 0 with EmptyConfig in
  fail_if maxConfigSize <? slen contents with ConfigTooLarge in
  let! runtime := Decode contents in
  Ok (runtime, "sha256:" +:+ sha256 contents).
End decoding.

(** * Reloads *)

(** [requireEqual] *)
Definition requireEqual {A} `{EqDecision A} (name : string) (left right : A) (failures : list string) : list string :=
  if decide (left = right) then failures else failures ++ [name].

Definition is_nil {A} (o : option A) : bool := match o with None => true | Some _ => false end.

(** The comparison of the two IPv6 pools. *)
Definition require_ipv6 (current next : option FakeIPv6) (failures : list string) : list string :=
  if xorb (is_nil current) (is_nil next) then failures ++ ["fake_ipv6"]
  else match current, next with
       | Some current, Some next =>
           let failures := requireEqual "fake_ipv6.cidr" (FakePrefix6 current) (FakePrefix6 next) failures in
           let failures := requireEqual "fake_ipv6.max_mappings" (MaxMappings6 current) (MaxMappings6 next) failures in
           requireEqual "fake_ipv6.persistence_file" (PersistenceFile6 current) (PersistenceFile6 next) failures
       | _, _ => failures
       end.

(** The comparisons before the IPv6 pool. *)
Definition require_host (current next : Config) : list string :=
  let f := [] in
  let f := requireEqual "version" (Version current) (Version next) f in
  let f := requireEqual "system.state_file" (StateFile (CSystem current)) (StateFile (CSystem next)) f in
  let f := requireEqual "system.lock_file" (LockFile (CSystem current)) (LockFile (CSystem next)) f in
  let f := requireEqual "system.manage_dns" (ManageDNS (CSystem current)) (ManageDNS (CSystem next)) f in
  let f := requireEqual "capture.default_route" (DefaultRoute (CCapture current)) (DefaultRoute (CCapture next)) f in
  let f := requireEqual "tun.address" (Address (CTUN current)) (Address (CTUN next)) f in
  let f := requireEqual "tun.peer" (Peer (CTUN current)) (Peer (CTUN next)) f in
  let f := requireEqual "tun.ipv6_address" (IPv6Address (CTUN current)) (IPv6Address (CTUN next)) f in
  let f := requireEqual "tun.ipv6_peer" (IPv6Peer (CTUN current)) (IPv6Peer (CTUN next)) f in
  let f := requireEqual "tun.mtu" (MTU (CTUN current)) (MTU (CTUN next)) f in
  let f := requireEqual "tun.packet_queue" (PacketQueue (CTUN current)) (PacketQueue (CTUN next)) f in
  let f := requireEqual "tun.buffer_pool" (BufferPool (CTUN current)) (BufferPool (CTUN next)) f in
  let f := requireEqual "fake_ip.cidr" (FakePrefix (CFakeIP current)) (FakePrefix (CFakeIP next)) f in
  let f := requireEqual "fake_ip.mapping_ttl" (MappingTTL (CFakeIP current)) (MappingTTL (CFakeIP next)) f in
  let f := requireEqual "fake_ip.max_mappings" (MaxMappings (CFakeIP current)) (MaxMappings (CFakeIP next)) f in
  requireEqual "fake_ip.persistence_file" (PersistenceFile (CFakeIP current)) (PersistenceFile (CFakeIP next)) f.

(** The comparisons after it. *)
Definition require_services (current next : Config) (f : list string) : list string :=
  let f := requireEqual "dns.listen" (Listen (CDNS current)) (Listen (CDNS next)) f in
  let f := requireEqual "dns.udp" (UDP (CDNS current)) (UDP (CDNS next)) f in
  let f := requireEqual "dns.tcp" (TCP (CDNS current)) (TCP (CDNS next)) f in
  let f := requireEqual "dns.max_concurrent" (MaxConcurrent (CDNS current)) (MaxConcurrent (CDNS next)) f in
  let f := requireEqual "sessions.max_tcp_flows"
    (MaxTCPFlows (CSessions current)) (MaxTCPFlows (CSessions next)) f in
  let f := requireEqual "sessions.max_udp_sessions"
    (MaxUDPSessions (CSessions current)) (MaxUDPSessions (CSessions next)) f in
  let f := requireEqual "sessions.max_udp_sessions_per_source"
    (MaxUDPSessionsPerSource (CSessions current)) (MaxUDPSessionsPerSource (CSessions next)) f in
  if DefaultRoute (CCapture current) && negb (bool_decide (Outbounds current = Outbounds next))
  then f ++ ["outbounds"] else f.

(** [ValidateReload]: an empty list is the nil error. *)
Definition ValidateReload (current next : option Config) : list string :=
  match current, next with
  | Some current, Some next =>
      require_services current next
        (require_ipv6 (CFakeIPv6 current) (CFakeIPv6 next) (require_host current next))
  | _, _ => ["current and next configuration are required"]
  end.

(** ** What a reload keeps *)

(** The parts of a configuration that the host state and the address pools
    depend on. *)
Record host_state : Type := MkHostState {
  hs_version : Z;
  hs_system : System;
  hs_capture : Capture;
  hs_tun : TUN;
  hs_pool : prefix * Z * Z * string;
  hs_pool6 : option FakeIPv6;
  hs_dns : addr_port * bool * bool * Z;
  hs_sessions : Z * Z * Z
}.

Definition host_state_of (c : Config) : host_state := {|
  hs_version := Version c;
  hs_system := CSystem c;
  hs_capture := CCapture c;
  hs_tun := CTUN c;
  hs_pool := (FakePrefix (CFakeIP c), MappingTTL (CFakeIP c), MaxMappings (CFakeIP c), PersistenceFile (CFakeIP c));
  hs_pool6 := CFakeIPv6 c;
  hs_dns := (Listen (CDNS c), UDP (CDNS c), TCP (CDNS c), MaxConcurrent (CDNS c));
  hs_sessions := (MaxTCPFlows (CSessions c), MaxUDPSessions (CSessions c), MaxUDPSessionsPerSource (CSessions c))
|}.

(** A service that applies a list of reload requests: a refused one leaves the
    configuration alone. *)
Definition apply_reload (current next : Config) : Config :=
  if bool_decide (ValidateReload (Some current) (Some next) = []) then next else current.

(** ** Lemmas *)

Lemma requireEqual_nil {A} `{EqDecision A} name (left right : A) f :
  requireEqual name left right f = [] <-> f = [] /\ left = right.
Proof.
  unfold requireEqual. case_decide; [naive_solver|]. split; [|naive_solver].
  intros Hf. by apply app_nil in Hf as [_ ?].
Qed.

Lemma require_ipv6_nil current next f :
  require_ipv6 current next f = [] <-> f = [] /\ current = next.
Proof.
  unfold require_ipv6. destruct current as [a|], next as [b|]; cbn.
  - rewrite !requireEqual_nil. destruct a, b; cbn. naive_solver.
  - rewrite app_nil. naive_solver.
  - rewrite app_nil. naive_solver.
  - naive_solver.
Qed.

Lemma require_host_nil current next :
  require_host current next = [] <->
  Version current = Version next /\ CSystem current = CSystem next /\ CCapture current = CCapture next /\
  CTUN current = CTUN next /\ hs_pool (host_state_of current) = hs_pool (host_state_of next).
Proof.
  unfold require_host. rewrite !requireEqual_nil.
  destruct current as [? ? [] [] [] [] ? ? ? ? ?], next as [? ? [] [] [] [] ? ? ? ? ?]. cbn.
  split; intros; destruct_and?; split_and!; congruence.
Qed.

Lemma require_services_nil current next f :
  require_services current next f = [] <->
  f = [] /\ hs_dns (host_state_of current) = hs_dns (host_state_of next) /\
  hs_sessions (host_state_of current) = hs_sessions (host_state_of next) /\
  (DefaultRoute (CCapture current) = true -> Outbounds current = Outbounds next).
Proof.
  unfold require_services. cbn.
  destruct (DefaultRoute (CCapture current)); cbn [andb]; [case_bool_decide; cbn [negb]|];
    rewrite ?app_nil, !requireEqual_nil;
    (split; intros; destruct_and?; split_and?; try done; try congruence).
  assert (Outbounds current = Outbounds next) by auto. done.
Qed.

(** ** Properties *)

(** A reload is accepted exactly when nothing the host state or the pools
    depend on changes: version, all of [system], [capture] and [tun], the
    pools with their files, the DNS listener and the session limits; with the
    default route captured the outbounds are frozen too. *)
Theorem validate_reload_spec (current next : Config) :
  ValidateReload (Some current) (Some next) = [] <->
  host_state_of current = host_state_of next /\
  (DefaultRoute (CCapture current) = true -> Outbounds current = Outbounds next).
Proof.
  cbn. rewrite require_services_nil, require_ipv6_nil, require_host_nil. unfold host_state_of. cbn.
  split; intros; destruct_and?; split_and?; try done; try congruence.
Qed.

(** However many reloads a service accepts or refuses, its host state is
    the one it started with; and with the default route captured, so are its
    outbounds. *)
Theorem reloads_keep_host_state (requests : list Config) (start : Config) :
  let final := fold_left apply_reload requests start in
  host_state_of final = host_state_of start /\
  (DefaultRoute (CCapture start) = true -> Outbounds final = Outbounds start).
Proof.
  cbn zeta. revert start. induction requests as [|next requests IH]; intros start; [done|]. cbn [fold_left].
  destruct (IH (apply_reload start next)) as [Hs Ho]. unfold apply_reload in *.
  case_bool_decide as Hv; [|done]. cbn in Hv.
  rewrite require_services_nil, require_ipv6_nil, require_host_nil in Hv. unfold host_state_of in *. cbn in *.
  destruct_and!. split; [rewrite Hs; f_equal; congruence|]. intros Hd. rewrite Ho by congruence. symmetry. auto.
Qed.
