(* ===== verification/Rules.v ===== *)
(** * Component [internal/rules]

    The deterministic flow matcher: compilation of the configured rules, the
    candidates that can win before a domain is resolved, and the final ordered
    match on resolved addresses. *)

From S2P Require Import Prelude.
From S2P Require Import GoStrings.
From S2P Require Import NetIP.
From S2P Require Import DomainName.
From S2P Require Import ConfigTypes.

(** ** Data *)

Record FlowMetadata : Type := MkFlowMetadata {
  FlowDomain : string;
  FlowFakeIP : addr;
  FlowDestinationIP : addr;
  FlowSourceIP : addr;
  FlowSourcePort : Z
}.

Record Decision : Type := MkDecision { RuleID : Z; DecisionOutbound : string }.

#[export] Instance Decision_eq_dec : EqDecision Decision.
Proof. solve_decision. Defined.

Record compiledRule : Type := MkCompiledRule {
  cr_id : Z;
  cr_domains : gset string;
  cr_suffixes : list string;
  cr_cidrs : list prefix;
  cr_outbound : string
}.

(** The rules of an [Engine], in order. *)
Definition Engine : Type := list compiledRule.

Inductive rules_error : Type :=
| NoDefaultRule
| BadDomain (e : domain_error)
| NoCandidate
| NoRuleMatched
| InvalidResolvedIP
| IndexPanic.

#[export] Instance rules_error_eq_dec : EqDecision rules_error.
Proof. solve_decision. Defined.

(** ** Operations *)

Definition compile_rule (r : Rule) : compiledRule :=
  MkCompiledRule (ID r) (list_to_set (Domains r)) (DomainSuffixes r) (DestinationCIDRs r)
    (RuleOutbound r).

(** [New]: a final default rule is required. *)
Definition New (configRules : list Rule) : result rules_error Engine :=
  fail_if match last configRules with Some r => negb (Default r) | None => true end
  with NoDefaultRule in
  Ok (compile_rule <$> configRules).

Definition matchesAnySuffix (domain : string) (suffixes : list string) : bool :=
  existsb (fun suffix => bool_decide (domain = suffix) || has_suffix domain ("." +:+ suffix)) suffixes.

Definition matchesAnyCIDR (addresses : list addr) (prefixes : list prefix) : bool :=
  existsb (fun p => existsb (prefix_contains p) addresses) prefixes.

Definition matchesBase (rule : compiledRule) (domain : string) : bool :=
  if negb (bool_decide (cr_domains rule = ∅)) && negb (bool_decide (domain ∈ cr_domains rule))
  then false
  else bool_decide (cr_suffixes rule = []) ||
       (negb (bool_decide (domain = "")) && matchesAnySuffix domain (cr_suffixes rule)).

Definition normalizeMetadata (m : FlowMetadata) : result rules_error string :=
  if bool_decide (FlowDomain m = "") then Ok ""
  else map_err BadDomain (Normalize (FlowDomain m)).

Definition decision_of (rule : compiledRule) : Decision :=
  MkDecision (cr_id rule) (cr_outbound rule).

(** The loop of [Candidates]. *)
Fixpoint candidates_loop (rules : list compiledRule) (domain : string) (acc : list Decision)
    : result rules_error (list Decision) :=
  match rules with
  | [] => Err NoCandidate
  | rule :: rules' =>
      if negb (matchesBase rule domain) then candidates_loop rules' domain acc
      else
        let acc' := acc ++ [decision_of rule] in
        if bool_decide (cr_cidrs rule = []) then Ok acc'
        else candidates_loop rules' domain acc'
  end.

(** [Candidates] *)
Definition Candidates (engine : Engine) (m : FlowMetadata) : result rules_error (list Decision) :=
  let! domain := normalizeMetadata m in
  candidates_loop engine domain [].

(** [Match]: the last candidate. *)
Definition Match (engine : Engine) (m : FlowMetadata) : result rules_error Decision :=
  let! candidates := Candidates engine m in
  match last candidates with
  | Some d => Ok d
  | None => Err IndexPanic
  end.

(** The loop of [match]. *)
Fixpoint match_loop (rules : list compiledRule) (domain : string) (addresses : list addr)
    (resolved : bool) : result rules_error Decision :=
  match rules with
  | [] => Err NoRuleMatched
  | rule :: rules' =>
      if negb (bool_decide (cr_cidrs rule = [])) &&
         (negb resolved || negb (matchesAnyCIDR addresses (cr_cidrs rule)))
      then match_loop rules' domain addresses resolved
      else if negb (matchesBase rule domain) then match_loop rules' domain addresses resolved
      else Ok (decision_of rule)
  end.

Definition match_ (engine : Engine) (m : FlowMetadata) (addresses : list addr) (resolved : bool)
    : result rules_error Decision :=
  let! domain := normalizeMetadata m in
  match_loop engine domain addresses resolved.

(** [MatchResolved] *)
Definition MatchResolved (engine : Engine) (m : FlowMetadata) (addresses : list addr)
    : result rules_error Decision :=
  fail_if existsb (fun a => negb (addr_valid a) || is4in6 a) addresses with InvalidResolvedIP in
  match_ engine m addresses true.

(** The loop of [RequiresFakeIP]. *)
Fixpoint requires_loop (rules : list compiledRule) (normalized : string) : bool :=
  match rules with
  | [] => false
  | rule :: rules' =>
      if bool_decide (cr_domains rule = ∅) && bool_decide (cr_suffixes rule = [])
      then requires_loop rules' normalized
      else if negb (bool_decide (cr_domains rule = ∅)) &&
              negb (bool_decide (normalized ∈ cr_domains rule))
      then requires_loop rules' normalized
      else if negb (bool_decide (cr_suffixes rule = [])) &&
              negb (matchesAnySuffix normalized (cr_suffixes rule))
      then requires_loop rules' normalized
      else true
  end.

(** [RequiresFakeIP] *)
Definition RequiresFakeIP (engine : Engine) (domain : string) : bool :=
  match Normalize domain with
  | Err _ => false
  | Ok normalized => requires_loop engine normalized
  end.

(** ** Specification *)

(** A rule whose domain and suffix predicates hold and, when it has CIDRs,
    one of the addresses lies in one of them. *)
Definition rule_matches (domain : string) (addresses : list addr) (rule : compiledRule) : bool :=
  matchesBase rule domain &&
  (bool_decide (cr_cidrs rule = []) || matchesAnyCIDR addresses (cr_cidrs rule)).

(** A rule that decides without addresses. *)
Definition conclusive (domain : string) (rule : compiledRule) : bool :=
  matchesBase rule domain && bool_decide (cr_cidrs rule = []).

Definition explicit (rule : compiledRule) : bool :=
  negb (bool_decide (cr_domains rule = ∅) && bool_decide (cr_suffixes rule = [])).

(** An engine that [New] built. *)
Definition has_default (engine : Engine) : Prop :=
  exists rule, rule ∈ engine /\
    cr_domains rule = ∅ /\ cr_suffixes rule = [] /\ cr_cidrs rule = [].

Definition domain_ok (m : FlowMetadata) : Prop :=
  FlowDomain m = "" \/ exists d, Normalize (FlowDomain m) = Ok d.

(** ** Lemmas *)

Section loops.
Variable domain : string.
Implicit Types (rules : list compiledRule).

Lemma match_loop_first rules addresses :
  match_loop rules domain addresses true =
  match first_match (rule_matches domain addresses) rules with
  | Some r => Ok (decision_of r)
  | None => Err NoRuleMatched
  end.
Proof.
  induction rules as [|r rules IH]; [done|].
  cbn [match_loop first_match]. rewrite IH. cbn [negb orb].
  assert (rule_matches domain addresses r = matchesBase r domain &&
    (bool_decide (cr_cidrs r = []) || matchesAnyCIDR addresses (cr_cidrs r))) as -> by done.
  destruct (bool_decide (cr_cidrs r = [])), (matchesAnyCIDR addresses (cr_cidrs r)),
    (matchesBase r domain); done.
Qed.

(** [Candidates] collects the rules whose base predicate holds, up to and
    including the first one without CIDRs. *)
Lemma candidates_loop_first rules acc :
  candidates_loop rules domain acc =
  match first_match (conclusive domain) rules with
  | Some r => Ok (acc ++ (decision_of <$> filter (fun r => matchesBase r domain = true)
                              (fst (split_first (conclusive domain) rules))) ++ [decision_of r])
  | None => Err NoCandidate
  end.
Proof.
  revert acc. induction rules as [|r rules IH]; intros acc; [done|].
  cbn [candidates_loop first_match split_first].
  assert (conclusive domain r = matchesBase r domain && bool_decide (cr_cidrs r = [])) as -> by done.
  destruct (matchesBase r domain) eqn:Hb; cbn [negb andb].
  - destruct (bool_decide (cr_cidrs r = [])); [done|]. rewrite IH.
    destruct (first_match _ rules) as [r'|]; [|done]. f_equal.
    destruct (split_first _ rules) as [before after]. cbn [fst].
    rewrite filter_cons_True by done. cbn. by rewrite <- app_assoc.
  - rewrite IH. destruct (first_match _ rules) as [r'|]; [|done].
    destruct (split_first _ rules) as [before after]. cbn [fst].
    by rewrite filter_cons_False by congruence.
Qed.

Lemma default_matchesBase rule :
  cr_domains rule = ∅ -> cr_suffixes rule = [] -> matchesBase rule domain = true.
Proof. intros Hd Hs. unfold matchesBase. by rewrite Hd, Hs. Qed.

Lemma conclusive_exists rules : has_default rules -> is_Some (first_match (conclusive domain) rules).
Proof.
  intros (r & Hin & Hd & Hs & Hc). eapply first_match_is_Some; [done|].
  unfold conclusive. rewrite default_matchesBase by done. by rewrite bool_decide_eq_true_2.
Qed.

Lemma conclusive_matches addresses r :
  conclusive domain r = true -> rule_matches domain addresses r = true.
Proof. unfold conclusive, rule_matches. intros Hc. to_prop. by rewrite H, bool_decide_eq_true_2. Qed.

Lemma requires_loop_spec rules :
  domain <> "" ->
  requires_loop rules domain = existsb (fun r => explicit r && matchesBase r domain) rules.
Proof.
  intros Hne. induction rules as [|r rules IH]; [done|].
  cbn [requires_loop existsb]. rewrite IH. unfold explicit, matchesBase.
  rewrite (bool_decide_eq_false_2 (domain = "")) by done. cbn [negb andb].
  destruct (bool_decide (cr_domains r = ∅)), (bool_decide (cr_suffixes r = [])),
    (bool_decide (domain ∈ cr_domains r)), (matchesAnySuffix domain (cr_suffixes r)); done.
Qed.
End loops.

Lemma New_has_default rules engine : New rules = Ok engine -> has_default engine.
Proof.
  unfold New. rewrite guard_err_Ok. intros [Hlast [= <-]].
  destruct (last rules) as [r|] eqn:Hl; [|done]. unfold Default in Hlast.
  apply negb_false_iff, andb_true_iff in Hlast as [[Hd Hs]%andb_true_iff Hc]. to_prop.
  exists (compile_rule r). split.
  - apply list_elem_of_fmap. exists r. split; [done|].
    apply last_Some in Hl as [l ->]. set_solver.
  - unfold compile_rule; cbn. by rewrite Hd.
Qed.

Lemma normalizeMetadata_ok m : domain_ok m -> exists d, normalizeMetadata m = Ok d.
Proof.
  unfold normalizeMetadata. intros [->|[d Hd]].
  - rewrite bool_decide_eq_true_2; eauto.
  - case_bool_decide; [eauto|]. rewrite Hd. cbn. eauto.
Qed.

Lemma Candidates_Ok engine m cs :
  Candidates engine m = Ok cs ->
  exists d r, normalizeMetadata m = Ok d /\ first_match (conclusive d) engine = Some r /\
    cs = (decision_of <$> filter (fun r => matchesBase r d = true)
            (fst (split_first (conclusive d) engine))) ++ [decision_of r].
Proof.
  unfold Candidates. rewrite bind_Ok. intros (d & Hd & Hc).
  rewrite candidates_loop_first in Hc.
  destruct (first_match _ engine) as [r|] eqn:Hr; [|done]. injection Hc as <-. eauto.
Qed.

Lemma MatchResolved_Ok engine m addresses dec :
  MatchResolved engine m addresses = Ok dec <->
  Forall (fun a => addr_valid a = true /\ is4in6 a = false) addresses /\
  exists d r, normalizeMetadata m = Ok d /\
    first_match (rule_matches d addresses) engine = Some r /\ dec = decision_of r.
Proof.
  unfold MatchResolved, match_. rewrite guard_err_Ok, bind_Ok.
  assert (Hvalid : existsb (fun a => negb (addr_valid a) || is4in6 a) addresses = false <->
    Forall (fun a => addr_valid a = true /\ is4in6 a = false) addresses).
  { rewrite <- not_true_iff_false, existsb_elem_of, Forall_forall. split.
    - intros Hn a Ha. destruct (addr_valid a) eqn:Hv, (is4in6 a) eqn:H6; try done;
        exfalso; apply Hn; exists a; by rewrite Hv, H6.
    - intros Hall (a & Ha & Hb). destruct (Hall a Ha) as [Hv H6]. by rewrite Hv, H6 in Hb. }
  rewrite Hvalid. setoid_rewrite match_loop_first. split.
  - intros (? & d & Hd & Hm). destruct (first_match _ engine) as [r|] eqn:Hr; [|done].
    injection Hm as <-. eauto 6.
  - intros (? & d & r & Hd & Hr & ->). split; [done|]. exists d. by rewrite Hr.
Qed.

(** ** Properties *)

(** C24: [MatchResolved] is first-match: it returns the decision of a rule
    exactly when every address is a valid address outside the IPv4-mapped
    range, the metadata domain is usable, this rule matches the domain and the
    addresses, and no earlier rule does. *)
Theorem match_resolved_first_match engine m addresses dec :
  MatchResolved engine m addresses = Ok dec <->
  Forall (fun a => addr_valid a = true /\ is4in6 a = false) addresses /\
  exists d before rule after,
    normalizeMetadata m = Ok d /\ engine = before ++ rule :: after /\
    rule_matches d addresses rule = true /\
    Forall (fun r => rule_matches d addresses r = false) before /\
    dec = decision_of rule.
Proof.
  rewrite MatchResolved_Ok. setoid_rewrite first_match_Some. naive_solver.
Qed.

(** An engine that [New] accepted never runs out of rules.  For a usable
    domain and valid addresses [Candidates], [Match] and [MatchResolved] all
    succeed, the decision on the resolved addresses is one of the candidates
    announced before the resolution, and [Match] returns the last of them. *)
Theorem resolved_decision_is_candidate rules engine m addresses :
  New rules = Ok engine ->
  domain_ok m ->
  Forall (fun a => addr_valid a = true /\ is4in6 a = false) addresses ->
  exists cs dec, Candidates engine m = Ok cs /\ MatchResolved engine m addresses = Ok dec /\
    dec ∈ cs /\ Match engine m = match last cs with Some c => Ok c | None => Err IndexPanic end /\
    is_Some (last cs).
Proof.
  intros Hnew%New_has_default Hm Haddr.
  destruct (normalizeMetadata_ok m Hm) as [d Hd].
  destruct (conclusive_exists d engine Hnew) as [r Hr].
  destruct (first_match_weaken (conclusive d) (rule_matches d addresses) engine r) as (w & Hw & Hin);
    [apply conclusive_matches | done |].
  set (cs := (decision_of <$> filter (fun r => matchesBase r d = true)
    (fst (split_first (conclusive d) engine))) ++ [decision_of r]).
  assert (Hc : Candidates engine m = Ok cs).
  { unfold Candidates. rewrite Hd. cbn. by rewrite candidates_loop_first, Hr. }
  exists cs, (decision_of w). split; [done|]. split; [apply MatchResolved_Ok; eauto 6|]. split.
  - subst cs. rewrite elem_of_app, list_elem_of_singleton. destruct Hin as [->|Hin]; [auto|left].
    apply list_elem_of_fmap_2, list_elem_of_filter. split; [|done].
    apply first_match_Some in Hw as (?&?&_&Hw&_). unfold rule_matches in Hw. to_prop. done.
  - split; [unfold Match; by rewrite Hc|]. subst cs. rewrite last_snoc. eauto.
Qed.

Lemma resolved_decision_is_candidate_witness :
  let rules := [MkRule 1 ["a.com"] [] [prefix_from (Addr4 0x0a000000) 8] "vpn"; MkRule 2 [] [] [] "lan"] in
  let m := MkFlowMetadata "A.com" AddrZero AddrZero AddrZero 0 in
  exists engine, New rules = Ok engine /\
  exists cs dec, Candidates engine m = Ok cs /\ MatchResolved engine m [Addr4 0x0a000001] = Ok dec /\
    dec ∈ cs /\ Match engine m = match last cs with Some c => Ok c | None => Err IndexPanic end /\
    is_Some (last cs).
Proof.
  intros rules m. eexists. split; [reflexivity|].
  apply (resolved_decision_is_candidate rules); [reflexivity | | repeat constructor].
  right. exists "a.com". vm_compute. reflexivity.
Defined.

(** A domain receives a Fake IP exactly when some rule names domains or
    suffixes and its base predicate holds for the normalized domain; CIDRs play
    no part, and the default rule never asks for one. *)
Theorem requires_fake_ip_spec engine domain :
  RequiresFakeIP engine domain = true <->
  exists d rule, Normalize domain = Ok d /\ rule ∈ engine /\
    explicit rule = true /\ matchesBase rule d = true.
Proof.
  unfold RequiresFakeIP. destruct (Normalize domain) as [d|e] eqn:Hd; [|naive_solver].
  rewrite requires_loop_spec, existsb_elem_of by eauto using Normalize_nonempty. split.
  - intros (r & Hr & Hx). apply andb_true_iff in Hx. naive_solver.
  - intros (d' & r & [= ->] & Hr & He & Hb). exists r. by rewrite He, Hb.
Qed.
