(* ===== verification/FakeIPPool.v ===== *)
(** * Component [internal/fakeip], the address pool

    The concurrency-safe pool of domain to Fake IP mappings.  [byDomain] and
    [byAddress] hold pointers into one store of entries, as in the code, so
    that a release closure and both maps share an entry.  An operation that
    gives up the mutex in the middle ([GetOrAllocate] around the persistence
    call) is split at that point.  Times are nanoseconds since Go's zero
    time. *)

From S2P Require Import Prelude.
From S2P Require Import GoStrings.
From S2P Require Import NetIP.
From S2P Require Import DomainName.

(** ** Data *)

Definition ptr : Type := N.

Record entry : Type := MkEntry {
  e_domain : string;
  e_address : addr;
  e_expiresAt : Z;
  e_references : Z
}.

Record Mapping : Type := MkMapping {
  m_Domain : string;
  m_Address : string;
  m_ExpiresAt : Z
}.

#[export] Instance Mapping_eq_dec : EqDecision Mapping.
Proof. solve_decision. Defined.

Record Snapshot : Type := MkSnapshot {
  sn_Version : Z;
  sn_Prefix : string;
  sn_SavedAt : Z;
  sn_JournalEpoch : string;
  sn_Mappings : list Mapping
}.

Record persistenceUpdate : Type := MkUpdate {
  u_RecordedAt : Z;
  u_Removed : list string;
  u_Mapping : Mapping
}.

(** [Pool]: [p_persist] says whether the persistence callbacks are
    installed.  [p_store] is the memory of entries, [p_fresh] the next free
    pointer. *)
Record Pool : Type := MkPool {
  p_prefix : prefix;
  p_mappingTTL : Z;
  p_start : addr;
  p_end : addr;
  p_capacity : Z;
  p_maxMappings : Z;
  p_next : addr;
  p_byDomain : gmap string ptr;
  p_byAddress : gmap addr ptr;
  p_pendingDeletes : gset string;
  p_persist : bool;
  p_reclaimed : Z;
  p_exhaustions : Z;
  p_store : gmap ptr entry;
  p_fresh : ptr
}.

Record Stats : Type := MkStats {
  st_Capacity : Z;
  st_Limit : Z;
  st_Used : Z;
  st_Active : Z;
  st_References : Z;
  st_Reclaimed : Z;
  st_Exhaustions : Z
}.

Inductive pool_error : Type :=
| BadPrefix
| BadTTL
| BadMaxMappings
| BadReservation
| NoCapacity
| TooManyMappings
| BadDomainName (e : domain_error)
| ErrExhausted
| ErrNotFound
| PersistFailed.

#[export] Instance pool_error_eq_dec : EqDecision pool_error.
Proof. solve_decision. Defined.

(** *** Field updates *)

Definition set_next (a : addr) (p : Pool) : Pool :=
  MkPool (p_prefix p) (p_mappingTTL p) (p_start p) (p_end p) (p_capacity p) (p_maxMappings p)
    a (p_byDomain p) (p_byAddress p) (p_pendingDeletes p) (p_persist p) (p_reclaimed p)
    (p_exhaustions p) (p_store p) (p_fresh p).

Definition set_maps (bd : gmap string ptr) (ba : gmap addr ptr) (p : Pool) : Pool :=
  MkPool (p_prefix p) (p_mappingTTL p) (p_start p) (p_end p) (p_capacity p) (p_maxMappings p)
    (p_next p) bd ba (p_pendingDeletes p) (p_persist p) (p_reclaimed p)
    (p_exhaustions p) (p_store p) (p_fresh p).

Definition set_pending (s : gset string) (p : Pool) : Pool :=
  MkPool (p_prefix p) (p_mappingTTL p) (p_start p) (p_end p) (p_capacity p) (p_maxMappings p)
    (p_next p) (p_byDomain p) (p_byAddress p) s (p_persist p) (p_reclaimed p)
    (p_exhaustions p) (p_store p) (p_fresh p).

Definition set_persist (b : bool) (p : Pool) : Pool :=
  MkPool (p_prefix p) (p_mappingTTL p) (p_start p) (p_end p) (p_capacity p) (p_maxMappings p)
    (p_next p) (p_byDomain p) (p_byAddress p) (p_pendingDeletes p) b (p_reclaimed p)
    (p_exhaustions p) (p_store p) (p_fresh p).

Definition set_counters (reclaimed exhaustions : Z) (p : Pool) : Pool :=
  MkPool (p_prefix p) (p_mappingTTL p) (p_start p) (p_end p) (p_capacity p) (p_maxMappings p)
    (p_next p) (p_byDomain p) (p_byAddress p) (p_pendingDeletes p) (p_persist p) reclaimed
    exhaustions (p_store p) (p_fresh p).

Definition set_store (st : gmap ptr entry) (fresh : ptr) (p : Pool) : Pool :=
  MkPool (p_prefix p) (p_mappingTTL p) (p_start p) (p_end p) (p_capacity p) (p_maxMappings p)
    (p_next p) (p_byDomain p) (p_byAddress p) (p_pendingDeletes p) (p_persist p) (p_reclaimed p)
    (p_exhaustions p) st fresh.

Definition inc_exhaustions (p : Pool) : Pool :=
  set_counters (p_reclaimed p) (wrap64 (p_exhaustions p + 1)) p.

Definition inc_reclaimed (p : Pool) : Pool :=
  set_counters (wrap64 (p_reclaimed p + 1)) (p_exhaustions p) p.

(** Writes an entry through a pointer. *)
Definition store_entry (x : ptr) (e : entry) (p : Pool) : Pool :=
  set_store (<[x := e]> (p_store p)) (p_fresh p) p.

(** [&entry{...}] *)
Definition new_entry (e : entry) (p : Pool) : ptr * Pool :=
  (p_fresh p, set_store (<[p_fresh p := e]> (p_store p)) (N.succ (p_fresh p)) p).

(** ** Construction *)

(** [usableCapacity] *)
Definition usableCapacity (pre : prefix) (reserveFirst : Z) : option Z :=
  let hostBits := bit_len (prefix_addr pre) - prefix_bits pre in
  let reserved := wrap64 (reserveFirst + 1) in
  if 64 <? hostBits then Some u64_max
  else if hostBits =? 64 then Some (wrap64 (u64_max - reserveFirst))
  else
    let total := 2 ^ hostBits in
    if total <=? reserved then None else Some (total - reserved).

(** [setHostBits] on the big-endian value of an address of [width] bits. *)
Definition setHostBits (width prefixBits v : Z) : Z :=
  fold_left (fun acc bit => Z.lor acc (2 ^ (width - 1 - bit)))
    (seqZ prefixBits (width - prefixBits)) v.

(** [lastAddress] *)
Definition lastAddress (pre : prefix) : addr :=
  match prefix_addr pre with
  | Addr4 v => Addr4 (setHostBits 32 (prefix_bits pre) v)
  | Addr6 v _ => Addr6 (setHostBits 128 (prefix_bits pre) v) ""
  | AddrZero => AddrZero
  end.

(** [newPool] *)
Definition newPool (pre : prefix) (mappingTTL maxMappings reserveFirst : Z) : result pool_error Pool :=
  fail_if negb (prefix_valid pre) || is4in6 (prefix_addr pre) with BadPrefix in
  fail_if mappingTTL <=? 0 with BadTTL in
  fail_if maxMappings <=? 0 with BadMaxMappings in
  fail_if reserveFirst <? 1 with BadReservation in
  let pre := masked pre in
  match usableCapacity pre reserveFirst with
  | None => Err NoCapacity
  | Some capacity =>
      fail_if capacity <? maxMappings with TooManyMappings in
      let start := Nat.iter (Z.to_nat reserveFirst) addr_next (prefix_addr pre) in
      let end_ := lastAddress pre in
      Ok (MkPool pre mappingTTL start end_ capacity maxMappings start ∅ ∅ ∅ false 0 0 ∅ 0%N)
  end.

(** ** Deletion and pruning *)

(** [now] is not before the expiry and no flow holds the entry. *)
Definition expired (now : Z) (e : entry) : bool :=
  (e_expiresAt e <=? now) && (e_references e =? 0).

(** [deleteUntrackedLocked] *)
Definition deleteUntrackedLocked (x : ptr) (p : Pool) : Pool :=
  match p_store p !! x with
  | Some e => set_maps (delete (e_domain e) (p_byDomain p)) (delete (e_address e) (p_byAddress p)) p
  | None => p
  end.

(** [deleteLocked] *)
Definition deleteLocked (x : ptr) (p : Pool) : Pool :=
  match p_store p !! x with
  | Some e =>
      let p := if p_persist p then set_pending ({[e_domain e]} ∪ p_pendingDeletes p) p else p in
      deleteUntrackedLocked x p
  | None => p
  end.

(** One iteration of the loop of [pruneLocked]. *)
Definition prune_one (now : Z) (p : Pool) (x : ptr) : Pool :=
  match p_store p !! x with
  | Some e => if expired now e then inc_reclaimed (deleteLocked x p) else p
  | None => p
  end.

(** [pruneLocked], visiting the mappings in the order [order]. *)
Definition prune_in_order (order : list ptr) (now : Z) (p : Pool) : Pool :=
  fold_left (prune_one now) order p.

(** The pointers of [byDomain], in the order the map is iterated here. *)
Definition mapped (p : Pool) : list ptr := (map_to_list (p_byDomain p)).*2.

Definition pruneLocked (now : Z) (p : Pool) : Pool := prune_in_order (mapped p) now p.

(** [Prune] *)
Definition Prune (now : Z) (p : Pool) : Pool * Z :=
  let before := Z.of_nat (size (p_byDomain p)) in
  let p := pruneLocked now p in
  (p, before - Z.of_nat (size (p_byDomain p))).

(** ** Allocation *)

Definition advance (p : Pool) (candidate : addr) : addr :=
  let n := addr_next candidate in
  if negb (addr_valid n) || bool_decide (n = p_end p) then p_start p else n.

(** The candidate loop of [GetOrAllocate]: at most [attempts] addresses from
    [next] on, skipping the occupied ones. *)
Fixpoint probe (attempts : nat) (p : Pool) : Pool * option addr :=
  match attempts with
  | O => (p, None)
  | S n =>
      let candidate := p_next p in
      let p := set_next (advance p candidate) p in
      if bool_decide (is_Some (p_byAddress p !! candidate)) then probe n p
      else (p, Some candidate)
  end.

Definition attempts_of (p : Pool) : nat :=
  Z.to_nat (Z.min (wrap64 (Z.of_nat (size (p_byAddress p)) + 1)) (p_capacity p)).

(** [slices.Sort] of the pending deletions. *)
Definition sorted_names (s : gset string) : list string := merge_sort String.le (elements s).

(** An allocation whose persistence call is running: the mutex is free, the
    persistence mutex is held. *)
Record pending_alloc : Type := MkPendingAlloc {
  pa_ptr : ptr;
  pa_domain : string;
  pa_candidate : addr;
  pa_removed : list string;
  pa_update : persistenceUpdate
}.

Inductive alloc_step : Type :=
| AllocDone (r : result pool_error addr)
| AllocPersist (a : pending_alloc).

(** The insertion of a fresh mapping. *)
Definition insert_mapping (domain : string) (candidate : addr) (expires : Z) (p : Pool) : ptr * Pool :=
  let '(x, p) := new_entry (MkEntry domain candidate expires 0) p in
  (x, set_maps (<[domain := x]> (p_byDomain p)) (<[candidate := x]> (p_byAddress p)) p).

(** [GetOrAllocate] up to the persistence call. *)
Definition alloc_begin (domain : string) (now : Z) (p : Pool) : Pool * alloc_step :=
  match Normalize domain with
  | Err e => (p, AllocDone (Err (BadDomainName e)))
  | Ok normalized =>
      match p_byDomain p !! normalized ≫= (fun x => e ← p_store p !! x; Some (x, e)) with
      | Some (x, e) =>
          let e' := MkEntry (e_domain e) (e_address e) (now + p_mappingTTL p) (e_references e) in
          (store_entry x e' p, AllocDone (Ok (e_address e)))
      | None =>
          let p := pruneLocked now p in
          if p_maxMappings p <=? Z.of_nat (size (p_byDomain p)) then
            (inc_exhaustions p, AllocDone (Err ErrExhausted))
          else
            match probe (attempts_of p) p with
            | (p, None) => (inc_exhaustions p, AllocDone (Err ErrExhausted))
            | (p, Some candidate) =>
                let expires := now + p_mappingTTL p in
                let '(x, p) := insert_mapping normalized candidate expires p in
                if negb (p_persist p) then (p, AllocDone (Ok candidate))
                else
                  let removed := sorted_names (p_pendingDeletes p) in
                  (p, AllocPersist (MkPendingAlloc x normalized candidate removed
                        (MkUpdate now removed (MkMapping normalized (addr_text candidate) expires))))
            end
      end
  end.

Definition drop_pending (removed : list string) (p : Pool) : Pool :=
  set_pending (p_pendingDeletes p ∖ list_to_set removed) p.

(** [GetOrAllocate] after the persistence call, which returned [ok]. *)
Definition alloc_finish (a : pending_alloc) (ok : bool) (p : Pool) : Pool * result pool_error addr :=
  if ok then (drop_pending (pa_removed a) p, Ok (pa_candidate a))
  else
    let p := if bool_decide (p_byDomain p !! pa_domain a = Some (pa_ptr a))
             then deleteUntrackedLocked (pa_ptr a) p else p in
    (p, Err PersistFailed).

(** [GetOrAllocate] with a persistence callback that answers [persist]. *)
Definition GetOrAllocate (persist : persistenceUpdate -> bool) (domain : string) (now : Z) (p : Pool)
    : Pool * result pool_error addr :=
  match alloc_begin domain now p with
  | (p, AllocDone r) => (p, r)
  | (p, AllocPersist a) => alloc_finish a (persist (pa_update a)) p
  end.

(** ** Lookup, flow references, statistics *)

(** [Lookup] *)
Definition Lookup (address : addr) (now : Z) (p : Pool) : Pool * option string :=
  match p_byAddress p !! address ≫= (fun x => e ← p_store p !! x; Some (x, e)) with
  | None => (p, None)
  | Some (x, e) =>
      if expired now e then (deleteLocked x p, None) else (p, Some (e_domain e))
  end.

(** [Acquire]: on success the domain and the pointer that the release closure
    keeps. *)
Definition Acquire (address : addr) (now : Z) (p : Pool) : Pool * result pool_error (string * ptr) :=
  match p_byAddress p !! address ≫= (fun x => e ← p_store p !! x; Some (x, e)) with
  | None => (p, Err ErrNotFound)
  | Some (x, e) =>
      if expired now e then (deleteLocked x p, Err ErrNotFound)
      else
        let e' := MkEntry (e_domain e) (e_address e) (e_expiresAt e) (wrap64 (e_references e + 1)) in
        (store_entry x e' p, Ok (e_domain e, x))
  end.

(** The first call of the release closure; [sync.Once] ignores the others. *)
Definition release (x : ptr) (p : Pool) : Pool :=
  match p_store p !! x with
  | Some e =>
      if 0 <? e_references e then
        store_entry x (MkEntry (e_domain e) (e_address e) (e_expiresAt e) (e_references e - 1)) p
      else p
  | None => p
  end.

(** The closure with its [once]: [done] says whether it ran before. *)
Definition release_once (done : bool) (x : ptr) (p : Pool) : Pool * bool :=
  (if done then p else release x p, true).

Definition entries_of (p : Pool) : list entry := omap (fun x => p_store p !! x) (mapped p).

(** [Stats] *)
Definition stats (p : Pool) : Stats :=
  let held := filter (fun e => 0 < e_references e) (entries_of p) in
  MkStats (p_capacity p) (p_maxMappings p) (Z.of_nat (size (p_byDomain p)))
    (Z.of_nat (length held)) (fold_left (fun acc e => wrap64 (acc + e_references e)) held 0)
    (p_reclaimed p) (p_exhaustions p).

(** ** Snapshots *)

Definition persistenceVersion : Z := 1.

Definition mapping_of (e : entry) : Mapping :=
  MkMapping (e_domain e) (addr_text (e_address e)) (e_expiresAt e).

Definition mapping_le (a b : Mapping) : Prop := String.le (m_Domain a) (m_Domain b).

#[export] Instance mapping_le_dec : RelDecision mapping_le.
Proof. intros a b. unfold mapping_le. apply _. Defined.

(** [snapshotLocked] *)
Definition snapshotLocked (now : Z) (p : Pool) : Snapshot :=
  MkSnapshot persistenceVersion (prefix_text (p_prefix p)) now ""
    (merge_sort mapping_le (mapping_of <$> entries_of p)).

(** [setPersistence] *)
Definition setPersistence (p : Pool) : Pool := set_persist true p.

(** [flushPersistence] up to the flush: the snapshot to write and the
    deletions it covers; [None] without a callback. *)
Definition flush_begin (now : Z) (p : Pool) : option (Snapshot * list string) :=
  if p_persist p then Some (snapshotLocked now p, elements (p_pendingDeletes p)) else None.

(** [flushPersistence] after a flush that returned [ok]. *)
Definition flush_finish (removed : list string) (ok : bool) (p : Pool) : Pool :=
  if ok then drop_pending removed p else p.
