(* ===== verification/FakeIPPoolFacts.v ===== *)
(** * The address pool: invariant and lemmas

    The representation invariant of the pool, its preservation by every
    operation, and what each operation does to the live mappings. *)

From S2P Require Import Prelude.
From S2P Require Import GoStrings.
From S2P Require Import NetIP.
From S2P Require Import DomainName.
From S2P Require Import FakeIPPool.

(** ** The invariant *)

(** The address of value [v] in the family of the pool. *)
Definition fam (six : bool) (v : Z) : addr := if six then Addr6 v "" else Addr4 v.

Definition fam_width (six : bool) : Z := if six then 128 else 32.

(** The usable range is [s, e) of one family. *)
Record geometry (p : Pool) (six : bool) (s e : Z) : Prop := {
  g_start : p_start p = fam six s;
  g_end : p_end p = fam six e;
  g_bounds : 0 <= s < e;
  g_width : e < 2 ^ fam_width six;
  g_max : 0 < p_maxMappings p <= p_capacity p;
  g_capacity : p_capacity p <= e - s;
  g_u64 : p_capacity p <= u64_max
}.

(** [x] is the entry that both maps hold for its domain and address. *)
Definition live (p : Pool) (x : ptr) (e : entry) : Prop :=
  p_store p !! x = Some e /\ p_byDomain p !! e_domain e = Some x /\
  p_byAddress p !! e_address e = Some x.

Record pool_inv (p : Pool) (six : bool) (s e : Z) : Prop := {
  i_geometry : geometry p six s e;
  i_domain : forall d x, p_byDomain p !! d = Some x -> exists en, live p x en /\ e_domain en = d;
  i_address : forall a x, p_byAddress p !! a = Some x -> exists en, live p x en /\ e_address en = a;
  i_fresh : forall x en, p_store p !! x = Some en -> (x < p_fresh p)%N;
  i_refs : forall x en, p_store p !! x = Some en -> 0 <= e_references en < 2 ^ 64;
  i_range : forall x en, live p x en -> exists v, e_address en = fam six v /\ s <= v < e;
  i_canonical : forall x en, live p x en -> canonical (e_domain en);
  i_size : Z.of_nat (size (p_byDomain p)) <= p_maxMappings p;
  i_next : exists n, p_next p = fam six n /\ s <= n < e
}.

(** The abstract content of the pool: the address of every mapped domain. *)
Definition assignment (p : Pool) : gmap string addr :=
  omap (fun x => e_address <$> p_store p !! x) (p_byDomain p).

#[export] Hint Constructors pool_inv geometry : tunproxy.

#[export] Instance fam_inj six : Inj eq eq (fam six).
Proof. by intros v w; destruct six; intros [= ->]. Qed.

Section inv_facts.
Context {p : Pool} {six : bool} {s e : Z}.
Hypothesis Hinv : pool_inv p six s e.

Lemma live_det x en en' : live p x en -> live p x en' -> en = en'.
Proof. intros [H1 _] [H2 _]. congruence. Qed.

Lemma live_domain_inj x y en en' :
  live p x en -> live p y en' -> e_domain en = e_domain en' -> x = y.
Proof. intros (_ & H1 & _) (_ & H2 & _) Heq. congruence. Qed.

Lemma live_address_inj x y en en' :
  live p x en -> live p y en' -> e_address en = e_address en' -> x = y.
Proof. intros (_ & _ & H1) (_ & _ & H2) Heq. congruence. Qed.

Lemma byDomain_live d x : p_byDomain p !! d = Some x <-> exists en, live p x en /\ e_domain en = d.
Proof.
  split; [apply Hinv | by intros (en & (_ & Hd & _) & <-)].
Qed.

Lemma byAddress_live a x : p_byAddress p !! a = Some x <-> exists en, live p x en /\ e_address en = a.
Proof.
  split; [apply Hinv | by intros (en & (_ & _ & Ha) & <-)].
Qed.

Lemma mapped_live x : x ∈ mapped p <-> exists en, live p x en.
Proof.
  unfold mapped. rewrite elem_of_map_values. setoid_rewrite byDomain_live. naive_solver.
Qed.

Lemma mapped_NoDup : NoDup (mapped p).
Proof.
  apply map_values_NoDup. intros d1 d2 x H1 H2.
  apply byDomain_live in H1 as (en1 & H1 & <-), H2 as (en2 & H2 & <-).
  by rewrite (live_det x en1 en2).
Qed.

Lemma sizes_equal : size (p_byDomain p) = size (p_byAddress p).
Proof.
  apply map_size_same_values.
  - intros d1 d2 x (en1 & H1 & <-)%byDomain_live (en2 & H2 & <-)%byDomain_live.
    by rewrite (live_det x en1 en2).
  - intros d1 d2 x (en1 & H1 & <-)%byAddress_live (en2 & H2 & <-)%byAddress_live.
    by rewrite (live_det x en1 en2).
  - intros x. setoid_rewrite byDomain_live. setoid_rewrite byAddress_live. naive_solver.
Qed.

Lemma assignment_Some d a :
  assignment p !! d = Some a <-> exists x en, live p x en /\ e_domain en = d /\ e_address en = a.
Proof.
  unfold assignment. rewrite lookup_omap_Some. split.
  - intros (x & Hx & Hd). apply byDomain_live in Hd as (en & Hl & <-).
    exists x, en. split_and!; [done..|]. destruct Hl as [Hst _]. rewrite Hst in Hx.
    cbn in Hx. congruence.
  - intros (x & en & Hl & <- & <-). exists x. destruct Hl as (Hst & Hd & _). by rewrite Hst.
Qed.

Lemma assignment_injective d1 d2 a :
  assignment p !! d1 = Some a -> assignment p !! d2 = Some a -> d1 = d2.
Proof.
  intros (x & en & Hx & <- & Ha)%assignment_Some (y & en' & Hy & <- & Ha')%assignment_Some.
  assert (x = y) as <- by (eapply live_address_inj; eauto; congruence).
  by rewrite (live_det x en en').
Qed.

Lemma lookup_domain_entry d :
  (p_byDomain p !! d ≫= (fun x => en ← p_store p !! x; Some (x, en))) = None <->
  p_byDomain p !! d = None.
Proof.
  destruct (p_byDomain p !! d) as [x|] eqn:Hd; [|done].
  apply byDomain_live in Hd as (en & (Hst & _) & _). cbn. by rewrite Hst.
Qed.
End inv_facts.

(** ** Deletion *)

Lemma deleteUntracked_maps x en p :
  p_store p !! x = Some en ->
  p_byDomain (deleteUntrackedLocked x p) = delete (e_domain en) (p_byDomain p) /\
  p_byAddress (deleteUntrackedLocked x p) = delete (e_address en) (p_byAddress p).
Proof. intros Hx. unfold deleteUntrackedLocked. by rewrite Hx. Qed.

(** What stays the same when mappings are only removed. *)
Record shrinks (p p' : Pool) : Prop := {
  sh_start : p_start p' = p_start p;
  sh_end : p_end p' = p_end p;
  sh_capacity : p_capacity p' = p_capacity p;
  sh_max : p_maxMappings p' = p_maxMappings p;
  sh_next : p_next p' = p_next p;
  sh_store : p_store p' = p_store p;
  sh_fresh : p_fresh p' = p_fresh p;
  sh_persist : p_persist p' = p_persist p;
  sh_ttl : p_mappingTTL p' = p_mappingTTL p;
  sh_prefix : p_prefix p' = p_prefix p
}.

#[export] Instance shrinks_preorder : PreOrder shrinks.
Proof.
  split; [by intros p|]. intros p1 p2 p3 [] []. split; congruence.
Qed.

Lemma deleteUntracked_shrinks x p : shrinks p (deleteUntrackedLocked x p).
Proof. unfold deleteUntrackedLocked. by destruct (p_store p !! x). Qed.

Lemma deleteLocked_shrinks x p : shrinks p (deleteLocked x p).
Proof.
  unfold deleteLocked. destruct (p_store p !! x); [|done].
  etrans; [|apply deleteUntracked_shrinks]. by destruct (p_persist p).
Qed.

Lemma deleteLocked_maps x en p :
  p_store p !! x = Some en ->
  p_byDomain (deleteLocked x p) = delete (e_domain en) (p_byDomain p) /\
  p_byAddress (deleteLocked x p) = delete (e_address en) (p_byAddress p) /\
  p_pendingDeletes (deleteLocked x p) =
    (if p_persist p then {[e_domain en]} ∪ p_pendingDeletes p else p_pendingDeletes p).
Proof.
  intros Hx. unfold deleteLocked, deleteUntrackedLocked. rewrite Hx.
  destruct (p_persist p); cbn; by rewrite Hx.
Qed.

(** Removing the live entry [x] leaves exactly the other live entries. *)
Definition removes (x : ptr) (p p' : Pool) : Prop :=
  shrinks p p' /\ (forall y en, live p' y en <-> live p y en /\ y <> x) /\
  (forall d y, p_byDomain p' !! d = Some y -> p_byDomain p !! d = Some y /\ y <> x) /\
  (forall a y, p_byAddress p' !! a = Some y -> p_byAddress p !! a = Some y /\ y <> x).

Lemma maps_removes p p' six s e x en :
  pool_inv p six s e -> live p x en -> shrinks p p' ->
  p_byDomain p' = delete (e_domain en) (p_byDomain p) ->
  p_byAddress p' = delete (e_address en) (p_byAddress p) ->
  removes x p p'.
Proof.
  intros Hinv Hx Hsh Hbd Hba.
  assert (Hd : forall d y, p_byDomain p' !! d = Some y <-> p_byDomain p !! d = Some y /\ y <> x).
  { intros d y. rewrite Hbd, lookup_delete_Some. split.
    - intros [Hne Hy]. split; [done|]. intros ->. destruct Hx as (Hst & _).
      apply (byDomain_live Hinv) in Hy as (en' & (Hst' & _) & <-). congruence.
    - intros [Hy Hne]. split; [|done]. intros <-. destruct Hx as (_ & Hx & _). congruence. }
  assert (Ha : forall a y, p_byAddress p' !! a = Some y <-> p_byAddress p !! a = Some y /\ y <> x).
  { intros a y. rewrite Hba, lookup_delete_Some. split.
    - intros [Hne Hy]. split; [done|]. intros ->. destruct Hx as (Hst & _).
      apply (byAddress_live Hinv) in Hy as (en' & (Hst' & _) & <-). congruence.
    - intros [Hy Hne]. split; [|done]. intros <-. destruct Hx as (_ & _ & Hx). congruence. }
  split_and!; [done| |naive_solver|naive_solver].
  intros y en'. unfold live. rewrite Hd, Ha, (sh_store _ _ Hsh). tauto.
Qed.

Lemma removes_size x p p' :
  removes x p p' -> (size (p_byDomain p') <= size (p_byDomain p))%nat.
Proof.
  intros (_ & _ & Hd & _). rewrite <- !size_dom. apply subseteq_size.
  intros d. rewrite !elem_of_dom. intros [y Hy]. apply Hd in Hy as [Hy _]. eauto.
Qed.

Lemma removes_inv p p' six s e x :
  pool_inv p six s e -> removes x p p' -> pool_inv p' six s e.
Proof.
  intros Hinv Hr. pose proof (removes_size x p p' Hr). destruct Hr as ([] & Hl & Hd & Ha).
  destruct Hinv as [[] HD HA HF HR HG HC HS HN]. split; eauto.
  - split; congruence.
  - intros d y Hy. apply Hd in Hy as [(en & Hen & <-)%HD Hne]. exists en. by rewrite Hl.
  - intros d y Hy. apply Ha in Hy as [(en & Hen & <-)%HA Hne]. exists en. by rewrite Hl.
  - intros y en Hy. rewrite sh_fresh0. rewrite sh_store0 in Hy. eauto.
  - intros y en Hy. rewrite sh_store0 in Hy. eauto.
  - intros y en [Hy _]%Hl. eauto.
  - intros y en [Hy _]%Hl. eauto.
  - rewrite sh_max0. lia.
  - by rewrite sh_next0.
Qed.

Lemma deleteLocked_removes p six s e x en :
  pool_inv p six s e -> live p x en -> removes x p (deleteLocked x p).
Proof.
  intros Hinv Hx. pose proof Hx as (Hst & _). destruct (deleteLocked_maps x en p Hst) as (? & ? & _).
  eapply maps_removes; eauto using deleteLocked_shrinks.
Qed.

Lemma deleteUntracked_removes p six s e x en :
  pool_inv p six s e -> live p x en -> removes x p (deleteUntrackedLocked x p).
Proof.
  intros Hinv Hx. pose proof Hx as (Hst & _). destruct (deleteUntracked_maps x en p Hst).
  eapply maps_removes; eauto using deleteUntracked_shrinks.
Qed.

(** ** Pruning *)

Lemma inc_reclaimed_shrinks p : shrinks p (inc_reclaimed p).
Proof. done. Qed.

Lemma inc_reclaimed_inv p six s e : pool_inv p six s e -> pool_inv (inc_reclaimed p) six s e.
Proof. intros [[] ????????]. by split. Qed.

(** One reclamation, in one step. *)
Definition reclaim (e : entry) (p : Pool) : Pool :=
  inc_reclaimed (set_maps (delete (e_domain e) (p_byDomain p)) (delete (e_address e) (p_byAddress p))
    (set_pending (if p_persist p then {[e_domain e]} ∪ p_pendingDeletes p else p_pendingDeletes p) p)).

Lemma prune_one_reclaim now p x :
  prune_one now p x =
  match p_store p !! x with
  | Some e => if expired now e then reclaim e p else p
  | None => p
  end.
Proof.
  unfold prune_one, deleteLocked, deleteUntrackedLocked.
  destruct (p_store p !! x) as [e|] eqn:Hx; [|done]. destruct (expired now e); [|done].
  unfold reclaim. destruct (p_persist p) eqn:Hp; cbn; rewrite Hx; unfold inc_reclaimed, set_maps, set_pending;
    cbn; by rewrite ?Hp.
Qed.

Lemma reclaim_comm e e' p : reclaim e (reclaim e' p) = reclaim e' (reclaim e p).
Proof.
  unfold reclaim at 1 3. unfold inc_reclaimed, set_counters, set_maps, set_pending, reclaim.
  destruct p as [f1 f2 f3 f4 f5 f6 f7 f8 f9 f10 [] f11 f12 f13 f14]; cbn [inc_reclaimed set_counters set_maps set_pending p_persist
    p_prefix p_mappingTTL p_start p_end p_capacity p_maxMappings p_next p_byDomain p_byAddress
    p_pendingDeletes p_reclaimed p_exhaustions p_store p_fresh];
  rewrite (delete_delete _ (e_domain e) (e_domain e')), (delete_delete _ (e_address e) (e_address e')).
  - by rewrite !(assoc_L (∪)), (comm_L (∪) {[e_domain e]}).
  - done.
Qed.

Lemma prune_one_comm now p x y :
  prune_one now (prune_one now p x) y = prune_one now (prune_one now p y) x.
Proof.
  assert (Hst : forall z, p_store (prune_one now p z) = p_store p).
  { intros z. rewrite prune_one_reclaim. destruct (p_store p !! z) as [e|]; [|done].
    by destruct (expired now e). }
  rewrite (prune_one_reclaim now (prune_one now p x) y), (prune_one_reclaim now (prune_one now p y) x).
  rewrite !Hst, !prune_one_reclaim.
  destruct (p_store p !! x) as [e|], (p_store p !! y) as [e'|]; try done.
  destruct (expired now e), (expired now e'); try done. apply reclaim_comm.
Qed.

Lemma prune_one_dead now p x :
  (forall en, p_store p !! x = Some en -> expired now en = false) -> prune_one now p x = p.
Proof. unfold prune_one. destruct (p_store p !! x) as [en|]; [|done]. intros H. by rewrite H. Qed.

Lemma prune_one_live now p x en six s e :
  pool_inv p six s e -> live p x en -> expired now en = true ->
  removes x p (prune_one now p x) /\ pool_inv (prune_one now p x) six s e /\
  p_pendingDeletes (prune_one now p x) =
    (if p_persist p then {[e_domain en]} ∪ p_pendingDeletes p else p_pendingDeletes p).
Proof.
  intros Hinv Hl Hexp. pose proof (deleteLocked_removes _ _ _ _ _ _ Hinv Hl) as Hr.
  pose proof Hl as (Hst & _). unfold prune_one. rewrite Hst, Hexp.
  split_and!.
  - destruct Hr as (Hsh & Hrest). split; [|exact Hrest]. etrans; [exact Hsh|done].
  - apply inc_reclaimed_inv. by eapply removes_inv.
  - destruct (deleteLocked_maps x en p Hst) as (_ & _ & Hpd). exact Hpd.
Qed.

(** The effect of a prune that visits the live entries of [order]. *)
Record pruned (order : list ptr) (now : Z) (p p' : Pool) : Prop := {
  pr_shrinks : shrinks p p';
  pr_live : forall y en, live p' y en <-> live p y en /\ ~ (y ∈ order /\ expired now en = true);
  pr_pending : forall d, d ∈ p_pendingDeletes p' <-> d ∈ p_pendingDeletes p \/
    (p_persist p = true /\ exists y en, y ∈ order /\ live p y en /\ expired now en = true /\ e_domain en = d)
}.

Lemma pruned_nil now p : pruned [] now p p.
Proof.
  split; [done| |].
  - intros y en. split; [|tauto]. intros H. split; [done|]. by intros [?%not_elem_of_nil _].
  - intros d. split; [tauto|]. intros [?|(_ & y & en & ?%not_elem_of_nil & _)]; done.
Qed.

Lemma pruned_skip order now p p' x en :
  live p x en -> expired now en = false -> pruned order now p p' -> pruned (x :: order) now p p'.
Proof.
  intros Hx Hexp [Hsh Hl Hpd]. split; [done| |].
  - intros y en'. rewrite Hl, elem_of_cons. split; intros [Hy Hno]; (split; [done|]); [|tauto].
    intros [[->|?] ?]; [|tauto]. rewrite (live_det x en en') in Hexp by done. congruence.
  - intros d. rewrite Hpd. setoid_rewrite elem_of_cons. apply or_iff_compat_l, and_iff_compat_l.
    split; intros (y & en' & Hy & Hyl & Hexp' & Hd); exists y, en'; [tauto|].
    split_and!; [|done..]. destruct Hy as [->|]; [|done].
    rewrite (live_det x en en') in Hexp by done. congruence.
Qed.

Lemma pruned_step order now p p1 p' x en :
  live p x en -> expired now en = true -> x ∉ order -> removes x p p1 ->
  p_pendingDeletes p1 =
    (if p_persist p then {[e_domain en]} ∪ p_pendingDeletes p else p_pendingDeletes p) ->
  pruned order now p1 p' -> pruned (x :: order) now p p'.
Proof.
  intros Hx Hexp Hnot (Hsh1 & Hl1 & _) Hpd1 [Hsh Hl Hpd]. split; [by etrans| |].
  - intros y en'. rewrite Hl, Hl1, elem_of_cons. split.
    + intros [[? Hne] Hno]. split; [done|]. intros [[->|?] ?]; tauto.
    + intros [Hy Hno]. split_and!; [done| |tauto]. intros ->.
      rewrite (live_det x en en') in Hexp by done. tauto.
  - intros d. rewrite Hpd, Hpd1, (sh_persist _ _ Hsh1).
    destruct (p_persist p); [|intuition congruence].
    rewrite elem_of_union, elem_of_singleton. setoid_rewrite elem_of_cons. setoid_rewrite Hl1. split.
    + intros [[->|?]|(_ & y & en' & Hy & [Hyl _] & ? & <-)].
      * right. split; [done|]. exists x, en. auto.
      * by left.
      * right. split; [done|]. exists y, en'. auto.
    + intros [?|(_ & y & en' & [->|Hy] & Hyl & ? & <-)].
      * tauto.
      * left; left. by rewrite (live_det x en en' Hx Hyl).
      * right. split; [done|]. exists y, en'. split_and!; try done. by intros ->.
Qed.

Lemma prune_in_order_spec order now p six s e :
  pool_inv p six s e -> NoDup order -> (forall x, x ∈ order -> exists en, live p x en) ->
  pool_inv (prune_in_order order now p) six s e /\ pruned order now p (prune_in_order order now p).
Proof.
  revert p. induction order as [|x order IH]; intros p Hinv Hnd Hlive.
  - split; [done|]. apply pruned_nil.
  - apply NoDup_cons in Hnd as [Hx Hnd]. destruct (Hlive x) as [en Hen]; [by left|].
    change (prune_in_order (x :: order) now p) with (prune_in_order order now (prune_one now p x)).
    destruct (expired now en) eqn:Hexp.
    + destruct (prune_one_live now p x en six s e Hinv Hen Hexp) as (Hr & Hinv' & Hpd).
      destruct (IH (prune_one now p x) Hinv' Hnd) as [Hfin Hpr].
      { intros y Hy. destruct (Hlive y) as [en' Hen']; [by right|]. exists en'. apply Hr.
        split; [done|]. by intros ->. }
      split; [done|]. eapply pruned_step; eauto.
    + rewrite prune_one_dead.
      * destruct (IH p Hinv Hnd) as [Hfin Hpr]; [intros y Hy; apply Hlive; by right|].
        split; [done|]. by eapply pruned_skip.
      * intros en' Hst. destruct Hen as (Hst' & _). congruence.
Qed.

Lemma pruneLocked_spec now p six s e :
  pool_inv p six s e ->
  pool_inv (pruneLocked now p) six s e /\ pruned (mapped p) now p (pruneLocked now p).
Proof.
  intros Hinv. apply prune_in_order_spec; [done|by eapply mapped_NoDup|].
  intros x Hx. by apply (mapped_live Hinv).
Qed.

Lemma pruneLocked_live now p six s e :
  pool_inv p six s e ->
  forall y en, live (pruneLocked now p) y en <-> live p y en /\ expired now en = false.
Proof.
  intros Hinv y en. destruct (pruneLocked_spec now p six s e Hinv) as [_ [_ Hl _]].
  rewrite Hl, (mapped_live Hinv), <- not_true_iff_false. split; intros [Hy Hno]; (split; [done|]).
  - intros Hexp. apply Hno. eauto.
  - tauto.
Qed.
