(* ===== verification/FakeIPAlloc.v ===== *)
(** * The address pool: allocation

    The candidate loop walks the usable range cyclically, the number of its
    attempts is enough to find a free address, and every step of the pool
    preserves the invariant. *)

From S2P Require Import Prelude.
From S2P Require Import GoStrings.
From S2P Require Import NetIP.
From S2P Require Import DomainName.
From S2P Require Import FakeIPPool.
From S2P Require Import FakeIPPoolFacts.

(** The [k]-th address after [n] in the cycle over [s, e). *)
Definition cyc (s e n k : Z) : Z := s + (n - s + k) mod (e - s).

(** [p'] has the mappings of [p], and its entries differ at most in their
    expiry and their reference count. *)
Record same_mappings (p p' : Pool) : Prop := {
  sm_start : p_start p' = p_start p;
  sm_end : p_end p' = p_end p;
  sm_capacity : p_capacity p' = p_capacity p;
  sm_max : p_maxMappings p' = p_maxMappings p;
  sm_fresh : p_fresh p' = p_fresh p;
  sm_byDomain : p_byDomain p' = p_byDomain p;
  sm_byAddress : p_byAddress p' = p_byAddress p;
  sm_entry : forall x en', p_store p' !! x = Some en' -> exists en, p_store p !! x = Some en /\
    e_domain en' = e_domain en /\ e_address en' = e_address en /\ 0 <= e_references en' < 2 ^ 64;
  sm_back : forall x, is_Some (p_store p !! x) -> is_Some (p_store p' !! x)
}.

(** ** Steps that keep the mappings *)

Lemma same_mappings_live p p' x en' :
  same_mappings p p' -> live p' x en' ->
  exists en, live p x en /\ e_domain en' = e_domain en /\ e_address en' = e_address en.
Proof.
  intros [] (Hst & Hd & Ha). apply sm_entry0 in Hst as (en & Hst & Hde & Hae & _).
  exists en. unfold live. rewrite <- sm_byDomain0, <- sm_byAddress0, <- Hde, <- Hae. done.
Qed.

Lemma same_mappings_live_fwd p p' x en :
  same_mappings p p' -> live p x en ->
  exists en', live p' x en' /\ e_domain en' = e_domain en /\ e_address en' = e_address en.
Proof.
  intros [] (Hst & Hd & Ha). destruct (sm_back0 x) as [en' Hen']; [by rewrite Hst|].
  destruct (sm_entry0 _ _ Hen') as (en1 & Hst1 & Hde & Hae & _).
  rewrite Hst in Hst1. injection Hst1 as <-.
  exists en'. unfold live. by rewrite sm_byDomain0, sm_byAddress0, Hde, Hae.
Qed.

Lemma same_mappings_inv p p' six s e :
  pool_inv p six s e -> same_mappings p p' ->
  (exists n, p_next p' = fam six n /\ s <= n < e) -> pool_inv p' six s e.
Proof.
  intros Hinv Hsm Hn. pose proof Hsm as [].
  destruct Hinv as [[] HD HA HF HR HG HC HS _]. split; [split; congruence|..|done].
  - intros d x. rewrite sm_byDomain0. intros (en & Hl & <-)%HD.
    destruct (same_mappings_live_fwd _ _ _ _ Hsm Hl) as (en' & ? & ? & _). eauto.
  - intros a x. rewrite sm_byAddress0. intros (en & Hl & <-)%HA.
    destruct (same_mappings_live_fwd _ _ _ _ Hsm Hl) as (en' & ? & _ & ?). eauto.
  - intros x en (en1 & Hst & _)%sm_entry0. rewrite sm_fresh0. eauto.
  - intros x en (en1 & Hst & _ & _ & ?)%sm_entry0. done.
  - intros x en Hl. destruct (same_mappings_live _ _ _ _ Hsm Hl) as (en1 & Hl1 & _ & ->). eauto.
  - intros x en Hl. destruct (same_mappings_live _ _ _ _ Hsm Hl) as (en1 & Hl1 & -> & _). eauto.
  - by rewrite sm_byDomain0, sm_max0.
Qed.

Lemma same_mappings_assignment p p' six s e :
  pool_inv p six s e -> pool_inv p' six s e -> same_mappings p p' -> assignment p' = assignment p.
Proof.
  intros Hinv Hinv' Hsm. apply map_eq. intros d. apply option_eq. intros a.
  rewrite (assignment_Some Hinv), (assignment_Some Hinv'). split.
  - intros (x & en' & Hl & <- & <-).
    destruct (same_mappings_live _ _ _ _ Hsm Hl) as (en & ? & -> & ->). eauto.
  - intros (x & en & Hl & <- & <-).
    destruct (same_mappings_live_fwd _ _ _ _ Hsm Hl) as (en' & ? & ? & ?). eauto.
Qed.

Lemma same_mappings_id p p' six s e :
  pool_inv p six s e ->
  p_start p' = p_start p -> p_end p' = p_end p -> p_capacity p' = p_capacity p ->
  p_maxMappings p' = p_maxMappings p -> p_fresh p' = p_fresh p ->
  p_byDomain p' = p_byDomain p -> p_byAddress p' = p_byAddress p -> p_store p' = p_store p ->
  same_mappings p p'.
Proof.
  intros Hinv ? ? ? ? ? ? ? Hst. split; try done; rewrite Hst; [|done].
  intros x en Hx. exists en. split_and!; try done; by eapply Hinv.
Qed.

(** Writing an entry through its pointer. *)
Lemma store_entry_same p six s e x en en' :
  pool_inv p six s e -> p_store p !! x = Some en ->
  e_domain en' = e_domain en -> e_address en' = e_address en -> 0 <= e_references en' < 2 ^ 64 ->
  same_mappings p (store_entry x en' p) /\ pool_inv (store_entry x en' p) six s e.
Proof.
  intros Hinv Hx Hd Ha Hr.
  assert (Hsm : same_mappings p (store_entry x en' p)).
  { split; try done; cbn.
    - intros y en1. rewrite lookup_insert_Some. intros [[<- <-]|[_ Hy]]; [by exists en|].
      exists en1. split_and!; try done; by eapply Hinv.
    - intros y Hy. rewrite lookup_insert. by case_decide. }
  split; [done|]. eapply same_mappings_inv; eauto. apply Hinv.
Qed.

Lemma set_next_inv p six s e n :
  pool_inv p six s e -> s <= n < e -> pool_inv (set_next (fam six n) p) six s e.
Proof.
  intros Hinv Hn. eapply same_mappings_inv; [done| |by exists n].
  by eapply same_mappings_id.
Qed.

Lemma inc_exhaustions_inv p six s e : pool_inv p six s e -> pool_inv (inc_exhaustions p) six s e.
Proof.
  intros Hinv. eapply same_mappings_inv; [done| |apply Hinv]. by eapply same_mappings_id.
Qed.

Lemma set_pending_inv t p six s e : pool_inv p six s e -> pool_inv (set_pending t p) six s e.
Proof.
  intros Hinv. eapply same_mappings_inv; [done| |apply Hinv]. by eapply same_mappings_id.
Qed.

Lemma set_persist_inv b p six s e : pool_inv p six s e -> pool_inv (set_persist b p) six s e.
Proof.
  intros Hinv. eapply same_mappings_inv; [done| |apply Hinv]. by eapply same_mappings_id.
Qed.

#[export] Hint Resolve inc_exhaustions_inv set_pending_inv set_persist_inv set_next_inv : tunproxy.

(** ** The candidate loop *)

Section probing.
Context {p : Pool} {six : bool} {s e : Z}.
Hypothesis Hgeo : geometry p six s e.

Lemma cyc_range n k : s <= cyc s e n k < e.
Proof. destruct Hgeo. unfold cyc. pose proof (Z.mod_pos_bound (n - s + k) (e - s)). lia. Qed.

Lemma cyc_0 n : s <= n < e -> cyc s e n 0 = n.
Proof. intros Hn. unfold cyc. rewrite Z.mod_small; lia. Qed.

Lemma cyc_cyc n j k : cyc s e (cyc s e n j) k = cyc s e n (j + k).
Proof.
  destruct Hgeo. unfold cyc. f_equal.
  replace (s + (n - s + j) mod (e - s) - s + k) with ((n - s + j) mod (e - s) + k) by lia.
  rewrite Zplus_mod_idemp_l. f_equal. lia.
Qed.

Lemma cyc_inj n j k : 0 <= j < e - s -> 0 <= k < e - s -> cyc s e n j = cyc s e n k -> j = k.
Proof.
  destruct Hgeo as [_ _ Hb _ _ _ _]. intros Hj Hk Heq. unfold cyc in Heq.
  assert (Hm : (n - s + j) mod (e - s) = (n - s + k) mod (e - s)) by lia.
  assert (Hd : (j - k) mod (e - s) = 0).
  { replace (j - k) with ((n - s + j) - (n - s + k)) by lia.
    by rewrite Zminus_mod, Hm, Z.sub_diag, Zmod_0_l. }
  apply Z.mod_divide in Hd as [q Hq]; [|lia].
  assert (q = 0) by (destruct (Z.lt_trichotomy q 0) as [?|[?|?]]; nia). nia.
Qed.

Lemma advance_cyc n : s <= n < e -> advance p (fam six n) = fam six (cyc s e n 1).
Proof.
  intros Hn. destruct Hgeo as [Hgs Hge Hb Hw _ _ _]. unfold advance, cyc.
  assert (Hnext : addr_next (fam six n) = fam six (n + 1)).
  { destruct six; cbn in *; rewrite (proj2 (Z.eqb_neq _ _)); done || lia. }
  rewrite Hnext. assert (addr_valid (fam six (n + 1)) = true) as -> by by destruct six.
  cbn. rewrite Hgs, Hge. case_bool_decide as Heq.
  - apply (inj _) in Heq. replace (n - s + 1) with (e - s) by lia.
    by rewrite Z_mod_same_full, Z.add_0_r.
  - assert (n + 1 <> e) by congruence. f_equal. rewrite Z.mod_small; lia.
Qed.
End probing.

#[local] Coercion Z.of_nat : nat >-> Z.

(** What the loop found after [k] occupied candidates. *)
Lemma probe_spec n p six s e v :
  geometry p six s e -> p_next p = fam six v -> s <= v < e ->
  match probe n p with
  | (p', Some c) => exists k, (k < n)%nat /\ c = fam six (cyc s e v k) /\
      p' = set_next (fam six (cyc s e v (k + 1))) p /\ p_byAddress p !! c = None /\
      (forall j, (j < k)%nat -> is_Some (p_byAddress p !! fam six (cyc s e v j)))
  | (p', None) => p' = set_next (fam six (cyc s e v n)) p /\
      forall j, (j < n)%nat -> is_Some (p_byAddress p !! fam six (cyc s e v j))
  end.
Proof.
  revert p v. induction n as [|n IH]; intros p v Hgeo Hnext Hv.
  - cbn. split; [|lia]. rewrite (cyc_0 _ Hv : cyc s e v 0%nat = v), <- Hnext. by destruct p.
  - cbn [probe]. rewrite Hnext, (advance_cyc Hgeo v Hv). case_bool_decide as Hocc.
    + set (p1 := set_next _ p).
      assert (Hgeo1 : geometry p1 six s e) by (destruct Hgeo; by split).
      specialize (IH p1 (cyc s e v 1) Hgeo1 eq_refl (cyc_range Hgeo v 1)).
      destruct (probe n p1) as [p' [c|]].
      * destruct IH as (k & Hk & -> & -> & Hfree & Hall).
        exists (S k). rewrite !(cyc_cyc Hgeo) in *.
        replace (1 + Z.of_nat k) with (Z.of_nat (S k)) in * by lia.
        replace (1 + (Z.of_nat k + 1)) with (Z.of_nat (S k) + 1) by lia.
        split_and!; [lia|done|done|done|]. intros [|j] Hj; [by rewrite (cyc_0 _ Hv : cyc s e v 0%nat = v)|].
        specialize (Hall j ltac:(lia)). rewrite (cyc_cyc Hgeo) in Hall.
        by replace (1 + Z.of_nat j) with (Z.of_nat (S j)) in Hall by lia.
      * destruct IH as [-> Hall]. rewrite (cyc_cyc Hgeo).
        replace (1 + Z.of_nat n) with (Z.of_nat (S n)) by lia. split; [done|].
        intros [|j] Hj; [by rewrite (cyc_0 _ Hv : cyc s e v 0%nat = v)|].
        specialize (Hall j ltac:(lia)). rewrite (cyc_cyc Hgeo) in Hall.
        by replace (1 + Z.of_nat j) with (Z.of_nat (S j)) in Hall by lia.
    + exists 0%nat. rewrite (cyc_0 _ Hv : cyc s e v 0%nat = v). apply eq_None_not_Some in Hocc.
      split_and!; [lia|done|done|done|lia].
Qed.

(** [n] occupied candidates in a row need [n] mappings. *)
Lemma occupied_run n p six s e v :
  geometry p six s e -> Z.of_nat n <= e - s ->
  (forall j, (j < n)%nat -> is_Some (p_byAddress p !! fam six (cyc s e v j))) ->
  (n <= size (p_byAddress p))%nat.
Proof.
  intros Hgeo Hn Hall.
  set (l := (fun j : nat => fam six (cyc s e v j)) <$> seq 0 n).
  assert (Hlen : length l = n) by (unfold l; by rewrite length_fmap, length_seq).
  rewrite <- Hlen. apply NoDup_keys_size.
  - apply NoDup_fmap_2_strong; [|apply NoDup_seq]. intros j k Hj%elem_of_seq Hk%elem_of_seq Heq.
    apply (inj _) in Heq. apply (cyc_inj Hgeo) in Heq; lia.
  - intros a (j & -> & Hj%elem_of_seq)%list_elem_of_fmap. apply Hall. lia.
Qed.

(** Below the limit the loop finds a free address of the range. *)
Lemma probe_finds p six s e :
  pool_inv p six s e -> Z.of_nat (size (p_byDomain p)) < p_maxMappings p ->
  exists v w, s <= v < e /\ s <= w < e /\
    probe (attempts_of p) p = (set_next (fam six w) p, Some (fam six v)) /\
    p_byAddress p !! fam six v = None.
Proof.
  intros Hinv Hsize. pose proof (sizes_equal Hinv) as Hsz. pose proof Hinv as [Hgeo _ _ _ _ _ _ _ (n & Hnext & Hn)].
  pose proof (probe_spec (attempts_of p) p six s e n Hgeo Hnext Hn) as Hp.
  assert (Hatt : attempts_of p = S (size (p_byAddress p))).
  { unfold attempts_of, wrap64. destruct Hgeo. unfold u64_max in *. rewrite Z.mod_small; lia. }
  destruct (probe (attempts_of p) p) as [p' [c|]].
  - destruct Hp as (k & Hk & -> & -> & Hfree & _).
    exists (cyc s e n k), (cyc s e n (k + 1)). split_and!; auto using (cyc_range Hgeo); apply (cyc_range Hgeo).
  - destruct Hp as [_ Hall]. apply (occupied_run _ p six s e n) in Hall; [lia|done|].
    destruct Hgeo. lia.
Qed.

(** ** Insertion *)

Lemma insert_live p six s e d c expires x p' :
  pool_inv p six s e -> p_byDomain p !! d = None -> p_byAddress p !! c = None ->
  insert_mapping d c expires p = (x, p') ->
  x = p_fresh p /\ p_store p !! x = None /\
  forall y en, live p' y en <-> live p y en \/ (y = x /\ en = MkEntry d c expires 0).
Proof.
  intros Hinv Hd Hc [= <- <-].
  assert (Hfree : p_store p !! p_fresh p = None).
  { destruct (p_store p !! p_fresh p) eqn:Hst; [|done]. apply (i_fresh _ _ _ _ Hinv) in Hst. lia. }
  split_and!; [done..|]. intros y en. unfold live; cbn. rewrite !lookup_insert_Some. split.
  - intros ([[<- <-]|[Hy Hst]] & Hbd & Hba); [by right|left].
    destruct Hbd as [[_ ?]|[_ ?]]; [done|]. destruct Hba as [[_ ?]|[_ ?]]; [done|]. done.
  - intros [(Hst & Hbd & Hba)|[-> ->]]; [|cbn; split_and!; by left].
    split_and!; right; (split; [|done]); congruence.
Qed.

Lemma insert_inv p six s e d v expires x p' :
  pool_inv p six s e -> canonical d -> s <= v < e ->
  p_byDomain p !! d = None -> p_byAddress p !! fam six v = None ->
  Z.of_nat (size (p_byDomain p)) < p_maxMappings p ->
  insert_mapping d (fam six v) expires p = (x, p') -> pool_inv p' six s e.
Proof.
  intros Hinv Hcan Hv Hd Hc Hsize Hins.
  destruct (insert_live _ _ _ _ _ _ _ _ _ Hinv Hd Hc Hins) as (-> & Hfree & Hlive).
  set (en0 := MkEntry d (fam six v) expires 0) in *.
  assert (Hnew : live p' (p_fresh p) en0) by (apply Hlive; auto).
  injection Hins as <-. destruct Hinv as [[] HD HA HF HR HG HC HS HN]. split.
  - by split.
  - intros d' y. cbn. rewrite lookup_insert_Some. intros [[<- <-]|[_ Hy]]; [by exists en0|].
    destruct (HD _ _ Hy) as (en & Hl & <-). exists en. split; [|done]. apply Hlive. by left.
  - intros a y. cbn. rewrite lookup_insert_Some. intros [[<- <-]|[_ Hy]]; [by exists en0|].
    destruct (HA _ _ Hy) as (en & Hl & <-). exists en. split; [|done]. apply Hlive. by left.
  - intros y en. cbn. rewrite lookup_insert_Some. intros [[<- <-]|[_ Hy%HF]]; lia.
  - intros y en. cbn. rewrite lookup_insert_Some. intros [[_ <-]|[_ Hy]]; [cbn; lia|eauto].
  - intros y en [Hy|[_ ->]]%Hlive; [eauto|]. by exists v.
  - intros y en [Hy|[_ ->]]%Hlive; [eauto|done].
  - cbn. rewrite map_size_insert_None by done. lia.
  - done.
Qed.

(** ** The abstract pool *)

(** The content of the pool: the entry of every mapped domain. *)
Definition view (p : Pool) : gmap string entry :=
  omap (fun x => p_store p !! x) (p_byDomain p).

(** The entries of [m] that a prune at [now] keeps. *)
Definition unexpired (now : Z) (m : gmap string entry) : gmap string entry :=
  filter (fun de => expired now de.2 = false) m.

Definition renewed (expires : Z) (en : entry) : entry :=
  MkEntry (e_domain en) (e_address en) expires (e_references en).

(** The contract of an allocation for the canonical domain [d]: the content
    before and after, and the answer.  [persisted] says whether a persistence
    call that was needed succeeded. *)
Inductive alloc_spec (p : Pool) (six : bool) (s e : Z) (persisted : bool) (d : string) (now : Z)
    (m m' : gmap string entry) : result pool_error addr -> Prop :=
| SpecRenew en :
    m !! d = Some en -> m' = <[d := renewed (now + p_mappingTTL p) en]> m ->
    alloc_spec p six s e persisted d now m m' (Ok (e_address en))
| SpecExhausted :
    m !! d = None -> m' = unexpired now m -> Z.of_nat (size (unexpired now m)) = p_maxMappings p ->
    alloc_spec p six s e persisted d now m m' (Err ErrExhausted)
| SpecNew v :
    m !! d = None -> Z.of_nat (size (unexpired now m)) < p_maxMappings p -> persisted = true ->
    s <= v < e -> (forall d' en, unexpired now m !! d' = Some en -> e_address en <> fam six v) ->
    m' = <[d := MkEntry d (fam six v) (now + p_mappingTTL p) 0]> (unexpired now m) ->
    alloc_spec p six s e persisted d now m m' (Ok (fam six v))
| SpecNotPersisted :
    m !! d = None -> Z.of_nat (size (unexpired now m)) < p_maxMappings p -> persisted = false ->
    p_persist p = true -> m' = unexpired now m ->
    alloc_spec p six s e persisted d now m m' (Err PersistFailed).

Section view_facts.
Context {p : Pool} {six : bool} {s e : Z}.
Hypothesis Hinv : pool_inv p six s e.

Lemma view_Some d en : view p !! d = Some en <-> exists x, live p x en /\ e_domain en = d.
Proof.
  unfold view. rewrite lookup_omap_Some. split.
  - intros (x & Hx & Hd). apply (byDomain_live Hinv) in Hd as (en' & Hl & <-).
    destruct Hl as (Hst & ?). exists x. rewrite Hst in Hx. injection Hx as <-. done.
  - intros (x & Hl & <-). exists x. by destruct Hl as (? & ? & _).
Qed.

Lemma view_None d : view p !! d = None <-> p_byDomain p !! d = None.
Proof.
  rewrite !eq_None_not_Some. apply not_iff_compat. split.
  - intros [en (x & (_ & Hd & _) & <-)%view_Some]. eauto.
  - intros [x (en & Hl & <-)%(byDomain_live Hinv)]. exists en. apply view_Some. eauto.
Qed.

Lemma view_size : size (view p) = size (p_byDomain p).
Proof.
  rewrite <- !size_dom. f_equal. apply set_eq. intros d. rewrite !elem_of_dom.
  rewrite <- !not_eq_None_Some. by rewrite view_None.
Qed.
End view_facts.

Lemma unexpired_Some now m d en :
  unexpired now m !! d = Some en <-> m !! d = Some en /\ expired now en = false.
Proof. unfold unexpired. by rewrite map_lookup_filter_Some. Qed.

Lemma view_prune now p six s e :
  pool_inv p six s e -> view (pruneLocked now p) = unexpired now (view p).
Proof.
  intros Hinv. destruct (pruneLocked_spec now _ _ _ _ Hinv) as [Hinv' _].
  apply map_eq. intros d. apply option_eq. intros en.
  rewrite unexpired_Some, (view_Some Hinv), (view_Some Hinv').
  setoid_rewrite (pruneLocked_live now _ _ _ _ Hinv).
  split; [intros (x & [? ?] & ?) | intros [(x & ? & ?) ?]]; eauto.
Qed.

Lemma view_insert p six s e d v expires x p' :
  pool_inv p six s e -> pool_inv p' six s e ->
  p_byDomain p !! d = None -> p_byAddress p !! fam six v = None ->
  insert_mapping d (fam six v) expires p = (x, p') ->
  view p' = <[d := MkEntry d (fam six v) expires 0]> (view p).
Proof.
  intros Hinv Hinv' Hd Hc Hins. destruct (insert_live _ _ _ _ _ _ _ _ _ Hinv Hd Hc Hins) as (-> & _ & Hl).
  apply map_eq. intros d'. apply option_eq. intros en.
  rewrite lookup_insert_Some, (view_Some Hinv), (view_Some Hinv'). setoid_rewrite Hl. split.
  - intros (y & [Hy|[-> ->]] & <-); [right|by left].
    split; [|eauto]. intros ->. destruct Hy as (_ & Hy & _). congruence.
  - intros [[<- <-]|[_ (y & Hy & <-)]]; [|eauto]. eexists. split; [by right|done].
Qed.

Lemma view_delete p p' six s e x en :
  pool_inv p six s e -> live p x en -> removes x p p' -> view p' = delete (e_domain en) (view p).
Proof.
  intros Hinv Hx Hr. pose proof (removes_inv _ _ _ _ _ _ Hinv Hr) as Hinv'. destruct Hr as (_ & Hl & _).
  apply map_eq. intros d. apply option_eq. intros en'.
  rewrite lookup_delete_Some, (view_Some Hinv), (view_Some Hinv'). setoid_rewrite Hl. split.
  - intros (y & [Hy Hne] & <-). split; [|eauto]. intros Heq. apply Hne. by eapply (live_domain_inj y x).
  - intros [Hne (y & Hy & <-)]. exists y. split_and!; [done| |done]. intros ->.
    by rewrite (live_det x en en' Hx Hy) in Hne.
Qed.

Lemma view_store_entry p six s e x en en' :
  pool_inv p six s e -> live p x en ->
  e_domain en' = e_domain en -> e_address en' = e_address en -> 0 <= e_references en' < 2 ^ 64 ->
  view (store_entry x en' p) = <[e_domain en := en']> (view p).
Proof.
  intros Hinv Hx Hd Ha Hr. pose proof Hx as (Hst & _).
  destruct (store_entry_same _ _ _ _ _ _ _ Hinv Hst Hd Ha Hr) as [Hsm Hinv'].
  apply map_eq. intros d. apply option_eq. intros en1.
  rewrite lookup_insert_Some, (view_Some Hinv), (view_Some Hinv').
  unfold live, store_entry. cbn. setoid_rewrite lookup_insert_Some. split.
  - intros (y & ([[<- <-]|[Hne Hy]] & Hy1 & Hy2) & <-); [by left|right].
    split; [|exists y; done]. intros Heq. apply Hne. destruct Hx as (_ & Hx & _). congruence.
  - intros [[<- <-]|[Hne (y & (Hy & Hy1 & Hy2) & <-)]].
    + exists x. rewrite Hd, Ha. destruct Hx as (_ & ? & ?). auto.
    + exists y. split_and!; try done. right. split; [|done]. intros <-. congruence.
Qed.

(** ** Allocation *)

(** The three outcomes of the first half of an allocation. *)
Inductive begin_spec (p : Pool) (six : bool) (s e : Z) (d : string) (now : Z) : Pool -> alloc_step -> Prop :=
| BeginRenew x en :
    live p x en -> e_domain en = d ->
    begin_spec p six s e d now (store_entry x (renewed (now + p_mappingTTL p) en) p)
      (AllocDone (Ok (e_address en)))
| BeginExhausted :
    view p !! d = None -> Z.of_nat (size (unexpired now (view p))) = p_maxMappings p ->
    begin_spec p six s e d now (inc_exhaustions (pruneLocked now p)) (AllocDone (Err ErrExhausted))
| BeginNew v w x p2 r :
    view p !! d = None -> Z.of_nat (size (unexpired now (view p))) < p_maxMappings p ->
    s <= v < e -> s <= w < e -> p_byAddress (pruneLocked now p) !! fam six v = None ->
    insert_mapping d (fam six v) (now + p_mappingTTL p) (set_next (fam six w) (pruneLocked now p)) = (x, p2) ->
    r = (if p_persist p then
           let removed := sorted_names (p_pendingDeletes (pruneLocked now p)) in
           AllocPersist (MkPendingAlloc x d (fam six v) removed
             (MkUpdate now removed (MkMapping d (addr_text (fam six v)) (now + p_mappingTTL p))))
         else AllocDone (Ok (fam six v))) ->
    begin_spec p six s e d now p2 r.

Lemma alloc_begin_spec p six s e domain d now :
  pool_inv p six s e -> Normalize domain = Ok d ->
  begin_spec p six s e d now (alloc_begin domain now p).1 (alloc_begin domain now p).2.
Proof.
  intros Hinv Hd. unfold alloc_begin. rewrite Hd.
  destruct (p_byDomain p !! d) as [x|] eqn:Hx.
  { apply (byDomain_live Hinv) in Hx as (en & Hl & He). pose proof Hl as (Hst & _). cbn. rewrite Hst. cbn.
    by eapply BeginRenew. }
  cbn [mbind option_bind]. destruct (pruneLocked_spec now _ _ _ _ Hinv) as [Hinv1 [Hsh _ _]].
  pose proof (view_prune now _ _ _ _ Hinv) as Hview.
  pose proof (view_size Hinv1) as Hsz. rewrite Hview in Hsz.
  assert (Hv : view p !! d = None) by by apply (view_None Hinv).
  pose proof (i_size _ _ _ _ Hinv1) as Hle. pose proof (sh_max _ _ Hsh) as Hmax. pose proof (sh_ttl _ _ Hsh) as Httl.
  rewrite <- Hsz, Hmax in Hle.
  rewrite <- Hsz, Hmax. destruct (p_maxMappings p <=? _) eqn:Hfull; to_prop.
  - apply BeginExhausted; [done|lia].
  - destruct (probe_finds _ _ _ _ Hinv1) as (v & w & Hvr & Hwr & Hprobe & Hfree); [lia|].
    rewrite Hprobe. destruct (insert_mapping d _ _ _) as [x p2] eqn:Hins.
    assert (p_persist p2 = p_persist p) as Hp by (injection Hins as _ <-; apply (sh_persist _ _ Hsh)).
    assert (p_pendingDeletes p2 = p_pendingDeletes (pruneLocked now p)) as Hpd by (injection Hins as _ <-; done).
    cbn [p_mappingTTL set_next] in *. rewrite Httl in *. rewrite Hp, Hpd.
    destruct (p_persist p) eqn:Hper; apply (BeginNew _ _ _ _ _ _ v w x); try done; by rewrite Hper.
Qed.

(** The insertion of [begin_spec], seen from the pruned pool. *)
Lemma begin_insert p six s e d now v w x p2 :
  pool_inv p six s e -> canonical d -> view p !! d = None ->
  Z.of_nat (size (unexpired now (view p))) < p_maxMappings p ->
  s <= v < e -> s <= w < e -> p_byAddress (pruneLocked now p) !! fam six v = None ->
  insert_mapping d (fam six v) (now + p_mappingTTL p) (set_next (fam six w) (pruneLocked now p)) = (x, p2) ->
  pool_inv p2 six s e /\ live p2 x (MkEntry d (fam six v) (now + p_mappingTTL p) 0) /\
  p_store p !! x = None /\
  (forall y en, live p2 y en <-> (live p y en /\ expired now en = false) \/
     (y = x /\ en = MkEntry d (fam six v) (now + p_mappingTTL p) 0)) /\
  view p2 = <[d := MkEntry d (fam six v) (now + p_mappingTTL p) 0]> (unexpired now (view p)).
Proof.
  intros Hinv Hcan Hd Hsize Hv Hw Hfree Hins.
  destruct (pruneLocked_spec now _ _ _ _ Hinv) as [Hinv1 [Hsh _ _]].
  pose proof (view_prune now _ _ _ _ Hinv) as Hview.
  pose proof (set_next_inv _ _ _ _ w Hinv1 Hw) as Hinv1'.
  assert (Hnone : p_byDomain (pruneLocked now p) !! d = None).
  { apply (view_None Hinv1). rewrite Hview. apply eq_None_not_Some. intros [en [? _]%unexpired_Some]. congruence. }
  assert (Hsz : Z.of_nat (size (p_byDomain (pruneLocked now p))) < p_maxMappings (pruneLocked now p)).
  { rewrite <- (view_size Hinv1), Hview, (sh_max _ _ Hsh). done. }
  destruct (insert_live _ _ _ _ _ _ _ _ _ Hinv1' Hnone Hfree Hins) as (-> & Hst & Hl).
  pose proof (insert_inv _ _ _ _ _ _ _ _ _ Hinv1' Hcan Hv Hnone Hfree Hsz Hins) as Hinv2.
  pose proof (view_insert _ _ _ _ _ _ _ _ _ Hinv1' Hinv2 Hnone Hfree Hins) as Hview2.
  split_and!.
  - done.
  - apply Hl. by right.
  - cbn in Hst. by rewrite (sh_store _ _ Hsh) in Hst.
  - intros y en. rewrite Hl. apply or_iff_compat_r. apply (pruneLocked_live now _ _ _ _ Hinv).
  - rewrite Hview2. f_equal. done.
Qed.

(** The undo of an insertion whose persistence failed. *)
Lemma undo_insert p six s e x d c expires m :
  pool_inv p six s e -> live p x (MkEntry d c expires 0) -> m !! d = None ->
  view p = <[d := MkEntry d c expires 0]> m ->
  view (deleteUntrackedLocked x p) = m.
Proof.
  intros Hinv Hl Hm Hview.
  rewrite (view_delete _ _ _ _ _ _ _ Hinv Hl (deleteUntracked_removes _ _ _ _ _ _ Hinv Hl)), Hview.
  by rewrite delete_insert_id.
Qed.

Lemma drop_pending_inv removed p six s e : pool_inv p six s e -> pool_inv (drop_pending removed p) six s e.
Proof. apply set_pending_inv. Qed.

Lemma alloc_finish_inv a ok p six s e :
  pool_inv p six s e -> (exists en, p_store p !! pa_ptr a = Some en /\ e_domain en = pa_domain a) ->
  pool_inv (alloc_finish a ok p).1 six s e.
Proof.
  intros Hinv (en & Hst & Hd). unfold alloc_finish. destruct ok; [by apply drop_pending_inv|].
  case_bool_decide as Hx; [|done]. cbn. apply (byDomain_live Hinv) in Hx as (en' & Hl & _).
  eapply removes_inv; [done|]. by eapply deleteUntracked_removes.
Qed.

Lemma alloc_begin_inv p six s e domain now :
  pool_inv p six s e -> pool_inv (alloc_begin domain now p).1 six s e.
Proof.
  intros Hinv. destruct (Normalize domain) as [d|er] eqn:Hd; [|unfold alloc_begin; by rewrite Hd].
  pose proof (alloc_begin_spec _ _ _ _ domain d now Hinv Hd) as Hb.
  revert Hb. generalize (alloc_begin domain now p).1 (alloc_begin domain now p).2. intros p' r Hb.
  destruct Hb as [x en Hl He| |v w x p2 r Hv Hs Hvr Hwr Hfree Hins Hr].
  - destruct Hl as (Hst & _). eapply store_entry_same; try done. apply (i_refs _ _ _ _ Hinv x en Hst).
  - apply inc_exhaustions_inv. by apply pruneLocked_spec.
  - apply Normalize_canonical in Hd.
    by destruct (begin_insert _ _ _ _ _ _ _ _ _ _ Hinv Hd Hv Hs Hvr Hwr Hfree Hins).
Qed.
