(* ===== verification/FakeIPNew.v ===== *)
(** * The address pool: construction

    The usable range that [newPool] computes, in closed form, and the
    invariant of a new pool. *)

From S2P Require Import Prelude.
From S2P Require Import GoStrings.
From S2P Require Import NetIP.
From S2P Require Import DomainName.
From S2P Require Import FakeIPPool.
From S2P Require Import FakeIPPoolFacts.

(** The prefixes [ParsePrefix] returns. *)
Definition prefix_wf (pre : prefix) : Prop :=
  addr_wf (prefix_addr pre) /\ 0 <= bits_plus_one pre <= bit_len (prefix_addr pre) + 1 /\
  (addr_valid (prefix_addr pre) = false -> bits_plus_one pre = 0).

(** The size of the block of addresses that share the network bits. *)
Definition host_bits (pre : prefix) : Z := bit_len (prefix_addr pre) - prefix_bits pre.

(** The value of the network address. *)
Definition network (pre : prefix) : Z :=
  mask_value (bit_len (prefix_addr pre)) (prefix_bits pre) (addr_val (prefix_addr pre)).

(** No address of the prefix is an IPv4-mapped IPv6 address. *)
Definition no_mapped (pre : prefix) : Prop :=
  is6 (prefix_addr pre) = true ->
  forall v, network pre <= v < network pre + 2 ^ host_bits pre -> Z.shiftr v 32 <> 0xffff.

(** ** The last address of a prefix *)

Lemma lor_pow2_ones k : 0 < k -> Z.lor (2 ^ (k - 1)) (Z.ones (k - 1)) = Z.ones k.
Proof.
  intros Hk. apply Z.bits_inj'. intros n Hn.
  rewrite Z.lor_spec, Z.pow2_bits_eqb, !Z.testbit_ones_nonneg by lia.
  apply eq_true_iff_eq. rewrite orb_true_iff, Z.eqb_eq, !Z.ltb_lt. lia.
Qed.

Lemma setHostBits_ones width bits v :
  0 <= bits <= width -> setHostBits width bits v = Z.lor v (Z.ones (width - bits)).
Proof.
  unfold setHostBits. intros Hbits. remember (Z.to_nat (width - bits)) as k eqn:Hk.
  revert bits v Hbits Hk. induction k as [|k IH]; intros bits v Hbits Hk.
  - replace (width - bits) with 0 by lia. cbn. by rewrite Z.lor_0_r.
  - rewrite seqZ_cons by lia. cbn [fold_left].
    replace (Z.pred (width - bits)) with (width - Z.succ bits) by lia.
    rewrite IH by lia. rewrite <- Z.lor_assoc. f_equal.
    rewrite <- (lor_pow2_ones (width - bits)) by lia. f_equal; f_equal; lia.
Qed.

Lemma mask_value_bounds len bits v :
  0 <= bits <= len -> 0 <= v < 2 ^ len ->
  0 <= mask_value len bits v /\ mask_value len bits v + 2 ^ (len - bits) <= 2 ^ len /\
  mask_value len bits v mod 2 ^ (len - bits) = 0.
Proof.
  intros Hb Hv. unfold mask_value. rewrite Z.shiftl_mul_pow2, Z.shiftr_div_pow2 by lia.
  assert (Hpow : 2 ^ len = 2 ^ bits * 2 ^ (len - bits)) by (rewrite <- Z.pow_add_r by lia; f_equal; lia).
  pose proof (Z.pow_pos_nonneg 2 (len - bits)). pose proof (Z.pow_pos_nonneg 2 bits).
  assert (Hq : 0 <= v / 2 ^ (len - bits) < 2 ^ bits).
  { split; [apply Z.div_pos; lia|]. apply Z.div_lt_upper_bound; lia. }
  split_and!; [nia|nia|]. apply Z.mod_mul. lia.
Qed.

Lemma setHostBits_last width bits v :
  0 <= bits <= width -> 0 <= v -> v mod 2 ^ (width - bits) = 0 ->
  setHostBits width bits v = v + 2 ^ (width - bits) - 1.
Proof.
  intros Hb Hv Hmod. rewrite setHostBits_ones by done.
  assert (Hland : Z.land v (Z.ones (width - bits)) = 0) by (rewrite Z.land_ones by lia; done).
  rewrite <- Z.lxor_lor, <- Z.add_nocarry_lxor by done. rewrite Z.ones_equiv. lia.
Qed.

(** ** The first usable address *)

Lemma addr_next_iter six v n :
  0 <= v -> v + Z.of_nat n < 2 ^ fam_width six ->
  Nat.iter n addr_next (fam six v) = fam six (v + Z.of_nat n).
Proof.
  intros Hv. induction n as [|n IH]; intros Hn; [cbn; f_equal; lia|].
  change (Nat.iter (S n) addr_next (fam six v)) with (addr_next (Nat.iter n addr_next (fam six v))).
  rewrite IH by lia. destruct six; cbn [fam addr_next fam_width] in *;
    rewrite (proj2 (Z.eqb_neq _ _)) by lia; f_equal; lia.
Qed.

(** ** The capacity *)

Lemma usableCapacity_spec pre rf capacity :
  1 <= rf < 2 ^ 63 -> 0 <= host_bits pre <= bit_len (prefix_addr pre) ->
  usableCapacity pre rf = Some capacity ->
  rf + 1 < 2 ^ host_bits pre /\ capacity = Z.min u64_max (2 ^ host_bits pre - 1 - rf).
Proof.
  unfold usableCapacity, host_bits. set (h := bit_len (prefix_addr pre) - prefix_bits pre).
  intros Hrf Hh. assert (Hwrap : wrap64 (rf + 1) = rf + 1) by (apply Z.mod_small; lia). rewrite Hwrap.
  unfold u64_max, wrap64. destruct (64 <? h) eqn:Hbig; to_prop.
  - intros [= <-]. assert (2 ^ 65 <= 2 ^ h) by (apply Z.pow_le_mono_r; lia). lia.
  - destruct (h =? 64) eqn:H64; to_prop.
    + intros [= <-]. rewrite H64. rewrite Z.mod_small by lia. lia.
    + destruct (2 ^ h <=? rf + 1) eqn:Hle; [done|]. to_prop. intros [= <-].
      assert (2 ^ h <= 2 ^ 63) by (apply Z.pow_le_mono_r; lia). lia.
Qed.

(** ** The new pool *)

Lemma empty_pool_inv p six s e :
  geometry p six s e -> p_byDomain p = ∅ -> p_byAddress p = ∅ -> p_store p = ∅ ->
  p_next p = p_start p -> pool_inv p six s e.
Proof.
  intros Hgeo Hd Ha Hst Hn. pose proof Hgeo as [].
  split; [done|..]; unfold live; rewrite ?Hd, ?Ha, ?Hst, ?Hn; try done.
  - by intros x en (? & _).
  - by intros x en (? & _).
  - rewrite map_size_empty. lia.
  - exists s. split; [done|lia].
Qed.

Lemma masked_fields pre :
  prefix_valid pre = true ->
  masked pre = Prefix (mask_addr (prefix_addr pre) (prefix_bits pre)) (bits_plus_one pre).
Proof. unfold masked. by intros ->. Qed.

Record new_pool_facts (pre : prefix) (ttl mx rf : Z) (p : Pool) (six : bool) : Prop := {
  np_family : is6 (prefix_addr pre) = six;
  np_inv : pool_inv p six (network pre + rf) (network pre + 2 ^ host_bits pre - 1);
  np_bounds : 0 <= network pre /\ network pre + 2 ^ host_bits pre <= 2 ^ fam_width six;
  np_capacity : p_capacity p = Z.min u64_max (2 ^ host_bits pre - 1 - rf);
  np_prefix : p_prefix p = masked pre;
  np_valid : prefix_valid pre = true;
  np_max : p_maxMappings p = mx;
  np_ttl : p_mappingTTL p = ttl;
  np_empty : p_byDomain p = ∅ /\ p_byAddress p = ∅ /\ p_store p = ∅ /\ p_pendingDeletes p = ∅;
  np_persist : p_persist p = false
}.

Lemma newPool_family pre rf six v :
  prefix_valid pre = true -> masked pre = Prefix (fam six v) (bits_plus_one pre) ->
  0 <= prefix_bits pre <= fam_width six -> 1 <= rf < 2 ^ 63 ->
  0 <= v -> v + 2 ^ (fam_width six - prefix_bits pre) <= 2 ^ fam_width six ->
  v mod 2 ^ (fam_width six - prefix_bits pre) = 0 ->
  rf + 1 < 2 ^ (fam_width six - prefix_bits pre) ->
  Nat.iter (Z.to_nat rf) addr_next (prefix_addr (masked pre)) = fam six (v + rf) /\
  lastAddress (masked pre) = fam six (v + 2 ^ (fam_width six - prefix_bits pre) - 1).
Proof.
  intros Hval Hm Hb Hrf Hv Hhi Hmod Hlt. rewrite Hm. cbn [prefix_addr]. split.
  - rewrite addr_next_iter by lia. f_equal. lia.
  - unfold lastAddress. cbn [prefix_addr prefix_bits bits_plus_one].
    change (bits_plus_one pre - 1) with (prefix_bits pre).
    destruct six; cbn [fam fam_width] in *; by rewrite setHostBits_last.
Qed.

Lemma newPool_facts pre ttl mx rf p :
  prefix_wf pre -> rf < 2 ^ 63 ->
  newPool pre ttl mx rf = Ok p -> exists six, new_pool_facts pre ttl mx rf p six.
Proof.
  intros (Hwf & Hbits & Hzero) Hrf. unfold newPool. intros H. inv_result. to_prop.
  destruct (usableCapacity (masked pre) rf) as [capacity|] eqn:Hcap; [|done]. inv_result. to_prop.
  assert (Hpb : 0 <= prefix_bits pre <= bit_len (prefix_addr pre))
    by (unfold prefix_valid, prefix_bits in *; to_prop; lia).
  assert (exists six v0, prefix_addr pre = (if six : bool then Addr6 v0 (addr_zone (prefix_addr pre)) else Addr4 v0))
    as (six & v0 & Hpre).
  { destruct (prefix_addr pre) as [|v|v z] eqn:Hpre; [|by exists false, v|by exists true, v].
    unfold prefix_valid in *. rewrite Hzero in * by done. done. }
  exists six. set (v := network pre).
  assert (Hm : masked pre = Prefix (fam six v) (bits_plus_one pre)).
  { rewrite masked_fields by done. unfold v, network. rewrite Hpre. by destruct six. }
  assert (Hlen : bit_len (prefix_addr pre) = fam_width six) by (rewrite Hpre; by destruct six).
  assert (Hv0 : 0 <= addr_val (prefix_addr pre) < 2 ^ bit_len (prefix_addr pre))
    by (rewrite Hpre in *; destruct six; done).
  destruct (mask_value_bounds _ _ _ Hpb Hv0) as (Hv & Hhi & Hmod). fold (network pre) in Hv, Hhi, Hmod. fold v in Hv, Hhi, Hmod.
  assert (Hhost : host_bits (masked pre) = host_bits pre).
  { rewrite Hm. unfold host_bits. cbn [prefix_addr]. rewrite Hlen. by destruct six. }
  apply usableCapacity_spec in Hcap as [Hlt Hc]; [|lia|].
  2:{ rewrite Hhost, Hm. unfold host_bits. rewrite Hlen. destruct six; cbn in *; lia. }
  rewrite Hhost in Hlt, Hc. unfold host_bits in Hlt, Hc, Hhi |- *. rewrite Hlen in *.
  destruct (newPool_family pre rf six v) as [Hstart Hend]; try done.
  rewrite <- H. split; cbn.
  - rewrite Hpre. by destruct six.
  - fold v. apply empty_pool_inv; try done. rewrite Hstart, Hend. unfold host_bits. rewrite Hlen.
    split; cbn; try done; lia.
  - unfold host_bits. rewrite Hlen. lia.
  - unfold host_bits. by rewrite Hlen.
  - done.
  - done.
  - done.
  - done.
  - done.
  - done.
Qed.

(** The prefix of the pool contains every address of its block. *)
Lemma block_contained pre six n :
  prefix_wf pre -> prefix_valid pre = true -> is6 (prefix_addr pre) = six ->
  0 <= n < 2 ^ host_bits pre -> prefix_contains (masked pre) (fam six (network pre + n)) = true.
Proof.
  intros (Hwf & Hbits & Hzero) Hval <- Hn. rewrite masked_fields by done.
  assert (Hpb : 0 <= prefix_bits pre <= bit_len (prefix_addr pre))
    by (unfold prefix_valid, prefix_bits in *; to_prop; lia).
  assert (Hav : addr_valid (prefix_addr pre) = true).
  { destruct (addr_valid (prefix_addr pre)) eqn:Hav; [done|]. unfold prefix_valid in Hval.
    rewrite Hzero in Hval by done. done. }
  assert (Hv0 : 0 <= addr_val (prefix_addr pre) < 2 ^ bit_len (prefix_addr pre))
    by (destruct (prefix_addr pre); cbn in *; [lia|done|done]).
  destruct (mask_value_bounds _ _ _ Hpb Hv0) as (Hv & Hhi & Hmod).
  assert (Hshift : Z.shiftr (network pre + n) (host_bits pre) = Z.shiftr (network pre) (host_bits pre)).
  { rewrite !Z.shiftr_div_pow2 by (unfold host_bits; lia).
    apply Z.mod_divide in Hmod as [q Hq]; [|lia]. unfold network, host_bits in *. rewrite Hq.
    rewrite Z.div_add_l, Z.div_mul by lia. rewrite (Z.div_small n) by done. lia. }
  unfold prefix_contains, prefix_valid, prefix_bits, host_bits, network in *. cbn [prefix_addr bits_plus_one].
  rewrite Hval. destruct (prefix_addr pre) as [|v|v z]; [done| |];
    cbn [mask_addr fam is6 bit_len addr_val] in *; cbn; by apply Z.eqb_eq.
Qed.
