(* ===== verification/FakeIPRestore.v ===== *)
(** * Component [internal/fakeip], restoring a pool

    What a pool accepts back from disk: the validation of one persisted
    mapping, the restoration of a snapshot, the selection of the journal
    records that continue it, and their replay. *)

From S2P Require Import Prelude.
From S2P Require Import GoStrings.
From S2P Require Import NetIP.
From S2P Require Import NetIPText.
From S2P Require Import DomainName.
From S2P Require Import FakeIPPool.
From S2P Require Import FakeIPPoolFacts.
From S2P Require Import FakeIPAlloc.

(** ** Data *)

Record journalRecord : Type := MkRecord {
  jr_Version : Z;
  jr_Prefix : string;
  jr_Epoch : string;
  jr_RecordedAt : Z;
  jr_Removed : list string;
  jr_Mapping : Mapping
}.

#[export] Instance journalRecord_eq_dec : EqDecision journalRecord.
Proof. solve_decision. Defined.

Inductive restore_error : Type :=
| BadVersion
| BadSnapshotPrefix
| BadEpoch
| TooManyPersisted
| BadPersistedDomain (e : domain_error)
| BadPersistedAddress
| OutsidePrefix
| MissingExpiration
| DuplicateDomain
| DuplicateAddress
| BadRemovedDomain (e : domain_error)
| LimitExceeded
| MissingSnapshot
| MissingTimestamp
| MixedEpochs.

#[export] Instance restore_error_eq_dec : EqDecision restore_error.
Proof. solve_decision. Defined.

(** ** Validation *)

(** [validJournalEpoch] *)
Definition validJournalEpoch (value : string) : bool :=
  (String.length value =? 32)%nat && hex_decodes value.

(** [validateMapping]; [Addr.Compare] gives -1, 0 or 1. *)
Definition validateMapping (p : Pool) (item : Mapping) (protectedUntil : Z)
    : result restore_error (string * addr * Z) :=
  let! domain := map_err BadPersistedDomain (Normalize (m_Domain item)) in
  match parse_addr (m_Address item) with
  | None => Err BadPersistedAddress
  | Some address =>
      fail_if negb (bit_len address =? bit_len (prefix_addr (p_prefix p))) || is4in6 address
      with BadPersistedAddress in
      fail_if addr_ltb address (p_start p) || negb (addr_ltb address (p_end p)) ||
              negb (prefix_contains (p_prefix p) address)
      with OutsidePrefix in
      fail_if m_ExpiresAt item =? 0 with MissingExpiration in
      let expiresAt := if m_ExpiresAt item <? protectedUntil then protectedUntil else m_ExpiresAt item in
      Ok (domain, address, expiresAt)
  end.

(** ** Snapshots *)

(** The loop of [restore], on a copy of the pool with empty maps. *)
Fixpoint restore_loop (items : list Mapping) (protectedUntil : Z) (p : Pool) : result restore_error Pool :=
  match items with
  | [] => Ok p
  | item :: items' =>
      let! r := validateMapping p item protectedUntil in
      let '(domain, address, expiresAt) := r in
      fail_if bool_decide (is_Some (p_byDomain p !! domain)) with DuplicateDomain in
      fail_if bool_decide (is_Some (p_byAddress p !! address)) with DuplicateAddress in
      restore_loop items' protectedUntil (insert_mapping domain address expiresAt p).2
  end.

(** [restore] *)
Definition restore (sn : Snapshot) (protectionWindow now : Z) (p : Pool) : result restore_error Pool :=
  fail_if negb (sn_Version sn =? persistenceVersion) with BadVersion in
  fail_if negb (bool_decide (sn_Prefix sn = prefix_text (p_prefix p))) with BadSnapshotPrefix in
  fail_if negb (bool_decide (sn_JournalEpoch sn = "")) && negb (validJournalEpoch (sn_JournalEpoch sn))
  with BadEpoch in
  fail_if p_maxMappings p <? Z.of_nat (length (sn_Mappings sn)) with TooManyPersisted in
  restore_loop (sn_Mappings sn) (now + protectionWindow) (set_maps ∅ ∅ p).

(** ** The journal *)

(** Removes the mapping of a domain, or of an address, from both maps. *)
Definition forget_domain (domain : string) (p : Pool) : Pool :=
  match p_byDomain p !! domain ≫= (fun x => p_store p !! x) with
  | Some previous => set_maps (delete domain (p_byDomain p)) (delete (e_address previous) (p_byAddress p)) p
  | None => p
  end.

Definition forget_address (address : addr) (p : Pool) : Pool :=
  match p_byAddress p !! address ≫= (fun x => p_store p !! x) with
  | Some previous => set_maps (delete (e_domain previous) (p_byDomain p)) (delete address (p_byAddress p)) p
  | None => p
  end.

(** The removed domains of one record. *)
Fixpoint forget_removed (removed : list string) (p : Pool) : result restore_error Pool :=
  match removed with
  | [] => Ok p
  | name :: removed' =>
      let! domain := map_err BadRemovedDomain (Normalize name) in
      forget_removed removed' (forget_domain domain p)
  end.

(** One record of [restoreJournal]. *)
Definition replay_update (protectedUntil : Z) (u : persistenceUpdate) (p : Pool) : result restore_error Pool :=
  let! p := forget_removed (u_Removed u) p in
  let! r := validateMapping p (u_Mapping u) protectedUntil in
  let '(domain, address, expiresAt) := r in
  let p := forget_address address (forget_domain domain p) in
  fail_if p_maxMappings p <=? Z.of_nat (size (p_byDomain p)) with LimitExceeded in
  Ok (insert_mapping domain address expiresAt p).2.

Fixpoint replay_loop (updates : list persistenceUpdate) (protectedUntil : Z) (p : Pool)
    : result restore_error Pool :=
  match updates with
  | [] => Ok p
  | u :: updates' => let! p := replay_update protectedUntil u p in replay_loop updates' protectedUntil p
  end.

(** [restoreJournal] *)
Definition restoreJournal (updates : list persistenceUpdate) (protectionWindow now : Z) (p : Pool)
    : result restore_error Pool :=
  replay_loop updates (now + protectionWindow) p.

(** The loop of [activeJournalRecords]: [fixed] says whether the snapshot
    chose the epoch. *)
Fixpoint active_loop (records : list journalRecord) (fixed : bool) (wanted prefix : string)
    (active : list journalRecord) : result restore_error (list journalRecord * string) :=
  match records with
  | [] => Ok (active, wanted)
  | r :: records' =>
      fail_if negb (jr_Version r =? persistenceVersion) with BadVersion in
      fail_if negb (bool_decide (jr_Prefix r = prefix)) with BadSnapshotPrefix in
      fail_if negb (validJournalEpoch (jr_Epoch r)) with BadEpoch in
      fail_if jr_RecordedAt r =? 0 with MissingTimestamp in
      let wanted := if bool_decide (wanted = "") then jr_Epoch r else wanted in
      if fixed && negb (bool_decide (jr_Epoch r = wanted)) then active_loop records' fixed wanted prefix active
      else
        fail_if negb (bool_decide (jr_Epoch r = wanted)) with MixedEpochs in
        active_loop records' fixed wanted prefix (active ++ [r])
  end.

(** [activeJournalRecords] *)
Definition activeJournalRecords (records : list journalRecord) (sn : option Snapshot) (prefix : string)
    : result restore_error (list journalRecord * string) :=
  match sn with
  | None =>
      fail_if negb (bool_decide (records = [])) with MissingSnapshot in
      active_loop records false "" prefix []
  | Some sn =>
      let wanted := sn_JournalEpoch sn in
      fail_if negb (bool_decide (wanted = "")) && negb (validJournalEpoch wanted) with BadEpoch in
      active_loop records (negb (bool_decide (wanted = ""))) wanted prefix []
  end.

Definition update_of (r : journalRecord) : persistenceUpdate :=
  MkUpdate (jr_RecordedAt r) (jr_Removed r) (jr_Mapping r).

(** ** Opening *)

(** A line of the journal file: a record, or a line that does not decode. *)
Inductive journal_line : Type :=
| Whole (r : journalRecord)
| Torn.

(** The records that [readJournal] gives back, and whether it read the whole
    file. *)
Fixpoint readable (lines : list journal_line) : list journalRecord * bool :=
  match lines with
  | [] => ([], true)
  | Whole r :: lines' => let '(rs, whole) := readable lines' in (r :: rs, whole)
  | Torn :: _ => ([], false)
  end.

(** What [OpenPersistence] makes of the files it could read, in a pool without
    mappings: the pool, the epoch of the journal, "" when a new one has to be
    drawn, and whether a checkpoint is due because there is no snapshot or
    because the snapshot or the journal was put into quarantine. *)
Definition reopen (sn : option Snapshot) (journal : list journal_line) (window now : Z) (p : Pool)
    : Pool * string * bool :=
  let '(p, sn) :=
    match sn with
    | None => (p, None)
    | Some sn => match restore sn window now p with Ok p' => (p', Some sn) | Err _ => (p, None) end
    end in
  let '(records, whole) := readable journal in
  let replayed :=
    let! r := activeJournalRecords records sn (prefix_text (p_prefix p)) in
    let '(active, epoch) := r in
    let! p := restoreJournal (update_of <$> active) window now p in Ok (p, epoch) in
  match replayed with
  | Ok (p, epoch) => (p, epoch, bool_decide (sn = None) || negb whole)
  | Err _ => (p, "", true)
  end.
