(* ===== verification/FakeIPRestoreFacts.v ===== *)
(** * Restoring a pool: lemmas

    Restoring and replaying keep the invariant of the pool, and act on its
    assignment as simple operations on maps. *)

From S2P Require Import Prelude.
From S2P Require Import GoStrings.
From S2P Require Import NetIP.
From S2P Require Import NetIPText.
From S2P Require Import DomainName.
From S2P Require Import FakeIPPool.
From S2P Require Import FakeIPPoolFacts.
From S2P Require Import FakeIPAlloc.
From S2P Require Import FakeIPRestore.

(** The usable range lies in the prefix of the pool and prints plainly. *)
Record home (p : Pool) (six : bool) (s e : Z) : Prop := {
  h_family : bit_len (prefix_addr (p_prefix p)) = fam_width six;
  h_contains : forall v, s <= v < e -> prefix_contains (p_prefix p) (fam six v) = true;
  h_plain : forall v, s <= v < e -> is4in6 (fam six v) = false
}.

(** A pool with its invariant and its home. *)
Definition good (p : Pool) (six : bool) (s e : Z) : Prop := pool_inv p six s e /\ home p six s e.

(** Every mapping has an expiration date. *)
Definition dated (p : Pool) : Prop := forall x en, live p x en -> 0 < e_expiresAt en.

(** What restoring does not touch. *)
Definition outer (p : Pool) : prefix * Z * Z * Z * gset string * bool :=
  (p_prefix p, p_mappingTTL p, p_capacity p, p_maxMappings p, p_pendingDeletes p, p_persist p).

(** ** Maps of assignments *)

Notation amap := (gmap string addr).

Definition forget (names : list string) (m : amap) : amap := filter (fun da => da.1 ∉ names) m.

Definition forget_addr (a : addr) (m : amap) : amap := filter (fun da => da.2 <> a) m.

(** One journal record on an assignment; [None] when the limit is reached. *)
Definition apply_update (limit : Z) (names : list string) (d : string) (a : addr) (m : amap) : option amap :=
  let m' := forget_addr a (delete d (forget names m)) in
  if limit <=? Z.of_nat (size m') then None else Some (<[d := a]> m').

(** ** Facts about assignments *)

Lemma assignment_view p six s e d :
  pool_inv p six s e -> assignment p !! d = e_address <$> view p !! d.
Proof.
  intros Hinv. apply option_eq. intros a. rewrite (assignment_Some Hinv), fmap_Some. split.
  - intros (x & en & Hl & <- & <-). exists en. split; [|done]. apply (view_Some Hinv). eauto.
  - intros (en & (x & Hl & <-)%(view_Some Hinv) & ->). eauto.
Qed.

Lemma assignment_removes p p' six s e x en :
  pool_inv p six s e -> live p x en -> removes x p p' ->
  assignment p' = delete (e_domain en) (assignment p).
Proof.
  intros Hinv Hl Hr. pose proof (removes_inv _ _ _ _ _ _ Hinv Hr) as Hinv'.
  apply map_eq. intros d. rewrite (assignment_view _ _ _ _ _ Hinv'), (view_delete _ _ _ _ _ _ _ Hinv Hl Hr).
  destruct (decide (d = e_domain en)) as [->|Hne]; [by rewrite !lookup_delete_eq|].
  rewrite !lookup_delete_ne by done. by rewrite (assignment_view _ _ _ _ _ Hinv).
Qed.

Lemma assignment_insert p six s e d v expires :
  pool_inv p six s e -> pool_inv (insert_mapping d (fam six v) expires p).2 six s e ->
  p_byDomain p !! d = None -> p_byAddress p !! fam six v = None ->
  assignment (insert_mapping d (fam six v) expires p).2 = <[d := fam six v]> (assignment p).
Proof.
  intros Hinv Hinv' Hd Ha. apply map_eq. intros d'.
  rewrite (assignment_view _ _ _ _ _ Hinv').
  rewrite (view_insert _ _ _ _ _ _ _ _ _ Hinv Hinv' Hd Ha (surjective_pairing _)).
  destruct (decide (d' = d)) as [->|Hne]; [by rewrite !lookup_insert_eq|].
  rewrite !lookup_insert_ne by done. by rewrite (assignment_view _ _ _ _ _ Hinv).
Qed.

Lemma assignment_None p six s e d :
  pool_inv p six s e -> assignment p !! d = None <-> p_byDomain p !! d = None.
Proof.
  intros Hinv. rewrite (assignment_view _ _ _ _ _ Hinv), fmap_None. apply (view_None Hinv).
Qed.

Lemma byAddress_None p six s e a :
  pool_inv p six s e -> p_byAddress p !! a = None <-> forall d, assignment p !! d <> Some a.
Proof.
  intros Hinv. split.
  - intros Ha d (x & en & (_ & _ & Hx) & _ & <-)%(assignment_Some Hinv). congruence.
  - intros Hno. apply eq_None_not_Some. intros [x (en & Hl & <-)%(byAddress_live Hinv)].
    apply (Hno (e_domain en)). apply (assignment_Some Hinv). eauto.
Qed.

Lemma home_shrinks p p' six s e : home p six s e -> p_prefix p' = p_prefix p -> home p' six s e.
Proof. intros [] Hp. split; by rewrite ?Hp. Qed.

Lemma removes_good p p' six s e x : good p six s e -> removes x p p' -> good p' six s e.
Proof.
  intros [Hinv Hh] Hr. split; [by eapply removes_inv|]. eapply home_shrinks; [done|]. apply Hr.
Qed.

(** ** Forgetting *)

Lemma forget_domain_spec p six s e d :
  good p six s e ->
  good (forget_domain d p) six s e /\ assignment (forget_domain d p) = delete d (assignment p) /\
  shrinks p (forget_domain d p) /\ (dated p -> dated (forget_domain d p)) /\ outer (forget_domain d p) = outer p.
Proof.
  intros Hg. pose proof Hg as [Hinv _]. unfold forget_domain.
  destruct (p_byDomain p !! d) as [x|] eqn:Hx; cbn [mbind option_bind].
  - apply (byDomain_live Hinv) in Hx as (en & Hl & <-). pose proof Hl as (Hst & _).
    pose proof (deleteUntracked_removes _ _ _ _ _ _ Hinv Hl) as Hr.
    assert (Heq : deleteUntrackedLocked x p =
      set_maps (delete (e_domain en) (p_byDomain p)) (delete (e_address en) (p_byAddress p)) p).
    { unfold deleteUntrackedLocked. by rewrite Hst. }
    rewrite Hst, <- Heq. split_and!.
    + by eapply removes_good.
    + by eapply assignment_removes.
    + apply deleteUntracked_shrinks.
    + intros Hd y en' Hy. apply Hr in Hy as [Hy _]. by eapply Hd.
    + by rewrite Heq.
  - split_and!; [done| |done|done|done]. rewrite delete_id; [done|]. by apply (assignment_None _ _ _ _ _ Hinv).
Qed.

Lemma forget_addr_lookup a m d b : forget_addr a m !! d = Some b <-> m !! d = Some b /\ b <> a.
Proof. unfold forget_addr. by rewrite map_lookup_filter_Some. Qed.

Lemma forget_lookup names m d b : forget names m !! d = Some b <-> m !! d = Some b /\ d ∉ names.
Proof. unfold forget. by rewrite map_lookup_filter_Some. Qed.

Lemma forget_address_spec p six s e a :
  good p six s e ->
  good (forget_address a p) six s e /\ assignment (forget_address a p) = forget_addr a (assignment p) /\
  shrinks p (forget_address a p) /\ p_byAddress (forget_address a p) !! a = None /\
  (dated p -> dated (forget_address a p)) /\ outer (forget_address a p) = outer p.
Proof.
  intros Hg. pose proof Hg as [Hinv _]. unfold forget_address.
  destruct (p_byAddress p !! a) as [x|] eqn:Hx; cbn [mbind option_bind].
  - apply (byAddress_live Hinv) in Hx as (en & Hl & <-). pose proof Hl as (Hst & _).
    pose proof (deleteUntracked_removes _ _ _ _ _ _ Hinv Hl) as Hr.
    assert (Heq : deleteUntrackedLocked x p =
      set_maps (delete (e_domain en) (p_byDomain p)) (delete (e_address en) (p_byAddress p)) p).
    { unfold deleteUntrackedLocked. by rewrite Hst. }
    rewrite Hst. split_and!.
    + rewrite <- Heq. by eapply removes_good.
    + rewrite <- Heq, (assignment_removes _ _ _ _ _ _ _ Hinv Hl Hr).
      apply map_eq. intros d. apply option_eq. intros b.
      rewrite forget_addr_lookup, lookup_delete_Some. split; intros [H1 H2]; (split; [|]); try done.
      * intros ->. apply H1. eapply (assignment_injective Hinv); [|exact H2].
        apply (assignment_Some Hinv). eauto.
      * intros <-. apply H2. assert (Hd : assignment p !! e_domain en = Some (e_address en))
          by (apply (assignment_Some Hinv); eauto). congruence.
    + done.
    + cbn. apply lookup_delete_eq.
    + rewrite <- Heq. intros Hd y en' Hy. apply Hr in Hy as [Hy _]. by eapply Hd.
    + done.
  - split_and!; [done| |done|done|done|done]. symmetry. apply map_filter_id. intros d b Hd Heq. cbn in Heq. subst b.
    by eapply (byAddress_None _ _ _ _ _ Hinv) in Hx.
Qed.

Lemma forget_cons name names m : forget (name :: names) m = forget names (delete name m).
Proof.
  apply map_eq. intros d. apply option_eq. intros b.
  rewrite !forget_lookup, lookup_delete_Some, elem_of_cons. naive_solver.
Qed.

Lemma forget_nil m : forget [] m = m.
Proof. apply map_filter_id. intros d a _. apply not_elem_of_nil. Qed.

Lemma forget_removed_spec names p six s e :
  good p six s e -> Forall canonical names ->
  exists p', forget_removed names p = Ok p' /\ good p' six s e /\
    assignment p' = forget names (assignment p) /\ shrinks p p' /\ (dated p -> dated p') /\ outer p' = outer p.
Proof.
  revert p. induction names as [|name names IH]; intros p Hg Hall.
  - exists p. rewrite forget_nil. done.
  - apply Forall_cons_1 in Hall as [Hn Hall]. cbn [forget_removed].
    rewrite (canonical_Normalize _ Hn). cbn [map_err mbind result_bind].
    destruct (forget_domain_spec _ _ _ _ name Hg) as (Hg1 & Ha1 & Hs1 & Hd1 & Ho1).
    destruct (IH _ Hg1 Hall) as (p' & Hp' & Hg' & Ha' & Hs' & Hd' & Ho'). exists p'. split_and!; try done.
    + by rewrite Ha', Ha1, forget_cons.
    + by etrans.
    + auto.
    + by rewrite Ho'.
Qed.

(** ** Validation *)

Lemma addr_ltb_fam six v w : addr_ltb (fam six v) (fam six w) = (v <? w).
Proof.
  unfold addr_ltb, addr_compare, Z.ltb. destruct six; cbn; destruct (v ?= w) eqn:Hc; done.
Qed.

Lemma fam_of_contained pre six a :
  bit_len a = fam_width six -> prefix_contains pre a = true -> a = fam six (addr_val a).
Proof.
  intros Hlen Hc. unfold prefix_contains in Hc. to_prop.
  destruct a as [|v|v z]; destruct six; try done. cbn. f_equal.
  match goal with H : has_zone _ = false |- _ => unfold has_zone in H; to_prop; done end.
Qed.

Lemma validateMapping_usable p six s e m until d a expires :
  good p six s e -> validateMapping p m until = Ok (d, a, expires) ->
  canonical d /\ Normalize (m_Domain m) = Ok d /\ parse_addr (m_Address m) = Some a /\
  until <= expires /\ m_ExpiresAt m <= expires /\ exists v, a = fam six v /\ s <= v < e.
Proof.
  intros [Hinv Hh] Hv. unfold validateMapping in Hv. apply bind_Ok in Hv as (d' & Hd & Hv).
  apply map_err_Ok in Hd. destruct (parse_addr (m_Address m)) as [a'|] eqn:Ha; [|done].
  repeat (apply guard_err_Ok in Hv as [? Hv]). injection Hv as <- <- <-. to_prop.
  pose proof (i_geometry _ _ _ _ Hinv) as Hgeo.
  match goal with H : bit_len a' = _ |- _ => rewrite (h_family _ _ _ _ Hh) in H;
    pose proof (fam_of_contained _ _ _ H ltac:(eassumption)) as Hfam end.
  rewrite (g_start _ _ _ _ Hgeo), (g_end _ _ _ _ Hgeo), Hfam, !addr_ltb_fam in *. to_prop.
  split_and!; try done.
  - by eapply Normalize_canonical.
  - destruct (_ <? until) eqn:Hlt; to_prop; lia.
  - destruct (_ <? until) eqn:Hlt; to_prop; lia.
  - exists (addr_val a'). split; [done|lia].
Qed.

Lemma fam_printable p six s e v :
  good p six s e -> s <= v < e -> printable (fam six v).
Proof.
  intros [Hinv Hh] Hv. destruct (i_geometry _ _ _ _ Hinv).
  pose proof (h_plain _ _ _ _ Hh v Hv). destruct six; cbn in *; unfold printable; cbn; split_and!; done || lia.
Qed.

Lemma validateMapping_own p six s e d v t until :
  good p six s e -> canonical d -> s <= v < e -> t <> 0 ->
  validateMapping p (MkMapping d (addr_text (fam six v)) t) until =
  Ok (d, fam six v, if t <? until then until else t).
Proof.
  intros Hg Hd Hv Ht. pose proof Hg as [Hinv Hh]. pose proof (i_geometry _ _ _ _ Hinv) as Hgeo.
  unfold validateMapping. cbn [m_Domain m_Address m_ExpiresAt]. rewrite (canonical_Normalize d Hd).
  cbn [map_err mbind result_bind]. rewrite parse_addr_text by by eapply fam_printable.
  rewrite (h_family _ _ _ _ Hh), (h_plain _ _ _ _ Hh v Hv), (h_contains _ _ _ _ Hh v Hv).
  rewrite (g_start _ _ _ _ Hgeo), (g_end _ _ _ _ Hgeo), !addr_ltb_fam.
  assert (bit_len (fam six v) = fam_width six) as -> by by destruct six.
  rewrite Z.eqb_refl, (proj2 (Z.ltb_ge v s)), (proj2 (Z.ltb_lt v e)), (proj2 (Z.eqb_neq t 0)) by lia. done.
Qed.

(** ** Insertion of a restored mapping *)

Lemma insert_good p six s e d v expires :
  good p six s e -> canonical d -> s <= v < e ->
  assignment p !! d = None -> (forall d', assignment p !! d' <> Some (fam six v)) ->
  Z.of_nat (size (assignment p)) < p_maxMappings p ->
  good (insert_mapping d (fam six v) expires p).2 six s e /\
  assignment (insert_mapping d (fam six v) expires p).2 = <[d := fam six v]> (assignment p) /\
  (dated p -> 0 < expires -> dated (insert_mapping d (fam six v) expires p).2).
Proof.
  intros [Hinv Hh] Hd Hv Hnd Hna Hsize.
  apply (assignment_None _ _ _ _ _ Hinv) in Hnd. apply (byAddress_None _ _ _ _ _ Hinv) in Hna.
  assert (Hsz : size (assignment p) = size (p_byDomain p)).
  { rewrite <- !size_dom. f_equal. apply set_eq. intros d'. rewrite !elem_of_dom, <- !not_eq_None_Some.
    by rewrite (assignment_None _ _ _ _ _ Hinv). }
  pose proof (insert_inv _ _ _ _ _ _ expires _ _ Hinv Hd Hv Hnd Hna ltac:(lia) (surjective_pairing _)) as Hinv'.
  destruct (insert_live _ _ _ _ _ _ expires _ _ Hinv Hnd Hna (surjective_pairing _)) as (_ & _ & Hlive).
  split_and!; [split; [done|]| |].
  - eapply home_shrinks; done.
  - apply (assignment_insert _ _ _ _ _ _ _ Hinv Hinv' Hnd Hna).
  - intros Hdat Hexp y en [Hy|[_ ->]]%Hlive; [by eapply Hdat|done].
Qed.

Lemma insert_outer d a expires p : outer (insert_mapping d a expires p).2 = outer p.
Proof. done. Qed.

Lemma shrinks_config p p' : shrinks p p' ->
  p_maxMappings p' = p_maxMappings p /\ p_prefix p' = p_prefix p /\ p_start p' = p_start p /\ p_end p' = p_end p.
Proof. by intros []. Qed.

(** ** Replay *)

(** A record that the pool itself wrote. *)
Record own_update (six : bool) (s e : Z) (u : persistenceUpdate) (d : string) (v : Z) : Prop := {
  ou_mapping : exists t, u_Mapping u = MkMapping d (addr_text (fam six v)) t /\ 0 < t;
  ou_domain : canonical d;
  ou_range : s <= v < e;
  ou_removed : Forall canonical (u_Removed u)
}.

Lemma replay_update_own p six s e until u d v :
  good p six s e -> own_update six s e u d v ->
  match apply_update (p_maxMappings p) (u_Removed u) d (fam six v) (assignment p) with
  | Some m => exists p', replay_update until u p = Ok p' /\ good p' six s e /\ assignment p' = m /\
      outer p' = outer p /\ (dated p -> dated p')
  | None => replay_update until u p = Err LimitExceeded
  end.
Proof.
  intros Hg [(t & Hm & Ht) Hd Hv Hrem]. unfold replay_update, apply_update.
  destruct (forget_removed_spec _ _ _ _ _ Hg Hrem) as (p1 & -> & Hg1 & Ha1 & Hs1 & Hd1 & Ho1).
  cbn [mbind result_bind]. rewrite Hm, (validateMapping_own _ _ _ _ _ _ _ _ Hg1 Hd Hv) by lia. cbn [mbind result_bind].
  destruct (forget_domain_spec _ _ _ _ d Hg1) as (Hg2 & Ha2 & Hs2 & Hd2 & Ho2).
  destruct (forget_address_spec _ _ _ _ (fam six v) Hg2) as (Hg3 & Ha3 & Hs3 & Hnone & Hd3 & Ho3).
  set (p3 := forget_address (fam six v) (forget_domain d p1)) in *. cbn zeta.
  rewrite Ha1 in Ha2. rewrite Ha2 in Ha3.
  destruct (shrinks_config _ _ (transitivity Hs1 (transitivity Hs2 Hs3))) as (Hmax & Hpre & _). rewrite Hmax.
  assert (Hsz : size (p_byDomain p3) = size (assignment p3)).
  { rewrite <- !size_dom. f_equal. apply set_eq. intros d'. rewrite !elem_of_dom, <- !not_eq_None_Some.
    by rewrite (assignment_None _ _ _ _ _ (proj1 Hg3)). }
  rewrite Hsz, Ha3. unfold guard_err. destruct (_ <=? _) eqn:Hlim; [done|]. to_prop.
  destruct (insert_good p3 six s e d v (if t <? until then until else t)) as (Hg4 & Ha4 & Hd4); try done.
  - rewrite Ha3. apply eq_None_not_Some. intros [b [Hb _]%forget_addr_lookup]. by rewrite lookup_delete_eq in Hb.
  - intros d'. rewrite Ha3. by intros [_ ?]%forget_addr_lookup.
  - rewrite Ha3. lia.
  - eexists. split_and!; [done|done|by rewrite Ha4, Ha3|by rewrite insert_outer, Ho3, Ho2, Ho1|].
    intros Hdat. apply Hd4; [auto|]. destruct (t <? until) eqn:Hlt; to_prop; lia.
Qed.

(** The journal as a function on assignments. *)
Fixpoint replay_map (limit : Z) (us : list (list string * string * addr)) (m : amap) : option amap :=
  match us with
  | [] => Some m
  | (names, d, a) :: us' => m' ← apply_update limit names d a m; replay_map limit us' m'
  end.

(** The updates as the pool wrote them, and what they stand for. *)
Inductive own_updates (six : bool) (s e : Z) :
  list persistenceUpdate -> list (list string * string * addr) -> Prop :=
| OwnNil : own_updates six s e [] []
| OwnCons u us d v l :
    own_update six s e u d v -> own_updates six s e us l ->
    own_updates six s e (u :: us) ((u_Removed u, d, fam six v) :: l).

Lemma replay_loop_own p six s e until us l m :
  good p six s e -> own_updates six s e us l ->
  replay_map (p_maxMappings p) l (assignment p) = Some m ->
  exists p', replay_loop us until p = Ok p' /\ good p' six s e /\ assignment p' = m /\
    outer p' = outer p /\ (dated p -> dated p').
Proof.
  intros Hg Hown. revert p Hg. induction Hown as [|u us d v l Hu Hown IH]; intros p Hg Hm; cbn in *.
  - injection Hm as <-. exists p. done.
  - pose proof (replay_update_own p six s e until u d v Hg Hu) as Hstep.
    destruct (apply_update _ _ _ _ _) as [m1|]; [|done]. cbn in Hm.
    destruct Hstep as (p1 & -> & Hg1 & <- & Ho & Hd). cbn.
    assert (p_maxMappings p1 = p_maxMappings p) as Hmax by (by injection Ho).
    destruct (IH p1 Hg1) as (p' & ? & ? & ? & Ho' & Hd'); [by rewrite Hmax|].
    exists p'. split_and!; [done..|congruence|auto].
Qed.

Lemma own_updates_app six s e us1 us2 l1 l2 :
  own_updates six s e us1 l1 -> own_updates six s e us2 l2 ->
  own_updates six s e (us1 ++ us2) (l1 ++ l2).
Proof. induction 1; intros; [done|]. cbn. constructor; auto. Qed.

Lemma replay_map_snoc limit l names d a m :
  replay_map limit (l ++ [(names, d, a)]) m =
  m' ← replay_map limit l m; apply_update limit names d a m'.
Proof.
  revert m. induction l as [|[[names' d'] a'] l IH]; intros m; cbn.
  - by destruct (apply_update limit names d a m).
  - destruct (apply_update limit names' d' a' m); [|done]. apply IH.
Qed.

(** ** Snapshots *)

Lemma entries_live p six s e en :
  pool_inv p six s e -> en ∈ entries_of p <-> exists x, live p x en.
Proof.
  intros Hinv. unfold entries_of. rewrite list_elem_of_omap. split.
  - intros (x & (en' & Hl)%(mapped_live Hinv) & Hst). exists x. destruct Hl as (Hst' & Hl).
    rewrite Hst' in Hst. by injection Hst as ->.
  - intros (x & Hl). exists x. split; [apply (mapped_live Hinv); eauto|apply Hl].
Qed.

Lemma omap_store_NoDup {A} (f : entry -> A) (p : Pool) (xs : list ptr) :
  NoDup xs ->
  (forall x y en en', x ∈ xs -> y ∈ xs -> p_store p !! x = Some en -> p_store p !! y = Some en' ->
     f en = f en' -> x = y) ->
  NoDup (f <$> omap (fun x => p_store p !! x) xs).
Proof.
  intros Hnd Hinj. induction Hnd as [|x xs Hx Hnd IH]; [constructor|]. cbn [omap list_omap].
  assert (IH' : NoDup (f <$> omap (fun x => p_store p !! x) xs)).
  { apply IH. intros y z en en' Hy Hz. apply Hinj; by right. }
  destruct (p_store p !! x) as [en|] eqn:Hst; [|done]. cbn. constructor; [|done].
  intros (en' & Heq & (y & Hy & Hst')%list_elem_of_omap)%list_elem_of_fmap.
  apply Hx. by rewrite (Hinj x y en en') by (done || (by left) || by right).
Qed.

Lemma entries_NoDup p six s e :
  pool_inv p six s e -> NoDup (e_domain <$> entries_of p) /\ NoDup (e_address <$> entries_of p).
Proof.
  intros Hinv. split; (apply omap_store_NoDup; [apply (mapped_NoDup Hinv)|]);
    intros x y en en' (en1 & Hx)%(mapped_live Hinv) (en2 & Hy)%(mapped_live Hinv) Hst Hst' Heq;
    assert (Hlx : live p x en) by (destruct Hx as (H1 & ?); rewrite H1 in Hst; by injection Hst as ->);
    assert (Hly : live p y en') by (destruct Hy as (H1 & ?); rewrite H1 in Hst'; by injection Hst' as ->).
  - by eapply (live_domain_inj x y en en').
  - by eapply (live_address_inj x y en en').
Qed.

Lemma assignment_entries p six s e d a :
  pool_inv p six s e ->
  assignment p !! d = Some a <-> exists en, en ∈ entries_of p /\ e_domain en = d /\ e_address en = a.
Proof.
  intros Hinv. rewrite (assignment_Some Hinv). setoid_rewrite (entries_live _ _ _ _ _ Hinv). naive_solver.
Qed.

Lemma entries_length p six s e :
  pool_inv p six s e -> length (entries_of p) = size (p_byDomain p).
Proof.
  intros Hinv. pose proof (entries_NoDup _ _ _ _ Hinv) as [Hnd _].
  rewrite <- (length_fmap e_domain), <- (size_list_to_set (C := gset string)) by done.
  rewrite <- size_dom. f_equal. apply set_eq. intros d.
  rewrite elem_of_list_to_set, list_elem_of_fmap, elem_of_dom. split.
  - intros (en & -> & (x & _ & ? & _)%(entries_live _ _ _ _ _ Hinv)). eauto.
  - intros [x (en & Hl & <-)%(byDomain_live Hinv)]. exists en. split; [done|].
    apply (entries_live _ _ _ _ _ Hinv). eauto.
Qed.

(** Restoring the entries of a pool, in any order. *)
Lemma restore_loop_own es until p six s e :
  good p six s e ->
  Forall (fun en => canonical (e_domain en) /\ (exists v, e_address en = fam six v /\ s <= v < e) /\
                    0 < e_expiresAt en) es ->
  NoDup (e_domain <$> es) -> NoDup (e_address <$> es) ->
  (forall en, en ∈ es -> assignment p !! e_domain en = None) ->
  (forall en d, en ∈ es -> assignment p !! d <> Some (e_address en)) ->
  Z.of_nat (size (assignment p) + length es) <= p_maxMappings p ->
  exists p', restore_loop (mapping_of <$> es) until p = Ok p' /\ good p' six s e /\
    (outer p' = outer p /\ (dated p -> dated p')) /\
    forall d a, assignment p' !! d = Some a <->
      assignment p !! d = Some a \/ exists en, en ∈ es /\ e_domain en = d /\ e_address en = a.
Proof.
  revert p. induction es as [|en es IH]; intros p Hg Hall Hd Ha Hnd Hna Hsz.
  - exists p. split_and!; try done. intros d a. split; [auto|].
    intros [?|(en & ?%not_elem_of_nil & _)]; done.
  - apply Forall_cons_1 in Hall as [(Hcan & (v & Hv & Hr) & Ht) Hall].
    cbn [fmap list_fmap] in *. apply NoDup_cons in Hd as [Hd1 Hd]. apply NoDup_cons in Ha as [Ha1 Ha].
    cbn [restore_loop]. change (mapping_of en) with (MkMapping (e_domain en) (addr_text (e_address en)) (e_expiresAt en)). rewrite Hv, (validateMapping_own _ _ _ _ _ _ _ _ Hg Hcan Hr) by lia.
    cbn [mbind result_bind]. set (t := if e_expiresAt en <? until then until else e_expiresAt en).
    pose proof (Hnd en ltac:(left)) as Hnone. pose proof (fun d => Hna en d ltac:(left)) as Hfree. rewrite Hv in Hfree.
    cbn [length] in Hsz.
    destruct (insert_good p six s e (e_domain en) v t) as (Hg1 & Ha' & Hd');
      [done|done|done|done|done|lia|].
    pose proof Hg as [Hinv _].
    rewrite !bool_decide_eq_false_2.
    + cbn [guard_err]. destruct (IH _ Hg1 Hall Hd Ha) as (p' & Hp' & Hg' & [Hout Hdt] & Hasg).
      * intros en' Hen'. rewrite Ha', lookup_insert_ne; [apply Hnd; by right|].
        intros Heq. apply Hd1. rewrite Heq. by apply list_elem_of_fmap_2.
      * intros en' d Hen'. rewrite Ha'. rewrite lookup_insert_Some. intros [[_ Heq]|[_ Hx]].
        -- apply Ha1. rewrite Hv, Heq. by apply list_elem_of_fmap_2.
        -- by eapply Hna; [right|].
      * rewrite Ha', map_size_insert_None by done. cbn [p_maxMappings]. simpl. lia.
      * exists p'. split_and!; [done|done|by rewrite Hout, insert_outer| |].
        { intros Hdat. apply Hdt, Hd'; [done|]. unfold t. destruct (_ <? until) eqn:Hlt; to_prop; lia. }
        intros d a. rewrite Hasg, Ha', lookup_insert_Some.
        setoid_rewrite elem_of_cons. split.
        -- intros [[[<- <-]|[? ?]]|(en' & ? & ? & ?)]; [right; exists en; auto|by left|right; eauto].
        -- intros [Hx|(en' & [->|?] & <- & <-)]; [left; right; split; [congruence|done]|left; left; auto|right; eauto].
    + intros [x Hx]. by eapply (byAddress_None _ _ _ _ _ Hinv) in Hfree; rewrite Hfree in Hx.
    + intros [x Hx]. apply (assignment_None _ _ _ _ _ Hinv) in Hnone. congruence.
Qed.

Lemma empty_maps_good p six s e :
  good p six s e -> good (set_maps ∅ ∅ p) six s e /\ assignment (set_maps ∅ ∅ p) = ∅.
Proof.
  intros [[Hgeo _ _ HF HR _ _ _ HN] Hh]. split; [split|].
  - split; try done.
    + destruct Hgeo. by split.
    + by intros x en (_ & ? & _).
    + by intros x en (_ & ? & _).
    + cbn [p_byDomain p_maxMappings set_maps]. rewrite map_size_empty. destruct Hgeo. lia.
  - by eapply home_shrinks.
  - done.
Qed.

(** A pool restored from the snapshot of another one. *)
Lemma restore_snapshot q p six s e epoch window now taken :
  pool_inv q six s e -> dated q -> good p six s e ->
  p_prefix p = p_prefix q -> p_maxMappings p = p_maxMappings q ->
  (epoch = "" \/ validJournalEpoch epoch = true) ->
  let sn := snapshotLocked taken q in
  exists p', restore (MkSnapshot (sn_Version sn) (sn_Prefix sn) (sn_SavedAt sn) epoch (sn_Mappings sn)) window now p = Ok p' /\
    good p' six s e /\ assignment p' = assignment q /\ outer p' = outer p /\ dated p'.
Proof.
  intros Hinv Hdated Hg Hpre Hmax Hep sn. unfold restore. cbn [sn_Version sn_Prefix sn_JournalEpoch sn_Mappings].
  subst sn. unfold snapshotLocked; cbn [sn_Version sn_Prefix sn_JournalEpoch sn_Mappings].
  rewrite Hpre, bool_decide_eq_true_2 by done. cbn [negb guard_err Z.eqb persistenceVersion Pos.eqb].
  assert (negb (bool_decide (epoch = "")) && negb (validJournalEpoch epoch) = false) as ->.
  { destruct Hep as [->|Hep]; [done|]. rewrite Hep. apply andb_false_r. }
  set (items := merge_sort mapping_le (mapping_of <$> entries_of q)).
  assert (Hperm : items ≡ₚ mapping_of <$> entries_of q) by apply merge_sort_Permutation.
  apply Permutation_map_inv in Hperm as (es & Hitems & Hperm).
  change (map mapping_of es) with (mapping_of <$> es) in Hitems. symmetry in Hperm.
  destruct (entries_NoDup _ _ _ _ Hinv) as [Hnd1 Hnd2].
  assert (Hlen : length es = size (p_byDomain q)).
  { by rewrite Hperm, (entries_length _ _ _ _ Hinv). }
  pose proof (i_size _ _ _ _ Hinv) as Hsize.
  assert (Z.of_nat (length items) = Z.of_nat (size (p_byDomain q))) as Hl by by rewrite Hitems, length_fmap, Hlen.
  rewrite Hl, (proj2 (Z.ltb_ge _ _)) by lia. cbn [guard_err]. rewrite Hitems.
  destruct (empty_maps_good _ _ _ _ Hg) as [Hg0 Ha0].
  destruct (restore_loop_own es (now + window) (set_maps ∅ ∅ p) six s e) as (p' & Hp' & Hg' & [Hm' Hd'] & Ha');
    rewrite ?Ha0; try done.
  - apply Forall_forall. intros en Hen. rewrite Hperm in Hen.
    apply (entries_live _ _ _ _ _ Hinv) in Hen as (x & Hl'). split_and!.
    + by eapply i_canonical.
    + by eapply i_range.
    + by eapply Hdated.
  - by rewrite Hperm.
  - by rewrite Hperm.
  - rewrite map_size_empty. cbn [p_maxMappings set_maps]. lia.
  - exists p'. split_and!; [done|done| |done|apply Hd'; by intros x en (_ & ? & _)]. apply map_eq. intros d. apply option_eq. intros a.
    rewrite Ha', Ha0, (assignment_entries _ _ _ _ _ _ Hinv). setoid_rewrite Hperm. split; [intros [?|?]; done|by right].
Qed.

(** ** Arbitrary files *)

(** No entry is referenced, as in a pool that serves no flow yet. *)
Definition unheld (p : Pool) : Prop := forall x en, p_store p !! x = Some en -> e_references en = 0.

Section arbitrary.
Context {six : bool} {s e : Z} {p0 : Pool}.
Hypothesis Hfamily : bit_len (prefix_addr (p_prefix p0)) = fam_width six.

(** A pool that restoring can make of [p0]. *)
Record loaded (p : Pool) : Prop := {
  lo_inv : pool_inv p six s e;
  lo_outer : outer p = outer p0;
  lo_unheld : unheld p
}.

Lemma loaded_delete p x en : loaded p -> live p x en -> loaded (deleteUntrackedLocked x p).
Proof.
  intros [Hi Ho Hu] Hl. pose proof Hl as (Hst & _).
  pose proof (deleteUntracked_removes _ _ _ _ _ _ Hi Hl) as Hr. split.
  - by eapply removes_inv.
  - rewrite <- Ho. unfold deleteUntrackedLocked. by rewrite Hst.
  - intros y en'. rewrite (sh_store _ _ (deleteUntracked_shrinks x p)). apply Hu.
Qed.

Lemma loaded_forget_domain p d :
  loaded p -> loaded (forget_domain d p) /\ p_byDomain (forget_domain d p) !! d = None.
Proof.
  intros Hl. unfold forget_domain. destruct (p_byDomain p !! d) as [x|] eqn:Hx; cbn [mbind option_bind]; [|done].
  apply (byDomain_live (lo_inv _ Hl)) in Hx as (en & Hx & <-). pose proof Hx as (Hst & _).
  pose proof (loaded_delete _ _ _ Hl Hx) as Hd. unfold deleteUntrackedLocked in Hd. rewrite Hst in *.
  split; [done|]. apply lookup_delete_eq.
Qed.

Lemma loaded_forget_address p a :
  loaded p -> loaded (forget_address a p) /\ p_byAddress (forget_address a p) !! a = None /\
    (forall d, p_byDomain p !! d = None -> p_byDomain (forget_address a p) !! d = None).
Proof.
  intros Hl. unfold forget_address. destruct (p_byAddress p !! a) as [x|] eqn:Hx; cbn [mbind option_bind]; [|done].
  apply (byAddress_live (lo_inv _ Hl)) in Hx as (en & Hx & <-). pose proof Hx as (Hst & _).
  pose proof (loaded_delete _ _ _ Hl Hx) as Hd. unfold deleteUntrackedLocked in Hd. rewrite Hst in *.
  split_and!; [done|apply lookup_delete_eq|]. intros d Hd'. apply lookup_delete_None. by right.
Qed.

Lemma loaded_forget_removed names p p' : loaded p -> forget_removed names p = Ok p' -> loaded p'.
Proof.
  revert p. induction names as [|name names IH]; intros p Hl; cbn [forget_removed]; [by intros [= <-]|].
  intros (d & _ & Hf)%bind_Ok. eapply IH; [|exact Hf]. by apply loaded_forget_domain.
Qed.

(** An accepted mapping is canonical and in range. *)
Lemma loaded_validate p m until d a expires :
  loaded p -> validateMapping p m until = Ok (d, a, expires) ->
  canonical d /\ exists v, a = fam six v /\ s <= v < e.
Proof.
  intros [Hinv Ho _] Hv. unfold validateMapping in Hv. apply bind_Ok in Hv as (d' & Hd & Hv).
  apply map_err_Ok in Hd. destruct (parse_addr (m_Address m)) as [a'|] eqn:Ha; [|done].
  repeat (apply guard_err_Ok in Hv as [? Hv]). injection Hv as <- <- <-. to_prop.
  pose proof (i_geometry _ _ _ _ Hinv) as Hgeo. assert (Hpre : p_prefix p = p_prefix p0) by (by injection Ho).
  match goal with H : bit_len a' = _ |- _ => rewrite Hpre, Hfamily in H;
    pose proof (fam_of_contained _ _ _ H ltac:(eassumption)) as Hfam end.
  rewrite (g_start _ _ _ _ Hgeo), (g_end _ _ _ _ Hgeo), Hfam, !addr_ltb_fam in *. to_prop.
  split; [by eapply Normalize_canonical|]. exists (addr_val a'). split; [done|lia].
Qed.

Lemma loaded_insert p d a expires :
  loaded p -> canonical d -> (exists v, a = fam six v /\ s <= v < e) ->
  p_byDomain p !! d = None -> p_byAddress p !! a = None ->
  Z.of_nat (size (p_byDomain p)) < p_maxMappings p ->
  loaded (insert_mapping d a expires p).2.
Proof.
  intros [Hi Ho Hu] Hcan (v & -> & Hv) Hd Ha Hs. split.
  - apply (insert_inv _ _ _ _ _ _ expires _ _ Hi Hcan Hv Hd Ha Hs (surjective_pairing _)).
  - by rewrite insert_outer.
  - intros x en. cbn. rewrite lookup_insert_Some. intros [[<- <-]|[_ Hx]]; [done|by eapply Hu].
Qed.

Lemma loaded_max p : loaded p -> p_maxMappings p = p_maxMappings p0.
Proof. intros [_ Ho _]. by injection Ho. Qed.

Lemma restore_loop_loaded items until p p' :
  loaded p -> Z.of_nat (size (p_byDomain p) + length items) <= p_maxMappings p0 ->
  restore_loop items until p = Ok p' -> loaded p'.
Proof.
  revert p. induction items as [|item items IH]; intros p Hl Hs; cbn [restore_loop length] in *; [by intros [= <-]|].
  intros ([[d a] ex] & Hv & Hr)%bind_Ok. apply guard_err_Ok in Hr as [Hd Hr]. apply guard_err_Ok in Hr as [Ha Hr].
  to_prop. apply eq_None_not_Some in Hd, Ha. destruct (loaded_validate _ _ _ _ _ _ Hl Hv) as [Hcan Hrange].
  eapply IH; [| |exact Hr].
  - apply loaded_insert; try done. rewrite (loaded_max _ Hl). lia.
  - cbn. rewrite map_size_insert_None by done. lia.
Qed.

Lemma restore_loaded sn window now p' : loaded p0 -> restore sn window now p0 = Ok p' -> loaded p'.
Proof.
  intros Hl Hr. unfold restore in Hr. repeat (apply guard_err_Ok in Hr as [? Hr]). to_prop.
  eapply restore_loop_loaded; [| |exact Hr].
  - destruct Hl as [Hi Ho Hu]. split; [|done|done]. destruct Hi as [Hgeo _ _ HF HR _ _ _ HN]. split; try done.
    + destruct Hgeo. by split.
    + by intros x en (_ & ? & _).
    + by intros x en (_ & ? & _).
    + cbn [p_byDomain p_maxMappings set_maps]. rewrite map_size_empty. destruct Hgeo. lia.
  - cbn [p_byDomain set_maps]. rewrite map_size_empty. lia.
Qed.

Lemma replay_update_loaded until u p p' : loaded p -> replay_update until u p = Ok p' -> loaded p'.
Proof.
  intros Hl (p1 & Hf & Hr)%bind_Ok. apply bind_Ok in Hr as ([[d a] ex] & Hv & Hr). cbn zeta in Hr.
  apply guard_err_Ok in Hr as [Hs Hr]. injection Hr as <-. to_prop.
  pose proof (loaded_forget_removed _ _ _ Hl Hf) as Hl1.
  destruct (loaded_validate _ _ _ _ _ _ Hl1 Hv) as [Hcan Hrange].
  destruct (loaded_forget_domain p1 d Hl1) as [Hl2 Hd].
  destruct (loaded_forget_address _ a Hl2) as (Hl3 & Ha & Hkeep).
  apply (loaded_insert _ _ _ ex Hl3 Hcan Hrange (Hkeep _ Hd) Ha Hs).
Qed.

Lemma replay_loop_loaded us until p p' : loaded p -> replay_loop us until p = Ok p' -> loaded p'.
Proof.
  revert p. induction us as [|u us IH]; intros p Hl; cbn [replay_loop]; [by intros [= <-]|].
  intros (p1 & Hu & Hr)%bind_Ok. eapply IH; [|exact Hr]. by eapply replay_update_loaded.
Qed.

(** Whatever the files hold, opening them leaves the pool well formed. *)
Lemma reopen_loaded sn journal window now :
  loaded p0 -> loaded (reopen sn journal window now p0).1.1.
Proof.
  intros Hl. unfold reopen.
  set (opened := match sn with None => _ | Some _ => _ end).
  assert (Hopened : loaded opened.1).
  { subst opened. destruct sn as [sn|]; [|done].
    destruct (restore sn window now p0) as [p'|] eqn:Hr; [|done]. by eapply restore_loaded. }
  destruct opened as [p sn']. cbn [fst] in Hopened. destruct (readable journal) as [records whole].
  destruct (activeJournalRecords _ _ _) as [[active epoch]|]; cbn [mbind result_bind]; [|done].
  destruct (restoreJournal _ _ _ p) as [p'|] eqn:Hr; cbn [mbind result_bind]; [|done].
  cbn. by eapply replay_loop_loaded.
Qed.
End arbitrary.
