(* ===== verification/FakeIPSystem.v ===== *)
(** * The address pool under concurrency

    The pool as its callers use it: goroutines interleave the operations of
    the pool, an allocation and a flush give up the mutex while they persist
    and hold the persistence mutex instead, and every successful [Acquire]
    leaves a release closure outstanding until it runs.  One event is one
    critical section. *)

From S2P Require Import Prelude.
From S2P Require Import GoStrings.
From S2P Require Import NetIP.
From S2P Require Import DomainName.
From S2P Require Import FakeIPPool.
From S2P Require Import FakeIPPoolFacts.
From S2P Require Import FakeIPAlloc.
From S2P Require Import FakeIPNew.
From S2P Require Import FakeIPRestore.
From S2P Require Import FakeIPRestoreFacts.

(** ** The system *)

(** The holder of the persistence mutex; a flush keeps the snapshot it writes
    and the deletions that the snapshot covers. *)
Inductive writer : Type :=
| Idle
| Allocating (a : pending_alloc)
| Flushing (sn : Snapshot) (removed : list string).

(** [sy_handles] are the release closures that did not run yet, by the entry
    they release.  [sy_undone] remembers the entries whose allocation was
    undone because it could not be persisted. *)
Record system : Type := MkSystem {
  sy_pool : Pool;
  sy_writer : writer;
  sy_handles : list ptr;
  sy_now : Z;
  sy_undone : gset ptr
}.

Inductive event : Type :=
| EvAllocate (domain : string)
| EvPersisted (ok : bool)
| EvLookup (address : addr)
| EvAcquire (address : addr)
| EvRelease (x : ptr)
| EvPrune
| EvFlush
| EvFlushed (ok : bool)
| EvSetPersistence
| EvTime (now : Z).

(** Takes one occurrence of [x] out of the list. *)
Fixpoint take_handle (x : ptr) (l : list ptr) : option (list ptr) :=
  match l with
  | [] => None
  | y :: l' => if bool_decide (x = y) then Some l' else cons y <$> take_handle x l'
  end.

Definition after_begin (r : alloc_step) : writer :=
  match r with AllocPersist a => Allocating a | AllocDone _ => Idle end.

(** One critical section; [None] when the event is not enabled.  An [Acquire]
    is enabled below 2^64 - 1 outstanding releases; the clock may jump, but not
    before Go's zero time. *)
Definition sys_step (ev : event) (st : system) : option system :=
  let '(MkSystem p w hs now un) := st in
  match ev, w with
  | EvAllocate domain, Idle =>
      let '(p', r) := alloc_begin domain now p in Some (MkSystem p' (after_begin r) hs now un)
  | EvPersisted ok, Allocating a =>
      Some (MkSystem (alloc_finish a ok p).1 Idle hs now (if ok then un else {[pa_ptr a]} ∪ un))
  | EvLookup address, _ => Some (MkSystem (Lookup address now p).1 w hs now un)
  | EvAcquire address, _ =>
      if Z.of_nat (length hs) <? u64_max then
        match Acquire address now p with
        | (p', Ok (_, x)) => Some (MkSystem p' w (x :: hs) now un)
        | (p', Err _) => Some (MkSystem p' w hs now un)
        end
      else None
  | EvRelease x, _ => hs' ← take_handle x hs; Some (MkSystem (release x p) w hs' now un)
  | EvPrune, _ => Some (MkSystem (Prune now p).1 w hs now un)
  | EvFlush, Idle =>
      match flush_begin now p with
      | Some (sn, removed) => Some (MkSystem p (Flushing sn removed) hs now un)
      | None => Some st
      end
  | EvFlushed ok, Flushing _ removed => Some (MkSystem (flush_finish removed ok p) Idle hs now un)
  | EvSetPersistence, Idle => Some (MkSystem (setPersistence p) Idle hs now un)
  | EvTime now', _ => if 0 <=? now' then Some (MkSystem p w hs now' un) else None
  | _, _ => None
  end.

Fixpoint run (evs : list event) (st : system) : option system :=
  match evs with
  | [] => Some st
  | ev :: evs' => st' ← sys_step ev st; run evs' st'
  end.

Definition initial (p : Pool) (now : Z) : system := MkSystem p Idle [] now ∅.

(** ** The invariant *)

Definition count (x : ptr) (l : list ptr) : nat := length (filter (eq x) l).

(** The entry the writer waits for is still the one it created. *)
Definition writer_ok (p : Pool) (w : writer) : Prop :=
  match w with
  | Allocating a => exists en, p_store p !! pa_ptr a = Some en /\
      e_domain en = pa_domain a /\ e_address en = pa_candidate a
  | _ => True
  end.

Record sys_inv (six : bool) (s e : Z) (st : system) : Prop := {
  si_pool : pool_inv (sy_pool st) six s e;
  si_refs : forall x en, p_store (sy_pool st) !! x = Some en ->
    e_references en = Z.of_nat (count x (sy_handles st));
  si_handles : forall x, x ∈ sy_handles st -> is_Some (p_store (sy_pool st) !! x);
  si_held : forall x, x ∈ sy_handles st -> x ∉ sy_undone st ->
    exists en, live (sy_pool st) x en;
  si_bound : Z.of_nat (length (sy_handles st)) < 2 ^ 64;
  si_writer : writer_ok (sy_pool st) (sy_writer st)
}.

(** Entries are never rebound: what a pointer stands for is fixed. *)
Definition stable (p p' : Pool) : Prop :=
  forall x en, p_store p !! x = Some en -> exists en', p_store p' !! x = Some en' /\
    e_domain en' = e_domain en /\ e_address en' = e_address en.

(** Reads the fields of a system given by its parts. *)
Ltac sys_fields := cbn [sy_pool sy_handles sy_undone sy_writer sy_now] in *.

(** ** Counting handles *)

Lemma count_cons x y l : count x (y :: l) = ((if bool_decide (x = y) then 1 else 0) + count x l)%nat.
Proof. unfold count. rewrite filter_cons. case_decide; by case_bool_decide. Qed.

Lemma count_pos x l : (0 < count x l)%nat <-> x ∈ l.
Proof.
  induction l as [|y l IH]; [split; [cbn; lia|by intros ?%not_elem_of_nil]|].
  rewrite count_cons, elem_of_cons, <- IH. case_bool_decide; (split; [|lia]); [by left|].
  intros ?. right. lia.
Qed.

Lemma count_le x l : (count x l <= length l)%nat.
Proof. apply length_filter. Qed.

Lemma take_handle_spec x l l' :
  take_handle x l = Some l' ->
  x ∈ l /\ (forall y, y ∈ l' -> y ∈ l) /\ length l = S (length l') /\
  forall y, count y l = ((if bool_decide (y = x) then 1 else 0) + count y l')%nat.
Proof.
  revert l'. induction l as [|z l IH]; intros l' H; [done|]. cbn in H. case_bool_decide as Hz.
  - injection H as <-. subst z. split_and!; [by left|by right|done|]. intros y. apply count_cons.
  - destruct (take_handle x l) as [l1|] eqn:Hl; [|done]. injection H as <-.
    destruct (IH l1 eq_refl) as (Hin & Hsub & Hlen & Hc). split_and!.
    + by right.
    + intros y. rewrite !elem_of_cons. intros [->|?]; auto.
    + cbn. lia.
    + intros y. rewrite !count_cons, Hc. lia.
Qed.

(** ** Stability *)

#[export] Instance stable_preorder : PreOrder stable.
Proof.
  split; [by intros p x en Hx; exists en|]. intros p1 p2 p3 H12 H23 x en Hx.
  destruct (H12 _ _ Hx) as (en2 & Hx2 & Hd2 & Ha2). destruct (H23 _ _ Hx2) as (en3 & ? & Hd3 & Ha3).
  exists en3. rewrite Hd3, Ha3. done.
Qed.

Lemma stable_store p p' : p_store p' = p_store p -> stable p p'.
Proof. intros Heq x en Hx. exists en. by rewrite Heq. Qed.

Lemma stable_same_mappings p p' : same_mappings p p' -> stable p p'.
Proof.
  intros Hsm x en Hx. destruct (sm_back _ _ Hsm x) as [en' Hx']; [by rewrite Hx|].
  exists en'. destruct (sm_entry _ _ Hsm _ _ Hx') as (en1 & Hx1 & ? & ? & _).
  rewrite Hx in Hx1. injection Hx1 as <-. done.
Qed.

Lemma stable_writer p p' w : stable p p' -> writer_ok p w -> writer_ok p' w.
Proof.
  intros Hs. destruct w as [|a|]; [done| |done]. intros (en & Hx & Hd & Ha).
  destruct (Hs _ _ Hx) as (en' & Hx' & Hd' & Ha'). exists en'. by rewrite Hd', Ha'.
Qed.

(** ** Preservation *)

Section steps.
Context {six : bool} {s e : Z}.

(** A step that leaves the entries as they are and unmaps none that is held. *)
Lemma same_store_inv p w hs now un p' w' now' un' :
  sys_inv six s e (MkSystem p w hs now un) ->
  pool_inv p' six s e -> p_store p' = p_store p ->
  (forall x en, live p x en -> 0 < e_references en -> x ∉ un' -> live p' x en) ->
  un ⊆ un' -> writer_ok p w' ->
  sys_inv six s e (MkSystem p' w' hs now' un').
Proof.
  intros [HP HR HH HL HB _] Hinv Hst Hlive Hun Hw. sys_fields. split; sys_fields; [done|..|done|].
  - by rewrite Hst.
  - by rewrite Hst.
  - intros x Hx Hxu. destruct (HL x Hx) as [en Hen]; [set_solver|].
    exists en. apply Hlive; [done| |done]. destruct Hen as (Hen & _). rewrite (HR _ _ Hen).
    apply count_pos in Hx. lia.
  - by eapply stable_writer; [apply stable_store|].
Qed.

(** A step that rewrites entries without rebinding them. *)
Lemma same_mappings_sys p w hs now un p' hs' :
  sys_inv six s e (MkSystem p w hs now un) ->
  pool_inv p' six s e -> same_mappings p p' ->
  (forall x en, p_store p' !! x = Some en -> e_references en = Z.of_nat (count x hs')) ->
  (forall x, x ∈ hs' -> x ∈ hs \/ exists en, live p x en) ->
  Z.of_nat (length hs') < 2 ^ 64 ->
  sys_inv six s e (MkSystem p' w hs' now un).
Proof.
  intros [HP HR HH HL HB HW] Hinv Hsm Hrefs Hsub Hlen. sys_fields. split; sys_fields; [done|done|..|done|].
  - intros x [Hx|(en & Hx & _)]%Hsub; (eapply sm_back; [done|]); [by apply HH|by rewrite Hx].
  - intros x Hx Hxu. destruct (Hsub x Hx) as [Hx'|[en Hen]].
    + destruct (HL x Hx' Hxu) as [en Hen].
      destruct (same_mappings_live_fwd _ _ _ _ Hsm Hen) as (en' & ? & _). eauto.
    + destruct (same_mappings_live_fwd _ _ _ _ Hsm Hen) as (en' & ? & _). eauto.
  - eapply stable_writer; [by apply stable_same_mappings|done].
Qed.

Lemma not_expired now en : 0 < e_references en -> expired now en = false.
Proof. unfold expired. intros H. rewrite (proj2 (Z.eqb_neq _ _)) by lia. by rewrite andb_false_r. Qed.

Lemma prune_sys now p w hs un :
  sys_inv six s e (MkSystem p w hs now un) ->
  sys_inv six s e (MkSystem (pruneLocked now p) w hs now un).
Proof.
  intros Hsys. pose proof (si_pool _ _ _ _ Hsys) as Hinv. sys_fields.
  destruct (pruneLocked_spec now _ _ _ _ Hinv) as [Hinv' [Hsh _ _]].
  eapply same_store_inv; try done; [apply (sh_store _ _ Hsh)| |apply (si_writer _ _ _ _ Hsys)].
  intros x en Hl Hr _. apply (pruneLocked_live now _ _ _ _ Hinv). auto using not_expired.
Qed.

Lemma delete_expired_sys now p w hs un x en :
  sys_inv six s e (MkSystem p w hs now un) -> live p x en -> expired now en = true ->
  sys_inv six s e (MkSystem (deleteLocked x p) w hs now un).
Proof.
  intros Hsys Hl Hexp. pose proof (si_pool _ _ _ _ Hsys) as Hinv. sys_fields.
  pose proof (deleteLocked_removes _ _ _ _ _ _ Hinv Hl) as Hr.
  eapply same_store_inv; [done|by eapply removes_inv|apply (sh_store _ _ (deleteLocked_shrinks x p))
    | |done|apply (si_writer _ _ _ _ Hsys)].
  intros y en' Hy Hrefs _. apply Hr. split; [done|]. intros ->.
  rewrite (live_det x en' en Hy Hl) in Hrefs. by rewrite (not_expired now en Hrefs) in Hexp.
Qed.

(** What the maps hold for an address. *)
Lemma byAddress_entry p a :
  pool_inv p six s e ->
  (p_byAddress p !! a ≫= (fun x => en ← p_store p !! x; Some (x, en))) = None \/
  exists x en, live p x en /\ e_address en = a /\
    (p_byAddress p !! a ≫= (fun x => en ← p_store p !! x; Some (x, en))) = Some (x, en).
Proof.
  intros Hinv. destruct (p_byAddress p !! a) as [x|] eqn:Hx; [|by left]. right.
  apply (byAddress_live Hinv) in Hx as (en & Hl & Ha). exists x, en. split_and!; [done|done|].
  cbn. destruct Hl as (-> & _). done.
Qed.

Lemma lookup_sys now p w hs un a :
  sys_inv six s e (MkSystem p w hs now un) ->
  sys_inv six s e (MkSystem (Lookup a now p).1 w hs now un).
Proof.
  intros Hsys. pose proof (si_pool _ _ _ _ Hsys) as Hinv. sys_fields. unfold Lookup.
  destruct (byAddress_entry p a Hinv) as [->|(x & en & Hl & _ & ->)]; [done|].
  destruct (expired now en) eqn:Hexp; [|done]. by eapply delete_expired_sys.
Qed.

Lemma set_refs_sys now p w hs hs' un x en n :
  sys_inv six s e (MkSystem p w hs now un) -> p_store p !! x = Some en ->
  n = Z.of_nat (count x hs') -> Z.of_nat (length hs') < 2 ^ 64 ->
  (forall y, y <> x -> count y hs' = count y hs) -> (x ∈ hs' -> x ∈ hs \/ exists en, live p x en) ->
  sys_inv six s e
    (MkSystem (store_entry x (MkEntry (e_domain en) (e_address en) (e_expiresAt en) n) p) w hs' now un).
Proof.
  intros Hsys Hx Hn Hlen Hcount Hin. pose proof (count_le x hs').
  set (en' := MkEntry (e_domain en) (e_address en) (e_expiresAt en) n).
  destruct (store_entry_same p six s e x en en') as [Hsm Hinv']; try done; [apply Hsys|cbn; lia|].
  eapply same_mappings_sys; try done.
  - intros y en1. cbn. rewrite lookup_insert_Some. intros [[<- <-]|[Hne Hy]]; [done|].
    rewrite Hcount by done. by apply Hsys.
  - intros y Hy. destruct (decide (y = x)) as [->|Hne]; [auto|left].
    apply count_pos. rewrite <- Hcount by done. by apply count_pos.
Qed.

Lemma acquire_sys now p w hs un a :
  sys_inv six s e (MkSystem p w hs now un) -> Z.of_nat (length hs) < u64_max ->
  match Acquire a now p with
  | (p', Ok (_, x)) => sys_inv six s e (MkSystem p' w (x :: hs) now un)
  | (p', Err _) => sys_inv six s e (MkSystem p' w hs now un)
  end.
Proof.
  intros Hsys Hlen. pose proof (si_pool _ _ _ _ Hsys) as Hinv. sys_fields. unfold Acquire.
  destruct (byAddress_entry p a Hinv) as [->|(x & en & Hl & _ & ->)]; [done|].
  destruct (expired now en) eqn:Hexp; [by eapply delete_expired_sys|].
  pose proof Hl as (Hst & _). pose proof (si_refs _ _ _ _ Hsys x en Hst) as Hrefs. sys_fields.
  pose proof (count_le x hs). unfold u64_max in *.
  eapply set_refs_sys; try done.
  - rewrite count_cons, bool_decide_eq_true_2 by done.
    unfold wrap64. rewrite Z.mod_small; lia.
  - cbn [length]. lia.
  - intros y Hy. by rewrite count_cons, bool_decide_eq_false_2.
  - eauto.
Qed.

Lemma release_sys now p w hs hs' un x :
  sys_inv six s e (MkSystem p w hs now un) -> take_handle x hs = Some hs' ->
  sys_inv six s e (MkSystem (release x p) w hs' now un).
Proof.
  intros Hsys Ht. destruct (take_handle_spec _ _ _ Ht) as (Hin & Hsub & Hlen & Hc).
  destruct (si_handles _ _ _ _ Hsys x Hin) as [en Hst]. sys_fields.
  pose proof (si_refs _ _ _ _ Hsys x en Hst) as Hrefs. sys_fields.
  pose proof (si_bound _ _ _ _ Hsys) as Hb. sys_fields.
  specialize (Hc x) as Hcx. rewrite bool_decide_eq_true_2 in Hcx by done.
  unfold release. rewrite Hst. rewrite (proj2 (Z.ltb_lt 0 _)) by lia.
  eapply set_refs_sys; try done; [lia|lia| |auto].
  intros y Hy. rewrite Hc, bool_decide_eq_false_2 by done. lia.
Qed.
End steps.

Section allocation_steps.
Context {six : bool} {s e : Z}.

(** A new entry enters the pool with no reference. *)
Lemma insert_sys p w hs now un d v w0 x p2 a :
  sys_inv six s e (MkSystem p w hs now un) -> canonical d -> view p !! d = None ->
  Z.of_nat (size (unexpired now (view p))) < p_maxMappings p ->
  s <= v < e -> s <= w0 < e -> p_byAddress (pruneLocked now p) !! fam six v = None ->
  insert_mapping d (fam six v) (now + p_mappingTTL p) (set_next (fam six w0) (pruneLocked now p)) = (x, p2) ->
  (match a with Allocating a => a.(pa_ptr) = x /\ pa_domain a = d /\ pa_candidate a = fam six v | _ => True end) ->
  sys_inv six s e (MkSystem p2 a hs now un).
Proof.
  intros Hsys Hcan Hd Hsize Hv Hw Hfree Hins Ha. pose proof (si_pool _ _ _ _ Hsys) as Hinv. sys_fields.
  destruct (begin_insert _ _ _ _ _ _ _ _ _ _ Hinv Hcan Hd Hsize Hv Hw Hfree Hins)
    as (Hinv2 & Hnew & Hnone & Hlive & _).
  assert (Hst2 : p_store p2 = <[x := MkEntry d (fam six v) (now + p_mappingTTL p) 0]> (p_store p)).
  { destruct (pruneLocked_spec now _ _ _ _ Hinv) as [_ [Hsh _ _]].
    rewrite <- (sh_store _ _ Hsh). by injection Hins as <- <-. }
  pose proof Hsys as [_ HR HH HL HB _]. sys_fields.
  assert (Hx : x ∉ hs) by (intros Hx%HH; rewrite Hnone in Hx; by destruct Hx).
  split; sys_fields; [done|..|done|].
  - intros y en. rewrite Hst2, lookup_insert_Some. intros [[<- <-]|[_ Hy]]; [|by apply HR].
    cbn. assert (~ (0 < count x hs)%nat) by (by rewrite count_pos). lia.
  - intros y Hy%HH. rewrite Hst2, lookup_insert. by case_decide.
  - intros y Hy Hyu. destruct (HL y Hy Hyu) as [en Hen]. exists en. apply Hlive. left. split; [done|].
    apply not_expired. destruct Hen as (Hen & _). rewrite (HR _ _ Hen). apply count_pos in Hy. lia.
  - destruct a as [|a|]; [done| |done]. destruct Ha as (Hax & Had & Hac). destruct Hnew as (Hst & _).
    unfold writer_ok. rewrite Hax, Had, Hac. eexists. by split.
Qed.

Lemma alloc_begin_sys p hs now un domain :
  sys_inv six s e (MkSystem p Idle hs now un) ->
  let '(p', r) := alloc_begin domain now p in
  sys_inv six s e (MkSystem p' (after_begin r) hs now un).
Proof.
  intros Hsys. pose proof (si_pool _ _ _ _ Hsys) as Hinv. sys_fields.
  destruct (Normalize domain) as [d|er] eqn:Hd; [|unfold alloc_begin; by rewrite Hd].
  pose proof (alloc_begin_spec _ _ _ _ domain d now Hinv Hd) as Hb.
  destruct (alloc_begin domain now p) as [p' r]. cbn [fst snd] in Hb.
  destruct Hb as [x en Hl He| |v w x p2 r Hv Hs Hvr Hwr Hfree Hins Hr].
  - destruct Hl as (Hst & _). pose proof (i_refs _ _ _ _ Hinv x en Hst).
    destruct (store_entry_same p six s e x en (renewed (now + p_mappingTTL p) en)) as [Hsm Hinv']; try done.
    eapply same_mappings_sys; try done; [|by left|apply (si_bound _ _ _ _ Hsys)].
    intros y en1. cbn. rewrite lookup_insert_Some. intros [[<- <-]|[_ Hy]].
    + exact (si_refs _ _ _ _ Hsys x en Hst).
    + exact (si_refs _ _ _ _ Hsys y en1 Hy).
  - cbn [after_begin]. eapply same_store_inv; [by apply prune_sys| |done|by intros|done|done].
    apply inc_exhaustions_inv. by apply pruneLocked_spec.
  - apply Normalize_canonical in Hd.
    apply (insert_sys _ _ _ _ _ _ _ _ _ _ _ Hsys Hd Hv Hs Hvr Hwr Hfree Hins).
    subst r. by destruct (p_persist p).
Qed.

Lemma alloc_finish_sys p a hs now un ok :
  sys_inv six s e (MkSystem p (Allocating a) hs now un) ->
  sys_inv six s e (MkSystem (alloc_finish a ok p).1 Idle hs now (if ok then un else {[pa_ptr a]} ∪ un)).
Proof.
  intros Hsys. pose proof (si_pool _ _ _ _ Hsys) as Hinv. sys_fields.
  pose proof (si_writer _ _ _ _ Hsys) as (en & Hst & Hd & _). sys_fields.
  pose proof (alloc_finish_inv a ok p _ _ _ Hinv (ex_intro _ en (conj Hst Hd))) as Hinv'.
  unfold alloc_finish in *. destruct ok; [by eapply same_store_inv|].
  case_bool_decide as Hx; cbn [fst] in *; [|eapply same_store_inv; try done; set_solver].
  apply (byDomain_live Hinv) in Hx as (en' & Hl & _).
  pose proof (deleteUntracked_removes _ _ _ _ _ _ Hinv Hl) as Hr.
  eapply same_store_inv; [done|done|apply (sh_store _ _ (deleteUntracked_shrinks _ _))| |set_solver|done].
  intros y en1 Hy _ Hnot. apply Hr. split; [done|]. set_solver.
Qed.

Lemma drop_pending_sys p w hs now un removed :
  sys_inv six s e (MkSystem p w hs now un) ->
  sys_inv six s e (MkSystem (drop_pending removed p) Idle hs now un).
Proof.
  intros Hsys. eapply same_store_inv; try done. apply drop_pending_inv. apply Hsys.
Qed.

Lemma sys_step_inv ev st st' :
  sys_inv six s e st -> sys_step ev st = Some st' -> sys_inv six s e st'.
Proof.
  destruct st as [p w hs now un]. intros Hsys. pose proof (si_writer _ _ _ _ Hsys) as Hw. sys_fields.
  destruct ev; cbn [sys_step].
  - destruct w; try done. intros H. pose proof (alloc_begin_sys p hs now un domain Hsys) as Hb.
    destruct (alloc_begin domain now p). by injection H as <-.
  - destruct w; try done. intros [= <-]. by apply alloc_finish_sys.
  - intros [= <-]. by apply lookup_sys.
  - destruct (Z.ltb_spec (Z.of_nat (length hs)) u64_max) as [Hlen|]; [|done]. intros H.
    pose proof (acquire_sys now p w hs un address Hsys Hlen) as Ha.
    destruct (Acquire address now p) as [p' [[d x]|er]]; by injection H as <-.
  - destruct (take_handle x hs) as [hs'|] eqn:Ht; [|done]. intros [= <-]. by eapply release_sys.
  - intros [= <-]. by apply prune_sys.
  - destruct w; try done. destruct (flush_begin now p) as [[sn removed]|]; intros [= <-]; [|done].
    eapply same_store_inv; try done. apply Hsys.
  - destruct w; try done. intros [= <-]. unfold flush_finish. destruct ok; [by eapply drop_pending_sys|].
    eapply same_store_inv; try done. apply Hsys.
  - destruct w; try done. intros [= <-]. eapply same_store_inv; try done. apply set_persist_inv, Hsys.
  - destruct (0 <=? _); [|done]. intros [= <-]. eapply same_store_inv; try done. apply Hsys.
Qed.

Lemma run_inv evs st st' : sys_inv six s e st -> run evs st = Some st' -> sys_inv six s e st'.
Proof.
  revert st. induction evs as [|ev evs IH]; intros st Hsys; cbn; [by intros [= <-]|].
  destruct (sys_step ev st) as [st1|] eqn:Hst; [|done]. cbn. apply IH. by eapply sys_step_inv.
Qed.
End allocation_steps.

Section stability.
Context {six : bool} {s e : Z}.

Lemma stable_write p x en n exp :
  p_store p !! x = Some en ->
  stable p (store_entry x (MkEntry (e_domain en) (e_address en) exp n) p).
Proof.
  intros Hx y en1 Hy. cbn. destruct (decide (x = y)) as [<-|Hne].
  - rewrite lookup_insert_eq. rewrite Hx in Hy. injection Hy as <-. by eexists.
  - rewrite lookup_insert_ne by done. by exists en1.
Qed.

Lemma stable_alloc_begin p domain now :
  pool_inv p six s e -> stable p (alloc_begin domain now p).1.
Proof.
  intros Hinv. destruct (Normalize domain) as [d|er] eqn:Hd; [|unfold alloc_begin; by rewrite Hd].
  pose proof (alloc_begin_spec _ _ _ _ domain d now Hinv Hd) as Hb.
  destruct (pruneLocked_spec now _ _ _ _ Hinv) as [Hinv1 [Hsh _ _]].
  destruct (alloc_begin domain now p) as [p' r]. cbn [fst snd] in *.
  destruct Hb as [x en (Hst & _) He| |v w x p2 r Hv Hs Hvr Hwr Hfree Hins Hr].
  - by apply stable_write.
  - apply stable_store. apply (sh_store _ _ Hsh).
  - intros y en Hy. exists en. split; [|done].
    apply Normalize_canonical in Hd.
    destruct (begin_insert _ _ _ _ _ _ _ _ _ _ Hinv Hd Hv Hs Hvr Hwr Hfree Hins) as (_ & _ & Hnone & _).
    injection Hins as <- <-. cbn. rewrite (sh_store _ _ Hsh), lookup_insert_ne; [done|congruence].
Qed.

Lemma stable_step ev st st' :
  sys_inv six s e st -> sys_step ev st = Some st' -> stable (sy_pool st) (sy_pool st').
Proof.
  destruct st as [p w hs now un]. intros Hsys. pose proof (si_pool _ _ _ _ Hsys) as Hinv.
  destruct ev; cbn [sys_step]; sys_fields.
  - destruct w; try done. pose proof (stable_alloc_begin p domain now Hinv) as Hb.
    destruct (alloc_begin domain now p). by intros [= <-].
  - destruct w; try done. intros [= <-]. sys_fields. unfold alloc_finish. destruct ok; [by apply stable_store|].
    case_bool_decide; [|done]. apply stable_store, (sh_store _ _ (deleteUntracked_shrinks _ _)).
  - intros [= <-]. sys_fields. unfold Lookup. destruct (_ ≫= _) as [[x en]|]; [|done].
    destruct (expired now en); [|done]. apply stable_store, (sh_store _ _ (deleteLocked_shrinks _ _)).
  - destruct (_ <? _); [|done]. unfold Acquire.
    destruct (byAddress_entry p address Hinv) as [->|(x & en & Hl & _ & ->)]; [by intros [= <-]|].
    destruct (expired now en); intros [= <-]; sys_fields.
    + apply stable_store, (sh_store _ _ (deleteLocked_shrinks _ _)).
    + apply stable_write. apply Hl.
  - destruct (take_handle x hs); [|done]. intros [= <-]. sys_fields. unfold release.
    destruct (p_store p !! x) as [en|] eqn:Hx; [|done]. destruct (0 <? _); [by apply stable_write|done].
  - intros [= <-]. sys_fields. destruct (pruneLocked_spec now _ _ _ _ Hinv) as [_ [Hsh _ _]].
    apply stable_store, (sh_store _ _ Hsh).
  - destruct w; try done. destruct (flush_begin now p) as [[??]|]; by intros [= <-].
  - destruct w; try done. intros [= <-]. apply stable_store. by destruct ok.
  - destruct w; try done. intros [= <-]. by apply stable_store.
  - destruct (0 <=? _); [|done]. by intros [= <-].
Qed.

Lemma stable_run evs st st' :
  sys_inv six s e st -> run evs st = Some st' -> stable (sy_pool st) (sy_pool st').
Proof.
  revert st. induction evs as [|ev evs IH]; intros st Hsys; cbn; [by intros [= <-]|].
  destruct (sys_step ev st) as [st1|] eqn:Hst; [|done]. cbn. intros Hr. etrans.
  - by eapply stable_step.
  - apply IH; [by eapply sys_step_inv|done].
Qed.
End stability.

Lemma initial_inv p now six s e :
  pool_inv p six s e -> unheld p -> sys_inv six s e (initial p now).
Proof.
  intros Hinv Hst. split; sys_fields; unfold initial; sys_fields; try done.
  - by intros x ?%not_elem_of_nil.
  - by intros x ?%not_elem_of_nil.
Qed.

(** The pool with which a process begins to serve: the new pool, as in the
    tests, or what [OpenPersistence] made of it and of any files, with the
    callbacks set. *)
Inductive started (fresh : Pool) : Pool -> Prop :=
| StartedNew : started fresh fresh
| StartedOpen sn journal window now :
    started fresh (setPersistence (reopen sn journal window now fresh).1.1).

(** Every state that the program can reach from a new pool. *)
Definition reachable (pre : prefix) (ttl mx rf now : Z) (st : system) : Prop :=
  exists fresh p evs, newPool pre ttl mx rf = Ok fresh /\ started fresh p /\ run evs (initial p now) = Some st.

Lemma new_family six pre ttl mx rf p :
  prefix_wf pre -> new_pool_facts pre ttl mx rf p six -> bit_len (prefix_addr (p_prefix p)) = fam_width six.
Proof.
  intros Hwf Hf. pose proof (np_family _ _ _ _ _ _ Hf) as Hfam.
  assert (Hval : prefix_valid pre = true) by apply (np_valid _ _ _ _ _ _ Hf).
  rewrite (np_prefix _ _ _ _ _ _ Hf), masked_fields by done. cbn [prefix_addr].
  destruct Hwf as (_ & _ & Hzero). destruct (prefix_addr pre) as [|v|v z]; [|by subst six..].
  unfold prefix_valid in Hval. by rewrite Hzero in Hval.
Qed.

Lemma started_loaded six pre ttl mx rf fresh p :
  prefix_wf pre -> new_pool_facts pre ttl mx rf fresh six -> started fresh p ->
  pool_inv p six (network pre + rf) (network pre + 2 ^ host_bits pre - 1) /\ unheld p /\
  p_maxMappings p = mx.
Proof.
  intros Hwf Hf Hs. pose proof (np_empty _ _ _ _ _ _ Hf) as (_ & _ & Hst & _).
  assert (Hl : loaded (six := six) (s := network pre + rf) (e := network pre + 2 ^ host_bits pre - 1) (p0 := fresh) fresh).
  { split; [apply (np_inv _ _ _ _ _ _ Hf)|done|]. intros x en Hx. by rewrite Hst in Hx. }
  rewrite <- (np_max _ _ _ _ _ _ Hf). destruct Hs as [|sn journal window now']; [split_and!; [apply Hl..|done]|].
  pose proof (reopen_loaded (new_family _ _ _ _ _ _ Hwf Hf) sn journal window now' Hl) as Hr.
  split_and!; [apply set_persist_inv, Hr|apply Hr|apply (loaded_max _ Hr)].
Qed.

Lemma reachable_inv pre ttl mx rf now st :
  prefix_wf pre -> rf < 2 ^ 63 -> reachable pre ttl mx rf now st ->
  exists six, is6 (prefix_addr pre) = six /\ 0 <= network pre /\
    network pre + 2 ^ host_bits pre <= 2 ^ fam_width six /\
    sys_inv six (network pre + rf) (network pre + 2 ^ host_bits pre - 1) st.
Proof.
  intros Hwf Hrf (fresh & p & evs & Hnew & Hs & Hrun). destruct (newPool_facts _ _ _ _ _ Hwf Hrf Hnew) as [six Hf].
  pose proof (np_bounds _ _ _ _ _ _ Hf) as [? ?]. destruct (started_loaded _ _ _ _ _ _ _ Hwf Hf Hs) as (Hinv & Hu & _).
  exists six. split_and!; try done; [apply (np_family _ _ _ _ _ _ Hf)|]. eapply run_inv; [|done]. by apply initial_inv.
Qed.
