(* ===== verification/FakeIPProperties.v ===== *)
(** * The address pool: properties

    What a caller of the pool may rely on: the shape of every reachable
    state, the contract of each operation on the content of the pool, and
    which mappings an outstanding flow reference protects. *)

From S2P Require Import Prelude.
From S2P Require Import GoStrings.
From S2P Require Import NetIP.
From S2P Require Import DomainName.
From S2P Require Import FakeIPPool.
From S2P Require Import FakeIPPoolFacts.
From S2P Require Import FakeIPAlloc.
From S2P Require Import FakeIPNew.
From S2P Require Import FakeIPRestore.
From S2P Require Import FakeIPRestoreFacts.
From S2P Require Import FakeIPSystem.

(** The configuration of a pool, which no operation changes. *)
Definition config_of (p : Pool) : prefix * Z * Z * Z :=
  (p_prefix p, p_mappingTTL p, p_capacity p, p_maxMappings p).

(** The sum of the counts of the distinct elements that cover a list. *)
Definition total_count (xs hs : list ptr) : Z := foldr (fun x acc => Z.of_nat (count x hs) + acc) 0 xs.

(** The run of a list of events on a new pool. *)
Definition trial (pre : prefix) (ttl mx rf now : Z) (evs : list event) : option system :=
  match newPool pre ttl mx rf with
  | Ok p => run evs (initial p now)
  | Err _ => None
  end.

(** The network 198.18.0.0/29. *)
Definition demo_prefix : prefix := prefix_from (Addr4 0xC6120000) 29.

(** ** The configuration *)

Lemma config_shrinks p p' : shrinks p p' -> config_of p' = config_of p.
Proof. intros []. unfold config_of. congruence. Qed.

Lemma config_deleteLocked x p : config_of (deleteLocked x p) = config_of p.
Proof. apply config_shrinks, deleteLocked_shrinks. Qed.

Lemma config_prune order now p : config_of (prune_in_order order now p) = config_of p.
Proof.
  revert p. induction order as [|x order IH]; intros p; [done|].
  change (prune_in_order (x :: order) now p) with (prune_in_order order now (prune_one now p x)).
  rewrite IH, prune_one_reclaim. destruct (p_store p !! x) as [en|]; [|done]. by destruct (expired now en).
Qed.

Lemma config_probe n p : config_of (probe n p).1 = config_of p.
Proof.
  revert p. induction n as [|n IH]; intros p; [done|]. cbn [probe]. case_bool_decide; [|done]. by rewrite IH.
Qed.

Lemma config_alloc_begin domain now p : config_of (alloc_begin domain now p).1 = config_of p.
Proof.
  unfold alloc_begin. destruct (Normalize domain) as [d|]; [|done].
  destruct (_ ≫= _) as [[x en]|]; [done|].
  pose proof (config_prune (mapped p) now p) as Hc. fold (pruneLocked now p) in Hc.
  destruct (_ <=? _); [done|].
  pose proof (config_probe (attempts_of (pruneLocked now p)) (pruneLocked now p)) as Hp.
  rewrite Hc in Hp. destruct (probe _ _) as [p1 [c|]]; cbn [fst] in Hp; [|exact Hp].
  cbn [insert_mapping new_entry]. by case_match.
Qed.

Lemma config_alloc_finish a ok p : config_of (alloc_finish a ok p).1 = config_of p.
Proof.
  unfold alloc_finish. destruct ok; [done|]. case_bool_decide; [|done].
  apply config_shrinks, deleteUntracked_shrinks.
Qed.

Lemma config_lookup a now p : config_of (Lookup a now p).1 = config_of p.
Proof.
  unfold Lookup. destruct (_ ≫= _) as [[x en]|]; [|done].
  destruct (expired now en); [apply config_deleteLocked|done].
Qed.

Lemma config_acquire a now p : config_of (Acquire a now p).1 = config_of p.
Proof.
  unfold Acquire. destruct (_ ≫= _) as [[x en]|]; [|done].
  destruct (expired now en); [apply config_deleteLocked|done].
Qed.

Lemma config_release x p : config_of (release x p) = config_of p.
Proof. unfold release. destruct (p_store p !! x) as [en|]; [|done]. by destruct (0 <? _). Qed.

Lemma config_step ev st st' :
  sys_step ev st = Some st' -> config_of (sy_pool st') = config_of (sy_pool st).
Proof.
  destruct st as [p w hs now un]. destruct ev; cbn [sys_step]; sys_fields.
  - destruct w; try done. pose proof (config_alloc_begin domain now p) as Hc.
    destruct (alloc_begin domain now p). by intros [= <-].
  - destruct w; try done. intros [= <-]. apply config_alloc_finish.
  - intros [= <-]. apply config_lookup.
  - destruct (_ <? _); [|done]. pose proof (config_acquire address now p) as Hc.
    destruct (Acquire address now p) as [p' [[d x]|er]]; by intros [= <-].
  - destruct (take_handle x hs); [|done]. intros [= <-]. apply config_release.
  - intros [= <-]. apply config_prune.
  - destruct w; try done. destruct (flush_begin now p) as [[??]|]; by intros [= <-].
  - destruct w; try done. intros [= <-]. by destruct ok.
  - destruct w; try done. by intros [= <-].
  - destruct (0 <=? _); [|done]. by intros [= <-].
Qed.

Lemma config_run evs st st' : run evs st = Some st' -> config_of (sy_pool st') = config_of (sy_pool st).
Proof.
  revert st. induction evs as [|ev evs IH]; intros st; cbn; [by intros [= <-]|].
  destruct (sys_step ev st) as [st1|] eqn:Hst; [|done]. cbn. intros Hr. rewrite (IH _ Hr). by eapply config_step.
Qed.

(** ** The reference counts *)

Lemma total_count_cons xs h hs :
  total_count xs (h :: hs) = Z.of_nat (length (filter (eq h) xs)) + total_count xs hs.
Proof.
  induction xs as [|y xs IH]; [done|]. cbn [total_count foldr] in *. unfold total_count in IH. rewrite IH.
  rewrite count_cons, filter_cons. repeat case_bool_decide; case_decide; subst; cbn; try congruence; lia.
Qed.

Lemma total_count_length xs hs :
  NoDup xs -> (forall x, x ∈ hs -> x ∈ xs) -> total_count xs hs = Z.of_nat (length hs).
Proof.
  intros Hnd. induction hs as [|h hs IH]; intros Hin.
  - clear Hin. induction xs as [|x xs IHx]; [done|]. cbn. apply IHx. by apply NoDup_cons in Hnd as [_ ?].
  - rewrite total_count_cons, IH by (intros; apply Hin; by right).
    assert (length (filter (eq h) xs) = 1%nat) as ->; [|cbn; lia].
    specialize (Hin h ltac:(left)). clear IH. induction xs as [|y xs IHx]; [by apply not_elem_of_nil in Hin|].
    apply NoDup_cons in Hnd as [Hy Hnd]. rewrite filter_cons. case_decide as Heq.
    + subst y. cbn. f_equal. destruct (filter (eq h) xs) as [|z l] eqn:Hf; [done|].
      assert (Hz : z ∈ filter (eq h) xs) by (rewrite Hf; left).
      by apply list_elem_of_filter in Hz as [-> Hz].
    + apply elem_of_cons in Hin as [->|Hin]; [done|]. auto.
Qed.

(** The total that [Stats] computes over the mapped entries. *)
Lemma held_total (es : list entry) :
  Forall (fun en => 0 <= e_references en) es ->
  foldr (fun en acc => e_references en + acc) 0 es < 2 ^ 64 ->
  forall a, 0 <= a -> a + foldr (fun en acc => e_references en + acc) 0 es < 2 ^ 64 ->
  fold_left (fun acc en => wrap64 (acc + e_references en)) (filter (fun en => 0 < e_references en) es) a =
  a + foldr (fun en acc => e_references en + acc) 0 es.
Proof.
  induction es as [|en es IH]; intros Hall Hsum a Ha Hb; [cbn; lia|].
  apply Forall_cons_1 in Hall as [Hen Hall]. cbn [foldr] in *.
  assert (0 <= foldr (fun en acc => e_references en + acc) 0 es).
  { clear -Hall. induction Hall; cbn; lia. }
  rewrite filter_cons. case_decide as Hpos.
  - cbn [fold_left]. unfold wrap64 at 2. rewrite Z.mod_small by lia. rewrite IH; [lia|done|lia..].
  - rewrite IH; [lia|done|lia..].
Qed.

(** The entries that [Stats] visits, by their pointers. *)
Lemma visited_entries (p : Pool) (xs hs : list ptr) :
  (forall x, x ∈ xs -> exists en, p_store p !! x = Some en /\ e_references en = Z.of_nat (count x hs)) ->
  let es := omap (fun x => p_store p !! x) xs in
  foldr (fun en acc => e_references en + acc) 0 es = total_count xs hs /\
  length (filter (fun en => 0 < e_references en) es) = length (filter (fun x => x ∈ hs) xs) /\
  Forall (fun en => 0 <= e_references en) es.
Proof.
  induction xs as [|x xs IH]; intros Hxs; [done|].
  destruct (Hxs x ltac:(left)) as (en & Hst & Hrefs).
  destruct IH as (IH1 & IH2 & IH3); [intros y Hy; apply Hxs; by right|].
  cbn [omap list_omap]. rewrite Hst. cbn [foldr]. split_and!.
  - rewrite IH1, Hrefs. done.
  - rewrite !filter_cons. repeat case_decide; cbn [length]; [by f_equal|..|done].
    + exfalso. assert (0 < count x hs)%nat as ?%count_pos by lia. done.
    + exfalso. assert (0 < count x hs)%nat by by apply count_pos. lia.
  - constructor; [lia|done].
Qed.

Lemma stats_facts six s e st :
  sys_inv six s e st -> sy_undone st = ∅ ->
  let p := sy_pool st in let hs := sy_handles st in
  foldr (fun en acc => e_references en + acc) 0 (entries_of p) = Z.of_nat (length hs) /\
  length (filter (fun en => 0 < e_references en) (entries_of p)) = size (list_to_set (C := gset ptr) hs) /\
  Forall (fun en => 0 <= e_references en) (entries_of p).
Proof.
  intros Hsys Hun p hs. pose proof (si_pool _ _ _ _ Hsys) as Hinv.
  assert (Hmapped : forall x, x ∈ hs -> x ∈ mapped p).
  { intros x Hx. apply (mapped_live Hinv). apply (si_held _ _ _ _ Hsys); [done|]. rewrite Hun. set_solver. }
  destruct (visited_entries p (mapped p) hs) as (H1 & H2 & H3).
  { intros x (en & Hst & _)%(mapped_live Hinv). exists en. split; [done|]. by apply (si_refs _ _ _ _ Hsys). }
  split_and!; [|unfold entries_of; rewrite H2|done].
  - unfold entries_of. rewrite H1. apply total_count_length; [apply (mapped_NoDup Hinv)|done].
  - rewrite <- (size_list_to_set (C := gset ptr)) by (apply NoDup_filter, (mapped_NoDup Hinv)).
    f_equal. apply set_eq. intros x. rewrite !elem_of_list_to_set, list_elem_of_filter. naive_solver.
Qed.

Lemma assignment_size p six s e : pool_inv p six s e -> size (assignment p) = size (p_byDomain p).
Proof.
  intros Hinv. rewrite <- !size_dom. f_equal. apply set_eq. intros d. rewrite !elem_of_dom. split.
  - intros [a (x & en & Hl & <- & _)%(assignment_Some Hinv)]. destruct Hl as (_ & ? & _). eauto.
  - intros [x (en & Hl & <-)%(byDomain_live Hinv)]. exists (e_address en). apply (assignment_Some Hinv). eauto.
Qed.

Lemma trial_reachable pre ttl mx rf now evs st :
  trial pre ttl mx rf now evs = Some st -> reachable pre ttl mx rf now st.
Proof. unfold trial, reachable. destruct (newPool pre ttl mx rf) as [p|]; [|done]. intros H.
  exists p, p, evs. split_and!; [done|constructor|done].
Qed.

Lemma demo_prefix_wf : prefix_wf demo_prefix.
Proof. unfold prefix_wf; cbn. lia. Qed.

Lemma demo_pool_inv p :
  newPool demo_prefix 100 2 1 = Ok p -> pool_inv p false 0xC6120001 0xC6120007 /\ p_byDomain p = ∅.
Proof.
  assert (Hrf : 1 < 2 ^ 63) by lia. intros Hp.
  destruct (newPool_facts _ _ _ _ _ demo_prefix_wf Hrf Hp) as [six Hf].
  pose proof (np_family _ _ _ _ _ _ Hf) as Hfam. cbn in Hfam. subst six. split.
  - apply (np_inv _ _ _ _ _ _ Hf).
  - apply (np_empty _ _ _ _ _ _ Hf).
Qed.

(** ** Properties *)

(** C22: in every state the program can reach, from a new pool or from what
    opening any snapshot and journal made of it, whatever operations interleave
    and whichever persistence calls fail, the two maps mirror each other, no
    two domains share an address, every mapped name is canonical, every mapped
    address lies in the configured prefix past the reserved addresses and
    before the last one, and the limit on the number of mappings is kept. *)
Theorem reachable_mappings pre ttl mx rf now st :
  prefix_wf pre -> rf < 2 ^ 63 -> reachable pre ttl mx rf now st ->
  let p := sy_pool st in
  (forall d x, p_byDomain p !! d = Some x -> exists en, p_store p !! x = Some en /\
     e_domain en = d /\ p_byAddress p !! e_address en = Some x) /\
  (forall a x, p_byAddress p !! a = Some x -> exists en, p_store p !! x = Some en /\
     e_address en = a /\ p_byDomain p !! e_domain en = Some x) /\
  (forall d1 d2 a, assignment p !! d1 = Some a -> assignment p !! d2 = Some a -> d1 = d2) /\
  (forall d a, assignment p !! d = Some a -> Normalize d = Ok d /\
     prefix_contains (masked pre) a = true /\
     exists n, rf <= n < 2 ^ host_bits pre - 1 /\ addr_val a = network pre + n) /\
  Z.of_nat (size (p_byDomain p)) <= mx.
Proof.
  intros Hwf Hrf Hreach p. destruct (reachable_inv _ _ _ _ _ _ Hwf Hrf Hreach) as (six & Hsix & H0 & Hhi & Hsys).
  pose proof (si_pool _ _ _ _ Hsys) as Hinv. fold p in Hinv.
  destruct Hreach as (fresh & p0 & evs & Hnew & Hs & Hrun). destruct (newPool_facts _ _ _ _ _ Hwf Hrf Hnew) as [six' Hf].
  destruct (started_loaded _ _ _ _ _ _ _ Hwf Hf Hs) as (_ & _ & Hmx).
  pose proof (config_run _ _ _ Hrun) as Hcfg. injection Hcfg as _ _ _ Hmax. split_and!.
  - intros d x (en & (? & ? & ?) & <-)%(byDomain_live Hinv). eauto.
  - intros a x (en & (? & ? & ?) & <-)%(byAddress_live Hinv). eauto.
  - apply (assignment_injective Hinv).
  - intros d a (x & en & Hl & <- & <-)%(assignment_Some Hinv).
    pose proof (i_canonical _ _ _ _ Hinv x en Hl) as Hcan.
    destruct (i_range _ _ _ _ Hinv x en Hl) as (v & -> & Hv).
    assert (1 <= rf) by (revert Hnew; unfold newPool; intros H; inv_result; to_prop; lia).
    split_and!; [auto with tunproxy| |].
    + replace v with (network pre + (v - network pre)) by lia.
      apply block_contained; [done|apply (np_valid _ _ _ _ _ _ Hf)|done|lia].
    + exists (v - network pre). split; [lia|]. destruct six; cbn; lia.
  - pose proof (i_size _ _ _ _ Hinv) as Hsz. cbn [initial sy_pool] in Hmax.
    rewrite Hmx in Hmax. fold p in Hmax. lia.
Qed.

Lemma reachable_mappings_witness :
  match trial demo_prefix 100 2 1 0 [EvAllocate "a.com"; EvAllocate "B.com"] with
  | Some st => assignment (sy_pool st) !! "b.com" = Some (Addr4 0xC6120002) /\
      Z.of_nat (size (p_byDomain (sy_pool st))) <= 2
  | None => False
  end.
Proof.
  destruct (trial _ _ _ _ _ _) as [st|] eqn:Hst; [|vm_compute in Hst; discriminate]. split.
  - assert (Ha : (fun st => assignment (sy_pool st) !! "b.com") <$>
      trial demo_prefix 100 2 1 0 [EvAllocate "a.com"; EvAllocate "B.com"] = Some (Some (Addr4 0xC6120002)))
      by (vm_compute; reflexivity).
    rewrite Hst in Ha. cbn in Ha. congruence.
  - apply (reachable_mappings demo_prefix 100 2 1 0 st); [apply demo_prefix_wf|lia|].
    by eapply trial_reachable.
Defined.

(** C23: a flow reference protects its mapping.  As long as the release closure
    of an entry is outstanding, and unless the very allocation that created
    the entry was undone because it could not be persisted, the domain stays mapped to the address, no other
    domain gets the address, a lookup at any time returns the domain, and
    neither the domain nor the address of the entry ever changes. *)
Theorem held_mapping_stable pre ttl mx rf now st x :
  prefix_wf pre -> rf < 2 ^ 63 -> reachable pre ttl mx rf now st ->
  x ∈ sy_handles st -> x ∉ sy_undone st ->
  exists d a, assignment (sy_pool st) !! d = Some a /\
    (forall d', assignment (sy_pool st) !! d' = Some a -> d' = d) /\
    (forall now', Lookup a now' (sy_pool st) = (sy_pool st, Some d)) /\
    forall evs st', run evs st = Some st' -> x ∈ sy_handles st' -> x ∉ sy_undone st' ->
      assignment (sy_pool st') !! d = Some a.
Proof.
  intros Hwf Hrf Hreach Hx Hun. destruct (reachable_inv _ _ _ _ _ _ Hwf Hrf Hreach) as (six & _ & _ & _ & Hsys).
  pose proof (si_pool _ _ _ _ Hsys) as Hinv. destruct (si_held _ _ _ _ Hsys x Hx Hun) as [en Hl].
  exists (e_domain en), (e_address en).
  assert (Ha : assignment (sy_pool st) !! e_domain en = Some (e_address en)).
  { apply (assignment_Some Hinv). eauto. }
  split_and!.
  - done.
  - intros d' Hd'. by apply (assignment_injective Hinv _ _ _ Hd').
  - intros now'. unfold Lookup. destruct Hl as (Hst & Hbd & Hba). rewrite Hba. cbn. rewrite Hst. cbn.
    rewrite not_expired; [done|]. rewrite (si_refs _ _ _ _ Hsys _ _ Hst). apply count_pos in Hx. lia.
  - intros evs st' Hrun Hx' Hun'. pose proof (run_inv _ _ _ Hsys Hrun) as Hsys'.
    destruct (si_held _ _ _ _ Hsys' x Hx' Hun') as [en' Hl'].
    destruct Hl as (Hst & _). destruct (stable_run _ _ _ Hsys Hrun x en Hst) as (en1 & Hst1 & Hd1 & Ha1).
    apply (assignment_Some (si_pool _ _ _ _ Hsys')). exists x, en'.
    pose proof Hl' as (Hst' & _). rewrite Hst1 in Hst'. injection Hst' as <-. done.
Qed.


Lemma held_mapping_stable_witness :
  match trial demo_prefix 100 2 1 0 [EvAllocate "a.com"; EvAcquire (Addr4 0xC6120001); EvTime 500; EvPrune] with
  | Some st => exists d a, assignment (sy_pool st) !! d = Some a /\
    (forall d', assignment (sy_pool st) !! d' = Some a -> d' = d) /\
    (forall now', Lookup a now' (sy_pool st) = (sy_pool st, Some d)) /\
    forall evs st', run evs st = Some st' -> 0%N ∈ sy_handles st' -> 0%N ∉ sy_undone st' ->
      assignment (sy_pool st') !! d = Some a
  | None => False
  end.
Proof.
  destruct (trial _ _ _ _ _ _) as [st|] eqn:Hst; [|vm_compute in Hst; discriminate].
  assert (Ha : (fun st => (sy_handles st, sy_undone st)) <$>
    trial demo_prefix 100 2 1 0 [EvAllocate "a.com"; EvAcquire (Addr4 0xC6120001); EvTime 500; EvPrune] =
    Some ([0%N], ∅)) by (vm_compute; reflexivity).
  rewrite Hst in Ha. injection Ha as Hh Hu.
  apply (held_mapping_stable demo_prefix 100 2 1 0 st 0%N); [apply demo_prefix_wf|lia| |rewrite Hh; left|rewrite Hu; set_solver].
  by eapply trial_reachable.
Defined.

(** The exception of the undone allocation is real.  While the allocation of a mapping is
    being persisted, a flow can acquire its address; when the persistence call
    then fails, the entry is removed in spite of the reference, and the address
    is later given to another domain while the first flow still holds it. *)
Theorem undone_allocation_breaks_a_held_mapping :
  exists evs st, trial demo_prefix 100 2 1 0 evs = Some st /\
    exists x y ex ey, x ∈ sy_handles st /\ y ∈ sy_handles st /\
      p_store (sy_pool st) !! x = Some ex /\ p_store (sy_pool st) !! y = Some ey /\
      e_domain ex <> e_domain ey /\ e_address ex = e_address ey /\
      0 < e_references ex /\ assignment (sy_pool st) !! e_domain ex = None /\
      assignment (sy_pool st) !! e_domain ey = Some (e_address ey).
Proof.
  exists [EvSetPersistence; EvAllocate "a.com"; EvAcquire (Addr4 0xC6120001); EvPersisted false;
          EvAllocate "b.com"; EvPersisted true; EvAllocate "c.com"; EvPersisted true;
          EvTime 200; EvAllocate "d.com"; EvPersisted true; EvAllocate "e.com"; EvPersisted true;
          EvTime 400; EvAllocate "f.com"; EvPersisted true; EvAllocate "g.com"; EvPersisted true;
          EvAcquire (Addr4 0xC6120001)].
  eexists. split; [vm_compute; reflexivity|].
  exists 0%N, 6%N, (MkEntry "a.com" (Addr4 0xC6120001) 100 1), (MkEntry "g.com" (Addr4 0xC6120001) 500 1).
  split_and!; try (vm_compute; reflexivity); try done; sys_fields; [right; left|left].
Qed.

(** [Stats] counts the flows: in a state where no allocation was undone,
    [References] is the number of release closures that did not run yet,
    [Used] the number of mappings and [Active] the number of held ones. *)
Theorem stats_count_references pre ttl mx rf now st :
  prefix_wf pre -> rf < 2 ^ 63 -> reachable pre ttl mx rf now st -> sy_undone st = ∅ ->
  st_References (stats (sy_pool st)) = Z.of_nat (length (sy_handles st)) /\
  st_Used (stats (sy_pool st)) = Z.of_nat (size (assignment (sy_pool st))) /\
  st_Active (stats (sy_pool st)) = Z.of_nat (size (list_to_set (C := gset ptr) (sy_handles st))).
Proof.
  intros Hwf Hrf Hreach Hun. destruct (reachable_inv _ _ _ _ _ _ Hwf Hrf Hreach) as (six & _ & _ & _ & Hsys).
  destruct (stats_facts _ _ _ _ Hsys Hun) as (Hsum & Hact & Hpos).
  pose proof (si_bound _ _ _ _ Hsys) as Hb. unfold stats. cbn [st_References st_Used st_Active]. split_and!.
  - rewrite held_total; [lia|done|lia|lia|lia].
  - by rewrite (assignment_size _ _ _ _ (si_pool _ _ _ _ Hsys)).
  - by rewrite Hact.
Qed.

Lemma stats_count_references_witness :
  match trial demo_prefix 100 2 1 0
    [EvAllocate "a.com"; EvAcquire (Addr4 0xC6120001); EvAcquire (Addr4 0xC6120001); EvRelease 0%N] with
  | Some st => st_References (stats (sy_pool st)) = Z.of_nat (length (sy_handles st)) /\
      st_Used (stats (sy_pool st)) = Z.of_nat (size (assignment (sy_pool st))) /\
      st_Active (stats (sy_pool st)) = Z.of_nat (size (list_to_set (C := gset ptr) (sy_handles st)))
  | None => False
  end.
Proof.
  destruct (trial _ _ _ _ _ _) as [st|] eqn:Hst; [|vm_compute in Hst; discriminate].
  assert (Ha : sy_undone <$> trial demo_prefix 100 2 1 0
    [EvAllocate "a.com"; EvAcquire (Addr4 0xC6120001); EvAcquire (Addr4 0xC6120001); EvRelease 0%N] = Some ∅)
    by (vm_compute; reflexivity).
  rewrite Hst in Ha. injection Ha as Hu.
  apply (stats_count_references demo_prefix 100 2 1 0 st); [apply demo_prefix_wf|lia| |done].
  by eapply trial_reachable.
Defined.

(** What an allocation does, on every branch. *)
Lemma GetOrAllocate_facts p six s e persist domain now :
  pool_inv p six s e ->
  match Normalize domain with
  | Err er => GetOrAllocate persist domain now p = (p, Err (BadDomainName er))
  | Ok d => exists persisted, (p_persist p = false -> persisted = true) /\
      alloc_spec p six s e persisted d now (view p)
        (view (GetOrAllocate persist domain now p).1) (GetOrAllocate persist domain now p).2 /\
      pool_inv (GetOrAllocate persist domain now p).1 six s e
  end.
Proof.
  intros Hinv. destruct (Normalize domain) as [d|er] eqn:Hd; [|unfold GetOrAllocate, alloc_begin; by rewrite Hd].
  pose proof (alloc_begin_spec _ _ _ _ domain d now Hinv Hd) as Hb.
  pose proof (alloc_begin_inv _ _ _ _ domain now Hinv) as Hinv1. apply Normalize_canonical in Hd.
  unfold GetOrAllocate. destruct (alloc_begin domain now p) as [p1 r]. cbn [fst snd] in *.
  destruct Hb as [x en Hl He|Hv Hsize|v w x p2 r Hv Hs Hvr Hwr Hfree Hins Hr].
  - exists true. split_and!; [done| |done]. eapply SpecRenew.
    + apply (view_Some Hinv). eauto.
    + subst d. pose proof (i_refs _ _ _ _ Hinv x en (proj1 Hl)).
      by apply (view_store_entry _ _ _ _ _ _ _ Hinv Hl).
  - exists true. split_and!; [done| |done]. apply SpecExhausted; [done| |done].
    cbn. apply (view_prune now _ _ _ _ Hinv).
  - destruct (begin_insert _ _ _ _ _ _ _ _ _ _ Hinv Hd Hv Hs Hvr Hwr Hfree Hins) as (_ & Hl & _ & _ & Hview).
    assert (Hfresh : forall d' en, unexpired now (view p) !! d' = Some en -> e_address en <> fam six v).
    { rewrite <- (view_prune now _ _ _ _ Hinv). intros d' en Hen Heq.
      apply (view_Some (proj1 (pruneLocked_spec now _ _ _ _ Hinv))) in Hen as (y & (_ & _ & Hy) & _).
      rewrite Heq in Hy. congruence. }
    assert (Hnone : unexpired now (view p) !! d = None).
    { apply eq_None_not_Some. intros [en [Hen _]%unexpired_Some]. congruence. }
    destruct (p_persist p) eqn:Hper; subst r; cbv zeta iota; cbn [pa_update].
    + match goal with |- context [persist ?u] => destruct (persist u) end; unfold alloc_finish; cbn [fst snd pa_ptr pa_domain pa_candidate pa_removed].
      * exists true. split_and!; [done| |by apply drop_pending_inv]. eapply SpecNew; eauto.
      * exists false. destruct Hl as (Hst & Hbd & Hba). cbn in Hbd. rewrite bool_decide_eq_true_2 by done.
        assert (Hl : live p2 x (MkEntry d (fam six v) (now + p_mappingTTL p) 0)) by done.
        split_and!; [done| |].
        -- apply SpecNotPersisted; try done. by eapply undo_insert.
        -- eapply removes_inv; [done|]. by eapply deleteUntracked_removes.
    + exists true. split_and!; [done| |done]. cbn [fst snd]. eapply SpecNew; eauto.
Qed.

(** The contract of an allocation, on every branch.  A domain that is no
    name is refused and the pool is unchanged.  A mapped domain keeps its
    address and is renewed.  Otherwise the expired mappings without references
    go away first: when the remaining ones reach the limit the answer is
    [ErrExhausted]; else the loop always finds an address that none of them
    uses, and the domain gets it, unless it could not be persisted, in which
    case the content is that after the prune. *)
Theorem get_or_allocate_contract p six s e persist domain now :
  pool_inv p six s e ->
  match Normalize domain with
  | Err er => GetOrAllocate persist domain now p = (p, Err (BadDomainName er))
  | Ok d => exists persisted, (p_persist p = false -> persisted = true) /\
      alloc_spec p six s e persisted d now (view p)
        (view (GetOrAllocate persist domain now p).1) (GetOrAllocate persist domain now p).2 /\
      pool_inv (GetOrAllocate persist domain now p).1 six s e
  end.
Proof. apply GetOrAllocate_facts. Qed.

Lemma get_or_allocate_contract_witness :
  match newPool demo_prefix 100 2 1 with
  | Ok p => match Normalize "A.com" with
            | Err er => GetOrAllocate (fun _ => true) "A.com" 0 p = (p, Err (BadDomainName er))
            | Ok d => exists persisted, (p_persist p = false -> persisted = true) /\
      alloc_spec p false 0xC6120001 0xC6120007 persisted d 0 (view p)
        (view (GetOrAllocate (fun _ => true) "A.com" 0 p).1) (GetOrAllocate (fun _ => true) "A.com" 0 p).2 /\
      pool_inv (GetOrAllocate (fun _ => true) "A.com" 0 p).1 false 0xC6120001 0xC6120007
            end
  | Err _ => False
  end.
Proof.
  destruct (newPool demo_prefix 100 2 1) as [p|er] eqn:Hp; [|vm_compute in Hp; discriminate].
  apply (get_or_allocate_contract p false 0xC6120001 0xC6120007 (fun _ => true) "A.com" 0).
  by apply demo_pool_inv.
Defined.

(** What a lookup finds and removes. *)
Lemma Lookup_facts p six s e a now :
  pool_inv p six s e ->
  (forall d, (Lookup a now p).2 = Some d <->
     exists en, view p !! d = Some en /\ e_address en = a /\ expired now en = false) /\
  view (Lookup a now p).1 = filter (fun de => ~ (e_address de.2 = a /\ expired now de.2 = true)) (view p).
Proof.
  intros Hinv. unfold Lookup. destruct (byAddress_entry p a Hinv) as [Hnone|(x & en & Hl & Ha & ->)].
  - assert (Hno : forall d en, view p !! d = Some en -> e_address en <> a).
    { intros d en (x & (Hst & _ & Hba) & _)%(view_Some Hinv) <-. rewrite Hba in Hnone. cbn in Hnone.
      by rewrite Hst in Hnone. }
    rewrite Hnone. cbn [fst snd]. split; [naive_solver|].
    symmetry. apply map_filter_id. intros d en Hen [Heq _]. by apply (Hno d en).
  - assert (Hv : view p !! e_domain en = Some en) by (apply (view_Some Hinv); eauto).
    assert (Hone : forall d en', view p !! d = Some en' -> e_address en' = a -> d = e_domain en /\ en' = en).
    { intros d en' (y & Hy & <-)%(view_Some Hinv) Ha'.
      assert (y = x) as -> by (eapply live_address_inj; [exact Hy|exact Hl|congruence]).
      by rewrite (live_det x en' en Hy Hl). }
    destruct (expired now en) eqn:Hexp; cbn [fst snd]; (split; [split|]).
    + done.
    + intros (en' & Hen' & Ha' & Hexp'). destruct (Hone _ _ Hen' Ha') as [-> ->]. congruence.
    + rewrite (view_delete _ _ _ _ _ _ _ Hinv Hl (deleteLocked_removes _ _ _ _ _ _ Hinv Hl)).
      apply map_eq. intros d. apply option_eq. intros en'.
      rewrite lookup_delete_Some, map_lookup_filter_Some. cbn [snd]. split.
      * intros [Hne Hen']. split; [done|]. intros [Ha' _]. by destruct (Hone _ _ Hen' Ha') as [-> _].
      * intros [Hen' Hno]. split; [|done]. intros <-. rewrite Hv in Hen'. injection Hen' as <-. auto.
    + intros [= <-]. eauto.
    + intros (en' & Hen' & Ha' & _). by destruct (Hone _ _ Hen' Ha') as [-> _].
    + symmetry. apply map_filter_id. intros d en' Hen' [Ha' Hexp'].
      destruct (Hone _ _ Hen' Ha') as [_ ->]. cbn in Hexp'. congruence.
Qed.

(** A lookup answers with the domain of the live mapping of an address.
    It finds a mapping exactly when one exists that has not expired or is held,
    it changes nothing then, and otherwise it removes at most the expired
    mapping of that address. *)
Theorem lookup_contract p six s e a now :
  pool_inv p six s e ->
  (forall d, (Lookup a now p).2 = Some d <->
     exists en, view p !! d = Some en /\ e_address en = a /\ expired now en = false) /\
  view (Lookup a now p).1 = filter (fun de => ~ (e_address de.2 = a /\ expired now de.2 = true)) (view p).
Proof. apply Lookup_facts. Qed.

Lemma lookup_contract_witness :
  match newPool demo_prefix 100 2 1 with
  | Ok p => (forall d, (Lookup (Addr4 5) 0 p).2 = Some d <->
        exists en, view p !! d = Some en /\ e_address en = Addr4 5 /\ expired 0 en = false) /\
      view (Lookup (Addr4 5) 0 p).1 =
        filter (fun de => ~ (e_address de.2 = Addr4 5 /\ expired 0 de.2 = true)) (view p)
  | Err _ => False
  end.
Proof.
  destruct (newPool demo_prefix 100 2 1) as [p|er] eqn:Hp; [|vm_compute in Hp; discriminate].
  apply (lookup_contract p false 0xC6120001 0xC6120007).
  by apply demo_pool_inv.
Defined.

(** The order in which Go iterates the map of domains does not change
    what a prune leaves: any two orders of the same mappings give the same
    pool, counters and pending deletions included, and the content is that of
    the mappings which have not expired or are held. *)
Theorem prune_order_irrelevant p six s e now order :
  pool_inv p six s e -> order ≡ₚ mapped p ->
  prune_in_order order now p = pruneLocked now p /\
  view (prune_in_order order now p) = unexpired now (view p) /\
  (Prune now p).2 = Z.of_nat (size (view p)) - Z.of_nat (size (unexpired now (view p))).
Proof.
  intros Hinv Hperm.
  assert (Heq : prune_in_order order now p = pruneLocked now p).
  { apply fold_left_Permutation; [|done]. intros. apply prune_one_comm. }
  pose proof (proj1 (pruneLocked_spec now _ _ _ _ Hinv)) as Hinv'.
  rewrite Heq, (view_prune now _ _ _ _ Hinv). split_and!; [done|done|]. cbn.
  by rewrite <- (view_prune now _ _ _ _ Hinv), (view_size Hinv), (view_size Hinv').
Qed.

Lemma prune_order_irrelevant_witness :
  match newPool demo_prefix 100 2 1 with
  | Ok p => prune_in_order [] 7 p = pruneLocked 7 p /\
      view (prune_in_order [] 7 p) = unexpired 7 (view p) /\
      (Prune 7 p).2 = Z.of_nat (size (view p)) - Z.of_nat (size (unexpired 7 (view p)))
  | Err _ => False
  end.
Proof.
  destruct (newPool demo_prefix 100 2 1) as [p|er] eqn:Hp; [|vm_compute in Hp; discriminate].
  destruct (demo_pool_inv p Hp) as [Hinv Hempty].
  apply (prune_order_irrelevant p false 0xC6120001 0xC6120007); [done|].
  unfold mapped. by rewrite Hempty.
Defined.
