(* ===== verification/FakeIPFiles.v ===== *)
(** * Component [internal/fakeip], the files

    The snapshot file and the write-ahead journal: reading and validating
    them, appending one record, checkpointing, quarantining what is corrupt,
    and [OpenPersistence] on top.  JSON and YAML are parameters: an encoder
    and a strict decoder of one record and of one snapshot. *)

From S2P Require Import Prelude.
From S2P Require Import GoStrings.
From S2P Require Import GoFiles.
From S2P Require Import NetIP.
From S2P Require Import FakeIPPool.
From S2P Require Import FakeIPRestore.

Definition maxPersistenceSize : Z := Z.shiftl 16 20.
Definition maxJournalRecordSize : Z := Z.shiftl 4 10.

Inductive file_error : Type :=
| PathNotClean
| NegativeWindow
| StatError
| NotRegularFile
| BadPermissions
| NotOwned
| Corrupt
| OpenError
| WriteError
| SyncError
| CloseError
| RenameError
| RemoveError
| EntropyError
| QuarantineError
| JoinErrors (a b : file_error).

#[export] Instance file_error_eq_dec : EqDecision file_error.
Proof. solve_decision. Defined.

(** [Persistence]; the pool is passed along. *)
Record Persistence : Type := MkPersistence {
  pe_path : string;
  pe_journalPath : string;
  pe_journalEpoch : string
}.

Definition with_epoch (epoch : string) (sn : Snapshot) : Snapshot :=
  MkSnapshot (sn_Version sn) (sn_Prefix sn) (sn_SavedAt sn) epoch (sn_Mappings sn).

Section files.
(** [json.Marshal] of a record, the strict decoder of one line, the YAML
    encoder of a snapshot and its strict decoder. *)
Context (marshal : journalRecord -> string) (unmarshal : string -> option journalRecord).
Context (yaml_encode : Snapshot -> string) (yaml_decode : string -> option Snapshot).

(** [syncDirectory] *)
Definition syncDirectory (path : string) : IO file_error unit :=
  do! _ := io_check plain_call OpenError in
  io_check plain_call SyncError.

(** [validateTarget] *)
Definition validateTarget (path : string) : IO file_error unit :=
  do! info := io_get (lstat path) in
  match info with
  | NotExist => io_return tt
  | StatFailed => io_fail StatError
  | Info i => if bool_decide (in_kind i = Regular) then io_return tt else io_fail NotRegularFile
  end.

(** [quarantine] *)
Definition quarantine (path : string) : IO file_error string :=
  do! stamp := io_get next_stamp in
  let target := path +:+ ".corrupt-" +:+ stamp in
  do! _ := io_check (rename path target) RenameError in
  io_return target.

(** [newJournalEpoch] *)
Definition newJournalEpoch : IO file_error string :=
  do! r := io_get read_random in
  match r with Some epoch => io_return epoch | None => io_fail EntropyError end.

(** [joinQuarantinePaths] *)
Definition joinQuarantinePaths (left right : string) : string :=
  if bool_decide (left = "") then right
  else if bool_decide (right = "") then left
  else left +:+ ", " +:+ right.

(** [writeAll]; [fuel] exceeds the number of bytes, and every round writes at
    least one. *)
Fixpoint writeAll (fuel : nat) (path contents : string) : IO file_error unit :=
  match fuel with
  | O => io_return tt
  | S fuel' => fun w =>
      if bool_decide (contents = "") then (Ok tt, w)
      else
        let '(written, ok, w) := write_end path contents w in
        if negb ok then (Err WriteError, w)
        else if (written =? 0)%nat then (Err WriteError, w)
        else writeAll fuel' path (sdrop written contents) w
  end.

(** The checks that [readSnapshot] and [inspectJournal] share. *)
Definition inspect (path : string) : IO file_error (option inode) :=
  do! info := io_get (lstat path) in
  match info with
  | NotExist => io_return None
  | StatFailed => io_fail StatError
  | Info i =>
      if negb (bool_decide (in_kind i = Regular)) then io_fail NotRegularFile
      else if negb (Z.land (in_perm i) 63 =? 0) then io_fail BadPermissions
      else fun w =>
        if negb (in_uid i =? w_euid w) then (Err NotOwned, w)
        else if maxPersistenceSize <? slen (in_data i) then (Err Corrupt, w)
        else (Ok (Some i), w)
  end.

(** [inspectJournal]: existence and size. *)
Definition inspectJournal (path : string) : IO file_error (bool * Z) :=
  do! i := inspect path in
  io_return (match i with None => (false, 0) | Some i => (true, slen (in_data i)) end).

(** [readSnapshot]; a snapshot that does not decode is [Corrupt]. *)
Definition readSnapshot (path : string) : IO file_error (option Snapshot) :=
  do! i := inspect path in
  match i with
  | None => io_return None
  | Some _ =>
      do! contents := io_get (read_file path) in
      match contents with
      | None => io_fail OpenError
      | Some contents =>
          match yaml_decode contents with
          | Some sn => io_return (Some sn)
          | None => io_fail Corrupt
          end
      end
  end.

(** The loop over the lines of the journal: the records so far and whether a
    line was corrupt. *)
Fixpoint read_lines (lines : list string) (records : list journalRecord) : list journalRecord * bool :=
  match lines with
  | [] => (records, false)
  | line :: lines' =>
      if bool_decide (line = "") || (maxJournalRecordSize <? slen line + 1) then (records, true)
      else match unmarshal line with
           | None => (records, true)
           | Some r => read_lines lines' (records ++ [r])
           end
  end.

(** The complete lines of the contents, and whether an incomplete record
    follows them. *)
Definition complete_lines (contents : string) : list string * bool :=
  match cut_last "010" contents with
  | None => ([], negb (bool_decide (contents = "")))
  | Some (before, tail) => (split_on "010" before, negb (bool_decide (tail = "")))
  end.

(** [readJournal]: the records that could be read, and an error. *)
Definition readJournal (path : string) : world -> (list journalRecord * option file_error) * world := fun w =>
  match inspectJournal path w with
  | (Err e, w) => (([], Some e), w)
  | (Ok (false, _), w) => (([], None), w)
  | (Ok (true, size), w) =>
      match read_file path w with
      | (None, w) => (([], Some OpenError), w)
      | (Some contents, w) =>
          if negb (slen contents =? size) then (([], Some Corrupt), w)
          else
            let '(lines, torn) := complete_lines contents in
            let '(records, bad) := read_lines lines [] in
            ((records, if bad || torn then Some Corrupt else None), w)
      end
  end.

(** [writeSnapshot]: a temporary file that replaces the snapshot. *)
Definition writeSnapshot (pe : Persistence) (sn : Snapshot) : IO file_error unit :=
  do! _ := validateTarget (pe_path pe) in
  do! created := io_get (create_temp (dir (pe_path pe) +:+ "/.tun-proxy-fake-ip-")) in
  do! temporary := (match created with Some t => io_return t | None => io_fail OpenError end) in
  let contents := yaml_encode sn in
  do! _ := io_on_error
    (do! _ := io_check plain_call OpenError in
     do! _ := writeAll (S (String.length contents)) temporary contents in
     do! _ := io_check plain_call SyncError in
     do! _ := io_check plain_call CloseError in
     io_check (rename temporary (pe_path pe)) RenameError)
    (io_ignore (fun w => let '(ok, _, w) := remove temporary w in (ok, w))) in
  syncDirectory (dir (pe_path pe)).

(** [clearJournal] *)
Definition clearJournal (pe : Persistence) : IO file_error unit :=
  do! _ := validateTarget (pe_journalPath pe) in
  do! r := io_get (fun w => let '(ok, missing, w) := remove (pe_journalPath pe) w in ((ok, missing), w)) in
  let '(ok, missing) := r in
  if missing then io_return tt
  else if ok then syncDirectory (dir (pe_journalPath pe))
  else io_fail RemoveError.

(** [checkpoint]: the epoch changes as soon as the new snapshot is in place,
    before the old journal is removed.  The persistence object is returned in
    either case. *)
Definition checkpoint (pe : Persistence) (sn : Snapshot) : world -> (Persistence * result file_error unit) * world := fun w =>
  match newJournalEpoch w with
  | (Err e, w) => ((pe, Err e), w)
  | (Ok epoch, w) =>
      match writeSnapshot pe (with_epoch epoch sn) w with
      | (Err e, w) => ((pe, Err e), w)
      | (Ok _, w) =>
          let pe := MkPersistence (pe_path pe) (pe_journalPath pe) epoch in
          let '(r, w) := clearJournal pe w in ((pe, r), w)
      end
  end.

(** The append of [record] behind the size checks. *)
Definition append_record (pe : Persistence) (exists_ : bool) (size : Z) (line : string) : IO file_error unit :=
  let path := pe_journalPath pe in
  let rollback : IO file_error unit :=
    do! _ := io_ignore (truncate path (Z.to_nat size)) in io_ignore plain_call in
  let close := io_ignore plain_call in
  do! _ := io_check (open_append path) OpenError in
  do! _ := (if exists_ then io_return tt
             else io_on_error (io_check plain_call OpenError) close) in
  do! _ := io_on_error (writeAll (S (String.length line)) path line)
              (do! _ := rollback in close) in
  do! _ := io_on_error (io_check plain_call SyncError) (do! _ := rollback in close) in
  do! _ := io_check plain_call CloseError in
  if exists_ then io_return tt else syncDirectory (dir path).

(** [record]; [snapshot] is the snapshot it takes when the journal is full. *)
Definition record (pe : Persistence) (prefix : string) (u : persistenceUpdate) (snapshot : Snapshot)
    : world -> (Persistence * result file_error unit) * world := fun w =>
  let r := MkRecord persistenceVersion prefix (pe_journalEpoch pe) (u_RecordedAt u) (u_Removed u) (u_Mapping u) in
  let encoded := marshal r in
  if maxJournalRecordSize <? slen encoded + 1 then checkpoint pe snapshot w
  else
    match inspectJournal (pe_journalPath pe) w with
    | (Err e, w) => ((pe, Err e), w)
    | (Ok (exists_, size), w) =>
        if maxPersistenceSize <? size + (slen encoded + 1) then checkpoint pe snapshot w
        else let '(r, w) := append_record pe exists_ size (encoded +:+ String "010" "") w in ((pe, r), w)
    end.

Definition is_corrupt (e : file_error) : bool := match e with Corrupt => true | _ => false end.

(** The part of [OpenPersistence] that restores the snapshot: the pool, the
    snapshot when it is in use, and the quarantined path. *)
Definition open_snapshot (path : string) (window now : Z) (p : Pool)
    : IO file_error (Pool * option Snapshot * string) := fun w =>
  match readSnapshot path w with
  | (Err e, w) =>
      if is_corrupt e then
        match quarantine path w with
        | (Ok q, w) => (Ok (p, None, q), w)
        | (Err qe, w) => (Err (JoinErrors e qe), w)
        end
      else (Err e, w)
  | (Ok None, w) => (Ok (p, None, ""), w)
  | (Ok (Some sn), w) =>
      match restore sn window now p with
      | Ok p' => (Ok (p', Some sn, ""), w)
      | Err _ =>
          match quarantine path w with
          | (Ok q, w) => (Ok (p, None, q), w)
          | (Err qe, w) => (Err (JoinErrors Corrupt qe), w)
          end
      end
  end.

(** The part that replays the journal: the pool, the epoch ("" when a new one
    is needed), whether a checkpoint is due, and the quarantined paths. *)
Definition open_journal (path : string) (sn : option Snapshot) (quarantined : string)
    (window now : Z) (p : Pool) : IO file_error (Pool * string * bool * string) := fun w =>
  match readJournal path w with
  | ((records, err), w) =>
      let read_result : result file_error (string * bool) * world :=
        match err with
        | None => (Ok (quarantined, false), w)
        | Some e =>
            if is_corrupt e then
              match quarantine path w with
              | (Ok q, w) => (Ok (joinQuarantinePaths quarantined q, true), w)
              | (Err qe, w) => (Err (JoinErrors e qe), w)
              end
            else (Err e, w)
        end in
      match read_result with
      | (Err e, w) => (Err e, w)
      | (Ok (quarantined, journalQuarantined), w) =>
          let replayed : result restore_error (Pool * string) :=
            let! r := activeJournalRecords records sn (prefix_text (p_prefix p)) in
            let '(active, epoch) := r in
            if bool_decide (active = []) then Ok (p, epoch)
            else let! p := restoreJournal (update_of <$> active) window now p in Ok (p, epoch) in
          match replayed with
          | Ok (p, epoch) => (Ok (p, epoch, journalQuarantined, quarantined), w)
          | Err _ =>
              if journalQuarantined then (Ok (p, "", true, quarantined), w)
              else match quarantine path w with
                   | (Ok q, w) => (Ok (p, "", true, joinQuarantinePaths quarantined q), w)
                   | (Err qe, w) => (Err (JoinErrors Corrupt qe), w)
                   end
          end
      end
  end.

(** [OpenPersistence] *)
Definition OpenPersistence (path : string) (window now : Z) (p : Pool)
    : IO file_error (Persistence * Pool * string) :=
  if bool_decide (path = "") || negb (is_abs path) || negb (bool_decide (clean path = path))
  then io_fail PathNotClean
  else if window <? 0 then io_fail NegativeWindow
  else
    let journalPath := path +:+ ".wal" in
    do! opened := open_snapshot path window now p in
    let '(p, sn, quarantined) := opened in
    do! replayed := open_journal journalPath sn quarantined window now p in
    let '(p, epoch, due, quarantined) := replayed in
    do! epoch := (if bool_decide (epoch = "") then newJournalEpoch else io_return epoch) in
    let pe := MkPersistence path journalPath epoch in
    do! pe := (if bool_decide (sn = None) || due
               then fun w => match checkpoint pe (snapshotLocked now p) w with
                             | ((pe, Ok _), w) => (Ok pe, w)
                             | ((_, Err e), w) => (Err e, w)
                             end
               else io_return pe) in
    io_return (pe, setPersistence p, quarantined).

(** The checks of [ClearPersistence]: the targets that exist. *)
Fixpoint clear_targets (targets : list string) : IO file_error (list string) :=
  match targets with
  | [] => io_return []
  | target :: targets' =>
      do! info := io_get (lstat target) in
      match info with
      | NotExist => clear_targets targets'
      | StatFailed => io_fail StatError
      | Info i =>
          if bool_decide (in_kind i = Regular)
          then do! rest := clear_targets targets' in io_return (target :: rest)
          else io_fail NotRegularFile
      end
  end.

(** Removes the targets until one fails: those removed, and success. *)
Fixpoint remove_targets (targets removed : list string) (w : world) : list string * bool * world :=
  match targets with
  | [] => (removed, true, w)
  | target :: targets' =>
      let '(ok, _, w) := remove target w in
      if ok then remove_targets targets' (removed ++ [target]) w else (removed, false, w)
  end.

(** [ClearPersistence]: the removed paths and the joined error. *)
Definition ClearPersistence (path : string) (w : world) : (list string * option file_error) * world :=
  if bool_decide (path = "") || negb (is_abs path) || negb (bool_decide (clean path = path))
  then (([], Some PathNotClean), w)
  else
    match clear_targets [path; path +:+ ".wal"] w with
    | (Err e, w) => (([], Some e), w)
    | (Ok [], w) => (([], None), w)
    | (Ok existing, w) =>
        let '(removed, ok, w) := remove_targets existing [] w in
        let '(sync, w) := if bool_decide (removed = []) then (Ok tt, w) else syncDirectory (dir path) w in
        ((removed, match ok, sync with
                   | true, Ok _ => None
                   | true, Err e => Some e
                   | false, Ok _ => Some RemoveError
                   | false, Err e => Some (JoinErrors RemoveError e)
                   end), w)
    end.
End files.
