(* ===== verification/FakeIPFilesFacts.v ===== *)
(** * The files of the address pool: properties

    The journal is append-only text that reads back as the records written,
    a torn last record does not lose the earlier ones, and opening the files
    restores the pool from the snapshot and the records of its epoch. *)

From S2P Require Import Prelude.
From S2P Require Import GoStrings.
From S2P Require Import GoFiles.
From S2P Require Import NetIP.
From S2P Require Import FakeIPPool.
From S2P Require Import FakeIPRestore.
From S2P Require Import FakeIPFiles.

Definition newline : ascii := "010".

Definition no_newline (s : string) : Prop := sforall (fun c => negb (Ascii.eqb c newline)) s = true.

(** ** Lines *)

Lemma cut_last_none c s : sforall (fun d => negb (Ascii.eqb d c)) s = true -> cut_last c s = None.
Proof.
  induction s as [|d s IH]; [done|]. cbn. rewrite andb_true_iff, negb_true_iff. intros [Hd Hs].
  by rewrite IH, Hd.
Qed.

Lemma cut_last_app c s t :
  sforall (fun d => negb (Ascii.eqb d c)) t = true -> cut_last c (s +:+ String c t) = Some (s, t).
Proof.
  intros Ht. induction s as [|d s IH].
  - rewrite sapp_nil_l. cbn. by rewrite cut_last_none, Ascii.eqb_refl.
  - rewrite sapp_cons. cbn. by rewrite IH.
Qed.

Lemma split_on_single c s : sforall (fun d => negb (Ascii.eqb d c)) s = true -> split_on c s = [s].
Proof.
  induction s as [|d s IH]; [done|]. cbn. rewrite andb_true_iff, negb_true_iff. intros [-> Hs].
  by rewrite IH.
Qed.

Lemma split_on_join c ws :
  ws <> [] -> Forall (fun s => sforall (fun d => negb (Ascii.eqb d c)) s = true) ws ->
  split_on c (string_join (String c "") ws) = ws.
Proof.
  intros Hne Hall. induction Hall as [|s ws Hs Hall IH]; [done|]. destruct ws as [|s' ws].
  - cbn. by apply split_on_single.
  - rewrite string_join_cons by done. rewrite sapp_cons, sapp_nil_l, split_on_app.
    rewrite split_on_single by done. cbn [app]. f_equal. by apply IH.
Qed.

(** ** Appending under arbitrary outcomes *)

(** Only the file [path] differs from [w0], and its contents are [d +:+ t]. *)
Record holds (w0 w : world) (path d t : string) : Prop := {
  ho_file : exists i, w_fs w !! path = Some i /\ in_kind i = Regular /\ Z.land (in_perm i) 63 = 0 /\
    in_uid i = w_euid w /\ in_data i = d +:+ t;
  ho_others : forall q, q <> path -> w_fs w !! q = w_fs w0 !! q;
  ho_euid : w_euid w = w_euid w0
}.

Lemma stake_stake_sdrop n k s : stake n s +:+ stake k (sdrop n s) = stake (n + k) s.
Proof.
  revert s. induction n as [|n IH]; intros s; [done|]. destruct s as [|c s]; cbn; [by destruct k|].
  by rewrite sapp_cons, IH.
Qed.

Lemma stake_min s n : stake (Nat.min n (String.length s)) s = stake n s.
Proof. revert n. induction s as [|c s IH]; intros [|n]; cbn; try done. by rewrite IH. Qed.

Lemma sdrop_length n s : String.length (sdrop n s) = (String.length s - n)%nat.
Proof. revert s. induction n as [|n IH]; intros s; [cbn; lia|]. destruct s as [|c s]; cbn; [lia|]. apply IH. Qed.

Lemma next_outcome_files w o w' : next_outcome w = (o, w') -> w_fs w' = w_fs w /\ w_euid w' = w_euid w.
Proof. unfold next_outcome. destruct (w_outcomes w); by intros [= <- <-]. Qed.

Section append.
Context (w0 : world) (path d : string).

Lemma holds_next w o w' t : next_outcome w = (o, w') -> holds w0 w path d t -> holds w0 w' path d t.
Proof.
  intros Hn [Hf Ho He]. destruct (next_outcome_files _ _ _ Hn) as [Hfs Heu].
  split; rewrite ?Hfs, ?Heu; done.
Qed.

Lemma holds_plain w ok w' t : plain_call w = (ok, w') -> holds w0 w path d t -> holds w0 w' path d t.
Proof.
  unfold plain_call. destruct (next_outcome w) as [o w1] eqn:Hn. intros [= <- <-]. by apply holds_next with o.
Qed.

Lemma holds_write w t c n ok w' :
  write_end path c w = (n, ok, w') -> holds w0 w path d t ->
  holds w0 w' path d (t +:+ stake n c) /\ (n <= String.length c)%nat.
Proof.
  unfold write_end. destruct (next_outcome w) as [o w1] eqn:Hn. intros Hw Hh.
  pose proof (holds_next _ _ _ _ Hn Hh) as [(i & Hi & Hk & Hp & Hu & Hd) Hot He].
  rewrite Hi in Hw. injection Hw as <- <- <-. split; [|destruct o; lia]. split; cbn [set_fs w_fs w_euid].
  - eexists. rewrite lookup_insert_eq. split_and!; [done|done|done|done|]. cbn [in_data].
    rewrite Hd, <- sapp_assoc. do 2 f_equal; by destruct o.
  - intros q Hq. rewrite lookup_insert_ne by done. by apply Hot.
  - done.
Qed.

Lemma holds_truncate w t ok w' :
  truncate path (String.length d) w = (ok, w') -> holds w0 w path d t ->
  exists t', holds w0 w' path d t' /\ (t' = "" \/ t' = t).
Proof.
  unfold truncate. destruct (next_outcome w) as [o w1] eqn:Hn. intros Hw Hh.
  pose proof (holds_next _ _ _ _ Hn Hh) as Hh1. destruct (fails o); [injection Hw as <- <-; eauto|].
  destruct Hh1 as [(i & Hi & Hk & Hp & Hu & Hd) Hot He]. rewrite Hi in Hw. injection Hw as <- <-.
  exists "". split; [|by left]. split; cbn [set_fs w_fs w_euid].
  - eexists. rewrite lookup_insert_eq. split_and!; [done|done|done|done|]. cbn [in_data].
    by rewrite Hd, stake_app, sapp_nil_r.
  - intros q Hq. rewrite lookup_insert_ne by done. by apply Hot.
  - done.
Qed.

(** [writeAll] writes a prefix, and all of it when it succeeds. *)
Lemma writeAll_prefix fuel w t c r w' :
  (String.length c < fuel)%nat -> holds w0 w path d t -> writeAll fuel path c w = (r, w') ->
  exists n, holds w0 w' path d (t +:+ stake n c) /\ (is_ok r = true -> stake n c = c).
Proof.
  revert w t c. induction fuel as [|fuel IH]; intros w t c Hlen Hh Hw; [lia|]. cbn [writeAll] in Hw.
  case_bool_decide as Hc.
  - injection Hw as <- <-. subst c. exists 0%nat. cbn. by rewrite sapp_nil_r.
  - destruct (write_end path c w) as [[n ok] w1] eqn:Hwe. destruct (holds_write _ _ _ _ _ _ Hwe Hh) as [Hh1 Hn].
    destruct ok; cbn [negb] in Hw; [|injection Hw as <- <-; exists n; done].
    destruct (Nat.eqb_spec n 0) as [->|Hn0]; [injection Hw as <- <-; exists 0%nat; done|].
    assert (Hlen' : (String.length (sdrop n c) < fuel)%nat) by (rewrite sdrop_length; destruct c; [done|cbn in *; lia]).
    destruct (IH _ _ _ Hlen' Hh1 Hw) as (k & Hk & Hall). exists (n + k)%nat.
    rewrite <- stake_stake_sdrop, sapp_assoc. split; [done|]. intros Hr. rewrite (Hall Hr). apply stake_sdrop.
Qed.

Lemma preserves_holds_plain t (e : file_error) : preserves (fun w => holds w0 w path d t) (io_check plain_call e).
Proof. apply preserves_check. intros w ok w' H. by eapply holds_plain. Qed.

Lemma preserves_holds_ignore t :
  preserves (fun w => holds w0 w path d t) (io_ignore (E := file_error) plain_call).
Proof. apply preserves_ignore. intros w ok w' H. by eapply holds_plain. Qed.

(** The file holds [d] and a prefix of [line]. *)
Definition partly (line : string) (w : world) : Prop := exists n, holds w0 w path d (stake n line).

(** The rollback of [record] takes the prefix away or leaves it. *)
Lemma rollback_partly line :
  preserves (E := file_error) (A := unit) (partly line)
    (do! _ := (do! _ := io_ignore (truncate path (String.length d)) in io_ignore plain_call) in io_ignore plain_call).
Proof.
  assert (Hplain : preserves (partly line) (io_ignore (E := file_error) plain_call)).
  { apply preserves_ignore. intros w ok w' Hc [n Hn]. exists n. by eapply holds_plain. }
  apply preserves_then; [|done]. apply preserves_then; [|done].
  apply preserves_ignore. intros w ok w' Hc [n Hn].
  destruct (holds_truncate _ _ _ _ Hc Hn) as (t' & Ht & [->| ->]); [exists 0%nat|by exists n].
  by destruct line.
Qed.
End append.

(** The file after [append_record] has opened it. *)
Definition appended (w0 : world) (path d line : string) (r : result file_error unit) (w : world) : Prop :=
  exists n, holds w0 w path d (stake n line) /\ (is_ok r = true -> stake n line = line).

Lemma plain_appended w0 path d line (e : file_error) :
  triple (appended w0 path d line (Ok tt)) (io_check plain_call e) (appended w0 path d line).
Proof.
  intros w (n & Hn & Hok). unfold io_check. destruct (plain_call w) as [ok w'] eqn:Hc. cbn.
  exists n. split; [by eapply holds_plain|]. intros _. by apply Hok.
Qed.

Lemma appended_partly w0 path d line r w : appended w0 path d line r w -> partly w0 path d line w.
Proof. intros (n & Hn & _). by exists n. Qed.

Lemma rollback_appended w0 path d line (m : IO file_error unit) P :
  triple P m (appended w0 path d line) ->
  triple P (io_on_error m
    (do! _ := (do! _ := io_ignore (truncate path (String.length d)) in io_ignore plain_call) in io_ignore plain_call))
    (appended w0 path d line).
Proof.
  intros Hm. eapply triple_on_error; [exact Hm| |by intros []]. intros e' w Hw.
  destruct (rollback_partly w0 path d line w (appended_partly _ _ _ _ _ _ Hw)) as [n Hn]. by exists n.
Qed.

(** From the opened file to the end of [append_record]. *)
Lemma append_tail w0 path d line (chmod : IO file_error unit) (sync : IO file_error unit) :
  preserves (fun w => holds w0 w path d "") chmod ->
  triple (appended w0 path d line (Ok tt)) sync (appended w0 path d line) ->
  triple (fun w => holds w0 w path d "")
    (do! _ := chmod in
     do! _ := io_on_error (writeAll (S (String.length line)) path line)
       (do! _ := (do! _ := io_ignore (truncate path (String.length d)) in io_ignore plain_call) in io_ignore plain_call) in
     do! _ := io_on_error (io_check plain_call SyncError)
       (do! _ := (do! _ := io_ignore (truncate path (String.length d)) in io_ignore plain_call) in io_ignore plain_call) in
     do! _ := io_check plain_call CloseError in sync)
    (appended w0 path d line).
Proof.
  intros Hchmod Hsync.
  assert (Hok : forall (a : unit), appended w0 path d line (Ok a) = appended w0 path d line (Ok tt)) by by intros [].
  apply triple_then with (R := fun _ w => holds w0 w path d ""); [exact Hchmod| |].
  2:{ intros e w Hw. exists 0%nat. by destruct line. }
  intros _. apply triple_then with (R := appended w0 path d line); [| |done].
  - apply rollback_appended. intros w Hw.
    destruct (writeAll (S (String.length line)) path line w) as [r w'] eqn:Hwr. cbn.
    assert (Hlt : (String.length line < S (String.length line))%nat) by lia.
    destruct (writeAll_prefix _ _ _ _ _ _ _ _ _ Hlt Hw Hwr) as (n & Hn & Hall). exists n. done.
  - intros a. rewrite Hok. apply triple_then with (R := appended w0 path d line); [| |done].
    + apply rollback_appended. apply plain_appended.
    + intros a'. rewrite Hok. apply triple_then with (R := appended w0 path d line); [apply plain_appended| |done].
      intros a''. by rewrite Hok.
Qed.

Lemma syncDirectory_appended w0 path d line q :
  triple (appended w0 path d line (Ok tt)) (syncDirectory q) (appended w0 path d line).
Proof.
  apply triple_then with (R := appended w0 path d line); [apply plain_appended| |done].
  intros []. apply plain_appended.
Qed.

(** The journal before an append: the file with contents [d], or no file. *)
Definition journal_before (w : world) (path d : string) (ex : bool) : Prop :=
  if ex then holds w w path d "" else d = "" /\ w_fs w !! path = None.

Lemma open_append_spec w path d ex ok w' :
  journal_before w path d ex -> open_append path w = (ok, w') ->
  (ok = false /\ w_fs w' = w_fs w /\ w_euid w' = w_euid w) \/ (ok = true /\ holds w w' path d "").
Proof.
  unfold open_append. destruct (next_outcome w) as [o w1] eqn:Hn. intros Hb Ho.
  destruct (next_outcome_files _ _ _ Hn) as [Hfs Heu].
  destruct (fails o); injection Ho as <- <-; [by left|right]. split; [done|]. destruct ex; cbn in Hb.
  - destruct Hb as [(i & Hi & Hrest) Hot He]. rewrite Hfs, Hi. split.
    + exists i. by rewrite Hfs, Heu.
    + intros q _. by rewrite Hfs.
    + done.
  - destruct Hb as [-> Hnone]. rewrite Hfs, Hnone. split; cbn [set_fs w_fs w_euid].
    + eexists. rewrite lookup_insert_eq. split_and!; [done|done|done|cbn; done|done].
    + intros q Hq. by rewrite lookup_insert_ne.
    + done.
Qed.

(** Whatever the outcomes, an append leaves the old contents in place. *)
Lemma append_record_spec pe w d ex line r w' :
  journal_before w (pe_journalPath pe) d ex ->
  append_record pe ex (slen d) line w = (r, w') ->
  (is_ok r = false /\ w_fs w' = w_fs w /\ w_euid w' = w_euid w) \/
  appended w (pe_journalPath pe) d line r w'.
Proof.
  intros Hb Hr. unfold append_record, slen in Hr. rewrite Nat2Z.id in Hr. unfold io_then at 1, io_check at 1 in Hr.
  destruct (open_append (pe_journalPath pe) w) as [ok w1] eqn:Ho.
  destruct (open_append_spec _ _ _ _ _ _ Hb Ho) as [(-> & Hfs & Heu)|[-> Hh]]; [injection Hr as <- <-; by left|right].
  pose proof (append_tail w (pe_journalPath pe) d line
    (if ex then io_return tt else io_on_error (io_check plain_call OpenError) (io_ignore plain_call))
    (if ex then io_return tt else syncDirectory (dir (pe_journalPath pe)))) as Ht.
  assert (H : appended w (pe_journalPath pe) d line (r, w').1 (r, w').2); [|exact H]. rewrite <- Hr.
  apply Ht; [| |exact Hh].
  - destruct ex; [by apply triple_return|].
    apply triple_on_error with (R := fun _ w2 => holds w w2 (pe_journalPath pe) d "").
    + apply preserves_holds_plain.
    + intros e. apply preserves_holds_ignore.
    + done.
  - destruct ex; [by apply triple_return|apply syncDirectory_appended].
Qed.

Section journal.
Context (marshal : journalRecord -> string) (unmarshal : string -> option journalRecord).
Context (yaml_encode : Snapshot -> string) (yaml_decode : string -> option Snapshot).

(** What the encoders of the standard library and of the YAML package do:
    one record is one line of text that decodes to it. *)
Hypothesis marshal_line : forall r, no_newline (marshal r) /\ marshal r <> "".
Hypothesis marshal_roundtrip : forall r, unmarshal (marshal r) = Some r.
Hypothesis yaml_roundtrip : forall sn, yaml_decode (yaml_encode sn) = Some sn.

(** The text of a journal. *)
Fixpoint journal_text (rs : list journalRecord) : string :=
  match rs with
  | [] => ""
  | r :: rs' => marshal r +:+ String newline (journal_text rs')
  end.

Definition short (r : journalRecord) : Prop := slen (marshal r) + 1 <= maxJournalRecordSize.

Lemma journal_text_app rs1 rs2 : journal_text (rs1 ++ rs2) = journal_text rs1 +:+ journal_text rs2.
Proof.
  induction rs1 as [|r rs1 IH]; [done|]. cbn [app journal_text].
  by rewrite IH, <- sapp_assoc, sapp_cons.
Qed.

Lemma journal_text_join r rs :
  journal_text (r :: rs) = string_join (String newline "") (marshal <$> r :: rs) +:+ String newline "".
Proof.
  revert r. induction rs as [|r' rs IH]; intros r; [done|].
  change (journal_text (r :: r' :: rs)) with (marshal r +:+ String newline (journal_text (r' :: rs))).
  rewrite IH. cbn [fmap list_fmap]. rewrite (string_join_cons _ (marshal r)) by done.
  by rewrite <- !sapp_assoc, sapp_cons.
Qed.

Lemma marshal_lines rs :
  Forall (fun s => sforall (fun d => negb (Ascii.eqb d newline)) s = true) (marshal <$> rs).
Proof. apply Forall_fmap, Forall_forall. intros r _. apply marshal_line. Qed.

(** Complete records, perhaps followed by a torn one. *)
Lemma complete_lines_journal rs t :
  no_newline t ->
  complete_lines (journal_text rs +:+ t) = (marshal <$> rs, negb (bool_decide (t = ""))).
Proof.
  intros Ht. unfold complete_lines. change "010"%char with newline. destruct rs as [|r rs].
  - cbn [journal_text]. rewrite sapp_nil_l, cut_last_none by done. done.
  - rewrite journal_text_join, <- sapp_assoc, sapp_cons, sapp_nil_l, cut_last_app by done.
    by rewrite split_on_join by (done || apply marshal_lines).
Qed.

Lemma read_lines_records rs acc :
  Forall short rs -> read_lines unmarshal (marshal <$> rs) acc = (acc ++ rs, false).
Proof.
  intros Hall. revert acc. induction Hall as [|r rs Hr Hall IH]; intros acc; cbn [fmap list_fmap read_lines].
  - by rewrite app_nil_r.
  - rewrite bool_decide_eq_false_2 by apply marshal_line.
    rewrite (proj2 (Z.ltb_ge _ _)) by apply Hr. cbn [orb]. rewrite marshal_roundtrip, IH. by rewrite <- app_assoc.
Qed.

(** A file that the journal and snapshot readers accept. *)
Definition own_file (w : world) (path contents : string) : Prop :=
  exists i, w_fs w !! path = Some i /\ in_kind i = Regular /\ Z.land (in_perm i) 63 = 0 /\
    in_uid i = w_euid w /\ in_data i = contents /\ slen contents <= maxPersistenceSize.

Lemma inspect_own w path contents :
  w_outcomes w = [] -> own_file w path contents ->
  exists i, inspect path w = (Ok (Some i), w) /\ in_data i = contents.
Proof.
  intros Ho (i & Hi & Hk & Hp & Hu & Hd & Hs). exists i. split; [|done].
  unfold inspect, io_then, io_get, lstat, next_outcome. rewrite Ho. cbn. rewrite Hi, Hk, Hp.
  rewrite bool_decide_eq_true_2 by done. cbn [negb Z.eqb]. rewrite Hu, Z.eqb_refl, Hd. cbn [negb].
  by rewrite (proj2 (Z.ltb_ge _ _)) by done.
Qed.

Lemma read_file_own w path contents :
  w_outcomes w = [] -> own_file w path contents -> read_file path w = (Some contents, w).
Proof.
  intros Ho (i & Hi & _ & _ & _ & Hd & _). unfold read_file, next_outcome. rewrite Ho. cbn. by rewrite Hi, <- Hd.
Qed.

Lemma readJournal_own w path rs t :
  w_outcomes w = [] -> own_file w path (journal_text rs +:+ t) -> no_newline t -> Forall short rs ->
  readJournal unmarshal path w = ((rs, if bool_decide (t = "") then None else Some Corrupt), w).
Proof.
  intros Ho Hf Ht Hrs. destruct (inspect_own _ _ _ Ho Hf) as (i & Hi & Hd). unfold readJournal, inspectJournal, io_then.
  rewrite Hi. cbn [io_return]. rewrite (read_file_own _ _ _ Ho Hf), Hd, Z.eqb_refl. cbn [negb].
  rewrite complete_lines_journal, read_lines_records by done. cbn [orb app]. by case_bool_decide.
Qed.

(** The journal file behind an append that wrote [stake n] of the line. *)
Lemma read_after_append w0 w path rs r n :
  Forall short (rs ++ [r]) ->
  slen (journal_text (rs ++ [r])) <= maxPersistenceSize ->
  w_outcomes w = [] ->
  holds w0 w path (journal_text rs) (stake n (marshal r +:+ String newline "")) ->
  let line := marshal r +:+ String newline "" in
  readJournal unmarshal path w =
    ((if bool_decide (stake n line = line) then (rs ++ [r], None)
      else (rs, if bool_decide (stake n line = "") then None else Some Corrupt)), w).
Proof.
  intros Hshort Hsize Ho [(i & Hi & Hk & Hp & Hu & Hd) _ _] line.
  assert (Hlen : forall m, slen (journal_text rs +:+ stake m line) <= maxPersistenceSize).
  { intros m. rewrite journal_text_app in Hsize. cbn [journal_text] in Hsize. fold line in Hsize.
    unfold slen in *. rewrite sapp_length in *.
    assert (String.length (stake m line) <= String.length line)%nat; [|lia].
    rewrite <- (stake_sdrop m line) at 2. rewrite sapp_length. lia. }
  assert (Hown : own_file w path (journal_text rs +:+ stake n line)) by (exists i; split_and!; done).
  case_bool_decide as Hfull.
  - rewrite Hfull in Hown. replace (journal_text rs +:+ line) with (journal_text (rs ++ [r]) +:+ "") in Hown
      by (rewrite journal_text_app, sapp_nil_r; done).
    rewrite (readJournal_own _ _ _ _ Ho Hown) by done. by rewrite bool_decide_eq_true_2.
  - rewrite (readJournal_own _ _ _ _ Ho Hown); [done| |by apply Forall_app in Hshort as [? _]].
    unfold no_newline. assert (Hline : line = marshal r +:+ String newline "") by done.
    destruct (decide (n <= String.length (marshal r))%nat) as [Hn|Hn].
    + assert (Hpre : stake n line = stake n (marshal r))
        by (rewrite Hline; by apply stake_app_le).
      rewrite Hpre. destruct (marshal_line r) as [Hnl _]. unfold no_newline in Hnl.
      rewrite <- (stake_sdrop n (marshal r)), sforall_app in Hnl. by apply andb_true_iff in Hnl as [? _].
    + exfalso. apply Hfull. apply stake_all. rewrite Hline, sapp_length. cbn. lia.
Qed.

Lemma inspect_files path (w : world) :
  w_fs (inspectJournal path w).2 = w_fs w /\ w_euid (inspectJournal path w).2 = w_euid w.
Proof.
  unfold inspectJournal, io_then, inspect, io_then, io_get, lstat.
  destruct (next_outcome w) as [o w1] eqn:Hn. destruct (next_outcome_files _ _ _ Hn) as [Hfs Heu].
  destruct (fails o); [done|]. destruct (w_fs w1 !! path) as [i|]; [|done].
  unfold io_fail. destruct (negb (bool_decide _)); [done|]. destruct (negb (_ =? 0)); [done|].
  destruct (negb (_ =? _)); [done|]. by destruct (_ <? _).
Qed.

(** What the inspection of a readable journal, or of none, answers. *)
Lemma inspect_before path d ex (w : world) :
  journal_before w path d ex -> slen d <= maxPersistenceSize ->
  (exists e, (inspectJournal path w).1 = Err e) \/ (inspectJournal path w).1 = Ok (ex, slen d).
Proof.
  intros Hb Hd. unfold inspectJournal, io_then, inspect, io_then, io_get, lstat.
  destruct (next_outcome w) as [o w1] eqn:Hn. destruct (next_outcome_files _ _ _ Hn) as [Hfs Heu].
  destruct (fails o); [by left; eexists|]. rewrite Hfs. destruct ex; cbn in Hb.
  - destruct Hb as [(i & Hi & Hk & Hp & Hu & Hdata) _ _]. rewrite Hi, Hk, Hp.
    rewrite bool_decide_eq_true_2 by done. cbn [negb Z.eqb]. rewrite Heu, Hu, Z.eqb_refl. cbn [negb].
    rewrite sapp_nil_r in Hdata. rewrite Hdata, (proj2 (Z.ltb_ge _ _)) by done. right. cbn. by rewrite Hdata.
  - destruct Hb as [-> ->]. by right.
Qed.

Lemma journal_before_files w w1 path d ex :
  w_fs w1 = w_fs w -> w_euid w1 = w_euid w -> journal_before w path d ex -> journal_before w1 path d ex.
Proof.
  intros Hfs Heu. destruct ex; cbn; [|by rewrite Hfs]. intros [(i & Hi & Hr) _ _]. split; [|done|done].
  exists i. by rewrite Hfs, Heu.
Qed.

Lemma read_before w path rs ex :
  journal_before w path (journal_text rs) ex -> (ex = false -> rs = []) -> Forall short rs ->
  slen (journal_text rs) <= maxPersistenceSize -> w_outcomes w = [] ->
  readJournal unmarshal path w = ((rs, None), w).
Proof.
  intros Hb Hex Hshort Hsize Ho. destruct ex; cbn in Hb.
  - destruct Hb as [(i & Hi & Hk & Hp & Hu & Hd) _ _].
    assert (Hown : own_file w path (journal_text rs +:+ "")) by (exists i; rewrite sapp_nil_r in *; split_and!; done).
    rewrite (readJournal_own _ _ _ _ Ho Hown) by done. by rewrite bool_decide_eq_true_2.
  - rewrite Hex by done. destruct Hb as [_ Hnone]. unfold readJournal, inspectJournal, io_then, inspect, io_then, io_get, lstat, next_outcome.
    rewrite Ho. cbn. by rewrite Hnone.
Qed.
End journal.

(** ** A concrete codec for the examples *)

#[export] Instance journalRecord_countable : Countable journalRecord.
Proof.
  refine (inj_countable'
    (fun r => (((jr_Version r, jr_Prefix r), (jr_Epoch r, jr_RecordedAt r)),
               ((jr_Removed r, m_Domain (jr_Mapping r)), (m_Address (jr_Mapping r), m_ExpiresAt (jr_Mapping r)))))
    (fun '(((v, p), (e, t)), ((rm, d), (a, x))) => MkRecord v p e t rm (MkMapping d a x)) _).
  by intros [????? []].
Defined.

Fixpoint pos_bits (p : positive) : string :=
  match p with
  | xH => ""
  | xO p => String "0" (pos_bits p)
  | xI p => String "1" (pos_bits p)
  end.

Fixpoint bits_pos (s : string) : option positive :=
  match s with
  | EmptyString => Some xH
  | String "0" s => xO <$> bits_pos s
  | String "1" s => xI <$> bits_pos s
  | _ => None
  end.

Definition demo_marshal (r : journalRecord) : string := String "x" (pos_bits (encode r)).

Definition demo_unmarshal (s : string) : option journalRecord :=
  match s with
  | String "x" s => bits_pos s ≫= decode
  | _ => None
  end.

Lemma pos_bits_roundtrip p : bits_pos (pos_bits p) = Some p.
Proof. induction p as [p IH|p IH|]; cbn; [by rewrite IH..|done]. Qed.

Lemma demo_roundtrip r : demo_unmarshal (demo_marshal r) = Some r.
Proof. unfold demo_unmarshal, demo_marshal. rewrite pos_bits_roundtrip. cbn. apply decode_encode. Qed.

Lemma demo_line r : no_newline (demo_marshal r) /\ demo_marshal r <> "".
Proof.
  split; [|done]. unfold no_newline, demo_marshal. cbn [sforall]. apply andb_true_iff. split; [done|].
  induction (encode r); cbn [pos_bits sforall]; [apply andb_true_iff; by split..|done].
Qed.

(** ** Properties *)

(** The journal survives every failure of an append.  Whichever calls of
    [record] fail or write only in part, the other files are untouched and the
    records that were in the journal are still read back: alone, alone with a
    report of a torn last record, or followed by the new record.  When [record]
    reports success the new record is there. *)
Theorem record_never_loses_records marshal unmarshal yaml_encode pe pre u sn w rs ex :
  (forall r, no_newline (marshal r) /\ marshal r <> "") ->
  (forall r, unmarshal (marshal r) = Some r) ->
  let r := MkRecord persistenceVersion pre (pe_journalEpoch pe) (u_RecordedAt u) (u_Removed u) (u_Mapping u) in
  Forall (short marshal) (rs ++ [r]) ->
  slen (journal_text marshal (rs ++ [r])) <= maxPersistenceSize ->
  journal_before w (pe_journalPath pe) (journal_text marshal rs) ex -> (ex = false -> rs = []) ->
  let '((pe', res), w') := record marshal yaml_encode pe pre u sn w in
  let read := (readJournal unmarshal (pe_journalPath pe) (set_outcomes [] w')).1 in
  pe' = pe /\
  (forall q, q <> pe_journalPath pe -> w_fs w' !! q = w_fs w !! q) /\
  (read = (rs, None) \/ read = (rs, Some Corrupt) \/ read = (rs ++ [r], None)) /\
  (is_ok res = true -> read = (rs ++ [r], None)).
Proof.
  intros Hline Hround r Hshort Hsize Hb Hex. unfold record. fold r.
  pose proof Hshort as [Hshort1 [Hr _]%Forall_cons_1]%Forall_app.
  assert (Hmaxrec : maxJournalRecordSize <? slen (marshal r) + 1 = false) by by apply Z.ltb_ge.
  rewrite Hmaxrec. rewrite journal_text_app in Hsize. pose proof Hsize as Hsize'. cbn [journal_text] in Hsize'.
  unfold slen in Hsize'. rewrite !sapp_length in Hsize'. cbn [String.length] in Hsize'.
  assert (Hsize1 : slen (journal_text marshal rs) <= maxPersistenceSize) by (unfold slen; lia).
  destruct (inspect_files (pe_journalPath pe) w) as [Hfs Heu].
  pose proof (inspect_before _ _ _ _ Hb Hsize1) as Hi.
  destruct (inspectJournal (pe_journalPath pe) w) as [res w1]. cbn [fst snd] in *.
  assert (Hb1 : forall w2, w_fs w2 = w_fs w -> w_euid w2 = w_euid w ->
    (readJournal unmarshal (pe_journalPath pe) (set_outcomes [] w2)).1 = (rs, None)).
  { intros w2 H2 H2'. rewrite (read_before marshal unmarshal Hline Hround _ _ rs ex); try done.
    by eapply (journal_before_files w). }
  destruct Hi as [[e ->]| ->].
  { split_and!; [done|by intros q _; rewrite Hfs|left; by apply Hb1|done]. }
  rewrite (proj2 (Z.ltb_ge _ _)) by (unfold slen; lia).
  destruct (append_record pe ex (slen (journal_text marshal rs)) (marshal r +:+ String "010" "") w1) as [res w'] eqn:Happ.
  pose proof (journal_before_files _ w1 _ _ _ Hfs Heu Hb) as Hbw1.
  destruct (append_record_spec _ _ _ _ _ _ _ Hbw1 Happ) as [(Hres & Hfs' & Heu')|(n & Hn & Hok)].
  - split_and!; [done|intros q _; by rewrite Hfs', Hfs|left; apply Hb1; congruence|by rewrite Hres].
  - assert (Hread : (readJournal unmarshal (pe_journalPath pe) (set_outcomes [] w')).1 =
      (let line := marshal r +:+ String newline "" in
       if bool_decide (stake n line = line) then (rs ++ [r], None)
       else (rs, if bool_decide (stake n line = "") then None else Some Corrupt))).
    { rewrite (read_after_append marshal unmarshal Hline Hround w1 _ _ rs r n); try done.
      + by rewrite journal_text_app.
      + destruct Hn as [Hf Hot He]. by split. }
    rewrite Hread. split_and!.
    + done.
    + intros q Hq. destruct Hn as [_ Hot _]. by rewrite Hot, Hfs.
    + cbn zeta. case_bool_decide; [auto|]. case_bool_decide; auto.
    + intros Hr'. cbn zeta. by rewrite bool_decide_eq_true_2 by by apply Hok.
Qed.

Definition demo_record (d : string) (v : Z) : journalRecord :=
  MkRecord 1 "198.18.0.0/29" "e" 7 [] (MkMapping d (addr_text (Addr4 v)) 107).

(** A world in which the write of the second record stops after three bytes
    and its rollback fails. *)
Definition demo_world : world :=
  MkWorld {["/d/f.wal" := MkInode Regular mode_0600 0 (journal_text demo_marshal [demo_record "a.com" 1])]}
    [Fine; Fine; Fails 3; Fails 0] 0 [] [].

Lemma record_never_loses_records_witness :
  let pe := MkPersistence "/d/f" "/d/f.wal" "e" in
  let u := MkUpdate 7 [] (MkMapping "b.com" (addr_text (Addr4 2)) 107) in
  let r := demo_record "b.com" 2 in
  let '((pe', res), w') := record demo_marshal (fun _ => "") pe "198.18.0.0/29" u
    (MkSnapshot 1 "" 0 "" []) demo_world in
  let read := (readJournal demo_unmarshal "/d/f.wal" (set_outcomes [] w')).1 in
  pe' = pe /\
  (forall q, q <> "/d/f.wal" -> w_fs w' !! q = w_fs demo_world !! q) /\
  (read = ([demo_record "a.com" 1], None) \/ read = ([demo_record "a.com" 1], Some Corrupt) \/
   read = ([demo_record "a.com" 1; r], None)) /\
  (is_ok res = true -> read = ([demo_record "a.com" 1; r], None)).
Proof.
  apply (record_never_loses_records demo_marshal demo_unmarshal (fun _ => "")
    (MkPersistence "/d/f" "/d/f.wal" "e") "198.18.0.0/29"
    (MkUpdate 7 [] (MkMapping "b.com" (addr_text (Addr4 2)) 107)) (MkSnapshot 1 "" 0 "" []) demo_world
    [demo_record "a.com" 1] true).
  - apply demo_line.
  - apply demo_roundtrip.
  - repeat constructor; unfold short; vm_compute; discriminate.
  - vm_compute. discriminate.
  - split; [|done|done]. eexists. split; [reflexivity|]. split_and!; [done|done|done|]. by rewrite sapp_nil_r.
  - done.
Defined.

(** ** Opening *)

Lemma restore_loop_prefix items until p p' :
  restore_loop items until p = Ok p' -> p_prefix p' = p_prefix p.
Proof.
  revert p. induction items as [|item items IH]; intros p; cbn [restore_loop]; [by intros [= <-]|].
  intros ([[d a] x] & _ & H)%bind_Ok. repeat apply guard_err_Ok in H as [_ H]. by rewrite (IH _ H).
Qed.

Lemma restore_prefix sn window now p p' : restore sn window now p = Ok p' -> p_prefix p' = p_prefix p.
Proof. unfold restore. intros H. repeat apply guard_err_Ok in H as [_ H]. by apply restore_loop_prefix in H. Qed.

(** A record that [activeJournalRecords] accepts. *)
Definition sound_record (prefix : string) (r : journalRecord) : Prop :=
  jr_Version r = persistenceVersion /\ jr_Prefix r = prefix /\ validJournalEpoch (jr_Epoch r) = true /\
  jr_RecordedAt r <> 0.

Lemma active_loop_filter records wanted prefix acc :
  wanted <> "" -> Forall (sound_record prefix) records ->
  active_loop records true wanted prefix acc = Ok (acc ++ filter (fun r => jr_Epoch r = wanted) records, wanted).
Proof.
  intros Hw Hall. revert acc. induction Hall as [|r records (Hv & Hp & He & Ht) Hall IH]; intros acc.
  - cbn. by rewrite app_nil_r.
  - cbn [active_loop]. rewrite Hv, Hp, He, !bool_decide_eq_true_2, (proj2 (Z.eqb_neq _ 0)), Z.eqb_refl by done.
    cbn [negb guard_err]. rewrite (bool_decide_eq_false_2 (wanted = "")) by done. rewrite filter_cons.
    case_bool_decide as Heq; case_decide; try done; cbn [andb negb guard_err]; rewrite IH; [by rewrite <- app_assoc|done].
Qed.

Lemma validJournalEpoch_nonempty epoch : validJournalEpoch epoch = true -> epoch <> "".
Proof. by intros H ->. Qed.

(** Opening recovers what was written.  When the snapshot file holds a
    checkpoint of some epoch and the journal holds records, [OpenPersistence]
    restores the snapshot, replays exactly the records of that epoch in their
    order and skips those of older epochs, keeps writing in the same epoch,
    quarantines nothing and leaves the files as they are. *)
Theorem open_persistence_recovers marshal unmarshal yaml_encode yaml_decode path window now p p1 p2 w sn epoch records :
  (forall r, no_newline (marshal r) /\ marshal r <> "") ->
  (forall r, unmarshal (marshal r) = Some r) ->
  (forall sn, yaml_decode (yaml_encode sn) = Some sn) ->
  is_abs path = true -> clean path = path -> 0 <= window -> w_outcomes w = [] ->
  own_file w path (yaml_encode (with_epoch epoch sn)) -> validJournalEpoch epoch = true ->
  own_file w (path +:+ ".wal") (journal_text marshal records) ->
  Forall (short marshal) records -> Forall (sound_record (prefix_text (p_prefix p))) records ->
  restore (with_epoch epoch sn) window now p = Ok p1 ->
  restoreJournal (update_of <$> filter (fun r => jr_Epoch r = epoch) records) window now p1 = Ok p2 ->
  OpenPersistence unmarshal yaml_encode yaml_decode path window now p w =
    (Ok (MkPersistence path (path +:+ ".wal") epoch, setPersistence p2, ""), w).
Proof.
  intros Hline Hround Hyaml Habs Hclean Hwin Ho Hsnap Hep Hjour Hshort Hsound Hp1 Hp2.
  pose proof (validJournalEpoch_nonempty _ Hep) as Hepne.
  assert (Hopen1 : open_snapshot yaml_decode path window now p w = (Ok (p1, Some (with_epoch epoch sn), ""), w)).
  { unfold open_snapshot, readSnapshot, io_then. destruct (inspect_own _ _ _ Ho Hsnap) as (i & -> & _).
    unfold io_get. rewrite (read_file_own _ _ _ Ho Hsnap), Hyaml. cbn [io_return]. by rewrite Hp1. }
  assert (Hjour' : own_file w (path +:+ ".wal") (journal_text marshal records +:+ "")) by by rewrite sapp_nil_r.
  assert (Hact : activeJournalRecords records (Some (with_epoch epoch sn)) (prefix_text (p_prefix p1)) =
    Ok (filter (fun r => jr_Epoch r = epoch) records, epoch)).
  { unfold activeJournalRecords. cbn [with_epoch sn_JournalEpoch].
    rewrite Hep, (bool_decide_eq_false_2 (epoch = "")) by done. cbn [negb andb guard_err].
    rewrite (restore_prefix _ _ _ _ _ Hp1). by rewrite active_loop_filter. }
  assert (Hopen2 : open_journal unmarshal (path +:+ ".wal") (Some (with_epoch epoch sn)) "" window now p1 w =
    (Ok (p2, epoch, false, ""), w)).
  { unfold open_journal. rewrite (readJournal_own _ _ Hline Hround _ _ _ _ Ho Hjour') by done.
    rewrite bool_decide_eq_true_2 by done. cbv zeta. rewrite Hact. cbn [mbind result_bind].
    case_bool_decide as Hnil; [|by rewrite Hp2]. rewrite Hnil in Hp2. cbn in Hp2. by injection Hp2 as <-. }
  unfold OpenPersistence. rewrite Habs, Hclean, (bool_decide_eq_true_2 (path = path)), (proj2 (Z.ltb_ge _ _)) by done.
  rewrite (bool_decide_eq_false_2 (path = "")) by by intros ->. cbn [orb negb]. unfold io_then. rewrite Hopen1, Hopen2.
  rewrite (bool_decide_eq_false_2 (epoch = "")) by done. cbn [io_return].
  by rewrite bool_decide_eq_false_2 by done.
Qed.

#[export] Instance Snapshot_eq_dec : EqDecision Snapshot.
Proof. solve_decision. Defined.

#[export] Instance Snapshot_countable : Countable Snapshot.
Proof.
  refine (inj_countable'
    (fun s => (sn_Version s, sn_Prefix s, sn_SavedAt s, sn_JournalEpoch s,
               (fun m => (m_Domain m, m_Address m, m_ExpiresAt m)) <$> sn_Mappings s))
    (fun '(v, p, t, e, ms) => MkSnapshot v p t e ((fun '(d, a, x) => MkMapping d a x) <$> ms)) _).
  intros [v p t e ms]. cbn. f_equal. induction ms as [|[???] ms IH]; [done|]. cbn. by rewrite IH.
Defined.

Definition demo_encode (sn : Snapshot) : string := pos_bits (encode sn).

Definition demo_decode (s : string) : option Snapshot := bits_pos s ≫= decode.

Lemma demo_yaml sn : demo_decode (demo_encode sn) = Some sn.
Proof. unfold demo_decode, demo_encode. rewrite pos_bits_roundtrip. cbn. apply decode_encode. Qed.

(** A pool of the network 198.18.0.0/29, a checkpoint with one mapping, and a
    journal with a record of an older epoch and one of the current epoch. *)
Definition demo_snapshot : Snapshot :=
  MkSnapshot 1 "198.18.0.0/29" 5 "" [MkMapping "a.com" (addr_text (Addr4 0xC6120001)) 107].

Definition demo_epoch : string := "000102030405060708090a0b0c0d0e0f".

Definition demo_journal : list journalRecord :=
  [MkRecord 1 "198.18.0.0/29" "ff0102030405060708090a0b0c0d0e0f" 3 [] (MkMapping "old.com" (addr_text (Addr4 0xC6120001)) 90);
   MkRecord 1 "198.18.0.0/29" demo_epoch 7 ["gone.com"] (MkMapping "b.com" (addr_text (Addr4 0xC6120002)) 109)].

Definition demo_files : world :=
  MkWorld (<["/d/f" := MkInode Regular mode_0600 0 (demo_encode (with_epoch demo_epoch demo_snapshot))]>
    {["/d/f.wal" := MkInode Regular mode_0600 0 (journal_text demo_marshal demo_journal)]}) [] 0 [] [].

Definition demo_restored : option (Pool * Pool) :=
  match newPool (prefix_from (Addr4 0xC6120000) 29) 100 2 1 with
  | Ok p =>
      match restore (with_epoch demo_epoch demo_snapshot) 50 10 p with
      | Ok p1 =>
          match restoreJournal (update_of <$> filter (fun r => jr_Epoch r = demo_epoch) demo_journal) 50 10 p1 with
          | Ok p2 => Some (p, p2)
          | Err _ => None
          end
      | Err _ => None
      end
  | Err _ => None
  end.

Lemma open_persistence_recovers_witness :
  match demo_restored with
  | Some (p, p2) => OpenPersistence demo_unmarshal demo_encode demo_decode "/d/f" 50 10 p demo_files =
      (Ok (MkPersistence "/d/f" "/d/f.wal" demo_epoch, setPersistence p2, ""), demo_files)
  | None => False
  end.
Proof.
  assert (Hok : is_Some demo_restored) by (vm_compute; eauto).
  unfold demo_restored in *.
  destruct (newPool _ 100 2 1) as [p|er] eqn:Hp; [|by destruct Hok].
  destruct (restore _ 50 10 p) as [p1|er] eqn:Hp1; [|by destruct Hok].
  destruct (restoreJournal _ 50 10 p1) as [p2|er] eqn:Hp2; [|by destruct Hok].
  apply (open_persistence_recovers demo_marshal demo_unmarshal demo_encode demo_decode "/d/f" 50 10 p p1 p2
    demo_files demo_snapshot demo_epoch demo_journal); try done.
  - apply demo_line.
  - apply demo_roundtrip.
  - apply demo_yaml.
  - eexists. split; [reflexivity|]. split_and!; [done..|vm_compute; discriminate].
  - eexists. split; [reflexivity|]. split_and!; [done..|vm_compute; discriminate].
  - apply Forall_cons_2; [vm_compute; discriminate|].
    apply Forall_cons_2; [vm_compute; discriminate|apply Forall_nil_2].
  - injection Hp as <-. repeat constructor; done.
Defined.
