(* ===== verification/FakeIPDurable.v ===== *)
(** * The address pool and its journal

    The pool together with what is on disk: the last checkpoint and the lines
    of the journal behind it.  A persistence call appends one record or writes
    a checkpoint while other goroutines keep using the pool, and it may fail
    before or after its data reached the files; the lemmas follow the disk
    content through every interleaving. *)

From S2P Require Import Prelude.
From S2P Require Import GoStrings.
From S2P Require Import NetIP.
From S2P Require Import NetIPText.
From S2P Require Import DomainName.
From S2P Require Import FakeIPPool.
From S2P Require Import FakeIPPoolFacts.
From S2P Require Import FakeIPAlloc.
From S2P Require Import FakeIPNew.
From S2P Require Import FakeIPRestore.
From S2P Require Import FakeIPRestoreFacts.
From S2P Require Import FakeIPSystem.
From S2P Require Import FakeIPProperties.
From S2P Require Import FakeIPFiles.

(** ** The system with its disk *)

(** The snapshot and the lines of the journal on disk, the epoch that the
    process writes into its records ([Persistence.journalEpoch]), and the
    snapshot that a running [record] call took because the journal is full.
    [du_doubt] is a ghost flag: since the last checkpoint or start, a call
    failed although its data reached the files, so that the files may stand for
    more than the pool or hide later records. *)
Record durable : Type := MkDurable {
  du_sys : system;
  du_base : Snapshot;
  du_journal : list journal_line;
  du_epoch : string;
  du_taken : option Snapshot;
  du_doubt : bool
}.

(** How an append ends: with success; with a failure before the write or one
    that was rolled back; with a failure that leaves the whole record in the
    file, because closing it or syncing the directory fails or because the
    rollback fails, too; or with a part of the record in the file. *)
Inductive record_end : Type :=
| Appended
| Unwritten
| Kept
| Partly.

(** How a checkpoint ends: with success; with a failure before the rename; with
    a failure of the sync behind the rename, before the process changes to the
    new epoch; or with a failure behind this change, the old journal being
    removed or not. *)
Inductive checkpoint_end : Type :=
| Replaced
| Unchanged
| Renamed
| Switched (cleared : bool).

(** The record of an update. *)
Definition record_line (p : Pool) (epoch : string) (u : persistenceUpdate) : journalRecord :=
  MkRecord persistenceVersion (prefix_text (p_prefix p)) epoch (u_RecordedAt u) (u_Removed u) (u_Mapping u).

(** The journal after [record], and whether the call succeeds. *)
Definition record_files (o : record_end) (r : journalRecord) (journal : list journal_line)
    : list journal_line * bool :=
  match o with
  | Appended => (journal ++ [Whole r], true)
  | Unwritten => (journal, false)
  | Kept => (journal ++ [Whole r], false)
  | Partly => (journal ++ [Torn], false)
  end.

(** Snapshot, journal and epoch after [checkpoint], and whether it succeeds. *)
Definition checkpoint_files (o : checkpoint_end) (fresh : string) (sn base : Snapshot)
    (journal : list journal_line) (epoch : string) : Snapshot * list journal_line * string * bool :=
  match o with
  | Replaced => (with_epoch fresh sn, [], fresh, true)
  | Unchanged => (base, journal, epoch, false)
  | Renamed => (with_epoch fresh sn, journal, epoch, false)
  | Switched cleared => (with_epoch fresh sn, if cleared then [] else journal, fresh, false)
  end.

(** What happens to the disk: a running [record] call appends its record, or
    takes a snapshot because the journal is full and checkpoints it; a flush
    checkpoints its snapshot; the process dies, whatever was running, and a new
    one opens the files.  Every other event only concerns the pool. *)
Inductive disk_event : Type :=
| DPool (ev : event)
| DRecord (o : record_end)
| DTake
| DCheckpoint (fresh : string) (o : checkpoint_end)
| DFlushed (fresh : string) (o : checkpoint_end)
| DRestart (window : Z) (fresh : string).

(** The mapping that is being persisted is still there. *)
Definition still_mapped (st : system) : bool :=
  match sy_writer st with
  | Allocating a => bool_decide (p_byDomain (sy_pool st) !! pa_domain a = Some (pa_ptr a))
  | _ => true
  end.

(** The mapping expired and was removed while it was being persisted, and the
    call will take the name for one whose removal it has recorded. *)
Definition strays (st : system) : bool :=
  match sy_writer st with
  | Allocating a => negb (still_mapped st) && bool_decide (pa_domain a ∈ pa_removed a)
  | _ => false
  end.

(** Events of the pool alone; the clock never shows Go's zero time. *)
Definition pool_event (ev : event) : bool :=
  match ev with
  | EvPersisted _ | EvFlushed _ | EvSetPersistence => false
  | EvTime now => 0 <? now
  | _ => true
  end.

(** [newJournalEpoch] draws 16 random bytes: no record has them yet. *)
Definition unused (epoch : string) (journal : list journal_line) : bool :=
  validJournalEpoch epoch &&
  forallb (fun l => match l with Whole r => negb (bool_decide (jr_Epoch r = epoch)) | Torn => true end) journal.

(** One step, where [fresh] is the pool that a new process creates and whose
    persistence it opens; a start whose own checkpoint fails ends the process
    and is no event. *)
Definition disk_step (fresh : Pool) (ev : disk_event) (ds : durable) : option durable :=
  let '(MkDurable st base journal epoch taken doubt) := ds in
  match ev, sy_writer st, taken with
  | DPool ev, _, _ =>
      if pool_event ev then st' ← sys_step ev st; Some (MkDurable st' base journal epoch taken doubt) else None
  | DRecord o, Allocating a, None =>
      let '(journal', ok) := record_files o (record_line (sy_pool st) epoch (pa_update a)) journal in
      let doubt' := match o with Appended => doubt || strays st | Unwritten => doubt | Kept | Partly => true end in
      st' ← sys_step (EvPersisted ok) st; Some (MkDurable st' base journal' epoch None doubt')
  | DTake, Allocating a, None =>
      Some (MkDurable st base journal epoch (Some (snapshotLocked (sy_now st) (sy_pool st))) doubt)
  | DCheckpoint new o, Allocating a, Some sn =>
      if unused new journal then
        let '(base', journal', epoch', ok) := checkpoint_files o new sn base journal epoch in
        let doubt' := match o with Replaced => strays st | Unchanged => doubt | Renamed | Switched _ => true end in
        st' ← sys_step (EvPersisted ok) st; Some (MkDurable st' base' journal' epoch' None doubt')
      else None
  | DFlushed new o, Flushing sn _, None =>
      if unused new journal then
        let '(base', journal', epoch', ok) := checkpoint_files o new sn base journal epoch in
        let doubt' := match o with
                      | Replaced | Switched true => false
                      | Unchanged | Switched false => doubt
                      | Renamed => true
                      end in
        st' ← sys_step (EvFlushed ok) st; Some (MkDurable st' base' journal' epoch' None doubt')
      else None
  | DRestart window new, _, _ =>
      if validJournalEpoch new then
        let now := sy_now st in
        let '(p, wanted, due) := reopen (Some base) journal window now fresh in
        let st' := initial (setPersistence p) now in
        Some (if due then MkDurable st' (with_epoch new (snapshotLocked now p)) [] new None false
              else MkDurable st' base journal (if bool_decide (wanted = "") then new else wanted) None false)
      else None
  | _, _, _ => None
  end.

Fixpoint disk_run (fresh : Pool) (evs : list disk_event) (ds : durable) : option durable :=
  match evs with
  | [] => Some ds
  | ev :: evs' => ds' ← disk_step fresh ev ds; disk_run fresh evs' ds'
  end.

(** After [OpenPersistence] on a fresh directory: the checkpoint of the pool. *)
Definition opened (p : Pool) (now : Z) (epoch : string) : durable :=
  MkDurable (initial (setPersistence p) now) (with_epoch epoch (snapshotLocked now p)) [] epoch None false.

(** The domain whose allocation is being persisted. *)
Definition in_flight (w : writer) (d : string) : Prop :=
  match w with Allocating a => pa_domain a = d | _ => False end.

(** An epoch that repeats one digit. *)
Definition demo_epoch (digit : ascii) : string := String.string_of_list_ascii (replicate 32 digit).

(** Two allocations, their expiry, a third one whose checkpoint fails after
    the rename, a restart and a fourth one. *)
Definition demo_events : list disk_event :=
  [DPool (EvAllocate "a.com"); DRecord Appended; DPool (EvAllocate "b.com"); DRecord Appended;
   DPool (EvTime 300); DPool (EvAllocate "c.com"); DTake; DCheckpoint (demo_epoch "1") Renamed;
   DRestart 50 (demo_epoch "2"); DPool (EvTime 400); DPool (EvAllocate "d.com"); DRecord Appended].

(** ** The invariant *)

(** A statement about what the files stand for, where that is certain. *)
Definition certain (om : option amap) (P : amap -> Prop) : Prop :=
  match om with Some m => P m | None => True end.

(** The records that opening the files replays. *)
Definition active (base : Snapshot) (journal : list journal_line) : list persistenceUpdate :=
  update_of <$> filter (fun r => jr_Epoch r = sn_JournalEpoch base) (readable journal).1.

Section invariant.
Context (six : bool) (s e limit ttl : Z) (pre : prefix).

(** A checkpoint of a pool with this configuration. *)
Definition checkpoint_of (sn : Snapshot) (m : amap) : Prop :=
  exists q taken epoch, sn = with_epoch epoch (snapshotLocked taken q) /\ pool_inv q six s e /\ dated q /\
    p_prefix q = pre /\ p_maxMappings q = limit /\ assignment q = m.

(** A record that a pool with this configuration wrote. *)
Record own_record (r : journalRecord) : Prop := {
  or_version : jr_Version r = persistenceVersion;
  or_prefix : jr_Prefix r = prefix_text pre;
  or_epoch : validJournalEpoch (jr_Epoch r) = true;
  or_stamp : jr_RecordedAt r <> 0;
  or_update : exists d v, own_update six s e (update_of r) d v
}.

Definition own_line (l : journal_line) : Prop := match l with Whole r => own_record r | Torn => True end.

(** What the process itself wrote is on disk. *)
Record own_files (base : Snapshot) (journal : list journal_line) : Prop := {
  of_base : exists m, checkpoint_of base m;
  of_epoch : validJournalEpoch (sn_JournalEpoch base) = true;
  of_journal : Forall own_line journal
}.

(** The files stand for the assignment [m]. *)
Definition disk_is (base : Snapshot) (journal : list journal_line) (m : amap) : Prop :=
  (readable journal).2 = true /\
  exists m0 l, checkpoint_of base m0 /\ own_updates six s e (active base journal) l /\
    replay_map limit l m0 = Some m.

(** The snapshot [sn] covers the pool except for later removals. *)
Definition covers (sn : Snapshot) (removed : list string) (p : Pool) : Prop :=
  exists m, checkpoint_of sn m /\
    (forall d a, assignment p !! d = Some a -> m !! d = Some a) /\
    (forall d a, m !! d = Some a -> assignment p !! d = Some a \/
       (d ∈ p_pendingDeletes p /\ d ∉ removed)).

(** What holds of the allocation that is being persisted. *)
Record alloc_ok (p : Pool) (om : option amap) (a : pending_alloc) : Prop := {
  ao_update : exists v, pa_candidate a = fam six v /\ own_update six s e (pa_update a) (pa_domain a) v;
  ao_stamp : 0 < u_RecordedAt (pa_update a);
  ao_names : u_Removed (pa_update a) = pa_removed a;
  ao_pending : forall d, d ∈ pa_removed a -> d ∈ p_pendingDeletes p;
  ao_room : certain om (fun m =>
    Z.of_nat (size (forget_addr (pa_candidate a) (delete (pa_domain a) (forget (pa_removed a) m)))) < limit);
  ao_free : certain om (fun m =>
    forall d b, m !! d = Some b -> d ∉ pa_removed a -> d <> pa_domain a -> b <> pa_candidate a);
  ao_entry : exists en, p_store p !! pa_ptr a = Some en /\ e_domain en = pa_domain a /\ e_address en = pa_candidate a;
  ao_same : forall x, p_byDomain p !! pa_domain a = Some x -> x = pa_ptr a;
  ao_self : is_Some (assignment p !! pa_domain a) -> pa_domain a ∈ p_pendingDeletes p ->
    pa_domain a ∈ pa_removed a;
  ao_gone : assignment p !! pa_domain a = None -> pa_domain a ∈ p_pendingDeletes p
}.

(** The invariant; [om] is the assignment that the files stand for, unless
    they are in doubt. *)
Record disk_inv (ds : durable) (om : option amap) : Prop := {
  di_good : good (sy_pool (du_sys ds)) six s e;
  di_config : p_maxMappings (sy_pool (du_sys ds)) = limit /\ p_prefix (sy_pool (du_sys ds)) = pre /\
              p_mappingTTL (sy_pool (du_sys ds)) = ttl;
  di_clock : 0 < ttl /\ 0 < sy_now (du_sys ds);
  di_persist : p_persist (sy_pool (du_sys ds)) = true;
  di_dated : dated (sy_pool (du_sys ds));
  di_names : forall d, d ∈ p_pendingDeletes (sy_pool (du_sys ds)) -> canonical d;
  di_files : own_files (du_base ds) (du_journal ds) /\ validJournalEpoch (du_epoch ds) = true;
  di_certain : du_doubt ds = false -> is_Some om;
  di_disk : certain om (fun m => disk_is (du_base ds) (du_journal ds) m /\ du_epoch ds = sn_JournalEpoch (du_base ds));
  di_live : certain om (fun m => forall d a, assignment (sy_pool (du_sys ds)) !! d = Some a ->
    in_flight (sy_writer (du_sys ds)) d \/ m !! d = Some a);
  di_stale : certain om (fun m => forall d a, m !! d = Some a ->
    (assignment (sy_pool (du_sys ds)) !! d = Some a /\ ~ in_flight (sy_writer (du_sys ds)) d) \/
    d ∈ p_pendingDeletes (sy_pool (du_sys ds)));
  di_pending : forall d, d ∈ p_pendingDeletes (sy_pool (du_sys ds)) ->
    assignment (sy_pool (du_sys ds)) !! d = None \/ in_flight (sy_writer (du_sys ds)) d;
  di_writer : match sy_writer (du_sys ds) with
    | Idle => du_taken ds = None
    | Allocating a => alloc_ok (sy_pool (du_sys ds)) om a /\
        match du_taken ds with
        | None => True
        | Some sn => covers sn (filter (fun d => d <> pa_domain a) (pa_removed a)) (sy_pool (du_sys ds))
        end
    | Flushing sn removed => du_taken ds = None /\ (forall d, d ∈ removed -> d ∈ p_pendingDeletes (sy_pool (du_sys ds))) /\
        covers sn removed (sy_pool (du_sys ds))
    end
}.
End invariant.

(** Reduces the fields of a durable state. *)
Ltac du_fields := cbn [du_sys du_base du_journal du_epoch du_taken du_doubt] in *.

(** ** Steps that only remove mappings *)

(** The same configuration. *)
Definition config_eq (p p' : Pool) : Prop :=
  p_maxMappings p' = p_maxMappings p /\ p_prefix p' = p_prefix p /\
  p_mappingTTL p' = p_mappingTTL p /\ p_persist p' = p_persist p.

Record quiet (p p' : Pool) : Prop := {
  qt_config : config_eq p p';
  qt_byDomain : forall d x, p_byDomain p' !! d = Some x -> p_byDomain p !! d = Some x;
  qt_kept : forall d a, assignment p' !! d = Some a -> assignment p !! d = Some a;
  qt_lost : forall d a, assignment p !! d = Some a ->
    assignment p' !! d = Some a \/ d ∈ p_pendingDeletes p';
  qt_pending : forall d, d ∈ p_pendingDeletes p -> d ∈ p_pendingDeletes p';
  qt_new : forall d, d ∈ p_pendingDeletes p' ->
    d ∈ p_pendingDeletes p \/ (is_Some (assignment p !! d) /\ assignment p' !! d = None);
  qt_dated : dated p -> dated p';
  qt_stable : stable p p'
}.

Lemma quiet_refl p : quiet p p.
Proof. split; auto; done. Qed.

Lemma quiet_pruned order now p p' six s e :
  pool_inv p six s e -> pool_inv p' six s e -> p_persist p = true ->
  (forall x, x ∈ order <-> exists en, live p x en) ->
  pruned order now p p' ->
  (forall d x, p_byDomain p' !! d = Some x -> p_byDomain p !! d = Some x) -> quiet p p'.
Proof.
  intros Hinv Hinv' Hper Horder [Hsh Hl Hpd] Hbd. pose proof (shrinks_config _ _ Hsh) as (Hmax & Hpre & _).
  split; try done.
  - unfold config_eq. split_and!; [done|done|apply (sh_ttl _ _ Hsh)|apply (sh_persist _ _ Hsh)].
  - intros d a (x & en & [Hx _]%Hl & <- & <-)%(assignment_Some Hinv'). apply (assignment_Some Hinv). eauto.
  - intros d a (x & en & Hx & <- & <-)%(assignment_Some Hinv).
    destruct (expired now en) eqn:Hexp.
    + right. apply Hpd. right. split; [done|]. exists x, en. split_and!; [apply Horder; eauto|done..].
    + left. apply (assignment_Some Hinv'). exists x, en. split; [|done]. apply Hl. split; [done|].
      intros [_ ?]. congruence.
  - intros d Hd. apply Hpd. by left.
  - intros d [Hd|(_ & x & en & Hx & Hlx & Hexp & <-)]%Hpd; [by left|right]. split.
    + exists (e_address en). apply (assignment_Some Hinv). eauto.
    + apply eq_None_not_Some. intros [a (y & en' & [Hy Hno]%Hl & Heq & _)%(assignment_Some Hinv')].
      assert (y = x) as -> by by eapply (live_domain_inj y x en' en).
      rewrite (live_det x en' en Hy Hlx) in Hno. auto.
  - intros Hd x en [Hx _]%Hl. by eapply Hd.
  - apply stable_store, (sh_store _ _ Hsh).
Qed.

Lemma quiet_prune now p six s e :
  pool_inv p six s e -> p_persist p = true -> quiet p (pruneLocked now p).
Proof.
  intros Hinv Hper. destruct (pruneLocked_spec now _ _ _ _ Hinv) as [Hinv' Hpr].
  eapply quiet_pruned; [done|done|done|apply (mapped_live Hinv)|done|].
  intros d x (en & Hl & <-)%(byDomain_live Hinv'). apply Hpr in Hl as [(_ & ? & _) _]. done.
Qed.

Lemma quiet_delete x en p six s e :
  pool_inv p six s e -> p_persist p = true -> live p x en -> quiet p (deleteLocked x p).
Proof.
  intros Hinv Hper Hl. pose proof Hl as (Hst & _).
  pose proof (deleteLocked_removes _ _ _ _ _ _ Hinv Hl) as Hr.
  pose proof (removes_inv _ _ _ _ _ _ Hinv Hr) as Hinv'.
  pose proof (assignment_removes _ _ _ _ _ _ _ Hinv Hl Hr) as Ha.
  destruct (deleteLocked_maps x en p Hst) as (_ & _ & Hpd). rewrite Hper in Hpd.
  pose proof (deleteLocked_shrinks x p) as Hsh. pose proof (shrinks_config _ _ Hsh) as (Hmax & Hpre & _).
  split.
  - unfold config_eq. split_and!; [done|done|apply (sh_ttl _ _ Hsh)|apply (sh_persist _ _ Hsh)].
  - intros d y Hy. apply Hr in Hy. apply Hy.
  - intros d a. rewrite Ha. by intros [_ ?]%lookup_delete_Some.
  - intros d a Hd. rewrite Ha, Hpd. destruct (decide (d = e_domain en)) as [->|Hne]; [right; set_solver|].
    left. by rewrite lookup_delete_ne.
  - intros d. rewrite Hpd. set_solver.
  - intros d. rewrite Hpd, elem_of_union, elem_of_singleton. intros [->|?]; [right|by left]. split.
    + exists (e_address en). apply (assignment_Some Hinv). eauto.
    + rewrite Ha. apply lookup_delete_eq.
  - intros Hd y en' Hy. apply Hr in Hy as [Hy _]. by eapply Hd.
  - apply stable_store, (sh_store _ _ Hsh).
Qed.

Lemma quiet_write x en expires n p six s e :
  pool_inv p six s e -> p_store p !! x = Some en -> 0 <= n < 2 ^ 64 ->
  expires = e_expiresAt en \/ 0 < expires ->
  quiet p (store_entry x (MkEntry (e_domain en) (e_address en) expires n) p).
Proof.
  intros Hinv Hst Hn Hexp. set (en' := MkEntry _ _ _ _).
  destruct (store_entry_same p six s e x en en') as [Hsm Hinv']; try done.
  pose proof (same_mappings_assignment _ _ _ _ _ Hinv Hinv' Hsm) as Ha.
  split; try done.
  - intros d a. by rewrite Ha.
  - intros d a Hd. left. by rewrite Ha.
  - by left.
  - intros Hd y en1 (Hy & Hy1 & Hy2). cbn in Hy, Hy1, Hy2. apply lookup_insert_Some in Hy as [[<- <-]|[_ Hy]].
    + destruct Hexp as [->|?]; [|done]. apply (Hd x en). by split.
    + by apply (Hd y en1).
  - by apply stable_same_mappings.
Qed.

(** ** A quiet step keeps the invariant *)

Lemma covers_quiet six s e limit pre sn removed p p' :
  covers six s e limit pre sn removed p -> quiet p p' ->
  (forall d, d ∈ removed -> assignment p !! d = None) ->
  covers six s e limit pre sn removed p'.
Proof.
  intros (m & Hc & H1 & H2) Hq Hdis. exists m. split_and!; [done| |].
  - intros d a Hd. apply H1. by apply Hq.
  - intros d a Hd. destruct (H2 d a Hd) as [Hp|[Hp Hr]].
    + destruct (qt_lost _ _ Hq _ _ Hp) as [?|?]; [by left|right]. split; [done|].
      intros Hin. apply Hdis in Hin. congruence.
    + right. split; [by apply Hq|done].
Qed.

Lemma quiet_alloc_ok six s e limit p p' om a :
  alloc_ok six s e limit p om a -> quiet p p' -> alloc_ok six s e limit p' om a.
Proof.
  intros [] Hq. split; try done.
  - intros d Hd. apply Hq. auto.
  - destruct ao_entry0 as (en & Hst & Hd & Ha). destruct (qt_stable _ _ Hq _ _ Hst) as (en' & Hst' & Hd' & Ha').
    exists en'. by rewrite Hd', Ha'.
  - intros x Hx. apply ao_same0. by apply Hq.
  - intros [b Hb] [Hd|[_ Hn]]%(qt_new _ _ Hq); [|congruence].
    apply ao_self0; [|done]. exists b. by apply Hq.
  - intros Hno. destruct (assignment p !! pa_domain a) as [b|] eqn:Hb; [|apply Hq; auto].
    destruct (qt_lost _ _ Hq _ _ Hb); [congruence|done].
Qed.

Lemma quiet_inv six s e limit ttl pre p p' w hs hs' now now' un base journal ep taken doubt om :
  disk_inv six s e limit ttl pre (MkDurable (MkSystem p w hs now un) base journal ep taken doubt) om ->
  pool_inv p' six s e -> quiet p p' -> 0 < now' ->
  disk_inv six s e limit ttl pre (MkDurable (MkSystem p' w hs' now' un) base journal ep taken doubt) om.
Proof.
  intros [[Hinv Hh] Hcfg Hclk Hper Hdat Hnam Hfil Hcer Hdsk Hliv Hsta Hpen Hwri] Hinv' Hq Hnow.
  du_fields. sys_fields.
  destruct (qt_config _ _ Hq) as (Hq1 & Hq2 & Hq3 & Hq4).
  split; du_fields; sys_fields; rewrite ?Hq1, ?Hq2, ?Hq3, ?Hq4; try tauto.
  - split; [done|]. by eapply home_shrinks.
  - by apply Hq.
  - intros d [?|[[a Ha] _]]%(qt_new _ _ Hq); [auto|].
    apply (assignment_Some Hinv) in Ha as (x & en & Hl & <- & _).
    apply (i_canonical _ _ _ _ Hinv x en Hl).
  - destruct om as [m|]; [|done]. intros d a Hd. apply Hliv. by apply Hq.
  - destruct om as [m|]; [|done]. intros d a Hd. destruct (Hsta d a Hd) as [[Hp Hf]|Hp]; [|right; by apply Hq].
    destruct (qt_lost _ _ Hq _ _ Hp); auto.
  - intros d [Hd|[_ ?]]%(qt_new _ _ Hq); [|by left]. destruct (Hpen d Hd) as [Hn|?]; [left|by right].
    apply eq_None_not_Some. intros [a Ha]. apply Hq in Ha. congruence.
  - assert (Hdis : forall d, d ∈ p_pendingDeletes p -> ~ in_flight w d -> assignment p !! d = None).
    { intros d Hd Hno. destruct (Hpen d Hd); tauto. }
    destruct w as [|a|sn removed]; [done| |].
    + destruct Hwri as [Hok Hcov]. split; [by eapply quiet_alloc_ok|].
      destruct taken as [sn|]; [|done]. eapply covers_quiet; [done|done|].
      intros d [Hne Hd]%list_elem_of_filter. apply Hdis; [by apply (ao_pending _ _ _ _ _ _ _ Hok)|]. cbn. congruence.
    + destruct Hwri as (-> & Hrem & Hcov). split; [done|]. split; [intros d Hd; apply Hq; auto|].
      eapply covers_quiet; [done|done|]. intros d Hd. apply Hdis; [auto|]. by intros [].
Qed.

(** ** Allocation *)

Lemma assignment_size_of p six s e : pool_inv p six s e -> size (assignment p) = size (p_byDomain p).
Proof.
  intros Hinv. rewrite <- !size_dom. f_equal. apply set_eq. intros d.
  rewrite !elem_of_dom, <- !not_eq_None_Some. by rewrite (assignment_None _ _ _ _ _ Hinv).
Qed.

Lemma elem_of_sorted_names d names : d ∈ sorted_names names <-> d ∈ names.
Proof.
  unfold sorted_names. rewrite (merge_sort_Permutation String.le (elements names)). apply elem_of_elements.
Qed.

Section steps.
Context {six : bool} {s e limit ttl : Z} {pre : prefix}.

(** The insertion of a fresh mapping, from a pruned pool. *)
Lemma insert_disk_inv p p2 hs now un base journal ep doubt om d v x :
  disk_inv six s e limit ttl pre (MkDurable (MkSystem p Idle hs now un) base journal ep None doubt) om ->
  canonical d -> s <= v < e -> assignment p !! d = None -> p_byAddress p !! fam six v = None ->
  Z.of_nat (size (assignment p)) < limit ->
  pool_inv p2 six s e -> assignment p2 = <[d := fam six v]> (assignment p) ->
  p_byDomain p2 = <[d := x]> (p_byDomain p) ->
  p_pendingDeletes p2 = p_pendingDeletes p -> config_eq p p2 -> dated p2 ->
  (exists en, p_store p2 !! x = Some en /\ e_domain en = d /\ e_address en = fam six v) ->
  let removed := sorted_names (p_pendingDeletes p) in
  disk_inv six s e limit ttl pre (MkDurable (MkSystem p2
    (Allocating (MkPendingAlloc x d (fam six v) removed
      (MkUpdate now removed (MkMapping d (addr_text (fam six v)) (now + ttl))))) hs now un) base journal ep None doubt) om.
Proof.
  intros [[Hinv Hh] (Hlim & Hpre & Httl) Hclk Hper Hdat Hnam Hfil Hcer Hdsk Hliv Hsta Hpen _]
    Hd Hv Hnd Hna Hsize Hinv2 Ha2 Hbd2 Hpd2 Hcfg2 Hdat2 Hen removed.
  du_fields. sys_fields. destruct Hcfg2 as (Hq1 & Hq2 & Hq3 & Hq4).
  assert (Hrem : forall d', d' ∈ removed <-> d' ∈ p_pendingDeletes p) by (intros; apply elem_of_sorted_names).
  assert (Hold : certain om (fun m => forall d' b, m !! d' = Some b -> d' ∉ removed -> assignment p !! d' = Some b)).
  { destruct om as [m|]; [|done]. intros d' b Hb Hno. destruct (Hsta d' b Hb) as [[? _]|Hp]; [done|]. by apply Hrem in Hp. }
  assert (Hlook : forall d' b, assignment p2 !! d' = Some b <->
    (d' = d /\ b = fam six v) \/ (d' <> d /\ assignment p !! d' = Some b)).
  { intros d' b. rewrite Ha2, lookup_insert_Some. naive_solver. }
  split; du_fields; sys_fields; rewrite ?Hq1, ?Hq2, ?Hq3, ?Hq4, ?Hpd2; try tauto.
  - split; [done|]. by eapply home_shrinks.
  - destruct om as [m|]; [|done]. intros d' b [[-> ->]|[Hne Hb]]%Hlook; [by left|].
    destruct (Hliv d' b Hb) as [[]|?]. by right.
  - destruct om as [m|]; [|done]. intros d' b Hb. destruct (Hsta d' b Hb) as [[Hp _]|Hp]; [left|by right]. split.
    + apply Hlook. right. split; [congruence|done].
    + cbn. congruence.
  - intros d' Hp. destruct (decide (d' = d)) as [->|Hne]; [by right|left].
    destruct (Hpen d' Hp) as [Hn|[]]. apply eq_None_not_Some. intros [b [[? _]|[_ ?]]%Hlook]; congruence.
  - split; [|done]. split; cbn [pa_candidate pa_update pa_domain pa_removed pa_ptr u_Removed u_Mapping].
    + exists v. split; [done|]. split; cbn; [exists (now + ttl); split; [done|lia]|done|done|].
      apply Forall_forall. intros d' Hd'%Hrem. by apply Hnam.
    + apply Hclk.
    + done.
    + intros d' Hd'. rewrite Hpd2. by apply Hrem.
    + destruct om as [m|]; [|done]. eapply Z.le_lt_trans; [|exact Hsize]. apply inj_le. rewrite <- !size_dom.
      apply subseteq_size. intros d'. rewrite !elem_of_dom. intros [b Hb].
      apply forget_addr_lookup in Hb as [[_ Hb]%lookup_delete_Some _]. apply forget_lookup in Hb as [Hb Hno].
      exists b. by apply Hold.
    + destruct om as [m|]; [|done]. intros d' b Hb Hno Hne. specialize (Hold d' b Hb Hno). intros ->.
      by eapply (byAddress_None _ _ _ _ _ Hinv) in Hna.
    + done.
    + intros y. rewrite Hbd2. rewrite lookup_insert_eq. congruence.
    + intros _ Hp. apply Hrem. by rewrite Hpd2 in Hp.
    + rewrite Ha2, lookup_insert_eq. done.
Qed.

(** What holds of the pool whatever the files hold. *)
Record pool_ok (p : Pool) (now : Z) : Prop := {
  po_good : good p six s e;
  po_config : p_maxMappings p = limit /\ p_prefix p = pre /\ p_mappingTTL p = ttl;
  po_clock : 0 < ttl /\ 0 < now;
  po_persist : p_persist p = true;
  po_dated : dated p;
  po_names : forall d, d ∈ p_pendingDeletes p -> canonical d
}.

Lemma disk_inv_pool p w hs now un base journal ep taken doubt om :
  disk_inv six s e limit ttl pre (MkDurable (MkSystem p w hs now un) base journal ep taken doubt) om ->
  pool_ok p now.
Proof. by intros []. Qed.

(** The invariant when no call is running. *)
Lemma idle_inv p hs now un base journal ep doubt om :
  pool_ok p now -> own_files six s e limit pre base journal -> validJournalEpoch ep = true ->
  (doubt = false -> is_Some om) ->
  certain om (fun m => disk_is six s e limit pre base journal m /\ ep = sn_JournalEpoch base) ->
  certain om (fun m => forall d a, assignment p !! d = Some a -> m !! d = Some a) ->
  certain om (fun m => forall d a, m !! d = Some a -> assignment p !! d = Some a \/ d ∈ p_pendingDeletes p) ->
  (forall d, d ∈ p_pendingDeletes p -> assignment p !! d = None) ->
  disk_inv six s e limit ttl pre (MkDurable (MkSystem p Idle hs now un) base journal ep None doubt) om.
Proof.
  intros [] Hfiles Hep Hdoubt Hdisk Hlive Hstale Hpend. split; du_fields; sys_fields; try done.
  - destruct om as [m|]; [|done]. intros d a Hd. right. by apply Hlive.
  - destruct om as [m|]; [|done]. intros d a Hd. destruct (Hstale d a Hd); [left|by right]. split; [done|]. by intros [].
  - intros d Hd. left. auto.
Qed.

(** Files in doubt constrain nothing. *)
Lemma doubt_inv p hs now un base journal ep :
  pool_ok p now -> own_files six s e limit pre base journal -> validJournalEpoch ep = true ->
  (forall d, d ∈ p_pendingDeletes p -> assignment p !! d = None) ->
  disk_inv six s e limit ttl pre (MkDurable (MkSystem p Idle hs now un) base journal ep None true) None.
Proof. intros. by apply idle_inv. Qed.

Lemma drop_pending_quiet_fields removed p :
  assignment (drop_pending removed p) = assignment p /\
  (forall d, d ∈ p_pendingDeletes (drop_pending removed p) <-> d ∈ p_pendingDeletes p /\ d ∉ removed).
Proof.
  split; [done|]. intros d. unfold drop_pending, set_pending. cbn [p_pendingDeletes].
  by rewrite elem_of_difference, elem_of_list_to_set.
Qed.

Lemma drop_pool_ok removed p now : pool_ok p now -> pool_ok (drop_pending removed p) now.
Proof.
  intros [[Hinv Hh] ? ? ? ? Hnam]. split; try done.
  - split; [by apply drop_pending_inv|]. by eapply home_shrinks.
  - intros d [Hd _]%drop_pending_quiet_fields. auto.
Qed.

(** The mapping in flight, while it is still there. *)
Lemma in_flight_entry p om a b :
  pool_inv p six s e -> alloc_ok six s e limit p om a ->
  assignment p !! pa_domain a = Some b -> b = pa_candidate a.
Proof.
  intros Hinv Hok (x & en & Hl & Hd & <-)%(assignment_Some Hinv).
  destruct (ao_entry _ _ _ _ _ _ _ Hok) as (en' & Hst & _ & Ha).
  destruct Hl as (Hst' & Hbd & _). rewrite Hd in Hbd.
  rewrite (ao_same _ _ _ _ _ _ _ Hok x Hbd) in Hst'. congruence.
Qed.

Lemma still_mapped_assignment p om a hs now un :
  pool_inv p six s e -> alloc_ok six s e limit p om a ->
  still_mapped (MkSystem p (Allocating a) hs now un) = true <-> assignment p !! pa_domain a = Some (pa_candidate a).
Proof.
  intros Hinv Hok. unfold still_mapped. sys_fields. rewrite bool_decide_eq_true.
  destruct (ao_entry _ _ _ _ _ _ _ Hok) as (en' & Hst & _ & Ha). split.
  - intros (en & Hl & Hd)%(byDomain_live Hinv).
    apply (assignment_Some Hinv). exists (pa_ptr a), en. split_and!; [done|done|].
    destruct Hl as (Hst' & _). congruence.
  - intros (x & en & (_ & Hbd & _) & Hd & _)%(assignment_Some Hinv). rewrite Hd in Hbd.
    by rewrite Hbd, (ao_same _ _ _ _ _ _ _ Hok x Hbd).
Qed.

(** After a call that succeeds, the mapping is there, or its removal is still
    to be recorded, or the call counts as strayed. *)
Lemma in_flight_cases p om a hs now un :
  pool_inv p six s e -> alloc_ok six s e limit p om a ->
  assignment p !! pa_domain a = Some (pa_candidate a) \/
  (assignment p !! pa_domain a = None /\ pa_domain a ∈ p_pendingDeletes p /\
   (strays (MkSystem p (Allocating a) hs now un) = false -> pa_domain a ∉ pa_removed a)).
Proof.
  intros Hinv Hok. pose proof (still_mapped_assignment _ _ _ hs now un Hinv Hok) as Hs.
  unfold strays. sys_fields. destruct (still_mapped _) eqn:Hm; [left; by apply Hs|right].
  destruct (assignment p !! pa_domain a) as [b|] eqn:Hb.
  { pose proof (in_flight_entry _ _ _ _ Hinv Hok Hb) as ->. by destruct Hs as [_ ?%(fun H => H eq_refl)]. }
  split_and!; [done|by apply (ao_gone _ _ _ _ _ _ _ Hok)|]. cbn [negb andb]. by rewrite bool_decide_eq_false.
Qed.

Lemma pending_in_flight p a removed om :
  alloc_ok six s e limit p om a -> removed = pa_removed a ->
  (forall d, d ∈ p_pendingDeletes p -> assignment p !! d = None \/ in_flight (Allocating a) d) ->
  forall d, d ∈ p_pendingDeletes (drop_pending removed p) -> assignment p !! d = None.
Proof.
  intros Hok -> Hpen d [Hd Hno]%drop_pending_quiet_fields. destruct (Hpen d Hd) as [?|Hf]; [done|]. cbn in Hf. subst d.
  apply eq_None_not_Some. intros Hs. by apply Hno, (ao_self _ _ _ _ _ _ _ Hok).
Qed.

(** ** Appending *)

Lemma readable_app ls r :
  (readable ls).2 = true -> readable (ls ++ [Whole r]) = ((readable ls).1 ++ [r], true).
Proof.
  induction ls as [|[r'|] ls IH]; [done| |done]. cbn [app readable]. destruct (readable ls) as [rs b]. cbn in *.
  intros Hb. by rewrite IH.
Qed.

Lemma active_app base ls r :
  (readable ls).2 = true -> jr_Epoch r = sn_JournalEpoch base ->
  active base (ls ++ [Whole r]) = active base ls ++ [update_of r].
Proof.
  intros Hr He. unfold active. rewrite (readable_app _ _ Hr). cbn [fst].
  rewrite filter_app, fmap_app, (filter_cons_True _ r []) by done. done.
Qed.

Lemma own_record_line p a now om ep :
  pool_ok p now -> alloc_ok six s e limit p om a -> validJournalEpoch ep = true ->
  own_record six s e pre (record_line p ep (pa_update a)).
Proof.
  intros Hp Hok Hep. destruct (ao_update _ _ _ _ _ _ _ Hok) as (v & _ & Hu). pose proof (ao_stamp _ _ _ _ _ _ _ Hok).
  split; cbn; [done| |done|lia|].
  - by destruct (po_config _ _ Hp) as (_ & -> & _).
  - exists (pa_domain a), v. by destruct (pa_update a).
Qed.

Lemma own_files_app base journal l :
  own_files six s e limit pre base journal -> own_line six s e pre l -> own_files six s e limit pre base (journal ++ [l]).
Proof. intros [] Hl. split; [done|done|]. apply Forall_app. split; [done|]. by apply Forall_singleton. Qed.

(** What the disk stands for after the record of an allocation. *)
Definition recorded (a : pending_alloc) (m : amap) : amap :=
  <[pa_domain a := pa_candidate a]> (forget_addr (pa_candidate a) (delete (pa_domain a) (forget (pa_removed a) m))).

Lemma recorded_lookup p a m d b :
  alloc_ok six s e limit p (Some m) a ->
  recorded a m !! d = Some b <->
    (d = pa_domain a /\ b = pa_candidate a) \/ (d <> pa_domain a /\ m !! d = Some b /\ d ∉ pa_removed a).
Proof.
  intros Hok. unfold recorded.
  rewrite lookup_insert_Some, forget_addr_lookup, lookup_delete_Some, forget_lookup. split.
  - intros [[-> ->]|(Hne & (_ & Hm & Hr) & _)]; [by left|right; done].
  - intros [[-> ->]|(Hne & Hm & Hr)]; [by left|right]. split_and!; try done.
    by apply (ao_free _ _ _ _ _ _ _ Hok d b).
Qed.

Lemma recorded_disk p now a m base journal :
  pool_ok p now -> alloc_ok six s e limit p (Some m) a -> disk_is six s e limit pre base journal m ->
  validJournalEpoch (sn_JournalEpoch base) = true ->
  disk_is six s e limit pre base
    (journal ++ [Whole (record_line p (sn_JournalEpoch base) (pa_update a))]) (recorded a m).
Proof.
  intros Hp Hok (Hr & m0 & l & Hc & Hown & Hrep) Hep. split; [by rewrite readable_app|].
  destruct (ao_update _ _ _ _ _ _ _ Hok) as (v & Hv & Hu).
  exists m0, (l ++ [(pa_removed a, pa_domain a, pa_candidate a)]). split_and!; [done| |].
  - rewrite active_app by done. apply own_updates_app; [done|].
    rewrite Hv, <- (ao_names _ _ _ _ _ _ _ Hok). unfold update_of, record_line. cbn.
    destruct (pa_update a) as [ts rem mp] eqn:Hpa. repeat constructor; apply Hu.
  - rewrite replay_map_snoc, Hrep. cbn. unfold apply_update.
    rewrite (proj2 (Z.leb_gt _ _)); [done|]. apply (ao_room _ _ _ _ _ _ _ Hok).
Qed.

(** The appended record. *)
Lemma append_disk_inv p a hs now un base journal ep doubt om :
  let st := MkSystem p (Allocating a) hs now un in
  disk_inv six s e limit ttl pre (MkDurable st base journal ep None doubt) om ->
  exists om', disk_inv six s e limit ttl pre
    (MkDurable (MkSystem (drop_pending (pa_removed a) p) Idle hs now un) base
       (journal ++ [Whole (record_line p ep (pa_update a))]) ep None (doubt || strays st)) om'.
Proof.
  intros st Hdi. pose proof (disk_inv_pool _ _ _ _ _ _ _ _ _ _ _ Hdi) as Hp. subst st.
  pose proof (drop_pool_ok (pa_removed a) _ _ Hp) as Hp'.
  destruct Hdi as [[Hinv Hh] _ _ _ _ _ [Hfil Hep] Hcer Hdsk Hliv Hsta Hpen [Hok _]]. du_fields. sys_fields.
  pose proof (own_files_app _ _ (Whole _) Hfil (own_record_line _ _ _ _ _ Hp Hok Hep)) as Hfil'.
  pose proof (pending_in_flight _ _ _ _ Hok eq_refl Hpen) as Hpen'.
  destruct (doubt || strays _) eqn:Hd; [exists None; by apply doubt_inv|].
  apply orb_false_iff in Hd as [-> Hd]. destruct (Hcer eq_refl) as [m ->]. cbn [certain] in *.
  destruct Hdsk as [Hdsk ->]. exists (Some (recorded a m)).
  pose proof (in_flight_cases _ _ _ hs now un Hinv Hok) as Hcase.
  apply idle_inv; try done; cbn [certain].
  - split; [|done]. apply (recorded_disk p now); [done|done|done|apply Hfil].
  - intros d b Hb. apply (recorded_lookup p); [done|]. destruct (decide (d = pa_domain a)) as [->|Hne].
    + left. split; [done|]. by eapply in_flight_entry.
    + right. split; [done|]. destruct (Hliv d b Hb) as [Hf|Hm]; [cbn in Hf; congruence|]. split; [done|].
      intros Hr. apply (ao_pending _ _ _ _ _ _ _ Hok) in Hr. destruct (Hpen d Hr) as [Hn|Hf]; [|cbn in Hf; congruence].
      change (assignment p !! d = Some b) in Hb. congruence.
  - intros d b Hb. apply (recorded_lookup p) in Hb as [[-> ->]|(Hne & Hb & Hno)]; [| |done].
    + destruct Hcase as [?|(_ & Hq & Hr)]; [by left|right]. apply drop_pending_quiet_fields. auto.
    + destruct (Hsta d b Hb) as [[? _]|?]; [by left|right]. by apply drop_pending_quiet_fields.
Qed.

(** ** Checkpoints *)

Lemma with_epoch_of sn m new :
  checkpoint_of six s e limit pre sn m -> checkpoint_of six s e limit pre (with_epoch new sn) m.
Proof. intros (q & taken & epoch & -> & Hq). by exists q, taken, new. Qed.

Lemma with_epoch_files sn m new journal :
  checkpoint_of six s e limit pre sn m -> validJournalEpoch new = true -> Forall (own_line six s e pre) journal ->
  own_files six s e limit pre (with_epoch new sn) journal.
Proof. intros Hc Hn Hj. split; [exists m; by apply with_epoch_of|done|done]. Qed.

Lemma active_unused sn new journal : unused new journal = true -> active (with_epoch new sn) journal = [].
Proof.
  intros [_ Hall]%andb_true_iff. unfold active. cbn [sn_JournalEpoch with_epoch].
  assert (filter (fun r => jr_Epoch r = new) (readable journal).1 = []) as ->; [|done].
  induction journal as [|[r|] journal IH]; [done| |done]. cbn [readable forallb] in *.
  apply andb_true_iff in Hall as [Hr Hall]. specialize (IH Hall). destruct (readable journal) as [rs b]. cbn [fst] in *.
  rewrite filter_cons_False by (by apply negb_true_iff, bool_decide_eq_false in Hr). done.
Qed.

(** A new snapshot in front of records that are not its own. *)
Lemma with_epoch_disk sn m new journal :
  checkpoint_of six s e limit pre sn m -> unused new journal = true -> (readable journal).2 = true ->
  disk_is six s e limit pre (with_epoch new sn) journal m.
Proof.
  intros Hc Hn Hr. split; [done|]. exists m, []. split_and!; [by apply with_epoch_of| |done].
  rewrite active_unused by done. constructor.
Qed.

Lemma unused_nil new : validJournalEpoch new = true -> unused new [] = true.
Proof. unfold unused. by intros ->. Qed.

(** A checkpoint taken while the allocation runs. *)
Lemma checkpoint_disk_inv p a hs now un base journal ep doubt sn om new :
  let st := MkSystem p (Allocating a) hs now un in
  disk_inv six s e limit ttl pre (MkDurable st base journal ep (Some sn) doubt) om ->
  validJournalEpoch new = true ->
  exists om', disk_inv six s e limit ttl pre
    (MkDurable (MkSystem (drop_pending (pa_removed a) p) Idle hs now un) (with_epoch new sn) [] new None (strays st)) om'.
Proof.
  intros st Hdi Hnew. pose proof (disk_inv_pool _ _ _ _ _ _ _ _ _ _ _ Hdi) as Hp. subst st.
  pose proof (drop_pool_ok (pa_removed a) _ _ Hp) as Hp'.
  destruct Hdi as [[Hinv Hh] _ _ _ _ _ _ _ _ _ _ Hpen [Hok (m & Hc & H1 & H2)]]. du_fields. sys_fields.
  pose proof (with_epoch_files _ _ _ _ Hc Hnew (Forall_nil_2 _)) as Hfil.
  pose proof (pending_in_flight _ _ _ _ Hok eq_refl Hpen) as Hpen'.
  destruct (strays _) eqn:Hd; [exists None; by apply doubt_inv|]. exists (Some m).
  pose proof (in_flight_cases _ _ _ hs now un Hinv Hok) as Hcase.
  apply idle_inv; try done; cbn [certain].
  - split; [|done]. apply with_epoch_disk; [done|by apply unused_nil|done].
  - intros d b Hb. destruct (decide (d = pa_domain a)) as [->|Hne].
    + destruct Hcase as [Hx|(Hn & Hq & Hr)].
      * left. pose proof (H1 _ _ Hx). change (assignment p !! pa_domain a = Some b) || idtac. congruence.
      * right. apply drop_pending_quiet_fields. auto.
    + destruct (H2 d b Hb) as [?|[Hq Hno]]; [by left|right]. apply drop_pending_quiet_fields. split; [done|].
      intros Hr. apply Hno. by apply list_elem_of_filter.
Qed.

Lemma flushed_disk_inv p hs now un base journal ep doubt sn removed om new :
  disk_inv six s e limit ttl pre (MkDurable (MkSystem p (Flushing sn removed) hs now un) base journal ep None doubt) om ->
  validJournalEpoch new = true ->
  exists om', disk_inv six s e limit ttl pre
    (MkDurable (MkSystem (drop_pending removed p) Idle hs now un) (with_epoch new sn) [] new None false) om'.
Proof.
  intros Hdi Hnew. pose proof (disk_inv_pool _ _ _ _ _ _ _ _ _ _ _ Hdi) as Hp.
  pose proof (drop_pool_ok removed _ _ Hp) as Hp'.
  destruct Hdi as [_ _ _ _ _ _ _ _ _ _ _ Hpen (_ & _ & m & Hc & H1 & H2)]. du_fields. sys_fields.
  exists (Some m). apply idle_inv; try done; cbn [certain].
  - by apply with_epoch_files with m.
  - split; [|done]. apply with_epoch_disk; [done|by apply unused_nil|done].
  - intros d b Hb. destruct (H2 d b Hb) as [?|?]; [by left|right]. by apply drop_pending_quiet_fields.
  - intros d [Hd _]%drop_pending_quiet_fields. by destruct (Hpen d Hd) as [?|[]].
Qed.

(** ** Failures *)

(** The pool after a failed persistence call, which takes the mapping back. *)
Lemma undone_pool p a hs now un base journal ep taken doubt om :
  disk_inv six s e limit ttl pre (MkDurable (MkSystem p (Allocating a) hs now un) base journal ep taken doubt) om ->
  let p' := (alloc_finish a false p).1 in
  pool_ok p' now /\ p_pendingDeletes p' = p_pendingDeletes p /\
  assignment p' = delete (pa_domain a) (assignment p) /\
  (forall d, d ∈ p_pendingDeletes p' -> assignment p' !! d = None).
Proof.
  intros [[Hinv Hh] (Hlim & Hpre & Httl) Hclk Hper Hdat Hnam _ _ _ _ _ Hpen [Hok _]].
  du_fields. sys_fields. set (p' := (alloc_finish a false p).1). cbn zeta.
  assert (Hp' : pool_inv p' six s e /\ config_eq p p' /\ dated p' /\ p_pendingDeletes p' = p_pendingDeletes p /\
    assignment p' = delete (pa_domain a) (assignment p)).
  { subst p'. unfold alloc_finish. case_bool_decide as Hx; cbn [fst].
    - apply (byDomain_live Hinv) in Hx as (en & Hl & <-). pose proof Hl as (Hst & _).
      pose proof (deleteUntracked_removes _ _ _ _ _ _ Hinv Hl) as Hr.
      pose proof (deleteUntracked_shrinks (pa_ptr a) p) as Hsh. split_and!.
      + by eapply removes_inv.
      + destruct (shrinks_config _ _ Hsh) as (? & ? & _). unfold config_eq.
        split_and!; [done|done|apply (sh_ttl _ _ Hsh)|apply (sh_persist _ _ Hsh)].
      + intros y en' Hy. apply Hr in Hy as [Hy _]. by eapply Hdat.
      + unfold deleteUntrackedLocked. by rewrite Hst.
      + by eapply assignment_removes.
    - split_and!; try done. rewrite delete_id; [done|]. apply (assignment_None _ _ _ _ _ Hinv).
      destruct (p_byDomain p !! pa_domain a) as [x|] eqn:Hx'; [|done].
      by rewrite (ao_same _ _ _ _ _ _ _ Hok x Hx') in Hx. }
  destruct Hp' as (Hinv' & (Hq1 & Hq2 & Hq3 & Hq4) & Hdat' & Hpd & Ha). clearbody p'.
  split_and!; [|done|done|].
  - split; rewrite ?Hq1, ?Hq2, ?Hq3, ?Hq4, ?Hpd; try done. split; [done|]. by eapply home_shrinks.
  - intros d. rewrite Hpd, Ha. intros Hd. destruct (Hpen d Hd) as [Hn|Hf]; [apply lookup_delete_None; by right|].
    cbn in Hf. subst d. apply lookup_delete_eq.
Qed.

(** A failure that left the files alone. *)
Lemma failed_disk_inv p a hs now un un' base journal ep taken doubt om :
  disk_inv six s e limit ttl pre (MkDurable (MkSystem p (Allocating a) hs now un) base journal ep taken doubt) om ->
  disk_inv six s e limit ttl pre
    (MkDurable (MkSystem (alloc_finish a false p).1 Idle hs now un') base journal ep None doubt) om.
Proof.
  intros Hdi. destruct (undone_pool _ _ _ _ _ _ _ _ _ _ _ Hdi) as (Hp & Hpd & Ha & Hpen').
  destruct Hdi as [_ _ _ _ _ _ [Hfil Hep] Hcer Hdsk Hliv Hsta _ _]. du_fields. sys_fields.
  apply idle_inv; try done; (destruct om as [m|]; [|done]); cbn [certain] in *; rewrite ?Ha, ?Hpd.
  - intros d b [Hne Hb]%lookup_delete_Some. destruct (Hliv d b Hb) as [Hf|?]; [|done]. cbn in Hf. congruence.
  - intros d b Hb. destruct (Hsta d b Hb) as [[Hp' Hf]|?]; [left|by right].
    rewrite lookup_delete_ne; [done|]. cbn in Hf. congruence.
Qed.

(** A failure that reached the files. *)
Lemma failed_doubt_inv p a hs now un un' base journal ep taken doubt om base' journal' ep' :
  disk_inv six s e limit ttl pre (MkDurable (MkSystem p (Allocating a) hs now un) base journal ep taken doubt) om ->
  own_files six s e limit pre base' journal' -> validJournalEpoch ep' = true ->
  disk_inv six s e limit ttl pre
    (MkDurable (MkSystem (alloc_finish a false p).1 Idle hs now un') base' journal' ep' None true) None.
Proof. intros Hdi Hfil Hep. destruct (undone_pool _ _ _ _ _ _ _ _ _ _ _ Hdi) as (Hp & _ & _ & Hpen). by apply doubt_inv. Qed.

Lemma idle_disk_inv p sn removed hs now un base journal ep taken doubt om :
  disk_inv six s e limit ttl pre (MkDurable (MkSystem p (Flushing sn removed) hs now un) base journal ep taken doubt) om ->
  disk_inv six s e limit ttl pre (MkDurable (MkSystem p Idle hs now un) base journal ep None doubt) om.
Proof. intros []. by split. Qed.

(** A flush that failed behind the rename, and one that failed behind the
    change of the epoch, with the old journal in place or removed. *)
Lemma flush_failed_inv p hs now un base journal ep doubt sn removed om new :
  disk_inv six s e limit ttl pre (MkDurable (MkSystem p (Flushing sn removed) hs now un) base journal ep None doubt) om ->
  unused new journal = true ->
  let after journal ep doubt := MkDurable (MkSystem p Idle hs now un) (with_epoch new sn) journal ep None doubt in
  disk_inv six s e limit ttl pre (after journal ep true) None /\
  (exists om', disk_inv six s e limit ttl pre (after journal new doubt) om') /\
  exists om', disk_inv six s e limit ttl pre (after [] new false) om'.
Proof.
  intros Hdi Hnew after. pose proof (disk_inv_pool _ _ _ _ _ _ _ _ _ _ _ Hdi) as Hp.
  destruct Hdi as [_ _ _ _ _ _ [[_ _ Hown] Hep] Hcer Hdsk _ _ Hpen (_ & _ & m & Hc & H1 & H2)]. du_fields. sys_fields.
  assert (Hv : validJournalEpoch new = true) by (by apply andb_true_iff in Hnew as [? _]).
  assert (Hpen' : forall d, d ∈ p_pendingDeletes p -> assignment p !! d = None).
  { intros d Hd. by destruct (Hpen d Hd) as [?|[]]. }
  assert (Hgo : forall journal', Forall (own_line six s e pre) journal' -> unused new journal' = true ->
    (readable journal').2 = true -> disk_inv six s e limit ttl pre (after journal' new false) (Some m)).
  { intros journal' Hown' Hun' Hr'. apply idle_inv; try done; cbn [certain].
    - by eapply with_epoch_files.
    - split; [|done]. by apply with_epoch_disk.
    - intros d b Hb. destruct (H2 d b Hb) as [?|[? _]]; auto. }
  split_and!.
  - apply doubt_inv; [done|by eapply with_epoch_files|done|done].
  - destruct doubt; [exists None; apply doubt_inv; [done|by eapply with_epoch_files|done|done]|].
    destruct (Hcer eq_refl) as [m0 ->]. destruct Hdsk as [[Hr _] _]. exists (Some m). by apply Hgo.
  - exists (Some m). apply Hgo; [constructor|by apply unused_nil|done].
Qed.

Lemma checkpoint_of_snapshot p now :
  good p six s e -> dated p -> p_maxMappings p = limit -> p_prefix p = pre ->
  checkpoint_of six s e limit pre (snapshotLocked now p) (assignment p).
Proof. intros [Hinv _] Hd Hm Hp. by exists p, now, "". Qed.

(** The beginning of an allocation. *)
Lemma begin_disk_inv p hs now un base journal ep doubt om domain :
  disk_inv six s e limit ttl pre (MkDurable (MkSystem p Idle hs now un) base journal ep None doubt) om ->
  let '(p', r) := alloc_begin domain now p in
  disk_inv six s e limit ttl pre (MkDurable (MkSystem p' (after_begin r) hs now un) base journal ep None doubt) om.
Proof.
  intros Hdi. pose proof Hdi as [[Hinv Hh] (Hlim & Hpre & Httl) [Ht Hnow] Hper Hdat _ _ _ _ _ _ _ _].
  du_fields. sys_fields.
  destruct (Normalize domain) as [d|er] eqn:Hd; [|unfold alloc_begin; by rewrite Hd].
  pose proof (alloc_begin_spec _ _ _ _ domain d now Hinv Hd) as Hb.
  pose proof (alloc_begin_inv _ _ _ _ domain now Hinv) as Hinv'. apply Normalize_canonical in Hd.
  destruct (alloc_begin domain now p) as [p' r]. cbn [fst snd] in *.
  destruct (pruneLocked_spec now _ _ _ _ Hinv) as [Hinv1 [Hsh _ _]].
  pose proof (quiet_prune now _ _ _ _ Hinv Hper) as Hq1.
  destruct Hb as [x en Hl He|Hv Hsize|v w x p2 r Hv Hs Hvr Hwr Hfree Hins Hr].
  - cbn [after_begin]. eapply quiet_inv; [exact Hdi|done| |done]. destruct Hl as (Hst & _).
    eapply quiet_write; [exact Hinv|done|apply (i_refs _ _ _ _ Hinv x en Hst)|right; lia].
  - cbn [after_begin]. eapply quiet_inv; [exact Hdi|done| |done]. destruct Hq1. by split.
  - destruct (begin_insert _ _ _ _ _ _ _ _ _ _ Hinv Hd Hv Hs Hvr Hwr Hfree Hins) as (Hinv2 & Hnew & _ & Hlive & _).
    rewrite Hper in Hr. subst r. cbn [after_begin]. rewrite Httl in *.
    pose proof (quiet_inv _ _ _ _ _ _ _ _ _ _ hs _ now _ _ _ _ _ _ _ Hdi Hinv1 Hq1 Hnow) as Hdi1.
    assert (Hnone : assignment (pruneLocked now p) !! d = None).
    { rewrite (assignment_view _ _ _ _ _ Hinv1), (view_prune now _ _ _ _ Hinv). apply fmap_None.
      apply eq_None_not_Some. intros [en [? _]%unexpired_Some]. congruence. }
    injection Hins as Hx Hp2. subst x p2.
    eapply insert_disk_inv; [exact Hdi1|done|done|done|done| |exact Hinv2|..].
    + rewrite <- Hlim, <- (sh_max _ _ Hsh). rewrite (assignment_size_of _ _ _ _ Hinv1).
      rewrite <- (view_size Hinv1), (view_prune now _ _ _ _ Hinv). by rewrite (sh_max _ _ Hsh).
    + apply (assignment_insert (set_next (fam six w) (pruneLocked now p)) six s e d v (now + ttl)
        (set_next_inv _ _ _ _ w Hinv1 Hwr) Hinv2); [|done].
      by apply (assignment_None _ _ _ _ _ Hinv1).
    + done.
    + done.
    + done.
    + intros y en Hy. apply Hlive in Hy as [[Hy _]|[_ ->]]; [by eapply Hdat|]. cbn. lia.
    + destruct Hnew as (Hst & _). eexists. by split.
Qed.

(** The events that only concern the pool. *)
Lemma pool_disk_inv ev st st' base journal ep taken doubt om :
  pool_event ev = true -> sys_step ev st = Some st' ->
  disk_inv six s e limit ttl pre (MkDurable st base journal ep taken doubt) om ->
  disk_inv six s e limit ttl pre (MkDurable st' base journal ep taken doubt) om.
Proof.
  destruct st as [p w hs now un]. intros Hev Hst Hdi.
  pose proof Hdi as [[Hinv Hh] (Hlim & Hpre & _) [_ Hnow] Hper Hdat _ _ _ _ _ _ _ Hwri].
  du_fields. sys_fields.
  destruct ev as [domain|ok|a|a|x| | |ok| |now']; try done; cbn [sys_step] in Hst.
  - destruct w; try done. subst taken. pose proof (begin_disk_inv p hs now un base journal ep doubt om domain Hdi) as Hb.
    destruct (alloc_begin domain now p). by injection Hst as <-.
  - injection Hst as <-. unfold Lookup.
    destruct (byAddress_entry p a Hinv) as [->|(x & en & Hl & _ & ->)]; [done|].
    destruct (expired now en); [|done]. eapply quiet_inv; [exact Hdi| |by eapply quiet_delete|done].
    eapply removes_inv; [done|]. by eapply deleteLocked_removes.
  - destruct (_ <? _); [|done]. unfold Acquire in Hst.
    destruct (byAddress_entry p a Hinv) as [Hn|(x & en & Hl & _ & Hn)]; rewrite Hn in Hst;
      [by injection Hst as <-|].
    destruct (expired now en); injection Hst as <-.
    + eapply quiet_inv; [exact Hdi| |by eapply quiet_delete|done].
      eapply removes_inv; [done|]. by eapply deleteLocked_removes.
    + destruct Hl as (Hl & _).
      assert (Hw : 0 <= wrap64 (e_references en + 1) < 2 ^ 64) by (apply Z.mod_pos_bound; lia).
      eapply quiet_inv; [exact Hdi|by eapply store_entry_same|by eapply quiet_write; eauto|done].
  - destruct (take_handle x hs) as [hs'|]; [|done]. injection Hst as <-. unfold release.
    destruct (p_store p !! x) as [en|] eqn:Hx; [|by eapply quiet_inv; [exact Hdi|done|apply quiet_refl|done]].
    destruct (Z.ltb_spec 0 (e_references en)); [|by eapply quiet_inv; [exact Hdi|done|apply quiet_refl|done]].
    pose proof (i_refs _ _ _ _ Hinv x en Hx).
    assert (Hw : 0 <= e_references en - 1 < 2 ^ 64) by lia.
    eapply quiet_inv; [exact Hdi|by eapply store_entry_same|by eapply quiet_write; eauto|done].
  - injection Hst as <-. eapply quiet_inv; [exact Hdi|by apply pruneLocked_spec|by eapply quiet_prune|done].
  - destruct w; try done. unfold flush_begin in Hst. rewrite Hper in Hst. injection Hst as <-.
    destruct Hdi. split; du_fields; sys_fields; try done.
    split; [done|]. split; [intros d Hd; by apply elem_of_elements|].
    exists (assignment p). split_and!; [by apply checkpoint_of_snapshot|done|by left].
  - destruct (Z.leb_spec 0 now'); [|done]. injection Hst as <-. cbn in Hev. to_prop.
    eapply quiet_inv; [exact Hdi|done|apply quiet_refl|done].
Qed.
End steps.

(** ** Recovery *)

Section recovery.
Context {six : bool} {s e limit ttl : Z} {pre : prefix} {fresh : Pool}.
Hypothesis Hgood : good fresh six s e.
Hypothesis Hconfig : p_maxMappings fresh = limit /\ p_prefix fresh = pre /\ p_mappingTTL fresh = ttl.
Hypothesis Hempty : p_pendingDeletes fresh = ∅.

Lemma restore_checkpoint base m window now :
  checkpoint_of six s e limit pre base m -> validJournalEpoch (sn_JournalEpoch base) = true ->
  exists p, restore base window now fresh = Ok p /\ good p six s e /\ assignment p = m /\
    outer p = outer fresh /\ dated p.
Proof.
  intros (q & taken & epoch & -> & Hq & Hdq & Hpq & Hmq & <-) Hep. destruct Hconfig as (Hlim & Hpre & Httl).
  destruct (restore_snapshot q fresh six s e epoch window now taken) as (p & Hp & Hg & Ha & Ho & Hd);
    [done|done|done|congruence|congruence|by right|]. by exists p.
Qed.

(** Reading back the records of the process: those of the epoch of the
    snapshot are active. *)
Lemma active_loop_own rs wanted acc :
  Forall (own_record six s e pre) rs -> wanted <> "" ->
  active_loop rs true wanted (prefix_text pre) acc =
  Ok (acc ++ filter (fun r => jr_Epoch r = wanted) rs, wanted).
Proof.
  intros Hall Hw. revert acc. induction Hall as [|r rs [Hv Hp He Ht _] Hall IH]; intros acc; cbn [active_loop].
  - by rewrite app_nil_r.
  - rewrite Hv, Hp, He, Z.eqb_refl, bool_decide_eq_true_2 by done. rewrite (proj2 (Z.eqb_neq _ _) Ht).
    rewrite (bool_decide_eq_false_2 (wanted = "")) by done. cbn [negb guard_err andb].
    case_bool_decide as Heq; cbn [negb guard_err]; rewrite IH.
    + rewrite filter_cons_True by done. by rewrite <- app_assoc.
    + by rewrite filter_cons_False.
Qed.

Lemma readable_own journal :
  Forall (own_line six s e pre) journal -> Forall (own_record six s e pre) (readable journal).1.
Proof.
  induction 1 as [|[r|] journal Hr Hall IH]; cbn [readable]; [constructor| |constructor].
  destruct (readable journal) as [rs b]. by constructor.
Qed.

Lemma own_records_updates (rs : list journalRecord) :
  Forall (own_record six s e pre) rs -> exists l, own_updates six s e (update_of <$> rs) l.
Proof.
  induction 1 as [|r rs [_ _ _ _ (d & v & Hu)] Hall [l IH]]; [exists []; constructor|].
  eexists. cbn. by constructor.
Qed.

Lemma replay_loop_limit p until us l :
  good p six s e -> own_updates six s e us l -> replay_map (p_maxMappings p) l (assignment p) = None ->
  exists er, replay_loop us until p = Err er.
Proof.
  intros Hg Hown. revert p Hg. induction Hown as [|u us d v l Hu Hown IH]; intros p Hg; cbn; [done|].
  pose proof (replay_update_own p six s e until u d v Hg Hu) as Hstep.
  destruct (apply_update _ _ _ _ _) as [m1|]; cbn [mbind option_bind]; intros Hm; [|rewrite Hstep; by eexists].
  destruct Hstep as (p1 & -> & Hg1 & <- & Ho & _). cbn. apply IH; [done|].
  by assert (p_maxMappings p1 = p_maxMappings p) as -> by (by injection Ho).
Qed.

(** What opening makes of files that the process wrote.  Without quarantine,
    the pool has exactly the mappings that the files stand for. *)
Lemma reopen_own base journal window now :
  own_files six s e limit pre base journal ->
  exists p wanted due, reopen (Some base) journal window now fresh = (p, wanted, due) /\
    good p six s e /\ outer p = outer fresh /\ dated p /\
    (due = false -> wanted = sn_JournalEpoch base /\ disk_is six s e limit pre base journal (assignment p)) /\
    (forall m, disk_is six s e limit pre base journal m -> due = false /\ assignment p = m).
Proof.
  intros [[m1 Hc] Hep Hall]. unfold reopen.
  destruct (restore_checkpoint base m1 window now Hc Hep) as (p1 & Hp1 & Hg1 & Ha1 & Ho1 & Hd1). rewrite Hp1.
  apply readable_own in Hall. unfold disk_is, active. destruct (readable journal) as [rs whole]. cbn [fst snd] in *.
  unfold activeJournalRecords. rewrite Hep.
  assert (Hne : sn_JournalEpoch base <> "") by (intros He; by rewrite He in Hep).
  rewrite (bool_decide_eq_false_2 (sn_JournalEpoch base = "")) by done. cbn [negb andb guard_err].
  assert (Hpre1 : p_prefix p1 = pre /\ p_maxMappings p1 = limit).
  { injection Ho1. destruct Hconfig as (? & ? & _). split; congruence. }
  destruct Hpre1 as [-> Hmax]. rewrite active_loop_own by done. cbn [mbind result_bind app].
  assert (Hact : Forall (own_record six s e pre) (filter (fun r => jr_Epoch r = sn_JournalEpoch base) rs)).
  { apply Forall_forall. intros r [_ Hr]%list_elem_of_filter. by eapply Forall_forall in Hall. }
  set (act := filter (fun r => jr_Epoch r = sn_JournalEpoch base) rs) in *. unfold restoreJournal.
  assert (Hsame : forall m0, checkpoint_of six s e limit pre base m0 -> m0 = assignment p1).
  { intros m0 Hm0. destruct (restore_checkpoint base m0 window now Hm0 Hep) as (p0 & Hp0 & _ & <- & _). congruence. }
  destruct (own_records_updates _ Hact) as [l Hown]. destruct (replay_map limit l (assignment p1)) as [m|] eqn:Hrep.
  - rewrite <- Hmax in Hrep.
    destruct (replay_loop_own p1 six s e (now + window) _ l m Hg1 Hown Hrep) as (p2 & -> & Hg2 & Ha2 & Ho2 & Hd2).
    cbn [mbind result_bind]. rewrite bool_decide_eq_false_2 by done. cbn [orb].
    exists p2, (sn_JournalEpoch base), (negb whole). split_and!; [done|done|congruence|auto| |].
    + intros ->%negb_false_iff. split; [done|]. split; [done|]. exists m1, l.
      split_and!; [done|done|congruence].
    + intros m' (-> & m0 & l' & Hm0 & Hown' & Hrep'). split; [done|]. apply Hsame in Hm0 as ->. rewrite <- Hmax in Hrep'.
      destruct (replay_loop_own p1 six s e (now + window) _ l' m' Hg1 Hown' Hrep') as (p2' & Hp2' & _ & <- & _).
      destruct (replay_loop_own p1 six s e (now + window) _ l m Hg1 Hown Hrep) as (p2'' & Hp2'' & _ & <- & _). congruence.
  - rewrite <- Hmax in Hrep.
    destruct (replay_loop_limit p1 (now + window) _ l Hg1 Hown Hrep) as [er ->]. cbn [mbind result_bind].
    exists p1, "", true. split_and!; try done.
    intros m' (_ & m0 & l' & Hm0 & Hown' & Hrep'). apply Hsame in Hm0 as ->. rewrite <- Hmax in Hrep'.
    destruct (replay_loop_own p1 six s e (now + window) _ l' m' Hg1 Hown' Hrep') as (p2' & Hp2' & _).
    destruct (replay_loop_limit p1 (now + window) _ l Hg1 Hown Hrep) as [er' ?]. congruence.
Qed.

(** A reopened pool serves from here. *)
Lemma reopened_ok p now :
  good p six s e -> outer p = outer fresh -> dated p -> 0 < ttl -> 0 < now ->
  pool_ok (six := six) (s := s) (e := e) (limit := limit) (ttl := ttl) (pre := pre) (setPersistence p) now /\
  (forall d : string, d ∉ p_pendingDeletes (setPersistence p)).
Proof.
  intros [Hi Hh] Ho Hd Ht Hnow. destruct Hconfig as (Hlim & Hpre & Httl).
  unfold outer in Ho. rewrite Hempty in Ho. injection Ho as Ho1 Ho2 _ Ho4 Ho5 _.
  assert (Hnone : forall d : string, d ∉ p_pendingDeletes p) by (rewrite Ho5; intros d; apply not_elem_of_empty).
  split; [|done]. split; try done.
  - split; [by apply set_persist_inv|]. by eapply home_shrinks.
  - cbn. split_and!; congruence.
  - intros d Hd'. by apply Hnone in Hd'.
Qed.

Lemma restart_inv ds om window new ds' :
  disk_inv six s e limit ttl pre ds om -> disk_step fresh (DRestart window new) ds = Some ds' ->
  exists om', disk_inv six s e limit ttl pre ds' om'.
Proof.
  destruct ds as [st base journal ep taken doubt]. intros Hdi Hst.
  pose proof (di_clock _ _ _ _ _ _ _ _ Hdi) as [Ht Hnow]. pose proof (di_files _ _ _ _ _ _ _ _ Hdi) as [Hfil _].
  du_fields. destruct (reopen_own base journal window (sy_now st) Hfil) as (p & wanted & due & Hre & Hg & Ho & Hd & Hkept & _).
  assert (Hst' : disk_step fresh (DRestart window new) (MkDurable st base journal ep taken doubt) =
    if validJournalEpoch new then
      Some (if due then MkDurable (initial (setPersistence p) (sy_now st))
                          (with_epoch new (snapshotLocked (sy_now st) p)) [] new None false
            else MkDurable (initial (setPersistence p) (sy_now st)) base journal
                   (if bool_decide (wanted = "") then new else wanted) None false)
    else None) by (cbn; rewrite Hre; by destruct (sy_writer st), taken).
  rewrite Hst' in Hst. destruct (validJournalEpoch new) eqn:Hnew; [|done]. injection Hst as <-.
  destruct (reopened_ok p (sy_now st) Hg Ho Hd Ht Hnow) as [Hok Hnone].
  destruct Hconfig as (Hlim & Hpre & Httl).
  assert (Hc : checkpoint_of six s e limit pre (snapshotLocked (sy_now st) p) (assignment p)).
  { apply checkpoint_of_snapshot; try done; apply Hok. }
  assert (Hne : sn_JournalEpoch base <> "") by (pose proof (of_epoch _ _ _ _ _ _ _ Hfil) as He; by intros H; rewrite H in He).
  exists (Some (assignment p)). destruct due; (apply idle_inv; [done|..]); cbn [certain]; try done;
    try (intros d Hd'; by apply Hnone in Hd'); try (by left).
  - by apply with_epoch_files with (assignment p).
  - split; [|done]. apply with_epoch_disk; [done|by apply unused_nil|done].
  - destruct (Hkept eq_refl) as [-> _]. rewrite bool_decide_eq_false_2 by done. apply Hfil.
  - destruct (Hkept eq_refl) as [-> Hdisk]. split; [done|]. by rewrite bool_decide_eq_false_2.
Qed.

Lemma record_inv o st base journal ep doubt om ds' :
  disk_inv six s e limit ttl pre (MkDurable st base journal ep None doubt) om ->
  disk_step fresh (DRecord o) (MkDurable st base journal ep None doubt) = Some ds' ->
  exists om', disk_inv six s e limit ttl pre ds' om'.
Proof.
  destruct st as [p w hs now un]. intros Hdi Hst. cbn [disk_step] in Hst. sys_fields. destruct w as [|a|]; try done.
  pose proof (disk_inv_pool _ _ _ _ _ _ _ _ _ _ _ Hdi) as Hp.
  pose proof (di_files _ _ _ _ _ _ _ _ Hdi) as [Hfil Hep]. pose proof (di_writer _ _ _ _ _ _ _ _ Hdi) as [Hok _].
  du_fields. sys_fields. pose proof (own_record_line _ _ _ _ _ Hp Hok Hep) as Hown.
  destruct o; cbn in Hst; injection Hst as <-.
  - by apply append_disk_inv with om.
  - exists om. by eapply failed_disk_inv.
  - exists None. eapply failed_doubt_inv; [done| |done]. by apply own_files_app.
  - exists None. eapply failed_doubt_inv; [done| |done]. by apply own_files_app.
Qed.

Lemma checkpoint_inv new o st base journal ep sn doubt om ds' :
  disk_inv six s e limit ttl pre (MkDurable st base journal ep (Some sn) doubt) om ->
  disk_step fresh (DCheckpoint new o) (MkDurable st base journal ep (Some sn) doubt) = Some ds' ->
  exists om', disk_inv six s e limit ttl pre ds' om'.
Proof.
  destruct st as [p w hs now un]. intros Hdi Hst. cbn [disk_step] in Hst. sys_fields. destruct w as [|a|]; try done.
  destruct (unused new journal) eqn:Hnew; [|done]. assert (Hv : validJournalEpoch new = true) by (by apply andb_true_iff in Hnew as [? _]).
  pose proof (di_files _ _ _ _ _ _ _ _ Hdi) as [Hfil Hep]. pose proof (di_writer _ _ _ _ _ _ _ _ Hdi) as [_ (m & Hc & _)].
  du_fields. sys_fields. pose proof (of_journal _ _ _ _ _ _ _ Hfil) as Hown.
  destruct o as [| | |cleared]; cbn in Hst; injection Hst as <-.
  - by eapply checkpoint_disk_inv.
  - exists om. by eapply failed_disk_inv.
  - exists None. eapply failed_doubt_inv; [done|by eapply with_epoch_files|done].
  - exists None. eapply failed_doubt_inv; [done| |done]. eapply with_epoch_files; [done|done|]. by destruct cleared.
Qed.

Lemma flush_inv new o st base journal ep doubt om ds' :
  disk_inv six s e limit ttl pre (MkDurable st base journal ep None doubt) om ->
  disk_step fresh (DFlushed new o) (MkDurable st base journal ep None doubt) = Some ds' ->
  exists om', disk_inv six s e limit ttl pre ds' om'.
Proof.
  destruct st as [p w hs now un]. intros Hdi Hst. cbn [disk_step] in Hst. sys_fields. destruct w as [| |sn removed]; try done.
  destruct (unused new journal) eqn:Hnew; [|done]. assert (Hv : validJournalEpoch new = true) by (by apply andb_true_iff in Hnew as [? _]).
  destruct o as [| | |cleared]; cbn in Hst; injection Hst as <-.
  - by eapply flushed_disk_inv.
  - exists om. by eapply idle_disk_inv.
  - exists None. by eapply flush_failed_inv.
  - destruct cleared; by eapply flush_failed_inv.
Qed.

Lemma disk_step_inv ev ds ds' om :
  disk_inv six s e limit ttl pre ds om -> disk_step fresh ev ds = Some ds' ->
  exists om', disk_inv six s e limit ttl pre ds' om'.
Proof.
  destruct ds as [[p w hs now un] base journal ep taken doubt]. intros Hdi Hst.
  destruct ev as [ev|o| |new o|new o|window new].
  - cbn [disk_step] in Hst. sys_fields. destruct (pool_event ev) eqn:Hev; [|by destruct w, taken].
    destruct (sys_step ev _) as [st'|] eqn:Hs; [|by destruct w, taken]. exists om.
    assert (ds' = MkDurable st' base journal ep taken doubt) as -> by (by destruct w, taken; injection Hst as <-).
    by eapply pool_disk_inv.
  - destruct taken; [by destruct w|]. by eapply record_inv.
  - cbn [disk_step] in Hst. sys_fields. destruct w, taken; try done. injection Hst as <-. exists om.
    destruct Hdi. split; try done. du_fields; sys_fields. destruct di_writer0 as [Hok _]. split; [done|].
    exists (assignment p). destruct di_config0 as (? & ? & _). split_and!; [by apply checkpoint_of_snapshot|done|by left].
  - destruct taken; [|by destruct w]. by eapply checkpoint_inv.
  - destruct taken; [by destruct w|]. by eapply flush_inv.
  - by eapply restart_inv.
Qed.

Lemma disk_run_inv evs ds ds' om :
  disk_inv six s e limit ttl pre ds om -> disk_run fresh evs ds = Some ds' ->
  exists om', disk_inv six s e limit ttl pre ds' om'.
Proof.
  revert ds om. induction evs as [|ev evs IH]; intros ds om Hdi; cbn; [intros [= <-]; eauto|].
  destruct (disk_step fresh ev ds) as [ds1|] eqn:Hst; [|done]. cbn. intros Hr.
  destruct (disk_step_inv _ _ _ _ Hdi Hst) as [om1 Hdi1]. by eapply IH.
Qed.
End recovery.

(** ** A fresh directory *)

Lemma new_pool_good pre ttl mx rf p :
  prefix_wf pre -> rf < 2 ^ 63 -> no_mapped pre -> newPool pre ttl mx rf = Ok p ->
  0 < ttl /\ exists six, good p six (network pre + rf) (network pre + 2 ^ host_bits pre - 1).
Proof.
  intros Hwf Hrf Hmap Hnew. assert (Hpos : 0 < ttl /\ 1 <= rf).
  { revert Hnew. unfold newPool. intros H. inv_result. to_prop. lia. }
  destruct (newPool_facts _ _ _ _ _ Hwf Hrf Hnew) as [six Hf]. split; [lia|]. exists six.
  pose proof (np_family _ _ _ _ _ _ Hf) as Hfam. split; [apply (np_inv _ _ _ _ _ _ Hf)|].
  assert (Hval : prefix_valid pre = true) by apply (np_valid _ _ _ _ _ _ Hf). split.
  - rewrite (np_prefix _ _ _ _ _ _ Hf), masked_fields by done. cbn [prefix_addr].
    destruct Hwf as (_ & _ & Hzero). destruct (prefix_addr pre) as [|v|v z]; [|by subst six..].
    unfold prefix_valid in Hval. rewrite Hzero in Hval by done. done.
  - intros v Hv. rewrite (np_prefix _ _ _ _ _ _ Hf).
    replace v with (network pre + (v - network pre)) by lia. apply block_contained; [done|done|done|lia].
  - intros v Hv. destruct six; [|done]. cbn. apply Z.eqb_neq. apply Hmap; [done|lia].
Qed.

Lemma opened_inv fresh six s e now epoch :
  good fresh six s e -> 0 < p_mappingTTL fresh -> 0 < now -> validJournalEpoch epoch = true ->
  p_store fresh = ∅ -> p_byDomain fresh = ∅ -> p_pendingDeletes fresh = ∅ ->
  disk_inv six s e (p_maxMappings fresh) (p_mappingTTL fresh) (p_prefix fresh) (opened fresh now epoch) (Some ∅).
Proof.
  intros Hg Httl Hnow Hep Hst Hbd Hpd.
  assert (Ha : assignment fresh = ∅) by (unfold assignment; by rewrite Hbd, omap_empty).
  assert (Hd : dated fresh) by (intros x en (Hx & _); by rewrite Hst in Hx).
  destruct (reopened_ok (conj eq_refl (conj eq_refl eq_refl)) Hpd fresh now Hg eq_refl Hd Httl Hnow) as [Hok Hnone].
  assert (Hc : checkpoint_of six s e (p_maxMappings fresh) (p_prefix fresh) (snapshotLocked now fresh) ∅).
  { exists fresh, now, "". split_and!; try done. apply Hg. }
  apply idle_inv; try done; cbn [certain].
  - by eapply with_epoch_files.
  - split; [|done]. apply with_epoch_disk; [done|by apply unused_nil|done].
  - intros d a Hda. change (assignment fresh !! d = Some a) in Hda. by rewrite Ha in Hda.
  - intros d Hd'. by apply Hnone in Hd'.
Qed.

(** ** When the files are in doubt *)

(** Doubt begins only with a call that failed although it had reached the
    files, or with a mapping that expired while its name was both persisted
    and recorded as removed. *)
Lemma doubt_begins fresh ev ds ds' :
  disk_step fresh ev ds = Some ds' -> du_doubt ds = false -> du_doubt ds' = true ->
  strays (du_sys ds) = true \/
  match ev with
  | DRecord Kept | DRecord Partly | DCheckpoint _ Renamed | DCheckpoint _ (Switched _) | DFlushed _ Renamed => True
  | _ => False
  end.
Proof.
  destruct ds as [st base journal ep taken doubt]. cbn [du_doubt du_sys]. intros Hst -> Hd.
  destruct ev as [ev|o| |new o|new o|window new]; cbn [disk_step] in Hst.
  - destruct (pool_event ev); [|by destruct (sy_writer st), taken].
    destruct (sys_step ev st); destruct (sy_writer st), taken; by simplify_eq/=.
  - destruct (sy_writer st), taken, o; try done; try (by right); cbn [record_files] in Hst;
      destruct (sys_step _ st); try done; simplify_eq/=; by left.
  - destruct (sy_writer st), taken; try done. by simplify_eq/=.
  - destruct (sy_writer st), taken; try done. destruct (unused _ _); [|done].
    destruct o; try (by right); cbn [checkpoint_files] in Hst; destruct (sys_step _ st); try done;
      simplify_eq/=; by left.
  - destruct (sy_writer st), taken; try done. destruct (unused _ _); [|done].
    destruct o as [| | |[]]; try (by right); cbn [checkpoint_files] in Hst; destruct (sys_step _ st); try done;
      by simplify_eq/=.
  - destruct (validJournalEpoch new); [|by destruct (sy_writer st), taken].
    destruct (reopen _ _ _ _ _) as [[p wanted] []]; destruct (sy_writer st), taken; by simplify_eq/=.
Qed.

(** It ends with a restart, and with a checkpoint that succeeds. *)
Lemma doubt_ends fresh ev ds ds' :
  disk_step fresh ev ds = Some ds' -> strays (du_sys ds) = false ->
  match ev with DRestart _ _ | DCheckpoint _ Replaced | DFlushed _ Replaced => True | _ => False end ->
  du_doubt ds' = false.
Proof.
  destruct ds as [st base journal ep taken doubt]. cbn [du_doubt du_sys]. intros Hst Hs Hev.
  destruct ev as [ev|o| |new o|new o|window new]; try done; cbn [disk_step] in Hst.
  - destruct o; try done. destruct (sy_writer st), taken; try done. destruct (unused _ _); [|done].
    cbn [checkpoint_files] in Hst. destruct (sys_step _ st); [|done]. by simplify_eq/=.
  - destruct o; try done. destruct (sy_writer st), taken; try done. destruct (unused _ _); [|done].
    cbn [checkpoint_files] in Hst. destruct (sys_step _ st); [|done]. by simplify_eq/=.
  - destruct (validJournalEpoch new); [|by destruct (sy_writer st), taken].
    destruct (reopen _ _ _ _ _) as [[p wanted] []]; destruct (sy_writer st), taken; by simplify_eq/=.
Qed.

(** ** Properties *)


Lemma demo_no_mapped : no_mapped demo_prefix.
Proof. intros Hf. discriminate Hf. Qed.

(** The run of disk events on a fresh directory. *)
Definition disk_trial (evs : list disk_event) : option (Pool * durable) :=
  match newPool demo_prefix 100 2 1 with
  | Ok fresh => ds ← disk_run fresh evs (opened fresh 1 (demo_epoch "0")); Some (fresh, ds)
  | Err _ => None
  end.


(** ** What is lost in doubt *)

(** The mappings of the running process and those that a restart brings back,
    and whether files go into quarantine. *)
Definition before_and_after (evs : list disk_event) : option (list (string * addr) * list (string * addr) * bool) :=
  r ← disk_trial evs;
  let '(fresh, ds) := r in
  let '(p, _, due) := reopen (Some (du_base ds)) (du_journal ds) 50 500 fresh in
  Some (map_to_list (assignment (sy_pool (du_sys ds))), map_to_list (assignment p), due).

(** A checkpoint that fails between the rename and the change of the epoch:
    the process goes on to write the old epoch into its records, opening
    skips them, and the acknowledged mapping is lost with its address free
    again. *)
Example split_checkpoint_loses_records :
  before_and_after
    [DPool (EvAllocate "a.com"); DTake; DCheckpoint (demo_epoch "1") Renamed;
     DPool (EvAllocate "b.com"); DRecord Appended] =
  Some ([("b.com", Addr4 0xC6120002)], [("a.com", Addr4 0xC6120001)], false).
Proof. vm_compute. reflexivity. Qed.

(** A record that stays in the file although its call failed takes the room
    of a mapping: with the limit reached, the whole journal is rejected and
    the acknowledged mappings in it are lost. *)
Example kept_record_loses_journal :
  before_and_after
    [DPool (EvAllocate "a.com"); DRecord Kept; DPool (EvAllocate "b.com"); DRecord Appended;
     DPool (EvAllocate "c.com"); DRecord Appended] =
  Some ([("c.com", Addr4 0xC6120003); ("b.com", Addr4 0xC6120002)], [], true).
Proof. vm_compute. reflexivity. Qed.
