(* ===== verification/ConfigFacts.v ===== *)
(** * Component [internal/config]: what a compiled configuration guarantees

    The consumers' preconditions: the fallback relation of the outbounds is
    total and acyclic, both address pools can be created, the rules form an
    engine whose decisions name outbounds, and the files and addresses the
    program claims are distinct. *)

From S2P Require Import Prelude.
From S2P Require Import GoStrings.
From S2P Require Import GoTime.
From S2P Require Import GoFiles.
From S2P Require Import NetIP.
From S2P Require Import DomainName.
From S2P Require Import ConfigTypes.
From S2P Require Import ConfigCompile.
From S2P Require Import Rules.
From S2P Require Import NetIPText.
From S2P Require Import FakeIPPool.
From S2P Require Import FakeIPPoolFacts.
From S2P Require Import FakeIPNew.

(** [a] falls back to [b]. *)
Definition falls_back (m : gmap string Outbound) (a b : string) : Prop :=
  is_Some (m !! a) /\ fallback_of m a = b /\ b <> "".

(** A small document: two direct outbounds, one falling back to the other,
    and an IPv6 pool on [cidr6] with the TUN addresses [tun6]. *)
Definition demo_raw (cidr6 tun6 peer6 : string) : rawConfig := {|
  raw_Version := 1;
  raw_Log := MkRawLog "" "";
  raw_System := MkRawSystem "" "" None None;
  raw_Capture := MkRawCapture None;
  raw_TUN := MkRawTUN "" "" tun6 peer6 0 0 0;
  raw_FakeIP := MkRawFakeIP "" "" "" 0 "" None;
  raw_FakeIPv6 := if bool_decide (cidr6 = "") then None else Some (MkRawFakeIPv6 cidr6 0 "");
  raw_CDNS := MkRawDNS "" None None "lan" 0;
  raw_Sessions := MkRawSessions 0 "" 0 0;
  raw_Outbounds := <["vpn" := MkRawOutbound "direct" "utun3" "" ["10.1.0.1:53"] "" "lan"]>
    (<["lan" := MkRawOutbound "direct" "en0" "static" ["192.168.1.1:53"] "5s" ""]>
    (<["no" := MkRawOutbound "reject" "" "" [] "" ""]> ∅));
  raw_Rules := [MkRawRule ["Example.com."] [] ["10.0.0.0/8"] "vpn"; MkRawRule [] ["ads"] [] "no"; MkRawRule [] [] [] "lan"]
|}.

(** ** Fallbacks *)

Section fallbacks.
Context (m : gmap string Outbound).

Local Notation R := (falls_back m).
Local Notation ends := (Acc (flip R)).

(** Every finished name starts a finite chain. *)
Definition finished_end (st : gmap string visit_state) : Prop :=
  forall a, st !! a = Some Done -> ends a.

Lemma finished_end_visiting st a : finished_end st -> finished_end (<[a := Visiting]> st).
Proof. intros H b. destruct (decide (a = b)) as [->|]; [by rewrite lookup_insert_eq|]. rewrite lookup_insert_ne by done. apply H. Qed.

Lemma finished_end_done st a : finished_end st -> ends a -> finished_end (<[a := Done]> st).
Proof. intros H Ha b. destruct (decide (a = b)) as [->|]; [done|]. rewrite lookup_insert_ne by done. apply H. Qed.

Lemma visit_sound fuel a st st' :
  visit fuel m a st = Ok st' -> finished_end st ->
  finished_end st' /\ st' !! a = Some Done /\ (forall b, st !! b = Some Done -> st' !! b = Some Done).
Proof.
  revert a st st'. induction fuel as [|fuel IH]; intros a st st'; cbn [visit]; [done|].
  destruct (st !! a) as [[|]|] eqn:Ha; [done| |].
  { intros [= <-]. auto. }
  intros Hv Hst. inv_result. subst st'.
  destruct (decide (fallback_of m a = "")) as [Hn|Hn].
  - rewrite bool_decide_true in H by done. inv_result. subst x. rewrite insert_insert_eq. split_and!.
    + apply finished_end_done; [done|]. constructor. intros b (_ & Hb & Hne). congruence.
    + by rewrite lookup_insert_eq.
    + intros b Hb. destruct (decide (a = b)) as [->|]; [congruence|]. by rewrite lookup_insert_ne.
  - rewrite bool_decide_false in H by done.
    destruct (IH _ _ _ H (finished_end_visiting _ _ Hst)) as (Hx & Hnext & Hkeep). split_and!.
    + apply finished_end_done; [done|]. constructor. intros b (_ & <- & _). by apply Hx.
    + by rewrite lookup_insert_eq.
    + intros b Hb. destruct (decide (a = b)) as [->|]; [congruence|]. rewrite lookup_insert_ne by done.
      apply Hkeep. by rewrite lookup_insert_ne.
Qed.

Lemma visit_all_sound fuel names st st' :
  visit_all fuel m names st = Ok st' -> finished_end st ->
  finished_end st' /\ (forall a, a ∈ names -> st' !! a = Some Done) /\
  (forall b, st !! b = Some Done -> st' !! b = Some Done).
Proof.
  revert st. induction names as [|a names IH]; intros st; cbn [visit_all].
  - intros [= <-] H. split_and!; [done| |done]. by intros a ?%elem_of_nil.
  - intros Hv Hst. inv_result. destruct (visit_sound _ _ _ _ H Hst) as (Hx & Ha & Hk).
    destruct (IH _ Hv Hx) as (Hs & Hall & Hkeep). split_and!; [done| |by auto].
    intros b [->|Hb]%elem_of_cons; auto.
Qed.

(** The names on the stack of [visit] all lead to [a]. *)
Definition lead_to (st : gmap string visit_state) (a : string) : Prop :=
  forall b, st !! b = Some Visiting -> tc R b a.

Definition same_visiting (st st' : gmap string visit_state) : Prop :=
  forall b, st' !! b = Some Visiting <-> st !! b = Some Visiting.

Lemma visit_complete fuel a st :
  (forall a b, R a b -> is_Some (m !! b)) -> (forall a, ~ tc R a a) ->
  is_Some (m !! a) -> dom st ⊆ dom m -> lead_to st a -> (size m < fuel + size st)%nat ->
  exists st', visit fuel m a st = Ok st' /\ dom st' ⊆ dom m /\ same_visiting st st' /\ (size st <= size st')%nat.
Proof.
  intros Htargets Hacyclic. revert a st. induction fuel as [|fuel IH]; intros a st Ha Hdom Hlead Hfuel; cbn [visit].
  { apply subseteq_size in Hdom. rewrite !size_dom in Hdom. lia. }
  destruct (st !! a) as [[|]|] eqn:Hst.
  { by destruct (Hacyclic a (Hlead a Hst)). }
  { exists st. by split_and!. }
  set (st1 := <[a := Visiting]> st).
  assert (Hdom1 : dom st1 ⊆ dom m).
  { unfold st1. rewrite dom_insert. apply union_subseteq. split; [|done].
    apply singleton_subseteq_l. by apply elem_of_dom. }
  assert (Hsize1 : size st1 = S (size st)) by (by apply map_size_insert_None).
  assert (Hclose : forall st2, dom st2 ⊆ dom m -> same_visiting st1 st2 -> (size st1 <= size st2)%nat ->
    dom (<[a := Done]> st2) ⊆ dom m /\ same_visiting st (<[a := Done]> st2) /\
    (size st <= size (<[a := Done]> st2))%nat).
  { intros st2 Hd Hsame Hle. split_and!.
    - rewrite dom_insert. apply union_subseteq. split; [|done]. apply singleton_subseteq_l. by apply elem_of_dom.
    - intros b. destruct (decide (a = b)) as [<-|Hne].
      + rewrite lookup_insert_eq, Hst. naive_solver.
      + rewrite lookup_insert_ne by done. rewrite (Hsame b). unfold st1. by rewrite lookup_insert_ne.
    - assert (is_Some (st2 !! a)) as Hin by (exists Visiting; apply Hsame; unfold st1; by rewrite lookup_insert_eq).
      rewrite map_size_insert_Some by done. lia. }
  case_bool_decide as Hn.
  - cbn. eexists. split; [done|]. by apply Hclose.
  - assert (Hedge : R a (fallback_of m a)) by done.
    assert (Hlead1 : lead_to st1 (fallback_of m a)).
    { intros b Hb. unfold st1 in Hb. destruct (decide (a = b)) as [<-|Hne]; [by apply tc_once|].
      rewrite lookup_insert_ne in Hb by done. eapply tc_r; [by apply Hlead|done]. }
    destruct (IH (fallback_of m a) st1) as (st2 & Hv & Hd & Hsame & Hle);
      [by eapply Htargets|done|done|lia|].
    rewrite Hv. cbn. eexists. split; [done|]. by apply Hclose.
Qed.

Lemma visit_all_complete names st :
  (forall a b, R a b -> is_Some (m !! b)) -> (forall a, ~ tc R a a) ->
  (forall a, a ∈ names -> is_Some (m !! a)) -> dom st ⊆ dom m -> (forall b, st !! b <> Some Visiting) ->
  exists st', visit_all (S (size m)) m names st = Ok st'.
Proof.
  intros Htargets Hacyclic. revert st. induction names as [|a names IH]; intros st Hin Hdom Hst; cbn [visit_all]; [eauto|].
  destruct (visit_complete (S (size m)) a st) as (st1 & Hv & Hd & Hsame & _); try done.
  - apply Hin. by left.
  - intros b Hb. by destruct (Hst b).
  - lia.
  - rewrite Hv. cbn [mbind result_bind]. apply IH; [|done|].
    + intros b Hb. apply Hin. by right.
    + intros b Hb. apply Hsame in Hb. by destruct (Hst b).
Qed.

Lemma check_target_Ok a :
  check_target m a = Ok tt <-> (fallback_of m a = "" \/ (is_Some (m !! fallback_of m a) /\ fallback_of m a <> a)).
Proof.
  unfold check_target. case_bool_decide as Hn; [by split; [left|]|].
  rewrite !guard_err_Ok, negb_false_iff, bool_decide_eq_true, bool_decide_eq_false. naive_solver.
Qed.

Lemma check_targets_Ok names :
  check_targets m names = Ok tt <->
  forall a, a ∈ names -> fallback_of m a = "" \/ (is_Some (m !! fallback_of m a) /\ fallback_of m a <> a).
Proof.
  induction names as [|a names IH]; cbn [check_targets].
  - split; [|done]. by intros _ a ?%elem_of_nil.
  - rewrite bind_Ok. split.
    + intros ([] & Ha%check_target_Ok & Hn) b [->|Hb]%elem_of_cons; [done|]. by apply IH.
    + intros Hall. exists tt. split; [apply check_target_Ok, Hall; by left|].
      apply IH. intros b Hb. apply Hall. by right.
Qed.

Lemma ends_acyclic a : ends a -> ~ tc R a a.
Proof.
  intros Ha. assert (forall b, rtc R a b -> tc R b b -> False) as H; [|by intros ?; eapply H].
  induction Ha as [a _ IH]. intros b Hab Hbb.
  assert (Hstep : exists c, R a c /\ rtc R c b).
  { apply rtc_inv in Hab as [->|(c & Hac & Hcb)]; [|eauto].
    inversion Hbb as [? ? Hr|? c ? Hr Hrest]; subst; [eauto using rtc_refl|].
    exists c. split; [done|]. by apply tc_rtc. }
  destruct Hstep as (c & Hac & Hcb). by eapply IH.
Qed.
End fallbacks.

Lemma elem_of_map_names (m : gmap string Outbound) a : a ∈ map_names m <-> is_Some (m !! a).
Proof.
  unfold map_names. rewrite list_elem_of_fmap. split.
  - intros ([b o] & -> & Hb%elem_of_map_to_list). by exists o.
  - intros [o Ho]. exists (a, o). split; [done|]. by apply elem_of_map_to_list.
Qed.

(** ** Sections *)

Lemma bounded_Ok name value default low high v :
  bounded name value default low high = Ok v -> low <= v <= high.
Proof. unfold bounded. intros H. inv_result. to_prop. subst v. lia. Qed.

Lemma parsePositiveDuration_Ok name value d :
  parsePositiveDuration name value = Ok d -> 0 < d < 2 ^ 63.
Proof.
  unfold parsePositiveDuration. destruct (parse_duration value) as [x|] eqn:Hd; [|done].
  intros H. inv_result. to_prop. subst x. pose proof (parse_duration_bounds _ _ Hd). lia.
Qed.

Lemma validateAbsolutePath_Ok name value :
  validateAbsolutePath name value = Ok () <-> is_abs value = true /\ clean value = value.
Proof.
  unfold validateAbsolutePath. rewrite guard_err_Ok, orb_false_iff, !negb_false_iff, bool_decide_eq_true. naive_solver.
Qed.

Lemma compile_max_mappings_Ok name value usable v :
  compile_max_mappings name value usable = Ok v -> 0 < v <= usable.
Proof. unfold compile_max_mappings. intros H. inv_result. to_prop. subst v. lia. Qed.

(** A prefix with room for the reservations makes a pool. *)
Lemma newPool_Ok pre ttl mx :
  prefix_valid pre = true -> is4in6 (prefix_addr pre) = false -> masked pre = pre -> 0 < ttl -> 0 < mx ->
  (exists capacity, usableCapacity pre 10 = Some capacity /\ mx <= capacity) ->
  exists p, newPool pre ttl mx 10 = Ok p.
Proof.
  intros Hv H46 Hm Httl Hmx (capacity & Hc & Hle). unfold newPool. rewrite Hv, H46, Hm, Hc. cbn [negb orb].
  unfold guard_err. replace (ttl <=? 0) with false by (symmetry; apply Z.leb_gt; lia).
  replace (mx <=? 0) with false by (symmetry; apply Z.leb_gt; lia).
  replace (10 <? 1) with false by done. replace (capacity <? mx) with false by (symmetry; apply Z.ltb_ge; lia).
  eauto.
Qed.

Lemma mask_value_idempotent len bits v :
  0 <= bits <= len -> mask_value len bits (mask_value len bits v) = mask_value len bits v.
Proof.
  intros Hb. unfold mask_value. rewrite !Z.shiftl_mul_pow2, !Z.shiftr_div_pow2 by lia.
  rewrite Z.div_mul; [done|]. pose proof (Z.pow_pos_nonneg 2 (len - bits)). lia.
Qed.

(** A parsed prefix keeps its family and length when masked, and is then
    canonical. *)
Lemma masked_parsed s pre :
  parse_prefix s = Some pre ->
  prefix_valid (masked pre) = true /\ masked (masked pre) = masked pre /\
  prefix_bits (masked pre) = prefix_bits pre /\
  is4 (prefix_addr (masked pre)) = is4 (prefix_addr pre) /\
  is6 (prefix_addr (masked pre)) = is6 (prefix_addr pre) /\
  bit_len (prefix_addr (masked pre)) = bit_len (prefix_addr pre) /\
  0 <= prefix_bits pre <= bit_len (prefix_addr pre) /\ prefix_wf (masked pre).
Proof.
  intros (Hwf & Hav & Hz & Hb)%parse_prefix_facts.
  assert (Hval : prefix_valid pre = true) by (unfold prefix_valid; apply Z.ltb_lt; lia).
  rewrite masked_fields by done. destruct pre as [a b]. unfold prefix_valid, prefix_bits, prefix_wf in *.
  cbn [prefix_addr bits_plus_one] in *. rewrite masked_fields by done.
  unfold prefix_bits. cbn [prefix_addr bits_plus_one].
  destruct a as [|v|v z]; [done| |]; cbn in Hb, Hz, Hwf; cbn [mask_addr is4 is6 bit_len addr_wf addr_valid];
    rewrite mask_value_idempotent by lia.
  - destruct (mask_value_bounds 32 (b - 1) v) as (? & ? & _); [lia|lia|].
    assert (0 < 2 ^ (32 - (b - 1))) by (apply Z.pow_pos_nonneg; lia). split_and!; try done; lia.
  - destruct (mask_value_bounds 128 (b - 1) v) as (? & ? & _); [lia|lia|].
    assert (0 < 2 ^ (128 - (b - 1))) by (apply Z.pow_pos_nonneg; lia). split_and!; try done; lia.
Qed.

(** Masking never makes an address IPv4-mapped. *)
Lemma mask_not_mapped v bits :
  0 <= v -> 0 <= bits <= 128 -> Z.shiftr (mask_value 128 bits v) 32 = 0xffff -> Z.shiftr v 32 = 0xffff.
Proof.
  intros Hv Hb. unfold mask_value. rewrite Z.shiftl_mul_pow2, !Z.shiftr_div_pow2 by lia.
  remember (128 - bits) as h eqn:Hh. destruct (decide (h <= 32)) as [Hle|Hgt].
  - replace (2 ^ 32) with (2 ^ h * 2 ^ (32 - h)) by (rewrite <- Z.pow_add_r by lia; f_equal; lia).
    assert (0 < 2 ^ h) by (apply Z.pow_pos_nonneg; lia). assert (0 < 2 ^ (32 - h)) by (apply Z.pow_pos_nonneg; lia).
    rewrite <- !Z.div_div, Z.div_mul by lia. done.
  - replace (2 ^ h) with (2 * 2 ^ (h - 33) * 2 ^ 32)
      by (rewrite <- Z.pow_succ_r, <- Z.pow_add_r by lia; f_equal; lia).
    rewrite Z.mul_assoc, Z.div_mul by lia. intros H.
    assert (Z.even 0xffff = true) as Heven; [|done].
    rewrite <- H, Z.mul_assoc, (Z.mul_comm _ 2), <- !Z.mul_assoc, Z.even_mul. done.
Qed.

(** A unique-local prefix stays above the IPv4-mapped addresses. *)
Lemma private_prefix s pre :
  parse_prefix s = Some pre -> is6 (prefix_addr pre) = true -> is4in6 (prefix_addr pre) = false ->
  is_private (prefix_addr (masked pre)) = true ->
  is4in6 (prefix_addr (masked pre)) = false /\ 0x7e * 2 ^ 121 <= network (masked pre) /\ no_mapped (masked pre).
Proof.
  intros Hs H6 H46 Hpriv. pose proof (masked_parsed _ _ Hs) as (Hval & Hmm & Hbits & _ & _ & _ & Hb & Hwf).
  pose proof (parse_prefix_facts _ _ Hs) as (Hawf & _ & _ & Hb1).
  assert (Hval0 : prefix_valid pre = true) by (unfold prefix_valid; apply Z.ltb_lt; lia).
  unfold no_mapped, network, host_bits. rewrite Hbits. rewrite masked_fields in * by done.
  destruct pre as [[|v|v z] b]; try done. unfold prefix_bits in *.
  cbn [prefix_addr bits_plus_one mask_addr bit_len addr_val is4in6] in *.
  assert (Hn : (Z.shiftr (mask_value 128 (b - 1) v) 32 =? 0xffff) = false).
  { apply Z.eqb_neq. intros H%mask_not_mapped; [|cbn in Hawf; lia|lia]. by rewrite H in H46. }
  split; [done|]. rewrite mask_value_idempotent by lia.
  unfold is_private, unmap, is4in6 in Hpriv. rewrite Hn in Hpriv. apply Z.eqb_eq in Hpriv.
  rewrite Z.shiftr_div_pow2 in Hpriv by lia.
  assert (Hlow : 0x7e * 2 ^ 121 <= mask_value 128 (b - 1) v) by (rewrite <- Hpriv, Z.mul_comm; apply Z.mul_div_le; lia).
  split; [done|]. intros _ w Hw. rewrite Z.shiftr_div_pow2 by lia. intros H.
  assert (w < 0x10000 * 2 ^ 32); [|lia]. pose proof (Z.mul_succ_div_gt w (2 ^ 32)). lia.
Qed.

Lemma usable_ipv6_Ok pre usable :
  usable_ipv6 pre = Ok usable -> bit_len (prefix_addr pre) = 128 -> usableCapacity pre 10 = Some usable.
Proof.
  unfold usable_ipv6, usableCapacity. intros H ->. change (wrap64 (10 + 1)) with 11.
  destruct (64 <? 128 - prefix_bits pre); [by inv_result; subst|].
  destruct (128 - prefix_bits pre =? 64); [by inv_result; subst|].
  inv_result. rewrite H0. by subst.
Qed.

(** What [compileFakeIP] guarantees. *)
Lemma compileFakeIP_Ok raw f :
  compileFakeIP raw = Ok f ->
  (exists p, newPool (FakePrefix f) (MappingTTL f) (MaxMappings f) 10 = Ok p) /\
  prefix_wf (FakePrefix f) /\ is4 (prefix_addr (FakePrefix f)) = true /\
  second <= DNSTTL f < MappingTTL f /\
  is_abs (PersistenceFile f) = true /\ clean (PersistenceFile f) = PersistenceFile f.
Proof.
  unfold compileFakeIP. destruct (parse_prefix _) as [pre|] eqn:Hpre; [|done].
  pose proof (masked_parsed _ _ Hpre) as (Hval & Hmm & Hbits & Hi4 & _ & Hlen & Hb & Hwf).
  intros H. inv_result. to_prop. subst f. cbn [FakePrefix MappingTTL MaxMappings DNSTTL PersistenceFile].
  match goal with H : parsePositiveDuration "fake_ip.mapping_ttl" _ = _ |- _ => apply parsePositiveDuration_Ok in H end.
  match goal with H : compile_max_mappings _ _ _ = _ |- _ => apply compile_max_mappings_Ok in H; rename H into Hmax end.
  match goal with H : validateAbsolutePath _ _ = Ok ?u |- _ => destruct u; apply validateAbsolutePath_Ok in H as [? ?] end.
  assert (Hl : bit_len (prefix_addr pre) = 32) by (destruct (prefix_addr pre); done).
  split_and!; try done; try lia; [|congruence].
  rewrite Hbits in *. apply newPool_Ok; try done; try lia.
  - rewrite H0 in Hi4. by destruct (prefix_addr (masked pre)).
  - exists (2 ^ (32 - prefix_bits pre) - 11). split; [|lia]. unfold usableCapacity.
    rewrite Hlen, Hl, Hbits. change (wrap64 (10 + 1)) with 11.
    replace (64 <? 32 - prefix_bits pre) with false by (symmetry; apply Z.ltb_ge; lia).
    replace (32 - prefix_bits pre =? 64) with false by (symmetry; apply Z.eqb_neq; lia).
    by match goal with H : 11 < _ |- _ => replace (2 ^ (32 - prefix_bits pre) <=? 11) with false
         by (symmetry; apply Z.leb_gt; lia) end.
Qed.

(** What [compileFakeIPv6] guarantees. *)
Lemma compileFakeIPv6_Ok raw f ttl :
  compileFakeIPv6 raw = Ok f -> 0 < ttl ->
  (exists p, newPool (FakePrefix6 f) ttl (MaxMappings6 f) 10 = Ok p) /\
  prefix_wf (FakePrefix6 f) /\ is6 (prefix_addr (FakePrefix6 f)) = true /\ no_mapped (FakePrefix6 f) /\
  is_abs (PersistenceFile6 f) = true /\ clean (PersistenceFile6 f) = PersistenceFile6 f.
Proof.
  unfold compileFakeIPv6. intros H Httl. inv_result.
  destruct (parse_prefix _) as [pre|] eqn:Hpre; [|done].
  pose proof (masked_parsed _ _ Hpre) as (Hval & Hmm & Hbits & _ & Hi6 & Hlen & Hb & Hwf).
  inv_result. to_prop. subst f. cbn [FakePrefix6 MaxMappings6 PersistenceFile6].
  assert (Hl : bit_len (prefix_addr pre) = 128) by (destruct (prefix_addr pre); done).
  destruct (private_prefix _ _ Hpre) as (H46 & _ & Hno); try done.
  match goal with H : usable_ipv6 _ = _ |- _ => apply usable_ipv6_Ok in H; [|by rewrite Hlen]; rename H into Hcap end.
  match goal with H : compile_max_mappings _ _ _ = _ |- _ => apply compile_max_mappings_Ok in H; rename H into Hmax end.
  match goal with H : validateAbsolutePath _ _ = Ok ?u |- _ => destruct u; apply validateAbsolutePath_Ok in H as [? ?] end.
  split_and!; try done; [|congruence]. apply newPool_Ok; try done; [lia|]. eexists. split; [done|]. lia.
Qed.

(** ** Outbounds and rules *)

(** What the resolver needs of a DNS server. *)
Definition server_wf (s : addr_port) : Prop :=
  0 < ap_port s < 2 ^ 16 /\ addr_valid (ap_addr s) = true /\ is4in6 (ap_addr s) = false /\
  is_unspecified (ap_addr s) = false /\ is_loopback (ap_addr s) = false.

(** What later components read off an outbound. *)
Definition outbound_wf (name : string) (o : Outbound) : Prop :=
  Name o = name /\ validIdentifier name = true /\
  ((OutType o = "reject" /\ Fallback o = "") \/
   (OutType o = "direct" /\ Interface o <> "" /\ OutDNS o <> [] /\ 0 < ConnectTimeout o /\
    Forall server_wf (OutDNS o))).

Lemma oneOf_spec v l : oneOf v l = true <-> v ∈ l.
Proof.
  unfold oneOf. rewrite existsb_elem_of. split; [|intros H; exists v; by rewrite bool_decide_true].
  by intros (x & Hx & ->%bool_decide_eq_true).
Qed.

Lemma filter_all_false {A} (f : A -> bool) l :
  Forall (fun x => f x = false) l -> filter (fun x => f x = true) l = [].
Proof. induction 1 as [|x l Hx _ IH]; [done|]. by rewrite filter_cons_False by congruence. Qed.

Lemma parse_addr_port_facts s x :
  parse_addr_port s = Some x -> addr_valid (ap_addr x) = true /\ 0 <= ap_port x < 2 ^ 16.
Proof.
  unfold parse_addr_port. intros H. repeat (case_match; simplify_eq; try done); cbn [ap_addr ap_port];
    match goal with Hu : parse_uint _ _ = Some _, Ha : parse_addr _ = Some _ |- _ =>
      apply parse_uint_nonneg in Hu; apply parse_addr_wf in Ha as [_ Ha] end; done.
Qed.

Lemma parse_addr_port_wf s x : parse_addr_port s = Some x -> addr_wf (ap_addr x).
Proof.
  unfold parse_addr_port. intros H. repeat (case_match; simplify_eq; try done); cbn [ap_addr];
    match goal with Ha : parse_addr _ = Some _ |- _ => by apply parse_addr_wf in Ha as [Ha _] end.
Qed.

Lemma compile_servers_Ok servers l :
  compile_servers servers = Ok l ->
  length l = length servers /\
  Forall server_wf l.
Proof.
  revert l. induction servers as [|server servers IH]; intros l; cbn [compile_servers].
  - intros [= <-]. split; [done|]. by apply Forall_nil.
  - destruct (parse_addr_port server) as [a|] eqn:Ha; [|done]. intros H. inv_result. to_prop. subst l.
    apply parse_addr_port_facts in Ha as [Hv Hp]. destruct (IH _ H1) as [Hl Hall]. split; [cbn; lia|].
    constructor; [|done]. split_and!; try done; lia.
Qed.

Lemma compile_outbound_Ok name raw o : compile_outbound name raw = Ok o -> outbound_wf name o.
Proof.
  unfold compile_outbound. cbn zeta. intros H. inv_result. case_bool_decide as Hk.
  - inv_result. to_prop. subst o. unfold outbound_wf. cbn. split_and!; try done. left. done.
  - inv_result. to_prop. subst o. unfold outbound_wf. cbn. split_and!; try done. right.
    match goal with Hs : compile_servers _ = _ |- _ => apply compile_servers_Ok in Hs as [Hl Hall] end.
    match goal with Hs : parsePositiveDuration _ _ = _ |- _ => apply parsePositiveDuration_Ok in Hs end.
    split_and!; try done; [|by intros ->; destruct (raw_DNS raw)|lia].
    match goal with Ho : oneOf (to_lower _) _ = true |- _ => apply oneOf_spec in Ho; by apply elem_of_cons in Ho as [?|?%list_elem_of_singleton] end.
Qed.

Lemma compile_outbounds_loop_Ok items acc m :
  compile_outbounds_loop items acc = Ok m ->
  (forall name o, acc !! name = Some o -> outbound_wf name o) -> forall name o, m !! name = Some o -> outbound_wf name o.
Proof.
  revert acc. induction items as [|[name raw] items IH]; intros acc; cbn [compile_outbounds_loop].
  - by intros [= <-].
  - intros H Hacc. inv_result. eapply IH; [done|]. intros n o.
    destruct (decide (name = n)) as [->|Hne].
    + rewrite lookup_insert_eq. intros [= <-]. by eapply compile_outbound_Ok.
    + rewrite lookup_insert_ne by done. apply Hacc.
Qed.

Lemma compileOutbounds_Ok raw m :
  compileOutbounds raw = Ok m -> forall name o, m !! name = Some o -> outbound_wf name o.
Proof.
  unfold compileOutbounds. intros H. inv_result. eapply compile_outbounds_loop_Ok; [done|].
  intros n o. by rewrite lookup_empty.
Qed.

Lemma compile_rules_loop_Ok values index total outbounds acc defaults rs n :
  compile_rules_loop values index total outbounds acc defaults = Ok (rs, n) ->
  Forall (fun r => is_Some (outbounds !! RuleOutbound r)) acc ->
  exists tail, rs = acc ++ tail /\ length tail = length values /\
    Forall (fun r => is_Some (outbounds !! RuleOutbound r)) tail /\
    ID <$> tail = seqZ (index + 1) (Z.of_nat (length values)) /\
    n = defaults + Z.of_nat (length (filter (fun r => Default r = true) tail)) /\
    (index + Z.of_nat (length values) = total -> Forall (fun r => Default r = false) (removelast tail)).
Proof.
  revert index acc defaults. induction values as [|value values IH]; intros index acc defaults; cbn [compile_rules_loop].
  - intros [= <- <-] _. exists []. cbn. rewrite app_nil_r. split_and!; try done; try lia; by constructor.
  - intros H Hacc. inv_result. set (rule := MkRule _ _ _ _ _) in *. to_prop.
    assert (Hdef : is_Some (outbounds !! RuleOutbound rule)) by done.
    destruct (IH _ _ _ H) as (tail & -> & Hlen & Hall & Hids & -> & Hlast).
    { apply Forall_app. split; [done|]. by apply Forall_singleton. }
    exists (rule :: tail). rewrite <- app_assoc. split_and!; [done|by cbn; rewrite Hlen|by constructor| | |].
    + rewrite fmap_cons, Hids. cbn [length]. rewrite (seqZ_cons (index + 1)) by lia.
      f_equal. f_equal; lia.
    + rewrite filter_cons. destruct (Default rule) eqn:Hd; cbn [length]; case_decide; try done; cbn [length]; lia.
    + cbn [length]. intros Htot. cbn [removelast]. destruct tail as [|r tail]; [done|].
      constructor; [|apply Hlast; lia].
      destruct (Default rule) eqn:Hd; [|done]. cbn [andb] in *. cbn in Hlen.
      match goal with Hi : negb (index =? total - 1) = false |- _ => to_prop end. lia.
Qed.

Lemma compileRules_Ok raw outbounds rs :
  compileRules raw outbounds = Ok rs ->
  Forall (fun r => is_Some (outbounds !! RuleOutbound r)) rs /\
  ID <$> rs = seqZ 1 (Z.of_nat (length rs)) /\
  exists before default, rs = before ++ [default] /\ Default default = true /\ Forall (fun r => Default r = false) before.
Proof.
  unfold compileRules. intros H. inv_result. to_prop. destruct x as [rs' n]. cbn [fst snd] in *. subst rs'.
  match goal with Hl : compile_rules_loop _ _ _ _ _ _ = _ |- _ => rename Hl into Hloop end.
  apply compile_rules_loop_Ok in Hloop as (tail & -> & Hlen & Hall & Hids & Hn & Hlast); [|by constructor].
  cbn [app] in *. split_and!; [done|by rewrite Hlen|].
  destruct tail as [|d before _] using rev_ind; [cbn in Hn; lia|]. exists before, d.
  specialize (Hlast ltac:(lia)). rewrite removelast_last in Hlast. split_and!; try done.
  rewrite filter_app, filter_all_false in Hn by done.
  destruct (Default d) eqn:Hd; [done|]. rewrite filter_cons_False in Hn by congruence. cbn in Hn. lia.
Qed.

(** ** The document *)

(** The facts of the parts, gathered. *)
Lemma compile_Ok raw c :
  compile raw = Ok c ->
  exists default, Outbounds c !! DefaultOutbound (CDNS c) = Some default /\ OutType default <> "reject" /\
    compileFakeIP (raw_FakeIP raw) = Ok (CFakeIP c) /\
    compile_fake_ipv6 (raw_FakeIPv6 raw) (CTUN c) (CFakeIP c) = Ok (CFakeIPv6 c) /\
    compileSystem (raw_System raw) = Ok (CSystem c) /\ compileTUN (raw_TUN raw) = Ok (CTUN c) /\
    compileOutbounds (raw_Outbounds raw) = Ok (Outbounds c) /\ validateFallbacks (Outbounds c) = Ok () /\
    compileRules (raw_Rules raw) (Outbounds c) = Ok (ConfigTypes.Rules c) /\
    compileSessions (raw_Sessions raw) = Ok (CSessions c) /\
    prefix_contains (FakePrefix (CFakeIP c)) (Address (CTUN c)) = false /\
    prefix_contains (FakePrefix (CFakeIP c)) (Peer (CTUN c)) = false.
Proof.
  unfold compile. intros H. inv_result. destruct (_ !! _) as [default|] eqn:Hd; [|done]. inv_result. to_prop. subst c.
  exists default. cbn [Outbounds CDNS CFakeIP CFakeIPv6 CSystem CTUN CSessions ConfigTypes.Rules].
  match goal with Hv : validateFallbacks _ = Ok ?u |- _ => destruct u end. by split_and!.
Qed.

(** [compileSystem] ranges over a map of its two paths; whether it succeeds
    does not depend on the order. *)
(** What [compileDNS] and [compileTUN] guarantee. *)
Lemma compiled_listener raw c : compile raw = Ok c ->
  let d := CDNS c in
  is4 (ap_addr (Listen d)) = true /\ is_loopback (ap_addr (Listen d)) = true /\ addr_wf (ap_addr (Listen d)) /\ 0 < ap_port (Listen d) < 2 ^ 16 /\
  1 <= MaxConcurrent d <= 65536 /\ 576 <= MTU (CTUN c) <= 9000 /\ 64 <= PacketQueue (CTUN c) /\ 8 <= BufferPool (CTUN c) <= 4096.
Proof.
  unfold compile. intros H. inv_result. destruct (_ !! _) as [default|]; [|done]. inv_result. to_prop. subst c. cbn [CDNS CTUN].
  match goal with Hd : compileDNS _ = _ |- _ => rename Hd into Hdns end.
  match goal with Ht : compileTUN _ = _ |- _ => rename Ht into Htun end.
  unfold compileDNS in Hdns. destruct (parse_addr_port _) as [listen|] eqn:Hl; [|done].
  pose proof (parse_addr_port_wf _ _ Hl) as Hwf. apply parse_addr_port_facts in Hl as [_ Hport]. unfold compileTUN in Htun. inv_result.
  repeat match goal with Hb : bounded _ _ _ _ _ = _ |- _ => apply bounded_Ok in Hb end. to_prop. simplify_eq. cbn. split_and!; try done; lia.
Qed.

Lemma compileSystem_Ok raw s :
  compileSystem raw = Ok s ->
  is_abs (StateFile s) = true /\ clean (StateFile s) = StateFile s /\
  is_abs (LockFile s) = true /\ clean (LockFile s) = LockFile s /\ StateFile s <> LockFile s.
Proof.
  unfold compileSystem. intros H. inv_result. to_prop. subst s. cbn [StateFile LockFile].
  repeat match goal with Hv : validateAbsolutePath _ _ = Ok ?u |- _ =>
    destruct u; apply validateAbsolutePath_Ok in Hv as [? ?] end. by split_and!.
Qed.

Lemma validate_fallbacks_sound (order1 order2 : list string) (m : gmap string Outbound) :
  order1 ≡ₚ map_names m -> order2 ≡ₚ map_names m -> validate_fallbacks_in order1 order2 m = Ok tt ->
  (forall a b, falls_back m a b -> is_Some (m !! b)) /\ well_founded (flip (falls_back m)).
Proof.
  intros H1 H2. unfold validate_fallbacks_in. rewrite !bind_Ok. intros ([] & Hc & H). rewrite bind_Ok in H.
  destruct H as (st & Hv & _). rewrite check_targets_Ok in Hc. split.
  - intros a b (Ha & Hab & Hne). destruct (Hc a) as [He|[Hs _]]; [|congruence|by rewrite <- Hab].
    rewrite H1. by apply elem_of_map_names.
  - apply visit_all_sound in Hv as (Hend & Hall & _); [|by intros a; rewrite lookup_empty].
    intros a. constructor. intros b (Ha & Hab & Hne). assert (Acc (flip (falls_back m)) a) as Hacc.
    { apply Hend, Hall. rewrite H2. by apply elem_of_map_names. }
    by apply Hacc.
Qed.

Lemma validate_fallbacks_facts m :
  validateFallbacks m = Ok tt ->
  (forall a b, falls_back m a b -> is_Some (m !! b)) /\ well_founded (flip (falls_back m)).
Proof. by apply validate_fallbacks_sound. Qed.

(** ** Properties *)

(** C25: [validateFallbacks] accepts exactly the outbounds whose fallbacks are
    all defined and form no cycle, whatever orders its two loops range over
    the map in; every fallback chain of an accepted map is finite. *)
Theorem validate_fallbacks_spec (order1 order2 : list string) (m : gmap string Outbound) :
  order1 ≡ₚ map_names m -> order2 ≡ₚ map_names m ->
  (validate_fallbacks_in order1 order2 m = Ok tt <->
   (forall a b, falls_back m a b -> is_Some (m !! b)) /\ (forall a, ~ tc (falls_back m) a a)) /\
  (validate_fallbacks_in order1 order2 m = Ok tt -> well_founded (flip (falls_back m))).
Proof.
  intros H1 H2.
  pose proof (validate_fallbacks_sound _ _ _ H1 H2) as Hsound.
  split; [split|]; [| |by intros H; apply Hsound].
  - intros [Ht Hwf]%Hsound. split; [done|]. intros a. apply ends_acyclic, Hwf.
  - intros [Ht Hcyc]. unfold validate_fallbacks_in.
    assert (check_targets m order1 = Ok tt) as ->.
    { apply check_targets_Ok. intros a Ha. rewrite H1 in Ha. apply elem_of_map_names in Ha.
      destruct (decide (fallback_of m a = "")) as [|Hne]; [by left|right]. split; [by eapply Ht|].
      intros Heq. apply (Hcyc a), tc_once. split_and!; congruence. }
    cbn [mbind result_bind]. destruct (visit_all_complete m order2 ∅) as [st ->]; try done.
    intros a Ha. rewrite H2 in Ha. by apply elem_of_map_names.
Qed.

Lemma validate_fallbacks_spec_witness :
  let m := match compileOutbounds (raw_Outbounds (demo_raw "" "" "")) with Ok m => m | Err _ => ∅ end in
  (validate_fallbacks_in (map_names m) (map_names m) m = Ok tt <->
   (forall a b, falls_back m a b -> is_Some (m !! b)) /\ (forall a, ~ tc (falls_back m) a a)) /\
  (validate_fallbacks_in (map_names m) (map_names m) m = Ok tt -> well_founded (flip (falls_back m))).
Proof. cbv zeta. apply validate_fallbacks_spec; reflexivity. Defined.

(** The pools of a compiled configuration can be created with the
    reservation the service uses, their prefixes are well formed, of the right
    family and, for IPv6, free of IPv4-mapped addresses; DNS answers expire
    before the mappings. *)
Theorem compiled_pools_start (raw : rawConfig) (c : Config) :
  compile raw = Ok c ->
  (exists p, newPool (FakePrefix (CFakeIP c)) (MappingTTL (CFakeIP c)) (MaxMappings (CFakeIP c)) 10 = Ok p) /\
  prefix_wf (FakePrefix (CFakeIP c)) /\ is4 (prefix_addr (FakePrefix (CFakeIP c))) = true /\
  second <= DNSTTL (CFakeIP c) < MappingTTL (CFakeIP c) /\
  (forall f, CFakeIPv6 c = Some f ->
    (exists p, newPool (FakePrefix6 f) (MappingTTL (CFakeIP c)) (MaxMappings6 f) 10 = Ok p) /\
    prefix_wf (FakePrefix6 f) /\ is6 (prefix_addr (FakePrefix6 f)) = true /\ no_mapped (FakePrefix6 f)).
Proof.
  intros (default & _ & _ & Hf & Hf6 & _)%compile_Ok. apply compileFakeIP_Ok in Hf as (Hp & Hwf & H4 & Ht & _).
  split_and!; try done; try lia. intros f Hsome. rewrite Hsome in Hf6. unfold compile_fake_ipv6 in Hf6.
  destruct (raw_FakeIPv6 raw) as [r6|]; inv_result; [|done]. simplify_eq.
  assert (Hpos : 0 < MappingTTL (CFakeIP c)) by (unfold second, millisecond, microsecond, nanosecond in Ht; lia).
  match goal with Hc : compileFakeIPv6 _ = _ |- _ => destruct (compileFakeIPv6_Ok _ _ _ Hc Hpos) as (?&?&?&?&_) end.
  by split_and!.
Qed.

Lemma compiled_pools_start_witness :
  exists c f, compile (demo_raw "fd00::/64" "fd01::2" "fd01::1") = Ok c /\ CFakeIPv6 c = Some f /\
    exists p, newPool (FakePrefix6 f) (MappingTTL (CFakeIP c)) (MaxMappings6 f) 10 = Ok p.
Proof.
  eexists. eexists. split; [vm_compute; reflexivity|]. split; [reflexivity|].
  apply (compiled_pools_start (demo_raw "fd00::/64" "fd01::2" "fd01::1")); vm_compute; reflexivity.
Defined.

(** C26: routing is total and closed.  The rules of a compiled configuration
    form an engine, and for every flow with a usable domain and every list of
    valid addresses its decision names a defined outbound, from which the
    fallbacks lead through defined outbounds only and end. *)
Theorem compiled_rules_route (raw : rawConfig) (c : Config) (m : FlowMetadata) (addresses : list addr) :
  compile raw = Ok c -> domain_ok m ->
  Forall (fun a => addr_valid a = true /\ is4in6 a = false) addresses ->
  exists engine dec, New (ConfigTypes.Rules c) = Ok engine /\ MatchResolved engine m addresses = Ok dec /\
    1 <= RuleID dec <= Z.of_nat (length (ConfigTypes.Rules c)) /\
    (forall name, rtc (falls_back (Outbounds c)) (DecisionOutbound dec) name ->
       exists o, Outbounds c !! name = Some o /\ outbound_wf name o) /\
    Acc (flip (falls_back (Outbounds c))) (DecisionOutbound dec).
Proof.
  intros (default & _ & _ & _ & _ & _ & _ & Ho & Hfall & Hr & _)%compile_Ok Hm Haddr.
  apply compileRules_Ok in Hr as (Hall & Hids & before & d & Heq & Hd & _).
  assert (Hnew : New (ConfigTypes.Rules c) = Ok (compile_rule <$> ConfigTypes.Rules c)).
  { unfold New. by rewrite Heq, last_snoc, Hd. }
  exists (compile_rule <$> ConfigTypes.Rules c).
  destruct (normalizeMetadata_ok m Hm) as [dom Hdom].
  destruct (conclusive_exists dom _ (New_has_default _ _ Hnew)) as [r Hr].
  destruct (first_match_weaken (conclusive dom) (rule_matches dom addresses) _ r
    (fun y => conclusive_matches dom addresses y) Hr) as (w & Hw & _).
  exists (decision_of w). split; [done|]. split; [apply MatchResolved_Ok; eauto 6|].
  assert (Hin : exists rule, w = compile_rule rule /\ rule ∈ ConfigTypes.Rules c).
  { apply first_match_Some in Hw as (l1 & l2 & Hl & _). apply list_elem_of_fmap. rewrite Hl. set_solver. }
  destruct Hin as (rule & -> & Hin). cbn [decision_of compile_rule RuleID DecisionOutbound cr_id cr_outbound].
  split.
  { assert (ID rule ∈ ID <$> ConfigTypes.Rules c) as Hid by (by apply list_elem_of_fmap_2).
    rewrite Hids, elem_of_seqZ in Hid. lia. }
  rewrite Forall_forall in Hall. specialize (Hall _ Hin).
  destruct (validate_fallbacks_facts _ Hfall) as [Htargets Hwf]. split; [|apply Hwf].
  intros name Hreach. assert (is_Some (Outbounds c !! name)) as [o Hsome].
  { destruct (rtc_inv_r _ _ Hreach) as [<-|(b & _ & Hb)]; [done|by eapply Htargets]. }
  exists o. split; [done|]. by eapply compileOutbounds_Ok.
Qed.

Lemma compiled_rules_route_witness :
  exists c engine dec, compile (demo_raw "" "" "") = Ok c /\ New (ConfigTypes.Rules c) = Ok engine /\
    MatchResolved engine (MkFlowMetadata "example.COM" AddrZero AddrZero AddrZero 0) [Addr4 0x0a000001] = Ok dec /\
    Acc (flip (falls_back (Outbounds c))) (DecisionOutbound dec).
Proof.
  destruct (compile (demo_raw "" "" "")) as [c|e] eqn:Hc; [|vm_compute in Hc; discriminate Hc].
  destruct (compiled_rules_route (demo_raw "" "" "") c (MkFlowMetadata "example.COM" AddrZero AddrZero AddrZero 0)
    [Addr4 0x0a000001] Hc) as (engine & dec & He & Hm & _ & _ & Hacc).
  - right. exists "example.com". vm_compute. reflexivity.
  - repeat constructor.
  - exists c, engine, dec. auto.
Defined.

(** The resources a compiled configuration claims are distinct: all its
    files are clean absolute paths, the state file is not the lock file, the
    two persistence files differ, the fake prefixes exclude the TUN addresses,
    and a TUN pair is IPv6 exactly when there is an IPv6 pool. *)
Theorem compiled_resources_disjoint (raw : rawConfig) (c : Config) :
  compile raw = Ok c ->
  StateFile (CSystem c) <> LockFile (CSystem c) /\
  Forall (fun path => is_abs path = true /\ clean path = path)
    (StateFile (CSystem c) :: LockFile (CSystem c) :: PersistenceFile (CFakeIP c) ::
     match CFakeIPv6 c with Some f => [PersistenceFile6 f] | None => [] end) /\
  prefix_contains (FakePrefix (CFakeIP c)) (Address (CTUN c)) = false /\
  prefix_contains (FakePrefix (CFakeIP c)) (Peer (CTUN c)) = false /\
  match CFakeIPv6 c with
  | Some f =>
      PersistenceFile6 f <> PersistenceFile (CFakeIP c) /\
      addr_valid (IPv6Address (CTUN c)) = true /\ addr_valid (IPv6Peer (CTUN c)) = true /\
      prefix_contains (FakePrefix6 f) (IPv6Address (CTUN c)) = false /\
      prefix_contains (FakePrefix6 f) (IPv6Peer (CTUN c)) = false
  | None => addr_valid (IPv6Address (CTUN c)) = false /\ addr_valid (IPv6Peer (CTUN c)) = false
  end.
Proof.
  intros (default & _ & _ & Hf & Hf6 & Hs & _ & _ & _ & _ & _ & Ha & Hp)%compile_Ok.
  apply compileSystem_Ok in Hs as (? & ? & ? & ? & ?).
  apply compileFakeIP_Ok in Hf as (_ & _ & _ & Ht & ? & ?).
  assert (Hpos : 0 < MappingTTL (CFakeIP c)) by (unfold second, millisecond, microsecond, nanosecond in Ht; lia).
  unfold compile_fake_ipv6 in Hf6. destruct (raw_FakeIPv6 raw) as [r6|]; inv_result; to_prop;
    rewrite <- Hf6; split_and!; try done.
  - match goal with Hc : compileFakeIPv6 _ = _ |- _ => destruct (compileFakeIPv6_Ok _ _ _ Hc Hpos) as (_&_&_&_&?&?) end.
    by repeat constructor.
  - by repeat constructor.
Qed.

Lemma compiled_resources_disjoint_witness :
  exists c, compile (demo_raw "fd00::/64" "fd01::2" "fd01::1") = Ok c /\
    StateFile (CSystem c) <> LockFile (CSystem c).
Proof.
  eexists. split; [vm_compute; reflexivity|].
  apply (compiled_resources_disjoint (demo_raw "fd00::/64" "fd01::2" "fd01::1")). vm_compute. reflexivity.
Defined.

(** Two gaps of the IPv6 checks.  The unique-local test looks at the
    network address only, so a prefix shorter than /7 passes it and reaches
    into link-local and multicast space; and the containment test ignores an
    address with a zone, so a TUN address inside the fake prefix is accepted
    when it is written with one. *)
Theorem ipv6_checks_have_gaps :
  (exists c f a, compile (demo_raw "fc00::/6" "2001:db8::2" "2001:db8::1") = Ok c /\ CFakeIPv6 c = Some f /\
     prefix_contains (FakePrefix6 f) a = true /\ is_multicast a = true) /\
  (exists c f, compile (demo_raw "fd00::/64" "fd00::2%x" "fd00::1%x") = Ok c /\ CFakeIPv6 c = Some f /\
     prefix_contains (FakePrefix6 f) (with_zone (IPv6Address (CTUN c)) "") = true).
Proof.
  split.
  - eexists. eexists. exists (Addr6 (0xff02 * 2 ^ 112 + 1) "").
    split; [vm_compute; reflexivity|]. split; [reflexivity|]. by split; vm_compute.
  - eexists. eexists. split; [vm_compute; reflexivity|]. split; [reflexivity|]. by vm_compute.
Qed.
