(* ===== verification/Outbound.v ===== *)
(** * Component [internal/outbound]: error classes and direct dialing

    Go errors as trees: what [errors.Is], [errors.As] and type assertions can
    see of an error, and [IsRecoverable], which decides whether a failure may
    advance a fallback chain.  Creating the socket is the operating system's
    part and a parameter. *)

From S2P Require Import Prelude.
From S2P Require Import GoStrings.
From S2P Require Import NetIP.

(** ** Error trees *)

(** The [syscall.Errno] values that the code names, and the others. *)
Inductive errno : Type :=
| ENETDOWN | ENETUNREACH | EHOSTUNREACH | ETIMEDOUT | ENXIO | EADDRNOTAVAIL | EAGAIN
| ErrnoOther (n : Z).

#[export] Instance errno_eq_dec : EqDecision errno.
Proof. solve_decision. Defined.

(** The sentinels that are compared by identity. *)
Inductive sentinel : Type :=
| ContextCanceled
| ErrRejected
| ErrNoIPv4Address
| ErrNoIPv6Address
| ErrUDPIdleTimeout
| ErrUDPCapacity
| ErrExhausted
| ErrNotFound
| ErrShortWrite
| ErrClosed
| ErrOther (text : string).

#[export] Instance sentinel_eq_dec : EqDecision sentinel.
Proof. solve_decision. Defined.

(** [ENet] is an error that implements [net.Error] ([context.DeadlineExceeded]
    is one without a cause), [EWrap] one with [Unwrap() error], [EJoin] one
    with [Unwrap() []error]. *)
Inductive go_error : Type :=
| ESentinel (s : sentinel)
| EErrno (n : errno)
| EInterface (name : string) (cause : go_error)
| ENet (timeout : bool) (cause : option go_error)
| EResponse (rcode : Z)
| EWrap (text : string) (cause : go_error)
| EJoin (errs : list go_error).

Definition DeadlineExceeded : go_error := ENet true None.

(** [errors.Is] for a sentinel: some node of the tree is the sentinel. *)
Fixpoint errors_is (s : sentinel) (e : go_error) : bool :=
  match e with
  | ESentinel s' => bool_decide (s = s')
  | EErrno _ => false
  | EInterface _ c => errors_is s c
  | ENet _ (Some c) => errors_is s c
  | ENet _ None => false
  | EResponse _ => false
  | EWrap _ c => errors_is s c
  | EJoin es => existsb (errors_is s) es
  end.

(** [errors.Is] for [context.DeadlineExceeded]. *)
Fixpoint errors_is_deadline (e : go_error) : bool :=
  match e with
  | ENet true None => true
  | ENet false None => false
  | ESentinel _ | EErrno _ | EResponse _ => false
  | EInterface _ c | ENet _ (Some c) | EWrap _ c => errors_is_deadline c
  | EJoin es => existsb errors_is_deadline es
  end.

(** [ctx.Err()] and [errors.Is] for it. *)
Inductive ctx_error : Type := CtxCanceled | CtxDeadline.

Definition ctx_go_error (c : ctx_error) : go_error :=
  match c with CtxCanceled => ESentinel ContextCanceled | CtxDeadline => DeadlineExceeded end.

Definition errors_is_ctx (c : ctx_error) (e : go_error) : bool :=
  match c with CtxCanceled => errors_is ContextCanceled e | CtxDeadline => errors_is_deadline e end.

(** [errors.As] for [*resolver.ResponseError]: the first one in pre-order. *)
Fixpoint errors_as_response (e : go_error) : option Z :=
  match e with
  | EResponse rcode => Some rcode
  | ESentinel _ | EErrno _ => None
  | EInterface _ c => errors_as_response c
  | ENet _ (Some c) => errors_as_response c
  | ENet _ None => None
  | EWrap _ c => errors_as_response c
  | EJoin es =>
      (fix first (l : list go_error) : option Z :=
         match l with
         | [] => None
         | c :: l' => match errors_as_response c with Some r => Some r | None => first l' end
         end) es
  end.

(** [Errno.Timeout]. *)
Definition errno_timeout (n : errno) : bool := bool_decide (n = EAGAIN) || bool_decide (n = ETIMEDOUT).

(** The list of errno at the end of [IsRecoverable]. *)
Definition recoverable_errno (n : errno) : bool :=
  bool_decide (n = ENETDOWN) || bool_decide (n = ENETUNREACH) || bool_decide (n = EHOSTUNREACH) ||
  bool_decide (n = ETIMEDOUT) || bool_decide (n = ENXIO) || bool_decide (n = EADDRNOTAVAIL).

(** [IsRecoverable]: [None] is the nil error. *)
Fixpoint recoverable (e : go_error) : bool :=
  if errors_is ContextCanceled e || errors_is ErrRejected e then false
  else
    match e with
    | EJoin es => negb (bool_decide (length es = 0%nat)) && forallb recoverable es
    | EInterface _ _ => true
    | ENet true _ => true
    | ENet false (Some c) => recoverable c
    | ENet false None => false
    | EWrap _ c => recoverable c
    | EErrno n => errno_timeout n || recoverable_errno n
    | ESentinel _ | EResponse _ => false
    end.

Definition IsRecoverable (e : option go_error) : bool :=
  match e with Some e => recoverable e | None => false end.

(** [errors.Join] of errors that are not nil: nil when there is none. *)
Definition errors_join (es : list go_error) : option go_error :=
  match es with [] => None | _ => Some (EJoin es) end.

(** ** Direct dialing *)

Record Direct : Type := MkDirect {
  di_name : string;
  di_interfaceName : string;
  di_connectTimeout : Z
}.

Definition failure (text : string) : go_error := ESentinel (ErrOther text).

(** [NewDirect] *)
Definition NewDirect (name interfaceName : string) (connectTimeout : Z) : result go_error Direct :=
  fail_if bool_decide (name = "") with failure "direct outbound name is required" in
  fail_if bool_decide (interfaceName = "") with failure "direct outbound interface is required" in
  fail_if connectTimeout <=? 0 with failure "direct outbound connect timeout must be positive" in
  Ok (MkDirect name interfaceName connectTimeout).

(** What the control hook of a socket finds under the interface name. *)
Inductive interface_state : Type :=
| IfMissing (cause : go_error)
| IfDown
| IfUp (index : Z).

(** The socket option that binds to the interface. *)
Inductive bound_option : Type := IP_BOUND_IF | IPV6_BOUND_IF.

(** [InterfaceControl]: the option and index it sets before connect(2).
    [control] is the error of running the hook on the raw socket, [setsockopt]
    the error of the system call. *)
Definition InterfaceControl (interfaceName network : string) (iface : interface_state)
    (control : option go_error) (setsockopt : bound_option -> Z -> option go_error)
    : result go_error (bound_option * Z) :=
  match iface with
  | IfMissing cause => Err (EInterface interfaceName cause)
  | IfDown => Err (EInterface interfaceName (failure "interface is down"))
  | IfUp index =>
      let chosen :=
        if existsb (String.eqb network) ["tcp4"; "udp4"; "ip4"] then Ok IP_BOUND_IF
        else if existsb (String.eqb network) ["tcp6"; "udp6"; "ip6"] then Ok IPV6_BOUND_IF
        else Err (failure "network has no deterministic address family") in
      match control with
      | Some e => Err (EWrap "control socket for interface" e)
      | None =>
          match chosen with
          | Err e => Err (EWrap "bind socket to interface" e)
          | Ok option =>
              match setsockopt option index with
              | Some e => Err (EWrap "bind socket to interface" e)
              | None => Ok (option, index)
              end
          end
      end
  end.

Section dialing.
  (** [net.Dialer.DialContext] with this outbound's timeout and control hook. *)
  Context {W Conn : Type} (net_dial : Direct -> string -> addr_port -> W -> result go_error Conn * W).

(** A destination that a direct outbound refuses. *)
Definition bad_destination (destination : addr_port) : bool :=
  negb (ap_valid destination) || (ap_port destination =? 0) || is4in6 (ap_addr destination).

(** [DialContext] *)
Definition DialContext (direct : Direct) (network : string) (destination : addr_port) (w : W)
    : result go_error Conn * W :=
  if bad_destination destination then (Err (failure "received invalid IP destination"), w)
  else
    let wantNetwork := if is6 (ap_addr destination) then "tcp6" else "tcp4" in
    if negb (bool_decide (network = wantNetwork)) then (Err (failure "destination requires another network"), w)
    else
      let '(r, w) := net_dial direct network destination w in
      (map_err (EWrap "direct outbound") r, w).

(** [DialPacket] *)
Definition DialPacket (direct : Direct) (destination : addr_port) (w : W) : result go_error Conn * W :=
  if bad_destination destination then (Err (failure "received invalid IP UDP destination"), w)
  else
    let network := if is6 (ap_addr destination) then "udp6" else "udp4" in
    let '(r, w) := net_dial direct network destination w in
    (map_err (EWrap "direct outbound UDP") r, w).
End dialing.

(** ** Specification *)

(** The nodes that decide: an interface failure and a timeout decide by
    themselves, wrappers hand over to their cause, a join to all its errors. *)
Fixpoint verdicts (e : go_error) : list bool :=
  match e with
  | EJoin es => if bool_decide (length es = 0%nat) then [false] else es ≫= verdicts
  | EInterface _ _ => [true]
  | ENet true _ => [true]
  | ENet false (Some c) => verdicts c
  | ENet false None => [false]
  | EWrap _ c => verdicts c
  | EErrno n => [errno_timeout n || recoverable_errno n]
  | ESentinel _ | EResponse _ => [false]
  end.

(** ** Lemmas *)

(** Induction over the tree, with the hypothesis for every joined error. *)
Fixpoint go_error_ind' (P : go_error -> Prop)
    (Hs : forall s, P (ESentinel s)) (Hn : forall n, P (EErrno n))
    (Hi : forall name c, P c -> P (EInterface name c))
    (Ht : forall t, P (ENet t None)) (Htc : forall t c, P c -> P (ENet t (Some c)))
    (Hr : forall r, P (EResponse r)) (Hw : forall text c, P c -> P (EWrap text c))
    (Hj : forall es, Forall P es -> P (EJoin es)) (e : go_error) : P e :=
  let rec := go_error_ind' P Hs Hn Hi Ht Htc Hr Hw Hj in
  match e with
  | ESentinel s => Hs s
  | EErrno n => Hn n
  | EInterface name c => Hi name c (rec c)
  | ENet t None => Ht t
  | ENet t (Some c) => Htc t c (rec c)
  | EResponse r => Hr r
  | EWrap text c => Hw text c (rec c)
  | EJoin es =>
      Hj es ((fix all (l : list go_error) : Forall P l :=
                match l with
                | [] => Forall_nil_2 P
                | c :: l' => Forall_cons_2 P c l' (rec c) (all l')
                end) es)
  end.

Definition terminal (e : go_error) : bool := errors_is ContextCanceled e || errors_is ErrRejected e.

Lemma errors_join_None es : errors_join es = None <-> es = [].
Proof. by destruct es. Qed.

Lemma terminal_join es : terminal (EJoin es) = existsb terminal es.
Proof.
  unfold terminal. cbn [errors_is]. induction es as [|e es IH]; [done|]. cbn [existsb]. rewrite <- IH.
  destruct (errors_is ContextCanceled e), (errors_is ErrRejected e); cbn; try done; by rewrite orb_true_r.
Qed.

Lemma recoverable_terminal e : terminal e = true -> recoverable e = false.
Proof. unfold terminal. destruct e; cbn [recoverable]; by intros ->. Qed.

Lemma forallb_verdicts es :
  Forall (fun e => terminal e = false -> recoverable e = forallb id (verdicts e)) es ->
  existsb terminal es = false -> forallb recoverable es = forallb id (es ≫= verdicts).
Proof.
  induction 1 as [|e es He _ IH]; [done|]. cbn [existsb forallb mbind list_bind]. intros [H1 H2]%orb_false_iff.
  rewrite forallb_app, He, IH by done. done.
Qed.

Lemma recoverable_verdicts e : terminal e = false -> recoverable e = forallb id (verdicts e).
Proof.
  induction e as [s|n|name c IH|t|t c IH|r|text c IH|es IH] using go_error_ind'; intros Ht;
    pose proof Ht as Ht'; unfold terminal in Ht'; cbn [recoverable]; rewrite Ht'; cbn [verdicts]; try done.
  - cbn [forallb]. unfold id. by rewrite andb_true_r.
  - by destruct t.
  - destruct t; [done|]. by apply IH.
  - by apply IH.
  - case_bool_decide as Hl; [done|]. cbn [negb andb]. apply forallb_verdicts; [done|].
    by rewrite <- terminal_join.
Qed.

(** ** Properties *)

(** A failure lets a flow move on to a fallback exactly when neither a
    cancellation nor a policy rejection occurs anywhere in the error tree and
    every deciding node of it is an interface failure, a timeout or a network
    errno; one terminal cause among joined ones is enough to stop. *)
Theorem recoverable_spec (e : go_error) :
  IsRecoverable (Some e) = true <->
  errors_is ContextCanceled e = false /\ errors_is ErrRejected e = false /\ Forall (fun v => v = true) (verdicts e).
Proof.
  cbn [IsRecoverable]. destruct (terminal e) eqn:Ht.
  - rewrite (recoverable_terminal e Ht). unfold terminal in Ht. apply orb_true_iff in Ht.
    split; [done|]. intros (H1 & H2 & _). destruct Ht; congruence.
  - rewrite (recoverable_verdicts e Ht). unfold terminal in Ht. apply orb_false_iff in Ht as [-> ->].
    rewrite forallb_forall, Forall_forall. setoid_rewrite list_elem_of_In. unfold id.
    split; [by intros ?; split_and!|by intros (_ & _ & ?)].
Qed.
