(* ===== verification/Resolver.v ===== *)
(** * Component [internal/resolver]: definitions

    The DNS client of one outbound: its cache, the rotation over its upstream
    servers and the reading of an answer.  The DNS library is a parameter: the
    wire exchange, [dns.Fqdn] and the construction of a question; of a message
    the model keeps the fields the code reads. *)

From S2P Require Import Prelude.
From S2P Require Import GoStrings.
From S2P Require Import GoTime.
From S2P Require Import NetIP.
From S2P Require Import DomainName.
From S2P Require Import Outbound.

(** ** Messages *)

Definition TypeA : Z := 1.
Definition TypeAAAA : Z := 28.

Definition RcodeSuccess : Z := 0.
Definition RcodeFormatError : Z := 1.
Definition RcodeServerFailure : Z := 2.
Definition RcodeNameError : Z := 3.
Definition RcodeNotImplemented : Z := 4.
Definition RcodeRefused : Z := 5.

(** A resource record; [ip] are the bytes of a [net.IP]. *)
Inductive RR : Type :=
| RR_A (name : string) (ttl : Z) (ip : list Z)
| RR_AAAA (name : string) (ttl : Z) (ip : list Z)
| RR_CNAME (name : string) (ttl : Z) (target : string)
| RR_Other (name : string).

Record Question : Type := MkQuestion { q_Name : string; q_Qtype : Z }.

Record Msg : Type := MkMsg {
  msg_Id : Z;
  msg_Authoritative : bool;
  msg_Truncated : bool;
  msg_Rcode : Z;
  msg_Question : list Question;
  msg_Answer : list RR
}.

(** [net.IP.To4] and [netip.AddrFromSlice]. *)
Definition to4 (ip : list Z) : list Z :=
  if bool_decide (length ip = 4%nat) then ip
  else if bool_decide (length ip = 16%nat) && bool_decide (take 12 ip = replicate 10 0 ++ [255; 255]) then drop 12 ip
  else [].

Definition addr_from_slice (ip : list Z) : option addr :=
  if bool_decide (length ip = 4%nat) then Some (Addr4 (be_value ip))
  else if bool_decide (length ip = 16%nat) then Some (Addr6 (be_value ip) "")
  else None.

(** ** The client *)

Record cacheEntry : Type := MkCacheEntry { ce_addresses : list addr; ce_expiresAt : Z }.

(** [cacheKey]: the domain and the query type. *)
Notation cacheKey := (string * Z)%type (only parsing).

(** [cl_in_use] is the number of tokens in the semaphore, [cl_maxConcurrent]
    its capacity. *)
Record Client : Type := MkClient {
  cl_servers : list addr_port;
  cl_interfaceName : string;
  cl_timeout : Z;
  cl_maxConcurrent : Z;
  cl_in_use : Z;
  cl_next : Z;
  cl_cache : gmap (string * Z) cacheEntry
}.

Definition maxCacheEntries : Z := 1024.

Definition set_cache (cache : gmap (string * Z) cacheEntry) (c : Client) : Client :=
  MkClient (cl_servers c) (cl_interfaceName c) (cl_timeout c) (cl_maxConcurrent c) (cl_in_use c) (cl_next c) cache.

Definition set_next_server (next : Z) (c : Client) : Client :=
  MkClient (cl_servers c) (cl_interfaceName c) (cl_timeout c) (cl_maxConcurrent c) (cl_in_use c) next (cl_cache c).

(** An upstream that [newClient] refuses. *)
Definition bad_upstream (allowLoopback : bool) (server : addr_port) : bool :=
  negb (ap_valid server) || (ap_port server =? 0) || is_unspecified (ap_addr server) ||
  is4in6 (ap_addr server) || (negb allowLoopback && is_loopback (ap_addr server)).

(** [newClient] *)
Definition newClient (interfaceName : string) (servers : list addr_port) (timeout maxConcurrent : Z)
    (allowLoopback : bool) : result go_error Client :=
  fail_if bool_decide (interfaceName = "") with failure "resolver interface is required" in
  fail_if bool_decide (servers = []) with failure "resolver requires explicit upstream servers" in
  fail_if timeout <=? 0 with failure "resolver timeout must be positive" in
  fail_if (maxConcurrent <=? 0) || (65536 <? maxConcurrent) with failure "resolver max concurrency" in
  fail_if existsb (bad_upstream allowLoopback) servers with failure "resolver upstream must be non-loopback" in
  Ok (MkClient servers interfaceName timeout maxConcurrent 0 0 ∅).

(** [NewClient] *)
Definition NewClient (interfaceName : string) (servers : list addr_port) (timeout maxConcurrent : Z)
    : result go_error Client :=
  newClient interfaceName servers timeout maxConcurrent false.

(** ** Response codes *)

Definition isRetryableRCode (rcode : Z) : bool :=
  bool_decide (rcode = RcodeServerFailure) || bool_decide (rcode = RcodeRefused) ||
  bool_decide (rcode = RcodeNotImplemented).

(** [IsBusinessError] *)
Definition IsBusinessError (e : go_error) : bool :=
  match errors_as_response e with
  | Some rcode => negb (isRetryableRCode rcode)
  | None => errors_is ErrNoIPv4Address e || errors_is ErrNoIPv6Address e
  end.

(** ** The cache *)

(** [cached] *)
Definition cached (domain : string) (qtype now : Z) (c : Client) : Client * list addr :=
  match cl_cache c !! (domain, qtype) with
  | None => (c, [])
  | Some entry =>
      if ce_expiresAt entry <=? now then (set_cache (delete (domain, qtype) (cl_cache c)) c, [])
      else (c, ce_addresses entry)
  end.

(** The scan for the oldest entry, in the order [candidates] of the map. *)
Fixpoint oldest_loop (candidates : list ((string * Z) * cacheEntry)) (oldest : option ((string * Z) * Z))
    : option ((string * Z) * Z) :=
  match candidates with
  | [] => oldest
  | (key, entry) :: candidates' =>
      oldest_loop candidates'
        match oldest with
        | None => Some (key, ce_expiresAt entry)
        | Some (_, expiry) => if ce_expiresAt entry <? expiry then Some (key, ce_expiresAt entry) else oldest
        end
  end.

(** [store]; without a candidate the code deletes the zero key, which is never
    present. *)
Definition store_in_order (order : list ((string * Z) * cacheEntry)) (domain : string) (qtype : Z)
    (addresses : list addr) (expiresAt : Z) (c : Client) : Client :=
  let cache :=
    if maxCacheEntries <=? Z.of_nat (size (cl_cache c)) then
      delete match oldest_loop order None with Some (key, _) => key | None => ("", 0) end (cl_cache c)
    else cl_cache c in
  set_cache (<[(domain, qtype) := MkCacheEntry addresses expiresAt]> cache) c.

Definition store (domain : string) (qtype : Z) (addresses : list addr) (expiresAt : Z) (c : Client) : Client :=
  store_in_order (map_to_list (cl_cache c)) domain qtype addresses expiresAt c.

(** ** Reading an answer *)

(** [minimumTTL] *)
Definition minimumTTL (current : Z) (haveCurrent : bool) (candidate : Z) : Z * bool :=
  if negb haveCurrent || (candidate <? current) then (candidate, true) else (current, true).

Record cnameRecord : Type := MkCname { cn_target : string; cn_ttl : Z; cn_conflict : bool }.

Section answers.
  (** [dns.Fqdn]. *)
  Context (Fqdn : string -> string).

Definition canonicalDNSName (name : string) : string := to_lower (Fqdn name).

(** One iteration of the loop that collects the CNAME records. *)
Definition add_cname (cnames : gmap string cnameRecord) (answer : RR) : gmap string cnameRecord :=
  match answer with
  | RR_CNAME name ttl target =>
      let owner := canonicalDNSName name in
      let target := canonicalDNSName target in
      match cnames !! owner with
      | Some existing =>
          let conflict := cn_conflict existing || negb (bool_decide (cn_target existing = target)) in
          <[owner := MkCname (cn_target existing) (minimumTTL (cn_ttl existing) true ttl).1 conflict]> cnames
      | None => <[owner := MkCname target ttl false]> cnames
      end
  | _ => cnames
  end.

Definition collect_cnames (answers : list RR) : gmap string cnameRecord := fold_left add_cname answers ∅.

(** The ways [answerTarget] fails; [ChaseFuel] is not one of them, see
    [answer_target_terminates]. *)
Inductive chase_error : Type := CnameLoop (name : string) | CnameConflict (name : string) | ChaseFuel.

(** The second loop of [answerTarget]. *)
Fixpoint chase (fuel : nat) (cnames : gmap string cnameRecord) (current : string) (visited : gset string)
    (ttl : Z) (haveTTL : bool) : result chase_error (string * Z * bool) :=
  match fuel with
  | O => Err ChaseFuel
  | S fuel' =>
      if bool_decide (current ∈ visited) then Err (CnameLoop current)
      else
        match cnames !! current with
        | None => Ok (current, ttl, haveTTL)
        | Some record =>
            if cn_conflict record then Err (CnameConflict current)
            else
              let '(ttl, haveTTL) := minimumTTL ttl haveTTL (cn_ttl record) in
              chase fuel' cnames (cn_target record) ({[current]} ∪ visited) ttl haveTTL
        end
  end.

(** [answerTarget]: every turn visits a new name, all but the last of them
    owners of a CNAME, so two more than the number of owners is enough fuel. *)
Definition answerTarget (answers : list RR) (domain : string) : result chase_error (string * Z * bool) :=
  let cnames := collect_cnames answers in
  chase (S (S (size cnames))) cnames (canonicalDNSName domain) ∅ 0 false.

(** The address of a record of the wanted type. *)
Definition record_address (six : bool) (answer : RR) : option (string * Z * addr) :=
  match answer with
  | RR_A name ttl ip =>
      if six then None
      else match addr_from_slice (to4 ip) with
           | Some a => if is4 a then Some (name, ttl, a) else None
           | None => None
           end
  | RR_AAAA name ttl ip =>
      if six then
        match addr_from_slice ip with
        | Some a => if is6 a && negb (is4in6 a) then Some (name, ttl, a) else None
        | None => None
        end
      else None
  | _ => None
  end.

(** One iteration of the loop that collects the addresses.  [seen] of the code
    is the set of the collected addresses. *)
Definition add_address (six : bool) (target : string) (acc : list addr * Z * bool) (answer : RR)
    : list addr * Z * bool :=
  let '(addresses, ttl, haveTTL) := acc in
  match record_address six answer with
  | Some (name, recordTTL, a) =>
      if bool_decide (canonicalDNSName name = target) then
        let '(ttl, haveTTL) := minimumTTL ttl haveTTL recordTTL in
        if bool_decide (a ∈ addresses) then (addresses, ttl, haveTTL)
        else (addresses ++ [a], ttl, haveTTL)
      else acc
  | None => acc
  end.

Definition chase_failure (e : chase_error) : go_error :=
  match e with
  | CnameLoop name => failure ("DNS response contains a CNAME loop at " +:+ name)
  | CnameConflict name => failure ("DNS response contains conflicting CNAME targets for " +:+ name)
  | ChaseFuel => failure "out of fuel"
  end.

(** The addresses of a reply with their lifetime: the part of the two lookups
    between the exchange and the cache. *)
Definition read_reply (six : bool) (reply : Msg) (normalized : string) : result go_error (list addr * Z * bool) :=
  fail_if negb (msg_Rcode reply =? RcodeSuccess) with EResponse (msg_Rcode reply) in
  let! found := map_err chase_failure (answerTarget (msg_Answer reply) normalized) in
  let '(target, ttl, haveTTL) := found in
  let '(addresses, ttl, haveTTL) := fold_left (add_address six target) (msg_Answer reply) ([], ttl, haveTTL) in
  fail_if bool_decide (addresses = [])
  with EWrap "for domain" (ESentinel (if six then ErrNoIPv6Address else ErrNoIPv4Address)) in
  Ok (addresses, ttl, haveTTL).
End answers.

(** ** Exchanges and lookups *)

Section exchange.
  (** The world outside, the exchange of one query with one server over a
      network through an interface within a timeout, and the other library
      functions. *)
  Context {W : Type}.
  Context (exchange : string -> Z -> Msg -> addr_port -> string -> W -> result go_error Msg * W).
  Context (Fqdn : string -> string) (SetQuestion : string -> Z -> Msg) (Copy : Msg -> Msg).

(** [exchangeOne] *)
Definition exchangeOne (c : Client) (request : Msg) (server : addr_port) (network : string) (w : W)
    : result go_error Msg * W :=
  exchange (cl_interfaceName c) (cl_timeout c) (Copy request) server network w.

(** How one server answers: a conclusive reply, a retryable one or none. *)
Inductive attempt : Type :=
| Conclusive (reply : Msg)
| Retryable (reply : Msg) (e : go_error)
| NoReply (e : go_error).

Definition classify (reply : Msg) : attempt :=
  if isRetryableRCode (msg_Rcode reply) then Retryable reply (failure "DNS server returned a retryable code")
  else Conclusive reply.

(** One iteration of the loop of [Exchange]. *)
Definition try_server (c : Client) (request : Msg) (server : addr_port) (w : W) : attempt * W :=
  let '(udpNetwork, tcpNetwork) := if is6 (ap_addr server) then ("udp6", "tcp6") else ("udp4", "tcp4") in
  match exchangeOne c request server udpNetwork w with
  | (Err e, w) => (NoReply (EWrap "UDP" e), w)
  | (Ok reply, w) =>
      if msg_Truncated reply then
        match exchangeOne c request server tcpNetwork w with
        | (Err e, w) => (NoReply (EWrap "TCP fallback" e), w)
        | (Ok reply, w) => (classify reply, w)
        end
      else (classify reply, w)
  end.

Fixpoint exchange_loop (c : Client) (request : Msg) (servers : list addr_port) (failures : list go_error)
    (lastRetryable : option Msg) (w : W) : result go_error Msg * W :=
  match servers with
  | [] =>
      match lastRetryable with
      | Some reply => (Ok reply, w)
      | None => (Err (EWrap "all explicit DNS upstreams failed" (EJoin failures)), w)
      end
  | server :: servers' =>
      match try_server c request server w with
      | (Conclusive reply, w) => (Ok reply, w)
      | (Retryable reply e, w) => exchange_loop c request servers' (failures ++ [e]) (Some reply) w
      | (NoReply e, w) => exchange_loop c request servers' (failures ++ [e]) lastRetryable w
      end
  end.

(** [int(x)] of a [uint64]. *)
Definition int_of_u64 (x : Z) : Z := if x <? 2 ^ 63 then x else x - 2 ^ 64.

(** [servers[(start+offset) % len]] for all offsets; [None] is the panic of an
    index below zero. *)
Definition rotation (c : Client) : option (list addr_port) :=
  let n := Z.of_nat (length (cl_servers c)) in
  let start := Z.rem (int_of_u64 (cl_next c)) n in
  mapM (fun offset =>
          let index := Z.rem (start + offset) n in
          if index <? 0 then None else cl_servers c !! Z.to_nat index)
       (seqZ 0 n).

(** [Exchange].  [done] is the error of a finished context and [prefer_done]
    the choice of the select when both cases are ready.  Taking a token and
    giving it back cancel out; the panic has an error of its own. *)
Definition Exchange (request : Msg) (done : option go_error) (prefer_done : bool) (c : Client) (w : W)
    : result go_error Msg * Client * W :=
  let free := cl_in_use c <? cl_maxConcurrent c in
  let refused :=
    match done with
    | Some e => if negb free || prefer_done then Some e else None
    | None => if free then None else Some (failure "resolver concurrency limit reached")
    end in
  match refused, rotation c with
  | Some e, _ => (Err e, c, w)
  | None, None => (Err (failure "index out of range"), c, w)
  | None, Some servers =>
      let '(r, w) := exchange_loop c request servers [] None w in
      (r, set_next_server (wrap64 (cl_next c + 1)) c, w)
  end.

(** The two lookups, which differ in the record type only.  [now] is the time
    of the cache lookup, [later] that of the store. *)
Definition lookup_family (six : bool) (domain : string) (done : option go_error) (prefer_done : bool)
    (now later : Z) (c : Client) (w : W) : result go_error (list addr) * Client * W :=
  let qtype := if six then TypeAAAA else TypeA in
  match Normalize domain with
  | Err _ => (Err (failure "invalid domain"), c, w)
  | Ok normalized =>
      match cached normalized qtype now c with
      | (c, (_ :: _) as addresses) => (Ok addresses, c, w)
      | (c, []) =>
          match Exchange (SetQuestion (Fqdn normalized) qtype) done prefer_done c w with
          | (Err e, c, w) => (Err e, c, w)
          | (Ok reply, c, w) =>
              match read_reply Fqdn six reply normalized with
              | Err e => (Err e, c, w)
              | Ok (addresses, ttl, haveTTL) =>
                  let c := if haveTTL && (0 <? ttl)
                           then store normalized qtype addresses (later + ttl * second) c else c in
                  (Ok addresses, c, w)
              end
          end
      end
  end.

(** [LookupIPv4] and [LookupIPv6] *)
Definition LookupIPv4 := lookup_family false.
Definition LookupIPv6 := lookup_family true.
End exchange.
