(* ===== verification/ResolverFacts.v ===== *)
(** * Component [internal/resolver]: properties

    The CNAME chase against a path specification and its termination, the
    upstream rotation, the cache invariant and what a lookup returns. *)

From S2P Require Import Prelude.
From S2P Require Import GoStrings.
From S2P Require Import GoTime.
From S2P Require Import NetIP.
From S2P Require Import DomainName.
From S2P Require Import Outbound.
From S2P Require Import Resolver.

(** ** The chase *)

Section chase.
Context (m : gmap string cnameRecord).

(** The alias chain from a name: the records on the way, each without
    conflict, and the name at its end, which owns no record. *)
Inductive chain : string -> list Z -> string -> Prop :=
| chain_end a : m !! a = None -> chain a [] a
| chain_step a r ttls b :
    m !! a = Some r -> cn_conflict r = false -> chain (cn_target r) ttls b -> chain a (cn_ttl r :: ttls) b.

Definition fold_ttl (ttls : list Z) (ttl : Z) (have : bool) : Z * bool :=
  fold_left (fun acc t => minimumTTL acc.1 acc.2 t) ttls (ttl, have).

Lemma chase_sound fuel a visited ttl have b t h :
  chase fuel m a visited ttl have = Ok (b, t, h) ->
  exists ttls, chain a ttls b /\ (t, h) = fold_ttl ttls ttl have.
Proof.
  revert a visited ttl have. induction fuel as [|fuel IH]; intros a visited ttl have; cbn [chase]; [done|].
  case_bool_decide; [done|]. destruct (m !! a) as [r|] eqn:Ha.
  - destruct (cn_conflict r) eqn:Hc; [done|]. destruct (minimumTTL ttl have (cn_ttl r)) as [t1 h1] eqn:Hm.
    intros (ttls & Hch & Heq)%IH. exists (cn_ttl r :: ttls). split; [by econstructor|].
    unfold fold_ttl. cbn [fold_left fst snd]. by rewrite Hm.
  - intros [= <- <- <-]. exists []. split; [by constructor|done].
Qed.

(** A chain is determined by its start and does not come back. *)
Lemma chain_det a ttls1 b1 ttls2 b2 : chain a ttls1 b1 -> chain a ttls2 b2 -> ttls1 = ttls2 /\ b1 = b2.
Proof.
  intros H1. revert ttls2 b2. induction H1 as [a Ha|a r ttls b Ha Hc _ IH]; intros ttls2 b2 H2.
  - inversion H2; simplify_eq; done.
  - inversion H2 as [|? r' ? ? Ha' ? Hch']; simplify_eq. by destruct (IH _ _ Hch') as [-> ->].
Qed.

(** The names on the way of a chain. *)
Inductive passes : string -> list Z -> string -> Prop :=
| passes_here a ttls : passes a ttls a
| passes_next a r t ttls c : m !! a = Some r -> passes (cn_target r) ttls c -> passes a (t :: ttls) c.

Lemma passes_chain a ttls b c :
  chain a ttls b -> passes a ttls c -> exists ttls', chain c ttls' b /\ (c = a \/ (length ttls' < length ttls)%nat).
Proof.
  intros Hch Hp. revert b Hch. induction Hp as [a ttls|a r t ttls c Ha _ IH]; intros b Hch; [eauto|].
  inversion Hch as [|? r' ? ? Ha' ? Hch']; simplify_eq. destruct (IH _ Hch') as (ttls' & H1 & H2).
  exists ttls'. split; [done|]. right. cbn. destruct H2 as [->|]; [|lia].
  destruct (chain_det _ _ _ _ _ H1 Hch') as [-> _]. lia.
Qed.

Lemma chain_no_return a r ttls b :
  m !! a = Some r -> chain (cn_target r) ttls b -> ~ passes (cn_target r) ttls a.
Proof.
  intros Ha Hch Hp. destruct (passes_chain _ _ _ _ Hch Hp) as (ttls' & H1 & H2).
  assert (cn_conflict r = false) as Hc by (inversion H1; congruence).
  destruct (chain_det _ _ _ _ _ H1 (chain_step _ _ _ _ Ha Hc Hch)) as [-> _].
  destruct H2 as [He|]; [|cbn in *; lia]. rewrite He in H1.
  destruct (chain_det _ _ _ _ _ H1 Hch) as [Hbad _]. apply (f_equal length) in Hbad. cbn in Hbad. lia.
Qed.

Lemma chase_complete ttls a visited ttl have b fuel :
  chain a ttls b -> (length ttls < fuel)%nat -> (forall c, passes a ttls c -> c ∉ visited) ->
  chase fuel m a visited ttl have = Ok (b, (fold_ttl ttls ttl have).1, (fold_ttl ttls ttl have).2).
Proof.
  intros Hch. revert visited ttl have fuel. induction Hch as [a Ha|a r ttls b Ha Hc Hch IH];
    intros visited ttl have fuel Hlen Hv; (destruct fuel as [|fuel]; [cbn in Hlen; lia|]); cbn [chase];
    rewrite bool_decide_false by (apply Hv; constructor); rewrite Ha; [done|].
  rewrite Hc. destruct (minimumTTL ttl have (cn_ttl r)) as [t1 h1] eqn:Hm.
  rewrite IH; [|cbn in Hlen; lia|].
  - unfold fold_ttl. cbn [fold_left fst snd]. by rewrite Hm.
  - intros c Hp. rewrite not_elem_of_union, not_elem_of_singleton. split.
    + intros ->. by eapply chain_no_return.
    + apply Hv. by econstructor.
Qed.

(** The owners a chain uses are distinct keys of the map. *)
Lemma chain_length a ttls b : chain a ttls b -> (length ttls <= size m)%nat.
Proof.
  intros Hch.
  assert (exists owners, length owners = length ttls /\ NoDup owners /\
    forall c, c ∈ owners -> is_Some (m !! c) /\ passes a ttls c) as (owners & <- & Hnd & Hin).
  { induction Hch as [a Ha|a r ttls b Ha Hc Hch (owners & Hl & Hnd & Hin)].
    - exists []. split_and!; [done|constructor|]. by intros c ?%elem_of_nil.
    - exists (a :: owners). split_and!; [cbn; lia| |].
      + constructor; [|done]. intros Ha'. apply Hin in Ha' as [_ Hp]. by eapply chain_no_return.
      + intros c [->|Hc']%elem_of_cons; [split; [done|constructor]|].
        apply Hin in Hc' as [? ?]. split; [done|]. by econstructor. }
  apply NoDup_keys_size; [done|]. intros c Hc. by apply Hin.
Qed.

(** Fuel beyond the unvisited owners is never used up. *)
Lemma chase_fuel fuel a visited ttl have :
  (size (dom m ∖ visited) + 1 < fuel)%nat -> chase fuel m a visited ttl have <> Err ChaseFuel.
Proof.
  revert a visited ttl have. induction fuel as [|fuel IH]; intros a visited ttl have Hf; cbn [chase]; [lia|].
  case_bool_decide as Hv; [done|]. destruct (m !! a) as [r|] eqn:Ha; [|done]. destruct (cn_conflict r); [done|].
  destruct (minimumTTL ttl have (cn_ttl r)). apply IH.
  assert (size (dom m ∖ ({[a]} ∪ visited)) < size (dom m ∖ visited))%nat; [|lia].
  apply subset_size. assert (a ∈ dom m) by (by apply elem_of_dom). set_solver.
Qed.
End chase.

(** ** The lifetime of an answer *)

Lemma fold_ttl_have ttls t : fold_ttl ttls t true = (foldr Z.min t ttls, true).
Proof.
  unfold fold_ttl. revert t. induction ttls as [|x ttls IH]; intros t; cbn [fold_left fst snd]; [done|].
  unfold minimumTTL at 2. cbn [negb orb]. destruct (x <? t) eqn:Hlt; to_prop; rewrite IH; f_equal;
    clear -Hlt; induction ttls as [|y ttls IH]; cbn in *; lia.
Qed.

(** The shortest lifetime along a chain, if it has records. *)
Definition chain_ttl (ttls : list Z) : Z * bool :=
  match ttls with [] => (0, false) | t :: ttls' => (foldr Z.min t ttls', true) end.

Lemma fold_ttl_chain ttls : fold_ttl ttls 0 false = chain_ttl ttls.
Proof. destruct ttls as [|t ttls]; [done|]. apply (fold_ttl_have ttls t). Qed.

(** ** The cache *)

Definition of_family (qtype : Z) (a : addr) : Prop :=
  if bool_decide (qtype = TypeAAAA) then is6 a = true /\ is4in6 a = false else is4 a = true.

(** A list of addresses that a lookup may return. *)
Definition good_addresses (qtype : Z) (l : list addr) : Prop := l <> [] /\ NoDup l /\ Forall (of_family qtype) l.

Definition cache_inv (c : Client) : Prop :=
  Z.of_nat (size (cl_cache c)) <= maxCacheEntries /\
  forall domain qtype entry, cl_cache c !! (domain, qtype) = Some entry -> good_addresses qtype (ce_addresses entry).

Lemma oldest_loop_spec candidates oldest :
  match oldest_loop candidates oldest with
  | None => candidates = [] /\ oldest = None
  | Some (key, expiry) =>
      (oldest = Some (key, expiry) \/ exists e, (key, e) ∈ candidates /\ ce_expiresAt e = expiry) /\
      (forall k e, (k, e) ∈ candidates -> expiry <= ce_expiresAt e) /\
      (forall k x, oldest = Some (k, x) -> expiry <= x)
  end.
Proof.
  revert oldest. induction candidates as [|[k e] candidates IH]; intros oldest; cbn [oldest_loop].
  - destruct oldest as [[k x]|]; [|done]. split_and!; [by left| |intros ? ? [= <- <-]; lia]. by intros k' e' ?%elem_of_nil.
  - set (best := match oldest with None => _ | Some _ => _ end). specialize (IH best).
    assert (Hbest : exists kb xb, best = Some (kb, xb) /\ xb <= ce_expiresAt e /\
      ((kb, xb) = (k, ce_expiresAt e) \/ oldest = Some (kb, xb)) /\
      (forall ko xo, oldest = Some (ko, xo) -> xb <= xo)).
    { unfold best. destruct oldest as [[ko xo]|].
      - destruct (ce_expiresAt e <? xo) eqn:Hlt; to_prop; eexists _, _; split_and!; try done; try lia;
          [by left|intros ? ? [= <- <-]; lia|by right|intros ? ? [= <- <-]; lia].
      - eexists _, _. split_and!; try done; try lia. by left. }
    destruct Hbest as (kb & xb & Hb & Hle & Hfrom & Hold). rewrite Hb in IH |- *.
    destruct (oldest_loop candidates (Some (kb, xb))) as [[key expiry]|]; [|by destruct IH].
    destruct IH as (Hin & Hall & Hmin). specialize (Hmin _ _ eq_refl). split_and!.
    + destruct Hin as [[= <- <-]|(e' & He' & Hx)].
      * destruct Hfrom as [[= -> ->]|Ho]; [right; exists e; split; [by left|done]|by left].
      * right. exists e'. split; [by right|done].
    + intros k' e' [[= -> ->]|Hin']%elem_of_cons; [lia|]. by eapply Hall.
    + intros k' x' Hk'. specialize (Hold _ _ Hk'). lia.
Qed.

(** What [store] does: the new entry is there, and at most one other is gone,
    only from a full cache, and then none expires before it. *)
Lemma store_spec order domain qtype addresses expiresAt c :
  order ≡ₚ map_to_list (cl_cache c) ->
  let c' := store_in_order order domain qtype addresses expiresAt c in
  cl_cache c' !! (domain, qtype) = Some (MkCacheEntry addresses expiresAt) /\
  (forall key, key <> (domain, qtype) -> cl_cache c' !! key = cl_cache c !! key \/
     (maxCacheEntries <= Z.of_nat (size (cl_cache c)) /\ cl_cache c' !! key = None /\
      exists e, cl_cache c !! key = Some e /\
        forall k e', cl_cache c !! k = Some e' -> ce_expiresAt e <= ce_expiresAt e')) /\
  (Z.of_nat (size (cl_cache c)) <= maxCacheEntries -> Z.of_nat (size (cl_cache c')) <= maxCacheEntries).
Proof.
  intros Horder. cbn zeta. unfold store_in_order, set_cache. cbn [cl_cache].
  split; [by rewrite lookup_insert_eq|].
  pose proof (oldest_loop_spec order None) as Hold.
  destruct (maxCacheEntries <=? Z.of_nat (size (cl_cache c))) eqn:Hfull; to_prop.
  - destruct (oldest_loop order None) as [[ko xo]|].
    + destruct Hold as ([Ho|(e & He & <-)] & Hall & _); [done|].
      rewrite Horder in He. apply elem_of_map_to_list in He. split.
      * intros key Hne. rewrite lookup_insert_ne by done. destruct (decide (key = ko)) as [->|Hko].
        -- right. rewrite lookup_delete_eq. split_and!; [done|done|]. exists e. split; [done|].
           intros k e' Hk. apply (Hall k e'). rewrite Horder. by apply elem_of_map_to_list.
        -- left. by rewrite lookup_delete_ne.
      * intros Hsize. assert (size (delete ko (cl_cache c)) = pred (size (cl_cache c))) as Hd
          by (apply map_size_delete_Some; eauto).
        pose proof (map_size_insert_le (delete ko (cl_cache c)) (domain, qtype) (MkCacheEntry addresses expiresAt)).
        unfold maxCacheEntries in *. lia.
    + destruct Hold as [-> _]. exfalso.
      assert (size (cl_cache c) = 0%nat) as H0 by (rewrite <- length_map_to_list, <- Horder; done).
      unfold maxCacheEntries in *. lia.
  - split; [intros key Hne; left; by rewrite lookup_insert_ne|]. intros _.
    pose proof (map_size_insert_le (cl_cache c) (domain, qtype) (MkCacheEntry addresses expiresAt)). lia.
Qed.

Lemma store_inv domain qtype addresses expiresAt c :
  cache_inv c -> good_addresses qtype addresses -> cache_inv (store domain qtype addresses expiresAt c).
Proof.
  intros [Hsize Hall] Hgood. destruct (store_spec (map_to_list (cl_cache c)) domain qtype addresses expiresAt c)
    as (Hnew & Hold & Hs); [done|]. split; [by apply Hs|]. intros d q e He.
  destruct (decide ((d, q) = (domain, qtype))) as [[= -> ->]|Hne].
  - unfold store in He. rewrite Hnew in He. by injection He as <-.
  - unfold store in He. destruct (Hold _ Hne) as [Hk|(_ & Hk & _)]; rewrite Hk in He; [by eapply Hall|done].
Qed.

Lemma cached_inv domain qtype now c :
  cache_inv c ->
  cache_inv (cached domain qtype now c).1 /\
  ((cached domain qtype now c).2 = [] \/ good_addresses qtype (cached domain qtype now c).2).
Proof.
  intros [Hsize Hall]. unfold cached. destruct (cl_cache c !! (domain, qtype)) as [e|] eqn:He; [|by split; [|left]].
  destruct (ce_expiresAt e <=? now); cbn; [|split; [done|right; by eapply Hall]].
  split; [|by left]. split; cbn.
  - rewrite map_size_delete_Some by eauto. lia.
  - intros d q e'. rewrite lookup_delete_Some. intros [_ ?]. by eapply Hall.
Qed.

(** ** Reading a reply *)

Section reply.
Context (Fqdn : string -> string).

Lemma record_address_family six answer name ttl a :
  record_address six answer = Some (name, ttl, a) -> of_family (if six then TypeAAAA else TypeA) a.
Proof.
  unfold record_address, of_family. destruct answer as [n t ip|n t ip| |], six; try done.
  - destruct (addr_from_slice (to4 ip)) as [x|]; [|done]. destruct (is4 x) eqn:H4; [|done]. by intros [= <- <- <-].
  - destruct (addr_from_slice ip) as [x|]; [|done]. destruct (is6 x && negb (is4in6 x)) eqn:H6; [|done].
    intros [= <- <- <-]. to_prop. done.
Qed.

Lemma fold_addresses_good (six : bool) target answers (acc : list addr * Z * bool) :
  NoDup acc.1.1 -> Forall (of_family (if six then TypeAAAA else TypeA)) acc.1.1 ->
  NoDup (fold_left (add_address Fqdn six target) answers acc).1.1 /\
  Forall (of_family (if six then TypeAAAA else TypeA)) (fold_left (add_address Fqdn six target) answers acc).1.1.
Proof.
  revert acc. induction answers as [|answer answers IH]; intros [[l t] h] Hnd Hfam; [done|]. cbn [fold_left].
  apply IH; unfold add_address; destruct (record_address six answer) as [[[n rt] a]|] eqn:Ha; try done;
    (case_bool_decide; [|done]); destruct (minimumTTL t h rt); case_bool_decide; try done; cbn in *.
  - apply NoDup_app. split_and!; [done| |by apply NoDup_singleton]. intros x Hx ->%list_elem_of_singleton. done.
  - apply Forall_app. split; [done|]. apply Forall_singleton. by eapply record_address_family.
Qed.

Lemma read_reply_good six reply normalized l t h :
  read_reply Fqdn six reply normalized = Ok (l, t, h) -> good_addresses (if six then TypeAAAA else TypeA) l.
Proof.
  unfold read_reply. intros H. inv_result. destruct x as [[target t0] h0].
  destruct (fold_addresses_good six target (msg_Answer reply) (([], t0), h0)) as [Hnd Hfam]; [by constructor..|].
  destruct (fold_left _ _ _) as [[l' t'] h']. inv_result. simplify_eq. to_prop. done.
Qed.
End reply.

(** ** Exchanges *)

Section exchanges.
Context {W : Type}.
Context (exchange : string -> Z -> Msg -> addr_port -> string -> W -> result go_error Msg * W).
Context (Fqdn : string -> string) (SetQuestion : string -> Z -> Msg) (Copy : Msg -> Msg).

(** A run over servers none of which gave a conclusive reply; [replies] are
    the retryable ones, in their order. *)
Inductive skips (c : Client) (request : Msg) : list addr_port -> W -> list Msg -> W -> Prop :=
| skips_nil w : skips c request [] w [] w
| skips_retry server servers w reply e w1 replies w' :
    try_server exchange Copy c request server w = (Retryable reply e, w1) ->
    skips c request servers w1 replies w' -> skips c request (server :: servers) w (reply :: replies) w'
| skips_silent server servers w e w1 replies w' :
    try_server exchange Copy c request server w = (NoReply e, w1) ->
    skips c request servers w1 replies w' -> skips c request (server :: servers) w replies w'.

(** The outcome of asking the servers in this order. *)
Inductive asked (c : Client) (request : Msg) (servers : list addr_port) (w : W)
    : result go_error Msg -> W -> Prop :=
| asked_conclusive before server after replies w1 reply w' :
    servers = before ++ server :: after -> skips c request before w replies w1 ->
    try_server exchange Copy c request server w1 = (Conclusive reply, w') ->
    asked c request servers w (Ok reply) w'
| asked_retryable replies reply w' :
    skips c request servers w replies w' -> last replies = Some reply -> asked c request servers w (Ok reply) w'
| asked_failed es w' :
    skips c request servers w [] w' -> length es = length servers ->
    asked c request servers w (Err (EWrap "all explicit DNS upstreams failed" (EJoin es))) w'.

Lemma exchange_loop_asked c request before servers failures w0 replies w :
  skips c request before w0 replies w -> length failures = length before ->
  forall r w', exchange_loop exchange Copy c request servers failures (last replies) w = (r, w') ->
  asked c request (before ++ servers) w0 r w'.
Proof.
  revert before failures replies w. induction servers as [|server servers IH];
    intros before failures replies w Hs Hlen r w'; cbn [exchange_loop].
  - rewrite app_nil_r. destruct (last replies) as [reply|] eqn:Hl.
    + intros [= <- <-]. by eapply asked_retryable.
    + apply last_None in Hl as ->. intros [= <- <-]. by apply asked_failed.
  - assert (Hsnoc : forall at_ w1, try_server exchange Copy c request server w = (at_, w1) ->
      match at_ with Conclusive _ => True | Retryable reply _ => skips c request (before ++ [server]) w0 (replies ++ [reply]) w1
                   | NoReply _ => skips c request (before ++ [server]) w0 replies w1 end).
    { intros at_ w1 Ht. clear IH Hlen. induction Hs as [w|s ss w reply e w2 replies w3 Hr Hs IHs|s ss w e w2 replies w3 Hr Hs IHs].
      - destruct at_; [done| |]; (eapply skips_retry + eapply skips_silent); try done; constructor.
      - specialize (IHs Ht). destruct at_; [done| |]; cbn; by eapply skips_retry.
      - specialize (IHs Ht). destruct at_; [done| |]; cbn; by eapply skips_silent. }
    destruct (try_server exchange Copy c request server w) as [[reply|reply e|e] w1] eqn:Ht.
    + intros [= <- <-]. by eapply asked_conclusive.
    + intros Hloop. rewrite cons_middle, app_assoc.
      eapply (IH (before ++ [server]) (failures ++ [e]) (replies ++ [reply]) w1); [by apply (Hsnoc _ _ eq_refl)| |].
      * rewrite !length_app, Hlen. cbn. lia.
      * rewrite last_snoc. exact Hloop.
    + intros Hloop. rewrite cons_middle, app_assoc.
      eapply (IH (before ++ [server]) (failures ++ [e]) replies w1); [by apply (Hsnoc _ _ eq_refl)| |done].
      rewrite !length_app, Hlen. cbn. lia.
Qed.

Lemma mapM_lookup_run {A} (l : list A) (f : Z -> option A) n k :
  (forall i, 0 <= i < Z.of_nat n -> f (k + i) = l !! Z.to_nat i) -> length l = n -> mapM f (seqZ k (Z.of_nat n)) = Some l.
Proof.
  revert k l. induction n as [|n IH]; intros k l Hf Hlen.
  - by destruct l.
  - destruct l as [|x l]; [done|]. rewrite seqZ_cons by lia. cbn [mapM].
    assert (f k = Some x) as ->. { rewrite <- (Z.add_0_r k), Hf by lia. done. }
    cbn. replace (Z.pred (Z.of_nat (S n))) with (Z.of_nat n) by lia.
    rewrite (IH (Z.succ k) l); [done| |by injection Hlen].
    intros i Hi. replace (Z.succ k + i) with (k + (i + 1)) by lia. rewrite Hf by lia.
    by replace (Z.to_nat (i + 1)) with (S (Z.to_nat i)) by lia.
Qed.

(** Below 2^63 queries the rotation starts at the counter and is complete. *)
Lemma rotation_spec c :
  cl_servers c <> [] -> 0 <= cl_next c < 2 ^ 63 ->
  let k := Z.to_nat (cl_next c mod Z.of_nat (length (cl_servers c))) in
  rotation c = Some (drop k (cl_servers c) ++ take k (cl_servers c)).
Proof.
  intros Hne Hnext. unfold rotation, int_of_u64. set (l := cl_servers c) in *. set (n := length l).
  assert (0 < Z.of_nat n) as Hn by (unfold n; destruct l; [done|cbn; lia]).
  replace (cl_next c <? 2 ^ 63) with true by (symmetry; apply Z.ltb_lt; lia).
  rewrite Z.rem_mod_nonneg by lia. set (s := cl_next c mod Z.of_nat n).
  assert (0 <= s < Z.of_nat n) as Hs by (apply Z.mod_pos_bound; lia).
  apply mapM_lookup_run; [|rewrite length_app, length_drop, length_take; fold n; lia].
  intros i Hi. cbn [Z.add]. replace (0 + i) with i by lia. rewrite Z.rem_mod_nonneg by lia.
  pose proof (Z.mod_pos_bound (s + i) (Z.of_nat n)).
  replace ((s + i) mod Z.of_nat n <? 0) with false by (symmetry; apply Z.ltb_ge; lia).
  destruct (decide (s + i < Z.of_nat n)) as [Hlt|Hge].
  - rewrite Z.mod_small by lia. rewrite lookup_app_l by (rewrite length_drop; fold n; lia).
    rewrite lookup_drop. f_equal. lia.
  - replace ((s + i) mod Z.of_nat n) with (s + i - Z.of_nat n).
    2:{ apply Zmod_unique with 1; lia. }
    rewrite lookup_app_r by (rewrite length_drop; fold n; lia). rewrite length_drop.
    rewrite lookup_take_lt by (fold n; lia). f_equal. fold n. lia.
Qed.

(** ** Lookups *)

Definition same_config (c c' : Client) : Prop :=
  cl_servers c' = cl_servers c /\ cl_interfaceName c' = cl_interfaceName c /\ cl_timeout c' = cl_timeout c /\
  cl_maxConcurrent c' = cl_maxConcurrent c /\ cl_in_use c' = cl_in_use c.

Lemma Exchange_cache request dn prefer c w r c' w' :
  Exchange exchange Copy request dn prefer c w = (r, c', w') -> cl_cache c' = cl_cache c /\ same_config c c'.
Proof.
  unfold Exchange, same_config. destruct (match dn with Some _ => _ | None => _ end) as [e|]; [by intros [= _ <- _]|].
  destruct (rotation c) as [servers|]; [|by intros [= _ <- _]].
  destruct (exchange_loop _ _ _ _ _ _ _ _). by intros [= _ <- _].
Qed.

Lemma lookup_family_inv six domain dn prefer now later c w r c' w' :
  cache_inv c -> lookup_family exchange Fqdn SetQuestion Copy six domain dn prefer now later c w = (r, c', w') ->
  cache_inv c' /\ same_config c c' /\
  forall l, r = Ok l -> good_addresses (if six then TypeAAAA else TypeA) l.
Proof.
  intros Hc. unfold lookup_family. destruct (Normalize domain) as [d|]; [|by intros [= <- <- <-]].
  set (q := if six then TypeAAAA else TypeA). pose proof (cached_inv d q now c Hc) as [Hc1 Hl1].
  assert (same_config c (cached d q now c).1) as Hs1
    by (unfold cached; destruct (_ !! _) as [e|]; [destruct (_ <=? _)|]; done).
  destruct (cached d q now c) as [c1 [|a l]]; cbn [fst snd] in *; cycle 1.
  { intros [= <- <- <-]. split_and!; try done. intros l' [= <-]. by destruct Hl1. }
  destruct (Exchange _ _ _ _ _ _ _) as [[r2 c2] w2] eqn:Hx. apply Exchange_cache in Hx as [Hcache Hs2].
  assert (cache_inv c2) as Hc2 by (unfold cache_inv; by rewrite Hcache).
  assert (same_config c c2) as Hs by (unfold same_config in *; destruct_and!; split_and!; congruence).
  destruct r2 as [reply|e]; [|by intros [= <- <- <-]].
  destruct (read_reply Fqdn six reply d) as [[[l t] h]|e] eqn:Hr; [|by intros [= <- <- <-]].
  apply read_reply_good in Hr. intros [= <- <- <-]. split_and!.
  - destruct (h && (0 <? t)); [by apply store_inv|done].
  - destruct (h && (0 <? t)); done.
  - by intros l' [= <-].
Qed.
(** A client serving one query after the other; the answers are kept with
    their family. *)
Definition lookup_step (acc : list (bool * result go_error (list addr)) * Client * W)
    (query : bool * string * option go_error * bool * Z * Z) : list (bool * result go_error (list addr)) * Client * W :=
  let '(answers, c, w) := acc in
  let '(six, domain, dn, prefer, now, later) := query in
  let '(r, c, w) := lookup_family exchange Fqdn SetQuestion Copy six domain dn prefer now later c w in
  (answers ++ [(six, r)], c, w).

Definition lookup_run (queries : list (bool * string * option go_error * bool * Z * Z)) (c : Client) (w : W)
    : list (bool * result go_error (list addr)) * Client * W := fold_left lookup_step queries ([], c, w).

Definition good_answer (answer : bool * result go_error (list addr)) : Prop :=
  forall l, answer.2 = Ok l -> good_addresses (if answer.1 then TypeAAAA else TypeA) l.

Lemma lookup_steps_inv queries acc :
  cache_inv acc.1.2 -> Forall good_answer acc.1.1 ->
  cache_inv (fold_left lookup_step queries acc).1.2 /\ Forall good_answer (fold_left lookup_step queries acc).1.1.
Proof.
  revert acc. induction queries as [|[[[[[six domain] dn] prefer] now] later] queries IH];
    intros [[answers c] w] Hc Hans; [done|]. cbn [fold_left fst snd] in *. unfold lookup_step at 2 4.
  destruct (lookup_family _ _ _ _ _ _ _ _ _ _ _ _) as [[r c'] w'] eqn:Hl.
  edestruct lookup_family_inv as (Hc' & _ & Hr); [exact Hc|exact Hl|].
  apply IH; [done|]. apply Forall_app. split; [done|]. by apply Forall_singleton.
Qed.
End exchanges.

(** A response code under any number of wrappers. *)
Inductive response_error (rcode : Z) : go_error -> Prop :=
| response_here : response_error rcode (EResponse rcode)
| response_wrap text e : response_error rcode e -> response_error rcode (EWrap text e).

(** ** Demonstration *)

(** Two servers, one of which answers an alias and its addresses. *)
Definition demo_server (host : Z) : addr_port := AddrPort (Addr4 (0x0a000000 + host)) 53.

Definition demo_reply : Msg := MkMsg 7 false false 0 []
  [RR_CNAME "www.example." 60 "host.example."; RR_A "HOST.example." 30 [192; 0; 2; 1];
   RR_A "host.example." 20 [192; 0; 2; 1]; RR_A "other.example." 5 [192; 0; 2; 9]].

Definition demo_exchange (interface : string) (timeout : Z) (request : Msg) (server : addr_port) (network : string)
    (w : list addr_port) : result go_error Msg * list addr_port :=
  (if bool_decide (server = demo_server 1) then Err (failure "unreachable") else Ok demo_reply, w ++ [server]).

Definition demo_fqdn (s : string) : string := if has_suffix s "." then s else s +:+ ".".

Definition demo_question (name : string) (qtype : Z) : Msg := MkMsg 7 false false 0 [MkQuestion name qtype] [].

Definition demo_client : Client :=
  MkClient [demo_server 1; demo_server 2] "en0" 5000 64 0 0 ∅.

Example demo_lookup :
  exists c, lookup_family demo_exchange demo_fqdn demo_question id false "WWW.example" None false 100 200 demo_client []
    = (Ok [Addr4 0xc0000201], c, [demo_server 1; demo_server 2]) /\
  cl_cache c !! ("www.example", TypeA) = Some (MkCacheEntry [Addr4 0xc0000201] (200 + 20 * second)).
Proof. eexists. split; vm_compute; reflexivity. Qed.

(** ** Properties *)

(** C28: [answerTarget] always ends, and it succeeds exactly when the alias
    chain of the domain reaches a name without a CNAME over records none of
    which is contradicted; it then returns that name and the shortest lifetime
    on the chain.  Loops and conflicts on the chain are errors. *)
Theorem answer_target_spec (Fqdn : string -> string) (answers : list RR) (domain target : string) (ttl : Z) (have : bool) :
  (answerTarget Fqdn answers domain = Ok (target, ttl, have) <->
   exists ttls, chain (collect_cnames Fqdn answers) (canonicalDNSName Fqdn domain) ttls target /\
     (ttl, have) = chain_ttl ttls) /\
  answerTarget Fqdn answers domain <> Err ChaseFuel.
Proof.
  unfold answerTarget. set (m := collect_cnames Fqdn answers). set (a := canonicalDNSName Fqdn domain). split; [split|].
  - intros (ttls & Hch & Heq)%chase_sound. rewrite fold_ttl_chain in Heq. eauto.
  - intros (ttls & Hch & Heq). pose proof (chain_length _ _ _ _ Hch).
    rewrite (chase_complete _ ttls a ∅ 0 false target) by (try done; try lia; set_solver).
    rewrite fold_ttl_chain, <- Heq. done.
  - apply chase_fuel. rewrite difference_empty_L, size_dom. lia.
Qed.

(** C27: [Exchange] asks every upstream at most once, starting where its
    counter points, and stops at the first conclusive reply; without one it
    returns the last reply with a retryable code, and it fails only when no
    upstream replied.  A refused query consults nobody. *)
Theorem exchange_spec {W} (exchange : string -> Z -> Msg -> addr_port -> string -> W -> result go_error Msg * W)
    (Copy : Msg -> Msg) (request : Msg) (dn : option go_error) (prefer : bool) (c c' : Client) (w w' : W)
    (r : result go_error Msg) :
  cl_servers c <> [] -> 0 <= cl_next c < 2 ^ 63 ->
  Exchange exchange Copy request dn prefer c w = (r, c', w') ->
  (c' = c /\ w' = w /\ is_err r = true /\ (dn <> None \/ cl_maxConcurrent c <= cl_in_use c)) \/
  (cl_in_use c < cl_maxConcurrent c /\ c' = set_next_server (wrap64 (cl_next c + 1)) c /\
   let k := Z.to_nat (cl_next c mod Z.of_nat (length (cl_servers c))) in
   asked exchange Copy c request (drop k (cl_servers c) ++ take k (cl_servers c)) w r w').
Proof.
  intros Hne Hnext. unfold Exchange. rewrite rotation_spec by done.
  destruct (exchange_loop _ _ _ _ _ _ _ _) as [r1 w1] eqn:Hloop.
  apply (exchange_loop_asked _ _ c request [] _ [] w []) in Hloop; [|constructor|done].
  destruct dn as [e|]; destruct (cl_in_use c <? cl_maxConcurrent c) eqn:Hfree; to_prop; cbn [negb orb].
  - destruct prefer; intros [= <- <- <-]; [left; split_and!; try done; by left|right; by split_and!].
  - intros [= <- <- <-]. left. split_and!; try done. by left.
  - intros [= <- <- <-]. right. by split_and!.
  - intros [= <- <- <-]. left. split_and!; try done. right. lia.
Qed.

Lemma exchange_spec_witness :
  exists r c w, Exchange demo_exchange id (demo_question "a." 1) None false demo_client [] = (r, c, w) /\
  asked demo_exchange id demo_client (demo_question "a." 1) [demo_server 1; demo_server 2] [] r w.
Proof.
  destruct (Exchange demo_exchange id (demo_question "a." 1) None false demo_client []) as [[r c] w] eqn:Hx.
  exists r, c, w. split; [reflexivity|].
  destruct (exchange_spec demo_exchange id (demo_question "a." 1) None false demo_client c [] w r)
    as [(_ & _ & _ & [Hbad|Hbad])|(_ & _ & Hasked)]; [discriminate|cbn; lia|exact Hx| | |exact Hasked].
  - by destruct Hbad.
  - cbn in Hbad. lia.
Defined.

(** Whatever the upstreams answer, a lookup keeps the cache within its
    bound and only ever stores or returns non-empty lists of distinct
    addresses of the family asked for, so that an answer for one family never
    serves the other; every sequence of lookups preserves this. *)
Theorem lookups_keep_cache {W} (exchange : string -> Z -> Msg -> addr_port -> string -> W -> result go_error Msg * W)
    (Fqdn : string -> string) (SetQuestion : string -> Z -> Msg) (Copy : Msg -> Msg)
    (queries : list (bool * string * option go_error * bool * Z * Z)) (c : Client) (w : W) :
  cache_inv c ->
  let '(answers, c', _) := lookup_run exchange Fqdn SetQuestion Copy queries c w in
  cache_inv c' /\ Forall good_answer answers.
Proof.
  intros Hc. unfold lookup_run.
  pose proof (lookup_steps_inv exchange Fqdn SetQuestion Copy queries ([], c, w) Hc (Forall_nil_2 _)) as H.
  by destruct (fold_left _ _ _) as [[answers c'] w'].
Qed.

Lemma lookups_keep_cache_witness :
  let '(answers, c', _) := lookup_run demo_exchange demo_fqdn demo_question id
    [(false, "www.example", None, false, 1, 2); (true, "www.example", None, false, 3, 4)] demo_client [] in
  cache_inv c' /\ Forall good_answer answers.
Proof.
  apply (lookups_keep_cache demo_exchange demo_fqdn demo_question id).
  split; [vm_compute; discriminate|]. intros domain qtype entry Hno. vm_compute in Hno. discriminate Hno.
Defined.

(** The exemption of retryable codes in [IsBusinessError] has no effect.
    A lookup that ends in a response code, whichever it is, never moves a flow
    on to a fallback: the code is either a business error or, as an error that
    [IsRecoverable] does not know, not recoverable. *)
Theorem response_codes_never_fall_back (rcode : Z) (e : go_error) :
  response_error rcode e ->
  IsBusinessError e = negb (isRetryableRCode rcode) /\
  IsBusinessError e || negb (IsRecoverable (Some e)) = true.
Proof.
  intros He. assert (errors_as_response e = Some rcode /\ recoverable e = false) as [Has Hrec].
  { induction He as [|text e _ [IH1 IH2]]; [done|]. split; [done|]. cbn [recoverable].
    destruct (_ || _); [done|exact IH2]. }
  unfold IsBusinessError. cbn [IsRecoverable]. rewrite Has, Hrec. cbn [negb]. split; [done|apply orb_true_r].
Qed.

Lemma response_codes_never_fall_back_witness :
  let e := EWrap "resolve" (EResponse RcodeServerFailure) in
  IsBusinessError e = false /\ IsBusinessError e || negb (IsRecoverable (Some e)) = true.
Proof.
  cbv zeta. apply (response_codes_never_fall_back RcodeServerFailure). apply response_wrap, response_here.
Defined.
