(* ===== verification/Relay.v ===== *)
(** * Component [internal/netstack]: the TCP relay

    [Relay] as a state machine over what its selects receive: the results of
    the two copying goroutines, the cancellation of the context and the grace
    timer.  The copying itself is the runtime's. *)

From S2P Require Import Prelude.
From S2P Require Import Outbound.

Inductive direction : Type := ClientToUpstream | UpstreamToClient.

(** What a select of [Relay] can receive. *)
Inductive relay_event : Type :=
| Copied (d : direction) (e : option go_error)
| Cancelled (c : ctx_error)
| GraceOver.

(** The places where [Relay] waits: the first select, the receive after a
    cancellation, the second select, and the receive after its closing. *)
Inductive relay_phase : Type := WaitFirst | DrainFirst | WaitSecond | DrainSecond | Returned.

#[export] Instance relay_phase_eq_dec : EqDecision relay_phase.
Proof. solve_decision. Defined.

Record relay : Type := MkRelay {
  re_phase : relay_phase;
  re_collected : list go_error;
  re_closed : bool
}.

Definition relay_start : relay := MkRelay WaitFirst [] false.

(** A result other than the one that closing the connections provokes. *)
Definition unexpected (e : option go_error) : list go_error :=
  match e with
  | Some e => if errors_is ErrClosed e then [] else [EWrap "relay direction" e]
  | None => []
  end.

(** One receive; [None] when the select does not wait for the event. *)
Definition relay_step (ev : relay_event) (r : relay) : option relay :=
  let '(MkRelay phase collected closed) := r in
  match phase, ev with
  | WaitFirst, Copied _ (Some e) => Some (MkRelay WaitSecond (collected ++ [EWrap "relay direction" e]) true)
  | WaitFirst, Copied _ None => Some (MkRelay WaitSecond collected closed)
  | WaitFirst, Cancelled c => Some (MkRelay DrainFirst (collected ++ [ctx_go_error c]) true)
  | DrainFirst, Copied _ e => Some (MkRelay WaitSecond (collected ++ unexpected e) closed)
  | WaitSecond, Copied _ e => Some (MkRelay Returned (collected ++ unexpected e) true)
  | WaitSecond, Cancelled c =>
      Some (MkRelay DrainSecond
              (if errors_is_ctx c (EJoin collected) then collected else collected ++ [ctx_go_error c]) true)
  | WaitSecond, GraceOver =>
      Some (MkRelay DrainSecond (collected ++ [failure "relay half-close grace timeout"]) true)
  | DrainSecond, Copied _ e => Some (MkRelay Returned (collected ++ unexpected e) true)
  | _, _ => None
  end.

Fixpoint relay_run (evs : list relay_event) (r : relay) : option relay :=
  match evs with
  | [] => Some r
  | ev :: evs' => r' ← relay_step ev r; relay_run evs' r'
  end.

(** [Relay] on non-nil connections, once it received these events; [None]
    while it still waits. *)
Definition Relay (graceTimeout : Z) (evs : list relay_event) : option (option go_error) :=
  if graceTimeout <=? 0 then Some (Some (failure "relay grace timeout must be positive"))
  else
    match relay_run evs relay_start with
    | Some (MkRelay Returned collected _) => Some (errors_join collected)
    | _ => None
    end.

(** ** Specification *)

Definition copies (evs : list relay_event) : list (option go_error) :=
  omap (fun ev => match ev with Copied _ e => Some e | _ => None end) evs.

(** A second copy that ends well or because the connection was closed. *)
Definition benign (e : option go_error) : bool :=
  match e with Some e => errors_is ErrClosed e | None => true end.

(** ** Lemmas *)

Lemma unexpected_nil e : unexpected e = [] <-> benign e = true.
Proof. destruct e as [e|]; cbn; [destruct (errors_is ErrClosed e)|]; done. Qed.

Lemma run_cons ev evs r : relay_run (ev :: evs) r = (r' ← relay_step ev r; relay_run evs r').
Proof. done. Qed.

(** Nothing is received after the return. *)
Lemma run_returned evs c b r : relay_run evs (MkRelay Returned c b) = Some r -> evs = [] /\ r = MkRelay Returned c b.
Proof. destruct evs as [|ev evs]; [by intros [= <-]|]. by destruct ev. Qed.

(** The last receive of a run from the second select on. *)
Lemma run_second evs c b r :
  relay_run evs (MkRelay WaitSecond c b) = Some r -> re_phase r = Returned ->
  exists e, copies evs = [e] /\ (length evs <= 2)%nat /\ re_closed r = true /\
    (re_collected r = [] <-> c = [] /\ benign e = true /\ length evs = 1%nat).
Proof.
  destruct evs as [|ev evs]; [by intros [= <-]|]. rewrite run_cons. destruct ev as [d e|x|]; cbn [relay_step mbind option_bind].
  - intros [-> ->]%run_returned _. exists e. cbn. rewrite app_nil, unexpected_nil. split_and!; try done; try lia. naive_solver.
  - destruct evs as [|ev evs]; [by intros [= <-]|]. rewrite run_cons. destruct ev as [d e| |]; [|done..].
    cbn [relay_step mbind option_bind]. intros [-> ->]%run_returned _. exists e. cbn. split_and!; try done; try lia.
    rewrite app_nil. split; [|lia]. intros [Hc _]. destruct (errors_is_ctx x (EJoin c)) eqn:Hx.
    + subst c. by destruct x.
    + by apply app_nil in Hc as [_ ?].
  - destruct evs as [|ev evs]; [by intros [= <-]|]. rewrite run_cons. destruct ev as [d e| |]; [|done..].
    cbn [relay_step mbind option_bind]. intros [-> ->]%run_returned _. exists e. cbn. split_and!; try done; try lia.
    rewrite !app_nil. split; [|lia]. by intros [[_ ?] _].
Qed.

(** ** Properties *)

(** C33: a relay that returns has received the results of both copying
    goroutines, so that it leaks none, and has closed both connections; its
    error is nil exactly when the first direction ended cleanly and the second
    ended next, cleanly or by the closing.  It needs at most four receives,
    and wherever it waits it accepts the end of a copy. *)
Theorem relay_contract (evs : list relay_event) (r : relay) :
  relay_run evs relay_start = Some r ->
  (re_phase r <> Returned /\ forall d e, is_Some (relay_step (Copied d e) r)) \/
  (re_phase r = Returned /\ (length evs <= 4)%nat /\ length (copies evs) = 2%nat /\ re_closed r = true /\
   (errors_join (re_collected r) = None <->
    exists d1 d2 e, evs = [Copied d1 None; Copied d2 e] /\ benign e = true)).
Proof.
  intros Hrun. destruct (decide (re_phase r = Returned)) as [Hret|Hret]; [right|left].
  - split; [done|]. assert (errors_join (re_collected r) = None <-> re_collected r = []) as ->
      by (destruct (re_collected r); done).
    destruct evs as [|ev evs]; [by injection Hrun as <-|]. unfold relay_start in Hrun. rewrite run_cons in Hrun.
    destruct ev as [d [e|]|x|]; cbn [relay_step mbind option_bind] in Hrun; [| | |done].
    + destruct (run_second _ _ _ _ Hrun Hret) as (e2 & Hc & Hl & Hcl & Hnil). cbn. fold (copies evs). rewrite Hc.
      split_and!; try done; try lia. rewrite Hnil. split; [by intros [? _]|by intros (?&?&?&?&_)].
    + destruct (run_second _ _ _ _ Hrun Hret) as (e2 & Hc & Hl & Hcl & Hnil). cbn. fold (copies evs). rewrite Hc.
      split_and!; try done; try lia. rewrite Hnil. split.
      * intros (_ & Hb & Hone). destruct evs as [|[d2 e'| |] [|]]; try done. injection Hc as ->. by exists d, d2, e2.
      * intros (d1 & d2 & e' & [= -> ->] & Hb). injection Hc as <-. done.
    + destruct evs as [|ev evs]; [by injection Hrun as <-|]. rewrite run_cons in Hrun.
      destruct ev as [d e| |]; [|done..]. cbn [relay_step mbind option_bind] in Hrun.
      destruct (run_second _ _ _ _ Hrun Hret) as (e2 & Hc & Hl & Hcl & Hnil). cbn. fold (copies evs). rewrite Hc.
      split_and!; try done; try lia. rewrite Hnil. split; [by intros [? _]|by intros (?&?&?&?&_)].
  - split; [done|]. destruct r as [[] c b]; try done; intros d [e|]; eexists; reflexivity.
Qed.

Lemma relay_contract_witness :
  let evs := [Cancelled CtxCanceled; Copied ClientToUpstream None; Copied UpstreamToClient (Some (ESentinel ErrClosed))] in
  exists r, relay_run evs relay_start = Some r /\ re_phase r = Returned /\ length (copies evs) = 2%nat.
Proof.
  intros evs. eexists. split; [reflexivity|].
  destruct (relay_contract evs _ eq_refl) as [[Hbad _]|(Hret & _ & Hcopies & _)].
  - exfalso. apply Hbad. reflexivity.
  - split; [exact Hret|exact Hcopies].
Defined.
