(* ===== verification/Session.v ===== *)
(** * Component [internal/session]: flow decisions and connections

    What happens to one intercepted flow: acquiring the mapping of its
    destination, choosing the rule, resolving the domain through the chosen
    outbound, connecting along the fallbacks and accounting.  The rules engine
    and the address pool are used through interfaces; resolvers and dialers
    are parameters that act on a world, and the calls made are logged. *)

From S2P Require Import Prelude.
From S2P Require Import GoStrings.
From S2P Require Import NetIP.
From S2P Require Import Outbound.
From S2P Require Import Resolver.
From S2P Require Import ConfigCompile.
From S2P Require Import Rules.

(** ** Interfaces *)

(** [Matcher] *)
Class Matcher (M : Type) : Type := {
  matcher_Candidates : M -> FlowMetadata -> result go_error (list Decision);
  matcher_MatchResolved : M -> FlowMetadata -> list addr -> result go_error Decision
}.

(** What a session relies on: the candidates are never empty, and the decision
    on resolved addresses is one of them. *)
Class MatcherLaws (M : Type) `{Matcher M} (ok : M -> Prop) : Prop := {
  candidates_nonempty m f cs : ok m -> matcher_Candidates m f = Ok cs -> cs <> [];
  resolved_is_candidate m f cs addresses d :
    ok m -> matcher_Candidates m f = Ok cs -> matcher_MatchResolved m f addresses = Ok d -> d ∈ cs
}.

(** [MappingPool]: a pool state [P] and the handles [H] of its release
    closures. *)
Class MappingPool (P H : Type) : Type := {
  pool_Acquire : addr -> P -> result go_error (string * H) * P;
  pool_release : H -> P -> P
}.

(** ** Routes *)

Record Route (R D PD : Type) : Type := MkRoute {
  rt_Name : string;
  rt_Reject : bool;
  rt_Resolver : option R;
  rt_Dialer : option D;
  rt_PacketDialer : option PD;
  rt_Fallback : string
}.
Arguments MkRoute {R D PD}.
Arguments rt_Name {R D PD}.
Arguments rt_Reject {R D PD}.
Arguments rt_Resolver {R D PD}.
Arguments rt_Dialer {R D PD}.
Arguments rt_PacketDialer {R D PD}.
Arguments rt_Fallback {R D PD}.

Section routes.
Context {R D PD : Type}.

(** [routes[name].Fallback]; the zero value of a missing name has none. *)
Definition route_fallback (routes : gmap string (Route R D PD)) (name : string) : string :=
  match routes !! name with Some r => rt_Fallback r | None => "" end.

Definition present {A} (o : option A) : bool := match o with Some _ => true | None => false end.

(** [visit] of [validateFallbacks]. *)
Fixpoint visit_route (fuel : nat) (routes : gmap string (Route R D PD)) (name : string)
    (states : gmap string visit_state) : result go_error (gmap string visit_state) :=
  match fuel with
  | O => Err (failure "outbound fallback cycle")
  | S fuel' =>
      match states !! name with
      | Some Visiting => Err (failure "outbound fallback cycle")
      | Some Done => Ok states
      | None =>
          let states := <[name := Visiting]> states in
          let next := route_fallback routes name in
          let! states :=
            (if bool_decide (next = "") then Ok states
             else fail_if negb (present (routes !! next)) with failure "outbound fallback is not configured" in
                  visit_route fuel' routes next states) in
          Ok (<[name := Done]> states)
      end
  end.

Fixpoint visit_routes (fuel : nat) (routes : gmap string (Route R D PD)) (names : list string)
    (states : gmap string visit_state) : result go_error (gmap string visit_state) :=
  match names with
  | [] => Ok states
  | name :: names' =>
      let! states := visit_route fuel routes name states in
      visit_routes fuel routes names' states
  end.

(** [validateFallbacks], with the order in which the map is ranged over. *)
Definition validate_routes_in (order : list string) (routes : gmap string (Route R D PD)) : result go_error unit :=
  let! _ := visit_routes (S (size routes)) routes order ∅ in Ok tt.

Definition route_names (routes : gmap string (Route R D PD)) : list string := (map_to_list routes).*1.

(** The checks of one route in [NewTCP] and [NewUDPWithLimiter]. *)
Definition check_tcp_route (name : string) (route : Route R D PD) : result go_error unit :=
  fail_if bool_decide (name = "") || negb (bool_decide (rt_Name route = name))
  with failure "outbound route key does not match name" in
  if rt_Reject route then
    fail_if present (rt_Resolver route) || present (rt_Dialer route) || negb (bool_decide (rt_Fallback route = ""))
    with failure "reject route cannot resolve, dial, or fallback" in Ok tt
  else
    fail_if negb (present (rt_Resolver route)) || negb (present (rt_Dialer route))
    with failure "direct route requires resolver and dialer" in Ok tt.

Definition check_udp_route (name : string) (route : Route R D PD) : result go_error unit :=
  fail_if bool_decide (name = "") || negb (bool_decide (rt_Name route = name))
  with failure "outbound route key does not match name" in
  if rt_Reject route then
    fail_if present (rt_Resolver route) || present (rt_Dialer route) || present (rt_PacketDialer route) ||
            negb (bool_decide (rt_Fallback route = ""))
    with failure "reject route cannot resolve, dial, or fallback" in Ok tt
  else
    fail_if negb (present (rt_Resolver route)) || negb (present (rt_PacketDialer route))
    with failure "direct UDP route requires resolver and packet dialer" in Ok tt.

Fixpoint check_routes (check : string -> Route R D PD -> result go_error unit)
    (items : list (string * Route R D PD)) : result go_error unit :=
  match items with
  | [] => Ok tt
  | (name, route) :: items' => let! _ := check name route in check_routes check items'
  end.
End routes.

(** ** Statistics *)

Record Stats : Type := MkStats {
  TotalFlows : Z; ActiveFlows : Z; CompletedFlows : Z; FailedFlows : Z; FallbackAttempts : Z; RejectedFlows : Z
}.

Record UDPStats : Type := MkUDPStats {
  TotalSessions : Z; ActiveSessions : Z; ExpiredSessions : Z; FailedSessions : Z; RejectedSessions : Z;
  UDPFallbackAttempts : Z; DatagramsToNetwork : Z; DatagramsToClient : Z
}.

(** ** One flow *)

(** The calls a flow makes on routes and connections. *)
Inductive call : Type :=
| CallLookup (outbound : string)
| CallDial (outbound : string) (destination : addr_port) (ok : bool)
| CallWrite (outbound : string)
| CallClose (outbound : string).

(** [routeResolution] *)
Record routeResolution : Type := MkResolution { rr_Outbound : string; rr_Addresses : list addr }.

(** The operations a session performs on resolvers [R], dialers [D] and packet
    dialers [PD], in a world [W]. *)
Record network (W R D PD Conn : Type) : Type := MkNetwork {
  net_LookupIPv4 : R -> string -> W -> result go_error (list addr) * W;
  net_LookupIPv6 : R -> string -> W -> result go_error (list addr) * W;
  net_dial : D -> string -> addr_port -> W -> result go_error Conn * W;
  net_dial_packet : PD -> addr_port -> W -> result go_error Conn * W;
  (** the number of bytes written and the error *)
  net_write : Conn -> string -> W -> Z * option go_error * W
}.
Arguments net_LookupIPv4 {W R D PD Conn}.
Arguments net_LookupIPv6 {W R D PD Conn}.
Arguments net_dial {W R D PD Conn}.
Arguments net_dial_packet {W R D PD Conn}.
Arguments net_write {W R D PD Conn}.

(** The state of a flow in progress: the world, the calls so far and the
    fallbacks counted. *)
Record flow (W : Type) : Type := MkFlow { fl_world : W; fl_calls : list call; fl_fallbacks : Z }.
Arguments MkFlow {W}.
Arguments fl_world {W}.
Arguments fl_calls {W}.
Arguments fl_fallbacks {W}.

Section flow.
Context {W R D PD Conn M : Type} `{Matcher M} (net : network W R D PD Conn).

Local Notation flow := (flow W).

Definition with_world (w : W) (c : call) (f : flow) : flow := MkFlow w (fl_calls f ++ [c]) (fl_fallbacks f).

Definition count_fallback (f : flow) : flow := MkFlow (fl_world f) (fl_calls f) (fl_fallbacks f + 1).

(** [lookupAddresses] on the resolver of a route; a nil resolver panics, which
    has an error of its own. *)
Definition lookupAddresses (name : string) (resolver : option R) (domain : string) (ipv6 : bool) (f : flow)
    : result go_error (list addr) * flow :=
  match resolver with
  | None => (Err (failure "panic: nil resolver"), f)
  | Some r =>
      let '(res, w) := (if ipv6 then net_LookupIPv6 net else net_LookupIPv4 net) r domain (fl_world f) in
      (res, with_world w (CallLookup name) f)
  end.

(** The end of a loop that ran out of fallbacks; an empty join would be the
    nil error with a nil result. *)
Definition joined {A} (failures : list go_error) : result go_error A :=
  match errors_join failures with Some e => Err e | None => Err (failure "panic: nil result") end.

Section with_routes.
Context (routes : gmap string (Route R D PD)).

Definition rejected (current : string) : go_error := EWrap ("outbound " +:+ current) (ESentinel ErrRejected).

(** A failure ends the search: [resolver.IsBusinessError(err) ||
    !outbound.IsRecoverable(err) || route.Fallback == ""]. *)
Definition gives_up (e : go_error) (route : Route R D PD) : bool :=
  IsBusinessError e || negb (IsRecoverable (Some e)) || bool_decide (rt_Fallback route = "").

(** The loop of [resolveForDecision]; [None] is the end of the fuel. *)
Fixpoint resolve_loop (fuel : nat) (current domain : string) (ipv6 : bool) (failures : list go_error) (f : flow)
    : option (result go_error routeResolution * flow) :=
  match fuel with
  | O => None
  | S fuel' =>
      if bool_decide (current = "") then Some (joined failures, f)
      else
        match routes !! current with
        | None => Some (Err (failure "outbound is not configured"), f)
        | Some route =>
            if rt_Reject route then Some (joined (failures ++ [rejected current]), f)
            else
              let '(r, f) := lookupAddresses current (rt_Resolver route) domain ipv6 f in
              match r with
              | Ok ((_ :: _) as addresses) => Some (Ok (MkResolution current addresses), f)
              | _ =>
                  let e := match r with Err e => e | Ok _ => failure "resolver returned no addresses" end in
                  let failures := failures ++ [EWrap "outbound resolve" e] in
                  if gives_up e route then Some (joined failures, f)
                  else resolve_loop fuel' (rt_Fallback route) domain ipv6 failures (count_fallback f)
              end
        end
  end.

(** A turn for every route and one for the end is enough fuel. *)
Definition route_fuel : nat := S (size routes).

(** [resolveForDecision] *)
Definition resolveForDecision (start domain : string) (ipv6 : bool) (f : flow)
    : option (result go_error routeResolution * flow) :=
  resolve_loop route_fuel start domain ipv6 [] f.

(** The first candidate that is not rejected; a missing route is an error. *)
Fixpoint first_resolvable (deferred : list Decision) : result go_error (option Decision) :=
  match deferred with
  | [] => Ok None
  | d :: deferred' =>
      match routes !! DecisionOutbound d with
      | None => Err (failure "outbound is not configured")
      | Some route => if rt_Reject route then first_resolvable deferred' else Ok (Some d)
      end
  end.

(** The second half of [decideFlow]: [candidate] is resolved first. *)
Definition decide_resolved (m : M) (metadata : FlowMetadata) (candidate : Decision) (domain : string) (ipv6 : bool)
    (f : flow) : option (result go_error (Decision * option routeResolution) * flow) :=
  match resolveForDecision (DecisionOutbound candidate) domain ipv6 f with
  | None => None
  | Some (Err e, f) => Some (Err e, f)
  | Some (Ok resolution, f) =>
      match matcher_MatchResolved m metadata (rr_Addresses resolution) with
      | Err e => Some (Err e, f)
      | Ok final =>
          if bool_decide (DecisionOutbound final = DecisionOutbound candidate) ||
             bool_decide (DecisionOutbound final = rr_Outbound resolution)
          then Some (Ok (final, Some resolution), f)
          else
            match routes !! DecisionOutbound final with
            | None => Some (Err (failure "outbound is not configured"), f)
            | Some finalRoute =>
                if rt_Reject finalRoute then Some (Ok (final, None), f)
                else
                  match resolveForDecision (DecisionOutbound final) domain ipv6 f with
                  | None => None
                  | Some (Err e, f) => Some (Err e, f)
                  | Some (Ok resolution, f) => Some (Ok (final, Some resolution), f)
                  end
            end
      end
  end.

(** [decideFlow]; an empty list of candidates panics. *)
Definition decideFlow (m : M) (metadata : FlowMetadata) (domain : string) (literal : addr) (ipv6 : bool) (f : flow)
    : option (result go_error (Decision * option routeResolution) * flow) :=
  if addr_valid literal then
    Some (match matcher_MatchResolved m metadata [literal] with Ok d => Ok (d, None) | Err e => Err e end, f)
  else
    match matcher_Candidates m metadata with
    | Err e => Some (Err e, f)
    | Ok candidates =>
        match last candidates with
        | None => Some (Err (failure "panic: index out of range"), f)
        | Some candidate =>
            match routes !! DecisionOutbound candidate with
            | None => Some (Err (failure "outbound is not configured"), f)
            | Some candidateRoute =>
                if rt_Reject candidateRoute then
                  match first_resolvable (removelast candidates) with
                  | Err e => Some (Err e, f)
                  | Ok None => Some (Ok (candidate, None), f)
                  | Ok (Some deferred) => decide_resolved m metadata deferred domain ipv6 f
                  end
                else decide_resolved m metadata candidate domain ipv6 f
            end
        end
    end.

(** One dial of a TCP flow. *)
Definition attempt_tcp (ipv6 : bool) (current : string) (route : Route R D PD) (destination : addr_port) (f : flow)
    : result go_error Conn * flow :=
  match rt_Dialer route with
  | None => (Err (failure "panic: nil dialer"), f)
  | Some d =>
      let '(r, w) := net_dial net d (if ipv6 then "tcp6" else "tcp4") destination (fl_world f) in
      (r, with_world w (CallDial current destination (is_ok r)) f)
  end.

(** One dial of a UDP session, with the first datagram; a connection that does
    not take it whole is closed. *)
Definition attempt_udp (first : string) (current : string) (route : Route R D PD) (destination : addr_port) (f : flow)
    : result go_error Conn * flow :=
  match rt_PacketDialer route with
  | None => (Err (failure "panic: nil dialer"), f)
  | Some d =>
      let '(r, w) := net_dial_packet net d destination (fl_world f) in
      let f := with_world w (CallDial current destination (is_ok r)) f in
      match r with
      | Err e => (Err e, f)
      | Ok conn =>
          let '(written, e, w) := net_write net conn first (fl_world f) in
          let f := with_world w (CallWrite current) f in
          let e := match e with
                   | Some e => Some e
                   | None => if written =? slen first then None else Some (ESentinel ErrShortWrite)
                   end in
          match e with
          | None => (Ok conn, f)
          | Some e => (Err e, with_world (fl_world f) (CallClose current) f)
          end
      end
  end.

Section connecting.
Context (attempt : string -> Route R D PD -> addr_port -> flow -> result go_error Conn * flow).

(** The loop over the addresses: a connection, or the failures and whether all
    of them were recoverable. *)
Fixpoint attempt_all (current : string) (route : Route R D PD) (addresses : list addr) (port : Z)
    (failures : list go_error) (allRecoverable : bool) (f : flow)
    : (Conn + (list go_error * bool)) * flow :=
  match addresses with
  | [] => (inr (failures, allRecoverable), f)
  | address :: addresses' =>
      match attempt current route (AddrPort address port) f with
      | (Ok conn, f) => (inl conn, f)
      | (Err e, f) =>
          attempt_all current route addresses' port (failures ++ [EWrap "outbound dial" e])
            (allRecoverable && IsRecoverable (Some e)) f
      end
  end.

(** The addresses a turn of the loop uses: the prepared ones once, the
    literal, or those of a lookup. *)
Definition flow_addresses (current : string) (route : Route R D PD) (domain : string) (literal : addr) (ipv6 : bool)
    (prepared : option routeResolution) (f : flow)
    : result go_error (list addr) * option routeResolution * flow :=
  let lookup :=
    if addr_valid literal then (Ok [literal], prepared, f)
    else let '(r, f) := lookupAddresses current (rt_Resolver route) domain ipv6 f in (r, prepared, f) in
  match prepared with
  | Some p => if bool_decide (rr_Outbound p = current) then (Ok (rr_Addresses p), None, f) else lookup
  | None => lookup
  end.

(** The loop of [connectPrepared] and [connectAndSendPrepared]. *)
Fixpoint connect_loop (fuel : nat) (current domain : string) (literal : addr) (port : Z) (ipv6 : bool)
    (prepared : option routeResolution) (failures : list go_error) (f : flow)
    : option (result go_error (Conn * string) * flow) :=
  match fuel with
  | O => None
  | S fuel' =>
      if bool_decide (current = "") then Some (joined failures, f)
      else
        match routes !! current with
        | None => Some (Err (failure "outbound is not configured"), f)
        | Some route =>
            if rt_Reject route then Some (joined (failures ++ [rejected current]), f)
            else
              match flow_addresses current route domain literal ipv6 prepared f with
              | (Err e, prepared, f) =>
                  let failures := failures ++ [EWrap "outbound resolve" e] in
                  if gives_up e route then Some (joined failures, f)
                  else connect_loop fuel' (rt_Fallback route) domain literal port ipv6 prepared failures (count_fallback f)
              | (Ok addresses, prepared, f) =>
                  match attempt_all current route addresses port failures true f with
                  | (inl conn, f) => Some (Ok (conn, current), f)
                  | (inr (failures, allRecoverable), f) =>
                      if negb allRecoverable || bool_decide (rt_Fallback route = "") then Some (joined failures, f)
                      else connect_loop fuel' (rt_Fallback route) domain literal port ipv6 prepared failures
                             (count_fallback f)
                  end
              end
        end
  end.

Definition connect_from (outbound domain : string) (literal : addr) (port : Z) (ipv6 : bool)
    (prepared : option routeResolution) (f : flow) : option (result go_error (Conn * string) * flow) :=
  connect_loop route_fuel match prepared with Some p => rr_Outbound p | None => outbound end
    domain literal port ipv6 prepared [] f.
End connecting.

(** [connectPrepared] *)
Definition connectPrepared (outbound domain : string) (literal : addr) (port : Z) (ipv6 : bool)
    (prepared : option routeResolution) (f : flow) : option (result go_error (Conn * string) * flow) :=
  connect_from (attempt_tcp ipv6) outbound domain literal port ipv6 prepared f.

(** [connectAndSendPrepared] *)
Definition connectAndSendPrepared (outbound domain : string) (literal : addr) (port : Z) (ipv6 : bool) (first : string)
    (prepared : option routeResolution) (f : flow) : option (result go_error (Conn * string) * flow) :=
  connect_from (attempt_udp first) outbound domain literal port ipv6 prepared f.
End with_routes.
End flow.
