(* ===== verification/SessionHandle.v ===== *)
(** * Component [internal/session]: sessions, limits and accounting

    The TCP and UDP sessions around one flow: construction, [Handle] with its
    deferred releases and counters, the shared UDP limiter, the UDP relay and
    the choice of the address pool.  Counters are unsigned 64-bit. *)

From S2P Require Import Prelude.
From S2P Require Import GoStrings.
From S2P Require Import NetIP.
From S2P Require Import ConfigTypes.
From S2P Require Import Outbound.
From S2P Require Import Resolver.
From S2P Require Import Rules.
From S2P Require Import FakeIPPool.
From S2P Require Import Relay.
From S2P Require Import Session.

(** ** Choosing the pool *)

(** [MappingPools]; the pools share a handle type. *)
Record MappingPools (P : Type) : Type := MkMappingPools {
  mp_IPv4 : option P;
  mp_IPv6 : option P;
  mp_IPv4Prefix : prefix;
  mp_IPv6Prefix : prefix;
  mp_AllowLiteral : bool
}.
Arguments MkMappingPools {P}.
Arguments mp_IPv4 {P}.
Arguments mp_IPv6 {P}.
Arguments mp_IPv4Prefix {P}.
Arguments mp_IPv6Prefix {P}.
Arguments mp_AllowLiteral {P}.

(** The release closure of a literal does nothing. *)
Inductive pools_handle (H : Type) : Type := NoHandle | Held4 (h : H) | Held6 (h : H).
Arguments NoHandle {H}.
Arguments Held4 {H}.
Arguments Held6 {H}.

Section pools.
Context {P H : Type} `{MappingPool P H}.

Definition set_pool4 (p : P) (pools : MappingPools P) : MappingPools P :=
  MkMappingPools (Some p) (mp_IPv6 pools) (mp_IPv4Prefix pools) (mp_IPv6Prefix pools) (mp_AllowLiteral pools).

Definition set_pool6 (p : P) (pools : MappingPools P) : MappingPools P :=
  MkMappingPools (mp_IPv4 pools) (Some p) (mp_IPv4Prefix pools) (mp_IPv6Prefix pools) (mp_AllowLiteral pools).

(** The tail of [MappingPools.Acquire] for the chosen pool and prefix. *)
Definition acquire_from (pool : option P) (pre : prefix) (put : P -> MappingPools P) (wrap : H -> pools_handle H)
    (address : addr) (pools : MappingPools P) : result go_error (string * pools_handle H) * MappingPools P :=
  if mp_AllowLiteral pools && prefix_valid pre && negb (prefix_contains pre address) then (Ok ("", NoHandle), pools)
  else
    match pool with
    | None => (Err (failure "Fake IP pool is not configured"), pools)
    | Some p =>
        match pool_Acquire address p with
        | (Ok (domain, h), p) => (Ok (domain, wrap h), put p)
        | (Err e, p) => (Err e, put p)
        end
    end.

(** [MappingPools.Acquire] *)
Definition Acquire_pools (address : addr) (pools : MappingPools P)
    : result go_error (string * pools_handle H) * MappingPools P :=
  if is4 address then
    acquire_from (mp_IPv4 pools) (mp_IPv4Prefix pools) (fun p => set_pool4 p pools) Held4 address pools
  else if is6 address && negb (is4in6 address) then
    acquire_from (mp_IPv6 pools) (mp_IPv6Prefix pools) (fun p => set_pool6 p pools) Held6 address pools
  else (Err (failure "unsupported Fake IP address family"), pools).

Definition release_pools (h : pools_handle H) (pools : MappingPools P) : MappingPools P :=
  match h with
  | NoHandle => pools
  | Held4 h => match mp_IPv4 pools with Some p => set_pool4 (pool_release h p) pools | None => pools end
  | Held6 h => match mp_IPv6 pools with Some p => set_pool6 (pool_release h p) pools | None => pools end
  end.

#[export] Instance pools_mapping : MappingPool (MappingPools P) (pools_handle H) := {
  pool_Acquire := Acquire_pools;
  pool_release := release_pools
}.
End pools.

(** A Fake IP pool with the time of its clock is a mapping pool. *)
Definition pool_failure (e : pool_error) : go_error :=
  match e with
  | ErrExhausted => ESentinel Outbound.ErrExhausted
  | ErrNotFound => ESentinel Outbound.ErrNotFound
  | _ => failure "Fake IP pool"
  end.

#[export] Instance fake_ip_mapping : MappingPool (Pool * Z) ptr := {
  pool_Acquire address p :=
    let '(p', r) := Acquire address p.2 p.1 in (map_err pool_failure r, (p', p.2));
  pool_release x p := (release x p.1, p.2)
}.

(** The rules engine is a matcher. *)
Definition rules_failure (e : rules_error) : go_error := failure "rules".

#[export] Instance engine_matcher : Matcher Engine := {
  matcher_Candidates engine metadata := map_err rules_failure (Candidates engine metadata);
  matcher_MatchResolved engine metadata addresses := map_err rules_failure (MatchResolved engine metadata addresses)
}.

(** ** Routes of the configuration *)

Definition resolverMaxConcurrent : Z := 64.

(** One iteration of [BuildRoutes]; the dialer serves both transports. *)
Definition build_route (name : string) (item : Outbound) : result go_error (Route Client Direct Direct) :=
  if bool_decide (OutType item = "reject") then Ok (MkRoute name true None None None "")
  else
    let! boundResolver := NewClient (Interface item) (OutDNS item) (ConnectTimeout item) resolverMaxConcurrent in
    let! dialer := NewDirect name (Interface item) (ConnectTimeout item) in
    Ok (MkRoute name false (Some boundResolver) (Some dialer) (Some dialer) (Fallback item)).

Fixpoint build_routes_loop (items : list (string * Outbound)) (routes : gmap string (Route Client Direct Direct))
    : result go_error (gmap string (Route Client Direct Direct)) :=
  match items with
  | [] => Ok routes
  | (name, item) :: items' =>
      let! route := build_route name item in
      build_routes_loop items' (<[name := route]> routes)
  end.

(** [BuildRoutes] *)
Definition BuildRoutes (configured : gmap string Outbound) : result go_error (gmap string (Route Client Direct Direct)) :=
  build_routes_loop (map_to_list configured) ∅.

(** ** Counters *)

Definition inc (x : Z) : Z := wrap64 (x + 1).
Definition dec (x : Z) : Z := wrap64 (x + u64_max).
Definition add_count (x n : Z) : Z := wrap64 (x + n).

Definition begin_tcp (s : Stats) : Stats :=
  MkStats (inc (TotalFlows s)) (inc (ActiveFlows s)) (CompletedFlows s) (FailedFlows s) (FallbackAttempts s) (RejectedFlows s).

Definition end_tcp (s : Stats) : Stats :=
  MkStats (TotalFlows s) (dec (ActiveFlows s)) (CompletedFlows s) (FailedFlows s) (FallbackAttempts s) (RejectedFlows s).

Definition tcp_fallbacks (n : Z) (s : Stats) : Stats :=
  MkStats (TotalFlows s) (ActiveFlows s) (CompletedFlows s) (FailedFlows s) (add_count (FallbackAttempts s) n) (RejectedFlows s).

(** A failed flow; it counts as rejected too when the policy rejected it. *)
Definition fail_tcp (rejected : bool) (s : Stats) : Stats :=
  MkStats (TotalFlows s) (ActiveFlows s) (CompletedFlows s) (inc (FailedFlows s)) (FallbackAttempts s)
    (if rejected then inc (RejectedFlows s) else RejectedFlows s).

Definition complete_tcp (s : Stats) : Stats :=
  MkStats (TotalFlows s) (ActiveFlows s) (inc (CompletedFlows s)) (FailedFlows s) (FallbackAttempts s) (RejectedFlows s).

Definition begin_udp (s : UDPStats) : UDPStats :=
  MkUDPStats (inc (TotalSessions s)) (inc (ActiveSessions s)) (ExpiredSessions s) (FailedSessions s) (RejectedSessions s)
    (UDPFallbackAttempts s) (DatagramsToNetwork s) (DatagramsToClient s).

Definition end_udp (s : UDPStats) : UDPStats :=
  MkUDPStats (TotalSessions s) (dec (ActiveSessions s)) (ExpiredSessions s) (FailedSessions s) (RejectedSessions s)
    (UDPFallbackAttempts s) (DatagramsToNetwork s) (DatagramsToClient s).

Definition udp_fallbacks (n : Z) (s : UDPStats) : UDPStats :=
  MkUDPStats (TotalSessions s) (ActiveSessions s) (ExpiredSessions s) (FailedSessions s) (RejectedSessions s)
    (add_count (UDPFallbackAttempts s) n) (DatagramsToNetwork s) (DatagramsToClient s).

Definition fail_udp (rejected : bool) (s : UDPStats) : UDPStats :=
  MkUDPStats (TotalSessions s) (ActiveSessions s) (ExpiredSessions s) (inc (FailedSessions s))
    (if rejected then inc (RejectedSessions s) else RejectedSessions s)
    (UDPFallbackAttempts s) (DatagramsToNetwork s) (DatagramsToClient s).

Definition reject_udp (s : UDPStats) : UDPStats :=
  MkUDPStats (TotalSessions s) (ActiveSessions s) (ExpiredSessions s) (FailedSessions s) (inc (RejectedSessions s))
    (UDPFallbackAttempts s) (DatagramsToNetwork s) (DatagramsToClient s).

Definition expire_udp (s : UDPStats) : UDPStats :=
  MkUDPStats (TotalSessions s) (ActiveSessions s) (inc (ExpiredSessions s)) (FailedSessions s) (RejectedSessions s)
    (UDPFallbackAttempts s) (DatagramsToNetwork s) (DatagramsToClient s).

Definition add_datagrams (to_network to_client : Z) (s : UDPStats) : UDPStats :=
  MkUDPStats (TotalSessions s) (ActiveSessions s) (ExpiredSessions s) (FailedSessions s) (RejectedSessions s)
    (UDPFallbackAttempts s) (add_count (DatagramsToNetwork s) to_network) (add_count (DatagramsToClient s) to_client).

(** ** The UDP limiter *)

Record UDPKey : Type := MkUDPKey {
  key_SourceIP : addr;
  key_SourcePort : Z;
  key_DestinationIP : addr;
  key_DestinationPort : Z
}.

#[export] Instance UDPKey_eq_dec : EqDecision UDPKey.
Proof. solve_decision. Defined.

#[export] Instance UDPKey_countable : Countable UDPKey.
Proof.
  refine (inj_countable' (fun k => (key_SourceIP k, key_SourcePort k, key_DestinationIP k, key_DestinationPort k))
    (fun x => MkUDPKey x.1.1.1 x.1.1.2 x.1.2 x.2) _). by intros [].
Defined.

Record UDPLimiter : Type := MkUDPLimiter {
  lim_maxSessions : Z;
  lim_maxPerSource : Z;
  lim_sessions : gset UDPKey;
  lim_perSource : gmap addr Z
}.

(** [NewUDPLimiter] *)
Definition NewUDPLimiter (maxSessions maxPerSource : Z) : result go_error UDPLimiter :=
  fail_if (maxSessions <=? 0) || (maxPerSource <=? 0) || (maxSessions <? maxPerSource)
  with failure "UDP session limits are invalid" in
  Ok (MkUDPLimiter maxSessions maxPerSource ∅ ∅).

Definition per_source (l : UDPLimiter) (source : addr) : Z := default 0 (lim_perSource l !! source).

(** [register] *)
Definition register (key : UDPKey) (l : UDPLimiter) : result go_error UDPLimiter :=
  fail_if bool_decide (key ∈ lim_sessions l) with failure "UDP session already exists" in
  fail_if lim_maxSessions l <=? Z.of_nat (size (lim_sessions l)) with ESentinel ErrUDPCapacity in
  fail_if lim_maxPerSource l <=? per_source l (key_SourceIP key) with EWrap "for source" (ESentinel ErrUDPCapacity) in
  Ok (MkUDPLimiter (lim_maxSessions l) (lim_maxPerSource l) ({[key]} ∪ lim_sessions l)
        (<[key_SourceIP key := per_source l (key_SourceIP key) + 1]> (lim_perSource l))).

(** [unregister] *)
Definition unregister (key : UDPKey) (l : UDPLimiter) : UDPLimiter :=
  if bool_decide (key ∈ lim_sessions l) then
    let left_ := per_source l (key_SourceIP key) - 1 in
    MkUDPLimiter (lim_maxSessions l) (lim_maxPerSource l) (lim_sessions l ∖ {[key]})
      (if left_ =? 0 then delete (key_SourceIP key) (lim_perSource l)
       else <[key_SourceIP key := left_]> (lim_perSource l))
  else l.

(** ** The UDP relay *)

(** What [relayUDP] receives: a datagram copied in a direction, the end of a
    copy, the idle timer, the end of the context, and the second it waits for
    a copy to stop. *)
Inductive udp_event : Type :=
| Datagram (d : direction)
| CopyEnded (e : go_error)
| IdleOver
| ContextDone (c : ctx_error)
| StopTimeout.

Inductive udp_phase : Type := Relaying | Stopping (remaining : nat) | Stopped.

Record udp_relay : Type := MkUDPRelay {
  ur_phase : udp_phase;
  ur_result : option go_error;
  ur_to_network : Z;
  ur_to_client : Z
}.

Definition stopping (remaining : nat) : udp_phase :=
  match remaining with O => Stopped | _ => Stopping remaining end.

(** One receive; datagrams are counted until a copy ends. *)
Definition udp_relay_step (ev : udp_event) (r : udp_relay) : option udp_relay :=
  let '(MkUDPRelay phase result n c) := r in
  match phase, ev with
  | Stopped, _ => None
  | _, Datagram ClientToUpstream => Some (MkUDPRelay phase result (n + 1) c)
  | _, Datagram UpstreamToClient => Some (MkUDPRelay phase result n (c + 1))
  | Relaying, CopyEnded e => Some (MkUDPRelay (stopping 1) (Some e) n c)
  | Relaying, IdleOver => Some (MkUDPRelay (stopping 2) (Some (ESentinel ErrUDPIdleTimeout)) n c)
  | Relaying, ContextDone x => Some (MkUDPRelay (stopping 2) (Some (ctx_go_error x)) n c)
  | Stopping remaining, CopyEnded _ => Some (MkUDPRelay (stopping (pred remaining)) result n c)
  | Stopping _, StopTimeout =>
      Some (MkUDPRelay Stopped
              (Some (EJoin match result with
                           | Some e => [e; failure "UDP relay goroutine did not stop"]
                           | None => [failure "UDP relay goroutine did not stop"]
                           end)) n c)
  | _, _ => None
  end.

Fixpoint udp_relay_run (evs : list udp_event) (r : udp_relay) : option udp_relay :=
  match evs with
  | [] => Some r
  | ev :: evs' => r' ← udp_relay_step ev r; udp_relay_run evs' r'
  end.

Definition udp_relay_start : udp_relay := MkUDPRelay Relaying None 0 0.

Definition stop_timed_out (evs : list udp_event) : bool :=
  existsb (fun ev => match ev with StopTimeout => true | _ => false end) evs.

(** [relayUDP]: the result, and the datagrams of the two directions. *)
Definition relayUDP (evs : list udp_event) (ctx : option ctx_error) : option (option go_error * Z * Z) :=
  match udp_relay_run evs udp_relay_start with
  | Some (MkUDPRelay Stopped result n c) =>
      let final :=
        match result, ctx with
        | Some e, Some x => if negb (stop_timed_out evs) && errors_is ErrClosed e then Some (ctx_go_error x) else result
        | _, _ => result
        end in
      Some (final, n, c)
  | _ => None
  end.

(** ** The sessions *)

(** [netstack.TCPFlow] and [netstack.UDPFlow] *)
Record Flow : Type := MkTransportFlow {
  tf_SourceIP : addr;
  tf_SourcePort : Z;
  tf_DestinationIP : addr;
  tf_DestinationPort : Z
}.

Record TCP (M R D PD : Type) : Type := MkTCP {
  tcp_matcher : M;
  tcp_routes : gmap string (Route R D PD);
  tcp_relayTimeout : Z
}.
Arguments MkTCP {M R D PD}.
Arguments tcp_matcher {M R D PD}.
Arguments tcp_routes {M R D PD}.
Arguments tcp_relayTimeout {M R D PD}.

Record UDPConfig : Type := MkUDPConfig { uc_IdleTimeout : Z; uc_MaxSessions : Z; uc_MaxPerSource : Z }.

Record UDP (M R D PD : Type) : Type := MkUDP {
  udp_matcher : M;
  udp_routes : gmap string (Route R D PD);
  udp_config : UDPConfig
}.
Arguments MkUDP {M R D PD}.
Arguments udp_matcher {M R D PD}.
Arguments udp_routes {M R D PD}.
Arguments udp_config {M R D PD}.

(** What a call of [Handle] leaves: its error, the calls it made, the pool,
    the world and the counters. *)
Record handled (P W S : Type) : Type := MkHandled {
  hd_error : option go_error;
  hd_calls : list call;
  hd_pool : P;
  hd_world : W;
  hd_stats : S
}.
Arguments MkHandled {P W S}.
Arguments hd_error {P W S}.
Arguments hd_calls {P W S}.
Arguments hd_pool {P W S}.
Arguments hd_world {P W S}.
Arguments hd_stats {P W S}.

Section sessions.
Context {P H W R D PD Conn M : Type} `{MappingPool P H} `{Matcher M} (net : network W R D PD Conn).

(** [NewTCP]: the pool and the matcher are required. *)
Definition NewTCP (pool : option P) (matcher : option M) (routes : gmap string (Route R D PD)) (relayTimeout : Z)
    : result go_error (TCP M R D PD) :=
  match pool, matcher with
  | Some _, Some m =>
      fail_if bool_decide (routes = ∅) with failure "TCP session requires at least one outbound route" in
      fail_if relayTimeout <=? 0 with failure "TCP session relay timeout must be positive" in
      let! _ := check_routes check_tcp_route (map_to_list routes) in
      let! _ := validate_routes_in (route_names routes) routes in
      Ok (MkTCP m routes relayTimeout)
  | _, _ => Err (failure "TCP session requires a Fake IP pool and rules matcher")
  end.

(** [NewUDPWithLimiter] *)
Definition NewUDPWithLimiter (pool : option P) (matcher : option M) (routes : gmap string (Route R D PD))
    (config : UDPConfig) (limiter : option UDPLimiter) : result go_error (UDP M R D PD) :=
  match pool, matcher with
  | Some _, Some m =>
      fail_if (uc_IdleTimeout config <=? 0) || (uc_MaxSessions config <=? 0) || (uc_MaxPerSource config <=? 0) ||
              (uc_MaxSessions config <? uc_MaxPerSource config)
      with failure "UDP session limits and idle timeout are invalid" in
      match limiter with
      | None => Err (failure "UDP session limiter is required")
      | Some l =>
          fail_if negb (lim_maxSessions l =? uc_MaxSessions config) || negb (lim_maxPerSource l =? uc_MaxPerSource config)
          with failure "UDP session limits do not match the shared limiter" in
          let! _ := check_routes check_udp_route (map_to_list routes) in
          let! _ := validate_routes_in (route_names routes) routes in
          Ok (MkUDP m routes config)
      end
  | _, _ => Err (failure "UDP session requires a Fake IP pool and rules matcher")
  end.

(** The metadata of a flow and the literal destination, if it is one. *)
Definition flow_metadata (fl : Flow) (domain : string) : FlowMetadata :=
  MkFlowMetadata domain (if bool_decide (domain = "") then AddrZero else tf_DestinationIP fl)
    (tf_DestinationIP fl) (tf_SourceIP fl) (tf_SourcePort fl).

Definition flow_literal (fl : Flow) (domain : string) : addr :=
  if bool_decide (domain = "") then tf_DestinationIP fl else AddrZero.

Definition flow_ipv6 (fl : Flow) : bool := is6 (tf_DestinationIP fl).

(** [TCP.Handle].  [relay_io] is what the relay of a connection receives;
    [None] when the relay does not end. *)
Definition Handle_tcp (t : TCP M R D PD) (relay_io : Conn -> W -> list relay_event * W) (fl : Flow) (p : P) (w : W)
    (s : Stats) : option (handled P W Stats) :=
  let s := begin_tcp s in
  match pool_Acquire (tf_DestinationIP fl) p with
  | (Err e, p) => Some (MkHandled (Some (EWrap "acquire Fake IP" e)) [] p w (end_tcp (fail_tcp false s)))
  | (Ok (domain, h), p) =>
      let finish (e : option go_error) (f : flow W) (s : Stats) :=
        Some (MkHandled e (fl_calls f) (pool_release h p) (fl_world f) (end_tcp (tcp_fallbacks (fl_fallbacks f) s))) in
      match decideFlow net (tcp_routes t) (tcp_matcher t) (flow_metadata fl domain) domain (flow_literal fl domain)
              (flow_ipv6 fl) (MkFlow w [] 0) with
      | None => None
      | Some (Err e, f) => finish (Some (EWrap "decide TCP flow" e)) f (fail_tcp (errors_is ErrRejected e) s)
      | Some (Ok (decision, prepared), f) =>
          match connectPrepared net (tcp_routes t) (DecisionOutbound decision) domain (flow_literal fl domain)
                  (tf_DestinationPort fl) (flow_ipv6 fl) prepared f with
          | None => None
          | Some (Err e, f) => finish (Some (EWrap "connect" e)) f (fail_tcp (errors_is ErrRejected e) s)
          | Some (Ok (conn, selected), f) =>
              let '(evs, w) := relay_io conn (fl_world f) in
              let f := with_world w (CallClose selected) f in
              match Relay (tcp_relayTimeout t) evs with
              | None => None
              | Some (Some e) => finish (Some (EWrap "relay" e)) f (fail_tcp false s)
              | Some None => finish None f (complete_tcp s)
              end
          end
      end
  end.

(** What the client side of a UDP session does: the error of setting the read
    deadline, the first datagram, and what the relay receives. *)
Record udp_io : Type := MkUDPIO {
  io_deadline : option go_error;
  io_first : result go_error string;
  io_relay : Conn -> W -> list udp_event * W;
  io_context : option ctx_error
}.

(** [errors.As] for [net.Error]: whether the first one of the tree, depth
    first, is a timeout. *)
Fixpoint as_net_error (e : go_error) : option bool :=
  match e with
  | ENet timeout _ => Some timeout
  | EErrno n => Some (errno_timeout n)
  | ESentinel _ | EResponse _ => None
  | EInterface _ c | EWrap _ c => as_net_error c
  | EJoin es =>
      (fix first (es : list go_error) :=
         match es with
         | [] => None
         | e :: es' => match as_net_error e with Some timeout => Some timeout | None => first es' end
         end) es
  end.

(** [isTimeout] *)
Definition isTimeout (e : go_error) : bool := default false (as_net_error e).

(** A joined error is judged by its first network error. *)
Example joined_timeouts :
  isTimeout (EJoin [ENet false None; ENet true None]) = false /\
  isTimeout (EWrap "read" (EJoin [EResponse 2; EJoin [ENet true None]; ENet false None])) = true.
Proof. split; reflexivity. Qed.

(** [UDP.Handle] on the shared limiter. *)
Definition Handle_udp (u : UDP M R D PD) (io : udp_io) (fl : Flow) (l : UDPLimiter) (p : P) (w : W) (s : UDPStats)
    : option (handled P W UDPStats * UDPLimiter) :=
  let key := MkUDPKey (tf_SourceIP fl) (tf_SourcePort fl) (tf_DestinationIP fl) (tf_DestinationPort fl) in
  match register key l with
  | Err e => Some (MkHandled (Some e) [] p w (reject_udp s), l)
  | Ok l =>
      let s := begin_udp s in
      match pool_Acquire (tf_DestinationIP fl) p with
      | (Err e, p) =>
          Some (MkHandled (Some (EWrap "acquire Fake IP" e)) [] p w (end_udp (fail_udp false s)), unregister key l)
      | (Ok (domain, h), p) =>
          let finish (e : option go_error) (f : flow W) (s : UDPStats) :=
            Some (MkHandled e (fl_calls f) (pool_release h p) (fl_world f) (end_udp (udp_fallbacks (fl_fallbacks f) s)),
                  unregister key l) in
          match decideFlow net (udp_routes u) (udp_matcher u) (flow_metadata fl domain) domain (flow_literal fl domain)
                  (flow_ipv6 fl) (MkFlow w [] 0) with
          | None => None
          | Some (Err e, f) => finish (Some (EWrap "decide UDP session" e)) f (fail_udp (errors_is ErrRejected e) s)
          | Some (Ok (decision, prepared), f) =>
              match io_deadline io, io_first io with
              | Some e, _ => finish (Some e) f s
              | None, Err e =>
                  if isTimeout e then finish None f (expire_udp s)
                  else finish (Some (EWrap "read first UDP datagram" e)) f (fail_udp false s)
              | None, Ok first =>
                  match connectAndSendPrepared net (udp_routes u) (DecisionOutbound decision) domain
                          (flow_literal fl domain) (tf_DestinationPort fl) (flow_ipv6 fl) first prepared f with
                  | None => None
                  | Some (Err e, f) => finish (Some (EWrap "connect" e)) f (fail_udp (errors_is ErrRejected e) s)
                  | Some (Ok (conn, selected), f) =>
                      let '(evs, w) := io_relay io conn (fl_world f) in
                      let f := with_world w (CallClose selected) f in
                      match relayUDP evs (io_context io) with
                      | None => None
                      | Some (result, n, c) =>
                          let s := add_datagrams (n + 1) c s in
                          match result with
                          | Some e =>
                              if errors_is ErrUDPIdleTimeout e then finish None f (expire_udp s)
                              else finish (Some (EWrap "relay UDP" e)) f (fail_udp false s)
                          | None => finish None f s
                          end
                      end
                  end
              end
          end
      end
  end.
End sessions.
