(* ===== verification/SessionFacts.v ===== *)
(** * Component [internal/session]: fallbacks, decisions and connections

    The routes that a session accepts form a finite acyclic fallback relation;
    on them every decision and every connection ends, follows the fallbacks,
    respects reject routes and leaks no connection. *)

From S2P Require Import Prelude.
From S2P Require Import GoStrings.
From S2P Require Import NetIP.
From S2P Require Import ConfigTypes.
From S2P Require Import ConfigCompile.
From S2P Require Import ConfigFacts.
From S2P Require Import Outbound.
From S2P Require Import Resolver.
From S2P Require Import Rules.
From S2P Require Import Session.
From S2P Require Import SessionHandle.

(** ** The fallback relation *)

Section routes.
Context {R D PD : Type} (routes : gmap string (Route R D PD)).

Definition route_next (a b : string) : Prop := exists r, routes !! a = Some r /\ rt_Fallback r = b /\ b <> "".

(** What a session needs of its routes. *)
Record routes_valid : Prop := {
  rv_targets a b : route_next a b -> is_Some (routes !! b);
  rv_acyclic a : ~ tc route_next a a
}.

(** The fallbacks as the configuration sees them. *)
Definition as_outbound (r : Route R D PD) : Outbound := MkOutbound (rt_Name r) "" "" "" [] 0 (rt_Fallback r).

Local Notation outs := (as_outbound <$> routes).

Lemma fallback_of_routes a : fallback_of outs a = route_fallback routes a.
Proof. unfold fallback_of, route_fallback. rewrite lookup_fmap. by destruct (routes !! a). Qed.

Lemma falls_back_routes a b : falls_back outs a b <-> route_next a b.
Proof.
  unfold falls_back, route_next. rewrite fallback_of_routes, lookup_fmap. unfold route_fallback.
  destruct (routes !! a) as [r|]; cbn; [naive_solver|]. split; [by intros [[? ?] _]|by intros (?&?&_)].
Qed.

Lemma present_lookup {A} (m : gmap string A) a : present (m !! a) = true <-> is_Some (m !! a).
Proof. destruct (m !! a); cbn; split; try done; by intros [? ?]. Qed.

(** Every finished name has a configured fallback, or none. *)
Definition finished_targets (st : gmap string visit_state) : Prop :=
  forall a b, st !! a = Some Done -> route_next a b -> is_Some (routes !! b).

Lemma finished_targets_insert st a s :
  finished_targets st -> (s = Done -> forall b, route_next a b -> is_Some (routes !! b)) ->
  finished_targets (<[a := s]> st).
Proof.
  intros H Ha x b. destruct (decide (a = x)) as [->|].
  - rewrite lookup_insert_eq. intros [= ->]. by apply Ha.
  - rewrite lookup_insert_ne by done. apply H.
Qed.

Lemma visit_route_config fuel a st st' :
  visit_route fuel routes a st = Ok st' ->
  visit fuel outs a st = Ok st' /\ (finished_targets st -> finished_targets st').
Proof.
  revert a st st'. induction fuel as [|fuel IH]; intros a st st'; cbn [visit_route visit]; [done|].
  destruct (st !! a) as [[|]|]; [done|by intros [= <-]|].
  rewrite fallback_of_routes. intros H. inv_result. subst st'. case_bool_decide as Hn.
  - inv_result. subst x. split; [done|]. intros Hst. apply finished_targets_insert; [by apply finished_targets_insert|].
    intros _ b (r & Hr & Hb & Hne). unfold route_fallback in Hn. rewrite Hr in Hn. congruence.
  - inv_result. apply IH in H0 as [-> Hx]. split; [done|]. intros Hst. apply finished_targets_insert.
    + apply Hx. by apply finished_targets_insert.
    + intros _ b (r & Hr & Hb & Hne). apply negb_false_iff, present_lookup in H.
      unfold route_fallback in H. rewrite Hr in H. by rewrite Hb in H.
Qed.

Lemma visit_config_route fuel a st st' :
  (forall a b, route_next a b -> is_Some (routes !! b)) ->
  visit fuel outs a st = Ok st' -> visit_route fuel routes a st = Ok st'.
Proof.
  intros Ht. revert a st st'. induction fuel as [|fuel IH]; intros a st st'; cbn [visit_route visit]; [done|].
  destruct (st !! a) as [[|]|]; [done|by intros [= ->]|]. rewrite fallback_of_routes. intros H. inv_result. subst st'.
  case_bool_decide as Hn; [by inv_result; subst x|]. rewrite (IH _ _ _ H0). replace (present _) with true; [done|].
  symmetry. apply present_lookup. unfold route_fallback in *. destruct (routes !! a) as [r|] eqn:Hr; [|done].
  apply (Ht a). by exists r.
Qed.

Lemma visit_routes_config fuel names st st' :
  visit_routes fuel routes names st = Ok st' ->
  visit_all fuel outs names st = Ok st' /\ (finished_targets st -> finished_targets st').
Proof.
  revert st. induction names as [|a names IH]; intros st; cbn [visit_routes visit_all]; [by intros [= <-]|].
  intros H. inv_result. apply visit_route_config in H0 as [-> Hx]. destruct (IH _ H) as [Hv Hs]. split; [done|auto].
Qed.

Lemma visit_config_routes fuel names st st' :
  (forall a b, route_next a b -> is_Some (routes !! b)) ->
  visit_all fuel outs names st = Ok st' -> visit_routes fuel routes names st = Ok st'.
Proof.
  intros Ht. revert st. induction names as [|a names IH]; intros st; cbn [visit_routes visit_all]; [by intros [= ->]|].
  intros H. inv_result. erewrite visit_config_route by done. by apply IH.
Qed.

(** [validateFallbacks] in any order accepts the finite acyclic relations. *)
Lemma validate_routes_spec order :
  (forall a, a ∈ order <-> is_Some (routes !! a)) -> validate_routes_in order routes = Ok tt <-> routes_valid.
Proof.
  intros Horder. unfold validate_routes_in. rewrite bind_Ok. split.
  - intros (st & H & _). apply visit_routes_config in H as [H Ht].
    apply visit_all_sound in H as (Hends & Hall & _); [|by intros ? ?].
    assert (Hdone : forall a, is_Some (routes !! a) -> st !! a = Some Done) by (intros a Ha; by apply Hall, Horder).
    assert (Hsrc : forall a b, route_next a b -> is_Some (routes !! a)) by (intros a b (r & -> & _); by eexists).
    split.
    + intros a b Hab. apply (Ht (fun a b H => ltac:(done)) a); [by eapply Hdone, Hsrc|done].
    + intros a Ha. apply (ends_acyclic outs a).
      * apply Hends, Hdone. inversion Ha; subst; by eapply Hsrc.
      * eapply tc_congruence with (f := id); [|done]. intros x y. by rewrite falls_back_routes.
  - intros [Ht Hac]. destruct (visit_all_complete outs order ∅) as [st Hst].
    + intros a b. rewrite falls_back_routes, lookup_fmap. intros Hab. by apply fmap_is_Some, (Ht a).
    + intros a Ha. apply (Hac a). eapply tc_congruence with (f := id); [|done]. intros x y. by rewrite falls_back_routes.
    + intros a Ha. rewrite lookup_fmap. by apply fmap_is_Some, Horder.
    + set_solver.
    + done.
    + rewrite map_size_fmap in Hst. exists st. split; [|done]. by apply visit_config_routes.
Qed.

Lemma elem_of_route_names a : a ∈ route_names routes <-> is_Some (routes !! a).
Proof.
  unfold route_names. rewrite list_elem_of_fmap. split.
  - intros ([b o] & -> & Hb%elem_of_map_to_list). by exists o.
  - intros [o Ho]. exists (a, o). split; [done|]. by apply elem_of_map_to_list.
Qed.

Lemma check_routes_spec (check : string -> Route R D PD -> result go_error unit) :
  check_routes check (map_to_list routes) = Ok tt <-> forall a r, routes !! a = Some r -> check a r = Ok tt.
Proof.
  setoid_rewrite <- elem_of_map_to_list. induction (map_to_list routes) as [|[a r] l IH]; cbn [check_routes].
  - split; [|done]. by intros _ a r ?%elem_of_nil.
  - rewrite bind_Ok. split.
    + intros ([] & H & Hl) b r' [[= -> ->]|Hb]%elem_of_cons; [done|]. by apply IH.
    + intros H. exists tt. split; [by apply H, elem_of_cons; left|]. apply IH. intros b r' Hb. apply H, elem_of_cons. by right.
Qed.

(** The fallbacks from a name end within a number of turns. *)
Inductive ends_within : nat -> string -> Prop :=
| EndsNone n : ends_within (S n) ""
| EndsMissing n a : routes !! a = None -> ends_within (S n) a
| EndsStep n a r : routes !! a = Some r -> ends_within n (rt_Fallback r) -> ends_within (S n) a.

Lemma ends_within_chain n seen a :
  routes_valid -> NoDup seen -> (forall b, b ∈ seen -> is_Some (routes !! b) /\ tc route_next b a) ->
  (n + length seen = S (size routes))%nat -> ends_within n a.
Proof.
  intros [Ht Hac]. revert seen a. induction n as [|n IH]; intros seen a Hnd Hseen Hlen.
  - pose proof (NoDup_keys_size routes seen Hnd (fun b Hb => proj1 (Hseen b Hb))). lia.
  - destruct (routes !! a) as [r|] eqn:Hr; [|by apply EndsMissing].
    destruct (decide (rt_Fallback r = "")) as [Hf|Hf].
    + eapply EndsStep; [done|]. rewrite Hf. destruct n as [|n]; [|apply EndsNone].
      assert (NoDup (a :: seen)) as Hnd'.
      { apply NoDup_cons. split; [|done]. intros Ha. by apply (Hac a), Hseen. }
      pose proof (NoDup_keys_size routes (a :: seen) Hnd') as Hsz. cbn in Hsz.
      assert (S (length seen) <= size routes)%nat; [|lia]. apply Hsz. intros b [->|Hb]%elem_of_cons; [by eexists|by apply Hseen].
    + eapply EndsStep; [done|]. apply (IH (a :: seen)); [| |cbn; lia].
      * apply NoDup_cons. split; [|done]. intros Ha. by apply (Hac a), Hseen.
      * assert (route_next a (rt_Fallback r)) as Hnext by (by exists r).
        intros b [->|Hb]%elem_of_cons; [split; [by eexists|by apply tc_once]|].
        split; [by apply Hseen|]. eapply tc_r; [by apply Hseen|done].
Qed.

(** The fuel of the loops is enough. *)
Lemma route_fuel_enough a : routes_valid -> ends_within (route_fuel routes) a.
Proof.
  intros H. apply (ends_within_chain _ []); [done|constructor| |]; [by intros b ?%elem_of_nil|]. unfold route_fuel. cbn. lia.
Qed.
End routes.

(** ** Decisions and connections *)

(** The connections that the calls opened and did not close. *)
Definition opened_by (c : call) : Z :=
  match c with CallDial _ _ true => 1 | CallClose _ => -1 | _ => 0 end.

Definition open_connections (calls : list call) : Z := foldr (fun c n => opened_by c + n) 0 calls.

Lemma open_connections_app a b : open_connections (a ++ b) = open_connections a + open_connections b.
Proof. induction a as [|c a IH]; [done|]. unfold open_connections in *. cbn. rewrite IH. lia. Qed.

Lemma joined_Err {A} es : exists e, joined (A := A) es = Err e.
Proof. unfold joined. destruct (errors_join es); eauto. Qed.

Lemma joined_snoc {A} es e : joined (A := A) (es ++ [e]) = Err (EJoin (es ++ [e])).
Proof. by destruct es. Qed.

Section flows.
Context {W R D PD Conn M : Type} `{Matcher M} (net : network W R D PD Conn) (routes : gmap string (Route R D PD)).

Local Notation next := (route_next routes).

(** A route that does not reject, and is reached by fallbacks. *)
Definition live (o : string) : Prop := exists r, routes !! o = Some r /\ rt_Reject r = false.

Definition via (start o : string) : Prop := rtc next start o /\ live o.

(** The resolver of [o] gave these addresses for the domain. *)
Definition answered (o domain : string) (ipv6 : bool) (addresses : list addr) : Prop :=
  exists r res w w', routes !! o = Some r /\ rt_Resolver r = Some res /\
    (if ipv6 then net_LookupIPv6 net else net_LookupIPv4 net) res domain w = (Ok addresses, w').

(** A call made for a flow that starts at an outbound: through a live route,
    and dialing only the literal destination or an address that the resolver
    of that same route gave. *)
Definition proper_call (start domain : string) (literal : addr) (ipv6 : bool) (port : Z) (c : call) : Prop :=
  match c with
  | CallLookup o | CallWrite o | CallClose o => via start o
  | CallDial o (AddrPort a p) _ =>
      via start o /\ p = port /\
      ((addr_valid literal = true /\ a = literal) \/ exists addresses, answered o domain ipv6 addresses /\ a ∈ addresses)
  end.

Definition lookup_call (start : string) (c : call) : Prop := exists o, c = CallLookup o /\ via start o.

Lemma lookup_call_proper start domain literal ipv6 port c :
  lookup_call start c -> proper_call start domain literal ipv6 port c.
Proof. by intros (o & -> & H'). Qed.

Lemma lookup_calls_open start cs : Forall (lookup_call start) cs -> open_connections cs = 0.
Proof. by induction 1 as [|c cs (o & -> & _) _ IH]. Qed.

Lemma via_step a r o : routes !! a = Some r -> rt_Fallback r <> "" -> via (rt_Fallback r) o -> via a o.
Proof. intros Hr Hf [Ho Hl]. split; [|done]. eapply rtc_l; [|done]. by exists r. Qed.

Lemma lookup_call_step a r c :
  routes !! a = Some r -> rt_Fallback r <> "" -> lookup_call (rt_Fallback r) c -> lookup_call a c.
Proof. intros Hr Hf (o & -> & Ho). exists o. split; [done|]. by eapply via_step. Qed.

Lemma proper_call_step a r domain literal ipv6 port c :
  routes !! a = Some r -> rt_Fallback r <> "" ->
  proper_call (rt_Fallback r) domain literal ipv6 port c -> proper_call a domain literal ipv6 port c.
Proof.
  intros Hr Hf. destruct c as [o|o [x p] b|o|o]; cbn; try by apply via_step.
  intros (Ho & ? & ?). split_and!; [by eapply via_step|done|done].
Qed.

Lemma lookupAddresses_ok name r domain ipv6 f res f' :
  routes !! name = Some r ->
  lookupAddresses net name (rt_Resolver r) domain ipv6 f = (res, f') ->
  (fl_calls f' = fl_calls f \/ fl_calls f' = fl_calls f ++ [CallLookup name]) /\ fl_fallbacks f' = fl_fallbacks f /\
  (forall addresses, res = Ok addresses ->
     answered name domain ipv6 addresses /\ fl_calls f' = fl_calls f ++ [CallLookup name]).
Proof.
  unfold lookupAddresses. intros Hr. destruct (rt_Resolver r) as [x|] eqn:Hx; [|intros [= <- <-]; split_and!; [by left|done|done]].
  destruct ((if ipv6 then _ else _) x domain (fl_world f)) as [y w] eqn:Hl. intros [= <- <-].
  cbn. split_and!; [by right|done|]. intros addresses ->. split; [|done]. by exists r, x, (fl_world f), w.
Qed.

Lemma via_refl o r : routes !! o = Some r -> rt_Reject r = false -> via o o.
Proof. intros ??. split; [apply rtc_refl|by exists r]. Qed.

Lemma resolve_loop_ok fuel cur domain ipv6 fs f res f' :
  resolve_loop net routes fuel cur domain ipv6 fs f = Some (res, f') ->
  exists new, fl_calls f' = fl_calls f ++ new /\ Forall (lookup_call cur) new /\
    fl_fallbacks f <= fl_fallbacks f' /\
    (forall p, res = Ok p -> rr_Addresses p <> [] /\ via cur (rr_Outbound p) /\
       answered (rr_Outbound p) domain ipv6 (rr_Addresses p) /\ CallLookup (rr_Outbound p) ∈ new).
Proof.
  assert (Hstop : forall (e : go_error) (f : flow W) cur, exists new, fl_calls f = fl_calls f ++ new /\
    Forall (lookup_call cur) new /\ fl_fallbacks f <= fl_fallbacks f /\
    (forall p, Err e = Ok p -> rr_Addresses p <> [] /\ via cur (rr_Outbound p) /\
       answered (rr_Outbound p) domain ipv6 (rr_Addresses p) /\ CallLookup (rr_Outbound p) ∈ new)).
  { intros. exists []. rewrite app_nil_r. split_and!; [done|constructor|lia|done]. }
  revert cur fs f. induction fuel as [|fuel IH]; intros cur fs f; cbn [resolve_loop]; [done|].
  destruct (joined_Err (A := routeResolution) fs) as [e0 He0].
  case_bool_decide as Hc; [rewrite He0; intros [= <- <-]; apply Hstop|].
  destruct (routes !! cur) as [r|] eqn:Hr; [|intros [= <- <-]; apply Hstop].
  destruct (rt_Reject r) eqn:Hrej; [rewrite joined_snoc; intros [= <- <-]; apply Hstop|].
  destruct (lookupAddresses _ _ _ _ _ _) as [y f1] eqn:Hl.
  pose proof (lookupAddresses_ok _ _ _ _ _ _ _ Hr Hl) as (Hcalls & Hfb & Hans).
  assert (Hnew : exists new, fl_calls f1 = fl_calls f ++ new /\ Forall (lookup_call cur) new).
  { destruct Hcalls as [->| ->]; [exists []; rewrite app_nil_r; by split|exists [CallLookup cur]].
    split; [done|]. repeat constructor. exists cur. split; [done|]. by eapply via_refl. }
  destruct Hnew as (new & Hcn & Hall).
  assert (Hgo : forall e, (if gives_up e r then Some (joined (fs ++ [EWrap "outbound resolve" e]), f1)
      else resolve_loop net routes fuel (rt_Fallback r) domain ipv6 (fs ++ [EWrap "outbound resolve" e]) (count_fallback f1))
      = Some (res, f') ->
    exists new, fl_calls f' = fl_calls f ++ new /\ Forall (lookup_call cur) new /\ fl_fallbacks f <= fl_fallbacks f' /\
    (forall p, res = Ok p -> rr_Addresses p <> [] /\ via cur (rr_Outbound p) /\
       answered (rr_Outbound p) domain ipv6 (rr_Addresses p) /\ CallLookup (rr_Outbound p) ∈ new)).
  { intros e. destruct (gives_up e r) eqn:Hg.
    - rewrite joined_snoc. intros [= <- <-]. exists new. split_and!; [done|done|lia|done].
    - assert (rt_Fallback r <> "") as Hf.
      { unfold gives_up in Hg. apply orb_false_iff in Hg as [_ Hg]. by apply bool_decide_eq_false in Hg. }
      intros (new2 & Hc2 & Hall2 & Hle & Hres)%IH. exists (new ++ new2). cbn in Hc2, Hle. rewrite Hc2, Hcn, app_assoc.
      split_and!; [done| |lia|].
      + apply Forall_app. split; [done|]. eapply Forall_impl; [done|]. intros c. by apply lookup_call_step.
      + intros p Hp. destruct (Hres p Hp) as (? & ? & ? & ?). split_and!; [done|by eapply via_step|done|].
        apply elem_of_app. by right. }
  destruct y as [[|x xs]|e]; [apply Hgo| |apply Hgo].
  intros [= <- <-]. exists new. split_and!; [done|done|lia|]. intros p [= <-]. cbn.
  destruct (Hans _ eq_refl) as [Ha Hcl]. rewrite Hcl in Hcn. apply app_inv_head in Hcn as <-.
  split_and!; [done|by eapply via_refl|done|by apply list_elem_of_singleton].
Qed.

Lemma resolve_loop_total n cur domain ipv6 fs f :
  ends_within routes n cur -> exists x, resolve_loop net routes n cur domain ipv6 fs f = Some x.
Proof.
  intros Hn. revert fs f. induction Hn as [n|n a Ha|n a r Hr Hends IH]; intros fs f; cbn [resolve_loop].
  - eauto.
  - case_bool_decide; [eauto|]. rewrite Ha. eauto.
  - case_bool_decide; [eauto|]. rewrite Hr. destruct (rt_Reject r); [eauto|].
    destruct (lookupAddresses _ _ _ _ _ _) as [y f1]. destruct y as [[|x xs]|e]; [|eauto|];
      (destruct (gives_up _ _); [eauto|apply IH]).
Qed.

(** The calls of one dial: a connection is left open exactly on success. *)
Definition dial_call (cur : string) (destination : addr_port) (c : call) : Prop :=
  match c with
  | CallDial o d _ => o = cur /\ d = destination
  | CallWrite o | CallClose o => o = cur
  | CallLookup _ => False
  end.

Definition left_open {A} (res : result go_error A) : Z := if is_ok res then 1 else 0.

Definition dials_once (attempt : string -> Route R D PD -> addr_port -> flow W -> result go_error Conn * flow W) : Prop :=
  forall cur r destination f res f', attempt cur r destination f = (res, f') ->
    exists new, fl_calls f' = fl_calls f ++ new /\ fl_fallbacks f' = fl_fallbacks f /\
      Forall (dial_call cur destination) new /\ open_connections new = left_open res.

Lemma attempt_tcp_dials ipv6 : dials_once (attempt_tcp net ipv6).
Proof.
  intros cur r destination f res f'. unfold attempt_tcp. destruct (rt_Dialer r) as [d|].
  - destruct (net_dial _ _ _ _ _) as [x w]. intros [= <- <-]. eexists. split_and!; [done|done|by repeat constructor|].
    by destruct x.
  - intros [= <- <-]. exists []. rewrite app_nil_r. split_and!; [done|done|constructor|done].
Qed.

Lemma attempt_udp_dials first : dials_once (attempt_udp net first).
Proof.
  intros cur r destination f res f'. unfold attempt_udp. destruct (rt_PacketDialer r) as [d|].
  - destruct (net_dial_packet _ _ _ _) as [[conn|e] w]; cbn [fl_world with_world is_ok].
    + destruct (net_write _ _ _ _) as [[n e] w']. cbn [fl_world with_world].
      set (e' := match e with Some _ => _ | None => _ end). destruct e' as [e'|].
      all: intros [= <- <-]; cbn; rewrite <- !app_assoc; eexists; split_and!; [done|done|by repeat constructor|done].
    + intros [= <- <-]. eexists. split_and!; [done|done|by repeat constructor|done].
  - intros [= <- <-]. exists []. rewrite app_nil_r. split_and!; [done|done|constructor|done].
Qed.

Section connecting.
Context (attempt : string -> Route R D PD -> addr_port -> flow W -> result go_error Conn * flow W).
Context (attempt_ok : dials_once attempt).
Context (domain : string) (literal : addr) (port : Z) (ipv6 : bool).

Definition target (o : string) (a : addr) : Prop :=
  (addr_valid literal = true /\ a = literal) \/ exists addresses, answered o domain ipv6 addresses /\ a ∈ addresses.

Lemma dial_calls_proper cur a new :
  via cur cur -> target cur a -> Forall (dial_call cur (AddrPort a port)) new ->
  Forall (proper_call cur domain literal ipv6 port) new.
Proof.
  intros Hv Ht Hd. eapply Forall_impl; [done|]. intros [o|o d b|o|o]; cbn; [done| |by intros ->..].
  intros [-> ->]. by split_and!.
Qed.

Lemma attempt_all_ok cur r addresses fs rec f res f' :
  via cur cur -> Forall (target cur) addresses ->
  attempt_all attempt cur r addresses port fs rec f = (res, f') ->
  exists new, fl_calls f' = fl_calls f ++ new /\ fl_fallbacks f' = fl_fallbacks f /\
    Forall (proper_call cur domain literal ipv6 port) new /\
    open_connections new = match res with inl _ => 1 | inr _ => 0 end.
Proof.
  intros Hv. revert fs rec f. induction addresses as [|a addresses IH]; intros fs rec f Hall; cbn [attempt_all].
  - intros [= <- <-]. exists []. rewrite app_nil_r. split_and!; [done|done|constructor|done].
  - apply Forall_cons_1 in Hall as [Ha Hall]. destruct (attempt _ _ _ _) as [y f1] eqn:Hat.
    destruct (attempt_ok _ _ _ _ _ _ Hat) as (new & Hc & Hfb & Hd & Hopen).
    pose proof (dial_calls_proper _ _ _ Hv Ha Hd) as Hp. destruct y as [conn|e].
    + intros [= <- <-]. exists new. by split_and!.
    + intros (new2 & Hc2 & Hfb2 & Hp2 & Hopen2)%IH; [|done]. exists (new ++ new2).
      rewrite Hc2, Hc, app_assoc, open_connections_app, Hopen, Hopen2. split_and!; [done|congruence| |by destruct res].
      apply Forall_app. by split.
Qed.

Lemma flow_addresses_ok cur r prepared f res prepared' f' :
  routes !! cur = Some r -> rt_Reject r = false ->
  (forall p, prepared = Some p -> answered (rr_Outbound p) domain ipv6 (rr_Addresses p)) ->
  flow_addresses net cur r domain literal ipv6 prepared f = (res, prepared', f') ->
  exists new, fl_calls f' = fl_calls f ++ new /\ fl_fallbacks f' = fl_fallbacks f /\ Forall (lookup_call cur) new /\
    (forall addresses, res = Ok addresses -> Forall (target cur) addresses) /\
    (forall p, prepared' = Some p -> answered (rr_Outbound p) domain ipv6 (rr_Addresses p)).
Proof.
  intros Hr Hrej Hprep. assert (Hin : forall addresses, answered cur domain ipv6 addresses -> Forall (target cur) addresses).
  { intros addresses Hans. apply Forall_forall. intros a Ha. right. eauto. }
  assert (Hlook : forall res prepared' f',
    (if addr_valid literal then (Ok [literal], prepared, f)
     else let '(x, f) := lookupAddresses net cur (rt_Resolver r) domain ipv6 f in (x, prepared, f)) = (res, prepared', f') ->
    exists new, fl_calls f' = fl_calls f ++ new /\ fl_fallbacks f' = fl_fallbacks f /\ Forall (lookup_call cur) new /\
    (forall addresses, res = Ok addresses -> Forall (target cur) addresses) /\
    (forall p, prepared' = Some p -> answered (rr_Outbound p) domain ipv6 (rr_Addresses p))).
  { intros res0 p0 f0. destruct (addr_valid literal) eqn:Hlit.
    - intros [= <- <- <-]. exists []. rewrite app_nil_r. split_and!; [done|done|constructor| |done].
      intros addresses [= <-]. apply Forall_singleton. by left.
    - destruct (lookupAddresses _ _ _ _ _ _) as [x f1] eqn:Hl. intros [= <- <- <-].
      destruct (lookupAddresses_ok _ _ _ _ _ _ _ Hr Hl) as (Hcalls & Hfb & Hans).
      assert (forall a, x = Ok a -> Forall (target cur) a) by (intros a Ha; by apply Hin, Hans).
      destruct Hcalls as [->| ->]; [exists []; rewrite app_nil_r|exists [CallLookup cur]]; split_and!; try done.
      apply Forall_singleton. exists cur. split; [done|]. by eapply via_refl. }
  unfold flow_addresses. destruct prepared as [p|]; [|apply Hlook].
  case_bool_decide as Hp; [|apply Hlook]. intros [= <- <- <-]. exists [].
  rewrite app_nil_r. split_and!; [done|done|constructor| |done]. intros a [= <-]. apply Hin. subst cur. by apply Hprep.
Qed.

Lemma connect_loop_ok fuel cur prepared fs f res f' :
  (forall p, prepared = Some p -> answered (rr_Outbound p) domain ipv6 (rr_Addresses p)) ->
  connect_loop net routes attempt fuel cur domain literal port ipv6 prepared fs f = Some (res, f') ->
  exists new, fl_calls f' = fl_calls f ++ new /\ fl_fallbacks f <= fl_fallbacks f' /\
    Forall (proper_call cur domain literal ipv6 port) new /\ open_connections new = left_open res /\
    (forall conn selected, res = Ok (conn, selected) -> via cur selected).
Proof.
  assert (Hstop : forall (e : go_error) (f : flow W) cur, exists new, fl_calls f = fl_calls f ++ new /\
    fl_fallbacks f <= fl_fallbacks f /\ Forall (proper_call cur domain literal ipv6 port) new /\
    open_connections new = left_open (A := Conn * string) (Err e) /\
    (forall conn selected, Err (A := Conn * string) e = Ok (conn, selected) -> via cur selected)).
  { intros. exists []. rewrite app_nil_r. split_and!; [done|lia|constructor|done|done]. }
  revert cur prepared fs f. induction fuel as [|fuel IH]; intros cur prepared fs f Hprep; cbn [connect_loop]; [done|].
  destruct (joined_Err (A := Conn * string) fs) as [e0 He0].
  case_bool_decide as Hc; [rewrite He0; intros [= <- <-]; apply Hstop|].
  destruct (routes !! cur) as [r|] eqn:Hr; [|intros [= <- <-]; apply Hstop].
  destruct (rt_Reject r) eqn:Hrej; [rewrite joined_snoc; intros [= <- <-]; apply Hstop|].
  destruct (flow_addresses _ _ _ _ _ _ _ _) as [[y p1] f1] eqn:Hl.
  destruct (flow_addresses_ok _ _ _ _ _ _ _ Hr Hrej Hprep Hl) as (new & Hcalls & Hfb & Hlook & Hans & Hprep1).
  assert (Hpl : Forall (proper_call cur domain literal ipv6 port) new).
  { eapply Forall_impl; [done|]. intros c. apply lookup_call_proper. }
  assert (Hgo : forall fs2 (f2 : flow W) new1, rt_Fallback r <> "" ->
    fl_calls f2 = fl_calls f ++ new1 -> fl_fallbacks f2 = fl_fallbacks f ->
    Forall (proper_call cur domain literal ipv6 port) new1 -> open_connections new1 = 0 ->
    connect_loop net routes attempt fuel (rt_Fallback r) domain literal port ipv6 p1 fs2 (count_fallback f2) = Some (res, f') ->
    exists new, fl_calls f' = fl_calls f ++ new /\ fl_fallbacks f <= fl_fallbacks f' /\
    Forall (proper_call cur domain literal ipv6 port) new /\ open_connections new = left_open res /\
    (forall conn selected, res = Ok (conn, selected) -> via cur selected)).
  { intros fs2 f2 new1 Hf Hc1 Hfb1 Hp1 Ho1 (new2 & Hc2 & Hle & Hp2 & Ho2 & Hsel)%IH; [|done]. cbn in Hc2, Hle.
    exists (new1 ++ new2). rewrite Hc2, Hc1, app_assoc, open_connections_app, Ho1, Ho2. split_and!; [done|lia| |lia|].
    - apply Forall_app. split; [done|]. eapply Forall_impl; [done|]. intros c. by apply proper_call_step.
    - intros conn selected Hx. eapply via_step; [done..|]. by eapply Hsel. }
  destruct y as [addresses|e].
  - destruct (attempt_all _ _ _ _ _ _ _ _) as [z f2] eqn:Hat.
    destruct (attempt_all_ok _ _ _ _ _ _ _ _ (via_refl _ _ Hr Hrej) (Hans _ eq_refl) Hat) as (new1 & Hc1 & Hfb1 & Hp1 & Ho1).
    assert (Hcalls2 : fl_calls f2 = fl_calls f ++ new ++ new1) by (by rewrite Hc1, Hcalls, app_assoc).
    assert (Hp2 : Forall (proper_call cur domain literal ipv6 port) (new ++ new1)) by (apply Forall_app; by split).
    pose proof (lookup_calls_open _ _ Hlook) as Hz. pose proof (open_connections_app new new1) as Happ.
    destruct z as [conn|[fs2 rec]].
    + intros [= <- <-]. exists (new ++ new1). split_and!; [done|lia|done|cbn; lia|].
      intros c s [= <- <-]. by eapply via_refl.
    + case_bool_decide as Hf; [rewrite orb_true_r|rewrite orb_false_r; destruct rec; cbn [negb]].
      * intros Hj. destruct (joined_Err (A := Conn * string) fs2) as [e He]. rewrite He in Hj. injection Hj as <- <-.
        exists (new ++ new1). split_and!; [done|lia|done|cbn; lia|done].
      * apply (Hgo _ _ (new ++ new1)); [done|done|congruence|done|lia].
      * intros Hj. destruct (joined_Err (A := Conn * string) fs2) as [e He]. rewrite He in Hj. injection Hj as <- <-.
        exists (new ++ new1). split_and!; [done|lia|done|cbn; lia|done].
  - destruct (gives_up e r) eqn:Hg.
    + rewrite joined_snoc. intros [= <- <-]. exists new. pose proof (lookup_calls_open _ _ Hlook).
      split_and!; [done|lia|done|done|done].
    + apply (Hgo _ _ new); [|done|done|done|by eapply lookup_calls_open].
      unfold gives_up in Hg. apply orb_false_iff in Hg as [_ Hg]. by apply bool_decide_eq_false in Hg.
Qed.

Lemma connect_loop_total n cur prepared fs f :
  ends_within routes n cur ->
  exists x, connect_loop net routes attempt n cur domain literal port ipv6 prepared fs f = Some x.
Proof.
  intros Hn. revert prepared fs f. induction Hn as [n|n a Ha|n a r Hr Hends IH]; intros prepared fs f; cbn [connect_loop].
  - eauto.
  - case_bool_decide; [eauto|]. rewrite Ha. eauto.
  - case_bool_decide; [eauto|]. rewrite Hr. destruct (rt_Reject r); [eauto|].
    destruct (flow_addresses _ _ _ _ _ _ _ _) as [[[addresses|e] p1] f1].
    + destruct (attempt_all _ _ _ _ _ _ _ _) as [[conn|[fs2 rec]] f2]; [eauto|].
      destruct (_ || _); [eauto|apply IH].
    + destruct (gives_up _ _); [eauto|apply IH].
Qed.
End connecting.

(** ** One decision *)

(** A lookup made while deciding among candidates. *)
Definition candidate_lookup (cs : list Decision) (c : call) : Prop :=
  exists k, k ∈ cs /\ lookup_call (DecisionOutbound k) c.

Definition rejects (o : string) : Prop := exists r, routes !! o = Some r /\ rt_Reject r = true.

Lemma first_resolvable_ok deferred res :
  first_resolvable routes deferred = Ok res ->
  match res with
  | Some d => d ∈ deferred /\ live (DecisionOutbound d)
  | None => forall d, d ∈ deferred -> rejects (DecisionOutbound d)
  end.
Proof.
  induction deferred as [|d l IH]; cbn [first_resolvable]; [intros [= <-] d ?%elem_of_nil; done|].
  destruct (routes !! _) as [r|] eqn:Hr; [|done]. destruct (rt_Reject r) eqn:Hrej.
  - intros H'%IH. destruct res as [k|].
    + destruct H' as [? ?]. split; [by apply elem_of_cons; right|done].
    + intros k [->|Hk]%elem_of_cons; [by exists r|by apply H'].
  - intros [= <-]. split; [by apply elem_of_cons; left|by exists r].
Qed.

(** What a decision comes with: the resolution of a live outbound that the
    decided one reaches, or nothing when the decided one rejects. *)
Definition decided (d : Decision) (domain : string) (ipv6 : bool) (prepared : option routeResolution) : Prop :=
  match prepared with
  | Some p => rr_Addresses p <> [] /\ via (DecisionOutbound d) (rr_Outbound p) /\ live (DecisionOutbound d) /\
      answered (rr_Outbound p) domain ipv6 (rr_Addresses p)
  | None => rejects (DecisionOutbound d)
  end.

Lemma lookups_of_candidate cs k new : k ∈ cs -> Forall (lookup_call (DecisionOutbound k)) new -> Forall (candidate_lookup cs) new.
Proof. intros Hk Hn. eapply Forall_impl; [done|]. intros c Hc. by exists k. Qed.

Lemma resolve_ok start domain ipv6 f res f' :
  resolveForDecision net routes start domain ipv6 f = Some (res, f') ->
  exists new, fl_calls f' = fl_calls f ++ new /\ Forall (lookup_call start) new /\ fl_fallbacks f <= fl_fallbacks f' /\
    (forall p, res = Ok p -> rr_Addresses p <> [] /\ via start (rr_Outbound p) /\
       answered (rr_Outbound p) domain ipv6 (rr_Addresses p) /\ CallLookup (rr_Outbound p) ∈ new).
Proof. apply resolve_loop_ok. Qed.

Section deciding.
Context (ok : M -> Prop) `{!MatcherLaws M ok} (m : M) (m_ok : ok m).
Context (metadata : FlowMetadata) (domain : string) (ipv6 : bool) (cs : list Decision).
Context (Hcs : matcher_Candidates m metadata = Ok cs).

Lemma decide_resolved_ok k f res f' :
  k ∈ cs -> live (DecisionOutbound k) ->
  decide_resolved net routes m metadata k domain ipv6 f = Some (res, f') ->
  exists new, fl_calls f' = fl_calls f ++ new /\ Forall (candidate_lookup cs) new /\ fl_fallbacks f <= fl_fallbacks f' /\
    (forall d prepared, res = Ok (d, prepared) -> new <> [] /\ d ∈ cs /\ decided d domain ipv6 prepared /\
       exists p, CallLookup (rr_Outbound p) ∈ new /\ answered (rr_Outbound p) domain ipv6 (rr_Addresses p) /\
         matcher_MatchResolved m metadata (rr_Addresses p) = Ok d).
Proof.
  intros Hk Hlive. unfold decide_resolved.
  destruct (resolveForDecision _ _ _ _ _ _) as [[x f1]|] eqn:H1; [|done].
  destruct (resolve_ok _ _ _ _ _ _ H1) as (n1 & Hc1 & Hl1 & Hf1 & Hp1).
  pose proof (lookups_of_candidate _ _ _ Hk Hl1) as Hn1.
  destruct x as [p|e]; [|intros [= <- <-]; exists n1; by split_and!].
  destruct (Hp1 p eq_refl) as (Hne & Hvia & Hans & Hcall).
  assert (n1 <> []) as Hnn by (intros ->; by apply elem_of_nil in Hcall).
  destruct (matcher_MatchResolved _ _ _) as [final|e] eqn:Hm; [|intros [= <- <-]; exists n1; by split_and!].
  pose proof (resolved_is_candidate _ _ _ _ _ m_ok Hcs Hm) as Hfin.
  destruct (_ || _) eqn:Heq.
  { intros [= <- <-]. exists n1. split_and!; [done..|]. intros d prepared [= <- <-]. split_and!; [done|done| |by exists p].
    apply orb_true_iff in Heq as [Heq|Heq]; apply bool_decide_eq_true in Heq.
    - rewrite <- Heq in Hvia, Hlive. by split_and!.
    - split_and!; [done| | |done]; rewrite Heq; [split; [apply rtc_refl|]|]; apply Hvia. }
  destruct (routes !! DecisionOutbound final) as [r|] eqn:Hr; [|intros [= <- <-]; exists n1; by split_and!].
  destruct (rt_Reject r) eqn:Hrej.
  { intros [= <- <-]. exists n1. split_and!; [done..|]. intros d prepared [= <- <-]. split_and!; [done|done| |by exists p].
    by exists r. }
  destruct (resolveForDecision net routes (DecisionOutbound final) _ _ _) as [[y f2]|] eqn:H2; [|done].
  destruct (resolve_ok _ _ _ _ _ _ H2) as (n2 & Hc2 & Hl2 & Hf2 & Hp2).
  pose proof (lookups_of_candidate _ _ _ Hfin Hl2) as Hn2.
  assert (Hall : fl_calls f2 = fl_calls f ++ n1 ++ n2 /\ Forall (candidate_lookup cs) (n1 ++ n2) /\
    fl_fallbacks f <= fl_fallbacks f2).
  { rewrite Hc2, Hc1, app_assoc. split_and!; [done|by apply Forall_app|lia]. }
  destruct Hall as (Hca & Hfa & Hle).
  destruct y as [q|e]; intros [= <- <-]; exists (n1 ++ n2); split_and!; try done.
  intros d prepared [= <- <-]. destruct (Hp2 q eq_refl) as (Hne2 & Hvia2 & Hans2 & Hcall2). split_and!.
  - by destruct n1.
  - done.
  - split_and!; [done|done|by exists r|done].
  - exists p. split_and!; [apply elem_of_app; by left|done|done].
Qed.
End deciding.

(** [decideFlow] on a destination with a domain. *)
Lemma decide_flow_ok (ok : M -> Prop) `{!MatcherLaws M ok} m metadata domain literal ipv6 f res f' :
  ok m -> addr_valid literal = false ->
  decideFlow net routes m metadata domain literal ipv6 f = Some (res, f') ->
  (f' = f /\ exists e, res = Err e) \/
  exists cs new, matcher_Candidates m metadata = Ok cs /\
    fl_calls f' = fl_calls f ++ new /\ Forall (candidate_lookup cs) new /\ fl_fallbacks f <= fl_fallbacks f' /\
    (forall d prepared, res = Ok (d, prepared) -> d ∈ cs /\ decided d domain ipv6 prepared /\
       (new = [] -> prepared = None /\ forall k, k ∈ cs -> rejects (DecisionOutbound k)) /\
       (new <> [] -> exists p, CallLookup (rr_Outbound p) ∈ new /\ answered (rr_Outbound p) domain ipv6 (rr_Addresses p) /\
          matcher_MatchResolved m metadata (rr_Addresses p) = Ok d)).
Proof.
  intros Hok Hlit. unfold decideFlow. rewrite Hlit.
  destruct (matcher_Candidates m metadata) as [cs|e] eqn:Hcs; [|intros [= <- <-]; left; eauto].
  destruct (last cs) as [k|] eqn:Hlast; [|intros [= <- <-]; left; eauto].
  apply last_Some in Hlast as [l ->]. rewrite removelast_last.
  assert (Hk : k ∈ l ++ [k]) by (apply elem_of_app; right; by apply list_elem_of_singleton).
  destruct (routes !! DecisionOutbound k) as [r|] eqn:Hr; [|intros [= <- <-]; left; eauto].
  assert (Hres : forall k', k' ∈ l ++ [k] -> live (DecisionOutbound k') ->
    decide_resolved net routes m metadata k' domain ipv6 f = Some (res, f') ->
    (f' = f /\ exists e, res = Err e) \/
    exists cs new, Ok (l ++ [k]) = Ok (E := go_error) cs /\
    fl_calls f' = fl_calls f ++ new /\ Forall (candidate_lookup cs) new /\ fl_fallbacks f <= fl_fallbacks f' /\
    (forall d prepared, res = Ok (d, prepared) -> d ∈ cs /\ decided d domain ipv6 prepared /\
       (new = [] -> prepared = None /\ forall k, k ∈ cs -> rejects (DecisionOutbound k)) /\
       (new <> [] -> exists p, CallLookup (rr_Outbound p) ∈ new /\ answered (rr_Outbound p) domain ipv6 (rr_Addresses p) /\
          matcher_MatchResolved m metadata (rr_Addresses p) = Ok d))).
  { intros k' Hk' Hl' Hd. right. destruct (decide_resolved_ok ok m Hok _ _ _ _ Hcs _ _ _ _ Hk' Hl' Hd) as (new & ? & ? & ? & Hx).
    exists (l ++ [k]), new. split_and!; [done..|]. intros d prepared Hdp. destruct (Hx _ _ Hdp) as (? & ? & ? & ?). by split_and!. }
  destruct (rt_Reject r) eqn:Hrej; [|apply Hres; [done|by exists r]].
  destruct (first_resolvable routes l) as [[k'|]|e] eqn:Hfr; [| |intros [= <- <-]; left; eauto].
  - apply first_resolvable_ok in Hfr as [Hin Hl']. apply Hres; [apply elem_of_app; by left|done].
  - apply first_resolvable_ok in Hfr. intros [= <- <-]. right. exists (l ++ [k]), []. rewrite app_nil_r.
    split_and!; [done|done|constructor|lia|]. intros d prepared [= <- <-].
    assert (rejects (DecisionOutbound k)) by (by exists r). split_and!; [done|done| |done].
    intros _. split; [done|]. intros k'' [Hin| ->%list_elem_of_singleton]%elem_of_app; [by apply Hfr|done].
Qed.

Lemma decide_flow_total m metadata domain literal ipv6 f :
  routes_valid routes -> exists x, decideFlow net routes m metadata domain literal ipv6 f = Some x.
Proof.
  intros Hv. assert (Hr : forall a f, exists x, resolveForDecision net routes a domain ipv6 f = Some x).
  { intros a f0. apply resolve_loop_total. by apply route_fuel_enough. }
  assert (Hd : forall k, exists x, decide_resolved net routes m metadata k domain ipv6 f = Some x).
  { intros k. unfold decide_resolved. destruct (Hr (DecisionOutbound k) f) as [[[p|e] f1] ->]; [|eauto].
    destruct (matcher_MatchResolved _ _ _) as [final|e]; [|eauto]. destruct (_ || _); [eauto|].
    destruct (routes !! _) as [r|]; [|eauto]. destruct (rt_Reject r); [eauto|].
    destruct (Hr (DecisionOutbound final) f1) as [[[q|e] f2] ->]; eauto. }
  unfold decideFlow. destruct (addr_valid literal); [eauto|]. destruct (matcher_Candidates _ _) as [cs|e]; [|eauto].
  destruct (last cs) as [k|]; [|eauto]. destruct (routes !! _) as [r|]; [|eauto]. destruct (rt_Reject r); [|apply Hd].
  destruct (first_resolvable _ _) as [[k'|]|e]; [apply Hd|eauto|eauto].
Qed.

(** ** One flow *)

(** The outbounds a flow may start at: those of its candidates, or the one
    its literal destination decides. *)
Definition policy_outbound (m : M) (metadata : FlowMetadata) (literal : addr) (o : string) : Prop :=
  (exists cs k, matcher_Candidates m metadata = Ok cs /\ k ∈ cs /\ o = DecisionOutbound k) \/
  (exists d, addr_valid literal = true /\ matcher_MatchResolved m metadata [literal] = Ok d /\ o = DecisionOutbound d).

(** A call that the policy of the flow allows. *)
Definition allowed_call (m : M) (metadata : FlowMetadata) (domain : string) (literal : addr) (ipv6 : bool) (port : Z)
    (c : call) : Prop :=
  exists start, policy_outbound m metadata literal start /\ proper_call start domain literal ipv6 port c.

Lemma proper_call_via a b domain literal ipv6 port c :
  rtc next a b -> proper_call b domain literal ipv6 port c -> proper_call a domain literal ipv6 port c.
Proof.
  intros Hab. assert (Hv : forall o, via b o -> via a o) by (intros o [? ?]; split; [by etrans|done]).
  destruct c as [o|o [x p] d|o|o]; cbn; auto. intros (? & ? & ?). auto.
Qed.

(** The decision of a flow that starts with no calls. *)
Lemma decide_allowed (ok : M -> Prop) `{!MatcherLaws M ok} m metadata domain literal ipv6 port w res f :
  ok m -> decideFlow net routes m metadata domain literal ipv6 (MkFlow w [] 0) = Some (res, f) ->
  Forall (allowed_call m metadata domain literal ipv6 port) (fl_calls f) /\ open_connections (fl_calls f) = 0 /\
  0 <= fl_fallbacks f /\
  (forall d prepared, res = Ok (d, prepared) ->
     policy_outbound m metadata literal (DecisionOutbound d) /\
     forall p, prepared = Some p -> rtc next (DecisionOutbound d) (rr_Outbound p) /\
       answered (rr_Outbound p) domain ipv6 (rr_Addresses p)).
Proof.
  intros Hok Hd. destruct (addr_valid literal) eqn:Hlit.
  - unfold decideFlow in Hd. rewrite Hlit in Hd. injection Hd as Hres <-. cbn. split_and!; [constructor|done|lia|].
    destruct (matcher_MatchResolved _ _ _) as [d|e] eqn:Hm; [|by rewrite <- Hres]. rewrite <- Hres.
    intros d' prepared [= <- <-]. split; [|done]. right. eauto.
  - destruct (decide_flow_ok ok _ _ _ _ _ _ _ _ Hok Hlit Hd) as [(-> & e & ->)|(cs & new & Hcs & Hc & Hall & Hle & Hres)].
    { cbn. split_and!; [constructor|done|lia|done]. }
    cbn in Hc, Hle. rewrite Hc. split_and!; [| |done|].
    + eapply Forall_impl; [done|]. intros c (k & Hk & Hc'). exists (DecisionOutbound k). split; [left; eauto|].
      by apply lookup_call_proper.
    + clear -Hall. induction Hall as [|c l (k & _ & o & -> & _) _ IH]; done.
    + intros d prepared Hdp. destruct (Hres _ _ Hdp) as (Hin & Hdec & _). split; [left; eauto|].
      intros p ->. by destruct Hdec as (_ & [? _] & _ & ?).
Qed.

(** The connection of a flow, from a decision on. *)
Lemma connect_allowed attempt m metadata domain literal port ipv6 d prepared f res f' :
  dials_once attempt -> policy_outbound m metadata literal (DecisionOutbound d) ->
  (forall p, prepared = Some p -> rtc next (DecisionOutbound d) (rr_Outbound p) /\
       answered (rr_Outbound p) domain ipv6 (rr_Addresses p)) ->
  connect_from net routes attempt (DecisionOutbound d) domain literal port ipv6 prepared f = Some (res, f') ->
  exists new, fl_calls f' = fl_calls f ++ new /\ fl_fallbacks f <= fl_fallbacks f' /\
    Forall (allowed_call m metadata domain literal ipv6 port) new /\ open_connections new = left_open res /\
    (forall conn selected, res = Ok (conn, selected) -> 
       allowed_call m metadata domain literal ipv6 port (CallClose selected)).
Proof.
  intros Hat Hpol Hprep Hc. apply connect_loop_ok in Hc; [|done|intros p Hp; by apply Hprep].
  destruct Hc as (new & Hcalls & Hle & Hall & Hopen & Hsel). exists new.
  assert (Hr : rtc next (DecisionOutbound d) match prepared with Some p => rr_Outbound p | None => DecisionOutbound d end).
  { destruct prepared as [p|]; [by apply Hprep|apply rtc_refl]. }
  split_and!; [done|done| |done|].
  - eapply Forall_impl; [done|]. intros c Hcc. exists (DecisionOutbound d). split; [done|]. by eapply proper_call_via.
  - intros conn selected Hx. exists (DecisionOutbound d). split; [done|]. eapply proper_call_via; [done|]. cbn. by eapply Hsel.
Qed.

Lemma connect_from_total attempt outbound domain literal port ipv6 prepared f :
  routes_valid routes -> exists x, connect_from net routes attempt outbound domain literal port ipv6 prepared f = Some x.
Proof. intros Hv. apply connect_loop_total. by apply route_fuel_enough. Qed.
End flows.

(** The rules engine keeps the laws of a matcher. *)
#[export] Instance engine_laws : MatcherLaws Engine has_default.
Proof.
  split.
  - intros engine metadata cs _ H. cbn in H. inv_result.
    apply Candidates_Ok in H as (d & r & _ & _ & ->). by destruct (decision_of <$> _).
  - intros engine metadata cs addresses dec Hok Hc Hm. cbn in Hc, Hm. inv_result.
    apply Candidates_Ok in Hc as (d & r & Hd & Hr & ->).
    apply MatchResolved_Ok in Hm as (_ & d' & w & Hd' & Hw & ->). assert (d' = d) as -> by congruence.
    destruct (first_match_weaken (conclusive d) (rule_matches d addresses) engine r) as (w' & Hw' & Hin);
      [apply conclusive_matches|done|]. assert (w' = w) as -> by congruence.
    apply elem_of_app. destruct Hin as [->|Hin]; [right; by apply list_elem_of_singleton|left].
    apply list_elem_of_fmap_2, list_elem_of_filter. split; [|done].
    apply first_match_Some in Hw as (? & ? & _ & Hw & _). unfold rule_matches in Hw. to_prop. done.
Qed.
