(* ===== verification/SessionProperties.v ===== *)
(** * Component [internal/session]: properties *)

From S2P Require Import Prelude.
From S2P Require Import GoStrings.
From S2P Require Import NetIP.
From S2P Require Import ConfigTypes.
From S2P Require Import ConfigCompile.
From S2P Require Import ConfigFacts.
From S2P Require Import Outbound.
From S2P Require Import Resolver.
From S2P Require Import Rules.
From S2P Require Import Relay.
From S2P Require Import Session.
From S2P Require Import SessionHandle.
From S2P Require Import SessionFacts.

(** ** Construction *)

(** A route that a TCP session can use. *)
Definition tcp_route_ok {R D PD} (name : string) (r : Route R D PD) : Prop :=
  name <> "" /\ rt_Name r = name /\
  if rt_Reject r then rt_Resolver r = None /\ rt_Dialer r = None /\ rt_Fallback r = ""
  else is_Some (rt_Resolver r) /\ is_Some (rt_Dialer r).

Lemma present_false {A} (o : option A) : present o = false <-> o = None.
Proof. by destruct o. Qed.

Lemma present_true {A} (o : option A) : present o = true <-> is_Some o.
Proof. destruct o; cbn; split; try done; by intros [? ?]. Qed.

Lemma check_tcp_route_Ok {R D PD} name (r : Route R D PD) : check_tcp_route name r = Ok tt <-> tcp_route_ok name r.
Proof.
  unfold check_tcp_route, tcp_route_ok. rewrite guard_err_Ok, orb_false_iff, negb_false_iff, bool_decide_eq_false, bool_decide_eq_true.
  destruct (rt_Reject r); rewrite guard_err_Ok, ?orb_false_iff, ?negb_false_iff, ?bool_decide_eq_true, ?present_false, ?present_true;
    naive_solver.
Qed.

Section construction.
Context {P M R D PD : Type}.

Lemma NewTCP_Ok (p : P) (m : M) (routes : gmap string (Route R D PD)) timeout t :
  NewTCP (Some p) (Some m) routes timeout = Ok t <->
  routes <> ∅ /\ 0 < timeout /\ (forall name r, routes !! name = Some r -> tcp_route_ok name r) /\
  routes_valid routes /\ t = MkTCP m routes timeout.
Proof.
  unfold NewTCP. rewrite !guard_err_Ok, bool_decide_eq_false, Z.leb_gt, bind_Ok. setoid_rewrite bind_Ok.
  setoid_rewrite <- check_tcp_route_Ok. rewrite <- (check_routes_spec routes check_tcp_route).
  rewrite <- (validate_routes_spec routes (route_names routes) (elem_of_route_names routes)). split.
  - intros (? & ? & [] & ? & [] & ? & [= <-]). by split_and!.
  - intros (? & ? & ? & ? & ->). split_and!; [done|done|]. exists tt. split; [done|]. by exists tt.
Qed.

(** [NewTCP] accepts a route table exactly when it is not empty, its
    grace timeout is positive, every route is complete under its own name (a
    reject route has neither resolver, dialer nor fallback), every fallback is
    configured and the fallback relation has no cycle; it keeps the routes as
    they are, and the verdict on the fallbacks does not depend on the order in
    which the map is ranged over. *)
Theorem new_tcp_spec (p : P) (m : M) (routes : gmap string (Route R D PD)) (timeout : Z) (t : TCP M R D PD)
    (order : list string) :
  order ≡ₚ route_names routes ->
  (NewTCP (Some p) (Some m) routes timeout = Ok t <->
   routes <> ∅ /\ 0 < timeout /\ (forall name r, routes !! name = Some r -> tcp_route_ok name r) /\
   routes_valid routes /\ t = MkTCP m routes timeout) /\
  (validate_routes_in order routes = Ok tt <-> routes_valid routes).
Proof.
  intros Horder. split; [apply NewTCP_Ok|]. apply validate_routes_spec. intros a. rewrite Horder. apply elem_of_route_names.
Qed.
End construction.

(** Two routes, one falling back to the other, and a reject route; resolvers
    and dialers are the names of their routes. *)
Definition demo_routes : gmap string (Route string string string) :=
  <["vpn" := MkRoute "vpn" false (Some "vpn") (Some "vpn") (Some "vpn") "lan"]>
  (<["lan" := MkRoute "lan" false (Some "lan") (Some "lan") (Some "lan") ""]>
  (<["no" := MkRoute "no" true None None None ""]> ∅)).

(** The resolver of [vpn] times out, the one of [lan] answers; every dial
    succeeds. *)
Definition demo_net : network unit string string string unit := {|
  net_LookupIPv4 r _ w := (if bool_decide (r = "lan") then Ok [Addr4 0x0a000001] else Err (DeadlineExceeded), w);
  net_LookupIPv6 _ _ w := (Ok [], w);
  net_dial _ _ _ w := (Ok tt, w);
  net_dial_packet _ _ w := (Ok tt, w);
  net_write _ data w := (slen data, None, w)
|}.

(** Private addresses of a.com go through [vpn], everything else is refused. *)
Definition demo_engine : Engine :=
  compile_rule <$> [MkRule 1 ["a.com"] [] [prefix_from (Addr4 0x0a000000) 8] "vpn"; MkRule 2 [] [] [] "no"].

Lemma demo_has_default : has_default demo_engine.
Proof.
  apply (New_has_default [MkRule 1 ["a.com"] [] [prefix_from (Addr4 0x0a000000) 8] "vpn"; MkRule 2 [] [] [] "no"]). done.
Qed.

(** A pool with one mapping, never removed. *)
Definition demo_pool : MappingPool unit unit := {|
  pool_Acquire _ p := (Ok ("a.com", tt), p);
  pool_release _ p := p
|}.

Definition demo_flow : Flow := MkTransportFlow (Addr4 1) 5000 (Addr4 0xc6120001) 443.

(** Both directions of a relay end cleanly. *)
Definition demo_relay (conn w : unit) : list relay_event * unit :=
  ([Copied ClientToUpstream None; Copied UpstreamToClient None], w).

Lemma new_tcp_spec_witness :
  exists t, NewTCP (Some tt) (Some demo_engine) demo_routes 5 = Ok t /\ routes_valid demo_routes.
Proof.
  exists (MkTCP demo_engine demo_routes 5).
  destruct (new_tcp_spec tt demo_engine demo_routes 5 (MkTCP demo_engine demo_routes 5) (route_names demo_routes) (Permutation_refl _)) as [Hnew Hval].
  assert (H : routes_valid demo_routes) by (apply Hval; vm_compute; reflexivity).
  split; [vm_compute; reflexivity|exact H].
Defined.

(** ** Termination *)

Section flows.
Context {P H W R D PD Conn M : Type} `{MappingPool P H} `{Matcher M} (net : network W R D PD Conn).

(** C31: on the routes of a session every decision and every connection
    returns, for whatever the resolvers and dialers do: the fallbacks end.  So
    a TCP flow returns as soon as the relay of its connection does. *)
Theorem sessions_terminate (p0 : P) (m0 : M) (routes : gmap string (Route R D PD)) (timeout : Z) (t : TCP M R D PD)
    (io : Conn -> W -> list relay_event * W) :
  NewTCP (Some p0) (Some m0) routes timeout = Ok t ->
  (forall metadata domain literal ipv6 f, is_Some (decideFlow net (tcp_routes t) (tcp_matcher t) metadata domain literal ipv6 f)) /\
  (forall outbound domain literal port ipv6 prepared f,
     is_Some (connectPrepared net (tcp_routes t) outbound domain literal port ipv6 prepared f)) /\
  (forall outbound domain literal port ipv6 first prepared f,
     is_Some (connectAndSendPrepared net (tcp_routes t) outbound domain literal port ipv6 first prepared f)) /\
  ((forall conn w, is_Some (Relay timeout (io conn w).1)) ->
   forall fl p w s, is_Some (Handle_tcp net t io fl p w s)).
Proof.
  intros (_ & _ & _ & Hv & ->)%NewTCP_Ok. cbn [tcp_routes tcp_matcher].
  assert (Hd : forall metadata domain literal ipv6 f,
    is_Some (decideFlow net routes m0 metadata domain literal ipv6 f)).
  { intros. destruct (decide_flow_total net routes m0 metadata domain literal ipv6 f Hv) as [x ->]. by eexists. }
  assert (Hc : forall attempt outbound domain literal port ipv6 prepared f,
    is_Some (connect_from net routes attempt outbound domain literal port ipv6 prepared f)).
  { intros. edestruct (connect_from_total net routes) as [x ->]; [done|]. by eexists. }
  split_and!; [done|intros; apply Hc|intros; apply Hc|].
  intros Hrelay fl p w s. unfold Handle_tcp. cbn [tcp_routes tcp_matcher tcp_relayTimeout].
  destruct (pool_Acquire _ _) as [[[domain h]|e] p']; [|by eexists].
  destruct (Hd (flow_metadata fl domain) domain (flow_literal fl domain) (flow_ipv6 fl) (MkFlow w [] 0))
    as [[[[d prepared]|e] f] ->]; [|by eexists].
  unfold connectPrepared. destruct (Hc (attempt_tcp net (flow_ipv6 fl)) (DecisionOutbound d) domain (flow_literal fl domain)
    (tf_DestinationPort fl) (flow_ipv6 fl) prepared f) as [[[[conn selected]|e] f'] ->]; [|by eexists].
  specialize (Hrelay conn (fl_world f')). destruct (io conn (fl_world f')) as [evs w'].
  destruct Hrelay as [r Hr]. cbn in Hr. rewrite Hr. destruct r; by eexists.
Qed.
End flows.

Lemma sessions_terminate_witness :
  NewTCP (Some tt) (Some demo_engine) demo_routes 5 = Ok (MkTCP demo_engine demo_routes 5) /\
  is_Some (Handle_tcp (H0 := demo_pool) demo_net (MkTCP demo_engine demo_routes 5) demo_relay demo_flow tt tt
             (MkStats 0 0 0 0 0 0)).
Proof.
  split; [vm_compute; reflexivity|].
  apply (sessions_terminate (H0 := demo_pool) demo_net tt demo_engine demo_routes 5 (MkTCP demo_engine demo_routes 5) demo_relay).
  - vm_compute. reflexivity.
  - intros conn w. eexists. reflexivity.
Defined.

(** ** Decisions *)

Section deciding.
Context {W R D PD Conn M : Type} `{Matcher M} (net : network W R D PD Conn) (routes : gmap string (Route R D PD)).

(** C30: the decision on a flow.  A literal destination, of a flow without a
    domain, is decided by the rules on this address, without any lookup.  For
    a domain the decision is one of the candidate rules; only resolvers of
    live outbounds that a candidate reaches by fallbacks are asked.  Either some were asked, and the rule is the one that matches the
    addresses which an asked outbound gave; or none were, and then every
    answer would have been refused.  The decision comes with addresses of its
    own outbound or of a fallback of it, unless its outbound rejects, and then
    with none. *)
Theorem decision_policy (ok : M -> Prop) `{!MatcherLaws M ok} (m : M) (metadata : FlowMetadata) (domain : string)
    (literal : addr) (ipv6 : bool) (f f' : flow W) (d : Decision) (prepared : option routeResolution) :
  ok m -> decideFlow net routes m metadata domain literal ipv6 f = Some (Ok (d, prepared), f') ->
  (addr_valid literal = true -> f' = f /\ prepared = None /\ matcher_MatchResolved m metadata [literal] = Ok d) /\
  (addr_valid literal = false -> exists cs new, matcher_Candidates m metadata = Ok cs /\ d ∈ cs /\
    fl_calls f' = fl_calls f ++ new /\ Forall (candidate_lookup routes cs) new /\
    decided net routes d domain ipv6 prepared /\
    (new <> [] -> exists p, CallLookup (rr_Outbound p) ∈ new /\ answered net routes (rr_Outbound p) domain ipv6 (rr_Addresses p) /\
       matcher_MatchResolved m metadata (rr_Addresses p) = Ok d) /\
    (new = [] -> forall addresses d', matcher_MatchResolved m metadata addresses = Ok d' -> rejects routes (DecisionOutbound d'))).
Proof.
  intros Hok Hd. split; intros Hlit.
  { unfold decideFlow in Hd. rewrite Hlit in Hd. destruct (matcher_MatchResolved m metadata [literal]) as [d0|e]; [|done]. by injection Hd as -> <- <-. }
  destruct (decide_flow_ok net routes ok _ _ _ _ _ _ _ _ Hok Hlit Hd) as [(_ & e & He)|(cs & new & Hcs & Hc & Hall & _ & Hres)]; [done|].
  destruct (Hres _ _ eq_refl) as (Hin & Hdec & Hnone & Hsome). exists cs, new. split_and!; try done.
  intros Hnew addresses d' Hm. destruct (Hnone Hnew) as [_ Hrej]. apply Hrej. by eapply resolved_is_candidate.
Qed.
End deciding.

Lemma decision_policy_witness :
  let metadata := MkFlowMetadata "a.com" (Addr4 0xc6120001) (Addr4 0xc6120001) (Addr4 1) 5000 in
  exists f' prepared, decideFlow demo_net demo_routes demo_engine metadata "a.com" AddrZero false (MkFlow tt [] 0) =
    Some (Ok (MkDecision 1 "vpn", prepared), f') /\ fl_calls f' = [CallLookup "vpn"; CallLookup "lan"] /\
    decided demo_net demo_routes (MkDecision 1 "vpn") "a.com" false prepared.
Proof.
  intros metadata. eexists. eexists. split; [vm_compute; reflexivity|]. split; [reflexivity|].
  destruct (decision_policy demo_net demo_routes has_default demo_engine metadata "a.com" AddrZero false (MkFlow tt [] 0)
    (MkFlow tt [CallLookup "vpn"; CallLookup "lan"] 1) (MkDecision 1 "vpn") (Some (MkResolution "lan" [Addr4 0x0a000001])))
    as [_ Hdomain].
  - exact demo_has_default.
  - vm_compute. reflexivity.
  - destruct (Hdomain eq_refl) as (cs & new & _ & _ & _ & _ & Hdec & _). exact Hdec.
Defined.

(** ** Whole flows *)

Section handling.
Context {P H W R D PD Conn M : Type} `{MappingPool P H} `{Matcher M} (net : network W R D PD Conn).
Context (ok : M -> Prop) `{!MatcherLaws M ok}.

(** The calls that the policy allows a flow of a domain. *)
Definition flow_call (m : M) (routes : gmap string (Route R D PD)) (fl : Flow) (domain : string) : call -> Prop :=
  allowed_call net routes m (flow_metadata fl domain) domain (flow_literal fl domain) (flow_ipv6 fl) (tf_DestinationPort fl).

(** What a flow leaves behind: no open connection, and only allowed calls. *)
Definition isolated {S} (m : M) (routes : gmap string (Route R D PD)) (fl : Flow) (p : P) (h : handled P W S) : Prop :=
  open_connections (hd_calls h) = 0 /\
  (hd_calls h <> [] -> exists domain x, fst (pool_Acquire (tf_DestinationIP fl) p) = Ok (domain, x) /\
     Forall (flow_call m routes fl domain) (hd_calls h)).

Lemma tcp_isolated (t : TCP M R D PD) (io : Conn -> W -> list relay_event * W) (fl : Flow) (p : P) (w : W)
    (s : Stats) (h : handled P W Stats) :
  ok (tcp_matcher t) -> Handle_tcp net t io fl p w s = Some h -> isolated (tcp_matcher t) (tcp_routes t) fl p h.
Proof.
  intros Hok. unfold Handle_tcp, isolated.
  destruct (pool_Acquire _ _) as [[[domain x]|e] p'] eqn:Ha; [|by intros [= <-]]. cbn [fst].
  destruct (decideFlow _ _ _ _ _ _ _ _) as [[res f]|] eqn:Hd; [|done].
  destruct (decide_allowed net _ ok _ _ _ _ _ (tf_DestinationPort fl) _ _ _ Hok Hd) as (Hall & Hopen & _ & Hdec).
  destruct res as [[d prepared]|e]; [|intros [= <-]; cbn; split; [done|eauto]].
  destruct (Hdec _ _ eq_refl) as [Hpol Hprep].
  destruct (connectPrepared _ _ _ _ _ _ _ _ _) as [[res f']|] eqn:Hc; [|done].
  destruct (connect_allowed net _ _ (tcp_matcher t) (flow_metadata fl domain) _ _ _ _ _ _ _ _ _ (attempt_tcp_dials net _) Hpol Hprep Hc)
    as (new & Hcalls & _ & Hall' & Hopen' & Hsel).
  assert (Hboth : Forall (flow_call (tcp_matcher t) (tcp_routes t) fl domain) (fl_calls f')).
  { rewrite Hcalls. by apply Forall_app. }
  destruct res as [[conn selected]|e]; cbn [left_open is_ok] in Hopen'.
  - destruct (io conn (fl_world f')) as [evs w'].
    assert (open_connections (fl_calls f' ++ [CallClose selected]) = 0 /\
      Forall (flow_call (tcp_matcher t) (tcp_routes t) fl domain) (fl_calls f' ++ [CallClose selected])) as [Hz Hf].
    { rewrite open_connections_app, Hcalls, open_connections_app. split; [cbn; lia|]. rewrite <- Hcalls.
      apply Forall_app. split; [done|]. apply Forall_singleton. by eapply Hsel. }
    destruct (Relay _ _) as [[e|]|]; [| |done]; intros [= <-]; cbn; (split; [done|eauto]).
  - intros [= <-]. cbn. rewrite Hcalls, open_connections_app. split; [lia|]. rewrite <- Hcalls. eauto.
Qed.

Lemma udp_isolated (u : UDP M R D PD) (io : udp_io) (fl : Flow) (l l' : UDPLimiter) (p : P) (w : W) (s : UDPStats)
    (h : handled P W UDPStats) :
  ok (udp_matcher u) -> Handle_udp net u io fl l p w s = Some (h, l') -> isolated (udp_matcher u) (udp_routes u) fl p h.
Proof.
  intros Hok. unfold Handle_udp, isolated. destruct (register _ _) as [l1|e]; [|by intros [= <- _]].
  destruct (pool_Acquire _ _) as [[[domain x]|e] p'] eqn:Ha; [|by intros [= <- _]]. cbn [fst].
  destruct (decideFlow _ _ _ _ _ _ _ _) as [[res f]|] eqn:Hd; [|done].
  destruct (decide_allowed net _ ok _ _ _ _ _ (tf_DestinationPort fl) _ _ _ Hok Hd) as (Hall & Hopen & _ & Hdec).
  destruct res as [[d prepared]|e]; [|intros [= <- _]; cbn; split; [done|eauto]].
  destruct (Hdec _ _ eq_refl) as [Hpol Hprep].
  destruct (io_deadline io) as [e|]; [intros [= <- _]; cbn; split; [done|eauto]|].
  destruct (io_first io) as [first|e]; [|destruct (isTimeout e); intros [= <- _]; cbn; (split; [done|eauto])].
  destruct (connectAndSendPrepared _ _ _ _ _ _ _ _ _ _) as [[res f']|] eqn:Hc; [|done].
  destruct (connect_allowed net _ _ (udp_matcher u) (flow_metadata fl domain) _ _ _ _ _ _ _ _ _ (attempt_udp_dials net _) Hpol Hprep Hc)
    as (new & Hcalls & _ & Hall' & Hopen' & Hsel).
  assert (Hboth : Forall (flow_call (udp_matcher u) (udp_routes u) fl domain) (fl_calls f')).
  { rewrite Hcalls. by apply Forall_app. }
  destruct res as [[conn selected]|e]; cbn [left_open is_ok] in Hopen'.
  - destruct (io_relay io conn (fl_world f')) as [evs w'].
    assert (open_connections (fl_calls f' ++ [CallClose selected]) = 0 /\
      Forall (flow_call (udp_matcher u) (udp_routes u) fl domain) (fl_calls f' ++ [CallClose selected])) as [Hz Hf].
    { rewrite open_connections_app, Hcalls, open_connections_app. split; [cbn; lia|]. rewrite <- Hcalls.
      apply Forall_app. split; [done|]. apply Forall_singleton. by eapply Hsel. }
    destruct (relayUDP _ _) as [[[[e|] n] c]|]; [destruct (errors_is _ _)| |done]; intros [= <- _]; cbn; (split; [done|eauto]).
  - intros [= <- _]. cbn. rewrite Hcalls, open_connections_app. split; [lia|]. rewrite <- Hcalls. eauto.
Qed.

(** C29: the isolation of flows.  All calls of a TCP or UDP flow go through
    outbounds that do not reject and that the outbound of a candidate rule
    reaches by fallbacks; a dial goes to the port of the flow, and to an
    address which the resolver of that same outbound gave for the domain of
    the mapping (or to the literal destination when there is no domain); and
    every connection that was opened is closed. *)
Theorem flow_isolation (t : TCP M R D PD) (u : UDP M R D PD) (fl : Flow) (p : P) (w : W) :
  (ok (tcp_matcher t) -> forall io s h, Handle_tcp net t io fl p w s = Some h ->
     isolated (tcp_matcher t) (tcp_routes t) fl p h) /\
  (ok (udp_matcher u) -> forall io l s h l', Handle_udp net u io fl l p w s = Some (h, l') ->
     isolated (udp_matcher u) (udp_routes u) fl p h).
Proof. split; intros; [by eapply tcp_isolated|by eapply udp_isolated]. Qed.
End handling.

Definition demo_tcp : TCP Engine string string string := MkTCP demo_engine demo_routes 5.
Definition demo_udp : UDP Engine string string string := MkUDP demo_engine demo_routes (MkUDPConfig 5 4 2).
Definition demo_stats : Stats := MkStats 0 0 0 0 0 0.

Lemma flow_isolation_witness :
  exists h, Handle_tcp (H0 := demo_pool) demo_net demo_tcp demo_relay demo_flow tt tt demo_stats = Some h /\
    hd_calls h = [CallLookup "vpn"; CallLookup "lan"; CallDial "lan" (AddrPort (Addr4 0x0a000001) 443) true; CallClose "lan"] /\
    isolated (H0 := demo_pool) demo_net demo_engine demo_routes demo_flow tt h.
Proof.
  eexists. split; [vm_compute; reflexivity|]. split; [reflexivity|].
  apply (proj1 (flow_isolation (H0 := demo_pool) demo_net has_default demo_tcp demo_udp demo_flow tt tt)
    demo_has_default demo_relay demo_stats). vm_compute. reflexivity.
Defined.
