(* ===== verification/SessionAccounting.v ===== *)
(** * Component [internal/session]: limits and accounting

    The UDP limiter against the set of registered sessions, and what one flow
    leaves in the counters, the limiter and the address pool. *)

From S2P Require Import Prelude.
From S2P Require Import GoStrings.
From S2P Require Import NetIP.
From S2P Require Import Outbound.
From S2P Require Import Resolver.
From S2P Require Import Rules.
From S2P Require Import Relay.
From S2P Require Import Session.
From S2P Require Import SessionHandle.
From S2P Require Import SessionFacts.
From S2P Require Import SessionProperties.

(** ** The limiter *)

(** The registered sessions of a source. *)
Definition of_source (source : addr) (sessions : gset UDPKey) : gset UDPKey :=
  filter (fun k => key_SourceIP k = source) sessions.

Definition source_count (source : addr) (sessions : gset UDPKey) : Z := Z.of_nat (size (of_source source sessions)).

(** The counts are those of the set, and both limits hold. *)
Record limiter_ok (l : UDPLimiter) : Prop := {
  lo_limits : 0 < lim_maxPerSource l <= lim_maxSessions l;
  lo_size : Z.of_nat (size (lim_sessions l)) <= lim_maxSessions l;
  lo_counts source : lim_perSource l !! source =
    (if source_count source (lim_sessions l) =? 0 then None else Some (source_count source (lim_sessions l)));
  lo_source source : source_count source (lim_sessions l) <= lim_maxPerSource l
}.

Lemma per_source_count l source : limiter_ok l -> per_source l source = source_count source (lim_sessions l).
Proof. intros Hl. unfold per_source. rewrite (lo_counts l Hl). destruct (Z.eqb_spec (source_count source (lim_sessions l)) 0); cbn; lia. Qed.

Lemma source_count_add source key sessions :
  key ∉ sessions ->
  source_count source ({[key]} ∪ sessions) =
    source_count source sessions + (if bool_decide (key_SourceIP key = source) then 1 else 0).
Proof.
  intros Hk. unfold source_count, of_source. case_bool_decide as Hs.
  - assert (filter (fun k => key_SourceIP k = source) ({[key]} ∪ sessions) =
      {[key]} ∪ filter (fun k => key_SourceIP k = source) sessions) as -> by set_solver.
    rewrite size_union by set_solver. rewrite size_singleton. lia.
  - assert (filter (fun k => key_SourceIP k = source) ({[key]} ∪ sessions) =
      filter (fun k => key_SourceIP k = source) sessions) as -> by set_solver. lia.
Qed.

Lemma source_count_remove source key sessions :
  key ∈ sessions ->
  source_count source (sessions ∖ {[key]}) =
    source_count source sessions - (if bool_decide (key_SourceIP key = source) then 1 else 0).
Proof.
  intros Hk. rewrite (union_difference_singleton_L key sessions Hk) at 2. rewrite source_count_add by set_solver. lia.
Qed.

Lemma register_Ok key l l' :
  limiter_ok l ->
  register key l = Ok l' <->
  key ∉ lim_sessions l /\ Z.of_nat (size (lim_sessions l)) < lim_maxSessions l /\
  source_count (key_SourceIP key) (lim_sessions l) < lim_maxPerSource l /\
  l' = MkUDPLimiter (lim_maxSessions l) (lim_maxPerSource l) ({[key]} ∪ lim_sessions l)
        (<[key_SourceIP key := source_count (key_SourceIP key) (lim_sessions l) + 1]> (lim_perSource l)).
Proof.
  intros Hl. unfold register. rewrite !guard_err_Ok, bool_decide_eq_false, !Z.leb_gt, per_source_count by done.
  split; [intros (? & ? & ? & [= <-])|intros (? & ? & ? & ->)]; by split_and!.
Qed.

Lemma source_count_nonneg source sessions : 0 <= source_count source sessions.
Proof. unfold source_count. lia. Qed.

Lemma register_limiter_ok key l l' : limiter_ok l -> register key l = Ok l' -> limiter_ok l'.
Proof.
  intros Hl (Hk & Hsz & Hsrc & ->)%register_Ok; [|done]. destruct Hl as [Hlim Hsize Hcounts Hsource]. split; cbn.
  - done.
  - rewrite size_union by set_solver. rewrite size_singleton. lia.
  - intros source. rewrite source_count_add by done. pose proof (source_count_nonneg source (lim_sessions l)).
    case_bool_decide as Hs.
    + subst source. rewrite lookup_insert_eq. by destruct (Z.eqb_spec (source_count (key_SourceIP key) (lim_sessions l) + 1) 0); [lia|].
    + rewrite lookup_insert_ne by done. by rewrite Hcounts, Z.add_0_r.
  - intros source. rewrite source_count_add by done. case_bool_decide as Hs; [subst source; lia|]. specialize (Hsource source). lia.
Qed.

Lemma unregister_limiter_ok key l : limiter_ok l -> limiter_ok (unregister key l).
Proof.
  intros Hl. unfold unregister. case_bool_decide as Hk; [|done]. rewrite per_source_count by done.
  destruct Hl as [Hlim Hsize Hcounts Hsource]. split; cbn.
  - done.
  - assert (size (lim_sessions l ∖ {[key]}) <= size (lim_sessions l))%nat by (apply subseteq_size; set_solver). lia.
  - intros source. rewrite source_count_remove by done. case_bool_decide as Hs.
    + subst source. destruct (Z.eqb_spec (source_count (key_SourceIP key) (lim_sessions l) - 1) 0);
        [by rewrite lookup_delete_eq|by rewrite lookup_insert_eq].
    + rewrite Z.sub_0_r. rewrite <- Hcounts. destruct (_ =? _); [by rewrite lookup_delete_ne|by rewrite lookup_insert_ne].
  - intros source. rewrite source_count_remove by done. specialize (Hsource source). case_bool_decide; lia.
Qed.

(** Giving back a registration restores the limiter. *)
Lemma unregister_register key l l' : limiter_ok l -> register key l = Ok l' -> unregister key l' = l.
Proof.
  intros Hl Hr. pose proof (register_limiter_ok _ _ _ Hl Hr) as Hl'.
  apply register_Ok in Hr as (Hk & _ & _ & ->); [|done]. unfold unregister. rewrite per_source_count by done. cbn [lim_sessions] in *.
  rewrite bool_decide_true by set_solver. rewrite source_count_add, bool_decide_true by done. cbn [lim_maxSessions lim_maxPerSource lim_perSource].
  replace (({[key]} ∪ lim_sessions l) ∖ {[key]}) with (lim_sessions l) by set_solver.
  rewrite Z.add_simpl_r. destruct l as [a b ss ps]. cbn in *. f_equal.
  pose proof (lo_counts _ Hl (key_SourceIP key)) as Hc. cbn in Hc. destruct (_ =? _).
  - rewrite delete_insert_eq. by apply delete_id.
  - rewrite insert_insert_eq. by apply insert_id.
Qed.

(** The uses of a limiter. *)
Inductive limiter_op : Type := Register (key : UDPKey) | Unregister (key : UDPKey).

Definition limiter_step (l : UDPLimiter) (op : limiter_op) : UDPLimiter :=
  match op with
  | Register key => match register key l with Ok l' => l' | Err _ => l end
  | Unregister key => unregister key l
  end.

(** The specification: a set of sessions with two limits. *)
Definition spec_step (maxSessions maxPerSource : Z) (sessions : gset UDPKey) (op : limiter_op) : gset UDPKey :=
  match op with
  | Register key =>
      if bool_decide (key ∉ sessions) && (Z.of_nat (size sessions) <? maxSessions) &&
         (source_count (key_SourceIP key) sessions <? maxPerSource)
      then {[key]} ∪ sessions else sessions
  | Unregister key => sessions ∖ {[key]}
  end.

Lemma limiter_step_refines l op :
  limiter_ok l ->
  limiter_ok (limiter_step l op) /\ lim_maxSessions (limiter_step l op) = lim_maxSessions l /\
  lim_maxPerSource (limiter_step l op) = lim_maxPerSource l /\
  lim_sessions (limiter_step l op) = spec_step (lim_maxSessions l) (lim_maxPerSource l) (lim_sessions l) op.
Proof.
  intros Hl. destruct op as [key|key]; cbn [limiter_step spec_step].
  - destruct (register key l) as [l'|e] eqn:Hr.
    + pose proof (register_limiter_ok _ _ _ Hl Hr). apply register_Ok in Hr as (Hk & Hs & Hc & ->); [|done].
      split_and!; try done. cbn. apply Z.ltb_lt in Hs, Hc. by rewrite bool_decide_true, Hs, Hc.
    + split_and!; try done. destruct (bool_decide (key ∉ lim_sessions l) && _ && _) eqn:Hb; [|done].
      apply andb_true_iff in Hb as [[Hk Hs]%andb_true_iff Hc]. apply Z.ltb_lt in Hs, Hc. apply bool_decide_eq_true in Hk.
      rewrite (proj2 (register_Ok key l _ Hl)) in Hr by (split_and!; done). done.
  - pose proof (unregister_limiter_ok key l Hl). unfold unregister in *. case_bool_decide; cbn; split_and!; try done. set_solver.
Qed.

(** C32: the UDP limiter implements a set of sessions with a global limit and
    a limit per source.  From its construction on, after any sequence of
    registrations and releases its registered sessions are those of the
    specification, both limits hold, the count it keeps for each source is
    that of the set and none is kept for an idle source; and releasing a
    registration that was granted restores the limiter exactly. *)
Theorem udp_limiter_refines_set (maxSessions maxPerSource : Z) (l : UDPLimiter) (ops : list limiter_op) :
  NewUDPLimiter maxSessions maxPerSource = Ok l ->
  let l' := fold_left limiter_step ops l in
  lim_sessions l' = fold_left (spec_step maxSessions maxPerSource) ops ∅ /\ limiter_ok l' /\
  lim_maxSessions l' = maxSessions /\ lim_maxPerSource l' = maxPerSource /\
  (forall key l'', register key l' = Ok l'' -> unregister key l'' = l').
Proof.
  unfold NewUDPLimiter. rewrite guard_err_Ok, !orb_false_iff, !Z.leb_gt, Z.ltb_ge. intros (((Ha & Hb) & Hab) & [= <-]).
  set (l0 := MkUDPLimiter maxSessions maxPerSource ∅ ∅). assert (Hl0 : limiter_ok l0).
  { assert (Hz : forall source, source_count source ∅ = 0).
    { intros source. unfold source_count, of_source. assert (filter (fun k => key_SourceIP k = source) (∅ : gset UDPKey) = ∅) as -> by set_solver.
      by rewrite size_empty. }
    split; cbn; [lia|rewrite size_empty; lia| |]; intros source; rewrite Hz; [by rewrite lookup_empty|lia]. }
  enough (H : forall l, limiter_ok l -> lim_maxSessions l = maxSessions -> lim_maxPerSource l = maxPerSource ->
    lim_sessions (fold_left limiter_step ops l) = fold_left (spec_step maxSessions maxPerSource) ops (lim_sessions l) /\
    limiter_ok (fold_left limiter_step ops l) /\ lim_maxSessions (fold_left limiter_step ops l) = maxSessions /\
    lim_maxPerSource (fold_left limiter_step ops l) = maxPerSource).
  { destruct (H l0 Hl0 eq_refl eq_refl) as (? & ? & ? & ?). split_and!; try done. intros key l''. by apply unregister_register. }
  clear l0 Hl0. induction ops as [|op ops IH]; intros l Hl Hm Hp; [done|]. cbn [fold_left].
  destruct (limiter_step_refines l op Hl) as (Hl' & Hm' & Hp' & Hs). rewrite <- Hm, <- Hp, <- Hs. rewrite Hm, Hp.
  apply IH; congruence.
Qed.

Lemma udp_limiter_refines_set_witness :
  let k n := MkUDPKey (Addr4 1) n (Addr4 2) 53 in
  exists l, NewUDPLimiter 3 2 = Ok l /\
    lim_sessions (fold_left limiter_step [Register (k 1); Register (k 2); Register (k 3); Unregister (k 1)] l) = {[k 2]}.
Proof.
  intros k. eexists. split; [reflexivity|].
  destruct (udp_limiter_refines_set 3 2 (MkUDPLimiter 3 2 ∅ ∅) [Register (k 1); Register (k 2); Register (k 3); Unregister (k 1)])
    as (Hs & _); [reflexivity|]. cbv zeta in Hs. rewrite Hs. vm_compute. reflexivity.
Defined.

(** ** Accounting *)

Lemma dec_inc x : 0 <= x < 2 ^ 64 -> dec (inc x) = x.
Proof.
  intros Hx. unfold dec, inc, wrap64, u64_max. rewrite Zplus_mod_idemp_l. replace (x + 1 + (2 ^ 64 - 1)) with (x + 1 * 2 ^ 64) by lia.
  rewrite Z.mod_add by lia. by apply Z.mod_small.
Qed.

(** A relay that returned has a result: the end of a copy, the idle timer or
    the context. *)
Lemma udp_relay_result evs r r' :
  udp_relay_run evs r = Some r' -> (ur_phase r = Relaying \/ is_Some (ur_result r)) ->
  ur_phase r' = Relaying \/ is_Some (ur_result r').
Proof.
  revert r. induction evs as [|ev evs IH]; intros r; [by intros [= ->]|]. cbn [udp_relay_run].
  destruct (udp_relay_step ev r) as [r1|] eqn:Hs; [|done]. intros Hr Hor. eapply IH; [done|].
  destruct r as [ph res n c]. cbn in Hor. destruct ph as [|k|], ev as [[]| | | |]; cbn in Hs; try done; injection Hs as <-; cbn; naive_solver eauto.
Qed.

Lemma relayUDP_result evs ctx r n c : relayUDP evs ctx = Some (r, n, c) -> exists e, r = Some e.
Proof.
  unfold relayUDP. destruct (udp_relay_run _ _) as [[ph res n' c']|] eqn:Hr; [|done].
  apply udp_relay_result in Hr; [|by left]. destruct ph; try done. destruct Hr as [Hr|[e Hr]]; [done|]. cbn in Hr. subst res. destruct ctx as [x|]; [destruct (_ && _)|]; intros [= <- _ _]; eauto.
Qed.

Section accounting.
Context {P H W R D PD Conn M : Type} `{MappingPool P H} `{Matcher M} (net : network W R D PD Conn).

(** The pool after a flow: acquired, then released. *)
Definition pool_after (fl : Flow) (p : P) : P :=
  match pool_Acquire (tf_DestinationIP fl) p with (Ok (_, x), p') => pool_release x p' | (Err _, p') => p' end.

(** How the result of a TCP flow shows in the counters. *)
Definition tcp_counted (s s' : Stats) (e : option go_error) : Prop :=
  TotalFlows s' = inc (TotalFlows s) /\ ActiveFlows s' = ActiveFlows s /\
  match e with
  | None => CompletedFlows s' = inc (CompletedFlows s) /\ FailedFlows s' = FailedFlows s /\ RejectedFlows s' = RejectedFlows s
  | Some e => CompletedFlows s' = CompletedFlows s /\ FailedFlows s' = inc (FailedFlows s) /\
      (RejectedFlows s' = RejectedFlows s \/ RejectedFlows s' = inc (RejectedFlows s) /\ errors_is ErrRejected e = true)
  end.

(** The accounting of a TCP flow.  It is counted once in the total, the
    number of active flows is what it was, it counts as completed when it
    returns no error and as failed otherwise, as rejected only when the policy
    rejected it; and its mapping is released exactly when it was acquired. *)
Theorem tcp_accounting (t : TCP M R D PD) (io : Conn -> W -> list relay_event * W) (fl : Flow) (p : P) (w : W)
    (s : Stats) (h : handled P W Stats) :
  0 <= ActiveFlows s < 2 ^ 64 -> Handle_tcp net t io fl p w s = Some h ->
  tcp_counted s (hd_stats h) (hd_error h) /\ hd_pool h = pool_after fl p.
Proof.
  intros Hs. pose proof (dec_inc _ Hs) as Hdi. unfold Handle_tcp, pool_after, tcp_counted.
  destruct (pool_Acquire _ _) as [[[domain x]|e] p']; [|intros [= <-]; cbn; by auto 7].
  assert (Hrej : forall e text (f : flow W), exists h0, h0 = MkHandled (Some (EWrap text e)) (fl_calls f) (pool_release x p') (fl_world f)
    (end_tcp (tcp_fallbacks (fl_fallbacks f) (fail_tcp (errors_is ErrRejected e) (begin_tcp s)))) /\
    (tcp_counted s (hd_stats h0) (hd_error h0) /\ hd_pool h0 = pool_release x p')).
  { intros e text f. eexists. split; [done|]. unfold tcp_counted. cbn. destruct (errors_is ErrRejected e); split_and!; auto. }
  destruct (decideFlow _ _ _ _ _ _ _ _) as [[[[d prepared]|e] f]|]; [| |done].
  - destruct (connectPrepared _ _ _ _ _ _ _ _ _) as [[[[conn selected]|e] f']|]; [| |done].
    + destruct (io conn (fl_world f')) as [evs w']. destruct (Relay _ _) as [[e|]|]; [| |done]; intros [= <-]; cbn; by auto 7.
    + destruct (Hrej e "connect" f') as (h0 & -> & Hh0). by intros [= <-].
  - destruct (Hrej e "decide TCP flow" f) as (h0 & -> & Hh0). by intros [= <-].
Qed.

(** How the result of a registered UDP session shows in the counters. *)
Definition udp_counted (deadline : option go_error) (s s' : UDPStats) (e : option go_error) : Prop :=
  TotalSessions s' = inc (TotalSessions s) /\ ActiveSessions s' = ActiveSessions s /\
  match e with
  | None => ExpiredSessions s' = inc (ExpiredSessions s) /\ FailedSessions s' = FailedSessions s
  | Some e => ExpiredSessions s' = ExpiredSessions s /\
      (FailedSessions s' = inc (FailedSessions s) \/ FailedSessions s' = FailedSessions s /\ deadline = Some e)
  end.

(** The accounting of a UDP session.  When the limiter refuses it, only
    the rejections grow.  Otherwise it gives its registration and its mapping
    back, it is counted once, the number of active sessions is what it was,
    and it counts as expired when it returns no error and as failed when it
    returns one - except the error of setting the read deadline, which is in
    neither count. *)
Theorem udp_accounting (u : UDP M R D PD) (io : udp_io) (fl : Flow) (l l' : UDPLimiter) (p : P) (w : W) (s : UDPStats)
    (h : handled P W UDPStats) :
  limiter_ok l -> 0 <= ActiveSessions s < 2 ^ 64 -> Handle_udp net u io fl l p w s = Some (h, l') ->
  l' = l /\
  match register (MkUDPKey (tf_SourceIP fl) (tf_SourcePort fl) (tf_DestinationIP fl) (tf_DestinationPort fl)) l with
  | Err e => h = MkHandled (Some e) [] p w (reject_udp s)
  | Ok _ => udp_counted (io_deadline io) s (hd_stats h) (hd_error h) /\ hd_pool h = pool_after fl p
  end.
Proof.
  intros Hl Hs. pose proof (dec_inc _ Hs) as Hdi. unfold Handle_udp, pool_after, udp_counted. cbn zeta.
  destruct (register _ l) as [l1|e] eqn:Hr; [|by intros [= <- <-]]. rewrite (unregister_register _ _ _ Hl Hr).
  destruct (pool_Acquire _ _) as [[[domain x]|e] p']; [|intros [= <- <-]; cbn; by auto 7].
  destruct (decideFlow _ _ _ _ _ _ _ _) as [[[[d prepared]|e] f]|]; [| |done].
  - destruct (io_deadline io) as [e|]; [intros [= <- <-]; cbn; by auto 8|].
    destruct (io_first io) as [first|e]; [|destruct (isTimeout e); intros [= <- <-]; cbn; by auto 8].
    destruct (connectAndSendPrepared _ _ _ _ _ _ _ _ _ _) as [[[[conn selected]|e] f']|]; [| |done].
    + destruct (io_relay io conn (fl_world f')) as [evs w']. destruct (relayUDP _ _) as [[[r n] c]|] eqn:Hrel; [|done].
      apply relayUDP_result in Hrel as [e ->]. destruct (errors_is ErrUDPIdleTimeout e); intros [= <- <-]; cbn; by auto 8.
    + intros [= <- <-]. cbn. by auto 8.
  - intros [= <- <-]. cbn. by auto 8.
Qed.
End accounting.

Lemma tcp_accounting_witness :
  exists h, Handle_tcp (H0 := demo_pool) demo_net demo_tcp demo_relay demo_flow tt tt demo_stats = Some h /\
    tcp_counted demo_stats (hd_stats h) None.
Proof.
  eexists. split; [vm_compute; reflexivity|].
  apply (tcp_accounting (H0 := demo_pool) demo_net demo_tcp demo_relay demo_flow tt tt demo_stats
    (MkHandled None [CallLookup "vpn"; CallLookup "lan"; CallDial "lan" (AddrPort (Addr4 0x0a000001) 443) true; CallClose "lan"]
       tt tt (MkStats 1 0 1 0 1 0))); [done|vm_compute; reflexivity].
Defined.

Lemma udp_accounting_witness :
  let io := MkUDPIO (W := unit) (Conn := unit) None (Ok "query") (fun _ w => ([Datagram UpstreamToClient; IdleOver; CopyEnded (ESentinel ErrClosed); CopyEnded (ESentinel ErrClosed)], w)) None in
  let l := MkUDPLimiter 4 2 ∅ ∅ in
  exists h, Handle_udp (H0 := demo_pool) demo_net demo_udp io demo_flow l tt tt (MkUDPStats 0 0 0 0 0 0 0 0) = Some (h, l) /\
    hd_stats h = MkUDPStats 1 0 1 0 0 1 1 1 /\
    udp_counted None (MkUDPStats 0 0 0 0 0 0 0 0) (hd_stats h) None.
Proof.
  intros io l. eexists. split; [vm_compute; reflexivity|]. split; [reflexivity|].
  assert (Hl : limiter_ok l).
  { split; cbn; [lia|vm_compute; discriminate| |]; intros source.
    - change (source_count source ∅) with 0. apply lookup_empty.
    - change (source_count source ∅) with 0. lia. }
  destruct (udp_accounting (H0 := demo_pool) demo_net demo_udp io demo_flow l l tt tt (MkUDPStats 0 0 0 0 0 0 0 0)
    (MkHandled None [CallLookup "vpn"; CallLookup "lan"; CallDial "lan" (AddrPort (Addr4 0x0a000001) 443) true; CallWrite "lan"; CallClose "lan"]
       tt tt (MkUDPStats 1 0 1 0 0 1 1 1)) Hl) as (_ & Hm); [cbn; lia|vm_compute; reflexivity|].
  exact (proj1 Hm).
Defined.
