(* ===== verification/EffectiveDNS.v ===== *)
(** * Components [internal/system] (interface DNS) and [internal/app]
    (effective DNS)

    The DNS servers of the DHCP lease of an interface, read from the output of
    a command, and the configuration that results when they replace the
    configured servers.  Running the command is a parameter. *)

From S2P Require Import Prelude.
From S2P Require Import GoStrings.
From S2P Require Import NetIP.
From S2P Require Import ConfigTypes.
From S2P Require Import ConfigCompile.
From S2P Require Import Outbound.

(** ** Reading a packet *)

(** [usableUpstreamDNS] *)
Definition usableUpstreamDNS (address : addr) : bool :=
  addr_valid address && negb (is_unspecified address) && negb (is_loopback address) && negb (is_multicast address).

Definition drop_cr (line : string) : string := trim_suffix line (String (byte 13) "").

(** The longest line a scanner with the default buffer accepts. *)
Definition maxScanLine : Z := 65535.

(** [bufio.Scanner] over lines: the lines before the first one that is too
    long, and whether there is one.  The part after the last newline is a line
    when it is not empty. *)
Fixpoint scan_lines (parts : list string) : list string * bool :=
  match parts with
  | [] => ([], false)
  | part :: parts' =>
      if maxScanLine <? slen part then ([], true)
      else
        match parts' with
        | [] => (if bool_decide (part = "") then [] else [drop_cr part], false)
        | _ => let '(lines, long) := scan_lines parts' in (drop_cr part :: lines, long)
        end
  end.

Definition dhcp_marker : string := "domain_name_server (ip_mult):".

(** The servers listed on one line; [seen] are the addresses so far. *)
Fixpoint dhcp_values (values : list string) (servers : list addr_port) (seen : gset addr)
    : result go_error (list addr_port * gset addr) :=
  match values with
  | [] => Ok (servers, seen)
  | raw :: values' =>
      match parse_addr (trim_space raw) with
      | None => Err (failure "invalid DHCP DNS address")
      | Some address =>
          let address := unmap address in
          if negb (usableUpstreamDNS address) then dhcp_values values' servers seen
          else if bool_decide (address ∈ seen) then dhcp_values values' servers seen
          else dhcp_values values' (servers ++ [AddrPort address 53]) ({[address]} ∪ seen)
      end
  end.

(** The values of a line after the marker. *)
Definition dhcp_line_values (line : string) : string :=
  trim_space (trim_suffix (trim_prefix (trim_space (trim_prefix line dhcp_marker)) "{") "}").

Fixpoint dhcp_lines (lines : list string) (servers : list addr_port) (seen : gset addr)
    : result go_error (list addr_port) :=
  match lines with
  | [] => Ok servers
  | raw :: lines' =>
      let line := trim_space raw in
      if negb (has_prefix line dhcp_marker) then dhcp_lines lines' servers seen
      else
        let values := dhcp_line_values line in
        if bool_decide (values = "") then dhcp_lines lines' servers seen
        else
          let! next := dhcp_values (split_on "," values) servers seen in
          dhcp_lines lines' next.1 next.2
  end.

(** [parseDHCPDNS] *)
Definition parseDHCPDNS (output : string) : result go_error (list addr_port) :=
  let '(lines, long) := scan_lines (split_on (byte 10) output) in
  let! servers := dhcp_lines lines [] ∅ in
  fail_if long with failure "bufio.Scanner: token too long" in Ok servers.

(** [validateInterfaceName] *)
Definition interface_char (c : ascii) : bool :=
  is_lower c || is_upper c || is_digit c || Ascii.eqb c "_" || Ascii.eqb c "-" || Ascii.eqb c ".".

Definition validateInterfaceName (name : string) : result go_error unit :=
  fail_if bool_decide (name = "") || (15 <? slen name) || has_prefix name "-" with failure "invalid network interface name" in
  fail_if negb (sforall interface_char name) with failure "invalid network interface name" in Ok tt.

(** ** The servers of the interfaces *)

Notation interfaceDNS := (gmap string (list addr_port)) (only parsing).

#[export] Instance string_le_dec : RelDecision String.le.
Proof. intros a b. apply _. Defined.

(** [slices.Compact] *)
Fixpoint compact (names : list string) : list string :=
  match names with
  | a :: (b :: _) as rest => if bool_decide (a = b) then compact rest else a :: compact rest
  | _ => names
  end.

Section discovering.
(** [runner.Run] on the arguments of a command. *)
Context (run : list string -> result go_error string).

Definition ipconfig : string := "/usr/sbin/ipconfig".

(** The loop of [DiscoverInterfaceDNS]: what was found so far, and the error
    that ended it. *)
Fixpoint discover_loop (names : list string) (found : gmap string (list addr_port)) 
    : gmap string (list addr_port) * option go_error :=
  match names with
  | [] => (found, None)
  | name :: names' =>
      match validateInterfaceName name with
      | Err e => (found, Some e)
      | Ok _ =>
          match run [ipconfig; "getpacket"; name] with
          | Err _ => discover_loop names' found
          | Ok output =>
              match parseDHCPDNS output with
              | Err e => (found, Some (EWrap "parse DHCP DNS" e))
              | Ok [] => discover_loop names' found
              | Ok servers => discover_loop names' (<[name := servers]> found)
              end
          end
      end
  end.

(** [DiscoverInterfaceDNS] *)
Definition DiscoverInterfaceDNS (interfaces : list string) : gmap string (list addr_port) * option go_error :=
  discover_loop (compact (merge_sort String.le interfaces)) ∅.

(** [discoverInterfaceDNS]; the order of the map does not matter after the
    sort. *)
Definition dhcp_interfaces (runtime : Config) : list string :=
  omap (fun '(_, o) => if bool_decide (OutType o = "direct") && bool_decide (DNSSource o = DNSSourceDHCP)
                       then Some (Interface o) else None) (map_to_list (Outbounds runtime)).

Definition discoverInterfaceDNS (runtime : Config) : gmap string (list addr_port) * option go_error :=
  DiscoverInterfaceDNS (dhcp_interfaces runtime).
End discovering.

(** ** The effective configuration *)

Definition discovered_servers (discovered : gmap string (list addr_port)) (interface : string) : list addr_port :=
  default [] (discovered !! interface).

(** One iteration of [runtimeWithInterfaceDNS]. *)
Definition effective_outbound (discovered : gmap string (list addr_port)) (o : Outbound) : Outbound :=
  if bool_decide (OutType o = "direct") && bool_decide (DNSSource o = DNSSourceDHCP) &&
     negb (bool_decide (discovered_servers discovered (Interface o) = []))
  then MkOutbound (Name o) (OutType o) (Interface o) (DNSSource o) (discovered_servers discovered (Interface o))
         (ConnectTimeout o) (Fallback o)
  else o.

(** [runtimeWithInterfaceDNS] *)
Definition runtimeWithInterfaceDNS (runtime : Config) (discovered : gmap string (list addr_port)) : Config :=
  MkConfig (Version runtime) (CLog runtime) (CSystem runtime) (CCapture runtime) (CTUN runtime) (CFakeIP runtime)
    (CFakeIPv6 runtime) (CDNS runtime) (CSessions runtime) (effective_outbound discovered <$> Outbounds runtime)
    (ConfigTypes.Rules runtime).

(** [sameInterfaceDNS] *)
Definition sameInterfaceDNS (left_ right_ : gmap string (list addr_port)) : bool :=
  bool_decide (size left_ = size right_) &&
  forallb (fun '(name, servers) => bool_decide (servers = discovered_servers right_ name)) (map_to_list left_).

(** ** Lemmas *)

Lemma unmap_not_mapped a : is4in6 (unmap a) = false.
Proof. destruct a as [|v|v z]; try done. unfold unmap. destruct (is4in6 (Addr6 v z)) eqn:H; [done|exact H]. Qed.

(** A server that came out of a lease. *)
Definition lease_server (s : addr_port) : Prop :=
  ap_port s = 53 /\ usableUpstreamDNS (ap_addr s) = true /\ is4in6 (ap_addr s) = false.

Lemma dhcp_values_servers values servers seen servers' seen' :
  dhcp_values values servers seen = Ok (servers', seen') ->
  Forall lease_server servers -> NoDup (ap_addr <$> servers) -> (forall a, a ∈ seen <-> a ∈ ap_addr <$> servers) ->
  Forall lease_server servers' /\ NoDup (ap_addr <$> servers') /\ (forall a, a ∈ seen' <-> a ∈ ap_addr <$> servers').
Proof.
  revert servers seen. induction values as [|raw values IH]; intros servers seen; cbn [dhcp_values].
  - by intros [= <- <-].
  - destruct (parse_addr _) as [a|]; [|done]. destruct (usableUpstreamDNS (unmap a)) eqn:Hu; cbn [negb]; [|apply IH].
    case_bool_decide as Hin; [apply IH|]. intros H Hs Hnd Hseen. eapply IH; [done| | |].
    + apply Forall_app. split; [done|]. apply Forall_singleton. split_and!; [done|done|apply unmap_not_mapped].
    + rewrite fmap_app. apply NoDup_app. split_and!; [done| |apply NoDup_singleton].
      intros x Hx ->%list_elem_of_singleton. by apply Hin, Hseen.
    + intros x. rewrite fmap_app, elem_of_union, elem_of_app, elem_of_singleton, Hseen. cbn. rewrite list_elem_of_singleton. naive_solver.
Qed.

Lemma dhcp_lines_servers lines servers seen servers' :
  dhcp_lines lines servers seen = Ok servers' ->
  Forall lease_server servers -> NoDup (ap_addr <$> servers) -> (forall a, a ∈ seen <-> a ∈ ap_addr <$> servers) ->
  Forall lease_server servers' /\ NoDup (ap_addr <$> servers').
Proof.
  revert servers seen. induction lines as [|raw lines IH]; intros servers seen; cbn [dhcp_lines].
  - by intros [= <-].
  - destruct (negb _); [apply IH|]. case_bool_decide; [apply IH|]. intros H' Hs Hnd Hseen. inv_result.
    destruct x as [s2 seen2]. destruct (dhcp_values_servers _ _ _ _ _ H0 Hs Hnd Hseen) as (? & ? & ?). by eapply IH.
Qed.

Lemma parseDHCPDNS_servers output servers :
  parseDHCPDNS output = Ok servers -> Forall lease_server servers /\ NoDup (ap_addr <$> servers).
Proof.
  unfold parseDHCPDNS. destruct (scan_lines _) as [lines long]. intros H. inv_result. subst servers.
  eapply dhcp_lines_servers; [done|constructor|constructor|]. intros a. cbn. set_solver.
Qed.

(** What a discovery returns: usable, distinct servers for every interface it
    lists. *)
Definition leases_ok (found : gmap string (list addr_port)) : Prop :=
  forall name servers, found !! name = Some servers ->
    servers <> [] /\ Forall lease_server servers /\ NoDup (ap_addr <$> servers).

Lemma discover_loop_leases run names found : leases_ok found -> leases_ok (discover_loop run names found).1.
Proof.
  revert found. induction names as [|name names IH]; intros found Hf; [done|]. cbn [discover_loop].
  destruct (validateInterfaceName name); [|done]. destruct (run _) as [output|e]; [|by apply IH].
  destruct (parseDHCPDNS output) as [[|s servers]|e] eqn:Hp; [by apply IH| |done]. apply IH.
  intros n l. destruct (decide (name = n)) as [->|]; [rewrite lookup_insert_eq; intros [= <-]|rewrite lookup_insert_ne by done; apply Hf].
  split; [done|]. by apply (parseDHCPDNS_servers output).
Qed.

Lemma discover_leases run interfaces : leases_ok (DiscoverInterfaceDNS run interfaces).1.
Proof. apply discover_loop_leases. intros n l. by rewrite lookup_empty. Qed.
