(* ===== verification/DataPlane.v ===== *)
(** * Component [internal/app]: the data plane and its policy generations

    A data plane serves flows with the current generation of sessions while
    older generations finish theirs.  The generations are shared objects with
    reference counts; acquiring one takes no lock, so that its loop interleaves
    with a commit.  The threads of the handlers, the owner of the mutex and
    their atomic steps are a step relation. *)

From S2P Require Import Prelude.
From S2P Require Import GoStrings.
From S2P Require Import GoTime.
From S2P Require Import NetIP.
From S2P Require Import ConfigTypes.
From S2P Require Import ConfigCompile.
From S2P Require Import ConfigFacts.
From S2P Require Import Outbound.
From S2P Require Import Resolver.
From S2P Require Import Rules.
From S2P Require Import Relay.
From S2P Require Import Session.
From S2P Require Import SessionHandle.
From S2P Require Import SessionFacts.
From S2P Require Import SessionProperties.
From S2P Require Import EffectiveDNS.

(** ** Generations *)

Definition runtimeRelayGrace : Z := 30 * second.

Local Notation tcp_session := (TCP Engine Client Direct Direct).
Local Notation udp_session := (UDP Engine Client Direct Direct).

(** [dataPlaneGeneration], with the counters its two sessions own. *)
Record dataPlaneGeneration : Type := MkGeneration {
  gen_tcp : tcp_session;
  gen_udp : udp_session;
  gen_matcher : Engine;
  gen_stats : Stats * UDPStats;
  gen_refs : Z
}.

Definition set_refs (n : Z) (g : dataPlaneGeneration) : dataPlaneGeneration :=
  MkGeneration (gen_tcp g) (gen_udp g) (gen_matcher g) (gen_stats g) n.

Definition set_stats (s : Stats * UDPStats) (g : dataPlaneGeneration) : dataPlaneGeneration :=
  MkGeneration (gen_tcp g) (gen_udp g) (gen_matcher g) s (gen_refs g).

Definition no_stats : Stats * UDPStats := (MkStats 0 0 0 0 0 0, MkUDPStats 0 0 0 0 0 0 0 0).

(** A pointer to a pool; the methods of a nil one panic.  An interface that
    holds it is not nil. *)
#[export] Instance pool_pointer {P H} `{MappingPool P H} : MappingPool (option P) H := {
  pool_Acquire address p :=
    match p with
    | None => (Err (failure "panic: nil pointer dereference"), None)
    | Some p => let '(r, p) := pool_Acquire address p in (r, Some p)
    end;
  pool_release h p := pool_release h <$> p
}.

Section building.
Context {P : Type}.

(** [buildDataPlaneGeneration] *)
Definition buildDataPlaneGeneration (pools : MappingPools (option P)) (runtime : Config) (udpLimiter : UDPLimiter)
    : result go_error dataPlaneGeneration :=
  let! engine := map_err rules_failure (New (ConfigTypes.Rules runtime)) in
  let! routes := BuildRoutes (Outbounds runtime) in
  let! tcp := NewTCP (Some pools) (Some engine) routes runtimeRelayGrace in
  let! udp := NewUDPWithLimiter (Some pools) (Some engine) routes
    (MkUDPConfig (UDPIdleTimeout (CSessions runtime)) (MaxUDPSessions (CSessions runtime))
       (MaxUDPSessionsPerSource (CSessions runtime))) (Some udpLimiter) in
  Ok (MkGeneration tcp udp engine no_stats 0).

(** The pools of [newDataPlane]: both interfaces are set, to pointers that may
    be nil. *)
Definition plane_pools (ipv4Pool ipv6Pool : option P) (runtime : Config) : MappingPools (option P) :=
  MkMappingPools (Some ipv4Pool) (Some ipv6Pool) (FakePrefix (CFakeIP runtime))
    match CFakeIPv6 runtime with Some f => FakePrefix6 f | None => prefix_zero end
    (DefaultRoute (CCapture runtime)).

(** [dataPlane]: its generations by address, the current one, and the retired
    ones that were not pruned yet. *)
Record dataPlane : Type := MkDataPlane {
  dp_pools : MappingPools (option P);
  dp_udpLimiter : UDPLimiter;
  dp_generations : list dataPlaneGeneration;
  dp_current : nat;
  dp_retired : list nat;
  dp_base : Stats * UDPStats
}.

(** [newDataPlane] *)
Definition newDataPlane (ipv4Pool ipv6Pool : option P) (runtime : Config) : result go_error dataPlane :=
  let pools := plane_pools ipv4Pool ipv6Pool runtime in
  let! udpLimiter := NewUDPLimiter (MaxUDPSessions (CSessions runtime)) (MaxUDPSessionsPerSource (CSessions runtime)) in
  let! generation := buildDataPlaneGeneration pools runtime udpLimiter in
  Ok (MkDataPlane pools udpLimiter [generation] 0 [] no_stats).

(** [prepare] *)
Definition prepare (runtime : Config) (plane : dataPlane) : result go_error dataPlaneGeneration :=
  buildDataPlaneGeneration (dp_pools plane) runtime (dp_udpLimiter plane).

(** [shouldFake] *)
Definition shouldFake (domain : string) (plane : dataPlane) : bool :=
  match dp_generations plane !! dp_current plane with
  | Some g => RequiresFakeIP (gen_matcher g) domain
  | None => false
  end.
End building.
Arguments dataPlane : clear implicits.

(** ** Statistics *)

(** [addTCPStats] *)
Definition addTCPStats (total value : Stats) : Stats :=
  MkStats (add_count (TotalFlows total) (TotalFlows value)) (add_count (ActiveFlows total) (ActiveFlows value))
    (add_count (CompletedFlows total) (CompletedFlows value)) (add_count (FailedFlows total) (FailedFlows value))
    (add_count (FallbackAttempts total) (FallbackAttempts value)) (add_count (RejectedFlows total) (RejectedFlows value)).

(** [addUDPStats] *)
Definition addUDPStats (total value : UDPStats) : UDPStats :=
  MkUDPStats (add_count (TotalSessions total) (TotalSessions value)) (add_count (ActiveSessions total) (ActiveSessions value))
    (add_count (ExpiredSessions total) (ExpiredSessions value)) (add_count (FailedSessions total) (FailedSessions value))
    (add_count (RejectedSessions total) (RejectedSessions value))
    (add_count (UDPFallbackAttempts total) (UDPFallbackAttempts value))
    (add_count (DatagramsToNetwork total) (DatagramsToNetwork value)) (add_count (DatagramsToClient total) (DatagramsToClient value)).

(** [addGenerationStats] *)
Definition add_stats (total value : Stats * UDPStats) : Stats * UDPStats :=
  (addTCPStats total.1 value.1, addUDPStats total.2 value.2).

(** The statistics and the references of the generation at an address. *)
Definition stats_of (gens : list dataPlaneGeneration) (g : nat) : Stats * UDPStats :=
  match gens !! g with Some x => gen_stats x | None => no_stats end.

Definition refs_of (gens : list dataPlaneGeneration) (g : nat) : Z :=
  match gens !! g with Some x => gen_refs x | None => 0 end.

Definition total_from (base : Stats * UDPStats) (gens : list dataPlaneGeneration) (ids : list nat) : Stats * UDPStats :=
  fold_left (fun acc g => add_stats acc (stats_of gens g)) ids base.

(** [pruneLocked] without interference: what is retained, and the base. *)
Fixpoint prune_loop (gens : list dataPlaneGeneration) (todo retained : list nat) (base : Stats * UDPStats)
    : list nat * (Stats * UDPStats) :=
  match todo with
  | [] => (retained, base)
  | g :: todo' =>
      if negb (refs_of gens g =? 0) then prune_loop gens todo' (retained ++ [g]) base
      else prune_loop gens todo' retained (add_stats base (stats_of gens g))
  end.

Definition pruneLocked {P} (plane : dataPlane P) : dataPlane P :=
  let '(retained, base) := prune_loop (dp_generations plane) (dp_retired plane) [] (dp_base plane) in
  MkDataPlane (dp_pools plane) (dp_udpLimiter plane) (dp_generations plane) (dp_current plane) retained base.

(** The swap of [commit]. *)
Definition swap_generation {P} (next : dataPlaneGeneration) (plane : dataPlane P) : dataPlane P :=
  MkDataPlane (dp_pools plane) (dp_udpLimiter plane) (dp_generations plane ++ [next]) (length (dp_generations plane))
    (dp_retired plane ++ [dp_current plane]) (dp_base plane).

(** [commit] *)
Definition commit {P} (next : dataPlaneGeneration) (plane : dataPlane P) : dataPlane P :=
  pruneLocked (swap_generation next plane).

(** [stats] *)
Definition plane_stats {P} (plane : dataPlane P) : Stats * UDPStats * dataPlane P :=
  let plane := pruneLocked plane in
  (total_from (dp_base plane) (dp_generations plane) (dp_current plane :: dp_retired plane), plane).

(** ** Threads *)

(** A handler: before it acquires a generation, at the points of [acquire]
    (loaded, counted, to be given back), and while it handles a flow. *)
Inductive handler : Type := Idle | Loaded (g : nat) | Counted (g : nat) | Undoing (g : nat) | Holding (g : nat).

(** The owner of the mutex in [pruneLocked]: the generations to visit and
    those retained so far; or one whose references were zero and whose
    statistics are about to be read. *)
Inductive mutex_owner : Type :=
| Unlocked
| Pruning (todo retained : list nat)
| Reading (g : nat) (todo retained : list nat).

Record machine : Type := MkMachine {
  mc_generations : list dataPlaneGeneration;
  mc_current : nat;
  mc_retired : list nat;
  mc_base : Stats * UDPStats;
  mc_handlers : list handler;
  mc_owner : mutex_owner
}.

Definition on_generation (f : dataPlaneGeneration -> dataPlaneGeneration) (g : nat) (m : machine) : machine :=
  MkMachine (alter f g (mc_generations m)) (mc_current m) (mc_retired m) (mc_base m) (mc_handlers m) (mc_owner m).

Definition set_handler (i : nat) (h : handler) (m : machine) : machine :=
  MkMachine (mc_generations m) (mc_current m) (mc_retired m) (mc_base m) (<[i := h]> (mc_handlers m)) (mc_owner m).

Definition add_refs (n : Z) (g : dataPlaneGeneration) : dataPlaneGeneration := set_refs (gen_refs g + n) g.

(** The atomic steps of [acquire], of the handlers around [Handle] (which
    changes the counters of the generation it holds), of [commit] and of
    [stats]. *)
Inductive plane_step : machine -> machine -> Prop :=
| StepLoad m i :
    mc_handlers m !! i = Some Idle -> plane_step m (set_handler i (Loaded (mc_current m)) m)
| StepCount m i g :
    mc_handlers m !! i = Some (Loaded g) ->
    plane_step m (set_handler i (Counted g) (on_generation (add_refs 1) g m))
| StepCheck m i g :
    mc_handlers m !! i = Some (Counted g) ->
    plane_step m (set_handler i (if bool_decide (mc_current m = g) then Holding g else Undoing g) m)
| StepUndo m i g :
    mc_handlers m !! i = Some (Undoing g) ->
    plane_step m (set_handler i Idle (on_generation (add_refs (-1)) g m))
| StepHandle m i g s :
    mc_handlers m !! i = Some (Holding g) -> plane_step m (on_generation (set_stats s) g m)
| StepDone m i g :
    mc_handlers m !! i = Some (Holding g) ->
    plane_step m (set_handler i Idle (on_generation (add_refs (-1)) g m))
| StepSwap m next :
    mc_owner m = Unlocked -> gen_refs next = 0 -> gen_stats next = no_stats ->
    plane_step m
      (MkMachine (mc_generations m ++ [next]) (length (mc_generations m)) (mc_retired m ++ [mc_current m]) (mc_base m)
         (mc_handlers m) (Pruning (mc_retired m ++ [mc_current m]) []))
| StepLock m :
    mc_owner m = Unlocked ->
    plane_step m
      (MkMachine (mc_generations m) (mc_current m) (mc_retired m) (mc_base m) (mc_handlers m) (Pruning (mc_retired m) []))
| StepRetain m g todo retained :
    mc_owner m = Pruning (g :: todo) retained -> refs_of (mc_generations m) g <> 0 ->
    plane_step m
      (MkMachine (mc_generations m) (mc_current m) (mc_retired m) (mc_base m) (mc_handlers m)
         (Pruning todo (retained ++ [g])))
| StepUnused m g todo retained :
    mc_owner m = Pruning (g :: todo) retained -> refs_of (mc_generations m) g = 0 ->
    plane_step m
      (MkMachine (mc_generations m) (mc_current m) (mc_retired m) (mc_base m) (mc_handlers m) (Reading g todo retained))
| StepRead m g todo retained :
    mc_owner m = Reading g todo retained ->
    plane_step m
      (MkMachine (mc_generations m) (mc_current m) (mc_retired m) (add_stats (mc_base m) (stats_of (mc_generations m) g))
         (mc_handlers m) (Pruning todo retained))
| StepUnlock m retained :
    mc_owner m = Pruning [] retained ->
    plane_step m
      (MkMachine (mc_generations m) (mc_current m) retained (mc_base m) (mc_handlers m) Unlocked).

(** A new data plane with its handlers. *)
Definition plane_start (n : nat) (first : dataPlaneGeneration) : machine :=
  MkMachine [first] 0 [] no_stats (replicate n Idle) Unlocked.

(** What [stats] adds up once it holds the pruned list. *)
Definition reported (m : machine) : Stats * UDPStats :=
  total_from (mc_base m) (mc_generations m) (mc_current m :: mc_retired m).

(** The statistics of all generations there ever were. *)
Definition all_stats (m : machine) : Stats * UDPStats :=
  fold_left (fun acc g => add_stats acc (gen_stats g)) (mc_generations m) no_stats.
