(* ===== verification/DataPlaneFacts.v ===== *)
(** * Component [internal/app]: every accepted configuration starts a data
    plane, and its generations lose no statistics *)

From S2P Require Import Prelude.
From S2P Require Import GoStrings.
From S2P Require Import GoTime.
From S2P Require Import NetIP.
From S2P Require Import ConfigTypes.
From S2P Require Import ConfigCompile.
From S2P Require Import ConfigFacts.
From S2P Require Import Outbound.
From S2P Require Import Resolver.
From S2P Require Import Rules.
From S2P Require Import Relay.
From S2P Require Import Session.
From S2P Require Import SessionHandle.
From S2P Require Import SessionFacts.
From S2P Require Import SessionProperties.
From S2P Require Import EffectiveDNS.
From S2P Require Import DataPlane.

(** ** Outbounds that routes can be built from *)

Record outbounds_ok (m : gmap string Outbound) : Prop := {
  oo_wf name o : m !! name = Some o -> outbound_wf name o;
  oo_targets a b : falls_back m a b -> is_Some (m !! b);
  oo_acyclic a : ~ tc (falls_back m) a a;
  oo_nonempty : m <> ∅
}.

Lemma compiled_outbounds_ok raw c : compile raw = Ok c -> outbounds_ok (Outbounds c).
Proof.
  intros (default & Hd & _ & _ & _ & _ & _ & Ho & Hfall & _)%compile_Ok.
  destruct (validate_fallbacks_facts _ Hfall) as [Htargets Hwf]. split; [| |intros a; apply ends_acyclic, Hwf|].
  - by eapply compileOutbounds_Ok.
  - done.
  - intros He. rewrite He in Hd. by rewrite lookup_empty in Hd.
Qed.

Lemma effective_falls_back leases m a b : falls_back (effective_outbound leases <$> m) a b <-> falls_back m a b.
Proof.
  unfold falls_back, fallback_of. rewrite lookup_fmap, fmap_is_Some. destruct (m !! a) as [o|]; [|done]. cbn.
  assert (Fallback (effective_outbound leases o) = Fallback o) as -> by (unfold effective_outbound; by destruct (_ && _)). done.
Qed.

Lemma lease_server_wf s : lease_server s -> server_wf s.
Proof.
  intros (Hp & Hu & Hm). unfold usableUpstreamDNS in Hu. to_prop. unfold server_wf. rewrite Hp. split_and!; try done; lia.
Qed.

Lemma effective_outbound_wf leases name o :
  leases_ok leases -> outbound_wf name o -> outbound_wf name (effective_outbound leases o).
Proof.
  intros Hl. unfold effective_outbound. destruct (_ && negb _) eqn:Hb; [|done].
  apply andb_true_iff in Hb as [[Ht _]%andb_true_iff Hne]. apply negb_true_iff, bool_decide_eq_false in Hne.
  apply bool_decide_eq_true in Ht. intros (Hn & Hid & [[? _]|(_ & Hi & _ & Hc & _)]); [congruence|].
  unfold outbound_wf. cbn. split_and!; [done|done|]. right. split_and!; [done|done|done|done|].
  unfold discovered_servers in *. destruct (leases !! Interface o) as [servers|] eqn:Hs; [|done]. cbn in *.
  destruct (Hl _ _ Hs) as (_ & Hall & _). eapply Forall_impl; [done|]. apply lease_server_wf.
Qed.

Lemma effective_outbounds_ok leases m : leases_ok leases -> outbounds_ok m -> outbounds_ok (effective_outbound leases <$> m).
Proof.
  intros Hl [Hwf Ht Hac Hne]. split.
  - intros name o. rewrite lookup_fmap. intros (o' & Ho & ->)%fmap_Some. apply effective_outbound_wf; [done|by apply Hwf].
  - intros a b. rewrite effective_falls_back, lookup_fmap, fmap_is_Some. apply Ht.
  - intros a Ha. apply (Hac a). eapply tc_congruence with (f := id); [|done]. intros x y. by rewrite effective_falls_back.
  - by intros ?%fmap_empty_inv.
Qed.

(** ** Routes *)

Lemma NewClient_valid interface servers timeout maxConcurrent :
  interface <> "" -> servers <> [] -> 0 < timeout -> 1 <= maxConcurrent <= 65536 -> Forall server_wf servers ->
  exists cl, NewClient interface servers timeout maxConcurrent = Ok cl.
Proof.
  intros Hi Hd Hc Hm Hs. unfold NewClient, newClient. rewrite !bool_decide_false by done. cbn [guard_err].
  replace (timeout <=? 0) with false by (symmetry; apply Z.leb_gt; lia). cbn [guard_err].
  replace ((maxConcurrent <=? 0) || (65536 <? maxConcurrent)) with false by (symmetry; apply orb_false_iff; lia). cbn [guard_err].
  assert (existsb (bad_upstream false) servers = false) as ->; [|cbn; eauto].
  apply not_true_iff_false. rewrite existsb_elem_of. intros (s & Hin & Hb).
  rewrite Forall_forall in Hs. destruct (Hs s Hin) as (Hp & Hv & H46 & Hu & Hlo).
  unfold bad_upstream, ap_valid in Hb. rewrite Hv, H46, Hu, Hlo in Hb. cbn in Hb.
  replace (ap_port s =? 0) with false in Hb by (symmetry; apply Z.eqb_neq; lia). done.
Qed.

Lemma NewClient_Ok o :
  Interface o <> "" -> OutDNS o <> [] -> 0 < ConnectTimeout o -> Forall server_wf (OutDNS o) ->
  exists cl, NewClient (Interface o) (OutDNS o) (ConnectTimeout o) resolverMaxConcurrent = Ok cl.
Proof. intros. by apply NewClient_valid. Qed.

(** The route of an outbound. *)
Definition route_of (o : Outbound) (r : Route Client Direct Direct) : Prop :=
  build_route (rt_Name r) o = Ok r /\ tcp_route_ok (rt_Name r) r /\ check_udp_route (rt_Name r) r = Ok tt /\
  rt_Fallback r = Fallback o /\ rt_Reject r = bool_decide (OutType o = "reject").

Lemma validIdentifier_nonempty name : validIdentifier name = true -> name <> "".
Proof. by intros H ->. Qed.

Lemma build_route_Ok name o : outbound_wf name o -> exists r, build_route name o = Ok r /\ rt_Name r = name /\ route_of o r.
Proof.
  intros (Hn & Hid%validIdentifier_nonempty & [[Ht Hf]|(Ht & Hi & Hd & Hc & Hs)]); unfold route_of, build_route.
  - rewrite Ht. rewrite bool_decide_true by done. eexists. split; [done|]. cbn.
    unfold tcp_route_ok, check_udp_route. cbn.
    rewrite (bool_decide_false (name = "")), (bool_decide_true (name = name)) by done. by split_and!.
  - rewrite Ht. rewrite (bool_decide_false ("direct" = "reject")) by done.
    destruct (NewClient_Ok o Hi Hd Hc Hs) as [cl Hcl]. rewrite Hcl. cbn [mbind result_bind].
    unfold NewDirect. rewrite !(bool_decide_false (_ = "")) by done. cbn [guard_err].
    replace (ConnectTimeout o <=? 0) with false by (symmetry; apply Z.leb_gt; lia). cbn [guard_err mbind result_bind].
    eexists. split; [done|]. split; [done|]. cbn [rt_Name rt_Fallback rt_Reject].
    unfold tcp_route_ok, check_udp_route. cbn.
    rewrite (bool_decide_false (name = "")), (bool_decide_true (name = name)) by done. split_and!; try done; by eexists.
Qed.

Lemma build_routes_loop_Ok items acc :
  NoDup items.*1 -> (forall name o, (name, o) ∈ items -> outbound_wf name o) ->
  exists routes, build_routes_loop items acc = Ok routes /\
    (forall name, name ∉ items.*1 -> routes !! name = acc !! name) /\
    (forall name o, (name, o) ∈ items -> exists r, routes !! name = Some r /\ rt_Name r = name /\ route_of o r).
Proof.
  revert acc. induction items as [|[name o] items IH]; intros acc Hnd Hwf; cbn [build_routes_loop].
  - exists acc. split_and!; [done|done|]. by intros name o ?%elem_of_nil.
  - cbn in Hnd. apply NoDup_cons in Hnd as [Hnin Hnd].
    destruct (build_route_Ok name o) as (r & Hr & Hname & Hof); [apply Hwf; by left|]. rewrite Hr. cbn [mbind result_bind].
    destruct (IH (<[name := r]> acc) Hnd) as (routes & Hl & Hout & Hin); [intros n x Hx; apply Hwf; by right|].
    exists routes. split_and!; [done| |].
    + intros n Hn. cbn in Hn. apply not_elem_of_cons in Hn as [Hne Hn]. rewrite Hout by done. by rewrite lookup_insert_ne.
    + intros n x [[= -> ->]|Hx]%elem_of_cons; [|by apply Hin]. exists r. rewrite Hout by done. by rewrite lookup_insert_eq.
Qed.

(** The routes built from outbounds, one for each name. *)
Definition routes_of (m : gmap string Outbound) (routes : gmap string (Route Client Direct Direct)) : Prop :=
  forall name, match m !! name, routes !! name with
               | Some o, Some r => rt_Name r = name /\ route_of o r
               | None, None => True
               | _, _ => False
               end.

Lemma BuildRoutes_Ok m : outbounds_ok m -> exists routes, BuildRoutes m = Ok routes /\ routes_of m routes.
Proof.
  intros [Hwf _ _ _]. destruct (build_routes_loop_Ok (map_to_list m) ∅) as (routes & Hl & Hout & Hin).
  - apply NoDup_fst_map_to_list.
  - intros name o Ho%elem_of_map_to_list. by apply Hwf.
  - exists routes. split; [done|]. intros name. destruct (m !! name) as [o|] eqn:Ho.
    + destruct (Hin name o) as (r & -> & ?); [by apply elem_of_map_to_list|done].
    + rewrite Hout, lookup_empty; [done|]. intros ([n o] & -> & Hx%elem_of_map_to_list)%list_elem_of_fmap. cbn in Ho. congruence.
Qed.

Lemma routes_of_valid m routes : outbounds_ok m -> routes_of m routes -> routes_valid routes.
Proof.
  intros [_ Ht Hac _] Hr.
  assert (Hnext : forall a b, route_next routes a b <-> falls_back m a b).
  { intros a b. unfold route_next, falls_back, fallback_of. specialize (Hr a).
    destruct (m !! a) as [o|], (routes !! a) as [r|]; try done.
    - destruct Hr as (_ & _ & _ & _ & Hf & _). split.
      + intros (r' & [= <-] & <- & Hne). rewrite <- Hf. split_and!; [by eexists|done|done].
      + intros (_ & <- & Hne). exists r. by rewrite Hf.
    - split; [by intros (?&?&_)|by intros [[? ?] _]]. }
  split.
  - intros a b Hab%Hnext. destruct (Ht a b Hab) as [o Ho]. specialize (Hr b). rewrite Ho in Hr. by destruct (routes !! b).
  - intros a Ha. apply (Hac a). eapply tc_congruence with (f := id); [|done]. intros x y. by rewrite Hnext.
Qed.

(** ** Sessions *)

Lemma NewUDP_Ok {P M R D PD} (p : P) (m : M) (routes : gmap string (Route R D PD)) (idle mx per : Z) ss ps :
  0 < idle -> 0 < per <= mx -> (forall name r, routes !! name = Some r -> check_udp_route name r = Ok tt) ->
  routes_valid routes ->
  NewUDPWithLimiter (Some p) (Some m) routes (MkUDPConfig idle mx per) (Some (MkUDPLimiter mx per ss ps)) =
    Ok (MkUDP m routes (MkUDPConfig idle mx per)).
Proof.
  intros Hi Hp Hr Hv. unfold NewUDPWithLimiter. cbn.
  replace (idle <=? 0) with false by (symmetry; apply Z.leb_gt; lia). replace (mx <=? 0) with false by (symmetry; apply Z.leb_gt; lia).
  replace (per <=? 0) with false by (symmetry; apply Z.leb_gt; lia). replace (mx <? per) with false by (symmetry; apply Z.ltb_ge; lia).
  rewrite !Z.eqb_refl. cbn [orb negb guard_err]. rewrite (proj2 (check_routes_spec routes check_udp_route) Hr). cbn [mbind result_bind].
  rewrite (proj2 (validate_routes_spec routes (route_names routes) (elem_of_route_names routes)) Hv). done.
Qed.

Lemma compileSessions_Ok raw s :
  compileSessions raw = Ok s -> 0 < UDPIdleTimeout s /\ 0 < MaxUDPSessionsPerSource s <= MaxUDPSessions s /\ 1 <= MaxTCPFlows s.
Proof.
  unfold compileSessions. intros H. inv_result. subst s. cbn.
  repeat match goal with Hb : bounded _ _ _ _ _ = _ |- _ => apply bounded_Ok in Hb end.
  match goal with Hb : parsePositiveDuration _ _ = _ |- _ => apply parsePositiveDuration_Ok in Hb end. lia.
Qed.

Lemma compiled_engine raw c : compile raw = Ok c -> exists engine, New (ConfigTypes.Rules c) = Ok engine.
Proof.
  intros (default & _ & _ & _ & _ & _ & _ & _ & _ & Hr & _)%compile_Ok.
  apply compileRules_Ok in Hr as (_ & _ & before & d & -> & Hd & _). unfold New. rewrite last_snoc, Hd. eauto.
Qed.

Lemma build_generation_Ok {P} (pools : MappingPools (option P)) runtime leases raw c mx per ss ps :
  compile raw = Ok c -> leases_ok leases -> runtime = runtimeWithInterfaceDNS c leases ->
  MaxUDPSessions (CSessions c) = mx -> MaxUDPSessionsPerSource (CSessions c) = per ->
  exists generation engine routes, buildDataPlaneGeneration pools runtime (MkUDPLimiter mx per ss ps) = Ok generation /\
    New (ConfigTypes.Rules c) = Ok engine /\ routes_of (Outbounds runtime) routes /\
    gen_matcher generation = engine /\ tcp_routes (gen_tcp generation) = routes /\ udp_routes (gen_udp generation) = routes /\
    tcp_matcher (gen_tcp generation) = engine /\ udp_matcher (gen_udp generation) = engine.
Proof.
  intros Hc Hl -> Hmx Hper. destruct (compiled_engine _ _ Hc) as [engine He].
  pose proof (effective_outbounds_ok leases _ Hl (compiled_outbounds_ok _ _ Hc)) as Hok.
  destruct (BuildRoutes_Ok _ Hok) as (routes & Hb & Hr). pose proof (routes_of_valid _ _ Hok Hr) as Hv.
  pose proof Hc as (_ & _ & _ & _ & _ & _ & _ & _ & _ & _ & Hsess & _)%compile_Ok.
  apply compileSessions_Ok in Hsess as (Hidle & Hper' & _).
  assert (Hroute : forall name r, routes !! name = Some r -> exists o, rt_Name r = name /\ route_of o r).
  { intros name r Hn. specialize (Hr name). rewrite Hn in Hr. destruct (_ !! name) as [o|]; [by exists o|done]. }
  assert (Htcp : NewTCP (Some pools) (Some engine) routes runtimeRelayGrace = Ok (MkTCP engine routes runtimeRelayGrace)).
  { apply NewTCP_Ok. split_and!; [|done| |done|done].
    - intros ->. destruct (oo_nonempty _ Hok). apply map_eq. intros name. specialize (Hr name). rewrite !lookup_empty in *.
      by destruct (_ !! name).
    - intros name r Hn. destruct (Hroute _ _ Hn) as (o & <- & _ & ? & _). done. }
  eexists. exists engine, routes. split.
  - unfold buildDataPlaneGeneration. cbn [runtimeWithInterfaceDNS ConfigTypes.Rules Outbounds CSessions]. rewrite He. cbn [map_err mbind result_bind].
    rewrite Hb. cbn [mbind result_bind]. rewrite Htcp. cbn [mbind result_bind]. rewrite Hmx, Hper, NewUDP_Ok; [done|done|lia| |done].
    intros name r Hn. destruct (Hroute _ _ Hn) as (o & <- & _ & _ & ? & _). done.
  - by split_and!.
Qed.

(** ** Starting and reloading *)

Section starting.
Context {P : Type}.

(** A configuration that compiles starts a data plane, whatever servers
    the DHCP leases of its interfaces hold: the discovered servers that
    replace the configured ones are all usable.  And a reload that validates
    against it always gets its generation built, for every state of the
    shared limiter. *)
Theorem compiled_configuration_starts (raw raw2 : rawConfig) (c c2 : Config)
    (run run2 : list string -> result go_error string) (pool4 pool6 : option P) :
  compile raw = Ok c ->
  let effective := runtimeWithInterfaceDNS c (discoverInterfaceDNS run c).1 in
  exists plane first, newDataPlane pool4 pool6 effective = Ok plane /\ dp_generations plane = [first] /\
    routes_of (Outbounds effective) (tcp_routes (gen_tcp first)) /\ New (ConfigTypes.Rules c) = Ok (gen_matcher first) /\
    (compile raw2 = Ok c2 -> ValidateReload (Some c) (Some c2) = [] ->
     forall sessions counts, let l := dp_udpLimiter plane in
     exists next, buildDataPlaneGeneration (dp_pools plane) (runtimeWithInterfaceDNS c2 (discoverInterfaceDNS run2 c2).1)
       (MkUDPLimiter (lim_maxSessions l) (lim_maxPerSource l) sessions counts) = Ok next).
Proof.
  intros Hc effective. pose proof Hc as (_ & _ & _ & _ & _ & _ & _ & _ & _ & _ & Hsess & _)%compile_Ok.
  apply compileSessions_Ok in Hsess as (Hidle & Hper & _).
  set (l0 := MkUDPLimiter (MaxUDPSessions (CSessions c)) (MaxUDPSessionsPerSource (CSessions c)) ∅ ∅).
  assert (Hlim : NewUDPLimiter (MaxUDPSessions (CSessions effective)) (MaxUDPSessionsPerSource (CSessions effective)) = Ok l0).
  { unfold NewUDPLimiter. cbn [effective runtimeWithInterfaceDNS CSessions].
    replace (MaxUDPSessions (CSessions c) <=? 0) with false by (symmetry; apply Z.leb_gt; lia).
    replace (MaxUDPSessionsPerSource (CSessions c) <=? 0) with false by (symmetry; apply Z.leb_gt; lia).
    replace (MaxUDPSessions (CSessions c) <? MaxUDPSessionsPerSource (CSessions c)) with false by (symmetry; apply Z.ltb_ge; lia). done. }
  destruct (build_generation_Ok (plane_pools pool4 pool6 effective) effective (discoverInterfaceDNS run c).1 raw c
    (MaxUDPSessions (CSessions c)) (MaxUDPSessionsPerSource (CSessions c)) ∅ ∅ Hc) as (g & engine & routes & Hg & He & Hr & Hm & Ht & _);
    [apply discover_leases|done..|]. subst routes engine.
  eexists. exists g. unfold newDataPlane. rewrite Hlim. cbn [mbind result_bind]. fold l0 in Hg. rewrite Hg. cbn [mbind result_bind].
  split; [done|]. cbn [dp_generations dp_udpLimiter dp_pools lim_maxSessions lim_maxPerSource l0]. split_and!; [done..|].
  intros Hc2 Hv sessions counts.
  assert (MaxUDPSessions (CSessions c2) = MaxUDPSessions (CSessions c) /\
    MaxUDPSessionsPerSource (CSessions c2) = MaxUDPSessionsPerSource (CSessions c)) as [Hmx Hps].
  { cbn in Hv. rewrite require_services_nil, require_ipv6_nil, require_host_nil in Hv. unfold host_state_of in Hv. cbn in Hv.
    destruct_and!. split; congruence. }
  destruct (build_generation_Ok (plane_pools pool4 pool6 effective) (runtimeWithInterfaceDNS c2 (discoverInterfaceDNS run2 c2).1)
    (discoverInterfaceDNS run2 c2).1 raw2 c2 _ _ sessions counts Hc2 (discover_leases _ _) eq_refl Hmx Hps) as (g2 & _ & _ & Hg2 & _).
  by exists g2.
Qed.
End starting.

Lemma compiled_configuration_starts_witness :
  let run (args : list string) : result go_error string :=
    Ok ("options:" +:+ String (byte 10) "domain_name_server (ip_mult): {9.9.9.9, 127.0.0.1, 9.9.9.9}") in
  exists c plane first, compile (demo_raw "" "" "") = Ok c /\
    (discoverInterfaceDNS run c).1 !! "utun3" = Some [AddrPort (Addr4 0x09090909) 53] /\
    newDataPlane (Some tt) None (runtimeWithInterfaceDNS c (discoverInterfaceDNS run c).1) = Ok plane /\
    dp_generations plane = [first].
Proof.
  intros run. destruct (compile (demo_raw "" "" "")) as [c|e] eqn:Hc; [|vm_compute in Hc; discriminate Hc].
  destruct (compiled_configuration_starts (P := unit) (demo_raw "" "" "") (demo_raw "" "" "") c c run run (Some tt) None Hc)
    as (plane & first & Hp & Hg & _).
  exists c, plane, first. split; [done|]. split; [|split; [exact Hp|exact Hg]].
  clear plane first Hp Hg. revert Hc. vm_compute. intros Hc. injection Hc as <-. vm_compute. reflexivity.
Defined.

(** ** A missing IPv6 pool *)

Definition nil_pool_panic : go_error := failure "panic: nil pointer dereference".

(** The data plane does not notice that it has no IPv6 pool.  Its pools
    hold a nil pointer in an interface that is not nil, so that a flow to a
    native IPv6 address calls a method of the nil pool, where the check for a
    missing pool was meant to refuse the flow - unless the default route is
    captured and the address lies outside a configured prefix. *)
Theorem missing_ipv6_pool_panics {P H : Type} `{MappingPool P H} (pool4 : option P) (runtime : Config)
    (plane : dataPlane P) (address : addr) :
  newDataPlane pool4 None runtime = Ok plane -> is6 address = true -> is4in6 address = false ->
  (forall f, CFakeIPv6 runtime = Some f -> DefaultRoute (CCapture runtime) = true -> prefix_contains (FakePrefix6 f) address = true) ->
  pool_Acquire (MappingPool := pools_mapping) address (dp_pools plane) = (Err nil_pool_panic, dp_pools plane) /\
  forall pools, mp_IPv6 pools = None -> mp_AllowLiteral pools = false ->
    (pool_Acquire (MappingPool := pools_mapping (P := option P)) address pools).1 = Err (failure "Fake IP pool is not configured").
Proof.
  unfold newDataPlane. intros Hp H6 H46 Hf. inv_result. subst plane. cbn [pool_Acquire pools_mapping dp_pools].
  assert (is4 address = false) as H4 by (by destruct address). unfold Acquire_pools. rewrite H4, H6, H46. cbn [andb negb]. split.
  - unfold acquire_from, plane_pools. cbn [mp_AllowLiteral mp_IPv6 mp_IPv6Prefix].
    assert (DefaultRoute (CCapture runtime) && prefix_valid match CFakeIPv6 runtime with Some f => FakePrefix6 f | None => prefix_zero end &&
      negb (prefix_contains match CFakeIPv6 runtime with Some f => FakePrefix6 f | None => prefix_zero end address) = false) as ->.
    { destruct (DefaultRoute (CCapture runtime)); [|done]. destruct (CFakeIPv6 runtime) as [f|]; [|done].
      rewrite (Hf f) by done. by rewrite andb_false_r. }
    done.
  - intros pools Hn Ha. unfold acquire_from. by rewrite Ha, Hn.
Qed.

Lemma missing_ipv6_pool_panics_witness :
  exists c plane, compile (demo_raw "" "" "") = Ok c /\ newDataPlane (Some tt) None c = Ok plane /\
    pool_Acquire (MappingPool := pools_mapping (H0 := pool_pointer (H0 := demo_pool))) (Addr6 (0xfe80 * 2 ^ 112 + 1) "")
      (dp_pools plane) = (Err nil_pool_panic, dp_pools plane).
Proof.
  destruct (compile (demo_raw "" "" "")) as [c|e] eqn:Hc; [|vm_compute in Hc; discriminate Hc].
  destruct (newDataPlane (Some tt) None c) as [plane|e] eqn:Hp.
  - exists c, plane. split; [reflexivity|]. split; [exact Hp|].
    apply (missing_ipv6_pool_panics (H0 := demo_pool) (Some tt) c plane (Addr6 (0xfe80 * 2 ^ 112 + 1) "") Hp); [reflexivity|reflexivity|].
    intros f Hf. vm_compute in Hc. injection Hc as <-. discriminate Hf.
  - exfalso. revert Hp. vm_compute in Hc. injection Hc as <-. vm_compute. discriminate.
Defined.
