(* ===== verification/DataPlaneThreads.v ===== *)
(** * Component [internal/app]: generations under interleaved handlers

    Acquiring a generation without a lock, committing a new one and reading
    the statistics interleave in any order; no generation is dropped while a
    flow uses it, and no statistics are lost or counted twice. *)

From S2P Require Import Prelude.
From S2P Require Import GoStrings.
From S2P Require Import Session.
From S2P Require Import SessionHandle.
From S2P Require Import DataPlane.

(** ** Adding statistics *)

Lemma add_count_comm t x y : add_count (add_count t x) y = add_count (add_count t y) x.
Proof. unfold add_count, wrap64. rewrite !Zplus_mod_idemp_l. f_equal. lia. Qed.

Lemma add_stats_comm t x y : add_stats (add_stats t x) y = add_stats (add_stats t y) x.
Proof.
  unfold add_stats, addTCPStats, addUDPStats. destruct t as [[] []], x as [[] []], y as [[] []]. cbn.
  f_equal; f_equal; apply add_count_comm.
Qed.

Lemma total_from_perm base gens ids ids' : ids ≡ₚ ids' -> total_from base gens ids = total_from base gens ids'.
Proof. apply fold_left_Permutation. intros. apply add_stats_comm. Qed.

Lemma total_from_ext base gens gens' ids :
  (forall g, g ∈ ids -> stats_of gens g = stats_of gens' g) -> total_from base gens ids = total_from base gens' ids.
Proof.
  unfold total_from. revert base. induction ids as [|g ids IH]; intros base Hext; [done|]. cbn [fold_left].
  rewrite Hext by (by left). apply IH. intros x Hx. apply Hext. by right.
Qed.

Lemma total_from_app base gens l1 l2 : total_from base gens (l1 ++ l2) = total_from (total_from base gens l1) gens l2.
Proof. apply fold_left_app. Qed.

(** All generations, by address. *)
Lemma total_from_all gens base : total_from base gens (seq 0 (length gens)) = fold_left (fun acc g => add_stats acc (gen_stats g)) gens base.
Proof.
  assert (H : forall pre base, total_from base (pre ++ gens) (seq (length pre) (length gens)) =
    fold_left (fun acc g => add_stats acc (gen_stats g)) gens base); [|by apply (H [])].
  induction gens as [|g gens IH]; intros pre b; [done|]. cbn [length seq total_from fold_left].
  change (fold_left (fun acc g0 => add_stats acc (stats_of (pre ++ g :: gens) g0)) (seq (S (length pre)) (length gens))
    (add_stats b (stats_of (pre ++ g :: gens) (length pre)))) with
    (total_from (add_stats b (stats_of (pre ++ g :: gens) (length pre))) (pre ++ g :: gens) (seq (S (length pre)) (length gens))).
  replace (S (length pre)) with (length (pre ++ [g])) by (rewrite length_app; cbn; lia).
  replace (pre ++ g :: gens) with ((pre ++ [g]) ++ gens) by (by rewrite <- app_assoc).
  rewrite IH. unfold stats_of. rewrite <- app_assoc. cbn [app]. by rewrite list_lookup_middle by done.
Qed.

(** ** References *)

Definition uses (g : nat) (h : handler) : Z :=
  match h with
  | Counted x | Undoing x | Holding x => if bool_decide (x = g) then 1 else 0
  | Idle | Loaded _ => 0
  end.

Fixpoint users (g : nat) (hs : list handler) : Z :=
  match hs with [] => 0 | h :: hs' => uses g h + users g hs' end.

Lemma users_insert g hs i old h :
  hs !! i = Some old -> users g (<[i := h]> hs) = users g hs - uses g old + uses g h.
Proof.
  revert i. induction hs as [|x hs IH]; intros [|i]; cbn; [done|done|intros [= ->]; lia|]. intros Hi. rewrite IH by done. lia.
Qed.

Lemma users_nonneg g hs : 0 <= users g hs.
Proof. induction hs as [|h hs IH]; cbn; [lia|]. unfold uses. destruct h; try case_bool_decide; lia. Qed.

Lemma users_holding g hs i : hs !! i = Some (Holding g) -> 0 < users g hs.
Proof.
  revert i. induction hs as [|h hs IH]; intros [|i]; cbn; [done|done| |].
  - intros [= ->]. cbn. rewrite bool_decide_true by done. pose proof (users_nonneg g hs). lia.
  - intros Hi%IH. unfold uses. destruct h; try case_bool_decide; lia.
Qed.

Lemma users_idle g n : users g (replicate n Idle) = 0.
Proof. induction n as [|n IH]; [done|]. cbn. lia. Qed.

(** The generation a handler points at. *)
Definition points_at (h : handler) : option nat :=
  match h with Idle => None | Loaded g | Counted g | Undoing g | Holding g => Some g end.

Lemma users_none g hs : (forall i h, hs !! i = Some h -> points_at h <> Some g) -> users g hs = 0.
Proof.
  induction hs as [|h hs IH]; intros Hp; [done|]. cbn. rewrite IH by (intros i x Hi; by apply (Hp (S i))).
  specialize (Hp 0%nat h eq_refl). unfold uses. destruct h; cbn in Hp; try case_bool_decide; subst; try done; lia.
Qed.

(** ** The invariant *)

(** The generations not pruned yet, besides the current one. *)
Definition live (m : machine) : list nat :=
  match mc_owner m with
  | Unlocked => mc_retired m
  | Pruning todo retained => retained ++ todo
  | Reading g todo retained => retained ++ g :: todo
  end.

Record machine_ok (pruned : list nat) (m : machine) : Prop := {
  mo_all : pruned ++ mc_current m :: live m ≡ₚ seq 0 (length (mc_generations m));
  mo_base : mc_base m = total_from no_stats (mc_generations m) pruned;
  mo_refs g : refs_of (mc_generations m) g = users g (mc_handlers m);
  mo_range i h g : mc_handlers m !! i = Some h -> points_at h = Some g -> (g < length (mc_generations m))%nat;
  mo_held i g : mc_handlers m !! i = Some (Holding g) -> g ∉ pruned;
  mo_reading g todo retained i : mc_owner m = Reading g todo retained -> mc_handlers m !! i <> Some (Holding g)
}.

Lemma refs_of_alter gens f g x :
  (g < length gens)%nat -> refs_of (alter f g gens) x =
    if bool_decide (g = x) then match gens !! x with Some y => gen_refs (f y) | None => 0 end else refs_of gens x.
Proof.
  intros Hg. unfold refs_of. case_bool_decide as Hx; [subst x|by rewrite list_lookup_alter_ne].
  rewrite list_lookup_alter_eq. destruct (lookup_lt_is_Some_2 gens g Hg) as [y ->]. done.
Qed.

Lemma stats_of_alter gens f g x :
  (forall y, gen_stats (f y) = gen_stats y) \/ g <> x -> stats_of (alter f g gens) x = stats_of gens x.
Proof.
  intros Hf. unfold stats_of. destruct (decide (g = x)) as [->|Hne]; [|by rewrite list_lookup_alter_ne].
  rewrite list_lookup_alter_eq. destruct Hf as [Hf|]; [|done]. destruct (gens !! x); [apply Hf|done].
Qed.

Lemma current_live pruned m : machine_ok pruned m -> mc_current m ∉ pruned /\ mc_current m ∉ live m /\ (mc_current m < length (mc_generations m))%nat.
Proof.
  intros Hm. pose proof (mo_all _ _ Hm) as Hp. assert (NoDup (pruned ++ mc_current m :: live m)) as Hnd by (rewrite Hp; apply NoDup_seq).
  apply NoDup_app in Hnd as (_ & Hd & Hc). apply NoDup_cons in Hc as [Hc _]. split_and!; [|done|].
  - intros Hin. apply (Hd _ Hin). by left.
  - assert (mc_current m ∈ seq 0 (length (mc_generations m))) as Hin; [|by apply elem_of_seq in Hin; lia].
    rewrite <- Hp. apply elem_of_app. right. by left.
Qed.

(** A step of a handler that keeps or changes references. *)
Lemma handler_step_ok pruned m i old h g n :
  machine_ok pruned m -> mc_handlers m !! i = Some old -> (g < length (mc_generations m))%nat ->
  (forall x, uses x h - uses x old = if bool_decide (g = x) then n else 0) ->
  (forall x, points_at h = Some x -> x = g) ->
  (forall x, h = Holding x -> x ∉ pruned /\ forall todo retained, mc_owner m <> Reading x todo retained) ->
  machine_ok pruned (set_handler i h (on_generation (add_refs n) g m)).
Proof.
  intros Hm Hi Hg Hn Hpt Hhold. pose proof (lookup_lt_Some _ _ _ Hi) as Hlt.
  destruct Hm as [Hall Hbase Hrefs Hrange Hheld Hreading]. split; cbn.
  - by rewrite length_alter.
  - rewrite Hbase. apply total_from_ext. intros x _. symmetry. apply stats_of_alter. by left.
  - intros x. rewrite refs_of_alter by done. erewrite users_insert by done. specialize (Hn x). specialize (Hrefs x).
    unfold refs_of in Hrefs. case_bool_decide as Hx; [subst x|unfold refs_of; lia].
    destruct (lookup_lt_is_Some_2 _ _ Hg) as [y Hy]. rewrite Hy in *. cbn. lia.
  - intros j h' x. rewrite length_alter. destruct (decide (i = j)) as [->|].
    + rewrite list_lookup_insert_eq by done. intros [= <-] Hx. by rewrite (Hpt _ Hx).
    + rewrite list_lookup_insert_ne by done. by apply Hrange.
  - intros j x. destruct (decide (i = j)) as [->|].
    + rewrite list_lookup_insert_eq by done. intros [= ->]. by apply Hhold.
    + rewrite list_lookup_insert_ne by done. apply Hheld.
  - intros x todo retained j Ho. destruct (decide (i = j)) as [->|].
    + rewrite list_lookup_insert_eq by done. intros [= ->]. by eapply Hhold.
    + rewrite list_lookup_insert_ne by done. by eapply Hreading.
Qed.

Lemma on_generation_0 g m : on_generation (add_refs 0) g m = m.
Proof.
  unfold on_generation. rewrite list_alter_id; [by destruct m|]. intros []. unfold add_refs, set_refs. cbn. by rewrite Z.add_0_r.
Qed.

Lemma handler_move_ok pruned m i old h :
  machine_ok pruned m -> mc_handlers m !! i = Some old -> (forall x, uses x h = uses x old) ->
  (forall x, points_at h = Some x -> (x < length (mc_generations m))%nat) ->
  (forall x, h = Holding x -> x ∉ pruned /\ forall todo retained, mc_owner m <> Reading x todo retained) ->
  machine_ok pruned (set_handler i h m).
Proof.
  intros Hm Hi Hu Hpt Hhold. pose proof (current_live _ _ Hm) as (_ & _ & Hcur).
  rewrite <- (on_generation_0 match points_at h with Some x => x | None => mc_current m end m).
  eapply handler_step_ok; [done|done| | | |done].
  - destruct (points_at h) as [x|] eqn:Hx; [by apply Hpt|done].
  - intros x. rewrite Hu. case_bool_decide; lia.
  - by intros x ->.
Qed.

Lemma release_ok pruned m i g old :
  machine_ok pruned m -> mc_handlers m !! i = Some old -> old = Undoing g \/ old = Holding g ->
  machine_ok pruned (set_handler i Idle (on_generation (add_refs (-1)) g m)).
Proof.
  intros Hm Hi Hold. eapply handler_step_ok; try done.
  - eapply mo_range; [done|done|]. by destruct Hold as [-> | ->].
  - intros x. destruct Hold as [-> | ->]; cbn; by case_bool_decide.
Qed.

(** Moving the boundary of the pruned generations. *)
Lemma owner_step_ok pruned m pruned' base' retired' owner' :
  machine_ok pruned m ->
  let m' := MkMachine (mc_generations m) (mc_current m) retired' base' (mc_handlers m) owner' in
  pruned' ++ mc_current m :: live m' ≡ₚ pruned ++ mc_current m :: live m ->
  base' = total_from no_stats (mc_generations m) pruned' ->
  (forall i g, mc_handlers m !! i = Some (Holding g) -> g ∉ pruned') ->
  (forall g todo retained i, owner' = Reading g todo retained -> mc_handlers m !! i <> Some (Holding g)) ->
  machine_ok pruned' m'.
Proof.
  intros [Hall Hbase Hrefs Hrange Hheld Hreading] m' Hperm Hb Hh Hr. split; cbn; try done. by rewrite <- Hall, <- Hperm.
Qed.

Lemma plane_step_ok pruned m m' : machine_ok pruned m -> plane_step m m' -> exists pruned', machine_ok pruned' m'.
Proof.
  intros Hm Hstep. pose proof (current_live _ _ Hm) as (Hnp & Hnl & Hcur).
  inversion Hstep as [? i Hi|? i g Hi|? i g Hi|? i g Hi|? i g s Hi|? i g Hi|? next Ho Hnr Hns|? Ho|? g todo retained Ho Hr|
    ? g todo retained Ho Hr|? g todo retained Ho|? retained Ho]; subst.
  - exists pruned. eapply handler_move_ok; [done|done|done| |done]. by intros x [= <-].
  - exists pruned. eapply handler_step_ok; [done|done|by eapply mo_range| | |done].
    + intros x. cbn. by case_bool_decide.
    + by intros x [= <-].
  - exists pruned. eapply handler_move_ok; [done|done| | |].
    + intros x. by case_bool_decide.
    + intros x. case_bool_decide; intros [= <-]; by eapply mo_range.
    + intros x. case_bool_decide as Hc; [|done]. intros [= <-]. subst g. split; [done|]. intros todo retained Ho.
      apply Hnl. unfold live. rewrite Ho. apply elem_of_app. right. by left.
  - exists pruned. eapply release_ok; [done|done|by left].
  - exists pruned. pose proof (mo_held _ _ Hm _ _ Hi) as Hg. destruct Hm as [Hall Hbase Hrefs Hrange Hheld Hreading]. split; cbn; try done.
    + by rewrite length_alter.
    + rewrite Hbase. apply total_from_ext. intros x Hx. symmetry. apply stats_of_alter. right. by intros ->.
    + intros x. rewrite <- Hrefs, refs_of_alter by (by eapply Hrange). unfold refs_of. case_bool_decide; [|done]. by destruct (_ !! x).
    + intros j h x. rewrite length_alter. by apply Hrange.
  - exists pruned. eapply release_ok; [done|done|by right].
  - exists pruned. pose proof (mo_all _ _ Hm) as Hall. destruct Hm as [_ Hbase Hrefs Hrange Hheld Hreading]. split; cbn.
    + rewrite length_app, seq_app. cbn [length seq]. rewrite <- Hall. unfold live. cbn. rewrite Ho. solve_Permutation.
    + rewrite Hbase. apply total_from_ext. intros x Hx. unfold stats_of. rewrite lookup_app_l; [done|].
      assert (x ∈ seq 0 (length (mc_generations m))) as Hin; [|apply elem_of_seq in Hin; lia].
      rewrite <- Hall. apply elem_of_app. by left.
    + intros x. unfold refs_of. destruct (decide (x < length (mc_generations m))%nat) as [Hx|Hx].
      * rewrite lookup_app_l by done. apply Hrefs.
      * rewrite users_none; [|intros i h Hi Hp; apply Hx; by eapply Hrange].
        rewrite lookup_app_r by lia. destruct (x - _)%nat as [|k]; [done|]. by destruct k.
    + intros i h x Hi Hp. rewrite length_app. specialize (Hrange _ _ _ Hi Hp). lia.
    + done.
    + done.
  - exists pruned. apply (owner_step_ok pruned); [done| |apply Hm|apply Hm|done]. unfold live. cbn. by rewrite Ho.
  - exists pruned. apply (owner_step_ok pruned); [done| |apply Hm|apply Hm|done]. unfold live. cbn. rewrite Ho. by rewrite <- app_assoc.
  - exists pruned. apply (owner_step_ok pruned); [done| |apply Hm|apply Hm|].
    + unfold live. cbn. by rewrite Ho.
    + intros x t r i [= <- <- <-] Hi. apply users_holding in Hi. rewrite <- (mo_refs _ _ Hm) in Hi. lia.
  - exists (pruned ++ [g]). apply (owner_step_ok pruned); [done| | | |done].
    + unfold live. cbn. rewrite Ho. rewrite <- !app_assoc. cbn [app]. solve_Permutation.
    + rewrite total_from_app, <- (mo_base _ _ Hm). done.
    + intros i x Hi. rewrite elem_of_app, list_elem_of_singleton. intros [Hin|Heq].
      * by eapply (mo_held _ _ Hm).
      * rewrite Heq in Hi. by eapply (mo_reading _ _ Hm).
  - exists pruned. apply (owner_step_ok pruned); [done| |apply Hm|apply Hm|done]. unfold live. cbn. rewrite Ho. by rewrite app_nil_r.
Qed.

Lemma plane_start_ok n first : gen_refs first = 0 -> machine_ok [] (plane_start n first).
Proof.
  intros Hr. split; cbn.
  - done.
  - done.
  - intros g. rewrite users_idle. unfold refs_of. destruct g as [|g]; [done|]. by rewrite list_lookup_nil || (destruct g; done).
  - intros i h g [-> _]%lookup_replicate. done.
  - intros i g [? _]%lookup_replicate. done.
  - done.
Qed.

Lemma plane_reachable_ok n first m :
  gen_refs first = 0 -> rtc plane_step (plane_start n first) m -> exists pruned, machine_ok pruned m.
Proof.
  intros Hr. intros H. assert (Hs : exists pruned, machine_ok pruned (plane_start n first)) by (exists []; by apply plane_start_ok).
  induction H as [|x y z Hxy _ IH]; [done|]. apply IH. destruct Hs as [p Hp]. by eapply plane_step_ok.
Qed.

(** ** Properties *)

(** C34: policy generations under any interleaving of handlers, commits and
    statistics.  The base, the current generation and those not pruned yet
    always add up to the statistics of all generations there ever were, so
    that a reload loses and duplicates none - also those a flow adds after its
    generation was retired.  A generation that a flow uses is never dropped,
    its references are exactly the handlers that counted it, and without any
    handler in between the references of every generation are zero, so that
    the next prune drops all retired ones. *)
Theorem generations_keep_statistics (n : nat) (first : dataPlaneGeneration) (m : machine) :
  gen_refs first = 0 -> rtc plane_step (plane_start n first) m ->
  total_from (mc_base m) (mc_generations m) (mc_current m :: live m) = all_stats m /\
  (mc_owner m = Unlocked -> reported m = all_stats m) /\
  (forall i g, mc_handlers m !! i = Some (Holding g) -> g ∈ mc_current m :: live m) /\
  (forall g, refs_of (mc_generations m) g = users g (mc_handlers m)) /\
  ((forall i h, mc_handlers m !! i = Some h -> h = Idle) ->
   (prune_loop (mc_generations m) (mc_retired m) [] (mc_base m)).1 = []).
Proof.
  intros Hfirst Hreach. destruct (plane_reachable_ok _ _ _ Hfirst Hreach) as [pruned Hm].
  assert (Htotal : total_from (mc_base m) (mc_generations m) (mc_current m :: live m) = all_stats m).
  { rewrite (mo_base _ _ Hm), <- total_from_app, (total_from_perm _ _ _ _ (mo_all _ _ Hm)). apply total_from_all. }
  split_and!; [done| | |apply Hm|].
  - intros Ho. rewrite <- Htotal. unfold reported, live. by rewrite Ho.
  - intros i g Hi. pose proof (mo_held _ _ Hm _ _ Hi) as Hg.
    assert (g ∈ seq 0 (length (mc_generations m))) as Hin by (apply elem_of_seq; split; [lia|]; by eapply (mo_range _ _ Hm)).
    rewrite <- (mo_all _ _ Hm) in Hin. by apply elem_of_app in Hin as [?|?].
  - intros Hidle. assert (Hz : forall g, refs_of (mc_generations m) g = 0).
    { intros g. rewrite (mo_refs _ _ Hm). apply users_none. intros i h Hi. by rewrite (Hidle _ _ Hi). }
    generalize (mc_base m). induction (mc_retired m) as [|g l IH]; intros base; [done|]. cbn. rewrite Hz. apply IH.
Qed.

Definition demo_generation : dataPlaneGeneration :=
  MkGeneration (MkTCP [] ∅ 0) (MkUDP [] ∅ (MkUDPConfig 0 0 0)) [] no_stats 0.

(** A flow that is handled across a commit: its generation is retained, and
    what it counts afterwards is reported. *)
Lemma generations_keep_statistics_witness :
  let s := (MkStats 1 0 1 0 0 0, MkUDPStats 0 0 0 0 0 0 0 0) in
  exists m, rtc plane_step (plane_start 1 demo_generation) m /\ mc_retired m = [0%nat] /\ mc_current m = 1%nat /\
    reported m = s /\ reported m = all_stats m.
Proof.
  intros s.
  set (m := MkMachine [set_stats s (set_refs 1 demo_generation); demo_generation] 1 [0%nat] no_stats [Holding 0] Unlocked).
  assert (Hreach : rtc plane_step (plane_start 1 demo_generation) m).
  { eapply rtc_l; [apply (StepLoad _ 0); reflexivity|].
    eapply rtc_l; [apply (StepCount _ 0 0); reflexivity|].
    eapply rtc_l; [apply (StepCheck _ 0 0); reflexivity|].
    eapply rtc_l; [apply (StepSwap _ demo_generation); reflexivity|].
    eapply rtc_l; [eapply StepRetain; [reflexivity|discriminate]|].
    eapply rtc_l; [eapply StepUnlock; reflexivity|].
    eapply rtc_l; [apply (StepHandle _ 0 0 s); reflexivity|]. apply rtc_refl. }
  exists m. split; [exact Hreach|]. split; [reflexivity|]. split; [reflexivity|]. split; [reflexivity|].
  apply (generations_keep_statistics 1 demo_generation m eq_refl Hreach). reflexivity.
Defined.
