(* ===== verification/FakeDNS.v ===== *)
(** * Component [internal/fakedns]: the Fake DNS server

    Answering one query: the capacity, the name, the policy that selects a
    Fake IP answer, forwarding, and the counters.  Building replies is the DNS
    library's; an upstream, the writer of the transport and the persistence of
    the pools are parameters. *)

From S2P Require Import Prelude.
From S2P Require Import GoStrings.
From S2P Require Import GoTime.
From S2P Require Import NetIP.
From S2P Require Import DomainName.
From S2P Require Import Outbound.
From S2P Require Import Resolver.
From S2P Require Import FakeIPPool.

(** ** Data *)

Record Config : Type := MkConfig {
  dc_Listen : addr_port;
  dc_UDP : bool;
  dc_TCP : bool;
  dc_TTL : Z;
  dc_QueryTimeout : Z;
  dc_MaxConcurrent : Z;
  dc_ShouldFake : option (string -> bool)
}.

(** The counters, 64-bit. *)
Record Stats : Type := MkStats {
  Queries : Z;
  FakeAnswers : Z;
  FakeIPv4Answers : Z;
  FakeIPv6Answers : Z;
  NODATAAnswers : Z;
  Forwarded : Z;
  Failures : Z;
  CapacityRejects : Z
}.

Record runtimeConfig (U : Type) : Type := MkRuntime {
  rc_ttl : Z;
  rc_queryTimeout : Z;
  rc_exclude : list Pattern;
  rc_shouldFake : option (string -> bool);
  rc_upstream : U
}.
Arguments MkRuntime {U}.
Arguments rc_ttl {U}.
Arguments rc_queryTimeout {U}.
Arguments rc_exclude {U}.
Arguments rc_shouldFake {U}.
Arguments rc_upstream {U}.

(** [Server]; [srv_in_use] is the number of tokens in its semaphore. *)
Record Server (U : Type) : Type := MkServer {
  srv_config : Config;
  srv_ipv4Pool : Pool;
  srv_ipv6Pool : option Pool;
  srv_runtime : runtimeConfig U;
  srv_in_use : Z;
  srv_stats : Stats
}.
Arguments MkServer {U}.
Arguments srv_config {U}.
Arguments srv_ipv4Pool {U}.
Arguments srv_ipv6Pool {U}.
Arguments srv_runtime {U}.
Arguments srv_in_use {U}.
Arguments srv_stats {U}.

Definition RcodeFormatError : Z := 1.
Definition RcodeNameError : Z := 3.

Definition dns_inc (x : Z) : Z := wrap64 (x + 1).

Definition count_query (s : Stats) : Stats :=
  MkStats (dns_inc (Queries s)) (FakeAnswers s) (FakeIPv4Answers s) (FakeIPv6Answers s) (NODATAAnswers s) (Forwarded s)
    (Failures s) (CapacityRejects s).

Definition count_failure (s : Stats) : Stats :=
  MkStats (Queries s) (FakeAnswers s) (FakeIPv4Answers s) (FakeIPv6Answers s) (NODATAAnswers s) (Forwarded s)
    (dns_inc (Failures s)) (CapacityRejects s).

Definition count_capacity (s : Stats) : Stats :=
  MkStats (Queries s) (FakeAnswers s) (FakeIPv4Answers s) (FakeIPv6Answers s) (NODATAAnswers s) (Forwarded s)
    (Failures s) (dns_inc (CapacityRejects s)).

Definition count_nodata (s : Stats) : Stats :=
  MkStats (Queries s) (FakeAnswers s) (FakeIPv4Answers s) (FakeIPv6Answers s) (dns_inc (NODATAAnswers s)) (Forwarded s)
    (Failures s) (CapacityRejects s).

Definition count_forwarded (s : Stats) : Stats :=
  MkStats (Queries s) (FakeAnswers s) (FakeIPv4Answers s) (FakeIPv6Answers s) (NODATAAnswers s) (dns_inc (Forwarded s))
    (Failures s) (CapacityRejects s).

Definition count_fake (six : bool) (s : Stats) : Stats :=
  MkStats (Queries s) (dns_inc (FakeAnswers s))
    (if six then FakeIPv4Answers s else dns_inc (FakeIPv4Answers s))
    (if six then dns_inc (FakeIPv6Answers s) else FakeIPv6Answers s)
    (NODATAAnswers s) (Forwarded s) (Failures s) (CapacityRejects s).

(** [Addr.AsSlice] *)
Fixpoint be_bytes (n : nat) (v : Z) : list Z :=
  match n with O => [] | S n' => be_bytes n' (v / 256) ++ [v mod 256] end.

Definition addr_slice (a : addr) : list Z :=
  match a with AddrZero => [] | Addr4 v => be_bytes 4 v | Addr6 v _ => be_bytes 16 v end.

Definition with_stats {U} (f : Stats -> Stats) (s : Server U) : Server U :=
  MkServer (srv_config s) (srv_ipv4Pool s) (srv_ipv6Pool s) (srv_runtime s) (srv_in_use s) (f (srv_stats s)).

Definition with_pool {U} (six : bool) (p : Pool) (s : Server U) : Server U :=
  if six then MkServer (srv_config s) (srv_ipv4Pool s) (Some p) (srv_runtime s) (srv_in_use s) (srv_stats s)
  else MkServer (srv_config s) p (srv_ipv6Pool s) (srv_runtime s) (srv_in_use s) (srv_stats s).

Definition with_tokens {U} (n : Z) (s : Server U) : Server U :=
  MkServer (srv_config s) (srv_ipv4Pool s) (srv_ipv6Pool s) (srv_runtime s) n (srv_stats s).

Definition with_runtime {U} (r : runtimeConfig U) (s : Server U) : Server U :=
  MkServer (srv_config s) (srv_ipv4Pool s) (srv_ipv6Pool s) r (srv_in_use s) (srv_stats s).

(** [excluded] *)
Definition excluded (patterns : list Pattern) (domain : string) : bool :=
  existsb (fun pattern => Matches pattern domain) patterns.

(** The lifetime of an answer in seconds. *)
Definition ttlSeconds (ttl : Z) : Z :=
  let seconds := ttl `quot` second in
  let seconds := if seconds <? 1 then 1 else seconds in
  if 2 ^ 32 - 1 <? seconds then 2 ^ 32 - 1 else seconds.

(** ** Construction and reload *)

(** [NewDualStack]; a nil pool or upstream is [None]. *)
Definition NewDualStack {U} (config : Config) (ipv4Pool ipv6Pool : option Pool) (exclude : list Pattern) (upstream : option U)
    : result go_error (Server U) :=
  fail_if negb (ap_valid (dc_Listen config)) || negb (is4 (ap_addr (dc_Listen config))) ||
          negb (is_loopback (ap_addr (dc_Listen config))) || (ap_port (dc_Listen config) =? 0)
  with failure "Fake DNS listen address must be non-zero IPv4 loopback" in
  fail_if negb (dc_UDP config) && negb (dc_TCP config) with failure "Fake DNS requires UDP or TCP" in
  fail_if dc_TTL config <=? 0 with failure "Fake DNS TTL must be positive" in
  let timeout := if dc_QueryTimeout config =? 0 then 5 * second else dc_QueryTimeout config in
  let config := MkConfig (dc_Listen config) (dc_UDP config) (dc_TCP config) (dc_TTL config) timeout
                  (dc_MaxConcurrent config) (dc_ShouldFake config) in
  fail_if timeout <? 0 with failure "Fake DNS query timeout must be positive" in
  fail_if (dc_MaxConcurrent config <=? 0) || (65536 <? dc_MaxConcurrent config)
  with failure "Fake DNS max concurrency must be between 1 and 65536" in
  match ipv4Pool with
  | None => Err (failure "Fake IP pool is required")
  | Some p4 =>
      fail_if negb (is4 (prefix_addr (p_prefix p4))) with failure "Fake IPv4 pool must use an IPv4 prefix" in
      fail_if match ipv6Pool with
              | Some p6 => negb (is6 (prefix_addr (p_prefix p6))) || is4in6 (prefix_addr (p_prefix p6))
              | None => false
              end with failure "Fake IPv6 pool must use an IPv6 prefix" in
      match upstream with
      | None => Err (failure "explicit upstream resolver is required")
      | Some u =>
          Ok (MkServer config p4 ipv6Pool (MkRuntime (dc_TTL config) timeout exclude (dc_ShouldFake config) u) 0
                (MkStats 0 0 0 0 0 0 0 0))
      end
  end.

(** [ReloadPolicy] *)
Definition ReloadPolicy {U} (ttl queryTimeout : Z) (exclude : list Pattern) (shouldFake : option (string -> bool))
    (upstream : option U) (s : Server U) : result go_error (Server U) :=
  fail_if ttl <=? 0 with failure "Fake DNS TTL must be positive" in
  fail_if queryTimeout <=? 0 with failure "Fake DNS query timeout must be positive" in
  match upstream with
  | None => Err (failure "explicit upstream resolver is required")
  | Some u => Ok (with_runtime (MkRuntime ttl queryTimeout exclude shouldFake u) s)
  end.

(** [Reload] *)
Definition Reload {U} (ttl queryTimeout : Z) (exclude : list Pattern) (upstream : option U) (s : Server U)
    : result go_error (Server U) :=
  ReloadPolicy ttl queryTimeout exclude (rc_shouldFake (srv_runtime s)) upstream s.

(** ** One query *)

Section serving.
Context {U : Type}.

(** The DNS library: [SetReply] and [SetRcode] on a new message; an upstream;
    whether the writer takes a message; the persistence callbacks. *)
Context (SetReply : Msg -> Msg) (SetRcode : Msg -> Z -> Msg).
Context (Exchange : U -> Msg -> result go_error (option Msg)) (writes : Msg -> bool).
Context (persist4 persist6 : persistenceUpdate -> bool) (now : Z).

Local Notation Server := (Server U).

(** [WriteMsg], with the failure it counts. *)
Definition write_counted (reply : Msg) (s : Server) : Msg * Server :=
  (reply, if writes reply then s else with_stats count_failure s).

(** [writeFailure] *)
Definition writeFailure (request : Msg) (rcode : Z) (s : Server) : Msg * Server :=
  (SetRcode request rcode, with_stats count_failure s).

Definition set_id (id : Z) (m : Msg) : Msg :=
  MkMsg id (msg_Authoritative m) (msg_Truncated m) (msg_Rcode m) (msg_Question m) (msg_Answer m).

(** [forward]; the request is copied. *)
Definition forward (request : Msg) (s : Server) : Msg * Server :=
  match Exchange (rc_upstream (srv_runtime s)) request with
  | Ok (Some reply) => write_counted (set_id (msg_Id request) reply) (with_stats count_forwarded s)
  | _ => writeFailure request RcodeServerFailure s
  end.

Definition authoritative (answer : list RR) (reply : Msg) : Msg :=
  MkMsg (msg_Id reply) true (msg_Truncated reply) (msg_Rcode reply) (msg_Question reply) answer.

Definition goes_upstream (runtime : runtimeConfig U) (question : Question) (domain : string) : bool :=
  excluded (rc_exclude runtime) domain ||
  (negb (bool_decide (q_Qtype question = TypeA)) && negb (bool_decide (q_Qtype question = TypeAAAA))) ||
  match rc_shouldFake runtime with Some f => negb (f domain) | None => false end.

(** The answer from a pool. *)
Definition answer_fake (request : Msg) (question : Question) (domain : string) (s : Server) : Msg * Server :=
  let reply := SetReply request in
  let six := bool_decide (q_Qtype question = TypeAAAA) in
  match if six then srv_ipv6Pool s else Some (srv_ipv4Pool s) with
  | None => write_counted (authoritative (msg_Answer reply) reply) (with_stats count_nodata s)
  | Some pool =>
      let '(pool, r) := GetOrAllocate (if six then persist6 else persist4) domain now pool in
      let s := with_pool six pool s in
      match r with
      | Err _ => writeFailure request RcodeServerFailure s
      | Ok address =>
          let ttl := ttlSeconds (rc_ttl (srv_runtime s)) in
          let rr := if six then RR_AAAA (q_Name question) ttl (addr_slice address)
                    else RR_A (q_Name question) ttl (addr_slice address) in
          write_counted (authoritative [rr] reply) (with_stats (count_fake six) s)
      end
  end.

(** The part of [ServeDNS] that holds a token. *)
Definition serve_held (request : Msg) (s : Server) : Msg * Server :=
  match msg_Question request with
  | [question] =>
      match Normalize (q_Name question) with
      | Err _ => writeFailure request RcodeNameError s
      | Ok domain =>
          if goes_upstream (srv_runtime s) question domain then forward request s
          else answer_fake request question domain s
      end
  | _ => writeFailure request RcodeFormatError s
  end.

(** [ServeDNS]: the message it writes and the server after it. *)
Definition ServeDNS (request : Msg) (s : Server) : Msg * Server :=
  let s := with_stats count_query s in
  if srv_in_use s <? dc_MaxConcurrent (srv_config s) then
    let '(reply, s') := serve_held request (with_tokens (srv_in_use s + 1) s) in
    (reply, with_tokens (srv_in_use s' - 1) s')
  else writeFailure request RcodeServerFailure (with_stats count_capacity s).
End serving.

(** ** Listeners *)

(** [validateListenerAddress] on the text of an address. *)
Definition validateListenerAddress (address : string) (expected : addr_port) : result go_error unit :=
  match parse_addr_port address with
  | None => Err (failure "parse inherited Fake DNS listener address")
  | Some actual => fail_if negb (bool_decide (actual = expected)) with failure "inherited Fake DNS listener" in Ok tt
  end.

(** The checks of [StartWithListeners] before it takes the sockets, which are
    the texts of their addresses. *)
Definition check_listeners (config : Config) (udp tcp : option string) : result go_error unit :=
  fail_if negb (Bool.eqb (dc_UDP config) (bool_decide (is_Some udp))) with failure "UDP listener presence does not match" in
  fail_if negb (Bool.eqb (dc_TCP config) (bool_decide (is_Some tcp))) with failure "TCP listener presence does not match" in
  let! _ := match udp with Some a => validateListenerAddress a (dc_Listen config) | None => Ok tt end in
  match tcp with Some a => validateListenerAddress a (dc_Listen config) | None => Ok tt end.
