(* ===== verification/FakeDNSFacts.v ===== *)
(** * Component [internal/fakedns]: what a query is answered *)

From S2P Require Import Prelude.
From S2P Require Import GoStrings.
From S2P Require Import GoTime.
From S2P Require Import NetIP.
From S2P Require Import DomainName.
From S2P Require Import Outbound.
From S2P Require Import Resolver.
From S2P Require Import FakeIPPool.
From S2P Require Import FakeIPPoolFacts.
From S2P Require Import FakeIPAlloc.
From S2P Require Import FakeIPProperties.
From S2P Require Import FakeDNS.

(** ** Pools *)

Definition pool_ok (six : bool) (p : Pool) : Prop := (exists s e, pool_inv p six s e) /\ 0 < p_mappingTTL p.

Record server_ok {U} (s : Server U) : Prop := {
  so_ipv4 : pool_ok false (srv_ipv4Pool s);
  so_ipv6 p : srv_ipv6Pool s = Some p -> pool_ok true p;
  so_ttl : 0 < rc_ttl (srv_runtime s)
}.

Lemma GetOrAllocate_config persist domain now p : config_of (GetOrAllocate persist domain now p).1 = config_of p.
Proof.
  unfold GetOrAllocate. pose proof (config_alloc_begin domain now p) as Hb. destruct (alloc_begin domain now p) as [p1 [r|a]]; [done|].
  by rewrite config_alloc_finish.
Qed.

(** An address given out for a domain: of the family, and looking up to the
    domain for the lifetime of its mapping. *)
Definition leased (six : bool) (d : string) (a : addr) (now : Z) (p : Pool) : Prop :=
  is6 a = six /\ is4 a = negb six /\
  forall later, now <= later < now + p_mappingTTL p -> (Lookup a later p).2 = Some d.

Lemma fam_family six v : is6 (fam six v) = six /\ is4 (fam six v) = negb six.
Proof. by destruct six. Qed.

Lemma GetOrAllocate_leases persist six domain d now p p' a :
  pool_ok six p -> Normalize domain = Ok d -> GetOrAllocate persist domain now p = (p', Ok a) -> leased six d a now p'.
Proof.
  intros [(s & e & Hinv) Httl] Hd Hg. pose proof (GetOrAllocate_facts p six s e persist domain now Hinv) as Hf.
  pose proof (GetOrAllocate_config persist domain now p) as Hcfg.
  rewrite Hd, Hg in Hf. rewrite Hg in Hcfg. cbn [fst snd] in *. destruct Hf as (persisted & _ & Hspec & Hinv').
  assert (Htt : p_mappingTTL p' = p_mappingTTL p) by (by injection Hcfg).
  assert (Hen : exists en, view p' !! d = Some en /\ e_address en = a /\ e_expiresAt en = now + p_mappingTTL p).
  { inversion Hspec as [en Hv Hm| |v Hv Hs Hp Hr Hfree Hm|]; subst; rewrite Hm, lookup_insert_eq; eexists; by split_and!. }
  destruct Hen as (en & Hv & Ha & Hex). unfold leased. rewrite Htt.
  assert (Hfam : exists v, a = fam six v).
  { apply (view_Some Hinv') in Hv as (x & Hl & _). destruct (i_range _ _ _ _ Hinv' _ _ Hl) as (v & Hr & _). exists v. congruence. }
  destruct Hfam as [v ->]. destruct (fam_family six v) as [H6 H4]. split_and!; [done|done|].
  intros later Hlater. apply (Lookup_facts p' six s e (fam six v) later Hinv'). exists en. split_and!; [done|done|].
  unfold expired. rewrite Hex. replace (now + p_mappingTTL p <=? later) with false by (symmetry; apply Z.leb_gt; lia). done.
Qed.

Lemma GetOrAllocate_pool_ok persist six domain now p : pool_ok six p -> pool_ok six (GetOrAllocate persist domain now p).1.
Proof.
  intros [(s & e & Hinv) Httl]. pose proof (GetOrAllocate_facts p six s e persist domain now Hinv) as Hf.
  pose proof (GetOrAllocate_config persist domain now p) as Hcfg. split; [|injection Hcfg; intros; congruence].
  exists s, e. destruct (Normalize domain) as [d|er]; [by destruct Hf as (_ & _ & _ & ?)|by rewrite Hf].
Qed.

(** ** The lifetime in an answer *)

Lemma ttlSeconds_bounds ttl :
  1 <= ttlSeconds ttl <= 2 ^ 32 - 1 /\ (second <= ttl -> ttlSeconds ttl * second <= ttl).
Proof.
  unfold ttlSeconds. assert (Hs : 0 < second) by done. split.
  - destruct (Z.ltb_spec (ttl `quot` second) 1); [by vm_compute|].
    destruct (Z.ltb_spec (2 ^ 32 - 1) (ttl `quot` second)); lia.
  - intros Hge. assert (1 <= ttl `quot` second) as Hq by (apply Z.quot_le_lower_bound; lia).
    pose proof (Z.mul_quot_le ttl second). 
    replace (ttl `quot` second <? 1) with false by (symmetry; apply Z.ltb_ge; lia).
    destruct (Z.ltb_spec (2 ^ 32 - 1) (ttl `quot` second)); nia.
Qed.

Section serving.
Context {U : Type} (SetReply : Msg -> Msg) (SetRcode : Msg -> Z -> Msg).
Context (Exchange : U -> Msg -> result go_error (option Msg)) (writes : Msg -> bool).
Context (persist4 persist6 : persistenceUpdate -> bool) (now : Z).

Local Notation ServeDNS := (ServeDNS SetReply SetRcode Exchange writes persist4 persist6 now).

(** What the DNS library documents of [SetReply] and [SetRcode] on a new
    message: the identifier and the question of the request, no answer. *)
Record dns_library : Prop := {
  dl_reply_id m : msg_Id (SetReply m) = msg_Id m;
  dl_reply_question m q : msg_Question m = [q] -> msg_Question (SetReply m) = [q];
  dl_reply_rcode m : msg_Rcode (SetReply m) = 0;
  dl_reply_answer m : msg_Answer (SetReply m) = [];
  dl_rcode_id m r : msg_Id (SetRcode m r) = msg_Id m;
  dl_rcode_rcode m r : msg_Rcode (SetRcode m r) = r;
  dl_rcode_answer m r : msg_Answer (SetRcode m r) = []
}.

(** The only record of a fake answer. *)
Definition fake_record (six : bool) (name : string) (ttl : Z) (a : addr) : RR :=
  if six then RR_AAAA name ttl (addr_slice a) else RR_A name ttl (addr_slice a).

(** A failed answer: a code, no records, one failure counted. *)
Definition failed (request reply : Msg) (rcode : Z) (s s' : Server U) : Prop :=
  msg_Rcode reply = rcode /\ msg_Answer reply = [] /\ srv_stats s' = count_failure (srv_stats s).

(** A written answer, counted once more when the writer refuses it. *)
Definition counted (reply : Msg) (f : Stats -> Stats) (s s' : Server U) : Prop :=
  srv_stats s' = (if writes reply then f (srv_stats s) else count_failure (f (srv_stats s))).

Definition same_pools (s s' : Server U) : Prop := srv_ipv4Pool s' = srv_ipv4Pool s /\ srv_ipv6Pool s' = srv_ipv6Pool s.

(** The pool of a family. *)
Definition pool_of (six : bool) (s : Server U) : option Pool := if six then srv_ipv6Pool s else Some (srv_ipv4Pool s).

(** The answer to a name that gets a Fake IP. *)
Definition fake_answer (request reply : Msg) (q : Question) (d : string) (s s' : Server U) : Prop :=
  let six := bool_decide (q_Qtype q = TypeAAAA) in
  match pool_of six s with
  | None => msg_Rcode reply = 0 /\ msg_Question reply = [q] /\ msg_Answer reply = [] /\ same_pools s s' /\
      counted reply count_nodata s s'
  | Some _ =>
      failed request reply RcodeServerFailure s s' \/
      exists p a, pool_of six s' = Some p /\ leased six d a now p /\
        msg_Rcode reply = 0 /\ msg_Question reply = [q] /\ msg_Authoritative reply = true /\
        msg_Answer reply = [fake_record six (q_Name q) (ttlSeconds (rc_ttl (srv_runtime s))) a] /\
        counted reply (count_fake six) s s'
  end.

(** What is answered while the capacity lasts. *)
Definition held_answer (request reply : Msg) (s s' : Server U) : Prop :=
  match msg_Question request with
  | [q] =>
      match Normalize (q_Name q) with
      | Err _ => failed request reply RcodeNameError s s' /\ same_pools s s'
      | Ok d =>
          if goes_upstream (srv_runtime s) q d then
            same_pools s s' /\
            match Exchange (rc_upstream (srv_runtime s)) request with
            | Ok (Some m) => reply = set_id (msg_Id request) m /\ counted reply count_forwarded s s'
            | _ => failed request reply RcodeServerFailure s s'
            end
          else fake_answer request reply q d s s'
      end
  | _ => failed request reply RcodeFormatError s s' /\ same_pools s s'
  end.

(** What a query leaves alone. *)
Definition serving_kept (s s' : Server U) : Prop :=
  server_ok s' /\ srv_config s' = srv_config s /\ srv_runtime s' = srv_runtime s.

Lemma with_stats_ok f s : server_ok s -> serving_kept s (with_stats f s).
Proof. intros Hs. unfold serving_kept. split_and!; [|done|done]. by destruct Hs. Qed.

Lemma with_pool_ok six p s : server_ok s -> pool_ok six p -> serving_kept s (with_pool six p s).
Proof.
  intros Hs Hp. unfold serving_kept, with_pool. destruct Hs, six; (split_and!; [split; cbn|done|done]); try done. by intros ? [= <-].
Qed.

Lemma answer_fake_ok (request : Msg) q d s reply s' :
  dns_library -> server_ok s -> msg_Question request = [q] -> Normalize (q_Name q) = Ok d ->
  answer_fake SetReply SetRcode writes persist4 persist6 now request q d s = (reply, s') ->
  fake_answer request reply q d s s' /\ serving_kept s s' /\ srv_in_use s' = srv_in_use s /\ msg_Id reply = msg_Id request.
Proof.
  intros Hlib Hs Hq Hd. unfold answer_fake, fake_answer. set (six := bool_decide (q_Qtype q = TypeAAAA)).
  fold (pool_of six s). destruct (pool_of six s) as [pool|] eqn:Hpool.
  - assert (Hok : pool_ok six pool).
    { destruct six; cbn in Hpool; [by apply (so_ipv6 s Hs)|]. injection Hpool as <-. apply (so_ipv4 s Hs). }
    destruct (GetOrAllocate _ _ _ _) as [pool' r] eqn:Hg.
    pose proof (GetOrAllocate_pool_ok (if six then persist6 else persist4) six d now pool Hok) as Hok'. rewrite Hg in Hok'. cbn [fst] in Hok'.
    pose proof (with_pool_ok six pool' s Hs Hok') as Hk. assert (Hin : srv_in_use (with_pool six pool' s) = srv_in_use s) by (by destruct six).
    assert (Hst : srv_stats (with_pool six pool' s) = srv_stats s) by (by destruct six).
    destruct Hk as (Hk & Hcfg & Hrt). destruct r as [a|e].
    + assert (Hl : leased six d a now pool').
      { eapply GetOrAllocate_leases; [exact Hok| |exact Hg]. by eapply canonical_Normalize, Normalize_canonical. }
      unfold write_counted. set (reply0 := authoritative _ _). intros [= <- <-]. split_and!.
      * right. exists pool', a. split_and!; try done.
        -- destruct (writes reply0), six; done.
        -- apply (dl_reply_rcode Hlib).
        -- by apply (dl_reply_question Hlib).
        -- cbn. rewrite Hrt. unfold fake_record. by destruct six.
        -- unfold counted. destruct (writes reply0); cbn; by rewrite Hst.
      * destruct (with_stats_ok (count_fake six) _ Hk) as (Hk1 & Hc1 & Hr1). unfold serving_kept. destruct (writes reply0).
        -- split_and!; [done|cbn; congruence|cbn; congruence].
        -- destruct (with_stats_ok count_failure _ Hk1) as (Hk2 & Hc2 & Hr2). split_and!; [done|cbn; congruence|cbn; congruence].
      * destruct (writes reply0); cbn; done.
      * apply (dl_reply_id Hlib).
    + intros [= <- <-]. destruct (with_stats_ok count_failure _ Hk) as (Hk1 & Hc1 & Hr1). split_and!.
      * left. split_and!; [apply (dl_rcode_rcode Hlib)|apply (dl_rcode_answer Hlib)|cbn; by rewrite Hst].
      * unfold serving_kept. split_and!; [done|cbn; congruence|cbn; congruence].
      * done.
      * apply (dl_rcode_id Hlib).
  - unfold write_counted. set (reply0 := authoritative _ _). intros [= <- <-].
    destruct (with_stats_ok count_nodata _ Hs) as (Hk & Hc & Hr). split_and!.
    + apply (dl_reply_rcode Hlib).
    + by apply (dl_reply_question Hlib).
    + apply (dl_reply_answer Hlib).
    + unfold same_pools. by destruct (writes reply0).
    + unfold counted. by destruct (writes reply0).
    + unfold serving_kept. destruct (writes reply0); [done|]. destruct (with_stats_ok count_failure _ Hk) as (Hk2 & Hc2 & Hr2).
      split_and!; [done|cbn; congruence|cbn; congruence].
    + by destruct (writes reply0).
    + apply (dl_reply_id Hlib).
Qed.

Lemma serve_held_ok (request : Msg) s reply s' :
  dns_library -> server_ok s ->
  serve_held SetReply SetRcode Exchange writes persist4 persist6 now request s = (reply, s') ->
  held_answer request reply s s' /\ serving_kept s s' /\ srv_in_use s' = srv_in_use s /\ msg_Id reply = msg_Id request.
Proof.
  intros Hlib Hs. unfold serve_held, held_answer.
  assert (Hfail : forall rcode reply s', writeFailure SetRcode request rcode s = (reply, s') ->
    (failed request reply rcode s s' /\ same_pools s s') /\ serving_kept s s' /\ srv_in_use s' = srv_in_use s /\ msg_Id reply = msg_Id request).
  { intros rcode r x [= <- <-]. split; [split; [|done]|split; [by apply with_stats_ok|split; [done|apply (dl_rcode_id Hlib)]]].
    split_and!; [apply (dl_rcode_rcode Hlib)|apply (dl_rcode_answer Hlib)|done]. }
  destruct (msg_Question request) as [|q [|q2 qs]] eqn:Hq; [apply Hfail| |apply Hfail].
  destruct (Normalize (q_Name q)) as [d|e] eqn:Hd; [|apply Hfail].
  destruct (goes_upstream _ _ _); [|by apply answer_fake_ok].
  unfold forward. destruct (Exchange _ _) as [[m|]|e].
  - unfold write_counted. intros [= <- <-]. destruct (with_stats_ok count_forwarded _ Hs) as (Hk & Hc & Hr).
    unfold same_pools, counted, serving_kept. destruct (writes _); split_and!; try done.
    all: by apply (with_stats_ok count_failure _ Hk).
  - intros H%Hfail. naive_solver.
  - intros H%Hfail. naive_solver.
Qed.

(** C35: the contract of the Fake DNS server.  Every query is answered once,
    under its own identifier, gives its token back and leaves the pools
    consistent.  Beyond the capacity, with other than one question or with a
    name that is no domain, it is refused without touching a pool.  An
    excluded name, a type other than A and AAAA or a name the policy does not
    claim is answered by the upstream.  Every other name gets one record, of
    its own name and family, with an address that looks up to the name for the
    whole lifetime of the mapping - or, without a pool of the family, an empty
    answer; its lifetime lies between one second and 2^32-1 seconds and does
    not exceed the configured one.  Each query is counted in one class. *)
Theorem serve_dns_contract (request : Msg) (s : Server U) :
  dns_library -> server_ok s ->
  let '(reply, s') := ServeDNS request s in
  serving_kept s s' /\ srv_in_use s' = srv_in_use s /\ msg_Id reply = msg_Id request /\
  (if srv_in_use s <? dc_MaxConcurrent (srv_config s)
   then held_answer request reply (with_stats count_query s) s'
   else failed request reply RcodeServerFailure (with_stats count_capacity (with_stats count_query s)) s' /\ same_pools s s') /\
  1 <= ttlSeconds (rc_ttl (srv_runtime s)) <= 2 ^ 32 - 1 /\
  (second <= rc_ttl (srv_runtime s) -> ttlSeconds (rc_ttl (srv_runtime s)) * second <= rc_ttl (srv_runtime s)).
Proof.
  intros Hlib Hs. unfold FakeDNS.ServeDNS. cbn [srv_in_use with_stats srv_config].
  pose proof (ttlSeconds_bounds (rc_ttl (srv_runtime s))) as [Hb1 Hb2].
  destruct (_ <? _).
  - set (s0 := with_tokens _ _). destruct (serve_held _ _ _ _ _ _ _ _ s0) as [reply s'] eqn:Hh.
    assert (Hs0 : server_ok s0) by (by destruct Hs).
    destruct (serve_held_ok _ _ _ _ Hlib Hs0 Hh) as (Ha & (Hk & Hc & Hr) & Hin & Hid).
    split; [split; [by destruct Hk|by split]|]. split; [cbn; rewrite Hin; cbn; lia|]. by repeat (split; [done|]).
  - split; [split; [by destruct Hs|by split]|]. split; [done|]. split; [apply (dl_rcode_id Hlib)|]. split; [|done].
    split; [|done]. split; [apply (dl_rcode_rcode Hlib)|]. split; [apply (dl_rcode_answer Hlib)|done].
Qed.
End serving.

Definition demo_SetReply (m : Msg) : Msg := MkMsg (msg_Id m) false false 0 (take 1 (msg_Question m)) [].
Definition demo_SetRcode (m : Msg) (rcode : Z) : Msg := MkMsg (msg_Id m) false false rcode (take 1 (msg_Question m)) [].

Lemma demo_dns_library : dns_library demo_SetReply demo_SetRcode.
Proof. split; try done. by intros [] q Hq; cbn in *; rewrite Hq. Qed.

(** A query for [A.com.] with an empty pool. *)
Lemma serve_dns_contract_witness :
  let request := MkMsg 7 false false 0 [MkQuestion "A.com." TypeA] [] in
  match newPool demo_prefix 100 2 1 with
  | Ok p =>
      let s := MkServer (MkConfig (AddrPort (Addr4 0x7f000001) 53) true true second second 1 None) p None
                 (MkRuntime second second [] None tt) 0 (MkStats 0 0 0 0 0 0 0 0) in
      let '(reply, s') := ServeDNS demo_SetReply demo_SetRcode (fun _ _ => Ok None) (fun _ => true) (fun _ => true) (fun _ => true) 0
                            request s in
      msg_Answer reply = [RR_A "A.com." 1 [198; 18; 0; 1]] /\ srv_stats s' = MkStats 1 1 1 0 0 0 0 0 /\
      held_answer (fun _ _ => Ok None) (fun _ => true) 0 request reply (with_stats count_query s) s'
  | Err _ => False
  end.
Proof.
  intros request. destruct (newPool demo_prefix 100 2 1) as [p|er] eqn:Hp; [|vm_compute in Hp; discriminate Hp].
  destruct (demo_pool_inv p Hp) as [Hinv _]. intros s.
  assert (Hs : server_ok s).
  { split; [split; [eauto|]|discriminate|reflexivity]. vm_compute in Hp. injection Hp as <-. reflexivity. }
  pose proof (serve_dns_contract demo_SetReply demo_SetRcode (fun _ _ => Ok None) (fun _ => true) (fun _ => true) (fun _ => true) 0
    request s demo_dns_library Hs) as H.
  destruct (ServeDNS _ _ _ _ _ _ _ request s) as [reply s'] eqn:He.
  destruct H as (_ & _ & _ & H & _). vm_compute in Hp. injection Hp as Hp. subst p.
  vm_compute in He. injection He as <- <-. split; [reflexivity|]. split; [reflexivity|]. exact H.
Defined.
