(* ===== verification/Tun.v ===== *)
(** * Component [internal/tun]: packet buffers, utun packets and the pump

    The bounded buffer pool, the packet-information offset of utun, the
    validation of IP packets and the two directions of the pump.  The device,
    the packet handler and the context are inputs of each iteration. *)

From S2P Require Import Prelude.
From S2P Require Import Outbound.

(** ** Reading bytes *)

(** An index expression: out of range it panics, which is [None]. *)
Definition byte_at (packet : list Z) (i : nat) : option Z := packet !! i.

(** [binary.BigEndian.Uint16] of the two bytes from [i] on. *)
Definition uint16_at (packet : list Z) (i : nat) : option Z :=
  hi ← byte_at packet i; lo ← byte_at packet (S i); Some (Z.lor (Z.shiftl hi 8) lo).

Definition plen (packet : list Z) : Z := Z.of_nat (length packet).

(** [packet[:n]] for an [n] within the length. *)
Definition slice_to (packet : list Z) (n : Z) : option (list Z) :=
  if (0 <=? n) && (n <=? plen packet) then Some (take (Z.to_nat n) packet) else None.

(** ** Validation; the outer [option] is a panic, the inner one a refusal *)

(** [validateIPv4] *)
Definition validateIPv4 (packet : list Z) : option (option (list Z)) :=
  if plen packet <? 20 then Some None
  else
    first ← byte_at packet 0;
    if negb (Z.shiftr first 4 =? 4) then Some None
    else
      let headerLength := Z.land first 0x0f * 4 in
      if (headerLength <? 20) || (plen packet <? headerLength) then Some None
      else
        totalLength ← uint16_at packet 2;
        if (totalLength <? headerLength) || (plen packet <? totalLength) then Some None
        else p ← slice_to packet totalLength; Some (Some p).

(** [validateIPv6] *)
Definition validateIPv6 (packet : list Z) : option (option (list Z)) :=
  if plen packet <? 40 then Some None
  else
    first ← byte_at packet 0;
    if negb (Z.shiftr first 4 =? 6) then Some None
    else
      payload ← uint16_at packet 4;
      let totalLength := 40 + payload in
      if plen packet <? totalLength then Some None
      else p ← slice_to packet totalLength; Some (Some p).

(** [validateIP] *)
Definition validateIP (packet : list Z) : option (option (list Z)) :=
  if bool_decide (packet = []) then Some None
  else
    first ← byte_at packet 0;
    if Z.shiftr first 4 =? 6 then validateIPv6 packet else validateIPv4 packet.

(** ** Statistics *)

Record Stats : Type := MkStats {
  ReceivedPackets : Z;
  ReceivedBytes : Z;
  TransmittedPackets : Z;
  TransmittedBytes : Z;
  DroppedMalformed : Z;
  DroppedIPv6 : Z;
  ReadErrors : Z;
  WriteErrors : Z;
  HandlerErrors : Z
}.

Definition tun_add (x n : Z) : Z := wrap64 (x + n).

Definition count_received (n : Z) (s : Stats) : Stats :=
  MkStats (tun_add (ReceivedPackets s) 1) (tun_add (ReceivedBytes s) n) (TransmittedPackets s) (TransmittedBytes s)
    (DroppedMalformed s) (DroppedIPv6 s) (ReadErrors s) (WriteErrors s) (HandlerErrors s).

Definition count_transmitted (n : Z) (s : Stats) : Stats :=
  MkStats (ReceivedPackets s) (ReceivedBytes s) (tun_add (TransmittedPackets s) 1) (tun_add (TransmittedBytes s) n)
    (DroppedMalformed s) (DroppedIPv6 s) (ReadErrors s) (WriteErrors s) (HandlerErrors s).

Definition count_malformed (s : Stats) : Stats :=
  MkStats (ReceivedPackets s) (ReceivedBytes s) (TransmittedPackets s) (TransmittedBytes s)
    (tun_add (DroppedMalformed s) 1) (DroppedIPv6 s) (ReadErrors s) (WriteErrors s) (HandlerErrors s).

Definition count_read_error (s : Stats) : Stats :=
  MkStats (ReceivedPackets s) (ReceivedBytes s) (TransmittedPackets s) (TransmittedBytes s)
    (DroppedMalformed s) (DroppedIPv6 s) (tun_add (ReadErrors s) 1) (WriteErrors s) (HandlerErrors s).

Definition count_write_error (s : Stats) : Stats :=
  MkStats (ReceivedPackets s) (ReceivedBytes s) (TransmittedPackets s) (TransmittedBytes s)
    (DroppedMalformed s) (DroppedIPv6 s) (ReadErrors s) (tun_add (WriteErrors s) 1) (HandlerErrors s).

Definition count_handler_error (s : Stats) : Stats :=
  MkStats (ReceivedPackets s) (ReceivedBytes s) (TransmittedPackets s) (TransmittedBytes s)
    (DroppedMalformed s) (DroppedIPv6 s) (ReadErrors s) (WriteErrors s) (tun_add (HandlerErrors s) 1).

(** [validateInbound] *)
Definition validateInbound (packet : list Z) (s : Stats) : option (option (list Z) * Stats) :=
  if bool_decide (packet = []) then Some (None, count_malformed s)
  else
    first ← byte_at packet 0;
    let version := Z.shiftr first 4 in
    let checked := if version =? 4 then validateIPv4 packet
                   else if version =? 6 then validateIPv6 packet else Some None in
    r ← checked;
    match r with
    | Some validated => Some (Some validated, s)
    | None => Some (None, count_malformed s)
    end.

(** ** The buffer pool *)

(** A buffer, by identity, with its capacity. *)
Record buffer : Type := MkBuffer { buf_id : nat; buf_cap : Z }.

(** The channel of the pool, in order, with its capacity. *)
Record BufferPool : Type := MkBufferPool { bp_buffers : list buffer; bp_count : Z; bp_size : Z }.

Definition PacketOffset : Z := 4.

(** [NewBufferPool] *)
Definition NewBufferPool (size count : Z) : result go_error BufferPool :=
  fail_if size <=? PacketOffset with failure "buffer size must exceed packet offset" in
  fail_if (count <? 2) || (4096 <? count) with failure "buffer count must be between 2 and 4096" in
  Ok (MkBufferPool ((fun i => MkBuffer i size) <$> seq 0 (Z.to_nat count)) count size).

(** [Get]: [None] when it blocks.  With a buffer and an ended context either
    case of the select may run, which [ctx_first] decides. *)
Definition Get (ctx : option ctx_error) (ctx_first : bool) (p : BufferPool) : option (result go_error buffer * BufferPool) :=
  match bp_buffers p, ctx with
  | b :: rest, None => Some (Ok b, MkBufferPool rest (bp_count p) (bp_size p))
  | b :: rest, Some c =>
      if ctx_first then Some (Err (ctx_go_error c), p) else Some (Ok b, MkBufferPool rest (bp_count p) (bp_size p))
  | [], Some c => Some (Err (ctx_go_error c), p)
  | [], None => None
  end.

(** [Put] *)
Definition Put (b : buffer) (p : BufferPool) : BufferPool :=
  if buf_cap b <? bp_size p then p
  else if Z.of_nat (length (bp_buffers p)) <? bp_count p
  then MkBufferPool (bp_buffers p ++ [b]) (bp_count p) (bp_size p)
  else p.

(** ** The device *)

(** What [Read] of the device returns: the packets, the first size, and the
    contents of the buffer after it. *)
Definition device_read : Type := result go_error (Z * Z * list Z).

(** [ReadPacket] into a buffer of length [size]; [None] is a panic. *)
Definition ReadPacket (size : Z) (device : device_read) : option (result go_error (list Z)) :=
  if size <=? PacketOffset then Some (Err (failure "TUN read buffer length"))
  else
    match device with
    | Err e => Some (Err e)
    | Ok (count, n, contents) =>
        if negb (count =? 1) then Some (Err (failure "TUN read packets"))
        else if (n <? 0) || (size - PacketOffset <? n) then Some (Err (failure "TUN read returned invalid packet size"))
        else p ← slice_to contents (PacketOffset + n); Some (Ok (drop (Z.to_nat PacketOffset) p))
    end.

(** [WritePacket] of a payload in a buffer of length [size]; [device] is what
    the device returns. *)
Definition WritePacket (size payloadLength : Z) (device : result go_error Z) : option go_error :=
  if (payloadLength <=? 0) || (size - PacketOffset <? payloadLength) then Some (failure "invalid TUN write payload length")
  else
    match device with
    | Err e => Some e
    | Ok written => if negb (written =? 1) then Some (failure "TUN write accepted packets") else None
    end.

(** ** The pump *)

Record pump : Type := MkPump { pu_pool : BufferPool; pu_stats : Stats }.

Definition pump_stats (f : Stats -> Stats) (p : pump) : pump := MkPump (pu_pool p) (f (pu_stats p)).
Definition pump_put (b : buffer) (p : pump) : pump := MkPump (Put b (pu_pool p)) (pu_stats p).

(** What one iteration of [Run] observes: the context when it takes a buffer,
    whether the context ended or the device was closed when a call failed, the
    read, and the result of the handler. *)
Record run_input : Type := MkRunInput {
  ri_ctx : option ctx_error;
  ri_ctx_first : bool;
  ri_stopped : bool;
  ri_read : device_read;
  ri_handler : option go_error
}.

Inductive run_result : Type := RunContinue | RunReturn (e : option go_error) | RunBlocked | RunPanic.

(** One iteration of [Run]: how it goes on, the pump after it, and the packet
    that the handler received. *)
Definition run_once (i : run_input) (p : pump) : run_result * pump * option (list Z) :=
  match Get (ri_ctx i) (ri_ctx_first i) (pu_pool p) with
  | None => (RunBlocked, p, None)
  | Some (Err e, pool) =>
      (RunReturn (if bool_decide (is_Some (ri_ctx i)) || ri_stopped i then None else Some e), MkPump pool (pu_stats p), None)
  | Some (Ok b, pool) =>
      let p := MkPump pool (pu_stats p) in
      match ReadPacket (bp_size pool) (ri_read i) with
      | None => (RunPanic, p, None)
      | Some (Err e) =>
          let p := pump_put b p in
          if ri_stopped i then (RunReturn None, p, None)
          else (RunReturn (Some (EWrap "read utun packet" e)), pump_stats count_read_error p, None)
      | Some (Ok packet) =>
          match validateInbound packet (pu_stats p) with
          | None => (RunPanic, p, None)
          | Some (None, s) => (RunContinue, pump_put b (MkPump (pu_pool p) s), None)
          | Some (Some packet, s) =>
              let p := pump_stats (count_received (plen packet)) (MkPump (pu_pool p) s) in
              match ri_handler i with
              | Some e =>
                  (RunReturn (Some (EWrap "handle utun packet" e)), pump_put b (pump_stats count_handler_error p), Some packet)
              | None => (RunContinue, pump_put b p, Some packet)
              end
          end
      end
  end.

(** [Run] over what its iterations observe, and the packets handed on. *)
Fixpoint Run (inputs : list run_input) (p : pump) : run_result * pump * list (list Z) :=
  match inputs with
  | [] => (RunContinue, p, [])
  | i :: inputs' =>
      let '(r, p, handed) := run_once i p in
      let handed := match handed with Some packet => [packet] | None => [] end in
      match r with
      | RunContinue => let '(r, p, more) := Run inputs' p in (r, p, handed ++ more)
      | _ => (r, p, handed)
      end
  end.

(** [Write]: the error, the pump, and what reached the device: the payload
    length and the payload in the buffer.  [None] when it blocks or panics. *)
Definition Write (packet : list Z) (ctx : option ctx_error) (ctx_first : bool) (device : result go_error Z) (p : pump)
    : option (option go_error * pump * option (list Z)) :=
  v ← validateIP packet;
  match v with
  | None => Some (Some (failure "refuse malformed outbound IP packet"), pump_stats count_malformed p, None)
  | Some packet =>
      g ← Get ctx ctx_first (pu_pool p);
      match g with
      | (Err e, pool) => Some (Some e, MkPump pool (pu_stats p), None)
      | (Ok b, pool) =>
          let p := MkPump pool (pu_stats p) in
          let size := bp_size pool in
          if size - PacketOffset <? plen packet
          then Some (Some (failure "outbound packet exceeds buffer payload capacity"), pump_put b (pump_stats count_write_error p), None)
          else
            match WritePacket size (plen packet) device with
            | Some e => Some (Some (EWrap "write utun packet" e), pump_put b (pump_stats count_write_error p), Some packet)
            | None => Some (None, pump_put b (pump_stats (count_transmitted (plen packet)) p), Some packet)
            end
      end
  end.
