(* ===== verification/Netstack.v ===== *)
(** * Component [internal/netstack]: the user-space stack

    The boundary to the TCP/IP stack: injecting packets, the identifiers of
    flows, the limit on TCP flows and the counters.  The stack itself is a
    library; its requests, their endpoints and the ends of the handlers are
    events; flows stay within their slots. *)

From S2P Require Import Prelude.
From S2P Require Import NetIP.
From S2P Require Import Outbound.
From S2P Require Import SessionHandle.
From S2P Require Import NetIPText.

(** ** Configuration *)

Record Config : Type := MkConfig { nc_MTU : Z; nc_PacketQueue : Z; nc_MaxTCPFlows : Z }.

Definition IPv4MinimumSize : Z := 20.
Definition IPv6MinimumSize : Z := 40.

(** The checks of [New], with whether the handlers are given. *)
Definition check_config (config : Config) (handler udpHandler : bool) : result go_error unit :=
  fail_if nc_MTU config <? IPv4MinimumSize with failure "netstack MTU must be at least 20" in
  fail_if nc_PacketQueue config <=? 0 with failure "netstack packet queue must be positive" in
  fail_if nc_MaxTCPFlows config <=? 0 with failure "netstack maximum TCP flow count must be positive" in
  fail_if negb handler with failure "netstack TCP handler is required" in
  fail_if negb udpHandler with failure "netstack UDP handler is required" in Ok tt.

(** ** State *)

Record Stats : Type := MkStats {
  InjectedPackets : Z;
  InjectedBytes : Z;
  EmittedPackets : Z;
  EmittedBytes : Z;
  ActiveTCPFlows : Z;
  TotalTCPFlows : Z;
  RejectedTCPFlows : Z;
  TCPHandlerErrors : Z;
  ActiveUDPSessions : Z;
  TotalUDPSessions : Z;
  RejectedUDPSessions : Z;
  UDPHandlerErrors : Z
}.

(** [Stack]: whether its context is done, the slots in use of [tcpSlots] with
    its capacity, the count of the wait group, and the packets given to the
    link. *)
Record Stack : Type := MkStack {
  ns_closed : bool;
  ns_slots : Z;
  ns_maxFlows : Z;
  ns_flows : Z;
  ns_metrics : Stats;
  ns_link : list (Z * list Z)
}.

Definition no_metrics : Stats := MkStats 0 0 0 0 0 0 0 0 0 0 0 0.

Definition new_stack (config : Config) : Stack := MkStack false 0 (nc_MaxTCPFlows config) 0 no_metrics [].

Definition on_metrics (f : Stats -> Stats) (s : Stack) : Stack :=
  MkStack (ns_closed s) (ns_slots s) (ns_maxFlows s) (ns_flows s) (f (ns_metrics s)) (ns_link s).

Definition count_injected (n : Z) (m : Stats) : Stats :=
  MkStats (inc (InjectedPackets m)) (add_count (InjectedBytes m) n) (EmittedPackets m) (EmittedBytes m) (ActiveTCPFlows m)
    (TotalTCPFlows m) (RejectedTCPFlows m) (TCPHandlerErrors m) (ActiveUDPSessions m) (TotalUDPSessions m)
    (RejectedUDPSessions m) (UDPHandlerErrors m).

Definition count_emitted (n : Z) (m : Stats) : Stats :=
  MkStats (InjectedPackets m) (InjectedBytes m) (inc (EmittedPackets m)) (add_count (EmittedBytes m) n) (ActiveTCPFlows m)
    (TotalTCPFlows m) (RejectedTCPFlows m) (TCPHandlerErrors m) (ActiveUDPSessions m) (TotalUDPSessions m)
    (RejectedUDPSessions m) (UDPHandlerErrors m).

Definition tcp_metrics (active total rejected errors : Z -> Z) (m : Stats) : Stats :=
  MkStats (InjectedPackets m) (InjectedBytes m) (EmittedPackets m) (EmittedBytes m) (active (ActiveTCPFlows m))
    (total (TotalTCPFlows m)) (rejected (RejectedTCPFlows m)) (errors (TCPHandlerErrors m)) (ActiveUDPSessions m)
    (TotalUDPSessions m) (RejectedUDPSessions m) (UDPHandlerErrors m).

Definition udp_metrics (active total rejected errors : Z -> Z) (m : Stats) : Stats :=
  MkStats (InjectedPackets m) (InjectedBytes m) (EmittedPackets m) (EmittedBytes m) (ActiveTCPFlows m)
    (TotalTCPFlows m) (RejectedTCPFlows m) (TCPHandlerErrors m) (active (ActiveUDPSessions m))
    (total (TotalUDPSessions m)) (rejected (RejectedUDPSessions m)) (errors (UDPHandlerErrors m)).

(** ** Packets *)

Definition IPv4Protocol : Z := 0x0800.
Definition IPv6Protocol : Z := 0x86dd.

(** [inject] *)
Definition inject (packet : list Z) (protocol : Z) (s : Stack) : result go_error unit * Stack :=
  if ns_closed s then (Err (ESentinel ErrClosed), s)
  else
    let s := MkStack (ns_closed s) (ns_slots s) (ns_maxFlows s) (ns_flows s) (ns_metrics s) (ns_link s ++ [(protocol, packet)]) in
    (Ok tt, on_metrics (count_injected (Z.of_nat (length packet))) s).

(** [InjectIPv4] *)
Definition InjectIPv4 (packet : list Z) (s : Stack) : result go_error unit * Stack :=
  match packet with
  | [] => (Err (failure "netstack input is not a complete IPv4 packet"), s)
  | first :: _ =>
      if (Z.of_nat (length packet) <? IPv4MinimumSize) || negb (Z.shiftr first 4 =? 4)
      then (Err (failure "netstack input is not a complete IPv4 packet"), s)
      else inject packet IPv4Protocol s
  end.

(** [InjectPacket] *)
Definition InjectPacket (packet : list Z) (s : Stack) : result go_error unit * Stack :=
  match packet with
  | [] => (Err (failure "netstack input is empty"), s)
  | first :: _ =>
      if Z.shiftr first 4 =? 4 then
        if Z.of_nat (length packet) <? IPv4MinimumSize then (Err (failure "netstack input is not a complete IPv4 packet"), s)
        else inject packet IPv4Protocol s
      else if Z.shiftr first 4 =? 6 then
        if Z.of_nat (length packet) <? IPv6MinimumSize then (Err (failure "netstack input is not a complete IPv6 packet"), s)
        else inject packet IPv6Protocol s
      else (Err (failure "netstack input has an unsupported IP version"), s)
  end.

(** [ReadPacket] with what the link gives it: a packet, or none with the error
    of the context of the call, if any. *)
Definition ReadPacket (read : list Z + option ctx_error) (s : Stack) : result go_error (list Z) * Stack :=
  match read with
  | inr (Some c) => (Err (ctx_go_error c), s)
  | inr None => (Err (ESentinel ErrClosed), s)
  | inl [] => (Err (failure "netstack emitted an empty packet"), s)
  | inl packet => (Ok packet, on_metrics (count_emitted (Z.of_nat (length packet))) s)
  end.

(** ** Flows *)

(** A transport endpoint: [tcpip.Address] is a string of bytes. *)
Record endpoint_id : Type := MkEndpoint {
  LocalAddress : list Z;
  LocalPort : Z;
  RemoteAddress : list Z;
  RemotePort : Z
}.

(** [addressesFromID] *)
Definition addressesFromID (local remote : list Z) : result go_error (addr * addr) :=
  fail_if negb (bool_decide (length local = length remote)) with failure "flow address families differ" in
  match length local with
  | 4%nat => Ok (Addr4 (be_value local), Addr4 (be_value remote))
  | 16%nat => Ok (Addr6 (be_value local) "", Addr6 (be_value remote) "")
  | _ => Err (failure "flow has unsupported address family")
  end.

(** [flowFromID] and [udpFlowFromID] *)
Definition flowFromID (id : endpoint_id) : result go_error Flow :=
  let! addresses := addressesFromID (LocalAddress id) (RemoteAddress id) in
  Ok (MkTransportFlow addresses.2 (RemotePort id) addresses.1 (LocalPort id)).

(** What happens at the stack: a TCP request, the end of the [CreateEndpoint]
    of one (it waits for the handshake of the client) with whether there is an
    endpoint, the end of a handler with its error, and the return of
    [handleTCP], which gives the slot back; a UDP request with whether its
    endpoint can be created, the end of its handler, and [Close]. *)
Inductive flow_event : Type :=
| TCPRequest (id : endpoint_id)
| TCPEndpoint (created : bool)
| TCPReturned (e : option go_error)
| TCPReleased
| UDPRequest (id : endpoint_id) (endpoint : bool)
| UDPReturned (e : option go_error)
| CloseStack.

(** The calls of [handleTCP] that wait in [CreateEndpoint], those whose
    handler runs and those that still have their slot after it, and the UDP
    handlers that run. *)
Record flows_state : Type := MkFlows {
  fs_stack : Stack;
  fs_opening : nat;
  fs_tcp : nat;
  fs_leaving : nat;
  fs_udp : nat
}.

Definition no_flows (s : Stack) : flows_state := MkFlows s 0 0 0 0.

Definition take_slot (s : Stack) : Stack :=
  MkStack (ns_closed s) (ns_slots s + 1) (ns_maxFlows s) (ns_flows s) (ns_metrics s) (ns_link s).
Definition give_slot (s : Stack) : Stack :=
  MkStack (ns_closed s) (ns_slots s - 1) (ns_maxFlows s) (ns_flows s) (ns_metrics s) (ns_link s).
Definition add_flow (n : Z) (s : Stack) : Stack :=
  MkStack (ns_closed s) (ns_slots s) (ns_maxFlows s) (ns_flows s + n) (ns_metrics s) (ns_link s).

Definition keep (x : Z) : Z := x.

Definition reject_tcp (s : Stack) : Stack := on_metrics (tcp_metrics keep keep inc keep) s.

(** [tryAcquireTCPSlot] and [releaseTCPSlot]: a send to the buffered channel
    that does not wait, and the receive. *)
Definition tryAcquireTCPSlot (s : Stack) : bool * Stack :=
  if ns_slots s <? ns_maxFlows s then (true, take_slot s) else (false, s).

Definition releaseTCPSlot (s : Stack) : Stack := give_slot s.

(** [handleTCP] up to the call of [CreateEndpoint]: whether it gets there. *)
Definition tcp_begin (id : endpoint_id) (s : Stack) : bool * Stack :=
  match flowFromID id with
  | Err _ => (false, reject_tcp s)
  | Ok _ =>
      let '(acquired, s) := tryAcquireTCPSlot s in
      if acquired then (true, s) else (false, reject_tcp s)
  end.

(** From the end of [CreateEndpoint] to the call of the handler, if there is
    an endpoint. *)
Definition tcp_endpoint (created : bool) (s : Stack) : Stack :=
  if created then add_flow 1 (on_metrics (tcp_metrics inc inc keep keep) s) else reject_tcp s.

(** From the end of the handler to the last deferred call. *)
Definition tcp_end (e : option go_error) (s : Stack) : Stack :=
  let s := if bool_decide (is_Some e) && negb (ns_closed s) then on_metrics (tcp_metrics keep keep keep inc) s else s in
  add_flow (-1) (on_metrics (tcp_metrics dec keep keep keep) s).

(** [handleUDP] up to the goroutine, and the end of that. *)
Definition udp_begin (id : endpoint_id) (endpoint : bool) (s : Stack) : bool * Stack :=
  match flowFromID id with
  | Err _ => (false, on_metrics (udp_metrics keep keep inc keep) s)
  | Ok _ =>
      if endpoint then (true, add_flow 1 (on_metrics (udp_metrics inc inc keep keep) s))
      else (false, on_metrics (udp_metrics keep keep inc keep) s)
  end.

Definition udp_end (e : option go_error) (s : Stack) : Stack :=
  let s := if bool_decide (is_Some e) && negb (ns_closed s) then on_metrics (udp_metrics keep keep keep inc) s else s in
  add_flow (-1) (on_metrics (udp_metrics dec keep keep keep) s).

(** [closeResources]: its first call ends the context. *)
Definition close_stack (s : Stack) : Stack :=
  MkStack true (ns_slots s) (ns_maxFlows s) (ns_flows s) (ns_metrics s) (ns_link s).

(** One event; [None] when it cannot happen: the end of a call that does not
    run. *)
Definition flow_step (ev : flow_event) (f : flows_state) : option flows_state :=
  let '(MkFlows s o t l u) := f in
  match ev with
  | TCPRequest id => let '(opens, s) := tcp_begin id s in Some (MkFlows s (if opens then S o else o) t l u)
  | TCPEndpoint created =>
      match o with
      | O => None
      | S o => Some (MkFlows (tcp_endpoint created s) o (if created then S t else t) (if created then l else S l) u)
      end
  | TCPReturned e => match t with O => None | S t => Some (MkFlows (tcp_end e s) o t (S l) u) end
  | TCPReleased => match l with O => None | S l => Some (MkFlows (releaseTCPSlot s) o t l u) end
  | UDPRequest id endpoint => let '(runs, s) := udp_begin id endpoint s in Some (MkFlows s o t l (if runs then S u else u))
  | UDPReturned e => match u with O => None | S u => Some (MkFlows (udp_end e s) o t l u) end
  | CloseStack => Some (MkFlows (close_stack s) o t l u)
  end.

Fixpoint flow_run (evs : list flow_event) (f : flows_state) : option flows_state :=
  match evs with
  | [] => Some f
  | ev :: evs' => f' ← flow_step ev f; flow_run evs' f'
  end.

(** * Flows stay within their slots *)

(** ** Counting events *)

(** The calls of [handleTCP] that hold a slot. *)
Definition held_slots (f : flows_state) : Z := Z.of_nat (fs_opening f) + Z.of_nat (fs_tcp f) + Z.of_nat (fs_leaving f).

(** The exact counts that a state has; the counters hold them modulo 2^64. *)
Record flows_ok (f : flows_state) (tcp_requests udp_requests : Z) : Prop := {
  fo_slots : ns_slots (fs_stack f) = held_slots f;
  fo_bound : held_slots f <= ns_maxFlows (fs_stack f);
  fo_wait : ns_flows (fs_stack f) = Z.of_nat (fs_tcp f) + Z.of_nat (fs_udp f);
  fo_active : ActiveTCPFlows (ns_metrics (fs_stack f)) = wrap64 (Z.of_nat (fs_tcp f));
  fo_udp_active : ActiveUDPSessions (ns_metrics (fs_stack f)) = wrap64 (Z.of_nat (fs_udp f));
  fo_requests :
    wrap64 (TotalTCPFlows (ns_metrics (fs_stack f)) + RejectedTCPFlows (ns_metrics (fs_stack f))) =
    wrap64 (tcp_requests - Z.of_nat (fs_opening f));
  fo_udp_requests :
    wrap64 (TotalUDPSessions (ns_metrics (fs_stack f)) + RejectedUDPSessions (ns_metrics (fs_stack f))) = wrap64 udp_requests
}.

Definition is_tcp_request (ev : flow_event) : Z := match ev with TCPRequest _ => 1 | _ => 0 end.
Definition is_udp_request (ev : flow_event) : Z := match ev with UDPRequest _ _ => 1 | _ => 0 end.

Definition count_events (f : flow_event -> Z) (evs : list flow_event) : Z := foldr (fun ev n => f ev + n) 0 evs.

Lemma wrap_inc_l a b c : wrap64 (a + b) = wrap64 c -> wrap64 (inc a + b) = wrap64 (c + 1).
Proof.
  unfold inc, wrap64. intros H. rewrite Zplus_mod_idemp_l. replace (a + 1 + b) with (a + b + 1) by lia.
  rewrite <- Zplus_mod_idemp_l, H, Zplus_mod_idemp_l. done.
Qed.

Lemma wrap_inc_r a b c : wrap64 (a + b) = wrap64 c -> wrap64 (a + inc b) = wrap64 (c + 1).
Proof. intros H. rewrite Z.add_comm. apply wrap_inc_l. by rewrite Z.add_comm. Qed.

Lemma inc_wrap n : inc (wrap64 n) = wrap64 (n + 1).
Proof. unfold inc, wrap64. by rewrite Zplus_mod_idemp_l. Qed.

Lemma dec_wrap n : dec (wrap64 (n + 1)) = wrap64 n.
Proof.
  unfold dec, wrap64, u64_max. rewrite Zplus_mod_idemp_l. replace (n + 1 + (2 ^ 64 - 1)) with (n + 1 * 2 ^ 64) by lia.
  by rewrite Z.mod_add.
Qed.

(** The counts of a state, with its fields computed. *)
Ltac open_flows H :=
  destruct H as [Hs Hb Hw Ha Hua Hr Hur]; unfold held_slots in *; cbn [fs_stack fs_opening fs_tcp fs_leaving fs_udp] in *.

Lemma tcp_begin_ok ep s o t l u n k :
  flows_ok (MkFlows s o t l u) n k ->
  flows_ok (MkFlows (tcp_begin ep s).2 (if (tcp_begin ep s).1 then S o else o) t l u) (n + 1) k.
Proof.
  intros Hf. open_flows Hf.
  unfold tcp_begin. destruct (flowFromID ep) as [fl|er]; [|unfold tryAcquireTCPSlot].
  - unfold tryAcquireTCPSlot. destruct (Z.ltb_spec (ns_slots s) (ns_maxFlows s)) as [Hlt|Hlt]; split; unfold held_slots; cbn;
      try done; try lia.
    + rewrite Hr. f_equal. lia.
    + replace (n + 1 - Z.of_nat o) with (n - Z.of_nat o + 1) by lia. by apply wrap_inc_r.
  - split; unfold held_slots; cbn; try done; try lia.
    replace (n + 1 - Z.of_nat o) with (n - Z.of_nat o + 1) by lia. by apply wrap_inc_r.
Qed.

Lemma tcp_endpoint_ok created s o t l u n k :
  flows_ok (MkFlows s (S o) t l u) n k ->
  flows_ok (MkFlows (tcp_endpoint created s) o (if created then S t else t) (if created then l else S l) u) n k.
Proof.
  intros Hf. open_flows Hf.
  assert (Hn : n - Z.of_nat o = n - Z.of_nat (S o) + 1) by lia.
  destruct created; split; unfold held_slots; cbn; try done; try lia.
  - rewrite Ha, inc_wrap. f_equal. lia.
  - rewrite Hn. by apply wrap_inc_l.
  - rewrite Hn. by apply wrap_inc_r.
Qed.

Lemma flow_step_ok ev f f' n u :
  flows_ok f n u -> flow_step ev f = Some f' -> flows_ok f' (n + is_tcp_request ev) (u + is_udp_request ev).
Proof.
  intros Hf. destruct f as [s o t l k].
  destruct ev as [ep|created|e| |ep endpoint|e|]; cbn [flow_step is_tcp_request is_udp_request]; rewrite ?Z.add_0_r.
  - pose proof (tcp_begin_ok ep s o t l k n u Hf) as Ht. destruct (tcp_begin ep s) as [opens s1]. by intros [= <-].
  - destruct o as [|o]; [done|]. intros [= <-]. by apply tcp_endpoint_ok.
  - open_flows Hf.
    destruct t as [|t]; [done|]. intros [= <-]. unfold tcp_end.
    assert (Hd : dec (ActiveTCPFlows (ns_metrics s)) = wrap64 (Z.of_nat t)).
    { rewrite Ha. replace (Z.of_nat (S t)) with (Z.of_nat t + 1) by lia. apply dec_wrap. }
    destruct (_ && _); split; unfold held_slots; cbn; try done; lia.
  - open_flows Hf.
    destruct l as [|l]; [done|]. intros [= <-]. split; unfold held_slots; cbn; try done; lia.
  - open_flows Hf.
    unfold udp_begin. destruct (flowFromID ep) as [fl|er]; [destruct endpoint|]; intros [= <-]; split; unfold held_slots; cbn;
      try done; try lia; try by apply wrap_inc_r.
    + rewrite Hua, inc_wrap. f_equal. lia.
    + by apply wrap_inc_l.
  - open_flows Hf.
    destruct k as [|k]; [done|]. intros [= <-]. unfold udp_end.
    assert (Hd : dec (ActiveUDPSessions (ns_metrics s)) = wrap64 (Z.of_nat k)).
    { rewrite Hua. replace (Z.of_nat (S k)) with (Z.of_nat k + 1) by lia. apply dec_wrap. }
    destruct (_ && _); split; unfold held_slots; cbn; try done; lia.
  - intros [= <-]. by destruct Hf.
Qed.

Lemma flow_run_ok evs f f' n u :
  flows_ok f n u -> flow_run evs f = Some f' ->
  flows_ok f' (n + count_events is_tcp_request evs) (u + count_events is_udp_request evs).
Proof.
  revert f n u. induction evs as [|ev evs IH]; intros f n u Hf; cbn [flow_run count_events foldr].
  - intros [= <-]. by rewrite !Z.add_0_r.
  - destruct (flow_step ev f) as [f1|] eqn:Hs; [|done]. intros Hr. rewrite !Z.add_assoc.
    apply (IH f1); [by apply flow_step_ok with f|done].
Qed.

Lemma check_config_Ok config handler udpHandler :
  check_config config handler udpHandler = Ok tt ->
  20 <= nc_MTU config /\ 0 < nc_PacketQueue config /\ 0 < nc_MaxTCPFlows config /\ handler = true /\ udpHandler = true.
Proof.
  unfold check_config. intros H. inv_result. to_prop. unfold IPv4MinimumSize in *. by destruct handler, udpHandler; split_and!.
Qed.

(** No event changes the capacity of the slots. *)
Lemma flow_step_max ev f f' : flow_step ev f = Some f' -> ns_maxFlows (fs_stack f') = ns_maxFlows (fs_stack f).
Proof.
  destruct f as [s o t l u]. destruct ev as [id|created|e| |id endpoint|e|]; cbn.
  - unfold tcp_begin, tryAcquireTCPSlot. destruct (flowFromID id); [|by intros [= <-]].
    destruct (ns_slots s <? ns_maxFlows s); by intros [= <-].
  - destruct o; [done|]. intros [= <-]. unfold tcp_endpoint. by destruct created.
  - destruct t; [done|]. intros [= <-]. unfold tcp_end. by destruct (_ && _).
  - destruct l; [done|]. by intros [= <-].
  - unfold udp_begin. destruct (flowFromID id); [destruct endpoint|]; by intros [= <-].
  - destruct u; [done|]. intros [= <-]. unfold udp_end. by destruct (_ && _).
  - by intros [= <-].
Qed.

Lemma flow_run_max evs f f' : flow_run evs f = Some f' -> ns_maxFlows (fs_stack f') = ns_maxFlows (fs_stack f).
Proof.
  revert f. induction evs as [|ev evs IH]; intros f; cbn [flow_run]; [by intros [= <-]|].
  destruct (flow_step ev f) as [f1|] eqn:Hs; [|done]. intros Hr. rewrite (IH _ Hr). by apply flow_step_max with ev.
Qed.

(** A flow identifier with two addresses of one family. *)
Lemma flowFromID_Ok ep fl :
  bytes_ok (LocalAddress ep) -> bytes_ok (RemoteAddress ep) -> flowFromID ep = Ok fl ->
  tf_SourcePort fl = RemotePort ep /\ tf_DestinationPort fl = LocalPort ep /\
  addr_valid (tf_DestinationIP fl) = true /\ addr_wf (tf_DestinationIP fl) /\ addr_wf (tf_SourceIP fl) /\
  is4 (tf_DestinationIP fl) = is4 (tf_SourceIP fl).
Proof.
  intros Hl Hr. unfold flowFromID. rewrite bind_Ok. intros ([d s] & Ha & [= <-]). cbn.
  unfold addressesFromID in Ha. apply guard_err_Ok in Ha as [Hlen Ha]. apply negb_false_iff, bool_decide_eq_true in Hlen.
  destruct (length (LocalAddress ep)) as [|n] eqn:Hn; [done|]. symmetry in Hlen.
  assert (Hb : forall (bs : list Z) k w, bytes_ok bs -> length bs = k -> w = 8 * Z.of_nat k -> 0 <= be_value bs < 2 ^ w).
  { intros bs k w Hbs Hk ->. by apply (be_value_bits bs k). }
  do 4 (destruct n as [|n]; try done).
  - injection Ha as <- <-. do 3 (split; [done|]). split; [by apply (Hb _ 4%nat)|]. split; [by apply (Hb _ 4%nat)|done].
  - do 12 (destruct n as [|n]; try done).
    injection Ha as <- <-. do 3 (split; [done|]). split; [by apply (Hb _ 16%nat)|]. split; [by apply (Hb _ 16%nat)|done].
Qed.

(** ** Properties *)

(** C37: the flows of the stack.  From an accepted configuration on, whatever
    requests, ends of handshakes and of handlers and closing follow each
    other: the slots in use are the calls of [handleTCP] between taking and
    giving back theirs - in a handshake, in the handler, on the way out - and
    never exceed the configured maximum, so neither do the handlers that run;
    the wait group counts all handlers, so that [Close] waits for exactly
    them (not for a handshake: its handler can begin afterwards); the active counters are the handlers that run, and every request is
    counted as accepted or as rejected, once, when its handshake is over.  The
    flow of a request has well-formed addresses of one family. *)
Theorem flows_bounded_and_counted (config : Config) (handler udpHandler : bool) (evs : list flow_event) (f : flows_state) :
  check_config config handler udpHandler = Ok tt -> flow_run evs (no_flows (new_stack config)) = Some f ->
  flows_ok f (count_events is_tcp_request evs) (count_events is_udp_request evs) /\
  ns_maxFlows (fs_stack f) = nc_MaxTCPFlows config /\
  Z.of_nat (fs_tcp f) <= nc_MaxTCPFlows config /\
  (ns_flows (fs_stack f) = 0 <-> fs_tcp f = 0%nat /\ fs_udp f = 0%nat) /\
  (forall ep, bytes_ok (LocalAddress ep) -> bytes_ok (RemoteAddress ep) ->
     match flowFromID ep with
     | Ok fl => addr_valid (tf_DestinationIP fl) = true /\ addr_wf (tf_DestinationIP fl) /\ addr_wf (tf_SourceIP fl) /\
                is4 (tf_DestinationIP fl) = is4 (tf_SourceIP fl)
     | Err _ => fst (tcp_begin ep (fs_stack f)) = false /\ fst (udp_begin ep true (fs_stack f)) = false
     end).
Proof.
  intros (_ & _ & Hmax & _)%check_config_Ok Hrun.
  assert (H0 : flows_ok (no_flows (new_stack config)) 0 0) by (by split; cbn; unfold held_slots; cbn; try lia).
  pose proof (flow_run_ok _ _ _ _ _ H0 Hrun) as Hf. pose proof (flow_run_max _ _ _ Hrun) as Hm. cbn in Hm.
  split; [by rewrite !Z.add_0_l in Hf|]. split; [done|]. split; [|split].
  - pose proof (fo_bound _ _ _ Hf). unfold held_slots in *. lia.
  - rewrite (fo_wait _ _ _ Hf). lia.
  - intros ep Hl Hr. unfold tcp_begin, udp_begin. destruct (flowFromID ep) as [fl|e] eqn:Hfl; [|done].
    by destruct (flowFromID_Ok ep fl Hl Hr Hfl) as (_ & _ & ?).
Qed.

Lemma flows_bounded_and_counted_witness :
  let ep := MkEndpoint [198; 18; 0; 1] 443 [10; 0; 0; 1] 5000 in
  let config := MkConfig 1500 8 2 in
  let evs := [TCPRequest ep; TCPRequest ep; TCPRequest ep; TCPEndpoint true; TCPEndpoint false; UDPRequest ep true; TCPReleased;
              TCPRequest ep; TCPReturned None] in
  exists f, flow_run evs (no_flows (new_stack config)) = Some f /\
    flows_ok f 4 1 /\ RejectedTCPFlows (ns_metrics (fs_stack f)) = 2 /\ fs_opening f = 1%nat.
Proof.
  intros ep config evs. eexists. split; [reflexivity|]. split; [|split; reflexivity].
  refine (proj1 (flows_bounded_and_counted config true true evs _ eq_refl _)).
  reflexivity.
Defined.
