(* ===== verification/TunFacts.v ===== *)
(** * Components [internal/tun] and [internal/netstack]: packets and bounds *)

From S2P Require Import Prelude.
From S2P Require Import Outbound.
From S2P Require Import SessionHandle.
From S2P Require Import Tun.
From S2P Require Import Netstack.

(** ** Well-formed packets *)

Definition bytes_in_range (packet : list Z) : Prop := Forall (fun b => 0 <= b < 256) packet.

(** An IPv4 packet whose total length is its length and covers its header. *)
Definition ipv4_packet (p : list Z) : Prop :=
  exists first, p !! 0%nat = Some first /\ Z.shiftr first 4 = 4 /\
    20 <= Z.land first 0x0f * 4 <= plen p /\ uint16_at p 2 = Some (plen p).

(** An IPv6 packet whose payload length accounts for its length. *)
Definition ipv6_packet (p : list Z) : Prop :=
  exists first, p !! 0%nat = Some first /\ Z.shiftr first 4 = 6 /\
    40 <= plen p /\ uint16_at p 4 = Some (plen p - 40).

Definition ip_packet (p : list Z) : Prop := ipv4_packet p \/ ipv6_packet p.

Lemma uint16_at_Some packet i :
  bytes_in_range packet -> (S i < length packet)%nat -> exists v, uint16_at packet i = Some v /\ 0 <= v.
Proof.
  intros Hb Hi. unfold uint16_at, byte_at.
  destruct (lookup_lt_is_Some_2 packet i) as [x Hx]; [lia|]. destruct (lookup_lt_is_Some_2 packet (S i)) as [y Hy]; [lia|].
  rewrite Hx, Hy. cbn. eexists. split; [done|]. unfold bytes_in_range in Hb. rewrite Forall_lookup in Hb.
  apply Z.lor_nonneg. split; [apply Z.shiftl_nonneg|]; [apply (Hb i x Hx)|apply (Hb _ y Hy)].
Qed.

Lemma uint16_at_prefix p packet i v : p `prefix_of` packet -> uint16_at p i = Some v -> uint16_at packet i = Some v.
Proof.
  intros [q ->]. unfold uint16_at, byte_at. destruct (p !! i) as [x|] eqn:Hx; [|done]. destruct (p !! S i) as [y|] eqn:Hy; [|done].
  cbn. intros [= <-]. by rewrite !(lookup_app_l_Some _ _ _ _ Hx), !(lookup_app_l_Some _ _ _ _ Hy).
Qed.

Lemma uint16_at_take packet n i v :
  uint16_at packet i = Some v -> (S i < n)%nat -> uint16_at (take n packet) i = Some v.
Proof. intros Hu Hn. unfold uint16_at, byte_at in *. by rewrite !lookup_take_lt by lia. Qed.

Lemma slice_to_Some packet n : 0 <= n <= plen packet -> slice_to packet n = Some (take (Z.to_nat n) packet).
Proof.
  intros Hn. unfold slice_to. by rewrite (proj2 (Z.leb_le 0 n)), (proj2 (Z.leb_le n (plen packet))) by lia.
Qed.

Lemma plen_take packet n : 0 <= n <= plen packet -> plen (take (Z.to_nat n) packet) = n.
Proof. intros Hn. unfold plen in *. rewrite length_take. lia. Qed.

Lemma prefix_plen (p packet : list Z) : p `prefix_of` packet -> plen p <= plen packet.
Proof. intros H%prefix_length. unfold plen. lia. Qed.

Lemma take_of_prefix (p packet : list Z) : p `prefix_of` packet -> take (Z.to_nat (plen p)) packet = p.
Proof. intros [q ->]. unfold plen. rewrite Nat2Z.id, take_app_length. done. Qed.

(** Validation is total, and accepts exactly the packets at the front. *)
Lemma validateIPv4_spec packet :
  bytes_in_range packet ->
  exists r, validateIPv4 packet = Some r /\ forall p, r = Some p <-> p `prefix_of` packet /\ ipv4_packet p.
Proof.
  intros Hb. unfold validateIPv4.
  assert (Hno : forall P : Prop, ~ P -> forall p : list Z, None = Some p <-> P) by (intros P HP p; split; [done|intros H; by apply HP in H]).
  destruct (Z.ltb_spec (plen packet) 20) as [Hl|Hl].
  { eexists. split; [done|]. intros p. apply Hno. intros [Hp%prefix_plen (f & _ & _ & ? & _)]. lia. }
  destruct (lookup_lt_is_Some_2 packet 0) as [first Hf]; [unfold plen in Hl; lia|]. unfold byte_at. rewrite Hf. cbn [mbind option_bind].
  assert (Hfirst : forall p f, p `prefix_of` packet -> p !! 0%nat = Some f -> f = first).
  { intros p f [q ->] Hp. rewrite (lookup_app_l_Some _ _ _ _ Hp) in Hf. congruence. }
  destruct (Z.eqb_spec (Z.shiftr first 4) 4) as [Hv|Hv]; cbn [negb].
  2: { eexists. split; [done|]. intros p. apply Hno. intros [Hp (f & Hpf & Hs & _)]. rewrite (Hfirst p f Hp Hpf) in Hs. done. }
  destruct (_ || _) eqn:Hh.
  { eexists. split; [done|]. intros p. apply Hno. intros [Hp (f & Hpf & Hs & Hlen & _)]. rewrite (Hfirst p f Hp Hpf) in Hlen.
    apply prefix_plen in Hp. apply orb_true_iff in Hh as [Hh|Hh]; apply Z.ltb_lt in Hh; lia. }
  apply orb_false_iff in Hh as [Hh1 Hh2]. apply Z.ltb_ge in Hh1, Hh2.
  destruct (uint16_at_Some packet 2 Hb) as (total & Ht & Htn); [unfold plen in Hl; lia|]. rewrite Ht. cbn [mbind option_bind].
  destruct (_ || _) eqn:Hh.
  { eexists. split; [done|]. intros p. apply Hno. intros [Hp (f & Hpf & Hs & Hlen & Hu)]. rewrite (Hfirst p f Hp Hpf) in Hlen.
    apply (uint16_at_prefix _ _ _ _ Hp) in Hu. assert (plen p = total) by congruence. apply prefix_plen in Hp.
    apply orb_true_iff in Hh as [Hh|Hh]; apply Z.ltb_lt in Hh; lia. }
  apply orb_false_iff in Hh as [Hh3 Hh4]. apply Z.ltb_ge in Hh3, Hh4. rewrite slice_to_Some by lia. cbn [mbind option_bind].
  eexists. split; [done|]. intros p. split.
  - intros [= <-]. split; [apply prefix_take|]. exists first.
    rewrite lookup_take_lt by lia. rewrite plen_take by lia. split_and!; [done|done|lia|lia|].
    apply uint16_at_take; [done|lia].
  - intros [Hp (f & Hpf & Hs & Hlen & Hu)]. apply (uint16_at_prefix _ _ _ _ Hp) in Hu. assert (total = plen p) as -> by congruence.
    f_equal. by apply take_of_prefix.
Qed.

Lemma validateIPv6_spec packet :
  bytes_in_range packet ->
  exists r, validateIPv6 packet = Some r /\ forall p, r = Some p <-> p `prefix_of` packet /\ ipv6_packet p.
Proof.
  intros Hb. unfold validateIPv6.
  assert (Hno : forall P : Prop, ~ P -> forall p : list Z, None = Some p <-> P) by (intros P HP p; split; [done|intros H; by apply HP in H]).
  destruct (Z.ltb_spec (plen packet) 40) as [Hl|Hl].
  { eexists. split; [done|]. intros p. apply Hno. intros [Hp%prefix_plen (f & _ & _ & ? & _)]. lia. }
  destruct (lookup_lt_is_Some_2 packet 0) as [first Hf]; [unfold plen in Hl; lia|]. unfold byte_at. rewrite Hf. cbn [mbind option_bind].
  assert (Hfirst : forall p f, p `prefix_of` packet -> p !! 0%nat = Some f -> f = first).
  { intros p f [q ->] Hp. rewrite (lookup_app_l_Some _ _ _ _ Hp) in Hf. congruence. }
  destruct (Z.eqb_spec (Z.shiftr first 4) 6) as [Hv|Hv]; cbn [negb].
  2: { eexists. split; [done|]. intros p. apply Hno. intros [Hp (f & Hpf & Hs & _)]. rewrite (Hfirst p f Hp Hpf) in Hs. done. }
  destruct (uint16_at_Some packet 4 Hb) as (payload & Ht & Htn); [unfold plen in Hl; lia|]. rewrite Ht. cbn [mbind option_bind].
  destruct (Z.ltb_spec (plen packet) (40 + payload)) as [Hh|Hh].
  { eexists. split; [done|]. intros p. apply Hno. intros [Hp (f & Hpf & Hs & Hlen & Hu)].
    apply (uint16_at_prefix _ _ _ _ Hp) in Hu. assert (plen p - 40 = payload) by congruence. apply prefix_plen in Hp. lia. }
  rewrite slice_to_Some by lia. cbn [mbind option_bind]. eexists. split; [done|]. intros p. split.
  - intros [= <-]. split; [apply prefix_take|]. exists first.
    rewrite lookup_take_lt by lia. rewrite plen_take by lia. split_and!; [done|done|lia|].
    replace (40 + payload - 40) with payload by lia. apply uint16_at_take; [done|lia].
  - intros [Hp (f & Hpf & Hs & Hlen & Hu)]. apply (uint16_at_prefix _ _ _ _ Hp) in Hu. assert (payload = plen p - 40) as -> by congruence.
    f_equal. replace (40 + (plen p - 40)) with (plen p) by lia. by apply take_of_prefix.
Qed.

(** [validateIP] accepts exactly the packet at the front. *)
Lemma validateIP_spec packet :
  bytes_in_range packet ->
  exists r, validateIP packet = Some r /\ forall p, r = Some p <-> p `prefix_of` packet /\ ip_packet p.
Proof.
  intros Hb. unfold validateIP. destruct packet as [|first rest].
  { eexists. split; [done|]. intros p. split; [done|]. intros [->%prefix_nil_inv [(f & Hf & _)|(f & Hf & _)]]; done. }
  rewrite bool_decide_false by done. cbn [byte_at lookup list_lookup mbind option_bind].
  assert (Hfirst : forall p f, p `prefix_of` first :: rest -> p !! 0%nat = Some f -> f = first).
  { intros p f [q Hq] Hp. destruct p as [|x p]; [done|]. cbn in Hp, Hq. congruence. }
  destruct (Z.eqb_spec (Z.shiftr first 4) 6) as [Hv|Hv].
  - destruct (validateIPv6_spec _ Hb) as (r & Hr & Hspec). exists r. split; [done|]. intros p. rewrite Hspec. unfold ip_packet.
    split; [tauto|]. intros [Hp [(f & Hf & Hs & _)|?]]; [|done]. rewrite (Hfirst p f Hp Hf) in Hs. lia.
  - destruct (validateIPv4_spec _ Hb) as (r & Hr & Hspec). exists r. split; [done|]. intros p. rewrite Hspec. unfold ip_packet.
    split; [tauto|]. intros [Hp [?|(f & Hf & Hs & _)]]; [done|]. rewrite (Hfirst p f Hp Hf) in Hs. lia.
Qed.

(** [validateInbound] agrees with it, and counts what it drops. *)
Lemma validateInbound_spec packet s :
  bytes_in_range packet ->
  exists r, validateIP packet = Some r /\
    validateInbound packet s = Some (r, match r with Some _ => s | None => count_malformed s end).
Proof.
  intros Hb. unfold validateInbound, validateIP. case_bool_decide as He; [by exists None|].
  destruct packet as [|first rest]; [done|]. cbn [byte_at lookup list_lookup mbind option_bind].
  destruct (validateIPv4_spec _ Hb) as (r4 & Hr4 & Hs4). destruct (validateIPv6_spec _ Hb) as (r6 & Hr6 & _).
  destruct (Z.eqb_spec (Z.shiftr first 4) 4) as [Hv|Hv].
  - rewrite Hv. cbn. rewrite Hr4. exists r4. split; [done|]. by destruct r4.
  - destruct (Z.eqb_spec (Z.shiftr first 4) 6) as [Hv6|Hv6].
    + rewrite Hr6. exists r6. split; [done|]. by destruct r6.
    + rewrite Hr4. exists r4. split; [done|]. cbn. destruct r4 as [p|]; [|done].
      destruct (proj1 (Hs4 p) eq_refl) as [[q Hq] (f & Hf & Hsh & _)]. destruct p as [|x p]; [done|]. cbn in Hf, Hq. congruence.
Qed.

(** ** The pump *)

(** Every buffer of the pool is large enough, and there is room for all. *)
Record pool_ok (p : BufferPool) : Prop := {
  po_size : PacketOffset < bp_size p;
  po_buffers : Forall (fun b => bp_size p <= buf_cap b) (bp_buffers p);
  po_count : Z.of_nat (length (bp_buffers p)) <= bp_count p
}.

(** A device that leaves bytes in the buffer it was given; its count and its
    size may be anything. *)
Definition device_ok (size : Z) (d : device_read) : Prop :=
  match d with Ok (_, _, contents) => plen contents = size /\ bytes_in_range contents | Err _ => True end.

(** The pool after a buffer was taken and given back. *)
Definition same_pool (p p' : BufferPool) : Prop :=
  bp_buffers p' ≡ₚ bp_buffers p /\ bp_count p' = bp_count p /\ bp_size p' = bp_size p.

Lemma same_pool_ok p p' : same_pool p p' -> pool_ok p -> pool_ok p'.
Proof. intros (Hb & Hc & Hs) [H1 H2 H3]. split; [by rewrite Hs|by rewrite Hb, Hs|by rewrite Hb, Hc]. Qed.

Lemma Get_Ok ctx first p b p1 :
  Get ctx first p = Some (Ok b, p1) -> pool_ok p ->
  bp_buffers p = b :: bp_buffers p1 /\ bp_count p1 = bp_count p /\ bp_size p1 = bp_size p /\ same_pool p (Put b p1).
Proof.
  unfold Get. intros Hg [Hs Hb Hc]. assert (Hp : bp_buffers p = b :: bp_buffers p1 /\ bp_count p1 = bp_count p /\ bp_size p1 = bp_size p).
  { destruct (bp_buffers p) as [|b' rest], ctx as [c|]; try done; [destruct first; [done|]|]; by injection Hg as -> <-. }
  destruct Hp as (Hl & Hcn & Hsz). split_and!; try done. unfold Put. rewrite Hsz. rewrite Hl in Hb, Hc. cbn in Hc.
  apply Forall_cons_1 in Hb as [Hcap _]. rewrite (proj2 (Z.ltb_ge _ _)) by done.
  rewrite Hcn, (proj2 (Z.ltb_lt _ _)) by lia. split_and!; cbn; [|done|done]. rewrite Hl. symmetry. apply Permutation_cons_append.
Qed.

Lemma Get_Err ctx first p e p1 : Get ctx first p = Some (Err e, p1) -> p1 = p /\ is_Some ctx.
Proof. unfold Get. destruct (bp_buffers p), ctx as [c|]; try done; [|destruct first; try done]; intros [= _ <-]; eauto. Qed.

Lemma ReadPacket_spec size d :
  device_ok size d -> PacketOffset < size ->
  exists r, Tun.ReadPacket size d = Some r /\
    forall packet, r = Ok packet -> bytes_in_range packet /\ plen packet <= size - PacketOffset /\
      exists count n contents, d = Ok (count, n, contents) /\ packet `prefix_of` drop 4 contents.
Proof.
  intros Hd Hs. unfold Tun.ReadPacket. rewrite (proj2 (Z.leb_gt _ _)) by done.
  destruct d as [[[count n] contents]|e]; [|by eexists]. destruct Hd as [Hlen Hb].
  destruct (negb _); [by eexists|]. destruct (_ || _) eqn:Hn; [by eexists|].
  apply orb_false_iff in Hn as [Hn1 Hn2]. apply Z.ltb_ge in Hn1, Hn2. unfold PacketOffset in *.
  rewrite slice_to_Some by lia. cbn [mbind option_bind]. eexists. split; [done|]. intros packet [= <-]. split_and!.
  - apply Forall_drop, Forall_take, Hb.
  - unfold plen. rewrite length_drop, length_take. lia.
  - exists count, n, contents. split; [done|]. replace (Z.to_nat (4 + n)) with (4 + Z.to_nat n)%nat by lia.
    rewrite <- (take_drop_commute). apply prefix_take.
Qed.

(** A packet the pump may hand on, read from a device. *)
Definition handed_on (size : Z) (d : device_read) (packet : list Z) : Prop :=
  ip_packet packet /\ plen packet <= size - PacketOffset /\
  exists count n contents, d = Ok (count, n, contents) /\ packet `prefix_of` drop 4 contents.

Lemma pump_put_pool b p : pu_pool (pump_put b p) = Put b (pu_pool p).
Proof. done. Qed.

Lemma run_once_ok i p r p' handed :
  pool_ok (pu_pool p) -> device_ok (bp_size (pu_pool p)) (ri_read i) -> run_once i p = (r, p', handed) ->
  r <> RunPanic /\ same_pool (pu_pool p) (pu_pool p') /\
  (forall packet, handed = Some packet -> handed_on (bp_size (pu_pool p)) (ri_read i) packet).
Proof.
  intros Hp Hd. assert (Hrefl : same_pool (pu_pool p) (pu_pool p)) by (by split).
  unfold run_once. destruct (Get _ _ _) as [[[b|e] pool]|] eqn:Hg.
  - destruct (Get_Ok _ _ _ _ _ Hg Hp) as (_ & _ & Hsz & Hput). rewrite Hsz.
    destruct (ReadPacket_spec _ _ Hd (po_size _ Hp)) as (rd & Hrd & Hpk). rewrite Hrd.
    destruct rd as [packet|e]; [|destruct (ri_stopped i); intros [= <- <- <-]; by split_and!].
    destruct (Hpk _ eq_refl) as (Hb & Hlen & Hfrom). cbn [pu_stats].
    destruct (validateInbound_spec packet (pu_stats p) Hb) as (v & Hv & ->).
    destruct v as [valid|]; [|intros [= <- <- <-]; by split_and!].
    destruct (validateIP_spec packet Hb) as (v' & Hv' & Hspec). assert (v' = Some valid) as -> by congruence.
    destruct (proj1 (Hspec valid) eq_refl) as [Hpre Hip].
    assert (Hh : handed_on (bp_size (pu_pool p)) (ri_read i) valid).
    { apply prefix_plen in Hpre as Hle. split; [done|]. split; [lia|]. destruct Hfrom as (c & n & contents & ? & ?). exists c, n, contents.
      split; [done|]. by etrans. }
    destruct (ri_handler i); intros [= <- <- <-]; (split; [done|]; split; [exact Hput|by intros ? [= <-]]).
  - apply Get_Err in Hg as [-> _]. intros [= <- <- <-]. by split_and!.
  - intros [= <- <- <-]. by split_and!.
Qed.

Lemma Run_ok inputs p r p' handed :
  pool_ok (pu_pool p) -> Forall (fun i => device_ok (bp_size (pu_pool p)) (ri_read i)) inputs ->
  Run inputs p = (r, p', handed) ->
  r <> RunPanic /\ same_pool (pu_pool p) (pu_pool p') /\
  Forall (fun packet => exists i, i ∈ inputs /\ handed_on (bp_size (pu_pool p)) (ri_read i) packet) handed.
Proof.
  revert p handed. induction inputs as [|i inputs IH]; intros p handed Hp Hd; cbn [Run].
  - intros [= <- <- <-]. split_and!; done || by constructor.
  - apply Forall_cons_1 in Hd as [Hi Hd]. destruct (run_once i p) as [[r1 p1] h1] eqn:H1.
    destruct (run_once_ok _ _ _ _ _ Hp Hi H1) as (Hr & Hsame & Hh).
    assert (Hfirst : Forall (fun packet => exists j, j ∈ i :: inputs /\ handed_on (bp_size (pu_pool p)) (ri_read j) packet)
      match h1 with Some packet => [packet] | None => [] end).
    { destruct h1 as [packet|]; constructor; [|constructor]. exists i. split; [by left|by apply Hh]. }
    destruct r1; try by (intros [= <- <- <-]; split_and!).
    destruct (Run inputs p1) as [[r2 p2] h2] eqn:H2. intros [= <- <- <-].
    destruct Hsame as (Hb & Hc & Hs). rewrite <- Hs in Hd.
    destruct (IH p1 h2 (same_pool_ok _ _ (conj Hb (conj Hc Hs)) Hp) Hd H2) as (Hr2 & (Hb2 & Hc2 & Hs2) & Hall).
    split; [done|]. split; [split; [by rewrite Hb2|split; congruence]|]. apply Forall_app. split; [done|].
    eapply Forall_impl; [done|]. rewrite Hs. intros packet (j & Hj & ?). exists j. split; [by right|done].
Qed.

(** The stack takes every packet that the pump hands on. *)
Lemma InjectPacket_Ok packet s : ip_packet packet -> ns_closed s = false -> (InjectPacket packet s).1 = Ok tt.
Proof.
  intros Hip Hc. unfold InjectPacket, inject. rewrite Hc. destruct packet as [|x rest].
  { by destruct Hip as [(f & Hf & _)|(f & Hf & _)]. }
  destruct Hip as [(f & Hf & Hs & Hlen & _)|(f & Hf & Hs & Hlen & _)]; cbn in Hf; injection Hf as <-; rewrite Hs; unfold plen in Hlen.
  - rewrite (proj2 (Z.ltb_ge _ _)) by (unfold IPv4MinimumSize; lia). done.
  - change (6 =? 4) with false. cbv iota. rewrite (proj2 (Z.ltb_ge _ _)) by (unfold IPv6MinimumSize; lia). done.
Qed.

(** ** Properties *)

(** C36: packet bounds.  Whatever counts and sizes a device reports and
    whatever bytes it leaves in the buffer, reading never indexes out of range;
    every packet handed to the stack is one complete IPv4 or IPv6 packet at the
    front of what the device wrote, no longer than the buffer allows, and the
    open stack takes it.  Writing never indexes out of range either, gives the
    device only such packets, and accepts again every packet that was read.
    Both give every buffer back, on every path. *)
Theorem packets_stay_in_bounds (p : pump) (inputs : list run_input) (packet : list Z) (ctx : option ctx_error)
    (first : bool) (device : result go_error Z) (s : Stack) :
  pool_ok (pu_pool p) -> Forall (fun i => device_ok (bp_size (pu_pool p)) (ri_read i)) inputs -> bytes_in_range packet ->
  ns_closed s = false ->
  let '(r, p', handed) := Run inputs p in
  (r <> RunPanic /\ same_pool (pu_pool p) (pu_pool p') /\
   Forall (fun q => (exists i, i ∈ inputs /\ handed_on (bp_size (pu_pool p)) (ri_read i) q) /\
                    (InjectPacket q s).1 = Ok tt /\ (bytes_in_range q -> validateIP q = Some (Some q))) handed) /\
  (Write packet ctx first device p = None -> bp_buffers (pu_pool p) = [] /\ ctx = None) /\
  (forall e p2 sent, Write packet ctx first device p = Some (e, p2, sent) ->
     same_pool (pu_pool p) (pu_pool p2) /\
     (forall q, sent = Some q -> ip_packet q /\ q `prefix_of` packet /\ plen q <= bp_size (pu_pool p) - PacketOffset) /\
     (e = None -> is_Some sent)).
Proof.
  intros Hp Hd Hb Hs. destruct (Run inputs p) as [[r p'] handed] eqn:Hrun.
  destruct (Run_ok _ _ _ _ _ Hp Hd Hrun) as (Hr & Hsame & Hall). split.
  { split; [done|]. split; [done|]. eapply Forall_impl; [done|]. intros q (i & Hi & Hh). pose proof Hh as (Hip & _). split; [eauto|].
    split; [by apply InjectPacket_Ok|]. intros Hbq. destruct (validateIP_spec q Hbq) as (v & -> & Hv). f_equal. by apply Hv. }
  destruct (validateIP_spec packet Hb) as (v & Hv & Hspec). unfold Write. rewrite Hv. cbn [mbind option_bind].
  destruct v as [q|]; [|split; [done|]; intros e p2 sent [= <- <- <-]; by split; [split|]].
  destruct (proj1 (Hspec q) eq_refl) as [Hpre Hip].
  destruct (Get ctx first (pu_pool p)) as [[[b|e] pool]|] eqn:Hg; cbn [mbind option_bind].
  - destruct (Get_Ok _ _ _ _ _ Hg Hp) as (_ & _ & Hsz & Hput). rewrite Hsz. split; [by destruct (_ <? plen q), (WritePacket (bp_size (pu_pool p)) (plen q) device)|].
    intros e p2 sent. destruct (Z.ltb_spec (bp_size (pu_pool p) - PacketOffset) (plen q)); [intros [= <- <- <-]; by split; [|split]|].
    destruct (WritePacket _ _ _); intros [= <- <- <-]; (split; [exact Hput|split; [by intros q' [= <-]|done]]).
  - apply Get_Err in Hg as [-> _]. split; [done|]. intros e' p2 sent [= <- <- <-]. by split; [split|].
  - split; [|done]. intros _. unfold Get in Hg. destruct (bp_buffers _), ctx; try done. by destruct first.
Qed.

Definition demo_ipv4 : list Z := [0x45; 0; 0; 21] ++ replicate 16 0 ++ [7].

Lemma packets_stay_in_bounds_witness :
  match NewBufferPool 64 2 with
  | Ok pool =>
      let p := MkPump pool (Tun.MkStats 0 0 0 0 0 0 0 0 0) in
      let i := MkRunInput None false false (Ok (1, 30, replicate 4 0 ++ demo_ipv4 ++ replicate 39 1)) None in
      let '(r, p', handed) := Run [i; i] p in
      handed = [demo_ipv4; demo_ipv4] /\ same_pool (pu_pool p) (pu_pool p') /\
      exists p2, Write demo_ipv4 None false (Ok 1) p = Some (None, p2, Some demo_ipv4) /\ same_pool (pu_pool p) (pu_pool p2)
  | Err _ => False
  end.
Proof.
  destruct (NewBufferPool 64 2) as [pool|e] eqn:Hpool; [|vm_compute in Hpool; discriminate Hpool].
  vm_compute in Hpool. injection Hpool as <-. intros p i.
  pose proof (packets_stay_in_bounds p [i; i] demo_ipv4 None false (Ok 1) (new_stack (Netstack.MkConfig 1500 1 1))) as H.
  assert (Hp : pool_ok (pu_pool p)) by (split; [reflexivity|repeat constructor; cbn; lia|cbn; lia]).
  assert (Hd : Forall (fun i => device_ok (bp_size (pu_pool p)) (ri_read i)) [i; i]).
  { assert (device_ok (bp_size (pu_pool p)) (ri_read i)) by (split; [reflexivity|repeat constructor; lia]). by repeat constructor. }
  assert (Hb : bytes_in_range demo_ipv4) by (repeat constructor; lia).
  specialize (H Hp Hd Hb eq_refl). destruct (Run [i; i] p) as [[r p'] handed] eqn:Hrun.
  destruct H as ((_ & Hsame & _) & _ & Hw). split; [vm_compute in Hrun; injection Hrun as <- <- <-; reflexivity|].
  split; [exact Hsame|]. destruct (Write demo_ipv4 None false (Ok 1) p) as [[[e p2] sent]|] eqn:He; [|vm_compute in He; discriminate He].
  exists p2. destruct (Hw e p2 sent eq_refl) as [Hs2 _]. split; [|exact Hs2].
  clear Hw. vm_compute in He. injection He as <- <- <-. reflexivity.
Defined.
