(* ===== verification/HostState.v ===== *)
(** * Component [internal/system]: the recovery record

    [state.go]: what a running instance records about the host before it
    changes it, and how the record is written, read back and removed.  JSON is
    a parameter: an encoder and a strict decoder of one document.  The theorems
    say that whatever fails, the path holds the old or the new record. *)

From S2P Require Import Prelude.
From S2P Require Import GoStrings.
From S2P Require Import GoFiles.
From S2P Require Import FakeIPFiles.
From S2P Require Import FakeIPFilesFacts.

(** ** Data *)

Definition StateVersion : Z := 1.

Record RouteState : Type := MkRoute {
  ro_Prefix : string;
  ro_Interface : string;
  ro_Gateway : string;
  ro_Scope : string
}.

#[export] Instance RouteState_eq_dec : EqDecision RouteState.
Proof. solve_decision. Defined.

Record DNSState : Type := MkDNS {
  ds_Service : string;
  ds_Previous : list string;
  ds_Applied : list string
}.

#[export] Instance DNSState_eq_dec : EqDecision DNSState.
Proof. solve_decision. Defined.

(** [State]; [StartedAt] is 0 for Go's zero time. *)
Record State : Type := MkState {
  st_Version : Z;
  st_PID : Z;
  st_StartedAt : Z;
  st_ConfigDigest : string;
  st_Phase : string;
  st_LockFile : string;
  st_TUNName : string;
  st_StatusSocket : string;
  st_ControlSocket : string;
  st_Route : option RouteState;
  st_Routes : list RouteState;
  st_DNS : list DNSState
}.

#[export] Instance State_eq_dec : EqDecision State.
Proof. solve_decision. Defined.

(** [NewState] with the process and the time. *)
Definition NewState (pid now : Z) (configDigest : string) : State :=
  MkState StateVersion pid now configDigest "starting" "" "" "" "" None [] [].

(** Assignments to single fields. *)
Definition set_digest (d : string) (s : State) : State :=
  MkState (st_Version s) (st_PID s) (st_StartedAt s) d (st_Phase s) (st_LockFile s) (st_TUNName s) (st_StatusSocket s)
    (st_ControlSocket s) (st_Route s) (st_Routes s) (st_DNS s).
Definition set_phase (p : string) (s : State) : State :=
  MkState (st_Version s) (st_PID s) (st_StartedAt s) (st_ConfigDigest s) p (st_LockFile s) (st_TUNName s) (st_StatusSocket s)
    (st_ControlSocket s) (st_Route s) (st_Routes s) (st_DNS s).
Definition set_lock (p : string) (s : State) : State :=
  MkState (st_Version s) (st_PID s) (st_StartedAt s) (st_ConfigDigest s) (st_Phase s) p (st_TUNName s) (st_StatusSocket s)
    (st_ControlSocket s) (st_Route s) (st_Routes s) (st_DNS s).
Definition set_tun (n : string) (s : State) : State :=
  MkState (st_Version s) (st_PID s) (st_StartedAt s) (st_ConfigDigest s) (st_Phase s) (st_LockFile s) n (st_StatusSocket s)
    (st_ControlSocket s) (st_Route s) (st_Routes s) (st_DNS s).
Definition set_status (p : string) (s : State) : State :=
  MkState (st_Version s) (st_PID s) (st_StartedAt s) (st_ConfigDigest s) (st_Phase s) (st_LockFile s) (st_TUNName s) p
    (st_ControlSocket s) (st_Route s) (st_Routes s) (st_DNS s).
Definition set_control (p : string) (s : State) : State :=
  MkState (st_Version s) (st_PID s) (st_StartedAt s) (st_ConfigDigest s) (st_Phase s) (st_LockFile s) (st_TUNName s)
    (st_StatusSocket s) p (st_Route s) (st_Routes s) (st_DNS s).
Definition set_route (r : option RouteState) (s : State) : State :=
  MkState (st_Version s) (st_PID s) (st_StartedAt s) (st_ConfigDigest s) (st_Phase s) (st_LockFile s) (st_TUNName s)
    (st_StatusSocket s) (st_ControlSocket s) r (st_Routes s) (st_DNS s).
Definition set_routes (r : list RouteState) (s : State) : State :=
  MkState (st_Version s) (st_PID s) (st_StartedAt s) (st_ConfigDigest s) (st_Phase s) (st_LockFile s) (st_TUNName s)
    (st_StatusSocket s) (st_ControlSocket s) (st_Route s) r (st_DNS s).
Definition set_dns (d : list DNSState) (s : State) : State :=
  MkState (st_Version s) (st_PID s) (st_StartedAt s) (st_ConfigDigest s) (st_Phase s) (st_LockFile s) (st_TUNName s)
    (st_StatusSocket s) (st_ControlSocket s) (st_Route s) (st_Routes s) d.

(** ** Validation *)

Inductive state_error : Type :=
| StateNotExist
| StateInvalid (what : string)
| StateFailed (what : string).

#[export] Instance state_error_eq_dec : EqDecision state_error.
Proof. solve_decision. Defined.

(** A path that is absolute and clean. *)
Definition clean_absolute (path : string) : bool := is_abs path && bool_decide (clean path = path).

Definition bad_socket (path : string) : bool := negb (bool_decide (path = "")) && negb (clean_absolute path).

(** [validateState] *)
Definition validateState (s : State) : result state_error unit :=
  fail_if negb (st_Version s =? StateVersion) with StateInvalid "version" in
  fail_if st_PID s <=? 0 with StateInvalid "PID" in
  fail_if st_StartedAt s =? 0 with StateInvalid "start time" in
  fail_if bool_decide (st_ConfigDigest s = "") with StateInvalid "config digest" in
  fail_if bool_decide (st_Phase s = "") with StateInvalid "phase" in
  fail_if bad_socket (st_StatusSocket s) with StateInvalid "status socket" in
  fail_if bad_socket (st_ControlSocket s) with StateInvalid "control socket" in Ok tt.

Definition maxStateSize : Z := Z.shiftl 1 20.

(** [os.CreateTemp] joins the directory and the pattern. *)
Definition temporary_prefix (directory : string) : string :=
  if has_suffix directory "/" then directory +:+ ".tun-proxy-state-" else directory +:+ "/.tun-proxy-state-".

Section files.
Context (json_encode : State -> option string) (json_decode : string -> option State).

Definition io_result {E A} (r : result E A) : IO E A := fun w => (r, w).

(** A call of the file model that reports with [file_error]. *)
Definition io_as {A} (what : string) (m : IO file_error A) : IO state_error A := fun w =>
  match m w with (Ok a, w) => (Ok a, w) | (Err _, w) => (Err (StateFailed what), w) end.

(** [ensureSafeTarget] *)
Definition ensureSafeTarget (path : string) : IO state_error unit :=
  do! _ := io_result (fail_if negb (clean_absolute path) with StateInvalid "path" in Ok tt) in
  do! info := io_get (lstat path) in
  match info with
  | NotExist => io_return tt
  | StatFailed => io_fail (StateFailed "inspect state target")
  | Info i => if bool_decide (in_kind i = Regular) then io_return tt else io_fail (StateInvalid "not a regular file")
  end.

(** [Remove] whose error is ignored. *)
Definition ignored_remove (path : string) (w : world) : bool * world := let '(ok, _, w) := remove path w in (ok, w).

(** The part of [WriteState] between creating the temporary file and the
    rename; every failure but those of [Close] and [Rename] closes the file
    first. *)
Definition fill_temporary (temporary path : string) (s : State) : IO state_error unit :=
  let close := io_ignore plain_call in
  do! _ := io_on_error (io_check plain_call (StateFailed "chmod temporary state file")) close in
  do! _ := (match json_encode s with
            | None => io_on_error (io_fail (StateFailed "encode state")) close
            | Some contents =>
                io_on_error (io_as "encode state" (writeAll (S (String.length contents)) temporary contents)) close
            end) in
  do! _ := io_on_error (io_check plain_call (StateFailed "sync state")) close in
  do! _ := io_check plain_call (StateFailed "close state") in
  io_check (rename temporary path) (StateFailed "replace state file").

(** [WriteState] *)
Definition WriteState (path : string) (s : State) : IO state_error unit :=
  do! _ := io_result (validateState s) in
  do! _ := ensureSafeTarget path in
  do! created := io_get (create_temp (temporary_prefix (dir path))) in
  do! temporary := (match created with Some t => io_return t | None => io_fail (StateFailed "create temporary state file") end) in
  do! _ := io_on_error (fill_temporary temporary path s) (io_ignore (ignored_remove temporary)) in
  do! _ := io_check plain_call (StateFailed "open state directory for sync") in
  io_check plain_call (StateFailed "sync state directory").

(** [ReadState] *)
Definition ReadState (path : string) : IO state_error State :=
  do! info := io_get (lstat path) in
  match info with
  | NotExist => io_fail StateNotExist
  | StatFailed => io_fail (StateFailed "inspect state file")
  | Info i =>
      if negb (bool_decide (in_kind i = Regular)) then io_fail (StateInvalid "not a regular file")
      else if negb (Z.land (in_perm i) 63 =? 0) then io_fail (StateInvalid "permissions")
      else if maxStateSize <? slen (in_data i) then io_fail (StateInvalid "exceeds 1 MiB")
      else fun w =>
        if negb (in_uid i =? w_euid w) then (Err (StateInvalid "owner"), w)
        else
          (do! contents := io_get (read_file path) in
           match contents with
           | None => io_fail (StateFailed "open state file")
           | Some contents =>
               match json_decode contents with
               | None => io_fail (StateInvalid "decode state")
               | Some s => io_result (let! _ := validateState s in Ok s)
               end
           end) w
  end.

(** [RemoveState] *)
Definition RemoveState (path : string) : IO state_error unit := fun w =>
  match ReadState path w with
  | (Err StateNotExist, w) => (Ok tt, w)
  | (Err e, w) => (Err e, w)
  | (Ok _, w) => io_check (ignored_remove path) (StateFailed "remove state file") w
  end.
End files.

(** * The record is replaced as a whole *)

Section write.
Context (json_encode : State -> option string) (json_decode : string -> option State).

(** A private file of the process with the encoded state. *)
Definition private_file (w : world) (path contents : string) : Prop :=
  exists i, w_fs w !! path = Some i /\ in_kind i = Regular /\ Z.land (in_perm i) 63 = 0 /\ in_uid i = w_euid w /\ in_data i = contents.

(** The file of the state is as it was in [w0], and so is everything but the
    temporary file. *)
Record kept (w0 w : world) (temporary : string) : Prop := {
  kp_files q : q <> temporary -> w_fs w !! q = w_fs w0 !! q;
  kp_euid : w_euid w = w_euid w0
}.

(** The state was replaced. *)
Record replaced (w0 w : world) (temporary path contents : string) : Prop := {
  rp_file : private_file w path contents;
  rp_files q : q <> temporary -> q <> path -> w_fs w !! q = w_fs w0 !! q;
  rp_euid : w_euid w = w_euid w0
}.

Lemma holds_kept w0 w t d c : holds w0 w t d c -> kept w0 w t.
Proof. intros [_ Ho He]. by split. Qed.

Lemma kept_next w0 w o w' t : next_outcome w = (o, w') -> kept w0 w t -> kept w0 w' t.
Proof. intros Hn [Hf He]. destruct (next_outcome_files _ _ _ Hn) as [Hfs Heu]. split; rewrite ?Hfs, ?Heu; done. Qed.

Lemma replaced_next w0 w o w' t p c : next_outcome w = (o, w') -> replaced w0 w t p c -> replaced w0 w' t p c.
Proof.
  intros Hn [Hp Hf He]. destruct (next_outcome_files _ _ _ Hn) as [Hfs Heu].
  split; unfold private_file in *; rewrite ?Hfs, ?Heu; done.
Qed.

Lemma kept_remove w0 w t ok w' : ignored_remove t w = (ok, w') -> kept w0 w t -> kept w0 w' t.
Proof.
  unfold ignored_remove, remove. destruct (next_outcome w) as [o w1] eqn:Hn. intros Hr Hk.
  pose proof (kept_next _ _ _ _ _ Hn Hk) as Hk1. destruct (fails o); [by injection Hr as <- <-|].
  destruct (w_fs w1 !! t) eqn:Ht; injection Hr as <- <-; [|done].
  destruct Hk1 as [Hf He]. split; [|done]. intros q Hq. cbn. rewrite lookup_delete_ne by done. by apply Hf.
Qed.

Lemma replaced_rename w0 w t p c ok w' :
  t <> p -> w_euid w = w_euid w0 -> holds w0 w t "" c -> rename t p w = (ok, w') ->
  if ok then replaced w0 w' t p c else holds w0 w' t "" c.
Proof.
  intros Htp He Hh. unfold rename. destruct (next_outcome w) as [o w1] eqn:Hn.
  pose proof (holds_next _ _ _ _ _ _ _ Hn Hh) as Hh1. destruct (fails o); [by intros [= <- <-]|].
  destruct Hh1 as [(i & Hi & Hk & Hp & Hu & Hd) Hot Heu]. rewrite Hi. intros [= <- <-]. split; cbn.
  - exists i. cbn. by rewrite lookup_insert_eq.
  - intros q Hqt Hqp. rewrite lookup_insert_ne, lookup_delete_ne by done. by apply Hot.
  - done.
Qed.

(** What a call on the temporary file leaves. *)
Definition filled (w0 : world) (t p : string) (s : State) (r : result state_error unit) (w : world) : Prop :=
  match r with
  | Ok _ => exists c, json_encode s = Some c /\ replaced w0 w t p c
  | Err _ => kept w0 w t
  end.

Section fill.
Context (w0 : world) (t p : string) (s : State).

Lemma plain_kept : preserves (E := state_error) (A := unit) (fun w => kept w0 w t) (io_ignore plain_call).
Proof.
  apply preserves_ignore. intros w ok w' Hc. unfold plain_call in Hc. destruct (next_outcome w) as [o w1] eqn:Hn.
  injection Hc as <- <-. by apply kept_next with o.
Qed.

Lemma plain_holds c (e : state_error) : preserves (fun w => holds w0 w t "" c) (io_check plain_call e).
Proof. apply preserves_check. intros w ok w'. apply holds_plain. Qed.

(** A call followed by [Close] on failure. *)
Lemma closing_holds {A} P (m : IO state_error A) R :
  triple P m R -> (forall e w, R (Err e) w -> kept w0 w t) ->
  triple P (io_on_error m (io_ignore plain_call)) (fun r w => match r with Ok a => R (Ok a) w | Err _ => kept w0 w t end).
Proof.
  intros Hm He. eapply triple_on_error; [exact Hm| |done]. intros e w Hw. apply (plain_kept w). by apply He in Hw.
Qed.

Lemma write_contents c :
  triple (fun w => holds w0 w t "" "") (io_as (A := unit) "encode state" (writeAll (S (String.length c)) t c))
    (fun r w => match r with Ok _ => holds w0 w t "" c | Err _ => kept w0 w t end).
Proof.
  intros w Hh. unfold io_as. destruct (writeAll _ t c w) as [r w'] eqn:Hw.
  destruct (writeAll_prefix w0 t "" (S (String.length c)) w "" c r w') as (n & Hn & Hall); [lia|done|done|].
  rewrite sapp_nil_l in Hn. destruct r as [[]|e]; cbn.
  - by rewrite (Hall eq_refl) in Hn.
  - by eapply holds_kept.
Qed.

Lemma fill_temporary_spec : t <> p -> triple (fun w => holds w0 w t "" "") (fill_temporary json_encode t p s) (filled w0 t p s).
Proof.
  intros Htp. unfold fill_temporary.
  eapply triple_then; [by apply (closing_holds _ _ _ (plain_holds "" _)); intros; by eapply holds_kept|intros []|done].
  eapply (triple_then _ _ _ (fun r w => match r with Ok _ => exists c, json_encode s = Some c /\ holds w0 w t "" c | Err _ => kept w0 w t end)); [|intros []|done].
  - destruct (json_encode s) as [c|].
    + eapply triple_weaken; [by apply (closing_holds _ _ _ (write_contents c))|]. intros [[]|e] w Hw; [by exists c|done].
    + intros w Hw. unfold io_on_error, io_fail. pose proof (plain_kept w (holds_kept _ _ _ _ _ Hw)) as Hk.
      destruct (io_ignore plain_call w) as [r w']. exact Hk.
  - intros w (c & Hc & Hw). revert w Hw.
    eapply (triple_then _ _ _ (fun r w => match r with Ok _ => holds w0 w t "" c | Err _ => kept w0 w t end)); [|intros []|done].
    { apply (closing_holds _ _ (fun _ w => holds w0 w t "" c)); [apply plain_holds|]. intros e w. apply holds_kept. }
    eapply triple_then; [apply (plain_holds c)|intros []|intros e w; apply holds_kept].
    intros w Hw. unfold io_check. destruct (rename t p w) as [ok w'] eqn:Hr. cbn.
    pose proof (replaced_rename w0 w t p c ok w' Htp (ho_euid _ _ _ _ _ Hw) Hw Hr) as Hres.
    destruct ok; [by exists c|by eapply holds_kept].
Qed.
End fill.

(** A path that no temporary file of [WriteState] has. *)
Definition not_temporary (path : string) : Prop := has_prefix path (temporary_prefix (dir path)) = false.

Lemma prefix_app p q : has_prefix (p +:+ q) p = true.
Proof. apply has_prefix_spec. by exists q. Qed.

(** The files are as before. *)
Definition same (w w' : world) : Prop := w_fs w' = w_fs w /\ w_euid w' = w_euid w.

Lemma same_kept w w' t : same w w' -> kept w w' t.
Proof. intros [Hf He]. split; [|done]. intros q _. by rewrite Hf. Qed.

Lemma ensure_same path w r w' : ensureSafeTarget path w = (r, w') -> same w w'.
Proof.
  unfold ensureSafeTarget, io_then, io_result. destruct (guard_err _ _ _); [|by intros [= <- <-]].
  unfold io_get, lstat. destruct (next_outcome w) as [o w1] eqn:Hn. apply next_outcome_files in Hn.
  destruct (fails o); [by intros [= <- <-]|]. destruct (w_fs w1 !! path) as [i|]; [|by intros [= <- <-]].
  destruct (bool_decide _); by intros [= <- <-].
Qed.

(** A temporary file that was created is empty and private. *)
Lemma create_temp_spec pattern w r w' :
  create_temp pattern w = (r, w') ->
  match r with
  | Some t => (exists name, t = pattern +:+ name) /\ holds w w' t "" "" /\ w_fs w !! t = None
  | None => same w w'
  end.
Proof.
  unfold create_temp. destruct (next_outcome w) as [o w1] eqn:Hn. apply next_outcome_files in Hn as [Hf He].
  destruct (next_stamp w1) as [name w2] eqn:Hs.
  assert (w_fs w2 = w_fs w1 /\ w_euid w2 = w_euid w1) as [Hf2 He2].
  { unfold next_stamp in Hs. destruct (w_stamps w1); by injection Hs as <- <-. }
  destruct (fails o || bool_decide (is_Some (w_fs w2 !! (pattern +:+ name)))) eqn:Hb; intros [= <- <-].
  - split; congruence.
  - apply orb_false_iff in Hb as [_ Hb]. apply bool_decide_eq_false, eq_None_not_Some in Hb.
    split; [by eexists|]. split; [|congruence]. split; cbn.
    + eexists. rewrite lookup_insert_eq. split_and!; [done|done|done|done|done].
    + intros q Hq. rewrite lookup_insert_ne by done. congruence.
    + congruence.
Qed.

(** [WriteState] as a whole: the old record or the new one. *)
Lemma WriteState_spec path s w r w' :
  not_temporary path -> WriteState json_encode path s w = (r, w') ->
  exists t : string, t <> path /\ (exists name, t = temporary_prefix (dir path) +:+ name) /\
    match r with
    | Ok _ => validateState s = Ok tt /\ exists c, json_encode s = Some c /\ replaced w w' t path c
    | Err _ => kept w w' t \/ validateState s = Ok tt /\ exists c, json_encode s = Some c /\ replaced w w' t path c
    end.
Proof.
  intros Hp. set (t0 := temporary_prefix (dir path)).
  assert (Hne : forall name, t0 +:+ name <> path).
  { intros name Heq. unfold not_temporary in Hp. fold t0 in Hp.
    assert (has_prefix path t0 = true) by (rewrite <- Heq; apply prefix_app). congruence. }
  unfold WriteState, io_then, io_result. destruct (validateState s) as [[]|e] eqn:Hv.
  2: { intros [= <- <-]. exists (t0 +:+ ""). split; [done|]. split; [by eexists|]. left. by apply same_kept. }
  destruct (ensureSafeTarget path w) as [r1 w1] eqn:He. apply ensure_same in He as [Hf1 He1].
  destruct r1 as [[]|e]; [|intros [= <- <-]; exists (t0 +:+ ""); split; [done|]; split; [by eexists|]; left; by apply same_kept].
  unfold io_get. destruct (create_temp _ w1) as [ct w2] eqn:Hct. apply create_temp_spec in Hct.
  destruct ct as [t|]; cbn [io_fail io_return].
  2: { intros [= <- <-]. exists (t0 +:+ ""). split; [done|]. split; [by eexists|]. left. apply same_kept. destruct Hct. split; congruence. }
  destruct Hct as ((name & Ht) & Hh & _). assert (Htp : t <> path) by (rewrite Ht; apply Hne).
  assert (Htn : exists name, t = t0 +:+ name) by (by exists name). clear Ht.
  assert (Hh0 : holds w w2 t "" "").
  { destruct Hh as [Hfile Hot Heu]. split; [done| |congruence]. intros q Hq. rewrite <- Hf1. by apply Hot. }
  pose proof (fill_temporary_spec w t path s Htp w2 Hh0) as Hfill. unfold io_on_error.
  destruct (fill_temporary json_encode t path s w2) as [[[]|e] w3]; cbn in Hfill.
  - destruct Hfill as (c & Hc & Hrep). unfold io_check, plain_call.
    destruct (next_outcome w3) as [o w4] eqn:Hn4. pose proof (replaced_next _ _ _ _ _ _ _ Hn4 Hrep) as H4.
    destruct (negb (fails o)); [|intros [= <- <-]; exists t; split; [done|]; split; [done|]; right; eauto].
    destruct (next_outcome w4) as [o' w5] eqn:Hn5. pose proof (replaced_next _ _ _ _ _ _ _ Hn5 H4) as H5.
    destruct (negb (fails o')); intros [= <- <-]; (exists t; split; [done|]; split; [done|]); [eauto|right; eauto].
  - unfold io_ignore. destruct (ignored_remove t w3) as [ok w4] eqn:Hr. intros [= <- <-]. exists t. split; [done|]. split; [done|]. left.
    by eapply kept_remove.
Qed.

(** What [ReadState] returns when no call fails. *)
Definition reads (path : string) (w : world) : result state_error State := (ReadState json_decode path (set_outcomes [] w)).1.

(** In terms of the file alone. *)
Definition reads_file (euid : Z) (file : option inode) : result state_error State :=
  match file with
  | None => Err StateNotExist
  | Some i =>
      fail_if negb (bool_decide (in_kind i = Regular)) with StateInvalid "not a regular file" in
      fail_if negb (Z.land (in_perm i) 63 =? 0) with StateInvalid "permissions" in
      fail_if maxStateSize <? slen (in_data i) with StateInvalid "exceeds 1 MiB" in
      fail_if negb (in_uid i =? euid) with StateInvalid "owner" in
      match json_decode (in_data i) with
      | None => Err (StateInvalid "decode state")
      | Some s => let! _ := validateState s in Ok s
      end
  end.

Lemma read_total path w : w_outcomes w = [] -> ReadState json_decode path w = (reads_file (w_euid w) (w_fs w !! path), w).
Proof.
  intros Ho. destruct w as [fs os euid rnd stamps]. cbn in Ho. subst os.
  unfold ReadState, io_then, io_get, lstat, next_outcome. cbn. destruct (fs !! path) as [i|] eqn:Hi; [|done]. cbn.
  unfold guard_err. destruct (negb _); [done|]. destruct (negb _); [done|]. destruct (_ <? _); [done|]. destruct (negb _); [done|].
  unfold read_file, next_outcome. cbn. rewrite Hi. cbn. destruct (json_decode (in_data i)); done.
Qed.

Lemma reads_eq path w : reads path w = reads_file (w_euid w) (w_fs w !! path).
Proof. unfold reads. by rewrite read_total. Qed.

Lemma kept_reads w w' t path : t <> path -> kept w w' t -> reads path w' = reads path w.
Proof. intros Ht [Hf He]. rewrite !reads_eq, He, (Hf path) by done. done. Qed.

Lemma replaced_reads w w' t path c s :
  replaced w w' t path c -> json_decode c = Some s -> slen c <= maxStateSize -> validateState s = Ok tt -> reads path w' = Ok s.
Proof.
  intros [(i & Hi & Hk & Hp & Hu & Hd) _ He] Hdec Hlen Hv. rewrite reads_eq, Hi. cbn.
  rewrite Hk, Hp, Hd, Hu, Hdec, !Z.eqb_refl, bool_decide_eq_true_2 by done. unfold guard_err. cbn.
  replace (maxStateSize <? slen c) with false by (symmetry; apply Z.ltb_ge; lia). cbn. by rewrite Hv.
Qed.

(** Reading fails in the same way, or because a call failed. *)
Lemma read_any path w r w' :
  ReadState json_decode path w = (r, w') ->
  same w w' /\ (r = reads path w \/ exists what, r = Err (StateFailed what)).
Proof.
  rewrite reads_eq. unfold ReadState, io_then, io_get, lstat. destruct (next_outcome w) as [o w1] eqn:Hn.
  destruct (next_outcome_files _ _ _ Hn) as [Hf He]. destruct (fails o); [intros [= <- <-]; split; [done|eauto]|].
  rewrite Hf. destruct (w_fs w !! path) as [i|] eqn:Hi; [|intros [= <- <-]; by split; [|left]]. cbn. unfold guard_err.
  destruct (negb _); [intros [= <- <-]; by split; [|left]|]. destruct (negb _); [intros [= <- <-]; by split; [|left]|].
  destruct (_ <? _); [intros [= <- <-]; by split; [|left]|].
  rewrite He. destruct (negb _); [intros [= <- <-]; by split; [|left]|].
  unfold read_file. destruct (next_outcome w1) as [o' w2] eqn:Hn2. destruct (next_outcome_files _ _ _ Hn2) as [Hf2 He2].
  assert (same w w2) by (split; congruence).
  destruct (fails o'); [intros [= <- <-]; split; [done|eauto]|]. rewrite Hf2, Hf, Hi. cbn.
  destruct (json_decode (in_data i)); intros [= <- <-]; (split; [done|by left]).
Qed.

Lemma remove_record path w s' :
  reads path w = Ok s' ->
  let '(r, w') := RemoveState json_decode path w in
  reads path w' = match r with Ok _ => Err StateNotExist | Err _ => Ok s' end.
Proof.
  intros Hs. unfold RemoveState. destruct (ReadState json_decode path w) as [r1 w1] eqn:Hr.
  apply read_any in Hr as [[Hf He] Hr]. rewrite Hs in Hr.
  assert (Hs1 : reads path w1 = Ok s') by (by rewrite reads_eq, Hf, He, <- reads_eq).
  destruct Hr as [->|[what ->]]; [|done]. unfold io_check, ignored_remove, remove.
  destruct (next_outcome w1) as [o w2] eqn:Hn. destruct (next_outcome_files _ _ _ Hn) as [Hf2 He2].
  assert (Hs2 : reads path w2 = Ok s') by (by rewrite reads_eq, Hf2, He2, <- reads_eq).
  destruct (fails o); [done|]. destruct (w_fs w2 !! path) as [i|] eqn:Hi.
  - rewrite reads_eq. cbn. by rewrite lookup_delete_eq.
  - by rewrite reads_eq, Hi in Hs2.
Qed.

(** What the file reads as after [WriteState]. *)
Lemma WriteState_reads path s w r w' :
  not_temporary path -> (forall c, json_encode s = Some c -> json_decode c = Some s /\ slen c <= maxStateSize) ->
  WriteState json_encode path s w = (r, w') ->
  (reads path w' = reads path w \/ reads path w' = Ok s) /\ (r = Ok tt -> reads path w' = Ok s).
Proof.
  intros Hp Hdec Hw. destruct (WriteState_spec _ _ _ _ _ Hp Hw) as (t & Htp & Ht & Hr).
  assert (Hrep : forall c, json_encode s = Some c -> validateState s = Ok tt -> replaced w w' t path c -> reads path w' = Ok s).
  { intros c Hc Hv Hrep. destruct (Hdec c Hc) as [Hd Hl]. by eapply replaced_reads. }
  destruct r as [[]|e].
  - destruct Hr as (Hv & c & Hc & Hrp). split; [right|]; eauto.
  - split; [|done]. destruct Hr as [Hk|(Hv & c & Hc & Hrp)]; [left; by eapply kept_reads|right; eauto].
Qed.

(** The recovery record is replaced atomically.  Whatever calls fail or
    write only part of their bytes, afterwards the file reads as before or as
    the new state, it reads as the new state when [WriteState] returns nil,
    and no file other than its own temporary one is touched.  A record that
    reads back is removed by [RemoveState], whose failure leaves it. *)
Theorem state_record_atomic (path : string) (s : State) (w w' : world) (r : result state_error unit) :
  not_temporary path -> (forall c, json_encode s = Some c -> json_decode c = Some s /\ slen c <= maxStateSize) ->
  WriteState json_encode path s w = (r, w') ->
  (forall q, q <> path -> has_prefix q (temporary_prefix (dir path)) = false -> w_fs w' !! q = w_fs w !! q) /\
  (reads path w' = reads path w \/ reads path w' = Ok s) /\
  (r = Ok tt -> reads path w' = Ok s) /\
  (forall s', reads path w = Ok s' ->
     let '(r, w') := RemoveState json_decode path w in
     reads path w' = match r with Ok _ => Err StateNotExist | Err _ => Ok s' end).
Proof.
  intros Hp Hdec Hw. destruct (WriteState_reads _ _ _ _ _ Hp Hdec Hw) as [Hor Hok].
  destruct (WriteState_spec _ _ _ _ _ Hp Hw) as (t & Htp & Ht & Hr).
  split; [|split; [done|split; [done|]]].
  - intros q Hq Hpre. assert (Hqt : q <> t) by (intros ->; destruct Ht as [name ->]; by rewrite prefix_app in Hpre).
    destruct r as [[]|e]; [destruct Hr as (_ & c & _ & Hrp); by apply (rp_files _ _ _ _ _ Hrp)|].
    destruct Hr as [Hk|(_ & c & _ & Hrp)]; [by apply (kp_files _ _ _ Hk)|by apply (rp_files _ _ _ _ _ Hrp)].
  - intros s' Hs'. by apply remove_record.
Qed.
End write.

(** ** A concrete record *)

Definition demo_state : State :=
  set_route (Some (MkRoute "198.18.0.0/15" "utun4" "" "")) (set_tun "utun4" (NewState 42 1000 "sha256:00")).

Definition demo_encode_state (s : State) : option string := if decide (s = demo_state) then Some "{...}" else None.

Definition demo_decode_state (t : string) : option State := if decide (t = "{...}") then Some demo_state else None.

(** The write of the contents stops after two bytes and continues, and the
    directory cannot be synced. *)
Definition demo_state_world : world := MkWorld ∅ [Fine; Fine; Fine; Part 2; Fine; Fine; Fine; Fine; Fine; Fails 0] 0 [] ["1"].

Lemma state_record_atomic_witness :
  let path := "/var/run/tun-proxy.state" in
  let out := WriteState demo_encode_state path demo_state demo_state_world in
  is_ok out.1 = false /\ reads demo_decode_state path out.2 = Ok demo_state /\
  (reads demo_decode_state path out.2 = reads demo_decode_state path demo_state_world \/ reads demo_decode_state path out.2 = Ok demo_state).
Proof.
  intros path out. split; [by vm_compute|]. split; [by vm_compute|].
  refine (proj1 (proj2 (state_record_atomic demo_encode_state demo_decode_state path demo_state demo_state_world out.2 out.1 _ _ _))).
  - by vm_compute.
  - intros c. unfold demo_encode_state. rewrite decide_True by done. intros Hc. injection Hc as <-. by vm_compute.
  - apply surjective_pairing.
Defined.
