(* ===== verification/HostRoutes.v ===== *)
(** * Component [internal/system]: commands, routes and the TUN interface

    [command.go], [route_darwin.go] and [tun_darwin.go]: the commands that may
    run, the arguments given to them, and what is concluded from their output.
    Running a process is a parameter.  Theorem: only the recorded route is
    deleted. *)

From S2P Require Import Prelude.
From S2P Require Import GoStrings.
From S2P Require Import NetIP.
From S2P Require Import Outbound.
From S2P Require Import EffectiveDNS.
From S2P Require Import HostState.

(** ** Commands *)

Definition commandOutputLimit : Z := Z.shiftl 64 10.

Definition allowedExecutables : list string :=
  ["/sbin/ifconfig"; "/sbin/route"; "/usr/sbin/ipconfig"; "/usr/sbin/networksetup"; "/usr/sbin/scutil"].

(** [limitedBuffer] *)
Record limitedBuffer : Type := MkLimited { lb_buffer : string; lb_remaining : Z }.

Definition newLimitedBuffer (limit : Z) : limitedBuffer := MkLimited "" limit.

(** [Write]: the count it reports, and the buffer. *)
Definition limited_write (data : string) (b : limitedBuffer) : Z * limitedBuffer :=
  let originalLength := slen data in
  let data := if lb_remaining b <? slen data then stake (Z.to_nat (lb_remaining b)) data else data in
  (originalLength,
   if 0 <? slen data then MkLimited (lb_buffer b +:+ data) (lb_remaining b - slen data) else b).

(** An error with the text of [Error()]. *)
Record command_error : Type := MkCommandError { ce_error : go_error; ce_text : string }.

(** What running a process gives: its writes to the output, its error, and the
    error of the context, with their texts. *)
Record process : Type := MkProcess {
  pr_writes : list string;
  pr_exit : option command_error;
  pr_context : option command_error
}.

Section commands.
Context {W : Type} (exec : string -> list string -> W -> process * W).

(** [RunCommand] *)
Definition RunCommand (executable : string) (args : list string) (w : W) : result command_error string * W :=
  if negb (bool_decide (executable ∈ allowedExecutables))
  then let e := failure "system executable is not allowed" in
       (Err (MkCommandError e ("system executable " +:+ executable +:+ " is not allowed")), w)
  else
    let '(p, w) := exec executable args w in
    let output := lb_buffer (fold_left (fun b data => (limited_write data b).2) (pr_writes p) (newLimitedBuffer commandOutputLimit)) in
    match pr_exit p with
    | None => (Ok output, w)
    | Some e =>
        match pr_context p with
        | Some c => (Err (MkCommandError (EWrap "run" (ce_error c)) ("run " +:+ executable +:+ ": " +:+ ce_text c)), w)
        | None =>
            (Err (MkCommandError (EWrap "run" (ce_error e))
                    ("run " +:+ executable +:+ " " +:+ string_join " " args +:+ ": " +:+ ce_text e +:+ ": " +:+ trim_space output)), w)
        end
    end.
End commands.

(** ** Interfaces *)

(** [validSystemInterface] *)
Definition validSystemInterface (value : string) : bool :=
  negb (bool_decide (value = "")) && (slen value <=? 15) &&
  sforall (fun c => is_lower c || is_upper c || is_digit c || Ascii.eqb c "_") value.

(** The check of the name in [ConfigureTUN]. *)
Definition valid_utun (name : string) : bool :=
  validSystemInterface name && (5 <=? slen name) && has_prefix name "utun".

(** ** Looking routes up *)

Definition ErrRouteNotFound : sentinel := ErrOther "route not found".

Record RouteLookup : Type := MkLookup {
  lk_Destination : string;
  lk_Mask : string;
  lk_Interface : string;
  lk_Gateway : string
}.

#[export] Instance RouteLookup_eq_dec : EqDecision RouteLookup.
Proof. solve_decision. Defined.

(** One line of the output of the route command. *)
Definition route_line (lookup : RouteLookup) (text : string) : RouteLookup :=
  match cut_at ":" (trim_space text) with
  | None => lookup
  | Some (key, value) =>
      let key := trim_space key in
      let value := trim_space value in
      if bool_decide (key = "destination") then MkLookup value (lk_Mask lookup) (lk_Interface lookup) (lk_Gateway lookup)
      else if bool_decide (key = "mask") then MkLookup (lk_Destination lookup) value (lk_Interface lookup) (lk_Gateway lookup)
      else if bool_decide (key = "interface") then MkLookup (lk_Destination lookup) (lk_Mask lookup) value (lk_Gateway lookup)
      else if bool_decide (key = "gateway") then MkLookup (lk_Destination lookup) (lk_Mask lookup) (lk_Interface lookup) value
      else lookup
  end.

(** [ParseRouteLookup] *)
Definition ParseRouteLookup (output : string) : result go_error RouteLookup :=
  let '(lines, long) := scan_lines (split_on (byte 10) output) in
  let lookup := fold_left route_line lines (MkLookup "" "" "" "") in
  fail_if long with EWrap "parse route output" (failure "bufio.Scanner: token too long") in
  fail_if bool_decide (lk_Destination lookup = "") || bool_decide (lk_Interface lookup = "")
    with failure "route output lacks destination or interface" in
  Ok lookup.

(** [parseRouteCommand]; with an error the output is empty. *)
Definition parseRouteCommand (r : result command_error string) : result go_error RouteLookup :=
  match r with
  | Ok output => if contains output "not in table" then Err (ESentinel ErrRouteNotFound) else ParseRouteLookup output
  | Err e => if contains (ce_text e) "not in table" then Err (ESentinel ErrRouteNotFound) else Err (ce_error e)
  end.

Definition defaultRouteDestination (destination : string) : bool :=
  bool_decide (destination = "default") || bool_decide (destination = "0.0.0.0") || bool_decide (destination = "::").

(** [defaultRouteLookup] *)
Definition defaultRouteLookup (lookup : RouteLookup) : bool :=
  defaultRouteDestination (lk_Destination lookup) &&
  bool_decide (lk_Mask lookup ∈ [""; "default"; "0.0.0.0"; "::"; "0.0.0.0/0"; "::/0"]).

(** ** Arguments *)

Definition family_args (six : bool) : list string := if six then ["-inet6"] else [].

Definition routeLookupArgs (address : addr) : list string := ["-n"; "get"] ++ family_args (is6 address) ++ [addr_text address].

Definition routeLookupScopedArgs (address : addr) (interfaceName : string) : list string :=
  ["-n"; "get"] ++ family_args (is6 address) ++ ["-ifscope"; interfaceName; addr_text address].

Definition routeDefaultLookupScopedArgs (ipv6 : bool) (interfaceName : string) : list string :=
  ["-n"; "get"] ++ family_args ipv6 ++ ["-ifscope"; interfaceName; "default"].

Definition routeDefaultLookupArgs (ipv6 : bool) : list string := ["-n"; "get"] ++ family_args ipv6 ++ ["default"].

(** [firstUsable]: at most three addresses after the first. *)
Fixpoint usable_loop (n : nat) (p : prefix) (address : addr) : addr :=
  match n with
  | O => address
  | S n' =>
      let next := addr_next address in
      if negb (addr_valid next) || negb (prefix_contains p next) then address
      else if negb (is_unspecified next) && negb (is_loopback next) then next
      else usable_loop n' p next
  end.

Definition firstUsable (p : prefix) : addr := usable_loop 3 p (prefix_addr (masked p)).

Definition routeGetArgs (p : prefix) : list string := routeLookupArgs (firstUsable p).

Definition routeStateGetArgs (p : prefix) (scope : string) : list string :=
  if negb (bool_decide (scope = "")) then routeLookupScopedArgs (firstUsable p) scope else routeGetArgs p.

(** [routeStateMutationArgs]; the invalid address is the absent gateway. *)
Definition routeStateMutationArgs (operation : string) (p : prefix) (interfaceName : string) (gateway : addr) (scope : string)
    : list string :=
  let args := ["-n"; operation] ++ family_args (is6 (prefix_addr p)) in
  let bits := if is4 (prefix_addr p) then 32 else 128 in
  let scoped := if bool_decide (scope = "") then [] else ["-ifscope"; scope] in
  if addr_valid gateway then
    let '(kind, destination) :=
      if prefix_bits p =? bits then ("-host", addr_text (prefix_addr p)) else ("-net", prefix_text (masked p)) in
    args ++ [kind] ++ scoped ++ [destination; addr_text gateway]
  else args ++ scoped ++ ["-net"; prefix_text (masked p); "-interface"; interfaceName].

(** ** Recorded routes *)

(** [validateRouteState] *)
Definition validateRouteState (route : RouteState) : result go_error (prefix * addr) :=
  match parse_prefix (ro_Prefix route) with
  | None => Err (failure "invalid route prefix")
  | Some p =>
      fail_if is4in6 (prefix_addr p) with failure "invalid route prefix" in
      fail_if negb (validSystemInterface (ro_Interface route)) with failure "invalid route interface" in
      fail_if negb (bool_decide (ro_Scope route = "")) &&
              (negb (validSystemInterface (ro_Scope route)) || negb (bool_decide (ro_Scope route = ro_Interface route)))
        with failure "invalid route scope" in
      if bool_decide (ro_Gateway route = "") then
        fail_if negb (bool_decide (ro_Scope route = "")) with failure "route scope requires a gateway" in
        Ok (p, AddrZero)
      else
        match parse_addr (ro_Gateway route) with
        | None => Err (failure "invalid route gateway")
        | Some gateway =>
            fail_if is4in6 gateway || negb (Bool.eqb (is4 gateway) (is4 (prefix_addr p))) with failure "invalid route gateway" in
            Ok (p, gateway)
        end
  end.

(** [splitRouteMaskMatches] *)
Definition splitRouteMaskMatches (p : prefix) (mask : string) : bool :=
  if is4 (prefix_addr p) then bool_decide (mask = "128.0.0.0") else bool_decide (mask = "8000::").

Definition route_command : string := "/sbin/route".
Definition ifconfig : string := "/sbin/ifconfig".

Section routes.
Context {W : Type} (run : string -> list string -> W -> result command_error string * W).

(** [lookupRoute], [lookupRouteScoped] and the lookups of a default route. *)
Definition lookupRoute (address : addr) (w : W) : result go_error RouteLookup * W :=
  if negb (addr_valid address) || is4in6 address then (Err (failure "invalid route lookup address"), w)
  else let '(r, w) := run route_command (routeLookupArgs address) w in (parseRouteCommand r, w).

Definition lookupRouteScoped (address : addr) (interfaceName : string) (w : W) : result go_error RouteLookup * W :=
  if negb (addr_valid address) || is4in6 address then (Err (failure "invalid scoped route lookup address"), w)
  else if negb (validSystemInterface interfaceName) then (Err (failure "invalid route interface"), w)
  else let '(r, w) := run route_command (routeLookupScopedArgs address interfaceName) w in (parseRouteCommand r, w).

Definition LookupDefaultRoute (ipv6 : bool) (w : W) : result go_error RouteLookup * W :=
  let '(r, w) := run route_command (routeDefaultLookupArgs ipv6) w in (parseRouteCommand r, w).

Definition LookupDefaultRouteScoped (ipv6 : bool) (interfaceName : string) (w : W) : result go_error RouteLookup * W :=
  if negb (validSystemInterface interfaceName) then (Err (failure "invalid route interface"), w)
  else let '(r, w) := run route_command (routeDefaultLookupScopedArgs ipv6 interfaceName) w in (parseRouteCommand r, w).

(** [checkPrefixAvailable] *)
Definition checkPrefixAvailable (p : prefix) (w : W) : option go_error * W :=
  let '(r, w) := lookupRoute (firstUsable p) w in
  match r with
  | Err e => (if errors_is ErrRouteNotFound e then None else Some (EWrap "check Fake IP route" e), w)
  | Ok lookup =>
      (if defaultRouteLookup lookup then None else Some (failure "Fake IP prefix conflicts with route destination"), w)
  end.

(** [AddRoute] *)
Definition AddRoute (route : RouteState) (w : W) : result go_error unit * W :=
  match validateRouteState route with
  | Err e => (Err e, w)
  | Ok (p, gateway) =>
      let '(r, w) := run route_command (routeStateMutationArgs "add" p (ro_Interface route) gateway (ro_Scope route)) w in
      (match r with Ok _ => Ok tt | Err e => Err (EWrap "add route" (ce_error e)) end, w)
  end.

(** [VerifyRoute] *)
Definition VerifyRoute (route : RouteState) (w : W) : result go_error unit * W :=
  match validateRouteState route with
  | Err e => (Err e, w)
  | Ok (p, gateway) =>
      let '(r, w) := run route_command (routeStateGetArgs p (ro_Scope route)) w in
      match parseRouteCommand r with
      | Err e => (Err (EWrap "verify route" e), w)
      | Ok lookup =>
          (fail_if defaultRouteLookup lookup || negb (bool_decide (lk_Interface lookup = ro_Interface route))
             with failure "route resolves via another interface" in
           fail_if (prefix_bits p =? 1) && negb (splitRouteMaskMatches p (lk_Mask lookup))
             with failure "route resolves via another mask" in
           fail_if addr_valid gateway && negb (bool_decide (lk_Gateway lookup = ro_Gateway route))
             with failure "route resolves via another gateway" in Ok tt, w)
      end
  end.

(** [routeInterfaceExists] *)
Definition routeInterfaceExists (interfaceName : string) (w : W) : result go_error bool * W :=
  let '(r, w) := run ifconfig [interfaceName] w in
  match r with
  | Ok _ => (Ok true, w)
  | Err e =>
      if contains (ce_text e) ("interface " +:+ interfaceName +:+ " does not exist") then (Ok false, w) else (Err (ce_error e), w)
  end.

(** [RemoveRoute] *)
Definition RemoveRoute (route : RouteState) (w : W) : result go_error unit * W :=
  match validateRouteState route with
  | Err e => (Err e, w)
  | Ok (p, gateway) =>
      let '(r, w) := run route_command (routeStateGetArgs p (ro_Scope route)) w in
      match parseRouteCommand r with
      | Err e => if errors_is ErrRouteNotFound e then (Ok tt, w) else (Err (EWrap "verify route" e), w)
      | Ok lookup =>
          if defaultRouteLookup lookup then (Ok tt, w)
          else if negb (bool_decide (lk_Interface lookup = ro_Interface route)) then
            let '(present, w) := routeInterfaceExists (ro_Interface route) w in
            match present with
            | Err e => (Err (EWrap "verify recorded route interface" e), w)
            | Ok false => (Ok tt, w)
            | Ok true => (Err (failure "refuse to remove route: current interface does not match"), w)
            end
          else if (prefix_bits p =? 1) && negb (splitRouteMaskMatches p (lk_Mask lookup))
          then (Err (failure "refuse to remove route: current mask does not match"), w)
          else if addr_valid gateway && negb (bool_decide (lk_Gateway lookup = ro_Gateway route))
          then (Err (failure "refuse to remove route: current gateway does not match"), w)
          else
            let '(r, w) := run route_command (routeStateMutationArgs "delete" p (ro_Interface route) gateway (ro_Scope route)) w in
            (match r with Ok _ => Ok tt | Err e => Err (EWrap "delete route" (ce_error e)) end, w)
      end
  end.

(** ** The TUN interface *)

(** [ConfigureTUN]; [itoa] renders the MTU. *)
Definition ConfigureTUN (itoa : Z -> string) (name : string) (address peer : addr) (mtu : Z) (w : W) : result go_error unit * W :=
  if negb (valid_utun name) then (Err (failure "invalid utun interface"), w)
  else if negb (is4 address) || negb (is4 peer) || bool_decide (address = peer)
  then (Err (failure "invalid point-to-point addresses"), w)
  else if (mtu <? 576) || (9000 <? mtu) then (Err (failure "invalid TUN MTU"), w)
  else
    let '(r, w) := run ifconfig [name; "inet"; addr_text address; addr_text peer; "netmask"; "255.255.255.255"; "mtu"; itoa mtu; "up"] w in
    (match r with Ok _ => Ok tt | Err e => Err (EWrap "configure" (ce_error e)) end, w).

(** [ConfigureTUNIPv6] *)
Definition ConfigureTUNIPv6 (name : string) (address peer : addr) (w : W) : result go_error unit * W :=
  if negb (valid_utun name) then (Err (failure "invalid utun interface"), w)
  else if negb (is6 address) || is4in6 address || negb (is6 peer) || is4in6 peer || bool_decide (address = peer)
  then (Err (failure "invalid IPv6 point-to-point addresses"), w)
  else
    let '(r, w) := run ifconfig [name; "inet6"; addr_text address; addr_text peer; "prefixlen"; "128"] w in
    (match r with Ok _ => Ok tt | Err e => Err (EWrap "configure IPv6 on" (ce_error e)) end, w).
End routes.

(** * Only recorded routes are deleted *)

Record call : Type := MkCall { ca_executable : string; ca_args : list string; ca_result : result command_error string }.

(** A runner that keeps its calls. *)
Definition traced {W} (run : string -> list string -> W -> result command_error string * W) (executable : string) (args : list string)
    (s : W * list call) : result command_error string * (W * list call) :=
  let '(r, w) := run executable args s.1 in (r, (w, s.2 ++ [MkCall executable args r])).

(** A call that may change the host. *)
Definition mutating (c : call) : bool :=
  bool_decide (ca_executable c = route_command) && negb (bool_decide ("get" ∈ ca_args c)).

(** The route the host has is the recorded one. *)
Definition owned_by (route : RouteState) (p : prefix) (gateway : addr) (lookup : RouteLookup) : Prop :=
  lk_Interface lookup = ro_Interface route /\ defaultRouteLookup lookup = false /\
  (prefix_bits p = 1 -> splitRouteMaskMatches p (lk_Mask lookup) = true) /\
  (addr_valid gateway = true -> lk_Gateway lookup = ro_Gateway route).

(** What the calls show when the route is gone: the host has no such route, or
    one over another interface while the recorded interface is gone, or it
    was deleted. *)
Definition route_gone (route : RouteState) (calls : list call) : Prop :=
  exists first rest, calls = first :: rest /\
    match parseRouteCommand (ca_result first), rest with
    | Err e, [] => errors_is ErrRouteNotFound e = true
    | Ok lookup, [] => defaultRouteLookup lookup = true
    | Ok lookup, [c] =>
        (lk_Interface lookup <> ro_Interface route /\
         exists e, c = MkCall ifconfig [ro_Interface route] (Err e) /\
           contains (ce_text e) ("interface " +:+ ro_Interface route +:+ " does not exist") = true) \/
        (lk_Interface lookup = ro_Interface route /\ is_ok (ca_result c) = true /\ "delete" ∈ ca_args c)
    | _, _ => False
    end.

Section removing.
Context {W : Type} (run : string -> list string -> W -> result command_error string * W).

Lemma traced_eq executable args w calls :
  exists r w', run executable args w = (r, w') /\ traced run executable args (w, calls) = (r, (w', calls ++ [MkCall executable args r])).
Proof. unfold traced. cbn. destruct (run executable args w) as [r w']. by exists r, w'. Qed.

Lemma get_args_read p scope c : ca_args c = routeStateGetArgs p scope -> mutating c = false.
Proof.
  intros Ha. unfold mutating. rewrite Ha. apply andb_false_iff. right. apply negb_false_iff, bool_decide_eq_true.
  unfold routeStateGetArgs, routeGetArgs, routeLookupArgs, routeLookupScopedArgs. destruct (negb _); right; by left.
Qed.

(** The end of a branch whose calls only read. *)
Ltac only_reads H := intros [= <- _ <-]; split; [done|]; split; [by intros c Hc' Hm; destruct (H c Hc' Hm)|try done].

Lemma delete_args p interfaceName gateway scope : "delete" ∈ routeStateMutationArgs "delete" p interfaceName gateway scope.
Proof.
  unfold routeStateMutationArgs. destruct (addr_valid gateway); [|right; by left].
  destruct (if prefix_bits p =? _ then _ else _) as [kind destination]. right. by left.
Qed.

(** C21: only a route that is still the recorded one is deleted.  [RemoveRoute]
    asks for the route first.  It deletes with the recorded prefix, interface,
    gateway and scope, and only when the answer names the recorded interface,
    mask and gateway; it makes no other change and no call for an invalid
    record.  It returns nil only when the route is gone: not found, hidden by
    the default route, left by an interface that no longer exists, or
    deleted. *)
Theorem remove_route_guarded (route : RouteState) (w w' : W) (r : result go_error unit) (calls : list call) :
  RemoveRoute (traced run) route (w, []) = (r, (w', calls)) ->
  (is_ok (validateRouteState route) = false -> calls = []) /\
  (forall c, c ∈ calls -> mutating c = true ->
     exists p gateway lookup first, validateRouteState route = Ok (p, gateway) /\ calls = [first; c] /\
       ca_args first = routeStateGetArgs p (ro_Scope route) /\ parseRouteCommand (ca_result first) = Ok lookup /\
       owned_by route p gateway lookup /\
       ca_args c = routeStateMutationArgs "delete" p (ro_Interface route) gateway (ro_Scope route)) /\
  (r = Ok tt -> route_gone route calls).
Proof.
  unfold RemoveRoute. destruct (validateRouteState route) as [[p gateway]|e] eqn:Hv.
  2: { intros [= <- _ <-]. split; [done|]. split; [|done]. by intros c ?%not_elem_of_nil. }
  destruct (traced_eq route_command (routeStateGetArgs p (ro_Scope route)) w []) as (r1 & w1 & _ & ->). cbn [app].
  set (first := MkCall route_command (routeStateGetArgs p (ro_Scope route)) r1).
  assert (Hread : forall c, c ∈ [first] -> mutating c = true -> False).
  { intros c Hc%list_elem_of_singleton. subst c. by rewrite (get_args_read p (ro_Scope route)). }
  destruct (parseRouteCommand r1) as [lookup|e] eqn:Hparse.
  2: { destruct (errors_is ErrRouteNotFound e) eqn:He; only_reads Hread.
       intros _. exists first, []. split; [done|]. cbn. by rewrite Hparse. }
  destruct (defaultRouteLookup lookup) eqn:Hd.
  { only_reads Hread. intros _. exists first, []. split; [done|]. cbn. by rewrite Hparse. }
  case_bool_decide as Hi; cbn [negb].
  2: { unfold routeInterfaceExists.
       destruct (traced_eq ifconfig [ro_Interface route] w1 [first]) as (r2 & w2 & _ & ->). cbn [app].
       assert (Hread2 : forall c, c ∈ [first; MkCall ifconfig [ro_Interface route] r2] -> mutating c = true -> False).
       { intros c [->|Hc]%elem_of_cons; [apply Hread; by left|]. by apply list_elem_of_singleton in Hc as ->. }
       destruct r2 as [out|e2]; [|destruct (contains _ _) eqn:Hc]; only_reads Hread2.
       intros _. eexists first, [_]. split; [done|]. cbn [ca_result first]. rewrite Hparse. left. split; [done|]. by exists e2. }
  destruct ((prefix_bits p =? 1) && _) eqn:Hmask.
  { only_reads Hread. }
  destruct (addr_valid gateway && _) eqn:Hgw.
  { only_reads Hread. }
  set (args := routeStateMutationArgs "delete" p (ro_Interface route) gateway (ro_Scope route)).
  destruct (traced_eq route_command args w1 [first]) as (r2 & w2 & _ & ->). cbn [app].
  assert (Hdel : "delete" ∈ args) by apply delete_args.
  intros Heq. assert (Hcalls : calls = [first; MkCall route_command args r2]) by (by injection Heq as _ _ <-).
  split; [done|]. split.
  - intros c Hc Hm. exists p, gateway, lookup, first. split; [done|].
    rewrite Hcalls in Hc. apply elem_of_cons in Hc as [->|Hc]; [by destruct (Hread first (list_elem_of_here _ _) Hm)|].
    apply list_elem_of_singleton in Hc as ->. split; [done|]. split; [done|]. split; [done|]. split; [|done].
    split; [done|]. split; [done|]. split.
    + intros Hb. rewrite Hb in Hmask. cbn in Hmask. by apply negb_false_iff in Hmask.
    + intros Hb. rewrite Hb in Hgw. by apply negb_false_iff, bool_decide_eq_true in Hgw.
  - intros ->. rewrite Hcalls. exists first, [MkCall route_command args r2]. split; [done|]. cbn [ca_result first]. rewrite Hparse.
    right. split; [done|]. split; [|done]. cbn. by destruct r2.
Qed.
End removing.

(** Another program has put its own route over the same interface's prefix. *)
Definition demo_output (gateway : string) : string :=
  "destination: 0.0.0.0" +:+ String "010" "" +:+ "mask: 128.0.0.0" +:+ String "010" "" +:+ "interface: en0" +:+ String "010" "" +:+ "gateway: " +:+ gateway.

Definition demo_runner (gateway : string) (executable : string) (args : list string) (w : bool) : result command_error string * bool :=
  if bool_decide ("get" ∈ args) then (Ok (demo_output gateway), w) else (Ok "", true).

Lemma remove_route_guarded_witness :
  let route := MkRoute "0.0.0.0/1" "en0" "192.168.1.1" "en0" in
  let mine := RemoveRoute (traced (demo_runner "192.168.1.1")) route (false, []) in
  let other := RemoveRoute (traced (demo_runner "192.168.1.254")) route (false, []) in
  mine.1 = Ok tt /\ mine.2.1 = true /\ is_ok other.1 = false /\ other.2.1 = false /\ route_gone route mine.2.2.
Proof.
  intros route mine other. do 4 (split; [by vm_compute|]).
  refine (proj2 (proj2 (remove_route_guarded (demo_runner "192.168.1.1") route false mine.2.1 mine.1 mine.2.2 _)) _); by vm_compute.
Defined.
