(* ===== verification/HostDNS.v ===== *)
(** * Component [internal/system]: the DNS servers of network services

    [dns_darwin.go]: listing the services of the host, reading and replacing
    their DNS servers, and putting them back without overwriting what somebody
    else changed.  The runner of commands and the interfaces of the host are
    parameters.  The theorems follow snapshot, application and restoration. *)

From S2P Require Import Prelude.
From S2P Require Import GoStrings.
From S2P Require Import NetIP.
From S2P Require Import Outbound.
From S2P Require Import EffectiveDNS.
From S2P Require Import HostState.
From S2P Require Import HostRoutes.
From S2P Require Import NetIPText.

Definition networkSetup : string := "/usr/sbin/networksetup".

(** ** The list of services *)

Record networkService : Type := MkService { ns_Name : string; ns_Device : string }.

Definition device_marker : string := "Device:".

(** One line of the listing: the services so far and the pending name. *)
Definition service_line (acc : list networkService * string) (text : string) : list networkService * string :=
  let '(services, pendingName) := acc in
  let line := trim_space text in
  if bool_decide (line = "") || has_prefix line "An asterisk" then acc
  else if has_prefix line "(Hardware Port:" then
    if bool_decide (pendingName = "") then acc
    else
      match last_index_of device_marker line with
      | None => (services, "")
      | Some position =>
          let device := trim_space (trim_suffix (sdrop (position + String.length device_marker) line) ")") in
          (if bool_decide (device = "") then services else services ++ [MkService pendingName device], "")
      end
  else if has_prefix line "(" && negb (has_prefix line "(*)") then
    match index_of ") " line with
    | Some end_ => (services, trim_space (sdrop (end_ + 2) line))
    | None => acc
    end
  else acc.

(** [parseNetworkServiceOrder]; a line that is too long ends the scan. *)
Definition parseNetworkServiceOrder (output : string) : list networkService :=
  (fold_left service_line (scan_lines (split_on (byte 10) output)).1 ([], "")).1.

(** What [net.InterfaceByName] and [Addrs] say of an interface: whether it is
    up and its addresses, as far as [net.ParseCIDR] reads them. *)
Record interface_view : Type := MkInterfaceView { iv_up : bool; iv_addresses : option (list addr) }.

(** An IPv4 address other than a loopback one; [To4] also maps the addresses
    that embed IPv4. *)
Definition usable_ipv4 (a : addr) : bool := is4 (unmap a) && negb (is_loopback (unmap a)).

(** [activeNetworkServices] *)
Definition activeNetworkServices (interfaces : string -> option interface_view) (services : list networkService) : list networkService :=
  filter (fun s =>
    match interfaces (ns_Device s) with
    | Some v => iv_up v && match iv_addresses v with Some l => existsb usable_ipv4 l | None => false end
    | None => false
    end = true) services.

Section dns.
Context {W : Type} (run : string -> list string -> W -> result command_error string * W).

(** The lines of [getDNS]. *)
Fixpoint dns_lines (lines : list string) (servers : list string) : result go_error (list string) :=
  match lines with
  | [] => Ok servers
  | text :: lines' =>
      match parse_addr (trim_space text) with
      | None => Err (failure "service returned invalid DNS address")
      | Some address => dns_lines lines' (servers ++ [addr_text address])
      end
  end.

Definition no_servers_text : string := "There aren't any DNS Servers set on".

(** [getDNS] *)
Definition getDNS (service : string) (w : W) : result go_error (list string) * W :=
  let '(r, w) := run networkSetup ["-getdnsservers"; service] w in
  match r with
  | Err e => (Err (EWrap "get DNS for service" (ce_error e)), w)
  | Ok output =>
      let trimmed := trim_space output in
      if has_prefix trimmed no_servers_text then (Ok [], w)
      else
        let '(lines, long) := scan_lines (split_on (byte 10) trimmed) in
        (let! servers := dns_lines lines [] in
         fail_if long with EWrap "read DNS servers for service" (failure "bufio.Scanner: token too long") in Ok servers, w)
  end.

(** [setDNS] *)
Definition setDNS (service : string) (servers : list string) (w : W) : result go_error unit * W :=
  if negb (bool_decide (servers = [])) && negb (forallb (fun s => bool_decide (is_Some (parse_addr s))) servers)
  then (Err (failure "refuse invalid DNS server for service"), w)
  else
    let args := ["-setdnsservers"; service] ++ (if bool_decide (servers = []) then ["Empty"] else servers) in
    let '(r, w) := run networkSetup args w in
    (match r with Ok _ => Ok tt | Err e => Err (EWrap "set DNS for service" (ce_error e)) end, w).

(** [snapshotDNSStates] *)
Fixpoint snapshotDNSStates (services : list networkService) (replacement : addr) (w : W) : result go_error (list DNSState) * W :=
  match services with
  | [] => (Ok [], w)
  | service :: services' =>
      let '(r, w) := getDNS (ns_Name service) w in
      match r with
      | Err e => (Err e, w)
      | Ok servers =>
          if bool_decide (addr_text replacement ∈ servers) then (Err (failure "refuse to record DNS service with replacement address"), w)
          else
            let '(r, w) := snapshotDNSStates services' replacement w in
            (let! states := r in Ok (MkDNS (ns_Name service) servers [] :: states), w)
      end
  end.

Definition not_loopback (replacement : addr) : bool := negb (addr_valid replacement) || negb (is_loopback replacement).

(** [SnapshotDNS] *)
Definition SnapshotDNS (interfaces : string -> option interface_view) (replacement : addr) (w : W)
    : result go_error (list DNSState) * W :=
  if not_loopback replacement then (Err (failure "DNS replacement is not loopback"), w)
  else
    let '(r, w) := run networkSetup ["-listnetworkserviceorder"] w in
    match r with
    | Err e => (Err (EWrap "list network service order" (ce_error e)), w)
    | Ok output =>
        let services := activeNetworkServices interfaces (parseNetworkServiceOrder output) in
        if bool_decide (length services = 0%nat) then (Err (failure "no active IPv4 network services found"), w)
        else snapshotDNSStates services replacement w
    end.

(** [PlanDNS] *)
Definition PlanDNS (states : list DNSState) (loopback : addr) : result go_error (list DNSState) :=
  fail_if not_loopback loopback with failure "DNS replacement is not loopback" in
  let replacement := addr_text loopback in
  fail_if existsb (fun s => bool_decide (replacement ∈ ds_Previous s)) states
    with failure "refuse to record DNS service with replacement address" in
  Ok ((fun s => MkDNS (ds_Service s) (ds_Previous s) [replacement]) <$> states).

Fixpoint apply_loop (planned applied : list DNSState) (w : W) : (list DNSState * option go_error) * W :=
  match planned with
  | [] => ((applied, None), w)
  | state :: planned' =>
      let '(r, w) := setDNS (ds_Service state) (ds_Applied state) w in
      match r with
      | Err e => ((applied, Some e), w)
      | Ok _ => apply_loop planned' (applied ++ [state]) w
      end
  end.

(** [ApplyDNS] *)
Definition ApplyDNS (states : list DNSState) (loopback : addr) (w : W) : (list DNSState * option go_error) * W :=
  match PlanDNS states loopback with
  | Err e => (([], Some e), w)
  | Ok planned => apply_loop planned [] w
  end.

(** One iteration of [RestoreDNS]: the error that keeps the entry. *)
Definition restore_one (state : DNSState) (w : W) : option go_error * W :=
  let '(current, w) := getDNS (ds_Service state) w in
  match current with
  | Err e => (Some e, w)
  | Ok current =>
      if bool_decide (current = ds_Previous state) then (None, w)
      else if negb (bool_decide (current = ds_Applied state))
      then (Some (failure "refuse to restore DNS service: current servers do not match applied servers"), w)
      else
        let '(r, w) := setDNS (ds_Service state) (ds_Previous state) w in
        (match r with Ok _ => None | Err e => Some e end, w)
  end.

Fixpoint restore_loop (states remaining : list DNSState) (failures : list go_error) (w : W) : (list DNSState * list go_error) * W :=
  match states with
  | [] => ((remaining, failures), w)
  | state :: states' =>
      let '(e, w) := restore_one state w in
      match e with
      | None => restore_loop states' remaining failures w
      | Some e => restore_loop states' (remaining ++ [state]) (failures ++ [e]) w
      end
  end.

(** [RestoreDNS] *)
Definition RestoreDNS (states : list DNSState) (w : W) : (list DNSState * option go_error) * W :=
  let '((remaining, failures), w) := restore_loop states [] [] w in
  ((remaining, errors_join failures), w).

Fixpoint clear_loop (services : list networkService) (want : list string) (seen : list string) (cleared : list string)
    (failures : list go_error) (w : W) : (list string * list go_error) * W :=
  match services with
  | [] => ((cleared, failures), w)
  | service :: services' =>
      let name := ns_Name service in
      if bool_decide (name ∈ seen) then clear_loop services' want seen cleared failures w
      else
        let seen := name :: seen in
        let '(current, w) := getDNS name w in
        match current with
        | Err e => clear_loop services' want seen cleared (failures ++ [e]) w
        | Ok current =>
            if negb (bool_decide (current = want)) then clear_loop services' want seen cleared failures w
            else
              let '(r, w) := setDNS name [] w in
              match r with
              | Err e => clear_loop services' want seen cleared (failures ++ [e]) w
              | Ok _ => clear_loop services' want seen (cleared ++ [name]) failures w
              end
        end
  end.

(** [ClearDNSReplacement] *)
Definition ClearDNSReplacement (replacement : addr) (w : W) : (list string * option go_error) * W :=
  if not_loopback replacement then (([], Some (failure "DNS replacement is not loopback")), w)
  else
    let '(r, w) := run networkSetup ["-listnetworkserviceorder"] w in
    match r with
    | Err e => (([], Some (EWrap "list network service order" (ce_error e))), w)
    | Ok output =>
        let '((cleared, failures), w) := clear_loop (parseNetworkServiceOrder output) [addr_text replacement] [] [] [] w in
        ((cleared, errors_join failures), w)
    end.
End dns.

Section example.
Definition nl : string := String "010" "".

Example parse_order :
  parseNetworkServiceOrder
    ("An asterisk (*) denotes that a network service is disabled." +:+ nl +:+ "(1) Wi-Fi" +:+ nl +:+
     "(Hardware Port: Wi-Fi, Device: en0)" +:+ nl +:+ nl +:+ "(*) Bridge" +:+ nl +:+ "(Hardware Port: Bridge, Device: bridge0)")
  = [MkService "Wi-Fi" "en0"].
Proof. reflexivity. Qed.
End example.

(** * Snapshot, application and restoration *)

(** ** How the tool behaves *)

(** The output that lists [servers], one per line. *)
Definition shows (out : string) (servers : list addr) : Prop :=
  if bool_decide (servers = []) then has_prefix (trim_space out) no_servers_text = true
  else has_prefix (trim_space out) no_servers_text = false /\
       exists lines, scan_lines (split_on (byte 10) (trim_space out)) = (lines, false) /\
         (fun text => parse_addr (trim_space text)) <$> lines = Some <$> servers.

(** The arguments that ask for [servers]. *)
Definition asks (args : list string) (servers : list addr) : Prop :=
  (servers = [] /\ args = ["Empty"]) \/ (servers <> [] /\ parse_addr <$> args = Some <$> servers).

(** [networksetup] on a host whose services have the servers [dns_of].  A call
    that sets servers takes effect or not, also when it fails; the addresses
    are plain ones, without a zone. *)
Record networksetup {W} (run : string -> list string -> W -> result command_error string * W) (dns_of : W -> string -> list addr)
    : Prop := {
  ns_plain : forall w s, Forall printable (dns_of w s);
  ns_list : forall w r w', run networkSetup ["-listnetworkserviceorder"] w = (r, w') -> dns_of w' = dns_of w;
  ns_get : forall s w r w', run networkSetup ["-getdnsservers"; s] w = (r, w') ->
    dns_of w' = dns_of w /\ match r with Ok out => shows out (dns_of w s) | Err _ => True end;
  ns_set : forall s args servers w r w', Forall printable servers -> asks args servers -> run networkSetup (["-setdnsservers"; s] ++ args) w = (r, w') ->
    (forall t, t <> s -> dns_of w' t = dns_of w t) /\ (dns_of w' s = dns_of w s \/ dns_of w' s = servers) /\
    (is_ok r = true -> dns_of w' s = servers)
}.

(** Every call succeeds. *)
Definition reliable {W} (run : string -> list string -> W -> result command_error string * W) : Prop :=
  forall args w, is_ok (run networkSetup args w).1 = true.

Lemma addr_texts_inj l l' : Forall printable l -> Forall printable l' -> addr_text <$> l = addr_text <$> l' -> l = l'.
Proof.
  revert l'. induction l as [|a l IH]; intros [|b l'] Hl Hl' Heq; try done. cbn in Heq. injection Heq as Hab Heq.
  apply Forall_cons in Hl as [Ha Hl], Hl' as [Hb Hl'].
  apply parse_addr_text in Ha, Hb. rewrite Hab in Ha. f_equal; [congruence|by apply IH].
Qed.

Lemma dns_lines_spec lines servers acc :
  (fun text => parse_addr (trim_space text)) <$> lines = Some <$> servers -> dns_lines lines acc = Ok (acc ++ (addr_text <$> servers)).
Proof.
  revert servers acc. induction lines as [|text lines IH]; intros [|a servers] acc Heq; try done; cbn [dns_lines].
  { by rewrite app_nil_r. }
  cbn in Heq. injection Heq as -> Heq. rewrite (IH servers) by done. by rewrite <- app_assoc.
Qed.

Section laws.
Context {W : Type} (run : string -> list string -> W -> result command_error string * W) (dns_of : W -> string -> list addr)
  (laws : networksetup run dns_of).

Notation texts w s := (addr_text <$> dns_of w s).

(** [getDNS] reads the servers of a service. *)
Lemma getDNS_spec s w r w' : getDNS run s w = (r, w') ->
  dns_of w' = dns_of w /\ (forall l, r = Ok l -> l = texts w s) /\ (reliable run -> r = Ok (texts w s)).
Proof.
  unfold getDNS. pose proof (ns_get _ _ laws s w) as Hget. assert (Hrel : reliable run -> is_ok (run networkSetup ["-getdnsservers"; s] w).1 = true) by auto.
  destruct (run networkSetup _ w) as [[out|e] w1]; specialize (Hget _ _ eq_refl) as [Hsame Hshow].
  2: { intros [= <- <-]. split; [done|]. split; [done|]. intros Hr. by discriminate (Hrel Hr). }
  unfold shows in Hshow. case_bool_decide as Hempty.
  - rewrite Hshow. intros [= <- <-]. rewrite Hempty. split; [done|]. split; [by intros l [= <-]|done].
  - destruct Hshow as (-> & lines & -> & Hlines). rewrite (dns_lines_spec lines (dns_of w s)) by done. cbn.
    intros [= <- <-]. split; [done|]. split; [by intros l [= <-]|done].
Qed.

Lemma asks_texts servers : Forall printable servers ->
  asks (if bool_decide (addr_text <$> servers = []) then ["Empty"] else addr_text <$> servers) servers.
Proof.
  intros Hp. case_bool_decide as He.
  - left. by destruct servers.
  - right. split; [by intros ->|]. clear He. induction Hp as [|a servers Ha _ IH]; [done|]. cbn. by rewrite parse_addr_text, IH.
Qed.

(** [setDNS] with the text of plain addresses. *)
Lemma setDNS_spec s servers w r w' : Forall printable servers -> setDNS run s (addr_text <$> servers) w = (r, w') ->
  (forall t, t <> s -> dns_of w' t = dns_of w t) /\ (dns_of w' s = dns_of w s \/ dns_of w' s = servers) /\
  (r = Ok tt -> dns_of w' s = servers) /\ (reliable run -> r = Ok tt).
Proof.
  intros Hp. unfold setDNS.
  assert (Hall : forallb (fun t => bool_decide (is_Some (parse_addr t))) (addr_text <$> servers) = true).
  { apply forallb_forall. intros t Ht%list_elem_of_In. apply list_elem_of_fmap in Ht as (a & -> & Ha).
    rewrite Forall_forall in Hp. apply bool_decide_eq_true. rewrite parse_addr_text by auto. by eexists. }
  rewrite Hall, andb_false_r. pose proof (asks_texts servers Hp) as Hargs.
  set (args := if bool_decide _ then ["Empty"] else _) in *.
  pose proof (fun r w' => ns_set _ _ laws s args servers w r w' Hp Hargs) as Hset.
  assert (Hrel := fun H : reliable run => H (["-setdnsservers"; s] ++ args) w).
  destruct (run networkSetup _ w) as [[out|e] w1]; specialize (Hset _ _ eq_refl) as (Hother & Hor & Hok);
    intros [= <- <-]; (split; [done|split; [done|]]).
  - split; [|done]. intros _. by apply Hok.
  - split; [done|]. intros Hr. by discriminate (Hrel Hr).
Qed.

(** ** The plan *)

Context (orig : string -> list addr) (replacement : addr).
Context (orig_plain : forall s, Forall printable (orig s)) (replacement_plain : printable replacement).

(** An entry of a plan made when the servers were [orig]. *)
Definition planned_entry (d : DNSState) : Prop :=
  ds_Previous d = addr_text <$> orig (ds_Service d) /\ ds_Applied d = [addr_text replacement].

(** What a service may have: untouched, replaced or restored. *)
Definition moves (w w' : W) (s : string) : Prop :=
  dns_of w' s = dns_of w s \/ (dns_of w s = [replacement] /\ dns_of w' s = orig s).

Lemma moves_trans w w1 w2 s : moves w w1 s -> moves w1 w2 s -> moves w w2 s.
Proof.
  unfold moves. intros [H1|[H1 H1']] [H2|[H2 H2']].
  - left. congruence.
  - right. split; [congruence|done].
  - right. split; [done|congruence].
  - right. split; [done|congruence].
Qed.

Lemma restore_one_effect d w e w' : planned_entry d -> restore_one run d w = (e, w') ->
  (forall t, t <> ds_Service d -> dns_of w' t = dns_of w t) /\ moves w w' (ds_Service d) /\
  (e = None -> dns_of w' (ds_Service d) = orig (ds_Service d)) /\
  (reliable run -> dns_of w (ds_Service d) = [replacement] \/ dns_of w (ds_Service d) = orig (ds_Service d) -> e = None).
Proof.
  intros [Hprev Happ]. unfold restore_one. set (s := ds_Service d) in *.
  destruct (getDNS run s w) as [current w1] eqn:Hget. apply getDNS_spec in Hget as (Hsame & Hl & Hrel).
  assert (Hback : forall t, dns_of w1 t = dns_of w t) by (intros t; by rewrite Hsame).
  destruct current as [l|e1].
  2: { intros [= <- <-]. split; [auto|]. split; [by left|]. split; [done|]. intros Hr. by discriminate (Hrel Hr). }
  specialize (Hl l eq_refl). subst l. rewrite Hprev, Happ. case_bool_decide as Hp.
  { apply addr_texts_inj in Hp; [|apply (ns_plain _ _ laws)|done]. intros [= <- <-]. split; [auto|]. split; [by left|].
    split; [|done]. by rewrite Hback. }
  case_bool_decide as Ha; cbn [negb].
  - apply (addr_texts_inj _ [replacement]) in Ha; [|apply (ns_plain _ _ laws)|by constructor].
    destruct (setDNS run s _ w1) as [r w2] eqn:Hset. apply setDNS_spec in Hset as (Hother & Hor & Hok & Hrel'); [|done].
    intros [= <- <-]. split; [intros t Ht; rewrite Hother by done; auto|]. split.
    + destruct Hor as [Hor|Hor]; [left|by right]. by rewrite Hor.
    + split; [|by intros Hr _; rewrite (Hrel' Hr)]. destruct r as [[]|]; [|done]. intros _. by apply Hok.
  - intros [= <- <-]. split; [auto|]. split; [by left|]. split; [done|]. intros _ [Hd|Hd]; [destruct Ha|destruct Hp]; by rewrite Hd.
Qed.

Lemma restore_loop_effect states remaining failures w rest fs w' :
  Forall planned_entry states -> restore_loop run states remaining failures w = ((rest, fs), w') ->
  (forall t, t ∉ ds_Service <$> states -> dns_of w' t = dns_of w t) /\ (forall t, moves w w' t) /\
  (fs = [] -> failures = [] /\ forall t, t ∈ ds_Service <$> states -> dns_of w' t = orig t) /\
  (reliable run -> (forall t, t ∈ ds_Service <$> states -> dns_of w t = [replacement] \/ dns_of w t = orig t) -> fs = failures).
Proof.
  intros Hall. revert remaining failures w. induction Hall as [|d states Hd _ IH]; intros remaining failures w Heq; cbn [restore_loop] in Heq.
  { injection Heq as <- <- <-. split; [done|]. split; [by left|]. split; [|done]. intros ->. split; [done|]. by intros t ?%not_elem_of_nil. }
  destruct (restore_one run d w) as [e w1] eqn:H1. apply restore_one_effect in H1 as (Hother & Hmove & Hnone & Hrel); [|done].
  assert (Hmoves : forall t, moves w w1 t).
  { intros t. destruct (decide (t = ds_Service d)) as [->|Ht]; [done|]. left. by apply Hother. }
  assert (Hstay : forall t, dns_of w1 t = orig t -> moves w1 w' t -> dns_of w' t = orig t) by (intros t H0 [->|[_ ?]]; done).
  assert (Hnext : forall t, dns_of w t = [replacement] \/ dns_of w t = orig t -> dns_of w1 t = [replacement] \/ dns_of w1 t = orig t).
  { intros t Ht. destruct (Hmoves t) as [->|[_ ->]]; [done|by right]. }
  assert (Hgen : exists rm fl, (e = None -> fl = failures) /\ (e <> None -> fl <> []) /\ restore_loop run states rm fl w1 = ((rest, fs), w')).
  { destruct e as [e|]; eexists _, _; (split; [|split; [|exact Heq]]); try done. intros _. by destruct failures. }
  destruct Hgen as (rm & fl & Hfl & Hfl' & Hloop). apply IH in Hloop as (Hout & Hmv & Hdone & Hreli).
  split; [|split; [|split]].
  - intros t Ht. cbn in Ht. apply not_elem_of_cons in Ht as [Ht1 Ht2]. rewrite Hout by done. by apply Hother.
  - intros t. eapply moves_trans; [apply Hmoves|apply Hmv].
  - intros Hfs. destruct (Hdone Hfs) as [Hnil Horig]. destruct e as [e|]; [by destruct Hfl'|]. split; [by rewrite <- Hfl|].
    intros t Ht. cbn in Ht. apply elem_of_cons in Ht as [->|Ht]; [|by apply Horig]. apply Hstay; [by apply Hnone|apply Hmv].
  - intros Hr Hin. assert (He : e = None) by (apply Hrel; [done|apply Hin; by left]).
    rewrite <- (Hfl He). apply Hreli; [done|]. intros t Ht. apply Hnext, Hin. by right.
Qed.

(** Applying a plan, as far as it comes. *)
Lemma apply_loop_effect planned applied w res w' :
  Forall planned_entry planned -> apply_loop run planned applied w = (res, w') ->
  (forall t, t ∉ ds_Service <$> planned -> dns_of w' t = dns_of w t) /\
  (forall t, dns_of w' t = dns_of w t \/ dns_of w' t = [replacement]).
Proof.
  intros Hall. revert applied w. induction Hall as [|d planned [Hp Ha] _ IH]; intros applied w Heq; cbn [apply_loop] in Heq.
  { injection Heq as _ <-. split; [done|]. by left. }
  rewrite Ha in Heq. change [addr_text replacement] with (addr_text <$> [replacement]) in Heq.
  destruct (setDNS run (ds_Service d) _ w) as [r w1] eqn:Hset.
  apply setDNS_spec in Hset as (Hother & Hor & _ & _); [|by constructor].
  assert (H1 : forall t, dns_of w1 t = dns_of w t \/ dns_of w1 t = [replacement]).
  { intros t. destruct (decide (t = ds_Service d)) as [->|Ht]; [done|]. left. by apply Hother. }
  destruct r as [[]|e].
  - apply IH in Heq as [Hout Heach]. split.
    + intros t Ht. cbn in Ht. apply not_elem_of_cons in Ht as [Ht1 Ht2]. rewrite Hout by done. by apply Hother.
    + intros t. destruct (Heach t) as [->|Hr]; [apply H1|by right].
  - injection Heq as _ <-. split; [|done]. intros t Ht. cbn in Ht. apply not_elem_of_cons in Ht as [Ht1 _]. by apply Hother.
Qed.
End laws.

(** ** The whole round *)

Section round.
Context {W : Type} (run : string -> list string -> W -> result command_error string * W) (dns_of : W -> string -> list addr)
  (laws : networksetup run dns_of).

Lemma snapshot_states_spec services replacement w states w' :
  snapshotDNSStates run services replacement w = (Ok states, w') ->
  dns_of w' = dns_of w /\ Forall (fun d => ds_Previous d = addr_text <$> dns_of w (ds_Service d)) states.
Proof.
  revert w states w'. induction services as [|service services IH]; intros w states w' Heq; cbn [snapshotDNSStates] in Heq.
  { by injection Heq as <- <-. }
  destruct (getDNS run (ns_Name service) w) as [[servers|e] w1] eqn:Hget; [|done].
  apply (getDNS_spec _ _ laws) in Hget as (Hsame & Hl & _). case_bool_decide; [done|].
  destruct (snapshotDNSStates run services replacement w1) as [[l|e] w2] eqn:Hrest; [|done].
  apply IH in Hrest as [Hsame2 Hall]. injection Heq as <- <-. rewrite Hsame in Hsame2, Hall. split; [done|].
  constructor; [|done]. by apply Hl.
Qed.

Lemma snapshot_spec interfaces replacement w states w' :
  SnapshotDNS run interfaces replacement w = (Ok states, w') ->
  dns_of w' = dns_of w /\ Forall (fun d => ds_Previous d = addr_text <$> dns_of w (ds_Service d)) states.
Proof.
  unfold SnapshotDNS. destruct (not_loopback replacement); [done|]. pose proof (ns_list _ _ laws w) as Hlist.
  destruct (run networkSetup _ w) as [[out|e] w1]; specialize (Hlist _ _ eq_refl); [|done].
  case_bool_decide; [done|]. intros Hs. apply snapshot_states_spec in Hs as [Hs Hall]. by rewrite Hlist in Hs, Hall.
Qed.

Lemma plan_entries dns replacement states planned :
  Forall (fun d => ds_Previous d = addr_text <$> dns (ds_Service d)) states -> PlanDNS states replacement = Ok planned ->
  Forall (planned_entry dns replacement) planned /\ PlanDNS planned replacement = Ok planned.
Proof.
  unfold PlanDNS. intros Hall [Hl [Hn Heq]%guard_err_Ok]%guard_err_Ok. injection Heq as <-. split.
  - apply Forall_fmap. eapply Forall_impl; [exact Hall|]. by intros d Hd.
  - rewrite Hl. cbn [guard_err]. set (f := fun s => MkDNS _ _ _).
    assert (He : existsb (fun s => bool_decide (addr_text replacement ∈ ds_Previous s)) (f <$> states) = false).
    { rewrite <- Hn. clear. by induction states as [|d states IH]; [|cbn; rewrite IH]. }
    rewrite He. cbn [guard_err]. f_equal. rewrite <- list_fmap_compose. by apply list_fmap_ext.
Qed.

(** C19: the DNS servers of the host come back.  A snapshot, its plan and its
    application, as far as it came, replace the servers of the planned services
    only.  Restoring the plan later gives a service that still has the
    replacement its old servers and leaves every other list alone, so nobody
    else's change is overwritten; without an error all planned services have
    their old servers.  If the calls succeed and nobody intervened there is no
    error, and all services are as they were. *)
Theorem dns_round_trip interfaces replacement w0 states w1 planned res w2 w3 rest e w4 :
  printable replacement ->
  SnapshotDNS run interfaces replacement w0 = (Ok states, w1) -> PlanDNS states replacement = Ok planned ->
  ApplyDNS run planned replacement w1 = (res, w2) -> RestoreDNS run planned w3 = ((rest, e), w4) ->
  (forall t, t ∉ ds_Service <$> planned -> dns_of w2 t = dns_of w0 t) /\
  (forall t, dns_of w2 t = dns_of w0 t \/ dns_of w2 t = [replacement]) /\
  (forall t, dns_of w4 t = dns_of w3 t \/ (dns_of w3 t = [replacement] /\ dns_of w4 t = dns_of w0 t)) /\
  (e = None -> forall t, t ∈ ds_Service <$> planned -> dns_of w4 t = dns_of w0 t) /\
  (reliable run -> dns_of w3 = dns_of w2 -> e = None /\ forall t, dns_of w4 t = dns_of w0 t).
Proof.
  intros Hrep Hsnap Hplan Happly Hrestore. apply snapshot_spec in Hsnap as [Hsame Hprev].
  apply (plan_entries _ _ _ _ Hprev) in Hplan as [Hentries Hplan]. unfold ApplyDNS in Happly. rewrite Hplan in Happly.
  apply (apply_loop_effect _ _ laws (dns_of w0) replacement) in Happly as [Hother Happlied]; [|done..]. rewrite Hsame in Hother, Happlied.
  unfold RestoreDNS in Hrestore. destruct (restore_loop run planned [] [] w3) as [[rest' fs] w4'] eqn:Hloop.
  injection Hrestore as <- <- <-.
  apply (restore_loop_effect _ _ laws (dns_of w0) replacement) in Hloop as (Hout & Hmoves & Hdone & Hrel); [|apply (ns_plain _ _ laws)|done..].
  split; [done|split; [done|split; [done|split]]].
  - intros He. apply errors_join_None in He. by apply Hdone.
  - intros Hr Hw. assert (Hfs : fs = []). { apply Hrel; [done|]. intros t _. rewrite Hw. destruct (Happlied t); auto. }
    split; [by apply errors_join_None|]. intros t. destruct (decide (t ∈ ds_Service <$> planned)) as [Ht|Ht]; [by apply Hdone|].
    rewrite Hout by done. rewrite Hw. by apply Hother.
Qed.
End round.

(** ** A concrete host *)

(** Each service has no servers, the one of its lease, or the replacement. *)
Definition demo_lease : addr := Addr4 0xC0A80101.
Definition demo_loopback : addr := Addr4 0x7F000001.

Definition demo_servers (w : gmap string bool) (s : string) : list addr :=
  match w !! s with None => [] | Some true => [demo_loopback] | Some false => [demo_lease] end.

Definition demo_tool (executable : string) (args : list string) (w : gmap string bool) : result command_error string * gmap string bool :=
  match args with
  | [_] => (Ok ("(1) Wi-Fi" +:+ nl +:+ "(Hardware Port: Wi-Fi, Device: en0)"), w)
  | [_; s] => (Ok match w !! s with None => no_servers_text | Some true => "127.0.0.1" | Some false => "192.168.1.1" end, w)
  | [_; s; server] =>
      if bool_decide (server = "Empty") then (Ok "", delete s w)
      else if bool_decide (parse_addr server = Some demo_loopback) then (Ok "", <[s := true]> w)
      else if bool_decide (parse_addr server = Some demo_lease) then (Ok "", <[s := false]> w)
      else (Err (MkCommandError (failure "exit status 1") ""), w)
  | _ => (Err (MkCommandError (failure "exit status 1") ""), w)
  end.

Lemma demo_tool_laws : networksetup demo_tool demo_servers.
Proof.
  split.
  - intros w s. unfold demo_servers. destruct (w !! s) as [[]|]; repeat constructor; by vm_compute.
  - by intros w r w' [= <- <-].
  - intros s w r w' [= <- <-]. split; [done|]. unfold demo_servers. destruct (w !! s) as [[]|]; [..|by vm_compute].
    + split; [by vm_compute|]. exists ["127.0.0.1"]. split; by vm_compute.
    + split; [by vm_compute|]. exists ["192.168.1.1"]. split; by vm_compute.
  - intros s args servers w r w' _ Hasks. unfold demo_tool. cbn [app].
    destruct Hasks as [[-> ->]|[Hne Hargs]].
    + intros [= <- <-]. unfold demo_servers. split; [intros t Ht; by rewrite lookup_delete_ne|]. rewrite lookup_delete_eq. by split; [right|].
    + destruct args as [|server [|]]; [by destruct servers|..]; try by intros [= <- <-]; (split; [done|split; [by left|done]]).
      destruct servers as [|a [|]]; try done. cbn in Hargs. injection Hargs as Ha. rewrite Ha.
      case_bool_decide as He; [rewrite He in Ha; vm_compute in Ha; discriminate Ha|]. unfold demo_servers.
      case_bool_decide as Hl; [|case_bool_decide as Hl']; intros [= <- <-].
      * injection Hl as ->. split; [intros t Ht; by rewrite lookup_insert_ne|]. rewrite lookup_insert_eq. by split; [right|].
      * injection Hl' as ->. split; [intros t Ht; by rewrite lookup_insert_ne|]. rewrite lookup_insert_eq. by split; [right|].
      * split; [done|split; [by left|done]].
Qed.

Definition demo_view (name : string) : option interface_view :=
  if bool_decide (name = "en0") then Some (MkInterfaceView true (Some [Addr4 0xC0A80105])) else None.

(** Another program sets the servers of a second service in between. *)
Lemma dns_round_trip_witness :
  let w0 := {[ "Wi-Fi" := false ]} : gmap string bool in
  let planned := [MkDNS "Wi-Fi" ["192.168.1.1"] ["127.0.0.1"]] in
  let applied := ApplyDNS demo_tool planned demo_loopback w0 in
  let w3 := <["VPN" := true]> applied.2 in
  let restored := RestoreDNS demo_tool planned w3 in
  applied.2 = {[ "Wi-Fi" := true ]} /\ restored.1.2 = None /\
  (forall t, demo_servers restored.2 t = demo_servers w3 t \/
     (demo_servers w3 t = [demo_loopback] /\ demo_servers restored.2 t = demo_servers w0 t)) /\
  demo_servers restored.2 "Wi-Fi" = demo_servers w0 "Wi-Fi".
Proof.
  intros w0 planned applied w3 restored. split; [by vm_compute|]. split; [by vm_compute|].
  destruct (dns_round_trip demo_tool demo_servers demo_tool_laws demo_view demo_loopback w0 [MkDNS "Wi-Fi" ["192.168.1.1"] []] w0 planned applied.1 applied.2
    w3 restored.1.1 restored.1.2 restored.2) as (_ & _ & Hmoves & Hdone & _).
  - by vm_compute.
  - by vm_compute.
  - by vm_compute.
  - apply surjective_pairing.
  - by vm_compute.
  - split; [exact Hmoves|]. apply Hdone; [by vm_compute|]. by left.
Defined.
