(* ===== verification/DefaultRoutes.v ===== *)
(** * Component [internal/app]: capturing the default routes

    [default_routes_darwin.go]: before the split default routes are installed,
    every outbound must have its own way out, and the gateways and DNS servers
    get bypass routes.  The lookups of routes are parameters. *)

From S2P Require Import Prelude.
From S2P Require Import GoStrings.
From S2P Require Import NetIP.
From S2P Require Import ConfigTypes.
From S2P Require Import Outbound.
From S2P Require Import EffectiveDNS.
From S2P Require Import HostState.
From S2P Require Import HostRoutes.

Definition ipv4CapturePrefixes : list prefix := [Prefix (Addr4 0) 2; Prefix (Addr4 (2 ^ 31)) 2].
Definition ipv6CapturePrefixes : list prefix := [Prefix (Addr6 0 "") 2; Prefix (Addr6 (2 ^ 127) "") 2].

Record defaultRoutePlan : Type := MkPlan {
  pn_Bypasses : list RouteState;
  pn_Scoped : list RouteState;
  pn_Prefixes : list prefix
}.

#[export] Instance defaultRoutePlan_eq_dec : EqDecision defaultRoutePlan.
Proof. solve_decision. Defined.

(** ** Small functions *)

(** [hostPrefix] *)
Definition hostPrefix (address : addr) : prefix := prefix_from address (if is4 address then 32 else 128).

Definition defaultDestination (value : string) : bool :=
  bool_decide (value ∈ ["default"; "0.0.0.0"; "::"; "0.0.0.0/0"; "::/0"]).

(** [scopedEgressDestination] *)
Definition scopedEgressDestination (result : RouteLookup) (candidate : addr) : bool :=
  if defaultDestination (lk_Destination result) && bool_decide (lk_Mask result ∈ [""; "default"; "0.0.0.0"; "::"]) then true
  else if is4 candidate then bool_decide (lk_Mask result = "128.0.0.0") else bool_decide (lk_Mask result = "8000::").

(** [parseUsableGateway] *)
Definition parseUsableGateway (raw : string) (destination : addr) : result go_error addr :=
  match parse_addr raw with
  | None => Err (failure "unusable gateway")
  | Some gateway =>
      fail_if is_unspecified gateway || is_loopback gateway || is4in6 gateway || negb (Bool.eqb (is4 gateway) (is4 destination))
        with failure "unusable gateway" in Ok gateway
  end.

(** [exactHostDestination] *)
Definition exactHostDestination (destination : string) (address : addr) : bool :=
  match parse_addr destination with
  | Some parsed => bool_decide (with_zone parsed "" = with_zone address "")
  | None =>
      match parse_prefix destination with
      | Some p =>
          (prefix_bits p =? (if is4 address then 32 else 128)) &&
          bool_decide (with_zone (prefix_addr p) "" = with_zone address "")
      | None => false
      end
  end.

(** [ownsHostRoute] *)
Definition ownsHostRoute (routes : list RouteState) (address : addr) (interfaceName gateway : string) : bool :=
  existsb (fun r => bool_decide (ro_Prefix r = prefix_text (hostPrefix address)) && bool_decide (ro_Interface r = interfaceName) &&
                    (bool_decide (ro_Gateway r = "") || bool_decide (ro_Gateway r = gateway))) routes.

(** [claimBypassAddress] *)
Definition claimBypassAddress (address : addr) (interfaceName : string) (owners : gmap addr string)
    : result go_error (gmap addr string) :=
  match owners !! address with
  | Some previous =>
      fail_if negb (bool_decide (previous = interfaceName)) with failure "bypass address is required by two interfaces" in
      Ok (<[address := interfaceName]> owners)
  | None => Ok (<[address := interfaceName]> owners)
  end.

(** The maps of [planDefaultRouteCaptureOwned]. *)
Record planning : Type := MkPlanning {
  pg_owners : gmap addr string;
  pg_gateways : gmap string RouteState;
  pg_dns : gmap string RouteState;
  pg_scoped : gmap string RouteState;
  pg_defaults : gmap string addr
}.

(** [addGatewayBypass] *)
Definition addGatewayBypass (gateway : addr) (interfaceName : string) (pg : planning) : result go_error planning :=
  let address := with_zone gateway "" in
  let! owners := claimBypassAddress gateway interfaceName (pg_owners pg) in
  let prefix := prefix_text (hostPrefix address) in
  Ok (MkPlanning owners (<[prefix +:+ "|" +:+ interfaceName := MkRoute prefix interfaceName "" ""]> (pg_gateways pg))
        (pg_dns pg) (pg_scoped pg) (pg_defaults pg)).

Definition with_owners (owners : gmap addr string) (pg : planning) : planning :=
  MkPlanning owners (pg_gateways pg) (pg_dns pg) (pg_scoped pg) (pg_defaults pg).

Definition link_gateway (gateway : string) : bool := bool_decide (gateway = "") || has_prefix gateway "link#".

Definition egress_candidates (ipv6 : bool) : list addr :=
  if ipv6 then [Addr6 0x20010db800000000000000000000fffe ""; Addr6 0x20010db800010000000000000000fffe "";
                Addr6 0x20010db800020000000000000000fffe ""]
  else [Addr4 0xc00002fe; Addr4 0xc63364fe; Addr4 0xcb0071fe].

(** The outbounds by name, in order. *)
Definition sorted_names (runtime : Config) : list string := merge_sort String.le (map_to_list (Outbounds runtime)).*1.

Definition sorted_values (routes : gmap string RouteState) : list RouteState :=
  omap (fun key => routes !! key) (merge_sort String.le (map_to_list routes).*1).

Section planning.
Context {W : Type} (lookup : addr -> string -> act W go_error RouteLookup)
  (lookupDefault : bool -> string -> act W go_error RouteLookup) (owned : list RouteState).

(** [proveScopedEgress] *)
Fixpoint prove_candidates (candidates : list addr) (interfaceName : string) (gateway : addr) (w : W) : result go_error unit * W :=
  match candidates with
  | [] => (Err (failure "cannot prove loop-free scoped egress"), w)
  | candidate :: candidates' =>
      let '(r, w) := lookup candidate interfaceName w in
      match r with
      | Err _ => prove_candidates candidates' interfaceName gateway w
      | Ok result =>
          if negb (bool_decide (lk_Interface result = interfaceName)) then prove_candidates candidates' interfaceName gateway w
          else
            match parseUsableGateway (lk_Gateway result) candidate with
            | Ok candidateGateway =>
                if bool_decide (candidateGateway = gateway) && scopedEgressDestination result candidate then (Ok tt, w)
                else prove_candidates candidates' interfaceName gateway w
            | Err _ => prove_candidates candidates' interfaceName gateway w
            end
      end
  end.

Definition proveScopedEgress (ipv6 : bool) (interfaceName : string) (gateway : addr) : act W go_error unit :=
  prove_candidates (egress_candidates ipv6) interfaceName gateway.

(** [proveGatewayBypass] *)
Definition proveGatewayBypass (gateway : addr) (interfaceName : string) (pg : planning) : act W go_error planning :=
  let address := with_zone gateway "" in
  act! result := act_wrap (EWrap "prove gateway bypass") (lookup address interfaceName) in
  stop_if negb (bool_decide (lk_Interface result = interfaceName)) with failure "gateway resolves on another interface" in
  if exactHostDestination (lk_Destination result) address then
    if ownsHostRoute owned address interfaceName "" then act_of (addGatewayBypass gateway interfaceName pg)
    else if link_gateway (lk_Gateway result) then
      act_of (let! owners := claimBypassAddress gateway interfaceName (pg_owners pg) in Ok (with_owners owners pg))
    else act_fail (failure "gateway already has an exact routed host entry")
  else act_of (addGatewayBypass gateway interfaceName pg).

Definition family_key (interface : string) (ipv6 : bool) : string := interface +:+ (if ipv6 then "|6" else "|4").

Definition probe_address (ipv6 : bool) : addr := if ipv6 then Addr6 0x20010db800000000000000000000fffe "" else Addr4 0xc00002fe.

(** The scoped routes of one interface. *)
Definition scoped_route (interface : string) (gateway : addr) (p : prefix) : RouteState :=
  MkRoute (prefix_text p) interface (addr_text gateway) interface.

Definition add_scoped (interface : string) (gateway : addr) (prefixes : list prefix) (pg : planning) : planning :=
  MkPlanning (pg_owners pg) (pg_gateways pg) (pg_dns pg)
    (fold_left (fun routes p =>
       let r := scoped_route interface gateway p in
       <[ro_Prefix r +:+ "|" +:+ ro_Scope r +:+ "|" +:+ ro_Gateway r := r]> routes) prefixes (pg_scoped pg))
    (pg_defaults pg).

Definition set_default (key : string) (gateway : addr) (pg : planning) : planning :=
  MkPlanning (pg_owners pg) (pg_gateways pg) (pg_dns pg) (pg_scoped pg) (<[key := gateway]> (pg_defaults pg)).

(** One family of one outbound in the first loop. *)
Definition plan_family (interface : string) (ipv6 : bool) (pg : planning) : act W go_error planning :=
  let key := family_key interface ipv6 in
  if bool_decide (is_Some (pg_defaults pg !! key)) then act_ret pg
  else
    act! defaultResult := act_wrap (EWrap "prove physical default route") (lookupDefault ipv6 interface) in
    stop_if negb (bool_decide (lk_Interface defaultResult = interface)) with failure "physical default resolves on another interface" in
    act! gateway := act_of (map_err (EWrap "physical default") (parseUsableGateway (lk_Gateway defaultResult) (probe_address ipv6))) in
    let pg := set_default key gateway pg in
    act! _ := act_wrap (EWrap "outbound") (proveScopedEgress ipv6 interface gateway) in
    act! pg := proveGatewayBypass gateway interface pg in
    act_ret (add_scoped interface gateway (if ipv6 then ipv6CapturePrefixes else ipv4CapturePrefixes) pg).

Definition families (ipv6Enabled : bool) : list bool := if ipv6Enabled then [false; true] else [false].

Fixpoint plan_families (fams : list bool) (interface : string) (pg : planning) : act W go_error planning :=
  match fams with
  | [] => act_ret pg
  | ipv6 :: fams' => act! pg := plan_family interface ipv6 pg in plan_families fams' interface pg
  end.

(** The first loop over the outbounds. *)
Fixpoint plan_outbounds (ipv6Enabled : bool) (outbounds : list Outbound) (pg : planning) : act W go_error planning :=
  match outbounds with
  | [] => act_ret pg
  | o :: outbounds' =>
      if negb (bool_decide (OutType o = "direct")) then plan_outbounds ipv6Enabled outbounds' pg
      else act! pg := plan_families (families ipv6Enabled) (Interface o) pg in plan_outbounds ipv6Enabled outbounds' pg
  end.

Definition add_dns_route (r : RouteState) (pg : planning) : planning :=
  MkPlanning (pg_owners pg) (pg_gateways pg)
    (<[ro_Prefix r +:+ "|" +:+ ro_Interface r +:+ "|" +:+ ro_Gateway r := r]> (pg_dns pg)) (pg_scoped pg) (pg_defaults pg).

(** One DNS server of one outbound in the second loop. *)
Definition plan_server (ipv6Enabled : bool) (interface : string) (address : addr) (pg : planning) : act W go_error planning :=
  if is6 address && negb ipv6Enabled then act_ret pg
  else
    let physicalGateway := default AddrZero (pg_defaults pg !! family_key interface (is6 address)) in
    act! result := act_wrap (EWrap "prove DNS bypass") (lookup address interface) in
    stop_if negb (bool_decide (lk_Interface result = interface)) with failure "DNS resolves on another interface" in
    let exactHost := exactHostDestination (lk_Destination result) address in
    let ownedHost := ownsHostRoute owned address interface (lk_Gateway result) in
    if exactHost && negb ownedHost then
      if link_gateway (lk_Gateway result) then
        act_of (let! owners := claimBypassAddress address interface (pg_owners pg) in Ok (with_owners owners pg))
      else act_fail (failure "DNS already has an exact gateway route")
    else
      act! owners := act_of (claimBypassAddress address interface (pg_owners pg)) in
      let pg := with_owners owners pg in
      let prefix := prefix_text (hostPrefix address) in
      act! found :=
        (match parseUsableGateway (lk_Gateway result) address with
         | Ok dnsGateway =>
             act! pg := proveGatewayBypass dnsGateway interface pg in
             act_ret (pg, if bool_decide (address = with_zone dnsGateway "") then "" else addr_text dnsGateway)
         | Err _ =>
             if link_gateway (lk_Gateway result) then act_ret (pg, "")
             else act_fail (failure "DNS has unusable gateway")
         end) in
      let '(pg, gateway) := found in
      act_ret (if bool_decide (address = with_zone physicalGateway "") then pg
               else add_dns_route (MkRoute prefix interface gateway "") pg).

Fixpoint plan_servers (ipv6Enabled : bool) (interface : string) (servers : list addr_port) (pg : planning) : act W go_error planning :=
  match servers with
  | [] => act_ret pg
  | s :: servers' => act! pg := plan_server ipv6Enabled interface (ap_addr s) pg in plan_servers ipv6Enabled interface servers' pg
  end.

(** The second loop over the outbounds. *)
Fixpoint plan_dns (ipv6Enabled : bool) (outbounds : list Outbound) (pg : planning) : act W go_error planning :=
  match outbounds with
  | [] => act_ret pg
  | o :: outbounds' =>
      if negb (bool_decide (OutType o = "direct")) then plan_dns ipv6Enabled outbounds' pg
      else act! pg := plan_servers ipv6Enabled (Interface o) (OutDNS o) pg in plan_dns ipv6Enabled outbounds' pg
  end.

(** [planDefaultRouteCaptureOwned] *)
Definition planDefaultRouteCaptureOwned (runtime : Config) (ipv6Enabled : bool) : act W go_error defaultRoutePlan :=
  if negb (DefaultRoute (CCapture runtime)) then act_ret (MkPlan [] [] [])
  else
    let outbounds := omap (fun name => Outbounds runtime !! name) (sorted_names runtime) in
    act! pg := plan_outbounds ipv6Enabled outbounds (MkPlanning ∅ ∅ ∅ ∅ ∅) in
    act! pg := plan_dns ipv6Enabled outbounds pg in
    act_ret (MkPlan (sorted_values (pg_gateways pg) ++ sorted_values (pg_dns pg)) (sorted_values (pg_scoped pg))
               (ipv4CapturePrefixes ++ (if ipv6Enabled then ipv6CapturePrefixes else []))).
End planning.

(** [routes] *)
Definition plan_routes (plan : defaultRoutePlan) (tunName : string) : list RouteState :=
  pn_Bypasses plan ++ pn_Scoped plan ++ ((fun p => MkRoute (prefix_text p) tunName "" "") <$> pn_Prefixes plan).

(** [equal] *)
Definition plan_equal (plan other : defaultRoutePlan) : bool :=
  bool_decide (pn_Bypasses plan = pn_Bypasses other) && bool_decide (pn_Scoped plan = pn_Scoped other) &&
  bool_decide (pn_Prefixes plan = pn_Prefixes other).
