(* ===== verification/RunHost.v ===== *)
(** * Component [internal/app]: changing the host and putting it back

    The part of [run_darwin.go], [service_supervisor_darwin.go],
    [routes_darwin.go] and [cleanup_darwin.go] that changes the host: every
    change is recorded in the state file before it is made, and undone with
    durable progress.  [internal/tun/device_darwin.go] creates the device.
    The calls made are logged, each with the files after it. *)

From S2P Require Import Prelude.
From S2P Require Import GoStrings.
From S2P Require Import GoFiles.
From S2P Require Import NetIP.
From S2P Require Import ConfigTypes.
From S2P Require Import Outbound.
From S2P Require Import HostState.
From S2P Require Import HostRoutes.
From S2P Require Import HostDNS.
From S2P Require Import DefaultRoutes.

(** ** The host of one run *)

(** A call that changes the host or its record.  Adding a route and applying
    DNS servers are logged before they are attempted; a removed route and
    restored servers after the call has returned.  The worker process of the
    managed service is logged where it starts and reports, where its unexpected
    end is seen, and with the calls that end it: [Shutdown] with its success,
    [Kill], and [WaitProcess] with its result. *)
Inductive host_event : Type :=
| Wrote (s : State) (ok : bool)
| RecordRemoved (ok : bool)
| AddingRoute (r : RouteState)
| RouteGone (r : RouteState)
| ApplyingDNS (states : list DNSState)
| RestoredDNS (states remaining : list DNSState)
| DeviceOpened
| DeviceClosed
| DNSServing
| DNSStopped
| WorkerStarted
| WorkerPrepared
| WorkerCommitted
| WorkerDied
| WorkerShutdown (ok : bool)
| WorkerKilled
| WorkerWaited (e : option go_error).

(** What was started: the device by its name, Fake DNS, the status server, and
    the two packet pumps until their results were received. *)
Record parts : Type := MkParts {
  pt_device : option string;
  pt_dns : bool;
  pt_status : bool;
  pt_pump : bool;
  pt_output : bool
}.

Definition no_parts : parts := MkParts None false false false false.

(** The variables of [Run] around [finish]: the state and whether its file
    exists, and what was started. *)
Record host (W : Type) : Type := MkHost {
  h_files : world;
  h_net : W;
  h_state : State;
  h_exists : bool;
  h_parts : parts;
  h_log : list (host_event * world)
}.
Arguments MkHost {W} _ _ _ _ _ _.
Arguments h_files {W} _.
Arguments h_net {W} _.
Arguments h_state {W} _.
Arguments h_exists {W} _.
Arguments h_parts {W} _.
Arguments h_log {W} _.

(** An error of the state file as a Go error. *)
Definition state_failure (e : state_error) : go_error :=
  match e with
  | StateNotExist => failure "state file does not exist"
  | StateInvalid what => EWrap what (failure "invalid state")
  | StateFailed what => failure what
  end.

Section host.
Context {W : Type} (run : string -> list string -> W -> result command_error string * W) (json_encode : State -> option string).

Notation M := (act (host W) go_error).

Definition log (e : host_event) : M unit := fun h =>
  (Ok tt, MkHost (h_files h) (h_net h) (h_state h) (h_exists h) (h_parts h) (h_log h ++ [(e, h_files h)])).

Definition set_state (f : State -> State) : M unit := fun h =>
  (Ok tt, MkHost (h_files h) (h_net h) (f (h_state h)) (h_exists h) (h_parts h) (h_log h)).

Definition get_state : M State := fun h => (Ok (h_state h), h).

Definition set_exists : M unit := fun h =>
  (Ok tt, MkHost (h_files h) (h_net h) (h_state h) true (h_parts h) (h_log h)).

Definition set_parts (f : parts -> parts) : M unit := fun h =>
  (Ok tt, MkHost (h_files h) (h_net h) (h_state h) (h_exists h) (f (h_parts h)) (h_log h)).

(** A computation on the network of the host. *)
Definition on_net {A} (m : act W go_error A) : M A := fun h =>
  let '(r, w) := m (h_net h) in (r, MkHost (h_files h) w (h_state h) (h_exists h) (h_parts h) (h_log h)).

(** [WriteState] of the current state. *)
Definition persist (path : string) : M unit := fun h =>
  let '(r, files) := WriteState json_encode path (h_state h) (h_files h) in
  (map_err state_failure r,
   MkHost files (h_net h) (h_state h) (h_exists h) (h_parts h) (h_log h ++ [(Wrote (h_state h) (is_ok r), files)])).

(** ** Installing *)

(** One route: recorded, added, verified. *)
Definition install_route (path : string) (route : RouteState) (legacy : bool) : M unit :=
  act! _ := set_state (fun s => if legacy then set_route (Some route) s else set_routes (st_Routes s ++ [route]) s) in
  act! _ := persist path in
  act! _ := log (AddingRoute route) in
  act! _ := on_net (AddRoute run route) in
  on_net (VerifyRoute run route).

Fixpoint install_all (path : string) (routes : list RouteState) : M unit :=
  match routes with
  | [] => act_ret tt
  | route :: routes' => act! _ := install_route path route false in install_all path routes'
  end.

(** The routes of the address pools. *)
Definition pool_route (p : prefix) (tunName : string) : RouteState := MkRoute (prefix_text p) tunName "" "".

(** The check that the plan still holds after the installation. *)
Definition verify_plan (runtime : Config) (ipv6Enabled : bool) (defaultRoutes : defaultRoutePlan) : M unit :=
  if DefaultRoute (CCapture runtime) then
    fun h =>
      match on_net (planDefaultRouteCaptureOwned (lookupRouteScoped run) (LookupDefaultRouteScoped run) (pn_Bypasses defaultRoutes)
                      runtime ipv6Enabled) h with
      | (Ok verified, h) =>
          (if plan_equal defaultRoutes verified then Ok tt
           else Err (EWrap "prove loop-free egress" (failure "captured route plan changed during installation")), h)
      | (Err e, h) =>
          (Err (EWrap "prove loop-free egress" (EJoin [e; failure "captured route plan changed during installation"])), h)
      end
  else act_ret tt.

(** [installServiceRoutes], and the same steps in [Run].  [six] is the prefix
    of the IPv6 pool. *)
Definition installServiceRoutes (path : string) (runtime : Config) (tunName : string) (ipv6Enabled : bool)
    (defaultRoutes : defaultRoutePlan) : M unit :=
  act! _ := install_route path (pool_route (FakePrefix (CFakeIP runtime)) tunName) true in
  act! _ := (if ipv6Enabled then
               match CFakeIPv6 runtime with
               | Some f => install_route path (pool_route (FakePrefix6 f) tunName) false
               | None => act_fail (failure "panic: nil pointer dereference")
               end
             else act_ret tt) in
  act! _ := install_all path (plan_routes defaultRoutes tunName) in
  verify_plan runtime ipv6Enabled defaultRoutes.

(** [ApplyDNS] on a planned list. *)
Definition apply_dns (planned : list DNSState) (address : addr) : M unit :=
  act! _ := log (ApplyingDNS planned) in
  on_net (fun w => let '((_, e), w) := ApplyDNS run planned address w in (match e with None => Ok tt | Some e => Err e end, w)).

(** Replacing the DNS servers of the host, when the configuration asks for
    it. *)
Definition manage_dns (path : string) (interfaces : string -> option interface_view) (runtime : Config) : M unit :=
  if ManageDNS (CSystem runtime) then
    let address := ap_addr (Listen (CDNS runtime)) in
    act! snapshot := on_net (SnapshotDNS run interfaces address) in
    act! planned := act_of (PlanDNS snapshot address) in
    act! _ := set_state (fun s => set_phase "dns-planned" (set_dns planned s)) in
    act! _ := persist path in
    apply_dns planned address
  else act_ret tt.

(** ** Undoing *)

(** A step of a clean-up: it goes on, and its error is collected. *)
Definition collect (failures : list go_error) (f : go_error -> go_error) {A} (m : M A) (h : host W) : list go_error * host W :=
  match m h with
  | (Ok _, h) => (failures, h)
  | (Err e, h) => (failures ++ [f e], h)
  end.

Definition persist_failure (what : string) : go_error -> go_error := EWrap what.

(** [RemoveRoute], logged when the route is gone. *)
Definition remove_route (route : RouteState) : M unit :=
  act! _ := on_net (RemoveRoute run route) in
  log (RouteGone route).

(** The loop of [removeRecordedRoutes], from the last route to the first; the
    routes that could not be removed stay behind. *)
Fixpoint remove_loop (path : string) (todo kept : list RouteState) (failures : list go_error) (h : host W)
    : list go_error * host W :=
  match todo with
  | [] => (failures, h)
  | route :: todo' =>
      match remove_route route h with
      | (Err e, h) => remove_loop path todo' (route :: kept) (failures ++ [EWrap "remove recorded route" e]) h
      | (Ok _, h) =>
          let '(_, h) := set_state (set_routes (rev todo' ++ kept)) h in
          let '(failures, h) := collect failures (persist_failure "persist route rollback") (persist path) h in
          remove_loop path todo' kept failures h
      end
  end.

(** [removeRecordedRoutes] *)
Definition removeRecordedRoutes (path : string) (h : host W) : option go_error * host W :=
  let '(failures, h) := remove_loop path (rev (st_Routes (h_state h))) [] [] h in
  match st_Route (h_state h) with
  | None => (errors_join failures, h)
  | Some route =>
      match remove_route route h with
      | (Err e, h) => (errors_join (failures ++ [EWrap "remove Fake IP route" e]), h)
      | (Ok _, h) =>
          let '(_, h) := set_state (set_route None) h in
          let '(failures, h) := collect failures (persist_failure "persist route rollback") (persist path) h in
          (errors_join failures, h)
      end
  end.

(** [RestoreDNS] of the recorded services. *)
Definition restore_dns (h : host W) : option go_error * host W :=
  let states := st_DNS (h_state h) in
  let '((remaining, e), w) := RestoreDNS run states (h_net h) in
  let h := MkHost (h_files h) w (set_dns remaining (h_state h)) (h_exists h) (h_parts h) (h_log h) in
  (e, (log (RestoredDNS states remaining) h).2).
End host.
