(* ===== verification/DefaultRoutesFacts.v ===== *)
(** * Component [internal/app]: the plan for capturing the default route

    A plan keeps every DNS server and every gateway reachable outside of the
    tunnel, over one interface each.  The check after the installation plans
    for another configuration. *)

From S2P Require Import Prelude.
From S2P Require Import GoStrings.
From S2P Require Import GoFiles.
From S2P Require Import NetIP.
From S2P Require Import NetIPText.
From S2P Require Import ConfigTypes.
From S2P Require Import Outbound.
From S2P Require Import EffectiveDNS.
From S2P Require Import HostState.
From S2P Require Import HostRoutes.
From S2P Require Import DefaultRoutes.
From S2P Require Import RunHost.

(** ** Keys *)

Definition no_bar (c : ascii) : bool := negb (Ascii.eqb c "|").

Lemma bar_split p p' r r' :
  sforall no_bar p = true -> sforall no_bar p' = true -> p +:+ "|" +:+ r = p' +:+ "|" +:+ r' -> p = p' /\ r = r'.
Proof.
  revert p'. induction p as [|c p IH]; intros [|c' p'] Hp Hp' Heq.
  - split; [done|]. by injection Heq.
  - cbn in Heq. injection Heq as Hc _. subst c'. cbn in Hp'. done.
  - cbn in Heq. injection Heq as Hc _. subst c. cbn in Hp. done.
  - cbn in Heq, Hp, Hp'. injection Heq as -> Heq. to_prop. destruct (IH p') as [-> ->]; done.
Qed.

Lemma digit_no_bar z : 0 <= z < 10 -> no_bar (digit_char z) = true.
Proof.
  intros Hz. pose proof (digit_char_code z Hz) as Hc. apply negb_true_iff, Ascii.eqb_neq. intros Heq. rewrite Heq in Hc.
  change (code "|") with 124 in Hc. lia.
Qed.

Lemma dec3_no_bar x : 0 <= x < 256 -> sforall no_bar (dec3 x) = true.
Proof.
  intros Hx. unfold dec3. pose proof (Z.mod_pos_bound x 10). pose proof (Z.mod_pos_bound (x / 10) 10).
  pose proof (Z.div_mod x 10). pose proof (Z.div_mod x 100). pose proof (Z.mod_pos_bound x 100).
  destruct (Z.ltb_spec x 10); [|destruct (Z.ltb_spec x 100)]; cbn [sforall]; rewrite !digit_no_bar by lia; done.
Qed.

Lemma ipv4_no_bar v : sforall no_bar (ipv4_text v) = true.
Proof.
  unfold ipv4_text. rewrite !sforall_app. cbn [sforall].
  rewrite !dec3_no_bar by (apply Z.mod_pos_bound; lia). done.
Qed.

Lemma ipv6_no_bar v : sforall no_bar (ipv6_text v) = true.
Proof.
  assert (Hh : forall z, 0 <= z < 16 -> no_bar (hex_char z) = true).
  { intros z Hz. apply negb_true_iff, Ascii.eqb_neq. by apply hex_char_neq. }
  assert (Hg := groups_ok v).
  destruct (ipv6_text_cases v) as [->|(l1 & l2 & n & _ & Hgs & ->)]; [by apply join_groups_chars|].
  rewrite Hgs, !Forall_app in Hg. destruct Hg as (H1 & _ & H2). rewrite sforall_app. cbn [sforall].
  rewrite !join_groups_chars by done. done.
Qed.

(** The prefix of a host route. *)
Definition host_text (a : addr) : string := prefix_text (hostPrefix a).

Lemma host_text_no_bar a : sforall no_bar (host_text a) = true.
Proof.
  unfold host_text, prefix_text. destruct (prefix_valid _) eqn:Hv; [|done].
  rewrite !sforall_app. cbn [sforall].
  assert (Hb : prefix_bits (hostPrefix a) = 32 \/ prefix_bits (hostPrefix a) = 128).
  { unfold prefix_valid, prefix_bits, hostPrefix, prefix_from in *. cbn in *.
    destruct a as [|v|v z]; cbn in *; [|by left|by right]. by vm_compute in Hv. }
  assert (Ht : sforall no_bar (dec3 (prefix_bits (hostPrefix a))) = true) by (by destruct Hb as [-> | ->]).
  rewrite Ht. unfold hostPrefix, prefix_from. cbn [prefix_addr]. destruct a as [|v|v z]; cbn [with_zone addr_text].
  - done.
  - by rewrite ipv4_no_bar.
  - unfold zone_text. rewrite bool_decide_eq_true_2 by done. destruct (is4in6 _); rewrite !sforall_app; cbn [sforall].
    + by rewrite ipv4_no_bar.
    + by rewrite ipv6_no_bar.
Qed.

Lemma capture_no_bar ipv6 : Forall (fun p => sforall no_bar (prefix_text p) = true) (if ipv6 : bool then ipv6CapturePrefixes else ipv4CapturePrefixes).
Proof. destruct ipv6; repeat constructor. Qed.

Lemma interface_no_bar i : validSystemInterface i = true -> sforall no_bar i = true.
Proof.
  unfold validSystemInterface. intros H. to_prop. eapply sforall_impl; [|eassumption].
  intros c Hc. apply negb_true_iff, Ascii.eqb_neq. by intros ->.
Qed.

Lemma host_text_zone a : host_text (with_zone a "") = host_text a.
Proof. by destruct a. Qed.

(** The values of a map in the order of its keys. *)
Lemma sorted_values_elem m r : r ∈ sorted_values m <-> exists k, m !! k = Some r.
Proof.
  unfold sorted_values. rewrite list_elem_of_omap. split; [by intros (k & _ & Hk); exists k|].
  intros [k Hk]. exists k. split; [|done]. rewrite merge_sort_Permutation. apply list_elem_of_fmap.
  exists (k, r). split; [done|]. by apply elem_of_map_to_list.
Qed.

(** ** The invariant of planning *)

Lemma act_wrap_Ok {S E E' A} (f : E' -> E) (m : act S E' A) s a s' : act_wrap f m s = (Ok a, s') -> m s = (Ok a, s').
Proof. unfold act_wrap. destruct (m s) as [[b|e] s1]; [|done]. by intros [= -> ->]. Qed.

(** The chain of calls of an action inverts in one step. *)
Ltac inv_act :=
  repeat match goal with
  | H : act_bind _ _ _ = (Ok _, _) |- _ => apply act_bind_Ok in H as (? & ? & ? & H)
  | H : act_unless _ _ _ _ = (Ok _, _) |- _ => apply act_unless_Ok in H as [? H]
  | H : act_ret _ _ = (Ok _, _) |- _ => injection H as ? ?
  | H : act_fail _ _ = (Ok _, _) |- _ => discriminate H
  | H : act_of _ _ = (Ok _, _) |- _ => injection H as H ?
  | H : act_wrap _ _ _ = (Ok _, _) |- _ => apply act_wrap_Ok in H
  | H : negb (bool_decide _) = false |- _ => apply negb_false_iff, bool_decide_eq_true in H
  | _ => progress inv_result
  end.

Section planning.
Context {W : Type} (lookup : addr -> string -> act W go_error RouteLookup)
  (lookupDefault : bool -> string -> act W go_error RouteLookup) (owned : list RouteState)
  (answer : addr -> string -> result go_error RouteLookup).
(** Lookups give the same answers while the plan is made, and none for the
    name of no interface. *)
Context (stable : forall a i w, (lookup a i w).1 = answer a i)
  (named : forall a i r, answer a i = Ok r -> validSystemInterface i = true).

Lemma stable_Ok a i w r w' : lookup a i w = (Ok r, w') -> answer a i = Ok r.
Proof. intros H. rewrite <- (stable a i w). by rewrite H. Qed.

(** The host already has its own route to the address on the link. *)
Definition system_route (a : addr) (i : string) : Prop :=
  exists r, answer a i = Ok r /\ lk_Interface r = i /\ exactHostDestination (lk_Destination r) a = true /\ link_gateway (lk_Gateway r) = true.

Definition gateway_key (r : RouteState) : string := ro_Prefix r +:+ "|" +:+ ro_Interface r.
Definition dns_key (r : RouteState) : string := ro_Prefix r +:+ "|" +:+ ro_Interface r +:+ "|" +:+ ro_Gateway r.
Definition scoped_key (r : RouteState) : string := ro_Prefix r +:+ "|" +:+ ro_Scope r +:+ "|" +:+ ro_Gateway r.

(** A recorded route is a host route that its interface owns. *)
Definition owned_route (pg : planning) (r : RouteState) : Prop :=
  ro_Scope r = "" /\ validSystemInterface (ro_Interface r) = true /\
  exists a, ro_Prefix r = host_text a /\ pg_owners pg !! a = Some (ro_Interface r).

Definition bypassed (pg : planning) (a : addr) (i : string) : Prop :=
  exists r, ((exists k, pg_gateways pg !! k = Some r) \/ (exists k, pg_dns pg !! k = Some r)) /\
    ro_Prefix r = host_text a /\ ro_Interface r = i.

(** Packets to the address leave over the interface. *)
Definition loop_free (pg : planning) (a : addr) (i : string) : Prop := bypassed pg a i \/ system_route a i.

Record plan_ok (pg : planning) : Prop := {
  po_gateways : forall k r, pg_gateways pg !! k = Some r -> k = gateway_key r /\ ro_Gateway r = "" /\ owned_route pg r;
  po_dns : forall k r, pg_dns pg !! k = Some r -> k = dns_key r /\ owned_route pg r;
  po_scoped : forall k r, pg_scoped pg !! k = Some r -> k = scoped_key r /\
    exists i g b p, validSystemInterface i = true /\ p ∈ (if b : bool then ipv6CapturePrefixes else ipv4CapturePrefixes) /\ r = scoped_route i g p;
  po_defaults : forall i b g, validSystemInterface i = true -> pg_defaults pg !! family_key i b = Some g -> loop_free pg (with_zone g "") i
}.

(** What is planned stays planned. *)
Record extends (pg pg' : planning) : Prop := {
  ex_owners : pg_owners pg ⊆ pg_owners pg';
  ex_bypassed : forall a i, bypassed pg a i -> bypassed pg' a i;
  ex_scoped : forall k r, pg_scoped pg !! k = Some r -> pg_scoped pg' !! k = Some r;
  ex_defaults : forall k, is_Some (pg_defaults pg !! k) -> is_Some (pg_defaults pg' !! k)
}.

Lemma extends_refl pg : extends pg pg.
Proof. by split. Qed.

Lemma extends_trans pg1 pg2 pg3 : extends pg1 pg2 -> extends pg2 pg3 -> extends pg1 pg3.
Proof. intros [] []. split; eauto. by etrans. Qed.

Lemma extends_loop_free pg pg' a i : extends pg pg' -> loop_free pg a i -> loop_free pg' a i.
Proof. intros He [H|H]; [left; by eapply ex_bypassed|by right]. Qed.

Lemma owned_route_mono pg pg' r : pg_owners pg ⊆ pg_owners pg' -> owned_route pg r -> owned_route pg' r.
Proof. intros Hs (? & ? & a & ? & Ha). split; [done|]. split; [done|]. exists a. split; [done|]. by eapply lookup_weaken. Qed.

Lemma claim_spec a i owners owners' :
  claimBypassAddress a i owners = Ok owners' -> owners ⊆ owners' /\ owners' !! a = Some i.
Proof.
  unfold claimBypassAddress. destruct (owners !! a) as [previous|] eqn:Ha; intros H; inv_act; subst owners'.
  - subst previous. rewrite lookup_insert_eq. split; [|done]. by rewrite insert_id.
  - rewrite lookup_insert_eq. split; [|done]. by apply insert_subseteq.
Qed.

Lemma claimed_ok pg a i owners' :
  plan_ok pg -> claimBypassAddress a i (pg_owners pg) = Ok owners' ->
  plan_ok (with_owners owners' pg) /\ extends pg (with_owners owners' pg) /\ owners' !! a = Some i.
Proof.
  intros [Hg Hd Hs Hf] Hc. apply claim_spec in Hc as [Hsub Ha]. split; [|split; [|done]].
  - split; cbn; [| |done|done].
    + intros k r Hk. destruct (Hg k r Hk) as (? & ? & ?). split; [done|]. split; [done|]. by eapply owned_route_mono.
    + intros k r Hk. destruct (Hd k r Hk) as [? ?]. split; [done|]. by eapply owned_route_mono.
  - by split.
Qed.

(** Equal keys of valid interfaces belong to equal routes. *)
Lemma gateway_key_inj a a' i i' : gateway_key (MkRoute (host_text a) i "" "") = gateway_key (MkRoute (host_text a') i' "" "") ->
  host_text a = host_text a' /\ i = i'.
Proof. intros Heq. apply bar_split in Heq; [done|apply host_text_no_bar..]. Qed.

Lemma dns_key_inj a a' i i' g g' : validSystemInterface i = true -> validSystemInterface i' = true ->
  dns_key (MkRoute (host_text a) i g "") = dns_key (MkRoute (host_text a') i' g' "") -> host_text a = host_text a' /\ i = i'.
Proof.
  intros Hi Hi' Heq. apply bar_split in Heq as [? Heq]; [|apply host_text_no_bar..].
  apply bar_split in Heq as [? _]; [done|by apply interface_no_bar..].
Qed.

(** Adding a gateway. *)
Lemma add_gateway_ok pg g i pg' :
  plan_ok pg -> validSystemInterface i = true -> addGatewayBypass g i pg = Ok pg' ->
  plan_ok pg' /\ extends pg pg' /\ bypassed pg' (with_zone g "") i.
Proof.
  intros Hpg Hi H. unfold addGatewayBypass in H. inv_result. subst pg'.
  apply (claimed_ok pg) in H0 as (Hok & Hex & Hown); [|done].
  set (r := MkRoute (host_text (with_zone g "")) i "" ""). change (prefix_text _ +:+ "|" +:+ i) with (gateway_key r).
  change (MkRoute (prefix_text _) i "" "") with r.
  assert (Hby : forall a j, bypassed (with_owners x pg) a j -> bypassed (MkPlanning x (<[gateway_key r := r]> (pg_gateways pg)) (pg_dns pg) (pg_scoped pg) (pg_defaults pg)) a j).
  { intros a j (r' & [[k Hk]|Hk] & Hp & Hj); [|by exists r'; split; [right|]].
    destruct (decide (k = gateway_key r)) as [->|Hne]; [|exists r'; split; [|done]; left; exists k; cbn [pg_gateways pg_dns]; by rewrite lookup_insert_ne].
    exists r. split; [left; exists (gateway_key r); cbn [pg_gateways pg_dns]; by rewrite lookup_insert_eq|].
    destruct (po_gateways _ Hok _ _ Hk) as (Hkey & _ & _ & _ & a' & Ha' & _). unfold gateway_key in Hkey. rewrite Ha' in Hkey.
    apply bar_split in Hkey as [H1 H2]; [|apply host_text_no_bar..]. cbn in H1, H2. split; [by rewrite <- Hp, Ha'|]. by rewrite <- Hj. }
  split; [|split].
  - destruct Hok as [Hg Hd Hs Hf]. split; cbn in *.
    + intros k r'. rewrite lookup_insert_Some. intros [[<- <-]|[_ Hk]]; [|by apply Hg]. split; [done|]. split; [done|].
      split; [done|]. split; [done|]. exists g. split; [by rewrite <- host_text_zone|done].
    + done.
    + done.
    + intros j b g' Hj Hd'. destruct (Hf j b g' Hj Hd') as [Hb|Hb]; [left; by apply Hby|by right].
  - destruct Hex as [Ho Hb Hs Hd]. split; [done|intros a j Ha; by apply Hby, Hb|done|done].
  - exists r. split; [left; exists (gateway_key r); cbn [pg_gateways pg_dns]; by rewrite lookup_insert_eq|done].
Qed.

(** Adding a server. *)
Lemma add_dns_ok pg a i g :
  plan_ok pg -> validSystemInterface i = true -> pg_owners pg !! a = Some i ->
  let pg' := add_dns_route (MkRoute (host_text a) i g "") pg in plan_ok pg' /\ extends pg pg' /\ bypassed pg' a i.
Proof.
  intros Hpg Hi Hown. set (r := MkRoute (host_text a) i g ""). unfold add_dns_route. change (ro_Prefix r +:+ _) with (dns_key r).
  assert (Hby : forall b j, bypassed pg b j -> bypassed (MkPlanning (pg_owners pg) (pg_gateways pg) (<[dns_key r := r]> (pg_dns pg)) (pg_scoped pg) (pg_defaults pg)) b j).
  { intros b j (r' & [Hk|[k Hk]] & Hp & Hj); [by exists r'; split; [left|]|].
    destruct (decide (k = dns_key r)) as [->|Hne]; [|exists r'; split; [|done]; right; exists k; cbn [pg_gateways pg_dns]; by rewrite lookup_insert_ne].
    exists r. split; [right; exists (dns_key r); cbn [pg_gateways pg_dns]; by rewrite lookup_insert_eq|].
    destruct (po_dns _ Hpg _ _ Hk) as (Hkey & _ & Hv & a' & Ha' & _). unfold dns_key in Hkey. rewrite Ha' in Hkey.
    apply bar_split in Hkey as [H1 H2]; [|apply host_text_no_bar..]. apply bar_split in H2 as [H2 _]; [|by apply interface_no_bar..].
    cbn in H1, H2. split; [by rewrite <- Hp, Ha'|]. by rewrite <- Hj. }
  split; [|split].
  - destruct Hpg as [Hg Hd Hs Hf]. split; cbn in *.
    + done.
    + intros k r'. rewrite lookup_insert_Some. intros [[<- <-]|[_ Hk]]; [|by apply Hd]. split; [done|].
      split; [done|]. split; [done|]. by exists a.
    + done.
    + intros j b g' Hj Hd'. destruct (Hf j b g' Hj Hd') as [Hb|Hb]; [left; by apply Hby|by right].
  - by split.
  - exists r. split; [right; exists (dns_key r); cbn [pg_gateways pg_dns]; by rewrite lookup_insert_eq|done].
Qed.

Lemma prove_gateway_ok g i pg w pg' w' :
  plan_ok pg -> proveGatewayBypass lookup owned g i pg w = (Ok pg', w') ->
  validSystemInterface i = true /\ plan_ok pg' /\ extends pg pg' /\ loop_free pg' (with_zone g "") i.
Proof.
  intros Hpg H. unfold proveGatewayBypass in H. inv_act. apply stable_Ok in H0. assert (Hi := named _ _ _ H0). split; [done|].
  assert (Hadd : forall w0 w1 : W, act_of (addGatewayBypass g i pg) w0 = (Ok pg', w1) -> plan_ok pg' /\ extends pg pg' /\ loop_free pg' (with_zone g "") i).
  { intros w0 w1 Ha. inv_act. apply add_gateway_ok in Ha as (? & ? & ?); [|done..]. split; [done|]. split; [done|by left]. }
  destruct (exactHostDestination _ _) eqn:He; [|by eapply Hadd]. destruct (ownsHostRoute _ _ _ _); [by eapply Hadd|].
  destruct (link_gateway _) eqn:Hl; inv_act. subst pg'.
  match goal with H : claimBypassAddress _ _ _ = Ok _ |- _ => apply (claimed_ok pg) in H as (? & ? & _); [|done] end.
  split; [done|]. split; [done|]. right. by exists x.
Qed.

Lemma family_key_inj i i' b b' : validSystemInterface i = true -> validSystemInterface i' = true ->
  family_key i b = family_key i' b' -> i = i' /\ b = b'.
Proof.
  intros Hi Hi'. unfold family_key. assert (Hk : forall j (c : bool), j +:+ (if c then "|6" else "|4") = j +:+ "|" +:+ (if c then "6" else "4")).
  { intros j []; [done|done]. }
  rewrite !Hk. intros Heq. apply bar_split in Heq as [-> Heq]; [|by apply interface_no_bar..]. by destruct b, b'.
Qed.

Lemma add_scoped_ok i g b pg :
  plan_ok pg -> validSystemInterface i = true ->
  let ps := if b : bool then ipv6CapturePrefixes else ipv4CapturePrefixes in
  let pg' := add_scoped i g ps pg in
  plan_ok pg' /\ extends pg pg' /\ forall p, p ∈ ps -> exists k, pg_scoped pg' !! k = Some (scoped_route i g p).
Proof.
  intros Hpg Hi ps. unfold add_scoped.
  set (insert_scoped := fun (routes : gmap string RouteState) p => let r := scoped_route i g p in <[scoped_key r := r]> routes).
  change (fold_left _ ps (pg_scoped pg)) with (fold_left insert_scoped ps (pg_scoped pg)).
  assert (Hbar : forall p (c : bool), p ∈ (if c then ipv6CapturePrefixes else ipv4CapturePrefixes) -> sforall no_bar (prefix_text p) = true).
  { intros p c Hp. pose proof (capture_no_bar c) as Hc. rewrite Forall_forall in Hc. by apply Hc. }
  set (inv := fun m : gmap string RouteState => forall k r, m !! k = Some r -> k = scoped_key r /\
    exists i g b p, validSystemInterface i = true /\ p ∈ (if b : bool then ipv6CapturePrefixes else ipv4CapturePrefixes) /\ r = scoped_route i g p).
  assert (Hstep : forall m p, inv m -> p ∈ ps -> inv (insert_scoped m p) /\
    (forall k r, m !! k = Some r -> insert_scoped m p !! k = Some r) /\ exists k, insert_scoped m p !! k = Some (scoped_route i g p)).
  { intros m p Hm Hp. unfold insert_scoped. split; [|split; [|eexists; apply lookup_insert_eq]].
    - intros k r. rewrite lookup_insert_Some. intros [[<- <-]|[_ Hk]]; [|by apply Hm]. split; [done|]. by exists i, g, b, p.
    - intros k r Hk. rewrite lookup_insert_Some. destruct (decide (scoped_key (scoped_route i g p) = k)) as [Hkey|]; [left|by right].
      split; [done|]. destruct (Hm k r Hk) as (Hk' & j & g' & b' & p' & Hj & Hp' & ->). rewrite <- Hkey in Hk'. unfold scoped_key in Hk'. cbn in Hk'.
      apply bar_split in Hk' as [H1 H2]; [|by eapply Hbar..]. apply bar_split in H2 as [H2 H3]; [|by apply interface_no_bar..].
      unfold scoped_route. by rewrite H1, H2, H3. }
  assert (Hfold : forall l m, inv m -> (forall p, p ∈ l -> p ∈ ps) -> inv (fold_left insert_scoped l m) /\
    (forall k r, m !! k = Some r -> fold_left insert_scoped l m !! k = Some r) /\
    forall p, p ∈ l -> exists k, fold_left insert_scoped l m !! k = Some (scoped_route i g p)).
  { induction l as [|p l IH]; intros m Hm Hin; cbn [fold_left]. { split; [done|]. split; [done|]. by intros p ?%not_elem_of_nil. }
    destruct (Hstep m p Hm) as (Hm' & Hkeep & k & Hk); [apply Hin; by left|].
    destruct (IH (insert_scoped m p) Hm') as (Hm2 & Hkeep2 & Hall); [intros q Hq; apply Hin; by right|].
    split; [done|]. split; [eauto|]. intros q [->|Hq]%elem_of_cons; [|by apply Hall]. exists k. by apply Hkeep2. }
  destruct (Hfold ps (pg_scoped pg)) as (Hinv & Hkeep & Hall); [exact (po_scoped _ Hpg)|done|].
  split; [|split; [|done]].
  - destruct Hpg as [Hg Hd _ Hf]. by split.
  - by split.
Qed.

(** The gateway of an interface, once its family was planned. *)
Definition family_planned (pg : planning) (i : string) (b : bool) : Prop :=
  exists g, pg_defaults pg !! family_key i b = Some g /\
    forall p, p ∈ (if b then ipv6CapturePrefixes else ipv4CapturePrefixes) -> exists k, pg_scoped pg !! k = Some (scoped_route i g p).

(** Every known gateway has its scoped routes. *)
Definition scoped_ok (pg : planning) : Prop :=
  forall i b, validSystemInterface i = true -> is_Some (pg_defaults pg !! family_key i b) -> family_planned pg i b.

Definition planned (pg : planning) : Prop := plan_ok pg /\ scoped_ok pg.

(** A step that only adds bypasses. *)
Lemma same_defaults_scoped pg pg' :
  scoped_ok pg -> pg_defaults pg' = pg_defaults pg -> extends pg pg' -> scoped_ok pg'.
Proof.
  intros Hs Hd Hex i b Hi Hsome. rewrite Hd in Hsome. destruct (Hs i b Hi Hsome) as (g & Hg & Hp).
  exists g. rewrite Hd. split; [done|]. intros p Hin. destruct (Hp p Hin) as [k Hk]. exists k. by apply (ex_scoped _ _ Hex).
Qed.

Lemma prove_gateway_defaults g i pg w pg' w' :
  proveGatewayBypass lookup owned g i pg w = (Ok pg', w') -> pg_defaults pg' = pg_defaults pg.
Proof.
  intros H. unfold proveGatewayBypass in H. inv_act.
  destruct (exactHostDestination _ _); [destruct (ownsHostRoute _ _ _ _); [|destruct (link_gateway _)]|];
    unfold addGatewayBypass in H; inv_act; by subst pg'.
Qed.

Lemma set_default_ok key g pg : plan_ok pg -> pg_defaults pg !! key = None ->
  (forall i b, validSystemInterface i = true -> key = family_key i b -> loop_free pg (with_zone g "") i) -> plan_ok (set_default key g pg).
Proof.
  intros [Hg Hd Hs Hf] Hnone Hfree. split; try done. intros i b g' Hi. cbn. rewrite lookup_insert_Some.
  intros [[Hk <-]|[_ Hk]]; [by apply (Hfree i b)|by apply (Hf i b)].
Qed.

Lemma prove_gateway_set key v g i pg w pg' w' :
  proveGatewayBypass lookup owned g i (set_default key v pg) w = (Ok pg', w') ->
  exists pg0, proveGatewayBypass lookup owned g i pg w = (Ok pg0, w') /\ pg' = set_default key v pg0.
Proof.
  unfold proveGatewayBypass, act_bind, act_wrap. destruct (lookup _ i w) as [[r|e] w1]; [|done].
  unfold act_unless. destruct (negb _); [done|].
  destruct (exactHostDestination _ _); [destruct (ownsHostRoute _ _ _ _); [|destruct (link_gateway _)]|];
    unfold act_of, addGatewayBypass; cbn [pg_owners set_default]; try done; destruct (claimBypassAddress _ _ _); try done;
    cbn; intros [= <- <-]; by eexists.
Qed.

(** One family of one interface. *)
Lemma plan_family_ok i b pg w pg' w' :
  planned pg -> plan_family lookup lookupDefault owned i b pg w = (Ok pg', w') ->
  planned pg' /\ extends pg pg' /\ is_Some (pg_defaults pg' !! family_key i b).
Proof.
  intros [Hpg Hsc] H. unfold plan_family in H. case_bool_decide as Hsome.
  { inv_act. by subst pg'. }
  inv_act. subst pg'. apply eq_None_not_Some in Hsome.
  match goal with H : proveGatewayBypass _ _ _ _ _ _ = _ |- _ => apply prove_gateway_set in H as (pg0 & Hgw & ->) end.
  assert (Hdef := prove_gateway_defaults _ _ _ _ _ _ Hgw). apply prove_gateway_ok in Hgw as (Hi & Hok & Hex & Hfree); [|done].
  assert (Hok2 : plan_ok (set_default (family_key i b) x1 pg0)).
  { apply set_default_ok; [done|by rewrite Hdef|]. intros i' b' Hi' Hkey. by apply family_key_inj in Hkey as [<- _]. }
  destruct (add_scoped_ok i x1 b _ Hok2 Hi) as (Hok3 & Hex3 & Hall).
  assert (Hex2 : extends pg (set_default (family_key i b) x1 pg0)).
  { destruct Hex as [E1 E2 E3 E4]. split; try done. intros k Hk. cbn. rewrite lookup_insert_is_Some'. right. by apply E4. }
  assert (Hexp : extends pg (add_scoped i x1 (if b then ipv6CapturePrefixes else ipv4CapturePrefixes) (set_default (family_key i b) x1 pg0))).
  { by eapply extends_trans. }
  split; [|split; [done|]]. 2: { cbn. rewrite lookup_insert_eq. by eexists. }
  split; [done|]. intros i' b' Hi' Hs. destruct (decide (family_key i b = family_key i' b')) as [Hk|Hk].
  - apply family_key_inj in Hk as [<- <-]; [|done..]. exists x1. split; [cbn; by rewrite lookup_insert_eq|]. exact Hall.
  - cbn in Hs. rewrite lookup_insert_ne in Hs by done. rewrite Hdef in Hs. destruct (Hsc i' b' Hi' Hs) as (g & Hg & Hp).
    exists g. split; [cbn; by rewrite lookup_insert_ne, Hdef|]. intros p Hin. destruct (Hp p Hin) as [k Hkk]. exists k.
    by apply (ex_scoped _ _ Hexp).
Qed.

Lemma plan_families_ok fams i pg w pg' w' :
  planned pg -> plan_families lookup lookupDefault owned fams i pg w = (Ok pg', w') ->
  planned pg' /\ extends pg pg' /\ forall b, b ∈ fams -> is_Some (pg_defaults pg' !! family_key i b).
Proof.
  revert pg w. induction fams as [|b fams IH]; intros pg w Hpg H; cbn [plan_families] in H; inv_act.
  { subst pg'. split; [done|]. split; [apply extends_refl|]. by intros b ?%not_elem_of_nil. }
  apply plan_family_ok in H0 as (H1 & He1 & Hb); [|done]. apply IH in H as (H2 & He2 & Hall); [|done].
  split; [done|]. split; [by eapply extends_trans|]. intros b' [->|Hb']%elem_of_cons; [by apply He2|by apply Hall].
Qed.

Lemma plan_outbounds_ok ipv6Enabled outbounds pg w pg' w' :
  planned pg -> plan_outbounds lookup lookupDefault owned ipv6Enabled outbounds pg w = (Ok pg', w') ->
  planned pg' /\ extends pg pg' /\
  forall o b, o ∈ outbounds -> OutType o = "direct" -> b ∈ families ipv6Enabled -> is_Some (pg_defaults pg' !! family_key (Interface o) b).
Proof.
  revert pg w. induction outbounds as [|o outbounds IH]; intros pg w Hpg H; cbn [plan_outbounds] in H.
  { inv_act. subst pg'. split; [done|]. split; [apply extends_refl|]. by intros o b ?%not_elem_of_nil. }
  case_bool_decide as Hd; cbn [negb] in H.
  - inv_act. apply plan_families_ok in H0 as (H1 & He1 & Hb); [|done]. apply IH in H as (H2 & He2 & Hall); [|done].
    split; [done|]. split; [by eapply extends_trans|]. intros o' b [->|Ho]%elem_of_cons Ht Hin; [by apply He2, Hb|by apply Hall].
  - apply IH in H as (H2 & He2 & Hall); [|done]. split; [done|]. split; [done|].
    intros o' b [->|Ho]%elem_of_cons Ht Hin; [done|by apply Hall].
Qed.

(** A DNS server is served when its family is. *)
Definition served (ipv6Enabled : bool) (a : addr) : bool := negb (is6 a && negb ipv6Enabled).

Definition server_planned (pg : planning) (a : addr) (i : string) : Prop :=
  loop_free pg a i /\ pg_owners pg !! a = Some i.

Lemma extends_server pg pg' a i : extends pg pg' -> server_planned pg a i -> server_planned pg' a i.
Proof. intros He [Hf Ho]. split; [by eapply extends_loop_free|]. eapply lookup_weaken; [done|]. apply He. Qed.

Lemma planned_step pg pg' : planned pg -> plan_ok pg' -> pg_defaults pg' = pg_defaults pg -> extends pg pg' -> planned pg'.
Proof. intros [_ Hs] Hok Hd He. split; [done|]. by eapply same_defaults_scoped. Qed.

(** The last step for a server: its route, unless it is the gateway. *)
Lemma server_route_ok a i g gateway pg :
  planned pg -> validSystemInterface i = true -> pg_owners pg !! a = Some i ->
  pg_defaults pg !! family_key i (is6 a) = Some g ->
  let pg' := if bool_decide (a = with_zone g "") then pg else add_dns_route (MkRoute (host_text a) i gateway "") pg in
  planned pg' /\ extends pg pg' /\ server_planned pg' a i.
Proof.
  intros [Hpg Hsc] Hi Hown Hg. case_bool_decide as Ha; cbn zeta.
  - split; [done|]. split; [apply extends_refl|]. split; [|done]. rewrite Ha. by eapply po_defaults.
  - destruct (add_dns_ok pg a i gateway Hpg Hi Hown) as (Hok & Hex & Hby). split; [by eapply planned_step|].
    split; [done|]. split; [by left|]. eapply lookup_weaken; [done|]. apply Hex.
Qed.

Lemma plan_server_ok ipv6Enabled i a pg w pg' w' :
  planned pg -> (served ipv6Enabled a = true -> is_Some (pg_defaults pg !! family_key i (is6 a))) ->
  plan_server lookup owned ipv6Enabled i a pg w = (Ok pg', w') ->
  planned pg' /\ extends pg pg' /\ (served ipv6Enabled a = true -> server_planned pg' a i).
Proof.
  intros Hpg Hsome H. unfold plan_server, served in *. destruct (is6 a && negb ipv6Enabled).
  { inv_act. subst pg'. split; [done|]. by split; [apply extends_refl|]. }
  destruct (Hsome eq_refl) as [g Hg]. rewrite Hg in H. cbn [default] in H. apply act_bind_Ok in H as (r & w1 & Hl & H).
  apply act_wrap_Ok, stable_Ok in Hl. assert (Hi := named _ _ _ Hl). apply act_unless_Ok in H as [Hif H].
  apply negb_false_iff, bool_decide_eq_true in Hif. destruct (exactHostDestination _ _ && _) eqn:Hexact.
  - apply andb_true_iff in Hexact as [He _]. destruct (link_gateway _) eqn:Hlink; [|by inv_act].
    inv_act. subst pg'.
    match goal with H : claimBypassAddress _ _ _ = Ok _ |- _ => apply (claimed_ok pg) in H as (Hok & Hex & Hown); [|apply Hpg] end.
    split; [by eapply planned_step|]. split; [done|]. intros _. split; [|done]. right. by exists r.
  - apply act_bind_Ok in H as (owners & w2 & Hc & H). injection Hc as Hc _. apply (claimed_ok pg) in Hc as (Hok & Hex & Hown); [|apply Hpg].
    assert (Hpl : planned (with_owners owners pg)) by (by eapply planned_step).
    apply act_bind_Ok in H as ([pg2 gateway] & w3 & Hm & H). injection H as H _.
    assert (H2 : planned pg2 /\ extends (with_owners owners pg) pg2 /\ pg_defaults pg2 = pg_defaults pg).
    { destruct (parseUsableGateway _ _) as [dg|e].
      - inv_act. subst. apply prove_gateway_defaults in H0 as Hd2. apply prove_gateway_ok in H0 as (_ & Hok2 & Hex2 & _); [|done].
        split; [by eapply planned_step|]. done.
      - destruct (link_gateway _); inv_act. by subst. }
    destruct H2 as (Hp2 & Hex2 & Hd2).
    destruct (server_route_ok a i g gateway pg2) as (Hp3 & Hex3 & Hs); [done|done| |by rewrite Hd2|].
    { eapply lookup_weaken; [exact Hown|]. apply Hex2. }
    change (prefix_text (hostPrefix a)) with (host_text a) in H. cbn zeta in Hp3, Hex3, Hs. rewrite H in Hp3, Hex3, Hs.
    split; [done|]. split; [|done]. eapply extends_trans; [exact Hex|]. by eapply extends_trans.
Qed.

Lemma plan_servers_ok ipv6Enabled i servers pg w pg' w' :
  planned pg -> (forall b, b ∈ families ipv6Enabled -> is_Some (pg_defaults pg !! family_key i b)) ->
  plan_servers lookup owned ipv6Enabled i servers pg w = (Ok pg', w') ->
  planned pg' /\ extends pg pg' /\ forall s, s ∈ servers -> served ipv6Enabled (ap_addr s) = true -> server_planned pg' (ap_addr s) i.
Proof.
  revert pg w. induction servers as [|s servers IH]; intros pg w Hpg Hd H; cbn [plan_servers] in H; inv_act.
  { subst pg'. split; [done|]. split; [apply extends_refl|]. by intros s ?%not_elem_of_nil. }
  apply plan_server_ok in H0 as (H1 & He1 & Hs); [|done|].
  2: { intros Hv. apply Hd. unfold served, families in *. destruct (is6 _), ipv6Enabled; try done; set_solver. }
  apply IH in H as (H2 & He2 & Hall); [|done|intros b Hb; by apply He1, Hd].
  split; [done|]. split; [by eapply extends_trans|]. intros s' [->|Hs']%elem_of_cons Hv; [eapply extends_server; eauto|by apply Hall].
Qed.

Lemma plan_dns_ok ipv6Enabled outbounds pg w pg' w' :
  planned pg -> (forall o b, o ∈ outbounds -> OutType o = "direct" -> b ∈ families ipv6Enabled -> is_Some (pg_defaults pg !! family_key (Interface o) b)) ->
  plan_dns lookup owned ipv6Enabled outbounds pg w = (Ok pg', w') ->
  planned pg' /\ extends pg pg' /\
  forall o s, o ∈ outbounds -> OutType o = "direct" -> s ∈ OutDNS o -> served ipv6Enabled (ap_addr s) = true ->
    server_planned pg' (ap_addr s) (Interface o).
Proof.
  revert pg w. induction outbounds as [|o outbounds IH]; intros pg w Hpg Hd H; cbn [plan_dns] in H.
  { inv_act. subst pg'. split; [done|]. split; [apply extends_refl|]. by intros o s ?%not_elem_of_nil. }
  assert (Hd' : forall o' b, o' ∈ outbounds -> OutType o' = "direct" -> b ∈ families ipv6Enabled -> is_Some (pg_defaults pg !! family_key (Interface o') b)).
  { intros o' b Ho. apply Hd. by right. }
  case_bool_decide as Ht; cbn [negb] in H.
  - inv_act. apply plan_servers_ok in H0 as (H1 & He1 & Hb); [|done|intros b Hb; apply Hd; [by left|done|done]].
    apply IH in H as (H2 & He2 & Hall); [|done|intros o' b Ho Hto Hbo; by apply He1, Hd'].
    split; [done|]. split; [by eapply extends_trans|]. intros o' s [->|Ho]%elem_of_cons Hto Hin Hv; [eapply extends_server; eauto|by eapply Hall].
  - apply IH in H as (H2 & He2 & Hall); [|done|done]. split; [done|]. split; [done|].
    intros o' b [->|Ho]%elem_of_cons Hto Hin; [done|by apply Hall].
Qed.

Lemma empty_planned : planned (MkPlanning ∅ ∅ ∅ ∅ ∅).
Proof.
  split; [split; cbn; intros *; rewrite ?lookup_empty; done|]. intros i b _ [g Hg]. cbn in Hg. by rewrite lookup_empty in Hg.
Qed.

Lemma outbounds_elem runtime name o :
  Outbounds runtime !! name = Some o -> o ∈ omap (fun n => Outbounds runtime !! n) (sorted_names runtime).
Proof.
  intros Ho. apply list_elem_of_omap. exists name. split; [|done]. unfold sorted_names. rewrite merge_sort_Permutation.
  apply list_elem_of_fmap. exists (name, o). split; [done|]. by apply elem_of_map_to_list.
Qed.

(** Packets to the address leave the host over the interface under the plan. *)
Definition leaves_by (plan : defaultRoutePlan) (a : addr) (i : string) : Prop :=
  (exists r, r ∈ pn_Bypasses plan /\ ro_Prefix r = host_text a /\ ro_Interface r = i) \/ system_route a i.

(** C20: a plan avoids loops.  In the plan of a capturing configuration every
    DNS server of a direct outbound, as far as its family is served, and the
    gateway of every interface and family are reached over the interface of
    the outbound: by a host route of the plan or by one that the host already
    has on the link.  The capture prefixes are scoped to each gateway.  Every
    host route belongs to the one interface that claimed its address, so two
    outbounds that share a server share the interface. *)
Theorem plan_avoids_loops (runtime : Config) (ipv6Enabled : bool) (w w' : W) (plan : defaultRoutePlan) :
  DefaultRoute (CCapture runtime) = true ->
  planDefaultRouteCaptureOwned lookup lookupDefault owned runtime ipv6Enabled w = (Ok plan, w') ->
  exists owners : gmap addr string,
    (forall r, r ∈ pn_Bypasses plan -> ro_Scope r = "" /\ validSystemInterface (ro_Interface r) = true /\
       exists a, ro_Prefix r = host_text a /\ owners !! a = Some (ro_Interface r)) /\
    (forall name o, Outbounds runtime !! name = Some o -> OutType o = "direct" ->
       (forall s, s ∈ OutDNS o -> served ipv6Enabled (ap_addr s) = true ->
          owners !! ap_addr s = Some (Interface o) /\ leaves_by plan (ap_addr s) (Interface o)) /\
       (validSystemInterface (Interface o) = true -> forall b : bool, b ∈ families ipv6Enabled -> exists g,
          leaves_by plan (with_zone g "") (Interface o) /\
          forall p : prefix, p ∈ (if b : bool then ipv6CapturePrefixes else ipv4CapturePrefixes) -> scoped_route (Interface o) g p ∈ pn_Scoped plan)).
Proof.
  intros Hon H. unfold planDefaultRouteCaptureOwned in H. rewrite Hon in H. cbn [negb] in H.
  apply act_bind_Ok in H as (pg1 & w1 & Ho & H). apply act_bind_Ok in H as (pg2 & w2 & Hdn & H). injection H as <- _.
  apply plan_outbounds_ok in Ho as (H1 & He1 & Hdef); [|apply empty_planned].
  apply plan_dns_ok in Hdn as ([Hok Hsc] & He2 & Hdns); [|done|done].
  assert (Hleave : forall a i, loop_free pg2 a i ->
    leaves_by (MkPlan (sorted_values (pg_gateways pg2) ++ sorted_values (pg_dns pg2)) (sorted_values (pg_scoped pg2))
                 (ipv4CapturePrefixes ++ (if ipv6Enabled then ipv6CapturePrefixes else []))) a i).
  { intros a i [(r & Hr & Hp & Hi)|Hs]; [left|by right]. exists r. split; [|done]. apply elem_of_app. rewrite !sorted_values_elem. exact Hr. }
  exists (pg_owners pg2). split.
  - intros r. cbn [pn_Bypasses]. rewrite elem_of_app, !sorted_values_elem.
    intros [[k Hk]|[k Hk]]; [by apply (po_gateways _ Hok) in Hk as (_ & _ & Hr)|by apply (po_dns _ Hok) in Hk as (_ & Hr)].
  - intros name o Hname Ht. assert (Hin := outbounds_elem runtime name o Hname). split.
    + intros s Hs Hv. destruct (Hdns o s Hin Ht Hs Hv) as [Hf Hown]. split; [done|]. by apply Hleave.
    + intros Hi b Hb. destruct (Hsc (Interface o) b Hi) as (g & Hg & Hp).
      { apply (ex_defaults _ _ He2). by apply Hdef. }
      exists g. split; [apply Hleave; by eapply po_defaults|]. intros p Hpin. apply sorted_values_elem. by apply Hp.
Qed.
End planning.

(** ** The check after the installation *)

Definition route_answer (destination gateway : string) : result command_error string :=
  Ok ("destination: " +:+ destination +:+ String "010" "" +:+ "interface: en0" +:+ String "010" "" +:+ "gateway: " +:+ gateway).

(** A host behind the gateway 192.168.1.1: the answers to lookups on [en0],
    before and after the routes of the plan were installed. *)
Definition demo_routes (executable : string) (args : list string) (installed : bool) : result command_error string * bool :=
  (if bool_decide ("192.168.1.1" ∈ args) then route_answer (if installed then "192.168.1.1" else "192.168.1.0") "link#4"
   else route_answer "default" "192.168.1.1", installed).

(** One outbound on [en0] that takes its servers from the lease, with
    223.5.5.5 as the configured fallback. *)
Definition demo_outbound : Outbound := MkOutbound "direct" "direct" "en0" "dhcp" [AddrPort (Addr4 0xDF050505) 53] 0 "".

Definition demo_capture : Config :=
  MkConfig 1 (MkLog "info" "text") (MkSystem "/var/run/tun-proxy.state" "/var/run/tun-proxy.lock" true) (MkCapture true)
    (MkTUN (Addr4 0x0A0A0001) (Addr4 0x0A0A0002) AddrZero AddrZero 1500 256 64)
    (MkFakeIP (prefix_from (Addr4 0xC6120000) 15) 1 60 100 "" []) None
    (ConfigTypes.MkDNS (AddrPort (Addr4 0x7F000001) 53) true true "direct" 64)
    (MkSessions 16 1 16 16) {[ "direct" := demo_outbound ]} [].

(** The lease names the gateway as the server. *)
Definition demo_effective : Config := runtimeWithInterfaceDNS demo_capture {[ "en0" := [AddrPort (Addr4 0xC0A80101) 53] ]}.

Definition demo_plan (owned : list RouteState) (runtime : Config) (installed : bool) : result go_error defaultRoutePlan :=
  (planDefaultRouteCaptureOwned (lookupRouteScoped demo_routes) (LookupDefaultRouteScoped demo_routes) owned runtime false installed).1.

Definition demo_host (installed : bool) : host bool :=
  MkHost (MkWorld ∅ [] 0 [] []) installed (NewState 42 1000 "sha256:00") true no_parts [].

(** With capture and servers from a lease a start fails.  [Run] and
    [installServiceRoutes] plan with the servers of the lease and check with
    the configured ones.  On a host whose lease names another server than the
    configuration, planning again for the effective configuration gives the
    installed plan, but the check plans a host route for the configured server
    and reports that the plan changed. *)
Theorem capture_check_ignores_leases :
  exists plan, demo_plan [] demo_effective false = Ok plan /\
    (exists again, demo_plan (pn_Bypasses plan) demo_effective true = Ok again /\ plan_equal plan again = true) /\
    is_ok (verify_plan demo_routes demo_effective false plan (demo_host true)).1 = true /\
    is_ok (verify_plan demo_routes demo_capture false plan (demo_host true)).1 = false.
Proof. by (eexists; split; [vm_compute; reflexivity|]; split; [eexists; split; [vm_compute; reflexivity|by vm_compute]|split; by vm_compute]). Qed.

(** The lookups of the host name only valid interfaces. *)
Lemma scoped_lookup_named {W} run a i (w : W) r : (lookupRouteScoped run a i w).1 = Ok r -> validSystemInterface i = true.
Proof.
  unfold lookupRouteScoped. destruct (_ || _); [done|]. destruct (validSystemInterface i); [done|]. by cbn.
Qed.

Definition demo_answer (a : addr) (i : string) : result go_error RouteLookup := (lookupRouteScoped demo_routes a i false).1.

(** The same host while it is planned for: the answers do not change. *)
Definition demo_static : string -> list string -> bool -> result command_error string * bool := fun e args _ => demo_routes e args false.

Lemma demo_static_stable a i w : (lookupRouteScoped demo_static a i w).1 = demo_answer a i.
Proof.
  unfold demo_answer, lookupRouteScoped, demo_static. destruct (_ || _); [done|]. destruct (negb _); [done|]. done.
Qed.

Lemma plan_avoids_loops_witness :
  let plan := MkPlan [MkRoute "192.168.1.1/32" "en0" "" ""]
    [MkRoute "0.0.0.0/1" "en0" "192.168.1.1" "en0"; MkRoute "128.0.0.0/1" "en0" "192.168.1.1" "en0"] ipv4CapturePrefixes in
  exists owners : gmap addr string, owners !! Addr4 0xC0A80101 = Some "en0" /\ leaves_by demo_answer plan (Addr4 0xC0A80101) "en0".
Proof.
  intros plan.
  destruct (plan_avoids_loops (lookupRouteScoped demo_static) (LookupDefaultRouteScoped demo_static) [] demo_answer
    demo_static_stable (fun a i r => scoped_lookup_named demo_routes a i false r) demo_effective false false false plan eq_refl) as (owners & _ & Hall).
  - by vm_compute.
  - exists owners. destruct (Hall "direct" (effective_outbound {[ "en0" := [AddrPort (Addr4 0xC0A80101) 53] ]} demo_outbound)) as [Hs _].
    + by vm_compute.
    + by vm_compute.
    + apply (Hs (AddrPort (Addr4 0xC0A80101) 53)); [vm_compute; by left|by vm_compute].
Defined.
