(* ===== verification/Run.v ===== *)
(** * Component [internal/app]: the life of a run

    [Run] of [run_darwin.go] from the process lock on: starting in order,
    finishing whatever was started, and [CleanupWithStatusOwners] of
    [cleanup_darwin.go] after a crash.  Sockets, goroutines and locks appear as
    the results their calls return. *)

From S2P Require Import Prelude.
From S2P Require Import GoStrings.
From S2P Require Import GoFiles.
From S2P Require Import NetIP.
From S2P Require Import ConfigTypes.
From S2P Require Import Outbound.
From S2P Require Import HostState.
From S2P Require Import HostRoutes.
From S2P Require Import HostDNS.
From S2P Require Import DefaultRoutes.
From S2P Require Import Tun.
From S2P Require Import RunHost.

(** What the calls outside the model return: the native device with its name,
    the listeners of Fake DNS and whether they stopped at once or later, and
    the status socket. *)
Record startup (W : Type) : Type := MkStartup {
  su_factory : act W go_error unit;
  su_name : result go_error string;
  su_close : option go_error;
  su_dns : option go_error;
  su_stopped : option (option go_error);
  su_status : option go_error;
  su_stopped_late : option (option go_error)
}.
Arguments MkStartup {W} _ _ _ _ _ _ _.
Arguments su_factory {W} _.
Arguments su_name {W} _.
Arguments su_close {W} _.
Arguments su_dns {W} _.
Arguments su_stopped {W} _.
Arguments su_status {W} _.
Arguments su_stopped_late {W} _.

(** What closing returns.  The results of the pumps are errors or the end of
    the wait for them. *)
Record closings : Type := MkClosings {
  cl_status : option go_error;
  cl_flush4 : option go_error;
  cl_flush6 : option go_error;
  cl_dns : option go_error;
  cl_device : option go_error;
  cl_pump : option go_error;
  cl_output : option go_error;
  cl_stack : option go_error;
  cl_lock : option go_error
}.

Definition status_path (runtime : Config) : string := StateFile (CSystem runtime) +:+ ".sock".

(** The TUN settings without a working IPv6 path. *)
Definition tun_settings (runtime : Config) (ipv6Enabled : bool) : TUN :=
  let t := CTUN runtime in
  if ipv6Enabled then t
  else MkTUN (Address t) (Peer t) AddrZero AddrZero (MTU t) (PacketQueue t) (ConfigTypes.BufferPool t).

Section run.
Context {W : Type} (run : string -> list string -> W -> result command_error string * W) (json_encode : State -> option string)
  (json_decode : string -> option State) (itoa : Z -> string).

Notation M := (act (host W) go_error).
Notation persist := (persist (W := W) json_encode).

Definition set_device (d : option string) (p : parts) : parts := MkParts d (pt_dns p) (pt_status p) (pt_pump p) (pt_output p).
Definition set_serving (b : bool) (p : parts) : parts := MkParts (pt_device p) b (pt_status p) (pt_pump p) (pt_output p).
Definition set_status_server (b : bool) (p : parts) : parts := MkParts (pt_device p) (pt_dns p) b (pt_pump p) (pt_output p).
Definition set_pumps (b : bool) (p : parts) : parts := MkParts (pt_device p) (pt_dns p) (pt_status p) b b.

Definition fail_with {A} (e : option go_error) (k : M A) : M A := match e with Some e => act_fail e | None => k end.

(** [createWithFactory]: a device that cannot be configured is closed. *)
Definition createWithFactory (env : startup W) (settings : TUN) : M string :=
  let or_close {A} (m : M A) : M A := fun h =>
    match m h with
    | (Err e, h) =>
        let '(_, h) := log DeviceClosed h in
        (Err (match su_close env with Some c => EWrap "additionally close" e | None => e end), h)
    | (Ok a, h) => (Ok a, h)
    end in
  act! _ := on_net (act_wrap (EWrap "create utun") (su_factory env)) in
  act! _ := log DeviceOpened in
  act! name := (match su_name env with
                | Ok name => act_ret name
                | Err e => act! _ := log DeviceClosed in act_fail (EWrap "read utun name" e)
                end) in
  act! _ := or_close (on_net (ConfigureTUN run itoa name (Address settings) (Peer settings) (MTU settings))) in
  act! _ := (if addr_valid (IPv6Address settings)
             then or_close (on_net (ConfigureTUNIPv6 run name (IPv6Address settings) (IPv6Peer settings)))
             else act_ret tt) in
  act_ret name.

Definition stopped_error (e : option go_error) : go_error :=
  match e with Some e => e | None => failure "Fake DNS stopped unexpectedly" end.

(** [Run] between the first record and the main loop; an error goes to
    [finish]. *)
Definition start_run (env : startup W) (interfaces : string -> option interface_view) (runtime : Config) (ipv6Enabled : bool)
    (defaultRoutes : defaultRoutePlan) : M unit :=
  let path := StateFile (CSystem runtime) in
  act! name := createWithFactory env (tun_settings runtime ipv6Enabled) in
  act! _ := set_parts (set_device (Some name)) in
  act! _ := set_state (set_tun name) in
  act! _ := persist path in
  act! _ := installServiceRoutes run json_encode path runtime name ipv6Enabled defaultRoutes in
  act! _ := act_of (NewBufferPool (PacketOffset + MTU (CTUN runtime) + 256) (ConfigTypes.BufferPool (CTUN runtime))) in
  act! _ := set_parts (set_pumps true) in
  act! _ := fail_with (su_dns env) (act_ret tt) in
  act! _ := log DNSServing in
  act! _ := set_parts (set_serving true) in
  act! _ := fail_with (stopped_error <$> su_stopped env) (act_ret tt) in
  act! _ := manage_dns run json_encode path interfaces runtime in
  act! _ := fail_with (su_status env) (act_ret tt) in
  act! _ := set_parts (set_status_server true) in
  act! _ := set_state (fun s => set_phase "running" (set_status (status_path runtime) s)) in
  act! _ := persist path in
  fail_with (stopped_error <$> su_stopped_late env) (act_ret tt).

(** ** Finishing *)

(** One step of [finish]. *)
Definition finishing : Type := list go_error * host W.

Definition failed (what : string) (e : option go_error) (f : finishing) : finishing :=
  match e with Some e => (f.1 ++ [EWrap what e], f.2) | None => f end.

Definition persist_if_exists (path what : string) (f : finishing) : finishing :=
  if h_exists f.2 then collect f.1 (EWrap what) (persist path) f.2 else f.

Definition change (m : M unit) (f : finishing) : finishing := (f.1, (m f.2).2).

Definition finish_status (path : string) (c : closings) (f : finishing) : finishing :=
  if pt_status (h_parts f.2) then
    let f := failed "stop runtime status" (cl_status c) f in
    let f := change (set_parts (set_status_server false)) f in
    let f := change (set_state (set_status "")) f in
    persist_if_exists path "persist status cleanup" f
  else f.

Definition finish_phase (path : string) (f : finishing) : finishing :=
  if h_exists f.2 then persist_if_exists path "persist stopping state" (change (set_state (set_phase "stopping")) f) else f.

Definition finish_dns (path : string) (f : finishing) : finishing :=
  if bool_decide (st_DNS (h_state f.2) = []) then f
  else
    let '(e, h) := restore_dns run f.2 in
    persist_if_exists path "persist DNS rollback" (failed "restore system DNS" e (f.1, h)).

Definition finish_serving (c : closings) (f : finishing) : finishing :=
  if pt_dns (h_parts f.2) then
    let f := change (log DNSStopped) f in
    change (set_parts (set_serving false)) (failed "stop Fake DNS" (cl_dns c) f)
  else f.

Definition finish_routes (path : string) (f : finishing) : finishing :=
  if h_exists f.2 && (bool_decide (is_Some (st_Route (h_state f.2))) || negb (bool_decide (st_Routes (h_state f.2) = []))) then
    let '(e, h) := removeRecordedRoutes run json_encode path f.2 in
    match e with Some e => (f.1 ++ [e], h) | None => (f.1, h) end
  else f.

Definition finish_device (c : closings) (f : finishing) : finishing :=
  match pt_device (h_parts f.2) with
  | Some _ => failed "close device" (cl_device c) (change (log DeviceClosed) f)
  | None => f
  end.

Definition finish_pumps (c : closings) (f : finishing) : finishing :=
  let f := if pt_pump (h_parts f.2) then match cl_pump c with Some e => (f.1 ++ [e], f.2) | None => f end else f in
  if pt_output (h_parts f.2) then match cl_output c with Some e => (f.1 ++ [e], f.2) | None => f end else f.

(** [RemoveState], when nothing failed. *)
Definition remove_record (path : string) (f : finishing) : option go_error * host W :=
  match errors_join f.1 with
  | Some e => (Some e, f.2)
  | None =>
      if h_exists f.2 then
        let h := f.2 in
        let '(r, files) := RemoveState json_decode path (h_files h) in
        let h := MkHost files (h_net h) (h_state h) (h_exists h) (h_parts h) (h_log h ++ [(RecordRemoved (is_ok r), files)]) in
        (match r with Ok _ => None | Err e => Some (state_failure e) end, h)
      else (None, f.2)
  end.

(** [errors.Join] of two errors that may be nil. *)
Definition join_two (a b : option go_error) : option go_error :=
  errors_join (match a with Some e => [e] | None => [] end ++ match b with Some e => [e] | None => [] end).

(** The closure [finish] of [Run]. *)
Definition finish (path : string) (c : closings) (primary : option go_error) (h : host W) : option go_error * host W :=
  let f := finish_status path c ([], h) in
  let f := failed "flush Fake IP persistence" (cl_flush4 c) f in
  let f := failed "flush Fake IPv6 persistence" (cl_flush6 c) f in
  let f := finish_phase path f in
  let f := finish_dns path f in
  let f := finish_serving c f in
  let f := finish_routes path f in
  let f := finish_device c f in
  let f := finish_pumps c f in
  let f := match cl_stack c with Some e => (f.1 ++ [e], f.2) | None => f end in
  let f := failed "release process lock" (cl_lock c) f in
  let '(e, h) := remove_record path f in
  (join_two primary e, h).

(** ** The state of a new run *)

(** The state when the lock is held. *)
Definition first_state (pid now : Z) (digest : string) (runtime : Config) : State :=
  set_lock (LockFile (CSystem runtime)) (NewState pid now digest).

Definition new_host (files : world) (net : W) (s : State) : host W := MkHost files net s false no_parts [].

(** ** Recovery after a crash *)

(** What the process lock says. *)
Inductive stale_lock : Type := LockHeld | LockBroken (e : go_error) | LockClaimed | LockMissing.

(** What [kill(pid, 0)] says of the recorded process. *)
Inductive process_check : Type := ProcessAlive | ProcessGone | ProcessUnknown (e : go_error).

Record recovery : Type := MkRecovery {
  rv_lock : stale_lock;
  rv_process : process_check;
  rv_status : option go_error;
  rv_interface : string -> bool;
  rv_release : option go_error
}.

(** Marking the clean-up and the end of the status server. *)
Definition mark_cleaning (rv : recovery) (path : string) : M unit :=
  act! _ := set_state (set_phase "cleaning") in
  act! _ := act_wrap (EWrap "mark cleanup in state file") (persist path) in
  act! _ := fail_with (EWrap "status cleanup incomplete" <$> rv_status rv) (act_ret tt) in
  act! _ := set_state (set_status "") in
  act_wrap (EWrap "persist status cleanup progress") (persist path).

(** After the routes: the device, the lock and the record. *)
Definition release_record (rv : recovery) (path : string) (h : host W) : option go_error * host W :=
  if negb (bool_decide (st_TUNName (h_state h) = "")) && rv_interface rv (st_TUNName (h_state h))
  then (Some (failure "recorded interface still exists"), h)
  else
    match rv_release rv with
    | Some e => (Some (EWrap "lock cleanup incomplete" e), h)
    | None => remove_record path ([], h)
    end.

(** Undoing what is recorded, once no instance can be running. *)
Definition cleanup_recorded (rv : recovery) (path : string) (h : host W) : option go_error * host W :=
  match mark_cleaning rv path h with
  | (Err e, h) => (Some e, h)
  | (Ok _, h) =>
      let '(dnsErr, h) := restore_dns run h in
      match persist path h with
      | (Err e, h) => (join_two dnsErr (Some (EWrap "persist DNS cleanup progress" e)), h)
      | (Ok _, h) =>
          match dnsErr with
          | Some e => (Some (EWrap "DNS cleanup incomplete" e), h)
          | None =>
              match removeRecordedRoutes run json_encode path h with
              | (Some e, h) => (Some (EWrap "route cleanup incomplete" e), h)
              | (None, h) => release_record rv path h
              end
          end
      end
  end.

(** [CleanupWithStatusOwners] for root. *)
Definition Cleanup (rv : recovery) (path : string) (h : host W) : option go_error * host W :=
  let '(r, files) := ReadState json_decode path (h_files h) in
  let h := MkHost files (h_net h) (h_state h) (h_exists h) (h_parts h) (h_log h) in
  match r with
  | Err StateNotExist => (None, h)
  | Err e => (Some (state_failure e), h)
  | Ok s =>
      let h := MkHost files (h_net h) s true (h_parts h) (h_log h) in
      match rv_lock rv with
      | LockHeld => (Some (failure "refuse cleanup: recorded instance lock is still held"), h)
      | LockBroken e => (Some (EWrap "inspect recorded instance lock" e), h)
      | LockClaimed => cleanup_recorded rv path h
      | LockMissing =>
          match rv_process rv with
          | ProcessAlive => (Some (failure "refuse cleanup: recorded process may still be running"), h)
          | ProcessUnknown e => (Some (EWrap "check recorded process" e), h)
          | ProcessGone => cleanup_recorded rv path h
          end
      end
  end.
End run.
