(* ===== verification/RunFacts.v ===== *)
(** * Component [internal/app]: every change of the host is on record

    The invariant of a run: what was changed and not put back is listed in the
    state in memory and in the state file, at every moment a crash could
    happen. *)

From S2P Require Import Prelude.
From S2P Require Import GoStrings.
From S2P Require Import GoFiles.
From S2P Require Import NetIP.
From S2P Require Import ConfigTypes.
From S2P Require Import Outbound.
From S2P Require Import HostState.
From S2P Require Import HostRoutes.
From S2P Require Import HostDNS.
From S2P Require Import DefaultRoutes.
From S2P Require Import RunHost.
From S2P Require Import Run.

(** ** What is outstanding *)

(** The routes that were added and are not known to be gone. *)
Definition route_event (acc : list RouteState) (e : host_event) : list RouteState :=
  match e with
  | AddingRoute r => acc ++ [r]
  | RouteGone r => filter (fun x => x <> r) acc
  | _ => acc
  end.

Definition outstanding_routes (evs : list host_event) : list RouteState := fold_left route_event evs [].

(** The services whose servers were replaced and not put back. *)
Definition dns_event (acc : list DNSState) (e : host_event) : list DNSState :=
  match e with
  | ApplyingDNS states => acc ++ states
  | RestoredDNS states remaining => filter (fun d => d ∉ states \/ d ∈ remaining) acc
  | _ => acc
  end.

Definition outstanding_dns (evs : list host_event) : list DNSState := fold_left dns_event evs [].

Definition recorded (s : State) (r : RouteState) : Prop := st_Route s = Some r \/ r ∈ st_Routes s.

(** A state lists everything outstanding. *)
Definition covers (s : State) (evs : list host_event) : Prop :=
  (forall r, r ∈ outstanding_routes evs -> recorded s r) /\ (forall d, d ∈ outstanding_dns evs -> d ∈ st_DNS s).

Definition settled (evs : list host_event) : Prop := outstanding_routes evs = [] /\ outstanding_dns evs = [].

Lemma routes_snoc evs e : outstanding_routes (evs ++ [e]) = route_event (outstanding_routes evs) e.
Proof. unfold outstanding_routes. by rewrite fold_left_app. Qed.

Lemma dns_snoc evs e : outstanding_dns (evs ++ [e]) = dns_event (outstanding_dns evs) e.
Proof. unfold outstanding_dns. by rewrite fold_left_app. Qed.

Lemma settled_covers s evs : settled evs -> covers s evs.
Proof. intros [Hr Hd]. split; [rewrite Hr|rewrite Hd]; intros x Hx; by apply not_elem_of_nil in Hx. Qed.

(** An event that changes nothing outstanding. *)
Definition silent (e : host_event) : bool :=
  match e with AddingRoute _ | RouteGone _ | ApplyingDNS _ | RestoredDNS _ _ => false | _ => true end.

Lemma covers_silent s evs e : silent e = true -> covers s (evs ++ [e]) <-> covers s evs.
Proof. intros He. unfold covers. rewrite routes_snoc, dns_snoc. by destruct e. Qed.

Lemma settled_silent evs e : silent e = true -> settled (evs ++ [e]) <-> settled evs.
Proof. intros He. unfold settled. rewrite routes_snoc, dns_snoc. by destruct e. Qed.

Lemma covers_gone s evs r : covers s evs -> covers s (evs ++ [RouteGone r]).
Proof.
  intros [Hr Hd]. split; rewrite ?routes_snoc, ?dns_snoc; cbn; [|done]. intros x [_ Hx]%list_elem_of_filter. by apply Hr.
Qed.

Lemma covers_restored s evs states remaining : covers s evs -> covers s (evs ++ [RestoredDNS states remaining]).
Proof.
  intros [Hr Hd]. split; rewrite ?routes_snoc, ?dns_snoc; cbn; [done|]. intros x [_ Hx]%list_elem_of_filter. by apply Hd.
Qed.

Lemma covers_adding s evs r : covers s evs -> recorded s r -> covers s (evs ++ [AddingRoute r]).
Proof.
  intros [Hr Hd] Hrec. split; rewrite ?routes_snoc, ?dns_snoc; cbn; [|done].
  intros x [Hx|Hx]%elem_of_app; [by apply Hr|]. by apply list_elem_of_singleton in Hx as ->.
Qed.

Lemma covers_applying s evs states :
  covers s evs -> (forall d, d ∈ states -> d ∈ st_DNS s) -> covers s (evs ++ [ApplyingDNS states]).
Proof.
  intros [Hr Hd] Hs. split; rewrite ?routes_snoc, ?dns_snoc; cbn; [done|].
  intros x [Hx|Hx]%elem_of_app; [by apply Hd|by apply Hs].
Qed.

(** A state that lists at least as much. *)
Lemma covers_mono s s' evs :
  covers s evs -> (forall r, recorded s r -> recorded s' r) -> (forall d, d ∈ st_DNS s -> d ∈ st_DNS s') -> covers s' evs.
Proof. intros [Hr Hd] Hs Hd'. split; auto. Qed.

Section record.
Context {W : Type} (run : string -> list string -> W -> result command_error string * W) (json_encode : State -> option string)
  (json_decode : string -> option State) (itoa : Z -> string) (path : string).
Context (path_ok : not_temporary path).

(** JSON renders the states that were written so that they read back. *)
Definition faithful (l : list (host_event * world)) : Prop :=
  forall s ok w c, (Wrote s ok, w) ∈ l -> json_encode s = Some c -> json_decode c = Some s /\ slen c <= maxStateSize.

Definition events (l : list (host_event * world)) : list host_event := l.*1.

Lemma events_snoc l e w : events (l ++ [(e, w)]) = events l ++ [e].
Proof. unfold events. by rewrite fmap_app. Qed.

(** The state file lists everything outstanding. *)
Definition disk_covers (w : world) (evs : list host_event) : Prop :=
  settled evs \/ exists s, reads json_decode path w = Ok s /\ covers s evs.

(** After each call of the log. *)
Definition log_ok (l : list (host_event * world)) : Prop :=
  forall l1 e w l2, l = l1 ++ (e, w) :: l2 -> disk_covers w (events (l1 ++ [(e, w)])).

(** The invariant.  Before the first record nothing is outstanding. *)
Record invariant (h : host W) : Prop := {
  iv_memory : covers (h_state h) (events (h_log h));
  iv_disk : disk_covers (h_files h) (events (h_log h));
  iv_fresh : h_exists h = false -> settled (events (h_log h));
  iv_log : log_ok (h_log h)
}.

Definition good (h : host W) : Prop := faithful (h_log h) -> invariant h.

(** The record on disk is the state in memory. *)
Definition synced (h : host W) : Prop := faithful (h_log h) -> reads json_decode path (h_files h) = Ok (h_state h).

Lemma faithful_snoc l x : faithful (l ++ [x]) -> faithful l.
Proof. intros H s ok w c Hin. apply (H s ok w). apply elem_of_app. by left. Qed.

Lemma log_ok_snoc l e w : log_ok l -> disk_covers w (events (l ++ [(e, w)])) -> log_ok (l ++ [(e, w)]).
Proof.
  intros Hl Hd l1 e1 w1 l2 Heq. destruct l2 as [|y l2 _] using rev_ind.
  - apply app_inj_tail in Heq as [<- [= <- <-]]. done.
  - rewrite app_comm_cons, app_assoc in Heq. apply app_inj_tail in Heq as [-> _]. by eapply Hl.
Qed.

Lemma disk_covers_silent w evs e : silent e = true -> disk_covers w (evs ++ [e]) <-> disk_covers w evs.
Proof. intros He. unfold disk_covers. by setoid_rewrite (covers_silent _ _ _ He); rewrite settled_silent. Qed.

(** ** Steps *)

Definition P (h : host W) : Prop := good h /\ h_exists h = true.

Definition keeps {A} (m : act (host W) go_error A) : Prop := act_triple P m (fun _ => P).

Lemma keeps_bind {A B} (m : act (host W) go_error A) (f : A -> act (host W) go_error B) :
  keeps m -> (forall a, keeps (f a)) -> keeps (act_bind m f).
Proof. intros Hm Hf. by eapply act_triple_bind. Qed.

Lemma keeps_ret {A} (a : A) : keeps (act_ret a).
Proof. by apply act_triple_ret. Qed.

Lemma keeps_fail {A} e : keeps (act_fail (A := A) e).
Proof. by apply act_triple_fail. Qed.

Lemma keeps_of {A} (r : result go_error A) : keeps (act_of r).
Proof. by apply act_triple_of. Qed.

Lemma keeps_fail_with {A} e (k : act (host W) go_error A) : keeps k -> keeps (fail_with e k).
Proof. intros Hk. destruct e; [apply keeps_fail|done]. Qed.

Lemma keeps_wrap {A} f (m : act (host W) go_error A) : keeps m -> keeps (act_wrap f m).
Proof. intros Hm. apply act_triple_wrap. intros h Hh. specialize (Hm h Hh). by destruct (m h) as [[]]. Qed.

Lemma keeps_net {A} (m : act W go_error A) : keeps (on_net m).
Proof. intros h [Hg He]. unfold on_net. destruct (m (h_net h)) as [r w]. split; [|done]. intros Hf. by destruct (Hg Hf). Qed.

Lemma keeps_parts f : keeps (set_parts f).
Proof. intros h [Hg He]. split; [|done]. intros Hf. by destruct (Hg Hf). Qed.

Lemma good_state f h :
  (forall r, recorded (h_state h) r -> recorded (f (h_state h)) r) -> (forall d, d ∈ st_DNS (h_state h) -> d ∈ st_DNS (f (h_state h))) ->
  P h -> P (set_state f h).2.
Proof.
  intros Hr Hd [Hg He]. split; [|done]. intros Hf. destruct (Hg Hf) as [Hm Hk Hfr Hl]. split; try done. cbn.
  by apply covers_mono with (h_state h).
Qed.

Lemma keeps_state f :
  (forall s r, recorded s r -> recorded (f s) r) -> (forall s d, d ∈ st_DNS s -> d ∈ st_DNS (f s)) -> keeps (set_state f).
Proof. intros Hr Hd h Hh. apply good_state; auto. Qed.

(** Logging an event, with what it needs to hold. *)
Lemma good_log e h :
  P h -> (faithful (h_log h) -> invariant h -> covers (h_state h) (events (h_log h) ++ [e]) /\
          disk_covers (h_files h) (events (h_log h) ++ [e])) ->
  P (log e h).2.
Proof.
  intros [Hg He] Hn. split; [|done]. intros Hf. cbn in Hf. apply faithful_snoc in Hf.
  pose proof (Hg Hf) as Hi. destruct (Hn Hf Hi) as [Hc Hd]. destruct Hi as [_ _ _ Hl].
  unfold log. cbn. split; cbn.
  - by rewrite events_snoc.
  - by rewrite events_snoc.
  - by rewrite He.
  - apply log_ok_snoc; [done|]. by rewrite events_snoc.
Qed.

Lemma keeps_log e : silent e = true -> keeps (log e).
Proof.
  intros He h Hh. apply good_log; [done|]. intros _ [Hm Hd _ _].
  split; [by apply covers_silent|by apply disk_covers_silent].
Qed.

Lemma persist_good h :
  good h ->
  let '(r, h') := persist json_encode path h in
  good h' /\ h_exists h' = h_exists h /\ h_state h' = h_state h /\ h_parts h' = h_parts h /\ h_net h' = h_net h /\ (is_ok r = true -> synced h').
Proof.
  intros Hg. unfold persist. destruct (WriteState json_encode path (h_state h) (h_files h)) as [r files] eqn:Hw.
  assert (Hdec : faithful (h_log h ++ [(Wrote (h_state h) (is_ok r), files)]) ->
    (reads json_decode path files = reads json_decode path (h_files h) \/ reads json_decode path files = Ok (h_state h)) /\
    (r = Ok tt -> reads json_decode path files = Ok (h_state h))).
  { intros Hf. apply (WriteState_reads json_encode json_decode path (h_state h) (h_files h)); [done| |done].
    intros c Hc. apply (Hf (h_state h) (is_ok r) files c); [|done]. apply elem_of_app. right. by left. }
  split; [|do 4 (split; [done|])].
  - intros Hf. cbn in Hf. destruct (Hdec Hf) as [Hor _]. destruct (Hg (faithful_snoc _ _ Hf)) as [Hm Hd Hfr Hl].
    assert (Hd' : disk_covers files (events (h_log h))).
    { destruct Hd as [Hs|(s & Hs & Hc)]; [by left|]. right. destruct Hor as [Heq|Heq].
      - exists s. by rewrite Heq.
      - by exists (h_state h). }
    split; cbn.
    + rewrite events_snoc. by apply covers_silent.
    + rewrite events_snoc. by apply disk_covers_silent.
    + intros Hne. rewrite events_snoc. by apply settled_silent, Hfr.
    + apply log_ok_snoc; [done|]. rewrite events_snoc. by apply disk_covers_silent.
  - intros Hr Hf. apply (Hdec Hf). destruct r as [[]|]; done.
Qed.

Lemma keeps_persist : keeps (persist json_encode path).
Proof.
  intros h [Hg He]. pose proof (persist_good h Hg) as H. destruct (persist json_encode path h) as [r h'].
  destruct H as (Hg' & He' & _). split; [done|]. cbn. by rewrite He'.
Qed.

(** An event that the state in memory covers, right after it was written. *)
Lemma persist_then_log e {A} (k : act (host W) go_error A) h :
  P h -> (forall evs, covers (h_state h) evs -> covers (h_state h) (evs ++ [e])) -> keeps k ->
  P (act_bind (persist json_encode path) (fun _ => act_bind (log e) (fun _ => k)) h).2.
Proof.
  intros [Hg He] Hc Hk. pose proof (persist_good h Hg) as H. unfold act_bind at 1.
  destruct (persist json_encode path h) as [[[]|er] h']; destruct H as (Hg' & He' & Hst & _ & _ & Hsync);
    [|by split; [|cbn; rewrite He']].
  assert (HP : P h') by (split; [done|by rewrite He']).
  assert (HP2 : P (log e h').2).
  { apply good_log; [done|]. intros Hf [Hm _ _ _]. rewrite Hst in Hm |- *. split; [by apply Hc|].
    right. exists (h_state h). split; [|by apply Hc]. rewrite <- Hst. by apply Hsync. }
  unfold act_bind. destruct (log e h') as [[[]|er] h''] eqn:Hl; [|done]. by apply Hk.
Qed.

Lemma install_route_keeps route legacy h :
  P h -> (legacy = true -> st_Route (h_state h) = None) -> P (install_route run json_encode path route legacy h).2.
Proof.
  intros Hh Hleg. unfold install_route.
  set (f := fun s : State => if legacy then set_route (Some route) s else set_routes (st_Routes s ++ [route]) s).
  assert (Hrec : recorded (f (h_state h)) route).
  { unfold f. destruct legacy; [by left|]. right. apply elem_of_app. right. by left. }
  assert (Hmono : forall r, recorded (h_state h) r -> recorded (f (h_state h)) r).
  { unfold f. intros r [Hr|Hr]; destruct legacy.
    - by rewrite Hleg in Hr.
    - by left.
    - by right.
    - right. apply elem_of_app. by left. }
  change (act_bind (set_state f) ?k h) with (k tt (set_state f h).2).
  apply persist_then_log.
  - apply good_state; [done| |done]. intros d Hd. unfold f. by destruct legacy.
  - intros evs Hc. by apply covers_adding.
  - apply keeps_bind; [apply keeps_net|]. intros _. apply keeps_net.
Qed.

Lemma keeps_install_all routes : keeps (install_all run json_encode path routes).
Proof.
  induction routes as [|route routes IH]; [apply keeps_ret|]. apply keeps_bind; [|done].
  intros h Hh. by apply install_route_keeps.
Qed.

Lemma keeps_verify_plan runtime ipv6Enabled plan : keeps (verify_plan run runtime ipv6Enabled plan).
Proof.
  unfold verify_plan. destruct (DefaultRoute _); [|apply keeps_ret]. intros h Hh.
  match goal with |- context [on_net ?m h] => pose proof (keeps_net m h Hh) as Hn; destruct (on_net m h) as [[v|e] h'] end; [|done].
  by destruct (plan_equal plan v).
Qed.

Lemma installServiceRoutes_keeps runtime tunName ipv6Enabled plan h :
  P h -> st_Route (h_state h) = None -> P (installServiceRoutes run json_encode path runtime tunName ipv6Enabled plan h).2.
Proof.
  intros Hh Hr. unfold installServiceRoutes.
  apply (act_triple_bind (fun h => P h /\ st_Route (h_state h) = None) _ _ (fun _ => P) (fun _ => P)); [| |done|done].
  - intros h1 [H1 H2]. by apply install_route_keeps.
  - intros _. apply keeps_bind; [|intros _; apply keeps_bind; [apply keeps_install_all|intros _; apply keeps_verify_plan]].
    destruct ipv6Enabled; [|apply keeps_ret]. destruct (CFakeIPv6 runtime); [|apply keeps_fail].
    intros h1 H1. by apply install_route_keeps.
Qed.

Lemma keeps_manage_dns interfaces runtime : 
  act_triple (fun h => P h /\ st_DNS (h_state h) = []) (manage_dns run json_encode path interfaces runtime) (fun _ => P).
Proof.
  unfold manage_dns. destruct (ManageDNS _); [|intros h [Hh _]; exact Hh].
  eapply (act_triple_bind _ _ _ (fun _ h => P h /\ st_DNS (h_state h) = [])).
  - intros h [Hh Hd]. pose proof (keeps_net (SnapshotDNS run interfaces (ap_addr (Listen (CDNS runtime)))) h Hh) as Hk.
    unfold on_net in *. destruct (SnapshotDNS _ _ _ _) as [r w]. done.
  - intros snapshot. eapply (act_triple_bind _ _ _ (fun _ h => P h /\ st_DNS (h_state h) = [])); [by apply act_triple_of| |by intros e h []].
    intros planned h [Hh Hd].
    match goal with |- context [act_bind (set_state ?f) ?k h] => change (act_bind (set_state f) k h) with (k tt (set_state f h).2) end.
    apply persist_then_log.
    + apply good_state; [by intros r Hr|by rewrite Hd; intros d Hd'%not_elem_of_nil|done].
    + intros evs Hc. by apply covers_applying.
    + apply keeps_net.
  - by intros e h [].
Qed.

(** ** Undoing *)

Lemma collect_P {A} failures f (m : act (host W) go_error A) h :
  keeps m -> P h -> P (collect failures f m h).2 /\ ((collect failures f m h).1 = [] -> failures = []).
Proof.
  intros Hm Hh. unfold collect. pose proof (Hm h Hh) as H. destruct (m h) as [[a|e] h']; cbn in *; [done|].
  split; [done|]. by destruct failures.
Qed.

Lemma remove_route_spec route h :
  P h -> let '(r, h') := remove_route run route h in
  P h' /\ h_state h' = h_state h /\
  (is_ok r = true -> faithful (h_log h') -> route ∉ outstanding_routes (events (h_log h'))).
Proof.
  intros Hh. unfold remove_route, act_bind. pose proof (keeps_net (RemoveRoute run route) h Hh) as H.
  unfold on_net in *. destruct (RemoveRoute run route (h_net h)) as [[[]|e] w]; cbn in H; [|done].
  set (h1 := MkHost _ _ _ _ _ _) in *. split.
  - apply good_log; [done|]. intros _ [Hm Hd _ _]. split; [by apply covers_gone|].
    destruct Hd as [[Hr Hdn]|(s & Hs & Hc)].
    + left. split; rewrite ?routes_snoc, ?dns_snoc; cbn [route_event dns_event]; [by rewrite Hr|done].
    + right. exists s. split; [done|]. by apply covers_gone.
  - split; [done|]. intros _ _. cbn [h_log log snd]. rewrite events_snoc, routes_snoc. cbn [route_event].
    intros [Hne _]%list_elem_of_filter. done.
Qed.

Lemma remove_loop_spec todo kept failures h :
  P h -> st_Routes (h_state h) = rev todo ++ kept ->
  let '(fs, h') := remove_loop run json_encode path todo kept failures h in
  P h' /\ st_Route (h_state h') = st_Route (h_state h) /\ st_DNS (h_state h') = st_DNS (h_state h) /\
  (fs = [] -> failures = [] /\ st_Routes (h_state h') = kept).
Proof.
  revert kept failures h. induction todo as [|route todo IH]; intros kept failures h Hh Hr; cbn [remove_loop].
  { split; [done|]. split; [done|]. split; [done|]. by intros ->. }
  pose proof (remove_route_spec route h Hh) as Hrem. destruct (remove_route run route h) as [[[]|e] h1].
  - destruct Hrem as (HP1 & Hst & Hgone). cbn [rev] in Hr. rewrite <- app_assoc in Hr. cbn in Hr.
    assert (HP2 : P (set_state (set_routes (rev todo ++ kept)) h1).2).
    { destruct HP1 as [Hg He]. split; [|done]. intros Hf. destruct (Hg Hf) as [[Hmr Hmd] Hd Hfr Hl]. split; try done.
      split; cbn; [|done]. intros r Hout. destruct (Hmr r Hout) as [Hrec|Hrec]; [by left|]. right. cbn.
      rewrite Hst, Hr in Hrec. assert (r <> route) by (intros ->; by apply Hgone). set_solver. }
    unfold set_state at 1. cbn [snd] in HP2. set (h2 := MkHost _ _ _ _ _ _) in *.
    pose proof (collect_P failures (persist_failure "persist route rollback") _ h2 keeps_persist HP2) as [HP3 Hf3].
    pose proof (persist_good h2 (proj1 HP2)) as Hp.
    unfold collect in *. destruct (persist json_encode path h2) as [r h3]. destruct Hp as (_ & _ & Hst3 & _).
    assert (Hgo : forall fs, P h3 -> (fs = [] -> failures = []) ->
      let '(fs', h') := remove_loop run json_encode path todo kept fs h3 in
      P h' /\ st_Route (h_state h') = st_Route (h_state h) /\ st_DNS (h_state h') = st_DNS (h_state h) /\
      (fs' = [] -> failures = [] /\ st_Routes (h_state h') = kept)).
    { intros fs HP Hfs. specialize (IH kept fs h3 HP). rewrite Hst3 in IH. specialize (IH eq_refl).
      destruct (remove_loop _ _ _ _ _ _ _) as [fs' h']. destruct IH as (? & IHr & IHd & Hk).
      split; [done|]. split; [by rewrite IHr; cbn; rewrite Hst|]. split; [by rewrite IHd; cbn; rewrite Hst|].
      intros ->. destruct (Hk eq_refl) as [Hfs0 Hks]. split; [by apply Hfs|done]. }
    destruct r as [[]|e]; cbn in HP3, Hf3; apply Hgo; done.
  - destruct Hrem as (HP1 & Hst & _). specialize (IH (route :: kept) (failures ++ [EWrap "remove recorded route" e]) h1 HP1).
    rewrite Hst in IH. cbn [rev] in Hr. rewrite <- app_assoc in Hr. specialize (IH Hr).
    destruct (remove_loop _ _ _ _ _ _ _) as [fs' h']. destruct IH as (? & ? & ? & Hk). split_and!; try done.
    intros Hfs. destruct (Hk Hfs) as [Hf _]. by destruct failures.
Qed.

(** Nothing recorded is left. *)
Definition empty_record (s : State) : Prop := st_Routes s = [] /\ st_Route s = None /\ st_DNS s = [].

Lemma removeRecordedRoutes_spec h :
  P h -> let '(e, h') := removeRecordedRoutes run json_encode path h in
  P h' /\ st_DNS (h_state h') = st_DNS (h_state h) /\ (e = None -> st_Routes (h_state h') = [] /\ st_Route (h_state h') = None).
Proof.
  intros Hh. unfold removeRecordedRoutes.
  pose proof (remove_loop_spec (rev (st_Routes (h_state h))) [] [] h Hh) as H. rewrite rev_involutive, app_nil_r in H. specialize (H eq_refl).
  destruct (remove_loop _ _ _ _ _ _ _) as [failures h1]. destruct H as (HP1 & Hr1 & Hd1 & Hk1).
  destruct (st_Route (h_state h1)) as [route|] eqn:Hroute.
  - pose proof (remove_route_spec route h1 HP1) as Hrem. destruct (remove_route run route h1) as [[[]|e] h2].
    + destruct Hrem as (HP2 & Hst2 & Hgone).
      assert (HP3 : P (set_state (set_route None) h2).2).
      { destruct HP2 as [Hg He]. split; [|done]. intros Hf. destruct (Hg Hf) as [[Hmr Hmd] Hd Hfr Hl]. split; try done.
        split; cbn; [|done]. intros r Hout. destruct (Hmr r Hout) as [Hrec|Hrec]; [|by right].
        rewrite Hst2, Hroute in Hrec. injection Hrec as <-. by destruct (Hgone eq_refl Hf). }
      unfold set_state at 1. cbn [snd] in HP3. set (h3 := MkHost _ _ _ _ _ _) in *.
      pose proof (collect_P failures (persist_failure "persist route rollback") _ h3 keeps_persist HP3) as [HP4 Hf4].
      pose proof (persist_good h3 (proj1 HP3)) as Hp. unfold collect in *. destruct (persist json_encode path h3) as [r h4].
      destruct Hp as (_ & _ & Hst4 & _).
      destruct r as [[]|e]; cbn in HP4, Hf4; rewrite errors_join_None; (split; [done|]); rewrite Hst4; cbn; rewrite Hst2;
        (split; [done|]); intros Hfs; apply Hf4 in Hfs; by destruct (Hk1 Hfs).
    + destruct Hrem as (HP2 & Hst2 & _). rewrite errors_join_None. split; [done|]. split; [by rewrite Hst2|]. by destruct failures.
  - rewrite errors_join_None. split; [done|]. split; [done|]. intros Hfs. by destruct (Hk1 Hfs).
Qed.

Lemma restore_loop_spec states remaining failures w :
  let '((rest, fs), _) := restore_loop run states remaining failures w in
  (exists l, rest = remaining ++ l /\ forall d, d ∈ l -> d ∈ states) /\ (fs = [] -> failures = [] /\ rest = remaining).
Proof.
  revert remaining failures w. induction states as [|s states IH]; intros remaining failures w; cbn [restore_loop].
  { split; [|done]. exists []. rewrite app_nil_r. split; [done|]. by intros d ?%not_elem_of_nil. }
  destruct (restore_one run s w) as [[e|] w1].
  - specialize (IH (remaining ++ [s]) (failures ++ [e]) w1). destruct (restore_loop _ _ _ _ _) as [[rest fs] w2].
    destruct IH as [(l & -> & Hl) Hf]. split; [|intros H; destruct (Hf H) as [Hfs _]; by destruct failures].
    exists (s :: l). rewrite <- app_assoc. split; [done|]. intros d [->|Hd]%elem_of_cons; [by left|right; by apply Hl].
  - specialize (IH remaining failures w1). destruct (restore_loop _ _ _ _ _) as [[rest fs] w2].
    destruct IH as [(l & -> & Hl) Hf]. split; [|done]. exists l. split; [done|]. intros d Hd. right. by apply Hl.
Qed.

Lemma restore_dns_spec h :
  P h -> let '(e, h') := restore_dns run h in
  P h' /\ st_Routes (h_state h') = st_Routes (h_state h) /\ st_Route (h_state h') = st_Route (h_state h) /\
  (e = None -> st_DNS (h_state h') = []).
Proof.
  intros [Hg He]. unfold restore_dns, RestoreDNS.
  pose proof (restore_loop_spec (st_DNS (h_state h)) [] [] (h_net h)) as H.
  destruct (restore_loop _ _ _ _ _) as [[rest fs] w]. destruct H as [(l & -> & Hl) Hf]. cbn [app] in *.
  split; [|do 2 (split; [done|]); rewrite errors_join_None; intros Hfs; by destruct (Hf Hfs)].
  split; [|done]. intros Hfa. cbn in Hfa. apply faithful_snoc in Hfa. destruct (Hg Hfa) as [[Hmr Hmd] Hd Hfr Hlog].
  assert (Hdisk : disk_covers (h_files h) (events (h_log h) ++ [RestoredDNS (st_DNS (h_state h)) l])).
  { destruct Hd as [[Hr Hdn]|(s & Hs & Hc)].
    - left. split; rewrite ?routes_snoc, ?dns_snoc; cbn [route_event dns_event]; [done|by rewrite Hdn].
    - right. exists s. split; [done|]. by apply covers_restored. }
  cbn. split; cbn.
  - rewrite events_snoc. split; rewrite ?routes_snoc, ?dns_snoc; cbn; [done|].
    intros d [[Hn|Hin] Hout]%list_elem_of_filter; [|done]. by destruct Hn; apply Hmd.
  - by rewrite events_snoc.
  - by rewrite He.
  - apply log_ok_snoc; [done|]. by rewrite events_snoc.
Qed.

(** ** Starting *)

(** Steps that leave the recorded DNS servers alone, and the recorded route. *)
Definition same_dns {A} (m : act (host W) go_error A) : Prop := forall h, st_DNS (h_state (m h).2) = st_DNS (h_state h).

Lemma same_dns_bind {A B} (m : act (host W) go_error A) (f : A -> act (host W) go_error B) :
  same_dns m -> (forall a, same_dns (f a)) -> same_dns (act_bind m f).
Proof. intros Hm Hf h. unfold act_bind. specialize (Hm h). destruct (m h) as [[a|e] h']; cbn in *; [by rewrite Hf|done]. Qed.

Lemma same_dns_net {A} (m : act W go_error A) : same_dns (on_net m).
Proof. intros h. unfold on_net. by destruct (m (h_net h)). Qed.

Lemma same_dns_persist : same_dns (persist json_encode path).
Proof. intros h. unfold persist. by destruct (WriteState _ _ _ _). Qed.

Lemma same_dns_install_route route legacy : same_dns (install_route run json_encode path route legacy).
Proof.
  unfold install_route. apply same_dns_bind; [intros h; by destruct legacy|intros _].
  apply same_dns_bind; [apply same_dns_persist|intros _]. apply same_dns_bind; [done|intros _].
  apply same_dns_bind; [apply same_dns_net|intros _; apply same_dns_net].
Qed.

Lemma same_dns_install runtime tunName ipv6Enabled plan :
  same_dns (installServiceRoutes run json_encode path runtime tunName ipv6Enabled plan).
Proof.
  unfold installServiceRoutes. apply same_dns_bind; [apply same_dns_install_route|intros _].
  apply same_dns_bind; [destruct ipv6Enabled; [destruct (CFakeIPv6 runtime); [apply same_dns_install_route|done]|done]|intros _].
  apply same_dns_bind.
  - induction (plan_routes plan tunName) as [|r routes IH]; [done|]. apply same_dns_bind; [apply same_dns_install_route|done].
  - intros _ h. unfold verify_plan. destruct (DefaultRoute _); [|done].
    match goal with |- context [on_net ?m h] => pose proof (same_dns_net m h) as Hn; destruct (on_net m h) as [[v|e] h'] end; [|done].
    by destruct (plan_equal plan v).
Qed.

(** The state before anything was recorded. *)
Definition F (h : host W) : Prop := P h /\ st_Route (h_state h) = None /\ st_DNS (h_state h) = [].
Definition D (h : host W) : Prop := P h /\ st_DNS (h_state h) = [].

Lemma keeps_D {A} (m : act (host W) go_error A) : keeps m -> same_dns m -> act_triple D m (fun _ => D).
Proof. intros Hk Hs h [Hh Hd]. split; [by apply Hk|by rewrite Hs]. Qed.

(** Steps that leave the state alone. *)
Lemma F_of_keeps {A} (m : act (host W) go_error A) :
  keeps m -> (forall h, h_state (m h).2 = h_state h) -> act_triple F m (fun _ => F).
Proof. intros Hk Hs h (Hh & Hr & Hd). split; [by apply Hk|]. by rewrite Hs. Qed.

Lemma createWithFactory_keeps env settings :
  keeps (createWithFactory run itoa env settings) /\ forall h, h_state (createWithFactory run itoa env settings h).2 = h_state h.
Proof.
  assert (Hk : forall {A} (m : act (host W) go_error A),
    keeps m -> keeps (fun h => match m h with
      | (Ok a, h) => (Ok a, h)
      | (Err e, h) => let '(_, h) := log DeviceClosed h in
                      (Err (match su_close env with Some c => EWrap "additionally close" e | None => e end), h) end)).
  { intros A m Hm h Hh. specialize (Hm h Hh). destruct (m h) as [[a|e] h']; [done|]. cbn in *. by apply (keeps_log DeviceClosed). }
  assert (Hs : forall {A B} (m : act (host W) go_error A) (f : A -> act (host W) go_error B),
    (forall h, h_state (m h).2 = h_state h) -> (forall a h, h_state (f a h).2 = h_state h) -> forall h, h_state (act_bind m f h).2 = h_state h).
  { intros A B m f Hm Hf h. unfold act_bind. specialize (Hm h). destruct (m h) as [[a|e] h']; cbn in *; [by rewrite Hf|done]. }
  assert (Hn : forall {A} (m : act W go_error A) h, h_state (on_net m h).2 = h_state h).
  { intros A m h. unfold on_net. by destruct (m (h_net h)). }
  unfold createWithFactory. split.
  - apply keeps_bind; [apply keeps_net|intros _]. apply keeps_bind; [by apply keeps_log|intros _].
    apply keeps_bind.
    + destruct (su_name env); [apply keeps_ret|]. apply keeps_bind; [by apply keeps_log|intros _; apply keeps_fail].
    + intros name. apply keeps_bind; [apply Hk, keeps_net|intros _]. apply keeps_bind; [|intros _; apply keeps_ret].
      destruct (addr_valid _); [apply Hk, keeps_net|apply keeps_ret].
  - apply Hs; [apply Hn|intros _]. apply Hs; [done|intros _]. apply Hs; [by destruct (su_name env)|].
    intros name. apply Hs.
    { intros h. match goal with |- context [on_net ?m h] => pose proof (Hn _ m h) as Hx; destruct (on_net m h) as [[]] end; done. }
    intros _. apply Hs; [|done]. intros h. destruct (addr_valid _); [|done].
    match goal with |- context [on_net ?m h] => pose proof (Hn _ m h) as Hx; destruct (on_net m h) as [[]] end; done.
Qed.

Lemma step_F {A B} (m : act (host W) go_error A) (f : A -> act (host W) go_error B) :
  act_triple F m (fun _ => F) -> (forall a, act_triple F (f a) (fun _ => P)) -> act_triple F (act_bind m f) (fun _ => P).
Proof. intros Hm Hf. eapply act_triple_bind; [done|done|]. by intros e h [Hh _]. Qed.

Lemma step_D {A B} (m : act (host W) go_error A) (f : A -> act (host W) go_error B) :
  act_triple D m (fun _ => D) -> (forall a, act_triple D (f a) (fun _ => P)) -> act_triple D (act_bind m f) (fun _ => P).
Proof. intros Hm Hf. eapply act_triple_bind; [done|done|]. by intros e h [Hh _]. Qed.

Lemma start_run_keeps env interfaces runtime ipv6Enabled plan h :
  path = StateFile (CSystem runtime) -> F h -> P (start_run run json_encode itoa env interfaces runtime ipv6Enabled plan h).2.
Proof.
  intros Hpath. revert h. unfold start_run. rewrite <- Hpath.
  change (act_triple F (act_bind (createWithFactory run itoa env (tun_settings runtime ipv6Enabled)) (fun name =>
    act! _ := set_parts (set_device (Some name)) in
    act! _ := set_state (set_tun name) in
    act! _ := persist json_encode path in
    act! _ := installServiceRoutes run json_encode path runtime name ipv6Enabled plan in
    act! _ := act_of (Tun.NewBufferPool (Tun.PacketOffset + MTU (CTUN runtime) + 256) (ConfigTypes.BufferPool (CTUN runtime))) in
    act! _ := set_parts (set_pumps true) in
    act! _ := fail_with (su_dns env) (act_ret tt) in
    act! _ := log DNSServing in
    act! _ := set_parts (set_serving true) in
    act! _ := fail_with (stopped_error <$> su_stopped env) (act_ret tt) in
    act! _ := manage_dns run json_encode path interfaces runtime in
    act! _ := fail_with (su_status env) (act_ret tt) in
    act! _ := set_parts (set_status_server true) in
    act! _ := set_state (fun s => set_phase "running" (set_status (status_path runtime) s)) in
    act! _ := persist json_encode path in
    fail_with (stopped_error <$> su_stopped_late env) (act_ret tt))) (fun _ => P)).
  destruct (createWithFactory_keeps env (tun_settings runtime ipv6Enabled)) as [Hck Hcs].
  apply step_F; [by apply F_of_keeps|intros name].
  apply step_F; [apply F_of_keeps; [apply keeps_parts|done]|intros _].
  apply step_F; [|intros _].
  { intros h (Hh & Hr & Hd). split; [|done]. by apply keeps_state. }
  apply step_F; [|intros _].
  { apply F_of_keeps; [apply keeps_persist|]. intros h. unfold persist. by destruct (WriteState _ _ _ _). }
  eapply (act_triple_bind _ _ _ (fun _ => D)); [|intros _|by intros e h [Hh _]].
  { intros h (Hh & Hr & Hd). split; [by apply installServiceRoutes_keeps|by rewrite same_dns_install]. }
  apply step_D; [apply keeps_D; [apply keeps_of|done]|intros _].
  apply step_D; [apply keeps_D; [apply keeps_parts|done]|intros _].
  apply step_D; [apply keeps_D; [apply keeps_fail_with, keeps_ret|by destruct (su_dns env)]|intros _].
  apply step_D; [apply keeps_D; [by apply keeps_log|done]|intros _].
  apply step_D; [apply keeps_D; [apply keeps_parts|done]|intros _].
  apply step_D; [apply keeps_D; [apply keeps_fail_with, keeps_ret|by destruct (su_stopped env)]|intros _].
  eapply act_triple_bind; [apply keeps_manage_dns|intros u|done].
  apply keeps_bind; [apply keeps_fail_with, keeps_ret|intros _].
  apply keeps_bind; [apply keeps_parts|intros _].
  apply keeps_bind; [by apply keeps_state|intros _].
  apply keeps_bind; [apply keeps_persist|intros _]. apply keeps_fail_with, keeps_ret.
Qed.
End record.
