(* ===== verification/RunLoop.v ===== *)
(** * Component [internal/app]: the main loop of a run

    What a running instance does with its events: reloading the configuration
    ([reloadRuntime]), following changes of the network ([refreshNetwork] with
    [network_refresh_state.go]) and noticing that a part has stopped. *)

From S2P Require Import Prelude.
From S2P Require Import GoStrings.
From S2P Require Import GoTime.
From S2P Require Import NetIP.
From S2P Require Import FakeDNS.
From S2P Require Import ConfigTypes.
From S2P Require Import ConfigCompile.
From S2P Require Import Outbound.
From S2P Require Import Resolver.
From S2P Require Import EffectiveDNS.
From S2P Require Import DataPlane.
From S2P Require Import HostState.
From S2P Require Import HostRoutes.
From S2P Require Import DefaultRoutes.
From S2P Require Import RunHost.
From S2P Require Import Run.

(** ** When to refresh *)

(** [networkRefreshState] *)
Record networkRefreshState : Type := MkRefresh {
  nr_lastSuccessfulFingerprint : string;
  nr_lastError : string;
  nr_pending : bool
}.

Definition newNetworkRefreshState (fingerprint : string) : networkRefreshState := MkRefresh fingerprint "" false.

Definition shouldAttempt (fingerprint : string) (wokeFromSleep : bool) (s : networkRefreshState) : bool :=
  nr_pending s || wokeFromSleep || negb (bool_decide (fingerprint = nr_lastSuccessfulFingerprint s)).

(** [failed]: whether the error changed, and the state. *)
Definition refresh_failed (message : string) (s : networkRefreshState) : bool * networkRefreshState :=
  (negb (bool_decide (message = nr_lastError s)), MkRefresh (nr_lastSuccessfulFingerprint s) message true).

Definition succeeded (fingerprint : string) (s : networkRefreshState) : networkRefreshState := MkRefresh fingerprint "" false.

(** ** The service *)

Definition runtimeDNSQueryTimeout : Z := 5 * second.

(** The variables of the loop; the pools are shared with the data plane. *)
Record service (P : Type) : Type := MkService {
  sv_runtime : Config;
  sv_effective : Config;
  sv_discovered : gmap string (list addr_port);
  sv_digest : string;
  sv_plane : dataPlane P;
  sv_dns : Server Client;
  sv_network : networkRefreshState
}.
Arguments MkService {P} _ _ _ _ _ _ _.
Arguments sv_runtime {P} _.
Arguments sv_effective {P} _.
Arguments sv_discovered {P} _.
Arguments sv_digest {P} _.
Arguments sv_plane {P} _.
Arguments sv_dns {P} _.
Arguments sv_network {P} _.

(** What a reload reads: the loaded configuration ([None] without a loader),
    the check of the interfaces, the command runner for the leases, and the
    fingerprint of the network. *)
Record reload_input : Type := MkReload {
  rl_load : option (result go_error (Config * string));
  rl_interfaces : option go_error;
  rl_run : list string -> result go_error string;
  rl_fingerprint : string
}.

Record tick_input : Type := MkTick {
  tk_run : list string -> result go_error string;
  tk_fingerprint : string;
  tk_woke : bool;
  tk_interfaces : option go_error
}.

(** The events of the select. *)
Inductive loop_event : Type :=
| Stopped (deadline : bool)
| ServingEnded (e : option go_error)
| ReloadSignal (i : reload_input)
| NetworkTick (i : tick_input)
| PumpEnded (e : option go_error)
| OutputEnded (e : option go_error).

Section loop.
Context {W P : Type} (run : string -> list string -> W -> result command_error string * W) (json_encode : State -> option string)
  (error_text : go_error -> string).

Notation M := (act (host W) go_error).

(** The plan of the running instance against the one for a configuration. *)
Definition same_plan (defaultRoutes : defaultRoutePlan) (runtime : Config) (ipv6Enabled : bool) : M bool := fun h =>
  match on_net (planDefaultRouteCaptureOwned (lookupRouteScoped run) (LookupDefaultRouteScoped run) (pn_Bypasses defaultRoutes)
                  runtime ipv6Enabled) h with
  | (Ok plan, h) => (Ok (plan_equal defaultRoutes plan), h)
  | (Err e, h) => (Ok false, h)
  end.

(** The resolver of the default outbound. *)
Definition forward_client (runtime : Config) (maxConcurrent : Z) : result go_error Client :=
  match Outbounds runtime !! DefaultOutbound (CDNS runtime) with
  | Some o => NewClient (Interface o) (OutDNS o) runtimeDNSQueryTimeout maxConcurrent
  | None => NewClient "" [] runtimeDNSQueryTimeout maxConcurrent
  end.

(** [PreflightReload] *)
Definition PreflightReload (current next : Config) (interfaces : option go_error) : result go_error unit :=
  fail_if negb (bool_decide (ValidateReload (Some current) (Some next) = [])) with EWrap "configuration changes require a service restart" (failure "reload") in
  match interfaces with
  | Some e => Err (EWrap "reload prerequisites are not satisfied" e)
  | None => Ok tt
  end.

(** [reloadRuntime]: the service after an accepted reload. *)
Definition reloadRuntime (defaultRoutes : defaultRoutePlan) (ipv6Enabled : bool) (i : reload_input) (sv : service P) : M (service P) :=
  let current := sv_runtime sv in
  act! loaded := (match rl_load i with
                  | None => act_fail (failure "configuration reload is not configured")
                  | Some r => act_of r
                  end) in
  let '(next, nextDigest) := loaded in
  stop_if bool_decide (nextDigest = "") with failure "reloaded config digest is empty" in
  act! _ := act_of (PreflightReload current next (rl_interfaces i)) in
  let '(discovered, e) := discoverInterfaceDNS (rl_run i) next in
  act! _ := fail_with (EWrap "discover reloaded interface DHCP DNS" <$> e) (act_ret tt) in
  let nextEffective := runtimeWithInterfaceDNS next discovered in
  act! same := (if DefaultRoute (CCapture next) then same_plan defaultRoutes nextEffective ipv6Enabled else act_ret true) in
  stop_if negb same with EWrap "reloaded default-route bypass topology differs" (failure "restart is required") in
  act! generation := act_of (map_err (EWrap "build reloaded data plane") (prepare nextEffective (sv_plane sv))) in
  act! client := act_of (map_err (EWrap "build reloaded Fake DNS resolver") (forward_client nextEffective (MaxConcurrent (CDNS next)))) in
  act! s := get_state in
  let path := StateFile (CSystem current) in
  let previousDigest := st_ConfigDigest s in
  act! _ := set_state (set_digest nextDigest) in
  let revert {A} (e : go_error) : M A := act! _ := set_state (set_digest previousDigest) in act_fail e in
  fun h =>
    match persist json_encode path h with
    | (Err e, h) => revert (EWrap "persist reloaded config digest" e) h
    | (Ok _, h) =>
        match Reload (DNSTTL (CFakeIP next)) runtimeDNSQueryTimeout (Exclude (CFakeIP next)) (Some client) (sv_dns sv) with
        | Err e =>
            let '(_, h) := set_state (set_digest previousDigest) h in
            let '(_, h) := persist json_encode path h in (Err e, h)
        | Ok dns =>
            (Ok (MkService next nextEffective discovered nextDigest (commit generation (sv_plane sv)) dns
                   (succeeded (rl_fingerprint i) (sv_network sv))), h)
        end
    end.

(** [refreshNetwork]: the data plane and the server after it. *)
Definition refreshNetwork (runtime : Config) (interfaces : option go_error) (plane : dataPlane P) (dns : Server Client)
    : result go_error (dataPlane P * Server Client) :=
  match interfaces with
  | Some e => Err e
  | None =>
      let! generation := map_err (EWrap "rebuild data plane after network change") (prepare runtime plane) in
      let! client := map_err (EWrap "rebuild Fake DNS resolver after network change")
                       (forward_client runtime (MaxConcurrent (CDNS runtime))) in
      let! dns := Reload (DNSTTL (CFakeIP runtime)) runtimeDNSQueryTimeout (Exclude (CFakeIP runtime)) (Some client) dns in
      Ok (commit generation plane, dns)
  end.

Definition note_failure (e : go_error) (sv : service P) : service P :=
  MkService (sv_runtime sv) (sv_effective sv) (sv_discovered sv) (sv_digest sv) (sv_plane sv) (sv_dns sv)
    (refresh_failed (error_text e) (sv_network sv)).2.

(** A tick of the network ticker: the service, and the error that ends the
    run. *)
Definition network_tick (defaultRoutes : defaultRoutePlan) (ipv6Enabled : bool) (i : tick_input) (sv : service P) (h : host W)
    : service P * option go_error * host W :=
  let runtime := sv_runtime sv in
  match discoverInterfaceDNS (tk_run i) runtime with
  | (_, Some e) => (note_failure e sv, None, h)
  | (discovered, None) =>
      let nextEffective := runtimeWithInterfaceDNS runtime discovered in
      if negb (shouldAttempt (tk_fingerprint i) (tk_woke i) (sv_network sv)) then (sv, None, h)
      else
        let '(same, h) := (if DefaultRoute (CCapture runtime) then same_plan defaultRoutes nextEffective ipv6Enabled h
                           else (Ok true, h)) in
        match same with
        | Ok true =>
            match refreshNetwork nextEffective (tk_interfaces i) (sv_plane sv) (sv_dns sv) with
            | Err e => (note_failure e sv, None, h)
            | Ok (plane, dns) =>
                (MkService runtime (sv_effective sv) discovered (sv_digest sv) plane dns
                   (succeeded (tk_fingerprint i) (sv_network sv)), None, h)
            end
        | _ => (sv, Some (EWrap "default-route bypass topology changed" (failure "restart is required")), h)
        end
  end.

Definition ended (what : string) (e : option go_error) : go_error := match e with Some e => e | None => failure what end.

Definition pump_consumed (p : parts) : parts := MkParts (pt_device p) (pt_dns p) (pt_status p) false (pt_output p).
Definition output_consumed (p : parts) : parts := MkParts (pt_device p) (pt_dns p) (pt_status p) (pt_pump p) false.

(** One iteration: the service, and when the loop ends its primary error. *)
Definition loop_step (defaultRoutes : defaultRoutePlan) (ipv6Enabled : bool) (ev : loop_event) (sv : service P) (h : host W)
    : service P * option (option go_error) * host W :=
  match ev with
  | Stopped deadline => (sv, Some (if deadline then Some DeadlineExceeded else None), h)
  | ServingEnded e => (sv, Some (Some (ended "Fake DNS stopped unexpectedly" e)), h)
  | ReloadSignal i =>
      match reloadRuntime defaultRoutes ipv6Enabled i sv h with
      | (Ok sv, h) => (sv, None, h)
      | (Err _, h) => (sv, None, h)
      end
  | NetworkTick i =>
      let '(sv, e, h) := network_tick defaultRoutes ipv6Enabled i sv h in
      (sv, match e with Some e => Some (Some e) | None => None end, h)
  | PumpEnded e => (sv, Some (Some (ended "TUN packet pump stopped unexpectedly" e)), (set_parts pump_consumed h).2)
  | OutputEnded e => (sv, Some (Some (ended "netstack output pump stopped unexpectedly" e)), (set_parts output_consumed h).2)
  end.

(** The loop over the events so far. *)
Fixpoint main_loop (defaultRoutes : defaultRoutePlan) (ipv6Enabled : bool) (evs : list loop_event) (sv : service P) (h : host W)
    : service P * option (option go_error) * host W :=
  match evs with
  | [] => (sv, None, h)
  | ev :: evs' =>
      match loop_step defaultRoutes ipv6Enabled ev sv h with
      | (sv, None, h) => main_loop defaultRoutes ipv6Enabled evs' sv h
      | (sv, Some primary, h) => (sv, Some primary, h)
      end
  end.
(** How far a run has come. *)
Inductive run_outcome : Type := StillRunning | Ended (e : option go_error).

(** [Run] from the lock on, with the events the loop has seen. *)
Definition Run (json_decode : string -> option State) (itoa : Z -> string) (env : startup W) (c : closings)
    (interfaces : string -> option HostDNS.interface_view) (runtime : Config) (ipv6Enabled : bool) (defaultRoutes : defaultRoutePlan)
    (evs : list loop_event) (sv : service P) (h : host W) : run_outcome * host W :=
  let path := StateFile (CSystem runtime) in
  let finish primary h := let '(e, h) := finish run json_encode json_decode path c primary h in (Ended e, h) in
  match persist json_encode path h with
  | (Err e, h) => (Ended (Some e), h)
  | (Ok _, h) =>
      let '(_, h) := set_exists h in
      match start_run run json_encode itoa env interfaces runtime ipv6Enabled defaultRoutes h with
      | (Err e, h) => finish (Some e) h
      | (Ok _, h) =>
          match main_loop defaultRoutes ipv6Enabled evs sv h with
          | (_, Some primary, h) => finish primary h
          | (_, None, h) => (StillRunning, h)
          end
      end
  end.
End loop.
