(* ===== verification/RunProperties.v ===== *)
(** * Component [internal/app]: a run and a clean-up leave no change behind

    At every moment of a run and of a clean-up the state file lists what has
    to be undone, and the file is removed only when nothing is left. *)

From S2P Require Import Prelude.
From S2P Require Import GoStrings.
From S2P Require Import GoFiles.
From S2P Require Import NetIP.
From S2P Require Import ConfigTypes.
From S2P Require Import Outbound.
From S2P Require Import HostState.
From S2P Require Import HostRoutes.
From S2P Require Import HostDNS.
From S2P Require Import DefaultRoutes.
From S2P Require Import RunHost.
From S2P Require Import Run.
From S2P Require Import ConfigCompile.
From S2P Require Import RunFacts.
From S2P Require Import RunLoop.

Section finishing.
Context {W : Type} (run : string -> list string -> W -> result command_error string * W) (json_encode : State -> option string)
  (json_decode : string -> option State) (itoa : Z -> string) (path : string).
Context (path_ok : not_temporary path).

Notation P := (P json_encode json_decode path).
Notation keeps := (keeps json_encode json_decode path).
Notation finishing := (finishing (W := W)).

(** What holds while [finish] runs: the invariant, and [C] as long as nothing
    failed. *)
Definition stage (C : State -> Prop) (f : finishing) : Prop := P f.2 /\ (f.1 = [] -> C (h_state f.2)).

Definition no_dns (s : State) : Prop := st_DNS s = [].

(** A condition that only looks at what is recorded. *)
Definition about_record (C : State -> Prop) : Prop :=
  forall s s', st_DNS s' = st_DNS s -> st_Routes s' = st_Routes s -> st_Route s' = st_Route s -> C s -> C s'.

Lemma about_any : about_record (fun _ => True).
Proof. done. Qed.

Lemma about_no_dns : about_record no_dns.
Proof. intros s s' Hd _ _. unfold no_dns. by rewrite Hd. Qed.

Lemma about_empty : about_record empty_record.
Proof. intros s s' Hd Hr Hr' (? & ? & ?). unfold empty_record. by rewrite Hd, Hr, Hr'. Qed.

Section stages.
Context (C : State -> Prop) (HC : about_record C).

Lemma stage_failed what e f : stage C f -> stage C (failed what e f).
Proof. intros [Hp Hc]. destruct e; [|done]. split; [done|]. cbn. by destruct f.1. Qed.

Lemma stage_append e f : stage C f -> stage C (match e with Some e => (f.1 ++ [e], f.2) | None => f end).
Proof. intros [Hp Hc]. destruct e; [|done]. split; [done|]. cbn. by destruct f.1. Qed.

Lemma stage_change m f :
  keeps m -> (forall h, st_DNS (h_state (m h).2) = st_DNS (h_state h) /\ st_Routes (h_state (m h).2) = st_Routes (h_state h) /\
                        st_Route (h_state (m h).2) = st_Route (h_state h)) ->
  stage C f -> stage C (change m f).
Proof.
  intros Hm Hs [Hp Hc]. split; [by apply Hm|]. cbn. intros Hf. destruct (Hs f.2) as (? & ? & ?). by eapply HC; [..|apply Hc].
Qed.

Lemma stage_persist what f : stage C f -> stage C (persist_if_exists json_encode path what f).
Proof.
  intros [Hp Hc]. unfold persist_if_exists. destruct (h_exists f.2); [|done].
  pose proof (collect_P json_encode json_decode path f.1 (EWrap what) _ f.2 (keeps_persist _ _ _ path_ok) Hp) as [Hp' Hf].
  pose proof (persist_good json_encode json_decode path path_ok f.2 (proj1 Hp)) as Hg.
  unfold collect in *. destruct (persist json_encode path f.2) as [[[]|e] h']; destruct Hg as (_ & _ & Hst & _); cbn in *;
    (split; [done|]); cbn; [by rewrite Hst|]. by destruct f.1.
Qed.
End stages.

Lemma finish_status_stage C c f : about_record C -> stage C f -> stage C (finish_status json_encode path c f).
Proof.
  intros HC Hf. unfold finish_status. destruct (pt_status _); [|done]. apply stage_persist.
  apply stage_change; [done|by apply keeps_state|done|]. apply stage_change; [done|apply keeps_parts|done|]. by apply stage_failed.
Qed.

Lemma finish_phase_stage C f : about_record C -> stage C f -> stage C (finish_phase json_encode path f).
Proof.
  intros HC Hf. unfold finish_phase. destruct (h_exists _); [|done]. apply stage_persist.
  apply stage_change; [done|by apply keeps_state|done|done].
Qed.

Lemma finish_dns_stage f : stage (fun _ => True) f -> stage no_dns (finish_dns run json_encode path f).
Proof.
  intros [Hp _]. unfold finish_dns. case_bool_decide as Hd; [done|].
  pose proof (restore_dns_spec run json_encode json_decode path f.2 Hp) as Hr.
  destruct (restore_dns run f.2) as [e h]. destruct Hr as (Hp' & _ & _ & He). apply stage_persist.
  destruct e; cbn; (split; [done|]); cbn; [by destruct f.1|]. intros _. by apply He.
Qed.

Lemma finish_serving_stage C c f : about_record C -> stage C f -> stage C (finish_serving c f).
Proof.
  intros HC Hf. unfold finish_serving. destruct (pt_dns _); [|done].
  apply stage_change; [done|apply keeps_parts|done|]. apply stage_failed. apply stage_change; [done|by apply keeps_log|done|done].
Qed.

Lemma finish_routes_stage f : stage no_dns f -> stage empty_record (finish_routes run json_encode path f).
Proof.
  intros [Hp Hd]. unfold finish_routes. destruct Hp as [Hg He] eqn:Hpe. rewrite He. cbn [andb].
  destruct (_ || _) eqn:Hb.
  - pose proof (removeRecordedRoutes_spec run json_encode json_decode path path_ok f.2 Hp) as Hr.
    destruct (removeRecordedRoutes _ _ _ _) as [e h]. destruct Hr as (Hp' & Hdns & He').
    destruct e as [e|]; (split; [done|]); cbn; [by destruct f.1|]. intros Hf. destruct (He' eq_refl). split_and!; [done|done|].
    rewrite Hdns. by apply Hd.
  - apply orb_false_iff in Hb as [H1 H2]. apply bool_decide_eq_false in H1. apply negb_false_iff, bool_decide_eq_true in H2.
    split; [done|]. intros Hf. split_and!; [done|by apply eq_None_not_Some|by apply Hd].
Qed.

Lemma finish_device_stage C c f : about_record C -> stage C f -> stage C (finish_device c f).
Proof.
  intros HC Hf. unfold finish_device. destruct (pt_device _); [|done]. apply stage_failed.
  apply stage_change; [done|by apply keeps_log|done|done].
Qed.

Lemma finish_pumps_stage C c f : stage C f -> stage C (finish_pumps c f).
Proof.
  intros Hf. unfold finish_pumps.
  assert (H : stage C (if pt_pump (h_parts f.2) then match cl_pump c with Some e => (f.1 ++ [e], f.2) | None => f end else f)).
  { destruct (pt_pump _); [by apply stage_append|done]. }
  destruct (pt_output _); [by apply stage_append|done].
Qed.

(** An empty record covers only what is settled. *)
Lemma covers_empty s evs : covers s evs -> empty_record s -> settled evs.
Proof.
  intros [Hr Hd] (Hs & Hs' & Hdns). split.
  - destruct (outstanding_routes evs) as [|r l] eqn:Ho; [done|]. destruct (Hr r) as [H|H]; [by left|congruence|].
    rewrite Hs in H. by apply not_elem_of_nil in H.
  - destruct (outstanding_dns evs) as [|d l] eqn:Ho; [done|]. specialize (Hd d). rewrite Hdns in Hd.
    exfalso. eapply not_elem_of_nil, Hd. by left.
Qed.

(** Nothing is outstanding. *)
Definition undone (h : host W) : Prop := faithful json_encode json_decode (h_log h) -> settled (events (h_log h)).

Lemma remove_record_spec f :
  stage empty_record f ->
  let '(e, h) := remove_record json_decode path f in P h /\ (e = None -> undone h) /\ (f.1 = [] -> undone h).
Proof.
  intros [[Hg He] Hs]. unfold remove_record. destruct (errors_join f.1) as [e|] eqn:Hj.
  { split; [done|]. split; [done|]. intros Hf. by rewrite Hf in Hj. }
  apply errors_join_None in Hj. rewrite He. destruct (RemoveState json_decode path (h_files f.2)) as [r files].
  set (h := MkHost _ _ _ _ _ _).
  assert (Hsettled : undone h).
  { intros Hf. cbn in Hf |- *. apply faithful_snoc in Hf. rewrite events_snoc. apply settled_silent; [done|].
    apply (covers_empty (h_state f.2)); [by apply (iv_memory _ _ _ (Hg Hf))|by apply Hs]. }
  split; [|done]. split; [|done]. intros Hf. pose proof (Hsettled Hf) as Hset. cbn in Hf. apply faithful_snoc in Hf.
  destruct (Hg Hf) as [Hm _ _ Hl]. split; cbn in *.
  - rewrite events_snoc. by apply covers_silent.
  - by left.
  - done.
  - apply log_ok_snoc; [done|]. by left.
Qed.

(** [finish] from any moment of a run. *)
Lemma finish_spec c primary h :
  P h -> let '(e, h') := finish run json_encode json_decode path c primary h in P h' /\ (e = None -> undone h').
Proof.
  intros Hh. unfold finish.
  assert (H0 : stage (fun _ => True) ([], h)) by done.
  apply (finish_status_stage _ c) in H0; [|done]. apply (stage_failed _ "flush Fake IP persistence" (cl_flush4 c)) in H0.
  apply (stage_failed _ "flush Fake IPv6 persistence" (cl_flush6 c)) in H0. apply finish_phase_stage in H0; [|done].
  apply finish_dns_stage in H0. apply (finish_serving_stage _ c) in H0; [|apply about_no_dns].
  apply finish_routes_stage in H0. apply (finish_device_stage _ c) in H0; [|apply about_empty].
  apply (finish_pumps_stage _ c) in H0. apply (stage_append _ (cl_stack c)) in H0.
  apply (stage_failed _ "release process lock" (cl_lock c)) in H0. apply remove_record_spec in H0.
  destruct (remove_record _ _ _) as [e h']. destruct H0 as (Hp & He & _). split; [done|].
  intros Hn. apply He. unfold join_two in Hn. by destruct primary, e.
Qed.

(** ** The main loop *)

Lemma keeps_get_state : keeps (get_state (W := W)).
Proof. by intros h Hh. Qed.

Lemma keeps_digest d : keeps (set_state (W := W) (set_digest d)).
Proof. by apply keeps_state. Qed.

Lemma keeps_same_plan plan runtime ipv6Enabled : keeps (same_plan run plan runtime ipv6Enabled).
Proof.
  intros h Hh. unfold same_plan.
  match goal with |- context [on_net ?m h] =>
    pose proof (keeps_net json_encode json_decode path m h Hh) as Hn; destruct (on_net m h) as [[p|e] h'] end; done.
Qed.

Lemma reload_same_file current next i :
  PreflightReload current next i = Ok tt -> StateFile (CSystem next) = StateFile (CSystem current).
Proof.
  unfold PreflightReload. intros [Hv _]%guard_err_Ok. apply negb_false_iff, bool_decide_eq_true in Hv.
  cbn in Hv. apply require_services_nil in Hv as (Hv & _). apply require_ipv6_nil in Hv as (Hv & _).
  apply require_host_nil in Hv as (_ & Hv & _). by rewrite Hv.
Qed.

Lemma reload_spec {Q} plan ipv6Enabled i (sv : service Q) h :
  StateFile (CSystem (sv_runtime sv)) = path -> P h ->
  let '(r, h') := reloadRuntime run json_encode plan ipv6Enabled i sv h in
  P h' /\ forall sv', r = Ok sv' -> StateFile (CSystem (sv_runtime sv')) = path.
Proof.
  intros Hpath Hh.
  set (Q2 := fun (r : result go_error (service Q)) (h' : host W) => P h' /\ forall sv', r = Ok sv' -> StateFile (CSystem (sv_runtime sv')) = path).
  enough (Ht : act_triple P (reloadRuntime run json_encode plan ipv6Enabled i sv) Q2).
  { specialize (Ht h Hh). by destruct (reloadRuntime _ _ _ _ _ _ _). }
  assert (Hb : forall {A} (m : act (host W) go_error A) f, keeps m -> (forall a, act_triple P (f a) Q2) -> act_triple P (act_bind m f) Q2).
  { intros A m f Hm Hf. eapply act_triple_bind; [exact Hm|exact Hf|]. by intros e h' Hp. }
  unfold reloadRuntime. rewrite Hpath. apply Hb; [destruct (rl_load i); [apply keeps_of|apply keeps_fail]|]. intros [next digest].
  apply act_triple_unless; [by intros|intros _].
  unfold act_bind at 1, act_of at 1. intros h1 H1. destruct (PreflightReload _ _ _) as [[]|e] eqn:Hpre; [|done].
  revert h1 H1. apply reload_same_file in Hpre. rewrite Hpath in Hpre.
  destruct (EffectiveDNS.discoverInterfaceDNS _ next) as [discovered e].
  apply Hb; [apply keeps_fail_with, keeps_ret|intros _].
  apply Hb; [destruct (DefaultRoute _); [apply keeps_same_plan|apply keeps_ret]|intros same].
  apply act_triple_unless; [by intros|intros _].
  apply Hb; [apply keeps_of|intros generation]. apply Hb; [apply keeps_of|intros client].
  apply Hb; [apply keeps_get_state|intros st]. apply Hb; [by apply keeps_state|intros _].
  intros h1 H1. pose proof (keeps_persist json_encode json_decode path path_ok h1 H1) as H2.
  destruct (persist json_encode path h1) as [[[]|e1] h2]; cbn in H2.
  - destruct (FakeDNS.Reload _ _ _ _ _) as [dns|e2].
    + split; [done|]. by intros sv' [= <-].
    + pose proof (keeps_digest (st_ConfigDigest st) h2 H2) as H3.
      destruct (set_state (set_digest (st_ConfigDigest st)) h2) as [u h3]. cbn [snd] in H3.
      pose proof (keeps_persist json_encode json_decode path path_ok h3 H3) as H4.
      destruct (persist json_encode path h3) as [r4 h4]. by split; [exact H4|].
  - split; [|done]. by apply (keeps_digest (st_ConfigDigest st) h2 H2).
Qed.

Lemma network_tick_spec {Q} error_text plan ipv6Enabled i (sv : service Q) h :
  StateFile (CSystem (sv_runtime sv)) = path -> P h ->
  let '(sv', e, h') := network_tick run error_text plan ipv6Enabled i sv h in
  P h' /\ StateFile (CSystem (sv_runtime sv')) = path.
Proof.
  intros Hpath Hh. unfold network_tick. destruct (EffectiveDNS.discoverInterfaceDNS _ _) as [discovered [e|]]; [done|].
  destruct (negb (shouldAttempt _ _ _)); [done|].
  assert (Hs : P ((if DefaultRoute (CCapture (sv_runtime sv))
                   then same_plan run plan (EffectiveDNS.runtimeWithInterfaceDNS (sv_runtime sv) discovered) ipv6Enabled h
                   else (Ok true, h))).2).
  { destruct (DefaultRoute _); [by apply keeps_same_plan|done]. }
  destruct (if DefaultRoute (CCapture (sv_runtime sv)) then _ else _) as [[[]|e] h1]; [|done|done].
  destruct (refreshNetwork _ _ _ _) as [[plane dns]|e]; done.
Qed.

Lemma main_loop_spec {Q} error_text plan ipv6Enabled evs (sv : service Q) h :
  StateFile (CSystem (sv_runtime sv)) = path -> P h ->
  P (main_loop run json_encode error_text plan ipv6Enabled evs sv h).2.
Proof.
  revert sv h. induction evs as [|ev evs IH]; intros sv h Hpath Hh; cbn [main_loop]; [done|].
  destruct ev as [d|e|i|i|e|e]; cbn [loop_step].
  - done.
  - done.
  - pose proof (reload_spec plan ipv6Enabled i sv h Hpath Hh) as Hr.
    destruct (reloadRuntime _ _ _ _ _ _ _) as [[sv'|e] h']; destruct Hr as [Hp Hs]; apply IH; try done. by apply Hs.
  - pose proof (network_tick_spec error_text plan ipv6Enabled i sv h Hpath Hh) as Hr.
    destruct (network_tick _ _ _ _ _ _ _) as [[sv' [e|]] h']; destruct Hr as [Hp Hs]; [done|]. by apply IH.
  - by apply (keeps_parts json_encode json_decode path pump_consumed).
  - by apply (keeps_parts json_encode json_decode path output_consumed).
Qed.

(** ** Cleaning up *)

Lemma fresh_host files net s : good json_encode json_decode path (new_host files net s : host W).
Proof. intros _. split; cbn; [by apply settled_covers|by left|done|]. intros [|x l1] e w l2 Heq; done. Qed.

Lemma keeps_mark rv : keeps (mark_cleaning (W := W) json_encode rv path).
Proof.
  apply keeps_bind; [by apply keeps_state|intros _]. apply keeps_bind; [by apply keeps_wrap, keeps_persist|intros _].
  apply keeps_bind; [apply keeps_fail_with, keeps_ret|intros _]. apply keeps_bind; [by apply keeps_state|intros _].
  by apply keeps_wrap, keeps_persist.
Qed.

(** A crashed instance: what its log and its files say. *)
Definition crashed (h : host W) : Prop :=
  log_ok json_decode path (h_log h) /\ disk_covers json_decode path (h_files h) (events (h_log h)).

Lemma P_crashed h : P h -> faithful json_encode json_decode (h_log h) -> crashed h.
Proof. intros [Hg _] Hf. by destruct (Hg Hf). Qed.

Lemma release_record_spec rv h :
  P h -> empty_record (h_state h) ->
  let '(e, h') := release_record json_decode rv path h in P h' /\ (e = None -> undone h').
Proof.
  intros Hh He. unfold release_record. destruct (_ && _); [done|]. destruct (rv_release rv); [done|].
  pose proof (remove_record_spec ([], h)) as H. destruct (remove_record _ _ _) as [e h'].
  destruct H as (Hp & Hu & _); [by split|]. done.
Qed.

Lemma cleanup_recorded_spec rv h :
  P h -> let '(e, h') := cleanup_recorded run json_encode json_decode rv path h in P h' /\ (e = None -> undone h').
Proof.
  intros Hh. unfold cleanup_recorded. pose proof (keeps_mark rv h Hh) as H1.
  destruct (mark_cleaning _ _ _ h) as [[[]|e] h1]; [|done].
  pose proof (restore_dns_spec run json_encode json_decode path h1 H1) as H2.
  destruct (restore_dns run h1) as [dnsErr h2]. destruct H2 as (H2 & _ & _ & Hdns).
  pose proof (keeps_persist json_encode json_decode path path_ok h2 H2) as H3.
  pose proof (persist_good json_encode json_decode path path_ok h2 (proj1 H2)) as Hs.
  destruct (persist json_encode path h2) as [[[]|e] h3]; destruct Hs as (_ & _ & Hst & _).
  2: { split; [exact H3|]. by destruct dnsErr. }
  destruct dnsErr as [e|]; [by split|].
  pose proof (removeRecordedRoutes_spec run json_encode json_decode path path_ok h3 H3) as H4.
  destruct (removeRecordedRoutes _ _ _ _) as [[e|] h4]; destruct H4 as (H4 & Hd & Hr); [done|].
  apply release_record_spec; [done|]. destruct (Hr eq_refl) as [Hr1 Hr2]. split; [done|split; [done|]].
  rewrite Hd, Hst. by apply Hdns.
Qed.

Lemma crashed_undone (r : option go_error * host W) :
  (let '(e, h') := r in P h' /\ (e = None -> undone h')) -> faithful json_encode json_decode (h_log r.2) ->
  crashed r.2 /\ (r.1 = None -> settled (events (h_log r.2))).
Proof. destruct r as [e h']. intros [Hp Hu] Hf. split; [by apply P_crashed|]. intros He. by apply Hu. Qed.

Lemma cleanup_spec rv h :
  crashed h -> forall r, Cleanup run json_encode json_decode rv path h = r -> faithful json_encode json_decode (h_log r.2) ->
  crashed r.2 /\ (r.1 = None -> settled (events (h_log r.2))).
Proof.
  intros [Hlog Hdisk]. unfold Cleanup.
  destruct (ReadState json_decode path (h_files h)) as [r files] eqn:Hr.
  apply read_any in Hr as [[Hfs Heu] Hr].
  assert (Hreads : reads json_decode path files = reads json_decode path (h_files h)) by (by rewrite !reads_eq, Hfs, Heu).
  assert (Hdisk' : disk_covers json_decode path files (events (h_log h))).
  { destruct Hdisk as [Hs|(s & Hs & Hcov)]; [by left|right]. exists s. by rewrite Hreads. }
  cbn [h_files h_net h_state h_exists h_parts h_log].
  destruct r as [s|se].
  2: { intros r Hc Hf. subst r. destruct se; (split; [by split|]); [|done|done]. intros _. cbn.
       destruct Hr as [Hr|[what Hr]]; [|done]. destruct Hdisk as [Hs|(s & Hs & _)]; [done|congruence]. }
  destruct Hr as [Hr|[what Hr]]; [|done].
  set (h1 := MkHost files (h_net h) s true (h_parts h) (h_log h)).
  assert (H1 : P h1).
  { split; [|done]. intros _. split; cbn; [|done|done|done].
    destruct Hdisk as [Hs|(s' & Hs & Hcov)]; [by apply settled_covers|].
    rewrite Hs in Hr. by injection Hr as ->. }
  pose proof (cleanup_recorded_spec rv h1 H1) as Hgo.
  destruct (rv_lock rv); [..|destruct (rv_process rv)]; intros r <-; by apply crashed_undone.
Qed.

(** The first record of a run. *)
Lemma first_persist (h : host W) :
  good json_encode json_decode path h -> st_Route (h_state h) = None -> st_DNS (h_state h) = [] ->
  let '(r, h1) := persist json_encode path h in
  good json_encode json_decode path h1 /\ (is_ok r = true -> F json_encode json_decode path (set_exists h1).2).
Proof.
  intros Hg Hr Hd. pose proof (persist_good json_encode json_decode path path_ok h Hg) as H.
  destruct (persist json_encode path h) as [r h1]. destruct H as (Hg1 & _ & Hst & _ & _ & Hsync). split; [done|].
  intros Hok. unfold F. cbn [set_exists snd h_state]. rewrite Hst. split; [|done]. split; [|done].
  intros Hf. cbn in Hf |- *. destruct (Hg1 Hf) as [Hm Hk Hfr Hl]. rewrite Hst in Hm. by split.
Qed.

Lemma run_spec {Q} error_text env c interfaces runtime ipv6Enabled plan evs (sv : service Q) (h : host W) :
  StateFile (CSystem runtime) = path -> sv_runtime sv = runtime ->
  good json_encode json_decode path h -> st_Route (h_state h) = None -> st_DNS (h_state h) = [] ->
  forall r, Run run json_encode error_text json_decode itoa env c interfaces runtime ipv6Enabled plan evs sv h = r ->
  good json_encode json_decode path r.2 /\ (r.1 = Ended None -> undone r.2).
Proof.
  intros Hpath Hsv Hg Hr Hd res. unfold Run. rewrite Hpath.
  pose proof (first_persist h Hg Hr Hd) as H. destruct (persist json_encode path h) as [[[]|e] h1]; destruct H as [Hg1 HF].
  2: { by intros <-. }
  specialize (HF eq_refl). destruct (set_exists h1) as [u h2]. cbn [snd] in HF.
  pose proof (start_run_keeps run json_encode json_decode itoa path path_ok env interfaces runtime ipv6Enabled plan h2 (eq_sym Hpath) HF) as H3.
  assert (Hfin : forall primary h3 r, P h3 ->
    (let '(e, h) := finish run json_encode json_decode path c primary h3 in (Ended e, h)) = r ->
    good json_encode json_decode path r.2 /\ (r.1 = Ended None -> undone r.2)).
  { intros primary h3 r Hp <-. pose proof (finish_spec c primary h3 Hp) as Hfs.
    destruct (finish _ _ _ _ _ _ _) as [e h4]. destruct Hfs as [[Hg4 _] Hu]. split; [done|]. intros [= ->]. by apply Hu. }
  destruct (start_run _ _ _ _ _ _ _ _ h2) as [[u'|e] h3]; [|by apply Hfin].
  rewrite <- Hsv in Hpath. pose proof (main_loop_spec error_text plan ipv6Enabled evs sv h3 Hpath H3) as H4.
  destruct (main_loop _ _ _ _ _ _ _ _) as [[sv' [primary|]] h4]; [by apply Hfin|]. intros <-. split; [exact (proj1 H4)|done].
Qed.
End finishing.
