(* ===== verification/Apperror.v ===== *)
(** * Component [internal/apperror]: errors that cross process boundaries

    The codes of [codes.go], typed errors of [error.go] and the structured
    form of [envelope.go] in which the service and the command line exchange
    errors; and what of them survives the boundary. *)

From S2P Require Import Prelude.
From S2P Require Import GoStrings.

(** ** Codes *)

(** [Code] is a string; a code from another process may be any. *)
Definition Code : Type := string.

Definition CodeUsageError : Code := "USAGE_ERROR".
Definition CodeRootRequired : Code := "ROOT_REQUIRED".
Definition CodeConfigInvalid : Code := "CONFIG_INVALID".
Definition CodeConfigRestartRequired : Code := "CONFIG_RESTART_REQUIRED".
Definition CodeServiceNotInstalled : Code := "SERVICE_NOT_INSTALLED".
Definition CodeServiceNotRunning : Code := "SERVICE_NOT_RUNNING".
Definition CodeServiceOperationBusy : Code := "SERVICE_OPERATION_BUSY".
Definition CodeServiceStartTimeout : Code := "SERVICE_START_TIMEOUT".
Definition CodeServiceStopTimeout : Code := "SERVICE_STOP_TIMEOUT".
Definition CodeServiceUnreachable : Code := "SERVICE_UNREACHABLE".
Definition CodeServiceProtocolTooOld : Code := "SERVICE_PROTOCOL_TOO_OLD".
Definition CodeReloadRejected : Code := "RELOAD_REJECTED".
Definition CodeReloadTimeout : Code := "RELOAD_TIMEOUT".
Definition CodeReloadRequestMismatch : Code := "RELOAD_REQUEST_MISMATCH".
Definition CodeReloadDigestMismatch : Code := "RELOAD_DIGEST_MISMATCH".
Definition CodeReloadRequestConflict : Code := "RELOAD_REQUEST_CONFLICT".
Definition CodeRollbackIncomplete : Code := "ROLLBACK_INCOMPLETE".
Definition CodeUnsafeFile : Code := "UNSAFE_FILE".
Definition CodeInternalError : Code := "INTERNAL_ERROR".

Definition knownCodes : list Code :=
  [CodeUsageError; CodeRootRequired; CodeConfigInvalid; CodeConfigRestartRequired; CodeServiceNotInstalled; CodeServiceNotRunning;
   CodeServiceOperationBusy; CodeServiceStartTimeout; CodeServiceStopTimeout; CodeServiceUnreachable; CodeServiceProtocolTooOld;
   CodeReloadRejected; CodeReloadTimeout; CodeReloadRequestMismatch; CodeReloadDigestMismatch; CodeReloadRequestConflict;
   CodeRollbackIncomplete; CodeUnsafeFile; CodeInternalError].

Definition IsKnownCode (code : Code) : bool := bool_decide (code ∈ knownCodes).

Definition Retryable (code : Code) : bool :=
  bool_decide (code ∈ [CodeServiceNotRunning; CodeServiceOperationBusy; CodeServiceStartTimeout; CodeServiceStopTimeout;
                       CodeServiceUnreachable; CodeReloadTimeout]).

Definition ExitCode (code : Code) : Z :=
  if bool_decide (code = CodeUsageError) then 2
  else if bool_decide (code ∈ [CodeConfigInvalid; CodeConfigRestartRequired]) then 3
  else if bool_decide (code ∈ [CodeRootRequired; CodeUnsafeFile]) then 4
  else if bool_decide (code ∈ [CodeServiceNotInstalled; CodeServiceNotRunning; CodeReloadRejected; CodeReloadRequestMismatch;
                               CodeReloadDigestMismatch]) then 5
  else if bool_decide (code ∈ [CodeServiceStartTimeout; CodeServiceStopTimeout; CodeServiceUnreachable; CodeReloadTimeout]) then 6
  else if bool_decide (code = CodeRollbackIncomplete) then 7
  else if bool_decide (code ∈ [CodeServiceOperationBusy; CodeReloadRequestConflict]) then 8
  else if bool_decide (code = CodeServiceProtocolTooOld) then 9
  else 1.

Definition normalizedCode (code : Code) : Code := if IsKnownCode code then code else CodeInternalError.

(** ** Errors *)

(** A value of [Details]: the scalar types, with a number or a time by its
    text, or anything else. *)
Inductive detail : Type := DNil | DBool (b : bool) | DString (s : string) | DNumber (text : string) | DTime (text : string) | DOther.

#[export] Instance detail_eq_dec : EqDecision detail.
Proof. solve_decision. Defined.

(** A nil map and an empty one behave alike. *)
Definition details : Type := gmap string detail.

(** A Go error: a plain text, a wrapper with [Unwrap() error], one with
    [Unwrap() []error], or a typed one.  The texts are those of [Error()];
    neither [errors.Join] nor [fmt.Errorf] keeps a nil child. *)
Inductive app_error : Type :=
| Plain (text : string)
| Wrapped (text : string) (inner : app_error)
| Joined (text : string) (children : list app_error)
| Typed (code : Code) (operation message : string) (retryable : bool) (ds : details) (cause : option app_error).

Definition New (code : Code) (operation message : string) : app_error :=
  Typed (normalizedCode code) operation message (Retryable (normalizedCode code)) ∅ None.

Definition Wrap (code : Code) (operation message : string) (cause : app_error) : app_error :=
  Typed (normalizedCode code) operation message (Retryable (normalizedCode code)) ∅ (Some cause).

(** [Error] *)
Definition error_text (err : app_error) : string :=
  (fix text (err : app_error) : string :=
     match err with
     | Plain t | Wrapped t _ | Joined t _ => t
     | Typed code _ message _ _ cause =>
         let m := if bool_decide (message = "") then normalizedCode code else message in
         match cause with None => m | Some c => m +:+ ": " +:+ text c end
     end) err.

(** [errors.Join] of errors that are not nil. *)
Definition join_errors (es : list app_error) : app_error := Joined (string_join (String "010" "") (error_text <$> es)) es.

Definition allowedDetailKeys : list string :=
  ["actual_config_digest"; "effective_uid"; "expected_config_digest"; "holder_operation"; "holder_operation_id"; "holder_pid";
   "operation_id"; "phase"; "reload_request_id"; "rollback_of"; "socket_path"; "started_at"].

Definition safeDetailValue (v : detail) : bool := negb (bool_decide (v = DOther)).

Definition safe_detail (x : string * detail) : Prop := x.1 ∈ allowedDetailKeys /\ safeDetailValue x.2 = true.

#[export] Instance safe_detail_dec x : Decision (safe_detail x).
Proof. unfold safe_detail. apply _. Defined.

Definition sanitizeDetails (d : details) : details := filter safe_detail d.

(** [WithDetails] on a typed error. *)
Definition WithDetails (d : details) (err : app_error) : app_error :=
  match err with
  | Typed code operation message retryable _ cause => Typed code operation message retryable (sanitizeDetails d) cause
  | _ => err
  end.

(** [errors.As] for [*Error]: the first typed error, depth first. *)
Fixpoint find_typed (err : app_error) : option app_error :=
  match err with
  | Plain _ => None
  | Wrapped _ inner => find_typed inner
  | Joined _ children =>
      (fix find_in (l : list app_error) : option app_error :=
         match l with
         | [] => None
         | c :: l' => match find_typed c with Some t => Some t | None => find_in l' end
         end) children
  | Typed _ _ _ _ _ _ => Some err
  end.

(** [Annotate] of an error that is not nil. *)
Definition Annotate (err : app_error) (operation : string) (d : details) : app_error :=
  match find_typed err with
  | Some (Typed code op message retryable ds cause) =>
      Typed code (if bool_decide (operation = "") then op else operation) message retryable (sanitizeDetails (d ∪ ds)) cause
  | _ => WithDetails d (Wrap CodeInternalError operation "operation failed" err)
  end.

(** The type assertion to [Unwrap() []error]. *)
Definition joined_children (err : app_error) : option (list app_error) :=
  match err with Joined _ children => Some children | _ => None end.

Definition CodeOf (err : option app_error) : Code :=
  match err with
  | None => ""
  | Some err =>
      match joined_children err with
      | Some _ => CodeInternalError
      | None => match find_typed err with Some (Typed code _ _ _ _ _) => normalizedCode code | _ => CodeInternalError end
      end
  end.

Definition ExitCodeOf (err : option app_error) : Z := ExitCode (CodeOf err).

(** ** The structured form *)

Definition maxCauseDepth : nat := 8.
Definition maxCauseCount : Z := 32.

Inductive ErrorInfo : Type :=
| MkInfo (ei_Code : Code) (ei_Operation ei_Message : string) (ei_Retryable : bool) (ei_Details : details) (ei_Causes : list ErrorInfo).

Definition depth_exceeded : ErrorInfo := MkInfo CodeInternalError "" "error cause depth exceeded" false ∅ [].

(** [causeInfos] over [infoOf] one level deeper, threading [remaining]. *)
Fixpoint causeInfos (infoOf : app_error -> Z -> ErrorInfo * Z) (causes : list app_error) (remaining : Z) : list ErrorInfo * Z :=
  match causes with
  | [] => ([], remaining)
  | cause :: causes' =>
      if remaining =? 0 then ([], remaining)
      else
        let '(i, remaining) := infoOf cause remaining in
        let '(rest, remaining) := causeInfos infoOf causes' remaining in
        (i :: rest, remaining)
  end.

(** [infoOf] of an error that is not nil, with [n] levels left before
    [maxCauseDepth]. *)
Fixpoint infoOf (n : nat) (err : app_error) (remaining : Z) : ErrorInfo * Z :=
  let remaining := remaining - 1 in
  match n with
  | O => (depth_exceeded, remaining)
  | S n' =>
      match joined_children err with
      | Some children =>
          let '(causes, remaining) := causeInfos (infoOf n') children remaining in
          (MkInfo CodeInternalError "" "multiple errors occurred" false ∅ causes, remaining)
      | None =>
          match find_typed err with
          | Some (Typed code operation message retryable ds cause) =>
              let code := normalizedCode code in
              let '(causes, remaining) :=
                match cause with
                | Some c => match joined_children c with Some children => causeInfos (infoOf n') children remaining | None => ([], remaining) end
                | None => ([], remaining)
                end in
              (MkInfo code operation (if bool_decide (message = "") then code else message) retryable (sanitizeDetails ds) causes, remaining)
          | _ => (MkInfo CodeInternalError "" (error_text err) false ∅ [], remaining)
          end
      end
  end.

Definition InfoOf (err : option app_error) : ErrorInfo :=
  match err with
  | None => MkInfo CodeInternalError "" "unknown error" false ∅ []
  | Some err => (infoOf maxCauseDepth err maxCauseCount).1
  end.

(** [validateInfo]: the error, or the count after the subtree. *)
Fixpoint validateInfo (info : ErrorInfo) (depth : nat) (count : Z) : result app_error Z :=
  match info with
  | MkInfo code _ message retryable ds causes =>
      let count := count + 1 in
      fail_if (maxCauseCount <? count) || (maxCauseDepth <? depth)%nat with Plain "structured error has too many causes" in
      fail_if negb (IsKnownCode code) with Plain "structured error code is unknown" in
      fail_if bool_decide (message = "") with Plain "structured error message is required" in
      fail_if negb (Bool.eqb retryable (Retryable code)) with Plain "structured error retryable does not match code" in
      fail_if negb (bool_decide (size ds = size (sanitizeDetails ds)))
        with Plain "structured error details contain unsupported fields or values" in
      (fix validate_all (l : list ErrorInfo) (count : Z) : result app_error Z :=
         match l with
         | [] => Ok count
         | c :: l' => match validateInfo c (S depth) count with Ok count => validate_all l' count | Err e => Err e end
         end) causes count
  end.

Definition ValidateInfo (info : ErrorInfo) : result app_error unit := let! _ := validateInfo info 0 0 in Ok tt.

Fixpoint FromInfo (info : ErrorInfo) : app_error :=
  match ValidateInfo info with
  | Err e => Wrap CodeServiceProtocolTooOld "service.protocol" "received an invalid structured service error" e
  | Ok _ =>
      match info with
      | MkInfo code operation message retryable ds causes =>
          let children := FromInfo <$> causes in
          Typed code operation message retryable (sanitizeDetails ds) (if bool_decide (length causes = 0%nat) then None else Some (join_errors children))
      end
  end.

(** * What survives the boundary *)

(** ** Induction over errors and infos *)

Section induction.
Context (P : app_error -> Prop) (Hplain : forall t, P (Plain t)) (Hwrapped : forall t e, P e -> P (Wrapped t e))
  (Hjoined : forall t l, Forall P l -> P (Joined t l))
  (Htyped : forall code op m r ds cause, (forall c, cause = Some c -> P c) -> P (Typed code op m r ds cause)).

Fixpoint app_error_rect' (e : app_error) : P e :=
  match e with
  | Plain t => Hplain t
  | Wrapped t e => Hwrapped t e (app_error_rect' e)
  | Joined t l =>
      Hjoined t l ((fix all (l : list app_error) : Forall P l :=
        match l with [] => Forall_nil_2 P | c :: l' => Forall_cons_2 P c l' (app_error_rect' c) (all l') end) l)
  | Typed code op m r ds cause =>
      Htyped code op m r ds cause
        match cause with
        | None => fun c H => match H in _ = y return match y with Some c => P c | None => True end with eq_refl => I end
        | Some e => fun c H => match H in _ = y return match y with Some c => P c | None => True end with eq_refl => app_error_rect' e end
        end
  end.
End induction.

Section info_induction.
Context (P : ErrorInfo -> Prop) (Hinfo : forall code op m r ds causes, Forall P causes -> P (MkInfo code op m r ds causes)).

Fixpoint info_rect' (i : ErrorInfo) : P i :=
  match i with
  | MkInfo code op m r ds causes =>
      Hinfo code op m r ds causes ((fix all (l : list ErrorInfo) : Forall P l :=
        match l with [] => Forall_nil_2 P | c :: l' => Forall_cons_2 P c l' (info_rect' c) (all l') end) causes)
  end.
End info_induction.

(** An error as the constructors make it: texts are not empty, and the
    retryable flag is that of the code. *)
Inductive made : app_error -> Prop :=
| made_plain t : t <> "" -> made (Plain t)
| made_wrapped t e : t <> "" -> made e -> made (Wrapped t e)
| made_joined t l : Forall made l -> made (Joined t l)
| made_typed code op m r ds cause :
    r = Retryable (normalizedCode code) -> (forall c, cause = Some c -> made c) -> made (Typed code op m r ds cause).

Fixpoint isize (i : ErrorInfo) : nat :=
  match i with
  | MkInfo _ _ _ _ _ causes => S ((fix total (l : list ErrorInfo) : nat := match l with [] => O | c :: l' => isize c + total l' end)%nat causes)
  end.

Definition sizes (l : list ErrorInfo) : nat := sum_list_with isize l.

Lemma sizes_cons c l : sizes (c :: l) = (isize c + sizes l)%nat.
Proof. done. Qed.

Lemma isize_eq code op m r ds causes : isize (MkInfo code op m r ds causes) = S (sizes causes).
Proof. done. Qed.

Lemma isize_pos i : (1 <= isize i)%nat.
Proof. destruct i. rewrite isize_eq. lia. Qed.

Definition node_ok (code : Code) (m : string) (r : bool) (ds : details) : Prop :=
  IsKnownCode code = true /\ m <> "" /\ r = Retryable code /\ sanitizeDetails ds = ds.

(** An info with at most [n] levels below its root, cut at the last one. *)
Fixpoint fits (n : nat) (i : ErrorInfo) : Prop :=
  match n with
  | O => i = depth_exceeded
  | S n' => match i with MkInfo code _ m r ds causes => node_ok code m r ds /\ Forall (fits n') causes end
  end.

Lemma normalized_known code : IsKnownCode (normalizedCode code) = true.
Proof. unfold normalizedCode. by destruct (IsKnownCode code) eqn:H. Qed.

Lemma normalized_id code : IsKnownCode code = true -> normalizedCode code = code.
Proof. unfold normalizedCode. by intros ->. Qed.

Lemma normalized_nonempty code : normalizedCode code <> "".
Proof. intros H. pose proof (normalized_known code) as Hk. rewrite H in Hk. by vm_compute in Hk. Qed.

Lemma sanitize_idem ds : sanitizeDetails (sanitizeDetails ds) = sanitizeDetails ds.
Proof. apply map_filter_id. intros k v Hk. by apply map_lookup_filter_Some in Hk as [_ Hk]. Qed.

Lemma fits_depth_exceeded n : fits n depth_exceeded.
Proof. destruct n; [done|]. cbn. split; [|done]. by vm_compute. Qed.

(** ** Validation *)

Definition validate_all (depth : nat) : list ErrorInfo -> Z -> result app_error Z :=
  fix go (l : list ErrorInfo) (count : Z) : result app_error Z :=
    match l with
    | [] => Ok count
    | c :: l' => match validateInfo c (S depth) count with Ok count => go l' count | Err e => Err e end
    end.

Lemma validateInfo_eq code op m r ds causes depth count :
  node_ok code m r ds -> count + 1 <= maxCauseCount -> (depth <= maxCauseDepth)%nat ->
  validateInfo (MkInfo code op m r ds causes) depth count = validate_all depth causes (count + 1).
Proof.
  intros (Hk & Hm & -> & Hs) Hc Hd. cbn [validateInfo]. rewrite Hk, Hs. rewrite bool_decide_eq_false_2 by done.
  rewrite Bool.eqb_reflx, bool_decide_eq_true_2 by done.
  assert ((maxCauseCount <? count + 1) = false) as -> by (apply Z.ltb_ge; lia).
  assert ((maxCauseDepth <? depth)%nat = false) as -> by (apply Nat.ltb_ge; lia). done.
Qed.

Lemma validate_fits n i depth count :
  fits n i -> (depth + n <= maxCauseDepth)%nat -> count + Z.of_nat (isize i) <= maxCauseCount ->
  validateInfo i depth count = Ok (count + Z.of_nat (isize i)).
Proof.
  revert i depth count. induction n as [|n IH]; intros [code op m r ds causes] depth count Hfits Hdepth Hcount.
  - cbn in Hfits. injection Hfits as -> -> -> -> -> ->. rewrite isize_eq in *. rewrite validateInfo_eq; [done|by vm_compute|change (sizes []) with 0%nat in Hcount; lia|lia].
  - destruct Hfits as [Hok Hall]. rewrite isize_eq in *. rewrite validateInfo_eq by (done || lia).
    assert (Hgo : forall l count, Forall (fits n) l -> count + Z.of_nat (sizes l) <= maxCauseCount -> validate_all depth l count = Ok (count + Z.of_nat (sizes l))).
    { intros l. induction l as [|c l IHl]; intros k Hl Hk; [cbn; f_equal; lia|]. rewrite sizes_cons in *. cbn [validate_all].
      apply Forall_cons in Hl as [Hc Hl]. rewrite (IH c (S depth) k) by (done || lia). rewrite IHl by (done || lia). f_equal. lia. }
    rewrite Hgo by (done || lia). f_equal. lia.
Qed.

Lemma ValidateInfo_fits n i :
  fits n i -> (n <= maxCauseDepth)%nat -> Z.of_nat (isize i) <= maxCauseCount -> ValidateInfo i = Ok tt.
Proof. intros Hf Hn Hs. unfold ValidateInfo. by rewrite (validate_fits n) by done. Qed.

(** ** Making infos *)

Lemma find_typed_made e t : made e -> find_typed e = Some t -> made t /\ exists code op m r ds cause, t = Typed code op m r ds cause.
Proof.
  revert e. apply (app_error_rect' (fun e => made e -> find_typed e = Some t -> _)); cbn [find_typed].
  - done.
  - intros s e IH Hm. inversion Hm; subst. by apply IH.
  - intros s l Hall Hm. inversion Hm as [| |? ? Hl|]; subst. clear Hm.
    induction Hall as [|c l Hc _ IHl]; [done|]. apply Forall_cons in Hl as [Hmc Hml].
    destruct (find_typed c) as [t'|] eqn:Hf; [|by apply IHl]. intros [= ->]. by apply Hc.
  - intros code op m r ds cause _ Hm [= <-]. split; [done|]. by eexists _, _, _, _, _, _.
Qed.

Lemma error_text_nonempty e : made e -> find_typed e = None -> joined_children e = None -> error_text e <> "".
Proof. intros Hm. by destruct Hm. Qed.

(** What [infoOf] builds from [remaining] nodes. *)
Definition built (n : nat) (remaining : Z) (out : ErrorInfo * Z) : Prop :=
  fits n out.1 /\ out.2 = remaining - Z.of_nat (isize out.1) /\ 0 <= out.2.

Lemma causeInfos_built n children remaining :
  0 <= remaining -> (forall e r, made e -> 1 <= r -> built n r (infoOf n e r)) -> Forall made children ->
  let out := causeInfos (infoOf n) children remaining in
  Forall (fits n) out.1 /\ out.2 = remaining - Z.of_nat (sizes out.1) /\ 0 <= out.2.
Proof.
  intros Hr Hbuilt Hall. revert remaining Hr. induction Hall as [|c l Hc _ IH]; intros remaining Hr; cbn [causeInfos].
  { cbn. split; [done|]. lia. }
  destruct (Z.eqb_spec remaining 0) as [->|Hne]; [cbn; split; [done|]; lia|].
  destruct (Hbuilt c remaining Hc) as (Hf & Hs & Hp); [lia|]. destruct (infoOf n c remaining) as [i r1]. cbn [fst snd] in *.
  destruct (IH r1 Hp) as (Hf2 & Hs2 & Hp2). destruct (causeInfos (infoOf n) l r1) as [rest r2]. cbn [fst snd] in *.
  split; [by constructor|]. split; [rewrite sizes_cons; lia|done].
Qed.

Lemma infoOf_built n e remaining : made e -> 1 <= remaining -> built n remaining (infoOf n e remaining).
Proof.
  revert e remaining. induction n as [|n IH]; intros e remaining Hm Hr; cbn [infoOf].
  { split; [done|]. cbn. lia. }
  destruct (joined_children e) as [children|] eqn:Hj.
  - destruct e; try done. injection Hj as ->. inversion Hm as [| |? ? Hl|]; subst.
    destruct (causeInfos_built n children (remaining - 1)) as (Hf & Hs & Hp); [lia|done|done|].
    destruct (causeInfos _ _ _) as [causes r1]. cbn [fst snd] in *. unfold built. cbn [fst snd]. rewrite isize_eq.
    split; [|lia]. split; [by vm_compute|done].
  - destruct (find_typed e) as [t|] eqn:Hf.
    + apply find_typed_made in Hf as [Ht (code & op & m & r & ds & cause & ->)]; [|done].
      inversion Ht as [| | |? ? ? ? ? ? Hret Hcause]; subst.
      set (causes := match cause with Some c => _ | None => _ end).
      assert (Hc : Forall (fits n) causes.1 /\ causes.2 = remaining - 1 - Z.of_nat (sizes causes.1) /\ 0 <= causes.2).
      { unfold causes. destruct cause as [c|]; [|cbn; split; [done|lia]]. destruct (joined_children c) as [children|] eqn:Hj'; [|cbn; split; [done|lia]].
        destruct c; try done. injection Hj' as ->. specialize (Hcause _ eq_refl). inversion Hcause; subst.
        apply causeInfos_built; [lia|done|done]. }
      destruct causes as [l r1]. cbn [fst snd] in Hc. destruct Hc as (Hall & Hs & Hp). unfold built. cbn [fst snd]. rewrite isize_eq.
      split; [|lia]. split; [|done]. split; [apply normalized_known|]. split; [|split; [done|apply sanitize_idem]].
      case_bool_decide; [apply normalized_nonempty|done].
    + unfold built. cbn [fst snd]. rewrite isize_eq. split; [|cbn; lia]. split; [|done]. split; [done|]. split; [by apply error_text_nonempty|done].
Qed.

(** ** Back from an info *)

Lemma FromInfo_eq code op m r ds causes :
  ValidateInfo (MkInfo code op m r ds causes) = Ok tt ->
  FromInfo (MkInfo code op m r ds causes) =
    Typed code op m r (sanitizeDetails ds) (if bool_decide (length causes = 0%nat) then None else Some (join_errors (FromInfo <$> causes))).
Proof. intros Hv. cbn [FromInfo]. by rewrite Hv. Qed.

Lemma infoOf_FromInfo n i remaining :
  fits n i -> (n <= maxCauseDepth)%nat -> Z.of_nat (isize i) <= maxCauseCount -> Z.of_nat (isize i) <= remaining ->
  infoOf n (FromInfo i) remaining = (i, remaining - Z.of_nat (isize i)).
Proof.
  revert i remaining. induction n as [|n IH]; intros i remaining Hfits Hn Hcount Hr; [by rewrite Hfits|].
  assert (Hv := ValidateInfo_fits _ _ Hfits Hn Hcount). destruct i as [code op m r ds causes].
  destruct Hfits as [(Hk & Hm & -> & Hs) Hall]. rewrite FromInfo_eq by done. cbn [infoOf joined_children find_typed].
  rewrite isize_eq in *. rewrite (normalized_id code), (bool_decide_eq_false_2 (m = "")), sanitize_idem, Hs by done.
  assert (Hgo : forall l r, Forall (fits n) l -> Z.of_nat (sizes l) <= maxCauseCount -> Z.of_nat (sizes l) <= r ->
    causeInfos (infoOf n) (FromInfo <$> l) r = (l, r - Z.of_nat (sizes l))).
  { intros l. induction l as [|c l IHl]; intros k Hl Hlc Hlk; [cbn; f_equal; lia|]. rewrite sizes_cons in *. rewrite fmap_cons. cbn [causeInfos].
    apply Forall_cons in Hl as [Hc Hl]. pose proof (isize_pos c). destruct (Z.eqb_spec k 0) as [->|_]; [lia|].
    rewrite IH by (done || lia). rewrite IHl by (done || lia). f_equal. lia. }
  case_bool_decide as Hnil.
  - destruct causes; [|done]. cbn. f_equal; lia.
  - cbn [joined_children join_errors]. rewrite Hgo by (done || lia). f_equal; lia.
Qed.

Lemma made_New code op m : made (New code op m).
Proof. constructor; [by rewrite (normalized_id (normalizedCode code)) by apply normalized_known|done]. Qed.

Lemma made_Wrap code op m cause : made cause -> made (Wrap code op m cause).
Proof. intros Hc. constructor; [by rewrite (normalized_id (normalizedCode code)) by apply normalized_known|by intros c [= <-]]. Qed.

Lemma validate_err_text i depth count e : validateInfo i depth count = Err e -> exists t, e = Plain t /\ t <> "".
Proof.
  revert i depth count.
  apply (info_rect' (fun i => forall depth count, validateInfo i depth count = Err e -> exists t, e = Plain t /\ t <> "")).
  intros code op m r ds causes Hall depth count. cbn [validateInfo].
  repeat (unfold guard_err at 1; destruct (_ : bool); [intros [= <-]; by eexists|]).
  generalize (count + 1). induction Hall as [|c causes Hc _ IHc]; intros k; [done|].
  destruct (validateInfo c (S depth) k) as [k'|e'] eqn:Hv; [apply IHc|]. intros [= <-]. exact (Hc _ _ Hv).
Qed.

(** Whatever a peer sends becomes an error like those made here. *)
Lemma made_FromInfo i : made (FromInfo i).
Proof.
  revert i. apply info_rect'. intros code op m r ds causes IH. cbn [FromInfo].
  destruct (ValidateInfo _) as [[]|e] eqn:Hv.
  - apply bind_Ok in Hv as (k & Hv & _). cbn [validateInfo] in Hv. inv_result. to_prop.
    constructor.
    + rewrite normalized_id by done. by apply Bool.eqb_prop.
    + intros c Hc. case_bool_decide; [done|]. injection Hc as <-. constructor. by apply Forall_fmap.
  - apply made_Wrap. unfold ValidateInfo in Hv. apply bind_Err in Hv as [Hv|(? & _ & ?)]; [|done].
    apply validate_err_text in Hv as (t & -> & Ht). by constructor.
Qed.

Lemma infoOf_code n e r : match (infoOf (S n) e r).1 with MkInfo code _ _ _ _ _ => code = CodeOf (Some e) end.
Proof.
  cbn [infoOf CodeOf]. destruct (joined_children e); [by destruct (causeInfos _ _ _)|].
  destruct (find_typed e) as [[| | |code op m rt ds cause]|]; try done.
  destruct cause as [c|]; [|done]. destruct (joined_children c); [by destruct (causeInfos _ _ _)|done].
Qed.

(** C38: errors survive process boundaries.  The structured form of an error
    made with the constructors is accepted by the peer; it becomes an error
    whose structured form is the same, and whose code, and so the exit status,
    is that of the original.  What the peer makes of any info, also an invalid
    one, is again such an error. *)
Theorem errors_cross_processes (e : app_error) (i : ErrorInfo) :
  made e ->
  ValidateInfo (InfoOf (Some e)) = Ok tt /\
  InfoOf (Some (FromInfo (InfoOf (Some e)))) = InfoOf (Some e) /\
  CodeOf (Some (FromInfo (InfoOf (Some e)))) = CodeOf (Some e) /\
  ExitCodeOf (Some (FromInfo (InfoOf (Some e)))) = ExitCodeOf (Some e) /\
  made (FromInfo i).
Proof.
  intros Hm. destruct (infoOf_built maxCauseDepth e maxCauseCount Hm) as (Hf & Hs & Hp); [done|]. unfold InfoOf at 1 2.
  set (info := (infoOf maxCauseDepth e maxCauseCount).1) in *.
  assert (Hv : ValidateInfo info = Ok tt) by (apply (ValidateInfo_fits maxCauseDepth); [done|done|lia]).
  assert (Hback : InfoOf (Some (FromInfo info)) = info) by (unfold InfoOf; rewrite infoOf_FromInfo; [done|done|done|lia|unfold maxCauseCount in *; lia]).
  assert (Hcode : CodeOf (Some (FromInfo info)) = CodeOf (Some e)).
  { pose proof (infoOf_code 7 e maxCauseCount) as H1. pose proof (infoOf_code 7 (FromInfo info) maxCauseCount) as H2.
    change (infoOf 8 e maxCauseCount) with (infoOf maxCauseDepth e maxCauseCount) in H1. fold info in H1.
    change (infoOf 8 (FromInfo info) maxCauseCount).1 with (InfoOf (Some (FromInfo info))) in H2. rewrite Hback in H2.
    destruct info. congruence. }
  split; [done|]. split; [done|]. split; [exact Hcode|]. split; [|apply made_FromInfo].
  unfold ExitCodeOf. change (InfoOf (Some e)) with info. by rewrite Hcode.
Qed.

Lemma errors_cross_processes_witness :
  let e := Wrapped "start: a; b" (Typed CodeRollbackIncomplete "service.start" "" false {[ "holder_pid" := DNumber "7"; "secret" := DString "x" ]}
             (Some (Joined "a; b" [Plain "a"; New CodeReloadTimeout "service.reload" "timed out"]))) in
  InfoOf (Some e) = MkInfo CodeRollbackIncomplete "service.start" "ROLLBACK_INCOMPLETE" false {[ "holder_pid" := DNumber "7" ]}
    [MkInfo CodeInternalError "" "a" false ∅ []; MkInfo CodeReloadTimeout "service.reload" "timed out" true ∅ []] /\
  InfoOf (Some (FromInfo (InfoOf (Some e)))) = InfoOf (Some e) /\ ExitCodeOf (Some e) = 7.
Proof.
  intros e. split; [by vm_compute|]. split; [|by vm_compute].
  apply (errors_cross_processes e depth_exceeded). constructor; [done|]. constructor; [by vm_compute|].
  intros c [= <-]. constructor. repeat constructor; done.
Defined.
