(* ===== verification/Privsep.v ===== *)
(** * Component [internal/privsep]: the protocol between supervisor and worker

    [protocol.go] and [identity.go]: the messages, what makes their contents
    acceptable, frames on a byte stream, and the account of the worker.  An
    error is modelled by the constant part of its text.  JSON and SHA-256 are
    parameters; [EncodingLaw] says what is expected of JSON.  The lemmas at the end are about frames
    and accepted payloads. *)

From S2P Require Import Prelude.
From S2P Require Import GoStrings.
From S2P Require Import NetIP.
From S2P Require Import NetIPText.
From S2P Require Import GoFiles.
From S2P Require Import Apperror.

(** ** Messages *)

Definition ProtocolVersion : Z := 3.
Definition MaxConfigSize : Z := 2 ^ 20.
Definition maxFrameSize : Z := 2 * 2 ^ 20.
Definition maxDNSInterfaces : Z := 32.
Definition maxDNSServers : Z := 8.

(** [Kind] is a string; that of a received message may be any. *)
Definition Kind : Type := string.

Definition KindBootstrap : Kind := "bootstrap".
Definition KindPrepared : Kind := "prepared".
Definition KindCommit : Kind := "commit".
Definition KindRunning : Kind := "running".
Definition KindReload : Kind := "reload".
Definition KindReloadResult : Kind := "reload_result".
Definition KindShutdown : Kind := "shutdown".
Definition KindStopped : Kind := "stopped".
Definition KindFatal : Kind := "fatal".

Definition knownKind (kind : Kind) : bool :=
  bool_decide (kind ∈ [KindBootstrap; KindPrepared; KindCommit; KindRunning; KindReload; KindReloadResult; KindShutdown; KindStopped; KindFatal]).

(** The payload is JSON text. *)
Record Message : Type := MkMessage { msg_Version : Z; msg_Kind : Kind; msg_RequestID : Z; msg_Payload : string }.

#[export] Instance Message_eq_dec : EqDecision Message.
Proof. solve_decision. Defined.

(** A nil map and an empty one behave alike. *)
Definition interface_dns : Type := gmap string (list addr_port).

Record Bootstrap : Type := MkBootstrap {
  bs_Config : string;
  bs_ConfigDigest : string;
  bs_TUNName : string;
  bs_DNSListen : string;
  bs_StatusSocket : string;
  bs_IPv6Enabled : bool;
  bs_IPv6FallbackReason : string;
  bs_InterfaceDNS : interface_dns
}.

Record Prepared : Type := MkPrepared { pr_PID : Z; pr_UID : Z; pr_GID : Z }.

Record Reload : Type := MkReload { rl_ReloadRequestID : string; rl_Config : string; rl_ConfigDigest : string; rl_InterfaceDNS : interface_dns }.

Record ReloadResult : Type := MkReloadResult { rr_ReloadRequestID : string; rr_ConfigDigest : string; rr_Error : option ErrorInfo }.

#[export] Instance Bootstrap_eq_dec : EqDecision Bootstrap.
Proof. solve_decision. Defined.
#[export] Instance Prepared_eq_dec : EqDecision Prepared.
Proof. solve_decision. Defined.
#[export] Instance Reload_eq_dec : EqDecision Reload.
Proof. solve_decision. Defined.

(** The types of payloads: those with one field are that field. *)
Inductive target : Type := TBootstrap | TPrepared | TCommit | TRunning | TReload | TReloadResult | TShutdown | TStopped | TFatal.

Definition body (T : target) : Type :=
  match T with
  | TBootstrap => Bootstrap
  | TPrepared => Prepared
  | TReload => Reload
  | TReloadResult => ReloadResult
  | TCommit | TRunning | TShutdown | TStopped | TFatal => string
  end.

(** ** Checks *)

(** [errors.Join(failures...)] as the result of a check. *)
Definition joined (failures : list app_error) : result app_error unit :=
  if bool_decide (failures = []) then Ok tt else Err (join_errors failures).

(** A failure that is found when [b] holds. *)
Definition failing (b : bool) (e : string) : list app_error := if b then [Plain e] else [].

Definition check_failures (r : result app_error unit) : list app_error := match r with Ok _ => [] | Err e => [e] end.

Definition validateExternalRequestID (requestID : string) : result app_error unit :=
  fail_if negb (slen requestID =? 32) || negb (bool_decide (requestID = to_lower requestID))
    with Plain "reload request ID must be 32 lowercase hex characters" in
  fail_if negb (hex_decodes requestID) with Wrapped "reload request ID is invalid" (Plain "encoding/hex") in
  Ok tt.

Definition validateDigest (digest : string) : result app_error unit :=
  let prefix := "sha256:" in
  fail_if negb (has_prefix digest prefix) || negb (slen digest =? slen prefix + 64)
    with Plain "config digest must be sha256:<64 hex characters>" in
  fail_if negb (hex_decodes (trim_prefix digest prefix)) with Wrapped "config digest is invalid" (Plain "encoding/hex") in
  Ok tt.

Definition name_char (c : ascii) : bool :=
  is_lower c || is_upper c || is_digit c || Ascii.eqb c "_" || Ascii.eqb c "-" || Ascii.eqb c ".".

(** A server that traffic for the interface must not be sent to. *)
Definition unsafe_server (server : addr_port) : bool :=
  let address := unmap (ap_addr server) in
  negb (ap_valid server) || negb (ap_port server =? 53) || negb (addr_valid address) || is_unspecified address
  || is_loopback address || is_multicast address.

Fixpoint server_failures (seen servers : list addr_port) : list app_error :=
  match servers with
  | [] => []
  | server :: rest =>
      failing (unsafe_server server) "interface DNS contains unsafe server"
      ++ failing (bool_decide (server ∈ seen)) "interface DNS contains duplicate server"
      ++ server_failures (server :: seen) rest
  end.

Definition interface_failures (entry : string * list addr_port) : list app_error :=
  let '(interfaceName, servers) := entry in
  if bool_decide (interfaceName = "") || (15 <? slen interfaceName) || has_prefix interfaceName "-"
  then [Plain "interface DNS name is invalid"]
  else
    failing (negb (sforall name_char interfaceName)) "interface DNS name is invalid"
    ++ (if bool_decide (length servers = 0%nat) || (maxDNSServers <? Z.of_nat (length servers))
        then [Plain "interface DNS must contain 1..8 servers"]
        else server_failures [] servers).

(** [validateInterfaceDNS]: the order of the failures follows that of the map,
    which Go leaves open. *)
Definition validateInterfaceDNS (configured : interface_dns) : result app_error unit :=
  fail_if maxDNSInterfaces <? Z.of_nat (size configured) with Plain "interface DNS contains too many interfaces" in
  joined (map_to_list configured ≫= interface_failures).

Section digests.
Context (sha256 : string -> string).

Definition validatePayloadDigest (contents digest : string) : result app_error unit :=
  fail_if negb (bool_decide (digest = "sha256:" +:+ sha256 contents)) with Plain "config payload digest mismatch" in Ok tt.

Definition config_failures (config digest empty large : string) : list app_error :=
  (if slen config =? 0 then [Plain empty] else failing (MaxConfigSize <? slen config) large)
  ++ match validateDigest digest with Err e => [e] | Ok _ => check_failures (validatePayloadDigest config digest) end.

Definition listen_ok (text : string) : bool :=
  match parse_addr_port text with
  | Some listen => ap_valid listen && is4 (ap_addr listen) && is_loopback (ap_addr listen) && negb (ap_port listen =? 0)
  | None => false
  end.

Definition Bootstrap_Validate (bootstrap : Bootstrap) : result app_error unit :=
  joined
    (config_failures (bs_Config bootstrap) (bs_ConfigDigest bootstrap) "bootstrap config is empty" "bootstrap config is too large"
     ++ failing (negb (has_prefix (bs_TUNName bootstrap) "utun") || (slen (bs_TUNName bootstrap) <=? slen "utun"))
          "bootstrap TUN name is invalid"
     ++ failing (negb (listen_ok (bs_DNSListen bootstrap))) "bootstrap DNS listen address must be non-zero IPv4 loopback"
     ++ (if negb (is_abs (bs_StatusSocket bootstrap)) || negb (bool_decide (clean (bs_StatusSocket bootstrap) = bs_StatusSocket bootstrap))
         then [Plain "bootstrap status socket must be a clean absolute path"]
         else failing (103 <? slen (bs_StatusSocket bootstrap)) "bootstrap status socket exceeds the macOS path limit")
     ++ failing (bs_IPv6Enabled bootstrap && negb (bool_decide (bs_IPv6FallbackReason bootstrap = "")))
          "enabled IPv6 bootstrap cannot include a fallback reason"
     ++ check_failures (validateInterfaceDNS (bs_InterfaceDNS bootstrap))).

Definition Reload_Validate (reload : Reload) : result app_error unit :=
  joined
    (check_failures (validateExternalRequestID (rl_ReloadRequestID reload))
     ++ config_failures (rl_Config reload) (rl_ConfigDigest reload) "reload config is empty" "reload config is too large"
     ++ check_failures (validateInterfaceDNS (rl_InterfaceDNS reload))).
End digests.

Definition Prepared_Validate (prepared : Prepared) : result app_error unit :=
  fail_if pr_PID prepared <=? 0 with Plain "prepared worker PID must be positive" in
  fail_if (pr_UID prepared =? 0) || (pr_GID prepared =? 0) with Plain "prepared worker must be non-root" in
  Ok tt.

Definition ReloadResult_Validate (r : ReloadResult) : result app_error unit :=
  joined
    (check_failures (validateExternalRequestID (rr_ReloadRequestID r))
     ++ match rr_Error r with
        | None => check_failures (validateDigest (rr_ConfigDigest r))
        | Some info =>
            failing (negb (bool_decide (rr_ConfigDigest r = ""))) "failed reload result must not include a config digest"
            ++ match ValidateInfo info with Ok _ => [] | Err e => [Wrapped "reload result error is invalid" e] end
        end).

(** ** JSON *)

(** [json.Marshal], [json.Decoder.Decode] of exactly one value without unknown
    fields, what a failed [Decode] leaves in its target, and what JSON makes of
    a string that is not valid UTF-8. *)
Class Encoding : Type := {
  marshal : forall T : target, body T -> option string;
  unmarshal : forall T : target, string -> result app_error (body T);
  partial : forall T : target, string -> body T;
  marshal_message : Message -> option string;
  unmarshal_message : string -> result app_error Message;
  utf8 : string -> string
}.

Definition wire_detail `{Encoding} (d : detail) : detail :=
  match d with DString s => DString (utf8 s) | DTime t => DString t | _ => d end.

Definition wire_map {A} `{Encoding} (f : A -> A) (m : gmap string A) : gmap string A :=
  list_to_map (prod_map utf8 f <$> map_to_list m).

Fixpoint wire_info `{Encoding} (i : ErrorInfo) : ErrorInfo :=
  match i with
  | MkInfo code op m r ds causes => MkInfo (utf8 code) (utf8 op) (utf8 m) r (wire_map wire_detail ds) (wire_info <$> causes)
  end.

(** A value after it went through JSON. *)
Definition wire `{Encoding} (T : target) : body T -> body T :=
  match T with
  | TBootstrap => fun b =>
      MkBootstrap (bs_Config b) (utf8 (bs_ConfigDigest b)) (utf8 (bs_TUNName b)) (utf8 (bs_DNSListen b)) (utf8 (bs_StatusSocket b))
        (bs_IPv6Enabled b) (utf8 (bs_IPv6FallbackReason b)) (wire_map id (bs_InterfaceDNS b))
  | TPrepared => fun p => p
  | TReload => fun r => MkReload (utf8 (rl_ReloadRequestID r)) (rl_Config r) (utf8 (rl_ConfigDigest r)) (wire_map id (rl_InterfaceDNS r))
  | TReloadResult => fun r => MkReloadResult (utf8 (rr_ReloadRequestID r)) (utf8 (rr_ConfigDigest r)) (wire_info <$> rr_Error r)
  | TCommit | TRunning | TShutdown | TStopped | TFatal => utf8
  end.

(** Every server prints as a text that parses back. *)
Definition printable_dns (dns : interface_dns) : Prop :=
  map_Forall (fun _ servers => Forall (fun server => printable (ap_addr server)) servers) dns.

Definition printable_body (T : target) : body T -> Prop :=
  match T with
  | TBootstrap => fun b => printable_dns (bs_InterfaceDNS b)
  | TReload => fun r => printable_dns (rl_InterfaceDNS r)
  | _ => fun _ => True
  end.

Definition ascii_char (c : ascii) : bool := code c <? 128.

Class EncodingLaw (E : Encoding) : Prop := {
  utf8_ascii : forall s, sforall ascii_char s = true -> utf8 s = s;
  utf8_nonempty : forall s, utf8 s = "" -> s = "";
  unmarshal_marshal : forall T b s, marshal T b = Some s -> s <> "" /\ (printable_body T b -> unmarshal T s = Ok (wire T b));
  unmarshal_marshal_message : forall m s,
    marshal_message m = Some s -> knownKind (msg_Kind m) = true -> (exists T b, marshal T b = Some (msg_Payload m)) ->
    s <> "" /\ unmarshal_message s = Ok m
}.

(** ** Frames *)

(** What the other side of [writer.Write] does: how many bytes it takes, and
    whether the call reports an error. *)
Record writer : Type := MkWriter { wr_written : string; wr_plan : list (nat * bool) }.

Definition Write (contents : string) (w : writer) : nat * bool * writer :=
  let '(count, failed, plan) :=
    match wr_plan w with
    | [] => (String.length contents, false, [])
    | (n, failed) :: plan => (Nat.min n (String.length contents), failed, plan)
    end in
  (count, failed, MkWriter (wr_written w +:+ stake count contents) plan).

(** [writeAll], with at most [fuel] calls. *)
Fixpoint write_loop (fuel : nat) (contents : string) (w : writer) : result app_error unit * writer :=
  if bool_decide (contents = "") then (Ok tt, w)
  else match fuel with
       | O => (Err (Plain "out of fuel"), w)
       | S fuel' =>
           let '(count, failed, w) := Write contents w in
           if failed then (Err (Plain "write"), w)
           else if (count <=? 0)%nat then (Err (Plain "short write"), w)
           else write_loop fuel' (sdrop count contents) w
       end.

Definition writeAll (contents : string) (w : writer) : result app_error unit * writer := write_loop (String.length contents) contents w.

(** [binary.BigEndian] on four bytes. *)
Definition PutUint32 (size : Z) : string :=
  String (byte (size / 2 ^ 24 mod 256)) (String (byte (size / 2 ^ 16 mod 256)) (String (byte (size / 2 ^ 8 mod 256)) (String (byte (size mod 256)) ""))).

Fixpoint Uint32_from (acc : Z) (bytes : string) : Z :=
  match bytes with
  | EmptyString => acc
  | String c rest => Uint32_from (acc * 256 + code c) rest
  end.

Definition Uint32 (bytes : string) : Z := Uint32_from 0 bytes.

(** What [reader.Read] delivers, call by call, and the error after that. *)
Record reader : Type := MkReader { rd_chunks : list string; rd_end : app_error }.

Definition EOF : app_error := Plain "EOF".
Definition UnexpectedEOF : app_error := Plain "unexpected EOF".

(** [errors.Is(err, io.EOF)] for the errors of [Receive]. *)
Fixpoint is_EOF (e : app_error) : bool :=
  match e with
  | Plain t => String.eqb t "EOF"
  | Wrapped _ inner => is_EOF inner
  | _ => false
  end.

(** [io.ReadFull] of [n] bytes, after the bytes [got]. *)
Fixpoint read_loop (n : nat) (got : string) (chunks : list string) (ending : app_error) : result app_error string * list string :=
  match chunks with
  | [] => if bool_decide (n = 0%nat) then (Ok got, [])
          else (Err (if is_EOF ending && negb (bool_decide (got = "")) then UnexpectedEOF else ending), [])
  | c :: rest =>
      if (n <=? String.length c)%nat then (Ok (got +:+ stake n c), sdrop n c :: rest)
      else read_loop (n - String.length c) (got +:+ c) rest ending
  end.

Definition ReadFull (n : nat) (r : reader) : result app_error string * reader :=
  let '(res, chunks) := read_loop n "" (rd_chunks r) (rd_end r) in
  (res, MkReader chunks (rd_end r)).

(** The arguments of a call of [Send]. *)
Record sending : Type := MkSending { sd_Kind : Kind; sd_RequestID : Z; sd_target : target; sd_payload : body sd_target }.

Section codec.
Context `{Encoding}.

(** [Send] up to the frame that it writes. *)
Definition frame (kind : Kind) (requestID : Z) (T : target) (payload : body T) : result app_error (Message * string) :=
  fail_if negb (knownKind kind) with Plain "unknown privilege-separation message kind" in
  match marshal T payload with
  | None => Err (Wrapped "encode payload" (Plain "json"))
  | Some payloadBytes =>
      let message := MkMessage ProtocolVersion kind requestID payloadBytes in
      match marshal_message message with
      | None => Err (Wrapped "encode message" (Plain "json"))
      | Some messageBytes =>
          fail_if maxFrameSize <? slen messageBytes with Plain "message exceeds the frame size" in
          Ok (message, messageBytes)
      end
  end.

Definition write_frame (messageBytes : string) (w : writer) : result app_error unit * writer :=
  match writeAll (PutUint32 (slen messageBytes mod 2 ^ 32)) w with
  | (Err e, w) => (Err (Wrapped "write header" e), w)
  | (Ok _, w) =>
      match writeAll messageBytes w with
      | (Err e, w) => (Err (Wrapped "write message" e), w)
      | (Ok _, w) => (Ok tt, w)
      end
  end.

Definition Send (kind : Kind) (requestID : Z) (T : target) (payload : body T) (w : writer) : result app_error unit * writer :=
  match frame kind requestID T payload with
  | Err e => (Err e, w)
  | Ok (_, messageBytes) => write_frame messageBytes w
  end.

(** The checks of [Receive] on the contents of a frame. *)
Definition receive_contents (contents : string) : result app_error Message :=
  let! message := map_err (Wrapped "decode privilege-separation message") (unmarshal_message contents) in
  fail_if negb (msg_Version message =? ProtocolVersion) with Plain "unsupported privilege-separation protocol version" in
  fail_if negb (knownKind (msg_Kind message)) with Plain "unknown privilege-separation message kind" in
  fail_if slen (msg_Payload message) =? 0 with Plain "message has no payload" in
  Ok message.

Definition Receive (r : reader) : result app_error Message * reader :=
  match ReadFull 4 r with
  | (Err e, r) => (Err (Wrapped "read privilege-separation header" e), r)
  | (Ok header, r) =>
      let size := Uint32 header in
      if (size =? 0) || (maxFrameSize <? size) then (Err (Plain "invalid privilege-separation frame size"), r)
      else
        match ReadFull (Z.to_nat size) r with
        | (Err e, r) => (Err (Wrapped "read privilege-separation frame" e), r)
        | (Ok contents, r) => (receive_contents contents, r)
        end
  end.

Definition DecodePayload (T : target) (message : Message) : result app_error (body T) :=
  map_err (Wrapped "decode payload") (unmarshal T (msg_Payload message)).

(** [ReceiveKind] on what [Receive] returned. *)
Definition ReceiveKind (T : target) (want : Kind) (received : result app_error Message) : result app_error (body T) :=
  let! message := received in
  if bool_decide (msg_Kind message = KindFatal) then
    let! text := (DecodePayload TFatal message : result app_error string) in
    Err (Plain (if bool_decide (trim_space text = "") then "worker reported an unspecified fatal error" else text))
  else
    fail_if negb (bool_decide (msg_Kind message = want)) with Plain "received an unexpected message" in
    DecodePayload T message.
End codec.

(** ** The account of the worker *)

Definition ProductionUser : string := "_tun-proxy".
Definition ProductionGroup : string := "_tun-proxy".
Definition ProductionHome : string := "/var/empty".

(** [user.User] and [user.Group]; an identity keeps the two names, the numbers
    and the home. *)
Record account : Type := MkAccount { ac_Username : string; ac_Uid : string; ac_Gid : string; ac_HomeDir : string }.
Record group : Type := MkGroup { gr_Name : string; gr_Gid : string }.
Record Identity : Type := MkIdentity { id_User : string; id_Group : string; id_UID : Z; id_GID : Z; id_Home : string }.

Definition parseID (raw : string) : result app_error Z :=
  match parse_uint 32 raw with
  | Some v => Ok v
  | None => Err (Wrapped "invalid worker ID" (Plain "strconv.ParseUint"))
  end.

Definition ResolveProductionIdentity (LookupUser : string -> result app_error account) (LookupGroup : string -> result app_error group)
  : result app_error Identity :=
  let! account := map_err (Wrapped "lookup dedicated worker user") (LookupUser ProductionUser) in
  let! group := map_err (Wrapped "lookup dedicated worker group") (LookupGroup ProductionGroup) in
  let! uid := parseID (ac_Uid account) in
  let! primaryGID := parseID (ac_Gid account) in
  let! groupGID := parseID (gr_Gid group) in
  let identity := MkIdentity (ac_Username account) (gr_Name group) uid primaryGID (ac_HomeDir account) in
  let! _ := joined
    (failing (negb (bool_decide (id_User identity = ProductionUser))) "worker user resolved to another name"
     ++ failing (negb (bool_decide (id_Group identity = ProductionGroup))) "worker group resolved to another name"
     ++ failing ((uid =? 0) || (primaryGID =? 0)) "worker identity must be non-root"
     ++ failing (negb (primaryGID =? groupGID)) "worker primary GID does not match dedicated group GID"
     ++ failing (negb (bool_decide (id_Home identity = ProductionHome))) "worker home mismatch") in
  Ok identity.

Definition NormalizeCredentialID (value : Z) : Z := value mod 2 ^ 32.

(** [ValidateCurrentIdentity] with what the system calls return. *)
Definition ValidateCurrentIdentity (euid egid : Z) (groups : option (list Z)) (identity : Identity) : result app_error unit :=
  match groups with
  | None => Err (Wrapped "read worker supplementary groups" (Plain "getgroups"))
  | Some groups =>
      fail_if negb (NormalizeCredentialID euid =? id_UID identity) || negb (NormalizeCredentialID egid =? id_GID identity)
        with Plain "worker credential mismatch" in
      fail_if match groups with [g] => negb (NormalizeCredentialID g =? id_GID identity) | _ => true end
        with Plain "worker supplementary groups mismatch" in
      Ok tt
  end.

(** * Frames and payloads *)

(** ** Numbers in a header *)

Lemma Uint32_PutUint32 z : 0 <= z < 2 ^ 32 -> Uint32 (PutUint32 z) = z.
Proof.
  intros Hz. unfold PutUint32, Uint32. cbn [Uint32_from]. rewrite !code_byte by (apply Z.mod_pos_bound; lia).
  change (2 ^ 24) with (256 * 256 * 256). change (2 ^ 16) with (256 * 256). change (2 ^ 8) with 256. change (2 ^ 32) with 4294967296 in Hz.
  Z.to_euclidean_division_equations. lia.
Qed.

(** ** Writing and reading *)

Lemma write_loop_spec fuel contents w :
  (String.length contents <= fuel)%nat ->
  exists sent rest, contents = sent +:+ rest /\ wr_written (write_loop fuel contents w).2 = wr_written w +:+ sent /\
    ((write_loop fuel contents w).1 = Ok tt -> rest = "") /\
    (write_loop fuel contents w).1 <> Err (Plain "out of fuel").
Proof.
  revert contents w. induction fuel as [|fuel IH]; intros contents w Hlen; cbn [write_loop].
  all: case_bool_decide as Hnil; [exists "", ""; repeat split; rewrite ?sapp_nil_r; done|].
  { destruct contents; [done|cbn in Hlen; lia]. }
  unfold Write. set (next := match wr_plan w with [] => _ | _ => _ end).
  assert (Hcount : (next.1.1 <= String.length contents)%nat) by (unfold next; destruct (wr_plan w) as [|[n f] plan]; cbn; lia).
  destruct next as [[count failed] plan]. cbn [fst] in Hcount.
  assert (Hstop : forall e, e <> Plain "out of fuel" -> exists sent rest, contents = sent +:+ rest /\
    wr_written w +:+ stake count contents = wr_written w +:+ sent /\ (Err (A := unit) e = Ok tt -> rest = "") /\ Err (A := unit) e <> Err (Plain "out of fuel")).
  { intros e He. exists (stake count contents), (sdrop count contents). rewrite stake_sdrop. split; [done|]. split; [done|]. split; [done|congruence]. }
  destruct failed; [by apply Hstop|]. destruct (Nat.leb_spec count 0) as [|Hpos]; [by apply Hstop|].
  assert (Hl : String.length contents = (count + String.length (sdrop count contents))%nat).
  { clear -Hcount. revert contents Hcount. induction count as [|n IHn]; intros [|c s] H; cbn in *; try lia. rewrite (IHn s) at 1; lia. }
  destruct (IH (sdrop count contents) (MkWriter (wr_written w +:+ stake count contents) plan)) as (sent & rest & Heq & Hw & Hok & Hfuel); [lia|].
  exists (stake count contents +:+ sent), rest. rewrite <- sapp_assoc, <- Heq, stake_sdrop. cbn [wr_written] in Hw.
  split; [done|]. split; [by rewrite Hw, <- sapp_assoc|done].
Qed.

Lemma writeAll_spec contents w :
  exists sent rest, contents = sent +:+ rest /\ wr_written (writeAll contents w).2 = wr_written w +:+ sent /\
    ((writeAll contents w).1 = Ok tt -> rest = "").
Proof. destruct (write_loop_spec (String.length contents) contents w) as (s & r & ? & ? & ? & _); [done|]. by exists s, r. Qed.

Lemma write_frame_spec bytes w :
  slen bytes < 2 ^ 32 ->
  exists sent rest, PutUint32 (slen bytes) +:+ bytes = sent +:+ rest /\ wr_written (write_frame bytes w).2 = wr_written w +:+ sent /\
    match (write_frame bytes w).1 with Ok _ => rest = "" | Err _ => True end.
Proof.
  intros Hlen. unfold write_frame. assert (0 <= slen bytes) by (unfold slen; lia). rewrite Z.mod_small by lia.
  destruct (writeAll_spec (PutUint32 (slen bytes)) w) as (s1 & r1 & Heq1 & Hw1 & Hok1).
  destruct (writeAll (PutUint32 _) w) as [[[]|e] w1]; cbn [fst snd] in *.
  - specialize (Hok1 eq_refl). subst r1. rewrite sapp_nil_r in Heq1.
    destruct (writeAll_spec bytes w1) as (s2 & r2 & Heq2 & Hw2 & Hok2). destruct (writeAll bytes w1) as [[[]|e] w2]; cbn [fst snd] in *.
    + exists (s1 +:+ s2), r2. rewrite Heq1, Heq2 at 1. rewrite <- sapp_assoc. split; [done|]. split; [by rewrite Hw2, Hw1, sapp_assoc|by apply Hok2].
    + exists (s1 +:+ s2), r2. rewrite Heq1, Heq2 at 1. rewrite <- sapp_assoc. split; [done|]. split; [by rewrite Hw2, Hw1, sapp_assoc|done].
  - exists s1, (r1 +:+ bytes). rewrite Heq1, sapp_assoc. done.
Qed.

(** The bytes of a reader. *)
Definition stream (chunks : list string) : string := string_join "" chunks.

Lemma stream_cons c chunks : stream (c :: chunks) = c +:+ stream chunks.
Proof. destruct chunks; [by rewrite sapp_nil_r|done]. Qed.

Lemma read_loop_enough n got chunks ending :
  (n <= String.length (stream chunks))%nat ->
  (read_loop n got chunks ending).1 = Ok (got +:+ stake n (stream chunks)) /\ stream (read_loop n got chunks ending).2 = sdrop n (stream chunks).
Proof.
  revert n got. induction chunks as [|c chunks IH]; intros n got Hn; cbn [read_loop].
  - cbn in Hn. replace n with O by lia. by rewrite sapp_nil_r.
  - rewrite stream_cons in *. rewrite sapp_length in Hn. destruct (Nat.leb_spec n (String.length c)) as [Hle|Hlt].
    + destruct (stake_app_le n c (stream chunks) Hle) as [-> ->]. split; [done|]. apply stream_cons.
    + destruct (stake_app_ge n c (stream chunks)) as [-> ->]; [lia|]. rewrite sapp_assoc. apply IH. lia.
Qed.

Lemma read_loop_short n got chunks ending :
  (String.length (stream chunks) < n)%nat -> exists e, (read_loop n got chunks ending).1 = Err e.
Proof.
  revert n got. induction chunks as [|c chunks IH]; intros n got Hn; cbn [read_loop].
  - cbn in Hn. rewrite bool_decide_eq_false_2 by lia. by eexists.
  - rewrite stream_cons, sapp_length in Hn. destruct (Nat.leb_spec n (String.length c)); [lia|]. apply IH. lia.
Qed.

Lemma ReadFull_app s rest chunks ending :
  stream chunks = s +:+ rest ->
  exists chunks', ReadFull (String.length s) (MkReader chunks ending) = (Ok s, MkReader chunks' ending) /\ stream chunks' = rest.
Proof.
  intros Heq. destruct (read_loop_enough (String.length s) "" chunks ending) as [H1 H2]; [rewrite Heq, sapp_length; lia|].
  unfold ReadFull. cbn [rd_chunks rd_end]. destruct (read_loop _ _ _ _) as [r chunks']. cbn [fst snd] in *. exists chunks'.
  rewrite H1, H2, Heq, stake_app, sdrop_app. done.
Qed.

Lemma ReadFull_short n chunks ending :
  (String.length (stream chunks) < n)%nat -> exists e r, ReadFull n (MkReader chunks ending) = (Err e, r).
Proof.
  intros Hn. destruct (read_loop_short n "" chunks ending Hn) as [e He]. unfold ReadFull. cbn [rd_chunks rd_end].
  destruct (read_loop _ _ _ _) as [r chunks']. cbn in He. subst r. by eexists _, _.
Qed.

Lemma ReadFull_nothing n ending : (0 < n)%nat -> forall chunks, stream chunks = "" -> exists r, ReadFull n (MkReader chunks ending) = (Err ending, r).
Proof.
  intros Hn chunks Hs. unfold ReadFull. cbn [rd_chunks rd_end].
  assert (Hl : read_loop n "" chunks ending = (Err ending, [])); [|rewrite Hl; by eexists].
  revert Hs. induction chunks as [|c chunks IH]; cbn [read_loop]; intros Hs.
  - rewrite bool_decide_eq_false_2 by lia. by rewrite andb_false_r.
  - rewrite stream_cons in Hs. destruct c; [|done]. cbn in Hs. destruct (Nat.leb_spec n (String.length "")); [cbn in *; lia|].
    cbn [String.length]. rewrite Nat.sub_0_r. by apply IH.
Qed.

(** ** Frames *)

Section frames.
Context `{E : Encoding} `{L : !EncodingLaw E}.

(** The messages that the receiver gets from a frame. *)
Lemma frame_spec kind requestID T payload m bytes :
  frame kind requestID T payload = Ok (m, bytes) ->
  msg_Version m = ProtocolVersion /\ msg_Kind m = kind /\ msg_RequestID m = requestID /\ marshal T payload = Some (msg_Payload m) /\
  receive_contents bytes = Ok m /\ 0 < slen bytes <= maxFrameSize.
Proof.
  unfold frame. intros H. inv_result. destruct (marshal T payload) as [p|] eqn:Hp; [|done].
  destruct (marshal_message _) as [b|] eqn:Hm; [|done]. inv_result. subst. to_prop. cbn in *.
  do 4 (split; [done|]). destruct (unmarshal_marshal_message _ _ Hm) as [Hne Hback]; [done|by eexists _, _|].
  assert (Hlen : forall s, s <> "" -> 0 < slen s) by (intros [|??] ?; [done|unfold slen; cbn [String.length]; lia]).
  destruct (unmarshal_marshal T payload p Hp) as [Hp0 _]. apply Hlen in Hp0.
  split; [|split; [by apply Hlen|done]]. unfold receive_contents. rewrite Hback. cbn -[slen Z.eqb].
  replace (slen p =? 0) with false by (symmetry; apply Z.eqb_neq; lia). match goal with Hk : knownKind kind = true |- _ => by rewrite Hk end.
Qed.

Lemma frame_size bytes : 0 < slen bytes <= maxFrameSize -> slen bytes < 2 ^ 32.
Proof. unfold maxFrameSize. lia. Qed.

Lemma Receive_frame bytes rest chunks ending :
  0 < slen bytes <= maxFrameSize -> stream chunks = (PutUint32 (slen bytes) +:+ bytes) +:+ rest ->
  exists chunks', Receive (MkReader chunks ending) = (receive_contents bytes, MkReader chunks' ending) /\ stream chunks' = rest.
Proof.
  intros Hb Hs. unfold Receive. rewrite <- sapp_assoc in Hs.
  destruct (ReadFull_app _ _ _ ending Hs) as (c1 & H1 & Hs1). change (String.length (PutUint32 (slen bytes))) with 4%nat in H1. rewrite H1.
  rewrite Uint32_PutUint32 by (split; [lia|by apply frame_size]).
  replace (slen bytes =? 0) with false by (symmetry; apply Z.eqb_neq; lia).
  replace (maxFrameSize <? slen bytes) with false by (symmetry; apply Z.ltb_ge; lia). cbn [orb].
  destruct (ReadFull_app _ _ _ ending Hs1) as (c2 & H2 & Hs2). unfold slen at 1. rewrite Nat2Z.id, H2. by exists c2.
Qed.

Lemma Receive_cut bytes sent rest chunks ending :
  0 < slen bytes <= maxFrameSize -> PutUint32 (slen bytes) +:+ bytes = sent +:+ rest -> rest <> "" -> stream chunks = sent ->
  exists e r, Receive (MkReader chunks ending) = (Err e, r).
Proof.
  intros Hb Heq Hne <-. assert (Hl : (4 + String.length bytes = String.length (stream chunks) + String.length rest)%nat).
  { apply (f_equal String.length) in Heq. by rewrite !sapp_length in Heq. }
  assert (0 < String.length rest)%nat by (destruct rest; [done|cbn; lia]). unfold Receive.
  destruct (decide (String.length (stream chunks) < 4)%nat) as [Hlt|Hge].
  { destruct (ReadFull_short _ _ ending Hlt) as (e & r & ->). by eexists _, _. }
  assert (Hs : stream chunks = PutUint32 (slen bytes) +:+ sdrop 4 (stream chunks)).
  { rewrite <- (stake_sdrop 4 (stream chunks)) at 1. f_equal. apply (f_equal (stake 4)) in Heq.
    destruct (stake_app_le 4 (stream chunks) rest) as [H4 _]; [lia|]. rewrite H4 in Heq. rewrite <- Heq. exact (stake_app (PutUint32 (slen bytes)) bytes). }
  destruct (ReadFull_app _ _ _ ending Hs) as (c1 & H1 & Hs1). change (String.length (PutUint32 (slen bytes))) with 4%nat in H1. rewrite H1.
  rewrite Uint32_PutUint32 by (split; [lia|by apply frame_size]).
  replace (slen bytes =? 0) with false by (symmetry; apply Z.eqb_neq; lia).
  replace (maxFrameSize <? slen bytes) with false by (symmetry; apply Z.ltb_ge; lia). cbn [orb].
  destruct (ReadFull_short (Z.to_nat (slen bytes)) c1 ending) as (e & r & ->); [|by eexists _, _].
  apply (f_equal String.length) in Hs. rewrite sapp_length in Hs. change (String.length (PutUint32 (slen bytes))) with 4%nat in Hs.
  rewrite Hs1. unfold slen. rewrite Nat2Z.id. lia.
Qed.

(** ** A whole connection *)

(** Sends until the first error; counts the calls that succeeded. *)
Fixpoint send_all (l : list sending) (w : writer) : nat * writer :=
  match l with
  | [] => (O, w)
  | s :: l' =>
      match Send (sd_Kind s) (sd_RequestID s) (sd_target s) (sd_payload s) w with
      | (Ok _, w) => let '(n, w) := send_all l' w in (S n, w)
      | (Err _, w) => (O, w)
      end
  end.

(** Receives until the first error, at most [fuel] times. *)
Fixpoint receive_all (fuel : nat) (r : reader) : list Message * option app_error :=
  match fuel with
  | O => ([], None)
  | S fuel' =>
      match Receive r with
      | (Err e, _) => ([], Some e)
      | (Ok m, r') => let '(ms, e) := receive_all fuel' r' in (m :: ms, e)
      end
  end.

(** A message that carries what was sent. *)
Definition carries (s : sending) (m : Message) : Prop :=
  msg_Kind m = sd_Kind s /\ msg_RequestID m = sd_RequestID s /\
  (printable_body (sd_target s) (sd_payload s) -> DecodePayload (sd_target s) m = Ok (wire (sd_target s) (sd_payload s))).

Lemma receive_nothing fuel chunks ending :
  stream chunks = "" -> receive_all (S fuel) (MkReader chunks ending) = ([], Some (Wrapped "read privilege-separation header" ending)).
Proof. intros Hs. cbn [receive_all]. unfold Receive. by destruct (ReadFull_nothing 4 ending ltac:(lia) chunks Hs) as [r ->]. Qed.

Lemma frame_carries s m bytes : frame (sd_Kind s) (sd_RequestID s) (sd_target s) (sd_payload s) = Ok (m, bytes) -> carries s m.
Proof.
  intros (_ & Hk & Hid & Hm & _)%frame_spec. split; [done|]. split; [done|]. intros Hp.
  destruct (unmarshal_marshal _ _ _ Hm) as [_ Hback]. unfold DecodePayload. by rewrite Hback.
Qed.

Lemma send_all_receive l w :
  exists sent, wr_written (send_all l w).2 = wr_written w +:+ sent /\
    forall chunks ending, stream chunks = sent ->
      exists ms e, receive_all (S (length l)) (MkReader chunks ending) = (ms, Some e) /\ Forall2 carries (take (length ms) l) ms /\
        ((send_all l w).1 <= length ms <= S (send_all l w).1)%nat /\
        ((send_all l w).1 = length l -> e = Wrapped "read privilege-separation header" ending).
Proof.
  revert w. induction l as [|s l IH]; intros w; cbn [send_all].
  { exists "". rewrite sapp_nil_r. split; [done|]. intros chunks ending Hs. rewrite receive_nothing by done. eexists _, _. split; [done|]. split; [constructor|]. by split; [cbn; lia|]. }
  unfold Send. destruct (frame _ _ _ _) as [[m bytes]|e] eqn:Hf.
  2: { exists "". rewrite sapp_nil_r. split; [done|]. intros chunks ending Hs. rewrite receive_nothing by done. eexists _, _.
       split; [done|]. split; [constructor|]. by split; [cbn; lia|]. }
  pose proof (frame_carries _ _ _ Hf) as Hcarries. apply frame_spec in Hf as (_ & _ & _ & _ & Hrecv & Hsize).
  destruct (write_frame_spec bytes w (frame_size _ Hsize)) as (sent & rest & Heq & Hw & Hok).
  destruct (write_frame bytes w) as [[[]|e] w1]; cbn [fst snd] in Hw, Hok.
  - subst rest. rewrite sapp_nil_r in Heq. destruct (IH w1) as (sent2 & Hw2 & Hall). destruct (send_all l w1) as [n w2]. cbn [fst snd] in *.
    exists (sent +:+ sent2). split; [by rewrite Hw2, Hw, sapp_assoc|]. intros chunks ending Hs. rewrite <- Heq in Hs.
    destruct (Receive_frame _ _ _ ending Hsize Hs) as (c1 & HR & Hs1). destruct (Hall c1 ending Hs1) as (ms & e & He & Hms & Hn & Hend).
    exists (m :: ms), e. cbn [length]. remember (S (length l)) as k. cbn [receive_all]. rewrite HR, Hrecv, He. split; [done|].
    cbn [length take]. split; [by constructor|]. split; [lia|]. intros. apply Hend. lia.
  - exists sent. split; [done|]. intros chunks ending Hs. cbn [fst length]. destruct (decide (rest = "")) as [->|Hne].
    + rewrite sapp_nil_r in Heq. rewrite <- Heq, <- (sapp_nil_r (_ +:+ bytes)) in Hs.
      destruct (Receive_frame _ _ _ ending Hsize Hs) as (c1 & HR & Hs1). pose proof (receive_nothing (length l) _ ending Hs1) as Hend.
      remember (S (length l)) as k. cbn [receive_all]. rewrite HR, Hrecv. subst k. rewrite Hend. eexists [m], _.
      split; [done|]. split; [cbn [length take]; constructor; [done|constructor]|]. by split; [cbn; lia|].
    + destruct (Receive_cut _ _ _ _ ending Hsize Heq Hne Hs) as (e' & r & HR). cbn [receive_all]. rewrite HR. eexists [], _.
      split; [done|]. split; [constructor|]. by split; [cbn; lia|].
Qed.
End frames.
