(* ===== verification/LaunchLayout.v ===== *)
(** * Component [internal/launchservice]: the layout of the installed service

    [layout.go]: where the files of the service are, the check of a managed
    configuration against them, and the launchd manifest. *)

From S2P Require Import Prelude.
From S2P Require Import GoStrings.
From S2P Require Import GoFiles.
From S2P Require Import ConfigTypes.
From S2P Require Import Outbound.
From S2P Require Import HostState.
From S2P Require Import Apperror.

Definition Label : string := "cn.notfound945.tun-proxy".
Definition defaultOperationLockPath : string := "/var/run/tun-proxy.service-operation.lock".

Record Layout : Type := MkLayout {
  ly_Label : string;
  ly_Binary : string;
  ly_Config : string;
  ly_Plist : string;
  ly_LogDirectory : string;
  ly_StandardOut : string;
  ly_StandardErr : string;
  ly_RuntimeDir : string;
  ly_WorkerUser : string;
  ly_WorkerGroup : string;
  ly_WorkerDir : string;
  ly_StatusSocket : string;
  ly_ControlSocket : string;
  ly_DataDir : string;
  ly_State : string;
  ly_Lock : string;
  ly_OperationLock : string;
  ly_FakeIPv4 : string;
  ly_FakeIPv6 : string
}.

Definition DefaultLayout : Layout := {|
  ly_Label := Label;
  ly_Binary := "/Library/PrivilegedHelperTools/cn.notfound945.tun-proxy";
  ly_Config := "/Library/Application Support/tun-proxy/config.yaml";
  ly_Plist := "/Library/LaunchDaemons/cn.notfound945.tun-proxy.plist";
  ly_LogDirectory := "/Library/Logs/tun-proxy";
  ly_StandardOut := "/Library/Logs/tun-proxy/stdout.log";
  ly_StandardErr := "/Library/Logs/tun-proxy/stderr.log";
  ly_RuntimeDir := "/var/run/tun-proxy";
  ly_WorkerUser := "_tun-proxy";
  ly_WorkerGroup := "_tun-proxy";
  ly_WorkerDir := "/var/run/tun-proxy/worker";
  ly_StatusSocket := "/var/run/tun-proxy/worker/status.sock";
  ly_ControlSocket := "/var/run/tun-proxy/control.sock";
  ly_DataDir := "/var/lib/tun-proxy";
  ly_State := "/var/run/tun-proxy/state.json";
  ly_Lock := "/var/run/tun-proxy/tun-proxy.lock";
  ly_OperationLock := defaultOperationLockPath;
  ly_FakeIPv4 := "/var/lib/tun-proxy/fake-ip.yaml";
  ly_FakeIPv6 := "/var/lib/tun-proxy/fake-ipv6.yaml"
|}.

(** ** Checks *)

(** A name that is empty or contains a slash, a colon or a zero byte. *)
Definition bad_account_name (name : string) : bool :=
  bool_decide (name = "") || negb (sforall (fun c => negb (Ascii.eqb c "/" || Ascii.eqb c ":" || (code c =? 0))) name).

(** The paths of the layout; Go's map visits them in any order, which decides
    which of several errors is reported. *)
Definition layout_paths (layout : Layout) : list string :=
  [ly_Binary layout; ly_Config layout; ly_Plist layout; ly_LogDirectory layout; ly_StandardOut layout; ly_StandardErr layout;
   ly_RuntimeDir layout; ly_WorkerDir layout; ly_StatusSocket layout; ly_ControlSocket layout; ly_DataDir layout; ly_State layout;
   ly_Lock layout; ly_OperationLock layout; ly_FakeIPv4 layout; ly_FakeIPv6 layout].

Definition Layout_Validate (layout : Layout) : result go_error unit :=
  fail_if bool_decide (ly_Label layout = "") with failure "launchd label is required" in
  fail_if bad_account_name (ly_WorkerUser layout) with failure "service worker user is invalid" in
  fail_if bad_account_name (ly_WorkerGroup layout) with failure "service worker group is invalid" in
  fail_if negb (forallb clean_absolute (layout_paths layout)) with failure "service path must be a clean absolute path" in
  fail_if negb (bool_decide (dir (ly_StatusSocket layout) = ly_WorkerDir layout))
    with failure "service status socket must be directly inside worker runtime directory" in
  fail_if 103 <? slen (ly_StatusSocket layout) with failure "service status socket exceeds the macOS path limit" in
  fail_if negb (bool_decide (dir (ly_ControlSocket layout) = ly_RuntimeDir layout))
    with failure "service control socket must be directly inside runtime directory" in
  fail_if 103 <? slen (ly_ControlSocket layout) with failure "service control socket exceeds the macOS path limit" in
  Ok tt.

Fixpoint require_paths (checks : list (string * string)) : result go_error unit :=
  match checks with
  | [] => Ok tt
  | (got, want) :: checks' => fail_if negb (bool_decide (got = want)) with failure "managed service requires another path" in require_paths checks'
  end.

Definition ValidateManagedConfig (runtime : Config) (layout : Layout) : result go_error unit :=
  let! _ := Layout_Validate layout in
  fail_if negb (UDP (CDNS runtime)) || negb (TCP (CDNS runtime)) with failure "managed service requires both UDP and TCP Fake DNS listeners" in
  require_paths
    ([(StateFile (CSystem runtime), ly_State layout); (LockFile (CSystem runtime), ly_Lock layout);
      (PersistenceFile (CFakeIP runtime), ly_FakeIPv4 layout)]
     ++ match CFakeIPv6 runtime with Some f => [(PersistenceFile6 f, ly_FakeIPv6 layout)] | None => [] end).

Lemma require_paths_Ok checks : require_paths checks = Ok tt <-> Forall (fun c => c.1 = c.2) checks.
Proof.
  induction checks as [|[got want] checks IH]; cbn [require_paths]; [by split|]. rewrite guard_err_Ok, IH, Forall_cons. cbn.
  by rewrite negb_false_iff, bool_decide_eq_true.
Qed.

(** A managed configuration writes only to the paths of the layout. *)
Lemma managed_paths runtime layout :
  ValidateManagedConfig runtime layout = Ok tt ->
  StateFile (CSystem runtime) = ly_State layout /\ LockFile (CSystem runtime) = ly_Lock layout /\
  PersistenceFile (CFakeIP runtime) = ly_FakeIPv4 layout /\ Layout_Validate layout = Ok tt /\
  (forall f, CFakeIPv6 runtime = Some f -> PersistenceFile6 f = ly_FakeIPv6 layout).
Proof.
  unfold ValidateManagedConfig. intros H. apply bind_Ok in H as ([] & Hl & H). inv_result. apply require_paths_Ok in H.
  apply Forall_app in H as [H H6]. repeat (apply Forall_cons in H as [? H]). do 4 (split; [done|]). intros f Hf. rewrite Hf in H6.
  by apply Forall_cons in H6 as [? _].
Qed.

Example default_layout_valid : Layout_Validate DefaultLayout = Ok tt.
Proof. by vm_compute. Qed.

(** * The property list *)

(** The error of [Layout.Validate]. *)
Definition layout_failure (e : go_error) : app_error := Plain "service layout is invalid".

(** ** Escaping *)

Definition in_range (lo hi : Z) (c : ascii) : bool := (lo <=? code c) && (code c <=? hi).

(** The length of the valid encoding of a rune at the start of a text that
    begins with a byte from 0x80 on. *)
Definition rune_length (s : string) : option nat :=
  let tail := in_range 0x80 0xBF in
  match s with
  | String a (String b rest) =>
      if in_range 0xC2 0xDF a && tail b then Some 2%nat
      else
        match rest with
        | String c rest =>
            let second := if code a =? 0xE0 then in_range 0xA0 0xBF b else if code a =? 0xED then in_range 0x80 0x9F b else tail b in
            if in_range 0xE0 0xEF a && second && tail c then Some 3%nat
            else
              match rest with
              | String d _ =>
                  let second := if code a =? 0xF0 then in_range 0x90 0xBF b else if code a =? 0xF4 then in_range 0x80 0x8F b else tail b in
                  if in_range 0xF0 0xF4 a && second && tail c && tail d then Some 4%nat else None
              | "" => None
              end
        | "" => None
        end
  | _ => None
  end.

Definition replacement_character : string := String (byte 0xEF) (String (byte 0xBF) (String (byte 0xBD) "")).

(** Whether the runes U+FFFE and U+FFFF, which XML excludes. *)
Definition excluded_rune (rune : string) : bool :=
  match rune with
  | String a (String b (String c "")) => (code a =? 0xEF) && (code b =? 0xBF) && (0xBE <=? code c)
  | _ => false
  end.

Definition escape_ascii (c : ascii) : string :=
  if Ascii.eqb c (byte 34) then "&#34;" else if Ascii.eqb c "'" then "&#39;" else if Ascii.eqb c "&" then "&amp;"
  else if Ascii.eqb c "<" then "&lt;" else if Ascii.eqb c ">" then "&gt;"
  else if code c =? 9 then "&#x9;" else if code c =? 10 then "&#xA;" else if code c =? 13 then "&#xD;"
  else if code c <? 32 then replacement_character else String c "".

Fixpoint escape_from (fuel : nat) (s : string) : string :=
  match fuel, s with
  | O, _ | _, "" => ""
  | S fuel', String c s' =>
      if code c <? 128 then escape_ascii c +:+ escape_from fuel' s'
      else
        match rune_length s with
        | Some n =>
            let rune := stake n s in
            (if excluded_rune rune then replacement_character else rune) +:+ escape_from fuel' (sdrop n s)
        | None => replacement_character +:+ escape_from fuel' s'
        end
  end.

(** [xml.EscapeText] *)
Definition EscapeText (s : string) : string := escape_from (String.length s) s.

(** ** Writing *)

Definition lines (l : list string) : string := string_join (String (byte 10) "") l.

(** A text in double quotes. *)
Definition quoted (s : string) : string := String (byte 34) (s +:+ String (byte 34) "").

Definition boot_policy (startAtBoot : bool) : list string :=
  if startAtBoot
  then ["  <true/>"; "  <key>KeepAlive</key>"; "  <dict>"; "    <key>SuccessfulExit</key>"; "    <false/>"; "  </dict>"]
  else ["  <false/>"].

Definition string_element (indent value : string) : string := indent +:+ "<string>" +:+ EscapeText value +:+ "</string>".

Definition Manifest (layout : Layout) (startAtBoot : bool) : result app_error string :=
  let! _ := map_err layout_failure (Layout_Validate layout) in
  Ok (lines (
    ["<?xml version=" +:+ quoted "1.0" +:+ " encoding=" +:+ quoted "UTF-8" +:+ "?>";
     "<!DOCTYPE plist PUBLIC " +:+ quoted "-//Apple//DTD PLIST 1.0//EN" +:+ " " +:+ quoted "http://www.apple.com/DTDs/PropertyList-1.0.dtd" +:+ ">";
     "<plist version=" +:+ quoted "1.0" +:+ ">"; "<dict>"; "  <key>Label</key>"; string_element "  " (ly_Label layout);
     "  <key>ProgramArguments</key>"; "  <array>"; string_element "    " (ly_Binary layout); "    <string>_service-run</string>";
     "    <string>-config</string>"; string_element "    " (ly_Config layout); "  </array>"; "  <key>RunAtLoad</key>"]
    ++ boot_policy startAtBoot
    ++ ["  <key>ThrottleInterval</key>"; "  <integer>30</integer>"; "  <key>ExitTimeOut</key>"; "  <integer>45</integer>";
        "  <key>Umask</key>"; "  <integer>23</integer>"; "  <key>StandardOutPath</key>"; string_element "  " (ly_StandardOut layout);
        "  <key>StandardErrorPath</key>"; string_element "  " (ly_StandardErr layout); "</dict>"; "</plist>"; ""])).

(** ** Reading *)

Inductive xml_token : Type := StartElement (name : string) | EndElement | CharData (text : string) | OtherToken.

(** [Skip]: the tokens after the end of the element. *)
Fixpoint skip_element (depth : nat) (tokens : list xml_token) : option (list xml_token) :=
  match tokens with
  | [] => None
  | StartElement _ :: tokens => skip_element (S depth) tokens
  | EndElement :: tokens => match depth with O => Some tokens | S depth => skip_element depth tokens end
  | _ :: tokens => skip_element depth tokens
  end.

(** [DecodeElement] into a string: the text directly inside. *)
Fixpoint decode_text (depth : nat) (text : string) (tokens : list xml_token) : option (string * list xml_token) :=
  match tokens with
  | [] => None
  | StartElement _ :: tokens => decode_text (S depth) text tokens
  | EndElement :: tokens => match depth with O => Some (text, tokens) | S depth => decode_text depth text tokens end
  | CharData t :: tokens => decode_text depth (match depth with O => text +:+ t | _ => text end) tokens
  | OtherToken :: tokens => decode_text depth text tokens
  end.

(** The value after the key. *)
Fixpoint boot_value (tokens : list xml_token) : result app_error (bool * list xml_token) :=
  match tokens with
  | [] => Err (Plain "parse launchd manifest RunAtLoad value")
  | StartElement name :: tokens =>
      let! value := (if bool_decide (name = "true") then Ok true else if bool_decide (name = "false") then Ok false
                     else Err (Plain "launchd manifest RunAtLoad must be a boolean")) in
      match skip_element 0 tokens with
      | Some tokens => Ok (value, tokens)
      | None => Err (Plain "parse launchd manifest RunAtLoad value")
      end
  | _ :: tokens => boot_value tokens
  end.

(** The loop of [ManifestStartAtBoot]; [ended] tells whether the tokens end
    with the file, or with an error. *)
Fixpoint boot_loop (fuel : nat) (ended : bool) (tokens : list xml_token) (found : option bool) : result app_error bool :=
  match fuel with
  | O => Err (Plain "parse launchd manifest")
  | S fuel' =>
      match tokens with
      | [] =>
          fail_if negb ended with Plain "parse launchd manifest" in
          match found with Some b => Ok b | None => Err (Plain "launchd manifest is missing RunAtLoad") end
      | StartElement "key" :: tokens =>
          match decode_text 0 "" tokens with
          | None => Err (Plain "parse launchd manifest key")
          | Some (key, tokens) =>
              if negb (bool_decide (key = "RunAtLoad")) then boot_loop fuel' ended tokens found
              else
                fail_if bool_decide (is_Some found) with Plain "launchd manifest has duplicate RunAtLoad keys" in
                let! value := boot_value tokens in
                boot_loop fuel' ended value.2 (Some value.1)
          end
      | _ :: tokens => boot_loop fuel' ended tokens found
      end
  end.

Definition ManifestStartAtBoot (xml_tokens : string -> list xml_token * bool) (contents : string) : result app_error bool :=
  let '(tokens, ended) := xml_tokens contents in
  boot_loop (S (length tokens)) ended tokens None.
