(* ===== verification/Supervisor.v ===== *)
(** * Component [internal/app]: the supervisor of the managed service

    [service_supervisor_darwin.go] from the process lock on: starting in order
    with the worker process between the changes of the host, finishing, and
    the main loop with reloads and changes of the network.  The session with
    the worker appears as the results of its calls; what these mean is shown
    in [PrivsepProperties].  Events that are only reported are left out. *)

From S2P Require Import Prelude.
From S2P Require Import GoStrings.
From S2P Require Import GoFiles.
From S2P Require Import NetIP.
From S2P Require Import ConfigTypes.
From S2P Require Import ConfigCompile.
From S2P Require Import Outbound.
From S2P Require Import EffectiveDNS.
From S2P Require Import HostState.
From S2P Require Import HostRoutes.
From S2P Require Import HostDNS.
From S2P Require Import DefaultRoutes.
From S2P Require Import RunHost.
From S2P Require Import Run.
From S2P Require Import RunLoop.
From S2P Require Import Apperror.
From S2P Require Import Privsep.
From S2P Require Import LaunchLayout.

(** ** Starting *)

(** What the calls outside the model return: binding the DNS sockets,
    preparing the hand-off, the command, its start, closing the child's copies
    of the descriptors, and the calls of the session; then the control
    socket. *)
Record worker_calls : Type := MkWorkerCalls {
  wc_bind : option go_error;
  wc_handoff : option go_error;
  wc_command : option go_error;
  wc_start : option go_error;
  wc_copies : option go_error;
  wc_session : option go_error;
  wc_bootstrap : option go_error;
  wc_commit : option go_error;
  wc_control : option go_error
}.

(** The variables that [finish] looks at: what was opened, started and is
    running. *)
Record supervising : Type := MkSupervising {
  sp_device : bool;
  sp_sockets : bool;
  sp_handoff : bool;
  sp_started : bool;
  sp_session : bool;
  sp_running : bool;
  sp_control : bool
}.

Definition not_supervising : supervising := MkSupervising false false false false false false false.

Section supervisor.
Context {W : Type} (run : string -> list string -> W -> result command_error string * W) (json_encode : State -> option string)
  (json_decode : string -> option State) (itoa : Z -> string).

Notation M := (act (host W) go_error).
Notation persist := (persist (W := W) json_encode).

(** Starting stops at the first error, with what was opened so far. *)
Notation S := (act (host W) (go_error * supervising)).

Definition at_ {A} (v : supervising) (m : M A) : S A := act_wrap (fun e => (e, v)) m.

Definition opened_device (v : supervising) := MkSupervising true (sp_sockets v) (sp_handoff v) (sp_started v) (sp_session v) (sp_running v) (sp_control v).
Definition bound_sockets (v : supervising) := MkSupervising (sp_device v) true (sp_handoff v) (sp_started v) (sp_session v) (sp_running v) (sp_control v).
Definition prepared_handoff (v : supervising) := MkSupervising (sp_device v) (sp_sockets v) true (sp_started v) (sp_session v) (sp_running v) (sp_control v).
Definition started_worker (v : supervising) := MkSupervising (sp_device v) (sp_sockets v) (sp_handoff v) true (sp_session v) (sp_running v) (sp_control v).
Definition opened_session (v : supervising) := MkSupervising (sp_device v) (sp_sockets v) (sp_handoff v) (sp_started v) true (sp_running v) (sp_control v).
Definition set_running (b : bool) (v : supervising) := MkSupervising (sp_device v) (sp_sockets v) (sp_handoff v) (sp_started v) (sp_session v) b (sp_control v).
Definition opened_control (v : supervising) := MkSupervising (sp_device v) (sp_sockets v) (sp_handoff v) (sp_started v) (sp_session v) (sp_running v) true.

(** From the device to the worker that reports it is prepared. *)
Definition start_worker (env : startup W) (calls : worker_calls) (runtime : Config) (ipv6Enabled : bool) (path : string) : S (string * supervising) :=
  let v := not_supervising in
  act! name := at_ v (createWithFactory run itoa env (tun_settings runtime ipv6Enabled)) in
  let v := opened_device v in
  act! _ := at_ v (set_state (set_tun name)) in
  act! _ := at_ v (persist path) in
  act! _ := at_ v (fail_with (wc_bind calls) (act_ret tt)) in
  let v := bound_sockets v in
  act! _ := at_ v (fail_with (wc_handoff calls) (act_ret tt)) in
  let v := prepared_handoff v in
  act! _ := at_ v (fail_with (wc_command calls) (act_ret tt)) in
  act! _ := at_ v (fail_with (EWrap "start service worker" <$> wc_start calls) (act_ret tt)) in
  let v := started_worker v in
  act! _ := at_ v (log WorkerStarted) in
  act! _ := at_ v (fail_with (EWrap "close worker descriptor copies" <$> wc_copies calls) (act_ret tt)) in
  act! _ := at_ v (fail_with (wc_session calls) (act_ret tt)) in
  let v := opened_session v in
  act! _ := at_ v (fail_with (wc_bootstrap calls) (act_ret tt)) in
  act! _ := at_ v (log WorkerPrepared) in
  act_ret (name, v).

(** [RunServiceSupervisor] between the first record and the main loop. *)
Definition start_supervisor (env : startup W) (calls : worker_calls) (interfaces : string -> option interface_view) (layout : Layout)
    (runtime : Config) (ipv6Enabled : bool) (defaultRoutes : defaultRoutePlan) : S supervising :=
  let path := ly_State layout in
  act! started := start_worker env calls runtime ipv6Enabled path in
  let '(name, v) := started in
  act! _ := at_ v (installServiceRoutes run json_encode path runtime name ipv6Enabled defaultRoutes) in
  act! _ := at_ v (manage_dns run json_encode path interfaces runtime) in
  act! _ := at_ v (fail_with (wc_commit calls) (act_ret tt)) in
  act! _ := at_ v (log WorkerCommitted) in
  let v := set_running true v in
  act! _ := at_ v (fail_with (EWrap "start supervisor control socket" <$> wc_control calls) (act_ret tt)) in
  let v := opened_control v in
  act! _ := at_ v (set_state (fun s => set_phase "running" (set_control (ly_ControlSocket layout) (set_status (ly_StatusSocket layout) s)))) in
  act! _ := at_ v (persist path) in
  act_ret v.

(** ** Finishing *)

(** What closing returns. *)
Record supervisor_closings : Type := MkSupervisorClosings {
  sc_control : option go_error;
  sc_shutdown : option go_error;
  sc_wait : option go_error;
  sc_handoff : option go_error;
  sc_tcp : option go_error;
  sc_udp : option go_error;
  sc_device : option go_error;
  sc_status : option go_error;
  sc_lock : option go_error
}.

Notation finishing := (finishing (W := W)).

Definition finish_control (path : string) (v : supervising) (c : supervisor_closings) (f : finishing) : finishing :=
  if sp_control v then
    match sc_control c with
    | Some e => failed "close supervisor control socket" (Some e) f
    | None => persist_if_exists json_encode path "persist control socket cleanup" (change (set_state (set_control "")) f)
    end
  else f.

(** Stopping the worker: one that runs is asked to shut down and killed when
    that fails, any other is killed; the result of waiting for its end counts
    only when it was running.  The result of [Kill] is dropped. *)
Definition finish_worker (v : supervising) (c : supervisor_closings) (f : finishing) : finishing :=
  if sp_started v then
    let f :=
      if sp_running v && sp_session v then
        let f := failed "stop service worker" (sc_shutdown c) (change (log (WorkerShutdown (bool_decide (sc_shutdown c = None)))) f) in
        match sc_shutdown c with Some _ => change (log WorkerKilled) f | None => f end
      else change (log WorkerKilled) f in
    if sp_session v then
      let f := change (log (WorkerWaited (sc_wait c))) f in
      if sp_running v then failed "wait for service worker" (sc_wait c) f else f
    else f
  else f.

Definition append_failure (b : bool) (e : option go_error) (f : finishing) : finishing :=
  if b then match e with Some e => (f.1 ++ [e], f.2) | None => f end else f.

Definition finish_descriptors (v : supervising) (c : supervisor_closings) (f : finishing) : finishing :=
  let f := append_failure (sp_handoff v) (sc_handoff c) f in
  let f := append_failure (sp_sockets v) (sc_tcp c) f in
  let f := append_failure (sp_sockets v) (sc_udp c) f in
  if sp_device v then append_failure true (sc_device c) (change (log DeviceClosed) f) else f.

Definition finish_status_socket (path : string) (c : supervisor_closings) (f : finishing) : finishing :=
  match sc_status c with
  | Some e => failed "remove worker status socket" (Some e) f
  | None => persist_if_exists json_encode path "persist status cleanup" (change (set_state (set_status "")) f)
  end.

(** The closure [finish]. *)
Definition finish_supervisor (path : string) (v : supervising) (c : supervisor_closings) (primary : option go_error) (h : host W)
    : option go_error * host W :=
  let f := finish_phase json_encode path ([], h) in
  let f := finish_control path v c f in
  let f := finish_dns run json_encode path f in
  let f := finish_routes run json_encode path f in
  let f := finish_worker v c f in
  let f := finish_descriptors v c f in
  let f := finish_status_socket path c f in
  let f := failed "release process lock" (sc_lock c) f in
  let '(e, h) := remove_record json_decode path f in
  (join_two primary e, h).

(** ** Loading the configuration *)

(** Go errors as error trees: the text of a leaf does not matter, except that
    of an expired deadline. *)
Fixpoint as_app (e : go_error) : app_error :=
  match e with
  | EWrap text c => Wrapped text (as_app c)
  | EInterface name c => Wrapped name (as_app c)
  | ENet true None => Plain "context deadline exceeded"
  | ENet _ (Some c) => Wrapped "network" (as_app c)
  | EJoin es => join_errors (as_app <$> es)
  | _ => Plain "error"
  end.

(** The errors of [PreflightReload] with their codes. *)
Definition preflight_failure (e : go_error) : app_error :=
  match e with
  | EWrap text c =>
      Wrap (if bool_decide (text = "configuration changes require a service restart") then CodeConfigRestartRequired else CodeReloadRejected)
        "service.reload" text (as_app c)
  | e => as_app e
  end.

(** [errors.Is] for [context.DeadlineExceeded]. *)
Fixpoint is_deadline (e : app_error) : bool :=
  match e with
  | Plain text => String.eqb text "context deadline exceeded"
  | Wrapped _ inner => is_deadline inner
  | Joined _ children => existsb is_deadline children
  | Typed _ _ _ _ _ cause => match cause with Some c => is_deadline c | None => false end
  end.

Section loading.
Context (yaml_decode : string -> option rawConfig) (sha256 : string -> string).

(** [loadManagedServiceConfigForOwner] on the result of [open] without
    following links, with the file that [fstat] describes if it does, and
    whether reading it works. *)
Definition loadManagedServiceConfig (layout : Layout) (expectedUID : Z) (opened : result go_error (result go_error inode)) (read_ok : bool)
    : result app_error (string * Config * string) :=
  let operation := "service.reload" in
  let! stat := map_err (fun e => Wrap CodeConfigInvalid operation "managed configuration cannot be opened" (as_app e)) opened in
  let! file := map_err (fun e => Wrap CodeUnsafeFile operation "managed configuration cannot be inspected safely" (as_app e)) stat in
  fail_if negb (bool_decide (in_kind file = Regular)) || negb (in_perm file =? mode_0600) || negb (in_uid file =? expectedUID)
    with Wrap CodeUnsafeFile operation "managed configuration has unsafe ownership, type, or permissions" (Plain "unsafe managed config") in
  fail_if negb read_ok with Wrap CodeConfigInvalid operation "managed configuration cannot be read" (Plain "read managed config") in
  let contents := in_data file in
  fail_if MaxConfigSize <? slen contents with Wrap CodeConfigInvalid operation "managed configuration is too large" (Plain "managed config exceeds the limit") in
  let! loaded := map_err (fun _ => Wrap CodeConfigInvalid operation "managed configuration is invalid" (Plain "configuration"))
                   (LoadBytesWithDigest yaml_decode sha256 contents) in
  let '(runtime, digest) := loaded in
  let! _ := map_err (fun e => Wrap CodeConfigInvalid operation "managed configuration is invalid for the service" (as_app e))
              (ValidateManagedConfig runtime layout) in
  Ok (contents, runtime, digest).
End loading.

Definition validateExpectedReloadDigest (actual expected : string) : result app_error unit :=
  fail_if negb (bool_decide (expected = "")) && negb (bool_decide (actual = expected))
    with WithDetails {[ "actual_config_digest" := DString actual; "expected_config_digest" := DString expected ]}
           (Wrap CodeReloadDigestMismatch "service.reload" "managed configuration digest does not match the requested digest" (Plain "digest mismatch")) in
  Ok tt.

(** ** Reloading *)

(** A request of the control socket or of SIGHUP, and whether its context
    expired. *)
Record reload_request : Type := MkRequest {
  rq_requestID : string;
  rq_operationID : string;
  rq_rollbackOf : string;
  rq_expectedDigest : string;
  rq_timedOut : bool
}.

Definition annotateSupervisorReloadError (err : app_error) (request : reload_request) (phase : string) : app_error :=
  let code :=
    if is_deadline err || rq_timedOut request then CodeReloadTimeout
    else match find_typed err with None => CodeReloadRejected | Some _ => CodeOf (Some err) end in
  WithDetails {[ "operation_id" := DString (rq_operationID request); "reload_request_id" := DString (rq_requestID request);
                 "rollback_of" := DString (rq_rollbackOf request); "phase" := DString phase ]}
    (Wrap code "service.reload" "supervisor rejected configuration reload" err).

(** The variables of the loop, and the configuration that the worker runs, by
    the digest and the servers of the reload or bootstrap it accepted last. *)
Record supervised : Type := MkSupervised {
  sd_runtime : Config;
  sd_effective : Config;
  sd_servers : interface_dns;
  sd_bytes : string;
  sd_digest : string;
  sd_network : networkRefreshState;
  sd_worker : string * interface_dns
}.

(** The result of [session.Reload], and whether the worker accepted it. *)
Record session_reload : Type := MkSessionReload { sr_error : option app_error; sr_accepted : bool }.

Definition worker_after (r : session_reload) (digest : string) (servers : interface_dns) (sv : supervised) : supervised :=
  MkSupervised (sd_runtime sv) (sd_effective sv) (sd_servers sv) (sd_bytes sv) (sd_digest sv) (sd_network sv)
    (if sr_accepted r then (digest, servers) else sd_worker sv).

(** What a reload reads. *)
Record perform_input : Type := MkPerform {
  pi_request : reload_request;
  pi_load : result app_error (string * Config * string);
  pi_interfaces : option go_error;
  pi_run : list string -> result go_error string;
  pi_fingerprint : string;
  pi_session : session_reload
}.

Notation R := (act (host W) app_error).

(** [performReload] up to the session: what is asked of the worker. *)
Definition check_reload_request (defaultRoutes : defaultRoutePlan) (ipv6Enabled : bool) (i : perform_input) (sv : supervised)
    : R (string * Config * string * interface_dns * Config) :=
  act! loaded := act_of (pi_load i) in
  let '(nextBytes, next, nextDigest) := loaded in
  act! _ := act_of (validateExpectedReloadDigest nextDigest (rq_expectedDigest (pi_request i))) in
  act! _ := act_of (map_err preflight_failure (PreflightReload (sd_runtime sv) next (pi_interfaces i))) in
  let '(servers, e) := discoverInterfaceDNS (pi_run i) next in
  act! _ := act_wrap as_app (fail_with e (act_ret tt)) in
  let nextEffective := runtimeWithInterfaceDNS next servers in
  act! same := act_wrap as_app (if DefaultRoute (CCapture next) then same_plan run defaultRoutes nextEffective ipv6Enabled else act_ret true) in
  stop_if negb same
    with Wrap CodeConfigRestartRequired "service.reload" "default-route bypass topology changed and requires a service restart"
           (Plain "restart is required to rebuild bypass routes") in
  act_ret (nextBytes, next, nextDigest, servers, nextEffective).

(** [performReload]: the error with its [fatal] flag, and the variables. *)
Definition performReload (path : string) (defaultRoutes : defaultRoutePlan) (ipv6Enabled : bool) (i : perform_input) (sv : supervised) (h : host W)
    : option (app_error * bool) * supervised * host W :=
  let rejected e phase fatal := Some (annotateSupervisorReloadError e (pi_request i) phase, fatal) in
  match check_reload_request defaultRoutes ipv6Enabled i sv h with
  | (Err e, h) => (rejected e "apply" false, sv, h)
  | (Ok (nextBytes, next, nextDigest, servers, nextEffective), h) =>
      let sv := worker_after (pi_session i) nextDigest servers sv in
      match sr_error (pi_session i) with
      | Some e => (rejected e "apply" false, sv, h)
      | None =>
          let previousDigest := st_ConfigDigest (h_state h) in
          let '(_, h) := set_state (set_digest nextDigest) h in
          match persist path h with
          | (Err e, h) =>
              let '(_, h) := set_state (set_digest previousDigest) h in
              (rejected (Wrap CodeInternalError "service.reload" "configuration reload activated but service state could not be updated" (as_app e))
                 "persist" true, sv, h)
          | (Ok _, h) =>
              (None, MkSupervised next nextEffective servers nextBytes nextDigest (succeeded (pi_fingerprint i) (sd_network sv)) (sd_worker sv), h)
          end
      end
  end.

(** ** Following the network *)

Record refresh_input : Type := MkRefreshInput {
  ri_run : list string -> result go_error string;
  ri_fingerprint : string;
  ri_woke : bool;
  ri_request : result app_error string;
  ri_session : session_reload;
  ri_message : string
}.

Definition note_refresh_failure (message : string) (sv : supervised) : supervised :=
  MkSupervised (sd_runtime sv) (sd_effective sv) (sd_servers sv) (sd_bytes sv) (sd_digest sv) (refresh_failed message (sd_network sv)).2 (sd_worker sv).

(** Telling the worker about new servers: whether that worked. *)
Definition refresh_worker (i : refresh_input) (servers : interface_dns) (sv : supervised) : bool * supervised :=
  if sameInterfaceDNS (sd_servers sv) servers then (true, sv)
  else
    match ri_request i with
    | Err _ => (false, note_refresh_failure (ri_message i) sv)
    | Ok _ =>
        let sv := worker_after (ri_session i) (sd_digest sv) servers sv in
        match sr_error (ri_session i) with
        | Some _ => (false, note_refresh_failure (ri_message i) sv)
        | None => (true, sv)
        end
    end.

(** A tick: the variables, and the error that ends the service. *)
Definition supervisor_tick (defaultRoutes : defaultRoutePlan) (ipv6Enabled : bool) (i : refresh_input) (sv : supervised) (h : host W)
    : supervised * option go_error * host W :=
  let runtime := sd_runtime sv in
  match discoverInterfaceDNS (ri_run i) runtime with
  | (_, Some _) => (note_refresh_failure (ri_message i) sv, None, h)
  | (servers, None) =>
      let nextEffective := runtimeWithInterfaceDNS runtime servers in
      if negb (shouldAttempt (ri_fingerprint i) (ri_woke i) (sd_network sv)) then (sv, None, h)
      else
        let '(same, h) := (if DefaultRoute (CCapture runtime) then same_plan run defaultRoutes nextEffective ipv6Enabled h else (Ok true, h)) in
        match same with
        | Ok true =>
            let '(ok, sv) := refresh_worker i servers sv in
            if ok then
              (MkSupervised runtime (sd_effective sv) servers (sd_bytes sv) (sd_digest sv) (succeeded (ri_fingerprint i) (sd_network sv)) (sd_worker sv), None, h)
            else (sv, None, h)
        | _ => (sv, Some (EWrap "default-route bypass topology changed" (failure "restart is required to rebuild bypass routes")), h)
        end
  end.

(** ** The main loop *)

Inductive supervisor_event : Type :=
| SupStopped
| SupWorkerExited (exitErr : option go_error)
| SupReload (i : perform_input)
| SupTick (i : refresh_input).

(** One iteration: the variables, and when the loop ends whether the worker
    still runs and the primary error. *)
Definition supervisor_step (path : string) (defaultRoutes : defaultRoutePlan) (ipv6Enabled : bool) (ev : supervisor_event) (sv : supervised) (h : host W)
    : supervised * option (bool * option go_error) * host W :=
  match ev with
  | SupStopped => (sv, Some (true, None), h)
  | SupWorkerExited e =>
      let '(_, h) := log WorkerDied h in
      (sv, Some (false, Some (EWrap "service worker exited" (default (failure "service worker exited unexpectedly") e))), h)
  | SupReload i =>
      match performReload path defaultRoutes ipv6Enabled i sv h with
      | (Some (e, true), sv, h) => (sv, Some (true, Some (failure (error_text e))), h)
      | (_, sv, h) => (sv, None, h)
      end
  | SupTick i =>
      match supervisor_tick defaultRoutes ipv6Enabled i sv h with
      | (sv, Some e, h) => (sv, Some (true, Some e), h)
      | (sv, None, h) => (sv, None, h)
      end
  end.

Fixpoint supervisor_loop (path : string) (defaultRoutes : defaultRoutePlan) (ipv6Enabled : bool) (evs : list supervisor_event) (sv : supervised)
    (h : host W) : supervised * option (bool * option go_error) * host W :=
  match evs with
  | [] => (sv, None, h)
  | ev :: evs' =>
      match supervisor_step path defaultRoutes ipv6Enabled ev sv h with
      | (sv, None, h) => supervisor_loop path defaultRoutes ipv6Enabled evs' sv h
      | r => r
      end
  end.

(** [RunServiceSupervisor] from the lock on, with the events the loop has
    seen; [sv] are its variables, with the worker as it was bootstrapped. *)
Definition RunServiceSupervisor (env : startup W) (calls : worker_calls) (c : supervisor_closings) (interfaces : string -> option interface_view)
    (layout : Layout) (ipv6Enabled : bool) (defaultRoutes : defaultRoutePlan) (evs : list supervisor_event) (sv : supervised) (h : host W)
    : run_outcome * supervised * host W :=
  let path := ly_State layout in
  let finish v primary sv h := let '(e, h) := finish_supervisor path v c primary h in (Ended e, sv, h) in
  match persist path h with
  | (Err e, h) => (Ended (Some e), sv, h)
  | (Ok _, h) =>
      let '(_, h) := set_exists h in
      match start_supervisor env calls interfaces layout (sd_runtime sv) ipv6Enabled defaultRoutes h with
      | (Err (e, v), h) => finish v (Some e) sv h
      | (Ok v, h) =>
          match supervisor_loop path defaultRoutes ipv6Enabled evs sv h with
          | (sv, Some (running, primary), h) => finish (set_running running v) primary sv h
          | (sv, None, h) => (StillRunning, sv, h)
          end
      end
  end.
End supervisor.
