(* ===== verification/SupervisorFacts.v ===== *)
(** * Component [internal/app]: the supervisor leaves no change behind

    The record of a managed service: it covers what has to be undone at every
    moment, and a service that ends without an error has undone everything. *)

From S2P Require Import Prelude.
From S2P Require Import GoStrings.
From S2P Require Import GoFiles.
From S2P Require Import NetIP.
From S2P Require Import ConfigTypes.
From S2P Require Import Outbound.
From S2P Require Import EffectiveDNS.
From S2P Require Import HostState.
From S2P Require Import HostRoutes.
From S2P Require Import HostDNS.
From S2P Require Import DefaultRoutes.
From S2P Require Import RunHost.
From S2P Require Import Run.
From S2P Require Import RunFacts.
From S2P Require Import RunLoop.
From S2P Require Import RunProperties.
From S2P Require Import Apperror.
From S2P Require Import Privsep.
From S2P Require Import LaunchLayout.
From S2P Require Import Supervisor.

Section facts.
Context {W : Type} (run : string -> list string -> W -> result command_error string * W) (json_encode : State -> option string)
  (json_decode : string -> option State) (itoa : Z -> string) (path : string).
Context (path_ok : not_temporary path).

Notation P := (RunFacts.P json_encode json_decode path).
Notation F := (RunFacts.F json_encode json_decode path).
Notation D := (RunFacts.D json_encode json_decode path).
Notation keeps := (keeps json_encode json_decode path).
Notation finishing := (finishing (W := W)).
Notation stage := (RunProperties.stage (W := W) json_encode json_decode path).

(** ** Starting *)

Lemma at_triple {A} (I J : host W -> Prop) v (m : act (host W) go_error A) :
  act_triple I m (fun _ => J) -> act_triple I (at_ v m) (fun _ => J).
Proof. intros Hm. apply act_triple_wrap. intros h Hh. specialize (Hm h Hh). by destruct (m h) as [[]]. Qed.

Lemma triple_seq {E A B} (I J K : host W -> Prop) (m : act (host W) E A) (f : A -> act (host W) E B) :
  act_triple I m (fun _ => J) -> (forall a, act_triple J (f a) (fun _ => K)) -> (forall h, J h -> K h) -> act_triple I (act_bind m f) (fun _ => K).
Proof. intros Hm Hf HK. eapply act_triple_bind; [done|done|]. intros e h. apply HK. Qed.

Lemma F_call v e : act_triple F (at_ (W := W) v (fail_with e (act_ret tt))) (fun _ => F).
Proof. apply at_triple, F_of_keeps; [apply keeps_fail_with, keeps_ret|by destruct e]. Qed.

Lemma F_log v e : silent e = true -> act_triple F (at_ (W := W) v (log e)) (fun _ => F).
Proof. intros He. apply at_triple, F_of_keeps; [by apply keeps_log|done]. Qed.

Lemma start_worker_F env calls runtime ipv6Enabled :
  act_triple F (start_worker run json_encode itoa env calls runtime ipv6Enabled path) (fun _ => F).
Proof.
  unfold start_worker. destruct (createWithFactory_keeps run json_encode json_decode itoa path env (tun_settings runtime ipv6Enabled)) as [Hck Hcs].
  eapply triple_seq; [by apply at_triple, F_of_keeps|intros name|done].
  eapply triple_seq; [apply at_triple|intros _|done].
  { intros h (Hh & Hr & Hd). split; [|done]. by apply (keeps_state json_encode json_decode path (set_tun name)). }
  eapply triple_seq; [apply at_triple, F_of_keeps; [by apply keeps_persist|]|intros _|done].
  { intros h. unfold persist. by destruct (WriteState _ _ _ _). }
  do 4 (eapply triple_seq; [apply F_call|intros _|done]). eapply triple_seq; [by apply F_log|intros _|done].
  do 3 (eapply triple_seq; [apply F_call|intros _|done]). eapply triple_seq; [by apply F_log|intros _|done].
  by apply act_triple_ret.
Qed.

Lemma P_call v e : act_triple P (at_ (W := W) v (fail_with e (act_ret tt))) (fun _ => P).
Proof. apply at_triple, keeps_fail_with, keeps_ret. Qed.

Lemma start_supervisor_P env calls interfaces layout runtime ipv6Enabled plan :
  path = ly_State layout ->
  act_triple F (start_supervisor run json_encode itoa env calls interfaces layout runtime ipv6Enabled plan) (fun _ => P).
Proof.
  intros Hpath. unfold start_supervisor. rewrite <- Hpath.
  eapply triple_seq; [apply start_worker_F|intros [name v]|by intros h []].
  eapply (triple_seq F D P); [apply at_triple|intros _|by intros h []].
  { intros h (Hh & Hr & Hd). split; [by apply installServiceRoutes_keeps|by rewrite same_dns_install]. }
  eapply (triple_seq D P P); [apply at_triple; by apply keeps_manage_dns|intros u|done].
  eapply triple_seq; [apply P_call|intros _|done]. eapply triple_seq; [by apply at_triple, keeps_log|intros _|done].
  eapply triple_seq; [apply P_call|intros _|done]. eapply triple_seq; [by apply at_triple, keeps_state|intros _|done].
  eapply triple_seq; [by apply at_triple, keeps_persist|intros _|done]. by apply act_triple_ret.
Qed.

(** ** Finishing *)

Lemma finish_control_stage C v c f : about_record C -> stage C f -> stage C (finish_control json_encode path v c f).
Proof.
  intros HC Hf. unfold finish_control. destruct (sp_control v); [|done]. destruct (sc_control c); [by apply stage_failed|].
  apply stage_persist; [done|]. apply stage_change; [done|by apply keeps_state|done|done].
Qed.

Lemma finish_worker_stage C v c f : about_record C -> stage C f -> stage C (finish_worker v c f).
Proof.
  intros HC Hf. unfold finish_worker. destruct (sp_started v); [|done].
  assert (Hlog : forall e f, silent e = true -> stage C f -> stage C (change (log e) f)) by (intros e f0 He Hf0; apply stage_change; [done|by apply keeps_log|done|done]).
  set (f1 := if sp_running v && sp_session v then _ else _).
  assert (H1 : stage C f1).
  { subst f1. destruct (_ && _); [|by apply Hlog]. assert (H0 : stage C (failed "stop service worker" (sc_shutdown c) (change (log (WorkerShutdown (bool_decide (sc_shutdown c = None)))) f)))
      by (by apply stage_failed, Hlog).
    destruct (sc_shutdown c); [by apply Hlog|done]. }
  destruct (sp_session v); [|done]. destruct (sp_running v); [apply stage_failed|]; by apply Hlog.
Qed.

Lemma append_failure_stage C b e f : stage C f -> stage C (append_failure b e f).
Proof. intros Hf. unfold append_failure. destruct b; [by apply stage_append|done]. Qed.

Lemma finish_descriptors_stage C v c f : about_record C -> stage C f -> stage C (finish_descriptors v c f).
Proof.
  intros HC Hf. unfold finish_descriptors.
  assert (H1 : stage C (append_failure (sp_sockets v) (sc_udp c) (append_failure (sp_sockets v) (sc_tcp c) (append_failure (sp_handoff v) (sc_handoff c) f))))
    by (do 3 apply append_failure_stage; done).
  destruct (sp_device v); [|done]. apply append_failure_stage. apply stage_change; [done|by apply keeps_log|done|done].
Qed.

Lemma finish_status_socket_stage C c f : about_record C -> stage C f -> stage C (finish_status_socket json_encode path c f).
Proof.
  intros HC Hf. unfold finish_status_socket. destruct (sc_status c); [by apply stage_failed|].
  apply stage_persist; [done|]. apply stage_change; [done|by apply keeps_state|done|done].
Qed.

Lemma finish_supervisor_spec v c primary h :
  P h -> let '(e, h') := finish_supervisor run json_encode json_decode path v c primary h in P h' /\ (e = None -> undone json_encode json_decode h').
Proof.
  intros Hh. unfold finish_supervisor. assert (H0 : stage (fun _ => True) ([], h)) by done.
  apply (finish_phase_stage json_encode json_decode path path_ok) in H0; [|done].
  apply (finish_control_stage _ v c) in H0; [|done]. apply (finish_dns_stage run json_encode json_decode path path_ok) in H0.
  apply (finish_routes_stage run json_encode json_decode path path_ok) in H0. apply (finish_worker_stage _ v c) in H0; [|apply about_empty].
  apply (finish_descriptors_stage _ v c) in H0; [|apply about_empty]. apply (finish_status_socket_stage _ c) in H0; [|apply about_empty].
  apply (stage_failed json_encode json_decode path _ "release process lock" (sc_lock c)) in H0.
  apply (remove_record_spec json_encode json_decode path) in H0. destruct (remove_record _ _ _) as [e h']. destruct H0 as (Hp & He & _).
  split; [done|]. intros Hn. apply He. unfold join_two in Hn. by destruct primary, e.
Qed.

(** ** The main loop *)

Lemma check_reload_P plan ipv6Enabled i sv : act_triple P (check_reload_request run plan ipv6Enabled i sv) (fun _ => P).
Proof.
  unfold check_reload_request. eapply triple_seq; [by apply act_triple_of|intros [[bytes next] digest]|done].
  eapply triple_seq; [by apply act_triple_of|intros _|done]. eapply triple_seq; [by apply act_triple_of|intros _|done].
  destruct (discoverInterfaceDNS _ _) as [servers e].
  assert (Hw : forall A (m : act (host W) go_error A), keeps m -> act_triple P (act_wrap as_app m) (fun _ => P)).
  { intros A m Hm. apply act_triple_wrap. intros h Hh. specialize (Hm h Hh). by destruct (m h) as [[]]. }
  eapply triple_seq; [apply Hw, keeps_fail_with, keeps_ret|intros _|done].
  eapply triple_seq; [apply Hw; destruct (DefaultRoute _); [apply keeps_same_plan|apply keeps_ret]|intros same|done].
  apply act_triple_unless; [by intros|]. intros _. by apply act_triple_ret.
Qed.

Lemma performReload_P plan ipv6Enabled i sv h : P h -> P (performReload run json_encode path plan ipv6Enabled i sv h).2.
Proof.
  intros Hh. unfold performReload. pose proof (check_reload_P plan ipv6Enabled i sv h Hh) as H1.
  destruct (check_reload_request _ _ _ _ _ _) as [[[[[[bytes next] digest] servers] effective]|e] h1]; [|done]. cbn in H1.
  destruct (sr_error _); [done|]. pose proof (keeps_digest json_encode json_decode path digest h1 H1) as H2.
  destruct (set_state (set_digest digest) h1) as [u h2]. cbn in H2.
  pose proof (keeps_persist json_encode json_decode path path_ok h2 H2) as H3. destruct (persist json_encode path h2) as [[[]|e] h3]; [done|].
  exact (keeps_digest json_encode json_decode path (st_ConfigDigest (h_state h1)) h3 H3).
Qed.

Lemma supervisor_tick_P plan ipv6Enabled i sv h : P h -> P (supervisor_tick run plan ipv6Enabled i sv h).2.
Proof.
  intros Hh. unfold supervisor_tick. destruct (discoverInterfaceDNS _ _) as [servers [e|]]; [done|]. destruct (negb _); [done|].
  assert (Hs : P ((if DefaultRoute (CCapture (sd_runtime sv))
                   then same_plan run plan (runtimeWithInterfaceDNS (sd_runtime sv) servers) ipv6Enabled h else (Ok true, h))).2).
  { destruct (DefaultRoute _); [by apply keeps_same_plan|done]. }
  destruct (if DefaultRoute _ then _ else _) as [[[]|e] h1]; [|done|done]. destruct (refresh_worker _ _ _) as [[] sv']; done.
Qed.

Lemma supervisor_loop_P plan ipv6Enabled evs sv h : P h -> P (supervisor_loop run json_encode path plan ipv6Enabled evs sv h).2.
Proof.
  revert sv h. induction evs as [|ev evs IH]; intros sv h Hh; cbn [supervisor_loop]; [done|].
  destruct ev as [|e|i|i]; cbn [supervisor_step]; [done|exact (keeps_log json_encode json_decode path WorkerDied eq_refl h Hh)| |].
  - pose proof (performReload_P plan ipv6Enabled i sv h Hh) as H. destruct (performReload _ _ _ _ _ _ _ _) as [[[[e []]|] sv'] h']; [done|by apply IH..].
  - pose proof (supervisor_tick_P plan ipv6Enabled i sv h Hh) as H. destruct (supervisor_tick _ _ _ _ _ _) as [[sv' [e|]] h']; [done|by apply IH].
Qed.

Lemma supervisor_spec env calls c interfaces layout ipv6Enabled plan evs sv (h : host W) :
  path = ly_State layout -> good json_encode json_decode path h -> st_Route (h_state h) = None -> st_DNS (h_state h) = [] ->
  forall r, RunServiceSupervisor run json_encode json_decode itoa env calls c interfaces layout ipv6Enabled plan evs sv h = r ->
  good json_encode json_decode path r.2 /\ (r.1.1 = Ended None -> undone json_encode json_decode r.2).
Proof.
  intros Hpath Hg Hr Hd res. unfold RunServiceSupervisor. rewrite <- Hpath.
  pose proof (first_persist json_encode json_decode path path_ok h Hg Hr Hd) as H.
  destruct (persist json_encode path h) as [[[]|e] h1]; destruct H as [Hg1 HF]; [|by intros <-].
  specialize (HF eq_refl). destruct (set_exists h1) as [u h2]. cbn [snd] in HF.
  pose proof (start_supervisor_P env calls interfaces layout (sd_runtime sv) ipv6Enabled plan Hpath h2 HF) as H3.
  assert (Hfin : forall v primary (sv' : supervised) h3 r, P h3 ->
    (let '(e, h) := finish_supervisor run json_encode json_decode path v c primary h3 in (Ended e, sv', h)) = r ->
    good json_encode json_decode path r.2 /\ (r.1.1 = Ended None -> undone json_encode json_decode r.2)).
  { intros v primary sv' h3 r Hp <-. pose proof (finish_supervisor_spec v c primary h3 Hp) as Hfs.
    destruct (finish_supervisor _ _ _ _ _ _ _ _) as [e h4]. destruct Hfs as [[Hg4 _] Hu]. split; [done|]. intros [= ->]. by apply Hu. }
  destruct (start_supervisor _ _ _ _ _ _ _ _ _ _ h2) as [[v|[e v]] h3]; [|by apply Hfin].
  pose proof (supervisor_loop_P plan ipv6Enabled evs sv h3 H3) as H4.
  destruct (supervisor_loop _ _ _ _ _ _ _ _) as [[sv' [[running primary]|]] h4]; [by apply Hfin|]. intros <-. split; [exact (proj1 H4)|done].
Qed.
End facts.
