(* ===== verification/RunLife.v ===== *)
(** * Component [internal/app]: runs, crashes and clean-ups of one host

    Runs and clean-ups follow each other on a host, and each may stop at any
    of its calls.  At every moment the state file lists what is left to undo,
    and a run or clean-up that reports success has left nothing. *)

From S2P Require Import Prelude.
From S2P Require Import GoStrings.
From S2P Require Import GoTime.
From S2P Require Import GoFiles.
From S2P Require Import NetIP.
From S2P Require Import FakeIPPool.
From S2P Require Import FakeDNS.
From S2P Require Import ConfigTypes.
From S2P Require Import Outbound.
From S2P Require Import Resolver.
From S2P Require Import SessionHandle.
From S2P Require Import DataPlane.
From S2P Require Import HostState.
From S2P Require Import HostRoutes.
From S2P Require Import HostDNS.
From S2P Require Import DefaultRoutes.
From S2P Require Import RunHost.
From S2P Require Import Run.
From S2P Require Import RunFacts.
From S2P Require Import RunLoop.
From S2P Require Import RunProperties.
From S2P Require Import LaunchLayout.
From S2P Require Import Supervisor.
From S2P Require Import SupervisorFacts.

(** ** The life of a host *)

Section lifetime.
Context {W Q : Type} (run : string -> list string -> W -> result command_error string * W) (json_encode : State -> option string)
  (json_decode : string -> option State) (itoa : Z -> string) (error_text : go_error -> string) (path : string).

(** Another process sees the same files. *)
Definition same_files (w w' : world) : Prop := w_fs w' = w_fs w /\ w_euid w' = w_euid w.

(** The process can stop after any call that changed the host or the record. *)
Definition stops_at (h : host W) (l : list (host_event * world)) (w : world) : Prop :=
  (l = h_log h /\ w = h_files h) \/ exists l1 e l2, h_log h = l1 ++ (e, w) :: l2 /\ l = l1 ++ [(e, w)].

(** The state of a managed service when the lock is held. *)
Definition service_state (pid now : Z) (digest : string) (layout : Layout) : State :=
  set_lock (ly_Lock layout) (NewState pid now digest).

(** The calls made so far by runs, managed services and clean-ups that end or
    crash in any order, and the files after them.  The network may change in
    between.  A run or a service starts only without a recovery record. *)
Inductive lifetime : list (host_event * world) -> world -> Prop :=
| life_untouched files : lifetime [] files
| life_run l files net pid now digest env c interfaces runtime ipv6Enabled plan evs (sv : service Q) o h l' w files' :
    lifetime l files -> reads json_decode path files = Err StateNotExist ->
    StateFile (CSystem runtime) = path -> sv_runtime sv = runtime ->
    Run run json_encode error_text json_decode itoa env c interfaces runtime ipv6Enabled plan evs sv
      (MkHost files net (first_state pid now digest runtime) false no_parts l) = (o, h) ->
    faithful json_encode json_decode (h_log h) ->
    l `prefix_of` l' -> stops_at h l' w -> same_files w files' -> lifetime l' files'
| life_service l files net pid now digest env calls c interfaces layout ipv6Enabled plan evs (sv : supervised) o sv' h l' w files' :
    lifetime l files -> reads json_decode path files = Err StateNotExist -> ly_State layout = path ->
    RunServiceSupervisor run json_encode json_decode itoa env calls c interfaces layout ipv6Enabled plan evs sv
      (MkHost files net (service_state pid now digest layout) false no_parts l) = (o, sv', h) ->
    faithful json_encode json_decode (h_log h) ->
    l `prefix_of` l' -> stops_at h l' w -> same_files w files' -> lifetime l' files'
| life_cleanup l files net s ex ps rv e h l' w files' :
    lifetime l files ->
    Cleanup run json_encode json_decode rv path (MkHost files net s ex ps l) = (e, h) ->
    faithful json_encode json_decode (h_log h) ->
    l `prefix_of` l' -> stops_at h l' w -> same_files w files' -> lifetime l' files'.

Context (path_ok : not_temporary path).

Notation crashed := (crashed (W := W) json_decode path).

Lemma same_files_covers w w' evs : same_files w w' -> disk_covers json_decode path w evs -> disk_covers json_decode path w' evs.
Proof.
  intros [Hfs Heu] [Hs|(s & Hs & Hc)]; [by left|right]. exists s. split; [|done]. by rewrite reads_eq, Hfs, Heu, <- reads_eq.
Qed.

Lemma stops_at_ok h l w :
  stops_at h l w -> log_ok json_decode path (h_log h) -> disk_covers json_decode path (h_files h) (events (h_log h)) ->
  log_ok json_decode path l /\ disk_covers json_decode path w (events l).
Proof.
  intros [[-> ->]|(l1 & e & l2 & Hl & ->)] Hlog Hdisk; [done|]. split; [|by eapply Hlog].
  intros k1 e1 w1 k2 Heq. destruct k2 as [|y k2 _] using rev_ind.
  - apply app_inj_tail in Heq as [<- [= <- <-]]. by eapply Hlog.
  - rewrite app_comm_cons, app_assoc in Heq. apply app_inj_tail in Heq as [-> _]. eapply (Hlog k1 e1 w1 (k2 ++ (e, w) :: l2)).
    rewrite Hl. by rewrite <- app_assoc.
Qed.

(** Without a record nothing is outstanding. *)
Lemma no_record_settled w evs : disk_covers json_decode path w evs -> reads json_decode path w = Err StateNotExist -> settled evs.
Proof. intros [Hs|(s & Hs & _)] Hr; [done|congruence]. Qed.

Lemma started_good files net s l :
  log_ok json_decode path l -> settled (events l) -> good json_encode json_decode path (MkHost files net s false no_parts l : host W).
Proof. intros Hl Hs _. split; cbn; [by apply settled_covers|by left|done|done]. Qed.

Lemma lifetime_ok l files : lifetime l files -> log_ok json_decode path l /\ disk_covers json_decode path files (events l).
Proof.
  intros Hlife. induction Hlife as [files|l files net pid now digest env c interfaces runtime ipv6Enabled plan evs sv o h l' w files'
      _ [Hlog Hdisk] Hnone Hpath Hsv Hrun Hf _ Hstop Hsame|l files net pid now digest env calls c interfaces layout ipv6Enabled plan evs sv o sv' h l' w files'
      _ [Hlog Hdisk] Hnone Hpath Hrun Hf _ Hstop Hsame|l files net s ex ps rv e h l' w files' _ [Hlog Hdisk] Hrun Hf _ Hstop Hsame].
  - split; [|by left]. intros [|x l1] e w l2 Heq; done.
  - pose proof (no_record_settled _ _ Hdisk Hnone) as Hset.
    apply (run_spec _ _ _ _ path path_ok) in Hrun as [Hg _]; [|done|done|by apply started_good|done|done].
    destruct (Hg Hf) as [_ Hd _ Hl]. destruct (stops_at_ok _ _ _ Hstop Hl Hd) as [? ?]. split; [done|by eapply same_files_covers].
  - pose proof (no_record_settled _ _ Hdisk Hnone) as Hset.
    apply (supervisor_spec _ _ _ _ path path_ok) in Hrun as [Hg _]; [|done|by apply started_good|done|done].
    destruct (Hg Hf) as [_ Hd _ Hl]. destruct (stops_at_ok _ _ _ Hstop Hl Hd) as [? ?]. split; [done|by eapply same_files_covers].
  - apply (cleanup_spec _ _ _ path path_ok) in Hrun as [[Hl Hd] _]; [|by split|done].
    destruct (stops_at_ok _ _ _ Hstop Hl Hd) as [? ?]. split; [done|by eapply same_files_covers].
Qed.
End lifetime.

(** Deciding [faithful] for a concrete log. *)
Definition faithful_entry (json_encode : State -> option string) (json_decode : string -> option State) (x : host_event * world) : bool :=
  match x.1 with
  | Wrote s _ =>
      match json_encode s with
      | Some c => bool_decide (json_decode c = Some s) && (slen c <=? maxStateSize)
      | None => true
      end
  | _ => true
  end.

Lemma faithful_decide json_encode json_decode l : forallb (faithful_entry json_encode json_decode) l = true -> faithful json_encode json_decode l.
Proof.
  intros Hl s ok w c Hin Hc. rewrite forallb_forall in Hl. specialize (Hl _ (proj1 (list_elem_of_In _ _) Hin)).
  unfold faithful_entry in Hl. cbn in Hl. rewrite Hc in Hl. apply andb_true_iff in Hl as [Hd%bool_decide_eq_true Hs%Z.leb_le]. done.
Qed.

(** ** The theorems *)

Section theorems.
Context {W Q : Type} (run : string -> list string -> W -> result command_error string * W) (json_encode : State -> option string)
  (json_decode : string -> option State) (itoa : Z -> string) (error_text : go_error -> string).

(** C2: no change of the host goes unrecorded.  Runs, managed services and
    clean-ups follow each other and stop, by a crash or an error, at any call.  After each of
    their calls, and where they stop, either nothing is outstanding or the
    state file reads as a state that lists every route that was added and not
    taken away and every service whose DNS servers were replaced and not put
    back. *)
Theorem host_changes_recorded (path : string) (l : list (host_event * world)) (files : world) :
  not_temporary path -> lifetime (Q := Q) run json_encode json_decode itoa error_text path l files ->
  log_ok json_decode path l /\ disk_covers json_decode path files (events l).
Proof. intros Hp Hlife. by eapply lifetime_ok. Qed.

(** C3: success means that nothing is left.  A run or a managed service that
    ends without an error, and a clean-up that reports none, leave no route and
    no DNS servers behind, whatever happened to the host before. *)
Theorem success_leaves_nothing (path : string) (l : list (host_event * world)) (files : world) (net : W) (h : host W) :
  not_temporary path -> lifetime (Q := Q) run json_encode json_decode itoa error_text path l files ->
  faithful json_encode json_decode (h_log h) ->
  (exists pid now digest env c interfaces runtime ipv6Enabled plan evs (sv : service Q),
     reads json_decode path files = Err StateNotExist /\ StateFile (CSystem runtime) = path /\ sv_runtime sv = runtime /\
     Run run json_encode error_text json_decode itoa env c interfaces runtime ipv6Enabled plan evs sv
       (MkHost files net (first_state pid now digest runtime) false no_parts l) = (Ended None, h)) \/
  (exists pid now digest env calls c interfaces layout ipv6Enabled plan evs (sv sv' : supervised),
     reads json_decode path files = Err StateNotExist /\ ly_State layout = path /\
     RunServiceSupervisor run json_encode json_decode itoa env calls c interfaces layout ipv6Enabled plan evs sv
       (MkHost files net (service_state pid now digest layout) false no_parts l) = (Ended None, sv', h)) \/
  (exists rv s ex ps, Cleanup run json_encode json_decode rv path (MkHost files net s ex ps l) = (None, h)) ->
  settled (events (h_log h)).
Proof.
  intros Hp Hlife Hf Hdone. apply lifetime_ok in Hlife as [Hlog Hdisk]; [|done..].
  destruct Hdone as [(pid & now & digest & env & c & interfaces & runtime & ipv6Enabled & plan & evs & sv & Hnone & Hpath & Hsv & Hrun)|
    [(pid & now & digest & env & calls & c & interfaces & layout & ipv6Enabled & plan & evs & sv & sv' & Hnone & Hpath & Hrun)|(rv & s & ex & ps & Hrun)]].
  - pose proof (no_record_settled _ _ _ _ Hdisk Hnone) as Hset.
    apply (run_spec _ _ _ _ path Hp) in Hrun as [_ Hu]; [|done|done|by apply started_good|done|done]. by apply Hu.
  - pose proof (no_record_settled _ _ _ _ Hdisk Hnone) as Hset.
    apply (supervisor_spec _ _ _ _ path Hp) in Hrun as [_ Hu]; [|done|by apply started_good|done|done]. by apply Hu.
  - apply (cleanup_spec _ _ _ path Hp) in Hrun as [_ Hs]; [|by split|done]. by apply Hs.
Qed.
End theorems.

(** ** A concrete host *)

(** Whether the route is installed, and the servers of the one service. *)
Record demo_net : Type := MkDemo { dm_route : bool; dm_servers : list string }.

Definition demo_lookup : string := "destination: 198.18.0.0" +:+ nl +:+ "mask: 255.254.0.0" +:+ nl +:+ "interface: utun7".

Definition demo_route_command (args : list string) (w : demo_net) : result command_error string * demo_net :=
  if bool_decide ("get" ∈ args)
  then (if dm_route w then Ok demo_lookup else Err (MkCommandError (failure "exit status 1") "route: not in table"), w)
  else (Ok "", MkDemo (bool_decide ("add" ∈ args)) (dm_servers w)).

Definition demo_networksetup (args : list string) (w : demo_net) : result command_error string * demo_net :=
  match args with
  | ["-listnetworkserviceorder"] => (Ok ("(1) Wi-Fi" +:+ nl +:+ "(Hardware Port: Wi-Fi, Device: en0)"), w)
  | ["-getdnsservers"; _] => (Ok (string_join nl (dm_servers w)), w)
  | _ :: _ :: servers => (Ok "", MkDemo (dm_route w) servers)
  | _ => (Err (MkCommandError (failure "exit status 1") ""), w)
  end.

Definition demo_run (executable : string) (args : list string) (w : demo_net) : result command_error string * demo_net :=
  if bool_decide (executable = route_command) then demo_route_command args w
  else if bool_decide (executable = networkSetup) then demo_networksetup args w
  else (Ok "", w).

Definition demo_interfaces (name : string) : option interface_view :=
  if bool_decide (name = "en0") then Some (MkInterfaceView true (Some [Addr4 0xC0A80105])) else None.

Definition demo_path : string := "/var/run/tun-proxy.state".

Definition demo_runtime : Config :=
  MkConfig 1 (MkLog "info" "text") (MkSystem demo_path "/var/run/tun-proxy.lock" true) (MkCapture false)
    (MkTUN (Addr4 0x0A0A0001) (Addr4 0x0A0A0002) AddrZero AddrZero 1500 256 64)
    (MkFakeIP (prefix_from (Addr4 0xC6120000) 15) second (60 * second) 100 "" []) None
    (ConfigTypes.MkDNS (AddrPort (Addr4 0x7F000001) 53) true true "proxy" 64)
    (MkSessions 16 second 16 16) ∅ [].

Definition demo_service : service unit :=
  MkService demo_runtime demo_runtime ∅ "sha256:00"
    (MkDataPlane (MkMappingPools None None prefix_zero prefix_zero false) (MkUDPLimiter 16 16 ∅ ∅) [] 0 [] no_stats)
    (MkServer (FakeDNS.MkConfig (AddrPort (Addr4 0x7F000001) 53) true true second second 64 None)
       (MkPool prefix_zero second AddrZero AddrZero 0 0 AddrZero ∅ ∅ ∅ false 0 0 ∅ 1%N) None
       (MkRuntime second second [] None (MkClient [] "" second 64 0 0 ∅)) 0 (FakeDNS.MkStats 0 0 0 0 0 0 0 0))
    (newNetworkRefreshState "").

Definition demo_startup : startup demo_net := MkStartup (act_ret tt) (Ok "utun7") None None None None None.
Definition demo_closings : closings := MkClosings None None None None None None None None None.
Definition demo_recovery : recovery := MkRecovery LockClaimed ProcessGone None (fun _ => false) None.

(** The records of the run, in order, and of a clean-up.  A record is
    rendered as its position in unary. *)
Definition demo_records : list State :=
  let s0 := first_state 42 1000 "sha256:00" demo_runtime in
  let s1 := set_tun "utun7" s0 in
  let s2 := set_route (Some (MkRoute "198.18.0.0/15" "utun7" "" "")) s1 in
  let s3 := set_phase "dns-planned" (set_dns [MkDNS "Wi-Fi" ["192.168.1.1"] ["127.0.0.1"]] s2) in
  let s4 := set_phase "running" (set_status (demo_path +:+ ".sock") s3) in
  let s5 := set_status "" s4 in
  let s6 := set_phase "stopping" s5 in
  let s7 := set_dns [] s6 in
  let s8 := set_route None s7 in
  let c1 := set_phase "cleaning" s4 in
  let c2 := set_status "" c1 in
  let c3 := set_dns [] c2 in
  [s0; s1; s2; s3; s4; s5; s6; s7; s8; c1; c2; c3; set_route None c3].

Fixpoint unary (n : nat) : string := match n with O => "{}" | S n' => "." +:+ unary n' end.

Definition demo_encode (s : State) : option string :=
  (fun x => unary x.1) <$> list_find (eq s) demo_records.

Definition demo_decode (t : string) : option State := demo_records !! (String.length t - 2)%nat.

Definition demo_files : world := MkWorld ∅ [] 0 (replicate 20 "1") [].
Definition demo_before : demo_net := MkDemo false ["192.168.1.1"].

Definition demo_run_from (evs : list loop_event) : run_outcome * host demo_net :=
  Run demo_run demo_encode (fun _ => "") demo_decode (fun _ => "1500") demo_startup demo_closings demo_interfaces demo_runtime false
    (MkPlan [] [] []) evs demo_service
    (MkHost demo_files demo_before (first_state 42 1000 "sha256:00" demo_runtime) false no_parts []).

(** The process stops right after the DNS servers were replaced. *)
Definition demo_crash_log : list (host_event * world) := take 8 (h_log (demo_run_from []).2).
Definition demo_crash_files : world := match last demo_crash_log with Some (_, w) => w | None => demo_files end.

Notation demo_life := (lifetime (Q := unit) demo_run demo_encode demo_decode (fun _ => "1500") (fun _ => "") demo_path).

Definition demo_running : host demo_net := (demo_run_from []).2.

Lemma demo_faithful : faithful demo_encode demo_decode (h_log demo_running).
Proof. apply faithful_decide. by vm_compute. Qed.

Lemma demo_stops : stops_at demo_running demo_crash_log demo_crash_files.
Proof.
  right. exists (take 7 (h_log demo_running)), (ApplyingDNS [MkDNS "Wi-Fi" ["192.168.1.1"] ["127.0.0.1"]]), (drop 8 (h_log demo_running)).
  split; by vm_compute.
Qed.

Lemma demo_crash_life : demo_life demo_crash_log demo_crash_files.
Proof.
  refine (life_run demo_run demo_encode demo_decode (fun _ => "1500") (fun _ => "") demo_path [] demo_files demo_before 42 1000 "sha256:00"
    demo_startup demo_closings demo_interfaces demo_runtime false (MkPlan [] [] []) [] demo_service (demo_run_from []).1 demo_running
    demo_crash_log demo_crash_files demo_crash_files (life_untouched _ _ _ _ _ _ demo_files) _ eq_refl eq_refl
    (surjective_pairing (demo_run_from [])) demo_faithful (prefix_nil _) demo_stops (conj eq_refl eq_refl)).
  by vm_compute.
Qed.

Lemma host_changes_recorded_witness :
  demo_life demo_crash_log demo_crash_files /\ ~ settled (events demo_crash_log) /\
  disk_covers demo_decode demo_path demo_crash_files (events demo_crash_log).
Proof.
  split; [apply demo_crash_life|]. split; [intros [Hr _]; vm_compute in Hr; discriminate Hr|].
  exact (proj2 (host_changes_recorded (Q := unit) demo_run demo_encode demo_decode (fun _ => "1500") (fun _ => "") demo_path
    demo_crash_log demo_crash_files eq_refl demo_crash_life)).
Defined.

(** The clean-up after it. *)
Definition demo_cleanup : option go_error * host demo_net :=
  Cleanup demo_run demo_encode demo_decode demo_recovery demo_path
    (MkHost demo_crash_files (MkDemo true ["127.0.0.1"]) (NewState 0 0 "") false no_parts demo_crash_log).

Lemma success_leaves_nothing_witness :
  demo_cleanup.1 = None /\ h_net demo_cleanup.2 = demo_before /\ settled (events (h_log demo_cleanup.2)).
Proof.
  split; [by vm_compute|]. split; [by vm_compute|].
  apply (success_leaves_nothing (Q := unit) demo_run demo_encode demo_decode (fun _ => "1500") (fun _ => "") demo_path
    demo_crash_log demo_crash_files (MkDemo true ["127.0.0.1"]) demo_cleanup.2).
  - by vm_compute.
  - apply demo_crash_life.
  - apply faithful_decide. by vm_compute.
  - right; right. exists demo_recovery, (NewState 0 0 ""), false, no_parts.
    by vm_compute.
Defined.
