(* ===== verification/SupervisorOrder.v ===== *)
(** * Component [internal/app]: the worker and the changes of the host

    The order in which the supervisor starts the worker, changes the host,
    publishes itself as running, puts the host back and stops the worker. *)

From S2P Require Import Prelude.
From S2P Require Import GoStrings.
From S2P Require Import GoFiles.
From S2P Require Import NetIP.
From S2P Require Import ConfigTypes.
From S2P Require Import Outbound.
From S2P Require Import EffectiveDNS.
From S2P Require Import HostState.
From S2P Require Import HostRoutes.
From S2P Require Import HostDNS.
From S2P Require Import DefaultRoutes.
From S2P Require Import RunHost.
From S2P Require Import Run.
From S2P Require Import RunFacts.
From S2P Require Import RunLoop.
From S2P Require Import Apperror.
From S2P Require Import Privsep.
From S2P Require Import LaunchLayout.
From S2P Require Import Supervisor.
From S2P Require Import SupervisorFacts.
From S2P Require Import RunLife.

(** ** The order *)

(** The worker, as far as the supervisor knows: [Dead] when it saw an
    unexpected end, [Stopping] once it asked for the end or killed it, and
    [Gone] when waiting for the process has returned. *)
Inductive worker_phase : Type := NoWorker | Starting | Ready | Active | Dead | Stopping | Gone.

#[export] Instance worker_phase_eq_dec : EqDecision worker_phase.
Proof. solve_decision. Defined.

(** The supervisor began to stop the worker. *)
Definition stopped (p : worker_phase) : bool := match p with Stopping | Gone => true | _ => false end.

(** [WaitProcess] returned because the process had ended and not because its
    time was up. *)
Definition exit_seen (e : option go_error) : bool := match e with Some (ENet true None) => false | _ => true end.

(** Routes are added and DNS servers replaced only while a worker is prepared
    and not committed; they are taken back before the supervisor stops it; the
    phase [running] is recorded only while it is committed; the device is
    closed only without it or after it was stopped. *)
Definition order_step (p : worker_phase) (e : host_event) : option worker_phase :=
  match e with
  | WorkerStarted => if decide (p = NoWorker) then Some Starting else None
  | WorkerPrepared => if decide (p = Starting) then Some Ready else None
  | WorkerCommitted => if decide (p = Ready) then Some Active else None
  | WorkerDied => if decide (p = Active) then Some Dead else None
  | WorkerShutdown _ => if decide (p = Active) then Some Stopping else None
  | WorkerKilled => if decide (p = NoWorker \/ p = Gone) then None else Some Stopping
  | WorkerWaited e => if decide (p = Stopping) then Some (if exit_seen e then Gone else Stopping) else None
  | AddingRoute _ | ApplyingDNS _ => if decide (p = Ready) then Some p else None
  | RouteGone _ | RestoredDNS _ _ => if stopped p then None else Some p
  | DeviceClosed => if bool_decide (p = NoWorker) || stopped p then Some p else None
  | Wrote s _ => if decide (st_Phase s = "running" /\ p <> Active) then None else Some p
  | _ => Some p
  end.

Definition in_order (evs : list host_event) : option worker_phase :=
  foldl (fun p e => p ≫= (fun p => order_step p e)) (Some NoWorker) evs.

Lemma in_order_snoc evs e : in_order (evs ++ [e]) = in_order evs ≫= (fun p => order_step p e).
Proof. unfold in_order. by rewrite foldl_app. Qed.

Section order.
Context {W : Type} (run : string -> list string -> W -> result command_error string * W) (json_encode : State -> option string)
  (json_decode : string -> option State) (itoa : Z -> string) (path : string) (before : list (host_event * world)).

Notation M := (act (host W) go_error).

(** The calls since [before] are in order and end in phase [p]. *)
Definition reached (p : worker_phase) (h : host W) : Prop := exists new, h_log h = before ++ new /\ in_order (events new) = Some p.

Record at_phase (p : worker_phase) (h : host W) : Prop := {
  ap_reached : reached p h;
  ap_exists : h_exists h = true;
  ap_quiet : st_Phase (h_state h) <> "running"
}.

Lemma reached_snoc p q e files h : order_step p e = Some q -> reached p h ->
  forall h', h_log h' = h_log h ++ [(e, files)] -> reached q h'.
Proof.
  intros Hs (new & Hl & Ho) h' Hl'. exists (new ++ [(e, files)]). split; [by rewrite Hl', Hl, app_assoc|].
  rewrite events_snoc, in_order_snoc, Ho. done.
Qed.

Lemma phase_log p q e h : order_step p e = Some q -> at_phase p h -> at_phase q (log e h).2.
Proof. intros Hs [Hr He Hq]. split; [|done|done]. by eapply reached_snoc. Qed.

Lemma phase_state p f h : (st_Phase (f (h_state h)) = st_Phase (h_state h) \/ st_Phase (f (h_state h)) <> "running") -> at_phase p h -> at_phase p (set_state f h).2.
Proof. intros Hf [Hr He Hq]. split; [done|done|]. cbn. destruct Hf as [->|?]; done. Qed.

Lemma phase_persist p h : at_phase p h -> at_phase p (persist json_encode path h).2.
Proof.
  intros [Hr He Hq]. unfold persist. destruct (WriteState _ _ _ _) as [r files]. split; [|done|done].
  eapply reached_snoc; [|done|done]. cbn [order_step]. rewrite decide_False by (by intros []). done.
Qed.

Definition stays {E A} (p : worker_phase) (m : act (host W) E A) : Prop := act_triple (at_phase p) m (fun _ => at_phase p).

Lemma stays_bind {E A B} p (m : act (host W) E A) (f : A -> act (host W) E B) : stays p m -> (forall a, stays p (f a)) -> stays p (act_bind m f).
Proof. intros Hm Hf. by eapply act_triple_bind. Qed.

Lemma stays_ret {E A} p (a : A) : stays p (act_ret (E := E) a).
Proof. by apply act_triple_ret. Qed.

Lemma stays_of {E A} p (r : result E A) : stays p (act_of r).
Proof. by apply act_triple_of. Qed.

Lemma stays_wrap {E E' A} p (f : E' -> E) (m : act (host W) E' A) : stays p m -> stays p (act_wrap f m).
Proof. intros Hm. apply act_triple_wrap. intros h Hh. specialize (Hm h Hh). by destruct (m h) as [[]]. Qed.

Lemma stays_fail_with {A} p e (k : M A) : stays p k -> stays p (fail_with e k).
Proof. intros Hk. destruct e; [by apply act_triple_fail|done]. Qed.

Lemma stays_net {A} p (m : act W go_error A) : stays p (on_net m).
Proof. intros h [Hr He Hq]. unfold on_net. by destruct (m (h_net h)). Qed.

Lemma stays_persist p : stays p (persist json_encode path).
Proof. intros h. apply phase_persist. Qed.

Lemma stays_log p e : order_step p e = Some p -> stays p (log e).
Proof. intros He h. by apply phase_log. Qed.

Lemma stays_state p f : (forall s, st_Phase (f s) = st_Phase s \/ st_Phase (f s) <> "running") -> stays p (set_state f).
Proof. intros Hf h. by apply phase_state. Qed.

(** ** Starting *)

Lemma stays_install_route route legacy : stays Ready (install_route run json_encode path route legacy).
Proof.
  unfold install_route. apply stays_bind; [apply stays_state; intros s; left; by destruct legacy|intros _].
  apply stays_bind; [apply stays_persist|intros _]. apply stays_bind; [by apply stays_log|intros _].
  apply stays_bind; [apply stays_net|intros _; apply stays_net].
Qed.

Lemma stays_same_plan p plan runtime ipv6Enabled : stays p (same_plan run plan runtime ipv6Enabled).
Proof.
  intros h Hh. unfold same_plan.
  match goal with |- context [on_net ?m h] => pose proof (stays_net p m h Hh) as Hn; destruct (on_net m h) as [[v|e] h'] end; done.
Qed.

Lemma stays_install runtime tunName ipv6Enabled plan : stays Ready (installServiceRoutes run json_encode path runtime tunName ipv6Enabled plan).
Proof.
  unfold installServiceRoutes. apply stays_bind; [apply stays_install_route|intros _]. apply stays_bind.
  { destruct ipv6Enabled; [|apply stays_ret]. destruct (CFakeIPv6 runtime); [apply stays_install_route|by apply act_triple_fail]. }
  intros _. apply stays_bind.
  - induction (plan_routes plan tunName) as [|r routes IH]; [apply stays_ret|]. apply stays_bind; [apply stays_install_route|done].
  - intros _ h Hh. unfold verify_plan. destruct (DefaultRoute _); [|done].
    match goal with |- context [on_net ?m h] => pose proof (stays_net Ready m h Hh) as Hn; destruct (on_net m h) as [[v|e] h'] end; [|done].
    by destruct (plan_equal plan v).
Qed.

Lemma stays_manage_dns interfaces runtime : stays Ready (manage_dns run json_encode path interfaces runtime).
Proof.
  unfold manage_dns. destruct (ManageDNS _); [|apply stays_ret]. apply stays_bind; [apply stays_net|intros snapshot].
  apply stays_bind; [apply stays_of|intros planned]. apply stays_bind; [apply stays_state; intros s; by right|intros _].
  apply stays_bind; [apply stays_persist|intros _]. unfold apply_dns. apply stays_bind; [by apply stays_log|intros _]. apply stays_net.
Qed.

Lemma stays_create env settings : stays NoWorker (createWithFactory run itoa env settings).
Proof.
  assert (Hk : forall {A} (m : M A), stays NoWorker m -> stays NoWorker (fun h => match m h with
      | (Ok a, h) => (Ok a, h)
      | (Err e, h) => let '(_, h) := log DeviceClosed h in
                      (Err (match su_close env with Some c => EWrap "additionally close" e | None => e end), h) end)).
  { intros A m Hm h Hh. specialize (Hm h Hh). destruct (m h) as [[a|e] h']; [done|]. cbn in *. by apply (stays_log NoWorker DeviceClosed). }
  unfold createWithFactory. apply stays_bind; [apply stays_net|intros _]. apply stays_bind; [by apply stays_log|intros _]. apply stays_bind.
  - destruct (su_name env); [apply stays_ret|]. apply stays_bind; [by apply stays_log|intros _; by apply act_triple_fail].
  - intros name. apply stays_bind; [apply Hk, stays_net|intros _]. apply stays_bind; [|intros _; apply stays_ret].
    destruct (addr_valid _); [apply Hk, stays_net|apply stays_ret].
Qed.

(** The variables of the supervisor agree with the phase. *)
Record agrees (p : worker_phase) (v : supervising) : Prop := {
  ag_started : p = NoWorker <-> sp_started v = false;
  ag_stopped : stopped p = false;
  ag_running : sp_running v = true -> p = Active /\ sp_session v = true
}.

(** Where starting stops, with the variables that say what is there. *)
Definition stopped_at (r : (go_error * supervising)) (h : host W) : Prop :=
  exists p, at_phase p h /\ agrees p r.2.

Definition until {A} (p q : worker_phase) (m : act (host W) (go_error * supervising) A) : Prop :=
  act_triple (at_phase p) m (fun r h => match r with Ok _ => at_phase q h | Err e => stopped_at e h end).

Lemma until_at {A} p v (m : M A) : stays p m -> agrees p v -> until p p (at_ v m).
Proof.
  intros Hm Hv. apply act_triple_wrap. intros h Hh. specialize (Hm h Hh). destruct (m h) as [[a|e] h']; [done|]. by exists p.
Qed.

Lemma until_log p q v e : order_step p e = Some q -> until p q (at_ v (log e)).
Proof. intros Hs h Hh. by apply (phase_log p q e h). Qed.

Lemma until_bind {A B} p q r (m : act (host W) (go_error * supervising) A) (f : A -> act (host W) (go_error * supervising) B) :
  until p q m -> (forall a, until q r (f a)) -> until p r (act_bind m f).
Proof. intros Hm Hf. eapply act_triple_bind; [exact Hm|intros a; apply Hf|done]. Qed.

Lemma until_ret {A} p (a : A) : until p p (act_ret a).
Proof. by apply act_triple_ret. Qed.

Lemma until_call p v e : agrees p v -> until p p (at_ v (fail_with e (act_ret tt))).
Proof. intros Hv. apply until_at; [apply stays_fail_with, stays_ret|done]. Qed.

(** Phase and variables agree, by computation. *)
Ltac agree := first [done|split; [split; done|done|done]].

(** The variables with a prepared worker. *)
Definition prepared (v : supervising) : Prop := sp_started v = true /\ sp_session v = true /\ sp_running v = false.

Lemma start_worker_order env calls runtime ipv6Enabled :
  act_triple (at_phase NoWorker) (start_worker run json_encode itoa env calls runtime ipv6Enabled path)
    (fun r h => match r with Ok x => at_phase Ready h /\ prepared x.2 | Err e => stopped_at e h end).
Proof.
  assert (Hu : forall {A} p q (m : act (host W) (go_error * supervising) A) (f : A -> act (host W) (go_error * supervising) (string * supervising)),
    until p q m -> (forall a, act_triple (at_phase q) (f a) (fun r h => match r with Ok x => at_phase Ready h /\ prepared x.2 | Err e => stopped_at e h end)) ->
    act_triple (at_phase p) (act_bind m f) (fun r h => match r with Ok x => at_phase Ready h /\ prepared x.2 | Err e => stopped_at e h end)).
  { intros A p q m f Hm Hf. eapply act_triple_bind; [exact Hm|intros a; apply Hf|done]. }
  unfold start_worker. eapply Hu; [apply until_at; [apply stays_create|agree]|intros name].
  eapply Hu; [apply until_at; [apply stays_state; by left|agree]|intros _]. eapply Hu; [apply until_at; [apply stays_persist|agree]|intros _].
  do 4 (eapply Hu; [apply until_call; agree|intros _]). eapply Hu; [by apply until_log|intros _].
  do 3 (eapply Hu; [apply until_call; agree|intros _]). eapply Hu; [by apply until_log|intros _]. by apply act_triple_ret.
Qed.

(** A started service: committed, and recorded as running. *)
Definition running_phase (h : host W) : Prop := reached Active h /\ h_exists h = true.

Lemma running_persist h : running_phase h -> running_phase (persist json_encode path h).2.
Proof.
  intros [Hr He]. unfold persist. destruct (WriteState _ _ _ _) as [r files]. split; [|done].
  eapply reached_snoc; [|done|done]. cbn [order_step]. rewrite decide_False by (by intros []). done.
Qed.

Lemma at_running h : at_phase Active h -> running_phase h.
Proof. by intros []. Qed.

(** What [finish] starts from. *)
Definition finishing_phase (v : supervising) (h : host W) : Prop :=
  exists p, reached p h /\ h_exists h = true /\ agrees p v.

Lemma stopped_finishing e h : stopped_at e h -> finishing_phase e.2 h.
Proof. intros (p & [Hr He _] & Hv). by exists p. Qed.

Lemma start_supervisor_order env calls interfaces layout runtime ipv6Enabled plan :
  path = ly_State layout ->
  act_triple (at_phase NoWorker) (start_supervisor run json_encode itoa env calls interfaces layout runtime ipv6Enabled plan)
    (fun r h => match r with Ok v => running_phase h /\ sp_started v = true /\ sp_session v = true | Err e => finishing_phase e.2 h end).
Proof.
  intros Hpath. unfold start_supervisor. rewrite <- Hpath.
  eapply act_triple_bind; [apply start_worker_order| |intros e h; apply stopped_finishing]. intros [name v].
  intros h [Hh Hv]. cbn [snd] in Hv. revert h Hh.
  set (Q := fun (r : result (go_error * supervising) supervising) h => match r with Ok v => running_phase h /\ sp_started v = true /\ sp_session v = true | Err e => finishing_phase e.2 h end).
  assert (Hu : forall {A} p q (m : act (host W) (go_error * supervising) A) (f : A -> act (host W) (go_error * supervising) supervising),
    until p q m -> (forall a, act_triple (at_phase q) (f a) Q) -> act_triple (at_phase p) (act_bind m f) Q).
  { intros A p q m f Hm Hf. eapply act_triple_bind; [exact Hm|intros a; apply Hf|intros e h; apply stopped_finishing]. }
  destruct Hv as (Hv1 & Hv2 & Hv3).
  assert (Hagree : agrees Ready v) by (split; [split; congruence|done|congruence]).
  assert (Hactive : forall v', sp_started v' = true -> sp_session v' = true -> agrees Active v').
  { intros v' H1 H2. split; [split; congruence|done|done]. }
  eapply Hu; [apply until_at; [apply stays_install|done]|intros _].
  eapply Hu; [apply until_at; [apply stays_manage_dns|done]|intros _].
  eapply Hu; [by apply until_call|intros _]. eapply Hu; [by apply until_log|intros _].
  eapply Hu; [apply until_call; by apply Hactive|intros _].
  intros h Hh. apply at_running in Hh. unfold act_bind, at_, act_wrap. cbn [set_state].
  match goal with |- context [persist json_encode path ?h'] => assert (H2 : running_phase h') by exact Hh; pose proof (running_persist h' H2) as H3; destruct (persist json_encode path h') as [[[]|e] h3] end.
  - by split.
  - destruct H3 as [Hr He]. exists Active. split_and!; [done|done|by apply Hactive].
Qed.

(** ** The main loop *)

(** A computation that only asks. *)
Definition asks {E A} (m : act (host W) E A) : Prop := act_triple running_phase m (fun _ => running_phase).

Lemma asks_bind {E A B} (m : act (host W) E A) (f : A -> act (host W) E B) : asks m -> (forall a, asks (f a)) -> asks (act_bind m f).
Proof. intros Hm Hf. by eapply act_triple_bind. Qed.

Lemma asks_of {E A} (r : result E A) : asks (act_of r).
Proof. by apply act_triple_of. Qed.

Lemma asks_wrap {E A} (f : go_error -> E) (m : M A) : asks m -> asks (act_wrap f m).
Proof. intros Hm. apply act_triple_wrap. intros h Hh. specialize (Hm h Hh). by destruct (m h) as [[]]. Qed.

Lemma asks_same_plan plan runtime ipv6Enabled : asks (same_plan run plan runtime ipv6Enabled).
Proof.
  intros h Hh. unfold same_plan, on_net. by destruct (planDefaultRouteCaptureOwned _ _ _ _ _ _) as [[v|e] w].
Qed.

Lemma check_reload_asks plan ipv6Enabled i sv : asks (check_reload_request run plan ipv6Enabled i sv).
Proof.
  unfold check_reload_request. apply asks_bind; [apply asks_of|intros [[bytes next] digest]]. do 2 (apply asks_bind; [apply asks_of|intros _]).
  destruct (discoverInterfaceDNS _ _) as [servers e].
  apply asks_bind; [apply asks_wrap; destruct e; [by apply act_triple_fail|by apply act_triple_ret]|intros _].
  apply asks_bind; [apply asks_wrap; destruct (DefaultRoute _); [apply asks_same_plan|by apply act_triple_ret]|intros same].
  apply act_triple_unless; [by intros|]. intros _. by apply act_triple_ret.
Qed.

Lemma performReload_order plan ipv6Enabled i sv h : running_phase h -> running_phase (performReload run json_encode path plan ipv6Enabled i sv h).2.
Proof.
  intros Hh. unfold performReload. pose proof (check_reload_asks plan ipv6Enabled i sv h Hh) as H1.
  destruct (check_reload_request _ _ _ _ _ _) as [[[[[[bytes next] digest] servers] effective]|e] h1]; [|done]. cbn in H1.
  destruct (sr_error _); [done|]. assert (H2 : running_phase (set_state (set_digest digest) h1).2) by exact H1.
  destruct (set_state (set_digest digest) h1) as [u h2]. pose proof (running_persist h2 H2) as H3.
  destruct (persist json_encode path h2) as [[[]|e] h3]; [done|]. exact H3.
Qed.

Lemma supervisor_tick_order plan ipv6Enabled i sv h : running_phase h -> running_phase (supervisor_tick run plan ipv6Enabled i sv h).2.
Proof.
  intros Hh. unfold supervisor_tick. destruct (discoverInterfaceDNS _ _) as [servers [e|]]; [done|]. destruct (negb _); [done|].
  assert (Hs : running_phase ((if DefaultRoute (CCapture (sd_runtime sv))
                   then same_plan run plan (runtimeWithInterfaceDNS (sd_runtime sv) servers) ipv6Enabled h else (Ok true, h))).2).
  { destruct (DefaultRoute _); [by apply asks_same_plan|done]. }
  destruct (if DefaultRoute _ then _ else _) as [[[]|e] h1]; [|done|done]. destruct (refresh_worker _ _ _) as [[] sv']; done.
Qed.

(** The loop ends with the worker it saw last: dead when its end was seen,
    which is then the primary error. *)
Definition loop_order (r : supervised * option (bool * option go_error) * host W) : Prop :=
  match r with
  | (_, Some (false, e), h) => reached Dead h /\ h_exists h = true /\ is_Some e
  | (_, _, h) => running_phase h
  end.

Lemma supervisor_loop_order plan ipv6Enabled evs sv h :
  running_phase h -> loop_order (supervisor_loop run json_encode path plan ipv6Enabled evs sv h).
Proof.
  revert sv h. induction evs as [|ev evs IH]; intros sv h Hh; cbn [supervisor_loop]; [done|].
  destruct ev as [|e|i|i]; cbn [supervisor_step]; [done| | |].
  - destruct Hh as [Hr He]. cbn. split_and!; [|done|done]. by eapply (reached_snoc Active Dead WorkerDied (h_files h) h).
  - pose proof (performReload_order plan ipv6Enabled i sv h Hh) as H. destruct (performReload _ _ _ _ _ _ _ _) as [[[[e []]|] sv'] h']; [done|by apply IH..].
  - pose proof (supervisor_tick_order plan ipv6Enabled i sv h Hh) as H. destruct (supervisor_tick _ _ _ _ _ _) as [[sv' [e|]] h']; [done|by apply IH].
Qed.

(** ** Finishing *)

Notation finishing := (finishing (W := W)).

Definition ends (p : worker_phase) (f : finishing) : Prop := at_phase p f.2.

Lemma ends_failed p what e f : ends p f -> ends p (failed what e f).
Proof. by destruct e. Qed.

Lemma ends_change p (m : M unit) f : stays p m -> ends p f -> ends p (change m f).
Proof. intros Hm Hf. by apply (Hm f.2). Qed.

Lemma ends_persist p what f : ends p f -> ends p (persist_if_exists json_encode path what f).
Proof.
  intros Hf. unfold persist_if_exists, collect. destruct (h_exists f.2); [|done]. pose proof (phase_persist p f.2 Hf) as H.
  by destruct (persist json_encode path f.2) as [[]].
Qed.

Lemma ends_append p b e f : ends p f -> ends p (append_failure b e f).
Proof. by destruct b, e. Qed.

Lemma finish_phase_order p fs h : reached p h -> h_exists h = true -> ends p (finish_phase json_encode path (fs, h)).
Proof.
  intros Hr He. unfold finish_phase. cbn [snd]. rewrite He. apply ends_persist. by split.
Qed.

Lemma finish_control_order p v c f : ends p f -> ends p (finish_control json_encode path v c f).
Proof.
  intros Hf. unfold finish_control. destruct (sp_control v); [|done]. destruct (sc_control c); [by apply ends_failed|].
  apply ends_persist, ends_change; [apply stays_state; by left|done].
Qed.

Lemma finish_dns_order p f : stopped p = false -> ends p f -> ends p (finish_dns run json_encode path f).
Proof.
  intros Hp Hf. unfold finish_dns. case_bool_decide; [done|]. unfold restore_dns. destruct (RestoreDNS _ _ _) as [[remaining e] w].
  apply ends_persist, ends_failed. unfold ends. cbn [snd]. apply (phase_log p p); [cbn [order_step]; by rewrite Hp|].
  destruct Hf as [Hr He Hq]. by split.
Qed.

Lemma remove_route_order p route h : stopped p = false -> at_phase p h -> at_phase p (remove_route run route h).2.
Proof.
  intros Hp. apply (stays_bind p); [apply stays_net|intros _]. apply stays_log. cbn [order_step]. by rewrite Hp.
Qed.

Lemma collect_persist_order p what fs h : at_phase p h -> at_phase p (collect fs (persist_failure what) (persist json_encode path) h).2.
Proof. intros Hh. unfold collect. pose proof (phase_persist p h Hh) as H. by destruct (persist json_encode path h) as [[]]. Qed.

Lemma remove_loop_order p todo kept fs h : stopped p = false -> at_phase p h -> at_phase p (remove_loop run json_encode path todo kept fs h).2.
Proof.
  intros Hp. revert kept fs h. induction todo as [|route todo IH]; intros kept fs h Hh; cbn [remove_loop]; [done|].
  pose proof (remove_route_order p route h Hp Hh) as H. destruct (remove_route run route h) as [[[]|e] h1]; [|by apply IH].
  assert (H2 : at_phase p (set_state (set_routes (rev todo ++ kept)) h1).2) by (apply phase_state; [by left|done]).
  destruct (set_state (set_routes (rev todo ++ kept)) h1) as [u h2]. pose proof (collect_persist_order p "persist route rollback" fs h2 H2) as H3.
  destruct (collect _ _ _ h2) as [fs3 h3]. by apply IH.
Qed.

Lemma finish_routes_order p f : stopped p = false -> ends p f -> ends p (finish_routes run json_encode path f).
Proof.
  intros Hp Hf. unfold finish_routes. destruct (_ && _); [|done].
  assert (H : at_phase p (removeRecordedRoutes run json_encode path f.2).2); [|by destruct (removeRecordedRoutes _ _ _ _) as [[]]].
  unfold removeRecordedRoutes. pose proof (remove_loop_order p (rev (st_Routes (h_state f.2))) [] [] f.2 Hp Hf) as H.
  destruct (remove_loop _ _ _ _ _ _ _) as [fs h1]. cbn [snd] in H. destruct (st_Route (h_state h1)) as [route|]; [|done].
  pose proof (remove_route_order p route h1 Hp H) as H2. destruct (remove_route run route h1) as [[[]|e] h2]; [|done].
  assert (H3 : at_phase p (set_state (set_route None) h2).2) by (apply phase_state; [by left|done]).
  destruct (set_state (set_route None) h2) as [u h3]. pose proof (collect_persist_order p "persist route rollback" fs h3 H3) as H4.
  by destruct (collect _ _ _ h3) as [fs4 h4].
Qed.

(** After the worker was stopped: there is none, or its end was seen, or that
    is not known and then a failure is reported when it was running. *)
Definition no_worker (p : worker_phase) : Prop := p = NoWorker \/ stopped p = true.

Definition in_doubt (p : worker_phase) (v : supervising) (f : finishing) : Prop :=
  p = Stopping -> sp_running v = true -> f.1 <> [].

Lemma ends_kill p f : p <> NoWorker -> p <> Gone -> ends p f -> ends Stopping (change (log WorkerKilled) f).
Proof.
  intros H1 H2 Hf. apply (phase_log p); [|done]. cbn [order_step]. rewrite decide_False; [done|]. by intros [].
Qed.

Lemma finish_worker_order p v c f :
  (p = NoWorker <-> sp_started v = false) -> stopped p = false ->
  (sp_running v = true -> p = Active /\ sp_session v = true) -> ends p f ->
  exists q, no_worker q /\ ends q (finish_worker v c f) /\ in_doubt q v (finish_worker v c f).
Proof.
  intros Hv Hp Ha Hf. unfold finish_worker. destruct (sp_started v) eqn:E.
  2: { exists NoWorker. split_and!; [by left|by rewrite <- (proj2 Hv)|done]. }
  assert (Hn : p <> NoWorker) by (intros ->; discriminate (proj1 Hv eq_refl)).
  assert (Hg : p <> Gone) by by intros ->.
  set (f1 := if sp_running v && sp_session v then _ else _).
  assert (H1 : ends Stopping f1).
  { subst f1. destruct (sp_running v) eqn:Er; cbn [andb]; [|by apply (ends_kill p)].
    destruct (Ha eq_refl) as [-> ->].
    assert (H0 : ends Stopping (failed "stop service worker" (sc_shutdown c) (change (log (WorkerShutdown (bool_decide (sc_shutdown c = None)))) f))).
    { apply ends_failed. by apply (phase_log Active). }
    destruct (sc_shutdown c); [|done]. by apply (ends_kill Stopping). }
  clearbody f1. destruct (sp_session v) eqn:Es.
  - set (q := if exit_seen (sc_wait c) then Gone else Stopping). exists q.
    assert (H2 : ends q (change (log (WorkerWaited (sc_wait c))) f1)) by (by apply (phase_log Stopping)).
    split_and!; [by right; subst q; destruct (exit_seen _)|by destruct (sp_running v); [apply ends_failed|]|].
    intros Hq Hr. rewrite Hr. subst q. destruct (sc_wait c) as [e|]; [|done]. cbn. by destruct f1.1.
  - exists Stopping. split_and!; [by right|done|]. intros _ Hr. by destruct (Ha Hr).
Qed.

Lemma finish_descriptors_order p v c f : no_worker p -> ends p f -> ends p (finish_descriptors v c f).
Proof.
  intros Hp Hf. unfold finish_descriptors.
  assert (H1 : ends p (append_failure (sp_sockets v) (sc_udp c) (append_failure (sp_sockets v) (sc_tcp c) (append_failure (sp_handoff v) (sc_handoff c) f))))
    by (do 3 apply ends_append; done).
  destruct (sp_device v); [|done]. apply ends_append, ends_change; [|done]. apply stays_log. cbn [order_step].
  by destruct Hp as [->| ->]; rewrite ?orb_true_r.
Qed.

(** A failure that was collected stays. *)
Definition has_failed (f : finishing) : Prop := f.1 <> [].

Lemma has_failed_app (es es' : list go_error) : es <> [] -> es ++ es' <> [].
Proof. by destruct es. Qed.

Lemma failed_keeps what e f : has_failed f -> has_failed (failed what e f).
Proof. destruct e; [apply has_failed_app|done]. Qed.

Lemma append_keeps b e f : has_failed f -> has_failed (append_failure b e f).
Proof. destruct b, e; (done || apply has_failed_app). Qed.

Lemma descriptors_keep v c f : has_failed f -> has_failed (finish_descriptors v c f).
Proof.
  intros Hf. unfold finish_descriptors. destruct (sp_device v); repeat apply append_keeps; [|done].
  unfold has_failed, change. cbn [fst]. by repeat apply append_keeps.
Qed.

Lemma status_keeps c f : has_failed f -> has_failed (finish_status_socket json_encode path c f).
Proof.
  intros Hf. unfold finish_status_socket. destruct (sc_status c); [by apply failed_keeps|].
  unfold persist_if_exists, collect. destruct (h_exists _); [|done]. destruct (persist _ _ _) as [[]]; [done|].
  by apply has_failed_app.
Qed.

Lemma remove_record_order q f : ends q f ->
  reached q (remove_record json_decode path f).2 /\ (has_failed f -> is_Some (remove_record json_decode path f).1).
Proof.
  intros [Hr _ _]. unfold remove_record. destruct f as [[|e es] h]; cbn [fst snd errors_join] in *; [|by split].
  split; [|by intros []]. destruct (h_exists h); [|done]. destruct (RemoveState _ _ _) as [r files].
  by apply (reached_snoc q q (RecordRemoved (is_ok r)) files h).
Qed.

Lemma finish_supervisor_order v c primary h : finishing_phase v h -> (sp_running v = false -> is_Some primary) ->
  let r := finish_supervisor run json_encode json_decode path v c primary h in
  exists p, no_worker p /\ reached p r.2 /\ (p = Stopping -> is_Some r.1).
Proof.
  intros (p & Hr & He & [Hv Hp Ha]) Hprim. unfold finish_supervisor. pose proof (finish_phase_order p [] h Hr He) as H0.
  apply (finish_control_order p v c) in H0. apply finish_dns_order in H0; [|done]. apply finish_routes_order in H0; [|done].
  apply (finish_worker_order p v c) in H0 as (q & Hq & H0 & Hd); [|done..].
  set (f := finish_worker v c _) in *. clearbody f.
  assert (Hd' : q = Stopping -> sp_running v = true ->
    has_failed (failed "release process lock" (sc_lock c) (finish_status_socket json_encode path c (finish_descriptors v c f)))).
  { intros H1 H2. apply failed_keeps, status_keeps, descriptors_keep. by apply Hd. }
  apply (finish_descriptors_order q v c) in H0; [|done].
  assert (H1 : forall f, ends q f -> ends q (finish_status_socket json_encode path c f)).
  { intros f' Hf. unfold finish_status_socket. destruct (sc_status c); [by apply ends_failed|]. apply ends_persist, ends_change; [apply stays_state; by left|done]. }
  apply H1 in H0. apply (ends_failed q "release process lock" (sc_lock c)) in H0.
  apply remove_record_order in H0 as [Hreach Herr]. exists q.
  destruct (remove_record _ _ _) as [e h']. cbn [fst snd] in *. split_and!; [done|done|]. intros ->.
  unfold join_two. destruct (sp_running v).
  - destruct (Herr (Hd' eq_refl eq_refl)) as [e' ->]. by destruct primary.
  - destruct (Hprim eq_refl) as [e' ->]. by destruct e.
Qed.

(** ** The whole service *)

Definition order_result (r : run_outcome * supervised * host W) : Prop :=
  exists p, reached p r.2 /\ match r.1.1 with
    | StillRunning => p = Active
    | Ended None => p = NoWorker \/ p = Gone
    | Ended (Some _) => p = NoWorker \/ p = Stopping \/ p = Gone
    end.

Lemma finish_order_result v c primary (sv : supervised) h : finishing_phase v h -> (sp_running v = false -> is_Some primary) ->
  order_result (let '(e, h) := finish_supervisor run json_encode json_decode path v c primary h in (Ended e, sv, h)).
Proof.
  intros Hv Hp. destruct (finish_supervisor_order v c primary h Hv Hp) as (p & Hn & Hr & He).
  destruct (finish_supervisor _ _ _ _ _ _ _ _) as [e h4]. exists p. cbn [fst snd] in *. split; [done|].
  destruct Hn as [->|Hs]; [by destruct e; left|]. destruct p; try done; destruct e; auto. by destruct (He eq_refl).
Qed.

Lemma supervisor_order env calls c interfaces layout ipv6Enabled plan evs sv (h : host W) :
  path = ly_State layout -> h_log h = before -> st_Phase (h_state h) <> "running" ->
  order_result (RunServiceSupervisor run json_encode json_decode itoa env calls c interfaces layout ipv6Enabled plan evs sv h).
Proof.
  intros Hpath Hlog Hph. unfold RunServiceSupervisor. rewrite <- Hpath.
  destruct (persist json_encode path h) as [r1 h1] eqn:E1.
  assert (Hp1 : reached NoWorker h1 /\ st_Phase (h_state h1) <> "running").
  { unfold persist in E1. destruct (WriteState _ _ _ _) as [r files]. injection E1 as _ <-. split; [|done]. cbn [h_log]. eexists. split; [by rewrite Hlog|].
    cbn. rewrite decide_False; [done|]. by intros []. }
  destruct Hp1 as [Hr1 Hq1]. destruct r1 as [[]|e]; [|exists NoWorker; split; [done|by left]].
  pose proof (start_supervisor_order env calls interfaces layout (sd_runtime sv) ipv6Enabled plan Hpath (set_exists h1).2) as H3.
  destruct (set_exists h1) as [u h2] eqn:E2. injection E2 as _ <-. cbn [snd] in H3. specialize (H3 ltac:(by split)).
  destruct (start_supervisor _ _ _ _ _ _ _ _ _ _ _) as [[v|[e v]] h3]; [|by apply finish_order_result].
  destruct H3 as (H3 & Hv1 & Hv2). pose proof (supervisor_loop_order plan ipv6Enabled evs sv h3 H3) as H4.
  destruct (supervisor_loop _ _ _ _ _ _ _ _) as [[sv' [[running primary]|]] h4].
  - destruct running.
    + destruct H4 as [Hr4 He4]. apply finish_order_result; [|done]. exists Active. split_and!; [done|done|].
      split; cbn [sp_started sp_session set_running]; [rewrite Hv1; split|..]; done.
    + destruct H4 as (Hr4 & He4 & Hprim). apply finish_order_result; [|done]. exists Dead. split_and!; [done|done|].
      split; cbn [sp_started sp_session set_running]; [rewrite Hv1; split|..]; done.
  - exists Active. by destruct H4.
Qed.
End order.

(** C4: the managed service changes the host only with a prepared worker behind
    it.  In every run of the supervisor, whatever fails and whatever happens
    while it runs: routes are added and DNS servers replaced only after the
    worker reported that it is prepared and before it is committed; the record
    says that the service is running only while the worker is committed; what
    was changed is taken back before the supervisor stops or kills the worker -
    which may have died by itself before - and the device is closed after that.
    When the supervisor ends without an error, no worker was started or the end
    of its process was seen; with an error, the worker was at least asked to
    end or killed; until then it is committed. *)
Theorem service_order {W : Type} (run : string -> list string -> W -> result command_error string * W) (json_encode : State -> option string)
    (json_decode : string -> option State) (itoa : Z -> string) (env : startup W) (calls : worker_calls) (c : supervisor_closings)
    (interfaces : string -> option interface_view) (layout : Layout) (ipv6Enabled : bool) (plan : defaultRoutePlan) (evs : list supervisor_event)
    (sv sv' : supervised) (files : world) (net : W) (pid now : Z) (digest : string) (before : list (host_event * world)) (o : run_outcome) (h : host W) :
  RunServiceSupervisor run json_encode json_decode itoa env calls c interfaces layout ipv6Enabled plan evs sv
    (MkHost files net (service_state pid now digest layout) false no_parts before) = (o, sv', h) ->
  exists new p, h_log h = before ++ new /\ in_order (events new) = Some p /\
    match o with
    | StillRunning => p = Active
    | Ended None => p = NoWorker \/ p = Gone
    | Ended (Some _) => p = NoWorker \/ p = Stopping \/ p = Gone
    end.
Proof.
  intros Hrun.
  destruct (supervisor_order run json_encode json_decode itoa (ly_State layout) before env calls c interfaces layout ipv6Enabled plan evs sv
    (MkHost files net (service_state pid now digest layout) false no_parts before) eq_refl eq_refl ltac:(done)) as (p & (new & Hl & Ho) & He).
  rewrite Hrun in *. by exists new, p.
Qed.

(** A service that starts, runs for a while and is stopped. *)
Definition service_calls : worker_calls := MkWorkerCalls None None None None None None None None None.
Definition service_closings : supervisor_closings := MkSupervisorClosings None None None None None None None None None.
Definition service_layout : Layout := DefaultLayout.
Definition service_supervised : supervised := MkSupervised demo_runtime demo_runtime ∅ "" "sha256:00" (newNetworkRefreshState "") ("sha256:00", ∅).

Definition demo_supervisor (calls : worker_calls) (evs : list supervisor_event) : run_outcome * supervised * host demo_net :=
  RunServiceSupervisor demo_run (fun _ => Some "{}") (fun _ => Some (service_state 42 1000 "sha256:00" service_layout)) (fun _ => "1500")
    demo_startup calls service_closings demo_interfaces service_layout false (MkPlan [] [] []) evs service_supervised
    (MkHost demo_files demo_before (service_state 42 1000 "sha256:00" service_layout) false no_parts []).

Definition demo_ended : run_outcome * supervised * host demo_net := demo_supervisor service_calls [SupStopped].

Lemma service_order_witness :
  WorkerCommitted ∈ events (h_log demo_ended.2) /\
  exists new p, h_log demo_ended.2 = [] ++ new /\ in_order (events new) = Some p /\ (p = NoWorker \/ p = Gone).
Proof.
  split; [vm_compute; repeat (apply list_elem_of_here || apply list_elem_of_further)|].
  apply (service_order demo_run (fun _ => Some "{}") (fun _ => Some (service_state 42 1000 "sha256:00" service_layout)) (fun _ => "1500")
    demo_startup service_calls service_closings demo_interfaces service_layout false (MkPlan [] [] []) [SupStopped] service_supervised demo_ended.1.2
    demo_files demo_before 42 1000 "sha256:00" [] (Ended None) demo_ended.2).
  by vm_compute.
Defined.
