(* ===== verification/SupervisorWorker.v ===== *)
(** * Component [internal/app]: what the supervisor tells the worker

    Which discovered servers the checks of [internal/privsep] accept, and that
    the supervisor knows what its worker runs. *)

From S2P Require Import Prelude.
From S2P Require Import GoStrings.
From S2P Require Import GoFiles.
From S2P Require Import NetIP.
From S2P Require Import ConfigTypes.
From S2P Require Import Outbound.
From S2P Require Import ConfigCompile.
From S2P Require Import EffectiveDNS.
From S2P Require Import HostState.
From S2P Require Import HostRoutes.
From S2P Require Import HostDNS.
From S2P Require Import DefaultRoutes.
From S2P Require Import RunHost.
From S2P Require Import Run.
From S2P Require Import RunLoop.
From S2P Require Import Apperror.
From S2P Require Import Privsep.
From S2P Require Import LaunchLayout.
From S2P Require Import Supervisor.
From S2P Require Import SupervisorFacts.

(** ** The limits on servers *)

(** Both packages check names the same way. *)
Lemma discover_loop_names run names found name :
  is_Some ((discover_loop run names found).1 !! name) -> is_Some (found !! name) \/ validateInterfaceName name = Ok tt.
Proof.
  revert found. induction names as [|n names IH]; intros found H; [by left|]. cbn [discover_loop] in H.
  destruct (validateInterfaceName n) as [[]|e] eqn:Hn; [|by left]. destruct (run _) as [output|e]; [|by apply IH in H].
  destruct (parseDHCPDNS output) as [[|s servers]|e]; [by apply IH in H| |by left]. apply IH in H as [H|H]; [|by right].
  destruct (decide (n = name)) as [->|]; [by right|]. rewrite lookup_insert_ne in H by done. by left.
Qed.

Lemma server_failures_none seen servers :
  server_failures seen servers = [] <-> Forall (fun s => unsafe_server s = false /\ s ∉ seen) servers /\ NoDup servers.
Proof.
  revert seen. induction servers as [|s servers IH]; intros seen; cbn [server_failures].
  - split; [by repeat split; constructor|done].
  - rewrite !app_nil, IH, NoDup_cons, Forall_cons, !Forall_forall. unfold failing.
    destruct (unsafe_server s); [split; [by intros [? _]|by intros [[[? _] _] _]]|].
    case_bool_decide as Hin; [split; [by intros (_ & ? & _)|by intros [[[_ ?] _] _]]|].
    split.
    + intros (_ & _ & Hf & Hd). split; [|split; [|done]].
      * split; [done|]. intros x Hx. destruct (Hf x Hx) as [? Hn]. split; [done|]. set_solver.
      * intros Hs. destruct (Hf s Hs) as [_ Hn]. set_solver.
    + intros ([_ Hf] & Hs & Hd). split; [done|]. split; [done|]. split; [|done]. intros x Hx. destruct (Hf x Hx) as [? Hn]. split; [done|]. set_solver.
Qed.

Lemma lease_server_safe s : lease_server s -> unsafe_server s = false.
Proof.
  intros (Hp & Hu & H4). unfold unsafe_server, usableUpstreamDNS in *. rewrite Hp. unfold ap_valid.
  replace (unmap (ap_addr s)) with (ap_addr s); [|by destruct (ap_addr s); cbn in *; rewrite ?H4].
  destruct (addr_valid _), (is_unspecified _), (is_loopback _), (is_multicast _); done.
Qed.

Lemma lease_servers_pass servers : Forall lease_server servers -> NoDup (ap_addr <$> servers) -> server_failures [] servers = [].
Proof.
  intros Hs Hd. apply server_failures_none. split; [|by eapply NoDup_fmap_1].
  apply (Forall_impl _ _ _ Hs). intros s H. split; [by apply lease_server_safe|]. by intros ?%elem_of_nil.
Qed.

Lemma valid_name_failures name servers : validateInterfaceName name = Ok tt ->
  interface_failures (name, servers) = [] <-> servers <> [] /\ (length servers <= 8)%nat /\ server_failures [] servers = [].
Proof.
  unfold validateInterfaceName, interface_failures. destruct (_ || _); [done|]. intros H.
  assert (Hc : sforall name_char name = true).
  { change name_char with interface_char. by destruct (sforall interface_char name). }
  rewrite Hc. cbn [failing negb app]. case_bool_decide as H0.
  - split; [done|]. intros [Hs _]. by destruct servers.
  - destruct (maxDNSServers <? Z.of_nat (length servers)) eqn:E; cbn [orb]; unfold maxDNSServers in E.
    + split; [done|]. intros (_ & Hl & _). lia.
    + split; [|naive_solver]. intros Hs. split_and!; [by intros ->|lia|done].
Qed.

(** The servers that discovery returns are accepted by the worker exactly
    up to the limits of the protocol: at most 32 interfaces, each with at most
    8 servers.  Nothing in discovery keeps a lease within them. *)
Theorem leases_accepted (run : list string -> result go_error string) (runtime : Config) :
  let found := (discoverInterfaceDNS run runtime).1 in
  validateInterfaceDNS found = Ok tt <-> (size found <= 32)%nat /\ map_Forall (fun _ servers => (length servers <= 8)%nat) found.
Proof.
  intros found. unfold validateInterfaceDNS, maxDNSInterfaces.
  match goal with |- context [32 <? ?n] => change n with (Z.of_nat (size found)) end. destruct (32 <? Z.of_nat (size found)) eqn:E.
  { split; [by intros ?|]. intros [Hs _]. lia. }
  unfold joined. rewrite map_Forall_to_list.
  assert (Hl : leases_ok found) by apply discover_leases.
  assert (Hn : forall name, is_Some (found !! name) -> validateInterfaceName name = Ok tt).
  { intros name H. destruct (discover_loop_names _ _ _ _ H) as [[x Hx]|H1]; [by rewrite lookup_empty in Hx|done]. }
  assert (He : map_to_list found ≫= interface_failures = [] <-> Forall (fun '(_, servers) => (length servers <= 8)%nat) (map_to_list found)).
  { rewrite Forall_forall. split.
    - intros Hb [name servers] Hin. assert (Hf : interface_failures (name, servers) = []).
      { apply elem_of_nil_inv. intros x Hx. assert (H : x ∈ map_to_list found ≫= interface_failures) by (apply list_elem_of_bind; eauto). rewrite Hb in H. by apply elem_of_nil in H. }
      apply valid_name_failures in Hf; [naive_solver|]. apply Hn. by apply elem_of_map_to_list in Hin as ->.
    - intros Hf. apply elem_of_nil_inv. intros x ([name servers] & Hx & Hin)%list_elem_of_bind. specialize (Hf _ Hin).
      apply elem_of_map_to_list in Hin. destruct (Hl _ _ Hin) as (H0 & Hs & Hd). rewrite (proj2 (valid_name_failures name servers (Hn _ (mk_is_Some _ _ Hin)))) in Hx.
      + by apply elem_of_nil in Hx.
      + split; [done|]. split; [done|]. by apply lease_servers_pass. }
  case_bool_decide as Hb; split; [|done|done|].
  - intros _. split; [lia|]. by apply He.
  - intros [_ Hf]. by apply He in Hf.
Qed.

(** A lease with nine servers cannot be handed to the worker. *)
Definition nine_servers (_ : list string) : result go_error string :=
  Ok ("domain_name_server (ip_mult): {9.9.9.1, 9.9.9.2, 9.9.9.3, 9.9.9.4, 9.9.9.5, 9.9.9.6, 9.9.9.7, 9.9.9.8, 9.9.9.9}").

Example nine_servers_rejected : is_ok (validateInterfaceDNS (DiscoverInterfaceDNS nine_servers ["en0"]).1) = false.
Proof. by vm_compute. Qed.

(** ** The worker and the variables of the supervisor *)

Lemma same_servers l r : leases_ok l -> sameInterfaceDNS l r = true -> l = r.
Proof.
  intros Hl Hs. unfold sameInterfaceDNS in Hs. apply andb_true_iff in Hs as [Hsize%bool_decide_eq_true Hf].
  assert (Hsub : l ⊆ r).
  { apply map_subseteq_spec. intros name servers Hn. rewrite forallb_forall in Hf.
    specialize (Hf (name, servers) (proj1 (list_elem_of_In _ _) (proj2 (elem_of_map_to_list _ _ _) Hn))). cbn in Hf.
    apply bool_decide_eq_true in Hf. unfold discovered_servers in Hf. destruct (Hl _ _ Hn) as [H0 _]. destruct (r !! name); [by subst|done]. }
  apply (map_subseteq_size_eq l r); [done|lia].
Qed.

Section tracking.
Context {W : Type} (run : string -> list string -> W -> result command_error string * W) (json_encode : State -> option string) (path : string).

(** The worker runs the configuration and the servers that the supervisor
    remembers, and the record has their digest. *)
Definition in_step (sv : supervised) (h : host W) : Prop :=
  sd_worker sv = (sd_digest sv, sd_servers sv) /\ st_ConfigDigest (h_state h) = sd_digest sv /\ leases_ok (sd_servers sv).

(** A reload that failed was not accepted.  One that timed out may have been. *)
Definition follows (r : session_reload) : Prop := sr_accepted r = bool_decide (sr_error r = None).

(** A reload without an error was accepted, as [PrivsepProperties] shows of the
    session. *)
Definition answers (r : session_reload) : Prop := sr_error r = None -> sr_accepted r = true.

Lemma follows_answers r : follows r -> answers r.
Proof. unfold follows, answers. intros -> ->. done. Qed.

Definition event_follows (ev : supervisor_event) : Prop :=
  match ev with SupReload i => follows (pi_session i) | SupTick i => follows (ri_session i) | _ => True end.

(** The checks of a reload leave the host alone. *)
Definition only_asks {E A} (m : act (host W) E A) : Prop :=
  forall h0 : host W, act_triple (fun h => h_state h = h_state h0 /\ h_log h = h_log h0 /\ h_files h = h_files h0) m
    (fun _ h => h_state h = h_state h0 /\ h_log h = h_log h0 /\ h_files h = h_files h0).

Lemma only_asks_bind {E A B} (m : act (host W) E A) (f : A -> act (host W) E B) : only_asks m -> (forall a, only_asks (f a)) -> only_asks (act_bind m f).
Proof. intros Hm Hf h0. eapply act_triple_bind; [apply Hm|intros a; apply Hf|done]. Qed.

Lemma only_asks_pure {E A} (r : result E A) : only_asks (act_of r).
Proof. intros h0. by apply act_triple_of. Qed.

Lemma only_asks_wrap {E A} (f : go_error -> E) (m : act (host W) go_error A) : only_asks m -> only_asks (act_wrap f m).
Proof. intros Hm h0. apply act_triple_wrap. intros h Hh. specialize (Hm h0 h Hh). by destruct (m h) as [[]]. Qed.

Lemma only_asks_plan plan runtime ipv6Enabled : only_asks (same_plan run plan runtime ipv6Enabled).
Proof. intros h0 h Hh. unfold same_plan, on_net. by destruct (planDefaultRouteCaptureOwned _ _ _ _ _ _) as [[v|e] w]. Qed.

(** What a reload that passes the checks asks of the worker. *)
Lemma check_reload_spec plan ipv6Enabled i sv h :
  let '(r, h') := check_reload_request run plan ipv6Enabled i sv h in
  (h_state h' = h_state h /\ h_log h' = h_log h /\ h_files h' = h_files h) /\
  match r with
  | Ok (bytes, next, digest, servers, effective) =>
      pi_load i = Ok (bytes, next, digest) /\ (rq_expectedDigest (pi_request i) = "" \/ rq_expectedDigest (pi_request i) = digest) /\
      ValidateReload (Some (sd_runtime sv)) (Some next) = [] /\ discoverInterfaceDNS (pi_run i) next = (servers, None) /\
      effective = runtimeWithInterfaceDNS next servers
  | Err _ => True
  end.
Proof.
  destruct (check_reload_request run plan ipv6Enabled i sv h) as [r h'] eqn:E. split.
  - assert (Ha : only_asks (check_reload_request run plan ipv6Enabled i sv)); [|specialize (Ha h h ltac:(done)); by rewrite E in Ha].
    unfold check_reload_request.
    apply only_asks_bind; [apply only_asks_pure|intros [[bytes next] digest]]. do 2 (apply only_asks_bind; [apply only_asks_pure|intros _]).
    destruct (discoverInterfaceDNS _ _) as [servers e]. apply only_asks_bind; [apply only_asks_wrap; destruct e; apply only_asks_pure|intros _].
    apply only_asks_bind; [apply only_asks_wrap; destruct (DefaultRoute _); [apply only_asks_plan|apply only_asks_pure]|intros same].
    intros h0. apply act_triple_unless; [by intros|]. intros _. by apply act_triple_ret.
  - unfold check_reload_request, act_bind, act_of, act_wrap in E. destruct (pi_load i) as [[[bytes next] digest]|e]; [|by injection E as <- _].
    unfold validateExpectedReloadDigest, PreflightReload in E.
    destruct (negb (bool_decide (rq_expectedDigest (pi_request i) = "")) && _) eqn:Hd; [by injection E as <- _|].
    destruct (negb (bool_decide (ValidateReload _ _ = []))) eqn:Hv; [by injection E as <- _|]. destruct (pi_interfaces i); [by injection E as <- _|]. cbn [map_err] in E.
    destruct (discoverInterfaceDNS (pi_run i) next) as [servers [e|]] eqn:Hdisc; [by injection E as <- _|]. cbn [fail_with act_ret] in E.
    match type of E with context [if DefaultRoute ?c then ?a else ?b] => destruct ((if DefaultRoute c then a else b) h) as [[[]|e] h1] end;
      cbn in E; [|by injection E as <- _..].
    injection E as <- _. split; [done|]. split.
    { apply andb_false_iff in Hd as [Hd|Hd]; apply negb_false_iff, bool_decide_eq_true in Hd; [by left|by right]. }
    apply negb_false_iff, bool_decide_eq_true in Hv. done.
Qed.

(** ** The outcome of a reload *)

Lemma effective_leases_ok run' runtime servers e : discoverInterfaceDNS run' runtime = (servers, e) -> leases_ok servers.
Proof. intros H. pose proof (discover_leases run' (dhcp_interfaces runtime)) as Hl. unfold discoverInterfaceDNS in H. by rewrite H in Hl. Qed.

(** Recording the digest of an accepted reload, and what a failure leaves. *)
Lemma persist_state (h : host W) : h_state (persist json_encode path h).2 = h_state h.
Proof. unfold persist. by destruct (WriteState _ _ _ _). Qed.

(** A reload that is refused changes neither the record nor the files. *)
Definition same_record (h h' : host W) : Prop :=
  h_state h' = h_state h /\ h_log h' = h_log h /\ h_files h' = h_files h.

Definition refused (sv sv' : supervised) (h h' : host W) : Prop := sv' = sv /\ same_record h h'.

(** A reload that the session reports as failed, on a time-out say, and that the
    worker carries out nevertheless: the supervisor changes nothing. *)
Definition missed (i : perform_input) (sv sv' : supervised) (h h' : host W) : Prop :=
  is_Some (sr_error (pi_session i)) /\ sr_accepted (pi_session i) = true /\ same_record h h' /\
  exists bytes next digest servers, pi_load i = Ok (bytes, next, digest) /\
    discoverInterfaceDNS (pi_run i) next = (servers, None) /\ sd_worker sv' = (digest, servers) /\
    sv' = worker_after (pi_session i) digest servers sv.

(** A reload that is done. *)
Definition reloaded (i : perform_input) (sv sv' : supervised) (h' : host W) : Prop :=
  pi_load i = Ok (sd_bytes sv', sd_runtime sv', sd_digest sv') /\
  (rq_expectedDigest (pi_request i) = "" \/ rq_expectedDigest (pi_request i) = sd_digest sv') /\
  ValidateReload (Some (sd_runtime sv)) (Some (sd_runtime sv')) = [] /\
  sd_effective sv' = runtimeWithInterfaceDNS (sd_runtime sv') (sd_servers sv') /\
  sr_error (pi_session i) = None.

Lemma performReload_spec plan ipv6Enabled i sv (h : host W) : in_step sv h -> answers (pi_session i) ->
  let '(r, sv', h') := performReload run json_encode path plan ipv6Enabled i sv h in
  match r with
  | None => reloaded i sv sv' h' /\ in_step sv' h'
  | Some (_, false) => (refused sv sv' h h' /\ in_step sv' h') \/ missed i sv sv' h h'
  | Some (_, true) =>
      sr_error (pi_session i) = None /\ st_ConfigDigest (h_state h') = sd_digest sv' /\ sd_digest sv' = sd_digest sv /\ sd_runtime sv' = sd_runtime sv
  end.
Proof.
  intros (Hw & Hd & Hl) Hf. unfold performReload. pose proof (check_reload_spec plan ipv6Enabled i sv h) as Hc.
  destruct (check_reload_request _ _ _ _ _ _) as [[[[[[bytes next] digest] servers] effective]|e] h1]; destruct Hc as [(Hs & Hlog & Hfs) Hc].
  2: { left. split; [done|]. unfold in_step. by rewrite Hs. }
  destruct Hc as (Hload & He & Hv & Hdisc & ->).
  destruct (sr_error (pi_session i)) as [e|] eqn:Er.
  { destruct (sr_accepted (pi_session i)) eqn:Ha.
    - right. split; [by rewrite Er|]. split; [done|]. split; [done|]. exists bytes, next, digest, servers.
      unfold worker_after. by rewrite Ha.
    - left. assert (worker_after (pi_session i) digest servers sv = sv) as -> by (unfold worker_after; rewrite Ha; by destruct sv).
      split; [done|]. unfold in_step. by rewrite Hs. }
  specialize (Hf Er). destruct (set_state (set_digest digest) h1) as [u h2] eqn:E2. injection E2 as _ <-.
  match goal with |- context [persist json_encode path ?h2] => pose proof (persist_state h2) as Hp; destruct (persist json_encode path h2) as [[[]|e] h3] end; cbn in Hp.
  - split; [done|]. split; [cbn; by rewrite Hf|]. split; [by cbn; rewrite Hp|]. by eapply effective_leases_ok.
  - cbn. by rewrite Hs.
Qed.

Lemma refresh_worker_spec i servers sv h : in_step sv h -> leases_ok servers -> follows (ri_session i) ->
  let '(ok, sv') := refresh_worker i servers sv in
  sd_digest sv' = sd_digest sv /\ sd_runtime sv' = sd_runtime sv /\
  if ok then sd_worker sv' = (sd_digest sv, servers) else in_step sv' h.
Proof.
  intros (Hw & Hd & Hl) Hs Hf. unfold refresh_worker. destruct (sameInterfaceDNS _ _) eqn:E.
  { apply same_servers in E as <-; [|done]. done. }
  destruct (ri_request i); [|done]. unfold follows in Hf. unfold worker_after. rewrite Hf.
  destruct (sr_error (ri_session i)) as [e|]; done.
Qed.

Lemma tick_step plan ipv6Enabled i sv (h : host W) : in_step sv h -> follows (ri_session i) ->
  let '(sv', r, h') := supervisor_tick run plan ipv6Enabled i sv h in
  in_step sv' h' /\ h_state h' = h_state h /\ sd_digest sv' = sd_digest sv /\ sd_runtime sv' = sd_runtime sv.
Proof.
  intros Hstep Hf. unfold supervisor_tick. destruct (discoverInterfaceDNS _ _) as [servers [e|]] eqn:Hdisc; [done|]. destruct (negb _); [done|].
  apply effective_leases_ok in Hdisc.
  assert (Hs : h_state ((if DefaultRoute (CCapture (sd_runtime sv))
                   then same_plan run plan (runtimeWithInterfaceDNS (sd_runtime sv) servers) ipv6Enabled h else (Ok true, h))).2 = h_state h).
  { destruct (DefaultRoute _); [|done]. by apply (only_asks_plan plan (runtimeWithInterfaceDNS (sd_runtime sv) servers) ipv6Enabled h h). }
  destruct (if DefaultRoute _ then _ else _) as [same h1]. cbn in Hs. assert (H1 : in_step sv h1) by (unfold in_step; by rewrite Hs).
  destruct same as [[]|e]; [|done|done]. pose proof (refresh_worker_spec i servers sv h1 H1 Hdisc Hf) as Hr.
  destruct (refresh_worker _ _ _) as [[] sv']; destruct Hr as (Hd & Hrt & Hr); [|done].
  destruct H1 as (_ & H1 & _). split; [|by rewrite <- Hd, <- Hrt]. split; [cbn; by rewrite Hr, Hd|]. split; [cbn; by rewrite Hd|done].
Qed.

Lemma loop_in_step plan ipv6Enabled evs sv (h : host W) : in_step sv h -> Forall event_follows evs ->
  let '(sv', r, h') := supervisor_loop run json_encode path plan ipv6Enabled evs sv h in
  st_ConfigDigest (h_state h') = sd_digest sv' /\ (in_step sv' h' \/ exists e, r = Some (true, Some e)).
Proof.
  revert sv h. induction evs as [|ev evs IH]; intros sv h Hstep Hall; cbn [supervisor_loop].
  { split; [apply Hstep|by left]. }
  apply Forall_cons in Hall as [Hev Hall]. destruct ev as [|e|i|i]; cbn [supervisor_step event_follows] in *.
  - split; [apply Hstep|by left].
  - split; [apply Hstep|by left].
  - pose proof (performReload_spec plan ipv6Enabled i sv h Hstep (follows_answers _ Hev)) as H.
    destruct (performReload _ _ _ _ _ _ _ _) as [[[[e []]|] sv'] h'].
    + split; [apply H|]. right. by eexists.
    + apply IH; [|done]. destruct H as [H|([e' He] & Ha & _)]; [apply H|]. unfold follows in Hev. by rewrite He, Ha in Hev.
    + apply IH; [apply H|done].
  - pose proof (tick_step plan ipv6Enabled i sv h Hstep Hev) as H.
    destruct (supervisor_tick _ _ _ _ _ _) as [[sv' [e|]] h']; [|apply IH; [apply H|done]].
    split; [apply H|left; apply H].
Qed.
End tracking.

Section theorems.
Context {W : Type} (run : string -> list string -> W -> result command_error string * W) (json_encode : State -> option string) (path : string).

(** C12: a reload is all or nothing, as far as the supervisor can tell.  Let a
    nil result of [session.Reload] mean that the worker accepted.  When the
    reload succeeds, the configuration is the one that was loaded, has the
    digest that the request asked for, differs from the running one only in
    what can be reloaded, and is what the worker, the variables and the record
    have.  When it is refused, the configuration, the record and the files are
    as before, the service goes on, and so is the worker, unless the session
    reported a failure for a reload that the worker carried out nevertheless:
    then the worker runs the new configuration and everything else the old
    one.  The one way to end the service is that the worker took the new
    configuration and the record could not be written; then the supervisor
    still has the old one. *)
Theorem reload_all_or_nothing (plan : defaultRoutePlan) (ipv6Enabled : bool) (i : perform_input) (sv : supervised) (h : host W) :
  in_step sv h -> answers (pi_session i) ->
  let '(r, sv', h') := performReload run json_encode path plan ipv6Enabled i sv h in
  match r with
  | None => reloaded i sv sv' h' /\ in_step sv' h'
  | Some (_, false) => (refused sv sv' h h' /\ in_step sv' h') \/ missed i sv sv' h h'
  | Some (_, true) =>
      sr_error (pi_session i) = None /\ st_ConfigDigest (h_state h') = sd_digest sv' /\ sd_digest sv' = sd_digest sv /\ sd_runtime sv' = sd_runtime sv
  end.
Proof. apply performReload_spec. Qed.

(** C13: the supervisor knows what its worker runs.  Through any sequence of
    reloads, changes of the network and failures, as long as calls that failed
    were not carried out by the worker, the worker has the configuration and
    the servers that the supervisor remembers, unless the service is about to
    end with an error; the digest in the state is always the one of the
    supervisor. *)
Theorem supervisor_tracks_worker (plan : defaultRoutePlan) (ipv6Enabled : bool) (evs : list supervisor_event) (sv : supervised) (h : host W) :
  in_step sv h -> Forall event_follows evs ->
  let '(sv', r, h') := supervisor_loop run json_encode path plan ipv6Enabled evs sv h in
  st_ConfigDigest (h_state h') = sd_digest sv' /\ (in_step sv' h' \/ exists e, r = Some (true, Some e)).
Proof. apply loop_in_step. Qed.
End theorems.

(** ** Concrete reloads and refreshes *)

(** A service with one outbound whose servers come from the lease of [en0]. *)
Definition leased_runtime : Config :=
  MkConfig 1 (MkLog "info" "text") (MkSystem "/var/run/tun-proxy/state.json" "/var/run/tun-proxy/tun-proxy.lock" true) (MkCapture false)
    (MkTUN (Addr4 0x0A0A0001) (Addr4 0x0A0A0002) AddrZero AddrZero 1500 256 64)
    (MkFakeIP (prefix_from (Addr4 0xC6120000) 15) 1 60 100 "" []) None
    (ConfigTypes.MkDNS (AddrPort (Addr4 0x7F000001) 53) true true "home" 64) (MkSessions 16 1 16 16)
    {[ "home" := MkOutbound "home" "direct" "en0" DNSSourceDHCP [] 5 "" ]} [].

Definition lease_of (server : string) (_ : list string) : result go_error string :=
  Ok ("domain_name_server (ip_mult): {" +:+ server +:+ "}").

Definition leased_from : supervised :=
  MkSupervised leased_runtime leased_runtime ∅ "a" "sha256:00" (newNetworkRefreshState "") ("sha256:00", ∅).

Definition leased_host : host unit :=
  MkHost (MkWorld ∅ [] 0 (replicate 20 "1") []) tt (NewState 42 1000 "sha256:00") true no_parts [].

Definition leased_reload : perform_input :=
  MkPerform (MkRequest "r" "o" "" "sha256:01" false) (Ok ("b", leased_runtime, "sha256:01")) None (lease_of "192.168.1.1") "f"
    (MkSessionReload None true).

Definition leased_tick : refresh_input :=
  MkRefreshInput (lease_of "192.168.1.2") "g" false (Ok "r2") (MkSessionReload None true) "".

Definition leased_perform := performReload (W := unit) (fun _ _ w => (Ok "", w)) (fun _ => Some "{}") "/var/run/tun-proxy/state.json" (MkPlan [] [] []) false
  leased_reload leased_from leased_host.

Lemma reload_all_or_nothing_witness :
  leased_perform.1.1 = None /\ sd_digest leased_perform.1.2 = "sha256:01" /\ reloaded leased_reload leased_from leased_perform.1.2 leased_perform.2.
Proof.
  assert (Hl : in_step leased_from leased_host) by (split; [done|]; split; [done|]; intros name servers Hn; discriminate Hn).
  pose proof (reload_all_or_nothing (fun _ _ w => (Ok "", w)) (fun _ => Some "{}") "/var/run/tun-proxy/state.json" (MkPlan [] [] []) false
    leased_reload leased_from leased_host Hl (fun _ => eq_refl)) as H.
  fold leased_perform in H. destruct leased_perform as [[r sv'] h'] eqn:E.
  assert (Hr : r = None) by (change r with (r, sv', h').1.1; rewrite <- E; by vm_compute).
  assert (Hd : sd_digest sv' = "sha256:01") by (change sv' with (r, sv', h').1.2; rewrite <- E; by vm_compute).
  subst r. split; [done|]. split; [done|]. apply H.
Defined.

Definition leased_loop := supervisor_loop (W := unit) (fun _ _ w => (Ok "", w)) (fun _ => Some "{}") "/var/run/tun-proxy/state.json" (MkPlan [] [] []) false
  [SupReload leased_reload; SupTick leased_tick] leased_from leased_host.

Lemma supervisor_tracks_worker_witness :
  (sd_worker leased_loop.1.1).1 = "sha256:01" /\ size (sd_servers leased_loop.1.1) = 1%nat /\
  st_ConfigDigest (h_state leased_loop.2) = sd_digest leased_loop.1.1.
Proof.
  assert (Hl : in_step leased_from leased_host) by (split; [done|]; split; [done|]; intros name servers Hn; discriminate Hn).
  pose proof (supervisor_tracks_worker (fun _ _ w => (Ok "", w)) (fun _ => Some "{}") "/var/run/tun-proxy/state.json" (MkPlan [] [] []) false
    [SupReload leased_reload; SupTick leased_tick] leased_from leased_host Hl ltac:(repeat constructor)) as H.
  split; [by vm_compute|]. split; [by vm_compute|]. fold leased_loop in H. destruct leased_loop as [[sv' r] h']. apply H.
Defined.
