(* ===== verification/PrivsepSession.v ===== *)
(** * Component [internal/privsep]: a session between supervisor and worker

    [handshake.go] (the side of the worker), [session.go] and [supervisor.go]:
    the worker as a machine over what its selects receive, the calls of the
    supervisor up to the request and from each case of its select on, and both
    together over two streams of messages.  What frames do to a stream is in
    [Privsep]; here a stream is the list of its messages, and a failed write
    leaves none, part or all of its message on it.  Contexts and runtimes that
    are nil are not modelled. *)

From S2P Require Import Prelude.
From S2P Require Import GoStrings.
From S2P Require Import Apperror.
From S2P Require Import Privsep.

(** ** Writes *)

(** How the writes of one [codec.Send] end: without an error, or with one after
    no byte, some or all of the frame.  A later [Send] tries again on the same
    connection.  After part of a frame its bytes are taken for the rest of
    that one: the frame then holds the zero byte that every header starts
    with, or is cut at the wrong place, and no JSON decoder accepts it.  So
    what is sent after that never arrives as a message; the receiver gets an
    error when it gets there. *)
Inductive write_end : Type := Written | WroteNothing | WrotePart | WroteAll.

#[export] Instance write_end_eq_dec : EqDecision write_end.
Proof. solve_decision. Defined.

Definition written (o : write_end) : bool := bool_decide (o = Written).

(** Whether the message is on a stream, [broken] when part of a frame is
    already there, and whether the stream is broken then. *)
Definition arrives (o : write_end) (broken : bool) : bool :=
  negb broken && match o with Written | WroteAll => true | WroteNothing | WrotePart => false end.

Definition breaks (o : write_end) (broken : bool) : bool := broken || bool_decide (o = WrotePart).

(** ** The worker *)

Inductive workerState : Type := workerInitial | workerBootstrapped | workerPrepared | workerCommitted | workerRunning.

#[export] Instance workerState_eq_dec : EqDecision workerState.
Proof. solve_decision. Defined.

Record WorkerHandshake : Type := MkHandshake { wh_state : workerState; wh_digest : string }.

(** The calls of a [WorkerRuntime]. *)
Inductive runtime_call : Type := CallPrepare (b : Bootstrap) | CallCommit | CallReload (r : Reload) | CallClose.

(** What [ServeWorker] acts on: what its calls of the runtime return, next
    first, how its writes end, and whether part of a frame is on its stream; the
    calls made with their results, the messages that are on the stream, and
    the results of [closeOnce]. *)
Record wworld : Type := MkWWorld {
  ww_outcomes : list (option app_error);
  ww_writes : list write_end;
  ww_broken : bool;
  ww_handshake : WorkerHandshake;
  ww_calls : list (runtime_call * option app_error);
  ww_sent : list Message;
  ww_closed : option (option app_error)
}.

Definition set_handshake (h : WorkerHandshake) (w : wworld) : wworld :=
  MkWWorld (ww_outcomes w) (ww_writes w) (ww_broken w) h (ww_calls w) (ww_sent w) (ww_closed w).
Definition set_closed (e : option app_error) (w : wworld) : wworld :=
  MkWWorld (ww_outcomes w) (ww_writes w) (ww_broken w) (ww_handshake w) (ww_calls w) (ww_sent w) (Some e).

(** [Done] of the context with the reason, a value of [runtime.Done()] ([None]
    when it is closed), what [codec.Receive] returned. *)
Inductive worker_input : Type := WContext (cancelled : bool) | WRuntime (e : option app_error) | WItem (received : result app_error Message).

Inductive worker_pc : Type := WaitBootstrap | WaitCommit | Serving | Returned (resultErr : option app_error).

Section worker.
Context `{Encoding} (sha256 : string -> string) (pid uid gid : Z).

(** [codec.Send] *)
Definition worker_send (kind : Kind) (requestID : Z) (T : target) (payload : body T) : act wworld app_error unit := fun w =>
  match frame kind requestID T payload with
  | Err e => (Err e, w)
  | Ok (m, _) =>
      let o := default Written (head (ww_writes w)) in
      (if written o then Ok tt else Err (Wrapped "write message" (Plain "write")),
       MkWWorld (ww_outcomes w) (tail (ww_writes w)) (breaks o (ww_broken w)) (ww_handshake w) (ww_calls w)
         (if arrives o (ww_broken w) then ww_sent w ++ [m] else ww_sent w) (ww_closed w))
  end.

Definition call_runtime (c : runtime_call) : act wworld app_error unit := fun w =>
  let e := default None (head (ww_outcomes w)) in
  (match e with None => Ok tt | Some e => Err e end,
   MkWWorld (tail (ww_outcomes w)) (ww_writes w) (ww_broken w) (ww_handshake w) (ww_calls w ++ [(c, e)]) (ww_sent w) (ww_closed w)).

(** The early returns of [ServeWorker] carry what it returns. *)
Definition fatal {A} (failure : app_error) : act wworld (option app_error) A := fun w =>
  (Err (Some failure), (worker_send KindFatal 0 TFatal (error_text failure) w).2).

Definition or_fatal {A} (m : act wworld app_error A) : act wworld (option app_error) A := fun w =>
  match m w with
  | (Ok a, w) => (Ok a, w)
  | (Err e, w) => fatal e w
  end.

(** [closeRuntime] *)
Definition closeRuntime (w : wworld) : option app_error * wworld :=
  match ww_closed w with
  | Some e => (e, w)
  | None =>
      let '(r, w) := call_runtime CallClose w in
      let e := match r with Ok _ => None | Err e => Some e end in
      (e, set_closed e w)
  end.

Definition in_state (s : workerState) (w : wworld) : bool := bool_decide (wh_state (ww_handshake w) = s).

Definition AwaitBootstrap (received : result app_error Message) : act wworld app_error Bootstrap := fun w =>
  if negb (in_state workerInitial w) then (Err (Plain "cannot await bootstrap in this state"), w)
  else
    match (let! payload := ReceiveKind TBootstrap KindBootstrap received in let! _ := Bootstrap_Validate sha256 payload in Ok payload) with
    | Err e => (Err e, w)
    | Ok payload => (Ok payload, set_handshake (MkHandshake workerBootstrapped (bs_ConfigDigest payload)) w)
    end.

(** A message that is reported when the handshake is in state [from]. *)
Definition report (from to : workerState) (kind : Kind) (T : target) (payload : body T) : act wworld app_error unit := fun w =>
  if negb (in_state from w) then (Err (Plain "cannot report in this state"), w)
  else
    match worker_send kind 0 T payload w with
    | (Err e, w) => (Err e, w)
    | (Ok _, w) => (Ok tt, set_handshake (MkHandshake to (wh_digest (ww_handshake w))) w)
    end.

Definition ReportPrepared (payload : Prepared) : act wworld app_error unit :=
  act! _ := act_of (Prepared_Validate payload) in report workerBootstrapped workerPrepared KindPrepared TPrepared payload.

Definition AwaitCommit (received : result app_error Message) : act wworld app_error unit := fun w =>
  if negb (in_state workerPrepared w) then (Err (Plain "cannot await commit in this state"), w)
  else
    match (ReceiveKind TCommit KindCommit received : result app_error string) with
    | Err e => (Err e, w)
    | Ok digest =>
        if negb (bool_decide (digest = wh_digest (ww_handshake w))) then (Err (Plain "supervisor commit digest mismatch"), w)
        else (Ok tt, set_handshake (MkHandshake workerCommitted (wh_digest (ww_handshake w))) w)
    end.

Definition ReportRunning : act wworld app_error unit := fun w =>
  report workerCommitted workerRunning KindRunning TRunning (wh_digest (ww_handshake w)) w.

(** [ServeWorker] from the first message to the report [prepared]. *)
Definition serve_bootstrap (received : result app_error Message) : act wworld (option app_error) unit :=
  act! bootstrap := or_fatal (AwaitBootstrap received) in
  act! _ := or_fatal (act_wrap (Wrapped "prepare worker runtime") (call_runtime (CallPrepare bootstrap))) in
  or_fatal (ReportPrepared (MkPrepared pid (NormalizeCredentialID uid) (NormalizeCredentialID gid))).

(** From the second message to the report [running]. *)
Definition serve_commit (received : result app_error Message) : act wworld (option app_error) unit :=
  act! _ := or_fatal (AwaitCommit received) in
  act! _ := or_fatal (act_wrap (Wrapped "commit worker runtime") (call_runtime CallCommit)) in
  or_fatal ReportRunning.

(** The error of a refused reload in its result. *)
Definition reload_error (e : app_error) : ErrorInfo :=
  InfoOf (Some (match find_typed e with
                | Some _ => e
                | None => Wrap CodeReloadRejected "service.reload" "worker rejected configuration reload" e
                end)).

(** The payload, or what the decoder had filled in when it failed. *)
Definition decoded_reload (message : Message) : Reload :=
  match (DecodePayload TReload message : result app_error Reload) with
  | Ok reload => reload
  | Err _ => partial TReload (msg_Payload message)
  end.

Definition run_reload (message : Message) : act wworld app_error unit :=
  act! reload := act_of (DecodePayload TReload message : result app_error Reload) in
  act! _ := act_of (Reload_Validate sha256 reload) in
  call_runtime (CallReload reload).

Definition reload_reply (reload : Reload) (r : result app_error unit) : ReloadResult :=
  match r with
  | Ok _ => MkReloadResult (rl_ReloadRequestID reload) (rl_ConfigDigest reload) None
  | Err e => MkReloadResult (rl_ReloadRequestID reload) "" (Some (reload_error e))
  end.

Definition serve_reload (message : Message) : act wworld (option app_error) unit := fun w =>
  if msg_RequestID message =? 0 then fatal (Plain "reload request ID must be non-zero") w
  else
    let '(r, w) := run_reload message w in
    match worker_send KindReloadResult (msg_RequestID message) TReloadResult (reload_reply (decoded_reload message) r) w with
    | (Err e, w) => (Err (Some e), w)
    | (Ok _, w) => (Ok tt, w)
    end.

Definition serve_shutdown (message : Message) : act wworld (option app_error) unit := fun w =>
  match DecodePayload TShutdown message with
  | Err e => fatal e w
  | Ok _ =>
      let '(closeErr, w) := closeRuntime w in
      match worker_send KindStopped (msg_RequestID message) TStopped (match closeErr with None => "" | Some e => error_text e end) w with
      | (Err e, w) => (Err (Some (match closeErr with None => join_errors [e] | Some c => join_errors [c; e] end)), w)
      | (Ok _, w) => (Err closeErr, w)
      end
  end.

(** One round of the loop. *)
Definition serve_input (input : worker_input) : act wworld (option app_error) unit :=
  match input with
  | WContext cancelled => act_fail (if cancelled then None else Some (Plain "context deadline exceeded"))
  | WRuntime e => fatal (default (Plain "worker runtime stopped unexpectedly") e)
  | WItem (Err e) => act_fail (Some (Wrapped "receive supervisor command" e))
  | WItem (Ok message) =>
      if bool_decide (msg_Kind message = KindReload) then serve_reload message
      else if bool_decide (msg_Kind message = KindShutdown) then serve_shutdown message
      else fatal (Plain "received unsupported worker command")
  end.

(** The next place in [ServeWorker], through its deferred [closeRuntime] when
    it returns. *)
Definition next_pc (next : worker_pc) (r : result (option app_error) unit * wworld) : worker_pc * wworld :=
  match r with
  | (Ok _, w) => (next, w)
  | (Err resultErr, w) =>
      let '(closeErr, w) := closeRuntime w in
      (Returned (match resultErr, closeErr with
                 | None, None => None
                 | _, _ => Some (join_errors (option_list resultErr ++ option_list closeErr))
                 end), w)
  end.

Definition ServeWorker (pc : worker_pc) (input : worker_input) (w : wworld) : option (worker_pc * wworld) :=
  match pc, input with
  | WaitBootstrap, WItem received => Some (next_pc WaitCommit (serve_bootstrap received w))
  | WaitCommit, WItem received => Some (next_pc Serving (serve_commit received w))
  | Serving, _ => Some (next_pc Serving (serve_input input w))
  | _, _ => None
  end.
End worker.

(** ** The supervisor *)

(** [SupervisorSession] without its channels and mutexes. *)
Record session : Type := MkSession {
  ss_requestID : Z;
  ss_bootstrapped : bool;
  ss_prepared : bool;
  ss_running : bool;
  ss_closed : bool
}.

Definition new_session : session := MkSession 0 false false false false.

Definition NewSupervisorSession (expectedPID : Z) (identity : Identity) : result app_error session :=
  fail_if expectedPID <=? 0 with Plain "expected worker PID must be positive" in
  fail_if (id_UID identity =? 0) || (id_GID identity =? 0) with Plain "expected worker identity must be non-root" in
  Ok new_session.

(** The calls that exchange messages; [protocolMutex] makes them exclude each
    other. *)
Inductive call : Type := CBootstrap (payload : Bootstrap) | CCommit (configDigest : string) | CReload (payload : Reload) | CShutdown (reason : string).

(** The cases of the selects of [await]. *)
Inductive select_case : Type := Item (received : result app_error Message) | ProcessExit (processErr : option app_error) | CtxDone (e : app_error).

Section supervisor.
Context `{Encoding} (sha256 : string -> string) (expectedPID : Z) (identity : Identity).

Definition nextRequest (s : session) : result app_error Z * session :=
  if negb (ss_running s) || ss_closed s then (Err (Plain "supervisor session is not running"), s)
  else
    let id := wrap64 (ss_requestID s + 1) in
    let s := MkSession id (ss_bootstrapped s) (ss_prepared s) (ss_running s) (ss_closed s) in
    if id =? 0 then (Err (Plain "supervisor request ID exhausted"), s) else (Ok id, s).

(** Each call up to its request: what it returns at once, or what it sends. *)
Definition begin_bootstrap (payload : Bootstrap) (s : session) : (option app_error + sending) * session :=
  match Bootstrap_Validate sha256 payload with
  | Err e => (inl (Some e), s)
  | Ok _ =>
      if ss_bootstrapped s || ss_closed s then (inl (Some (Plain "supervisor session cannot bootstrap in its current state")), s)
      else (inr (MkSending KindBootstrap 0 TBootstrap payload),
            MkSession (ss_requestID s) true (ss_prepared s) (ss_running s) (ss_closed s))
  end.

Definition begin_commit (configDigest : string) (s : session) : (option app_error + sending) * session :=
  if negb (ss_prepared s) || ss_running s || ss_closed s then (inl (Some (Plain "supervisor session cannot commit in its current state")), s)
  else
    match validateDigest configDigest with
    | Err e => (inl (Some e), s)
    | Ok _ => (inr (MkSending KindCommit 0 TCommit configDigest), s)
    end.

Definition begin_reload (payload : Reload) (s : session) : (option app_error + sending) * session :=
  match Reload_Validate sha256 payload with
  | Err e => (inl (Some e), s)
  | Ok _ =>
      match nextRequest s with
      | (Err e, s) => (inl (Some e), s)
      | (Ok id, s) => (inr (MkSending KindReload id TReload payload), s)
      end
  end.

Definition begin_shutdown (reason : string) (s : session) : (option app_error + sending) * session :=
  if ss_closed s then (inl None, s)
  else
    match nextRequest s with
    | (Err e, s) => (inl (Some e), s)
    | (Ok id, s) => (inr (MkSending KindShutdown id TShutdown reason), s)
    end.

Definition begin_call (c : call) (s : session) : (option app_error + sending) * session :=
  match c with
  | CBootstrap payload => begin_bootstrap payload s
  | CCommit configDigest => begin_commit configDigest s
  | CReload payload => begin_reload payload s
  | CShutdown reason => begin_shutdown reason s
  end.

Definition staleReloadResult (message : Message) (requestID : Z) : bool :=
  bool_decide (msg_Kind message = KindReloadResult) && negb (msg_RequestID message =? 0) && (msg_RequestID message <? requestID).

(** What both awaits do with an item: [None] to continue. *)
Definition await_item (want : Kind) (requestID : Z) (received : result app_error Message) : option (result app_error Message) :=
  match received with
  | Err e => Some (Err e)
  | Ok message =>
      if bool_decide (msg_Kind message = KindFatal) then
        Some (let! text := (DecodePayload TFatal message : result app_error string) in
              Err (Plain (if bool_decide (text = "") then "worker reported an unspecified fatal error" else text)))
      else if staleReloadResult message requestID then None
      else if negb (bool_decide (msg_Kind message = want)) then Some (Err (Plain "received an unexpected message"))
      else if negb (msg_RequestID message =? requestID) then Some (Err (Plain "received an unexpected request ID"))
      else Some (Ok message)
  end.

Definition await (want : Kind) (requestID : Z) (c : select_case) : option (result app_error Message) :=
  match c with
  | Item received => await_item want requestID received
  | ProcessExit None => Some (Err (Plain "worker exited unexpectedly"))
  | ProcessExit (Some e) => Some (Err (Wrapped "worker exited unexpectedly" e))
  | CtxDone e => Some (Err e)
  end.

(** [awaitShutdown]: no message when the process exited cleanly. *)
Definition awaitShutdown (requestID : Z) (c : select_case) : option (result app_error (option Message)) :=
  match c with
  | Item received => (fun r : result app_error Message => let! m := r in Ok (Some m)) <$> await_item KindStopped requestID received
  | ProcessExit None => Some (Ok None)
  | ProcessExit (Some e) => Some (Err (Wrapped "worker exited during shutdown" e))
  | CtxDone e => Some (Err e)
  end.

Definition error_of (r : result app_error unit) : option app_error := match r with Ok _ => None | Err e => Some e end.

Definition check_prepared (message : result app_error Message) : result app_error unit :=
  let! message := map_err (Wrapped "await worker prepared") message in
  let! prepared := (DecodePayload TPrepared message : result app_error Prepared) in
  let! _ := Prepared_Validate prepared in
  fail_if negb (pr_PID prepared =? expectedPID) || negb (pr_UID prepared =? id_UID identity) || negb (pr_GID prepared =? id_GID identity)
    with Plain "worker prepared identity mismatch" in
  Ok tt.

Definition check_running (configDigest : string) (message : result app_error Message) : result app_error unit :=
  let! message := map_err (Wrapped "await worker running") message in
  let! digest := (DecodePayload TRunning message : result app_error string) in
  fail_if negb (bool_decide (digest = configDigest)) with Plain "worker running digest mismatch" in
  Ok tt.

Definition mismatch_details (expected actual requestID : string) : details :=
  {[ "expected_config_digest" := DString expected; "actual_config_digest" := DString actual; "reload_request_id" := DString requestID ]}.

Definition check_reload (payload : Reload) (message : result app_error Message) : result app_error unit :=
  let! message := map_err (Wrapped "await worker reload result") message in
  let! r := (DecodePayload TReloadResult message : result app_error ReloadResult) in
  let! _ := ReloadResult_Validate r in
  fail_if negb (bool_decide (rr_ReloadRequestID r = rl_ReloadRequestID payload))
    with WithDetails {[ "reload_request_id" := DString (rl_ReloadRequestID payload) ]}
           (Wrap CodeReloadRequestMismatch "service.reload" "worker reload request ID does not match the reload request" (Plain "request mismatch")) in
  match rr_Error r with
  | Some info => Err (FromInfo info)
  | None =>
      fail_if negb (bool_decide (rr_ConfigDigest r = rl_ConfigDigest payload))
        with WithDetails (mismatch_details (rl_ConfigDigest payload) (rr_ConfigDigest r) (rl_ReloadRequestID payload))
               (Wrap CodeReloadDigestMismatch "service.reload" "worker activated an unexpected configuration digest" (Plain "digest mismatch")) in
      Ok tt
  end.

Definition mark_prepared (s : session) : session := MkSession (ss_requestID s) (ss_bootstrapped s) true (ss_running s) (ss_closed s).
Definition mark_running (s : session) : session := MkSession (ss_requestID s) (ss_bootstrapped s) (ss_prepared s) true (ss_closed s).
Definition mark_closed (s : session) : session := MkSession (ss_requestID s) (ss_bootstrapped s) (ss_prepared s) false true.

Definition check_stopped (message : option Message) : result app_error unit :=
  match message with
  | None => Ok tt
  | Some message =>
      let! text := (DecodePayload TStopped message : result app_error string) in
      fail_if negb (bool_decide (text = "")) with Plain text in
      Ok tt
  end.

(** Each call after its request, for one case of the select: [None] while it
    keeps waiting. *)
Definition finish_bootstrap (event : select_case) (s : session) : option (option app_error * session) :=
  (fun m => let r := check_prepared m in (error_of r, if is_ok r then mark_prepared s else s)) <$> await KindPrepared 0 event.

Definition finish_commit (configDigest : string) (event : select_case) (s : session) : option (option app_error * session) :=
  (fun m => let r := check_running configDigest m in (error_of r, if is_ok r then mark_running s else s)) <$> await KindRunning 0 event.

Definition finish_reload (payload : Reload) (requestID : Z) (event : select_case) (s : session) : option (option app_error * session) :=
  (fun m => (error_of (check_reload payload m), s)) <$> await KindReloadResult requestID event.

Definition finish_shutdown (requestID : Z) (event : select_case) (s : session) : option (option app_error * session) :=
  (fun m =>
     match m with
     | Err e => (Some (Wrapped "await worker stopped" e), s)
     | Ok m => (error_of (check_stopped m), mark_closed s)
     end) <$> awaitShutdown requestID event.

Definition continue_call (c : call) (requestID : Z) (event : select_case) (s : session) : option (option app_error * session) :=
  match c with
  | CBootstrap _ => finish_bootstrap event s
  | CCommit configDigest => finish_commit configDigest event s
  | CReload payload => finish_reload payload requestID event s
  | CShutdown _ => finish_shutdown requestID event s
  end.
End supervisor.

(** ** Both sides *)

(** The session and the call in progress with its request ID; the messages on
    their way to the worker and back, with whether part of a frame follows those
    to the worker; the worker, the exit status of its process, and the results of the calls so far. *)
Record system : Type := MkSystem {
  y_session : session;
  y_waiting : option (call * Z);
  y_down : list Message;
  y_down_broken : bool;
  y_up : list Message;
  y_pc : worker_pc;
  y_worker : wworld;
  y_exit : option (option app_error);
  y_results : list (call * option app_error)
}.

Inductive event : Type :=
| EvCall (c : call) (write : write_end)
| EvDeliver
| EvLost (e : app_error)
| EvCtxDone (e : app_error)
| EvProcessExit
| EvWorker (input : worker_input) (outcomes : list (option app_error)) (writes : list write_end)
| EvExit (status : option app_error).

Section system.
Context `{Encoding} (sha256 : string -> string) (pid uid gid : Z) (expectedPID : Z) (identity : Identity).

Definition supervisor_side (s : session) (waiting : option (call * Z)) (down : list Message) (broken : bool) (up : list Message)
  (done_ : list (call * option app_error)) (y : system) : system :=
  MkSystem s waiting down broken up (y_pc y) (y_worker y) (y_exit y) (y_results y ++ done_).

(** The supervisor starts a call; it waits for an answer when its request was
    written without an error. *)
Definition start_call (c : call) (write : write_end) (y : system) : system :=
  match begin_call sha256 c (y_session y) with
  | (inl r, s) => supervisor_side s None (y_down y) (y_down_broken y) (y_up y) [(c, r)] y
  | (inr snd_, s) =>
      match frame (sd_Kind snd_) (sd_RequestID snd_) (sd_target snd_) (sd_payload snd_) with
      | Err e => supervisor_side s None (y_down y) (y_down_broken y) (y_up y) [(c, Some (Wrapped "send" e))] y
      | Ok (m, _) =>
          let down := if arrives write (y_down_broken y) then y_down y ++ [m] else y_down y in
          let broken := breaks write (y_down_broken y) in
          if written write
          then supervisor_side s (Some (c, sd_RequestID snd_)) down broken (y_up y) [] y
          else supervisor_side s None down broken (y_up y) [(c, Some (Wrapped "send" (Plain "write")))] y
      end
  end.

(** The select of the call in progress takes one case. *)
Definition select (case : select_case) (up : list Message) (y : system) : option system :=
  match y_waiting y with
  | None => None
  | Some (c, id) =>
      Some match continue_call expectedPID identity c id case (y_session y) with
           | None => supervisor_side (y_session y) (Some (c, id)) (y_down y) (y_down_broken y) up [] y
           | Some (r, s) => supervisor_side s None (y_down y) (y_down_broken y) up [(c, r)] y
           end
  end.

Definition give (outcomes : list (option app_error)) (writes : list write_end) (w : wworld) : wworld :=
  MkWWorld outcomes writes (ww_broken w) (ww_handshake w) (ww_calls w) [] (ww_closed w).

(** The worker takes one input. *)
Definition work (input : worker_input) (outcomes : list (option app_error)) (writes : list write_end) (down : list Message) (y : system) : option system :=
  match y_exit y with
  | Some _ => None
  | None =>
      (fun '(pc, w) =>
         MkSystem (y_session y) (y_waiting y) down (y_down_broken y) (y_up y ++ ww_sent w) pc w None (y_results y))
        <$> ServeWorker sha256 pid uid gid (y_pc y) input (give outcomes writes (y_worker y))
  end.

Definition is_nil {A} (l : list A) : bool := match l with [] => true | _ => false end.

(** One step; [None] when the event is not possible. *)
Definition system_step (y : system) (ev : event) : option system :=
  match ev with
  | EvCall c write => match y_waiting y with None => Some (start_call c write y) | Some _ => None end
  | EvDeliver => match y_up y with m :: up => select (Item (Ok m)) up y | [] => None end
  | EvLost e => if is_nil (y_up y) then select (Item (Err e)) [] y else None
  | EvCtxDone e => select (CtxDone e) (y_up y) y
  | EvProcessExit => match y_exit y with Some status => select (ProcessExit status) (y_up y) y | None => None end
  | EvWorker (WItem (Ok m)) outcomes writes =>
      match y_down y with
      | m' :: down => if bool_decide (m = m') then work (WItem (Ok m)) outcomes writes down y else None
      | [] => None
      end
  | EvWorker (WItem (Err e)) outcomes writes => if is_nil (y_down y) then work (WItem (Err e)) outcomes writes [] y else None
  | EvWorker input outcomes writes => work input outcomes writes (y_down y) y
  | EvExit status =>
      match y_exit y, status, y_pc y with
      | None, None, Returned None | None, Some _, _ =>
          Some (MkSystem (y_session y) (y_waiting y) (y_down y) (y_down_broken y) (y_up y) (y_pc y) (y_worker y) (Some status) (y_results y))
      | _, _, _ => None
      end
  end.

Definition new_system : system :=
  MkSystem new_session None [] false [] WaitBootstrap (MkWWorld [] [] false (MkHandshake workerInitial "") [] [] None) None [].

Fixpoint run_system (y : system) (evs : list event) : option system :=
  match evs with
  | [] => Some y
  | ev :: evs' => match system_step y ev with Some y' => run_system y' evs' | None => None end
  end.
End system.
