(* ===== verification/PrivsepSessionFacts.v ===== *)
(** * Component [internal/privsep]: what the results of a session mean

    When a call of the supervisor succeeds, the worker did what was asked: the
    process is the expected one and prepared, it committed the configuration
    with the digest, the reload it ran last is this one, its runtime is
    closed. *)

From S2P Require Import Prelude.
From S2P Require Import GoStrings.
From S2P Require Import NetIP.
From S2P Require Import Apperror.
From S2P Require Import Privsep.
From S2P Require Import PrivsepSession.

(** ** Checked texts survive JSON *)

Lemma joined_Ok failures : joined failures = Ok tt <-> failures = [].
Proof. unfold joined. case_bool_decide; naive_solver. Qed.

Lemma check_failures_nil r : check_failures r = [] <-> r = Ok tt.
Proof. destruct r as [[]|]; naive_solver. Qed.

Lemma failing_nil b e : failing b e = [] <-> b = false.
Proof. unfold failing. destruct b; naive_solver. Qed.

Lemma bind_nil {A B} (f : A -> list B) l x : l ≫= f = [] -> x ∈ l -> f x = [].
Proof. induction l as [|y l IH]; [by intros _ ?%elem_of_nil|]. rewrite bind_cons. intros [Hx Hl]%app_eq_nil [->|Hin]%elem_of_cons; auto. Qed.

Lemma hex_ascii s : hex_decodes s = true -> sforall ascii_char s = true.
Proof.
  unfold hex_decodes. rewrite andb_true_iff. intros [_ Hs]. revert Hs. apply sforall_impl. intros c Hc.
  apply bool_decide_eq_true in Hc as [d Hd]. unfold hex_value, is_digit in Hd.
  assert (Hb : forall hi lo, between lo c hi = true -> code hi < 128 -> ascii_char c = true).
  { intros hi lo [_ Hle]%between_spec Hhi. apply Z.ltb_lt. lia. }
  destruct (between "0" c "9") eqn:H1; [by apply (Hb "9"%char "0"%char)|].
  destruct (between "a" c "f") eqn:H2; [by apply (Hb "f"%char "a"%char)|].
  destruct (between "A" c "F") eqn:H3; [by apply (Hb "F"%char "A"%char)|done].
Qed.

Lemma name_ascii s : sforall name_char s = true -> sforall ascii_char s = true.
Proof.
  apply sforall_impl. intros c. unfold name_char, is_lower, is_upper, is_digit. rewrite !orb_true_iff.
  assert (Hb : forall hi lo, between lo c hi = true -> code hi < 128 -> ascii_char c = true).
  { intros hi lo [_ Hle]%between_spec Hhi. apply Z.ltb_lt. lia. }
  intros [[[[[H|H]|H]|H]|H]|H]; try (by eapply Hb); apply Ascii.eqb_eq in H; by subst c.
Qed.

Lemma digest_ascii d : validateDigest d = Ok tt -> sforall ascii_char d = true.
Proof.
  unfold validateDigest. intros H. inv_result. to_prop. match goal with Hp : has_prefix d _ = true |- _ => apply has_prefix_spec in Hp as [q ->] end.
  match goal with Hh : hex_decodes _ = true |- _ => rename Hh into Hhex end. unfold trim_prefix in Hhex.
  rewrite (proj2 (has_prefix_spec ("sha256:" +:+ q) "sha256:")) in Hhex by by exists q. rewrite sdrop_app in Hhex.
  rewrite sforall_app. by rewrite (hex_ascii q) by done.
Qed.

Lemma request_id_ascii s : validateExternalRequestID s = Ok tt -> sforall ascii_char s = true.
Proof. unfold validateExternalRequestID. intros H. inv_result. to_prop. by apply hex_ascii. Qed.

Section facts.
Context `{E : Encoding} `{L : !EncodingLaw E} (sha256 : string -> string).

Lemma config_failures_digest config digest e1 e2 : config_failures sha256 config digest e1 e2 = [] -> sforall ascii_char digest = true.
Proof.
  unfold config_failures. intros [_ H]%app_eq_nil. destruct (validateDigest digest) as [[]|e] eqn:Hd; [|done]. by apply digest_ascii.
Qed.

Lemma wire_map_ascii {A} (m : gmap string A) :
  map_Forall (fun k _ => sforall ascii_char k = true) m -> wire_map id m = m.
Proof.
  intros Hm. unfold wire_map. rewrite <- (list_to_map_to_list m) at 2. f_equal.
  assert (Hall : forall k a, (k, a) ∈ map_to_list m -> utf8 k = k) by (intros k a Hin%elem_of_map_to_list; by apply utf8_ascii, (Hm k a)).
  induction (map_to_list m) as [|[k a] l IH]; [done|]. cbn. rewrite (Hall k a) by left. f_equal. apply IH. intros k' a' Hin. apply (Hall k' a'). by right.
Qed.

Lemma interface_dns_ascii dns : validateInterfaceDNS dns = Ok tt -> wire_map id dns = dns.
Proof.
  unfold validateInterfaceDNS. intros H. inv_result. apply joined_Ok in H. apply wire_map_ascii. intros name servers Hin%elem_of_map_to_list.
  assert (Hf : interface_failures (name, servers) = []).
  { exact (bind_nil interface_failures _ _ H Hin). }
  unfold interface_failures in Hf. destruct (_ || _ || _); [done|]. apply app_eq_nil in Hf as [Hf _]. apply failing_nil, negb_false_iff in Hf. by apply name_ascii.
Qed.

Lemma reload_wire r : Reload_Validate sha256 r = Ok tt -> wire TReload r = r.
Proof.
  unfold Reload_Validate. rewrite joined_Ok. intros [H1 [H2 H3]%app_eq_nil]%app_eq_nil. apply check_failures_nil in H1, H3.
  apply request_id_ascii in H1. apply config_failures_digest in H2. apply interface_dns_ascii in H3.
  destruct r. cbn in *. by rewrite !utf8_ascii, H3.
Qed.

Lemma bootstrap_digest b : Bootstrap_Validate sha256 b = Ok tt -> sforall ascii_char (bs_ConfigDigest b) = true.
Proof. unfold Bootstrap_Validate. rewrite joined_Ok. intros [H _]%app_eq_nil. by apply config_failures_digest in H. Qed.

(** ** Writes *)

(** How a write of [sent], with [rest] still to be written, ended. *)
Definition write_end_of (r : result app_error unit) (sent rest : string) : write_end :=
  match r with
  | Ok _ => Written
  | Err _ => if String.eqb rest "" then WroteAll else if String.eqb sent "" then WroteNothing else WrotePart
  end.

(** [write_end] says of the bytes of a frame what it means. *)
Lemma write_frame_ends bytes w :
  slen bytes < 2 ^ 32 ->
  exists sent rest, let o := write_end_of (write_frame bytes w).1 sent rest in
    PutUint32 (slen bytes) +:+ bytes = sent +:+ rest /\ wr_written (write_frame bytes w).2 = wr_written w +:+ sent /\
    (arrives o false = true <-> rest = "") /\ (breaks o false = true <-> sent <> "" /\ rest <> "") /\
    (written o = true <-> (write_frame bytes w).1 = Ok tt).
Proof.
  intros Hlen. destruct (write_frame_spec bytes w Hlen) as (sent & rest & Heq & Hw & Hok). exists sent, rest. cbn zeta.
  split; [done|]. split; [done|]. unfold arrives, breaks, written, write_end_of.
  destruct (write_frame bytes w) as [[[]|e] w1]; cbn [fst snd] in *.
  - subst rest. cbn. naive_solver.
  - destruct (String.eqb_spec rest "") as [->|Hr]; [cbn; naive_solver|].
    destruct (String.eqb_spec sent "") as [->|Hs]; cbn; naive_solver.
Qed.

(** ** The worker *)

(** What a later state of the worker keeps. *)
Record extends (w w' : wworld) : Prop := {
  ext_calls : exists new, ww_calls w' = ww_calls w ++ new;
  ext_closed : forall c, ww_closed w = Some c -> ww_closed w' = Some c
}.

#[export] Instance extends_preorder : PreOrder extends.
Proof.
  split.
  - intros w. split; [by exists []; rewrite app_nil_r|done].
  - intros w1 w2 w3 [[n1 H1] C1] [[n2 H2] C2]. split; [by exists (n1 ++ n2); rewrite H2, H1, app_assoc|auto].
Qed.

(** A worker that committed the configuration [b]. *)
Definition committed (b : Bootstrap) (w : wworld) : Prop :=
  Bootstrap_Validate sha256 b = Ok tt /\ exists rest, ww_calls w = (CallPrepare b, None) :: (CallCommit, None) :: rest.

Definition prepared_by (w : wworld) : Prop :=
  exists b rest, Bootstrap_Validate sha256 b = Ok tt /\ ww_calls w = (CallPrepare b, None) :: rest.

(** What the worker sends is true of its state, then and later; request IDs
    stay below [N]. *)
Record up_ok (own : Prepared) (N : Z) (w : wworld) (m : Message) : Prop := {
  up_id : 0 <= msg_RequestID m <= N;
  up_prepared : msg_Kind m = KindPrepared -> DecodePayload TPrepared m = Ok own /\ prepared_by w;
  up_running : msg_Kind m = KindRunning -> exists b, committed b w /\ DecodePayload TRunning m = Ok (bs_ConfigDigest b);
  up_stopped : msg_Kind m = KindStopped -> exists t, DecodePayload TStopped m = Ok t /\ (t = "" -> ww_closed w = Some None)
}.

Lemma committed_extends b w w' : extends w w' -> committed b w -> committed b w'.
Proof. intros [[n Hn] _] (Hv & rest & Hc). split; [done|]. exists (rest ++ n). by rewrite Hn, Hc. Qed.

Lemma prepared_extends w w' : extends w w' -> prepared_by w -> prepared_by w'.
Proof. intros [[n Hn] _] (b & rest & Hv & Hc). exists b, (rest ++ n). by rewrite Hn, Hc. Qed.

Lemma up_ok_extends own N N' w w' m : N <= N' -> extends w w' -> up_ok own N w m -> up_ok own N' w' m.
Proof.
  intros HN He [Hid Hp Hr Hs]. split; [lia| | |].
  - intros Hk. destruct (Hp Hk). split; [done|by eapply prepared_extends].
  - intros Hk. destruct (Hr Hk) as (b & Hb & Hd). exists b. split; [by eapply committed_extends|done].
  - intros Hk. destruct (Hs Hk) as (t & Ht & Hc). exists t. split; [done|]. intros Hnil. by apply (ext_closed _ _ He), Hc.
Qed.

(** The reload or preparation that the runtime accepted last. *)
Fixpoint last_accepted (acc : option (Bootstrap + Reload)) (calls : list (runtime_call * option app_error)) : option (Bootstrap + Reload) :=
  match calls with
  | [] => acc
  | (CallPrepare b, None) :: calls' => last_accepted (Some (inl b)) calls'
  | (CallReload r, None) :: calls' => last_accepted (Some (inr r)) calls'
  | _ :: calls' => last_accepted acc calls'
  end.

Definition configuration (w : wworld) : option (Bootstrap + Reload) := last_accepted None (ww_calls w).

Lemma last_accepted_app acc l1 l2 : last_accepted acc (l1 ++ l2) = last_accepted (last_accepted acc l1) l2.
Proof. revert acc. induction l1 as [|[[b| |r|] [e|]] l1 IH]; intros acc; cbn; auto. Qed.

(** [worker_send]: whatever it returns, its message may be on the stream. *)
Lemma worker_send_spec kind requestID T payload w r w' :
  worker_send kind requestID T payload w = (r, w') ->
  ww_calls w' = ww_calls w /\ ww_closed w' = ww_closed w /\ ww_handshake w' = ww_handshake w /\
  (ww_sent w' = ww_sent w \/ exists m bytes, frame kind requestID T payload = Ok (m, bytes) /\ ww_sent w' = ww_sent w ++ [m]).
Proof.
  unfold worker_send. destruct (frame _ _ _ _) as [[m bytes]|e]; [|intros [= <- <-]; naive_solver].
  destruct (arrives _ _); intros [= <- <-]; cbn; naive_solver.
Qed.

Lemma worker_send_extends kind requestID T payload w r w' : worker_send kind requestID T payload w = (r, w') -> extends w w'.
Proof. intros (Hc & Hcl & _)%worker_send_spec. split; [exists []; by rewrite Hc, app_nil_r|by rewrite Hcl]. Qed.

(** [fatal] and a return through [closeRuntime]. *)
Definition dying (w w' : wworld) : Prop :=
  extends w w' /\ configuration w' = configuration w /\ ww_closed w' = ww_closed w /\
  (ww_sent w' = ww_sent w \/ exists m, ww_sent w' = ww_sent w ++ [m] /\ msg_Kind m = KindFatal /\ msg_RequestID m = 0).

Lemma fatal_spec {A} failure w r w' :
  fatal (A := A) failure w = (r, w') -> r = Err (Some failure) /\ dying w w'.
Proof.
  unfold fatal. destruct (worker_send _ _ _ _ w) as [r1 w1] eqn:Hs. intros [= <- <-]. apply worker_send_spec in Hs as (Hc & Hcl & Hh & Hsent).
  split; [done|]. unfold dying, configuration. rewrite Hc. split.
  { split; [by exists []; rewrite app_nil_r|by rewrite Hcl]. }
  split; [done|]. split; [done|]. destruct Hsent as [?|(m & bytes & (_ & Hk & Hid & _)%frame_spec & ->)]; [by left|]. right. by exists m.
Qed.

Lemma or_fatal_spec {A} (m : act wworld app_error A) w r w' :
  or_fatal m w = (r, w') ->
  (exists a, r = Ok a /\ m w = (Ok a, w')) \/
  (exists e w1, r = Err (Some e) /\ m w = (Err e, w1) /\ dying w1 w').
Proof.
  unfold or_fatal. destruct (m w) as [[a|e] w1].
  - intros [= <- <-]. left. by exists a.
  - intros (-> & Hd)%fatal_spec. right. by exists e, w1.
Qed.

Definition text_ok (o : option app_error) : Prop := match o with Some e => error_text e <> "" | None => True end.

Lemma call_runtime_spec c w r w' :
  call_runtime c w = (r, w') ->
  exists o, (r = Ok tt /\ o = None \/ exists e, r = Err e /\ o = Some e) /\ ww_calls w' = ww_calls w ++ [(c, o)] /\
    ww_closed w' = ww_closed w /\ ww_handshake w' = ww_handshake w /\ ww_sent w' = ww_sent w /\
    (Forall text_ok (ww_outcomes w) -> Forall text_ok (ww_outcomes w') /\ text_ok o).
Proof.
  unfold call_runtime. intros [= <- <-]. exists (default None (head (ww_outcomes w))). cbn. split; [destruct (default None _); naive_solver|].
  do 4 (split; [done|]). destruct (ww_outcomes w) as [|o l]; cbn; [done|]. intros [? ?]%Forall_cons_1. done.
Qed.

Lemma call_extends c o w w' : ww_calls w' = ww_calls w ++ [(c, o)] -> ww_closed w' = ww_closed w -> extends w w'.
Proof. intros Hc Hcl. split; [by exists [(c, o)]|by rewrite Hcl]. Qed.

Lemma closeRuntime_spec w e w' :
  closeRuntime w = (e, w') ->
  extends w w' /\ configuration w' = configuration w /\ ww_closed w' = Some e /\ ww_sent w' = ww_sent w /\
  (Forall text_ok (ww_outcomes w) -> (forall c, ww_closed w = Some c -> text_ok c) -> text_ok e).
Proof.
  unfold closeRuntime. destruct (ww_closed w) as [c|] eqn:Hcl.
  { intros [= <- <-]. split; [done|]. split; [done|]. split; [done|]. split; [done|]. intros _ H. by apply H. }
  destruct (call_runtime CallClose w) as [r w1] eqn:Hcall. apply call_runtime_spec in Hcall as (o & Ho & Hc & Hcl1 & _ & Hs & Ht).
  intros [= <- <-]. cbn. assert (He : match r with Ok _ => None | Err e => Some e end = o) by (destruct Ho as [[-> ->]|(e' & -> & ->)]; done).
  rewrite He. split; [split; cbn; [by exists [(CallClose, o)]|congruence]|]. split; [|naive_solver].
  unfold configuration. cbn. by rewrite Hc, last_accepted_app.
Qed.

(** ** The phases of the worker *)

Context (pid uid gid : Z).

Definition own : Prepared := MkPrepared pid (NormalizeCredentialID uid) (NormalizeCredentialID gid).

Definition wk_ok (pc : worker_pc) (w : wworld) : Prop :=
  match pc with
  | WaitBootstrap => ww_calls w = [] /\ ww_closed w = None
  | WaitCommit => exists b, Bootstrap_Validate sha256 b = Ok tt /\ ww_calls w = [(CallPrepare b, None)] /\
                            wh_digest (ww_handshake w) = bs_ConfigDigest b /\ ww_closed w = None
  | Serving => (exists b, committed b w) /\ ww_closed w = None
  | Returned r => exists c, ww_closed w = Some c /\ (r = None -> c = None)
  end.

Record phase (N id : Z) (next : worker_pc) (w : wworld) (r : result (option app_error) unit) (w' : wworld) : Prop := {
  ph_extends : extends w w';
  ph_up : Forall (up_ok own N w') (ww_sent w');
  ph_ids : Forall (fun m => msg_RequestID m = 0 \/ msg_RequestID m = id) (ww_sent w');
  ph_next : r = Ok tt -> wk_ok next w'
}.

Lemma up_ok_fatal N w m : 0 <= N -> msg_Kind m = KindFatal -> msg_RequestID m = 0 -> up_ok own N w m.
Proof. intros HN Hk Hid. split; [lia|by rewrite Hk..]. Qed.

(** What goes with a message [m] of the worker in the state [w]. *)
Definition sound (N id : Z) (w : wworld) (m : Message) : Prop := up_ok own N w m /\ (msg_RequestID m = 0 \/ msg_RequestID m = id).

Lemma phase_sound N id next w r w' : extends w w' -> Forall (sound N id w') (ww_sent w') -> (r = Ok tt -> wk_ok next w') -> phase N id next w r w'.
Proof. intros He Hs Hn. apply Forall_and in Hs as [Hu Hi]. by split. Qed.

Lemma dying_after N id next w w1 e w' :
  0 <= N -> extends w w1 -> Forall (sound N id w1) (ww_sent w1) -> dying w1 w' -> phase N id next w (Err (Some e)) w'.
Proof.
  intros HN He Hs (Hd & _ & _ & Hsent).
  assert (Hs' : Forall (sound N id w') (ww_sent w1)).
  { apply (Forall_impl _ _ _ Hs). intros m [Hu Hi]. split; [by apply (up_ok_extends _ N N w1)|done]. }
  apply phase_sound; [by transitivity w1| |done]. destruct Hsent as [->|(m & -> & Hk & Hid)]; [done|].
  apply Forall_app. split; [done|]. apply Forall_singleton. split; [by apply up_ok_fatal|by left].
Qed.

Lemma dying_phase N id next w w1 e w' :
  0 <= N -> extends w w1 -> ww_sent w1 = [] -> dying w1 w' -> phase N id next w (Err (Some e)) w'.
Proof. intros HN He Hs. apply dying_after; [done..|]. rewrite Hs. constructor. Qed.

(** A call of the runtime that ends the session when it fails. *)
Lemma or_fatal_runtime N id next c text w w0 r w' :
  0 <= N -> extends w w0 -> ww_sent w0 = [] ->
  or_fatal (act_wrap (Wrapped text) (call_runtime c)) w0 = (r, w') ->
  (r = Ok tt /\ extends w w' /\ ww_sent w' = [] /\ ww_calls w' = ww_calls w0 ++ [(c, None)] /\ ww_closed w' = ww_closed w0 /\
   ww_handshake w' = ww_handshake w0) \/
  (exists e, r = Err (Some e) /\ phase N id next w (Err (Some e)) w').
Proof.
  intros HN He Hs Hf. unfold or_fatal, act_wrap in Hf. destruct (call_runtime c w0) as [r1 w1] eqn:Hcall.
  apply call_runtime_spec in Hcall as (o & Ho & Hc & Hcl & Hh & Hs1 & _). pose proof (call_extends _ _ _ _ Hc Hcl) as He1.
  destruct Ho as [[-> ->]|(e & -> & ->)].
  - injection Hf as <- <-. left. rewrite Hs1. split; [done|]. split; [by transitivity w0|done].
  - apply fatal_spec in Hf as [-> Hd]. right. eexists. split; [done|]. apply (dying_phase _ _ _ _ w1); [done|by transitivity w0|by rewrite Hs1|done].
Qed.

(** A report that ends the session when it cannot be sent. *)
Lemma or_fatal_report N id next from to kind T payload w w0 r w' :
  0 <= N -> extends w w0 -> ww_sent w0 = [] ->
  (forall m bytes w1, frame kind 0 T payload = Ok (m, bytes) -> ww_calls w1 = ww_calls w0 -> up_ok own N w1 m) ->
  or_fatal (report from to kind T payload) w0 = (r, w') ->
  (r = Ok tt /\ extends w w' /\ ww_calls w' = ww_calls w0 /\ ww_closed w' = ww_closed w0 /\ wh_digest (ww_handshake w') = wh_digest (ww_handshake w0) /\
   Forall (sound N id w') (ww_sent w')) \/
  (exists e, r = Err (Some e) /\ phase N id next w (Err (Some e)) w').
Proof.
  intros HN He Hs Hup Hf.
  assert (Hsound : forall r1 w1 w2, worker_send kind 0 T payload w0 = (r1, w1) -> ww_calls w2 = ww_calls w1 -> Forall (sound N id w2) (ww_sent w1)).
  { intros r1 w1 w2 (Hc & _ & _ & Hsent)%worker_send_spec Hc2. rewrite Hs in Hsent. destruct Hsent as [->|(m & bytes & Hf1 & ->)]; [constructor|].
    apply Forall_singleton. split; [apply (Hup m bytes); [done|by rewrite Hc2]|]. apply frame_spec in Hf1 as (_ & _ & Hid & _). by left. }
  apply or_fatal_spec in Hf as [([] & -> & Hr)|(e & w1 & -> & Hr & Hd)]; unfold report in Hr.
  - destruct (negb _); [done|]. destruct (worker_send _ _ _ _ w0) as [[[]|] w1] eqn:Hsend; [|done]. injection Hr as <-.
    pose proof (worker_send_extends _ _ _ _ _ _ _ Hsend) as He1. pose proof (Hsound _ _ (set_handshake (MkHandshake to (wh_digest (ww_handshake w1))) w1) eq_refl eq_refl) as Hall.
    apply worker_send_spec in Hsend as (Hc & Hcl & Hh & _). left. cbn. rewrite Hh in *. split; [done|]. split; [|done].
    transitivity w0; [done|]. transitivity w1; [done|]. split; [exists []; by rewrite app_nil_r|done].
  - right. eexists. split; [done|]. destruct (negb _).
    { injection Hr as <- <-. by apply (dying_phase _ _ _ _ w0). }
    destruct (worker_send _ _ _ _ w0) as [[[]|] w2] eqn:Hsend; [done|]. injection Hr as <- <-.
    apply (dying_after _ _ _ _ w2); [done| |by eapply Hsound|done]. transitivity w0; [done|by eapply worker_send_extends].
Qed.

Lemma AwaitBootstrap_spec received w r w' :
  AwaitBootstrap sha256 received w = (r, w') ->
  (exists e, r = Err e /\ w' = w) \/
  (exists b, r = Ok b /\ Bootstrap_Validate sha256 b = Ok tt /\ w' = set_handshake (MkHandshake workerBootstrapped (bs_ConfigDigest b)) w).
Proof.
  unfold AwaitBootstrap. destruct (negb _); [intros [= <- <-]; left; by eexists|].
  destruct (ReceiveKind TBootstrap KindBootstrap received) as [b|e]; cbn [mbind result_bind]; [|intros [= <- <-]; left; by eexists].
  destruct (Bootstrap_Validate sha256 b) as [[]|e] eqn:Hv; intros [= <- <-]; [right; by exists b|left; by eexists].
Qed.

Lemma AwaitCommit_spec received w r w' :
  AwaitCommit received w = (r, w') ->
  (exists e, r = Err e /\ w' = w) \/
  (r = Ok tt /\ w' = set_handshake (MkHandshake workerCommitted (wh_digest (ww_handshake w))) w).
Proof.
  unfold AwaitCommit. destruct (negb _); [intros [= <- <-]; left; by eexists|].
  destruct (ReceiveKind TCommit KindCommit received) as [d|e]; [|intros [= <- <-]; left; by eexists].
  destruct (negb _); intros [= <- <-]; [left; by eexists|by right].
Qed.

Lemma set_handshake_extends h w : extends w (set_handshake h w).
Proof. split; [exists []; by rewrite app_nil_r|done]. Qed.

Lemma serve_bootstrap_phase N id received w r w' :
  0 <= N -> ww_sent w = [] -> wk_ok WaitBootstrap w -> serve_bootstrap sha256 pid uid gid received w = (r, w') -> phase N id WaitCommit w r w'.
Proof.
  intros HN Hs (Hcalls & Hcl) Hr. unfold serve_bootstrap, act_bind in Hr.
  destruct (or_fatal (AwaitBootstrap sha256 received) w) as [r0 w0] eqn:H0. apply or_fatal_spec in H0 as [(b & -> & H0)|(e & w1 & -> & H0 & Hd)].
  2: { injection Hr as <- <-. apply AwaitBootstrap_spec in H0 as [(? & _ & ->)|(? & ? & _)]; [by apply (dying_phase _ _ _ _ w)|done]. }
  apply AwaitBootstrap_spec in H0 as [(? & ? & _)|(b' & [= <-] & Hv & Hw0)]; [done|].
  destruct (or_fatal (act_wrap _ _) w0) as [r1 w1] eqn:H1.
  eapply (or_fatal_runtime N id WaitCommit _ _ w) in H1 as [(-> & He1 & Hs1 & Hc1 & Hcl1 & Hh1)|(e & -> & Hph)]; [|by injection Hr as <- <-|done|subst w0; apply set_handshake_extends|by subst w0].
  destruct (or_fatal (ReportPrepared _) w1) as [r2 w2] eqn:H2. injection Hr as <- <-.
  unfold ReportPrepared, act_bind, act_of in H2. destruct (Prepared_Validate _) as [[]|e] eqn:Hp.
  2: { apply fatal_spec in H2 as [-> Hd]. by apply (dying_phase _ _ _ _ w1). }
  assert (Hup : forall m bytes w3, frame KindPrepared 0 TPrepared own = Ok (m, bytes) -> ww_calls w3 = ww_calls w1 -> up_ok own N w3 m).
  { intros m bytes w3 Hf Hc3. pose proof (unmarshal_marshal TPrepared _ _ (proj1 (proj2 (proj2 (proj2 (frame_spec _ _ _ _ _ _ Hf)))))) as [_ Hback].
    apply frame_spec in Hf as (_ & Hk & Hid & _). split; rewrite ?Hk, ?Hid; [lia| |done|done].
    intros _. split; [unfold DecodePayload; by rewrite Hback|]. exists b, []. split; [done|]. rewrite Hc3, Hc1, Hw0. cbn. by rewrite Hcalls. }
  eapply (or_fatal_report N id WaitCommit _ _ _ _ _ w) in H2 as [(-> & He2 & Hc2 & Hcl2 & Hd2 & Hs2)|(e & -> & Hph)]; [|done..].
  apply phase_sound; [done..|]. intros _. exists b. split; [done|]. split; [rewrite Hc2, Hc1, Hw0; cbn; by rewrite Hcalls|].
  split; [by rewrite Hd2, Hh1, Hw0|]. by rewrite Hcl2, Hcl1, Hw0.
Qed.

Lemma serve_commit_phase N id received w r w' :
  0 <= N -> ww_sent w = [] -> wk_ok WaitCommit w -> serve_commit received w = (r, w') -> phase N id Serving w r w'.
Proof.
  intros HN Hs (b & Hv & Hcalls & Hdig & Hcl) Hr. unfold serve_commit, act_bind in Hr.
  destruct (or_fatal (AwaitCommit received) w) as [r0 w0] eqn:H0. apply or_fatal_spec in H0 as [([] & -> & H0)|(e & w1 & -> & H0 & Hd)].
  2: { injection Hr as <- <-. apply AwaitCommit_spec in H0 as [(? & _ & ->)|[? _]]; [by apply (dying_phase _ _ _ _ w)|done]. }
  apply AwaitCommit_spec in H0 as [(? & ? & _)|(_ & Hw0)]; [done|].
  destruct (or_fatal (act_wrap _ _) w0) as [r1 w1] eqn:H1.
  eapply (or_fatal_runtime N id Serving _ _ w) in H1 as [(-> & He1 & Hs1 & Hc1 & Hcl1 & Hh1)|(e & -> & Hph)];
    [|by injection Hr as <- <-|done|subst w0; apply set_handshake_extends|by subst w0].
  unfold ReportRunning in Hr. destruct (or_fatal _ w1) as [r2 w2] eqn:H2. injection Hr as <- <-.
  assert (Hdone : forall w3, ww_calls w3 = ww_calls w1 -> committed b w3) by (intros w3 Hc3; split; [done|]; exists []; rewrite Hc3, Hc1, Hw0; cbn; by rewrite Hcalls).
  assert (Hdigest : wh_digest (ww_handshake w1) = bs_ConfigDigest b) by by rewrite Hh1, Hw0.
  assert (Hup : forall m bytes w3, frame KindRunning 0 TRunning (wh_digest (ww_handshake w1)) = Ok (m, bytes) -> ww_calls w3 = ww_calls w1 -> up_ok own N w3 m).
  { intros m bytes w3 Hf Hc3. pose proof (unmarshal_marshal TRunning _ _ (proj1 (proj2 (proj2 (proj2 (frame_spec _ _ _ _ _ _ Hf)))))) as [_ Hback].
    apply frame_spec in Hf as (_ & Hk & Hid & _). split; rewrite ?Hk, ?Hid; [lia|done| |done].
    intros _. exists b. split; [by apply Hdone|]. unfold DecodePayload. rewrite Hback by done. cbn. rewrite Hdigest, utf8_ascii by by apply bootstrap_digest. done. }
  eapply (or_fatal_report N id Serving _ _ _ _ _ w) in H2 as [(-> & He2 & Hc2 & Hcl2 & Hd2 & Hs2)|(e & -> & Hph)]; [|done..].
  apply phase_sound; [done..|]. intros _. split; [exists b; by apply Hdone|]. by rewrite Hcl2, Hcl1, Hw0.
Qed.

(** A result that says what the worker runs. *)
Definition answered (w : wworld) (r : Reload) (m : Message) : Prop :=
  exists res, DecodePayload TReloadResult m = Ok res /\ (rr_Error res = None -> configuration w = Some (inr r)).

Definition is_request (id : Z) (r : Reload) (m : Message) : Prop :=
  msg_RequestID m = id /\ msg_Kind m = KindReload /\ DecodePayload TReload m = Ok r.

Lemma run_reload_spec m w r w' :
  run_reload sha256 m w = (r, w') ->
  extends w w' /\ ww_sent w' = ww_sent w /\ ww_closed w' = ww_closed w /\
  (r = Ok tt -> forall rl, DecodePayload TReload m = Ok rl -> configuration w' = Some (inr rl)).
Proof.
  unfold run_reload, act_bind, act_of.
  destruct (DecodePayload TReload m) as [rl|e]; [|by intros [= <- <-]; split; [split; [exists []; rewrite app_nil_r|]|]].
  destruct (Reload_Validate sha256 rl) as [[]|e]; [|by intros [= <- <-]; split; [split; [exists []; rewrite app_nil_r|]|]].
  intros Hcall. apply call_runtime_spec in Hcall as (o & Ho & Hc & Hcl1 & _ & Hs1 & _). split; [by eapply call_extends|]. do 2 (split; [done|]).
  intros -> rl' [= <-]. destruct Ho as [[_ ->]|(? & ? & _)]; [|done]. unfold configuration. by rewrite Hc, last_accepted_app.
Qed.

Lemma serve_reload_phase N m w r w' :
  0 <= msg_RequestID m <= N -> ww_sent w = [] -> wk_ok Serving w -> serve_reload sha256 m w = (r, w') ->
  phase N (msg_RequestID m) Serving w r w' /\
  (forall id rl, is_request id rl m -> Forall (fun m' => msg_RequestID m' = 0 \/ answered w' rl m') (ww_sent w')).
Proof.
  intros HN Hs ([b Hb] & Hcl) Hr. unfold serve_reload in Hr. destruct (Z.eqb_spec (msg_RequestID m) 0) as [H0|Hne].
  { apply fatal_spec in Hr as [-> Hd]. assert (Hph : phase N (msg_RequestID m) Serving w (Err (Some (Plain "reload request ID must be non-zero"))) w')
      by (apply (dying_phase _ _ _ _ w); [lia|done|done|done]).
    split; [done|]. intros id rl _. destruct Hph as [_ _ Hids _]. apply (Forall_impl _ _ _ Hids). intros m' Hm'. left. destruct Hm'; lia. }
  destruct (run_reload sha256 m w) as [r1 w1] eqn:Hrun. apply run_reload_spec in Hrun as (He1 & Hs1 & Hcl1 & Hconf).
  rewrite Hs in Hs1. rewrite Hcl in Hcl1.
  destruct (worker_send _ _ _ _ w1) as [r2 w2] eqn:Hsend.
  assert (He2 : extends w w2) by (transitivity w1; [done|by eapply worker_send_extends]).
  apply worker_send_spec in Hsend as (Hc & Hcl2 & _ & Hsent). rewrite Hs1 in Hsent.
  assert (Hw' : w' = w2) by (destruct r2 as [[]|]; by injection Hr as _ <-). subst w2.
  assert (Hnext : r = Ok tt -> wk_ok Serving w') by (intros _; split; [exists b; by eapply committed_extends|by rewrite Hcl2]).
  destruct Hsent as [Hsent|(m' & bytes & Hf & Hsent)]; rewrite Hsent.
  { split; [|by intros; constructor]. apply phase_sound; [done| |done]. rewrite Hsent. constructor. }
  pose proof (unmarshal_marshal TReloadResult _ _ (proj1 (proj2 (proj2 (proj2 (frame_spec _ _ _ _ _ _ Hf)))))) as [_ Hback].
  apply frame_spec in Hf as (_ & Hk & Hid & _). split.
  - apply phase_sound; [done| |done]. rewrite Hsent. apply Forall_singleton. split; [split; by rewrite ?Hk, ?Hid|by right].
  - intros id rl (_ & _ & Hdec). apply Forall_singleton. right. eexists. split; [unfold DecodePayload; by rewrite Hback|].
    destruct r1 as [[]|e]; cbn; [|done]. intros _. unfold configuration. rewrite Hc. by apply Hconf.
Qed.

Lemma serve_shutdown_phase N m w r w' :
  0 <= msg_RequestID m <= N -> Forall text_ok (ww_outcomes w) -> ww_sent w = [] -> wk_ok Serving w -> serve_shutdown m w = (r, w') ->
  phase N (msg_RequestID m) Serving w r w'.
Proof.
  intros HN Ht Hs (_ & Hcl) Hr. unfold serve_shutdown in Hr. destruct (DecodePayload TShutdown m) as [t|e].
  2: { apply fatal_spec in Hr as [-> Hd]. apply (dying_phase _ _ _ _ w); [lia|done..]. }
  destruct (closeRuntime w) as [ce w1] eqn:Hclose. apply closeRuntime_spec in Hclose as (He1 & _ & Hcl1 & Hs1 & Htext).
  specialize (Htext Ht). rewrite Hcl in Htext. specialize (Htext ltac:(done)).
  destruct (worker_send _ _ _ _ w1) as [r2 w2] eqn:Hsend.
  assert (He2 : extends w w2) by (transitivity w1; [done|by eapply worker_send_extends]).
  apply worker_send_spec in Hsend as (Hc & Hcl2 & _ & Hsent). rewrite Hs1, Hs in Hsent.
  assert (Hr' : r <> Ok tt /\ w' = w2) by (destruct r2 as [[]|]; by injection Hr as <- <-). destruct Hr' as [Hne ->].
  apply phase_sound; [done| |done]. destruct Hsent as [->|(m' & bytes & Hf & ->)]; [constructor|].
  pose proof (unmarshal_marshal TStopped _ _ (proj1 (proj2 (proj2 (proj2 (frame_spec _ _ _ _ _ _ Hf)))))) as [_ Hback].
  apply frame_spec in Hf as (_ & Hk & Hid & _). apply Forall_singleton. split; [|by right].
  split; rewrite ?Hk, ?Hid; [done|done|done|]. intros _. eexists. split; [unfold DecodePayload; by rewrite Hback|].
  cbn. intros Hnil%utf8_nonempty. rewrite Hcl2, Hcl1. destruct ce as [e|]; [|done]. by cbn in Htext.
Qed.

(** ** One step of the worker *)

Definition input_id (input : worker_input) : Z := match input with WItem (Ok m) => msg_RequestID m | _ => 0 end.

Definition quiet (input : worker_input) : bool := match input with WItem (Ok _) => false | _ => true end.

(** The part of [ServeWorker] before its deferred calls. *)
Definition serve_part (pc : worker_pc) (input : worker_input) : option (worker_pc * act wworld (option app_error) unit) :=
  match pc, input with
  | WaitBootstrap, WItem received => Some (WaitCommit, serve_bootstrap sha256 pid uid gid received)
  | WaitCommit, WItem received => Some (Serving, serve_commit received)
  | Serving, _ => Some (Serving, serve_input sha256 input)
  | _, _ => None
  end.

Lemma ServeWorker_part pc input w :
  ServeWorker sha256 pid uid gid pc input w = (fun '(next, m) => next_pc next (m w)) <$> serve_part pc input.
Proof. by destruct pc, input. Qed.

(** What one input leaves behind. *)
Record stepped (N : Z) (input : worker_input) (w w' : wworld) : Prop := {
  st_extends : extends w w';
  st_up : Forall (up_ok own N w') (ww_sent w');
  st_ids : Forall (fun m => msg_RequestID m = 0 \/ msg_RequestID m = input_id input) (ww_sent w');
  st_quiet : quiet input = true -> configuration w' = configuration w;
  st_answer : forall m id rl, input = WItem (Ok m) -> is_request id rl m ->
    Forall (fun m' => msg_RequestID m' = 0 \/ answered w' rl m') (ww_sent w')
}.

Lemma or_fatal_err {A B} (m : act wworld app_error A) (k : A -> act wworld (option app_error) B) e w r w' :
  m w = (Err e, w) -> act_bind (or_fatal m) k w = (r, w') -> configuration w' = configuration w.
Proof. unfold act_bind, or_fatal. intros -> H. destruct (fatal e w) as [r1 w1] eqn:Hf. apply fatal_spec in Hf as [-> (_ & Hc & _)]. by injection H as <- <-. Qed.

(** The hand-shake sends messages without a request ID. *)
Lemma handshake_stepped N next received w r w' :
  phase N 0 next w r w' -> (forall e, received = Err e -> configuration w' = configuration w) ->
  stepped N (WItem received) w w' /\ (r = Ok tt -> wk_ok next w').
Proof.
  intros [He Hu Hi Hn] Hq. split; [|done]. split; [done|done| | |].
  - apply (Forall_impl _ _ _ Hi). intros m [->| ->]; by left.
  - destruct received as [m|e]; [done|]. intros _. by apply (Hq e).
  - intros m id rl _ _. apply (Forall_impl _ _ _ Hi). intros m' [->| ->]; by left.
Qed.

Lemma silent_stepped N input w (r : result (option app_error) unit) w' next :
  ww_sent w = [] -> dying w w' \/ w' = w -> 0 <= N -> (forall a, r <> Ok a) -> stepped N input w w' /\ (r = Ok tt -> wk_ok next w').
Proof.
  intros Hs Hd HN Hr. split; [|by intros ->; destruct (Hr tt)].
  assert (H : extends w w' /\ configuration w' = configuration w /\ (ww_sent w' = [] \/ exists m, ww_sent w' = [m] /\ msg_Kind m = KindFatal /\ msg_RequestID m = 0)).
  { destruct Hd as [(He & Hc & _ & Hsent)| ->]; [by rewrite Hs in Hsent|]. split; [done|]. split; [done|by left]. }
  clear Hd. destruct H as (He & Hc & Hsent). split; [done| | |done|].
  - destruct Hsent as [->|(m & -> & Hk & Hid)]; [done|]. apply Forall_singleton. by apply up_ok_fatal.
  - destruct Hsent as [->|(m & -> & Hk & Hid)]; [done|]. apply Forall_singleton. by left.
  - intros m id rl _ _. destruct Hsent as [->|(m' & -> & Hk & Hid)]; [done|]. apply Forall_singleton. by left.
Qed.

Lemma serve_input_stepped N input w r w' :
  0 <= N -> 0 <= input_id input <= N -> Forall text_ok (ww_outcomes w) -> ww_sent w = [] -> wk_ok Serving w ->
  serve_input sha256 input w = (r, w') -> stepped N input w w' /\ (r = Ok tt -> wk_ok Serving w').
Proof.
  intros HN Hid Ht Hs Hok Hr. destruct input as [cancelled|e|[m|e]]; cbn [serve_input] in Hr.
  - injection Hr as <- <-. apply silent_stepped; [done|by right|done|done].
  - apply fatal_spec in Hr as [-> Hd]. apply silent_stepped; [done|by left|done|done].
  - case_bool_decide as Hreload; [|case_bool_decide as Hshut].
    + apply (serve_reload_phase N) in Hr as [[He Hu Hi Hn] Ha]; [|done..]. split; [|done]. split; [done..|]. intros m' id rl [= <-]. apply Ha.
    + apply (serve_shutdown_phase N) in Hr as [He Hu Hi Hn]; [|done..]. split; [|done]. split; [done..|]. intros m' id rl [= <-] (_ & Hk & _). by rewrite Hk in Hshut.
    + apply fatal_spec in Hr as [-> Hd]. apply silent_stepped; [done|by left|done|done].
  - injection Hr as <- <-. apply silent_stepped; [done|by right|done|done].
Qed.

Lemma serve_part_stepped N pc input next m w r w' :
  serve_part pc input = Some (next, m) -> m w = (r, w') ->
  0 <= N -> 0 <= input_id input <= N -> Forall text_ok (ww_outcomes w) -> ww_sent w = [] -> wk_ok pc w ->
  stepped N input w w' /\ (r = Ok tt -> wk_ok next w').
Proof.
  intros Hpart Hm HN Hid Ht Hs Hok. destruct pc; [| |injection Hpart as <- <-; by apply (serve_input_stepped N) in Hm|done].
  - destruct input as [| |received]; [done..|]. injection Hpart as <- <-. apply handshake_stepped; [by apply (serve_bootstrap_phase N 0) in Hm|].
    intros e ->. unfold serve_bootstrap in Hm. destruct (AwaitBootstrap sha256 (Err e) w) as [r0 w0] eqn:H0.
    pose proof H0 as Hr0. unfold AwaitBootstrap in Hr0. destruct (negb _); cbn in Hr0; injection Hr0 as <- <-; by eapply or_fatal_err.
  - destruct input as [| |received]; [done..|]. injection Hpart as <- <-. apply handshake_stepped; [by apply (serve_commit_phase N 0) in Hm|].
    intros e ->. unfold serve_commit in Hm. destruct (AwaitCommit (Err e) w) as [r0 w0] eqn:H0.
    pose proof H0 as Hr0. unfold AwaitCommit in Hr0. destruct (negb _); cbn in Hr0; injection Hr0 as <- <-; by eapply or_fatal_err.
Qed.

(** Closing keeps what was said. *)
Lemma stepped_close N input w w1 e w' : stepped N input w w1 -> closeRuntime w1 = (e, w') -> stepped N input w w'.
Proof.
  intros [He Hu Hi Hq Ha] (He2 & Hc & Hcl & Hs & _)%closeRuntime_spec. split; rewrite ?Hs, ?Hc; [by transitivity w1| |done|done|].
  - apply (Forall_impl _ _ _ Hu). intros m. by apply up_ok_extends.
  - intros m id rl Hin Hreq. apply (Forall_impl _ _ _ (Ha m id rl Hin Hreq)). intros m' [?|(res & Hd & Hr)]; [by left|]. right. exists res. by rewrite Hc.
Qed.

Lemma ServeWorker_spec N pc input w pc' w' :
  ServeWorker sha256 pid uid gid pc input w = Some (pc', w') ->
  0 <= N -> 0 <= input_id input <= N -> Forall text_ok (ww_outcomes w) -> ww_sent w = [] -> wk_ok pc w ->
  stepped N input w w' /\ wk_ok pc' w'.
Proof.
  rewrite ServeWorker_part. destruct (serve_part pc input) as [[next m]|] eqn:Hpart; [|done]. cbn. intros [= Hnext] HN Hid Ht Hs Hok.
  destruct (m w) as [r w1] eqn:Hm. destruct (serve_part_stepped N _ _ _ _ _ _ _ Hpart Hm) as [Hst Hn]; [done..|].
  unfold next_pc in Hnext. destruct r as [[]|ret]; [injection Hnext as <- <-; auto|].
  destruct (closeRuntime w1) as [ce w2] eqn:Hclose. injection Hnext as <- <-. split; [by eapply stepped_close|].
  apply closeRuntime_spec in Hclose as (_ & _ & Hcl & _). exists ce. split; [done|]. by destruct ret, ce.
Qed.
End facts.
