(* ===== verification/PrivsepSystem.v ===== *)
(** * Component [internal/privsep]: supervisor and worker together

    The invariant of both sides and the streams between them, and what a call
    of the supervisor that succeeds says of the worker. *)

From S2P Require Import Prelude.
From S2P Require Import GoStrings.
From S2P Require Import Apperror.
From S2P Require Import Privsep.
From S2P Require Import PrivsepSession.
From S2P Require Import PrivsepSessionFacts.

Section system.
Context `{E : Encoding} `{L : !EncodingLaw E} (sha256 : string -> string) (pid uid gid : Z) (expectedPID : Z) (identity : Identity).

Notation step := (system_step sha256 pid uid gid expectedPID identity).
Notation up_ok := (up_ok sha256 (own pid uid gid)).
Notation wk_ok := (wk_ok sha256).

(** Servers print and parse back; errors of the runtime have a text. *)
Definition event_ok (ev : event) : Prop :=
  match ev with
  | EvCall (CReload payload) _ => printable_dns (rl_InterfaceDNS payload)
  | EvWorker _ outcomes _ => Forall text_ok outcomes
  | _ => True
  end.

(** The states after [n] events. *)
Inductive reach : nat -> system -> Prop :=
| reach_new : reach 0 new_system
| reach_step n y ev y' : reach n y -> event_ok ev -> step y ev = Some y' -> reach (S n) y'.

Definition identity_ok : Prop :=
  pid = expectedPID /\ NormalizeCredentialID uid = id_UID identity /\ NormalizeCredentialID gid = id_GID identity.

(** While a reload is in progress: its request is the last message to the
    worker, or the worker read it and what it answered is true, or it never
    arrives. *)
Definition pending (y : system) : Prop :=
  match y_waiting y with
  | Some (CReload r, id) =>
      id = ss_requestID (y_session y) /\ 1 <= id /\
      ((exists pre m, y_down y = pre ++ [m] /\ Forall (fun m => msg_RequestID m < id) pre /\ is_request id r m /\
                      Forall (fun m => msg_RequestID m < id) (y_up y)) \/
       (y_down y = [] /\ Forall (fun m => msg_RequestID m < id \/ answered (y_worker y) r m) (y_up y)) \/
       (Forall (fun m => msg_RequestID m < id) (y_down y) /\ Forall (fun m => msg_RequestID m < id) (y_up y)))
  | _ => True
  end.

(** A [Shutdown] ended the session: a nil of it was true. *)
Definition ended_by_shutdown (y : system) : Prop :=
  exists reason r, (CShutdown reason, r) ∈ y_results y /\ (r = None -> ww_closed (y_worker y) = Some None).

Record inv (n : Z) (y : system) : Prop := {
  inv_id : 0 <= ss_requestID (y_session y) <= n;
  inv_identity : ss_prepared (y_session y) = true -> identity_ok;
  inv_worker : wk_ok (y_pc y) (y_worker y);
  inv_up : Forall (up_ok (ss_requestID (y_session y)) (y_worker y)) (y_up y);
  inv_down : Forall (fun m => 0 <= msg_RequestID m <= ss_requestID (y_session y)) (y_down y);
  inv_exit : y_exit y = Some None -> ww_closed (y_worker y) = Some None;
  inv_pending : pending y;
  inv_closed : ss_closed (y_session y) = true -> ended_by_shutdown y
}.

(** ** The supervisor *)

Lemma nextRequest_spec s :
  0 <= ss_requestID s < 2 ^ 64 - 1 ->
  match nextRequest s with
  | (Err _, s') => s' = s
  | (Ok id, s') => id = ss_requestID s + 1 /\ ss_requestID s' = id /\ ss_prepared s' = ss_prepared s /\ ss_closed s' = ss_closed s
  end.
Proof.
  intros Hs. unfold nextRequest. destruct (_ || _); [done|]. unfold wrap64. rewrite Z.mod_small by lia.
  destruct (Z.eqb_spec (ss_requestID s + 1) 0); [lia|done].
Qed.

Lemma begin_call_spec c s :
  0 <= ss_requestID s < 2 ^ 64 - 1 ->
  let '(x, s') := begin_call sha256 c s in
  ss_requestID s <= ss_requestID s' <= ss_requestID s + 1 /\ ss_prepared s' = ss_prepared s /\ ss_closed s' = ss_closed s /\
  match x with
  | inl r => r = None -> (exists reason, c = CShutdown reason) /\ ss_closed s' = true
  | inr snd_ => 0 <= sd_RequestID snd_ <= ss_requestID s' /\
      match c with
      | CReload r => Reload_Validate sha256 r = Ok tt /\ ss_requestID s' = ss_requestID s + 1 /\ snd_ = MkSending KindReload (ss_requestID s') TReload r
      | _ => True
      end
  end.
Proof.
  intros Hs. pose proof (nextRequest_spec s Hs) as Hnext. destruct c as [b|d|r|reason]; cbn [begin_call]; unfold begin_bootstrap, begin_commit, begin_reload, begin_shutdown.
  - destruct (Bootstrap_Validate sha256 b) as [[]|e]; [|split; [lia|]; done]. destruct (_ || _); (split; [cbn; lia|]); [done|]. do 2 (split; [done|]). split; [cbn; lia|done].
  - destruct (_ || _); [split; [lia|]; done|]. destruct (validateDigest d); (split; [lia|]); [|done]. do 2 (split; [done|]). split; [cbn; lia|done].
  - destruct (Reload_Validate sha256 r) as [[]|e] eqn:Hv; [|split; [lia|]; done]. destruct (nextRequest s) as [[id|e] s'].
    + destruct Hnext as (-> & Hid & Hp & Hc). split; [lia|]. do 2 (split; [done|]). split; [cbn; lia|]. split; [done|]. split; [done|]. by rewrite Hid.
    + subst s'. split; [lia|]. done.
  - destruct (ss_closed s) eqn:Hc; [split; [lia|]; do 2 (split; [done|]); intros _; split; [by eexists|done]|].
    destruct (nextRequest s) as [[id|e] s'].
    + destruct Hnext as (-> & Hid & Hp & Hcl). split; [lia|]. do 2 (split; [done|]). split; [cbn; lia|done].
    + subst s'. split; [lia|]. done.
Qed.

Lemma await_item_Ok want id received m :
  await_item want id received = Some (Ok m) -> received = Ok m /\ msg_Kind m = want /\ msg_RequestID m = id.
Proof.
  unfold await_item. destruct received as [m'|e]; [|done]. case_bool_decide.
  { destruct (DecodePayload TFatal m'); done. }
  destruct (staleReloadResult m' id); [done|]. case_bool_decide as Hk; [|done]. cbn [negb].
  destruct (Z.eqb_spec (msg_RequestID m') id); [|done]. by intros [= <-].
Qed.

Lemma await_Ok want id ev m : await want id ev = Some (Ok m) -> ev = Item (Ok m) /\ msg_Kind m = want /\ msg_RequestID m = id.
Proof. destruct ev as [received|[e|]|e]; cbn; [|done..]. intros (-> & ? & ?)%await_item_Ok. done. Qed.

Lemma awaitShutdown_Ok id ev r :
  awaitShutdown id ev = Some (Ok r) ->
  (exists m, r = Some m /\ ev = Item (Ok m) /\ msg_Kind m = KindStopped /\ msg_RequestID m = id) \/ (r = None /\ ev = ProcessExit None).
Proof.
  destruct ev as [received|[e|]|e]; cbn; [|done| |done].
  - destruct (await_item KindStopped id received) as [[m|e]|] eqn:Ha; [|done..]. cbn. intros [= <-]. left. exists m.
    by apply await_item_Ok in Ha as (-> & ? & ?).
  - intros [= <-]. by right.
Qed.

Lemma error_of_None r : error_of r = None <-> r = Ok tt.
Proof. destruct r as [[]|]; naive_solver. Qed.

(** What a case of the select gives that ends a call well. *)
Definition good_case (c : call) (id : Z) (ev : select_case) : Prop :=
  match c with
  | CBootstrap _ => exists m p, ev = Item (Ok m) /\ msg_Kind m = KindPrepared /\ DecodePayload TPrepared m = Ok p /\
      pr_PID p = expectedPID /\ pr_UID p = id_UID identity /\ pr_GID p = id_GID identity
  | CCommit d => exists m, ev = Item (Ok m) /\ msg_Kind m = KindRunning /\ DecodePayload TRunning m = Ok d
  | CReload r => exists m res, ev = Item (Ok m) /\ msg_RequestID m = id /\ DecodePayload TReloadResult m = Ok res /\ rr_Error res = None
  | CShutdown _ => ev = ProcessExit None \/ exists m, ev = Item (Ok m) /\ msg_Kind m = KindStopped /\ DecodePayload TStopped m = Ok ""
  end.

Lemma check_prepared_Ok r : check_prepared expectedPID identity r = Ok tt -> exists m p, r = Ok m /\ DecodePayload TPrepared m = Ok p /\
      pr_PID p = expectedPID /\ pr_UID p = id_UID identity /\ pr_GID p = id_GID identity.
Proof.
  intros H. unfold check_prepared in H. apply bind_Ok in H as (m & Hm & H). apply map_err_Ok in Hm. apply bind_Ok in H as (p & Hp & H).
  inv_result. to_prop. exists m, p. auto.
Qed.

Lemma continue_call_spec c id ev s r s' :
  continue_call expectedPID identity c id ev s = Some (r, s') ->
  ss_requestID s' = ss_requestID s /\
  (ss_prepared s' = true -> ss_prepared s = true \/ exists b, c = CBootstrap b /\ good_case c id ev) /\ (r = None -> good_case c id ev) /\
  (ss_closed s' = true -> ss_closed s = true \/ exists reason, c = CShutdown reason).
Proof.
  destruct c as [b|d|p|reason]; cbn [continue_call good_case]; unfold finish_bootstrap, finish_commit, finish_reload, finish_shutdown.
  - destruct (await _ _ ev) as [m|] eqn:Ha; [|done]. cbn. intros [= <- <-].
    assert (Hgood : check_prepared expectedPID identity m = Ok tt -> good_case (CBootstrap b) id ev).
    { intros (m' & p & -> & Hd & Hp)%check_prepared_Ok. apply await_Ok in Ha as (-> & Hk & _). by exists m', p. }
    split; [by destruct (is_ok _)|]. rewrite error_of_None. split; [|split; [done|destruct (is_ok _); by left]].
    destruct (check_prepared expectedPID identity m) as [[]|e]; cbn; [|by left]. right. exists b. split; [done|by apply Hgood].
  - destruct (await _ _ ev) as [m|] eqn:Ha; [|done]. cbn. intros [= <- <-]. rewrite error_of_None.
    split; [by destruct (is_ok _)|]. split; [destruct (is_ok _); by left|]. split; [|destruct (is_ok _); by left]. intros H. unfold check_running in H.
    apply bind_Ok in H as (m' & ->%map_err_Ok & H). apply bind_Ok in H as (d' & Hd & H). inv_result. to_prop. subst d'.
    apply await_Ok in Ha as (-> & Hk & _). by exists m'.
  - destruct (await _ _ ev) as [m|] eqn:Ha; [|done]. cbn. intros [= <- <-]. rewrite error_of_None. split; [done|]. split; [by left|]. split; [|by left].
    intros H. unfold check_reload in H. apply bind_Ok in H as (m' & ->%map_err_Ok & H). apply bind_Ok in H as (res & Hd & H).
    apply bind_Ok in H as (? & _ & H). inv_result. apply await_Ok in Ha as (-> & Hk & Hid). exists m', res.
    destruct (rr_Error res); [done|]. done.
  - destruct (awaitShutdown _ ev) as [[m|e]|] eqn:Ha; [| |done]; cbn; intros [= <- <-].
    + rewrite error_of_None. split; [done|]. split; [by left|]. split; [|right; by eexists]. intros H. apply awaitShutdown_Ok in Ha as [(m' & -> & -> & Hk & _)|(-> & ->)]; [|by left].
      right. exists m'. cbn in H. apply bind_Ok in H as (t & Hd & H). inv_result. to_prop. by subst t.
    + split; [done|]. split; [by left|]. split; [done|by left].
Qed.

(** ** The steps *)

Lemma identity_from m N w : up_ok N w m -> msg_Kind m = KindPrepared -> forall p, DecodePayload TPrepared m = Ok p ->
  pr_PID p = expectedPID -> pr_UID p = id_UID identity -> pr_GID p = id_GID identity -> identity_ok.
Proof. intros Hup Hk p Hd H1 H2 H3. destruct (up_prepared _ _ _ _ _ Hup Hk) as [Hown _]. rewrite Hown in Hd. injection Hd as <-. done. Qed.

Lemma ended_later y y' :
  ended_by_shutdown y -> (exists new, y_results y' = y_results y ++ new) -> extends (y_worker y) (y_worker y') -> ended_by_shutdown y'.
Proof.
  intros (reason & r & Hin & Hr) [new Hnew] He. exists reason, r. rewrite Hnew. split; [apply elem_of_app; by left|].
  intros Hnone. by apply (ext_closed _ _ He), Hr.
Qed.

(** The supervisor ends a call, or sends a request and waits; the worker does
    nothing. *)
Lemma supervisor_inv n s s' waiting down broken done_ y :
  inv n y -> s = y_session y -> ss_requestID s <= ss_requestID s' <= ss_requestID s + 1 -> ss_prepared s' = ss_prepared s ->
  ss_closed s' = ss_closed s -> Forall (fun m => 0 <= msg_RequestID m <= ss_requestID s') down ->
  let y' := supervisor_side s' waiting down broken (y_up y) done_ y in pending y' -> inv (n + 1) y'.
Proof.
  intros [Hid Hident Hw Hup Hdown Hexit Hpend Hclosed] -> Hid' Hprep Hcl Hdown' y' Hpend'. split; cbn; [lia|by rewrite Hprep|done| |done..|].
  - apply (Forall_impl _ _ _ Hup). intros m. apply up_ok_extends; [lia|done].
  - rewrite Hcl. intros H. apply (ended_later y); [by apply Hclosed|by exists done_|done].
Qed.

(** The messages before a new request. *)
Lemma older {P : Message -> Prop} (N id : Z) l : (forall m, P m -> msg_RequestID m <= N) -> N < id -> Forall P l -> Forall (fun m => msg_RequestID m < id) l.
Proof. intros HP HN Hl. apply (Forall_impl _ _ _ Hl). intros m Hm. specialize (HP m Hm). lia. Qed.

Lemma start_call_inv n c o y : inv n y -> n < 2 ^ 64 - 1 -> event_ok (EvCall c o) -> y_waiting y = None -> inv (n + 1) (start_call sha256 c o y).
Proof.
  intros Hinv Hn Hok Hwait. unfold start_call. pose proof (inv_id _ _ Hinv) as Hid. pose proof (inv_down _ _ Hinv) as Hdown.
  pose proof (begin_call_spec c (y_session y) ltac:(lia)) as Hb. destruct (begin_call sha256 c (y_session y)) as [[r|snd_] s']; destruct Hb as (Hid' & Hprep & Hcl & Hsnd).
  all: assert (Hdown' : Forall (fun m => 0 <= msg_RequestID m <= ss_requestID s') (y_down y)) by (apply (Forall_impl _ _ _ Hdown); intros m ?; cbn in *; lia).
  { by eapply supervisor_inv. }
  destruct Hsnd as [Hs Hreload]. destruct (frame _ _ _ _) as [[m bytes]|e] eqn:Hf; [|by eapply supervisor_inv].
  assert (Hdec : printable_body (sd_target snd_) (sd_payload snd_) -> DecodePayload (sd_target snd_) m = Ok (wire (sd_target snd_) (sd_payload snd_))) by apply (frame_carries _ _ _ Hf).
  apply frame_spec in Hf as (_ & Hk & Hmid & _). set (down := if arrives o _ then _ else _).
  assert (Hnew : Forall (fun m => 0 <= msg_RequestID m <= ss_requestID s') down).
  { unfold down. destruct (arrives _ _); [|done]. apply Forall_app. split; [done|]. apply Forall_singleton. by rewrite Hmid. }
  destruct (written o); [|by eapply supervisor_inv]. eapply supervisor_inv; [done..|].
  unfold pending. cbn. destruct c as [| |r|]; [done..| |done]. destruct Hreload as (Hv & Hnext & ->). cbn in *. split; [done|]. split; [lia|].
  assert (Hold : Forall (fun m => msg_RequestID m < ss_requestID s') (y_down y)) by (eapply (older (ss_requestID (y_session y))); [|lia|exact Hdown]; intros m' ?; cbn in *; lia).
  assert (Hups : Forall (fun m => msg_RequestID m < ss_requestID s') (y_up y)).
  { eapply (older (ss_requestID (y_session y))); [|lia|apply (inv_up _ _ Hinv)]. intros m' Hm'. apply (up_id _ _ _ _ _ Hm'). }
  unfold down. destruct (arrives _ _); [left|right; by right]. exists (y_down y), m. do 2 (split; [done|]). split; [|done].
  split; [done|]. split; [done|]. rewrite Hdec by done. exact (f_equal Ok (reload_wire sha256 r Hv)).
Qed.

(** The case of a select leaves the rest of the stream. *)
Definition taken (case : select_case) (up : list Message) (y : system) : Prop :=
  match case with Item (Ok m) => y_up y = m :: up | _ => exists pre, y_up y = pre ++ up end.

Lemma taken_app case up y : taken case up y -> exists pre, y_up y = pre ++ up.
Proof. destruct case as [[m|]| |]; cbn; [intros ->; by exists [m]|done..]. Qed.

(** A [Shutdown] that ends well finds the runtime closed without an error. *)
Lemma good_shutdown n reason id case up y :
  inv n y -> taken case up y -> (forall st, case = ProcessExit st -> y_exit y = Some st) ->
  good_case (CShutdown reason) id case -> ww_closed (y_worker y) = Some None.
Proof.
  intros Hinv Ht Hcase [->|(m & -> & Hk & Hd)]; [by apply (inv_exit _ _ Hinv), Hcase|].
  pose proof (inv_up _ _ Hinv) as Hup. cbn in Ht. rewrite Ht in Hup. apply Forall_cons in Hup as [Hm _].
  destruct (up_stopped _ _ _ _ _ Hm Hk) as (t & Ht' & Hc). rewrite Ht' in Hd. injection Hd as ->. by apply Hc.
Qed.

Lemma select_inv n case up y y' :
  inv n y -> taken case up y -> (forall st, case = ProcessExit st -> y_exit y = Some st) ->
  select expectedPID identity case up y = Some y' -> inv (n + 1) y'.
Proof.
  intros Hinv Htaken Hcase Hsel. pose proof Hinv as [Hid Hident Hw Hup Hdown Hexit Hpend Hclosed].
  unfold select in Hsel. destruct (y_waiting y) as [[c id]|] eqn:Hwait; [|done].
  injection Hsel as <-. destruct (taken_app _ _ _ Htaken) as [pre Hpre]. pose proof Hup as Hup0. rewrite Hpre in Hup. apply Forall_app in Hup as [_ Hup].
  destruct (continue_call _ _ _ _ _ _) as [[r s']|] eqn:Hc.
  - apply continue_call_spec in Hc as (Hid' & Hprep & Hnil & Hcl). split; cbn; rewrite ?Hid'; [lia| |done..|].
    + intros Hp. destruct (Hprep Hp) as [H|(b & -> & m & p & -> & Hk & Hd & H1 & H2 & H3)]; [by apply Hident|].
      cbn in Htaken. rewrite Htaken in Hup0. apply Forall_cons in Hup0 as [Hm _]. by eapply identity_from.
    + intros Hs. destruct (Hcl Hs) as [H|[reason ->]]; [apply (ended_later y); [by apply Hclosed|by eexists|done]|].
      exists reason, r. split; [cbn; apply elem_of_app; right; by left|]. intros Hr. exact (good_shutdown n reason id case up y Hinv Htaken Hcase (Hnil Hr)).
  - split; cbn; [lia|done..| |].
    + unfold pending in *. cbn. rewrite Hwait in Hpend. destruct c as [| |rl|]; [done..| |done].
      destruct Hpend as (-> & Hpos & Hcases). split; [done|]. split; [done|]. rewrite Hpre in Hcases.
      destruct Hcases as [(p & m & H1 & H2 & H3 & [_ H4]%Forall_app)|[(H1 & [_ H2]%Forall_app)|(H1 & [_ H2]%Forall_app)]];
        [left; by exists p, m|right; by left|right; by right].
    + intros Hs. apply (ended_later y); [by apply Hclosed|by eexists|done].
Qed.

Lemma wk_ok_give pc outcomes writes w : wk_ok pc w -> wk_ok pc (give outcomes writes w).
Proof. by destruct pc. Qed.

Lemma give_extends outcomes writes w : extends w (give outcomes writes w).
Proof. split; [exists []; by rewrite app_nil_r|done]. Qed.

(** What the worker read. *)
Definition read_input (input : worker_input) (down : list Message) (y : system) : Prop :=
  match input with
  | WItem (Ok m) => y_down y = m :: down
  | WItem (Err _) => y_down y = [] /\ down = []
  | _ => down = y_down y
  end.

Lemma pending_work N input down y y' w' :
  pending y -> read_input input down y -> stepped sha256 pid uid gid N input (give (ww_outcomes w') (ww_writes w') (y_worker y)) w' ->
  y_waiting y' = y_waiting y -> y_session y' = y_session y -> y_down y' = down -> y_up y' = y_up y ++ ww_sent w' -> y_worker y' = w' -> pending y'.
Proof.
  unfold pending. intros Hpend Hread [_ _ Hids Hquiet Hans] -> -> -> -> ->. destruct (y_waiting y) as [[c id]|]; [|done].
  destruct c as [| |r|]; [done..| |done]. destruct Hpend as (-> & Hpos & Hcase). split; [done|]. split; [done|]. set (id := ss_requestID _) in *.
  assert (Hlow : input_id input < id -> Forall (fun m => msg_RequestID m < id) (ww_sent w')) by (intros Hlt; apply (Forall_impl _ _ _ Hids); intros m [->| ->]; lia).
  destruct (quiet input) eqn:Hq.
  - assert (Hzero : input_id input = 0) by (by destruct input as [| |[|]]). rewrite Hzero in Hlow. specialize (Hlow ltac:(lia)).
    destruct Hcase as [(pre & m & Hdown & Hpre & Hreq & Hup)|[(Hdown & Hup)|(Hdown & Hup)]].
    + assert (Hd : down = y_down y) by (destruct input as [| |[|]]; [done..|destruct Hread as [Hnil _]; rewrite Hnil in Hdown; by destruct pre]).
      rewrite Hd. left. exists pre, m. split; [done|]. split; [done|]. split; [done|]. by apply Forall_app.
    + right; left. assert (Hd : down = []) by (destruct input as [| |[|]]; [by rewrite Hread..|done|by destruct Hread]). split; [done|]. apply Forall_app. split.
      * apply (Forall_impl _ _ _ Hup). intros m [?|(res & H1 & H2)]; [by left|]. right. exists res. rewrite Hquiet by done. done.
      * apply (Forall_impl _ _ _ Hlow). by left.
    + right; right. split; [|by apply Forall_app]. destruct input as [| |[|]]; [by rewrite Hread..|done|by destruct Hread as [_ ->]].
  - destruct input as [| |[m0|]]; [done..| |done]. cbn [read_input] in Hread.
    destruct Hcase as [(pre & m & Hdown & Hpre & Hreq & Hup)|[(Hdown & _)|(Hdown & Hup)]]; [|by rewrite Hread in Hdown|].
    2: { rewrite Hread in Hdown. apply Forall_cons in Hdown as [Hm0 Hdown]. right; right. split; [done|]. apply Forall_app. split; [done|by apply Hlow]. }
    rewrite Hread in Hdown. destruct pre as [|p pre]; injection Hdown as -> ->.
    + right; left. split; [done|]. apply Forall_app. split; [apply (Forall_impl _ _ _ Hup); by left|].
      apply (Forall_impl _ _ _ (Hans _ _ _ eq_refl Hreq)). intros m' [->|?]; [left; lia|by right].
    + left. apply Forall_cons in Hpre as [Hp Hpre]. exists pre, m. split; [done|]. split; [done|]. split; [done|]. apply Forall_app. split; [done|by apply Hlow].
Qed.

Lemma work_inv n input outcomes writes down y y' :
  inv n y -> Forall text_ok outcomes -> read_input input down y ->
  work sha256 pid uid gid input outcomes writes down y = Some y' -> inv (n + 1) y'.
Proof.
  intros [Hid Hident Hw Hup Hdown Hexit Hpend Hclosed] Ht Hread Hwork. unfold work in Hwork. destruct (y_exit y) eqn:Hex; [done|].
  destruct (ServeWorker _ _ _ _ _ _ _) as [[pc w']|] eqn:Hserve; [|done]. injection Hwork as <-.
  assert (Hdowns : Forall (fun m => 0 <= msg_RequestID m <= ss_requestID (y_session y)) down /\ 0 <= input_id input <= ss_requestID (y_session y)).
  { destruct input as [| |[m|]]; cbn in Hread; [by rewrite Hread; split; [|cbn; lia]..| |by destruct Hread as [_ ->]; split; [constructor|cbn; lia]].
    rewrite Hread in Hdown. apply Forall_cons in Hdown as [? ?]. done. }
  destruct Hdowns as [Hdowns Hin].
  eapply (ServeWorker_spec sha256 pid uid gid (ss_requestID (y_session y))) in Hserve as [Hst Hok]; [|lia|done|done|done|by apply wk_ok_give].
  assert (He : extends (y_worker y) w') by (transitivity (give outcomes writes (y_worker y)); [apply give_extends|apply Hst]).
  split; cbn; [lia|done|done| |done|done| |].
  - apply Forall_app. split; [|apply Hst]. apply (Forall_impl _ _ _ Hup). intros m. by apply up_ok_extends.
  - eapply (pending_work _ input down y); [done|done| |done..]. destruct Hst as [[Hc Hcl] ? ? ? ?]. split; [by split|done..].
  - intros Hcl. apply (ended_later y); [by apply Hclosed|exists []; by rewrite app_nil_r|done].
Qed.

Lemma is_nil_spec {A} (l : list A) : is_nil l = true -> l = [].
Proof. by destruct l. Qed.

(** A step is a call that starts, a case that a select takes, an input of the
    worker or the end of its process. *)
Lemma step_cases y ev y' :
  step y ev = Some y' ->
  (exists c o, ev = EvCall c o /\ y_waiting y = None /\ y' = start_call sha256 c o y) \/
  (exists case up, taken case up y /\ (forall st, case = ProcessExit st -> y_exit y = Some st) /\ select expectedPID identity case up y = Some y') \/
  (exists input outcomes writes down, ev = EvWorker input outcomes writes /\ read_input input down y /\
     work sha256 pid uid gid input outcomes writes down y = Some y') \/
  (exists st, (st = None -> y_pc y = Returned None) /\
     y' = MkSystem (y_session y) (y_waiting y) (y_down y) (y_down_broken y) (y_up y) (y_pc y) (y_worker y) (Some st) (y_results y)).
Proof.
  assert (Hall : forall up, up = y_up y -> exists pre, y_up y = pre ++ up) by (intros ? ->; by exists []).
  destruct ev as [c o| |e|e| |input outcomes writes|st]; cbn [system_step]; intros H.
  - destruct (y_waiting y) eqn:Hw; [done|]. injection H as <-. left. by exists c, o.
  - destruct (y_up y) as [|m up] eqn:Hu; [done|]. right; left. by exists (Item (Ok m)), up.
  - destruct (is_nil (y_up y)) eqn:Hn; [|done]. apply is_nil_spec in Hn. right; left. exists (Item (Err e)), []. split; [by apply Hall|done].
  - right; left. exists (CtxDone e), (y_up y). split; [by apply Hall|done].
  - destruct (y_exit y) as [st|] eqn:Hx; [|done]. right; left. exists (ProcessExit st), (y_up y). split; [by apply Hall|]. split; [by intros ? [= <-]|done].
  - right; right; left. destruct input as [b|e|[m|e]].
    + by exists (WContext b), outcomes, writes, (y_down y).
    + by exists (WRuntime e), outcomes, writes, (y_down y).
    + destruct (y_down y) as [|m' down] eqn:Hd; [done|]. case_bool_decide; [subst m'|done]. by exists (WItem (Ok m)), outcomes, writes, down.
    + destruct (is_nil (y_down y)) eqn:Hd; [|done]. apply is_nil_spec in Hd. by exists (WItem (Err e)), outcomes, writes, [].
  - right; right; right. destruct (y_exit y); [done|]. exists st. destruct st as [st|]; [by injection H as <-|].
    destruct (y_pc y) as [| | |[e|]] eqn:Hpc; try done. by injection H as <-.
Qed.

Lemma reach_inv n y : reach n y -> Z.of_nat n <= 2 ^ 64 - 1 -> inv (Z.of_nat n) y.
Proof.
  induction 1 as [|n y ev y' Hreach IH Hok Hstep]; intros Hn.
  { split; cbn; [lia|done|done|constructor|constructor|done..]. }
  specialize (IH ltac:(lia)). replace (Z.of_nat (S n)) with (Z.of_nat n + 1) by lia.
  apply step_cases in Hstep as [(c & o & -> & Hw & ->)|[(case & up & Ht & Hx & Hs)|[(input & outcomes & writes & down & -> & Hr & Hs)|(st & Hst & ->)]]].
  - apply start_call_inv; [done|lia|done|done].
  - by eapply select_inv.
  - by eapply work_inv.
  - destruct IH as [Hid Hident Hw Hup Hdown Hexit Hpend Hclosed]. split; cbn; [lia|done..| |done|done]. intros [= ->].
    rewrite (Hst eq_refl) in Hw. destruct Hw as (ce & Hcl & Hc). by rewrite Hcl, (Hc eq_refl).
Qed.

(** What a result [nil] of a call says. *)
Definition promised (c : call) (y : system) : Prop :=
  match c with
  | CBootstrap _ => identity_ok /\ prepared_by sha256 (y_worker y)
  | CCommit d => exists b, committed sha256 b (y_worker y) /\ bs_ConfigDigest b = d
  | CReload r => configuration (y_worker y) = Some (inr r) /\ y_down y = []
  | CShutdown _ => ss_closed (y_session y) = true /\ ww_closed (y_worker y) = Some None
  end.

Lemma good_case_promised n c id case up y y' :
  inv n y -> y_waiting y = Some (c, id) -> taken case up y -> (forall st, case = ProcessExit st -> y_exit y = Some st) ->
  good_case c id case -> y_worker y' = y_worker y -> y_down y' = y_down y -> (forall reason, c = CShutdown reason -> ss_closed (y_session y') = true) ->
  promised c y'.
Proof.
  intros Hinv Hwait Ht Hcase Hgood Hworker Hdown' Hend. pose proof Hinv as [Hid Hident Hw Hup Hdown Hexit Hpend Hclosed].
  assert (Hm : forall m, case = Item (Ok m) -> up_ok (ss_requestID (y_session y)) (y_worker y) m).
  { intros m ->. cbn in Ht. rewrite Ht in Hup. by apply Forall_cons in Hup as [? _]. }
  unfold promised. rewrite Hworker, Hdown'. destruct c as [b|d|r|reason]; cbn [good_case] in Hgood.
  - destruct Hgood as (m & p & -> & Hk & Hd & H1 & H2 & H3). specialize (Hm m eq_refl). split; [by eapply identity_from|].
    by destruct (up_prepared _ _ _ _ _ Hm Hk).
  - destruct Hgood as (m & -> & Hk & Hd). destruct (up_running _ _ _ _ _ (Hm m eq_refl) Hk) as (b & Hb & Hdec). exists b. split; [done|].
    rewrite Hdec in Hd. by injection Hd.
  - destruct Hgood as (m & res & -> & Hmid & Hd & Herr). unfold pending in Hpend. rewrite Hwait in Hpend. destruct Hpend as (-> & Hpos & Hcases).
    cbn in Ht. rewrite Ht in Hcases.
    destruct Hcases as [(pre & m' & _ & _ & _ & [Hlt _]%Forall_cons)|[(Hnil & [Hans _]%Forall_cons)|(_ & [Hlt _]%Forall_cons)]]; [lia| |lia].
    split; [|done]. destruct Hans as [Hlt|(res' & Hd' & Hconf)]; [lia|]. rewrite Hd in Hd'. injection Hd' as <-. by apply Hconf.
  - split; [by eapply Hend|]. exact (good_shutdown n reason id case up y Hinv Ht Hcase Hgood).
Qed.
End system.
