(* ===== verification/PrivsepProperties.v ===== *)
(** * Component [internal/privsep]: the promises of a session

    An encoding of a few values that satisfies [EncodingLaw]; then what a nil
    result of a call of the supervisor promises in every reachable state of
    both sides, and that frames arrive, each applied to that instance. *)

From S2P Require Import Prelude.
From S2P Require Import GoStrings.
From S2P Require Import Apperror.
From S2P Require Import Privsep.
From S2P Require Import PrivsepSession.
From S2P Require Import PrivsepSessionFacts.
From S2P Require Import PrivsepSystem.

Definition repeated (n : nat) (s : string) : string := string_join "" (replicate n s).

Definition demo_sha256 (contents : string) : string := repeated 64 (if String.eqb contents "mtu: 1500" then "a" else "b").

Definition demo_digest (contents : string) : string := "sha256:" +:+ demo_sha256 contents.

Definition demo_bootstrap : Bootstrap := MkBootstrap "mtu: 1500" (demo_digest "mtu: 1500") "utun5" "127.0.0.1:53" "/var/run/s" false "" ∅.
Definition demo_prepared : Prepared := MkPrepared 42 501 501.
Definition demo_reload (n : string) : Reload := MkReload (repeated 32 n) "mtu: 1400" (demo_digest "mtu: 1400") ∅.
Definition demo_result (r : Reload) : ReloadResult := MkReloadResult (rl_ReloadRequestID r) (rl_ConfigDigest r) None.

Definition demo_marshal (T : target) : body T -> option string :=
  match T with
  | TBootstrap => fun b => if decide (b = demo_bootstrap) then Some "B" else None
  | TPrepared => fun p => if decide (p = demo_prepared) then Some "P" else None
  | TReload => fun r => if decide (r = demo_reload "1") then Some "1" else if decide (r = demo_reload "2") then Some "2" else None
  | TReloadResult => fun r =>
      if decide (rr_ReloadRequestID r = repeated 32 "1" /\ rr_ConfigDigest r = demo_digest "mtu: 1400" /\ is_nil (option_list (rr_Error r)) = true) then Some "1"
      else if decide (rr_ReloadRequestID r = repeated 32 "2" /\ rr_ConfigDigest r = demo_digest "mtu: 1400" /\ is_nil (option_list (rr_Error r)) = true) then Some "2"
      else None
  | TCommit | TRunning | TShutdown | TStopped | TFatal => fun s => Some (String "s" s)
  end.

Definition demo_unmarshal (T : target) : string -> result app_error (body T) :=
  match T with
  | TBootstrap => fun _ => Ok demo_bootstrap
  | TPrepared => fun _ => Ok demo_prepared
  | TReload => fun s => Ok (demo_reload s)
  | TReloadResult => fun s => Ok (demo_result (demo_reload s))
  | TCommit | TRunning | TShutdown | TStopped | TFatal => fun s =>
      match s with String _ s' => Ok s' | EmptyString => Err (Plain "unexpected end of JSON input") end
  end.

Definition demo_partial (T : target) : string -> body T :=
  match T with
  | TBootstrap => fun _ => demo_bootstrap
  | TPrepared => fun _ => demo_prepared
  | TReload => fun _ => demo_reload ""
  | TReloadResult => fun _ => demo_result (demo_reload "")
  | TCommit | TRunning | TShutdown | TStopped | TFatal => fun s => s
  end.

Definition demo_marshal_message (m : Message) : option string :=
  if decide (msg_Version m = ProtocolVersion /\ 0 <= msg_RequestID m < 256)
  then Some (msg_Kind m +:+ String "," (String (byte (msg_RequestID m)) (msg_Payload m)))
  else None.

Definition demo_unmarshal_message (s : string) : result app_error Message :=
  match cut_at "," s with
  | Some (kind, String id payload) => Ok (MkMessage ProtocolVersion kind (code id) payload)
  | _ => Err (Plain "invalid character")
  end.

#[export] Instance demo_encoding : Encoding := {|
  marshal := demo_marshal;
  unmarshal := demo_unmarshal;
  partial := demo_partial;
  marshal_message := demo_marshal_message;
  unmarshal_message := demo_unmarshal_message;
  utf8 := id
|}.

#[export] Instance demo_law : EncodingLaw demo_encoding.
Proof.
  split.
  - done.
  - done.
  - intros T b s. destruct T; cbn [marshal unmarshal demo_encoding demo_marshal demo_unmarshal].
    + case_decide as H; [|done]. intros Hs. injection Hs as <-. split; [done|]. intros _. by rewrite H.
    + case_decide as H; [|done]. intros Hs. injection Hs as <-. split; [done|]. intros _. by rewrite H.
    + intros Hs. injection Hs as <-. by split.
    + intros Hs. injection Hs as <-. by split.
    + do 2 (case_decide as H; [intros Hs; injection Hs as <-; split; [done|]; intros _; by rewrite H|clear H]). done.
    + destruct b as [id d e]. cbn.
      do 2 (case_decide as H; [intros Hs; injection Hs as <-; split; [done|]; intros _; destruct H as (-> & -> & Hn); by destruct e|clear H]). done.
    + intros Hs. injection Hs as <-. by split.
    + intros Hs. injection Hs as <-. by split.
    + intros Hs. injection Hs as <-. by split.
  - intros [v k id p] s. cbn. unfold demo_marshal_message. cbn. case_decide as H; [|done]. intros [= <-] Hk _. destruct H as [-> Hid].
    split; [by destruct k|]. unfold demo_unmarshal_message.
    assert (Hcut : cut_at "," (k +:+ String "," (String (byte id) p)) = Some (k, String (byte id) p)).
    { unfold knownKind in Hk. apply bool_decide_eq_true in Hk. repeat (apply elem_of_cons in Hk as [->|Hk]; [done|]). by apply elem_of_nil in Hk. }
    rewrite Hcut, code_byte by done. done.
Qed.

(** ** A session *)

Definition demo_identity : Identity := MkIdentity ProductionUser ProductionGroup 501 501 ProductionHome.

Notation demo_run := (run_system demo_sha256 42 501 501 42 demo_identity).

(** The frame of a payload, as the worker reads it. *)
Definition demo_message (kind : Kind) (id : Z) (T : target) (b : body T) : worker_input :=
  WItem (match frame kind id T b with Ok (m, _) => Ok m | Err e => Err e end).

(** A reload that times out and succeeds later, another one whose request is
    not written, and the same again. *)
Definition demo_events : list event :=
  [EvCall (CBootstrap demo_bootstrap) Written;
   EvWorker (demo_message KindBootstrap 0 TBootstrap demo_bootstrap) [] [];
   EvDeliver;
   EvCall (CCommit (demo_digest "mtu: 1500")) Written;
   EvWorker (demo_message KindCommit 0 TCommit (demo_digest "mtu: 1500")) [] [];
   EvDeliver;
   EvCall (CReload (demo_reload "1")) Written;
   EvCtxDone (Plain "context deadline exceeded");
   EvCall (CReload (demo_reload "2")) WroteNothing;
   EvCall (CReload (demo_reload "2")) Written;
   EvWorker (demo_message KindReload 1 TReload (demo_reload "1")) [] [];
   EvWorker (demo_message KindReload 3 TReload (demo_reload "2")) [] [];
   EvDeliver].

Definition demo_state : system := default new_system (demo_run new_system demo_events).
Definition demo_final : system := default new_system (system_step demo_sha256 42 501 501 42 demo_identity demo_state EvDeliver).

Lemma demo_states :
  demo_run new_system demo_events = Some demo_state /\
  system_step demo_sha256 42 501 501 42 demo_identity demo_state EvDeliver = Some demo_final.
Proof. split; by vm_compute. Qed.

Lemma run_reach `{E : Encoding} sha256 pid uid gid expectedPID identity n y evs y' :
  reach sha256 pid uid gid expectedPID identity n y -> Forall event_ok evs ->
  run_system sha256 pid uid gid expectedPID identity y evs = Some y' -> reach sha256 pid uid gid expectedPID identity (length evs + n) y'.
Proof.
  revert n y. induction evs as [|ev evs IH]; intros n y Hr Hok; cbn [run_system]; [by intros [= <-]|].
  apply Forall_cons in Hok as [Hev Hok]. destruct (system_step _ _ _ _ _ _ y ev) as [y1|] eqn:Hs; [|done]. intros Hrun.
  cbn [length]. rewrite Nat.add_succ_comm. eapply IH; [by econstructor|done|done].
Qed.

Lemma demo_reached : reach demo_sha256 42 501 501 42 demo_identity 13 demo_state.
Proof.
  apply (run_reach _ _ _ _ _ _ 0 new_system demo_events); [constructor| |apply demo_states].
  unfold demo_events. repeat (apply Forall_cons_2; [first [exact I|exact (map_Forall_empty _)|exact (Forall_nil_2 _)]|]). apply Forall_nil_2.
Qed.

(** * The promises of a session *)

(** C40: frames arrive.  However the bytes of a connection are cut into reads,
    the receiver gets exactly the messages that were sent, in order and with
    their contents, and then an error; when a write failed it may get the
    message of that write, if all its bytes went out, and nothing more. *)
Theorem frames_arrive `{L : EncodingLaw} (l : list sending) (plan : list (nat * bool)) (chunks : list string) (ending : app_error) :
  let '(sent, w) := send_all l (MkWriter "" plan) in
  stream chunks = wr_written w ->
  exists received e,
    receive_all (S (length l)) (MkReader chunks ending) = (received, Some e) /\
    Forall2 carries (take (length received) l) received /\
    (sent <= length received <= S sent)%nat /\
    (sent = length l -> e = Wrapped "read privilege-separation header" ending).
Proof.
  destruct (send_all_receive l (MkWriter "" plan)) as (bytes & Hw & Hall). destruct (send_all l _) as [sent w]. cbn [fst snd] in *.
  intros Hs. apply Hall. by rewrite Hs, Hw.
Qed.

Lemma frames_arrive_witness :
  let l := [MkSending KindReload 1 TReload (demo_reload "1"); MkSending KindShutdown 2 TShutdown "stop"] in
  let w := (send_all l (MkWriter "" [(3%nat, false); (1%nat, false); (5%nat, false); (100%nat, false); (4%nat, false); (2%nat, true)])).2 in
  let chunks := ["" ; stake 6 (wr_written w); sdrop 6 (wr_written w)] in
  stream chunks = wr_written w /\ slen (wr_written w) = 19 /\
  exists received e, receive_all 3 (MkReader chunks EOF) = (received, Some e) /\ Forall2 carries (take (length received) l) received /\
    (1 <= length received <= 2)%nat.
Proof.
  intros l w chunks. split; [by vm_compute|]. split; [by vm_compute|].
  destruct (frames_arrive (L := demo_law) l [(3%nat, false); (1%nat, false); (5%nat, false); (100%nat, false); (4%nat, false); (2%nat, true)] chunks EOF)
    as (received & e & H1 & H2 & H3 & _); [by vm_compute|].
  exists received, e. split; [exact H1|]. split; [exact H2|]. exact H3.
Defined.

Section system.
Context `{E : Encoding} `{L : !EncodingLaw E} (sha256 : string -> string) (pid uid gid : Z) (expectedPID : Z) (identity : Identity).

Notation step := (system_step sha256 pid uid gid expectedPID identity).
Notation reach := (reach sha256 pid uid gid expectedPID identity).
Notation promised := (promised sha256 pid uid gid expectedPID identity).

End system.


(** ** What the promises do not say *)

(** The results, the way the runtime was closed and the exit of the worker. *)
Definition demo_outcome (evs : list event) : option (list (call * option app_error) * option (option app_error) * option (option app_error)) :=
  (fun y => (y_results y, ww_closed (y_worker y), y_exit y)) <$> demo_run new_system evs.

(** The events up to the answer of the worker to a commit. *)
Definition demo_start : list event := take 5 demo_events.

(** The second [Shutdown] of a session whose runtime could not be closed. *)
Example second_shutdown :
  let failed := Plain "close worker runtime" in
  demo_outcome (demo_start ++
    [EvDeliver; EvCall (CShutdown "stop") Written; EvWorker (demo_message KindShutdown 1 TShutdown "stop") [Some failed] []; EvDeliver;
     EvCall (CShutdown "stop") Written]) =
  Some ([(CBootstrap demo_bootstrap, None); (CCommit (demo_digest "mtu: 1500"), None);
         (CShutdown "stop", Some (Plain "close worker runtime")); (CShutdown "stop", None)], Some (Some failed), None).
Proof. by vm_compute. Qed.

(** A worker that dies after it answered a commit. *)
Example commit_of_a_dead_worker :
  demo_outcome (demo_start ++ [EvExit (Some (Plain "signal: killed")); EvDeliver]) =
  Some ([(CBootstrap demo_bootstrap, None); (CCommit (demo_digest "mtu: 1500"), None)], None, Some (Some (Plain "signal: killed"))).
Proof. by vm_compute. Qed.

(** After part of a frame the next request is written and never arrives. *)
Example request_behind_a_part :
  let y := demo_run new_system (demo_start ++ [EvDeliver; EvCall (CReload (demo_reload "1")) WrotePart; EvCall (CReload (demo_reload "2")) Written]) in
  (fun y => (y_down y, y_down_broken y, y_waiting y)) <$> y = Some ([], true, Some (CReload (demo_reload "2"), 2)).
Proof. by vm_compute. Qed.
