(* ===== verification/LaunchFiles.v ===== *)
(** * Component [internal/launchservice]: replacing and removing artifacts

    [files.go]: staging a file next to its target, activating it with a backup
    of what was there, taking that back, and removing artifacts by way of
    tombstones; with a model of the file system calls that it makes.  A call
    that fails has no effect, except that [Write] may write a part. *)

From S2P Require Import Prelude.
From S2P Require Import GoStrings.
From S2P Require Import GoFiles.
From S2P Require Import Apperror.

(** ** The machine *)

Record node : Type := MkNode {
  nd_kind : file_kind;
  nd_perm : Z;
  nd_uid : Z;
  nd_gid : Z;
  nd_data : string
}.

#[export] Instance node_eq_dec : EqDecision node.
Proof. solve_decision. Defined.

Notation files := (gmap string node).

(** What ends a wait between two polls. *)
Inductive wake : Type := Tick | Deadline | Cancelled.

(** The files with the outcomes of the next calls on them, the names that
    [CreateTemp] makes up, the user and the umask of the process, what the
    next waits see, and everything else. *)
Record machine (W : Type) : Type := MkMachine {
  mc_fs : files;
  mc_outcomes : list outcome;
  mc_names : list string;
  mc_uid : Z;
  mc_umask : Z;
  mc_wakes : list wake;
  mc_rest : W
}.
Arguments MkMachine {W} _ _ _ _ _ _ _.
Arguments mc_fs {W} _.
Arguments mc_outcomes {W} _.
Arguments mc_names {W} _.
Arguments mc_uid {W} _.
Arguments mc_umask {W} _.
Arguments mc_wakes {W} _.
Arguments mc_rest {W} _.

(** The errors that the code tells apart. *)
Inductive os_error : Type := ENOENT | EEXIST | ENOTEMPTY | EIO.

#[export] Instance os_error_eq_dec : EqDecision os_error.
Proof. solve_decision. Defined.

Definition os_text (e : os_error) : string :=
  match e with
  | ENOENT => "no such file or directory"
  | EEXIST => "file exists"
  | ENOTEMPTY => "directory not empty"
  | EIO => "input/output error"
  end.

Definition os_failure (e : os_error) : app_error := Plain (os_text e).

(** [fmt.Errorf] with [%w] on the error of a call. *)
Definition os_wrap (text : string) (e : os_error) : app_error := Wrapped text (os_failure e).

(** [errors.Join] of errors that may be nil. *)
Definition join (es : list (option app_error)) : option app_error :=
  match omap id es with [] => None | es => Some (join_errors es) end.

Section calls.
Context {W : Type}.

Notation C := (act (machine W) os_error).

Definition set_files (fs : files) (m : machine W) : machine W :=
  MkMachine fs (mc_outcomes m) (mc_names m) (mc_uid m) (mc_umask m) (mc_wakes m) (mc_rest m).

(** The outcome of the next call. *)
Definition next_call (m : machine W) : outcome * machine W :=
  match mc_outcomes m with
  | [] => (Fine, m)
  | o :: os => (o, MkMachine (mc_fs m) os (mc_names m) (mc_uid m) (mc_umask m) (mc_wakes m) (mc_rest m))
  end.

(** A call on the files. *)
Definition sys {A} (f : files -> result os_error (A * files)) : C A := fun m =>
  let '(o, m) := next_call m in
  if fails o then (Err EIO, m)
  else match f (mc_fs m) with Ok (a, fs) => (Ok a, set_files fs m) | Err e => (Err e, m) end.

Definition get_node (path : string) (fs : files) : result os_error node :=
  match fs !! path with Some n => Ok n | None => Err ENOENT end.

Definition Lstat (path : string) : C node := sys (fun fs => let! n := get_node path fs in Ok (n, fs)).

(** Calls that only may fail: [Sync], [Close]. *)
Definition plain : C unit := sys (fun fs => Ok (tt, fs)).

(** [Open] of an existing file. *)
Definition open_ (path : string) : C node := Lstat path.

Definition has_children (path : string) (fs : files) : bool :=
  existsb (fun '(p, _) => bool_decide (dir p = path) && negb (bool_decide (p = path))) (map_to_list fs).

Definition Remove (path : string) : C unit := sys (fun fs =>
  let! n := get_node path fs in
  fail_if bool_decide (nd_kind n = Directory) && has_children path fs with ENOTEMPTY in Ok (tt, delete path fs)).

Definition Rename (from to : string) : C unit := sys (fun fs =>
  let! n := get_node from fs in
  match fs !! to with
  | Some (MkNode Directory _ _ _ _) => Err EEXIST
  | _ => Ok (tt, <[to := n]> (delete from fs))
  end).

Definition with_perm (perm : Z) (n : node) : node := MkNode (nd_kind n) perm (nd_uid n) (nd_gid n) (nd_data n).
Definition with_owner (uid gid : Z) (n : node) : node := MkNode (nd_kind n) (nd_perm n) uid gid (nd_data n).
Definition with_data (data : string) (n : node) : node := MkNode (nd_kind n) (nd_perm n) (nd_uid n) (nd_gid n) data.

(** [Chmod] and [Chown]; they are called on files and directories, not on
    links. *)
Definition change_node (path : string) (f : node -> node) : C unit := sys (fun fs =>
  let! n := get_node path fs in Ok (tt, <[path := f n]> fs)).

Definition Chmod (path : string) (perm : Z) : C unit := change_node path (with_perm perm).
Definition Chown (path : string) (uid gid : Z) : C unit := change_node path (with_owner uid gid).

(** A new node gets the group of its directory. *)
Definition parent_gid (path : string) (fs : files) : Z :=
  match fs !! dir path with Some n => nd_gid n | None => 0 end.

Definition has_parent (path : string) (fs : files) : bool :=
  match fs !! dir path with Some n => negb (bool_decide (nd_kind n = Regular)) | None => false end.

Definition Mkdir (path : string) (perm : Z) : C unit := fun m =>
  sys (fun fs =>
    fail_if bool_decide (is_Some (fs !! path)) with EEXIST in
    fail_if negb (has_parent path fs) with ENOENT in
    Ok (tt, <[path := MkNode Directory (Z.ldiff perm (mc_umask m)) (mc_uid m) (parent_gid path fs) ""]> fs)) m.

(** [CreateTemp]: a new file with a made up name, the first that is not
    taken; a star ends the pattern. *)
Definition temp_path (directory pattern name : string) : string :=
  (if has_suffix directory "/" then directory else directory +:+ "/") +:+ pattern +:+ name.

Fixpoint fresh_path (directory pattern : string) (names : list string) (fs : files) : option (string * list string) :=
  match names with
  | [] => None
  | name :: names' =>
      let path := temp_path directory pattern name in
      if bool_decide (is_Some (fs !! path)) then fresh_path directory pattern names' fs else Some (path, names')
  end.

Definition CreateTemp (directory pattern : string) : C string := fun m =>
  match fresh_path directory pattern (mc_names m) (mc_fs m) with
  | None => (Err EEXIST, m)
  | Some (path, names) =>
      let m := MkMachine (mc_fs m) (mc_outcomes m) names (mc_uid m) (mc_umask m) (mc_wakes m) (mc_rest m) in
      sys (fun fs =>
        fail_if negb (has_parent path fs) with ENOENT in
        Ok (path, <[path := MkNode Regular mode_0600 (mc_uid m) (parent_gid path fs) ""]> fs)) m
  end.

(** [Write] of the whole contents to a file that is empty. *)
Definition Write (path contents : string) : C unit := fun m =>
  let '(o, m) := next_call m in
  let n := match o with Fails n => n | _ => String.length contents end in
  match mc_fs m !! path with
  | Some node => (if fails o then Err EIO else Ok tt, set_files (<[path := with_data (stake n contents) node]> (mc_fs m)) m)
  | None => (Err EIO, m)
  end.

(** [MkdirAll]: the ancestors first; links are followed. *)
Fixpoint MkdirAll_from (fuel : nat) (path : string) (perm : Z) : C unit :=
  match fuel with
  | O => act_fail EIO
  | S fuel' => fun m =>
      match Lstat path m with
      | (Ok n, m) => (match nd_kind n with Directory | Symlink => Ok tt | _ => Err EIO end, m)
      | (Err _, m) =>
          match (act! _ := (if bool_decide (dir path = path) then act_ret tt else MkdirAll_from fuel' (dir path) perm) in Mkdir path perm) m with
          | (Ok _, m) => (Ok tt, m)
          | (Err e, m) =>
              match Lstat path m with
              | (Ok n, m) => (if bool_decide (nd_kind n = Directory) then Ok tt else Err e, m)
              | (Err _, m) => (Err e, m)
              end
          end
      end
  end.

Definition MkdirAll (path : string) (perm : Z) : C unit := MkdirAll_from (S (String.length path)) path perm.
End calls.

(** ** Files of the service *)

Definition maxInstalledFileSize : Z := 512 * 1024 * 1024.
Definition mode_0755 : Z := 7 * 64 + 5 * 8 + 5.
Definition mode_0750 : Z := 7 * 64 + 5 * 8.
Definition mode_0700 : Z := 7 * 64.
Definition mode_0644 : Z := 6 * 64 + 4 * 8 + 4.

(** A clean absolute path. *)
Definition clean_absolute (path : string) : bool := is_abs path && bool_decide (clean path = path).

Section files.
Context {W : Type}.

Notation A := (act (machine W) app_error).
Notation C := (act (machine W) os_error).

(** Runs a clean-up before the error of [m] is returned; its own error is
    dropped. *)
Definition on_error {T} (m : A T) (cleanup : C unit) : A T := fun s =>
  match m s with
  | (Ok a, s) => (Ok a, s)
  | (Err e, s) => let '(_, s) := cleanup s in (Err e, s)
  end.

(** A call whose error is dropped. *)
Definition dropped {T} (m : C T) : C unit := fun s => let '(_, s) := m s in (Ok tt, s).

(** [syncDirectory] *)
Definition syncDirectory (path : string) : C unit :=
  act! _ := open_ path in
  act! _ := plain in
  dropped plain.

Definition ensureDirectory (path : string) (mode expectedUID : Z) : A unit :=
  stop_if negb (clean_absolute path) with Plain "directory must be a clean absolute path" in
  act! _ := act_wrap (os_wrap "create directory") (MkdirAll path mode) in
  act! info := act_wrap (os_wrap "inspect directory") (Lstat path) in
  stop_if negb (bool_decide (nd_kind info = Directory)) with Plain "service directory is not a real directory" in
  stop_if negb (nd_uid info =? expectedUID) with Plain "service directory is not owned by the expected UID" in
  act_wrap (os_wrap "chmod directory") (Chmod path mode).

(** [inspectSource]: the opened file; another file of that name in between
    is the failure of the last call. *)
Definition inspectSource (path : string) (maxSize : Z) : A node :=
  stop_if bool_decide (path = "") || negb (clean_absolute path) with Plain "source must be a clean absolute path" in
  act! info := act_wrap (os_wrap "inspect source") (Lstat path) in
  stop_if negb (bool_decide (nd_kind info = Regular)) with Plain "source is not a regular file" in
  stop_if maxSize <? slen (nd_data info) with Plain "source exceeds the limit" in
  act! opened := act_wrap (os_wrap "open source") (open_ path) in
  let close_on_error {T} (m : A T) := on_error m (dropped plain) in
  act! _ := close_on_error (act_wrap (os_wrap "inspect opened source") plain) in
  act! _ := close_on_error (act_wrap (fun _ => Plain "source changed while opening") plain) in
  act_ret opened.

(** The end of both stagings. *)
Definition seal_stage (path : string) (mode : Z) : A unit :=
  act! _ := act_wrap (os_wrap "chmod staged") (Chmod path mode) in
  act! _ := act_wrap (os_wrap "sync staged") plain in
  act_wrap (os_wrap "close staged") plain.

(** Closing and removing a stage that did not come about. *)
Definition drop_stage (path : string) : C unit :=
  act! _ := dropped plain in
  dropped (Remove path).

Definition stageContents (contents target : string) (mode : Z) : A string :=
  act! path := act_wrap (os_wrap "create staged file") (CreateTemp (dir target) ".tun-proxy-stage-") in
  act! _ := on_error (act! _ := act_wrap (os_wrap "write staged") (Write path contents) in seal_stage path mode) (drop_stage path) in
  act_ret path.

(** What [io.LimitReader] lets through. *)
Definition limited (n : Z) (s : string) : string := if slen s <=? n then s else stake (Z.to_nat n) s.

(** [stageCopy]: reading the source may fail as well. *)
Definition stageCopy (source target : string) (mode maxSize : Z) : A string :=
  act! sourceFile := inspectSource source maxSize in
  let closed {T} (m : A T) : A T := fun s => let '(r, s) := m s in let '(_, s) := plain (W := W) s in (r, s) in
  closed (
    act! path := act_wrap (os_wrap "create staged file") (CreateTemp (dir target) ".tun-proxy-stage-") in
    let contents := limited (maxSize + 1) (nd_data sourceFile) in
    act! _ := on_error (
      act! _ := act_wrap (os_wrap "stage") plain in
      act! _ := act_wrap (os_wrap "stage") (Write path contents) in
      stop_if maxSize <? slen contents with Plain "source exceeds the limit" in
      seal_stage path mode) (drop_stage path) in
    act_ret path).
(** ** Replacing an artifact *)

Record replacement : Type := MkReplacement { rp_target : string; rp_backup : option string; rp_active : bool }.

Definition restore_backup (backup : option string) (target : string) : C unit :=
  match backup with Some b => dropped (Rename b target) | None => act_ret tt end.

(** From the renaming of the stage on. *)
Definition activate (stage target : string) (backup : option string) : A replacement :=
  act! _ := on_error (act_wrap (os_wrap "activate") (Rename stage target)) (restore_backup backup target) in
  act! _ := on_error (act_wrap (os_wrap "sync activated") (syncDirectory (dir target)))
              (act! _ := dropped (Remove target) in restore_backup backup target) in
  act_ret (MkReplacement target backup true).

(** Moving the artifact away. *)
Definition make_backup (target : string) (info : node) : A string :=
  stop_if negb (bool_decide (nd_kind info = Regular)) with Plain "service artifact is not a regular file" in
  act! backup := act_wrap (os_wrap "reserve backup") (CreateTemp (dir target) ".tun-proxy-backup-") in
  act! _ := act_wrap os_failure plain in
  act! _ := act_wrap os_failure (Remove backup) in
  act! _ := act_wrap (os_wrap "backup") (Rename target backup) in
  act_ret backup.

Definition activateStage (stage target : string) (refuseExisting : bool) : A replacement := fun m =>
  match Lstat target m with
  | (Ok info, m) =>
      (stop_if refuseExisting with Plain "service artifact already exists" in
       act! backup := make_backup target info in
       activate stage target (Some backup)) m
  | (Err ENOENT, m) => activate stage target None m
  | (Err e, m) => (Err (os_wrap "inspect service artifact" e), m)
  end.

Definition error_of (r : result os_error unit) : option app_error := match r with Ok _ => None | Err e => Some (os_failure e) end.

(** [replacement.rollback]: the error, the variable and the machine. *)
Definition rollback_replacement (item : replacement) (m : machine W) : option app_error * replacement * machine W :=
  if negb (rp_active item) then (None, item, m)
  else
    let '(r1, m) := Remove (rp_target item) m in
    let f1 := match r1 with Err ENOENT => None | r => error_of r end in
    let '(f2, m) := (match rp_backup item with
                     | Some backup => let '(r, m) := Rename backup (rp_target item) m in (error_of r, m)
                     | None => (None, m)
                     end) in
    let '(r3, m) := syncDirectory (dir (rp_target item)) m in
    (join [f1; f2; error_of r3], MkReplacement (rp_target item) (rp_backup item) false, m).

(** [replacement.commit] *)
Definition commit_replacement (item : replacement) (m : machine W) : option app_error * replacement * machine W :=
  match rp_backup item with
  | None => (None, item, m)
  | Some backup =>
      let '(r, m) := (act! _ := Remove backup in syncDirectory (dir (rp_target item))) m in
      (error_of r, MkReplacement (rp_target item) None (rp_active item), m)
  end.

(** ** Removing an artifact *)

Record removal : Type := MkRemoval { rm_target : string; rm_tombstone : string; rm_active : bool }.

Definition stageRemoval (target : string) : A removal := fun m =>
  match Lstat target m with
  | (Err ENOENT, m) => (Ok (MkRemoval target "" false), m)
  | (Err e, m) => (Err (os_wrap "inspect service artifact" e), m)
  | (Ok info, m) =>
      (stop_if negb (bool_decide (nd_kind info = Regular)) with Plain "refuse to remove non-regular service artifact" in
       act! tombstone := act_wrap (os_wrap "reserve removal tombstone") (CreateTemp (dir target) ".tun-proxy-remove-") in
       act! _ := act_wrap (os_wrap "close removal tombstone") plain in
       act! _ := act_wrap (os_wrap "prepare removal tombstone") (Remove tombstone) in
       act! _ := act_wrap (os_wrap "stage removal") (Rename target tombstone) in
       act! _ := on_error (act_wrap (os_wrap "sync staged removal") (syncDirectory (dir target))) (dropped (Rename tombstone target)) in
       act_ret (MkRemoval target tombstone true)) m
  end.

(** [removal.rollback] *)
Definition rollback_removal (item : removal) (m : machine W) : option app_error * removal * machine W :=
  if negb (rm_active item) then (None, item, m)
  else
    match Rename (rm_tombstone item) (rm_target item) m with
    | (Err e, m) => (Some (os_wrap "restore removed service artifact" e), item, m)
    | (Ok _, m) => let '(r, m) := syncDirectory (dir (rm_target item)) m in (error_of r, MkRemoval (rm_target item) (rm_tombstone item) false, m)
    end.

(** [removal.commit] *)
Definition commit_removal (item : removal) (m : machine W) : option app_error * removal * machine W :=
  if negb (rm_active item) then (None, item, m)
  else
    match Remove (rm_tombstone item) m with
    | (Err e, m) => (Some (os_wrap "delete removed service artifact" e), item, m)
    | (Ok _, m) => let '(r, m) := syncDirectory (dir (rm_target item)) m in (error_of r, MkRemoval (rm_target item) (rm_tombstone item) false, m)
    end.

(** Undoing or completing a list of items, one after the other. *)
Fixpoint each {T} (f : T -> machine W -> option app_error * T * machine W) (items : list T) (m : machine W)
    : list (option app_error) * machine W :=
  match items with
  | [] => ([], m)
  | item :: items' => let '(e, _, m) := f item m in let '(es, m) := each f items' m in (e :: es, m)
  end.

(** [commitRemovals] *)
Definition commitRemovals (removals : list removal) (m : machine W) : option app_error * machine W :=
  let '(es, m) := each commit_removal removals m in (join es, m).
End files.
