(* ===== verification/LaunchStorage.v ===== *)
(** * Component [internal/launchservice]: the storage of the worker

    [storage.go]: giving the directories and files of the worker to its
    account, with a record of what they were, and taking that back.  Also the
    commands that [manager.go] runs, with their time limits. *)

From S2P Require Import Prelude.
From S2P Require Import GoStrings.
From S2P Require Import GoFiles.
From S2P Require Import Outbound.
From S2P Require Import Apperror.
From S2P Require Import Privsep.
From S2P Require Import LaunchLayout.
From S2P Require Import LaunchFiles.

(** What a path was before: created by the transaction, or its owner and
    mode. *)
Record metadataSnapshot : Type := MkSnapshot {
  ms_path : string;
  ms_uid : Z;
  ms_gid : Z;
  ms_mode : Z;
  ms_created : bool;
  ms_dir : bool
}.

Record storageTransaction : Type := MkStorage {
  sg_changes : list metadataSnapshot;
  sg_absentFiles : list string;
  sg_workerUID : Z;
  sg_workerGID : Z;
  sg_active : bool
}.

Definition add_change (c : metadataSnapshot) (t : storageTransaction) : storageTransaction :=
  MkStorage (sg_changes t ++ [c]) (sg_absentFiles t) (sg_workerUID t) (sg_workerGID t) (sg_active t).

Definition add_absent (path : string) (t : storageTransaction) : storageTransaction :=
  MkStorage (sg_changes t) (sg_absentFiles t ++ [path]) (sg_workerUID t) (sg_workerGID t) (sg_active t).

Definition validateWorkerIdentity (layout : Layout) (identity : Identity) : result app_error unit :=
  fail_if negb (bool_decide (id_User identity = ly_WorkerUser layout)) || negb (bool_decide (id_Group identity = ly_WorkerGroup layout))
          || (id_UID identity =? 0) || (id_GID identity =? 0)
    with Plain "invalid managed worker identity" in
  Ok tt.

Section storage.
Context {W : Type}.

Notation A := (act (machine W) app_error).
Notation C := (act (machine W) os_error).

(** Giving a path to the worker. *)
Definition give (t : storageTransaction) (path : string) (mode : Z) : A unit :=
  act! _ := act_wrap (os_wrap "chown worker storage") (Chown path (sg_workerUID t) (sg_workerGID t)) in
  act_wrap (os_wrap "chmod worker storage") (Chmod path mode).

(** A step of the transaction: its record is kept when it fails. *)
Definition step : Type := storageTransaction -> machine W -> option app_error * storageTransaction * machine W.

Definition giving (t : storageTransaction) (path : string) (mode : Z) (m : machine W) : option app_error * storageTransaction * machine W :=
  let '(r, m) := give t path mode m in (match r with Ok _ => None | Err e => Some e end, t, m).

Definition prepareDirectory (path : string) (mode rootUID : Z) : step := fun t m =>
  if negb (clean_absolute path) then (Some (Plain "worker directory must be a clean absolute path"), t, m)
  else
    match Lstat path m with
    | (Err ENOENT, m) =>
        match Mkdir path mode m with
        | (Err e, m) => (Some (os_wrap "create worker directory" e), t, m)
        | (Ok _, m) => giving (add_change (MkSnapshot path 0 0 0 true true) t) path mode m
        end
    | (Err e, m) => (Some (os_wrap "inspect worker directory" e), t, m)
    | (Ok info, m) =>
        if negb (bool_decide (nd_kind info = Directory)) then (Some (Plain "worker directory is not a real directory"), t, m)
        else if negb (nd_uid info =? rootUID) && negb (nd_uid info =? sg_workerUID t) then (Some (Plain "refuse to migrate worker directory"), t, m)
        else giving (add_change (MkSnapshot path (nd_uid info) (nd_gid info) (nd_perm info) false true) t) path mode m
    end.

Definition prepareOptionalFile (path : string) (mode rootUID : Z) : step := fun t m =>
  match Lstat path m with
  | (Err ENOENT, m) => (None, add_absent path t, m)
  | (Err e, m) => (Some (os_wrap "inspect worker persistence" e), t, m)
  | (Ok info, m) =>
      if negb (bool_decide (nd_kind info = Regular)) then (Some (Plain "worker persistence is not a regular file"), t, m)
      else if negb (nd_uid info =? rootUID) && negb (nd_uid info =? sg_workerUID t) then (Some (Plain "refuse to migrate worker persistence"), t, m)
      else giving (add_change (MkSnapshot path (nd_uid info) (nd_gid info) (nd_perm info) false false) t) path mode m
  end.

Fixpoint steps (l : list step) : step := fun t m =>
  match l with
  | [] => (None, t, m)
  | s :: l' =>
      match s t m with
      | (None, t, m) => steps l' t m
      | r => r
      end
  end.

(** ** Rolling back *)

Definition forget_absent (t : storageTransaction) (path : string) (m : machine W) : option app_error * machine W :=
  match Lstat path m with
  | (Err ENOENT, m) => (None, m)
  | (Err e, m) => (Some (os_wrap "inspect new worker persistence during rollback" e), m)
  | (Ok info, m) =>
      if negb (bool_decide (nd_kind info = Regular)) || negb (nd_uid info =? sg_workerUID t) || negb (nd_gid info =? sg_workerGID t)
      then (Some (Plain "refuse to remove unrecognized worker persistence during rollback"), m)
      else
        match Remove path m with
        | (Err e, m) => (Some (os_wrap "remove new worker persistence during rollback" e), m)
        | (Ok _, m) => (None, m)
        end
  end.

Definition undo_change (c : metadataSnapshot) (m : machine W) : option app_error * machine W :=
  if ms_created c then
    match Remove (ms_path c) m with
    | (Ok _, m) | (Err ENOENT, m) => (None, m)
    | (Err e, m) => (Some (os_wrap "remove created worker directory during rollback" e), m)
    end
  else
    match Chown (ms_path c) (ms_uid c) (ms_gid c) m with
    | (Err e, m) => (Some (os_wrap "restore owner" e), m)
    | (Ok _, m) =>
        match Chmod (ms_path c) (ms_mode c) m with
        | (Err e, m) => (Some (os_wrap "restore mode" e), m)
        | (Ok _, m) => (None, m)
        end
    end.

Fixpoint all_of {T} (f : T -> machine W -> option app_error * machine W) (l : list T) (m : machine W) : list (option app_error) * machine W :=
  match l with
  | [] => ([], m)
  | x :: l' => let '(e, m) := f x m in let '(es, m) := all_of f l' m in (e :: es, m)
  end.

(** [storageTransaction.rollback] *)
Definition rollback_storage (t : storageTransaction) (m : machine W) : option app_error * machine W :=
  if negb (sg_active t) then (None, m)
  else
    let '(f1, m) := all_of (forget_absent t) (sg_absentFiles t) m in
    let '(f2, m) := all_of undo_change (rev (sg_changes t)) m in
    (join (f1 ++ f2), m).

Definition prepareWorkerStorage (layout : Layout) (rootUID : Z) (identity : Identity) : A storageTransaction := fun m =>
  (act! _ := act_of (map_err layout_failure (Layout_Validate layout)) in
   act! _ := act_of (validateWorkerIdentity layout identity) in
   fun m =>
     match steps [prepareDirectory (ly_WorkerDir layout) mode_0700 rootUID; prepareDirectory (ly_DataDir layout) mode_0700 rootUID;
                  prepareOptionalFile (ly_FakeIPv4 layout) mode_0600 rootUID; prepareOptionalFile (ly_FakeIPv6 layout) mode_0600 rootUID]
             (MkStorage [] [] (id_UID identity) (id_GID identity) true) m with
     | (None, t, m) => (Ok t, m)
     | (Some e, t, m) => let '(e', m) := rollback_storage t m in (Err (join_errors (e :: match e' with Some e' => [e'] | None => [] end)), m)
     end) m.

(** ** Checks *)

Definition owned_by (identity : Identity) (mode : Z) (info : node) : bool :=
  (nd_uid info =? id_UID identity) && (nd_gid info =? id_GID identity) && (nd_perm info =? mode).

Definition validateWorkerDirectory (path : string) (mode : Z) (identity : Identity) : A unit :=
  act! info := act_wrap (os_wrap "inspect worker storage") (Lstat path) in
  stop_if negb (bool_decide (nd_kind info = Directory)) with Plain "worker storage has unsafe file type" in
  stop_if negb (owned_by identity mode info) with Plain "worker storage has another owner or mode" in
  act_ret tt.

(** One entry of the table of [validateWorkerStorage]. *)
Definition validate_entry (path : string) (mode : Z) (is_dir : bool) (identity : Identity) : A unit := fun m =>
  match Lstat path m with
  | (Err ENOENT, m) => (if is_dir then Err (os_wrap "inspect worker storage" ENOENT) else Ok tt, m)
  | (Err e, m) => (Err (os_wrap "inspect worker storage" e), m)
  | (Ok info, m) =>
      (stop_if negb (bool_decide (nd_kind info = if is_dir then Directory else Regular)) with Plain "worker storage has unsafe file type" in
       stop_if negb (owned_by identity mode info) with Plain "worker storage has another owner or mode" in
       act_ret tt) m
  end.

Definition validateWorkerStorage (layout : Layout) (identity : Identity) : A unit :=
  act! _ := act_of (map_err layout_failure (Layout_Validate layout)) in
  act! _ := validateWorkerDirectory (ly_WorkerDir layout) mode_0700 identity in
  act! _ := (if bool_decide (ly_DataDir layout = ly_WorkerDir layout) then validateWorkerDirectory (ly_DataDir layout) mode_0700 identity
             else validate_entry (ly_DataDir layout) mode_0700 true identity) in
  act! _ := validate_entry (ly_FakeIPv4 layout) mode_0600 false identity in
  validate_entry (ly_FakeIPv6 layout) mode_0600 false identity.

(** ** The runtime directory after a reboot *)

Definition PrepareSupervisorRuntime (layout : Layout) (expectedUID : Z) : A unit :=
  act! _ := act_of (map_err layout_failure (Layout_Validate layout)) in
  ensureDirectory (ly_RuntimeDir layout) mode_0755 expectedUID.

Definition PrepareRuntimeDirectories (layout : Layout) (expectedUID : Z) : A unit :=
  act! _ := act_of (map_err layout_failure (Layout_Validate layout)) in
  act! _ := ensureDirectory (ly_RuntimeDir layout) mode_0755 expectedUID in
  ensureDirectory (ly_DataDir layout) mode_0700 expectedUID.

(** A directory that was created and could not be handed over is removed; an
    error of that is joined. *)
Definition remove_incomplete (path : string) (e : app_error) (m : machine W) : app_error * machine W :=
  match Remove path m with
  | (Ok _, m) | (Err ENOENT, m) => (e, m)
  | (Err e', m) => (join_errors [e; os_wrap "remove incomplete worker runtime" e'], m)
  end.

Definition PrepareEphemeralWorkerRuntime (layout : Layout) (rootUID : Z) (identity : Identity) : A unit :=
  let path := ly_WorkerDir layout in
  act! _ := act_of (map_err layout_failure (Layout_Validate layout)) in
  act! _ := act_of (validateWorkerIdentity layout identity) in
  act! _ := ensureDirectory (ly_RuntimeDir layout) mode_0755 rootUID in
  fun m =>
    match Lstat path m with
    | (Ok _, m) => validateWorkerDirectory path mode_0700 identity m
    | (Err ENOENT, m) =>
        match Mkdir path mode_0700 m with
        | (Err EEXIST, m) => validateWorkerDirectory path mode_0700 identity m
        | (Err e, m) => (Err (os_wrap "create worker runtime" e), m)
        | (Ok _, m) =>
            match (act! _ := act_wrap (os_wrap "chown worker runtime") (Chown path (id_UID identity) (id_GID identity)) in
                   act! _ := act_wrap (os_wrap "chmod worker runtime") (Chmod path mode_0700) in
                   validateWorkerDirectory path mode_0700 identity) m with
            | (Ok _, m) => (Ok tt, m)
            | (Err e, m) => let '(e, m) := remove_incomplete path e m in (Err e, m)
            end
        end
    | (Err e, m) => (Err (os_wrap "inspect worker runtime" e), m)
    end.
End storage.

(** * The runner of commands *)

(** ** Words and numbers *)

(** Whether a space begins here. *)
Definition at_space (s : string) : bool := negb (bool_decide (trim_left s = s)).

(** The word at the start, and the rest. *)
Fixpoint take_word (s : string) : string * string :=
  match s with
  | "" => ("", "")
  | String c s' => if at_space s then ("", s) else let '(w, rest) := take_word s' in (String c w, rest)
  end.

Fixpoint fields_from (fuel : nat) (s : string) : list string :=
  match fuel with
  | O => []
  | S fuel' =>
      let s := trim_left s in
      if bool_decide (s = "") then [] else let '(w, rest) := take_word s in w :: fields_from fuel' rest
  end.

(** [strings.Fields] *)
Definition fields (s : string) : list string := fields_from (S (String.length s)) s.

(** [strconv.ParseInt] for base 10 and 64 bits. *)
Definition parse_int (s : string) : option Z :=
  match s with
  | String "-" s' => match parse_uint 64 s' with Some v => if v <=? 2 ^ 63 then Some (- v) else None | None => None end
  | String "+" s' | s' => match parse_uint 64 s' with Some v => if v <? 2 ^ 63 then Some v else None | None => None end
  end.

(** ** The output *)

Definition launchctlPath : string := "/bin/launchctl".
Definition maxCommandOutput : Z := 65536.

Record limitedBuffer : Type := MkBuffer { lb_buffer : string; lb_remaining : Z; lb_truncated : bool }.

(** [limitedBuffer.Write] *)
Definition buffer_write (output : limitedBuffer) (contents : string) : limitedBuffer :=
  let available := lb_remaining output in
  let kept := if slen contents >? available then stake (Z.to_nat available) contents else contents in
  let '(buffer, remaining) := (if 0 <? available then (lb_buffer output +:+ kept, available - slen kept) else (lb_buffer output, available)) in
  MkBuffer buffer remaining (lb_truncated output || (slen contents >? available)).

(** [limitedBuffer.String] *)
Definition buffer_text (output : limitedBuffer) : string :=
  lb_buffer output +:+ (if lb_truncated output then String "010" "[output truncated]" else "").

Definition new_buffer : limitedBuffer := MkBuffer "" maxCommandOutput false.

(** ** The runner *)

(** An error of [Run], and whether [errors.Is] finds [errJobNotLoaded]. *)
Record run_error : Type := MkRunError { re_notLoaded : bool; re_error : app_error }.

Definition runner (S : Type) : Type := string -> list string -> act S run_error string.

(** [nativeRunner.Run]: [exec] runs the command and returns the chunks that it
    wrote, and its error. *)
Definition nativeRunner {S} (exec : string -> list string -> S -> (list string * option app_error) * S) : runner S :=
  fun executable args s =>
    let '((chunks, err), s) := exec executable args s in
    let output := foldl buffer_write new_buffer chunks in
    match err with
    | None => (Ok (lb_buffer output), s)
    | Some e =>
        let message := trim_space (buffer_text output) in
        (Err (if (match args with "print" :: _ => true | _ => false end)
                 && (contains message "Could not find service" || contains message "service not found")
              then MkRunError true (Wrapped message (Plain "launchd job is not loaded"))
              else MkRunError false (Wrapped executable e)), s)
    end.

(** ** The output stays within its limit *)

(** What a buffer with a limit holds after [all] was written to it. *)
Definition holds_output (limit : Z) (b : limitedBuffer) (all : string) : Prop :=
  lb_buffer b = stake (Z.to_nat limit) all /\ lb_remaining b = Z.max 0 (limit - slen all) /\ lb_truncated b = (limit <? slen all).

Lemma slen_app s t : slen (s +:+ t) = slen s + slen t.
Proof. unfold slen. rewrite sapp_length. lia. Qed.

Lemma slen_stake n s : slen (stake n s) = Z.min (Z.of_nat n) (slen s).
Proof.
  unfold slen. revert s. induction n as [|n IH]; intros [|c s]; cbn [stake String.length]; [lia..|]. specialize (IH s). lia.
Qed.

Lemma stake_full n s : (String.length s <= n)%nat -> stake n s = s.
Proof. intros H. pose proof (proj1 (stake_app_ge n s "" H)) as Hs. rewrite sapp_nil_r in Hs. rewrite Hs. by destruct (n - _)%nat; rewrite sapp_nil_r. Qed.

Lemma buffer_write_all limit b all chunk : 0 <= limit -> holds_output limit b all -> holds_output limit (buffer_write b chunk) (all +:+ chunk).
Proof.
  intros Hl (Hb & Hr & Ht). unfold buffer_write, holds_output. rewrite slen_app, Hr, Hb, Ht. pose proof (Nat2Z.is_nonneg (String.length chunk)) as Hc.
  fold (slen chunk) in Hc. destruct (Z.ltb_spec 0 (Z.max 0 (limit - slen all))) as [Ha|Ha]; cbn [lb_buffer lb_remaining lb_truncated].
  - replace (Z.max 0 (limit - slen all)) with (limit - slen all) by lia.
    assert (Hn : (String.length all <= Z.to_nat limit)%nat) by (unfold slen in *; lia).
    rewrite (stake_full (Z.to_nat limit) all Hn), (proj1 (stake_app_ge (Z.to_nat limit) all chunk Hn)).
    replace (Z.to_nat limit - String.length all)%nat with (Z.to_nat (limit - slen all)) by (unfold slen; lia).
    destruct (Z.gtb_spec (slen chunk) (limit - slen all)) as [Hg|Hg].
    + split; [done|]. rewrite slen_stake. split; [lia|]. lia.
    + rewrite (stake_full _ chunk) by (unfold slen in *; lia). split; [done|]. split; lia.
  - assert (Hn : (Z.to_nat limit <= String.length all)%nat) by (unfold slen in *; lia).
    rewrite (proj1 (stake_app_le (Z.to_nat limit) all chunk Hn)). split; [done|]. split; [lia|]. lia.
Qed.

Lemma new_buffer_holds : holds_output maxCommandOutput new_buffer "".
Proof. done. Qed.

Lemma foldl_holds limit chunks b all : 0 <= limit -> holds_output limit b all ->
  holds_output limit (foldl buffer_write b chunks) (all +:+ string_join "" chunks).
Proof.
  intros Hl. revert b all. induction chunks as [|c chunks IH]; intros b all Hb; cbn [foldl]; [by rewrite sapp_nil_r|].
  replace (string_join "" (c :: chunks)) with (c +:+ string_join "" chunks).
  - rewrite sapp_assoc. by apply IH, buffer_write_all.
  - destruct chunks; [by rewrite sapp_nil_r|done].
Qed.

(** The runner keeps the first 64 KiB of the output, however it was cut. *)
Lemma native_output {S} (exec : string -> list string -> S -> (list string * option app_error) * S) executable args s chunks s' :
  exec executable args s = ((chunks, None), s') ->
  nativeRunner exec executable args s = (Ok (stake (Z.to_nat maxCommandOutput) (string_join "" chunks)), s').
Proof.
  intros He. unfold nativeRunner. rewrite He. destruct (foldl_holds maxCommandOutput chunks new_buffer "" ltac:(done) new_buffer_holds) as (Hb & _).
  by rewrite Hb.
Qed.
