(* ===== verification/LaunchAccounts.v ===== *)
(** * Component [internal/launchservice]: the account of the worker

    [account.go]: creating, recognizing, purging and restoring the dedicated
    user and group, over a store of accounts; and that store on [dscl].  Over every
    store that keeps its contract, the account is the worker's own. *)

From stdpp Require Import pretty.
From S2P Require Import Prelude.
From S2P Require Import GoStrings.
From S2P Require Import Apperror.
From S2P Require Import Privsep.
From S2P Require Import LaunchStorage.
From S2P Require Import PrivsepSessionFacts.

Definition dsclPath : string := "/usr/bin/dscl".
Definition workerAccountMarker : string := "cn.notfound945.tun-proxy".
Definition workerAccountName : string := "tun-proxy service worker".
Definition workerAccountShell : string := "/usr/bin/false".
Definition workerIDMinimum : Z := 401.
Definition workerIDMaximum : Z := 499.
Definition workerPasswordMarker : string := "*".

Record accountUser : Type := MkUser {
  au_Name : string;
  au_UID : Z;
  au_GID : Z;
  au_Home : string;
  au_Shell : string;
  au_Password : string;
  au_Comment : string
}.

Record accountGroup : Type := MkGroup {
  ag_Name : string;
  ag_GID : Z;
  ag_Password : string;
  ag_Comment : string
}.

(** [accountStore]; a record that does not exist is [None]. *)
Record accountStore (S : Type) : Type := MkStore {
  LookupUser : string -> act S app_error (option accountUser);
  LookupGroup : string -> act S app_error (option accountGroup);
  UsedIDs : act S app_error (gset Z);
  CreateGroup : accountGroup -> act S app_error unit;
  CreateUser : accountUser -> act S app_error unit;
  DeleteUser : string -> act S app_error unit;
  DeleteGroup : string -> act S app_error unit
}.
Arguments LookupUser {S} _ _.
Arguments LookupGroup {S} _ _.
Arguments UsedIDs {S} _.
Arguments CreateGroup {S} _ _.
Arguments CreateUser {S} _ _.
Arguments DeleteUser {S} _ _.
Arguments DeleteGroup {S} _ _.

(** ** Recognizing *)

Definition account_failures (user : accountUser) (group : accountGroup) : list app_error :=
  failing (negb (bool_decide (au_Name user = ProductionUser))) "worker user has another name"
  ++ failing (negb (bool_decide (ag_Name group = ProductionGroup))) "worker group has another name"
  ++ failing ((au_UID user <? workerIDMinimum) || (workerIDMaximum <? au_UID user) || (au_GID user =? 0)) "worker uid or gid is outside the dedicated system range"
  ++ failing (negb (au_GID user =? ag_GID group)) "worker primary GID does not match group GID"
  ++ failing (negb (bool_decide (au_Home user = ProductionHome))) "worker home is another"
  ++ failing (negb (bool_decide (au_Shell user = workerAccountShell))) "worker shell is another"
  ++ failing (negb (bool_decide (au_Password user = workerPasswordMarker)) || negb (bool_decide (ag_Password group = workerPasswordMarker)))
       "worker user and group must have disabled password markers"
  ++ failing (negb (bool_decide (au_Comment user = workerAccountMarker)) || negb (bool_decide (ag_Comment group = workerAccountMarker)))
       "worker user and group lack the tun-proxy ownership marker".

Definition validateDedicatedAccount (user : accountUser) (group : accountGroup) : result app_error Identity :=
  let! _ := joined (account_failures user group) in
  Ok (MkIdentity (au_Name user) (ag_Name group) (au_UID user) (au_GID user) (au_Home user)).

Definition accountRecordsForIdentity (identity : Identity) : result app_error (accountUser * accountGroup) :=
  let user := MkUser (id_User identity) (id_UID identity) (id_GID identity) (id_Home identity) workerAccountShell workerPasswordMarker workerAccountMarker in
  let group := MkGroup (id_Group identity) (id_GID identity) workerPasswordMarker workerAccountMarker in
  let! _ := map_err (Wrapped "invalid worker identity restoration") (validateDedicatedAccount user group) in
  Ok (user, group).

(** [allocateWorkerID]: the loop counts down over unsigned numbers. *)
Fixpoint allocate_from (n : nat) (candidate : Z) (used : gset Z) : option Z :=
  match n with
  | O => None
  | S n' => if bool_decide (candidate ∈ used) then allocate_from n' (candidate - 1) used else Some candidate
  end.

Definition allocateWorkerID (used : gset Z) : result app_error Z :=
  match allocate_from (Z.to_nat (workerIDMaximum - workerIDMinimum + 1)) workerIDMaximum used with
  | Some id => Ok id
  | None => Err (Plain "no unused worker UID/GID")
  end.

(** ** The life of the account *)

Section accounts.
Context {S : Type} (store : accountStore S).

Notation A := (act S app_error).

(** A deferred call whose error is joined to that of [m]. *)
Definition joining {T} (m : A T) (cleanup : A unit) : A T := fun s =>
  match m s with
  | (Ok a, s) => (Ok a, s)
  | (Err e, s) => let '(r, s) := cleanup s in (Err (join_errors (e :: match r with Ok _ => [] | Err e' => [e'] end)), s)
  end.

(** Both records. *)
Definition lookup_both (user group : string) : A (option accountUser * option accountGroup) :=
  act! u := LookupUser store user in
  act! g := LookupGroup store group in
  act_ret (u, g).

Definition Resolve : A Identity :=
  act! both := lookup_both ProductionUser ProductionGroup in
  match both with
  | (Some user, Some group) => act_of (validateDedicatedAccount user group)
  | _ => act_fail (Plain "dedicated worker identity is incomplete")
  end.

Definition new_group (id : Z) : accountGroup := MkGroup ProductionGroup id workerPasswordMarker workerAccountMarker.
Definition new_user (id : Z) : accountUser :=
  MkUser ProductionUser id id ProductionHome workerAccountShell workerPasswordMarker workerAccountMarker.

(** The identity, and whether it was created. *)
Definition Ensure : A (Identity * bool) :=
  act! both := lookup_both ProductionUser ProductionGroup in
  match both with
  | (Some user, Some group) => act! identity := act_of (validateDedicatedAccount user group) in act_ret (identity, false)
  | (None, None) =>
      act! used := UsedIDs store in
      act! id := act_of (allocateWorkerID used) in
      act! _ := act_wrap (Wrapped "create dedicated worker group") (CreateGroup store (new_group id)) in
      joining (
        act! _ := act_wrap (Wrapped "create dedicated worker user") (CreateUser store (new_user id)) in
        joining (
          act! identity := act_wrap (Wrapped "validate created worker identity") Resolve in
          act_ret (identity, true)) (DeleteUser store ProductionUser)) (DeleteGroup store ProductionGroup)
  | _ => act_fail (Plain "refuse incomplete dedicated worker identity")
  end.

Definition Purge : A unit :=
  act! both := lookup_both ProductionUser ProductionGroup in
  match both with
  | (None, None) => act_ret tt
  | (Some user, Some group) =>
      act! _ := act_of (map_err (Wrapped "refuse to purge unrecognized worker identity") (validateDedicatedAccount user group)) in
      act! _ := act_wrap (Wrapped "delete dedicated worker user") (DeleteUser store (au_Name user)) in
      joining (act_wrap (Wrapped "delete dedicated worker group") (DeleteGroup store (ag_Name group))) (CreateUser store user)
  | _ => act_fail (Plain "refuse to purge incomplete dedicated worker identity")
  end.

Definition same_identity (identity : Identity) (user : accountUser) (group : accountGroup) : bool :=
  is_ok (validateDedicatedAccount user group) && (au_UID user =? id_UID identity) && (ag_GID group =? id_GID identity).

Definition Restore_ (identity : Identity) : A unit :=
  act! records := act_of (accountRecordsForIdentity identity) in
  let '(user, group) := records in
  act! both := lookup_both (au_Name user) (ag_Name group) in
  match both with
  | (None, None) =>
      act! _ := act_wrap (Wrapped "restore dedicated worker group") (CreateGroup store group) in
      joining (act_wrap (Wrapped "restore dedicated worker user") (CreateUser store user)) (DeleteGroup store (ag_Name group))
  | (Some existingUser, Some existingGroup) =>
      if same_identity identity existingUser existingGroup then act_ret tt
      else act_fail (Plain "refuse to restore over existing worker identity")
  | _ => act_fail (Plain "refuse to restore over existing worker identity")
  end.
End accounts.

(** ** The store on the directory service *)

Section dscl.
Context {S : Type} (run : runner S).

Notation A := (act S app_error).

Definition dscl (args : list string) : A string := act_wrap re_error (run dsclPath ("." :: args)).

(** Whether a search lists the record. *)
Definition listed (name output : string) : bool :=
  existsb (fun line => match fields line with word :: _ => bool_decide (word = name) | [] => false end) (split_on (byte 10) output).

(** The attributes of a record: the last line with a key counts. *)
Definition attribute_lines (output : string) : gmap string string :=
  foldl (fun values line =>
    match cut_at ":" line with
    | Some (key, value) => <[trim_space key := trim_space value]> values
    | None => values
    end) ∅ (split_on (byte 10) output).

Definition attribute (values : gmap string string) (name : string) : string := default "" (values !! name).

(** [dsclStore.lookup] *)
Definition dscl_lookup (collection name : string) (attributes : list string) : A (option (gmap string string)) :=
  act! output := act_wrap (Wrapped "search directory service record") (dscl ["-search"; collection; "RecordName"; name]) in
  if listed name output then
    act! output := act_wrap (Wrapped "read directory service record") (dscl ("-read" :: (collection +:+ "/" +:+ name) :: attributes)) in
    let values := attribute_lines output in
    stop_if existsb (fun a => bool_decide (attribute values a = "")) attributes with Plain "directory service record lacks an attribute" in
    act_ret (Some values)
  else act_ret None.

Definition accountID (raw : string) : result app_error Z :=
  match parse_uint 32 raw with Some v => Ok v | None => Err (Wrapped "invalid directory service ID" (Plain "strconv.ParseUint")) end.

Definition dscl_LookupUser (name : string) : A (option accountUser) :=
  act! values := dscl_lookup "/Users" name ["RecordName"; "UniqueID"; "PrimaryGroupID"; "NFSHomeDirectory"; "UserShell"; "Password"; "Comment"] in
  match values with
  | None => act_ret None
  | Some values =>
      act! uid := act_of (accountID (attribute values "UniqueID")) in
      act! gid := act_of (accountID (attribute values "PrimaryGroupID")) in
      act_ret (Some (MkUser (attribute values "RecordName") uid gid (attribute values "NFSHomeDirectory") (attribute values "UserShell")
                       (attribute values "Password") (attribute values "Comment")))
  end.

Definition dscl_LookupGroup (name : string) : A (option accountGroup) :=
  act! values := dscl_lookup "/Groups" name ["RecordName"; "PrimaryGroupID"; "Password"; "Comment"] in
  match values with
  | None => act_ret None
  | Some values =>
      act! gid := act_of (accountID (attribute values "PrimaryGroupID")) in
      act_ret (Some (MkGroup (attribute values "RecordName") gid (attribute values "Password") (attribute values "Comment")))
  end.

(** The number at the end of a line of at least two words. *)
Definition line_id (line : string) : option Z :=
  match reverse (fields line) with
  | word :: _ :: _ => match parse_int word with Some v => if (0 <=? v) && (v <=? 2 ^ 32 - 1) then Some v else None | None => None end
  | _ => None
  end.

Definition listed_ids (output : string) : gset Z := list_to_set (omap line_id (split_on (byte 10) output)).

Definition dscl_UsedIDs : A (gset Z) :=
  act! users := act_wrap (Wrapped "list directory service IDs") (dscl ["-list"; "/Users"; "UniqueID"]) in
  act! groups := act_wrap (Wrapped "list directory service IDs") (dscl ["-list"; "/Groups"; "PrimaryGroupID"]) in
  act_ret (listed_ids users ∪ listed_ids groups).

Fixpoint create_attributes (path : string) (attributes : list (string * string)) : A unit :=
  match attributes with
  | [] => act_ret tt
  | (name, value) :: attributes' => act! _ := dscl ["-create"; path; name; value] in create_attributes path attributes'
  end.

Definition dscl_delete (path : string) : A unit := act! _ := dscl ["-delete"; path] in act_ret tt.

(** [dsclStore.create] *)
Definition dscl_create (path : string) (attributes : list (string * string)) : A unit :=
  act! _ := dscl ["-create"; path] in
  joining (create_attributes path attributes) (dscl_delete path).

Definition FormatUint (n : Z) : string := pretty (Z.to_N n).

Definition dscl_CreateGroup (group : accountGroup) : A unit :=
  dscl_create ("/Groups/" +:+ ag_Name group)
    [("RecordName", ag_Name group); ("PrimaryGroupID", FormatUint (ag_GID group)); ("Password", ag_Password group);
     ("RealName", workerAccountName); ("Comment", ag_Comment group)].

Definition dscl_CreateUser (user : accountUser) : A unit :=
  dscl_create ("/Users/" +:+ au_Name user)
    [("RecordName", au_Name user); ("UniqueID", FormatUint (au_UID user)); ("PrimaryGroupID", FormatUint (au_GID user));
     ("NFSHomeDirectory", au_Home user); ("UserShell", au_Shell user); ("Password", au_Password user);
     ("RealName", workerAccountName); ("Comment", au_Comment user)].

Definition dsclStore : accountStore S :=
  MkStore S dscl_LookupUser dscl_LookupGroup dscl_UsedIDs dscl_CreateGroup dscl_CreateUser
    (fun name => dscl_delete ("/Users/" +:+ name)) (fun name => dscl_delete ("/Groups/" +:+ name)).
End dscl.

(** * The account is its own *)

(** ** What a store promises *)

Record directory : Type := MkDirectory { dr_users : gmap string accountUser; dr_groups : gmap string accountGroup }.

Definition put_user (u : accountUser) (d : directory) : directory := MkDirectory (<[au_Name u := u]> (dr_users d)) (dr_groups d).
Definition put_group (g : accountGroup) (d : directory) : directory := MkDirectory (dr_users d) (<[ag_Name g := g]> (dr_groups d)).
Definition drop_user (n : string) (d : directory) : directory := MkDirectory (delete n (dr_users d)) (dr_groups d).
Definition drop_group (n : string) (d : directory) : directory := MkDirectory (dr_users d) (delete n (dr_groups d)).

(** The contract of a store: [view] is the directory behind it.  A change
    that fails is not carried out. *)
Class Directory {S : Type} (store : accountStore S) (view : S -> directory) : Prop := {
  lookup_user_law n s r s' : LookupUser store n s = (r, s') -> view s' = view s /\ forall u, r = Ok u -> u = dr_users (view s) !! n;
  lookup_group_law n s r s' : LookupGroup store n s = (r, s') -> view s' = view s /\ forall g, r = Ok g -> g = dr_groups (view s) !! n;
  used_law s r s' : UsedIDs store s = (r, s') -> view s' = view s /\ forall used, r = Ok used ->
    (forall n u, dr_users (view s) !! n = Some u -> au_UID u ∈ used) /\ (forall n g, dr_groups (view s) !! n = Some g -> ag_GID g ∈ used);
  create_user_law u s r s' : CreateUser store u s = (r, s') -> view s' = if is_ok r then put_user u (view s) else view s;
  create_group_law g s r s' : CreateGroup store g s = (r, s') -> view s' = if is_ok r then put_group g (view s) else view s;
  delete_user_law n s r s' : DeleteUser store n s = (r, s') -> view s' = if is_ok r then drop_user n (view s) else view s;
  delete_group_law n s r s' : DeleteGroup store n s = (r, s') -> view s' = if is_ok r then drop_group n (view s) else view s
}.

(** ** Identifiers *)

Lemma allocate_from_spec n candidate used id : allocate_from n candidate used = Some id ->
  candidate - Z.of_nat n < id <= candidate /\ id ∉ used.
Proof.
  revert candidate. induction n as [|n IH]; intros candidate; cbn [allocate_from]; [done|]. case_bool_decide as H; [|by intros [= <-]; split; [lia|]].
  intros [? ?]%IH. split; [lia|done].
Qed.

Lemma allocate_spec used id : allocateWorkerID used = Ok id -> workerIDMinimum <= id <= workerIDMaximum /\ id ∉ used.
Proof.
  unfold allocateWorkerID. destruct (allocate_from _ _ _) as [i|] eqn:E; [|done]. intros [= <-]. apply allocate_from_spec in E as [H ?].
  split; [|done]. unfold workerIDMinimum, workerIDMaximum in *. lia.
Qed.

(** No identifier is missed. *)
Lemma allocate_none used : (forall id, workerIDMinimum <= id <= workerIDMaximum -> id ∈ used) <-> is_ok (allocateWorkerID used) = false.
Proof.
  unfold allocateWorkerID. assert (H : forall n candidate, allocate_from n candidate used = None <-> forall id, candidate - Z.of_nat n < id <= candidate -> id ∈ used).
  { induction n as [|n IH]; intros candidate; cbn [allocate_from]; [split; [intros _ id ?; lia|done]|]. case_bool_decide as Hc.
    - rewrite IH. split; intros H id Hid; [|apply H; lia]. destruct (decide (id = candidate)) as [->|]; [done|]. apply H. lia.
    - split; [done|]. intros H. exfalso. apply Hc, H. lia. }
  specialize (H (Z.to_nat (workerIDMaximum - workerIDMinimum + 1)) workerIDMaximum). destruct (allocate_from _ _ _) as [i|].
  - split; [|done]. intros Hu. assert (Hn : Some i = None) by (apply H; intros id Hid; apply Hu; unfold workerIDMinimum, workerIDMaximum in *; lia). done.
  - split; [done|]. intros _ id Hid. apply H; [done|]. unfold workerIDMinimum, workerIDMaximum in *. lia.
Qed.

Lemma dedicated_names user group identity : validateDedicatedAccount user group = Ok identity ->
  au_Name user = ProductionUser /\ ag_Name group = ProductionGroup /\ workerIDMinimum <= au_UID user <= workerIDMaximum /\
  au_GID user = ag_GID group /\ identity = MkIdentity (au_Name user) (ag_Name group) (au_UID user) (au_GID user) (au_Home user).
Proof.
  unfold validateDedicatedAccount. intros H. apply bind_Ok in H as ([] & Hj & [= <-]). apply joined_Ok in Hj. unfold account_failures in Hj.
  rewrite !app_nil in Hj. destruct Hj as (H1 & H2 & H3 & H4 & _). unfold failing in *.
  destruct (negb (bool_decide (au_Name user = ProductionUser))) eqn:E1; [done|]. destruct (negb (bool_decide (ag_Name group = ProductionGroup))) eqn:E2; [done|].
  apply negb_false_iff, bool_decide_eq_true in E1, E2. destruct ((au_UID user <? workerIDMinimum) || _ || _) eqn:E3; [done|].
  destruct (negb (au_GID user =? ag_GID group)) eqn:E4; [done|]. apply negb_false_iff, Z.eqb_eq in E4. rewrite !orb_false_iff, !Z.ltb_ge in E3.
  split; [done|]. split; [done|]. split; [lia|]. by split.
Qed.

(** ** The operations *)

Section store.
Context {S : Type} (store : accountStore S) (view : S -> directory) `{!Directory store view}.

Definition records (d : directory) : option accountUser * option accountGroup := (dr_users d !! ProductionUser, dr_groups d !! ProductionGroup).

(** Everything but the records of the worker. *)
Definition others_same (d d' : directory) : Prop :=
  (forall n, n <> ProductionUser -> dr_users d' !! n = dr_users d !! n) /\ (forall n, n <> ProductionGroup -> dr_groups d' !! n = dr_groups d !! n).

#[local] Instance others_preorder : PreOrder others_same.
Proof. split; [by intros d; split|]. intros d1 d2 d3 [U1 G1] [U2 G2]. split; intros n Hn; [by rewrite U2, U1|by rewrite G2, G1]. Qed.

Lemma others_user u d : au_Name u = ProductionUser -> others_same d (put_user u d).
Proof. intros H. split; [|done]. intros n Hn. cbn. rewrite lookup_insert_ne; [done|congruence]. Qed.

Lemma others_group g d : ag_Name g = ProductionGroup -> others_same d (put_group g d).
Proof. intros H. split; [done|]. intros n Hn. cbn. rewrite lookup_insert_ne; [done|congruence]. Qed.

Lemma others_drop_user d : others_same d (drop_user ProductionUser d).
Proof. split; [|done]. intros n Hn. cbn. by rewrite lookup_delete_ne. Qed.

Lemma others_drop_group d : others_same d (drop_group ProductionGroup d).
Proof. split; [done|]. intros n Hn. cbn. by rewrite lookup_delete_ne. Qed.

Lemma lookup_both_spec s r s' : lookup_both store ProductionUser ProductionGroup s = (r, s') -> view s' = view s /\ forall both, r = Ok both -> both = records (view s).
Proof.
  unfold lookup_both, act_bind. destruct (LookupUser store _ s) as [[u|e] s1] eqn:E1; apply lookup_user_law in E1 as [V1 H1]; [|intros [= <- <-]; by split].
  destruct (LookupGroup store _ s1) as [[g|e] s2] eqn:E2; apply lookup_group_law in E2 as [V2 H2]; [|intros [= <- <-]; split; [congruence|done]].
  intros [= <- <-]. split; [congruence|]. intros both [= <-]. unfold records. by rewrite (H1 u eq_refl), (H2 g eq_refl), V1.
Qed.

(** A cleaned up failure leaves the directory as it was when the clean-up
    works, and only touches the worker's records. *)
Lemma joining_spec {T} (m : act S app_error T) cleanup s r s' : joining m cleanup s = (r, s') ->
  (exists a, r = Ok a /\ m s = (Ok a, s')) \/ exists e s1 r2, m s = (Err e, s1) /\ cleanup s1 = (r2, s') /\ is_ok r = false.
Proof.
  unfold joining. destruct (m s) as [[a|e] s1]; [intros [= <- <-]; left; by exists a|]. destruct (cleanup s1) as [r2 s2] eqn:E. intros [= <- <-].
  right. by exists e, s1, r2.
Qed.

Definition add_worker (id : Z) (d : directory) : directory := put_user (new_user id) (put_group (new_group id) d).
Definition drop_worker (d : directory) : directory := drop_group ProductionGroup (drop_user ProductionUser d).

Definition unused (d : directory) (id : Z) : Prop :=
  (forall n u, dr_users d !! n = Some u -> au_UID u <> id) /\ (forall n g, dr_groups d !! n = Some g -> ag_GID g <> id).

Lemma Resolve_spec s r s' : Resolve store s = (r, s') -> view s' = view s /\ forall identity, r = Ok identity ->
  exists u g, records (view s) = (Some u, Some g) /\ validateDedicatedAccount u g = Ok identity.
Proof.
  unfold Resolve, act_bind. destruct (lookup_both store _ _ s) as [[both|e] s1] eqn:E; apply lookup_both_spec in E as [V H]; [|by intros [= <- <-]].
  rewrite <- (H both eq_refl). destruct both as [[u|] [g|]]; intros [= <- <-]; (split; [done|]); try done. intros identity Hi. by exists u, g.
Qed.

Lemma records_add id d : records (add_worker id d) = (Some (new_user id), Some (new_group id)).
Proof. unfold records, add_worker. cbn. by rewrite !lookup_insert_eq. Qed.

(** What [Ensure] makes of the directory. *)
Definition ensured (d d' : directory) (r : result app_error (Identity * bool)) : Prop :=
  match r with
  | Ok (identity, false) => d' = d /\ exists u g, records d = (Some u, Some g) /\ validateDedicatedAccount u g = Ok identity
  | Ok (identity, true) =>
      records d = (None, None) /\ exists id, workerIDMinimum <= id <= workerIDMaximum /\ unused d id /\ d' = add_worker id d /\
      identity = MkIdentity ProductionUser ProductionGroup id id ProductionHome
  | Err _ => others_same d d' /\ (records d <> (None, None) -> d' = d)
  end.

Lemma ensured_same d e : ensured d d (Err e).
Proof. by split. Qed.

Lemma create_worker_spec id s r s' : dr_groups (view s) !! ProductionGroup = Some (new_group id) ->
  joining (act! _ := act_wrap (Wrapped "create dedicated worker user") (CreateUser store (new_user id)) in
           joining (act! identity := act_wrap (Wrapped "validate created worker identity") (Resolve store) in act_ret (identity, true))
             (DeleteUser store ProductionUser)) (DeleteGroup store ProductionGroup) s = (r, s') ->
  (r = Ok (MkIdentity ProductionUser ProductionGroup id id ProductionHome, true) /\ view s' = put_user (new_user id) (view s)) \/
  (is_ok r = false /\ others_same (view s) (view s')).
Proof.
  intros Hgrp H. assert (Hrec : records (put_user (new_user id) (view s)) = (Some (new_user id), Some (new_group id))).
  { unfold records. cbn. by rewrite lookup_insert_eq, Hgrp. }
  assert (Hdel : forall s1 r2 s2, DeleteGroup store ProductionGroup s1 = (r2, s2) -> others_same (view s) (view s1) -> others_same (view s) (view s2)).
  { intros s1 r2 s2 E1 Ho. apply delete_group_law in E1. rewrite E1. destruct (is_ok r2); [|done]. by rewrite <- others_drop_group. }
  unfold act_bind, act_wrap in H.
  apply joining_spec in H as [(a & -> & H)|(e & s1 & r2 & H & E1 & Hr)].
  - destruct (CreateUser store (new_user id) s) as [[u|e] s1] eqn:Ec; [|done]. apply create_user_law in Ec. cbn [is_ok] in Ec.
    apply joining_spec in H as [(a' & [= <-] & H)|(? & ? & ? & _ & _ & ?)]; [|done].
    destruct (Resolve store s1) as [[identity|e] s2] eqn:Er; [|done]. apply Resolve_spec in Er as [Vr Hres]. injection H as <- <-.
    destruct (Hres identity eq_refl) as (u1 & g1 & Hg & Hv). rewrite Ec, Hrec in Hg. injection Hg as <- <-.
    apply dedicated_names in Hv as (_ & _ & _ & _ & ->). left. split; [done|congruence].
  - right. split; [done|]. apply (Hdel s1 r2 s' E1). destruct (CreateUser store (new_user id) s) as [[u|e'] s3] eqn:Ec; apply create_user_law in Ec; cbn [is_ok] in Ec.
    + assert (Ho : others_same (view s) (view s3)) by (rewrite Ec; by apply others_user).
      apply joining_spec in H as [(? & ? & _)|(e3 & s4 & r4 & H & E4 & _)]; [done|].
      destruct (Resolve store s3) as [[identity|e5] s5] eqn:Er; [done|]. apply Resolve_spec in Er as [Vr _]. injection H as _ <-.
      apply delete_user_law in E4. rewrite E4, Vr. destruct (is_ok r4); [|done]. by rewrite <- others_drop_user.
    + injection H as _ <-. by rewrite Ec.
Qed.

Lemma Ensure_spec s r s' : Ensure store s = (r, s') -> ensured (view s) (view s') r.
Proof.
  unfold Ensure. unfold act_bind at 1. destruct (lookup_both store _ _ s) as [[both|e] s1] eqn:E; apply lookup_both_spec in E as [V H].
  2: { intros [= <- <-]. rewrite V. apply ensured_same. }
  specialize (H both eq_refl). rewrite <- V. destruct both as [[u|] [g|]].
  - unfold act_bind, act_of. destruct (validateDedicatedAccount u g) as [identity|e] eqn:Ev; intros [= <- <-]; [|apply ensured_same].
    split; [done|]. exists u, g. by rewrite V, <- H.
  - intros [= <- <-]. apply ensured_same.
  - intros [= <- <-]. apply ensured_same.
  - unfold act_bind at 1. destruct (UsedIDs store s1) as [[used|e] s2] eqn:Eu; apply used_law in Eu as [V2 Hu]; [|intros [= <- <-]; rewrite V2; apply ensured_same].
    specialize (Hu used eq_refl). unfold act_bind at 1. unfold act_of. destruct (allocateWorkerID used) as [id|e] eqn:Ea; [|intros [= <- <-]; rewrite V2; apply ensured_same].
    apply allocate_spec in Ea as [Hid Hn]. unfold act_bind at 1. unfold act_wrap at 1.
    destruct (CreateGroup store (new_group id) s2) as [[u|e] s3] eqn:Eg; apply create_group_law in Eg; cbn [is_ok] in Eg; [|intros [= <- <-]; rewrite Eg, V2; apply ensured_same].
    assert (Hnone : records (view s1) = (None, None)) by (by rewrite V, H).
    intros Hj. apply create_worker_spec in Hj as [[-> Hv]|[Hr Ho]].
    + cbn [ensured]. split; [done|]. exists id. split; [done|]. split; [|split; [|done]].
      * destruct Hu as [Hu1 Hu2]. split; [intros n u1 Hl Hi|intros n g1 Hl Hi]; subst id; [by apply Hn, (Hu1 n)|by apply Hn, (Hu2 n)].
      * by rewrite Hv, Eg, V2.
    + destruct r; [done|]. split; [|by rewrite Hnone]. rewrite <- Ho, Eg, V2. by apply others_group.
    + rewrite Eg. cbn. by rewrite lookup_insert_eq.
Qed.

(** What [Purge] makes of the directory. *)
Definition purged (d d' : directory) (r : result app_error unit) : Prop :=
  match r with
  | Ok _ => d' = drop_worker d /\ (records d = (None, None) \/ exists u g identity, records d = (Some u, Some g) /\ validateDedicatedAccount u g = Ok identity)
  | Err _ => others_same d d' /\ ((forall u g identity, records d = (Some u, Some g) -> validateDedicatedAccount u g <> Ok identity) -> d' = d)
  end.

Lemma purged_same d e : purged d d (Err e).
Proof. by split. Qed.

Lemma drop_worker_none d : records d = (None, None) -> drop_worker d = d.
Proof. intros [= Hu Hg]. unfold drop_worker, drop_user, drop_group. cbn. destruct d as [us gs]. cbn in *. by rewrite !delete_id. Qed.

Lemma drop_add_worker id d : records d = (None, None) -> drop_worker (add_worker id d) = d.
Proof.
  intros Hn. rewrite <- (drop_worker_none d Hn) at 2. unfold drop_worker, drop_user, drop_group, add_worker, put_user, put_group. cbn. by rewrite !delete_insert_eq.
Qed.

Lemma Purge_spec s r s' : Purge store s = (r, s') -> purged (view s) (view s') r.
Proof.
  unfold Purge. unfold act_bind at 1. destruct (lookup_both store _ _ s) as [[both|e] s1] eqn:E; apply lookup_both_spec in E as [V H].
  2: { intros [= <- <-]. rewrite V. apply purged_same. }
  specialize (H both eq_refl). rewrite <- V. destruct both as [[u|] [g|]].
  - unfold act_bind at 1, act_of. destruct (validateDedicatedAccount u g) as [identity|e] eqn:Ev; cbn [map_err]; [|intros [= <- <-]; apply purged_same].
    pose proof (dedicated_names u g identity Ev) as (Hnu & Hng & _). rewrite Hnu, Hng.
    assert (Hrec : records (view s1) = (Some u, Some g)) by (by rewrite V, <- H).
    unfold act_bind, act_wrap at 1. destruct (DeleteUser store ProductionUser s1) as [[u2|e] s2] eqn:E2; apply delete_user_law in E2; cbn [is_ok] in E2;
      [|intros [= <- <-]; rewrite E2; apply purged_same].
    intros Hj. apply joining_spec in Hj as [(a & -> & Hj)|(e & s3 & r3 & Hj & E3 & Hr)].
    + unfold act_wrap in Hj. destruct (DeleteGroup store ProductionGroup s2) as [[u4|e] s4] eqn:E4; [|done]. apply delete_group_law in E4. cbn [is_ok] in E4.
      injection Hj as _ <-. split; [by rewrite E4, E2|]. right. by exists u, g, identity.
    + unfold act_wrap in Hj. destruct (DeleteGroup store ProductionGroup s2) as [[u4|e4] s4] eqn:E4; [done|]. apply delete_group_law in E4. cbn [is_ok] in E4.
      injection Hj as _ <-. destruct r; [done|]. split.
      * apply create_user_law in E3. rewrite E3, E4, E2. transitivity (drop_user ProductionUser (view s1)); [apply others_drop_user|].
        destruct (is_ok r3); [by apply others_user|done].
      * intros Hbad. by destruct (Hbad u g identity Hrec).
  - intros [= <- <-]. apply purged_same.
  - intros [= <- <-]. apply purged_same.
  - intros [= <- <-]. assert (Hn : records (view s1) = (None, None)) by (by rewrite V, H). split; [by rewrite drop_worker_none|by left].
Qed.
End store.

(** The account of the worker is its own.  [Ensure] accepts a pair of
    records only when it is recognized as dedicated, creates one only when
    neither name is taken, with an identifier from 401 to 499 that no user and
    no group has, and leaves every other record alone whatever fails; [Purge]
    deletes nothing but a recognized pair; and purging what was created leaves
    the directory as it was before. *)
Theorem worker_account_own {S} (store : accountStore S) (view : S -> directory) : Directory store view ->
  (forall s r s', Ensure store s = (r, s') -> ensured (view s) (view s') r) /\
  (forall s r s', Purge store s = (r, s') -> purged (view s) (view s') r) /\
  (forall s identity s1 u s2, Ensure store s = (Ok (identity, true), s1) -> Purge store s1 = (Ok u, s2) -> view s2 = view s).
Proof.
  intros Hd. split; [apply Ensure_spec, Hd|]. split; [apply Purge_spec, Hd|]. intros s identity s1 u s2 E1 E2.
  apply (Ensure_spec store view) in E1 as (Hn & id & _ & _ & Hv & _). apply (Purge_spec store view) in E2 as [E2 _].
  by rewrite E2, Hv, drop_add_worker.
Qed.

(** ** A store in memory *)

(** A directory, and which of the next changes fail. *)
Definition memory : Type := directory * list bool.

Definition memory_change (f : directory -> directory) : act memory app_error unit := fun s =>
  match s.2 with
  | true :: fs => (Err (Plain "eDSPermissionError"), (s.1, fs))
  | fs => (Ok tt, (f s.1, tail fs))
  end.

Definition used_ids (d : directory) : gset Z :=
  list_to_set ((fun p => au_UID p.2) <$> map_to_list (dr_users d)) ∪ list_to_set ((fun p => ag_GID p.2) <$> map_to_list (dr_groups d)).

Definition memoryStore : accountStore memory :=
  MkStore memory (fun n s => (Ok (dr_users s.1 !! n), s)) (fun n s => (Ok (dr_groups s.1 !! n), s)) (fun s => (Ok (used_ids s.1), s))
    (fun g => memory_change (put_group g)) (fun u => memory_change (put_user u))
    (fun n => memory_change (drop_user n)) (fun n => memory_change (drop_group n)).

Lemma memory_change_law f s r s' : memory_change f s = (r, s') -> s'.1 = if is_ok r then f s.1 else s.1.
Proof. unfold memory_change. destruct s as [d [|[] fs]]; by intros [= <- <-]. Qed.

#[export] Instance memory_directory : Directory memoryStore fst.
Proof.
  split; cbn.
  - intros n s r s' [= <- <-]. split; [done|]. by intros u [= <-].
  - intros n s r s' [= <- <-]. split; [done|]. by intros g [= <-].
  - intros s r s' [= <- <-]. split; [done|]. intros used [= <-]. unfold used_ids. split.
    + intros n u Hn. apply elem_of_union_l, elem_of_list_to_set, list_elem_of_fmap. exists (n, u). split; [done|]. by apply elem_of_map_to_list.
    + intros n g Hn. apply elem_of_union_r, elem_of_list_to_set, list_elem_of_fmap. exists (n, g). split; [done|]. by apply elem_of_map_to_list.
  - intros u. apply memory_change_law.
  - intros g. apply memory_change_law.
  - intros n. apply memory_change_law.
  - intros n. apply memory_change_law.
Qed.

(** A host where 499 is taken, by a group. *)
Definition a_directory_host : memory := (put_group (MkGroup "admin" 499 "*" "") (MkDirectory ∅ ∅), []).

Lemma worker_account_own_witness :
  Ensure memoryStore a_directory_host = (Ok (MkIdentity ProductionUser ProductionGroup 498 498 ProductionHome, true), (add_worker 498 a_directory_host.1, [])) /\
  (Purge memoryStore (add_worker 498 a_directory_host.1, [])).2.1 = a_directory_host.1.
Proof.
  assert (E : Ensure memoryStore a_directory_host = (Ok (MkIdentity ProductionUser ProductionGroup 498 498 ProductionHome, true), (add_worker 498 a_directory_host.1, []))) by (by vm_compute).
  split; [done|]. apply (proj2 (proj2 (worker_account_own memoryStore fst memory_directory)) _ _ _ tt _ E). by vm_compute.
Defined.
