(* ===== verification/LaunchManager.v ===== *)
(** * Component [internal/launchservice]: the manager of the installed service

    [manager.go]: installing, starting, stopping, synchronizing the
    configuration, upgrading and uninstalling, each with the way back when a
    step fails.  The runner of [launchctl], the probe of the running service,
    its recovery and the accounts are fields of the manager. *)

From stdpp Require Import pretty.
From S2P Require Import Prelude.
From S2P Require Import GoStrings.
From S2P Require Import GoFiles.
From S2P Require Import Outbound.
From S2P Require Import Apperror.
From S2P Require Import Privsep.
From S2P Require Import LaunchLayout.
From S2P Require Import LaunchFiles.
From S2P Require Import LaunchStorage.

Definition InstallCommand : string := "sudo tun-proxy service install".
Definition StartCommand : string := "sudo tun-proxy service start".
Definition UpgradeCommand : string := "sudo tun-proxy service upgrade".
Definition UninstallCommand : string := "sudo tun-proxy service uninstall".

Record RuntimeState : Type := MkRuntimeState { rs_Running : bool; rs_PID : Z; rs_Phase : string }.

Record Status : Type := MkStatus { su_Installed : bool; su_Loaded : bool; su_Runtime : RuntimeState }.

(** [WorkerAccounts], as far as the manager uses it. *)
Record WorkerAccounts (S : Type) : Type := MkAccounts {
  wa_Ensure : act S app_error (Identity * bool);
  wa_Resolve : act S app_error Identity;
  wa_Purge : act S app_error unit
}.
Arguments wa_Ensure {S} _.
Arguments wa_Resolve {S} _.
Arguments wa_Purge {S} _.

Record Manager (W : Type) : Type := MkManager {
  mg_Layout : Layout;
  mg_Runner : runner (machine W);
  mg_Accounts : WorkerAccounts (machine W);
  mg_EffectiveUID : Z;
  mg_Probe : act (machine W) app_error RuntimeState;
  mg_Recover : option (act (machine W) app_error unit);
  mg_OwnerUID : Z;
  mg_PollInterval : Z;
  mg_StartTimeout : Z;
  mg_StopTimeout : Z
}.
Arguments mg_Layout {W} _.
Arguments mg_Runner {W} _.
Arguments mg_Accounts {W} _.
Arguments mg_EffectiveUID {W} _.
Arguments mg_Probe {W} _.
Arguments mg_Recover {W} _.
Arguments mg_OwnerUID {W} _.
Arguments mg_PollInterval {W} _.
Arguments mg_StartTimeout {W} _.
Arguments mg_StopTimeout {W} _.

Section manager.
Context {W : Type} (manager : Manager W).

Notation A := (act (machine W) app_error).
Notation layout := (mg_Layout manager).

(** ** Preconditions *)

Definition validate : A unit :=
  act! _ := act_of (map_err layout_failure (Layout_Validate layout)) in
  stop_if (mg_PollInterval manager <=? 0) || (mg_StartTimeout manager <=? 0) || (mg_StopTimeout manager <=? 0)
    with Plain "service manager timeouts must be positive" in
  stop_if mg_OwnerUID manager <? 0 with Plain "service artifact owner UID must be non-negative" in
  act_ret tt.

Definition requireRoot : A unit :=
  stop_if negb (mg_EffectiveUID manager =? 0)
    with WithDetails {[ "effective_uid" := DNumber (pretty (mg_EffectiveUID manager)) ]}
           (Wrap CodeRootRequired "service" "root privileges are required for service management; run with sudo" (Plain "effective UID")) in
  act_ret tt.

Definition artifacts : list (string * Z) :=
  [(ly_Binary layout, mode_0755); (ly_Config layout, mode_0600); (ly_Plist layout, mode_0644)].

(** The loop of [installed]: whether every artifact was present. *)
Fixpoint installed_loop (items : list (string * Z)) (all : bool) : A bool := fun m =>
  match items with
  | [] => (Ok all, m)
  | (path, mode) :: items' =>
      match Lstat path m with
      | (Err ENOENT, m) => installed_loop items' false m
      | (Err e, m) => (Err (os_wrap "inspect service artifact" e), m)
      | (Ok info, m) =>
          (stop_if negb (bool_decide (nd_kind info = Regular)) || negb (nd_perm info =? mode) with Plain "service artifact has unsafe type or mode" in
           stop_if negb (nd_uid info =? mg_OwnerUID manager) with Plain "service artifact is not owned by the owner" in
           installed_loop items' all) m
      end
  end.

Definition installed : A bool := installed_loop artifacts true.

Definition serviceNotInstalledError : app_error :=
  New CodeServiceNotInstalled "service" "tun-proxy service is not completely installed".

(** What most operations check first. *)
Definition require_installed : A unit :=
  act! _ := validate in
  act! _ := requireRoot in
  act! i := installed in
  stop_if negb i with serviceNotInstalledError in
  act_ret tt.

(** ** launchd *)

Definition job : string := "system/" +:+ ly_Label layout.

Definition launchctl (args : list string) : act (machine W) run_error string := mg_Runner manager launchctlPath args.

Definition loaded : A bool := fun m =>
  match launchctl ["print"; job] m with
  | (Ok _, m) => (Ok true, m)
  | (Err e, m) => (if re_notLoaded e then Ok false else Err (Wrapped "inspect launchd service" (re_error e)), m)
  end.

Definition bootstrap : A unit :=
  act! l := loaded in
  if l then act_ret tt
  else act! _ := act_wrap (fun e => Wrapped "load service" (re_error e)) (launchctl ["bootstrap"; "system"; ly_Plist layout]) in act_ret tt.

(** ** Waiting *)

Definition set_wakes (ws : list wake) (m : machine W) : machine W :=
  MkMachine (mc_fs m) (mc_outcomes m) (mc_names m) (mc_uid m) (mc_umask m) ws (mc_rest m).

(** Polling until [done] holds; the wakes are those between two polls, and
    the deadline comes when they are used up. *)
Fixpoint poll_loop {T} (poll : A T) (done : T -> bool) (timeout : T -> app_error) (ws : list wake) : act (machine W) app_error (list wake) := fun m =>
  match poll m with
  | (Err e, m) => (Err e, m)
  | (Ok state, m) =>
      if done state then (Ok ws, m)
      else
        match ws with
        | [] | Deadline :: _ => (Err (timeout state), m)
        | Cancelled :: _ => (Err (Plain "context canceled"), m)
        | Tick :: ws' => poll_loop poll done timeout ws' m
        end
  end.

Definition polling {T} (poll : A T) (done : T -> bool) (timeout : T -> app_error) : A unit := fun m =>
  match poll_loop poll done timeout (mc_wakes m) m with
  | (Ok ws, m) => (Ok tt, set_wakes ws m)
  | (Err e, m) => (Err e, set_wakes [] m)
  end.

Definition waitUnloaded : A unit := polling loaded negb (fun _ => Plain "launchd job remained loaded after service stop").

Definition wait (ready : RuntimeState -> bool) (timeoutMessage : string) : A unit :=
  polling (mg_Probe manager) ready (fun _ => Plain timeoutMessage).

(** ** Start, stop and restart *)

Definition is_ready (state : RuntimeState) : bool := rs_Running state && bool_decide (rs_Phase state = "running").

Definition Start : A unit :=
  act! _ := require_installed in
  act! _ := act_wrap (fun e => Wrapped "enable service" (re_error e)) (launchctl ["enable"; job]) in
  act! _ := bootstrap in
  fun m =>
    let '(kick, m) := launchctl ["kickstart"; job] m in
    match wait is_ready "service did not become ready" m with
    | (Ok _, m) => (Ok tt, m)
    | (Err readyErr, m) =>
        let readyErr := match kick with Ok _ => readyErr | Err e => join_errors [Wrapped "start service" (re_error e); readyErr] end in
        (Err (Wrap CodeServiceStartTimeout "service.start" "service did not become ready before the startup timeout" readyErr), m)
    end.

(** [Recover], when there is one. *)
Definition recover : A unit := match mg_Recover manager with Some r => r | None => act_ret tt end.

(** Removing the job from launchd. *)
Definition unload : A unit :=
  act! _ := act_wrap (fun e => Wrapped "disable service before stopping" (re_error e)) (launchctl ["disable"; job]) in
  act! _ := act_wrap (fun e => Wrapped "unload service while stopping" (re_error e)) (launchctl ["bootout"; job]) in
  act_wrap (Wrap CodeServiceStopTimeout "service.stop" "service did not unload before the stop timeout") waitUnloaded.

Definition Stop : A unit :=
  act! _ := validate in
  act! _ := requireRoot in
  act! state := mg_Probe manager in
  act! l := loaded in
  stop_if rs_Running state && negb l with Plain "runtime PID is alive but launchd job is not loaded" in
  act! _ := (if l then unload else act_ret tt) in
  act! _ := (if rs_Running state
             then act_wrap (Wrap CodeServiceStopTimeout "service.stop" "service process did not stop before the timeout")
                    (wait (fun state => negb (rs_Running state)) "service process did not stop cleanly")
             else act_ret tt) in
  act! state := mg_Probe manager in
  if bool_decide (rs_Phase state = "") then act_ret tt else recover.

Definition Restart : A unit :=
  act! _ := require_installed in
  act! _ := Stop in
  Start.

Definition restartService : A unit := Start.

Definition restoreServiceState (before : RuntimeState) : A unit := if rs_Running before then restartService else act_ret tt.

(** ** Reload and status *)

Definition Reload_ : A unit :=
  act! _ := require_installed in
  act! state := mg_Probe manager in
  stop_if negb (rs_Running state) || negb (bool_decide (rs_Phase state = "running")) with Plain "tun-proxy service is not running" in
  act! l := loaded in
  stop_if negb l with Plain "tun-proxy service is running but the launchd job is not loaded" in
  act! _ := act_wrap (fun e => Wrapped "reload service" (re_error e)) (launchctl ["kill"; "SIGHUP"; job]) in
  act_ret tt.

Definition Status_ : A Status :=
  act! _ := validate in
  act! _ := requireRoot in
  act! i := installed in
  act! _ := (if i then
               act! identity := act_wrap (Wrapped "validate dedicated worker identity") (wa_Resolve (mg_Accounts manager)) in
               validateWorkerStorage layout identity
             else act_ret tt) in
  act! runtime := mg_Probe manager in
  act! l := loaded in
  act_ret (MkStatus i l runtime).
End manager.
