(* ===== verification/LaunchTransactions.v ===== *)
(** * Component [internal/launchservice]: the transactions of the manager

    [Install], [BeginConfigUpdate], [SynchronizeConfig], [Upgrade] and
    [Uninstall] of [manager.go].  Go joins the errors of the way back to the
    error that caused it; here the results of undoing the artifacts, the
    storage and the account are also returned by themselves. *)

From S2P Require Import Prelude.
From S2P Require Import GoStrings.
From S2P Require Import GoFiles.
From S2P Require Import Apperror.
From S2P Require Import Privsep.
From S2P Require Import LaunchLayout.
From S2P Require Import LaunchFiles.
From S2P Require Import LaunchStorage.
From S2P Require Import LaunchManager.

Section transactions.
Context {W : Type} (manager : Manager W).

Notation A := (act (machine W) app_error).
Notation layout := (mg_Layout manager).

(** The error, what undoing returned, and the machine. *)
Notation attempt := (option app_error * list (option app_error) * machine W)%type.

Definition error_in {T} (r : result app_error T) : option app_error := match r with Ok _ => None | Err e => Some e end.

(** One deferred [errors.Join] after the other. *)
Definition unwind (es : list (option app_error)) (e : option app_error) : option app_error := foldl (fun e u => join [e; u]) e es.

(** ** Staging *)

Definition remove_stage (stage : string) : act (machine W) os_error unit := dropped (Remove stage).

Fixpoint remove_stages (stages : list string) : act (machine W) os_error unit :=
  match stages with
  | [] => act_ret tt
  | stage :: stages' => act! _ := remove_stage stage in remove_stages stages'
  end.

(** Runs the stagings in order; those before a failure are kept for their
    removal. *)
Fixpoint stage_all (stagings : list (A string)) (stages : list string) (m : machine W) : option app_error * list string * machine W :=
  match stagings with
  | [] => (None, stages, m)
  | staging :: stagings' =>
      match staging m with
      | (Ok stage, m) => stage_all stagings' (stages ++ [stage]) m
      | (Err e, m) => (Some e, stages, m)
      end
  end.

(** A stage, its target, and whether the target may exist. *)
Definition staged : Type := string * string * bool.

Fixpoint activate_all (items : list staged) (replaced : list replacement) (m : machine W) : option app_error * list replacement * machine W :=
  match items with
  | [] => (None, replaced, m)
  | (stage, target, refuseExisting) :: items' =>
      match activateStage stage target refuseExisting m with
      | (Ok r, m) => activate_all items' (replaced ++ [r]) m
      | (Err e, m) => (Some e, replaced, m)
      end
  end.

(** ** Install *)

(** The deferred end of the replacements. *)
Definition settle_replacements (err : option app_error) (replaced : list replacement) (m : machine W) : attempt :=
  match err with
  | None => let '(es, m) := each commit_replacement replaced m in (unwind es None, [], m)
  | Some _ => let '(es, m) := each rollback_replacement (rev replaced) m in (unwind es err, es, m)
  end.

(** Starting, and unloading what could not be started. *)
Definition install_start (start : bool) (m : machine W) : option app_error * machine W :=
  if start then
    match Start manager m with
    | (Ok _, m) => (None, m)
    | (Err e, m) =>
        let '(r, m) := launchctl manager ["bootout"; job manager] m in
        let err := match r with Ok _ => Some e | Err e' => join [Some e; Some (Wrapped "rollback service load" (re_error e'))] end in
        match mg_Recover manager with
        | None => (err, m)
        | Some _ => let '(r, m) := recover manager m in (join [err; error_in r], m)
        end
    end
  else (None, m).

(** Only the configuration may be there already. *)
Definition refuse_existing (target : string) : bool := negb (bool_decide (target = ly_Config layout)).

Definition install_items (binaryStage configStage plistStage : string) : list staged :=
  (fun item => (item, refuse_existing item.2)) <$> [(binaryStage, ly_Binary layout); (configStage, ly_Config layout); (plistStage, ly_Plist layout)].

(** From the stages to the end of their replacements. *)
Definition install_stages (stages : list string) (start : bool) (m : machine W) : attempt :=
  match stages with
  | [binaryStage; configStage; plistStage] =>
      let '(err, replaced, m) := activate_all (install_items binaryStage configStage plistStage) [] m in
      let '(err, m) := match err with Some e => (Some e, m) | None => install_start start m end in
      settle_replacements err replaced m
  | _ => (Some (Plain "unreachable"), [], m)
  end.

(** From the manifest on. *)
Definition install_artifacts (binarySource configSource : string) (start startAtBoot : bool) (m : machine W) : attempt :=
  match Manifest layout startAtBoot with
  | Err e => (Some e, [], m)
  | Ok manifest =>
      let '(err, stages, m) := stage_all
        [stageCopy binarySource (ly_Binary layout) mode_0755 maxInstalledFileSize;
         stageCopy configSource (ly_Config layout) mode_0600 MaxConfigSize;
         stageContents manifest (ly_Plist layout) mode_0644] [] m in
      let '(err, undone, m) := match err with Some e => (Some e, [], m) | None => install_stages stages start m end in
      let '(_, m) := remove_stages stages m in
      (err, undone, m)
  end.

(** The storage, and its deferred end. *)
Definition install_storage (identity : Identity) (binarySource configSource : string) (start startAtBoot : bool) (m : machine W) : attempt :=
  match prepareWorkerStorage layout (mg_OwnerUID manager) identity m with
  | (Err e, m) => (Some e, [], m)
  | (Ok storage, m) =>
      let '(err, undone, m) := install_artifacts binarySource configSource start startAtBoot m in
      match err with
      | None => (None, undone, m)
      | Some _ => let '(e, m) := rollback_storage storage m in (join [err; e], undone ++ [e], m)
      end
  end.

Fixpoint ensure_all (directories : list (string * Z)) : A unit :=
  match directories with
  | [] => act_ret tt
  | (path, mode) :: directories' => act! _ := ensureDirectory path mode (mg_OwnerUID manager) in ensure_all directories'
  end.

Definition install_directories : list (string * Z) :=
  [(dir (ly_Binary layout), mode_0755); (dir (ly_Config layout), mode_0750); (dir (ly_Plist layout), mode_0755);
   (ly_LogDirectory layout, mode_0750); (ly_RuntimeDir layout, mode_0755)].

(** The account, and its deferred end. *)
Definition purge_created (created : bool) (r : attempt) : attempt :=
  match r with
  | (Some e, undone, m) =>
      if created then let '(p, m) := wa_Purge (mg_Accounts manager) m in (join [Some e; error_in p], undone ++ [error_in p], m)
      else (Some e, undone, m)
  | r => r
  end.

Definition install_with (identity : Identity) (binarySource configSource : string) (start startAtBoot : bool) (m : machine W) : attempt :=
  match ensure_all install_directories m with
  | (Err e, m) => (Some e, [], m)
  | (Ok _, m) => install_storage identity binarySource configSource start startAtBoot m
  end.

Definition install_checks : A (Identity * bool) :=
  act! _ := validate manager in
  act! _ := requireRoot manager in
  act! l := loaded manager in
  stop_if l with Plain "launchd service label is already loaded" in
  wa_Ensure (mg_Accounts manager).

Definition Install (binarySource configSource : string) (start startAtBoot : bool) (m : machine W) : attempt :=
  match install_checks m with
  | (Err e, m) => (Some e, [], m)
  | (Ok (identity, accountCreated), m) =>
      purge_created accountCreated (install_with identity binarySource configSource start startAtBoot m)
  end.

(** ** The configuration *)

Definition check_contents (contents : string) : A unit :=
  stop_if slen contents =? 0 with Plain "managed configuration contents are empty" in
  stop_if MaxConfigSize <? slen contents with Plain "managed configuration exceeds the limit" in
  act_ret tt.

(** [ConfigUpdate] *)
Record ConfigUpdate : Type := MkUpdate { cu_replacement : replacement; cu_finalized : bool }.

Definition BeginConfigUpdate (contents : string) : A ConfigUpdate :=
  act! _ := require_installed manager in
  act! _ := check_contents contents in
  act! stage := stageContents contents (ly_Config layout) mode_0600 in
  fun m =>
    let '(r, m) := activateStage stage (ly_Config layout) false m in
    let '(_, m) := remove_stage stage m in
    (match r with Ok replaced => Ok (MkUpdate replaced false) | Err e => Err e end, m).

(** [ConfigUpdate.Commit] and [ConfigUpdate.Rollback] *)
Definition finalize (f : replacement -> machine W -> option app_error * replacement * machine W) (update : ConfigUpdate) (m : machine W)
    : option app_error * ConfigUpdate * machine W :=
  if cu_finalized update then (Some (Plain "managed configuration update is already finalized"), update, m)
  else let '(e, r, m) := f (cu_replacement update) m in (e, MkUpdate r true, m).

Definition Commit (update : ConfigUpdate) (m : machine W) := finalize commit_replacement update m.
Definition Rollback (update : ConfigUpdate) (m : machine W) := finalize rollback_replacement update m.

(** The way back when the synchronized service does not start. *)
Definition sync_rollback (e : app_error) (replaced : replacement) (m : machine W) : attempt :=
  let '(stop, m) := Stop manager m in
  let '(rolled, _, m) := rollback_replacement replaced m in
  let failures := [Some (Wrapped "start service with synchronized configuration" e);
                   Wrapped "stop failed synchronized service before rollback" <$> error_in stop;
                   Wrapped "roll back managed configuration" <$> rolled] in
  match error_in stop, rolled with
  | None, None =>
      let '(restored, m) := Start manager m in
      (join (failures ++ [Wrapped "restore previous service after configuration rollback" <$> error_in restored]), [rolled], m)
  | _, _ => (join failures, [rolled], m)
  end.

(** From the stage on: whether the service was restarted. *)
Definition sync_stage (running : bool) (stage : string) (m : machine W) : bool * attempt :=
  match Stop manager m with
  | (Err e, m) => (false, (Some (Wrapped "stop service before configuration synchronization" e), [], m))
  | (Ok _, m) =>
      match activateStage stage (ly_Config layout) false m with
      | (Err e, m) =>
          let '(err, m) := (if running then let '(r, m) := restartService manager m in (join [Some e; error_in r], m) else (Some e, m)) in
          (false, (Wrapped "activate synchronized configuration" <$> err, [], m))
      | (Ok replaced, m) =>
          let finish (m : machine W) :=
            let '(e, _, m) := commit_replacement replaced m in
            (running, (Wrapped "managed configuration activated but commit cleanup failed" <$> e, [], m)) in
          if running then
            match Start manager m with
            | (Err e, m) => (false, sync_rollback e replaced m)
            | (Ok _, m) => finish m
            end
          else finish m
      end
  end.

Definition sync_checks (contents : string) : A (bool * string) :=
  act! _ := require_installed manager in
  act! _ := check_contents contents in
  act! before := mg_Probe manager in
  act! stage := stageContents contents (ly_Config layout) mode_0600 in
  act_ret (rs_Running before, stage).

(** [SynchronizeConfig]: [Restarted] and the error. *)
Definition SynchronizeConfig (contents : string) (m : machine W) : bool * attempt :=
  match sync_checks contents m with
  | (Err e, m) => (false, (Some e, [], m))
  | (Ok (running, stage), m) =>
      let '(restarted, (err, undone, m)) := sync_stage running stage m in
      let '(_, m) := remove_stage stage m in
      (restarted, (err, undone, m))
  end.

(** ** Upgrade *)

(** [restoreReadyService] *)
Definition restore_ready (wasReady : bool) (message : string) (m : machine W) : option app_error * machine W :=
  if wasReady then let '(r, m) := restartService manager m in (Wrapped message <$> error_in r, m) else (None, m).

(** The closure [rollbackAndRestore]. *)
Definition upgrade_rollback (wasReady : bool) (cause : app_error) (replaced : list replacement) (storage : storageTransaction) (accountCreated : bool)
    (m : machine W) : attempt :=
  let '(l, m) := loaded manager m in
  let '(f1, m) := (match l with
                   | Err e => (Some e, m)
                   | Ok true => let '(r, m) := launchctl manager ["bootout"; job manager] m in
                                (match r with Ok _ => None | Err e => Some (Wrapped "unload failed upgrade" (re_error e)) end, m)
                   | Ok false => (None, m)
                   end) in
  let '(f2, m) := (match mg_Recover manager with None => (None, m) | Some _ => let '(r, m) := recover manager m in (error_in r, m) end) in
  let '(es, m) := each rollback_replacement (rev replaced) m in
  let '(s, m) := rollback_storage storage m in
  let '(p, m) := (if accountCreated then let '(r, m) := wa_Purge (mg_Accounts manager) m in (error_in r, m) else (None, m)) in
  let '(b, m) := restore_ready wasReady "restore previous service after rollback" m in
  (join [Some cause; f1; f2; join es; s; p; b], es ++ [s; p], m).

(** With the storage prepared: the replacements, the restart, the end. *)
Definition upgrade_replace (wasReady : bool) (items : list staged) (storage : storageTransaction) (accountCreated : bool) (m : machine W) : bool * attempt :=
  match activate_all items [] m with
  | (Some e, replaced, m) => (false, upgrade_rollback wasReady e replaced storage accountCreated m)
  | (None, replaced, m) =>
      let finish (m : machine W) := let '(es, m) := each commit_replacement replaced m in (wasReady, (unwind es None, [], m)) in
      if wasReady then
        match restartService manager m with
        | (Err e, m) => (false, upgrade_rollback wasReady (Wrapped "start upgraded service" e) replaced storage accountCreated m)
        | (Ok _, m) => finish m
        end
      else finish m
  end.

(** An error after the service was stopped and before anything was replaced. *)
Definition interrupted (wasReady : bool) (e : app_error) (m : machine W) : bool * attempt :=
  let '(b, m) := restore_ready wasReady "restore previous service after interrupted upgrade" m in (false, (join [Some e; b], [], m)).

Definition upgrade_stopped (wasReady : bool) (items : list staged) (m : machine W) : bool * attempt :=
  match ensureDirectory (ly_RuntimeDir layout) mode_0755 (mg_OwnerUID manager) m with
  | (Err e, m) => interrupted wasReady e m
  | (Ok _, m) =>
      match wa_Ensure (mg_Accounts manager) m with
      | (Err e, m) => interrupted wasReady e m
      | (Ok (identity, accountCreated), m) =>
          match prepareWorkerStorage layout (mg_OwnerUID manager) identity m with
          | (Err e, m) =>
              if accountCreated then
                let '(p, m) := wa_Purge (mg_Accounts manager) m in interrupted wasReady (join_errors (e :: match error_in p with Some e' => [e'] | None => [] end)) m
              else interrupted wasReady e m
          | (Ok storage, m) => upgrade_replace wasReady items storage accountCreated m
          end
      end
  end.

Context (xml_tokens : string -> list xml_token * bool).

(** The boot policy: given, or that of the installed manifest. *)
Definition boot_policy_of (startAtBoot : option bool) : A bool :=
  match startAtBoot with
  | Some b => act_ret b
  | None =>
      act! info := act_wrap (os_wrap "read installed launchd manifest") (open_ (ly_Plist layout)) in
      act! _ := act_wrap (os_wrap "read installed launchd manifest") plain in
      act_of (ManifestStartAtBoot xml_tokens (nd_data info))
  end.

(** What is staged, with its targets. *)
Definition upgrade_stagings (binarySource configSource : string) (startAtBoot : option bool) : list (A string) * list string :=
  let plist : A string :=
    act! b := boot_policy_of startAtBoot in
    act! manifest := act_of (Manifest layout b) in
    stageContents manifest (ly_Plist layout) mode_0644 in
  let binary := stageCopy binarySource (ly_Binary layout) mode_0755 maxInstalledFileSize in
  if bool_decide (configSource = "")
  then ([binary; plist], [ly_Binary layout; ly_Plist layout])
  else ([binary; stageCopy configSource (ly_Config layout) mode_0600 MaxConfigSize; plist], [ly_Binary layout; ly_Config layout; ly_Plist layout]).

Definition upgrade_checks : A bool :=
  act! _ := require_installed manager in
  act! before := mg_Probe manager in
  act_ret (is_ready before).

Definition Upgrade (binarySource configSource : string) (startAtBoot : option bool) (m : machine W) : bool * attempt :=
  match upgrade_checks m with
  | (Err e, m) => (false, (Some e, [], m))
  | (Ok wasReady, m) =>
      let '(stagings, targets) := upgrade_stagings binarySource configSource startAtBoot in
      let '(err, stages, m) := stage_all stagings [] m in
      let '(restarted, (err, undone, m)) :=
        (match err with
         | Some e => (false, (Some e, [], m))
         | None =>
             match Stop manager m with
             | (Err e, m) => (false, (Some e, [], m))
             | (Ok _, m) => upgrade_stopped wasReady (zip_with (fun s t => (s, t, false)) stages targets) m
             end
         end) in
      let '(_, m) := remove_stages (rev stages) m in
      (restarted, (err, undone, m))
  end.

(** ** Uninstall *)

Definition uninstall_targets (purge : bool) : list string :=
  [ly_Plist layout; ly_Binary layout]
  ++ if purge then [ly_Config layout; ly_FakeIPv4 layout; ly_FakeIPv6 layout; ly_StandardOut layout; ly_StandardErr layout] else [].

Fixpoint remove_all (targets : list string) (removals : list removal) (m : machine W) : option app_error * list removal * machine W :=
  match targets with
  | [] => (None, removals, m)
  | target :: targets' =>
      match stageRemoval target m with
      | (Ok r, m) => remove_all targets' (removals ++ [r]) m
      | (Err e, m) => (Some e, removals, m)
      end
  end.

(** The closure [rollback], after an error. *)
Definition uninstall_rollback (before : RuntimeState) (e : app_error) (removals : list removal) (m : machine W) : attempt :=
  let '(es, m) := each rollback_removal (rev removals) m in
  let '(r, m) := restoreServiceState manager before m in
  (join [Some e; join (es ++ [error_in r])], es, m).

(** Removing the directories that are empty. *)
Fixpoint remove_directories (directories : list string) (err : option app_error) (m : machine W) : option app_error * machine W :=
  match directories with
  | [] => (err, m)
  | directory :: directories' =>
      match Remove directory m with
      | (Ok _, m) | (Err (ENOENT | ENOTEMPTY | EEXIST), m) => remove_directories directories' err m
      | (Err e, m) => remove_directories directories' (join [err; Some (os_wrap "remove empty service directory" e)]) m
      end
  end.

Definition uninstall_directories : list string :=
  [ly_WorkerDir layout; ly_RuntimeDir layout; ly_DataDir layout; ly_LogDirectory layout; dir (ly_Config layout)].

(** From the point on where nothing is taken back. *)
Definition uninstall_commit (purge : bool) (removals : list removal) (m : machine W) : attempt :=
  let '(e, m) := commitRemovals removals m in
  let err := match e with Some e => join [None; Some (Wrapped "clean committed uninstall artifacts" e)] | None => None end in
  if purge then let '(err, m) := remove_directories uninstall_directories err m in (err, [], m) else (err, [], m).

Definition uninstall_remove (purge : bool) (before : RuntimeState) (m : machine W) : attempt :=
  match remove_all (uninstall_targets purge) [] m with
  | (Some e, removals, m) => uninstall_rollback before e removals m
  | (None, removals, m) =>
      if purge then
        match wa_Purge (mg_Accounts manager) m with
        | (Err e, m) => uninstall_rollback before e removals m
        | (Ok _, m) => uninstall_commit purge removals m
        end
      else uninstall_commit purge removals m
  end.

(** An error before anything was removed. *)
Definition uninstall_aborted (before : RuntimeState) (e : app_error) (m : machine W) : attempt :=
  let '(r, m) := restoreServiceState manager before m in (join [Some e; error_in r], [], m).

Definition uninstall_checks : A RuntimeState :=
  act! _ := validate manager in
  act! _ := requireRoot manager in
  act! before := mg_Probe manager in
  act! _ := Stop manager in
  act_ret before.

Definition Uninstall (purge : bool) (m : machine W) : attempt :=
  match uninstall_checks m with
  | (Err e, m) => (Some e, [], m)
  | (Ok before, m) =>
      match recover manager m with
      | (Err e, m) => uninstall_aborted before (Wrapped "recover service state before uninstall" e) m
      | (Ok _, m) =>
          if purge then
            match wa_Resolve (mg_Accounts manager) m with
            | (Err e, m) => uninstall_aborted before (Wrapped "validate dedicated worker identity before purge" e) m
            | (Ok _, m) => uninstall_remove purge before m
            end
          else uninstall_remove purge before m
      end
  end.
End transactions.
