(* ===== verification/LaunchFacts.v ===== *)
(** * Component [internal/launchservice]: what the calls leave alone

    The artifacts of the service and the temporary files next to them, and
    that everything except their replacement leaves them alone; then staging,
    activating with a backup, undoing and committing, one and many; at last
    that starting, stopping and waiting for the service, its storage and its
    account leave them alone, when the tools they call do. *)

From S2P Require Import Prelude.
From S2P Require Import GoStrings.
From S2P Require Import GoFiles.
From S2P Require Import Apperror.
From S2P Require Import Privsep.
From S2P Require Import LaunchLayout.
From S2P Require Import LaunchFiles.
From S2P Require Import LaunchStorage.
From S2P Require Import LaunchManager.

(** ** The paths that matter *)

Section frame.
Context {W : Type} (targets sources : list string).

(** What the names of temporary files next to a target begin with. *)
Definition temp_prefix (target : string) : string := temp_path (dir target) ".tun-proxy-" "".

(** The targets and the temporary files next to them. *)
Definition reserved (p : string) : bool := bool_decide (p ∈ targets) || existsb (fun t => has_prefix p (temp_prefix t)) targets.

Definition kept (p : string) : bool := reserved p || bool_decide (p ∈ sources).

(** Nothing of this is a directory of a target, and no target looks like a
    temporary file. *)
Definition separate : bool :=
  bool_decide (NoDup targets)
  && forallb (fun t => forallb (fun t' => negb (has_prefix t' (temp_prefix t))) targets) targets
  && forallb (fun t => negb (kept (dir t))) targets.

(** A path that may come and go. *)
Definition free (p : string) : bool := negb (kept p) && negb (bool_decide (p ∈ dir <$> targets)).

(** The calls that are going to fail. *)
Definition faults (m : machine W) : nat := length (filter (fun o => fails o = true) (mc_outcomes m)).

Definition dirs_exist (fs : files) : Prop := forall t, t ∈ targets -> is_Some (fs !! dir t).

(** Targets and existing files that matter stay as they are. *)
Definition frame (fs fs' : files) : Prop :=
  forall p, kept p = true -> is_Some (fs !! p) \/ p ∈ targets -> fs' !! p = fs !! p.

Record calm (m m' : machine W) : Prop := {
  cm_frame : frame (mc_fs m) (mc_fs m');
  cm_dirs : dirs_exist (mc_fs m) -> dirs_exist (mc_fs m');
  cm_faults : (faults m' <= faults m)%nat;
  cm_uid : mc_uid m' = mc_uid m
}.

Definition leaves {E A} (f : act (machine W) E A) : Prop := forall m, calm m (f m).2.

Lemma frame_refl fs : frame fs fs.
Proof. done. Qed.

Lemma frame_trans fs1 fs2 fs3 : frame fs1 fs2 -> frame fs2 fs3 -> frame fs1 fs3.
Proof.
  intros H1 H2 p Hk Hp. rewrite <- (H1 p Hk Hp). apply H2; [done|]. rewrite (H1 p Hk Hp). done.
Qed.

#[export] Instance calm_preorder : PreOrder calm.
Proof.
  split; [by intros m; split|]. intros m1 m2 m3 [F1 D1 N1 U1] [F2 D2 N2 U2]. split; [by eapply frame_trans|by auto|lia|congruence].
Qed.

Lemma reserved_kept p : reserved p = true -> kept p = true.
Proof. intros H. unfold kept. by rewrite H. Qed.

Lemma target_reserved t : t ∈ targets -> reserved t = true.
Proof. intros H. unfold reserved. by rewrite bool_decide_eq_true_2. Qed.

Section separated.
Hypothesis Hsep : separate = true.

Lemma separate_nodup : NoDup targets.
Proof. unfold separate in Hsep. apply andb_true_iff in Hsep as [H _]. apply andb_true_iff in H as [H _]. by apply bool_decide_eq_true in H. Qed.

Lemma dir_not_kept t : t ∈ targets -> kept (dir t) = false.
Proof.
  intros Ht. unfold separate in Hsep. apply andb_true_iff in Hsep as [_ H]. rewrite forallb_forall in H.
  specialize (H t (proj1 (list_elem_of_In _ _) Ht)). by apply negb_true_iff in H.
Qed.

Lemma target_not_temp t t' : t ∈ targets -> t' ∈ targets -> has_prefix t' (temp_prefix t) = false.
Proof.
  intros Ht Ht'. unfold separate in Hsep. apply andb_true_iff in Hsep as [H _]. apply andb_true_iff in H as [_ H]. rewrite forallb_forall in H.
  specialize (H t (proj1 (list_elem_of_In _ _) Ht)). rewrite forallb_forall in H. specialize (H t' (proj1 (list_elem_of_In _ _) Ht')). by apply negb_true_iff in H.
Qed.

(** A temporary file is reserved and is no target. *)
Lemma temp_reserved t pattern name : t ∈ targets ->
  reserved (temp_path (dir t) (".tun-proxy-" +:+ pattern) name) = true /\ temp_path (dir t) (".tun-proxy-" +:+ pattern) name ∉ targets.
Proof.
  intros Ht. assert (Hp : has_prefix (temp_path (dir t) (".tun-proxy-" +:+ pattern) name) (temp_prefix t) = true).
  { unfold temp_prefix, temp_path. rewrite sapp_nil_r, !sapp_assoc. apply has_prefix_spec. eexists. by rewrite <- !sapp_assoc. }
  split.
  - unfold reserved. apply orb_true_iff. right. apply existsb_exists. exists t. split; [by apply list_elem_of_In|done].
  - intros Hin. rewrite (target_not_temp t _ Ht Hin) in Hp. done.
Qed.

Lemma insert_dirs p n fs : dirs_exist fs -> dirs_exist (<[p := n]> fs).
Proof. intros H t Ht. destruct (decide (p = dir t)) as [->|]; [rewrite lookup_insert_eq; by eexists|rewrite lookup_insert_ne by done; by apply H]. Qed.

Lemma delete_dirs p fs : p ∉ dir <$> targets -> dirs_exist fs -> dirs_exist (delete p fs).
Proof. intros Hp H t Ht. rewrite lookup_delete_ne; [by apply H|]. intros ->. apply Hp. by apply list_elem_of_fmap_2. Qed.

Lemma kept_not_dir p : kept p = true -> p ∉ dir <$> targets.
Proof. intros Hk (t & -> & Ht)%list_elem_of_fmap. by rewrite (dir_not_kept t Ht) in Hk. Qed.

Lemma frame_insert p n fs : kept p = false -> frame fs (<[p := n]> fs).
Proof. intros Hp q Hq _. rewrite lookup_insert_ne; [done|]. intros ->. congruence. Qed.

Lemma frame_delete p fs : kept p = false -> frame fs (delete p fs).
Proof. intros Hp q Hq _. rewrite lookup_delete_ne; [done|]. intros ->. congruence. Qed.

Lemma frame_fresh p n fs : fs !! p = None -> p ∉ targets -> frame fs (<[p := n]> fs).
Proof. intros Hp Ht q Hq [[x Hx]|Hx]; rewrite lookup_insert_ne; try done; intros ->; [congruence|done]. Qed.
End separated.

(** ** Calls *)

Lemma next_call_spec (m : machine W) : let '(o, m') := next_call m in
  mc_fs m' = mc_fs m /\ mc_uid m' = mc_uid m /\ if fails o then faults m = S (faults m') else faults m' = faults m.
Proof.
  unfold next_call, faults. destruct (mc_outcomes m) as [|o os] eqn:E; cbn [mc_fs mc_uid mc_outcomes]; [by rewrite E|].
  rewrite filter_cons. destruct o; cbn [fails]; by rewrite ?decide_True, ?decide_False by done.
Qed.

(** A call works on the files, or fails without touching them. *)
Lemma sys_spec {A} (f : files -> result os_error (A * files)) (m : machine W) : let '(r, m') := sys f m in
  mc_uid m' = mc_uid m /\ (faults m' <= faults m)%nat /\
  match r with
  | Ok a => f (mc_fs m) = Ok (a, mc_fs m') /\ faults m' = faults m
  | Err e => mc_fs m' = mc_fs m /\ (faults m = S (faults m') \/ f (mc_fs m) = Err e)
  end.
Proof.
  unfold sys. pose proof (next_call_spec m) as H. destruct (next_call m) as [o m1]. destruct H as (Hfs & Huid & Hn).
  destruct (fails o).
  { split; [done|]. split; [lia|]. split; [done|]. by left. }
  rewrite <- Hfs. destruct (f (mc_fs m1)) as [[a fs]|e]; cbn.
  - split; [done|]. unfold faults in *. cbn. split; [lia|]. by split.
  - split; [done|]. split; [lia|]. split; [done|]. by right.
Qed.

(** Without faults, a call that can work does. *)
Lemma sys_works {A} (f : files -> result os_error (A * files)) (m : machine W) a fs :
  faults m = 0%nat -> f (mc_fs m) = Ok (a, fs) -> exists m', sys f m = (Ok a, m') /\ mc_fs m' = fs /\ faults m' = 0%nat /\ mc_uid m' = mc_uid m.
Proof.
  intros Hn Hf. pose proof (sys_spec f m) as H. destruct (sys f m) as [[a'|e] m']; destruct H as (Hu & Hl & H).
  - destruct H as [H ?]. rewrite Hf in H. injection H as <- ->. exists m'. split; [done|]. split; [done|]. split; [lia|done].
  - destruct H as [_ [H|H]]; [lia|congruence].
Qed.

Lemma leaves_sys {A} (f : files -> result os_error (A * files)) :
  (forall fs a fs', f fs = Ok (a, fs') -> frame fs fs' /\ (dirs_exist fs -> dirs_exist fs')) -> leaves (sys f).
Proof.
  intros Hf m. pose proof (sys_spec f m) as H. destruct (sys f m) as [[a|e] m']; destruct H as (Hu & Hn & H); cbn [snd].
  - destruct H as [H _]. destruct (Hf _ _ _ H) as [H1 H2]. by split.
  - destruct H as [H _]. split; rewrite ?H; done.
Qed.

Lemma leaves_bind {E A B} (f : act (machine W) E A) (g : A -> act (machine W) E B) : leaves f -> (forall a, leaves (g a)) -> leaves (act_bind f g).
Proof.
  intros Hf Hg m. unfold act_bind. pose proof (Hf m) as H. destruct (f m) as [[a|e] m1]; [|done]. cbn [snd] in H. rewrite H. apply Hg.
Qed.

Lemma leaves_ret {E A} (a : A) : leaves (act_ret (E := E) a).
Proof. intros m. reflexivity. Qed.

Lemma leaves_fail {E A} (e : E) : leaves (act_fail (A := A) e).
Proof. intros m. reflexivity. Qed.

Lemma leaves_of {E A} (r : result E A) : leaves (act_of r).
Proof. intros m. reflexivity. Qed.

Lemma leaves_wrap {E E' A} (f : E' -> E) (m : act (machine W) E' A) : leaves m -> leaves (act_wrap f m).
Proof. intros H s. unfold act_wrap. specialize (H s). by destruct (m s) as [[]]. Qed.

Lemma leaves_unless {E A} b (e : E) (k : act (machine W) E A) : leaves k -> leaves (act_unless b e k).
Proof. intros H. unfold act_unless. destruct b; [apply leaves_fail|done]. Qed.

Lemma leaves_if {E A} (b : bool) (k1 k2 : act (machine W) E A) : leaves k1 -> leaves k2 -> leaves (if b then k1 else k2).
Proof. by destruct b. Qed.

Lemma leaves_dropped {A} (m : act (machine W) os_error A) : leaves m -> leaves (dropped m).
Proof. intros H s. unfold dropped. specialize (H s). by destruct (m s). Qed.

Lemma leaves_on_error {A} (m : act (machine W) app_error A) c : leaves m -> leaves c -> leaves (on_error m c).
Proof.
  intros Hm Hc s. unfold on_error. pose proof (Hm s) as H. destruct (m s) as [[a|e] s1]; [done|]. cbn [snd] in H.
  pose proof (Hc s1) as H1. destruct (c s1) as [u s2]. cbn [snd] in *. by rewrite H.
Qed.

Lemma leaves_plain : leaves (plain (W := W)).
Proof. apply leaves_sys. by intros fs a fs' [= _ <-]. Qed.

Lemma leaves_lstat p : leaves (Lstat (W := W) p).
Proof. apply leaves_sys. intros fs a fs' H. unfold get_node in H. destruct (fs !! p); [|done]. by injection H as _ <-. Qed.

Lemma leaves_sync p : leaves (syncDirectory (W := W) p).
Proof. apply leaves_bind; [apply leaves_lstat|intros n]. apply leaves_bind; [apply leaves_plain|intros u]. apply leaves_dropped, leaves_plain. Qed.

Lemma leaves_change p f : kept p = false -> leaves (change_node (W := W) p f).
Proof.
  intros Hp. apply leaves_sys. intros fs a fs' H. unfold get_node in H. destruct (fs !! p) as [n|] eqn:E; [|done]. injection H as _ <-.
  split; [by apply frame_insert|apply insert_dirs].
Qed.

(** A call whose effect depends on the machine. *)
Lemma calm_sys {A} (f : files -> result os_error (A * files)) (m : machine W) :
  (forall fs a fs', f fs = Ok (a, fs') -> frame fs fs' /\ (dirs_exist fs -> dirs_exist fs')) -> calm m (sys f m).2.
Proof. intros Hf. by apply leaves_sys. Qed.

Lemma leaves_mkdir p mode : kept p = false -> leaves (Mkdir (W := W) p mode).
Proof.
  intros Hp m. unfold Mkdir. apply calm_sys. intros fs a fs' H. apply guard_err_Ok in H as [_ H]. apply guard_err_Ok in H as [_ H]. injection H as _ <-.
  split; [by apply frame_insert|apply insert_dirs].
Qed.

Lemma leaves_remove p : free p = true -> leaves (Remove (W := W) p).
Proof.
  intros Hp. apply andb_true_iff in Hp as [Hk%negb_true_iff Hd%negb_true_iff%bool_decide_eq_false]. apply leaves_sys. intros fs a fs' H.
  unfold get_node in H. destruct (fs !! p); [|done]. cbn in H. apply guard_err_Ok in H as [_ H]. injection H as _ <-.
  split; [by apply frame_delete|by apply delete_dirs].
Qed.

Fixpoint ancestors (n : nat) (p : string) : list string := match n with O => [] | S n' => p :: ancestors n' (dir p) end.

Lemma leaves_mkdir_all fuel p mode : Forall (fun q => kept q = false) (ancestors fuel p) -> leaves (MkdirAll_from (W := W) fuel p mode).
Proof.
  revert p. induction fuel as [|fuel IH]; intros p Hp; cbn [MkdirAll_from]; [apply leaves_fail|].
  apply Forall_cons in Hp as [Hp Hps]. intros m. pose proof (leaves_lstat p m) as H. destruct (Lstat p m) as [[n|e] m1]; [exact H|]. cbn [snd] in H. rewrite H.
  match goal with |- context [act_bind ?a ?b m1] => assert (Hm : leaves (act_bind a b)) end.
  { apply leaves_bind; [|intros u; by apply leaves_mkdir]. apply leaves_if; [apply leaves_ret|by apply IH]. }
  pose proof (Hm m1) as H1. destruct (act_bind _ _ m1) as [[u|e'] m2]; [done|]. cbn [snd] in H1. rewrite H1.
  pose proof (leaves_lstat p m2) as H2. by destruct (Lstat p m2) as [[n|e''] m3].
Qed.

(** The directories that may have to be created. *)
Definition creatable (p : string) : bool := forallb (fun q => negb (kept q)) (ancestors (S (String.length p)) p).

Lemma leaves_ensure p mode uid : creatable p = true -> leaves (ensureDirectory (W := W) p mode uid).
Proof.
  intros Hp. assert (Hf : Forall (fun q => kept q = false) (ancestors (S (String.length p)) p)).
  { apply Forall_forall. intros q Hq. unfold creatable in Hp. rewrite forallb_forall in Hp. by apply negb_true_iff, Hp, list_elem_of_In. }
  assert (Hk : kept p = false) by (cbn [ancestors] in Hf; by apply Forall_cons in Hf as [? _]).
  unfold ensureDirectory. apply leaves_unless, leaves_bind; [apply leaves_wrap; by apply leaves_mkdir_all|intros u].
  apply leaves_bind; [apply leaves_wrap, leaves_lstat|intros info]. do 2 apply leaves_unless. apply leaves_wrap. by apply leaves_change.
Qed.

Lemma leaves_inspect p size : leaves (inspectSource (W := W) p size).
Proof.
  assert (Hc : leaves (dropped (plain (W := W)))) by apply leaves_dropped, leaves_plain.
  unfold inspectSource. apply leaves_unless, leaves_bind; [apply leaves_wrap, leaves_lstat|intros info]. do 2 apply leaves_unless.
  apply leaves_bind; [apply leaves_wrap, leaves_lstat|intros opened]. do 2 (apply leaves_bind; [apply leaves_on_error; [apply leaves_wrap, leaves_plain|done]|intros ?]).
  apply leaves_ret.
Qed.
End frame.

(** * Staging, activating and undoing *)

Section staging.
Context {W : Type} (targets sources : list string).
Hypothesis Hsep : separate targets sources = true.

Notation kept := (kept targets sources).
Notation reserved := (reserved targets).
Notation calm := (calm (W := W) targets sources).
Notation leaves := (leaves (W := W) targets sources).
Notation dirs_exist := (dirs_exist targets).

(** ** Temporary files *)

(** A file that appeared next to a target. *)
Record temporary (fs : files) (path : string) : Prop := {
  tp_reserved : reserved path = true;
  tp_other : path ∉ targets;
  tp_new : fs !! path = None
}.

Lemma fresh_path_new d pattern names fs path rest : fresh_path d pattern names fs = Some (path, rest) ->
  fs !! path = None /\ exists name, path = temp_path d pattern name.
Proof.
  induction names as [|name names IH]; cbn [fresh_path]; [done|]. case_bool_decide as H; [done|]. intros [= <- _].
  split; [by apply eq_None_not_Some|by eexists].
Qed.

Lemma CreateTemp_spec target pattern (m : machine W) r m' : target ∈ targets ->
  CreateTemp (dir target) (".tun-proxy-" +:+ pattern) m = (r, m') ->
  mc_uid m' = mc_uid m /\ (faults m' <= faults m)%nat /\
  match r with
  | Ok path => temporary (mc_fs m) path /\ exists gid, mc_fs m' = <[path := MkNode Regular mode_0600 (mc_uid m) gid ""]> (mc_fs m)
  | Err e => mc_fs m' = mc_fs m
  end.
Proof.
  intros Ht. unfold CreateTemp. destruct (fresh_path _ _ _ _) as [[path names]|] eqn:Ef; [|by intros [= <- <-]].
  apply fresh_path_new in Ef as [Hnew [name ->]].
  match goal with |- context [sys ?f ?m1] => pose proof (sys_spec f m1) as H; destruct (sys f m1) as [r1 m1'] end.
  intros [= <- <-]. destruct H as (Hu & Hn & H). cbn in Hu, Hn. split; [done|]. split; [done|]. destruct r1 as [p|e]; [|by destruct H].
  destruct H as [H _]. apply guard_err_Ok in H as [_ H]. injection H as <- Hfs.
  split; [|by eexists]. destruct (temp_reserved targets sources Hsep target pattern name Ht). by split.
Qed.

Lemma temporary_calm m m' path n : temporary (mc_fs m) path -> mc_fs m' = <[path := n]> (mc_fs m) -> mc_uid m' = mc_uid m ->
  (faults m' <= faults m)%nat -> calm m m'.
Proof.
  intros [Hr Ho Hn] Hfs Hu Hf. split; rewrite ?Hfs; [by apply frame_fresh|apply insert_dirs|done|done].
Qed.

(** A change of a file that was not there before. *)
Lemma frame_past fs fs' path : fs !! path = None -> path ∉ targets -> (forall p, p <> path -> fs' !! p = fs !! p) -> frame targets sources fs fs'.
Proof. intros Hn Ht Hp p _ Hk. apply Hp. intros ->. destruct Hk as [[x Hx]|Hx]; [congruence|done]. Qed.

(** ** Staging *)

(** Only the temporary file differs. *)
Definition only (path : string) (m m' : machine W) : Prop :=
  (forall p, p <> path -> mc_fs m' !! p = mc_fs m !! p) /\ mc_uid m' = mc_uid m /\ (faults m' <= faults m)%nat.

Lemma only_refl path m : only path m m.
Proof. done. Qed.

Lemma only_trans path m1 m2 m3 : only path m1 m2 -> only path m2 m3 -> only path m1 m3.
Proof. intros (H1 & U1 & N1) (H2 & U2 & N2). split; [intros p Hp; by rewrite H2, H1|]. split; [congruence|lia]. Qed.

Lemma only_calm path m m' : temporary (mc_fs m) path -> only path m m' -> calm m m'.
Proof.
  intros [Hr Ho Hn] (H & Hu & Hf). split; [by eapply frame_past| |done|done].
  intros Hd t Ht. rewrite H; [by apply Hd|]. intros <-. pose proof (dir_not_kept targets sources Hsep t Ht) as Hk.
  by rewrite (reserved_kept targets sources _ Hr) in Hk.
Qed.

Definition touches {E A} (path : string) (f : act (machine W) E A) : Prop := forall m, only path m (f m).2.

Lemma touches_bind {E A B} path (f : act (machine W) E A) (g : A -> act (machine W) E B) : touches path f -> (forall a, touches path (g a)) -> touches path (act_bind f g).
Proof.
  intros Hf Hg m. unfold act_bind. pose proof (Hf m) as H. destruct (f m) as [[a|e] m1]; [|done]. eapply only_trans; [exact H|apply Hg].
Qed.

Lemma touches_wrap {E E' A} path (f : E' -> E) (m : act (machine W) E' A) : touches path m -> touches path (act_wrap f m).
Proof. intros H s. unfold act_wrap. specialize (H s). by destruct (m s) as [[]]. Qed.

Lemma touches_dropped {A} path (m : act (machine W) os_error A) : touches path m -> touches path (dropped m).
Proof. intros H s. unfold dropped. specialize (H s). by destruct (m s). Qed.

Lemma touches_on_error {A} path (m : act (machine W) app_error A) c : touches path m -> touches path c -> touches path (on_error m c).
Proof.
  intros Hm Hc s. unfold on_error. pose proof (Hm s) as H. destruct (m s) as [[a|e] s1]; [done|].
  pose proof (Hc s1) as H1. destruct (c s1) as [u s2]. by eapply only_trans.
Qed.

Lemma touches_sys {A} path (f : files -> result os_error (A * files)) :
  (forall fs a fs' p, f fs = Ok (a, fs') -> p <> path -> fs' !! p = fs !! p) -> touches path (sys f).
Proof.
  intros Hf m. pose proof (sys_spec f m) as H. destruct (sys f m) as [[a|e] m']; destruct H as (Hu & Hn & H); cbn [snd].
  - split; [|done]. intros p Hp. destruct H as [H _]. by eapply Hf.
  - split; [|done]. intros p Hp. destruct H as [H _]. by rewrite H.
Qed.

Lemma touches_plain path : touches path (plain (W := W)).
Proof. apply touches_sys. by intros fs a fs' p [= _ <-]. Qed.

Lemma touches_remove path : touches path (Remove (W := W) path).
Proof.
  apply touches_sys. intros fs a fs' p H Hp. unfold get_node in H. destruct (fs !! path); [|done]. cbn in H. apply guard_err_Ok in H as [_ H].
  injection H as _ <-. by rewrite lookup_delete_ne.
Qed.

Lemma touches_change path f : touches path (change_node (W := W) path f).
Proof.
  apply touches_sys. intros fs a fs' p H Hp. unfold get_node in H. destruct (fs !! path); [|done]. injection H as _ <-. by rewrite lookup_insert_ne.
Qed.

Lemma touches_write path contents : touches path (Write (W := W) path contents).
Proof.
  intros m. unfold Write. pose proof (next_call_spec m) as H. destruct (next_call m) as [o m1]. destruct H as (Hfs & Hu & Hn).
  assert (Hf : (faults m1 <= faults m)%nat) by (destruct (fails o); lia).
  destruct (mc_fs m1 !! path) as [n|]; cbn [snd].
  - split; [|split; [done|done]]. intros p Hp. cbn. by rewrite lookup_insert_ne, Hfs.
  - split; [|done]. intros p _. by rewrite Hfs.
Qed.

Lemma touches_drop path : touches path (drop_stage (W := W) path).
Proof. apply touches_bind; [apply touches_dropped, touches_plain|intros u]. apply touches_dropped, touches_remove. Qed.

Lemma touches_seal path mode : touches path (seal_stage (W := W) path mode).
Proof.
  unfold seal_stage. apply touches_bind; [apply touches_wrap, touches_change|intros u]. apply touches_bind; [apply touches_wrap, touches_plain|intros ?].
  apply touches_wrap, touches_plain.
Qed.

Lemma change_spec path f (m m' : machine W) u : change_node path f m = (Ok u, m') ->
  exists n, mc_fs m !! path = Some n /\ mc_fs m' = <[path := f n]> (mc_fs m) /\ mc_uid m' = mc_uid m /\ faults m' = faults m.
Proof.
  unfold change_node. match goal with |- sys ?f m = _ -> _ => pose proof (sys_spec f m) as H end. intros Heq. rewrite Heq in H. destruct H as (Hu & _ & H & Hn).
  unfold get_node in H. destruct (mc_fs m !! path) as [n|]; [|done]. injection H as _ H. by exists n.
Qed.

Lemma plain_spec (m m' : machine W) r : plain m = (r, m') -> mc_fs m' = mc_fs m /\ mc_uid m' = mc_uid m /\ (faults m' <= faults m)%nat.
Proof.
  unfold plain. match goal with |- sys ?f m = _ -> _ => pose proof (sys_spec f m) as H end. intros Heq. rewrite Heq in H. destruct H as (Hu & Hn & H).
  destruct r; [|by destruct H]. destruct H as [[= _ H] _]. by rewrite H.
Qed.

Lemma lstat_spec path (m m' : machine W) r : Lstat path m = (r, m') -> mc_fs m' = mc_fs m /\ mc_uid m' = mc_uid m /\ (faults m' <= faults m)%nat /\
  match r with Ok n => mc_fs m !! path = Some n | Err ENOENT => mc_fs m !! path = None | Err _ => True end.
Proof.
  unfold Lstat. match goal with |- sys ?f m = _ -> _ => pose proof (sys_spec f m) as H end. intros Heq. rewrite Heq in H. destruct H as (Hu & Hn & H).
  unfold get_node in H. destruct r as [n|e].
  - destruct H as [H _]. destruct (mc_fs m !! path) as [n'|]; [|done]. injection H as <- H. by rewrite H.
  - destruct H as [H1 H2]. rewrite H1. split; [done|]. split; [done|]. split; [done|].
    destruct (mc_fs m !! path) as [n|] eqn:E; [|by destruct e]. destruct H2 as [H2|H2]; [|done]. destruct e; try done.
    exfalso. revert Heq. unfold sys. destruct (next_call m) as [o m1] eqn:Ec. destruct (fails o); [done|].
    pose proof (next_call_spec m) as Hc. rewrite Ec in Hc. destruct Hc as (-> & _). unfold get_node. by rewrite E.
Qed.

(** The end of a staging that works. *)
Lemma seal_spec path mode (m m' : machine W) u : seal_stage path mode m = (Ok u, m') ->
  exists n, mc_fs m !! path = Some n /\ mc_fs m' !! path = Some (with_perm mode n).
Proof.
  unfold seal_stage. intros H. apply act_bind_Ok in H as ([] & m1 & H1 & H). apply act_bind_Ok in H as ([] & m2 & H2 & H3).
  assert (Hw : forall {A} (f : os_error -> app_error) (c : act (machine W) os_error A) m a m', act_wrap f c m = (Ok a, m') -> c m = (Ok a, m')).
  { intros A f c m3 a m4. unfold act_wrap. destruct (c m3) as [[]]; [by intros [= -> ->]|done]. }
  apply Hw in H1, H2, H3. apply change_spec in H1 as (n & Hn & Hfs & _). apply plain_spec in H2 as (H2 & _). apply plain_spec in H3 as (H3 & _).
  exists n. split; [done|]. by rewrite H3, H2, Hfs, lookup_insert_eq.
Qed.

Lemma write_spec path contents (m m' : machine W) u : Write path contents m = (Ok u, m') ->
  exists n, mc_fs m !! path = Some n /\ mc_fs m' !! path = Some (with_data contents n).
Proof.
  unfold Write. pose proof (next_call_spec m) as H. destruct (next_call m) as [o m1]. destruct H as (Hfs & _). rewrite Hfs.
  destruct (mc_fs m !! path) as [n|]; [|done]. destruct o; intros [= _ <-]; cbn [mc_fs set_files]; rewrite lookup_insert_eq; exists n;
    (split; [done|]); rewrite stake_full by lia; done.
Qed.

Lemma on_error_Ok {A} (f : act (machine W) app_error A) c m a m' : on_error f c m = (Ok a, m') -> f m = (Ok a, m').
Proof. unfold on_error. destruct (f m) as [[]]; [done|]. by destruct (c _). Qed.

Lemma act_wrap_Ok' {E E' A} (f : E' -> E) (c : act (machine W) E' A) m a m' : act_wrap f c m = (Ok a, m') -> c m = (Ok a, m').
Proof. unfold act_wrap. destruct (c m) as [[]]; [by intros [= -> ->]|done]. Qed.

(** A stage: a new file next to its target. *)
Definition staged_file (fs fs' : files) (uid mode : Z) (data stage : string) : Prop :=
  temporary fs stage /\ exists gid, fs' !! stage = Some (MkNode Regular mode uid gid data).

(** The common part of both stagings: [body] writes the contents. *)
Lemma staging_spec target mode data (body : string -> act (machine W) app_error unit) (m : machine W) r m' : target ∈ targets ->
  (forall path, touches path (body path)) ->
  (forall path m1 m2 n, body path m1 = (Ok tt, m2) -> mc_fs m1 !! path = Some n -> mc_fs m2 !! path = Some (with_perm mode (with_data data n))) ->
  (act! path := act_wrap (os_wrap "create staged file") (CreateTemp (dir target) ".tun-proxy-stage-") in
   act! _ := on_error (body path) (drop_stage path) in act_ret path) m = (r, m') ->
  calm m m' /\ match r with Ok stage => staged_file (mc_fs m) (mc_fs m') (mc_uid m) mode data stage | Err _ => True end.
Proof.
  intros Ht Hb Hok. unfold act_bind, act_wrap. destruct (CreateTemp (dir target) ".tun-proxy-stage-" m) as [r1 m1] eqn:Ec.
  apply (CreateTemp_spec target "stage-") in Ec as (Hu & Hn & Hc); [|done]. destruct r1 as [path|e]; [|intros [= <- <-]; split; [|done]].
  2: { split; rewrite ?Hc; done. }
  destruct Hc as [Htmp [gid Hfs]].
  assert (H1 : only path m m1) by (split; [intros p Hp; by rewrite Hfs, lookup_insert_ne|done]).
  pose proof (touches_on_error path (body path) (drop_stage path) (Hb path) (touches_drop path) m1) as H2.
  destruct (on_error (body path) (drop_stage path) m1) as [[[]|e] m2] eqn:E2; intros [= <- <-]; cbn [snd] in H2.
  - split; [by eapply only_calm, only_trans|]. split; [done|]. exists gid. apply on_error_Ok in E2.
    erewrite Hok; [|exact E2|by rewrite Hfs, lookup_insert_eq]. done.
  - split; [by eapply only_calm, only_trans|done].
Qed.

Lemma stageContents_spec contents target mode (m : machine W) r m' : target ∈ targets -> stageContents contents target mode m = (r, m') ->
  calm m m' /\ match r with Ok stage => staged_file (mc_fs m) (mc_fs m') (mc_uid m) mode contents stage | Err _ => True end.
Proof.
  intros Ht. apply staging_spec; [done| |].
  - intros path. apply touches_bind; [apply touches_wrap, touches_write|intros u; apply touches_seal].
  - intros path m1 m2 n H Hn. apply act_bind_Ok in H as ([] & m3 & Hw & Hs). apply act_wrap_Ok', write_spec in Hw as (n' & Hn' & Hw).
    apply seal_spec in Hs as (n'' & Hn'' & Hs). rewrite Hs. congruence.
Qed.

Lemma leaves_same {A} (f : act (machine W) app_error A) m a m' : leaves f -> f m = (Ok a, m') -> calm m m'.
Proof. intros H E. specialize (H m). by rewrite E in H. Qed.

Lemma inspectSource_spec source maxSize (m m' : machine W) n : inspectSource source maxSize m = (Ok n, m') ->
  mc_fs m' = mc_fs m /\ mc_uid m' = mc_uid m /\ (faults m' <= faults m)%nat /\ mc_fs m !! source = Some n /\ nd_kind n = Regular /\ slen (nd_data n) <= maxSize.
Proof.
  unfold inspectSource. intros H. apply act_unless_Ok in H as [_ H]. apply act_bind_Ok in H as (info & m1 & H1 & H).
  apply act_wrap_Ok', lstat_spec in H1 as (F1 & U1 & N1 & L1). apply act_unless_Ok in H as [Hk H]. apply act_unless_Ok in H as [Hs H].
  apply negb_false_iff, bool_decide_eq_true in Hk. apply Z.ltb_ge in Hs. apply act_bind_Ok in H as (opened & m2 & H2 & H).
  apply act_wrap_Ok', lstat_spec in H2 as (F2 & U2 & N2 & L2). rewrite F1, L1 in L2. injection L2 as <-.
  apply act_bind_Ok in H as ([] & m3 & H3 & H). apply on_error_Ok, act_wrap_Ok', plain_spec in H3 as (F3 & U3 & N3).
  apply act_bind_Ok in H as ([] & m4 & H4 & H). apply on_error_Ok, act_wrap_Ok', plain_spec in H4 as (F4 & U4 & N4).
  injection H as <- <-. split; [congruence|]. split; [congruence|]. split; [lia|]. done.
Qed.

Lemma stageCopy_spec source target mode maxSize (m : machine W) r m' : target ∈ targets -> stageCopy source target mode maxSize m = (r, m') ->
  calm m m' /\ match r with
    | Ok stage => exists src, mc_fs m !! source = Some src /\ nd_kind src = Regular /\ slen (nd_data src) <= maxSize /\
                              staged_file (mc_fs m) (mc_fs m') (mc_uid m) mode (nd_data src) stage
    | Err _ => True
    end.
Proof.
  intros Ht. unfold stageCopy. unfold act_bind at 1. pose proof (leaves_inspect targets sources source maxSize m) as Hi.
  destruct (inspectSource source maxSize m) as [[n|e] m1] eqn:Ei; cbn [snd] in Hi; [|by intros [= <- <-]].
  apply inspectSource_spec in Ei as (Hfs & Hu & Hn & Hsrc & Hk & Hl).
  match goal with |- (let '(r, s) := ?c m1 in _) = _ -> _ => destruct (c m1) as [r2 m2] eqn:E2 end.
  intros H. assert (Hplain : exists m3, m3 = m' /\ mc_fs m3 = mc_fs m2 /\ calm m2 m3 /\ r = r2).
  { pose proof (leaves_plain targets sources m2) as Hc. destruct (plain m2) as [rp m3] eqn:Ep. injection H as <- <-. exists m3.
    apply plain_spec in Ep as (? & _). done. }
  destruct Hplain as (m3 & -> & Hfs3 & Hc3 & ->).
  apply (staging_spec target mode (nd_data n)) in E2 as [Hc E2]; [|done| |].
  - split; [by rewrite Hi, Hc, Hc3|]. destruct r2 as [stage|e]; [|done]. exists n. split; [done|]. split; [done|]. split; [done|].
    rewrite Hfs3, <- Hfs, <- Hu. done.
  - intros path. apply touches_bind; [apply touches_wrap, touches_plain|intros u]. apply touches_bind; [apply touches_wrap, touches_write|intros ?].
    unfold act_unless. destruct (maxSize <? _); [by intros s|apply touches_seal].
  - intros path m4 m5 k H4 Hk4. apply act_bind_Ok in H4 as ([] & m6 & Hp & H4). apply act_wrap_Ok', plain_spec in Hp as (Hp & _).
    apply act_bind_Ok in H4 as ([] & m7 & Hw & Hs). apply act_wrap_Ok', write_spec in Hw as (k' & Hk' & Hw). apply act_unless_Ok in Hs as [_ Hs].
    apply seal_spec in Hs as (k'' & Hk'' & Hs). rewrite Hs. rewrite Hp, Hk4 in Hk'. injection Hk' as <-. rewrite Hw in Hk''. injection Hk'' as <-.
    unfold limited. by rewrite (proj2 (Z.leb_le _ _)) by lia.
Qed.

(** ** Activating *)

(** How a target was replaced: its new file, and the backup of the old one. *)
Definition replaced_by (fs fs' : files) (r : replacement) : Prop :=
  rp_active r = true /\
  match rp_backup r with
  | Some b => temporary fs b /\ fs' !! b = fs !! rp_target r /\ is_Some (fs !! rp_target r)
  | None => fs !! rp_target r = None
  end.

Lemma rename_spec from to (m : machine W) r m' : Rename from to m = (r, m') -> mc_uid m' = mc_uid m /\ (faults m' <= faults m)%nat /\
  match r with
  | Ok _ => exists n, mc_fs m !! from = Some n /\ mc_fs m' = <[to := n]> (delete from (mc_fs m)) /\ faults m' = faults m
  | Err _ => mc_fs m' = mc_fs m /\ (faults m = S (faults m') \/ mc_fs m !! from = None \/ exists n, mc_fs m !! to = Some n /\ nd_kind n = Directory)
  end.
Proof.
  unfold Rename. match goal with |- sys ?f m = _ -> _ => pose proof (sys_spec f m) as H end. intros Heq. rewrite Heq in H. destruct H as (Hu & Hn & H).
  split; [done|]. split; [done|]. unfold get_node in H. destruct r as [u|e].
  - destruct H as [H Hf]. destruct (mc_fs m !! from) as [n|]; [|done]. exists n. split; [done|]. split; [|done].
    cbn in H. destruct (mc_fs m !! to) as [[[] ? ? ? ?]|]; try done; by injection H as _ <-.
  - destruct H as [Hfs H]. split; [done|]. destruct H as [H|H]; [by left|right]. destruct (mc_fs m !! from) as [n|]; [|by left]. right.
    cbn in H. destruct (mc_fs m !! to) as [[[] ? ? ? ?]|]; try done. by eexists.
Qed.

Lemma remove_spec path (m : machine W) r m' : Remove path m = (r, m') -> mc_uid m' = mc_uid m /\ (faults m' <= faults m)%nat /\
  match r with
  | Ok _ => is_Some (mc_fs m !! path) /\ mc_fs m' = delete path (mc_fs m) /\ faults m' = faults m
  | Err e => mc_fs m' = mc_fs m /\ (e = ENOENT -> mc_fs m !! path = None) /\
             (faults m = S (faults m') \/ mc_fs m !! path = None \/ exists n, mc_fs m !! path = Some n /\ nd_kind n = Directory)
  end.
Proof.
  intros Heq. pose proof Heq as Heq'. revert Heq. unfold Remove. match goal with |- sys ?f m = _ -> _ => pose proof (sys_spec f m) as H end.
  intros Heq. rewrite Heq in H. destruct H as (Hu & Hn & H). split; [done|]. split; [done|]. unfold get_node in H. destruct r as [u|e].
  - destruct H as [H Hf]. destruct (mc_fs m !! path) as [n|]; [|done]. cbn in H. apply guard_err_Ok in H as [_ H]. injection H as _ <-. by split.
  - destruct H as [Hfs H]. split; [done|]. destruct (mc_fs m !! path) as [n|] eqn:E; [|by split; [|right; left]]. split.
    + intros ->. exfalso. revert Heq'. unfold Remove, sys. pose proof (next_call_spec m) as Hc. destruct (next_call m) as [o m1]. destruct Hc as (-> & _).
      destruct (fails o); [done|]. unfold get_node. rewrite E. cbn. destruct (bool_decide _ && _); done.
    + destruct H as [H|H]; [by left|]. right; right. exists n. split; [done|]. cbn in H. apply guard_err_Err in H as [[H _]|[_ H]]; [|done].
      apply andb_true_iff in H as [H _]. by apply bool_decide_eq_true in H.
Qed.
End staging.

(** * One replacement, and many *)

Section replace.
Context {W : Type} (targets sources : list string).
Hypothesis Hsep : separate targets sources = true.

Notation kept := (kept targets sources).
Notation reserved := (reserved targets).
Notation calm := (calm (W := W) targets sources).
Notation dirs_exist := (dirs_exist targets).
Notation temporary := (temporary targets).
Notation replaced_by := (replaced_by targets).

Lemma sync_spec path (m : machine W) r m' : syncDirectory path m = (r, m') ->
  mc_fs m' = mc_fs m /\ mc_uid m' = mc_uid m /\ (faults m' <= faults m)%nat /\
  (is_err r = true -> is_Some (mc_fs m !! path) -> (faults m' < faults m)%nat).
Proof.
  unfold syncDirectory, act_bind, open_, Lstat, plain, dropped.
  match goal with |- context [sys ?f m] => pose proof (sys_spec f m) as H1; destruct (sys f m) as [[n|e] m1] end; destruct H1 as (U1 & N1 & H1).
  2: { intros [= <- <-]. destruct H1 as [F1 H1]. split; [done|]. split; [done|]. split; [done|]. intros _ [x Hx]. destruct H1 as [H1|H1]; [lia|].
       unfold get_node in H1. by rewrite Hx in H1. }
  destruct H1 as [H1 E1]. assert (F1 : mc_fs m1 = mc_fs m).
  { unfold get_node in H1. destruct (mc_fs m !! path); [|done]. by injection H1. }
  match goal with |- context [sys ?f m1] => pose proof (sys_spec f m1) as H2; destruct (sys f m1) as [[u|e] m2] end; destruct H2 as (U2 & N2 & H2).
  2: { intros [= <- <-]. destruct H2 as [F2 H2]. split; [congruence|]. split; [congruence|]. split; [lia|]. intros _ _. destruct H2 as [H2|H2]; [lia|done]. }
  destruct H2 as [[= _ F2] _].
  match goal with |- context [sys ?f m2] => pose proof (sys_spec f m2) as H3; destruct (sys f m2) as [[u'|e] m3] end; destruct H3 as (U3 & N3 & H3);
    intros [= <- <-].
  - destruct H3 as [[= _ F3] _]. split; [congruence|]. split; [congruence|]. split; [lia|done].
  - destruct H3 as [F3 _]. split; [congruence|]. split; [congruence|]. split; [lia|done].
Qed.

(** What a target was, once it is in the backup. *)
Definition backed_up (fs : files) (backup : option string) (old : option node) : Prop :=
  match backup with Some b => fs !! b = old /\ is_Some old | None => old = None end.

Definition backup_apart (stage target : string) (backup : option string) : Prop :=
  match backup with Some b => b <> stage /\ b <> target /\ b <> dir target | None => True end.

Lemma restore_works backup target old (m : machine W) : faults m = 0%nat -> backed_up (mc_fs m) backup old -> mc_fs m !! target = None ->
  forall m', (restore_backup backup target m).2 = m' ->
  mc_fs m' !! target = old /\ mc_uid m' = mc_uid m /\ faults m' = 0%nat /\ forall p, Some p <> backup -> p <> target -> mc_fs m' !! p = mc_fs m !! p.
Proof.
  intros Hn Hb Ht m' <-. unfold restore_backup. destruct backup as [b|]; cbn [backed_up] in Hb; [|cbn; by rewrite Ht, Hb].
  destruct Hb as [Hb [x ->]]. unfold dropped. destruct (Rename b target m) as [r m'] eqn:E. cbn [snd].
  apply rename_spec in E as (Hu & Hf & H). destruct r as [u|e].
  - destruct H as (n & Hn' & Hfs & Hf'). rewrite Hfs, lookup_insert_eq. split; [congruence|]. split; [done|]. split; [lia|].
    intros p Hp Hpt. rewrite lookup_insert_ne by done. rewrite lookup_delete_ne; [done|]. congruence.
  - destruct H as [_ [H|[H|(n & H & _)]]]; [lia|congruence|congruence].
Qed.

Lemma activate_spec stage target backup old n (m : machine W) r m' :
  mc_fs m !! stage = Some n -> nd_kind n = Regular -> mc_fs m !! target = None -> stage <> target -> stage <> dir target -> target <> dir target ->
  backed_up (mc_fs m) backup old -> backup_apart stage target backup -> is_Some (mc_fs m !! dir target) -> (faults m <= 1)%nat ->
  activate stage target backup m = (r, m') ->
  mc_uid m' = mc_uid m /\ (faults m' <= faults m)%nat /\
  (forall p, p <> stage -> p <> target -> Some p <> backup -> mc_fs m' !! p = mc_fs m !! p) /\
  match r with
  | Ok rp => rp = MkReplacement target backup true /\ mc_fs m' !! target = Some n /\ backed_up (mc_fs m') backup old
  | Err _ => mc_fs m' !! target = old
  end.
Proof.
  intros Hs Hreg Ht Hst Hsd Htd Hb Hapart Hdir Hn. unfold activate, act_bind, on_error, act_wrap.
  destruct (Rename stage target m) as [r1 m1] eqn:E1. apply rename_spec in E1 as (U1 & N1 & H1).
  destruct r1 as [u|e].
  2: { destruct H1 as [F1 H1]. assert (N1' : faults m1 = 0%nat) by (destruct H1 as [H1|[H1|(k & H1 & _)]]; [lia|congruence|congruence]).
       destruct (restore_backup backup target m1) as [u m2] eqn:E2.
       destruct (restore_works backup target old m1 N1') with (m' := m2) as (R1 & R2 & R3 & R4); [by rewrite F1|by rewrite F1|by rewrite E2|].
       intros [= <- <-]. split; [congruence|]. split; [lia|]. split; [|done]. intros p Hp1 Hp2 Hp3. rewrite R4, F1; [done|congruence|done]. }
  destruct H1 as (n' & Hn' & F1 & N1'). rewrite Hs in Hn'. injection Hn' as <-.
  assert (Hb1 : backed_up (mc_fs m1) backup old).
  { destruct backup as [b|]; [|done]. destruct Hb as [Hb ?], Hapart as (? & ? & ?). split; [|done]. by rewrite F1, lookup_insert_ne, lookup_delete_ne. }
  destruct (syncDirectory (dir target) m1) as [r2 m2] eqn:E2. apply sync_spec in E2 as (F2 & U2 & N2 & E2). destruct r2 as [u2|e].
  { intros [= <- <-]. split; [congruence|]. split; [lia|]. rewrite F2, F1. split; [|split; [done|split; [by rewrite lookup_insert_eq|by rewrite <- F1]]].
    intros p Hp1 Hp2 Hp3. by rewrite lookup_insert_ne, lookup_delete_ne. }
  assert (N2' : faults m2 = 0%nat).
  { specialize (E2 eq_refl). rewrite F1, lookup_insert_ne, lookup_delete_ne in E2 by done. specialize (E2 Hdir). lia. }
  unfold dropped at 1. destruct (Remove target m2) as [r3 m3] eqn:E3. apply remove_spec in E3 as (U3 & N3 & H3).
  assert (F3 : mc_fs m3 = delete target (mc_fs m2)).
  { destruct r3; [by destruct H3 as (_ & ? & _)|]. destruct H3 as (_ & _ & H3). rewrite F2, F1, lookup_insert_eq in H3.
    destruct H3 as [H3|[H3|(k & [= <-] & H3)]]; [lia|done|congruence]. }
  destruct (restore_backup backup target m3) as [u4 m4] eqn:E4.
  destruct (restore_works backup target old m3 ltac:(lia)) with (m' := m4) as (R1 & R2 & R3 & R4); [|by rewrite F3, lookup_delete_eq|by rewrite E4|].
  { destruct backup as [b|]; [|done]. destruct Hb1 as [Hb1 ?], Hapart as (? & ? & ?). split; [|done]. by rewrite F3, lookup_delete_ne, F2. }
  intros [= <- <-]. split; [congruence|]. split; [lia|]. split; [|done].
  intros p Hp1 Hp2 Hp3. rewrite R4 by congruence. rewrite F3, lookup_delete_ne by done. rewrite F2, F1. by rewrite lookup_insert_ne, lookup_delete_ne.
Qed.

Lemma dir_not_temp path t : reserved path = true -> t ∈ targets -> path <> dir t.
Proof. intros Hr Ht ->. apply (reserved_kept targets sources) in Hr. by rewrite (dir_not_kept targets sources Hsep t Ht) in Hr. Qed.

Lemma target_not_dir t t' : t ∈ targets -> t' ∈ targets -> t <> dir t'.
Proof. intros Ht Ht'. apply dir_not_temp; [by apply target_reserved|done]. Qed.

(** Moving a file away works as a whole or leaves it where it is. *)
Lemma make_backup_spec target info (m : machine W) r m' : target ∈ targets -> mc_fs m !! target = Some info -> make_backup target info m = (r, m') ->
  mc_uid m' = mc_uid m /\ (faults m' <= faults m)%nat /\
  match r with
  | Ok b => temporary (mc_fs m) b /\ mc_fs m' = <[b := info]> (delete target (mc_fs m))
  | Err _ => exists b, temporary (mc_fs m) b /\ (forall p, p <> b -> mc_fs m' !! p = mc_fs m !! p) \/ mc_fs m' = mc_fs m
  end.
Proof.
  intros Ht Hinfo. unfold make_backup, act_unless. destruct (negb _).
  { intros [= <- <-]. split; [done|]. split; [done|]. exists "". by right. }
  unfold act_bind, act_wrap. destruct (CreateTemp (dir target) ".tun-proxy-backup-" m) as [r1 m1] eqn:E1.
  apply (CreateTemp_spec targets sources Hsep target "backup-") in E1 as (U1 & N1 & E1); [|done].
  destruct r1 as [b|e]; [|intros [= <- <-]; split; [done|]; split; [done|]; exists ""; by right].
  destruct E1 as [Htmp [gid F1]]. destruct (plain m1) as [r2 m2] eqn:E2. apply plain_spec in E2 as (F2 & U2 & N2).
  assert (Hb : forall p, p <> b -> mc_fs m2 !! p = mc_fs m !! p) by (intros p Hp; by rewrite F2, F1, lookup_insert_ne).
  destruct r2 as [u2|e]; [|intros [= <- <-]; split; [congruence|]; split; [lia|]; exists b; by left].
  destruct (Remove b m2) as [r3 m3] eqn:E3. apply remove_spec in E3 as (U3 & N3 & E3).
  destruct r3 as [u3|e]; [|intros [= <- <-]; split; [congruence|]; split; [lia|]; exists b; left; split; [done|]; by destruct E3 as [-> _]].
  destruct E3 as (_ & F3 & _). assert (Hsame : mc_fs m3 = mc_fs m).
  { rewrite F3, F2, F1. apply delete_insert_id. apply Htmp. }
  destruct (Rename target b m3) as [r4 m4] eqn:E4. apply rename_spec in E4 as (U4 & N4 & E4). destruct r4 as [u4|e].
  - intros [= <- <-]. split; [congruence|]. split; [lia|]. split; [done|]. destruct E4 as (n & Hn & F4 & _). rewrite Hsame in *. congruence.
  - intros [= <- <-]. split; [congruence|]. split; [lia|]. exists b. right. destruct E4 as [F4 _]. congruence.
Qed.

(** A stage that can be activated. *)
Record ready_stage (fs : files) (stage : string) (n : node) : Prop := {
  rs_reserved : reserved stage = true;
  rs_other : stage ∉ targets;
  rs_node : fs !! stage = Some n;
  rs_regular : nd_kind n = Regular
}.

(** Only the stage, the target and what did not exist may change. *)
Definition others_kept (stage target : string) (fs fs' : files) : Prop :=
  forall p, p <> stage -> p <> target -> is_Some (fs !! p) \/ p ∈ targets -> fs' !! p = fs !! p.

Lemma others_dirs stage target fs fs' : reserved stage = true -> target ∈ targets -> others_kept stage target fs fs' -> dirs_exist fs -> dirs_exist fs'.
Proof.
  intros Hr Ht Ho Hd t Hin. rewrite Ho; [by apply Hd| | |left; by apply Hd].
  - intros H. by apply (dir_not_temp stage t Hr Hin).
  - intros H. by apply (target_not_dir target t Ht Hin).
Qed.

Lemma activateStage_spec stage target refuse n (m : machine W) r m' : target ∈ targets -> ready_stage (mc_fs m) stage n ->
  dirs_exist (mc_fs m) -> (faults m <= 1)%nat -> activateStage stage target refuse m = (r, m') ->
  mc_uid m' = mc_uid m /\ (faults m' <= faults m)%nat /\ others_kept stage target (mc_fs m) (mc_fs m') /\
  match r with
  | Ok rp => rp_target rp = target /\ replaced_by (mc_fs m) (mc_fs m') rp /\ mc_fs m' !! target = Some n
  | Err _ => mc_fs m' !! target = mc_fs m !! target
  end.
Proof.
  intros Ht [Hr Ho Hs Hreg] Hdirs Hn. unfold activateStage.
  assert (Hst : stage <> target) by (intros ->; done). pose proof (dir_not_temp stage target Hr Ht) as Hsd. pose proof (target_not_dir target target Ht Ht) as Htd.
  destruct (Lstat target m) as [r1 m1] eqn:E1. apply lstat_spec in E1 as (F1 & U1 & N1 & L1). destruct r1 as [info|e].
  - (* there is something to back up *)
    unfold act_unless. destruct refuse.
    { intros [= <- <-]. rewrite F1. split; [done|]. split; [done|]. by split. }
    unfold act_bind. destruct (make_backup target info m1) as [r2 m2] eqn:E2. apply make_backup_spec in E2 as (U2 & N2 & E2); [|done|by rewrite F1].
    rewrite F1 in E2. destruct r2 as [b|e].
    2: { intros [= <- <-]. split; [congruence|]. split; [lia|]. destruct E2 as [b [[[Hbr Hbo Hbn] E2]| ->]]; [|by split].
         assert (Hex : forall p, is_Some (mc_fs m !! p) \/ p ∈ targets -> p <> b) by (intros p [[x Hx]|Hx]; intros ->; [congruence|done]).
         split; [intros p _ _ Hp; by apply E2, Hex|]. apply E2, Hex. by right. }
    destruct E2 as [[Hbr Hbo Hbn] F2]. assert (Hbs : b <> stage) by congruence. assert (Hbt : b <> target) by congruence.
    destruct (activate stage target (Some b) m2) as [r3 m3] eqn:E3.
    apply (activate_spec stage target (Some b) (Some info) n) in E3 as (U3 & N3 & O3 & E3); [|by rewrite F2, lookup_insert_ne, lookup_delete_ne|done| |done|done|done| | | |lia].
    + intros [= <- <-]. split; [congruence|]. split; [lia|].
      assert (Hother : others_kept stage target (mc_fs m) (mc_fs m3)).
      { intros p Hp1 Hp2 Hp. assert (p <> b) by (destruct Hp as [[x Hx]|Hx]; [congruence|intros ->; done]).
        rewrite O3 by congruence. by rewrite F2, lookup_insert_ne, lookup_delete_ne. }
      split; [done|]. destruct r3 as [rp|e]; [|by rewrite E3, L1]. destruct E3 as (-> & Hnew & Hb & _). split; [done|]. split; [|done].
      split; [done|]. cbn. split; [by split|]. split; [by rewrite Hb, L1|by rewrite L1].
    + rewrite F2, lookup_insert_ne, lookup_delete_eq by done. done.
    + cbn. rewrite F2, lookup_insert_eq. by split.
    + cbn. split; [done|]. split; [done|]. by apply dir_not_temp.
    + rewrite F2, lookup_insert_ne, lookup_delete_ne; [by apply Hdirs|done|]. by apply dir_not_temp.
  - destruct e; try (intros [= <- <-]; rewrite F1; split; [done|]; split; [done|]; by split).
    intros E3. apply (activate_spec stage target None None n) in E3 as (U3 & N3 & O3 & E3); try done; try (by rewrite F1); [|by rewrite F1; apply Hdirs|lia].
    split; [congruence|]. split; [lia|].
    assert (Hother : others_kept stage target (mc_fs m) (mc_fs m')) by (intros p Hp1 Hp2 _; by rewrite O3, F1).
    split; [done|]. destruct r as [rp|e]; [|by rewrite E3, L1]. destruct E3 as (-> & Hnew & _). split; [done|]. split; [|done]. split; [done|]. exact L1.
Qed.

(** ** Many replacements *)

(** Where [r] keeps what its target was in [fs0]. *)
Definition keeps_old (fs0 fs : files) (r : replacement) : Prop :=
  rp_target r ∈ targets /\ rp_active r = true /\
  match rp_backup r with
  | Some b => reserved b = true /\ b ∉ targets /\ fs !! b = fs0 !! rp_target r /\ is_Some (fs0 !! rp_target r)
  | None => fs0 !! rp_target r = None
  end.

(** Every target is as in [fs0], or replaced with the old file kept. *)
Record backed (fs0 fs : files) (items : list replacement) : Prop := {
  bk_items : Forall (keeps_old fs0 fs) items;
  bk_targets : NoDup (rp_target <$> items);
  bk_backups : NoDup (omap rp_backup items);
  bk_rest : forall t, t ∈ targets -> t ∉ rp_target <$> items -> fs !! t = fs0 !! t
}.

Lemma backed_nil fs : backed fs fs [].
Proof. split; [constructor|constructor|constructor|done]. Qed.

Lemma keeps_old_frame fs0 fs fs' r :
  (forall p, is_Some (fs !! p) -> Some p = rp_backup r -> fs' !! p = fs !! p) -> keeps_old fs0 fs r -> keeps_old fs0 fs' r.
Proof.
  intros H (Ht & Ha & Hb). split; [done|]. split; [done|]. destruct (rp_backup r) as [b|]; [|done]. destruct Hb as (Hr & Ho & Hb & Hs).
  split; [done|]. split; [done|]. split; [|done]. rewrite H; [done|by rewrite Hb|done].
Qed.

Lemma backed_frame fs0 fs fs' items : frame targets sources fs fs' -> backed fs0 fs items -> backed fs0 fs' items.
Proof.
  intros Hf [Hi Ht Hb Hr]. split; [|done|done|].
  - rewrite Forall_forall in Hi |- *. intros r Hin. specialize (Hi r Hin). apply (keeps_old_frame fs0 fs); [|done].
    intros p Hs Hp. apply Hf; [|by left]. destruct Hi as (_ & _ & Hi). rewrite <- Hp in Hi. apply reserved_kept. by destruct Hi.
  - intros t Hin Hn. rewrite <- (Hr t Hin Hn). apply Hf; [by apply reserved_kept, target_reserved|by right].
Qed.

Lemma elem_backups b (items : list replacement) : b ∈ omap rp_backup items <-> exists r, r ∈ items /\ rp_backup r = Some b.
Proof. apply list_elem_of_omap. Qed.

Lemma backed_perm fs0 fs items items' : items ≡ₚ items' -> backed fs0 fs items -> backed fs0 fs items'.
Proof.
  intros Hp [Hi Ht Hb Hr]. split; [by rewrite <- Hp|by rewrite <- Hp|by rewrite <- Hp|]. intros t Hin Hn. apply Hr; [done|]. by rewrite Hp.
Qed.

(** One more replacement. *)
Lemma backed_snoc fs0 fs fs' items rp :
  backed fs0 fs items -> rp_target rp ∈ targets -> rp_target rp ∉ rp_target <$> items ->
  (forall p, p <> rp_target rp -> p ∈ omap rp_backup items \/ p ∈ targets -> fs' !! p = fs !! p) -> replaced_by fs fs' rp ->
  backed fs0 fs' (items ++ [rp]).
Proof.
  intros [Hi Htg Hb Hr] Ht Hnew Hother [Ha Hrep].
  assert (Hbt : forall r b, r ∈ items -> rp_backup r = Some b -> is_Some (fs !! b) /\ b <> rp_target rp).
  { intros r b Hin Heq. rewrite Forall_forall in Hi. destruct (Hi r Hin) as (_ & _ & H). rewrite Heq in H. destruct H as (_ & Ho & H & Hs).
    split; [by rewrite H|by intros ->]. }
  split.
  - apply Forall_app. split.
    + rewrite Forall_forall in Hi |- *. intros r Hin. apply (keeps_old_frame fs0 fs); [|by apply Hi]. intros p Hs Hp.
      destruct (Hbt r p Hin (eq_sym Hp)) as (_ & ?). apply Hother; [done|]. left. apply elem_backups. by exists r.
    + apply Forall_singleton. split; [done|]. split; [done|]. rewrite <- (Hr _ Ht Hnew). destruct (rp_backup rp) as [b|]; [|done].
      destruct Hrep as ([? ? ?] & Hb1 & Hs1). by rewrite Hb1.
  - rewrite fmap_app. apply NoDup_app. split; [done|]. split; [|apply NoDup_singleton]. intros x Hx ->%list_elem_of_singleton. done.
  - rewrite omap_app. apply NoDup_app. split; [done|]. cbn. destruct (rp_backup rp) as [b|] eqn:Eb; [|by split; [intros x _ ?%elem_of_nil|constructor]].
    split; [|apply NoDup_singleton]. intros x Hx ->%list_elem_of_singleton. apply elem_backups in Hx as (r & Hin & Hx).
    destruct (Hbt r b Hin Hx) as [[y Hy] _]. destruct Hrep as ([_ _ Hn] & _). congruence.
  - intros t Hin Hn. rewrite fmap_app in Hn. assert (Hne : t <> rp_target rp) by (intros ->; apply Hn; apply elem_of_app; right; by left).
    rewrite Hother; [|done|by right]. apply Hr; [done|]. intros H. apply Hn, elem_of_app. by left.
Qed.

(** ** Taking back *)

Lemma join_none es : join es = None <-> Forall (fun e => e = None) es.
Proof.
  unfold join. destruct (omap id es) eqn:E; split.
  - intros _. revert E. induction es as [|[e|] es IH]; cbn; intros E; [constructor|done|constructor; [done|by apply IH]].
  - done.
  - done.
  - intros H. exfalso. revert E. induction H as [|e es -> _ IH]; cbn; [done|]. apply IH.
Qed.

(** A replacement that is taken back without an error puts its target back;
    whatever happens, only its target and its backup change. *)
Lemma rollback_replacement_spec fs0 r (m : machine W) e r' m' : keeps_old fs0 (mc_fs m) r -> rollback_replacement r m = (e, r', m') ->
  (forall p, p <> rp_target r -> Some p <> rp_backup r -> mc_fs m' !! p = mc_fs m !! p) /\ mc_uid m' = mc_uid m /\ (faults m' <= faults m)%nat /\
  (e = None -> mc_fs m' !! rp_target r = fs0 !! rp_target r).
Proof.
  intros (Ht & Ha & Hb). unfold rollback_replacement. rewrite Ha. cbn [negb].
  destruct (Remove (rp_target r) m) as [r1 m1] eqn:E1. apply remove_spec in E1 as (U1 & N1 & E1).
  assert (H1 : (forall p, p <> rp_target r -> mc_fs m1 !! p = mc_fs m !! p) /\
    (match r1 with Err ENOENT => None | r => error_of r end = None -> mc_fs m1 !! rp_target r = None)).
  { destruct r1 as [u|er].
    - destruct E1 as (_ & -> & _). split; [intros p Hp; by rewrite lookup_delete_ne|]. intros _. by rewrite lookup_delete_eq.
    - destruct E1 as (-> & Hne & _). split; [done|]. destruct er; try done. intros _. by apply Hne. }
  destruct H1 as [O1 H1].
  destruct (match rp_backup r with Some backup => _ | None => _ end) as [f2 m2] eqn:E2.
  assert (H2 : (forall p, p <> rp_target r -> Some p <> rp_backup r -> mc_fs m2 !! p = mc_fs m1 !! p) /\ mc_uid m2 = mc_uid m1 /\ (faults m2 <= faults m1)%nat /\
    (f2 = None -> mc_fs m1 !! rp_target r = None -> mc_fs m2 !! rp_target r = fs0 !! rp_target r)).
  { destruct (rp_backup r) as [b|]; [|injection E2 as <- <-; split; [done|]; split; [done|]; split; [done|]; intros _ H; by rewrite H].
    destruct (Rename b (rp_target r) m1) as [r2 m3] eqn:E3. injection E2 as <- <-. apply rename_spec in E3 as (U3 & N3 & E3). destruct Hb as (Hbr & Hbo & Hbf & Hbs).
    assert (Hne : b <> rp_target r) by (intros ->; done). destruct r2 as [u|er].
    - destruct E3 as (n & Hn & -> & _). split; [intros p Hp1 Hp2; rewrite lookup_insert_ne by done; rewrite lookup_delete_ne; [done|congruence]|].
      split; [done|]. split; [done|]. intros _ _. rewrite lookup_insert_eq, <- Hbf. rewrite O1 in Hn by done. done.
    - destruct E3 as [-> _]. by split. }
  destruct H2 as (O2 & U2 & N2 & H2). destruct (syncDirectory _ m2) as [r3 m3] eqn:E3. apply sync_spec in E3 as (F3 & U3 & N3 & _).
  intros [= <- <- <-]. split; [intros p Hp1 Hp2; by rewrite F3, O2, O1|]. split; [congruence|]. split; [lia|].
  intros Hj. apply join_none in Hj. rewrite !Forall_cons in Hj. destruct Hj as (Hj1 & Hj2 & _). rewrite F3. by apply H2, H1.
Qed.

Lemma keeps_old_backup fs0 fs r b : keeps_old fs0 fs r -> rp_backup r = Some b -> b ∉ targets.
Proof. intros (_ & _ & H) Hb. rewrite Hb in H. by destruct H as (_ & ? & _). Qed.

Lemma backups_tail r items : NoDup (omap rp_backup (r :: items)) -> NoDup (omap rp_backup items).
Proof. cbn. destruct (rp_backup r); [by intros [_ ?]%NoDup_cons|done]. Qed.

(** Undoing the first of some items leaves the others what they need. *)
Lemma backed_tail fs0 fs fs' r items : backed fs0 fs (r :: items) ->
  (forall p, p <> rp_target r -> Some p <> rp_backup r -> fs' !! p = fs !! p) -> fs' !! rp_target r = fs0 !! rp_target r -> backed fs0 fs' items.
Proof.
  intros [Hi Ht Hb Hr] Ho Hback. pose proof Hi as [Hi1 Hi2]%Forall_cons. split; [|by apply NoDup_cons in Ht as [_ ?]|by eapply backups_tail|].
  - rewrite Forall_forall in Hi2 |- *. intros q Hq. apply (keeps_old_frame fs0 fs); [|by apply Hi2]. intros p _ Hp. apply Ho.
    + intros ->. apply (keeps_old_backup fs0 fs q _ (Hi2 q Hq) (eq_sym Hp)). by destruct Hi1.
    + intros Hbb. cbn in Hb. rewrite <- Hbb in Hb. apply NoDup_cons in Hb as [Hb _]. apply Hb, elem_backups. by exists q.
  - intros t Hin Hn. destruct (decide (t = rp_target r)) as [->|Hne]; [done|]. rewrite Ho; [|done|].
    + apply Hr; [done|]. cbn. intros [?|?]%elem_of_cons; done.
    + intros Hbb. by apply (keeps_old_backup fs0 fs r t Hi1).
Qed.

(** What a list of calls changes. *)
Lemma each_outside {T} (f : T -> machine W -> option app_error * T * machine W) (touched : T -> list string) items (m : machine W) es m' :
  (forall r m e r' m', f r m = (e, r', m') -> forall p, p ∉ touched r -> mc_fs m' !! p = mc_fs m !! p) ->
  each f items m = (es, m') -> forall p, (forall r, r ∈ items -> p ∉ touched r) -> mc_fs m' !! p = mc_fs m !! p.
Proof.
  intros Hf. revert m es m'. induction items as [|r items IH]; intros m es m'; cbn [each]; [by intros [= <- <-]|].
  destruct (f r m) as [[e r'] m1] eqn:E1. destruct (each f items m1) as [es1 m2] eqn:E2. intros [= <- <-] p Hp.
  rewrite (IH _ _ _ E2), (Hf _ _ _ _ _ E1); [done|apply Hp; by left|]. intros q Hq. apply Hp. by right.
Qed.

(** Items that are undone by [f], seen as replacements; [P] is what undoing
    an item needs of its target. *)
Section undoing.
Context {T : Type} (f : T -> machine W -> option app_error * T * machine W) (g : T -> replacement) (P : option node -> Prop).

Definition undoes : Prop := forall fs0 r m e r' m', keeps_old fs0 (mc_fs m) (g r) -> P (mc_fs m !! rp_target (g r)) -> f r m = (e, r', m') ->
  (forall p, p <> rp_target (g r) -> Some p <> rp_backup (g r) -> mc_fs m' !! p = mc_fs m !! p) /\
  (e = None -> mc_fs m' !! rp_target (g r) = fs0 !! rp_target (g r)).

(** Taking back a list: without an error every target is as it was. *)
Lemma undo_all_back fs0 items (m : machine W) es m' : undoes -> backed fs0 (mc_fs m) (g <$> items) ->
  Forall (fun r => P (mc_fs m !! rp_target (g r))) items -> each f items m = (es, m') ->
  Forall (fun e => e = None) es -> forall t, t ∈ targets -> mc_fs m' !! t = fs0 !! t.
Proof.
  intros Hu. revert m es m'. induction items as [|r items IH]; intros m es m' Hb HP; cbn [each].
  { intros [= <- <-] _ t Hin. apply Hb; [done|]. by intros ?%elem_of_nil. }
  destruct (f r m) as [[e r'] m1] eqn:E1. pose proof (bk_items _ _ _ Hb) as [Hi1 _]%Forall_cons. apply Forall_cons in HP as [HP1 HP2].
  apply (Hu fs0) in E1 as (O1 & H1); [|done|done]. destruct (each f items m1) as [es1 m2] eqn:E2. intros [= <- <-] [He Hes]%Forall_cons.
  apply (IH m1 es1 m2); [by eapply backed_tail; [exact Hb|done|apply H1]| |done|done].
  rewrite Forall_forall in HP2 |- *. intros q Hq. rewrite O1; [by apply HP2| |].
  - intros Heq. pose proof (bk_targets _ _ _ Hb) as Hn. cbn in Hn. apply NoDup_cons in Hn as [Hn _]. apply Hn. rewrite <- Heq, <- list_fmap_compose.
    by apply (list_elem_of_fmap_2 (rp_target ∘ g)).
  - intros Hbb. pose proof (bk_items _ _ _ Hb) as Hi. rewrite Forall_forall in Hi. apply (keeps_old_backup _ _ _ _ Hi1 (eq_sym Hbb)).
    apply (Hi (g q)). cbn. right. by apply list_elem_of_fmap_2.
Qed.

End undoing.

Lemma undoes_replacement : undoes rollback_replacement id (fun _ => True).
Proof. intros fs0 r m e r' m' Hk _ E. apply (rollback_replacement_spec fs0) in E as (H1 & _ & _ & H2); [by split|done]. Qed.

Lemma rollback_all_back fs0 items (m : machine W) es m' : backed fs0 (mc_fs m) items -> each rollback_replacement items m = (es, m') ->
  Forall (fun e => e = None) es -> forall t, t ∈ targets -> mc_fs m' !! t = fs0 !! t.
Proof.
  intros Hb. apply (undo_all_back _ _ _ _ _ _ _ _ undoes_replacement); [by rewrite list_fmap_id|]. by apply Forall_forall.
Qed.

(** ** Committing *)

Lemma commit_replacement_spec r (m : machine W) e r' m' : commit_replacement r m = (e, r', m') ->
  (forall p, Some p <> rp_backup r -> mc_fs m' !! p = mc_fs m !! p) /\ mc_uid m' = mc_uid m /\ (faults m' <= faults m)%nat.
Proof.
  unfold commit_replacement. destruct (rp_backup r) as [b|]; [|by intros [= _ _ <-]]. unfold act_bind.
  destruct (Remove b m) as [r1 m1] eqn:E1. apply remove_spec in E1 as (U1 & N1 & E1). destruct r1 as [u|er].
  - destruct E1 as (_ & F1 & _). destruct (syncDirectory _ m1) as [r2 m2] eqn:E2. apply sync_spec in E2 as (F2 & U2 & N2 & _). intros [= _ _ <-].
    split; [|split; [congruence|lia]]. intros p Hp. rewrite F2, F1. rewrite lookup_delete_ne; [done|congruence].
  - destruct E1 as [F1 _]. intros [= _ _ <-]. by rewrite F1.
Qed.

Definition backup_of (r : replacement) : list string := match rp_backup r with Some b => [b] | None => [] end.

Lemma not_backup_of r p : p ∉ backup_of r -> Some p <> rp_backup r.
Proof. unfold backup_of. intros H Hb. apply H. rewrite <- Hb. by left. Qed.

(** The backups of a list in place are no targets. *)
Lemma target_no_backup fs0 fs items t r : backed fs0 fs items -> t ∈ targets -> r ∈ items -> t ∉ backup_of r.
Proof.
  intros Hb Ht Hr. pose proof (bk_items _ _ _ Hb) as Hi. rewrite Forall_forall in Hi. unfold backup_of. destruct (rp_backup r) as [b|] eqn:E; [|by intros ?%elem_of_nil].
  intros ->%list_elem_of_singleton. by apply (keeps_old_backup _ _ _ _ (Hi r Hr) E).
Qed.

Lemma commit_all_spec items (m : machine W) es m' : each commit_replacement items m = (es, m') ->
  forall p, (forall r, r ∈ items -> p ∉ backup_of r) -> mc_fs m' !! p = mc_fs m !! p.
Proof.
  apply each_outside. intros r m1 e r' m2 E1 p Hp. apply commit_replacement_spec in E1 as (H & _). by apply H, not_backup_of.
Qed.
End replace.

(** * What leaves the artifacts alone *)

(** ** What the service and its tools leave alone *)

Section quiet.
Context {W : Type} (targets sources : list string) (manager : Manager W).
Hypothesis Hsep : separate targets sources = true.

Notation calm := (calm (W := W) targets sources).
Notation leaves := (leaves (W := W) targets sources).
Notation free := (free targets sources).

(** [launchctl], the service it starts, the recovery and the accounts do not
    touch the artifacts, the files next to them or the sources. *)
Record undisturbing : Prop := {
  ud_runner : forall executable args, leaves (mg_Runner manager executable args);
  ud_probe : leaves (mg_Probe manager);
  ud_recover : leaves (recover manager);
  ud_ensure : leaves (wa_Ensure (mg_Accounts manager));
  ud_resolve : leaves (wa_Resolve (mg_Accounts manager));
  ud_purge : leaves (wa_Purge (mg_Accounts manager))
}.

Hypothesis Hquiet : undisturbing.

Lemma leaves_launchctl args : leaves (launchctl manager args).
Proof. apply ud_runner, Hquiet. Qed.

Lemma leaves_validate : leaves (validate manager).
Proof. unfold validate. apply leaves_bind; [apply leaves_of|intros u]. do 2 apply leaves_unless. apply leaves_ret. Qed.

Lemma leaves_root : leaves (requireRoot manager).
Proof. apply leaves_unless, leaves_ret. Qed.

Lemma leaves_installed_loop items all : leaves (installed_loop manager items all).
Proof.
  revert all. induction items as [|[path mode] items IH]; intros all m; cbn [installed_loop]; [reflexivity|].
  pose proof (leaves_lstat targets sources path m) as H. destruct (Lstat path m) as [[info|e] m1]; cbn [snd] in H.
  - rewrite H. do 2 apply leaves_unless. apply IH.
  - destruct e; try done. rewrite H. apply IH.
Qed.

Lemma leaves_require : leaves (require_installed manager).
Proof.
  unfold require_installed. apply leaves_bind; [apply leaves_validate|intros u]. apply leaves_bind; [apply leaves_root|intros ?].
  apply leaves_bind; [apply leaves_installed_loop|intros i]. apply leaves_unless, leaves_ret.
Qed.

Lemma leaves_loaded : leaves (loaded manager).
Proof. intros m. unfold loaded. pose proof (leaves_launchctl ["print"; job manager] m) as H. destruct (launchctl manager _ m) as [[r|e] m1]; [done|]. by destruct (re_notLoaded e). Qed.

Lemma leaves_bootstrap : leaves (bootstrap manager).
Proof.
  unfold bootstrap. apply leaves_bind; [apply leaves_loaded|intros []]; [apply leaves_ret|]. apply leaves_bind; [apply leaves_wrap, leaves_launchctl|intros ?; apply leaves_ret].
Qed.

Lemma leaves_poll {T} (poll : act (machine W) app_error T) done_ timeout ws : leaves poll -> leaves (poll_loop poll done_ timeout ws).
Proof.
  intros Hp. induction ws as [|w ws IH]; intros m; cbn [poll_loop].
  - pose proof (Hp m) as H. destruct (poll m) as [[s|e] m1]; [|done]. by destruct (done_ s).
  - pose proof (Hp m) as H. destruct (poll m) as [[s|e] m1]; [|done]. destruct (done_ s); [done|]. destruct w; [|done|done]. cbn [snd] in H. rewrite H. apply IH.
Qed.

Lemma calm_wakes ws (m : machine W) : calm m (set_wakes ws m).
Proof. by split. Qed.

Lemma leaves_polling {T} (poll : act (machine W) app_error T) done_ timeout : leaves poll -> leaves (polling poll done_ timeout).
Proof.
  intros Hp m. unfold polling. pose proof (leaves_poll poll done_ timeout (mc_wakes m) Hp m) as H.
  destruct (poll_loop _ _ _ _ m) as [[ws|e] m1]; cbn [snd] in H |- *; rewrite H; apply calm_wakes.
Qed.

Lemma leaves_wait ready message : leaves (wait manager ready message).
Proof. apply leaves_polling, ud_probe, Hquiet. Qed.

Lemma leaves_Start : leaves (Start manager).
Proof.
  unfold Start. apply leaves_bind; [apply leaves_require|intros u]. apply leaves_bind; [apply leaves_wrap, leaves_launchctl|intros ?].
  apply leaves_bind; [apply leaves_bootstrap|intros ?]. intros m. pose proof (leaves_launchctl ["kickstart"; job manager] m) as H.
  destruct (launchctl manager _ m) as [kick m1]. cbn [snd] in H. rewrite H. pose proof (leaves_wait is_ready "service did not become ready" m1) as H1.
  by destruct (wait manager is_ready _ m1) as [[]].
Qed.

Lemma leaves_unload : leaves (unload manager).
Proof.
  unfold unload. do 2 (apply leaves_bind; [apply leaves_wrap, leaves_launchctl|intros ?]). apply leaves_wrap, leaves_polling, leaves_loaded.
Qed.

Lemma leaves_Stop : leaves (Stop manager).
Proof.
  unfold Stop. apply leaves_bind; [apply leaves_validate|intros ?]. apply leaves_bind; [apply leaves_root|intros ?].
  apply leaves_bind; [apply ud_probe, Hquiet|intros state]. apply leaves_bind; [apply leaves_loaded|intros l]. apply leaves_unless.
  apply leaves_bind; [apply leaves_if; [apply leaves_unload|apply leaves_ret]|intros ?].
  apply leaves_bind; [apply leaves_if; [apply leaves_wrap, leaves_wait|apply leaves_ret]|intros ?].
  apply leaves_bind; [apply ud_probe, Hquiet|intros ?]. apply leaves_if; [apply leaves_ret|apply ud_recover, Hquiet].
Qed.

(** ** The storage *)

Lemma free_kept p : free p = true -> kept targets sources p = false.
Proof. intros H. unfold free in H. apply andb_true_iff in H as [H _]. by apply negb_true_iff in H. Qed.

(** A transaction about paths that may come and go. *)
Definition free_transaction (t : storageTransaction) : Prop :=
  Forall (fun c => free (ms_path c) = true) (sg_changes t) /\ Forall (fun p => free p = true) (sg_absentFiles t).

Lemma free_add_change c t : free (ms_path c) = true -> free_transaction t -> free_transaction (add_change c t).
Proof. intros Hc [H1 H2]. split; [|done]. apply Forall_app. split; [done|by apply Forall_singleton]. Qed.

Lemma free_add_absent p t : free p = true -> free_transaction t -> free_transaction (add_absent p t).
Proof. intros Hc [H1 H2]. split; [done|]. apply Forall_app. split; [done|by apply Forall_singleton]. Qed.

Definition quiet_step (s : step (W := W)) : Prop :=
  forall t m, free_transaction t -> let '(_, t', m') := s t m in free_transaction t' /\ calm m m'.

Lemma giving_quiet t path mode m : free path = true -> free_transaction t -> let '(_, t', m') := giving t path mode m in free_transaction t' /\ calm m m'.
Proof.
  intros Hp Ht. unfold giving. assert (Hl : leaves (give t path mode)).
  { unfold give. apply leaves_bind; [|intros ?]; apply leaves_wrap, leaves_change, free_kept; done. }
  specialize (Hl m). by destruct (give t path mode m) as [[]].
Qed.

Lemma giving_after t path mode m m1 : free path = true -> free_transaction t -> calm m m1 ->
  let '(_, t', m') := giving t path mode m1 in free_transaction t' /\ calm m m'.
Proof.
  intros Hp Ht Hc. pose proof (giving_quiet t path mode m1 Hp Ht) as H. destruct (giving t path mode m1) as [[e t'] m']. destruct H as [? H].
  split; [done|]. by rewrite Hc.
Qed.

Lemma prepareDirectory_quiet path mode uid : free path = true -> quiet_step (prepareDirectory path mode uid).
Proof.
  intros Hp t m Ht. unfold prepareDirectory. destruct (negb (clean_absolute path)); [by split|].
  pose proof (leaves_lstat targets sources path m) as H. destruct (Lstat path m) as [[info|e] m1]; cbn [snd] in H.
  - destruct (negb _); [by split|]. destruct (_ && _); [by split|]. apply giving_after; [done|by apply free_add_change|done].
  - destruct e; try by split. pose proof (leaves_mkdir targets sources path mode (free_kept _ Hp) m1) as H1.
    destruct (Mkdir path mode m1) as [[u|e] m2]; cbn [snd] in H1; [|split; [done|by rewrite H]].
    apply giving_after; [done|by apply free_add_change|by rewrite H].
Qed.

Lemma prepareOptionalFile_quiet path mode uid : free path = true -> quiet_step (prepareOptionalFile path mode uid).
Proof.
  intros Hp t m Ht. unfold prepareOptionalFile. pose proof (leaves_lstat targets sources path m) as H. destruct (Lstat path m) as [[info|e] m1]; cbn [snd] in H.
  - destruct (negb _); [by split|]. destruct (_ && _); [by split|]. apply giving_after; [done|by apply free_add_change|done].
  - destruct e; try by split. split; [by apply free_add_absent|done].
Qed.

Lemma steps_quiet l : Forall quiet_step l -> quiet_step (steps l).
Proof.
  intros Hl. induction Hl as [|s l Hs _ IH]; intros t m Ht; cbn [steps]; [by split|]. specialize (Hs t m Ht).
  destruct (s t m) as [[[e|] t1] m1]; destruct Hs as [Ht1 Hc]; [by split|]. specialize (IH t1 m1 Ht1). destruct (steps l t1 m1) as [[e t2] m2].
  destruct IH as [? H]. split; [done|]. by rewrite Hc.
Qed.

Lemma all_of_quiet {T} (f : T -> machine W -> option app_error * machine W) l m : (forall x m, x ∈ l -> calm m (f x m).2) -> calm m (all_of f l m).2.
Proof.
  revert m. induction l as [|x l IH]; intros m Hf; cbn [all_of]; [reflexivity|]. pose proof (Hf x m ltac:(by left)) as H. destruct (f x m) as [e m1]. cbn [snd] in H.
  assert (H1 : calm m1 (all_of f l m1).2) by (apply IH; intros y m' Hy; apply Hf; by right). destruct (all_of f l m1) as [es m2]. cbn [snd] in *. by rewrite H.
Qed.

Lemma undo_change_quiet c (m : machine W) : free (ms_path c) = true -> calm m (undo_change c m).2.
Proof.
  intros Hf. unfold undo_change. destruct (ms_created c).
  - pose proof (leaves_remove targets sources _ Hf m) as H. by destruct (Remove (ms_path c) m) as [[u|[]] m1].
  - pose proof (leaves_change targets sources (ms_path c) (with_owner (ms_uid c) (ms_gid c)) (free_kept _ Hf) m) as H. unfold Chown.
    destruct (change_node _ _ m) as [[u|e] m1]; [|done]. cbn [snd] in H. rewrite H.
    pose proof (leaves_change targets sources (ms_path c) (with_perm (ms_mode c)) (free_kept _ Hf) m1) as H1. unfold Chmod.
    by destruct (change_node _ _ m1) as [[]].
Qed.

Lemma rollback_storage_quiet t m : free_transaction t -> calm m (rollback_storage t m).2.
Proof.
  intros [Hc Ha]. unfold rollback_storage. destruct (negb _); [reflexivity|].
  assert (H1 : calm m (all_of (forget_absent t) (sg_absentFiles t) m).2).
  { apply all_of_quiet. intros p m' Hp. rewrite Forall_forall in Ha. specialize (Ha p Hp). unfold forget_absent.
    pose proof (leaves_lstat targets sources p m') as H. destruct (Lstat p m') as [[info|e] m1]; cbn [snd] in H; [|by destruct e].
    destruct (_ || _); [done|]. pose proof (leaves_remove targets sources p Ha m1) as Hr. destruct (Remove p m1) as [[]]; cbn [snd] in *; by rewrite H. }
  destruct (all_of (forget_absent t) _ m) as [f1 m1]. cbn [snd] in H1. apply Forall_rev in Hc. rewrite Forall_forall in Hc.
  assert (H2 : calm m1 (all_of undo_change (rev (sg_changes t)) m1).2).
  { apply all_of_quiet. intros c m' Hin. by apply undo_change_quiet, Hc. }
  destruct (all_of undo_change _ m1) as [f2 m2]. cbn [snd] in *. by rewrite H1.
Qed.

(** The paths that the storage of a layout uses may come and go. *)
Definition storage_free (layout : Layout) : bool :=
  free (ly_WorkerDir layout) && free (ly_DataDir layout) && free (ly_FakeIPv4 layout) && free (ly_FakeIPv6 layout).

Lemma prepareWorkerStorage_quiet layout uid identity (m : machine W) : storage_free layout = true ->
  let '(r, m') := prepareWorkerStorage layout uid identity m in calm m m' /\ match r with Ok t => free_transaction t | Err _ => True end.
Proof.
  intros Hf. unfold storage_free in Hf. apply andb_true_iff in Hf as [Hf H4]. apply andb_true_iff in Hf as [Hf H3]. apply andb_true_iff in Hf as [H1 H2].
  unfold prepareWorkerStorage, act_bind, act_of. destruct (map_err _ _) as [u|e]; [|by split]. destruct (validateWorkerIdentity _ _) as [u'|e]; [|by split].
  match goal with |- context [steps ?l ?t m] => assert (Hq : quiet_step (steps l)); [|assert (Ht : free_transaction t) by (split; constructor); specialize (Hq t m Ht); destruct (steps l t m) as [[[e|] t1] m1]] end.
  - apply steps_quiet. repeat apply Forall_cons_2; [by apply prepareDirectory_quiet..|by apply prepareOptionalFile_quiet|by apply prepareOptionalFile_quiet|constructor].
  - destruct Hq as [Ht1 Hc]. pose proof (rollback_storage_quiet t1 m1 Ht1) as Hr. destruct (rollback_storage t1 m1) as [e' m2]. cbn [snd] in Hr.
    split; [by rewrite Hc|done].
  - destruct Hq as [Ht1 Hc]. by split.
Qed.
End quiet.
