(* ===== verification/LaunchInstall.v ===== *)
(** * Component [internal/launchservice]: installing is all or nothing

    Whatever fails while the service is installed, its artifacts are in the
    end as before or all new, unless taking them back failed and is
    reported. *)

From S2P Require Import Prelude.
From S2P Require Import GoStrings.
From S2P Require Import GoFiles.
From S2P Require Import Apperror.
From S2P Require Import Privsep.
From S2P Require Import LaunchLayout.
From S2P Require Import LaunchFiles.
From S2P Require Import LaunchStorage.
From S2P Require Import LaunchManager.
From S2P Require Import LaunchTransactions.
From S2P Require Import LaunchFacts.

(** ** Activating a list *)

Section activating.
Context {W : Type} (targets sources : list string).
Hypothesis Hsep : separate targets sources = true.

Notation dirs_exist := (dirs_exist targets).
Notation ready_stage := (ready_stage targets).
Notation backed := (backed targets).

(** Stages for distinct targets, none of them in use. *)
Record stages_ready (fs : files) (items : list staged) (replaced : list replacement) : Prop := {
  sy_ready : forall s t b, (s, t, b) ∈ items -> t ∈ targets /\ exists n, ready_stage fs s n;
  sy_stages : NoDup ((fun x : staged => x.1.1) <$> items);
  sy_targets : NoDup ((fun x : staged => x.1.2) <$> items);
  sy_new : forall s t b, (s, t, b) ∈ items -> t ∉ rp_target <$> replaced /\ s ∉ omap rp_backup replaced
}.

Lemma activate_all_spec fs0 items replaced (m : machine W) err replaced' m' :
  stages_ready (mc_fs m) items replaced -> backed fs0 (mc_fs m) replaced -> dirs_exist (mc_fs m) -> (faults m <= 1)%nat ->
  activate_all items replaced m = (err, replaced', m') ->
  mc_uid m' = mc_uid m /\ (faults m' <= faults m)%nat /\ dirs_exist (mc_fs m') /\ backed fs0 (mc_fs m') replaced' /\
  (forall t, t ∈ targets -> t ∉ (fun x : staged => x.1.2) <$> items -> mc_fs m' !! t = mc_fs m !! t) /\
  (err = None -> forall s t b, (s, t, b) ∈ items -> mc_fs m' !! t = mc_fs m !! s).
Proof.
  revert replaced m. induction items as [|[[s t] b] items IH]; intros replaced m [Hr Hns Hnt Hnew] Hb Hd Hn; cbn [activate_all].
  { intros [= <- <- <-]. split; [done|]. split; [done|]. split; [done|]. split; [done|]. split; [done|]. by intros _ s t b ?%elem_of_nil. }
  destruct (Hr s t b ltac:(by left)) as [Ht [n Hs]]. destruct (Hnew s t b ltac:(by left)) as [Htn Hsn].
  cbn [fmap list_fmap fst snd] in Hns, Hnt. apply NoDup_cons in Hns as [Hs1 Hns]. apply NoDup_cons in Hnt as [Ht1 Hnt].
  destruct (activateStage s t b m) as [[rp|e] m1] eqn:E1.
  - apply (activateStage_spec targets sources Hsep s t b n) in E1 as (U1 & N1 & O1 & Hrt & Hrp & Hnode); [|done..].
    assert (Hb1 : backed fs0 (mc_fs m1) (replaced ++ [rp])) by (apply (backed_snoc targets fs0 (mc_fs m)); [done|by rewrite Hrt|by rewrite Hrt| |done];
      rewrite Hrt; intros p Hpt Hp; apply O1; [by destruct Hp as [Hp|Hp]; intros ->; [|apply (rs_other _ _ _ _ Hs)]|done|];
      destruct Hp as [(r & Hr1 & Hr2)%elem_backups|Hp]; [left|by right];
      pose proof (bk_items _ _ _ _ Hb) as Hi; rewrite Forall_forall in Hi; destruct (Hi r Hr1) as (_ & _ & Hk); rewrite Hr2 in Hk; destruct Hk as (_ & _ & -> & ?); done).
    assert (Hd1 : dirs_exist (mc_fs m1)) by (eapply (others_dirs targets sources Hsep s t); [apply Hs|done|done|done]).
    assert (Hother : forall s' t' b', (s', t', b') ∈ items -> mc_fs m1 !! s' = mc_fs m !! s').
    { intros s' t' b' Hin. destruct (Hr s' t' b' ltac:(by right)) as [_ [n' Hs']]. apply O1; [| |left; rewrite (rs_node _ _ _ _ Hs'); by eexists].
      - intros ->. apply Hs1. by apply (list_elem_of_fmap_2' (fun x : staged => x.1.1) _ _ _ Hin).
      - intros ->. by apply (rs_other _ _ _ _ Hs'). }
    intros H. apply IH in H as (U2 & N2 & D2 & B2 & O2 & P2); [|split|done|done|lia].
    + split; [congruence|]. split; [lia|]. split; [done|]. split; [done|]. split.
      * intros t' Ht' Hnin. cbn in Hnin. apply not_elem_of_cons in Hnin as [Hne Hnin]. rewrite O2 by done.
        apply O1; [intros ->; by apply (rs_other _ _ _ _ Hs)|done|by right].
      * intros He s' t' b' [[= -> -> ->]|Hin]%elem_of_cons.
        { rewrite O2 by done. by rewrite Hnode, (rs_node _ _ _ _ Hs). }
        rewrite (P2 He s' t' b' Hin). by eapply Hother.
    + intros s' t' b' Hin. destruct (Hr s' t' b' ltac:(by right)) as [Ht' [n' [? ? Hs' ?]]]. split; [done|]. exists n'. split; [done|done| |done].
      by rewrite (Hother s' t' b' Hin).
    + done.
    + done.
    + intros s' t' b' Hin. destruct (Hnew s' t' b' ltac:(by right)) as [Hn1 Hn2]. rewrite fmap_app, omap_app. split.
      * intros [?|Hl]%elem_of_app; [done|]. apply list_elem_of_singleton in Hl. rewrite Hl, Hrt in *. apply Ht1. by apply (list_elem_of_fmap_2' (fun x : staged => x.1.2) _ _ _ Hin).
      * intros [?|Hl]%elem_of_app; [done|]. cbn in Hl. destruct (rp_backup rp) as [bk|] eqn:Ebk; [|by apply elem_of_nil in Hl]. apply list_elem_of_singleton in Hl. subst bk.
        destruct Hrp as [_ Hrp]. rewrite Ebk in Hrp. destruct Hrp as ([_ _ Hnone] & _). destruct (Hr s' t' b' ltac:(by right)) as [_ [n' Hs']].
        by rewrite (rs_node _ _ _ _ Hs') in Hnone.
  - apply (activateStage_spec targets sources Hsep s t b n) in E1 as (U1 & N1 & O1 & Hrt); [|done..]. intros [= <- <- <-].
    split; [done|]. split; [done|]. split; [eapply (others_dirs targets sources Hsep s t); [apply Hs|done|done|done]|].
    assert (Hall : forall t', t' ∈ targets -> mc_fs m1 !! t' = mc_fs m !! t').
    { intros t' Ht'. destruct (decide (t' = t)) as [->|]; [done|]. apply O1; [intros ->; by apply (rs_other _ _ _ _ Hs)|done|by right]. }
    split; [|split; [intros t' Ht' _; by apply Hall|done]]. destruct Hb as [Hi Hbt Hbb Hbr]. split; [|done|done|].
    + rewrite Forall_forall in Hi |- *. intros r Hin. apply (keeps_old_frame targets fs0 (mc_fs m)); [|by apply Hi]. intros p Hsome Hp.
      assert (Hpo : p ∉ targets) by (eapply (keeps_old_backup targets); [by apply Hi|done]).
      apply O1; [|by intros ->|by left]. intros ->. apply Hsn, elem_backups. by exists r.
    + intros t' Ht' Hnin. rewrite Hall by done. by apply Hbr.
Qed.
End activating.

(** ** Staging a list *)

Section staging_list.
Context {W : Type} (targets sources : list string).
Hypothesis Hsep : separate targets sources = true.

Notation calm := (calm (W := W) targets sources).
Notation leaves := (leaves (W := W) targets sources).
Notation ready_stage := (ready_stage targets).

(** A stage that holds what it is to hold. *)
Definition holds_stage (fs : files) (s : string) (P : node -> Prop) : Prop := exists n, ready_stage fs s n /\ P n.

(** What a staging promises after [m0]. *)
Definition stages_for (m0 : machine W) (staging : act (machine W) app_error string) (P : node -> Prop) : Prop :=
  forall m r m', calm m0 m -> staging m = (r, m') ->
  calm m m' /\ match r with Ok s => mc_fs m !! s = None /\ holds_stage (mc_fs m') s P | Err _ => True end.

Lemma holds_frame fs fs' s P : frame targets sources fs fs' -> holds_stage fs s P -> holds_stage fs' s P.
Proof.
  intros Hf (n & [Hr Ho Hs Hk] & HP). exists n. split; [|done]. split; [done|done| |done]. rewrite Hf; [done|by apply reserved_kept|left; by eexists].
Qed.

Lemma stage_all_spec m0 stagings Ps : Forall2 (stages_for m0) stagings Ps ->
  forall stages Qs m err stages' m', calm m0 m -> Forall2 (holds_stage (mc_fs m)) stages Qs -> NoDup stages ->
  stage_all stagings stages m = (err, stages', m') ->
  calm m m' /\ Forall (fun s => s ∉ targets) stages' /\
  (err = None -> NoDup stages' /\ Forall2 (holds_stage (mc_fs m')) stages' (Qs ++ Ps)).
Proof.
  assert (Hout : forall fs stages Qs, Forall2 (holds_stage fs) stages Qs -> Forall (fun s => s ∉ targets) stages).
  { intros fs stages Qs H. induction H as [|s Q ? ? (n & [_ Ho _ _] & _)]; by constructor. }
  intros Hall. induction Hall as [|f P stagings Ps Hf _ IH]; intros stages Qs m err stages' m' Hc Hs Hn; cbn [stage_all].
  { intros [= <- <- <-]. rewrite app_nil_r. split; [done|]. split; [by eapply Hout|done]. }
  destruct (f m) as [[s|e] m1] eqn:E; destruct (Hf m _ m1 Hc E) as [Hc1 H1].
  2: { intros [= <- <- <-]. split; [done|]. split; [by eapply Hout|done]. }
  destruct H1 as [Hnew Hs1]. intros H. apply (IH _ (Qs ++ [P])) in H as (Hc2 & Ho2 & H2).
  - split; [by rewrite Hc1|]. split; [done|]. by rewrite <- app_assoc in H2.
  - by rewrite Hc.
  - apply Forall2_app; [|by constructor]. eapply Forall2_impl; [exact Hs|]. intros s' Q. apply holds_frame, Hc1.
  - apply NoDup_app. split; [done|]. split; [|apply NoDup_singleton]. intros x Hx ->%list_elem_of_singleton.
    apply list_elem_of_lookup in Hx as [i Hx]. destruct (Forall2_lookup_l _ _ _ _ _ Hs Hx) as (Q & _ & n & [_ _ Hx' _] & _). congruence.
Qed.
End staging_list.

(** ** The installation *)

Section installing.
Context {W : Type} (manager : Manager W) (binarySource configSource : string).

Notation layout := (mg_Layout manager).

Definition artifacts_of : list string := [ly_Binary layout; ly_Config layout; ly_Plist layout].

Notation targets := artifacts_of.
Notation sources := [binarySource; configSource].
Notation calm := (calm (W := W) targets sources).
Notation leaves := (leaves (W := W) targets sources).

(** The artifacts and their sources are no directories of the service, no
    files of its storage and no temporary files. *)
Definition install_apart : bool :=
  separate targets sources && storage_free targets sources layout && forallb (fun d => creatable targets sources d.1) (install_directories manager).

Hypothesis Hapart : install_apart = true.
Hypothesis Hquiet : undisturbing targets sources manager.

Lemma apart_separate : separate targets sources = true.
Proof. unfold install_apart in Hapart. by apply andb_true_iff in Hapart as [[]%andb_true_iff _]. Qed.

Lemma apart_storage : storage_free targets sources layout = true.
Proof. unfold install_apart in Hapart. by apply andb_true_iff in Hapart as [[]%andb_true_iff _]. Qed.

Lemma apart_creatable d : d ∈ install_directories manager -> creatable targets sources d.1 = true.
Proof.
  unfold install_apart in Hapart. apply andb_true_iff in Hapart as [_ H]. rewrite forallb_forall in H. intros Hd. by apply H, list_elem_of_In.
Qed.

(** The artifact [n] made from the source file [source]. *)
Definition made_from (fs : files) (uid mode : Z) (source : string) (n : node) : Prop :=
  exists src gid, fs !! source = Some src /\ n = MkNode Regular mode uid gid (nd_data src).

Definition made_of (uid mode : Z) (contents : string) (n : node) : Prop := exists gid, n = MkNode Regular mode uid gid contents.

(** What the artifacts are after an installation. *)
Definition installed_artifacts (m0 : machine W) (startAtBoot : bool) : list (node -> Prop) :=
  [made_from (mc_fs m0) (mc_uid m0) mode_0755 binarySource;
   made_from (mc_fs m0) (mc_uid m0) mode_0600 configSource;
   fun n => exists manifest, Manifest layout startAtBoot = Ok manifest /\ made_of (mc_uid m0) mode_0644 manifest n].

Definition placed (m0 : machine W) (startAtBoot : bool) (fs : files) : Prop :=
  Forall2 (fun t P => exists n, fs !! t = Some n /\ P n) targets (installed_artifacts m0 startAtBoot).

Definition untouched (fs0 fs : files) : Prop := forall t, t ∈ targets -> fs !! t = fs0 !! t.

(** ** Its parts *)

Lemma leaves_checks : leaves (install_checks manager).
Proof.
  unfold install_checks. apply leaves_bind; [by apply leaves_validate|intros ?]. apply leaves_bind; [apply leaves_root|intros ?].
  apply leaves_bind; [by apply leaves_loaded|intros l]. apply leaves_unless. apply ud_ensure, Hquiet.
Qed.

Lemma leaves_install_start start m : calm m (install_start manager start m).2.
Proof.
  unfold install_start. destruct start; [|reflexivity]. pose proof (leaves_Start targets sources manager Hquiet m) as H.
  destruct (Start manager m) as [[u|e] m1]; [done|]. cbn [snd] in H. pose proof (leaves_launchctl targets sources manager Hquiet ["bootout"; job manager] m1) as H1.
  destruct (launchctl manager _ m1) as [r m2]. cbn [snd] in H1. assert (H2 : calm m m2) by (by rewrite H).
  destruct (mg_Recover manager); [|by destruct r]. pose proof (ud_recover _ _ _ Hquiet m2) as H3. destruct (recover manager m2) as [r3 m3]. cbn [snd] in *. by rewrite H2.
Qed.

Lemma untouched_calm fs0 m m' : untouched fs0 (mc_fs m) -> calm m m' -> untouched fs0 (mc_fs m').
Proof. intros H [Hf _ _ _] t Ht. rewrite <- (H t Ht). apply Hf; [by apply reserved_kept, target_reserved|by right]. Qed.

Lemma placed_same m0 b fs fs' : (forall t, t ∈ targets -> fs' !! t = fs !! t) -> placed m0 b fs -> placed m0 b fs'.
Proof.
  intros H. unfold placed, artifacts_of, installed_artifacts. rewrite !Forall2_cons. intros (H1 & H2 & H3 & _).
  rewrite !H by (unfold artifacts_of; set_solver). split; [done|]. split; [done|]. by split.
Qed.

(** What an attempt on [m0] may return: with no error the artifacts are in
    place; unless undoing failed, they are in place or as before. *)
Definition all_or_nothing (m0 : machine W) (b : bool) (r : option app_error * list (option app_error) * machine W) : Prop :=
  let '(err, undone, m') := r in
  (err = None -> placed m0 b (mc_fs m')) /\
  (Forall (fun e => e = None) undone -> untouched (mc_fs m0) (mc_fs m') \/ placed m0 b (mc_fs m')).

Lemma all_or_nothing_then m0 b err undone m err' more m' : all_or_nothing m0 b (err, undone, m) ->
  (forall t, t ∈ targets -> mc_fs m' !! t = mc_fs m !! t) -> (err' = None -> err = None) -> all_or_nothing m0 b (err', undone ++ more, m').
Proof.
  intros [H1 H2] Hm He. split; [intros H; by eapply placed_same; [|apply H1, He]|]. intros [Hu _]%Forall_app.
  destruct (H2 Hu) as [H|H]; [left; intros t Ht; by rewrite Hm, H|right; by eapply placed_same].
Qed.

Lemma calm_targets m m' : calm m m' -> forall t, t ∈ targets -> mc_fs m' !! t = mc_fs m !! t.
Proof. intros H. by apply (untouched_calm (mc_fs m) m m'). Qed.

Lemma nothing_done m0 b e m : calm m0 m -> all_or_nothing m0 b (Some e, [], m).
Proof. intros H. split; [done|]. intros _. left. exact (calm_targets m0 m H). Qed.

(** ** Its directories *)

Lemma kept_single t q : t ∈ targets -> LaunchFacts.kept targets sources q = false -> LaunchFacts.kept [t] [] q = false.
Proof.
  intros Ht H. unfold LaunchFacts.kept, reserved in *. apply orb_false_iff in H as [H _]. apply orb_false_iff in H as [H1 H2].
  rewrite !orb_false_iff. split; [split|done].
  - apply bool_decide_eq_false in H1. apply bool_decide_eq_false. intros ->%list_elem_of_singleton. done.
  - cbn. rewrite orb_false_r. destruct (has_prefix q (temp_prefix t)) eqn:E; [|done]. rewrite <- H2. symmetry. apply existsb_exists.
    exists t. split; [by apply list_elem_of_In|done].
Qed.

Lemma creatable_single t p : t ∈ targets -> creatable targets sources p = true -> creatable [t] [] p = true.
Proof.
  intros Ht H. unfold creatable in *. rewrite forallb_forall in H |- *. intros q Hq. specialize (H q Hq). apply negb_true_iff in H.
  by apply negb_true_iff, kept_single.
Qed.

Lemma ensure_exists path mode uid (m m' : machine W) u : ensureDirectory path mode uid m = (Ok u, m') -> is_Some (mc_fs m' !! path).
Proof.
  unfold ensureDirectory. intros H. apply act_unless_Ok in H as [_ H]. apply act_bind_Ok in H as (u1 & m1 & _ & H).
  apply act_bind_Ok in H as (n & m2 & _ & H). apply act_unless_Ok in H as [_ H]. apply act_unless_Ok in H as [_ H].
  apply act_wrap_Ok', change_spec in H as (k & _ & -> & _). rewrite lookup_insert_eq. by eexists.
Qed.

Lemma ensure_all_spec directories (m : machine W) r m' : (forall d, d ∈ directories -> creatable targets sources d.1 = true) ->
  ensure_all manager directories m = (r, m') -> calm m m' /\
  (forall u, r = Ok u -> forall t, t ∈ targets -> is_Some (mc_fs m !! dir t) \/ dir t ∈ directories.*1 -> is_Some (mc_fs m' !! dir t)).
Proof.
  revert m. induction directories as [|[p mode] ds IH]; intros m Hc; cbn [ensure_all].
  { intros [= <- <-]. split; [done|]. by intros u _ t _ [H|?%elem_of_nil]. }
  pose proof (Hc (p, mode) ltac:(by left)) as Hp. cbn in Hp. unfold act_bind.
  pose proof (leaves_ensure targets sources p mode (mg_OwnerUID manager) Hp m) as H1.
  destruct (ensureDirectory _ _ _ m) as [[u|e] m1] eqn:E; cbn [snd] in H1; [|intros [= <- <-]; by split].
  intros H. apply IH in H as [H2 H3]; [|intros d Hd; apply Hc; by right]. split; [by rewrite H1|].
  intros u' -> t Ht Hor. apply (H3 u' eq_refl t Ht). cbn in Hor.
  assert (Hkeep : is_Some (mc_fs m !! dir t) -> is_Some (mc_fs m1 !! dir t)).
  { intros Hs. pose proof (leaves_ensure [t] [] p mode (mg_OwnerUID manager) (creatable_single t p Ht Hp) m) as [_ Hd _ _]. rewrite E in Hd. cbn in Hd.
    apply Hd; [|by left]. by intros ? ->%list_elem_of_singleton. }
  destruct Hor as [Hs|[<-|Hin]%elem_of_cons]; [left; by apply Hkeep|left; by eapply ensure_exists|by right].
Qed.

Lemma directories_dirs (m m' : machine W) u : ensure_all manager (install_directories manager) m = (Ok u, m') -> dirs_exist targets (mc_fs m').
Proof.
  intros H. apply ensure_all_spec in H as [_ H]; [|apply apart_creatable]. intros t Ht. apply (H u eq_refl t Ht). right.
  unfold artifacts_of in Ht. unfold install_directories. set_solver.
Qed.

(** ** Its artifacts *)

Lemma unwind_some es e : exists e', unwind es (Some e) = Some e'.
Proof.
  unfold unwind. revert e. induction es as [|u es IH]; intros e; cbn [foldl]; [by eexists|]. destruct u as [u|]; apply IH.
Qed.

Lemma settle_spec m0 b fs err replaced (m : machine W) : backed targets fs (mc_fs m) replaced -> untouched (mc_fs m0) fs ->
  (err = None -> placed m0 b (mc_fs m)) -> all_or_nothing m0 b (settle_replacements err replaced m).
Proof.
  intros Hb Hu Hp. unfold settle_replacements. destruct err as [e|].
  - destruct (each rollback_replacement (rev replaced) m) as [es m'] eqn:E. split; [intros He; by destruct (unwind_some es e) as [? [=]%(eq_trans (eq_sym He))]|].
    intros Hes. left. intros t Ht. rewrite <- Hu by done. apply (rollback_all_back targets fs _ _ _ _ (backed_perm _ _ _ _ _ (Permutation_rev replaced) Hb) E Hes t Ht).
  - destruct (each commit_replacement replaced m) as [es m'] eqn:E. pose proof (commit_all_spec _ _ _ _ E) as H.
    assert (Hpl : placed m0 b (mc_fs m')).
    { eapply placed_same; [|by apply Hp]. intros t Ht. apply H. intros r Hr. by eapply target_no_backup. }
    split; [done|]. intros _. by right.
Qed.

Lemma install_stages_spec m0 b m stages start : calm m0 m -> Forall2 (holds_stage targets (mc_fs m)) stages (installed_artifacts m0 b) -> NoDup stages ->
  dirs_exist targets (mc_fs m) -> (faults m <= 1)%nat -> all_or_nothing m0 b (install_stages manager stages start m).
Proof.
  intros Hc Hst Hnd Hd Hn. apply Forall2_cons_inv_r in Hst as (s1 & l1 & H1 & Hst & ->). apply Forall2_cons_inv_r in Hst as (s2 & l2 & H2 & Hst & ->).
  apply Forall2_cons_inv_r in Hst as (s3 & l3 & H3 & ->%Forall2_nil_inv_r & ->). cbn [install_stages].
  destruct (activate_all (install_items manager s1 s2 s3) [] m) as [[err replaced] m1] eqn:E.
  apply (activate_all_spec targets sources apart_separate (mc_fs m)) in E as (U1 & N1 & D1 & B1 & _ & P1); [|split|apply backed_nil|done|done].
  - assert (Hpl : err = None -> placed m0 b (mc_fs m1)).
    { intros He. specialize (P1 He). destruct H1 as (n1 & [_ _ Hn1 _] & Q1), H2 as (n2 & [_ _ Hn2 _] & Q2), H3 as (n3 & [_ _ Hn3 _] & Q3).
      repeat apply Forall2_cons_2; [exists n1|exists n2|exists n3|constructor]; (split; [|done]).
      - rewrite (P1 s1 _ (refuse_existing manager (ly_Binary layout))); [done|]. unfold install_items. cbn. set_solver.
      - rewrite (P1 s2 _ (refuse_existing manager (ly_Config layout))); [done|]. unfold install_items. cbn. set_solver.
      - rewrite (P1 s3 _ (refuse_existing manager (ly_Plist layout))); [done|]. unfold install_items. cbn. set_solver. }
    pose proof (calm_targets _ _ Hc) as Hu. destruct err as [e|]; [by apply (settle_spec m0 b (mc_fs m))|].
    pose proof (leaves_install_start start m1) as Hq. destruct (install_start manager start m1) as [err2 m2]. cbn [snd] in Hq.
    apply (settle_spec m0 b (mc_fs m)); [|done|].
    + by apply (backed_frame targets sources _ (mc_fs m1)); [apply Hq|].
    + intros _. apply (placed_same m0 b (mc_fs m1)); [by apply calm_targets|by apply Hpl].
  - intros s t b' Hin. unfold install_items in Hin. cbn in Hin. unfold artifacts_of. rewrite !elem_of_cons in Hin.
    destruct Hin as [[= -> -> ->]|[[= -> -> ->]|[[= -> -> ->]|[]%elem_of_nil]]]; (split; [set_solver|]); [by destruct H1 as (n & ? & _); exists n|by destruct H2 as (n & ? & _); exists n|by destruct H3 as (n & ? & _); exists n].
  - done.
  - exact (separate_nodup targets sources apart_separate).
  - intros s t b' _. split; by intros ?%elem_of_nil.
Qed.

Lemma staged_ready (fs fs' : files) uid mode data stage : staged_file targets fs fs' uid mode data stage ->
  exists n, ready_stage targets fs' stage n /\ made_of uid mode data n.
Proof. intros ([Hr Ho _] & gid & Hs). eexists. split; [split; [done|done|exact Hs|done]|by exists gid]. Qed.

Lemma copy_stages (m0 : machine W) source target mode maxSize : source ∈ sources -> target ∈ targets -> is_Some (mc_fs m0 !! source) ->
  stages_for targets sources m0 (stageCopy source target mode maxSize) (made_from (mc_fs m0) (mc_uid m0) mode source).
Proof.
  intros Hs Ht [src0 Hsrc0] m r m' Hc E. apply (stageCopy_spec targets sources apart_separate) in E as [Hc1 E]; [|done]. split; [done|].
  destruct r as [s|e]; [|done]. destruct E as (src & Hsrc & _ & _ & Hst). split; [by destruct Hst as [[_ _ ?] _]|].
  destruct (staged_ready _ _ _ _ _ _ Hst) as (n & Hn & gid & ->). eexists. split; [exact Hn|]. exists src, gid.
  rewrite (cm_uid _ _ _ _ Hc). split; [|done]. rewrite <- Hsrc. symmetry. apply Hc; [|left; by eexists].
  unfold LaunchFacts.kept. by rewrite (bool_decide_eq_true_2 _ Hs), orb_true_r.
Qed.

Lemma contents_stages (m0 : machine W) b manifest : Manifest layout b = Ok manifest ->
  stages_for targets sources m0 (stageContents manifest (ly_Plist layout) mode_0644)
    (fun n => exists manifest, Manifest layout b = Ok manifest /\ made_of (mc_uid m0) mode_0644 manifest n).
Proof.
  intros Hm m r m' Hc E. apply (stageContents_spec targets sources apart_separate) in E as [Hc1 E]; [|unfold artifacts_of; set_solver]. split; [done|].
  destruct r as [s|e]; [|done]. split; [by destruct E as [[_ _ ?] _]|]. destruct (staged_ready _ _ _ _ _ _ E) as (n & Hn & gid & ->).
  eexists. split; [exact Hn|]. exists manifest. split; [done|]. exists gid. by rewrite (cm_uid _ _ _ _ Hc).
Qed.

Lemma remove_stages_spec stages (m : machine W) : Forall (fun s => s ∉ targets) stages ->
  forall t, t ∈ targets -> mc_fs (remove_stages stages m).2 !! t = mc_fs m !! t.
Proof.
  intros H. revert m. induction H as [|s stages Hs _ IH]; intros m t Ht; cbn [remove_stages]; [done|]. unfold act_bind, remove_stage.
  pose proof (touches_dropped s (Remove s) (touches_remove s) m) as [H1 _]. destruct (dropped (Remove s) m) as [[u|e] m1]; cbn [snd] in H1.
  - rewrite IH by done. apply H1. by intros ->.
  - apply H1. by intros ->.
Qed.

(** Both sources are there. *)
Definition sources_present (m : machine W) : Prop := is_Some (mc_fs m !! binarySource) /\ is_Some (mc_fs m !! configSource).

Lemma install_artifacts_spec m0 b m start : calm m0 m -> sources_present m0 -> dirs_exist targets (mc_fs m) -> (faults m <= 1)%nat ->
  all_or_nothing m0 b (install_artifacts manager binarySource configSource start b m).
Proof.
  intros Hc [Hs1 Hs2] Hd Hn. unfold install_artifacts. destruct (Manifest layout b) as [manifest|e] eqn:Em; [|by apply nothing_done].
  match goal with |- context [stage_all ?l [] m] => destruct (stage_all l [] m) as [[err stages] m1] eqn:E end.
  apply (stage_all_spec targets sources m0 _ (installed_artifacts m0 b)) with (Qs := []) in E as (Hc1 & Ho & H1); [|repeat apply Forall2_cons_2; [..|constructor]|done|constructor|constructor].
  - assert (Hend : forall err2 undone m2, all_or_nothing m0 b (err2, undone, m2) ->
      all_or_nothing m0 b (let '(_, m3) := remove_stages stages m2 in (err2, undone, m3))).
    { intros err2 undone m2 H. pose proof (remove_stages_spec stages m2 Ho) as Hr. destruct (remove_stages stages m2) as [u m3]. cbn [snd] in Hr.
      rewrite <- (app_nil_r undone). by eapply all_or_nothing_then. }
    destruct err as [e|]; [apply Hend, nothing_done; by rewrite Hc|]. destruct (H1 eq_refl) as [Hnd Hst].
    pose proof (install_stages_spec m0 b m1 stages start) as H. destruct (install_stages manager stages start m1) as [[err2 undone] m2].
    apply Hend, H; [by rewrite Hc|done|done|by apply Hc1|]. pose proof (cm_faults _ _ _ _ Hc1). lia.
  - apply copy_stages; [set_solver|unfold artifacts_of; set_solver|done].
  - apply copy_stages; [set_solver|unfold artifacts_of; set_solver|done].
  - by apply contents_stages.
Qed.

Lemma install_storage_spec m0 b m identity start : calm m0 m -> sources_present m0 -> dirs_exist targets (mc_fs m) -> (faults m <= 1)%nat ->
  all_or_nothing m0 b (install_storage manager identity binarySource configSource start b m).
Proof.
  intros Hc Hs Hd Hn. unfold install_storage.
  pose proof (prepareWorkerStorage_quiet targets sources layout (mg_OwnerUID manager) identity m apart_storage) as Hq.
  destruct (prepareWorkerStorage layout (mg_OwnerUID manager) identity m) as [[storage|e] m1]; destruct Hq as [Hc1 Ht]; [|apply nothing_done; by rewrite Hc].
  pose proof (install_artifacts_spec m0 b m1 start) as H.
  destruct (install_artifacts manager binarySource configSource start b m1) as [[[e|] undone] m2].
  - pose proof (rollback_storage_quiet targets sources storage m2 Ht) as Hr. destruct (rollback_storage storage m2) as [er m3]. cbn [snd] in Hr.
    eapply all_or_nothing_then; [apply H|by apply calm_targets|by destruct er]; [by rewrite Hc|done|by apply Hc1|].
    pose proof (cm_faults _ _ _ _ Hc1). lia.
  - apply H; [by rewrite Hc|done|by apply Hc1|]. pose proof (cm_faults _ _ _ _ Hc1). lia.
Qed.

Lemma install_with_spec m0 b m identity start : calm m0 m -> sources_present m0 -> (faults m <= 1)%nat ->
  all_or_nothing m0 b (install_with manager identity binarySource configSource start b m).
Proof.
  intros Hc Hs Hn. unfold install_with. destruct (ensure_all manager (install_directories manager) m) as [[u|e] m1] eqn:E.
  - pose proof (directories_dirs m m1 u E) as Hd. apply ensure_all_spec in E as [Hc1 _]; [|apply apart_creatable].
    apply install_storage_spec; [by rewrite Hc|done|done|]. pose proof (cm_faults _ _ _ _ Hc1). lia.
  - apply ensure_all_spec in E as [Hc1 _]; [|apply apart_creatable]. apply nothing_done. by rewrite Hc.
Qed.
End installing.

(** C14: Installing is all or nothing.  When [Install] succeeds, the artifacts
    of the layout are exactly the copies of the binary and the configuration
    and the manifest, with their modes.  If at most one call on the files fails,
    whichever it is, and whatever else fails, the artifacts are in the end as
    they were before or all in place, unless an error of undoing is among those
    returned.  With two failing calls this is false, as the code drops the
    error of putting back a backup ([install_loses_configuration]). *)
Theorem install_all_or_nothing {W} (manager : Manager W) binarySource configSource start startAtBoot (m : machine W) err undone m' :
  install_apart manager binarySource configSource = true ->
  undisturbing (artifacts_of manager) [binarySource; configSource] manager ->
  sources_present binarySource configSource m -> (faults m <= 1)%nat ->
  Install manager binarySource configSource start startAtBoot m = (err, undone, m') ->
  (err = None -> placed manager binarySource configSource m startAtBoot (mc_fs m')) /\
  (Forall (fun e => e = None) undone ->
     untouched manager (mc_fs m) (mc_fs m') \/ placed manager binarySource configSource m startAtBoot (mc_fs m')).
Proof.
  intros Ha Hq Hs Hn E. change (all_or_nothing manager binarySource configSource m startAtBoot (err, undone, m')). rewrite <- E. clear E.
  unfold Install. pose proof (leaves_checks manager binarySource configSource Hq m) as Hc.
  destruct (install_checks manager m) as [[[identity created]|e] m1]; cbn [snd] in Hc; [|by apply nothing_done].
  pose proof (cm_faults _ _ _ _ Hc) as Hf.
  pose proof (install_with_spec manager binarySource configSource Ha Hq m startAtBoot m1 identity start Hc Hs ltac:(lia)) as H.
  destruct (install_with manager identity binarySource configSource start startAtBoot m1) as [[[e|] undone1] m2]; cbn [purge_created]; [|done].
  destruct created; [|done]. pose proof (ud_purge _ _ _ Hq m2) as Hp. destruct (wa_Purge (mg_Accounts manager) m2) as [p m3]. cbn [snd] in Hp.
  eapply (all_or_nothing_then manager binarySource configSource Ha Hq); [exact H|by apply (calm_targets manager binarySource configSource)|]. intros He. exfalso. by destruct p.
Qed.

(** ** A host to install on *)

Definition a_directory : node := MkNode Directory mode_0755 0 0 "".

Definition an_install_host (outcomes : list outcome) : machine unit := MkMachine
  (<["/home/binary" := MkNode Regular mode_0755 501 20 "program"]> (<["/home/config" := MkNode Regular mode_0600 501 20 "settings"]>
     (<[ly_Config DefaultLayout := MkNode Regular mode_0600 0 0 "previous"]>
        (list_to_map ((fun p => (p, a_directory)) <$>
           ["/"; "/Library"; "/Library/PrivilegedHelperTools"; "/Library/Application Support"; "/Library/Application Support/tun-proxy";
            "/Library/LaunchDaemons"; "/Library/Logs"; "/var"; "/var/run"; "/var/lib"])))))
  outcomes ["a"; "b"; "c"; "d"; "e"; "f"] 0 18 [] tt.

(** [launchctl] knows no such job and starts nothing. *)
Definition a_launchctl : runner (machine unit) := fun _ args m =>
  match args with
  | ["print"; _] => (Err (MkRunError true (Plain "launchd job is not loaded")), m)
  | _ => (Ok "", m)
  end.

Definition an_identity : Identity := MkIdentity "_tun-proxy" "_tun-proxy" 450 450 "/var/empty".

Definition an_install_manager : Manager unit := MkManager unit DefaultLayout a_launchctl
  (MkAccounts _ (act_ret (an_identity, true)) (act_ret an_identity) (act_ret tt))
  0 (act_ret (MkRuntimeState true 77 "running")) None 0 100 20000 50000.

Definition fail_at (n : nat) : list outcome := replicate n Fine ++ [Fails 0].

Lemma an_install_undisturbing targets sources : undisturbing targets sources an_install_manager.
Proof.
  split; try (by intros m). intros executable args m. cbn [an_install_manager mg_Runner]. unfold a_launchctl. by repeat case_match.
Qed.

(** The manifest cannot be activated: the previous configuration is back. *)
Lemma install_all_or_nothing_witness :
  let m := an_install_host (fail_at 73) in
  let r := Install an_install_manager "/home/binary" "/home/config" true true m in
  r.1.1 <> None /\ Forall (fun e => e = None) r.1.2 /\ is_Some (mc_fs m !! ly_Config DefaultLayout) /\
  (untouched an_install_manager (mc_fs m) (mc_fs r.2) \/ placed an_install_manager "/home/binary" "/home/config" m true (mc_fs r.2)).
Proof.
  cbv zeta. split; [by vm_compute|]. assert (Hu : Forall (fun e => e = None) (Install an_install_manager "/home/binary" "/home/config" true true (an_install_host (fail_at 73))).1.2).
  { vm_compute. repeat constructor. }
  split; [done|]. split; [by eexists|].
  apply (install_all_or_nothing an_install_manager "/home/binary" "/home/config" true true (an_install_host (fail_at 73)) (Install an_install_manager "/home/binary" "/home/config" true true (an_install_host (fail_at 73))).1.1
    (Install an_install_manager "/home/binary" "/home/config" true true (an_install_host (fail_at 73))).1.2); [by vm_compute|apply an_install_undisturbing| | | |done].
  - split; vm_compute; by eexists.
  - vm_compute. lia.
  - by destruct (Install an_install_manager _ _ _ _ _) as [[]].
Defined.

(** Where undoing goes too far: when only the removal of a backup fails, the
    new artifacts stay while the storage of the worker is taken away again. *)
Example install_cleanup_undoes_storage :
  let r := Install an_install_manager "/home/binary" "/home/config" true true (an_install_host (fail_at 80)) in
  r.1.1 <> None /\ nd_data <$> mc_fs r.2 !! ly_Binary DefaultLayout = Some "program" /\ mc_fs r.2 !! ly_DataDir DefaultLayout = None.
Proof. cbv zeta. split; [by vm_compute|]. split; by vm_compute. Qed.

(** Two failing calls, the rename that activates the configuration and the one
    that puts its backup back: the old configuration is gone, and no error of
    undoing says so. *)
Example install_loses_configuration :
  let m := an_install_host (replicate 66 Fine ++ [Fails 0; Fails 0]) in
  let r := Install an_install_manager "/home/binary" "/home/config" true true m in
  nd_data <$> mc_fs m !! ly_Config DefaultLayout = Some "previous" /\
  r.1.1 <> None /\ Forall (fun e => e = None) r.1.2 /\ mc_fs r.2 !! ly_Config DefaultLayout = None.
Proof. cbv zeta. split; [done|]. split; [by vm_compute|]. split; [vm_compute; repeat constructor|by vm_compute]. Qed.
