(* ===== verification/LaunchUninstall.v ===== *)
(** * Component [internal/launchservice]: uninstalling is all or nothing

    The artifacts are moved to tombstones next to them; until all are, and
    the account is purged, everything can be taken back. *)

From S2P Require Import Prelude.
From S2P Require Import GoStrings.
From S2P Require Import GoFiles.
From S2P Require Import Apperror.
From S2P Require Import Privsep.
From S2P Require Import LaunchLayout.
From S2P Require Import LaunchFiles.
From S2P Require Import LaunchStorage.
From S2P Require Import LaunchManager.
From S2P Require Import LaunchTransactions.
From S2P Require Import LaunchFacts.

(** ** One removal *)

Section removing.
Context {W : Type} (targets : list string).
Hypothesis Hsep : separate targets [] = true.

Notation dirs_exist := (dirs_exist targets).
Notation replaced_by := (replaced_by targets).
Notation backed := (backed targets).

(** A removal is a replacement by nothing. *)
Definition as_replacement (r : removal) : replacement := MkReplacement (rm_target r) (if rm_active r then Some (rm_tombstone r) else None) true.

Lemma stageRemoval_spec target (m : machine W) r m' : target ∈ targets -> dirs_exist (mc_fs m) -> (faults m <= 1)%nat -> stageRemoval target m = (r, m') ->
  (faults m' <= faults m)%nat /\ (forall p, p <> target -> is_Some (mc_fs m !! p) \/ p ∈ targets -> mc_fs m' !! p = mc_fs m !! p) /\
  match r with
  | Ok rm => rm_target rm = target /\ replaced_by (mc_fs m) (mc_fs m') (as_replacement rm) /\ mc_fs m' !! target = None
  | Err _ => mc_fs m' !! target = mc_fs m !! target
  end.
Proof.
  intros Ht Hd Hn. unfold stageRemoval. destruct (Lstat target m) as [[info|e] m1] eqn:E1; apply lstat_spec in E1 as (F1 & U1 & N1 & L1).
  2: { destruct e; intros [= <- <-]; rewrite F1; (split; [done|]; split; [done|]); done. }
  unfold act_unless. destruct (negb _); [intros [= <- <-]; rewrite F1; by repeat split|].
  unfold act_bind at 1, act_wrap at 1. destruct (CreateTemp (dir target) ".tun-proxy-remove-" m1) as [[b|e] m2] eqn:E2;
    apply (CreateTemp_spec targets [] Hsep target "remove-") in E2 as (U2 & N2 & E2); try done; [|intros [= <- <-]; rewrite E2, F1; split; [lia|by split]].
  destruct E2 as [[Hbr Hbo Hbn] [gid F2]]. rewrite F1 in F2, Hbn. assert (Hbt : b <> target) by congruence.
  assert (Hb : forall fs, fs = mc_fs m2 \/ fs = mc_fs m -> forall p, is_Some (mc_fs m !! p) \/ p ∈ targets -> fs !! p = mc_fs m !! p).
  { intros fs [->| ->] p Hp; [|done]. rewrite F2, lookup_insert_ne; [done|]. intros <-. destruct Hp as [[x Hx]|]; [congruence|done]. }
  assert (Hsame : forall fs, fs = mc_fs m2 \/ fs = mc_fs m -> fs !! target = mc_fs m !! target) by (intros fs Hf; apply Hb; [done|by right]).
  unfold act_bind at 1, act_wrap at 1. destruct (plain m2) as [[u3|e] m3] eqn:E3; apply plain_spec in E3 as (F3 & U3 & N3);
    [|intros [= <- <-]; rewrite F3; split; [lia|]; split; [intros p _; apply Hb|apply Hsame]; by left].
  unfold act_bind at 1, act_wrap at 1. destruct (Remove b m3) as [[u4|e] m4] eqn:E4; apply remove_spec in E4 as (U4 & N4 & E4);
    [|destruct E4 as [F4 _]; intros [= <- <-]; rewrite F4, F3; split; [lia|]; split; [intros p _; apply Hb|apply Hsame]; by left].
  destruct E4 as (_ & F4 & _). assert (F : mc_fs m4 = mc_fs m) by (rewrite F4, F3, F2, delete_insert_eq; by apply delete_id). clear F4.
  unfold act_bind at 1, act_wrap at 1. destruct (Rename target b m4) as [[u5|e] m5] eqn:E5; apply rename_spec in E5 as (U5 & N5 & E5);
    [|destruct E5 as [F5 _]; intros [= <- <-]; rewrite F5, F; split; [lia|done]].
  destruct E5 as (n & Hn5 & F5 & N5'). rewrite F in Hn5, F5.
  assert (Hother5 : forall p, p <> target -> is_Some (mc_fs m !! p) \/ p ∈ targets -> mc_fs m5 !! p = mc_fs m !! p).
  { intros p Hp Hex. rewrite F5, lookup_insert_ne, lookup_delete_ne; [done|done|]. intros <-. destruct Hex as [[x Hx]|]; [congruence|done]. }
  assert (Hdir : is_Some (mc_fs m5 !! dir target)).
  { rewrite Hother5; [by apply Hd| |left; by apply Hd]. intros Heq. by apply (target_not_dir targets [] Hsep target target Ht Ht). }
  unfold act_bind at 1, on_error, act_wrap at 1. destruct (syncDirectory (dir target) m5) as [[u6|e] m6] eqn:E6; apply sync_spec in E6 as (F6 & U6 & N6 & E6).
  - intros [= <- <-]. rewrite F6. split; [lia|]. split; [done|]. split; [done|]. split.
    + split; [done|]. cbn. rewrite F5, lookup_insert_eq, Hn5. split; [by split|]. by split.
    + by rewrite F5, lookup_insert_ne, lookup_delete_eq.
  - specialize (E6 eq_refl Hdir). unfold dropped. destruct (Rename b target m6) as [r7 m7] eqn:E7. apply rename_spec in E7 as (U7 & N7 & E7). intros [= <- <-].
    split; [lia|]. assert (Hbk : mc_fs m6 !! b = Some n) by (by rewrite F6, F5, lookup_insert_eq).
    assert (Hgone : mc_fs m6 !! target = None) by (by rewrite F6, F5, lookup_insert_ne, lookup_delete_eq).
    destruct r7 as [u7|e7]; [|destruct E7 as [_ [E7|[E7|(k & E7 & _)]]]; [lia|congruence|congruence]].
    destruct E7 as (n7 & Hn7 & F7 & _). rewrite Hbk in Hn7. injection Hn7 as <-. rewrite F7. split; [|by rewrite lookup_insert_eq].
    intros p Hp Hex. rewrite lookup_insert_ne by done. rewrite lookup_delete_ne, F6; [by apply Hother5|]. intros <-. destruct Hex as [[x Hx]|]; [congruence|done].
Qed.

Lemma rollback_removal_undoes : undoes targets (W := W) rollback_removal as_replacement (fun n => n = None).
Proof.
  intros fs0 r m e r' m' (Ht & _ & Hb) Hnone. unfold rollback_removal. cbn [as_replacement rp_target rp_backup] in *.
  destruct (rm_active r); cbn [negb]; [|intros [= <- <- <-]; by rewrite Hnone, Hb].
  destruct Hb as (Hbr & Hbo & Hbf & Hbs). destruct (Rename (rm_tombstone r) (rm_target r) m) as [[u|er] m1] eqn:E1; apply rename_spec in E1 as (_ & _ & E1).
  - destruct E1 as (n & Hn & F1 & _). destruct (syncDirectory _ m1) as [r2 m2] eqn:E2. apply sync_spec in E2 as (F2 & _). intros [= <- <- <-]. rewrite F2, F1.
    split; [intros p Hp1 Hp2; rewrite lookup_insert_ne by done; rewrite lookup_delete_ne; [done|congruence]|]. intros _. by rewrite lookup_insert_eq, <- Hbf.
  - destruct E1 as [F1 _]. intros [= <- <- <-]. by rewrite F1.
Qed.

Lemma rollback_removal_outside r (m : machine W) e r' m' : rollback_removal r m = (e, r', m') ->
  forall p, p ∉ rm_target r :: backup_of (as_replacement r) -> mc_fs m' !! p = mc_fs m !! p.
Proof.
  unfold rollback_removal, backup_of. cbn [as_replacement rp_backup]. destruct (rm_active r); cbn [negb]; [|by intros [= <- <- <-]].
  destruct (Rename (rm_tombstone r) (rm_target r) m) as [[u|er] m1] eqn:E1; apply rename_spec in E1 as (_ & _ & E1).
  - destruct E1 as (n & _ & F1 & _). destruct (syncDirectory _ m1) as [r2 m2] eqn:E2. apply sync_spec in E2 as (F2 & _). intros [= <- <- <-] p Hp.
    rewrite F2, F1, lookup_insert_ne, lookup_delete_ne; [done| |]; intros <-; apply Hp; [right|]; by left.
  - destruct E1 as [F1 _]. intros [= <- <- <-] p _. by rewrite F1.
Qed.

Lemma commit_removal_outside r (m : machine W) e r' m' : commit_removal r m = (e, r', m') ->
  forall p, p ∉ backup_of (as_replacement r) -> mc_fs m' !! p = mc_fs m !! p.
Proof.
  unfold commit_removal, backup_of. cbn [as_replacement rp_backup]. destruct (rm_active r); cbn [negb]; [|by intros [= <- <- <-]].
  destruct (Remove (rm_tombstone r) m) as [[u|er] m1] eqn:E1; apply remove_spec in E1 as (_ & _ & E1).
  - destruct E1 as (_ & F1 & _). destruct (syncDirectory _ m1) as [r2 m2] eqn:E2. apply sync_spec in E2 as (F2 & _). intros [= <- <- <-] p Hp.
    rewrite F2, F1, lookup_delete_ne; [done|]. intros <-. apply Hp. by left.
  - destruct E1 as [F1 _]. intros [= <- <- <-] p _. by rewrite F1.
Qed.

(** ** Many removals *)

Lemma removed_target fs0 fs removals r : backed fs0 fs (as_replacement <$> removals) -> r ∈ removals -> rm_target r ∈ targets.
Proof.
  intros Hb Hr. pose proof (bk_items _ _ _ _ Hb) as Hi. rewrite Forall_forall in Hi. by destruct (Hi (as_replacement r)) as [? _]; [apply list_elem_of_fmap_2|].
Qed.

(** Some targets are in their tombstones, the others as in [fs0]. *)
Record removed (fs0 fs : files) (removals : list removal) : Prop := {
  rv_backed : backed fs0 fs (as_replacement <$> removals);
  rv_gone : Forall (fun r => fs !! rm_target r = None) removals
}.

Lemma remove_all_spec fs0 todo removals (m : machine W) err removals' m' :
  removed fs0 (mc_fs m) removals -> (forall t, t ∈ todo -> t ∈ targets /\ t ∉ rm_target <$> removals) -> NoDup todo -> dirs_exist (mc_fs m) -> (faults m <= 1)%nat ->
  remove_all todo removals m = (err, removals', m') ->
  removed fs0 (mc_fs m') removals' /\ (err = None -> rm_target <$> removals' = (rm_target <$> removals) ++ todo).
Proof.
  revert removals m. induction todo as [|t todo IH]; intros removals m [Hb Hg] Ht Hnd Hd Hn; cbn [remove_all].
  { intros [= <- <- <-]. rewrite app_nil_r. by split. }
  destruct (Ht t ltac:(by left)) as [Ht1 Ht2]. apply NoDup_cons in Hnd as [Hnd1 Hnd].
  destruct (stageRemoval t m) as [[r|e] m1] eqn:E1; apply stageRemoval_spec in E1 as (N1 & O1 & H1); try done.
  - destruct H1 as (Hrt & Hrep & Hgone).
    assert (Hbk : forall p, p ∈ omap rp_backup (as_replacement <$> removals) -> is_Some (mc_fs m !! p)).
    { intros p (q & Hq1 & Hq2)%elem_backups. pose proof (bk_items _ _ _ _ Hb) as Hi. rewrite Forall_forall in Hi. destruct (Hi q Hq1) as (_ & _ & Hk).
      rewrite Hq2 in Hk. by destruct Hk as (_ & _ & -> & ?). }
    intros H. apply IH in H as [H Heq]; [| | |done| |lia].
    + split; [done|]. intros He. rewrite (Heq He), fmap_app. cbn. by rewrite Hrt, <- app_assoc.
    + split.
      * rewrite fmap_app. apply (backed_snoc targets fs0 (mc_fs m)); [done|by cbn; rewrite Hrt| | |done].
        { cbn. rewrite Hrt, <- list_fmap_compose. done. }
        intros p Hp Hor. apply O1; [cbn in Hp; by rewrite <- Hrt|]. destruct Hor as [Hor|]; [left; by apply Hbk|by right].
      * apply Forall_app. split; [|apply Forall_singleton; by rewrite Hrt]. rewrite Forall_forall in Hg |- *. intros q Hq. rewrite O1; [by apply Hg| |].
        { intros Heq. apply Ht2. rewrite <- Heq. by apply list_elem_of_fmap_2. }
        right. by eapply removed_target.
    + intros t' Hin. destruct (Ht t' ltac:(by right)) as [? Hn']. split; [done|]. rewrite fmap_app. intros [?|?]%elem_of_app; [done|].
      cbn in *. rewrite Hrt in *. set_solver.
    + intros t' Ht'. rewrite O1; [by apply Hd| |left; by apply Hd]. intros Heq. by apply (target_not_dir targets [] Hsep t t' Ht1 Ht').
  - intros [= <- <- <-]. split; [|done].
    assert (Hall : forall p, is_Some (mc_fs m !! p) \/ p ∈ targets -> mc_fs m1 !! p = mc_fs m !! p).
    { intros p Hp. destruct (decide (p = t)) as [->|]; [done|by apply O1]. }
    split.
    + apply (backed_frame targets [] _ (mc_fs m)); [|done]. intros p _ Hp. by apply Hall.
    + rewrite Forall_forall in Hg |- *. intros r Hr. rewrite Hall; [by apply Hg|right; by eapply removed_target].
Qed.

(** Only what was to be removed is removed. *)
Lemma remove_all_targets todo removals (m : machine W) err removals' m' : remove_all todo removals m = (err, removals', m') ->
  forall r, r ∈ removals' -> r ∈ removals \/ rm_target r ∈ todo.
Proof.
  revert removals m. induction todo as [|t todo IH]; intros removals m; cbn [remove_all]; [intros [= <- <- <-]; by left|].
  destruct (stageRemoval t m) as [[q|e] m1] eqn:E1; [|intros [= <- <- <-]; by left].
  assert (Hq : rm_target q = t).
  { revert E1. unfold stageRemoval. destruct (Lstat t m) as [[info|e] m2]; [|by destruct e; intros [= <- _]].
    intros E1. apply act_unless_Ok in E1 as [_ E1]. do 5 apply act_bind_Ok in E1 as (? & ? & _ & E1). by injection E1 as <- _. }
  intros H r Hr. apply (IH _ _ H) in Hr as [[Hr|Hr]%elem_of_app|Hr]; [by left| |right; by right]. apply list_elem_of_singleton in Hr as ->. right. rewrite Hq. by left.
Qed.

Lemma removed_frame fs0 fs fs' removals : frame targets [] fs fs' -> removed fs0 fs removals -> removed fs0 fs' removals.
Proof.
  intros Hf [Hb Hg]. split; [by apply (backed_frame targets [] _ fs)|]. rewrite Forall_forall in Hg |- *. intros r Hr. rewrite Hf; [by apply Hg| |right; by eapply removed_target].
  eapply reserved_kept, target_reserved, removed_target; done.
Qed.
End removing.

(** ** Uninstalling *)

Section uninstalling.
Context {W : Type} (manager : Manager W) (purge : bool).

Notation layout := (mg_Layout manager).

(** What is removed, and the configuration. *)
Definition uninstall_paths : list string := uninstall_targets manager purge ++ if purge then [] else [ly_Config layout].

Notation targets := uninstall_paths.
Notation calm := (calm (W := W) targets []).
Notation removed := (removed targets).

Hypothesis Hsep : separate targets [] = true.
Hypothesis Hquiet : undisturbing targets [] manager.

Definition gone (fs : files) : Prop := forall t, t ∈ uninstall_targets manager purge -> fs !! t = None.
Definition as_before (fs0 fs : files) : Prop := forall t, t ∈ targets -> fs !! t = fs0 !! t.
Definition config_kept (fs0 fs : files) : Prop := purge = false -> fs !! ly_Config layout = fs0 !! ly_Config layout.

(** What an attempt may return. *)
Definition gone_or_before (fs0 : files) (r : option app_error * list (option app_error) * machine W) : Prop :=
  let '(err, undone, m') := r in
  (err = None -> gone (mc_fs m')) /\ (Forall (fun e => e = None) undone -> as_before fs0 (mc_fs m') \/ gone (mc_fs m')) /\ config_kept fs0 (mc_fs m').

Lemma as_before_config fs0 fs : as_before fs0 fs -> config_kept fs0 fs.
Proof. intros H Hp. apply H. unfold uninstall_paths. rewrite Hp. apply elem_of_app. right. by left. Qed.

Lemma calm_as_before m m' : calm m m' -> as_before (mc_fs m) (mc_fs m').
Proof. intros [Hf _ _ _] t Ht. apply Hf; [by apply reserved_kept, target_reserved|by right]. Qed.

Lemma nothing_removed m0 e m : calm m0 m -> gone_or_before (mc_fs m0) (Some e, [], m).
Proof. intros H%calm_as_before. split; [done|]. split; [intros _; by left|by apply as_before_config]. Qed.

Lemma leaves_restore before m : calm m (restoreServiceState manager before m).2.
Proof. unfold restoreServiceState. destruct (rs_Running before); [|reflexivity]. by apply leaves_Start. Qed.

Lemma uninstall_subset t : t ∈ uninstall_targets manager purge -> t ∈ targets.
Proof. intros H. apply elem_of_app. by left. Qed.

Lemma config_not_removed : purge = false -> ly_Config layout ∉ uninstall_targets manager purge.
Proof.
  intros Hp Hin. pose proof (separate_nodup _ _ Hsep) as Hnd. unfold uninstall_paths in Hnd. apply NoDup_app in Hnd as (_ & Hd & _).
  apply (Hd _ Hin). rewrite Hp. by left.
Qed.

(** ** Its parts *)

Lemma removed_config fs0 fs removals : removed fs0 fs removals -> (forall r, r ∈ removals -> rm_target r ∈ uninstall_targets manager purge) -> config_kept fs0 fs.
Proof.
  intros [Hb _] Ht Hp. apply Hb; [unfold uninstall_paths; rewrite Hp; apply elem_of_app; right; by left|]. rewrite <- list_fmap_compose.
  intros (r & Hr & Hin)%list_elem_of_fmap. apply (config_not_removed Hp). rewrite Hr. by apply Ht.
Qed.

Lemma uninstall_rollback_spec fs0 before e removals m : removed fs0 (mc_fs m) removals ->
  (forall r, r ∈ removals -> rm_target r ∈ uninstall_targets manager purge) -> gone_or_before fs0 (uninstall_rollback manager before e removals m).
Proof.
  intros Hr Hsub. unfold uninstall_rollback. destruct (each rollback_removal (rev removals) m) as [es m1] eqn:E.
  pose proof (leaves_restore before m1) as Hl. destruct (restoreServiceState manager before m1) as [r m2]. cbn [snd] in Hl. apply calm_as_before in Hl.
  split; [by rewrite join_none, Forall_cons; intros [? _]|]. split.
  - intros Hes. left. intros t Ht. rewrite Hl by done. destruct Hr as [Hb Hg]. revert t Ht. apply (undo_all_back targets _ _ _ fs0 _ _ _ _ (rollback_removal_undoes targets)) with (3 := E); [| |done].
    + apply (backed_perm targets _ _ (as_replacement <$> removals)); [|done]. apply fmap_Permutation, Permutation_rev.
    + by apply Forall_rev.
  - intros Hp. pose proof (removed_config _ _ _ Hr Hsub Hp) as Hc.
    assert (Hin : ly_Config layout ∈ targets) by (unfold uninstall_paths; rewrite Hp; apply elem_of_app; right; by left). rewrite Hl, <- Hc by done.
    apply (each_outside rollback_removal (fun r => rm_target r :: backup_of (as_replacement r)) _ _ _ _) with (2 := E).
    + intros r0 m3 e' r' m4. apply rollback_removal_outside.
    + intros r0 Hr0. apply list_elem_of_In, in_rev, list_elem_of_In in Hr0. intros [Heq|Hbk]%elem_of_cons.
      * apply (config_not_removed Hp). rewrite Heq. by apply Hsub.
      * revert Hbk. apply (target_no_backup targets fs0 (mc_fs m) (as_replacement <$> removals)); [apply Hr|done|by apply list_elem_of_fmap_2].
Qed.

Lemma remove_directories_none ds err (m : machine W) t : mc_fs m !! t = None -> mc_fs (remove_directories ds err m).2 !! t = None.
Proof.
  revert err m. induction ds as [|d ds IH]; intros err m Hn; cbn [remove_directories]; [done|].
  destruct (Remove d m) as [[u|e] m1] eqn:E; apply remove_spec in E as (_ & _ & E).
  - destruct E as (_ & F & _). apply IH. rewrite F. apply lookup_delete_None. by right.
  - destruct E as [F _]. destruct e; apply IH; by rewrite F.
Qed.

Lemma uninstall_commit_spec fs0 removals m : removed fs0 (mc_fs m) removals -> rm_target <$> removals = uninstall_targets manager purge ->
  gone_or_before fs0 (uninstall_commit manager purge removals m).
Proof.
  intros Hr Heq. assert (Hsub : forall r, r ∈ removals -> rm_target r ∈ uninstall_targets manager purge) by (intros r Hin; rewrite <- Heq; by apply list_elem_of_fmap_2).
  unfold uninstall_commit, commitRemovals. destruct (each commit_removal removals m) as [es m1] eqn:E.
  assert (Hsame : as_before (mc_fs m) (mc_fs m1)).
  { intros t Ht. apply (each_outside commit_removal (fun r => backup_of (as_replacement r)) _ _ _ _) with (2 := E).
    - intros r m2 e r' m3. apply commit_removal_outside.
    - intros r Hin. apply (target_no_backup targets fs0 (mc_fs m) (as_replacement <$> removals)); [apply Hr|done|by apply list_elem_of_fmap_2]. }
  assert (Hgone : gone (mc_fs m1)).
  { intros t Ht. rewrite Hsame by (by apply uninstall_subset). rewrite <- Heq in Ht. apply list_elem_of_fmap in Ht as (r & -> & Hin).
    destruct Hr as [_ Hg]. rewrite Forall_forall in Hg. by apply Hg. }
  assert (Hconf : config_kept fs0 (mc_fs m1)).
  { intros Hp. rewrite <- (removed_config fs0 (mc_fs m) removals Hr Hsub Hp). apply (as_before_config _ _ Hsame Hp). }
  match goal with |- context [if purge then let '(_, _) := remove_directories ?ds ?err m1 in _ else _] => set (e0 := err); set (ds0 := ds) end.
  assert (Hg2 : gone (mc_fs (remove_directories ds0 e0 m1).2)) by (intros t Ht; apply remove_directories_none; by apply Hgone).
  destruct (bool_decide (purge = true)) eqn:Hp; [apply bool_decide_eq_true in Hp|apply bool_decide_eq_false, not_true_iff_false in Hp]; rewrite Hp.
  - destruct (remove_directories ds0 e0 m1) as [err m2]. split; [done|]. split; [intros _; by right|]. unfold config_kept. by rewrite Hp.
  - split; [done|]. split; [intros _; by right|done].
Qed.

Lemma uninstall_remove_spec m0 before m : calm m0 m -> dirs_exist targets (mc_fs m) -> (faults m <= 1)%nat ->
  gone_or_before (mc_fs m0) (uninstall_remove manager purge before m).
Proof.
  intros Hc Hd Hn. unfold uninstall_remove. destruct (remove_all (uninstall_targets manager purge) [] m) as [[err removals] m1] eqn:E.
  assert (Hback : as_before (mc_fs m0) (mc_fs m)) by (by apply calm_as_before).
  assert (Hsub : forall err removals m1, remove_all (uninstall_targets manager purge) [] m = (err, removals, m1) ->
    removed (mc_fs m0) (mc_fs m1) removals /\ (err = None -> rm_target <$> removals = uninstall_targets manager purge)).
  { intros err' removals' m1' E'. apply (remove_all_spec targets Hsep (mc_fs m0)) in E' as [? H]; [done| | | |done|done].
    - split; [|constructor]. split; [constructor|constructor|constructor|]. intros t Ht _. by apply Hback.
    - intros t Ht. split; [by apply uninstall_subset|]. by intros ?%elem_of_nil.
    - pose proof (separate_nodup _ _ Hsep) as H. unfold uninstall_paths in H. by apply NoDup_app in H as [? _]. }
  destruct (Hsub _ _ _ E) as [Hr Heq]. pose proof (remove_all_targets _ _ _ _ _ _ E) as Hin.
  assert (Hin' : forall r, r ∈ removals -> rm_target r ∈ uninstall_targets manager purge).
  { intros r Hr'. destruct (Hin r Hr') as [?%elem_of_nil|]; done. }
  destruct err as [e|]; [by apply uninstall_rollback_spec|]. specialize (Heq eq_refl).
  match goal with |- context [if purge then ?a else ?b] => assert (Hif : forall P, P a -> P b -> P (if purge then a else b)) by (intros; by destruct purge) end.
  apply Hif; [|by apply uninstall_commit_spec]. pose proof (ud_purge _ _ _ Hquiet m1) as Hq. destruct (wa_Purge (mg_Accounts manager) m1) as [[u|e] m2]; cbn [snd] in Hq.
  - apply uninstall_commit_spec; [|done]. by apply (removed_frame targets _ (mc_fs m1)); [apply Hq|].
  - apply uninstall_rollback_spec; [|done]. by apply (removed_frame targets _ (mc_fs m1)); [apply Hq|].
Qed.

Lemma leaves_uninstall_checks m : calm m (uninstall_checks manager m).2.
Proof.
  revert m. apply leaves_bind; [by apply leaves_validate|intros ?]. apply leaves_bind; [apply leaves_root|intros ?].
  apply leaves_bind; [apply ud_probe, Hquiet|intros ?]. apply leaves_bind; [by apply leaves_Stop|intros ?]. apply leaves_ret.
Qed.
End uninstalling.

(** C15: Uninstalling is all or nothing.  When [Uninstall] succeeds, the plist
    and the binary are gone, with [purge] the configuration, the Fake IP files
    and the logs as well.  If at most one call on the files fails, whichever it
    is, and whatever else fails, they are in the end all as before or all gone,
    unless an error of undoing is among those returned; and without [purge] the
    configuration stays as it is.  With two failing calls this is false, as the
    code drops the error of putting a target back ([uninstall_loses_plist]). *)
Theorem uninstall_all_or_nothing {W} (manager : Manager W) purge (m : machine W) err undone m' :
  separate (uninstall_paths manager purge) [] = true -> undisturbing (uninstall_paths manager purge) [] manager ->
  dirs_exist (uninstall_paths manager purge) (mc_fs m) -> (faults m <= 1)%nat ->
  Uninstall manager purge m = (err, undone, m') ->
  (err = None -> gone manager purge (mc_fs m')) /\
  (Forall (fun e => e = None) undone -> as_before manager purge (mc_fs m) (mc_fs m') \/ gone manager purge (mc_fs m')) /\
  config_kept manager purge (mc_fs m) (mc_fs m').
Proof.
  intros Hsep Hq Hd Hn E. change (gone_or_before manager purge (mc_fs m) (err, undone, m')). rewrite <- E. clear E.
  assert (Hremove : forall before m1, calm (uninstall_paths manager purge) [] m m1 -> gone_or_before manager purge (mc_fs m) (uninstall_remove manager purge before m1)).
  { intros before m1 Hc. apply (uninstall_remove_spec manager purge Hsep Hq); [done|by apply (cm_dirs _ _ _ _ Hc)|]. pose proof (cm_faults _ _ _ _ Hc). lia. }
  assert (Habort : forall before e m1, calm (uninstall_paths manager purge) [] m m1 -> gone_or_before manager purge (mc_fs m) (uninstall_aborted manager before e m1)).
  { intros before e m1 Hc. unfold uninstall_aborted. pose proof (leaves_restore manager purge Hq before m1) as Hl.
    destruct (restoreServiceState manager before m1) as [r m2]. cbn [snd] in Hl. assert (Hc2 : calm (uninstall_paths manager purge) [] m m2) by (by rewrite Hc).
    destruct (nothing_removed manager purge m e m2 Hc2) as (_ & ? & ?). split; [by destruct r|done]. }
  unfold Uninstall. pose proof (leaves_uninstall_checks manager purge Hq m) as Hc. destruct (uninstall_checks manager m) as [[before|e] m1]; cbn [snd] in Hc; [|by apply nothing_removed].
  pose proof (ud_recover _ _ _ Hq m1) as H1. destruct (recover manager m1) as [[u|e] m2]; cbn [snd] in H1; [|apply Habort; by rewrite Hc].
  destruct purge; [|apply Hremove; by rewrite Hc]. pose proof (ud_resolve _ _ _ Hq m2) as H2.
  destruct (wa_Resolve (mg_Accounts manager) m2) as [[i|e] m3]; cbn [snd] in H2; [apply Hremove|apply Habort]; by rewrite Hc, H1.
Qed.

(** ** A host to uninstall from *)

Definition an_installed_host (outcomes : list outcome) : machine unit := MkMachine
  (<[ly_Config DefaultLayout := MkNode Regular mode_0600 0 0 "settings"]>
     (<[ly_Binary DefaultLayout := MkNode Regular mode_0755 0 0 "program"]>
        (<[ly_Plist DefaultLayout := MkNode Regular mode_0644 0 0 "manifest"]>
           (list_to_map ((fun p => (p, MkNode Directory mode_0755 0 0 "")) <$>
              ["/Library/PrivilegedHelperTools"; "/Library/Application Support/tun-proxy"; "/Library/LaunchDaemons"])))))
  outcomes ["a"; "b"; "c"] 0 18 [] tt.

Definition the_identity : Identity := MkIdentity "_tun-proxy" "_tun-proxy" 450 450 "/var/empty".

(** A service that is stopped, with a [launchctl] that knows no job. *)
Definition a_stopped_manager : Manager unit := MkManager unit DefaultLayout
  (fun _ args m => (match args with ["print"; _] => Err (MkRunError true (Plain "launchd job is not loaded")) | _ => Ok "" end, m))
  (MkAccounts _ (act_ret (the_identity, false)) (act_ret the_identity) (act_ret tt)) 0 (act_ret (MkRuntimeState false 0 "")) None 0 100 20000 50000.

Lemma a_stopped_undisturbing targets : undisturbing targets [] a_stopped_manager.
Proof. by split; intros m. Qed.

(** The second removal fails: the plist comes back. *)
Lemma uninstall_all_or_nothing_witness :
  let m := an_installed_host (replicate 12 Fine ++ [Fails 0]) in
  let r := Uninstall a_stopped_manager false m in
  r.1.1 <> None /\ r.1.2 = [None] /\ is_Some (mc_fs m !! ly_Plist DefaultLayout) /\
  (as_before a_stopped_manager false (mc_fs m) (mc_fs r.2) \/ gone a_stopped_manager false (mc_fs r.2)).
Proof.
  cbv zeta. set (m := an_installed_host (replicate 12 Fine ++ [Fails 0])). split; [by vm_compute|]. split; [by vm_compute|]. split; [by eexists|].
  apply (uninstall_all_or_nothing a_stopped_manager false m (Uninstall a_stopped_manager false m).1.1 (Uninstall a_stopped_manager false m).1.2);
    [by vm_compute|apply a_stopped_undisturbing| | | |].
  - intros t Ht. unfold uninstall_paths, uninstall_targets in Ht. cbn in Ht. rewrite !elem_of_cons in Ht. destruct Ht as [->|[->|[->|[]%elem_of_nil]]]; vm_compute; by eexists.
  - vm_compute. lia.
  - by destruct (Uninstall a_stopped_manager false m) as [[]].
  - vm_compute. by repeat constructor.
Defined.

(** Two failing calls, the sync behind the removal of the plist and the rename
    that puts it back: the plist is gone, the binary is there, and no error of
    undoing says so. *)
Example uninstall_loses_plist :
  let r := Uninstall a_stopped_manager false (an_installed_host (replicate 5 Fine ++ [Fails 0; Fails 0])) in
  r.1.1 <> None /\ r.1.2 = [] /\ mc_fs r.2 !! ly_Plist DefaultLayout = None /\ is_Some (mc_fs r.2 !! ly_Binary DefaultLayout).
Proof. cbv zeta. split; [by vm_compute|]. split; [by vm_compute|]. split; [by vm_compute|]. vm_compute. by eexists. Qed.
