(* ===== verification/Control.v ===== *)
(** * Component [internal/control]: the management protocol of the supervisor

    [protocol.go], [server_darwin.go] and [client_darwin.go]: requests to
    reload and their answers, frames on a socket, the cache of requests that
    makes a retried request safe, the client, and the socket in the file
    system.  A clock reading is a number of nanoseconds, zero for the zero
    time; JSON, the order in which equal times are sorted and what the handler
    of a request returns are parameters. *)

From stdpp Require Import sorting.
From S2P Require Import Prelude.
From S2P Require Import GoStrings.
From S2P Require Import GoTime.
From S2P Require Import GoFiles.
From S2P Require Import Apperror.
From S2P Require Import Privsep.

(** ** Messages *)

Definition Version : Z := 3.
Definition KindReload : string := "reload".
Definition KindReloadResult : string := "reload_result".
Definition ResultRunning : string := "running".
Definition ResultSucceeded : string := "succeeded".
Definition ResultFailed : string := "failed".
Definition maxMessageSize : Z := 8 * 1024.
Definition maxErrorSize : Z := 4 * 1024.
Definition requestIDBytes : Z := 16.
Definition unknownRequestID : string := "00000000000000000000000000000000".

Record ReloadRequest : Type := MkReloadRequest {
  rq_Version : Z;
  rq_Kind : string;
  rq_RequestID : string;
  rq_OperationID : string;
  rq_RollbackOf : string;
  rq_ExpectedConfigDigest : string
}.

Record ReloadResponse : Type := MkReloadResponse {
  rs_Version : Z;
  rs_Kind : string;
  rs_RequestID : string;
  rs_Result : string;
  rs_ConfigDigest : string;
  rs_StartedAt : Z;
  rs_CompletedAt : Z;
  rs_Error : option ErrorInfo
}.

#[export] Instance ReloadRequest_eq_dec : EqDecision ReloadRequest.
Proof. solve_decision. Defined.

(** [encoding/json] on the values of this package; decoding is strict. *)
Class ControlJSON : Type := {
  encode_request : ReloadRequest -> option string;
  decode_request : string -> result app_error ReloadRequest;
  encode_response : ReloadResponse -> option string;
  decode_response : string -> result app_error ReloadResponse;
  encode_info : ErrorInfo -> option string
}.

(** [hex.EncodeToString] *)
Definition hex_digit (n : Z) : ascii := byte (if n <? 10 then 48 + n else 87 + n).

Fixpoint hex_encode (s : string) : string :=
  match s with
  | "" => ""
  | String c s' => String (hex_digit (code c / 16)) (String (hex_digit (code c `mod` 16)) (hex_encode s'))
  end.

(** [NewRequestID]: what [rand.Read] returned. *)
Definition NewRequestID (random : result app_error string) : result app_error string :=
  let! contents := map_err (Wrapped "generate reload request ID") random in
  Ok (hex_encode contents).

Definition validateID (name value : string) : result app_error unit :=
  fail_if negb (slen value =? requestIDBytes * 2) with Plain (name +:+ " must be 32 lowercase hex characters") in
  fail_if negb (bool_decide (value = to_lower value)) with Plain (name +:+ " must use lowercase hexadecimal") in
  fail_if negb (hex_decodes value) with Wrapped (name +:+ " is invalid") (Plain "encoding/hex") in
  Ok tt.

Definition validateDigest (digest : string) : result app_error unit :=
  let prefix := "sha256:" in
  fail_if negb (has_prefix digest prefix) || negb (slen digest =? slen prefix + 64)
    with Plain "config digest must be sha256:<64 hex characters>" in
  let encoded := trim_prefix digest prefix in
  fail_if negb (bool_decide (encoded = to_lower encoded)) with Plain "config digest must use lowercase hexadecimal" in
  fail_if negb (hex_decodes encoded) with Wrapped "config digest is invalid" (Plain "encoding/hex") in
  Ok tt.

Definition rollback_failures (request : ReloadRequest) : list app_error :=
  if bool_decide (rq_RollbackOf request = "") then []
  else match validateID "rollback request ID" (rq_RollbackOf request) with
       | Err e => [e]
       | Ok _ => failing (bool_decide (rq_RollbackOf request = rq_RequestID request)) "rollback_of must differ from request_id"
       end.

(** [ReloadRequest.validate] *)
Definition request_validate (request : ReloadRequest) : result app_error unit :=
  joined
    (failing (negb (rq_Version request =? Version)) "control request version must be 3"
     ++ failing (negb (bool_decide (rq_Kind request = KindReload))) "control request kind must be reload"
     ++ check_failures (validateID "reload request ID" (rq_RequestID request))
     ++ check_failures (validateID "operation ID" (rq_OperationID request))
     ++ rollback_failures request
     ++ check_failures (validateDigest (rq_ExpectedConfigDigest request))).

Definition sameIdentity (request other : ReloadRequest) : bool :=
  bool_decide (rq_ExpectedConfigDigest request = rq_ExpectedConfigDigest other)
  && bool_decide (rq_OperationID request = rq_OperationID other)
  && bool_decide (rq_RollbackOf request = rq_RollbackOf other).

Section json.
Context `{J : ControlJSON}.

(** [json.Marshal] failed or its result is too long. *)
Definition error_size_failures (info : ErrorInfo) : list app_error :=
  match encode_info info with
  | None => [Wrapped "encode control response error" (Plain "encoding/json")]
  | Some encoded => failing (maxErrorSize <? slen encoded) "control response error exceeds 4096 bytes"
  end.

Definition error_failures (error : option ErrorInfo) : list app_error :=
  match error with
  | None => []
  | Some info =>
      match ValidateInfo info with Ok _ => [] | Err e => [Wrapped "control response error is invalid" e] end ++ error_size_failures info
  end.

Definition is_none {A} (o : option A) : bool := match o with None => true | Some _ => false end.

Definition result_failures (response : ReloadResponse) : list app_error :=
  let completed := negb (rs_CompletedAt response =? 0) in
  if bool_decide (rs_Result response = ResultRunning)
  then failing (completed || negb (bool_decide (rs_ConfigDigest response = "")) || negb (is_none (rs_Error response)))
         "running control response must not include completion, digest, or error"
  else if bool_decide (rs_Result response = ResultSucceeded)
  then failing (negb completed) "successful control response completed_at is required"
       ++ check_failures (validateDigest (rs_ConfigDigest response))
       ++ failing (negb (is_none (rs_Error response))) "successful control response must not include an error"
  else if bool_decide (rs_Result response = ResultFailed)
  then failing (negb completed) "failed control response completed_at is required"
       ++ failing (is_none (rs_Error response)) "failed control response error is required"
       ++ failing (negb (bool_decide (rs_ConfigDigest response = ""))) "failed control response must not include a config digest"
  else [Plain "control response result is invalid"].

(** [ReloadResponse.validate] *)
Definition response_validate (response : ReloadResponse) : result app_error unit :=
  joined
    (failing (negb (rs_Version response =? Version)) "control response version must be 3"
     ++ failing (negb (bool_decide (rs_Kind response = KindReloadResult))) "control response kind must be reload_result"
     ++ check_failures (validateID "reload response request ID" (rs_RequestID response))
     ++ failing (rs_StartedAt response =? 0) "control response started_at is required"
     ++ error_failures (rs_Error response)
     ++ result_failures response
     ++ failing (negb (rs_CompletedAt response =? 0) && negb (rs_StartedAt response =? 0) && (rs_CompletedAt response <? rs_StartedAt response))
          "control response completed_at precedes started_at").

(** ** Frames *)

(** What a reader delivers before it ends, and whether it ends with an error
    instead of the end of the stream. *)
Record stream : Type := MkStream { st_contents : string; st_failed : bool }.

(** The text up to the first newline. *)
Fixpoint line_of (s : string) : option string :=
  match s with
  | "" => None
  | String c s' => if Ascii.eqb c (byte 10) then Some "" else String c <$> line_of s'
  end.

(** [readFrame] *)
Definition readFrame (input : stream) : result app_error string :=
  let limit := Z.to_nat (maxMessageSize + 1) in
  let received := stake limit (st_contents input) in
  match line_of received with
  | Some line => if maxMessageSize <? slen line + 1 then Err (Plain "control message exceeds 8192 bytes") else Ok line
  | None =>
      if maxMessageSize <? slen received then Err (Plain "control message exceeds 8192 bytes")
      else if st_failed input then Err (Wrapped "read control message" (Plain "read"))
      else Err (Plain "control message must end with a newline")
  end.

(** [writeFrame]: what is written, unless the [Write] fails. *)
Definition writeFrame (encoded : option string) (write_fails : bool) : result app_error string :=
  match encoded with
  | None => Err (Wrapped "encode control message" (Plain "encoding/json"))
  | Some payload =>
      fail_if maxMessageSize <? slen payload + 1 with Plain "control message exceeds 8192 bytes" in
      fail_if write_fails with Wrapped "write control message" (Plain "write") in
      Ok (payload +:+ String (byte 10) "")
  end.

Definition readRequest (input : stream) : result app_error ReloadRequest :=
  let! payload := readFrame input in
  let! request := map_err (Wrapped "decode control request") (decode_request payload) in
  let! _ := request_validate request in
  Ok request.

Definition writeResponse (response : ReloadResponse) (write_fails : bool) : result app_error string :=
  let! _ := response_validate response in
  writeFrame (encode_response response) write_fails.

(** ** The cache of requests *)

Definition maxConnections : Z := 16.
Definition requestCacheLimit : Z := 64.
Definition requestCacheTTL : Z := 10 * minute.

(** [reloadRecord]; without a response the handler is still running. *)
Record reloadRecord : Type := MkRecord {
  rd_request : ReloadRequest;
  rd_started : Z;
  rd_response : option ReloadResponse
}.

Notation requests := (gmap string reloadRecord).

Definition oversized : app_error := New CodeInternalError "service.reload" "reload failed with an oversized structured error".

(** [failedResponse], which reads the clock itself. *)
Definition failedResponse (requestID : string) (started : Z) (err : app_error) (clock : Z) : ReloadResponse :=
  let info := InfoOf (Some err) in
  let info := if bool_decide (error_size_failures info = []) then info else InfoOf (Some oversized) in
  MkReloadResponse Version KindReloadResult requestID ResultFailed "" started clock (Some info).

(** The completed records with their times. *)
Definition completed_of (x : string * reloadRecord) : option (string * Z) :=
  match rd_response x.2 with Some response => Some (x.1, rs_CompletedAt response) | None => None end.

Definition expired (now : Z) (x : string * reloadRecord) : Prop :=
  match rd_response x.2 with
  | Some response => rs_CompletedAt response <> 0 /\ requestCacheTTL <= now - rs_CompletedAt response
  | None => False
  end.

#[export] Instance expired_dec now x : Decision (expired now x).
Proof. unfold expired. destruct (rd_response x.2); apply _. Defined.

Definition pruneExpiredRequestsLocked (now : Z) (rs : requests) : requests := filter (fun x => ~ expired now x) rs.

(** The loop over the sorted records. *)
Fixpoint evict (completed : list (string * Z)) (rs : requests) : requests :=
  match completed with
  | [] => rs
  | record :: completed' => if Z.of_nat (size rs) <? requestCacheLimit then rs else evict completed' (delete record.1 rs)
  end.

Context (sorted : list (string * Z) -> list (string * Z)).

Definition pruneRequestsLocked (now : Z) (rs : requests) : requests :=
  let rs := pruneExpiredRequestsLocked now rs in
  if Z.of_nat (size rs) <? requestCacheLimit then rs
  else evict (sorted (omap completed_of (map_to_list rs))) rs.

Definition conflict (request : ReloadRequest) : app_error :=
  WithDetails {[ "reload_request_id" := DString (rq_RequestID request); "operation_id" := DString (rq_OperationID request);
                 "rollback_of" := DString (rq_RollbackOf request) ]}
    (New CodeReloadRequestConflict "service.reload" "reload request ID conflicts with an existing request").

Definition cache_full : app_error :=
  Wrap CodeServiceUnreachable "service.reload" "reload request cache is full" (Plain "control request cache capacity exhausted").

Definition running_response (requestID : string) (started : Z) : ReloadResponse :=
  MkReloadResponse Version KindReloadResult requestID ResultRunning "" started 0 None.

(** [processReload] up to the point where it executes the request, when it
    has no answer: [None]. *)
Definition processReload (now clock : Z) (request : ReloadRequest) (rs : requests) : option ReloadResponse * requests :=
  let rs := pruneExpiredRequestsLocked now rs in
  match rs !! rq_RequestID request with
  | Some existing =>
      if negb (sameIdentity (rd_request existing) request)
      then (Some (failedResponse (rq_RequestID request) now (conflict request) clock), rs)
      else match rd_response existing with
           | Some response => (Some response, rs)
           | None => (Some (running_response (rq_RequestID request) (rd_started existing)), rs)
           end
  | None =>
      let rs := pruneRequestsLocked now rs in
      if requestCacheLimit <=? Z.of_nat (size rs)
      then (Some (failedResponse (rq_RequestID request) now cache_full clock), rs)
      else (None, <[rq_RequestID request := MkRecord request now None]> rs)
  end.

(** [executeReload] after the handler returned: the response. *)
Definition executeReload (request : ReloadRequest) (started : Z) (handled : result app_error string) (completed clock : Z) : ReloadResponse :=
  let outcome :=
    let! digest := handled in
    let! _ := map_err (Wrapped "reload handler returned an invalid digest") (validateDigest digest) in
    Ok digest in
  match outcome with
  | Ok digest => MkReloadResponse Version KindReloadResult (rq_RequestID request) ResultSucceeded digest started completed None
  | Err e =>
      let response := failedResponse (rq_RequestID request) started e clock in
      MkReloadResponse Version KindReloadResult (rs_RequestID response) ResultFailed "" started completed (rs_Error response)
  end.

(** ** The server *)

(** A request that was read; a handler that returns. *)
Inductive event : Type :=
| Arrive (now clock : Z) (request : ReloadRequest)
| Complete (requestID : string) (handled : result app_error string) (completed clock : Z).

(** A handler was started for a request; an answer to a request. *)
Inductive output : Type :=
| Executed (request : ReloadRequest)
| Answered (request : ReloadRequest) (response : ReloadResponse).

Definition serve_event (e : event) (rs : requests) : list output * requests :=
  match e with
  | Arrive now clock request =>
      match processReload now clock request rs with
      | (Some response, rs) => ([Answered request response], rs)
      | (None, rs) => ([Executed request], rs)
      end
  | Complete requestID handled completed clock =>
      match rs !! requestID with
      | Some (MkRecord request started None) =>
          let response := executeReload request started handled completed clock in
          ([Answered request response], <[requestID := MkRecord request started (Some response)]> rs)
      | _ => ([], rs)
      end
  end.

Fixpoint serve (es : list event) (rs : requests) : list output * requests :=
  match es with
  | [] => ([], rs)
  | e :: es' => let '(o, rs) := serve_event e rs in let '(os, rs) := serve es' rs in (o ++ os, rs)
  end.

(** ** Connections *)

(** What [handle] does with a connection: closes it, answers a request that
    could not be read, or submits one. *)
Inductive connection : Type :=
| Closed
| Refused (response : ReloadResponse)
| Submitted (request : ReloadRequest).

(** [requirePeerUID]: the credentials of the peer, when they could be read. *)
Definition requirePeerUID (peer : option Z) (expectedUID : Z) : result app_error unit :=
  match peer with
  | None => Err (Wrapped "inspect control peer credentials" (Plain "getsockopt"))
  | Some uid => fail_if negb (uid =? expectedUID) with Plain "control peer has another UID" in Ok tt
  end.

Definition handle (ownerUID : Z) (peer : option Z) (input : stream) (now clock : Z) : connection :=
  match requirePeerUID peer ownerUID with
  | Err _ => Closed
  | Ok _ => match readRequest input with Err e => Refused (failedResponse unknownRequestID now e clock) | Ok request => Submitted request end
  end.

(** The loop of [serve]: whether a connection gets one of the slots. *)
Definition accept (active : Z) : option Z := if active <? maxConnections then Some (active + 1) else None.

(** ** The client *)

(** A transport error may be retried; the others are final. *)
Inductive client_error : Type :=
| TransportError (e : app_error)
| ContextError (deadline : bool)
| Rejected (e : app_error).

Definition IsTransportError (e : client_error) : bool := match e with TransportError _ => true | _ => false end.

(** What the client gets from the inspection of the socket. *)
Inductive socket_state : Type := SocketMissing | SocketUnsafe (e : app_error) | SocketSafe.

(** One try to reach the server; [tr_context] is the error of the context
    when a call fails. *)
Record transport : Type := MkTransport {
  tr_socket : socket_state;
  tr_dial_fails : bool;
  tr_write_fails : bool;
  tr_reply : stream;
  tr_context : option bool
}.

Definition transport_failure (t : transport) (e : app_error) : client_error :=
  match tr_context t with Some deadline => ContextError deadline | None => TransportError e end.

Definition too_old (message : string) (e : app_error) : client_error := Rejected (Wrap CodeServiceProtocolTooOld "service.reload" message e).

(** [Reload] from the received payload on. *)
Definition check_response (request : ReloadRequest) (payload : string) : result client_error ReloadResponse :=
  let! response := map_err (too_old "supervisor control response is incompatible") (decode_response payload) in
  fail_if negb (rs_Version response =? Version)
    with too_old "supervisor control protocol version is incompatible" (Plain "got another version, want 3") in
  let! _ := map_err (too_old "supervisor control response is invalid") (response_validate response) in
  fail_if negb (bool_decide (rs_RequestID response = rq_RequestID request))
    with Rejected (WithDetails {[ "reload_request_id" := DString (rq_RequestID request) ]}
           (Wrap CodeReloadRequestMismatch "service.reload" "supervisor response request ID does not match the reload request" (Plain "got another ID"))) in
  match (if bool_decide (rs_Result response = ResultFailed) then rs_Error response else None) with
  | Some info => Err (Rejected (FromInfo info))
  | None =>
      fail_if bool_decide (rs_Result response = ResultSucceeded) && negb (bool_decide (rs_ConfigDigest response = rq_ExpectedConfigDigest request))
        with Rejected (WithDetails
               {[ "expected_config_digest" := DString (rq_ExpectedConfigDigest request); "actual_config_digest" := DString (rs_ConfigDigest response);
                  "reload_request_id" := DString (rq_RequestID request) ]}
               (Wrap CodeReloadDigestMismatch "service.reload" "supervisor activated an unexpected configuration digest" (Plain "got another digest"))) in
      Ok response
  end.

Definition validateSocketPath (path : string) : result app_error unit :=
  fail_if bool_decide (path = "") || negb (is_abs path) || negb (bool_decide (clean path = path))
    with Plain "control socket must be a clean absolute path" in
  fail_if 103 <? slen path with Plain "control socket exceeds the macOS path limit" in
  Ok tt.

Definition Reload (path : string) (request : ReloadRequest) (t : transport) : result client_error ReloadResponse :=
  let! _ := map_err Rejected (request_validate request) in
  let! _ := map_err Rejected (validateSocketPath path) in
  let! _ := (match tr_socket t with
             | SocketMissing => Err (TransportError (Wrapped "inspect control socket" (Plain "no such file or directory")))
             | SocketUnsafe e => Err (Rejected (WithDetails {[ "socket_path" := DString path ]}
                                   (Wrap CodeUnsafeFile "service.reload" "supervisor control socket is unsafe" e)))
             | SocketSafe => Ok tt
             end) in
  fail_if tr_dial_fails t with transport_failure t (Wrapped "connect control socket" (Plain "dial")) in
  let! _ := map_err (transport_failure t) (writeFrame (encode_request request) (tr_write_fails t)) in
  let! payload := map_err (fun e => transport_failure t (Wrapped "read control response" e)) (readFrame (tr_reply t)) in
  check_response request payload.
End json.

(** ** The socket in the file system *)

(** What [Lstat] and [Stat_t] say of a path. *)
Record path_info : Type := MkPathInfo {
  pn_kind : file_kind;
  pn_socket : bool;
  pn_uid : Z;
  pn_perm : Z;
  pn_device : Z;
  pn_inode : Z
}.

Record socketIdentity : Type := MkSocketIdentity { sk_device : Z; sk_inode : Z }.

#[export] Instance socketIdentity_eq_dec : EqDecision socketIdentity.
Proof. solve_decision. Defined.

(** The paths, and whether the next calls fail. *)
Record paths : Type := MkPaths { pt_infos : gmap string path_info; pt_failures : list bool }.

(** The errors that the code tells apart. *)
Inductive socket_error : Type := NotExist | SocketFailure (e : app_error).

Notation P := (act paths socket_error).

Definition refusal (text : string) : socket_error := SocketFailure (Plain text).

Definition path_call {A} (f : gmap string path_info -> result socket_error (A * gmap string path_info)) : P A := fun s =>
  match pt_failures s with
  | true :: failures => (Err (refusal "input/output error"), MkPaths (pt_infos s) failures)
  | failures =>
      match f (pt_infos s) with
      | Ok (a, infos) => (Ok a, MkPaths infos (tail failures))
      | Err e => (Err e, MkPaths (pt_infos s) (tail failures))
      end
  end.

Definition stat_path (path : string) : P path_info := path_call (fun infos =>
  match infos !! path with Some info => Ok (info, infos) | None => Err NotExist end).

Definition remove_path (path : string) : P unit := path_call (fun infos =>
  match infos !! path with Some _ => Ok (tt, delete path infos) | None => Err NotExist end).

Definition validateParent (path : string) (expectedUID : Z) : P unit :=
  act! info := stat_path (dir path) in
  stop_if negb (bool_decide (pn_kind info = Directory)) || negb (pn_uid info =? expectedUID) || negb (Z.land (pn_perm info) (2 * 8 + 2) =? 0)
    with refusal "control socket parent must be an owned non-writable directory" in
  act_ret tt.

Definition inspectSocket (path : string) (expectedUID : Z) (requireMode : bool) : P socketIdentity :=
  act! info := stat_path path in
  stop_if negb (pn_socket info) || bool_decide (pn_kind info = Symlink) with refusal "control path is not a Unix socket" in
  stop_if negb (pn_uid info =? expectedUID) with refusal "control socket is owned by another UID" in
  stop_if requireMode && negb (pn_perm info =? 6 * 64) with refusal "control socket permissions are not 0600" in
  act_ret (MkSocketIdentity (pn_device info) (pn_inode info)).

Definition RemoveStaleForOwner (path : string) (expectedUID : Z) : P unit :=
  act! _ := act_of (map_err SocketFailure (validateSocketPath path)) in
  fun s =>
    match stat_path path s with
    | (Err NotExist, s) => (Ok tt, s)
    | (Err e, s) => (Err e, s)
    | (Ok _, s) =>
        (act! _ := inspectSocket path expectedUID false in
         remove_path path) s
    end.

Definition removeOwnedSocket (path : string) (expectedUID : Z) (want : socketIdentity) : P unit := fun s =>
  match inspectSocket path expectedUID false s with
  | (Err NotExist, s) => (Ok tt, s)
  | (Err e, s) => match stat_path path s with (Err NotExist, s) => (Ok tt, s) | (_, s) => (Err e, s) end
  | (Ok got, s) =>
      (stop_if negb (bool_decide (got = want)) with refusal "refuse to remove replaced control socket" in
       remove_path path) s
  end.

(** A call whose error is dropped. *)
Definition dropped_call {A} (m : P A) (s : paths) : paths := (m s).2.

(** [ListenUnix] makes a socket, as the system creates it. *)
Definition listen (path : string) (made : path_info) : P unit := path_call (fun infos =>
  match infos !! path with Some _ => Err (refusal "address already in use") | None => Ok (tt, <[path := made]> infos) end).

Definition chmod_path (path : string) (perm : Z) : P unit := path_call (fun infos =>
  match infos !! path with
  | Some i => Ok (tt, <[path := MkPathInfo (pn_kind i) (pn_socket i) (pn_uid i) perm (pn_device i) (pn_inode i)]> infos)
  | None => Err NotExist
  end).

(** [Start]: the identity of the socket that it owns from then on. *)
Definition Start (path : string) (expectedUID : Z) (made : path_info) : P socketIdentity :=
  act! _ := act_of (map_err SocketFailure (validateSocketPath path)) in
  act! _ := validateParent path expectedUID in
  act! _ := RemoveStaleForOwner path expectedUID in
  act! _ := listen path made in
  fun s =>
    match (act! _ := chmod_path path (6 * 64) in inspectSocket path expectedUID true) s with
    | (Ok identity, s) => (Ok identity, s)
    | (Err e, s) => (Err e, dropped_call (remove_path path) s)
    end.
