(* ===== verification/ControlFacts.v ===== *)
(** * Component [internal/control]: retries are safe

    However often a request is retried while it runs or its answer is kept,
    its handler runs once, and every final answer to it is the first one; what
    the server answers is accepted by the client. *)

From stdpp Require Import sorting.
From S2P Require Import Prelude.
From S2P Require Import GoStrings.
From S2P Require Import GoTime.
From S2P Require Import GoFiles.
From S2P Require Import Apperror.
From S2P Require Import Privsep.
From S2P Require Import PrivsepSessionFacts.
From S2P Require Import Control.

Notation requests := (gmap string reloadRecord).

(** ** The cache *)

Section cache.
Context `{J : ControlJSON} (sorted : list (string * Z) -> list (string * Z)).

(** When the clock is read, and what is asked for. *)
Definition event_times (e : event) : list Z := match e with Arrive now clock _ => [now; clock] | Complete _ _ completed clock => [completed; clock] end.

Definition event_id (e : event) : option string := match e with Arrive _ _ request => Some (rq_RequestID request) | Complete _ _ _ _ => None end.

(** The events fall into the time for which the cache keeps an answer. *)
Definition within (start : Z) (es : list event) : Prop :=
  Forall (fun e => Forall (fun t => start <= t < start + requestCacheTTL) (event_times e)) es.

(** All identifiers that are known or asked for fit into the cache. *)
Definition fits_cache (ids : gset string) (es : list event) (rs : requests) : Prop :=
  dom rs ⊆ ids /\ (forall e id, e ∈ es -> event_id e = Some id -> id ∈ ids) /\ Z.of_nat (size ids) <= requestCacheLimit.

Lemma prune_subset now (rs : requests) : pruneExpiredRequestsLocked now rs ⊆ rs.
Proof. apply map_filter_subseteq. Qed.

Lemma evict_subset completed (rs : requests) : evict completed rs ⊆ rs.
Proof.
  revert rs. induction completed as [|c cs IH]; intros rs; cbn [evict]; [done|]. destruct (_ <? _); [done|].
  transitivity (delete c.1 rs); [apply IH|apply delete_subseteq].
Qed.

Lemma prune_requests_subset now (rs : requests) : pruneRequestsLocked sorted now rs ⊆ rs.
Proof.
  unfold pruneRequestsLocked. destruct (_ <? _); [apply prune_subset|]. etransitivity; [apply evict_subset|apply prune_subset].
Qed.

Lemma size_dom_le (rs : requests) (ids : gset string) : dom rs ⊆ ids -> (size rs <= size ids)%nat.
Proof. intros H. rewrite <- size_dom. by apply subseteq_size. Qed.

(** With room for one more identifier nothing is evicted. *)
Lemma prune_keeps_room now (rs : requests) (ids : gset string) id : dom rs ⊆ ids -> id ∈ ids -> rs !! id = None -> Z.of_nat (size ids) <= requestCacheLimit ->
  pruneRequestsLocked sorted now rs = pruneExpiredRequestsLocked now rs /\ Z.of_nat (size (pruneExpiredRequestsLocked now rs)) < requestCacheLimit.
Proof.
  intros Hd Hi Hn Hs. assert (Hlt : (size (pruneExpiredRequestsLocked now rs) < size ids)%nat).
  { rewrite <- size_dom. apply subset_size. split.
    - etransitivity; [apply dom_filter_subseteq|done].
    - intros Hsub. apply Hsub in Hi. apply (subseteq_dom _ _ (prune_subset now rs)) in Hi. apply elem_of_dom in Hi as [x Hx]. congruence. }
  unfold pruneRequestsLocked. split; [|lia]. by rewrite (proj2 (Z.ltb_lt _ _)) by lia.
Qed.

(** A record that is not expired stays. *)
Definition fresh (start : Z) (r : reloadRecord) : Prop :=
  match rd_response r with Some response => start <= rs_CompletedAt response | None => True end.

Lemma prune_keeps_fresh start now (rs : requests) id r : fresh start r -> now < start + requestCacheTTL -> rs !! id = Some r ->
  pruneExpiredRequestsLocked now rs !! id = Some r.
Proof.
  intros Hf Hn Hl. unfold pruneExpiredRequestsLocked. rewrite map_lookup_filter_Some. split; [done|]. unfold expired, fresh in *. cbn.
  destruct (rd_response r) as [response|]; [|tauto]. intros [_ He]. lia.
Qed.

(** ** A retried request *)

(** What is asked for under [id] is the same request. *)
Definition retries (request : ReloadRequest) (e : event) : Prop :=
  match e with Arrive _ _ other => rq_RequestID other = rq_RequestID request -> sameIdentity request other = true | Complete _ _ _ _ => True end.

Definition executions (id : string) (os : list output) : list ReloadRequest :=
  omap (fun o => match o with Executed r => if bool_decide (rq_RequestID r = id) then Some r else None | Answered _ _ => None end) os.

(** The final answers under [id]. *)
Definition finals (id : string) (os : list output) : list ReloadResponse :=
  omap (fun o => match o with
                 | Answered r response => if bool_decide (rq_RequestID r = id) && negb (bool_decide (rs_Result response = ResultRunning)) then Some response else None
                 | Executed _ => None
                 end) os.

Lemma executions_app id os os' : executions id (os ++ os') = executions id os ++ executions id os'.
Proof. apply omap_app. Qed.

Lemma finals_app id os os' : finals id (os ++ os') = finals id os ++ finals id os'.
Proof. apply omap_app. Qed.

Lemma execute_final request started handled completed clock :
  let a := executeReload request started handled completed clock in
  bool_decide (rs_Result a = ResultRunning) = false /\ rs_CompletedAt a = completed /\ rs_StartedAt a = started /\ rs_RequestID a = rq_RequestID request.
Proof. cbn zeta. unfold executeReload. by destruct (let! digest := handled in _). Qed.

(** Records are kept under the identifiers of their requests. *)
Definition keyed (rs : requests) : Prop := map_Forall (fun id r => rq_RequestID (rd_request r) = id) rs.

Lemma keyed_subset (rs rs' : requests) : rs' ⊆ rs -> keyed rs -> keyed rs'.
Proof. intros Hs Hk id r Hl. apply Hk. by eapply lookup_weaken. Qed.

Lemma serve_event_keyed e rs : keyed rs -> keyed (serve_event sorted e rs).2.
Proof.
  intros Hk. destruct e as [now clock request|id handled completed clock]; cbn [serve_event].
  - unfold processReload. assert (H1 := keyed_subset _ _ (prune_subset now rs) Hk).
    destruct (_ !! _) as [existing|]; [destruct (negb _); [done|]; by destruct (rd_response existing)|].
    assert (H2 := keyed_subset _ _ (prune_requests_subset now _) H1). destruct (_ <=? _); cbn [snd]; [done|]. by apply map_Forall_insert_2.
  - destruct (rs !! id) as [[request started [response|]]|] eqn:E; cbn [snd]; [done| |done]. apply map_Forall_insert_2; [|done]. exact (Hk _ _ E).
Qed.

(** Events leave the identifiers within [ids]. *)
Lemma serve_event_dom ids e rs : (forall id, event_id e = Some id -> id ∈ ids) -> dom rs ⊆ ids -> dom (serve_event sorted e rs).2 ⊆ ids.
Proof.
  intros Hid Hd. destruct e as [now clock request|id handled completed clock]; cbn [serve_event].
  - specialize (Hid _ eq_refl). unfold processReload. assert (H1 : dom (pruneExpiredRequestsLocked now rs) ⊆ ids) by (etransitivity; [apply dom_filter_subseteq|done]).
    assert (H2 : dom (pruneRequestsLocked sorted now (pruneExpiredRequestsLocked now rs)) ⊆ ids).
    { etransitivity; [apply subseteq_dom, prune_requests_subset|done]. }
    destruct (_ !! _) as [existing|]; [destruct (negb _); [done|]; by destruct (rd_response existing)|]. destruct (_ <=? _); cbn [snd]; [done|]. set_solver.
  - destruct (rs !! id) as [[request started [response|]]|] eqn:E; cbn [snd]; [done| |done]. apply elem_of_dom_2 in E. set_solver.
Qed.

Section retried.
Context (request : ReloadRequest) (start : Z) (ids : gset string).
Hypothesis Hids : Z.of_nat (size ids) <= requestCacheLimit.

Notation id := (rq_RequestID request).

Definition in_time (e : event) : Prop := Forall (fun t => start <= t < start + requestCacheTTL) (event_times e).

(** The record of the request, whose handler was started. *)
Definition known (rs : requests) (r : reloadRecord) : Prop :=
  rs !! id = Some r /\ fresh start r /\ sameIdentity (rd_request r) request = true /\ rq_RequestID (rd_request r) = id.

(** Where an answer to it comes from. *)
Definition answers (r : reloadRecord) (es : list event) (a : ReloadResponse) : Prop :=
  match rd_response r with
  | Some response => a = response
  | None => exists handled completed clock, Complete id handled completed clock ∈ es /\ a = executeReload (rd_request r) (rd_started r) handled completed clock
  end.

Lemma same_identity_trans r1 r2 r3 : sameIdentity r1 r2 = true -> sameIdentity r2 r3 = true -> sameIdentity r1 r3 = true.
Proof. unfold sameIdentity. rewrite !andb_true_iff, !bool_decide_eq_true. intros [[? ?] ?] [[? ?] ?]. repeat split; congruence. Qed.

Lemma known_pruned now rs r : now < start + requestCacheTTL -> known rs r -> known (pruneExpiredRequestsLocked now rs) r.
Proof. intros Hn (Hl & Hf & ?). split; [by eapply prune_keeps_fresh|done]. Qed.

(** A request under another identifier leaves the record alone. *)
Lemma known_other now clock other rs r : in_time (Arrive now clock other) -> rq_RequestID other ∈ ids -> rq_RequestID other <> id -> dom rs ⊆ ids ->
  known rs r -> known (processReload sorted now clock other rs).2 r.
Proof.
  intros [[? Ht] _]%Forall_cons Hin Hne Hd Hk. assert (Hk1 := known_pruned now rs r Ht Hk). unfold processReload.
  destruct (pruneExpiredRequestsLocked now rs !! rq_RequestID other) as [existing|] eqn:E; [destruct (negb _); [done|]; by destruct (rd_response existing)|].
  destruct (prune_keeps_room now (pruneExpiredRequestsLocked now rs) ids (rq_RequestID other)) as [Heq _]; [|done|done|done|].
  { etransitivity; [apply dom_filter_subseteq|done]. }
  rewrite Heq. pose proof (known_pruned now _ r Ht Hk1) as Hk2. destruct (_ <=? _); cbn [snd]; [done|].
  destruct Hk2 as [Hl Hrest]. split; [by rewrite lookup_insert_ne|done].
Qed.

Lemma step_known e rs r : in_time e -> retries request e -> (forall i, event_id e = Some i -> i ∈ ids) -> dom rs ⊆ ids -> keyed rs -> known rs r ->
  let '(os, rs1) := serve_event sorted e rs in
  executions id os = [] /\
  exists r1, known rs1 r1 /\ rd_request r1 = rd_request r /\ rd_started r1 = rd_started r /\
    ((rd_response r1 = rd_response r /\ Forall (fun a => rd_response r = Some a) (finals id os)) \/
     (rd_response r = None /\ exists handled completed clock, e = Complete id handled completed clock /\
        rd_response r1 = Some (executeReload (rd_request r) (rd_started r) handled completed clock) /\
        finals id os = [executeReload (rd_request r) (rd_started r) handled completed clock])).
Proof.
  intros Ht Hre Hid Hd Hkeyed Hk. destruct e as [now clock other|i handled completed clock]; cbn [serve_event].
  - destruct (decide (rq_RequestID other = id)) as [Heq|Hne].
    + assert (Hnow : now < start + requestCacheTTL) by (apply Forall_cons in Ht as [? _]; lia). assert (Hk1 := known_pruned now rs r Hnow Hk).
      destruct Hk as (_ & _ & Hs & _). unfold processReload. rewrite Heq, (proj1 Hk1). specialize (Hre Heq). rewrite (same_identity_trans _ _ _ Hs Hre). cbn [negb].
      destruct (rd_response r) as [response|] eqn:Er; (split; [done|]); exists r; (split; [done|]); (split; [done|]); (split; [done|]); left; (split; [done|]).
      * cbn. rewrite bool_decide_eq_true_2 by done. cbn. destruct (negb _); by repeat constructor.
      * cbn. by rewrite bool_decide_eq_true_2, andb_false_r by done.
    + pose proof (known_other now clock other rs r Ht (Hid _ eq_refl) Hne Hd Hk) as Hk1.
      assert (Hx : executions id (serve_event sorted (Arrive now clock other) rs).1 = [] /\ finals id (serve_event sorted (Arrive now clock other) rs).1 = []).
      { cbn [serve_event]. destruct (processReload _ _ _ _ _) as [[response|] rs1]; cbn; by rewrite bool_decide_eq_false_2. }
      cbn [serve_event] in Hx. destruct (processReload sorted now clock other rs) as [[response|] rs1]; cbn [fst snd] in *; destruct Hx as [Hx1 Hx2];
        (split; [done|]); exists r; rewrite Hx2; (split; [done|]); (split; [done|]); (split; [done|]); left; by split.
  - destruct (decide (i = id)) as [->|Hne].
    + destruct Hk as (Hl & Hf & Hs & Hi). rewrite Hl. destruct r as [rq st [response|]].
      { split; [done|]. eexists. split; [by split|]. split; [done|]. split; [done|]. left. by split. }
      destruct (execute_final rq st handled completed clock) as (Hfin & Hc & _). cbn zeta in *. split; [done|]. eexists. split; [split; [apply lookup_insert_eq|]|].
      { split; [|by split]. unfold fresh. cbn. rewrite Hc. apply Forall_cons in Ht as [? _]. lia. }
      split; [done|]. split; [done|]. right. split; [done|]. exists handled, completed, clock. split; [done|]. split; [done|].
      cbn in Hi. cbn. by rewrite bool_decide_eq_true_2, Hfin by done.
    + assert (Hsame : forall rs1, rs1 !! id = rs !! id -> known rs1 r) by (intros rs1 Heq; unfold known; by rewrite Heq).
      destruct (rs !! i) as [[rq st [response|]]|] eqn:Ei.
      * split; [done|]. exists r. split; [by apply Hsame|]. split; [done|]. split; [done|]. left. by split.
      * split; [done|]. exists r. split; [apply Hsame; by rewrite lookup_insert_ne|]. split; [done|]. split; [done|]. left. split; [done|].
        cbn. destruct (bool_decide (rq_RequestID rq = id)) eqn:Eb; [|constructor].
        apply bool_decide_eq_true in Eb. exfalso. apply Hne. rewrite <- Eb. symmetry. exact (Hkeyed _ _ Ei).
      * split; [done|]. exists r. split; [by apply Hsame|]. split; [done|]. split; [done|]. left. by split.
Qed.

(** After the handler was started: it is not started again, and all final
    answers are the same. *)
Lemma serve_known es rs r os rs' : Forall in_time es -> Forall (retries request) es -> fits_cache ids es rs -> keyed rs -> known rs r ->
  serve sorted es rs = (os, rs') -> executions id os = [] /\ exists a, forall x, x ∈ finals id os -> x = a /\ answers r es x.
Proof.
  revert rs r os. induction es as [|e es IH]; intros rs r os Ht Hre (Hd & Hid & Hs) Hkeyed Hk; cbn [serve].
  { intros [= <- <-]. split; [done|]. exists (running_response "" 0). by intros x ?%elem_of_nil. }
  apply Forall_cons in Ht as [Ht1 Ht]. apply Forall_cons in Hre as [Hre1 Hre]. assert (Hide : forall i, event_id e = Some i -> i ∈ ids) by (intros i; apply (Hid e i); by left).
  pose proof (step_known e rs r Ht1 Hre1 Hide Hd Hkeyed Hk) as Hstep. pose proof (serve_event_dom ids e rs Hide Hd) as Hd1. pose proof (serve_event_keyed e rs Hkeyed) as Hk1.
  destruct (serve_event sorted e rs) as [o rs1]. cbn [snd] in Hd1, Hk1. destruct Hstep as (Hx & r1 & Hr1 & Hrq & Hst & Hcase).
  destruct (serve sorted es rs1) as [os1 rs2] eqn:E. intros [= <- <-].
  destruct (IH rs1 r1 os1 Ht Hre) as (Hx1 & a & Ha); [split; [done|]; split; [|done]; intros e' i Hin; apply Hid; by right|done|done|done|].
  rewrite executions_app, Hx, Hx1. split; [done|]. rewrite finals_app. destruct Hcase as [[Hresp Hf]|(Hnone & handled & completed & clock & -> & Hresp & Hf)].
  - destruct (rd_response r) as [response|] eqn:Er.
    + exists response. rewrite Forall_forall in Hf. intros x [Hin|Hin]%elem_of_app.
      { pose proof (Hf x Hin) as [= ->]. split; [done|]. unfold answers. by rewrite Er. }
      destruct (Ha x Hin) as [_ Hax]. unfold answers in *. rewrite Hresp in Hax. rewrite Er. done.
    + exists a. intros x [Hin|Hin]%elem_of_app; [rewrite Forall_forall in Hf; by specialize (Hf x Hin)|]. destruct (Ha x Hin) as [-> Hax]. split; [done|].
      unfold answers in *. rewrite Hresp in Hax. rewrite Er. destruct Hax as (h & c & k & Hin' & ->). exists h, c, k. rewrite Hrq, Hst. split; [by right|done].
  - eexists. intros x Hin. rewrite Hf in Hin. cbn in Hin.
    assert (Hxa : x = executeReload (rd_request r) (rd_started r) handled completed clock).
    { apply elem_of_cons in Hin as [->|Hin]; [done|]. destruct (Ha x Hin) as [_ Hax]. unfold answers in Hax. by rewrite Hresp in Hax. }
    split; [exact Hxa|]. unfold answers. rewrite Hnone. exists handled, completed, clock. split; [by left|done].
Qed.

(** Before it, nothing is known of the request. *)
Lemma step_unknown e rs : in_time e -> (forall i, event_id e = Some i -> i ∈ ids) -> dom rs ⊆ ids -> keyed rs -> rs !! id = None ->
  (exists now clock other, e = Arrive now clock other /\ rq_RequestID other = id /\ serve_event sorted e rs = ([Executed other], (serve_event sorted e rs).2) /\
     (serve_event sorted e rs).2 !! id = Some (MkRecord other now None)) \/
  (event_id e <> Some id /\ executions id (serve_event sorted e rs).1 = [] /\ finals id (serve_event sorted e rs).1 = [] /\ (serve_event sorted e rs).2 !! id = None).
Proof.
  intros Ht Hid Hd Hkeyed Hn. destruct e as [now clock other|i handled completed clock]; cbn [serve_event event_id].
  - assert (Hnone : forall i, pruneExpiredRequestsLocked now rs !! i = Some (MkRecord other now None) -> True) by done.
    assert (Hn1 : forall rs1, rs1 ⊆ rs -> rs1 !! id = None) by (intros rs1 Hsub; by eapply lookup_weaken_None).
    pose proof (Hid _ eq_refl) as Hin. unfold processReload. destruct (decide (rq_RequestID other = id)) as [Heq|Hne].
    + left. exists now, clock, other. split; [done|]. split; [done|]. rewrite Heq, (Hn1 _ (prune_subset now rs)). rewrite Heq in Hin.
      destruct (prune_keeps_room now (pruneExpiredRequestsLocked now rs) ids id) as [-> Hroom];
        [etransitivity; [apply dom_filter_subseteq|done]|done|apply Hn1, prune_subset|done|].
      rewrite (proj2 (Z.leb_gt _ _)) by lia. cbn [snd]. split; [done|]. apply lookup_insert_eq.
    + right. split; [congruence|]. destruct (pruneExpiredRequestsLocked now rs !! rq_RequestID other) as [existing|].
      * assert (H : forall response, executions id [Answered other response] = [] /\ finals id [Answered other response] = []).
        { intros response. cbn. by rewrite bool_decide_eq_false_2. }
        destruct (negb _); [|destruct (rd_response existing)]; cbn [fst snd]; (split; [apply H|]; split; [apply H|]; apply Hn1, prune_subset).
      * destruct (_ <=? _); cbn; rewrite !bool_decide_eq_false_2 by done; (split; [done|]; split; [done|]).
        { apply Hn1. etransitivity; [apply prune_requests_subset|apply prune_subset]. }
        rewrite lookup_insert_ne by done. apply Hn1. etransitivity; [apply prune_requests_subset|apply prune_subset].
  - right. split; [done|]. destruct (rs !! i) as [[rq st [response|]]|] eqn:E; [done| |done].
    assert (Hne : i <> id) by congruence. pose proof (Hkeyed _ _ E) as Hi. cbn in Hi. cbn. rewrite Hi, bool_decide_eq_false_2 by done.
    split; [done|]. split; [done|]. by rewrite lookup_insert_ne.
Qed.

Lemma serve_unknown es rs os rs' : Forall in_time es -> Forall (retries request) es -> fits_cache ids es rs -> keyed rs -> rs !! id = None ->
  serve sorted es rs = (os, rs') ->
  (executions id os = [] /\ finals id os = [] /\ (forall e, e ∈ es -> event_id e <> Some id)) \/
  (exists now other a, executions id os = [other] /\ sameIdentity request other = true /\ (exists clock, Arrive now clock other ∈ es) /\
     forall x, x ∈ finals id os -> x = a /\ exists handled completed clock, Complete id handled completed clock ∈ es /\ x = executeReload other now handled completed clock).
Proof.
  revert rs os. induction es as [|e es IH]; intros rs os Ht Hre (Hd & Hid & Hs) Hkeyed Hn; cbn [serve].
  { intros [= <- <-]. left. split; [done|]. split; [done|]. by intros e ?%elem_of_nil. }
  apply Forall_cons in Ht as [Ht1 Ht]. apply Forall_cons in Hre as [Hre1 Hre]. assert (Hide : forall i, event_id e = Some i -> i ∈ ids) by (intros i; apply (Hid e i); by left).
  pose proof (step_unknown e rs Ht1 Hide Hd Hkeyed Hn) as Hstep. pose proof (serve_event_dom ids e rs Hide Hd) as Hd1. pose proof (serve_event_keyed e rs Hkeyed) as Hk1.
  destruct (serve_event sorted e rs) as [o rs1]. cbn [fst snd] in Hd1, Hk1, Hstep.
  assert (Hfits : fits_cache ids es rs1) by (split; [done|]; split; [|done]; intros e' i Hin; apply Hid; by right).
  destruct (serve sorted es rs1) as [os1 rs2] eqn:E. intros [= <- <-]. rewrite executions_app, finals_app.
  destruct Hstep as [(now & clock & other & -> & Ho & Hout & Hl)|(He & Hx & Hf & Hl)].
  - injection Hout as ->. right. assert (Hsame : sameIdentity request other = true) by (by apply Hre1).
    destruct (serve_known es rs1 (MkRecord other now None) os1 rs2 Ht Hre Hfits Hk1) as (Hx1 & a & Ha); [|done|].
    { split; [done|]. split; [done|]. split; [|done]. revert Hsame. unfold sameIdentity. cbn. rewrite !andb_true_iff, !bool_decide_eq_true. intuition congruence. }
    exists now, other, a. rewrite Hx1. cbn. rewrite bool_decide_eq_true_2 by done. split; [done|]. split; [done|]. split; [exists clock; by left|].
    intros x Hin. destruct (Ha x Hin) as [-> (h & c & k & Hin' & Hxe)]. split; [done|]. exists h, c, k. split; [by right|done].
  - rewrite Hx, Hf. cbn [app]. destruct (IH rs1 os1 Ht Hre Hfits Hk1 Hl E) as [(H1 & H2 & H3)|(now & other & a & H1 & H2 & (clock & H3) & H4)].
    + left. split; [done|]. split; [done|]. intros e' [->|Hin]%elem_of_cons; [done|by apply H3].
    + right. exists now, other, a. split; [done|]. split; [done|]. split; [exists clock; by right|]. intros x Hin. destruct (H4 x Hin) as (-> & h & c & k & Hin' & Hxe).
      split; [done|]. exists h, c, k. split; [by right|done].
Qed.
End retried.
End cache.

(** ** Answers reach the client *)

Section answers.
Context `{J : ControlJSON} (sorted : list (string * Z) -> list (string * Z)).

(** JSON carries a value: on one line that fits into a frame. *)
Definition carried {A} (encode : A -> option string) (decode : string -> result app_error A) (a : A) : Prop :=
  exists payload, encode a = Some payload /\ line_of payload = None /\ slen payload < maxMessageSize /\ decode payload = Ok a.

Definition acceptable (request : ReloadRequest) (a : ReloadResponse) : Prop :=
  request_validate request = Ok tt /\ response_validate a = Ok tt /\ rs_RequestID a = rq_RequestID request.

(** The clock is read in order. *)
Fixpoint timely (last : Z) (es : list event) : Prop :=
  match es with
  | [] => True
  | Arrive a b _ :: es' | Complete _ _ a b :: es' => last <= a <= b /\ timely b es'
  end.

(** Requests that [readRequest] lets through, and errors of handlers as the
    constructors make them. *)
Definition sane (e : event) : Prop :=
  match e with
  | Arrive _ _ request => request_validate request = Ok tt
  | Complete _ handled _ _ => forall err, handled = Err err -> made err
  end.

Definition sound (last : Z) (rs : requests) : Prop :=
  map_Forall (fun _ r => request_validate (rd_request r) = Ok tt /\ 0 < rd_started r <= last /\
                         (forall a, rd_response r = Some a -> acceptable (rd_request r) a)) rs.

(** What the client makes of an acceptable answer. *)
Definition client_outcome (request : ReloadRequest) (a : ReloadResponse) : result client_error ReloadResponse :=
  match rs_Error a with
  | Some info => Err (Rejected (FromInfo info))
  | None =>
      if bool_decide (rs_Result a = ResultSucceeded) && negb (bool_decide (rs_ConfigDigest a = rq_ExpectedConfigDigest request))
      then Err (Rejected (WithDetails
             {[ "expected_config_digest" := DString (rq_ExpectedConfigDigest request); "actual_config_digest" := DString (rs_ConfigDigest a);
                "reload_request_id" := DString (rq_RequestID request) ]}
             (Wrap CodeReloadDigestMismatch "service.reload" "supervisor activated an unexpected configuration digest" (Plain "got another digest"))))
      else Ok a
  end.

Lemma line_of_app payload : line_of payload = None -> line_of (payload +:+ String (byte 10) "") = Some payload.
Proof.
  induction payload as [|c s IH]; cbn [line_of]; [done|]. rewrite sapp_cons. cbn [line_of]. destruct (Ascii.eqb c (byte 10)); [done|].
  destruct (line_of s); [done|]. intros _. by rewrite IH.
Qed.

(** A frame is read as it was written. *)
Lemma frame_arrives {A} encode decode (a : A) : carried encode decode a ->
  exists bytes payload, writeFrame (encode a) false = Ok bytes /\ readFrame (MkStream bytes false) = Ok payload /\ decode payload = Ok a.
Proof.
  intros (payload & He & Hl & Hs & Hd). exists (payload +:+ String (byte 10) ""), payload. unfold writeFrame, readFrame. rewrite He. cbn [st_contents guard_err].
  rewrite (proj2 (Z.ltb_ge _ _)) by lia. split; [done|]. split; [|done].
  rewrite stake_all by (rewrite sapp_length; cbn; unfold slen in Hs; lia). rewrite line_of_app by done. by rewrite (proj2 (Z.ltb_ge _ _)) by lia.
Qed.

Lemma InfoOf_valid e : made e -> ValidateInfo (InfoOf (Some e)) = Ok tt.
Proof.
  intros Hm. destruct (infoOf_built maxCauseDepth e maxCauseCount Hm) as (Hf & Hs & Hp); [done|].
  apply (ValidateInfo_fits maxCauseDepth); [done|done|unfold InfoOf, maxCauseCount in *; lia].
Qed.

Lemma made_WithDetails d e : made e -> made (WithDetails d e).
Proof. intros H. destruct H; cbn; by constructor. Qed.

Lemma valid_request_id request : request_validate request = Ok tt -> check_failures (validateID "reload response request ID" (rq_RequestID request)) = [].
Proof.
  unfold request_validate. rewrite joined_Ok. intros [_ [_ [Hid _]%app_eq_nil]%app_eq_nil]%app_eq_nil. revert Hid. unfold validateID.
  destruct (negb (slen _ =? _)); [done|]. cbn [guard_err]. destruct (negb (bool_decide _)); [done|]. cbn [guard_err]. by destruct (negb (hex_decodes _)).
Qed.

Lemma running_acceptable request started : request_validate request = Ok tt -> 0 < started -> acceptable request (running_response (rq_RequestID request) started).
Proof.
  intros Hr Hs. assert (Hv := valid_request_id _ Hr). split; [done|]. split; [|done]. unfold response_validate. rewrite joined_Ok. cbn [running_response rs_Version rs_Kind rs_RequestID rs_StartedAt rs_Error rs_CompletedAt].
  rewrite Hv, (proj2 (Z.eqb_neq started 0)) by lia. done.
Qed.

Lemma succeeded_acceptable request started digest completed : request_validate request = Ok tt -> validateDigest digest = Ok tt -> 0 < started <= completed ->
  acceptable request (MkReloadResponse Version KindReloadResult (rq_RequestID request) ResultSucceeded digest started completed None).
Proof.
  intros Hr Hd Ht. assert (Hv := valid_request_id _ Hr). split; [done|]. split; [|done]. unfold response_validate. rewrite joined_Ok. cbn [rs_Version rs_Kind rs_RequestID rs_StartedAt rs_Error rs_CompletedAt].
  rewrite Hv. unfold result_failures. cbn [rs_Result rs_CompletedAt rs_ConfigDigest rs_Error]. rewrite Hd, (proj2 (Z.eqb_neq started 0)), (proj2 (Z.eqb_neq completed 0)), (proj2 (Z.ltb_ge completed started)) by lia. done.
Qed.

Lemma digest_error digest e : validateDigest digest = Err e -> made e.
Proof.
  unfold validateDigest. destruct (_ || _); cbn; [intros [= <-]; by constructor|]. destruct (negb (bool_decide _)); cbn; [intros [= <-]; by constructor|].
  destruct (negb (hex_decodes _)); cbn; [intros [= <-]; repeat constructor; done|done].
Qed.

Hypothesis fallback_fits : error_size_failures (InfoOf (Some oversized)) = [].

(** The error of a failed response passes the checks. *)
Lemma failed_error id started err clock : made err -> exists info, rs_Error (failedResponse id started err clock) = Some info /\ error_failures (Some info) = [].
Proof.
  intros Hm. unfold failedResponse. cbn [rs_Error]. eexists. split; [reflexivity|]. unfold error_failures. case_bool_decide as H.
  - rewrite InfoOf_valid by done. exact H.
  - rewrite InfoOf_valid by apply made_New. exact fallback_fits.
Qed.

Lemma failed_acceptable request started err completed clock : request_validate request = Ok tt -> made err -> 0 < started <= completed ->
  acceptable request (MkReloadResponse Version KindReloadResult (rq_RequestID request) ResultFailed "" started completed
                        (rs_Error (failedResponse (rq_RequestID request) started err clock))).
Proof.
  intros Hr Hm Ht. assert (Hv := valid_request_id _ Hr). split; [done|]. split; [|done]. destruct (failed_error (rq_RequestID request) started err clock Hm) as (info & Hi & He). rewrite Hi.
  unfold response_validate. rewrite joined_Ok. cbn [rs_Version rs_Kind rs_RequestID rs_StartedAt rs_Error rs_CompletedAt]. rewrite He.
  rewrite (Hv). cbn [app]. rewrite (proj2 (Z.eqb_neq started 0)), (proj2 (Z.eqb_neq completed 0)) by lia. unfold result_failures. cbn.
  rewrite (proj2 (Z.eqb_neq completed 0)), (proj2 (Z.ltb_ge completed started)) by lia. done.
Qed.

Lemma executed_acceptable request started handled completed clock : request_validate request = Ok tt -> (forall err, handled = Err err -> made err) ->
  0 < started <= completed -> acceptable request (executeReload request started handled completed clock).
Proof.
  intros Hv Hm Ht. unfold executeReload. destruct handled as [digest|err]; cbn [mbind result_bind].
  - destruct (validateDigest digest) as [[]|e] eqn:Hd; cbn [mbind result_bind map_err]; [by apply succeeded_acceptable|].
    refine (failed_acceptable request started _ completed clock Hv _ Ht). constructor; [done|]. by eapply digest_error.
  - refine (failed_acceptable request started _ completed clock Hv _ Ht). by apply Hm.
Qed.

Lemma sound_subset last (rs rs' : requests) : rs' ⊆ rs -> sound last rs -> sound last rs'.
Proof. intros Hs Hk id r Hl. apply (Hk id). by eapply lookup_weaken. Qed.

Lemma sound_later last last' rs : last <= last' -> sound last rs -> sound last' rs.
Proof. intros Hl Hs id r (H1 & H2 & H3)%Hs. split; [done|]. split; [lia|done]. Qed.

(** The same under an identity only differs in the identifier. *)
Lemma process_acceptable now clock request rs : request_validate request = Ok tt -> 0 < now <= clock -> keyed rs -> sound now rs ->
  let '(a, rs') := processReload sorted now clock request rs in sound clock rs' /\ (forall x, a = Some x -> acceptable request x).
Proof.
  intros Hv Ht Hk Hs. assert (Hs1 := sound_subset _ _ _ (prune_subset now rs) Hs). assert (Hk1 := keyed_subset _ _ (prune_subset now rs) Hk).
  unfold processReload. destruct (pruneExpiredRequestsLocked now rs !! rq_RequestID request) as [existing|] eqn:E.
  - destruct (Hs1 _ _ E) as (H1 & H2 & H3). pose proof (Hk1 _ _ E) as Hid. cbn in Hid.
    destruct (negb (sameIdentity _ _)); [|destruct (rd_response existing) as [response|]]; (split; [eapply sound_later; [|done]; lia|]); intros x [= <-].
    + refine (failed_acceptable request now _ clock clock Hv _ _); [apply made_WithDetails, made_New|lia].
    + destruct (H3 _ eq_refl) as (? & ? & ?). split; [done|]. split; [done|congruence].
    + apply running_acceptable; [done|lia].
  - assert (Hs2 := sound_subset _ _ _ (prune_requests_subset sorted now _) Hs1). destruct (_ <=? _).
    + split; [eapply sound_later; [|done]; lia|]. intros x [= <-]. refine (failed_acceptable request now _ clock clock Hv _ _); [apply made_Wrap; by constructor|lia].
    + split; [|done]. apply map_Forall_insert_2; [|eapply sound_later; [|done]; lia]. split; [done|]. split; [cbn; lia|done].
Qed.

Lemma serve_acceptable es last rs : 0 < last -> timely last es -> Forall sane es -> keyed rs -> sound last rs ->
  forall request a, Answered request a ∈ (serve sorted es rs).1 -> acceptable request a.
Proof.
  revert last rs. induction es as [|e es IH]; intros last rs Hl Ht Hsane Hk Hs request a; cbn [serve]; [by intros ?%elem_of_nil|].
  apply Forall_cons in Hsane as [He Hsane]. pose proof (serve_event_keyed sorted e rs Hk) as Hk1.
  enough (exists next, last <= next /\ timely next es /\ sound next (serve_event sorted e rs).2 /\ forall request a, Answered request a ∈ (serve_event sorted e rs).1 -> acceptable request a) as (next & Hn & Ht1 & Hs1 & Ha).
  { destruct (serve_event sorted e rs) as [o rs1]. cbn [fst snd] in *. specialize (IH next rs1 ltac:(lia) Ht1 Hsane Hk1 Hs1 request a).
    destruct (serve sorted es rs1) as [os rs2]. cbn [fst] in *. intros [Hin|Hin]%elem_of_app; [by apply Ha|by apply IH]. }
  clear Hk1. destruct e as [now clock other|id handled completed clock]; cbn [timely serve_event] in *; destruct Ht as [Hnow Ht]; exists clock; (split; [lia|]); (split; [done|]).
  - pose proof (process_acceptable now clock other rs He ltac:(lia) Hk ltac:(eapply sound_later; [|done]; lia)) as Hp.
    destruct (processReload sorted now clock other rs) as [[x|] rs1]; destruct Hp as [Hp1 Hp2]; cbn [fst snd]; (split; [done|]); intros r y Hin%list_elem_of_singleton; [|done].
    injection Hin as -> ->. by apply Hp2.
  - destruct (rs !! id) as [[r0 st [x|]]|] eqn:E; cbn [fst snd].
    + split; [by eapply sound_later; [|done]; lia|]. by intros r y ?%elem_of_nil.
    + destruct (Hs _ _ E) as (H1 & H2 & _). cbn in H1, H2. assert (Hacc : acceptable r0 (executeReload r0 st handled completed clock)) by (apply executed_acceptable; [done|done|lia]).
      split; [|intros r y Hin%list_elem_of_singleton; by injection Hin as -> ->].
      apply map_Forall_insert_2; [|eapply sound_later; [|done]; lia]. split; [done|]. split; [cbn; lia|]. by intros x [= <-].
    + split; [by eapply sound_later; [|done]; lia|]. by intros r y ?%elem_of_nil.
Qed.

(** A response that passes the checks has an error exactly when it failed. *)
Lemma response_error a : response_validate a = Ok tt ->
  rs_Version a = Version /\ (if bool_decide (rs_Result a = ResultFailed) then rs_Error a else None) = rs_Error a.
Proof.
  unfold response_validate. rewrite joined_Ok. intros [Hver [_ [_ [_ [_ [Hres _]%app_eq_nil]%app_eq_nil]%app_eq_nil]%app_eq_nil]%app_eq_nil]%app_eq_nil.
  apply failing_nil, negb_false_iff, Z.eqb_eq in Hver. split; [done|]. case_bool_decide as Hf; [done|]. revert Hres. unfold result_failures.
  case_bool_decide; [|case_bool_decide; [|by rewrite bool_decide_eq_false_2 by done]].
  - rewrite failing_nil, !orb_false_iff, negb_false_iff. intros [_ H1]. by destruct (rs_Error a).
  - intros [_ [_ H1]%app_eq_nil]%app_eq_nil. rewrite failing_nil, negb_false_iff in H1. by destruct (rs_Error a).
Qed.

Lemma acceptable_arrives path request a : acceptable request a -> carried encode_request decode_request request ->
  carried encode_response decode_response a -> validateSocketPath path = Ok tt ->
  exists reply, writeResponse a false = Ok reply /\ Reload path request (MkTransport SocketSafe false false (MkStream reply false) None) = client_outcome request a.
Proof.
  intros (Hr & Hv & Hid) Hcr Hca Hp. destruct (frame_arrives _ _ _ Hca) as (reply & payload & Hw & Hread & Hd). exists reply.
  split; [unfold writeResponse; by rewrite Hv|]. destruct (frame_arrives _ _ _ Hcr) as (bytes & p' & Hw' & _). destruct (response_error a Hv) as [Hver Herr].
  unfold Reload. cbn [tr_socket tr_dial_fails tr_write_fails tr_reply]. rewrite Hr, Hp, Hw', Hread. cbn [map_err mbind result_bind guard_err].
  unfold check_response. rewrite Hd. cbn [map_err mbind result_bind]. rewrite Hver, Z.eqb_refl, Hv. cbn [negb guard_err map_err mbind result_bind].
  rewrite bool_decide_eq_true_2 by done. cbn [negb guard_err]. rewrite Herr. unfold client_outcome. destruct (rs_Error a); [done|]. by destruct (_ && _).
Qed.
End answers.

(** C7: A reload that is retried under its identifier is executed once: its
    handler is started exactly once, for a request with the same digest,
    operation and rollback, and all final answers to it are the one that the
    handler's result gives, as long as the requests fit into the cache and
    their answers are not older than its lifetime. *)
Theorem reloads_run_once `{J : ControlJSON} (sorted : list (string * Z) -> list (string * Z)) request start ids es rs :
  keyed rs -> rs !! rq_RequestID request = None -> fits_cache ids es rs -> Forall (in_time start) es -> Forall (retries request) es ->
  (exists e, e ∈ es /\ event_id e = Some (rq_RequestID request)) ->
  let os := (serve sorted es rs).1 in
  exists started executed answer,
    executions (rq_RequestID request) os = [executed] /\ sameIdentity request executed = true /\
    forall final, final ∈ finals (rq_RequestID request) os -> final = answer /\
      exists handled completed clock, Complete (rq_RequestID request) handled completed clock ∈ es /\ final = executeReload executed started handled completed clock.
Proof.
  intros Hk Hn Hf Ht Hr (e & Hin & He). cbn zeta. destruct (serve sorted es rs) as [os rs'] eqn:E.
  destruct (serve_unknown sorted request start ids (proj2 (proj2 Hf)) es rs os rs' Ht Hr Hf Hk Hn E) as [(_ & _ & H)|(started & executed & answer & H1 & H2 & _ & H3)];
    [by destruct (H e Hin)|]. by exists started, executed, answer.
Qed.

(** C18: Client and server understand each other: every answer of a server
    that handles requests in the order of its clock reaches the client that
    asked, who takes it for what it is: a running or successful reload is
    returned, a failure comes back as the error that the handler had, and a
    success with another digest is refused.  No answer is too old,
    malformed or for another request; the request itself arrives unchanged. *)
Theorem answers_reach_client `{J : ControlJSON} (sorted : list (string * Z) -> list (string * Z)) es last ownerUID path request a :
  error_size_failures (InfoOf (Some oversized)) = [] ->
  0 < last -> timely last es -> Forall sane es -> Answered request a ∈ (serve sorted es ∅).1 ->
  carried encode_request decode_request request -> carried encode_response decode_response a -> validateSocketPath path = Ok tt ->
  (exists bytes, writeFrame (encode_request request) false = Ok bytes /\
     forall now clock, handle ownerUID (Some ownerUID) (MkStream bytes false) now clock = Submitted request) /\
  exists reply, writeResponse a false = Ok reply /\
    Reload path request (MkTransport SocketSafe false false (MkStream reply false) None) = client_outcome request a.
Proof.
  intros Hfit Hl Ht Hs Hin Hcr Hca Hp.
  assert (Hacc := serve_acceptable sorted Hfit es last ∅ Hl Ht Hs (map_Forall_empty _) (map_Forall_empty _) request a Hin).
  split; [|by apply acceptable_arrives]. destruct (frame_arrives _ _ _ Hcr) as (bytes & payload & Hw & Hread & Hd). exists bytes. split; [done|].
  intros now clock. unfold handle, requirePeerUID, readRequest. rewrite Z.eqb_refl. cbn [negb guard_err]. rewrite Hread. cbn [mbind result_bind].
  rewrite Hd. cbn [map_err mbind result_bind]. by rewrite (proj1 Hacc).
Qed.

(** An encoding of structured errors for the witness. *)
#[local] Instance plain_json : ControlJSON := {|
  encode_request := fun _ => None; decode_request := fun _ => Err (Plain "json");
  encode_response := fun _ => None; decode_response := fun _ => Err (Plain "json");
  encode_info := fun '(MkInfo _ _ message _ _ _) => Some message
|}.

Definition demo_digest : string := "sha256:0123456789abcdef0123456789abcdef0123456789abcdef0123456789abcdef".

Definition demo_request (id digest : string) : ReloadRequest :=
  MkReloadRequest Version KindReload id "0123456789abcdef0123456789abcdef" "" digest.

Definition demo_id : string := "00112233445566778899aabbccddeeff".
Definition demo_other : string := "ffeeddccbbaa99887766554433221100".

(** A request, another one, a retry while it runs, its end, and two more retries. *)
Definition demo_events : list event :=
  let request := demo_request demo_id demo_digest in
  [Arrive 1000 1001 request; Arrive 1002 1003 (demo_request demo_other demo_digest); Arrive 1004 1005 request;
   Complete demo_id (Ok demo_digest) 1006 1007; Arrive 1008 1009 request; Complete demo_other (Err (Plain "no")) 1010 1011; Arrive 1012 1013 request].

Lemma reloads_run_once_witness : exists started executed answer,
  executions demo_id (serve (fun l => l) demo_events ∅).1 = [executed] /\ length (finals demo_id (serve (fun l => l) demo_events ∅).1) = 3%nat /\ forall final, final ∈ finals demo_id (serve (fun l => l) demo_events ∅).1 -> final = answer /\ exists handled completed clock, Complete demo_id handled completed clock ∈ demo_events /\ final = executeReload executed started handled completed clock.
Proof.
  destruct (reloads_run_once (fun l => l) (demo_request demo_id demo_digest) 1000 {[ demo_id; demo_other ]} demo_events ∅) as (st & ex & a & H1 & _ & H2).
  - apply map_Forall_empty.
  - reflexivity.
  - split; [set_solver|]. split.
    + intros e id Hin. unfold demo_events in Hin. rewrite !elem_of_cons, elem_of_nil in Hin.
      destruct Hin as [->|[->|[->|[->|[->|[->|[->|[]]]]]]]]; cbn; intros [= <-]; set_solver.
    + by vm_compute.
  - unfold demo_events, in_time. repeat constructor; by vm_compute.
  - unfold demo_events. repeat constructor; cbn; intros; by vm_compute.
  - eexists. split; [by left|reflexivity].
  - exists st, ex, a. split; [exact H1|]. split; [reflexivity|exact H2].
Defined.

(** What the handler of the second request fails with, as an answer. *)
Definition demo_failure : ReloadResponse :=
  let J := plain_json in executeReload (demo_request demo_other demo_digest) 1002 (Err (New CodeConfigInvalid "reload" "no")) 1010 1011.

(** JSON for that request and that answer. *)
Definition demo_json : ControlJSON := {|
  encode_request := fun r => if bool_decide (r = demo_request demo_other demo_digest) then Some "request" else None;
  decode_request := fun s => if bool_decide (s = "request") then Ok (demo_request demo_other demo_digest) else Err (Plain "json");
  encode_response := fun a => if bool_decide (rs_Result a = ResultFailed) then Some "failure" else None;
  decode_response := fun s => if bool_decide (s = "failure") then Ok demo_failure else Err (Plain "json");
  encode_info := fun '(MkInfo _ _ message _ _ _) => Some message
|}.

Definition failing_events : list event :=
  [Arrive 1000 1001 (demo_request demo_id demo_digest); Arrive 1002 1003 (demo_request demo_other demo_digest);
   Complete demo_other (Err (New CodeConfigInvalid "reload" "no")) 1010 1011].

Lemma answers_reach_client_witness : let J := demo_json in
  rs_Result demo_failure = ResultFailed /\
  exists reply, writeResponse demo_failure false = Ok reply /\
    Reload "/var/run/tun-proxy.sock" (demo_request demo_other demo_digest) (MkTransport SocketSafe false false (MkStream reply false) None)
    = client_outcome (demo_request demo_other demo_digest) demo_failure.
Proof.
  intros J. split; [reflexivity|].
  refine (proj2 (answers_reach_client (J := demo_json) (fun l => l) failing_events 1000 0 "/var/run/tun-proxy.sock" (demo_request demo_other demo_digest) demo_failure _ _ _ _ _ _ _ _)).
  - by vm_compute.
  - lia.
  - cbn. lia.
  - unfold failing_events. repeat constructor; try by vm_compute. intros err [= <-]. apply made_New.
  - apply list_elem_of_In. vm_compute. do 2 right. left. reflexivity.
  - exists "request". by vm_compute.
  - exists "failure". by vm_compute.
  - by vm_compute.
Defined.
