(* ===== verification/Locks.v ===== *)
(** * Component [internal/daemon] and [internal/launchservice]: locks of the file system

    [lock_darwin.go], the lock of the running instance, and
    [operation_lock_darwin.go], which serializes the commands of the service.
    Both are sequences of system calls of several processes on one lock file;
    here they are programs over those calls, which a scheduler interleaves
    call by call.  A failing call has no effect, except that [close] closes;
    device numbers, symbolic links on the way and the umask are not modelled. *)

From stdpp Require Import pretty.
From S2P Require Import Prelude.
From S2P Require Import GoStrings.
From S2P Require Import GoTime.
From S2P Require Import GoFiles.
From S2P Require Import Apperror.
From S2P Require Import Privsep.
From S2P Require Import LaunchLayout.
From S2P Require Import LaunchStorage.
From S2P Require Import Control.

(** ** The system *)

Inductive errno : Type := NoEntry | Loop | WouldBlock | IOError.

#[export] Instance errno_eq_dec : EqDecision errno.
Proof. solve_decision. Defined.

Record stat : Type := MkStat { sa_ino : Z; sa_kind : file_kind; sa_perm : Z; sa_uid : Z; sa_gid : Z; sa_nlink : Z }.

(** [io_holder] is the open file that has the lock. *)
Record inode : Type := MkInode {
  io_kind : file_kind;
  io_perm : Z;
  io_uid : Z;
  io_gid : Z;
  io_nlink : Z;
  io_contents : string;
  io_holder : option Z
}.

(** Every file is read or written once, from its start. *)
Record open_file : Type := MkOpen { of_ino : Z; of_owner : Z }.

Record kernel : Type := MkKernel {
  kn_paths : gmap string Z;
  kn_inodes : gmap Z inode;
  kn_files : gmap Z open_file;
  kn_next : Z
}.

(** The calls with the types of their results. *)
Inductive syscall : Type -> Type :=
| Open (path : string) (create : bool) : syscall Z
| Fstat (fd : Z) : syscall stat
| Lstat (path : string) : syscall stat
| Stat (path : string) : syscall stat
| Fchmod (fd perm : Z) : syscall unit
| Flock (fd : Z) : syscall unit
| Unlock (fd : Z) : syscall unit
| Truncate (fd : Z) : syscall unit
| Seek (fd : Z) : syscall unit
| Write (fd : Z) (contents : string) : syscall unit
| Fsync (fd : Z) : syscall unit
| Read (fd limit : Z) : syscall string
| Remove (path : string) : syscall unit
| Close (fd : Z) : syscall unit
| Now : syscall Z
| Random : syscall string.

Definition stat_of (ino : Z) (i : inode) : stat := MkStat ino (io_kind i) (io_perm i) (io_uid i) (io_gid i) (io_nlink i).

Definition with_holder (h : option Z) (i : inode) : inode := MkInode (io_kind i) (io_perm i) (io_uid i) (io_gid i) (io_nlink i) (io_contents i) h.
Definition with_contents (c : string) (i : inode) : inode := MkInode (io_kind i) (io_perm i) (io_uid i) (io_gid i) (io_nlink i) c (io_holder i).
Definition with_mode (p : Z) (i : inode) : inode := MkInode (io_kind i) p (io_uid i) (io_gid i) (io_nlink i) (io_contents i) (io_holder i).
Definition unlinked (i : inode) : inode := MkInode (io_kind i) (io_perm i) (io_uid i) (io_gid i) (io_nlink i - 1) (io_contents i) (io_holder i).

Definition change_inode (ino : Z) (f : inode -> inode) (k : kernel) : kernel :=
  MkKernel (kn_paths k) (alter f ino (kn_inodes k)) (kn_files k) (kn_next k).

Definition release (fd : Z) (i : inode) : inode := if bool_decide (io_holder i = Some fd) then with_holder None i else i.

Definition stat_path (path : string) (k : kernel) : result errno stat :=
  match kn_paths k !! path with
  | Some ino => match kn_inodes k !! ino with Some i => Ok (stat_of ino i) | None => Err IOError end
  | None => Err NoEntry
  end.

(** The open file and its inode. *)
Definition file_at (fd : Z) (k : kernel) : result errno (open_file * inode) :=
  match kn_files k !! fd with
  | Some f => match kn_inodes k !! of_ino f with Some i => Ok (f, i) | None => Err IOError end
  | None => Err IOError
  end.

Definition open_at (owner ino : Z) (k : kernel) : result errno Z * kernel :=
  (Ok (kn_next k), MkKernel (kn_paths k) (kn_inodes k) (<[kn_next k := MkOpen ino owner]> (kn_files k)) (kn_next k + 1)).

Definition open_path (owner euid : Z) (path : string) (create : bool) (k : kernel) : result errno Z * kernel :=
  match kn_paths k !! path with
  | Some ino =>
      match kn_inodes k !! ino with
      | Some i => if bool_decide (io_kind i = Symlink) then (Err Loop, k) else if bool_decide (io_kind i = Directory) then (Err IOError, k) else open_at owner ino k
      | None => (Err IOError, k)
      end
  | None =>
      if create
      then open_at owner (kn_next k)
             (MkKernel (<[path := kn_next k]> (kn_paths k)) (<[kn_next k := MkInode Regular (6 * 64) euid 0 1 "" None]> (kn_inodes k)) (kn_files k) (kn_next k + 1))
      else (Err NoEntry, k)
  end.

(** An update of the inode of an open file. *)
Definition update_file (fd : Z) (f : inode -> inode) (k : kernel) : result errno unit * kernel :=
  match file_at fd k with
  | Ok (o, _) => (Ok tt, change_inode (of_ino o) f k)
  | Err e => (Err e, k)
  end.

Definition close_file (fd : Z) (k : kernel) : kernel :=
  match kn_files k !! fd with
  | Some f => let k := change_inode (of_ino f) (release fd) k in MkKernel (kn_paths k) (kn_inodes k) (delete fd (kn_files k)) (kn_next k)
  | None => k
  end.

Definition written (s contents : string) : string := s +:+ sdrop (String.length s) contents.

(** A call of a process; the clock and the random source are given. *)
Definition perform (owner euid now : Z) (random : string) (fails : bool) {R} (c : syscall R) (k : kernel) : result errno R * kernel :=
  match c in syscall R return result errno R * kernel with
  | Close fd => (match kn_files k !! fd with Some _ => if fails then Err IOError else Ok tt | None => Err IOError end, close_file fd k)
  | Now => (Ok now, k)
  | c =>
      if fails then (Err IOError, k)
      else
        match c in syscall R return result errno R * kernel with
        | Open path create => open_path owner euid path create k
        | Fstat fd => (let! p := file_at fd k in Ok (stat_of (of_ino p.1) p.2), k)
        | Lstat path | Stat path => (stat_path path k, k)
        | Fchmod fd perm => update_file fd (with_mode perm) k
        | Flock fd =>
            match file_at fd k with
            | Ok (f, i) =>
                match io_holder i with
                | Some other => if other =? fd then (Ok tt, k) else (Err WouldBlock, k)
                | None => (Ok tt, change_inode (of_ino f) (with_holder (Some fd)) k)
                end
            | Err e => (Err e, k)
            end
        | Unlock fd => update_file fd (release fd) k
        | Truncate fd => update_file fd (with_contents "") k
        | Seek fd | Fsync fd => (let! _ := file_at fd k in Ok tt, k)
        | Write fd s => update_file fd (fun i => with_contents (written s (io_contents i)) i) k
        | Read fd limit => (let! p := file_at fd k in Ok (stake (Z.to_nat limit) (io_contents p.2)), k)
        | Remove path =>
            match kn_paths k !! path with
            | Some ino => (Ok tt, change_inode ino unlinked (MkKernel (delete path (kn_paths k)) (kn_inodes k) (kn_files k) (kn_next k)))
            | None => (Err NoEntry, k)
            end
        | Close _ => (Err IOError, k)
        | Now => (Err IOError, k)
        | Random => (Ok random, k)
        end
  end.

(** ** Programs *)

Inductive prog (A : Type) : Type :=
| Ret (a : A)
| Call {R : Type} (c : syscall R) (k : result errno R -> prog A).
Arguments Ret {A} _.
Arguments Call {A R} _ _.

Fixpoint pbind {A B} (p : prog A) (f : A -> prog B) : prog B :=
  match p with Ret a => f a | Call c k => Call c (fun r => pbind (k r) f) end.

(** A call whose error ends the program. *)
Definition attempt {R A} (c : syscall R) (failed : errno -> prog A) (k : R -> prog A) : prog A :=
  Call c (fun r => match r with Ok a => k a | Err e => failed e end).

Notation "'try!' x ':=' c 'else' h 'in' k" := (attempt c h (fun x => k))
  (at level 200, x name, c at level 100, h at level 100, k at level 200, right associativity).

Definition errno_error (e : errno) : app_error := Plain "system call failed".

(** One failure of a list, when the call failed. *)
Definition failure_of {R} (text : string) (r : result errno R) : list app_error :=
  match r with Ok _ => [] | Err e => [Wrapped text (errno_error e)] end.

(** ** The lock of the instance *)

Inductive lock_error : Type := ErrLockNotFound | ErrLockHeld | LockFailure (e : app_error).

Inductive LockState : Type := LockMissing | LockHeld | LockStale.

(** [Lock] and [StaleLock]: [None] once closed. *)
Record Lock : Type := MkLock { lk_path : string; lk_file : option Z }.

Definition lock_path_ok (path : string) : bool := is_abs path && bool_decide (clean path = path).

Definition refused (text : string) (e : errno) : lock_error := LockFailure (Wrapped text (errno_error e)).

(** The deferred [Close], and the unlocking before it. *)
Definition abandon {A} (fd : Z) (e : lock_error) : prog (result lock_error A) := Call (Close fd) (fun _ => Ret (Err e)).
Definition unlock_abandon {A} (fd : Z) (e : lock_error) : prog (result lock_error A) := Call (Unlock fd) (fun _ => abandon fd e).

Definition Acquire (pid : Z) (path : string) : prog (result lock_error Lock) :=
  if negb (lock_path_ok path) then Ret (Err (LockFailure (Plain "lock path must be a clean absolute path")))
  else
    try! fd := Open path true else (fun e => Ret (Err (refused "open lock file" e))) in
    try! info := Fstat fd else (fun e => abandon fd (refused "inspect lock file" e)) in
    if negb (bool_decide (sa_kind info = Regular)) then abandon fd (LockFailure (Plain "lock path is not a regular file"))
    else
      try! _ := Fchmod fd (6 * 64) else (fun e => abandon fd (refused "secure lock file permissions" e)) in
      try! _ := Flock fd else (fun e => abandon fd (if bool_decide (e = WouldBlock) then LockFailure (Plain "another tun-proxy instance holds the lock") else refused "lock" e)) in
      try! _ := Truncate fd else (fun e => unlock_abandon fd (refused "truncate lock file" e)) in
      try! _ := Seek fd else (fun e => unlock_abandon fd (refused "seek lock file" e)) in
      try! _ := Write fd (pretty pid +:+ String (byte 10) "") else (fun e => unlock_abandon fd (refused "write lock owner" e)) in
      try! _ := Fsync fd else (fun e => unlock_abandon fd (refused "sync lock file" e)) in
      Ret (Ok (MkLock path (Some fd))).

(** Unlocking and closing: the end of [Lock.Close], and [closeLocked]. *)
Definition close_lock (lock : Lock) (fd : Z) (unlock close : string) (failures : list app_error) : prog (list app_error * Lock) :=
  Call (Unlock fd) (fun u => Call (Close fd) (fun c => Ret (failures ++ failure_of unlock u ++ failure_of close c, MkLock (lk_path lock) None))).

(** [Lock.Close] *)
Definition Lock_Close (lock : Lock) : prog (list app_error * Lock) :=
  match lk_file lock with
  | None => Ret ([], lock)
  | Some fd =>
      Call (Lstat (lk_path lock)) (fun pathInfo => Call (Fstat fd) (fun fileInfo =>
        let finish := close_lock lock fd "unlock" "close lock" in
        match pathInfo, fileInfo with
        | Ok p, Ok f => if sa_ino p =? sa_ino f then Call (Remove (lk_path lock)) (fun r => finish (failure_of "remove lock file" r)) else finish []
        | Err e, f => if bool_decide (e = NoEntry) then finish (failure_of "inspect held lock" f) else finish [Wrapped "inspect lock path" (errno_error e)]
        | Ok _, Err e => finish [Wrapped "inspect held lock" (errno_error e)]
        end))
  end.

Definition TryClaimStale (euid : Z) (path : string) (expectedPID : Z) : prog (result lock_error Lock) :=
  if bool_decide (path = "") then Ret (Err ErrLockNotFound)
  else if negb (lock_path_ok path) then Ret (Err (LockFailure (Plain "lock path must be a clean absolute path")))
  else
    try! fd := Open path false else (fun e => Ret (Err (if bool_decide (e = NoEntry) then ErrLockNotFound else refused "open stale lock" e))) in
    try! info := Fstat fd else (fun e => abandon fd (refused "inspect stale lock" e)) in
    if negb (bool_decide (sa_kind info = Regular)) || negb (Z.land (sa_perm info) 63 =? 0) then abandon fd (LockFailure (Plain "refuse insecure stale lock"))
    else if negb (sa_uid info =? euid) then abandon fd (LockFailure (Plain "refuse stale lock of another owner"))
    else
      try! _ := Flock fd else (fun e => abandon fd (if bool_decide (e = WouldBlock) then ErrLockHeld else refused "claim stale lock" e)) in
      try! contents := Read fd 33 else (fun e => unlock_abandon fd (refused "read stale lock" e)) in
      if 32 <? slen contents then unlock_abandon fd (LockFailure (Plain "refuse oversized lock file"))
      else if negb (bool_decide (parse_int (trim_space contents) = Some expectedPID))
      then unlock_abandon fd (LockFailure (Plain "recorded PID does not match state PID"))
      else Ret (Ok (MkLock path (Some fd))).

(** [StaleLock.closeLocked], which [StaleLock.Close] calls. *)
Definition closeLocked (lock : Lock) (failures : list app_error) : prog (list app_error * Lock) :=
  match lk_file lock with
  | None => Ret (failures, lock)
  | Some fd => close_lock lock fd "unlock stale lock" "close stale lock" failures
  end.

(** [StaleLock.Remove] *)
Definition StaleLock_Remove (lock : Lock) : prog (list app_error * Lock) :=
  match lk_file lock with
  | None => Ret ([], lock)
  | Some fd =>
      Call (Lstat (lk_path lock)) (fun pathInfo => Call (Fstat fd) (fun fileInfo =>
        match pathInfo, fileInfo with
        | Err e, _ => closeLocked lock [Wrapped "inspect stale lock path" (errno_error e)]
        | Ok _, Err e => closeLocked lock [Wrapped "inspect stale lock file" (errno_error e)]
        | Ok p, Ok f =>
            if negb (sa_ino p =? sa_ino f) then closeLocked lock [Plain "refuse to remove replaced lock"]
            else Call (Remove (lk_path lock)) (fun r => closeLocked lock (failure_of "remove stale lock" r))
        end))
  end.

(** [errors.Join] of the failures. *)
Definition joined_failures (failures : list app_error) : option app_error := if bool_decide (failures = []) then None else Some (join_errors failures).

Definition ProbeLock (euid : Z) (path : string) (expectedPID : Z) : prog (result app_error LockState) :=
  pbind (TryClaimStale euid path expectedPID) (fun claim =>
    match claim with
    | Err ErrLockNotFound => Ret (Ok LockMissing)
    | Err ErrLockHeld => Ret (Ok LockHeld)
    | Err (LockFailure e) => Ret (Err e)
    | Ok lock => pbind (closeLocked lock []) (fun r => Ret (match joined_failures r.1 with None => Ok LockStale | Some e => Err e end))
    end).

Definition RemoveStale (euid : Z) (path : string) (expectedPID : Z) : prog (result app_error unit) :=
  pbind (TryClaimStale euid path expectedPID) (fun claim =>
    match claim with
    | Err ErrLockNotFound => Ret (Ok tt)
    | Err ErrLockHeld => Ret (Err (Wrapped "refuse to remove held lock" (Plain "daemon lock is held")))
    | Err (LockFailure e) => Ret (Err e)
    | Ok lock => pbind (StaleLock_Remove lock) (fun r => Ret (match joined_failures r.1 with None => Ok tt | Some e => Err e end))
    end).

(** ** The lock of service operations *)

Definition operationMetadataVersion : Z := 1.
Definition maxOperationMetadataSize : Z := 16 * 1024.

Inductive OperationKind : Type :=
| OperationInstall | OperationStart | OperationStop | OperationRestart | OperationReload | OperationUpgrade | OperationUninstall | OperationCleanup
| OtherOperation (kind : string).

Definition kind_text (kind : OperationKind) : string :=
  match kind with
  | OperationInstall => "install" | OperationStart => "start" | OperationStop => "stop" | OperationRestart => "restart"
  | OperationReload => "reload" | OperationUpgrade => "upgrade" | OperationUninstall => "uninstall" | OperationCleanup => "cleanup"
  | OtherOperation kind => kind
  end.

Record OperationSpec : Type := MkSpec { os_Kind : OperationKind; os_ExpectedConfigDigest : string }.

Record OperationMetadata : Type := MkMetadata {
  om_Version : Z;
  om_ID : string;
  om_Kind : OperationKind;
  om_PID : Z;
  om_StartedAt : Z;
  om_ExpectedConfigDigest : string
}.

(** [OperationGuard]; [None] once closed. *)
Record OperationGuard : Type := MkGuard { og_Metadata : OperationMetadata; og_file : option Z }.

Definition validOperationKind (kind : OperationKind) : bool := match kind with OtherOperation _ => false | _ => true end.

(** [encoding/json] on the metadata; a missing or malformed time is zero. *)
Class MetadataJSON : Type := {
  encode_metadata : OperationMetadata -> option string;
  decode_metadata : string -> option OperationMetadata
}.

Definition isSafeDefaultOperationLockParent (path : string) (ownerUID mode : Z) (st : stat) : bool :=
  bool_decide (path = defaultOperationLockPath) && bool_decide (dir path = "/var/run") && (ownerUID =? 0) && (sa_uid st =? 0) && (sa_gid st =? 1)
  && (mode =? 7 * 64 + 7 * 8 + 5).

Definition validateOperationLockParent (path : string) (ownerUID : Z) (info : stat) : result app_error unit :=
  fail_if negb (bool_decide (sa_kind info = Directory)) with Plain "service operation lock parent is not a directory" in
  fail_if negb (sa_uid info =? ownerUID) with Plain "refuse service operation lock directory of another owner" in
  fail_if negb (Z.land (sa_perm info) (2 * 8 + 2) =? 0) && negb (isSafeDefaultOperationLockParent path ownerUID (sa_perm info) info)
    with Plain "refuse writable service operation lock directory" in
  Ok tt.

(** What [validateOperationLockFile] says of the open file. *)
Definition check_lock_file (ownerUID : Z) (info : stat) : result app_error unit :=
  fail_if negb (bool_decide (sa_kind info = Regular)) with Plain "service operation lock is not a regular file" in
  fail_if negb (sa_perm info =? 6 * 64) with Plain "refuse service operation lock with another mode" in
  fail_if negb (sa_uid info =? ownerUID) with Plain "refuse service operation lock of another owner" in
  fail_if negb (sa_nlink info =? 1) with Plain "refuse service operation lock with other links" in
  Ok tt.

Definition validateOperationLockFile (path : string) (fd ownerUID : Z) : prog (result app_error unit) :=
  try! info := Fstat fd else (fun e => Ret (Err (Wrapped "inspect service operation lock" (errno_error e)))) in
  match check_lock_file ownerUID info with
  | Err e => Ret (Err e)
  | Ok _ =>
      try! pathInfo := Lstat path else (fun e => Ret (Err (Wrapped "inspect service operation lock path" (errno_error e)))) in
      Ret (if bool_decide (sa_kind pathInfo = Symlink) || negb (sa_ino pathInfo =? sa_ino info) then Err (Plain "service operation lock path changed while opening") else Ok tt)
  end.

Definition newOperationMetadata (pid : Z) (spec : OperationSpec) : prog (result app_error OperationMetadata) :=
  try! idBytes := Random else (fun e => Ret (Err (Wrapped "generate service operation ID" (errno_error e)))) in
  try! now := Now else (fun e => Ret (Err (errno_error e))) in
  Ret (Ok (MkMetadata operationMetadataVersion (hex_encode idBytes) (os_Kind spec) pid now (os_ExpectedConfigDigest spec))).

Section operations.
Context `{J : MetadataJSON}.

Definition writeOperationMetadata (fd : Z) (metadata : OperationMetadata) : prog (result app_error unit) :=
  match encode_metadata metadata with
  | None => Ret (Err (Wrapped "encode service operation metadata" (Plain "encoding/json")))
  | Some contents =>
      try! _ := Truncate fd else (fun e => Ret (Err (Wrapped "truncate service operation metadata" (errno_error e)))) in
      try! _ := Seek fd else (fun e => Ret (Err (Wrapped "seek service operation metadata" (errno_error e)))) in
      try! _ := Write fd (contents +:+ String (byte 10) "") else (fun e => Ret (Err (Wrapped "write service operation metadata" (errno_error e)))) in
      try! _ := Fsync fd else (fun e => Ret (Err (Wrapped "sync service operation metadata" (errno_error e)))) in
      Ret (Ok tt)
  end.

Definition usable_metadata (m : OperationMetadata) : bool :=
  (om_Version m =? operationMetadataVersion) && negb (bool_decide (om_ID m = "")) && validOperationKind (om_Kind m) && (0 <? om_PID m) && negb (om_StartedAt m =? 0).

Definition readOperationMetadata (fd : Z) : prog (option OperationMetadata) :=
  try! contents := Read fd (maxOperationMetadataSize + 1) else (fun _ => Ret None) in
  Ret (if bool_decide (contents = "") || (maxOperationMetadataSize <? slen contents) then None
       else match decode_metadata contents with
            | Some m => if usable_metadata m then Some m else None
            | None => None
            end).

Definition busy_details (holder : option OperationMetadata) : details :=
  match holder with
  | Some m => {[ "holder_operation" := DString (kind_text (om_Kind m)); "holder_operation_id" := DString (om_ID m);
                 "holder_pid" := DNumber (pretty (om_PID m)); "started_at" := DString (pretty (om_StartedAt m)) ]}
  | None => ∅
  end.

Definition operation (spec : OperationSpec) : string := "service." +:+ kind_text (os_Kind spec).

Definition busy (spec : OperationSpec) (holder : option OperationMetadata) : app_error :=
  WithDetails (busy_details holder)
    (Wrap CodeServiceOperationBusy (operation spec) "another service operation is in progress" (Plain "service operation is already in progress")).

Definition unsafe_lock (spec : OperationSpec) (message : string) (e : app_error) : app_error := Wrap CodeUnsafeFile (operation spec) message e.

(** The deferred [Close], and the unlocking before it. *)
Definition drop {A} (fd : Z) (e : app_error) : prog (result app_error A) := Call (Close fd) (fun _ => Ret (Err e)).
Definition unlock_drop {A} (fd : Z) (e : app_error) : prog (result app_error A) := Call (Unlock fd) (fun _ => drop fd e).

(** [BeginOperation] from the lock on. *)
Definition record_operation (pid : Z) (spec : OperationSpec) (fd : Z) : prog (result app_error OperationGuard) :=
  pbind (newOperationMetadata pid spec) (fun made =>
    match made with
    | Err e => unlock_drop fd e
    | Ok metadata =>
        pbind (writeOperationMetadata fd metadata) (fun w =>
          match w with Err e => unlock_drop fd e | Ok _ => Ret (Ok (MkGuard metadata (Some fd))) end)
    end).

(** [BeginOperation]; [checked] is what the context, [manager.validate] and
    [manager.requireRoot] say. *)
Definition BeginOperation (pid : Z) (path : string) (ownerUID : Z) (checked : result app_error unit) (spec : OperationSpec) : prog (result app_error OperationGuard) :=
  if negb (validOperationKind (os_Kind spec)) then Ret (Err (Plain "invalid service operation kind"))
  else
    match checked with
    | Err e => Ret (Err e)
    | Ok _ =>
        try! parent := Stat (dir path) else (fun e => Ret (Err (unsafe_lock spec "service operation lock parent is unsafe" (errno_error e)))) in
        match validateOperationLockParent path ownerUID parent with
        | Err e => Ret (Err (unsafe_lock spec "service operation lock parent is unsafe" e))
        | Ok _ =>
            try! fd := Open path true else (fun e => Ret (Err (Wrapped "open service operation lock" (errno_error e)))) in
            pbind (validateOperationLockFile path fd ownerUID) (fun valid =>
              match valid with
              | Err e => drop fd (unsafe_lock spec "service operation lock file is unsafe" e)
              | Ok _ =>
                  try! _ := Flock fd else (fun e =>
                    if bool_decide (e = WouldBlock) then pbind (readOperationMetadata fd) (fun holder => drop fd (busy spec holder))
                    else drop fd (Wrapped "lock service operation file" (errno_error e))) in
                  record_operation pid spec fd
              end)
        end
    end.

(** [OperationGuard.Close] *)
Definition OperationGuard_Close (guard : OperationGuard) : prog (list app_error * OperationGuard) :=
  match og_file guard with
  | None => Ret ([], guard)
  | Some fd =>
      Call (Unlock fd) (fun u => Call (Close fd) (fun c =>
        Ret (failure_of "unlock service operation" u ++ failure_of "close service operation lock" c, MkGuard (og_Metadata guard) None)))
  end.
End operations.
