(* ===== verification/LocksFacts.v ===== *)
(** * Component [internal/daemon] and [internal/launchservice]: what the locks exclude

    Processes run the programs of [Locks], interleaved call by call; calls may
    fail and processes may die.  Two service operations never run at the same
    time, and an instance lock is only removed by its holder; but two
    instances can hold their lock at the same time. *)

From S2P Require Import Prelude.
From S2P Require Import GoStrings.
From S2P Require Import GoTime.
From S2P Require Import GoFiles.
From S2P Require Import Apperror.
From S2P Require Import LaunchLayout.
From S2P Require Import LaunchStorage.
From S2P Require Import Control.
From S2P Require Import Locks.

(** ** Processes *)

(** What a process holds when a program succeeded. *)
Inductive handle : Type := HeldLock (lock : Lock) | ClaimedLock (lock : Lock) | HeldGuard (guard : OperationGuard).

Inductive thread : Type := Working (p : prog (option handle)) | Inside (h : handle).

Record system : Type := MkSystem { sy_kernel : kernel; sy_threads : gmap Z thread }.

(** The process begins a program, makes its next call, gives up what it
    holds, or dies. *)
Inductive event (C : Type) : Type :=
| Begin (i : Z) (command : C)
| Go (i : Z) (fails : bool) (now : Z) (random : string)
| Leave (i : Z) (remove : bool)
| Crash (i : Z).
Arguments Begin {C} _ _.
Arguments Go {C} _ _ _ _.
Arguments Leave {C} _ _.
Arguments Crash {C} _.

(** The thread after its program came to [p]. *)
Definition settle (i : Z) (p : prog (option handle)) (k : kernel) (ts : gmap Z thread) : system :=
  match p with
  | Ret (Some h) => MkSystem k (<[i := Inside h]> ts)
  | Ret None => MkSystem k (delete i ts)
  | Call _ _ => MkSystem k (<[i := Working p]> ts)
  end.

(** What the process that holds something runs to give it up. *)
Definition quit (remove : bool) (h : handle) : prog (option handle) :=
  match h with
  | HeldLock lock => pbind (Lock_Close lock) (fun _ => Ret None)
  | ClaimedLock lock => pbind (if remove then StaleLock_Remove lock else closeLocked lock []) (fun _ => Ret None)
  | HeldGuard guard => pbind (OperationGuard_Close guard) (fun _ => Ret None)
  end.

(** The system closes the files of a process that died. *)
Definition close_all (i : Z) (k : kernel) : kernel :=
  foldr (fun x k => close_file x.1 k) k (filter (fun x => of_owner x.2 = i) (map_to_list (kn_files k))).

Section schedule.
Context {C : Type} (job : C -> Z -> prog (option handle)) (euid : Z).

Definition sched_step (e : event C) (s : system) : option system :=
  match e with
  | Begin i command =>
      match sy_threads s !! i with
      | None => Some (settle i (job command i) (sy_kernel s) (sy_threads s))
      | Some _ => None
      end
  | Go i fails now random =>
      match sy_threads s !! i with
      | Some (Working (Call c k)) => let '(r, kernel) := perform i euid now random fails c (sy_kernel s) in Some (settle i (k r) kernel (sy_threads s))
      | _ => None
      end
  | Leave i remove =>
      match sy_threads s !! i with
      | Some (Inside h) => Some (settle i (quit remove h) (sy_kernel s) (sy_threads s))
      | _ => None
      end
  | Crash i =>
      match sy_threads s !! i with
      | Some _ => Some (MkSystem (close_all i (sy_kernel s)) (delete i (sy_threads s)))
      | None => None
      end
  end.

Fixpoint run_events (es : list (event C)) (s : system) : option system :=
  match es with [] => Some s | e :: es' => match sched_step e s with Some s' => run_events es' s' | None => None end end.

Inductive reachable (s0 : system) : system -> Prop :=
| reach_start : reachable s0 s0
| reach_step s e s' : reachable s0 s -> sched_step e s = Some s' -> reachable s0 s'.
End schedule.

(** Commands of instances and of the service. *)
Inductive instance_command : Type := CmdAcquire | CmdClaim (expectedPID : Z) | CmdProbe (expectedPID : Z) | CmdRemoveStale (expectedPID : Z).

Definition instance_job (path : string) (euid : Z) (c : instance_command) (pid : Z) : prog (option handle) :=
  let taken (wrap : Lock -> handle) r := Ret (match r with Ok lock => Some (wrap lock) | Err _ => None end) in
  match c with
  | CmdAcquire => pbind (Acquire pid path) (taken HeldLock)
  | CmdClaim expectedPID => pbind (TryClaimStale euid path expectedPID) (taken ClaimedLock)
  | CmdProbe expectedPID => pbind (ProbeLock euid path expectedPID) (fun _ => Ret None)
  | CmdRemoveStale expectedPID => pbind (RemoveStale euid path expectedPID) (fun _ => Ret None)
  end.

Definition operation_job `{MetadataJSON} (path : string) (ownerUID : Z) (checked : result app_error unit) (spec : OperationSpec) (pid : Z) : prog (option handle) :=
  pbind (BeginOperation pid path ownerUID checked spec) (fun r => Ret (match r with Ok guard => Some (HeldGuard guard) | Err _ => None end)).

(** ** What a program knows *)

(** Its open file, whether it has the lock, the inode that it saw at the path
    since then, and the inode of its file. *)
Record view : Type := MkView { vw_fd : Z; vw_locked : bool; vw_seen : option Z; vw_own : option Z }.

Section safety.
Context (path : string) (removes : bool).

Definition uses (fd : Z) (v : option view) : Prop := exists w, v = Some w /\ vw_fd w = fd.

Definition allowed {R} (c : syscall R) (v : option view) : Prop :=
  match c with
  | Open p _ => v = None /\ p = path
  | Lstat _ | Stat _ | Now | Random => True
  | Fstat fd | Fchmod fd _ | Flock fd | Unlock fd | Truncate fd | Seek fd | Write fd _ | Fsync fd | Read fd _ | Close fd => uses fd v
  | Remove p => p = path /\ removes = true /\ exists w n, v = Some w /\ vw_locked w = true /\ vw_seen w = Some n /\ vw_own w = Some n
  end.

Definition after {R} (c : syscall R) (r : result errno R) (v : option view) : option view :=
  match c in syscall R return result errno R -> option view with
  | Open _ _ => fun r => match r with Ok fd => Some (MkView fd false None None) | Err _ => None end
  | Lstat p => fun r => match r with Ok st => (fun w => MkView (vw_fd w) (vw_locked w) (if bool_decide (p = path) then Some (sa_ino st) else None) (vw_own w)) <$> v | Err _ => v end
  | Fstat _ => fun r => match r with Ok st => (fun w => MkView (vw_fd w) (vw_locked w) (vw_seen w) (Some (sa_ino st))) <$> v | Err _ => v end
  | Flock _ => fun r => match r with Ok _ => (fun w => MkView (vw_fd w) true None (vw_own w)) <$> v | Err _ => v end
  | Unlock _ => fun _ => (fun w => MkView (vw_fd w) false None (vw_own w)) <$> v
  | Remove _ => fun _ => (fun w => MkView (vw_fd w) (vw_locked w) None (vw_own w)) <$> v
  | Close _ => fun _ => None
  | _ => fun _ => v
  end r.

Fixpoint safe {A} (Q : option view -> A -> Prop) (v : option view) (p : prog A) : Prop :=
  match p with
  | Ret a => Q v a
  | Call c k => allowed c v /\ forall r, safe Q (after c r v) (k r)
  end.

Lemma safe_bind {A B} (Q : option view -> A -> Prop) (Q' : option view -> B -> Prop) v p f :
  safe Q v p -> (forall v a, Q v a -> safe Q' v (f a)) -> safe Q' v (pbind p f).
Proof.
  intros Hp Hf. revert v Hp. induction p as [a|R c k IH]; intros v; cbn [safe pbind]; [apply Hf|]. intros [Ha Hr]. split; [done|]. intros r. by apply IH.
Qed.

(** ** The state of the kernel *)

Definition holder_of (k : kernel) (ino : Z) : option Z := kn_inodes k !! ino ≫= io_holder.

Record wf (k : kernel) : Prop := {
  wf_files : forall fd f, kn_files k !! fd = Some f -> fd < kn_next k /\ of_ino f < kn_next k;
  wf_paths : forall p ino, kn_paths k !! p = Some ino -> ino < kn_next k;
  wf_holder : forall ino fd, holder_of k ino = Some fd -> exists f, kn_files k !! fd = Some f /\ of_ino f = ino
}.

(** The view of process [i] is right. *)
Definition right_view (k : kernel) (i : Z) (w : view) : Prop :=
  exists ino, kn_files k !! vw_fd w = Some (MkOpen ino i) /\
    (forall n, vw_own w = Some n -> n = ino) /\
    (vw_locked w = true -> holder_of k ino = Some (vw_fd w)) /\
    (vw_locked w = true -> vw_seen w = Some ino -> kn_paths k !! path = Some ino) /\
    (removes = false -> kn_paths k !! path = Some ino).

Definition right (k : kernel) (i : Z) (v : option view) : Prop := match v with Some w => right_view k i w | None => True end.

(** Nothing changed but contents and modes. *)
Definition quiet (k k' : kernel) : Prop :=
  kn_paths k' = kn_paths k /\ kn_files k' = kn_files k /\ kn_next k' = kn_next k /\ forall ino, holder_of k' ino = holder_of k ino.

(** What a call of process [i] must leave to the views of the others. *)
Definition others_right (i : Z) (k k' : kernel) : Prop := forall j w, j <> i -> right_view k j w -> right_view k' j w.

Lemma unchanged k i v : wf k -> right k i v -> wf k /\ right k i v /\ others_right i k k.
Proof. intros H1 H2. split; [done|]. split; [done|]. by intros j w _. Qed.

Lemma quiet_wf k k' : quiet k k' -> wf k -> wf k'.
Proof. intros (Hp & Hf & Hn & Hh) [H1 H2 H3]. split; rewrite ?Hf, ?Hn, ?Hp; [done|done|]. intros ino fd. rewrite Hh. apply H3. Qed.

Lemma quiet_right k k' i w : quiet k k' -> right_view k i w -> right_view k' i w.
Proof. intros (Hp & Hf & Hn & Hh) (ino & H). exists ino. by rewrite Hp, Hf, Hh. Qed.

Lemma holder_change k ino f ino' : holder_of (change_inode ino f k) ino' = if decide (ino' = ino) then kn_inodes k !! ino ≫= (fun n => io_holder (f n)) else holder_of k ino'.
Proof.
  unfold holder_of, change_inode. cbn. destruct (decide (ino' = ino)) as [->|Hne].
  - rewrite lookup_alter_eq. by destruct (kn_inodes k !! ino).
  - by rewrite lookup_alter_ne.
Qed.

Lemma quiet_change k ino f : (forall n, io_holder (f n) = io_holder n) -> quiet k (change_inode ino f k).
Proof.
  intros Hf. split; [done|]. split; [done|]. split; [done|]. intros ino'. rewrite holder_change. destruct (decide (ino' = ino)) as [->|]; [|done].
  unfold holder_of. destruct (kn_inodes k !! ino); cbn; [apply Hf|done].
Qed.

Lemma quiet_update k fd f r k' : (forall n, io_holder (f n) = io_holder n) -> update_file fd f k = (r, k') -> quiet k k'.
Proof. intros Hf. unfold update_file. destruct (file_at fd k) as [[o n]|e]; intros [= <- <-]; [by apply quiet_change|by repeat split]. Qed.

Lemma file_at_Ok fd k f n : file_at fd k = Ok (f, n) -> kn_files k !! fd = Some f /\ kn_inodes k !! of_ino f = Some n.
Proof. unfold file_at. destruct (kn_files k !! fd) as [f'|]; [|done]. destruct (kn_inodes k !! of_ino f') as [n'|] eqn:E; [|done]. by intros [= <- <-]. Qed.

(** Two views of one open file are views of one process. *)
Lemma same_file k i j w w' : right_view k i w -> right_view k j w' -> vw_fd w = vw_fd w' -> i = j.
Proof. intros (ino & H1 & _) (ino' & H2 & _) He. congruence. Qed.

(** Views of others survive a change of the holder of an inode that is not
    theirs. *)
Lemma others_holder i k k' : kn_paths k' = kn_paths k -> kn_files k' = kn_files k -> 
  (forall j w ino, j <> i -> right_view k j w -> holder_of k ino = Some (vw_fd w) -> holder_of k' ino = Some (vw_fd w)) -> others_right i k k'.
Proof.
  intros Hp Hf Hh j w Hj Hw. pose proof Hw as (ino & H1 & H2 & H3 & H4 & H5). exists ino. rewrite Hp, Hf. split; [done|]. split; [done|].
  split; [|by split]. intros Hl. by apply (Hh j w ino Hj Hw), H3.
Qed.

Lemma flock_spec i w fd k r k' : wf k -> right_view k i w -> vw_fd w = fd ->
  match file_at fd k with
  | Ok (f, n) => match io_holder n with
                 | Some other => if other =? fd then (Ok tt, k) else (Err WouldBlock, k)
                 | None => (Ok tt, change_inode (of_ino f) (with_holder (Some fd)) k)
                 end
  | Err e => (Err e, k)
  end = (r, k') ->
  wf k' /\ right k' i (after (Flock fd) r (Some w)) /\ others_right i k k'.
Proof.
  intros Hwf Hw <-. destruct (file_at (vw_fd w) k) as [[f n]|e] eqn:Ef; [|intros [= <- <-]; exact (unchanged k i (Some w) Hwf Hw)]. apply file_at_Ok in Ef as [Hf Hn].
  pose proof Hw as (ino & H1 & H2 & H3 & H4 & H5). rewrite H1 in Hf. injection Hf as <-. cbn [of_ino] in *.
  destruct (io_holder n) as [other|] eqn:Eh.
  - destruct (Z.eqb_spec other (vw_fd w)) as [->|Hne]; intros [= <- <-]; [|exact (unchanged k i (Some w) Hwf Hw)]. split; [done|]. split; [|by intros j w' _].
    exists ino. cbn. split; [done|]. split; [done|]. split; [intros _; unfold holder_of; by rewrite Hn|done].
  - intros [= <- <-].
    assert (Hnew : holder_of (change_inode ino (with_holder (Some (vw_fd w))) k) ino = Some (vw_fd w)) by (rewrite holder_change, decide_True, Hn by done; done).
    assert (Hold : forall ino', ino' <> ino -> holder_of (change_inode ino (with_holder (Some (vw_fd w))) k) ino' = holder_of k ino') by (intros; by rewrite holder_change, decide_False).
    split; [|split].
    + split; [apply Hwf|apply Hwf|]. intros ino' fd. destruct (decide (ino' = ino)) as [->|Hne]; [|rewrite Hold by done; apply Hwf]. rewrite Hnew. intros [= <-]. eexists. by split; [exact H1|].
    + exists ino. cbn. split; [done|]. split; [done|]. split; [done|]. by split.
    + apply others_holder; [done|done|]. intros j w' ino' Hj Hw' Hh. rewrite Hold; [done|]. intros ->. unfold holder_of in Hh. rewrite Hn in Hh. cbn in Hh. congruence.
Qed.

(** Releasing what process [i] may hold. *)
Lemma release_others k ino fd ino' fd' : fd' <> fd -> holder_of k ino' = Some fd' -> holder_of (change_inode ino (release fd) k) ino' = Some fd'.
Proof.
  intros Hne. rewrite holder_change. destruct (decide (ino' = ino)) as [->|]; [|done]. unfold holder_of. destruct (kn_inodes k !! ino) as [n|]; cbn; [|done].
  intros Hh. unfold release. rewrite bool_decide_eq_false_2; [done|congruence].
Qed.

Lemma release_back k ino fd ino' fd' : holder_of (change_inode ino (release fd) k) ino' = Some fd' -> holder_of k ino' = Some fd' /\ (ino' = ino -> fd' <> fd).
Proof.
  rewrite holder_change. destruct (decide (ino' = ino)) as [->|]; [|by split]. unfold holder_of. destruct (kn_inodes k !! ino) as [n|]; cbn; [|done].
  unfold release. case_bool_decide as Hb; cbn; [done|]. intros Hh. split; [done|]. intros _ ->. done.
Qed.

Lemma close_wf fd k : wf k -> wf (close_file fd k).
Proof.
  intros Hwf. unfold close_file. destruct (kn_files k !! fd) as [f|] eqn:Ef; [|done]. split; cbn.
  - intros fd' f'. destruct (decide (fd' = fd)) as [->|]; [by rewrite lookup_delete_eq|]. rewrite lookup_delete_ne by done. apply Hwf.
  - apply Hwf.
  - intros ino' fd' Hh. apply release_back in Hh as [Hh Hne]. destruct (wf_holder _ Hwf _ _ Hh) as (f' & Hf' & Hi). exists f'. split; [|done].
    rewrite lookup_delete_ne; [done|]. intros ->. rewrite Ef in Hf'. injection Hf' as <-. by apply Hne.
Qed.

Lemma close_right fd k j w : vw_fd w <> fd -> right_view k j w -> right_view (close_file fd k) j w.
Proof.
  intros Hne Hw. unfold close_file. destruct (kn_files k !! fd) as [f|] eqn:Ef; [|done]. destruct Hw as (ino & H1 & H2 & H3 & H4 & H5). exists ino. cbn.
  split; [by rewrite lookup_delete_ne|]. split; [done|]. split; [|by split]. intros Hl. change (holder_of (change_inode (of_ino f) (release fd) k) ino = Some (vw_fd w)).
  apply release_others; [done|by apply H3].
Qed.

Lemma unlock_spec i w fd k r k' : wf k -> right_view k i w -> vw_fd w = fd -> update_file fd (release fd) k = (r, k') ->
  wf k' /\ right k' i (after (Unlock fd) r (Some w)) /\ others_right i k k'.
Proof.
  intros Hwf Hw <-. unfold update_file. pose proof Hw as (ino & H1 & H2 & H3 & H4 & H5).
  destruct (file_at (vw_fd w) k) as [[f n]|e] eqn:Ef; intros [= <- <-].
  - apply file_at_Ok in Ef as [Hf Hn]. rewrite H1 in Hf. injection Hf as <-. cbn [of_ino] in *. split; [|split].
    + split; [apply Hwf|apply Hwf|]. intros ino' fd' Hh. by apply release_back in Hh as [Hh%(wf_holder _ Hwf) _].
    + exists ino. cbn. by split.
    + apply others_holder; [done|done|]. intros j w' ino' Hj Hw' Hh. apply release_others; [|done]. intros He. by apply Hj, (same_file k j i w' w).
  - split; [done|]. split; [|by intros j w' _]. exists ino. cbn. by split.
Qed.

Lemma remove_path_spec i k r k' v : wf k -> right k i v -> allowed (Remove path) v ->
  match kn_paths k !! path with
  | Some ino => (Ok tt, change_inode ino unlinked (MkKernel (delete path (kn_paths k)) (kn_inodes k) (kn_files k) (kn_next k)))
  | None => (Err NoEntry, k)
  end = (r, k') ->
  wf k' /\ right k' i (after (Remove path) r v) /\ others_right i k k'.
Proof.
  intros Hwf Hv (_ & Hrem & w & n & -> & Hl & Hs & Ho) Hp. pose proof Hv as (ino & H1 & H2 & H3 & H4 & H5). pose proof (H2 _ Ho) as ->.
  rewrite (H4 Hl Hs) in Hp. injection Hp as <- <-.
  assert (Hh : forall ino', holder_of (change_inode ino unlinked (MkKernel (delete path (kn_paths k)) (kn_inodes k) (kn_files k) (kn_next k))) ino' = holder_of k ino').
  { intros ino'. by rewrite (proj2 (proj2 (proj2 (quiet_change (MkKernel (delete path (kn_paths k)) (kn_inodes k) (kn_files k) (kn_next k)) ino unlinked (fun _ => eq_refl))))). }
  split; [|split].
  - split; [apply Hwf| |]; [|intros ino' fd; rewrite Hh; apply Hwf]. intros p ino'. cbn. intros [_ Hp]%lookup_delete_Some. by apply (wf_paths _ Hwf p).
  - exists ino. cbn. rewrite Hh. split; [done|]. split; [done|]. split; [done|]. split; [done|]. intros He. congruence.
  - intros j w' Hj Hw'. pose proof Hw' as (ino' & H1' & H2' & H3' & H4' & H5'). exists ino'. rewrite Hh. cbn. split; [done|]. split; [done|]. split; [done|].
    split; [|intros He; congruence]. intros Hl' Hs'. exfalso. apply Hj. specialize (H4' Hl' Hs'). rewrite (H4 Hl Hs) in H4'. injection H4' as <-.
    apply (same_file k j i w' w); [done|done|]. specialize (H3 Hl). specialize (H3' Hl'). congruence.
Qed.

Lemma open_spec i ino k r k' : wf k -> ino < kn_next k -> (removes = false -> kn_paths k !! path = Some ino) -> open_at i ino k = (r, k') ->
  wf k' /\ right k' i (after (Open path true) r None) /\ others_right i k k'.
Proof.
  intros Hwf Hino Hpath [= <- <-]. split; [|split].
  - split; cbn.
    + intros fd f. destruct (decide (fd = kn_next k)) as [->|Hne]; [rewrite lookup_insert_eq; intros [= <-]; cbn; lia|].
      rewrite lookup_insert_ne by done. intros Hf%(wf_files _ Hwf). lia.
    + intros p ino' Hp%(wf_paths _ Hwf). lia.
    + intros ino' fd (f & Hf & Hi)%(wf_holder _ Hwf). exists f. split; [|done]. rewrite lookup_insert_ne; [done|]. apply (wf_files _ Hwf) in Hf. lia.
  - exists ino. cbn. rewrite lookup_insert_eq. by split.
  - intros j w Hj (ino' & H1 & H2 & H3 & H4 & H5). exists ino'. cbn. split; [|by split]. rewrite lookup_insert_ne; [done|]. apply (wf_files _ Hwf) in H1. lia.
Qed.

(** A new file at a path where nothing was. *)
Lemma create_spec i euid k : wf k -> kn_paths k !! path = None ->
  let k1 := MkKernel (<[path := kn_next k]> (kn_paths k)) (<[kn_next k := MkInode Regular (6 * 64) euid 0 1 "" None]> (kn_inodes k)) (kn_files k) (kn_next k + 1) in
  wf k1 /\ others_right i k k1.
Proof.
  intros Hwf Hnone k1.
  assert (Hnew : holder_of k (kn_next k) = None).
  { destruct (holder_of k (kn_next k)) as [fd|] eqn:E; [|done]. apply (wf_holder _ Hwf) in E as (f & Hf & Hi). apply (wf_files _ Hwf) in Hf. lia. }
  assert (Hh : forall ino, holder_of k1 ino = holder_of k ino).
  { intros ino. unfold holder_of, k1. cbn. destruct (decide (ino = kn_next k)) as [->|Hne]; [by rewrite lookup_insert_eq|by rewrite lookup_insert_ne]. }
  split.
  - split; [| |intros ino fd; rewrite Hh; apply Hwf].
    + intros fd f Hf. apply (wf_files _ Hwf) in Hf. cbn. lia.
    + intros p ino. cbn. intros [[<- <-]|[_ Hp%(wf_paths _ Hwf)]]%lookup_insert_Some; lia.
  - intros j w Hj (ino & H1 & H2 & H3 & H4 & H5). exists ino. rewrite Hh. split; [done|]. split; [done|]. split; [done|]. cbn. split.
    + intros Hl Hs. rewrite (H4 Hl Hs) in Hnone. done.
    + intros Hr. rewrite (H5 Hr) in Hnone. done.
Qed.

(** A call that only looks, or changes contents and modes. *)
Lemma quiet_spec k k' i v' : wf k -> quiet k k' -> right k' i v' -> wf k' /\ right k' i v' /\ others_right i k k'.
Proof. intros Hwf Hq Hv. split; [by eapply quiet_wf|]. split; [done|]. intros j w _. by apply quiet_right. Qed.

Lemma right_quiet k k' i v : quiet k k' -> right k i v -> right k' i v.
Proof. destruct v; [apply quiet_right|done]. Qed.

Lemma fstat_right k i w fd (r : result errno stat) : right_view k i w -> vw_fd w = fd -> (let! p := file_at fd k in Ok (stat_of (of_ino p.1) p.2)) = r ->
  right k i (after (Fstat fd) r (Some w)).
Proof.
  intros Hw <- <-. destruct (file_at (vw_fd w) k) as [[f n]|e] eqn:Ef; [|done]. apply file_at_Ok in Ef as [Hf _]. destruct Hw as (ino & H1 & H).
  exists ino. cbn. split; [done|]. rewrite H1 in Hf. injection Hf as <-. split; [by intros n' [= <-]|apply H].
Qed.

Lemma lstat_right k i v p (r : result errno stat) : right k i v -> stat_path p k = r -> right k i (after (Lstat p) r v).
Proof.
  intros Hv <-. unfold stat_path. destruct (kn_paths k !! p) as [ino'|] eqn:Ep; [|done]. destruct (kn_inodes k !! ino'); [|done]. destruct v as [w|]; [|done].
  destruct Hv as (ino & H1 & H2 & H3 & H4 & H5). exists ino. cbn. split; [done|]. split; [done|]. split; [done|]. split; [|done].
  intros _. case_bool_decide as Hp; [|done]. intros [= ->]. by rewrite <- Hp.
Qed.

Lemma open_path_spec i euid create k r k' : wf k -> open_path i euid path create k = (r, k') ->
  wf k' /\ right k' i (after (Open path create) r None) /\ others_right i k k'.
Proof.
  intros Hwf. unfold open_path. destruct (kn_paths k !! path) as [ino|] eqn:Ep.
  - destruct (kn_inodes k !! ino) as [n|]; [|intros [= <- <-]; by apply (unchanged k i None)].
    do 2 (case_bool_decide as Hkind; [intros [= <- <-]; by apply (unchanged k i None)|clear Hkind]). intros H. apply (open_spec i ino k r k'); [done| |done|done]. by apply (wf_paths _ Hwf path).
  - destruct create; [|intros [= <- <-]; by apply (unchanged k i None)]. destruct (create_spec i euid k Hwf Ep) as [Hwf1 Ho1]. intros H.
    apply open_spec in H as (H1 & H2 & H3); [|done|cbn; lia|intros _; cbn; by rewrite lookup_insert_eq]. split; [done|]. split; [exact H2|]. intros j w Hj Hw. by apply H3, Ho1.
Qed.

Lemma close_spec i w (r : result errno unit) k : wf k -> right_view k i w -> wf (close_file (vw_fd w) k) /\ right (close_file (vw_fd w) k) i (after (Close (vw_fd w)) r (Some w)) /\
  others_right i k (close_file (vw_fd w) k).
Proof.
  intros Hwf Hw. split; [by apply close_wf|]. split; [done|]. intros j w' Hj Hw'. apply close_right; [|done]. intros He. by apply Hj, (same_file k j i w' w).
Qed.

(** Every allowed call keeps the kernel in order and all views right. *)
Lemma perform_spec i euid now random fails {R} (c : syscall R) k r k' v : wf k -> right k i v -> allowed c v -> perform i euid now random fails c k = (r, k') ->
  wf k' /\ right k' i (after c r v) /\ others_right i k k'.
Proof.
  intros Hwf Hv Ha. assert (Hfail : forall v', right k i v' -> wf k /\ right k i v' /\ others_right i k k) by (intros v' H; by apply unchanged).
  assert (Hupd : forall fd f r0, (forall n, io_holder (f n) = io_holder n) -> update_file fd f k = (r0, k') -> wf k' /\ right k' i v /\ others_right i k k').
  { intros fd f r0 Hf Hu. apply quiet_update in Hu; [|done]. apply (quiet_spec k k' i v); [done|done|by apply (right_quiet k)]. }
  destruct c; cbn [perform]; try destruct fails.
  all: try (intros [= <- <-]; apply Hfail; exact Hv).
  all: cbn [allowed] in Ha; try match type of Ha with uses _ _ => destruct Ha as (w & -> & Hfd) end.
  - intros [= <- <-]. by apply (Hfail None).
  - destruct Ha as [-> ->]. by apply open_path_spec.
  - intros [= <- <-]. apply Hfail. by eapply fstat_right.
  - intros [= <- <-]. apply Hfail. by apply lstat_right.
  - intros H. by apply Hupd in H.
  - intros H. by eapply flock_spec.
  - intros [= <- <-]. apply Hfail. destruct Hv as (ino & H1 & H2 & _ & _ & H5). exists ino. cbn. by split.
  - intros H. by eapply unlock_spec.
  - intros H. by apply Hupd in H.
  - intros H. by apply Hupd in H.
  - intros [= <- <-]. apply Hfail. destruct Ha as (_ & _ & w & n & -> & _). destruct Hv as (ino & H1 & H2 & H3 & _ & H5). exists ino. cbn. by split.
  - pose proof Ha as [-> _]. by apply remove_path_spec.
  - subst. intros [= <- <-]. by apply close_spec.
  - subst. intros [= <- <-]. by apply close_spec.
Qed.

(** ** The programs are safe *)

Definition handle_ok (h : handle) (fd : Z) : Prop :=
  match h with
  | HeldLock lock | ClaimedLock lock => removes = true /\ lock = MkLock path (Some fd)
  | HeldGuard guard => og_file guard = Some fd
  end.

(** At the end of a program its file is closed, or it has the lock. *)
Definition post (v : option view) (o : option handle) : Prop :=
  match o with
  | Some h => exists w, v = Some w /\ vw_locked w = true /\ handle_ok h (vw_fd w)
  | None => v = None
  end.

Definition lock_post (v : option view) (r : result lock_error Lock) : Prop :=
  match r with
  | Ok lock => exists w, v = Some w /\ vw_locked w = true /\ lock = MkLock path (Some (vw_fd w))
  | Err _ => v = None
  end.

Definition closed {A} (v : option view) (_ : A) : Prop := v = None.

(** One call of a program: it is allowed, and the rest is safe. *)
Ltac call_safe := cbn [safe attempt]; split; [by eexists|intros [?|?]; cbn [after fmap option_fmap option_map vw_fd vw_locked vw_seen vw_own]].

Lemma abandon_safe w e : safe lock_post (Some w) (abandon (vw_fd w) e).
Proof. by call_safe. Qed.

Lemma unlock_abandon_safe w e : safe lock_post (Some w) (unlock_abandon (vw_fd w) e).
Proof. call_safe; apply (abandon_safe (MkView _ _ _ _)). Qed.

Ltac end_safe := first [done | apply (abandon_safe (MkView _ _ _ _)) | apply (unlock_abandon_safe (MkView _ _ _ _))].

Lemma Acquire_safe pid : safe lock_post None (Acquire pid path).
Proof.
  unfold Acquire. destruct (negb (lock_path_ok path)); [done|]. cbn [safe attempt]. split; [done|]. intros [fd|e]; cbn [after]; [|done].
  call_safe; [|end_safe]. destruct (negb _); [end_safe|]. do 6 (call_safe; [|end_safe]). cbn. eexists. by split.
Qed.

Lemma TryClaimStale_safe euid expectedPID : safe lock_post None (TryClaimStale euid path expectedPID).
Proof.
  unfold TryClaimStale. destruct (bool_decide _); [done|]. destruct (negb (lock_path_ok path)); [done|]. cbn [safe attempt]. split; [done|]. intros [fd|e]; cbn [after]; [|done].
  call_safe; [|end_safe]. destruct (_ || _); [end_safe|]. destruct (negb _); [end_safe|]. call_safe; [|end_safe]. call_safe; [|end_safe].
  destruct (_ <? _); [end_safe|]. destruct (negb _); [end_safe|]. cbn. eexists. by split.
Qed.

Lemma close_lock_safe w lock u c failures : safe closed (Some w) (close_lock lock (vw_fd w) u c failures).
Proof. call_safe; cbn [safe]; (split; [by eexists|done]). Qed.

Lemma closeLocked_safe w failures : safe closed (Some w) (closeLocked (MkLock path (Some (vw_fd w))) failures).
Proof. apply close_lock_safe. Qed.

Lemma looking_safe {A} (Q : option view -> A -> Prop) w (k : result errno stat -> result errno stat -> prog A) :
  (forall p f seen own, (forall st, p = Ok st -> seen = Some (sa_ino st)) -> (forall st, f = Ok st -> own = Some (sa_ino st)) ->
     safe Q (Some (MkView (vw_fd w) (vw_locked w) seen own)) (k p f)) ->
  safe Q (Some w) (Call (Lstat path) (fun p => Call (Fstat (vw_fd w)) (fun f => k p f))).
Proof.
  intros Hk. destruct w as [fd locked seen own]. cbn [safe vw_fd vw_locked] in *. split; [done|]. intros p. split; [by destruct p; eexists|]. intros f. destruct p as [p|e]; destruct f as [f|e']; cbn; rewrite ?bool_decide_eq_true_2 by done; apply Hk.
  all: try by intros st [= <-].
  all: try done.
Qed.

Lemma removing_safe {A} (Q : option view -> A -> Prop) w n (k : result errno unit -> prog A) : removes = true -> vw_locked w = true -> vw_seen w = Some n -> vw_own w = Some n ->
  (forall r, safe Q (Some (MkView (vw_fd w) (vw_locked w) None (vw_own w))) (k r)) -> safe Q (Some w) (Call (Remove path) k).
Proof. intros Hr Hl Hs Ho Hk. cbn [safe]. split; [|by intros []]. split; [done|]. split; [done|]. by exists w, n. Qed.

Lemma Lock_Close_safe w : removes = true -> vw_locked w = true -> safe closed (Some w) (Lock_Close (MkLock path (Some (vw_fd w)))).
Proof.
  intros Hr Hl. unfold Lock_Close. cbn [lk_file lk_path]. apply looking_safe. intros p f seen own Hp Hf. destruct p as [p|e], f as [f|e'].
  - destruct (Z.eqb_spec (sa_ino p) (sa_ino f)) as [Heq|]; [|apply (close_lock_safe (MkView _ _ _ _))].
    apply (removing_safe _ (MkView _ _ _ _) (sa_ino f)); [done|done|cbn; by rewrite (Hp _ eq_refl), Heq|by apply Hf|]. intros r. apply (close_lock_safe (MkView _ _ _ _)).
  - apply (close_lock_safe (MkView _ _ _ _)).
  - case_bool_decide; apply (close_lock_safe (MkView _ _ _ _)).
  - case_bool_decide; apply (close_lock_safe (MkView _ _ _ _)).
Qed.

Lemma StaleLock_Remove_safe w : removes = true -> vw_locked w = true -> safe closed (Some w) (StaleLock_Remove (MkLock path (Some (vw_fd w)))).
Proof.
  intros Hr Hl. unfold StaleLock_Remove. cbn [lk_file lk_path]. apply looking_safe. intros p f seen own Hp Hf. destruct p as [p|e], f as [f|e'].
  - destruct (Z.eqb_spec (sa_ino p) (sa_ino f)) as [Heq|]; cbn [negb]; [|apply (closeLocked_safe (MkView _ _ _ _))].
    apply (removing_safe _ (MkView _ _ _ _) (sa_ino f)); [done|done|cbn; by rewrite (Hp _ eq_refl), Heq|by apply Hf|]. intros r. apply (closeLocked_safe (MkView _ _ _ _)).
  - apply (closeLocked_safe (MkView _ _ _ _)).
  - apply (closeLocked_safe (MkView _ _ _ _)).
  - apply (closeLocked_safe (MkView _ _ _ _)).
Qed.

Lemma safe_closed {A B} v (p : prog A) (f : A -> B) : safe closed v p -> safe closed v (pbind p (fun a => Ret (f a))).
Proof. intros H. by eapply safe_bind. Qed.

Lemma closed_post {A} v (p : prog A) : safe closed v p -> safe post v (pbind p (fun _ => Ret None)).
Proof. intros H. by eapply safe_bind. Qed.

Lemma instance_job_safe euid c pid : removes = true -> safe post None (instance_job path euid c pid).
Proof.
  intros Hr. destruct c as [|e|e|e]; cbn [instance_job].
  - eapply safe_bind; [apply Acquire_safe|]. intros v [lock|er]; [|done]. intros (w & -> & Hl & ->). cbn. by exists w.
  - eapply safe_bind; [apply TryClaimStale_safe|]. intros v [lock|er]; [|done]. intros (w & -> & Hl & ->). cbn. by exists w.
  - apply closed_post. unfold ProbeLock. eapply safe_bind; [apply TryClaimStale_safe|]. intros v [lock|[]]; try done. intros (w & -> & Hl & ->). apply safe_closed, closeLocked_safe.
  - apply closed_post. unfold RemoveStale. eapply safe_bind; [apply TryClaimStale_safe|]. intros v [lock|[]]; try done. intros (w & -> & Hl & ->). by apply safe_closed, StaleLock_Remove_safe.
Qed.

(** *** Service operations *)

Definition guard_post (v : option view) (r : result app_error OperationGuard) : Prop :=
  match r with
  | Ok guard => exists w, v = Some w /\ vw_locked w = true /\ og_file guard = Some (vw_fd w)
  | Err _ => v = None
  end.

(** A program that keeps the view of its file. *)
Definition keeping {A} (fd : Z) (locked : bool) (v : option view) (_ : A) : Prop := exists w, v = Some w /\ vw_fd w = fd /\ vw_locked w = locked.

Lemma drop_safe w e : safe guard_post (Some w) (drop (vw_fd w) e).
Proof. by call_safe. Qed.

Lemma unlock_drop_safe w e : safe guard_post (Some w) (unlock_drop (vw_fd w) e).
Proof. call_safe; apply (drop_safe (MkView _ _ _ _)). Qed.

Ltac keep_safe := repeat first [by eexists | call_safe | match goal with |- context [match ?x with _ => _ end] => destruct x end].

Lemma validate_safe w ownerUID : safe (keeping (vw_fd w) (vw_locked w)) (Some w) (validateOperationLockFile path (vw_fd w) ownerUID).
Proof.
  unfold validateOperationLockFile. call_safe; [|by eexists]. destruct (check_lock_file _ _); [|by eexists]. cbn [safe attempt]. split; [done|]. intros [?|?]; by eexists.
Qed.

Lemma newOperationMetadata_safe w pid spec : safe (keeping (vw_fd w) (vw_locked w)) (Some w) (newOperationMetadata pid spec).
Proof. cbn. split; [done|]. intros [?|?]; cbn; [|by eexists]. split; [done|]. intros [?|?]; by eexists. Qed.

Context `{J : MetadataJSON}.

Lemma writeOperationMetadata_safe w metadata : safe (keeping (vw_fd w) (vw_locked w)) (Some w) (writeOperationMetadata (vw_fd w) metadata).
Proof. unfold writeOperationMetadata. destruct (encode_metadata metadata); [|by eexists]. do 4 (call_safe; [|by eexists]). by eexists. Qed.

Lemma readOperationMetadata_safe w : safe (keeping (vw_fd w) (vw_locked w)) (Some w) (readOperationMetadata (vw_fd w)).
Proof. unfold readOperationMetadata. call_safe; by eexists. Qed.

Lemma record_operation_safe w pid spec : vw_locked w = true -> safe guard_post (Some w) (record_operation pid spec (vw_fd w)).
Proof.
  intros Hl. eapply safe_bind; [apply newOperationMetadata_safe|]. intros v r (w' & -> & <- & Hl'). destruct r as [metadata|e]; [|apply unlock_drop_safe].
  eapply safe_bind; [apply writeOperationMetadata_safe|]. intros v r (w2 & -> & <- & Hl2). destruct r; [|apply unlock_drop_safe]. cbn. exists w2. split; [done|]. split; [congruence|done].
Qed.

Lemma BeginOperation_safe pid ownerUID checked spec : safe guard_post None (BeginOperation pid path ownerUID checked spec).
Proof.
  unfold BeginOperation. destruct (negb _); [done|]. destruct checked; [|done]. cbn [safe attempt]. split; [done|]. intros [parent|e]; [|done]. cbn [after].
  destruct (validateOperationLockParent _ _ _); [|done]. cbn [safe attempt]. split; [done|]. intros [fd|e]; cbn [after]; [|done].
  eapply safe_bind; [apply (validate_safe (MkView fd false None None))|]. intros v r (w & -> & Hw & _). cbn in Hw. subst fd. destruct r; [|apply drop_safe].
  call_safe; [apply (record_operation_safe (MkView _ _ _ _)); done|]. case_bool_decide; [|apply drop_safe].
  eapply safe_bind; [apply readOperationMetadata_safe|]. intros v r (w' & -> & <- & _). apply drop_safe.
Qed.

Lemma operation_job_safe ownerUID checked spec pid : safe post None (operation_job path ownerUID checked spec pid).
Proof.
  eapply safe_bind; [apply BeginOperation_safe|]. intros v [guard|e]; [|done]. intros (w & -> & Hl & Hf). cbn. by exists w.
Qed.

(** Giving up what one holds. *)
Lemma quit_safe h w remove : vw_locked w = true -> handle_ok h (vw_fd w) -> safe post (Some w) (quit remove h).
Proof.
  intros Hl Hh. destruct h as [lock|lock|guard]; cbn [quit handle_ok] in *; apply closed_post.
  - destruct Hh as [Hr ->]. by apply Lock_Close_safe.
  - destruct Hh as [Hr ->]. destruct remove; [by apply StaleLock_Remove_safe|apply closeLocked_safe].
  - unfold OperationGuard_Close. rewrite Hh. call_safe; cbn [safe]; (split; [by eexists|done]).
Qed.
End safety.

(** ** Reachable states *)

Section invariant.
Context (path : string) (removes : bool) {C : Type} (job : C -> Z -> prog (option handle)) (euid : Z).

(** Every program that a process may begin is safe. *)
Hypothesis job_safe : forall c i, safe path removes (post path removes) None (job c i).

Definition thread_ok (k : kernel) (i : Z) (t : thread) : Prop :=
  exists v, right path removes k i v /\
    match t with
    | Working p => safe path removes (post path removes) v p
    | Inside h => exists w, v = Some w /\ vw_locked w = true /\ handle_ok path removes h (vw_fd w)
    end.

Definition in_order (s : system) : Prop := wf (sy_kernel s) /\ map_Forall (thread_ok (sy_kernel s)) (sy_threads s).

Lemma thread_ok_others k k' i j t : others_right path removes i k k' -> j <> i -> thread_ok k j t -> thread_ok k' j t.
Proof. intros Ho Hj (v & Hv & Ht). exists v. split; [|done]. destruct v as [w|]; [|done]. by apply Ho. Qed.

Lemma settle_ok i p k v (ts : gmap Z thread) : wf k -> right path removes k i v -> safe path removes (post path removes) v p ->
  map_Forall (thread_ok k) (delete i ts) -> in_order (settle i p k ts).
Proof.
  intros Hwf Hv Hp Hts. assert (Hins : forall t, thread_ok k i t -> map_Forall (thread_ok k) (<[i := t]> ts)).
  { intros t Ht. rewrite <- insert_delete_eq. by apply map_Forall_insert_2. }
  destruct p as [[h|]|R c kont]; (split; [done|]); cbn [settle sy_kernel sy_threads]; [apply Hins| |apply Hins]; [| done|by exists v]. destruct Hp as (w & -> & H). exists (Some w). split; [done|]. by exists w.
Qed.

Lemma others_ok k k' i (ts : gmap Z thread) : others_right path removes i k k' -> map_Forall (thread_ok k) ts -> map_Forall (thread_ok k') (delete i ts).
Proof. intros Ho Hts j t [Hne Hl]%lookup_delete_Some. apply (thread_ok_others k k' i); [done|done|by apply Hts]. Qed.

(** What a thread that has the lock knows later. *)
Lemma right_weaken k i w : right_view path removes k i w -> right_view path removes k i (MkView (vw_fd w) (vw_locked w) None None).
Proof. intros (ino & H1 & H2 & H3 & H4 & H5). exists ino. cbn. by split. Qed.

Lemma close_all_spec i k : wf k -> wf (close_all i k) /\ others_right path removes i k (close_all i k).
Proof.
  intros Hwf. unfold close_all. assert (Hall : forall x, x ∈ filter (fun x => of_owner x.2 = i) (map_to_list (kn_files k)) -> of_owner x.2 = i /\ kn_files k !! x.1 = Some x.2).
  { intros [fd f] [H1 H2%elem_of_map_to_list]%list_elem_of_filter. done. }
  revert Hall. generalize (filter (fun x => of_owner x.2 = i) (map_to_list (kn_files k))). intros l. induction l as [|[fd f] l IH]; intros Hall; cbn [foldr].
  { split; [done|]. by intros j w _. }
  destruct IH as [H1 H2]; [intros x Hx; apply Hall; by right|]. split; [by apply close_wf|]. intros j w Hj Hw. apply close_right; [|by apply H2].
  intros He. cbn in He. destruct (Hall (fd, f) ltac:(by left)) as [Ho Hf]. cbn in Ho, Hf. destruct Hw as (ino & Hw & _). rewrite He, Hf in Hw. injection Hw as ->. cbn in Ho. congruence.
Qed.

Lemma in_order_step e s s' : in_order s -> sched_step job euid e s = Some s' -> in_order s'.
Proof.
  intros [Hwf Hts]. destruct e as [i c|i fails now random|i remove|i]; cbn [sched_step].
  - destruct (sy_threads s !! i); [done|]. intros [= <-]. apply (settle_ok i _ _ None); [done|done|apply job_safe|by apply map_Forall_delete].
  - destruct (sy_threads s !! i) as [[[a|R c k]|h]|] eqn:Ei; try done. destruct (Hts _ _ Ei) as (v & Hv & Ha & Hk).
    destruct (perform i euid now random fails c (sy_kernel s)) as [r k'] eqn:Ep. intros [= <-].
    apply (perform_spec path removes i euid now random fails c _ _ _ v) in Ep as (Hwf' & Hv' & Ho); [|done..]. apply (settle_ok i _ _ (after path c r v)); [done|done|apply Hk|].
    by apply others_ok with (k := sy_kernel s).
  - destruct (sy_threads s !! i) as [[p|h]|] eqn:Ei; try done. destruct (Hts _ _ Ei) as (v & Hv & w & -> & Hl & Hh). intros [= <-].
    apply (settle_ok i _ _ (Some (MkView (vw_fd w) (vw_locked w) None None))); [done|by apply right_weaken|by apply quit_safe|by apply map_Forall_delete].
  - destruct (sy_threads s !! i); [|done]. intros [= <-]. destruct (close_all_spec i (sy_kernel s) Hwf) as [H1 H2]. split; [done|]. by apply others_ok with (k := sy_kernel s).
Qed.

Lemma in_order_reachable s0 s : in_order s0 -> reachable job euid s0 s -> in_order s.
Proof. intros H0. induction 1 as [|s e s' _ IH Hstep]; [done|]. by eapply in_order_step. Qed.

(** Who is inside has locked an inode. *)
Lemma inside_lock s i h : in_order s -> sy_threads s !! i = Some (Inside h) ->
  exists fd ino, handle_ok path removes h fd /\ kn_files (sy_kernel s) !! fd = Some (MkOpen ino i) /\ holder_of (sy_kernel s) ino = Some fd /\
    (removes = false -> kn_paths (sy_kernel s) !! path = Some ino).
Proof.
  intros [_ Hts] Hi. destruct (Hts _ _ Hi) as (v & Hv & w & -> & Hl & Hh). destruct Hv as (ino & H1 & H2 & H3 & H4 & H5). exists (vw_fd w), ino.
  split; [done|]. split; [done|]. split; [by apply H3|done].
Qed.
End invariant.

(** A kernel before any process runs: nothing is open. *)
Definition idle_kernel (k : kernel) : Prop :=
  kn_files k = ∅ /\ map_Forall (fun _ n => io_holder n = None) (kn_inodes k) /\ map_Forall (fun _ ino => ino < kn_next k) (kn_paths k).

Lemma idle_in_order path removes k : idle_kernel k -> in_order path removes (MkSystem k ∅).
Proof.
  intros (Hf & Hh & Hp). split; [|apply map_Forall_empty]. split; cbn.
  - intros fd f. by rewrite Hf.
  - intros p ino Hl. by apply (Hp p).
  - intros ino fd. unfold holder_of. destruct (kn_inodes k !! ino) as [n|] eqn:E; [|done]. cbn. by rewrite (Hh _ _ E).
Qed.

(** C8: Service operations exclude each other: however the system calls of
    processes that begin, run and end operations are interleaved, whichever
    calls fail and whichever processes die, never two of them hold the lock. *)
Theorem operations_exclusive `{J : MetadataJSON} path ownerUID euid checked k s i j h h' :
  idle_kernel k -> reachable (operation_job path ownerUID checked) euid (MkSystem k ∅) s ->
  sy_threads s !! i = Some (Inside h) -> sy_threads s !! j = Some (Inside h') -> i = j.
Proof.
  intros Hk Hr Hi Hj. assert (Hs : in_order path false s) by (eapply in_order_reachable, Hr; [apply operation_job_safe|by apply idle_in_order]).
  destruct (inside_lock _ _ s i h Hs Hi) as (fd & ino & _ & Hf & Hh & Hp). destruct (inside_lock _ _ s j h' Hs Hj) as (fd' & ino' & _ & Hf' & Hh' & Hp').
  specialize (Hp eq_refl). specialize (Hp' eq_refl). rewrite Hp in Hp'. injection Hp' as <-. rewrite Hh in Hh'. injection Hh' as <-. congruence.
Qed.

(** The lock file of an instance is only removed by the process that has
    it locked, and two processes that took locks on the same file are one: a
    clean-up or a stopping instance never removes the lock of a running one. *)
Theorem lock_removed_by_holder path euid k s i :
  idle_kernel k -> reachable (instance_job path euid) euid (MkSystem k ∅) s ->
  (forall p kont, sy_threads s !! i = Some (Working (Call (Remove p) kont)) ->
     p = path /\ exists ino fd, kn_paths (sy_kernel s) !! path = Some ino /\ holder_of (sy_kernel s) ino = Some fd /\ kn_files (sy_kernel s) !! fd = Some (MkOpen ino i)) /\
  (forall h, sy_threads s !! i = Some (Inside h) ->
     exists fd ino, kn_files (sy_kernel s) !! fd = Some (MkOpen ino i) /\ holder_of (sy_kernel s) ino = Some fd /\
       forall j fd' h', sy_threads s !! j = Some (Inside h') -> kn_files (sy_kernel s) !! fd' = Some (MkOpen ino j) -> handle_ok path true h' fd' -> i = j).
Proof.
  intros Hk Hr. assert (Hs : in_order path true s) by (eapply in_order_reachable, Hr; [intros; by apply instance_job_safe|by apply idle_in_order]). split.
  - intros p kont Hi. destruct Hs as [_ Hts]. destruct (Hts _ _ Hi) as (v & Hv & (-> & _ & w & n & -> & Hl & Hseen & Hown) & _). split; [done|].
    destruct Hv as (ino & H1 & H2 & H3 & H4 & _). pose proof (H2 _ Hown) as ->. exists ino, (vw_fd w). split; [by apply H4|]. split; [by apply H3|done].
  - intros h Hi. destruct (inside_lock _ _ s i h Hs Hi) as (fd & ino & _ & Hf & Hh & _). exists fd, ino. split; [done|]. split; [done|].
    intros j fd' h' Hj Hf' Hok. destruct (inside_lock _ _ s j h' Hs Hj) as (fd2 & ino2 & Hok2 & Hf2 & Hh2 & _).
    assert (fd2 = fd') as -> by (destruct h'; cbn in Hok, Hok2; [destruct Hok as [_ ->]; destruct Hok2 as [_ ?]; congruence|destruct Hok as [_ ->]; destruct Hok2 as [_ ?]; congruence|congruence]). rewrite Hf' in Hf2. injection Hf2 as <-. rewrite Hh in Hh2. injection Hh2 as <-. congruence.
Qed.

(** ** Traces *)

Lemma run_reachable {C} (job : C -> Z -> prog (option handle)) euid es s0 s s' :
  reachable job euid s0 s -> run_events job euid es s = Some s' -> reachable job euid s0 s'.
Proof.
  revert s. induction es as [|e es IH]; intros s Hs; cbn [run_events]; [by intros [= <-]|].
  destruct (sched_step job euid e s) as [s1|] eqn:E; [|done]. apply IH. by eapply reach_step.
Qed.

(** The next [n] calls of a process, none of which fails. *)
Definition calls {C} (i : Z) (n : nat) : list (event C) := repeat (Go i false 1000 "0123456789abcdef") n.

Definition demo_path : string := "/var/run/tun-proxy.lock".

(** An existing directory and nothing else. *)
Definition demo_kernel : kernel :=
  MkKernel {[ "/var/run" := 1 ]} {[ 1 := MkInode Directory (7 * 64 + 5 * 8 + 5) 0 0 1 "" None ]} ∅ 2.

(** Instance 11 starts and stops; instance 12 opened the lock file before it
    was removed and locks it afterwards; then instance 13 starts. *)
Definition retired_trace : list (event instance_command) :=
  Begin 11 CmdAcquire :: calls 11 8 ++ Begin 12 CmdAcquire :: calls 12 1 ++ Leave 11 false :: calls 11 5 ++ calls 12 7 ++ Begin 13 CmdAcquire :: calls 13 8.

(** The lock of the instance does not exclude a second instance: without
    any failing call, an instance that opened the lock file before its holder
    removed it locks the retired file, and the next instance locks a new one;
    both [Acquire] without an error. *)
Theorem instances_share_lock :
  match run_events (instance_job demo_path 0) 0 retired_trace (MkSystem demo_kernel ∅) with
  | Some s =>
      exists fd fd', sy_threads s !! 12 = Some (Inside (HeldLock (MkLock demo_path (Some fd)))) /\
        sy_threads s !! 13 = Some (Inside (HeldLock (MkLock demo_path (Some fd')))) /\ fd <> fd'
  | None => False
  end.
Proof. vm_compute. exists 4, 6. done. Qed.

(** JSON that only keeps the identifier. *)
#[local] Instance id_json : MetadataJSON := {|
  encode_metadata := fun m => Some (om_ID m);
  decode_metadata := fun s => Some (MkMetadata 1 s OperationStart 1 1 "")
|}.

Definition demo_spec : OperationSpec := MkSpec OperationReload "".

(** Operation 21 begins; operation 22 is refused. *)
Definition demo_operations : list (event OperationSpec) := Begin 21 demo_spec :: calls 21 11 ++ Begin 22 demo_spec :: calls 22 7.

Definition demo_busy : system := default (MkSystem demo_kernel ∅) (run_events (operation_job demo_path 0 (Ok tt)) 0 demo_operations (MkSystem demo_kernel ∅)).

Lemma demo_idle : idle_kernel demo_kernel.
Proof. split; [done|]. split; [by apply map_Forall_singleton|]. apply map_Forall_singleton. cbn. lia. Qed.

Lemma operations_exclusive_witness : exists h, sy_threads demo_busy !! 21 = Some (Inside h) /\ sy_threads demo_busy !! 22 = None /\
  forall j h', sy_threads demo_busy !! j = Some (Inside h') -> 21 = j.
Proof.
  eexists. split; [vm_compute; reflexivity|]. split; [by vm_compute|]. intros j h' Hj.
  eapply (operations_exclusive demo_path 0 0 (Ok tt) demo_kernel demo_busy); [apply demo_idle| | |exact Hj].
  - apply (run_reachable _ _ demo_operations _ (MkSystem demo_kernel ∅)); [constructor|]. vm_compute. reflexivity.
  - vm_compute. reflexivity.
Defined.

(** Instance 11 is about to remove its lock file. *)
Definition demo_stopping : system :=
  default (MkSystem demo_kernel ∅) (run_events (instance_job demo_path 0) 0 (Begin 11 CmdAcquire :: calls 11 8 ++ Leave 11 false :: calls 11 2) (MkSystem demo_kernel ∅)).

Lemma lock_removed_by_holder_witness :
  match sy_threads demo_stopping !! 11 with
  | Some (Working (Call (Remove p) _)) =>
      p = demo_path /\ exists ino fd, kn_paths (sy_kernel demo_stopping) !! demo_path = Some ino /\ holder_of (sy_kernel demo_stopping) ino = Some fd /\
        kn_files (sy_kernel demo_stopping) !! fd = Some (MkOpen ino 11)
  | _ => False
  end.
Proof.
  assert (Hr : reachable (instance_job demo_path 0) 0 (MkSystem demo_kernel ∅) demo_stopping).
  { apply (run_reachable _ _ (Begin 11 CmdAcquire :: calls 11 8 ++ Leave 11 false :: calls 11 2) _ (MkSystem demo_kernel ∅)); [constructor|]. reflexivity. }
  pose proof (proj1 (lock_removed_by_holder demo_path 0 demo_kernel demo_stopping 11 demo_idle Hr)) as H.
  vm_compute in H |- *. eapply H. reflexivity.
Defined.
