(* ===== verification/ServiceCommand.v ===== *)
(** * Component [cmd/tun-proxy]: the service commands

    [service.go] and [paths.go]: starting the service with the configuration
    of the user, reloading it through the control socket with the managed
    configuration replaced and taken back, the checks of sources, and the
    small commands around the manager.  Flags are parsed by the library; what
    the commands print is the list of lines they return.  Reaching the
    supervisor, random bytes and the state file as [system] reads it are
    parameters. *)

From stdpp Require Import pretty.
From S2P Require Import Prelude.
From S2P Require Import GoStrings.
From S2P Require Import GoTime.
From S2P Require Import GoFiles.
From S2P Require Import ConfigTypes.
From S2P Require Import ConfigCompile.
From S2P Require Import Outbound.
From S2P Require Import HostState.
From S2P Require Import RunLoop.
From S2P Require Import Apperror.
From S2P Require Import Privsep.
From S2P Require Import Control.
From S2P Require Import Locks.
From S2P Require Import LaunchLayout.
From S2P Require Import Supervisor.
From S2P Require Import LaunchFiles.
From S2P Require Import LaunchStorage.
From S2P Require Import LaunchManager.
From S2P Require Import LaunchTransactions.

(** ** Paths *)

Definition fallbackConfigPath : string := "./configs/config.yaml".

(** The environment of the user: [SUDO_USER], the effective user, the home
    directories of accounts and of the process. *)
Record user_environment : Type := MkUser { ue_sudo_user : string; ue_euid : Z; ue_lookup : string -> option string; ue_home : option string }.

Definition invokingUserHomeDir (u : user_environment) : option string :=
  let sudoUser := trim_space (ue_sudo_user u) in
  if (ue_euid u =? 0) && negb (bool_decide (sudoUser = "")) && negb (bool_decide (sudoUser = "root"))
  then match ue_lookup u sudoUser with
       | Some home => if bool_decide (trim_space home = "") then ue_home u else Some home
       | None => ue_home u
       end
  else ue_home u.

Definition defaultUserConfigPath (u : user_environment) : string :=
  match invokingUserHomeDir u with
  | Some home => if bool_decide (trim_space home = "") then fallbackConfigPath else clean (home +:+ "/.config/tun-proxy/config.yaml")
  | None => fallbackConfigPath
  end.

(** [filepath.Abs] in a working directory, which may be unknown. *)
Definition Abs (cwd : option string) (path : string) : result app_error string :=
  if is_abs path then Ok (clean path)
  else match cwd with Some d => Ok (clean (d +:+ "/" +:+ path)) | None => Err (Plain "getwd") end.

(** ** Commands and their operations *)

Definition serviceOperationKind (command : string) : option OperationKind :=
  if bool_decide (command = "install") then Some OperationInstall
  else if bool_decide (command = "start") then Some OperationStart
  else if bool_decide (command = "stop") then Some OperationStop
  else if bool_decide (command = "restart") then Some OperationRestart
  else if bool_decide (command = "reload") then Some OperationReload
  else if bool_decide (command = "upgrade") then Some OperationUpgrade
  else if bool_decide (command = "uninstall") then Some OperationUninstall
  else None.

Definition hasOnlyHelpArgument (args : list string) : bool :=
  match args with [arg] => bool_decide (arg ∈ ["-h"; "--help"; "help"]) | _ => false end.

(** Whether [serviceCommand] takes the operation lock, and for what. *)
Definition locked_operation (args : list string) : option OperationKind :=
  match args with
  | command :: rest => if hasOnlyHelpArgument rest then None else serviceOperationKind command
  | [] => None
  end.

Definition serviceLogsHintCommand : string := "sudo tun-proxy service logs".

Definition withServiceLogsHint (err : option app_error) : option app_error :=
  match err with
  | Some e => if contains (error_text e) serviceLogsHintCommand then Some e else Some (Wrapped ("to inspect service logs, run: " +:+ serviceLogsHintCommand) e)
  | None => None
  end.

(** [writeManagedServiceLog] after the timestamp was formatted: the payload. *)
Definition log_payload (timestamp message : string) : string :=
  string_join "" ((fun line => timestamp +:+ " " +:+ line +:+ String (byte 10) "") <$> split_on (byte 10) (trim_suffix message (String (byte 10) ""))).

Definition serviceUpgradeSuccessMessage (restarted : bool) : string :=
  if restarted then "tun-proxy service upgraded and restarted" else "tun-proxy service upgraded; service remains stopped (startup not verified)".

(** [strconv.ParseBool] *)
Definition ParseBool (s : string) : option bool :=
  if bool_decide (s ∈ ["1"; "t"; "T"; "TRUE"; "true"; "True"]) then Some true
  else if bool_decide (s ∈ ["0"; "f"; "F"; "FALSE"; "false"; "False"]) then Some false
  else None.

(** [validateServiceWorkerInvocation] *)
Definition validateServiceWorkerInvocation (args : list string) (resolveIdentity : result app_error Identity) (validateIdentity : Identity -> result app_error unit)
    : result app_error unit :=
  fail_if negb (bool_decide (args = [])) with Plain "_service-worker does not accept arguments" in
  let! identity := resolveIdentity in
  validateIdentity identity.

Section commands.
Context {W : Type} (manager : Manager W) (yaml_decode : string -> option rawConfig) (sha256 : string -> string) (cwd : option string) (user : user_environment)
  (tokens : string -> list xml_token * bool).

Notation A := (act (machine W) app_error).
Notation layout := (mg_Layout manager).

(** ** Sources *)

(** A deferred [Close] whose error is dropped. *)
Definition closing {T} (f : A T) : A T := fun m => let '(r, m) := f m in let '(_, m) := plain m in (r, m).

Definition invalid (message : string) (cause : app_error) : app_error := Wrap CodeConfigInvalid "config.validate" message cause.
Definition unsafe (message : string) (cause : app_error) : app_error := Wrap CodeUnsafeFile "config.validate" message cause.

Definition config_cause (e : config_error) : app_error := Plain "config is invalid".

(** From the opened file on. *)
Definition load_opened (absolute : string) (opened : node) : A (string * string * Config * string) :=
  act! _ := act_wrap (fun e => invalid "configuration file cannot be inspected" (os_wrap "inspect opened source" e)) plain in
  act! _ := act_wrap (fun e => unsafe "configuration source changed while opening" (os_wrap "source changed while opening" e)) plain in
  act! _ := act_wrap (fun e => invalid "configuration file cannot be read" (os_wrap "read source" e)) plain in
  let contents := limited (MaxConfigSize + 1) (nd_data opened) in
  stop_if MaxConfigSize <? slen contents with invalid "configuration file is too large" (Plain "source exceeds the limit") in
  act! loaded := act_of (map_err (fun e => invalid "configuration is invalid" (config_cause e)) (LoadBytesWithDigest yaml_decode sha256 contents)) in
  act! _ := act_of (map_err (fun e => invalid "configuration is invalid for the managed service" (as_app e)) (ValidateManagedConfig loaded.1 DefaultLayout)) in
  act_ret (absolute, contents, loaded.1, loaded.2).

Definition loadValidatedConfigSource (path : string) : A (string * string * Config * string) :=
  act! absolute := act_of (map_err (fun e => invalid "configuration path is invalid" (Wrapped "resolve source path" e)) (Abs cwd path)) in
  act! info := act_wrap (fun e => invalid "configuration file cannot be inspected" (os_wrap "inspect source" e)) (Lstat absolute) in
  stop_if negb (bool_decide (nd_kind info = Regular))
    with unsafe "configuration source must be a regular file and not a symlink" (Plain "source has another mode") in
  act! opened := act_wrap (fun e => invalid "configuration file cannot be opened" (os_wrap "open source" e)) (open_ absolute) in
  closing (load_opened absolute opened).

Definition absoluteRegularSource (path : string) : A string :=
  act! absolute := act_of (map_err (Wrapped "resolve source path") (Abs cwd path)) in
  act! info := act_wrap (os_wrap "inspect source") (Lstat absolute) in
  stop_if negb (bool_decide (nd_kind info = Regular)) with Plain "source must be a regular file, not a symlink" in
  act_ret absolute.

Definition serviceBinarySource (executable : result app_error string) (path : string) : A string :=
  act! path := (if bool_decide (path = "") then act_of (map_err (Wrapped "locate current executable") executable) else act_ret path) in
  absoluteRegularSource path.

Definition validateConfigSource (path : string) : A string :=
  act! loaded := loadValidatedConfigSource path in
  act_ret loaded.1.1.1.

(** [readConfigFile] of [internal/config], and [LoadFile]. *)
Definition readConfigFile (path : string) : A string :=
  act! opened := act_wrap (os_wrap "open config") (open_ path) in
  closing (
    act! _ := act_wrap (os_wrap "inspect config") plain in
    stop_if negb (bool_decide (nd_kind opened = Regular)) with Plain "config is not a regular file" in
    stop_if maxConfigSize <? slen (nd_data opened) with Plain "config exceeds 1 MiB" in
    act! _ := act_wrap (os_wrap "read config") plain in
    act_ret (nd_data opened)).

Definition LoadFile (path : string) : A Config :=
  act! contents := readConfigFile path in
  act! loaded := act_of (map_err config_cause (LoadBytesWithDigest yaml_decode sha256 contents)) in
  act_ret loaded.1.

Definition DigestFile (path : string) : A string :=
  act! contents := readConfigFile path in
  act_ret ("sha256:" +:+ sha256 contents).

(** ** Start *)

(** What the commands of the manager are given and return. *)
Definition synchronize (contents : string) (m : machine W) : result app_error bool * machine W :=
  let '(restarted, (err, _, m)) := SynchronizeConfig manager contents m in
  (match err with Some e => Err e | None => Ok restarted end, m).

Definition started_line (source : string) : string := "tun-proxy service started with synchronized user configuration: " +:+ source.
Definition fallback_lines : list string :=
  ["WARN user configuration could not be synchronized; continuing with the last successfully synchronized managed configuration";
   "tun-proxy service started with the last successfully synchronized managed configuration"].

(** [warnServiceStartFailure] *)
Definition start_failure (es : list (option app_error)) : result app_error (list string) :=
  match withServiceLogsHint (join es) with Some e => Err e | None => Ok [] end.

Definition start_previous (cause : app_error) : machine W -> result app_error (list string) * machine W := fun m =>
  match Start manager m with
  | (Err e, m) => (start_failure [Some cause; Some (Wrapped "start service with last successfully synchronized managed configuration" e)], m)
  | (Ok _, m) => (Ok fallback_lines, m)
  end.

(** [finishServiceStartFailure]; [previous] is the managed configuration as
    it was loaded, when the option asks for it. *)
Definition finishServiceStartFailure (previous : option (result app_error string)) (restorePrevious : bool) (cause : app_error) (m : machine W)
    : result app_error (list string) * machine W :=
  match previous with
  | None => (start_failure [Some cause], m)
  | Some (Err e) => (start_failure [Some cause; Some (Wrapped "validate last successfully synchronized managed configuration" e)], m)
  | Some (Ok contents) =>
      if slen contents =? 0 then (start_failure [Some cause; Some (Plain "last successfully synchronized managed configuration is empty")], m)
      else if restorePrevious then
        match synchronize contents m with
        | (Err e, m) => (start_failure [Some cause; Some (Wrapped "restore last successfully synchronized managed configuration" e)], m)
        | (Ok true, m) => (Ok fallback_lines, m)
        | (Ok false, m) => start_previous cause m
        end
      else start_previous cause m
  end.

(** [serviceStartWithConfigCommand] after its flags. *)
Definition serviceStartWithConfigCommand (useLastConfig : bool) (m : machine W) : result app_error (list string) * machine W :=
  let '(previous, m) :=
    (if useLastConfig then let '(r, m) := loadValidatedConfigSource (ly_Config layout) m in (Some (match r with Ok (_, contents, _, _) => Ok contents | Err e => Err e end), m)
     else (None, m)) in
  let source := defaultUserConfigPath user in
  match loadValidatedConfigSource source m with
  | (Err e, m) => finishServiceStartFailure previous false (Wrapped "validate user configuration before service start" e) m
  | (Ok (_, contents, _, _), m) =>
      match synchronize contents m with
      | (Err e, m) => finishServiceStartFailure previous true (Wrapped "synchronize user configuration before service start" e) m
      | (Ok true, m) => (Ok [started_line source], m)
      | (Ok false, m) =>
          match Start manager m with
          | (Err e, m) => finishServiceStartFailure previous true (Wrapped "start service with synchronized user configuration" e) m
          | (Ok _, m) => (Ok [started_line source], m)
          end
      end
  end.

(** The deferred [withServiceLogsHint]. *)
Definition hinted {T} (f : machine W -> result app_error T * machine W) (m : machine W) : result app_error T * machine W :=
  match f m with
  | (Ok x, m) => (Ok x, m)
  | (Err e, m) => (match withServiceLogsHint (Some e) with Some e => Err e | None => Err e end, m)
  end.

Definition serviceStopCommand (m : machine W) := hinted (act! _ := Stop manager in act_ret ["tun-proxy service stopped and unloaded"]) m.

(** ** Install, upgrade and uninstall *)

Definition of_attempt (r : option app_error * list (option app_error) * machine W) (lines : list string) : result app_error (list string) * machine W :=
  let '(err, _, m) := r in (match err with Some e => Err e | None => Ok lines end, m).

(** [serviceInstallCommand]; the diagnosis of the logs it adds to an error is
    not modelled. *)
Definition serviceInstallCommand (executable : result app_error string) (configPath binaryPath : string) (start startAtBoot : bool) : A (list string) :=
  hinted (
    act! configSource := validateConfigSource configPath in
    act! binarySource := serviceBinarySource executable binaryPath in
    fun m => of_attempt (Install manager binarySource configSource start startAtBoot m)
               [if start then "tun-proxy service installed and started" else "tun-proxy service installed"]).

Definition upgrade_arguments (executable : result app_error string) (binaryPath configPath startAtBootValue : string) : A (string * string * option bool) :=
  act! binarySource := serviceBinarySource executable binaryPath in
  act! configSource := (if bool_decide (configPath = "") then act_ret "" else validateConfigSource configPath) in
  act! startAtBoot := (if bool_decide (startAtBootValue = "") then act_ret None
                       else match ParseBool startAtBootValue with
                            | Some value => act_ret (Some value)
                            | None => act_fail (Plain "service upgrade start-at-boot must be true or false")
                            end) in
  act_ret (binarySource, configSource, startAtBoot).

(** [serviceUpgradeCommand]: only an error of the upgrade gets the hint. *)
Definition serviceUpgradeCommand (executable : result app_error string) (binaryPath configPath startAtBootValue : string) : A (list string) :=
  act! arguments := upgrade_arguments executable binaryPath configPath startAtBootValue in
  hinted (fun m =>
    let '(restarted, r) := Upgrade manager tokens arguments.1.1 arguments.1.2 arguments.2 m in
    of_attempt r [serviceUpgradeSuccessMessage restarted]).

Definition serviceUninstallCommand (purge : bool) (m : machine W) : result app_error (list string) * machine W :=
  of_attempt (Uninstall manager purge m)
    [if purge then "tun-proxy service uninstalled and managed data purged" else "tun-proxy service uninstalled; config, mappings, and logs preserved"].

(** ** Reload *)

Context `{J : ControlJSON}.

(** The world around a reload: 16 random bytes, a try to reach the
    supervisor, the state file, and [ValidateInterfaces] of the host. *)
Context (random : A string) (connect : ReloadRequest -> machine W -> transport * machine W) (read_state : machine W -> result state_error State * machine W)
  (interfaces : option go_error) (operationID : string).

(** [newServiceReloadRequest], with the identifier in the context, if any. *)
Definition newServiceReloadRequest (operationID expectedDigest rollbackOf : string) : A ReloadRequest :=
  act! operationID :=
    (if bool_decide (operationID = "")
     then fun m => let '(bytes, m) := random m in (map_err (Wrapped "generate service operation ID") (NewRequestID bytes), m)
     else act_ret operationID) in
  act! requestID := (fun m => let '(bytes, m) := random m in (map_err (Wrapped "generate reload request ID") (NewRequestID bytes), m)) in
  act_ret (MkReloadRequest Version KindReload requestID operationID rollbackOf expectedDigest).

Definition detail (key value : string) : details := if bool_decide (value = "") then ∅ else {[ key := DString value ]}.

Definition serviceReloadDetails (request : ReloadRequest) (phase : string) : details :=
  detail "operation_id" (rq_OperationID request) ∪ detail "reload_request_id" (rq_RequestID request)
  ∪ detail "rollback_of" (rq_RollbackOf request) ∪ detail "phase" phase.

Definition serviceReloadDigestDetails (request : ReloadRequest) (actualDigest : string) : details :=
  <["expected_config_digest" := DString (rq_ExpectedConfigDigest request)]>
    (<["actual_config_digest" := DString actualDigest]> (serviceReloadDetails request "verify")).

(** A client error as the error that [control.Reload] returns. *)
Definition client_cause (e : client_error) : app_error :=
  match e with
  | TransportError e | Rejected e => e
  | ContextError true => Plain "context deadline exceeded"
  | ContextError false => Plain "context canceled"
  end.

Definition annotateServiceReloadError (e : client_error) (request : ReloadRequest) (phase : string) : app_error :=
  let err := client_cause e in
  let code :=
    if is_deadline err then CodeReloadTimeout
    else if is_none (find_typed err) then CodeReloadRejected
    else CodeOf (Some err) in
  WithDetails (serviceReloadDetails request phase) (Wrap code "service.reload" "supervisor rejected configuration reload" err).

(** What one try means; [None] to try again. *)
Definition reload_outcome (request : ReloadRequest) (r : result client_error ReloadResponse) : option (result app_error ReloadResponse) :=
  match r with
  | Ok response =>
      if bool_decide (rs_Result response = ResultSucceeded) then
        Some (if bool_decide (rs_ConfigDigest response = rq_ExpectedConfigDigest request) then Ok response
              else Err (WithDetails (serviceReloadDigestDetails request (rs_ConfigDigest response))
                          (Wrap CodeReloadDigestMismatch "service.reload" "supervisor activated an unexpected configuration digest" (Plain "got another digest"))))
      else if bool_decide (rs_Result response = ResultRunning) then None
      else Some (Err (WithDetails (serviceReloadDetails request "request")
                        (Wrap CodeServiceProtocolTooOld "service.reload" "supervisor returned an unsupported reload result" (Plain "result"))))
  | Err e => if IsTransportError e then None else Some (Err (annotateServiceReloadError e request "request"))
  end.

Definition reload_timeout (request : ReloadRequest) (reason : string) : app_error :=
  WithDetails (serviceReloadDetails request "request")
    (Wrap CodeReloadTimeout "service.reload" "configuration reload did not complete before the timeout" (Plain reason)).

(** The loop of [requestServiceReload] over what ends its waits; the deadline
    has come when they are used up. *)
Fixpoint request_loop (socket : string) (request : ReloadRequest) (ws : list wake) (m : machine W) : result app_error ReloadResponse * list wake * machine W :=
  let '(t, m) := connect request m in
  match reload_outcome request (Reload socket request t) with
  | Some r => (r, ws, m)
  | None =>
      match ws with
      | [] => (Err (reload_timeout request "context deadline exceeded"), [], m)
      | Deadline :: ws' => (Err (reload_timeout request "context deadline exceeded"), ws', m)
      | Cancelled :: ws' => (Err (reload_timeout request "context canceled"), ws', m)
      | Tick :: ws' => request_loop socket request ws' m
      end
  end.

Definition requestServiceReload (socket : string) (request : ReloadRequest) : A ReloadResponse := fun m =>
  let '(r, ws, m) := request_loop socket request (mc_wakes m) m in (r, set_wakes ws m).

Definition prepareServiceReload (configContents : option string) (expectedDigest : string) : A (ReloadRequest * option ConfigUpdate) :=
  act! request := newServiceReloadRequest operationID expectedDigest "" in
  match configContents with
  | None => act_ret (request, None)
  | Some contents =>
      act! update := act_wrap (Wrapped "synchronize managed configuration") (BeginConfigUpdate manager contents) in
      act_ret (request, Some update)
  end.

(** From the rolled-back file on, under the identifier of the operation that
    is rolled back. *)
Definition restore_runtime (socket operationID rollbackOf : string) : A unit :=
  act! loaded := act_wrap (Wrapped "validate rolled-back managed configuration") (loadValidatedConfigSource (ly_Config layout)) in
  act! request := newServiceReloadRequest operationID loaded.2 rollbackOf in
  act! _ := act_wrap (Wrapped "restore rolled-back configuration in runtime") (requestServiceReload socket request) in
  act_ret tt.

Definition rollbackServiceReloadConfig (update : ConfigUpdate) (socket operationID rollbackOf : string) (m : machine W) : result app_error unit * machine W :=
  let '(e, _, m) := Rollback update m in
  match e with
  | Some e => (Err (Wrapped "roll back managed configuration" e), m)
  | None => restore_runtime socket operationID rollbackOf m
  end.

Definition serviceReloadNotRunningError (phase : string) : app_error :=
  WithDetails {[ "phase" := DString phase ]} (New CodeServiceNotRunning "service.reload" "tun-proxy service is not running").

Definition validateServiceReloadStatus (status : Status) : result app_error unit :=
  if negb (su_Installed status) then Err (New CodeServiceNotInstalled "service.reload" "tun-proxy service is not installed")
  else if is_ready (su_Runtime status) then Ok tt
  else Err (serviceReloadNotRunningError (rs_Phase (su_Runtime status))).

Definition resolveServiceReloadConfigPath (useUserConfig : bool) (configPath : string) : result app_error string :=
  if useUserConfig && negb (bool_decide (configPath = ""))
  then Err (New CodeUsageError "service.reload" "service reload -user-config and -config cannot be used together")
  else if useUserConfig then Ok (defaultUserConfigPath user) else Ok configPath.

Definition read_service_state : A State := fun m =>
  match read_state m with
  | (Ok state, m) => (Ok state, m)
  | (Err StateNotExist, m) => (Err (serviceReloadNotRunningError ""), m)
  | (Err _, m) => (Err (Wrapped "read service state before reload" (Plain "state file")), m)
  end.

(** The contents to install, and the digest to expect. *)
Definition reload_configuration (configPath : string) : A (option string * string) :=
  if bool_decide (configPath = "") then
    act! loaded := act_wrap (Wrapped "validate managed configuration before reload") (loadValidatedConfigSource (ly_Config layout)) in
    act_ret (None, loaded.2)
  else
    act! loaded := act_wrap (Wrapped "validate reload configuration") (loadValidatedConfigSource configPath) in
    act! current := act_wrap (Wrap CodeConfigInvalid "service.reload" "managed configuration is invalid") (LoadFile (ly_Config layout)) in
    act! _ := act_of (map_err (fun e => Wrapped "validate configuration for live reload" (preflight_failure e)) (PreflightReload current loaded.1.2 interfaces)) in
    act_ret (Some loaded.1.1.2, loaded.2).

Definition check_socket (state : State) : result app_error unit :=
  fail_if bool_decide (st_ControlSocket state = "")
    with New CodeServiceProtocolTooOld "service.reload" "running service does not advertise a reload control socket" in
  fail_if negb (bool_decide (st_ControlSocket state = ly_ControlSocket layout))
    with WithDetails {[ "socket_path" := DString (st_ControlSocket state) ]}
           (Wrap CodeUnsafeFile "service.reload" "service state references an unexpected control socket" (Plain "got another socket")) in
  Ok tt.

(** The end of a reload that failed after the file was replaced. *)
Definition reload_failed (request : ReloadRequest) (reloadErr : app_error) (rollback : result app_error unit) : app_error :=
  match rollback with
  | Err rollbackErr =>
      let applyCause := Wrap (CodeOf (Some reloadErr)) "service.reload" "synchronized configuration reload failed" reloadErr in
      let rollbackCause := Wrap (CodeOf (Some rollbackErr)) "service.reload" "failed to restore the rolled-back configuration in the running service" rollbackErr in
      WithDetails (serviceReloadDetails request "rollback")
        (Wrap CodeRollbackIncomplete "service.reload" "configuration reload failed and rollback was incomplete" (join_errors [applyCause; rollbackCause]))
  | Ok _ =>
      WithDetails (serviceReloadDetails request "rollback")
        (Wrap (CodeOf (Some reloadErr)) "service.reload" "configuration reload failed; managed configuration was rolled back" reloadErr)
  end.

Definition reloaded_line (response : ReloadResponse) : string := "tun-proxy service reloaded config=" +:+ rs_ConfigDigest response.

(** From the prepared request on. *)
Definition reload_prepared (socket : string) (request : ReloadRequest) (configUpdate : option ConfigUpdate) (m : machine W) : result app_error (list string) * machine W :=
  match requestServiceReload socket request m with
  | (Err reloadErr, m) =>
      match configUpdate with
      | None => (Err reloadErr, m)
      | Some update =>
          let '(rollback, m) := rollbackServiceReloadConfig update socket (rq_OperationID request) (rq_RequestID request) m in
          (Err (reload_failed request reloadErr rollback), m)
      end
  | (Ok response, m) =>
      match configUpdate with
      | None => (Ok [reloaded_line response], m)
      | Some update =>
          let '(e, _, m) := Commit update m in
          (match e with
           | Some e => Err (Wrapped "configuration reloaded but managed configuration commit cleanup failed" e)
           | None => Ok ["managed configuration synchronized: " +:+ ly_Config layout; reloaded_line response]
           end, m)
      end
  end.

(** [serviceReloadCommand] from the inspection of the service on. *)
Definition reload_service (configPath : string) : A (list string) :=
  act! status := act_wrap (Wrapped "inspect service before reload") (Status_ manager) in
  act! _ := act_of (validateServiceReloadStatus status) in
  act! configuration := reload_configuration configPath in
  act! state := read_service_state in
  act! _ := act_of (check_socket state) in
  act! prepared := prepareServiceReload configuration.1 configuration.2 in
  reload_prepared (st_ControlSocket state) prepared.1 prepared.2.

Definition serviceReloadCommand (timeout : Z) (useUserConfig : bool) (configPath : string) : A (list string) :=
  stop_if timeout <=? 0 with New CodeUsageError "service.reload" "service reload timeout must be positive" in
  act! configPath := act_of (resolveServiceReloadConfigPath useUserConfig configPath) in
  hinted (reload_service configPath).
End commands.
