(* ===== verification/ServiceCommandFacts.v ===== *)
(** * Component [cmd/tun-proxy]: reloads keep the managed configuration consistent

    Whatever fails in a reload, the managed configuration is in the end the
    old one or the new one that the supervisor confirmed, unless the rollback
    is reported as incomplete. *)

From S2P Require Import Prelude.
From S2P Require Import GoStrings.
From S2P Require Import GoFiles.
From S2P Require Import ConfigTypes.
From S2P Require Import ConfigCompile.
From S2P Require Import Outbound.
From S2P Require Import ConfigFacts.
From S2P Require Import HostState.
From S2P Require Import RunLoop.
From S2P Require Import Apperror.
From S2P Require Import Privsep.
From S2P Require Import Control.
From S2P Require Import LaunchLayout.
From S2P Require Import Supervisor.
From S2P Require Import LaunchFiles.
From S2P Require Import LaunchStorage.
From S2P Require Import LaunchManager.
From S2P Require Import LaunchTransactions.
From S2P Require Import LaunchFacts.
From S2P Require Import ServiceCommand.

Section reload.
Context {W : Type} (manager : Manager W) (yaml_decode : string -> option rawConfig) (sha256 : string -> string) (cwd : option string) (user : user_environment).
Context `{J : ControlJSON}.
Context (random : act (machine W) app_error string) (connect : ReloadRequest -> machine W -> transport * machine W)
  (read_state : machine W -> result state_error State * machine W) (interfaces : option go_error) (operationID : string).

Notation layout := (mg_Layout manager).
Notation config := (ly_Config layout).
Notation targets := [config].
Context (sources : list string).

Notation calm := (calm (W := W) targets sources).
Notation leaves := (leaves (W := W) targets sources).

(** The world around a reload leaves the managed configuration, the files
    next to it and the sources alone. *)
Record undisturbed : Prop := {
  un_clean : clean_absolute config = true;
  un_separate : separate targets sources = true;
  un_manager : undisturbing targets sources manager;
  un_random : leaves random;
  un_connect : forall request m, calm m (connect request m).2;
  un_state : forall m, calm m (read_state m).2
}.

Hypothesis Hun : undisturbed.
Let Hsep := un_separate Hun.

Lemma config_target : config ∈ targets.
Proof. by left. Qed.

Lemma calm_config m m' : calm m m' -> mc_fs m' !! config = mc_fs m !! config.
Proof. intros [Hf _ _ _]. apply Hf; [apply reserved_kept, target_reserved, config_target|right; apply config_target]. Qed.

Lemma leaves_closing {T} (f : act (machine W) app_error T) : leaves f -> leaves (closing f).
Proof.
  intros H m. unfold closing. specialize (H m). destruct (f m) as [r m1]. cbn [snd] in H. pose proof (leaves_plain targets sources m1) as H1.
  destruct (plain m1) as [r' m2]. cbn [snd] in *. by rewrite H.
Qed.

Lemma leaves_load_opened absolute opened : leaves (load_opened yaml_decode sha256 absolute opened).
Proof.
  unfold load_opened. do 3 (apply leaves_bind; [apply leaves_wrap, leaves_plain|intros ?]). apply leaves_unless.
  apply leaves_bind; [apply leaves_of|intros ?]. apply leaves_bind; [apply leaves_of|intros ?]. apply leaves_ret.
Qed.

Lemma leaves_load path : leaves (loadValidatedConfigSource yaml_decode sha256 cwd path).
Proof.
  unfold loadValidatedConfigSource. apply leaves_bind; [apply leaves_of|intros ?]. apply leaves_bind; [apply leaves_wrap, leaves_lstat|intros ?].
  apply leaves_unless. apply leaves_bind; [apply leaves_wrap, leaves_lstat|intros ?]. apply leaves_closing, leaves_load_opened.
Qed.

Lemma leaves_LoadFile path : leaves (LoadFile yaml_decode sha256 path).
Proof.
  unfold LoadFile, readConfigFile. apply leaves_bind; [|intros ?; apply leaves_bind; [apply leaves_of|intros ?; apply leaves_ret]].
  apply leaves_bind; [apply leaves_wrap, leaves_lstat|intros ?]. apply leaves_closing. apply leaves_bind; [apply leaves_wrap, leaves_plain|intros ?].
  do 2 apply leaves_unless. apply leaves_bind; [apply leaves_wrap, leaves_plain|intros ?; apply leaves_ret].
Qed.

Lemma leaves_random {T} (f : result app_error string -> result app_error T) : leaves (fun m => let '(bytes, m) := random m in (f bytes, m)).
Proof. intros m. pose proof (un_random Hun m) as H. by destruct (random m). Qed.

Lemma leaves_request operation digest rollbackOf : leaves (newServiceReloadRequest random operation digest rollbackOf).
Proof.
  unfold newServiceReloadRequest. apply leaves_bind; [apply leaves_if; [apply leaves_random|apply leaves_ret]|intros ?].
  apply leaves_bind; [apply leaves_random|intros ?; apply leaves_ret].
Qed.

Lemma calm_loop socket request ws m : calm m (request_loop connect socket request ws m).2.
Proof.
  revert m. induction ws as [|w ws IH]; intros m; cbn [request_loop]; pose proof (un_connect Hun request m) as H; destruct (connect request m) as [t m1]; cbn [snd] in H.
  - by destruct (reload_outcome request _).
  - destruct (reload_outcome request _); [done|]. destruct w; [|done|done]. rewrite H. apply IH.
Qed.

Lemma leaves_reload socket request : leaves (requestServiceReload connect socket request).
Proof.
  intros m. unfold requestServiceReload. pose proof (calm_loop socket request (mc_wakes m) m) as H. destruct (request_loop _ _ _ _ m) as [[r ws] m1]. cbn [snd] in *.
  rewrite H. apply calm_wakes.
Qed.

Lemma leaves_restore_runtime socket operation rollbackOf :
  leaves (restore_runtime manager yaml_decode sha256 cwd random connect socket operation rollbackOf).
Proof.
  unfold restore_runtime. apply leaves_bind; [apply leaves_wrap, leaves_load|intros ?]. apply leaves_bind; [apply leaves_request|intros ?].
  apply leaves_bind; [apply leaves_wrap, leaves_reload|intros ?; apply leaves_ret].
Qed.

Lemma leaves_state : leaves (read_service_state read_state).
Proof. intros m. unfold read_service_state. pose proof (un_state Hun m) as H. by destruct (read_state m) as [[s|[]] m1]. Qed.

Lemma leaves_validate_entry path mode d identity : leaves (validate_entry (W := W) path mode d identity).
Proof.
  intros m. unfold validate_entry. pose proof (leaves_lstat targets sources path m) as H. destruct (Lstat path m) as [[info|e] m1]; cbn [snd] in H.
  - rewrite H. do 2 apply leaves_unless. apply leaves_ret.
  - by destruct e.
Qed.

Lemma leaves_worker_directory path mode identity : leaves (validateWorkerDirectory (W := W) path mode identity).
Proof. unfold validateWorkerDirectory. apply leaves_bind; [apply leaves_wrap, leaves_lstat|intros ?]. do 2 apply leaves_unless. apply leaves_ret. Qed.

Lemma leaves_status : leaves (Status_ manager).
Proof.
  pose proof (un_manager Hun) as Hq. unfold Status_. apply leaves_bind; [apply leaves_validate|intros ?]. apply leaves_bind; [apply leaves_root|intros ?].
  apply leaves_bind; [apply leaves_installed_loop|intros ?]. apply leaves_bind.
  - apply leaves_if; [|apply leaves_ret]. apply leaves_bind; [apply leaves_wrap, Hq|intros identity]. unfold validateWorkerStorage.
    apply leaves_bind; [apply leaves_of|intros ?]. apply leaves_bind; [apply leaves_worker_directory|intros ?].
    apply leaves_bind; [apply leaves_if; [apply leaves_worker_directory|apply leaves_validate_entry]|intros ?].
    apply leaves_bind; [apply leaves_validate_entry|intros ?]. apply leaves_validate_entry.
  - intros ?. apply leaves_bind; [apply Hq|intros ?]. apply leaves_bind; [by apply leaves_loaded|intros ?; apply leaves_ret].
Qed.

Lemma leaves_configuration configPath : leaves (reload_configuration manager yaml_decode sha256 cwd interfaces configPath).
Proof.
  unfold reload_configuration. apply leaves_if.
  - apply leaves_bind; [apply leaves_wrap, leaves_load|intros ?; apply leaves_ret].
  - apply leaves_bind; [apply leaves_wrap, leaves_load|intros ?]. apply leaves_bind; [apply leaves_wrap, leaves_LoadFile|intros ?].
    apply leaves_bind; [apply leaves_of|intros ?; apply leaves_ret].
Qed.

(** ** Loading, and the files before and after *)

Lemma length_stake n s : (n <= String.length s)%nat -> String.length (stake n s) = n.
Proof. revert n. induction s as [|c s IH]; intros [|n] Hn; cbn in *; [done|lia|done|]. by rewrite IH by lia. Qed.

Lemma limited_all n s : 0 < n -> slen (limited n s) < n -> limited n s = s.
Proof.
  unfold limited. intros Hp. destruct (Z.leb_spec (slen s) n) as [|Hn]; [done|]. intros H. exfalso. unfold slen in *. rewrite length_stake in H by lia. lia.
Qed.

(** A source that is loaded is a file whose contents have the digest. *)
Lemma load_spec path (m m' : machine W) loaded : loadValidatedConfigSource yaml_decode sha256 cwd path m = (Ok loaded, m') ->
  exists absolute n, Abs cwd path = Ok absolute /\ mc_fs m !! absolute = Some n /\ nd_kind n = Regular /\ loaded.1.1.2 = nd_data n /\
    loaded.2 = "sha256:" +:+ sha256 (nd_data n).
Proof.
  unfold loadValidatedConfigSource. intros H. apply act_bind_Ok in H as (absolute & m1 & H1 & H). unfold act_of in H1.
  destruct (Abs cwd path) as [abs|e] eqn:Ea; cbn [map_err] in H1; [|done]. injection H1 as -> ->.
  apply act_bind_Ok in H as (info & m2 & H2 & H). apply act_wrap_Ok', lstat_spec in H2 as (F2 & _ & _ & L2). apply act_unless_Ok in H as [Hk H].
  apply negb_false_iff, bool_decide_eq_true in Hk. apply act_bind_Ok in H as (opened & m3 & H3 & H). apply act_wrap_Ok', lstat_spec in H3 as (F3 & _ & _ & L3).
  rewrite F2, L2 in L3. injection L3 as <-. exists absolute, info. split; [done|]. split; [done|]. split; [done|].
  unfold closing in H. destruct (load_opened yaml_decode sha256 absolute info m3) as [r m4] eqn:El. destruct (plain m4) as [r' m5]. injection H as -> _.
  unfold load_opened in El. apply act_bind_Ok in El as (? & ? & _ & El). apply act_bind_Ok in El as (? & ? & _ & El). apply act_bind_Ok in El as (? & ? & _ & El).
  apply act_unless_Ok in El as [Hs El]. apply Z.ltb_ge in Hs. apply act_bind_Ok in El as ([cfg digest] & ? & Hd & El). apply act_bind_Ok in El as (? & ? & _ & El).
  injection El as <- _. assert (Hall : limited (MaxConfigSize + 1) (nd_data info) = nd_data info) by (apply limited_all; [done|lia]). rewrite Hall in *. cbn [fst snd]. split; [done|]. unfold act_of in Hd. injection Hd as Hd _. apply map_err_Ok in Hd.
  unfold LoadBytesWithDigest in Hd. inv_result. congruence.
Qed.

(** The managed configuration was replaced by a file with these contents,
    and the old file is kept. *)
Definition begun (m0 m : machine W) (contents : string) (update : ConfigUpdate) : Prop :=
  cu_finalized update = false /\ rp_target (cu_replacement update) = config /\ keeps_old targets (mc_fs m0) (mc_fs m) (cu_replacement update) /\
  exists uid gid, mc_fs m !! config = Some (MkNode Regular mode_0600 uid gid contents).

Lemma begun_calm m0 m m' contents update : calm m m' -> begun m0 m contents update -> begun m0 m' contents update.
Proof.
  intros Hc (H1 & H2 & H3 & uid & gid & H4). split; [done|]. split; [done|]. split; [|exists uid, gid; by rewrite (calm_config _ _ Hc)].
  eapply keeps_old_frame; [|exact H3]. intros p Hs Hp. apply (cm_frame _ _ _ _ Hc); [|by left]. destruct H3 as (_ & _ & H3). rewrite <- Hp in H3. apply reserved_kept. by destruct H3.
Qed.

Lemma begun_old m0 m0' m contents update : mc_fs m0' !! config = mc_fs m0 !! config -> begun m0' m contents update -> begun m0 m contents update.
Proof.
  intros Heq (H1 & H2 & (K1 & K2 & K3) & H4). split; [done|]. split; [done|]. split; [|done]. split; [done|]. split; [done|]. rewrite H2 in *. by rewrite <- Heq.
Qed.

Lemma begin_spec contents (m : machine W) r m' : dirs_exist targets (mc_fs m) -> (faults m <= 1)%nat -> BeginConfigUpdate manager contents m = (r, m') ->
  match r with Ok update => begun m m' contents update | Err _ => mc_fs m' !! config = mc_fs m !! config end.
Proof.
  intros Hd Hn. unfold BeginConfigUpdate, act_bind at 1. pose proof (leaves_require targets sources manager m) as C1.
  destruct (require_installed manager m) as [[u|e] m1]; cbn [snd] in C1; [|intros [= <- <-]; by apply calm_config].
  assert (C2 : calm m1 (check_contents contents m1).2) by (unfold check_contents; do 2 apply leaves_unless; apply leaves_ret).
  unfold act_bind at 1. destruct (check_contents contents m1) as [[u'|e] m2]; cbn [snd] in C2; [|intros [= <- <-]; apply calm_config; by rewrite C1].
  unfold act_bind. destruct (stageContents contents config mode_0600 m2) as [r3 m3] eqn:E3.
  apply (stageContents_spec targets sources Hsep) in E3 as [C3 E3]; [|apply config_target]. assert (C : calm m m3) by (by rewrite C1, C2).
  destruct r3 as [stage|e]; [|intros [= <- <-]; by apply calm_config]. destruct E3 as ([Hr Ho _] & gid & Hs).
  destruct (activateStage stage config false m3) as [r4 m4] eqn:E4.
  apply (activateStage_spec targets sources Hsep stage config false (MkNode Regular mode_0600 (mc_uid m2) gid contents)) in E4 as (_ & _ & O4 & E4);
    [|apply config_target|by split|by apply C|pose proof (cm_faults _ _ _ _ C); lia].
  pose proof (touches_dropped stage (Remove stage) (touches_remove stage) m4) as (T & _). unfold remove_stage. destruct (dropped (Remove stage) m4) as [u5 m5]. cbn [snd] in T.
  intros [= <- <-]. assert (Hne : config <> stage) by (intros <-; apply Ho, config_target). destruct r4 as [rp|e].
  - destruct E4 as (Ht & [Ha Hb] & Hnew). apply (begun_old m m3); [by apply calm_config|]. split; [done|]. cbn [cu_replacement]. split; [done|]. split.
    + split; [rewrite Ht; apply config_target|]. split; [done|]. destruct (rp_backup rp) as [b|]; [|done]. destruct Hb as ([B1 B2 B3] & B4 & B5).
      split; [done|]. split; [done|]. split; [|done]. rewrite T; [done|]. intros ->. congruence.
    + exists (mc_uid m2), gid. by rewrite T.
  - rewrite T, E4 by done. by apply calm_config.
Qed.

(** ** From the request on *)

(** What a reload leaves behind; [m0] is the machine at the start, [planned]
    the new contents if there are any. *)
Definition kept_or_new (m0 : machine W) (planned : option string) (digest : string) (r : result app_error (list string)) (m : machine W) : Prop :=
  let installed contents := exists uid gid, mc_fs m !! config = Some (MkNode Regular mode_0600 uid gid contents) in
  match r with
  | Ok lines =>
      last lines = Some ("tun-proxy service reloaded config=" +:+ digest) /\
      match planned with Some contents => installed contents | None => mc_fs m !! config = mc_fs m0 !! config end
  | Err e =>
      mc_fs m !! config = mc_fs m0 !! config \/ CodeOf (Some e) = CodeRollbackIncomplete \/
      exists contents cause, planned = Some contents /\ installed contents /\ e = Wrapped "configuration reloaded but managed configuration commit cleanup failed" cause
  end.

Lemma loop_digest socket request ws m response ws' m' : request_loop connect socket request ws m = (Ok response, ws', m') ->
  rs_ConfigDigest response = rq_ExpectedConfigDigest request.
Proof.
  revert m. induction ws as [|w ws IH]; intros m; cbn [request_loop]; destruct (connect request m) as [t m1]; destruct (reload_outcome request _) as [r|] eqn:E.
  all: try (intros [= -> _ _]; revert E; unfold reload_outcome; destruct (Reload socket request t) as [a|e]; [|by destruct (IsTransportError e)];
            case_bool_decide; [|by case_bool_decide]; case_bool_decide; [|done]; by intros [= <-]).
  - done.
  - destruct w; [apply IH|done|done].
Qed.

Lemma prepared_spec m0 socket request update planned (m : machine W) r m' :
  match update, planned with
  | Some u, Some contents => begun m0 m contents u
  | None, None => mc_fs m !! config = mc_fs m0 !! config
  | _, _ => False
  end ->
  reload_prepared manager yaml_decode sha256 cwd random connect socket request update m = (r, m') ->
  kept_or_new m0 planned (rq_ExpectedConfigDigest request) r m'.
Proof.
  intros Hu. unfold reload_prepared. pose proof (leaves_reload socket request m) as C1.
  destruct (requestServiceReload connect socket request m) as [[response|reloadErr] m1] eqn:E1; cbn [snd] in C1.
  - assert (Hd : rs_ConfigDigest response = rq_ExpectedConfigDigest request).
    { unfold requestServiceReload in E1. destruct (request_loop _ _ _ _ m) as [[r1 ws] m2] eqn:El. injection E1 as -> _. by eapply loop_digest. }
    destruct update as [u|], planned as [contents|]; try done.
    + apply (begun_calm _ _ _ _ _ C1) in Hu as (Hfin & Ht & Hold & uid & gid & Hnew). unfold Commit, finalize. rewrite Hfin.
      destruct (commit_replacement (cu_replacement u) m1) as [[e rp] m2] eqn:Ec. apply commit_replacement_spec in Ec as (O & _).
      assert (Hin : mc_fs m2 !! config = Some (MkNode Regular mode_0600 uid gid contents)).
      { rewrite O; [done|]. intros Hb. apply (keeps_old_backup _ _ _ _ _ Hold (eq_sym Hb)). apply config_target. }
      destruct e as [e|]; intros [= <- <-].
      * right. right. exists contents, e. split; [done|]. split; [by exists uid, gid|done].
      * split; [cbn; unfold reloaded_line; by rewrite Hd|by exists uid, gid].
    + intros [= <- <-]. split; [cbn; unfold reloaded_line; by rewrite Hd|]. by rewrite (calm_config _ _ C1).
  - destruct update as [u|], planned as [contents|]; try done.
    + apply (begun_calm _ _ _ _ _ C1) in Hu as (Hfin & Ht & Hold & _). unfold rollbackServiceReloadConfig, Rollback, finalize. rewrite Hfin.
      destruct (rollback_replacement (cu_replacement u) m1) as [[e rp] m2] eqn:Er. apply (rollback_replacement_spec targets (mc_fs m0)) in Er as (_ & _ & _ & Hback); [|done].
      destruct e as [e|]; [intros [= <- <-]; right; by left|]. pose proof (leaves_restore_runtime socket (rq_OperationID request) (rq_RequestID request) m2) as C2.
      destruct (restore_runtime _ _ _ _ _ _ _ _ _ m2) as [[[]|e] m3]; cbn [snd] in C2; intros [= <- <-]; [|right; by left].
      left. rewrite (calm_config _ _ C2), <- Ht. by apply Hback.
    + intros [= <- <-]. left. by rewrite (calm_config _ _ C1).
Qed.
(** ** The command *)

(** The new contents, if the command was given a source. *)
Definition from_source (m : machine W) (useUserConfig : bool) (configPath contents : string) : Prop :=
  exists p absolute, resolveServiceReloadConfigPath user useUserConfig configPath = Ok p /\ Abs cwd p = Ok absolute /\
    forall source, mc_fs m !! absolute = Some source -> nd_data source = contents.

(** Success means that the printed digest is that of the managed
    configuration, which is the old one or the one of the source; after a
    failure it is the old one, unless the error says so. *)
Definition consistent (m : machine W) (useUserConfig : bool) (configPath : string) (x : result app_error (list string) * machine W) : Prop :=
  let before := mc_fs m !! config in
  let after := mc_fs x.2 !! config in
  match x.1 with
  | Ok lines =>
      exists n, after = Some n /\ last lines = Some ("tun-proxy service reloaded config=sha256:" +:+ sha256 (nd_data n)) /\
        (after = before \/ nd_perm n = mode_0600 /\ from_source m useUserConfig configPath (nd_data n))
  | Err e =>
      after = before \/ CodeOf (Some e) = CodeRollbackIncomplete \/
      exists n cause, after = Some n /\ from_source m useUserConfig configPath (nd_data n) /\
        e = Wrapped ("to inspect service logs, run: " +:+ serviceLogsHintCommand) (Wrapped "configuration reloaded but managed configuration commit cleanup failed" cause)
  end.

Lemma bind_leaves {T B} (f : act (machine W) app_error T) (g : T -> act (machine W) app_error B) (P : result app_error B * machine W -> Prop) m :
  leaves f -> (forall a m1, f m = (Ok a, m1) -> calm m m1 -> P (g a m1)) -> (forall e m1, calm m m1 -> P (Err e, m1)) -> P (act_bind f g m).
Proof. intros Hf Hok Herr. unfold act_bind. specialize (Hf m). destruct (f m) as [[a|e] m1]; cbn [snd] in Hf; [by apply Hok|by apply Herr]. Qed.

(** What the configuration to reload comes from. *)
Lemma configuration_spec configPath (m m' : machine W) planned digest : reload_configuration manager yaml_decode sha256 cwd interfaces configPath m = (Ok (planned, digest), m') ->
  match planned with
  | Some contents => digest = "sha256:" +:+ sha256 contents /\ exists absolute n, Abs cwd configPath = Ok absolute /\ mc_fs m !! absolute = Some n /\ nd_data n = contents
  | None => exists n, mc_fs m !! config = Some n /\ digest = "sha256:" +:+ sha256 (nd_data n)
  end.
Proof.
  unfold reload_configuration. destruct (bool_decide (configPath = "")); intros H; apply act_bind_Ok in H as (loaded & m1 & H1 & H); apply act_wrap_Ok', load_spec in H1 as (absolute & n & Ha & Hl & _ & Hc & Hd).
  - injection H as <- <- _. exists n. split; [|done]. unfold Abs in Ha. pose proof (un_clean Hun) as [H1 H2]%andb_true_iff. rewrite H1 in Ha.
    injection Ha as <-. apply bool_decide_eq_true in H2. by rewrite H2 in Hl.
  - apply act_bind_Ok in H as (? & ? & _ & H). apply act_bind_Ok in H as (? & ? & _ & H). injection H as <- <- _. split; [congruence|]. by exists absolute, n.
Qed.

(** How the service part ends. *)
Definition ends (m0 : machine W) (useUserConfig : bool) (configPath : string) (x : result app_error (list string) * machine W) : Prop :=
  (exists e, x.1 = Err e /\ mc_fs x.2 !! config = mc_fs m0 !! config) \/
  exists planned digest, kept_or_new m0 planned digest x.1 x.2 /\
    match planned with
    | Some contents => digest = "sha256:" +:+ sha256 contents /\ from_source m0 useUserConfig configPath contents
    | None => exists n, mc_fs m0 !! config = Some n /\ digest = "sha256:" +:+ sha256 (nd_data n)
    end.

Lemma request_digest digest rollbackOf (m m' : machine W) request : newServiceReloadRequest random operationID digest rollbackOf m = (Ok request, m') ->
  rq_ExpectedConfigDigest request = digest.
Proof. unfold newServiceReloadRequest. intros H. apply act_bind_Ok in H as (? & ? & _ & H). apply act_bind_Ok in H as (? & ? & _ & H). by injection H as <- _. Qed.

(** From the state file on. *)
Lemma reload_begin_spec m0 (m : machine W) useUserConfig configPath socket planned digest : calm m0 m -> dirs_exist targets (mc_fs m0) -> (faults m0 <= 1)%nat ->
  match planned with
  | Some contents => digest = "sha256:" +:+ sha256 contents /\ from_source m0 useUserConfig configPath contents
  | None => exists n, mc_fs m0 !! config = Some n /\ digest = "sha256:" +:+ sha256 (nd_data n)
  end ->
  ends m0 useUserConfig configPath
    ((act! prepared := prepareServiceReload manager random operationID planned digest in
      reload_prepared manager yaml_decode sha256 cwd random connect socket prepared.1 prepared.2) m).
Proof.
  intros C0 Hd Hn Hp. unfold prepareServiceReload, act_bind at 1 2. pose proof (leaves_request operationID digest "" m) as C1.
  destruct (newServiceReloadRequest random operationID digest "" m) as [[request|e] m1] eqn:E1; cbn [snd] in C1; [|left; exists e; split; [done|]; apply calm_config; by rewrite C0].
  apply request_digest in E1. assert (C : calm m0 m1) by (by rewrite C0).
  destruct planned as [contents|]; unfold act_bind, act_wrap; cbn [act_ret].
  - destruct (BeginConfigUpdate manager contents m1) as [r2 m2] eqn:E2.
    apply begin_spec in E2; [|by apply C|pose proof (cm_faults _ _ _ _ C); lia]. destruct r2 as [update|e]; [|left; eexists; split; [done|]; cbn; by rewrite E2; apply calm_config].
    right. exists (Some contents), digest. split; [|done]. unfold act_ret; cbn [fst snd]. destruct (reload_prepared manager yaml_decode sha256 cwd random connect socket request (Some update) m2) as [r m'] eqn:E. rewrite <- E1.
    eapply prepared_spec; [|exact E]. apply (begun_old m0 m1); [by apply calm_config|done].
  - right. exists None, digest. split; [|done]. unfold act_ret; cbn [fst snd]. destruct (reload_prepared manager yaml_decode sha256 cwd random connect socket request None m1) as [r m'] eqn:E. rewrite <- E1.
    eapply prepared_spec; [|exact E]. by apply calm_config.
Qed.

Lemma reload_service_spec (m : machine W) configPath useUserConfig path : dirs_exist targets (mc_fs m) -> (faults m <= 1)%nat ->
  resolveServiceReloadConfigPath user useUserConfig configPath = Ok path -> (forall absolute, Abs cwd path = Ok absolute -> absolute ∈ sources) ->
  ends m useUserConfig configPath (reload_service manager yaml_decode sha256 cwd random connect read_state interfaces operationID path m).
Proof.
  intros Hd Hn Hres Hsrc. assert (Hfail : forall e m1, calm m m1 -> ends m useUserConfig configPath (Err e, m1)).
  { intros e m1 C. left. exists e. split; [done|]. by apply calm_config. }
  unfold reload_service. apply bind_leaves; [apply leaves_wrap, leaves_status| |done]. intros status m1 _ C1.
  apply bind_leaves; [apply leaves_of| |by intros e m2 C2; apply Hfail; rewrite C1]. intros u m2 _ C2.
  apply bind_leaves; [apply leaves_configuration| |by intros e m3 C3; apply Hfail; rewrite C1, C2]. intros [planned digest] m3 E3 C3.
  apply configuration_spec in E3. assert (C : calm m m2) by (by rewrite C1).
  apply bind_leaves; [apply leaves_state| |by intros e m4 C4; apply Hfail; rewrite C, C3]. intros state m4 _ C4.
  apply bind_leaves; [apply leaves_of| |by intros e m5 C5; apply Hfail; rewrite C, C3, C4]. intros u' m5 _ C5.
  apply reload_begin_spec; [by rewrite C, C3, C4|done|done|]. destruct planned as [contents|].
  - destruct E3 as (-> & absolute & n & Ha & Hl & <-). split; [done|]. exists path, absolute. split; [done|]. split; [done|]. intros source Hs.
    cut (mc_fs m2 !! absolute = mc_fs m !! absolute); [congruence|]. apply (cm_frame _ _ _ _ C); [|left; by eexists].
    unfold kept. apply orb_true_iff. right. by apply bool_decide_eq_true, Hsrc.
  - by rewrite <- (calm_config _ _ C).
Qed.

Lemma CodeOf_wrapped t e : CodeOf (Some e) = CodeRollbackIncomplete -> CodeOf (Some (Wrapped t e)) = CodeRollbackIncomplete.
Proof. unfold CodeOf. destruct (joined_children e) eqn:E; [done|]. by destruct e. Qed.

Lemma hint_code e e' : withServiceLogsHint (Some e) = Some e' -> e' = e \/ e' = Wrapped ("to inspect service logs, run: " +:+ serviceLogsHintCommand) e.
Proof. unfold withServiceLogsHint. destruct (contains _ _); intros [= <-]; [by left|by right]. Qed.
End reload.

(** C6: A reload of the running service is consistent.  When it succeeds,
    the digest that is printed, which the supervisor confirmed, is that of
    the managed configuration, and that is the old one or the one of the
    source.  When it fails, in whatever call, and at most one call on the files
    failed, the managed configuration is the old one, unless the error is
    [ROLLBACK_INCOMPLETE] or says that only removing the backup of the
    confirmed configuration failed.  With two failing calls on the files this
    is false, as the code drops the error of putting back the backup
    ([reload_loses_configuration]). *)
Theorem service_reload_consistent {W} (manager : Manager W) yaml_decode sha256 cwd user `{J : ControlJSON} random connect read_state interfaces operationID sources
    timeout useUserConfig configPath m :
  undisturbed manager random connect read_state sources ->
  dirs_exist [ly_Config (mg_Layout manager)] (mc_fs m) -> (faults m <= 1)%nat ->
  (forall path absolute, resolveServiceReloadConfigPath user useUserConfig configPath = Ok path -> Abs cwd path = Ok absolute -> absolute ∈ sources) ->
  consistent manager sha256 cwd user m useUserConfig configPath
    (serviceReloadCommand manager yaml_decode sha256 cwd user random connect read_state interfaces operationID timeout useUserConfig configPath m).
Proof.
  intros Hun Hd Hn Hsrc. unfold serviceReloadCommand, act_unless, act_bind, act_of. destruct (timeout <=? 0); [by left|].
  destruct (resolveServiceReloadConfigPath user useUserConfig configPath) as [path|e] eqn:Hres; [|by left].
  pose proof (reload_service_spec manager yaml_decode sha256 cwd user random connect read_state interfaces operationID sources Hun m configPath useUserConfig path Hd Hn Hres
    (fun absolute => Hsrc path absolute eq_refl)) as H.
  unfold hinted. destruct (reload_service _ _ _ _ _ _ _ _ _ _ m) as [r m'].
  destruct r as [lines|e].
  - destruct H as [(e & H & _)|(planned & digest & (Hl & Hk) & Hp)]; [done|]. destruct planned as [contents|].
    + destruct Hp as [-> Hp]. destruct Hk as (uid & gid & Hk). exists (MkNode Regular mode_0600 uid gid contents). split; [done|]. split; [exact Hl|]. right. by split.
    + destruct Hp as (n & Hold & ->). exists n. cbn [fst snd] in *. split; [congruence|]. split; [exact Hl|]. by left.
  - destruct (withServiceLogsHint (Some e)) as [e'|] eqn:Eh; [|by unfold withServiceLogsHint in Eh; destruct (contains _ _)].
    assert (Hcase : mc_fs m' !! ly_Config (mg_Layout manager) = mc_fs m !! ly_Config (mg_Layout manager) \/ CodeOf (Some e) = CodeRollbackIncomplete \/
      exists n cause, mc_fs m' !! ly_Config (mg_Layout manager) = Some n /\ from_source cwd user m useUserConfig configPath (nd_data n) /\
        e = Wrapped "configuration reloaded but managed configuration commit cleanup failed" cause).
    { destruct H as [(e1 & _ & H)|(planned & digest & [H|[H|(contents & cause & -> & (uid & gid & Hk) & ->)]] & Hp)]; [by left|by left|by right; left|].
      right. right. exists (MkNode Regular mode_0600 uid gid contents), cause. split; [done|]. split; [apply Hp|done]. }
    destruct Hcase as [Hc|[Hc|(n & cause & Hn' & Hs & ->)]]; [by left| |].
    + right. left. cbn [fst]. destruct (hint_code _ _ Eh) as [->| ->]; [done|by apply CodeOf_wrapped].
    + right. right. exists n, cause. split; [done|]. split; [done|]. cbn [fst]. vm_compute in Eh. by injection Eh as <-.
Qed.

(** ** A reload that the supervisor refuses *)

Definition a_digest (contents : string) : string :=
  if bool_decide (contents = "next") then "aaaaaaaaaaaaaaaaaaaaaaaaaaaaaaaaaaaaaaaaaaaaaaaaaaaaaaaaaaaaaaaa"
  else "bbbbbbbbbbbbbbbbbbbbbbbbbbbbbbbbbbbbbbbbbbbbbbbbbbbbbbbbbbbbbbbb".

Definition worker_directory : node := MkNode Directory mode_0700 450 450 "".
Definition root_directory : node := MkNode Directory mode_0755 0 0 "".

(** The installed service, and a source; the rest counts the random numbers. *)
Definition a_service_host : machine Z := MkMachine
  (<["/home/config" := MkNode Regular mode_0600 501 20 "next"]>
     (<[ly_Config DefaultLayout := MkNode Regular mode_0600 0 0 "previous"]>
        (<[ly_Binary DefaultLayout := MkNode Regular mode_0755 0 0 "program"]>
           (<[ly_Plist DefaultLayout := MkNode Regular mode_0644 0 0 "manifest"]>
              (<[ly_WorkerDir DefaultLayout := worker_directory]> (<[ly_DataDir DefaultLayout := worker_directory]>
                 {[ dir (ly_Config DefaultLayout) := root_directory ]}))))))
  [] ["a"; "b"; "c"] 0 18 [] 97.

Definition a_service_manager : Manager Z := MkManager Z DefaultLayout (fun _ _ => act_ret "")
  (MkAccounts _ (act_ret (MkIdentity "_tun-proxy" "_tun-proxy" 450 450 "/var/empty", false)) (act_ret (MkIdentity "_tun-proxy" "_tun-proxy" 450 450 "/var/empty")) (act_ret tt))
  0 (act_ret (MkRuntimeState true 77 "running")) None 0 100 20000 50000.

Definition a_random : act (machine Z) app_error string := fun m =>
  (Ok (string_join "" (repeat (String (byte (mc_rest m)) "") 16)),
   MkMachine (mc_fs m) (mc_outcomes m) (mc_names m) (mc_uid m) (mc_umask m) (mc_wakes m) (mc_rest m + 1)).

Definition an_id (c : Z) : string := hex_encode (string_join "" (repeat (String (byte c) "") 16)).

(** The supervisor refuses the new digest and confirms the old one. *)
#[local] Instance refusing_json : ControlJSON := {|
  encode_request := fun _ => Some "request";
  decode_request := fun _ => Err (Plain "json");
  encode_response := fun _ => None;
  decode_response := fun s =>
    Ok (if bool_decide (s = "no")
        then MkReloadResponse Version KindReloadResult (an_id 97) ResultFailed "" 1 2 (Some (InfoOf (Some (New CodeReloadRejected "service.reload" "refused"))))
        else MkReloadResponse Version KindReloadResult (an_id 98) ResultSucceeded ("sha256:" +:+ a_digest "previous") 1 2 None);
  encode_info := fun _ => Some "{}"
|}.

Definition a_connection (request : ReloadRequest) (m : machine Z) : transport * machine Z :=
  (MkTransport SocketSafe false false
     (MkStream ((if bool_decide (rq_ExpectedConfigDigest request = "sha256:" +:+ a_digest "next") then "no" else "yes") +:+ String (byte 10) "") false) None, m).

Definition a_service_state (m : machine Z) : result state_error State * machine Z := (Ok (MkState 1 77 1000 "" "running" "" "" "" (ly_ControlSocket DefaultLayout) None [] []), m).

Definition a_reload : result app_error (list string) * machine Z :=
  serviceReloadCommand a_service_manager (fun _ => Some (demo_raw "" "" "")) a_digest None (MkUser "" 0 (fun _ => None) None) a_random a_connection a_service_state None
    "0123456789abcdef0123456789abcdef" 15000 false "/home/config" a_service_host.

Lemma a_service_undisturbed : undisturbed a_service_manager a_random a_connection a_service_state ["/home/config"].
Proof. split; [done|by vm_compute| | | |]; try (by intros m); try (by intros request m). split; by intros. Qed.

(** The old configuration is back and runs, and the refusal is reported. *)
Lemma service_reload_consistent_witness :
  match a_reload.1 with Err e => CodeOf (Some e) = CodeReloadRejected | Ok _ => False end /\
  nd_data <$> mc_fs a_reload.2 !! ly_Config DefaultLayout = Some "previous" /\
  consistent a_service_manager a_digest None (MkUser "" 0 (fun _ => None) None) a_service_host false "/home/config" a_reload.
Proof.
  split; [by vm_compute|]. split; [by vm_compute|].
  refine (service_reload_consistent a_service_manager (fun _ => Some (demo_raw "" "" "")) a_digest None (MkUser "" 0 (fun _ => None) None) a_random a_connection
    a_service_state None "0123456789abcdef0123456789abcdef" ["/home/config"] 15000 false "/home/config" a_service_host a_service_undisturbed _ _ _).
  - intros t ->%list_elem_of_singleton. vm_compute. by eexists.
  - vm_compute. lia.
  - intros path absolute Hp Ha. vm_compute in Hp. injection Hp as <-. vm_compute in Ha. injection Ha as <-. by left.
Defined.

(** Two failing calls, the rename that activates the new configuration and the
    one that puts the backup back: the managed configuration is gone, and the
    error says neither. *)
Definition a_failing_reload (outcomes : list outcome) : result app_error (list string) * machine Z :=
  serviceReloadCommand a_service_manager (fun _ => Some (demo_raw "" "" "")) a_digest None (MkUser "" 0 (fun _ => None) None) a_random a_connection a_service_state None
    "0123456789abcdef0123456789abcdef" 15000 false "/home/config"
    (MkMachine (mc_fs a_service_host) outcomes (mc_names a_service_host) 0 18 [] 97).

Example reload_loses_configuration :
  let r := a_failing_reload (replicate 30 Fine ++ [Fails 0; Fails 0]) in
  match r.1 with Err e => CodeOf (Some e) = CodeInternalError | Ok _ => False end /\
  mc_fs r.2 !! ly_Config DefaultLayout = None.
Proof. cbv zeta. split; by vm_compute. Qed.
