(* ===== verification/Worker.v ===== *)
(** * Component [internal/app]: the worker of the managed service

    [service_worker_darwin.go] and [monitor.go]: the process that serves the
    data plane.  It is prepared, committed, reloaded and closed by the
    supervisor ([PrivsepSession]), follows changes of the network, and reports
    when a part of it stops.  Its calls hold one mutex and are steps; what the
    inherited descriptors, sockets and the end of goroutines give back are
    arguments of the steps.  The two pools are shared with the data plane,
    which refers to them by name. *)

From stdpp Require Import pretty.
From S2P Require Import Prelude.
From S2P Require Import GoStrings.
From S2P Require Import GoTime.
From S2P Require Import GoFiles.
From S2P Require Import NetIP.
From S2P Require Import NetIPText.
From S2P Require Import FakeIPPool.
From S2P Require Import FakeIPRestore.
From S2P Require Import FakeIPRestoreFacts.
From S2P Require Import FakeIPFiles.
From S2P Require Import FakeIPFilesFacts.
From S2P Require Import FakeIPNew.
From S2P Require Import FakeDNS.
From S2P Require Import SessionHandle.
From S2P Require Import ConfigTypes.
From S2P Require Import ConfigCompile.
From S2P Require Import ConfigFacts.
From S2P Require Import Outbound.
From S2P Require Import Resolver.
From S2P Require Import Rules.
From S2P Require Import EffectiveDNS.
From S2P Require Import DataPlane.
From S2P Require Import DataPlaneFacts.
From S2P Require Import RunLoop.
From S2P Require Import Apperror.
From S2P Require Import Privsep.
From S2P Require Import Supervisor.
From S2P Require Tun.
From S2P Require Netstack.

(** ** The monitor *)

Record ReloadStats : Type := MkReloadStats {
  re_Successes : Z;
  re_Failures : Z;
  re_LastRequestID : string;
  re_LastResult : string;
  re_LastAttempt : Z;
  re_LastCompleted : Z;
  re_LastSuccess : Z;
  re_LastErrorCode : string;
  re_LastError : string
}.

Record NetworkStats : Type := MkNetworkStats {
  ne_Refreshes : Z;
  ne_Failures : Z;
  ne_LastAttempt : Z;
  ne_LastSuccess : Z;
  ne_LastError : string
}.

Record Limits : Type := MkLimits {
  li_TCPFlows : Z;
  li_UDPSessions : Z;
  li_UDPSessionsPerSource : Z;
  li_DNSConcurrent : Z;
  li_FakeIPMappings : Z;
  li_FakeIPv6Mappings : Z;
  li_PacketQueue : Z;
  li_PacketBuffers : Z
}.

Record IPv6Status : Type := MkIPv6Status { i6_Configured : bool; i6_Enabled : bool; i6_FallbackReason : string }.

Record runMonitor : Type := MkMonitor {
  mo_started : Z;
  mo_digest : string;
  mo_reload : ReloadStats;
  mo_network : NetworkStats;
  mo_limits : Limits;
  mo_ipv6 : IPv6Status
}.

Definition limitsFromConfig (runtime : Config) : Limits :=
  MkLimits (MaxTCPFlows (CSessions runtime)) (MaxUDPSessions (CSessions runtime)) (MaxUDPSessionsPerSource (CSessions runtime))
    (MaxConcurrent (CDNS runtime)) (MaxMappings (CFakeIP runtime))
    match CFakeIPv6 runtime with Some f => MaxMappings6 f | None => 0 end
    (PacketQueue (CTUN runtime)) (ConfigTypes.BufferPool (CTUN runtime)).

Definition newRunMonitor (started : Z) (digest : string) (runtime : Config) (ipv6Enabled : bool) (fallbackReason : string) : runMonitor :=
  MkMonitor started digest (MkReloadStats 0 0 "" "" 0 0 0 "" "") (MkNetworkStats 0 0 0 0 "") (limitsFromConfig runtime)
    (MkIPv6Status (bool_decide (is_Some (CFakeIPv6 runtime))) ipv6Enabled fallbackReason).

(** The counters are 64 bits wide. *)
Definition count_one (n : Z) : Z := wrap64 (n + 1).

(** [networkResult] with the text of the error. *)
Definition networkResult (at_ : Z) (err : option string) (m : runMonitor) : runMonitor :=
  let n := mo_network m in
  MkMonitor (mo_started m) (mo_digest m) (mo_reload m)
    match err with
    | Some text => MkNetworkStats (ne_Refreshes n) (count_one (ne_Failures n)) at_ (ne_LastSuccess n) text
    | None => MkNetworkStats (count_one (ne_Refreshes n)) (ne_Failures n) at_ at_ ""
    end (mo_limits m) (mo_ipv6 m).

(** [reloadResult]; the configuration is only read after a success. *)
Definition reloadResult (at_ : Z) (requestID digest : string) (runtime : Config) (err : option app_error) (m : runMonitor) : runMonitor :=
  let r := mo_reload m in
  match err with
  | Some e =>
      MkMonitor (mo_started m) (mo_digest m)
        (MkReloadStats (re_Successes r) (count_one (re_Failures r)) requestID "failed" at_ at_ (re_LastSuccess r)
           (CodeOf (Some e)) (Apperror.error_text e))
        (mo_network m) (mo_limits m) (mo_ipv6 m)
  | None =>
      MkMonitor (mo_started m) digest
        (MkReloadStats (count_one (re_Successes r)) (re_Failures r) requestID "succeeded" at_ at_ at_ "" "")
        (mo_network m) (limitsFromConfig runtime) (mo_ipv6 m)
  end.

(** ** The worker *)

(** The pools of the worker, as the data plane refers to them. *)
Inductive pool_ref : Type := PoolIPv4 | PoolIPv6.

(** What [Prepare] builds. *)
Record service : Type := MkService {
  ws_runtime : Config;
  ws_active : Config;
  ws_digest : string;
  ws_ipv6Enabled : bool;
  ws_monitor : runMonitor;
  ws_persistence : Persistence;
  ws_persistence6 : option Persistence;
  ws_pool6 : option Pool;
  ws_plane : dataPlane pool_ref;
  ws_dns : Server Client;
  ws_network : option networkRefreshState
}.

(** The goroutines that the wait group counts. *)
Inductive component : Type := PacketPump | OutputPump | ServingDNS | NetworkMonitor.

#[export] Instance component_eq_dec : EqDecision component.
Proof. solve_decision. Defined.

(** What is open or running: the device, the stack, the serving of Fake DNS,
    the status server, the context of the data plane, the goroutines. *)
Record parts : Type := MkParts {
  pa_device : bool;
  pa_stack : bool;
  pa_serving : bool;
  pa_status : bool;
  pa_data : bool;
  pa_running : list component
}.

(** [ServiceWorker]: whether [resources] still has the device and the
    listeners, whether the servers are set, the value in [done], [closing],
    what [closeOnce] left, and the files. *)
Record ServiceWorker : Type := MkWorker {
  wk_service : option service;
  wk_prepared : bool;
  wk_committed : bool;
  wk_device : bool;
  wk_listeners : bool;
  wk_runningDNS : bool;
  wk_statusServer : bool;
  wk_done : option app_error;
  wk_closing : bool;
  wk_closed : option (option app_error);
  wk_parts : parts;
  wk_files : world
}.

Definition with_service (s : option service) (w : ServiceWorker) : ServiceWorker :=
  MkWorker s (wk_prepared w) (wk_committed w) (wk_device w) (wk_listeners w) (wk_runningDNS w) (wk_statusServer w) (wk_done w)
    (wk_closing w) (wk_closed w) (wk_parts w) (wk_files w).
Definition with_state (prepared committed : bool) (w : ServiceWorker) : ServiceWorker :=
  MkWorker (wk_service w) prepared committed (wk_device w) (wk_listeners w) (wk_runningDNS w) (wk_statusServer w) (wk_done w)
    (wk_closing w) (wk_closed w) (wk_parts w) (wk_files w).
Definition with_servers (listeners runningDNS statusServer : bool) (w : ServiceWorker) : ServiceWorker :=
  MkWorker (wk_service w) (wk_prepared w) (wk_committed w) (wk_device w) listeners runningDNS statusServer (wk_done w)
    (wk_closing w) (wk_closed w) (wk_parts w) (wk_files w).
Definition with_done (d : option app_error) (w : ServiceWorker) : ServiceWorker :=
  MkWorker (wk_service w) (wk_prepared w) (wk_committed w) (wk_device w) (wk_listeners w) (wk_runningDNS w) (wk_statusServer w) d
    (wk_closing w) (wk_closed w) (wk_parts w) (wk_files w).
Definition with_parts (p : parts) (w : ServiceWorker) : ServiceWorker :=
  MkWorker (wk_service w) (wk_prepared w) (wk_committed w) (wk_device w) (wk_listeners w) (wk_runningDNS w) (wk_statusServer w)
    (wk_done w) (wk_closing w) (wk_closed w) p (wk_files w).
Definition with_files (f : world) (w : ServiceWorker) : ServiceWorker :=
  MkWorker (wk_service w) (wk_prepared w) (wk_committed w) (wk_device w) (wk_listeners w) (wk_runningDNS w) (wk_statusServer w)
    (wk_done w) (wk_closing w) (wk_closed w) (wk_parts w) f.

Definition set_stack (b : bool) (p : parts) : parts := MkParts (pa_device p) b (pa_serving p) (pa_status p) (pa_data p) (pa_running p).
Definition start_data (p : parts) : parts :=
  MkParts (pa_device p) (pa_stack p) (pa_serving p) (pa_status p) true (pa_running p ++ [PacketPump; OutputPump]).
Definition start_serving (p : parts) : parts :=
  MkParts (pa_device p) (pa_stack p) true (pa_status p) (pa_data p) (pa_running p ++ [ServingDNS]).
Definition start_status (p : parts) : parts :=
  MkParts (pa_device p) (pa_stack p) (pa_serving p) true (pa_data p) (pa_running p).
Definition start_monitor (p : parts) : parts :=
  MkParts (pa_device p) (pa_stack p) (pa_serving p) (pa_status p) (pa_data p) (pa_running p ++ [NetworkMonitor]).

(** What is left after a failed start: the context cancelled, the device and
    the servers closed, the goroutines awaited, the stack closed. *)
Definition torn_down (p : parts) : parts := MkParts false false false (pa_status p) false [].

(** [NewServiceWorker] with the resources that are there: the control
    connection, the device and the listeners. *)
Definition NewServiceWorker (control device udp tcp : bool) (files : world) : result app_error ServiceWorker :=
  fail_if negb control || negb device || negb udp || negb tcp with Plain "complete inherited worker resources are required" in
  Ok (MkWorker None false false true true false false None false None (MkParts true false false false false []) files).

Notation M := (act ServiceWorker app_error).

Definition update (f : ServiceWorker -> ServiceWorker) : M unit := fun w => (Ok tt, f w).
Definition on_parts (f : parts -> parts) : M unit := update (fun w => with_parts (f (wk_parts w)) w).

(** The errors of the parts, whose texts do not matter here. *)
Definition config_failure (e : config_error) : app_error := Plain "configuration is invalid".
Definition pool_failure (e : pool_error) : app_error := Plain "create Fake IP pool".
Definition file_failure (e : file_error) : app_error := Plain "persistence file".

Definition nil_pointer : app_error := Plain "panic: nil pointer dereference".

(** What the calls of [Prepare] return: the name, the MTU, the addresses of
    the listeners, the time, the library of the stack, the start of the
    listeners, the error of a server that stopped at once with that of closing
    it, the status socket. *)
Record prepare_input : Type := MkPrepareInput {
  pi_name : string;
  pi_mtu : result app_error Z;
  pi_udp : string;
  pi_tcp : string;
  pi_now : Z;
  pi_stack : option app_error;
  pi_serve : option app_error;
  pi_stopped : option (app_error * option app_error);
  pi_status : option app_error
}.

Section worker.
(** The decoders and encoders, and the digest of a configuration. *)
Context (config_yaml : string -> option rawConfig) (sha256 : string -> string).
Context (unmarshal : string -> option journalRecord) (yaml_encode : Snapshot -> string) (yaml_decode : string -> option Snapshot).

(** ** Prepare *)

(** The checks of the inherited resources. *)
Definition check_bootstrap (b : Bootstrap) (i : prepare_input) : M (Config * string) :=
  act! loaded := act_of (map_err config_failure (LoadBytesWithDigest config_yaml sha256 (bs_Config b))) in
  let '(runtime, digest) := loaded in
  stop_if negb (bool_decide (digest = bs_ConfigDigest b)) with Plain "compiled config digest differs" in
  stop_if negb (bool_decide (addr_port_text (Listen (CDNS runtime)) = bs_DNSListen b)) with Plain "config DNS listen differs from the bootstrap" in
  stop_if negb (UDP (CDNS runtime)) || negb (TCP (CDNS runtime)) with Plain "managed service worker requires both UDP and TCP Fake DNS listeners" in
  fun w =>
    (stop_if negb (wk_device w) with nil_pointer in
     stop_if negb (bool_decide (pi_name i = bs_TUNName b)) with Plain "inherited TUN name differs" in
     act! mtu := act_of (map_err (Wrapped "read inherited TUN MTU") (pi_mtu i)) in
     stop_if negb (mtu =? MTU (CTUN runtime)) with Plain "inherited TUN MTU differs" in
     stop_if negb (wk_listeners w) with nil_pointer in
     stop_if negb (bool_decide (pi_udp i = bs_DNSListen b)) with Plain "inherited UDP DNS listen differs" in
     stop_if negb (bool_decide (pi_tcp i = bs_DNSListen b)) with Plain "inherited TCP DNS listen differs" in
     act_ret (runtime, digest)) w.

(** A call on the files. *)
Definition on_files {A} (text : string) (m : IO file_error A) : M A := fun w =>
  let '(r, files) := m (wk_files w) in
  (map_err (fun e => Wrapped text (file_failure e)) r, with_files files w).

Definition open_ipv4 (runtime : Config) (now : Z) : M (Pool * Persistence) :=
  let f := CFakeIP runtime in
  act! pool := act_of (map_err pool_failure (newPool (FakePrefix f) (MappingTTL f) (MaxMappings f) 10)) in
  act! opened := on_files "open Fake IP persistence" (OpenPersistence unmarshal yaml_encode yaml_decode (PersistenceFile f) (DNSTTL f) now pool) in
  act_ret (opened.1.2, opened.1.1).

Definition open_ipv6 (runtime : Config) (now : Z) : M (option (Pool * Persistence)) :=
  match CFakeIPv6 runtime with
  | None => act_ret None
  | Some f =>
      let f4 := CFakeIP runtime in
      act! pool := act_of (map_err (fun e => Wrapped "create Fake IPv6 pool" (pool_failure e))
                             (newPool (FakePrefix6 f) (MappingTTL f4) (MaxMappings6 f) 10)) in
      act! opened := on_files "open Fake IPv6 persistence" (OpenPersistence unmarshal yaml_encode yaml_decode (PersistenceFile6 f) (DNSTTL f4) now pool) in
      act_ret (Some (opened.1.2, opened.1.1))
  end.

(** The method value [plane.shouldFake] reads the plane when it is called: the
    policy of the server is always that of the plane as it is. *)
Definition rebind (plane : dataPlane pool_ref) (dns : Server Client) : Server Client :=
  let r := srv_runtime dns in
  with_runtime (MkRuntime (rc_ttl r) (rc_queryTimeout r) (rc_exclude r) (Some (fun domain => shouldFake domain plane)) (rc_upstream r)) dns.

(** The resolver, the server and the buffers; an error closes the stack. *)
Definition build_servers (runtime effective : Config) (plane : dataPlane pool_ref) (pool4 : Pool) (active6 : option Pool) : M (Server Client) := fun w =>
  match (let! client := map_err (fun e => Wrapped "build Fake DNS forwarding resolver" (as_app e)) (forward_client effective (MaxConcurrent (CDNS runtime))) in
         let! dns := map_err as_app (NewDualStack
                       (FakeDNS.MkConfig (Listen (CDNS runtime)) true true (DNSTTL (CFakeIP runtime)) runtimeDNSQueryTimeout (MaxConcurrent (CDNS runtime))
                          (Some (fun domain => shouldFake domain plane)))
                       (Some pool4) active6 (Exclude (CFakeIP runtime)) (Some client)) in
         let! _ := map_err as_app (Tun.NewBufferPool (Tun.PacketOffset + MTU (CTUN runtime) + 256) (ConfigTypes.BufferPool (CTUN runtime))) in
         Ok dns) with
  | Ok dns => (Ok dns, w)
  | Err e => (Err e, with_parts (set_stack false (wk_parts w)) w)
  end.

(** [Prepare] up to the assignment of the fields. *)
Definition build (b : Bootstrap) (i : prepare_input) (runtime : Config) (digest : string) : M service :=
  let effective := runtimeWithInterfaceDNS runtime (bs_InterfaceDNS b) in
  act! opened4 := open_ipv4 runtime (pi_now i) in
  act! opened6 := open_ipv6 runtime (pi_now i) in
  let active6 := if bs_IPv6Enabled b then fst <$> opened6 else None in
  act! plane := act_of (map_err as_app (newDataPlane (Some PoolIPv4) ((fun _ => PoolIPv6) <$> active6) effective)) in
  act! _ := act_of (map_err as_app (Netstack.check_config
              (Netstack.MkConfig (MTU (CTUN runtime)) (PacketQueue (CTUN runtime)) (MaxTCPFlows (CSessions runtime))) true true)) in
  act! _ := act_of (match pi_stack i with Some e => Err e | None => Ok tt end) in
  act! _ := on_parts (set_stack true) in
  act! dns := build_servers runtime effective plane opened4.1 active6 in
  act_ret (MkService runtime effective digest (bs_IPv6Enabled b)
             (newRunMonitor (pi_now i) digest runtime (bs_IPv6Enabled b) (bs_IPv6FallbackReason b))
             opened4.2 (snd <$> opened6) (fst <$> opened6) plane dns None).

(** A failed start from the first goroutine on. *)
Definition abandon {A} (e : app_error) : M A :=
  act! _ := on_parts torn_down in
  act! _ := update (fun w => with_servers (wk_listeners w) false (wk_statusServer w) w) in
  act_fail e.

(** The start of what was built. *)
Definition start (i : prepare_input) (s : service) : M unit :=
  act! _ := update (with_service (Some s)) in
  act! _ := on_parts start_data in
  match (let! _ := map_err as_app (check_listeners (srv_config (ws_dns s)) (Some (pi_udp i)) (Some (pi_tcp i))) in
         match pi_serve i with Some e => Err e | None => Ok tt end) with
  | Err e => abandon e
  | Ok _ =>
      match pi_stopped i with
      | Some (err, closeErr) => abandon (join_errors (err :: option_list closeErr))
      | None =>
          act! _ := on_parts start_serving in
          act! _ := update (fun w => with_servers false true (wk_statusServer w) w) in
          match pi_status i with
          | Some e => abandon e
          | None =>
              act! _ := on_parts start_status in
              act! _ := update (fun w => with_servers (wk_listeners w) (wk_runningDNS w) true w) in
              update (fun w => with_state true (wk_committed w) w)
          end
      end
  end.

Definition Prepare (b : Bootstrap) (i : prepare_input) : M unit := fun w =>
  (stop_if wk_prepared w with Plain "service worker is already prepared" in
   act! checked := check_bootstrap b i in
   act! s := build b i checked.1 checked.2 in
   start i s) w.

(** ** Commit *)

(** [stopped] is what [runningDNS] says when it is done. *)
Definition Commit (stopped : option (option app_error)) : M unit := fun w =>
  (stop_if negb (wk_prepared w) with Plain "service worker is not prepared" in
   stop_if wk_committed w with Plain "service worker is already committed" in
   match (if wk_runningDNS w then stopped else None), wk_done w with
   | Some (Some e), _ => act_fail e
   | Some None, _ => act_fail (Plain "Fake DNS stopped unexpectedly")
   | None, Some e => act! _ := update (with_done None) in act_fail e
   | None, None =>
       act! _ := update (with_state (wk_prepared w) true) in
       on_parts start_monitor
   end) w.

(** ** Reload *)

(** The check of the interfaces, whether the context expired, the time. *)
Record worker_reload_input : Type := MkReloadInput { ri_interfaces : option go_error; ri_timedOut : bool; ri_now : Z }.

Definition annotateWorkerReloadError (timedOut : bool) (reload : Reload) (err : app_error) : app_error :=
  let code :=
    if is_deadline err || timedOut then CodeReloadTimeout
    else match find_typed err with None => CodeReloadRejected | Some _ => CodeOf (Some err) end in
  WithDetails {[ "reload_request_id" := DString (rl_ReloadRequestID reload); "expected_config_digest" := DString (rl_ConfigDigest reload);
                 "phase" := DString "worker" ]}
    (Wrap code "service.reload" "worker rejected configuration reload" err).

Definition rejected (message : string) (e : go_error) : app_error := Wrap CodeReloadRejected "service.reload" message (as_app e).

(** [Reload] up to the change of the policy: what is to be activated. *)
Definition check_reload (reload : Reload) (interfaces : option go_error) (s : service)
    : result app_error (Config * string * Config * dataPlaneGeneration * Server Client) :=
  let! loaded := map_err (fun e => Wrap CodeConfigInvalid "service.reload" "worker received an invalid configuration" (config_failure e))
                   (LoadBytesWithDigest config_yaml sha256 (rl_Config reload)) in
  let '(next, digest) := loaded in
  fail_if negb (bool_decide (digest = rl_ConfigDigest reload))
    with WithDetails {[ "actual_config_digest" := DString digest; "expected_config_digest" := DString (rl_ConfigDigest reload) ]}
           (Wrap CodeReloadDigestMismatch "service.reload" "worker compiled an unexpected configuration digest" (Plain "got another digest")) in
  let! _ := map_err preflight_failure (PreflightReload (ws_runtime s) next interfaces) in
  let effective := runtimeWithInterfaceDNS next (rl_InterfaceDNS reload) in
  let! generation := map_err (rejected "worker could not build the reloaded data plane") (prepare effective (ws_plane s)) in
  let! client := map_err (rejected "worker could not build the reloaded Fake DNS resolver") (forward_client effective (MaxConcurrent (CDNS next))) in
  let! dns := map_err (rejected "worker Fake DNS reload was rejected")
                (FakeDNS.Reload (DNSTTL (CFakeIP next)) runtimeDNSQueryTimeout (Exclude (CFakeIP next)) (Some client) (ws_dns s)) in
  Ok (next, digest, effective, generation, dns).

Definition with_monitor (m : runMonitor) (s : service) : service :=
  MkService (ws_runtime s) (ws_active s) (ws_digest s) (ws_ipv6Enabled s) m (ws_persistence s) (ws_persistence6 s) (ws_pool6 s)
    (ws_plane s) (ws_dns s) (ws_network s).

Definition not_running (reload : Reload) : app_error :=
  WithDetails {[ "reload_request_id" := DString (rl_ReloadRequestID reload); "phase" := DString "worker" ]}
    (New CodeServiceNotRunning "service.reload" "service worker is not running").

(** The service after a reload, and the error. *)
Definition reload_service (reload : Reload) (i : worker_reload_input) (s : service) : result app_error unit * service :=
  match check_reload reload (ri_interfaces i) s with
  | Ok (next, digest, effective, generation, dns) =>
      let plane := commit generation (ws_plane s) in
      (Ok tt,
       MkService next effective digest (ws_ipv6Enabled s) (reloadResult (ri_now i) (rl_ReloadRequestID reload) digest next None (ws_monitor s))
         (ws_persistence s) (ws_persistence6 s) (ws_pool6 s) plane (rebind plane dns) (ws_network s))
  | Err e =>
      let e := annotateWorkerReloadError (ri_timedOut i) reload e in
      (Err e, with_monitor (reloadResult (ri_now i) (rl_ReloadRequestID reload) (ws_digest s) (ws_runtime s) (Some e) (ws_monitor s)) s)
  end.

Definition Reload (reload : Reload) (i : worker_reload_input) : M unit := fun w =>
  if negb (wk_committed w) then (Err (not_running reload), w)
  else
    match wk_service w with
    | None => (Err nil_pointer, w)
    | Some s => let '(r, s) := reload_service reload i s in (r, with_service (Some s) w)
    end.

(** ** The network *)

Record worker_tick : Type := MkWorkerTick { wt_fingerprint : string; wt_woke : bool; wt_interfaces : option go_error; wt_now : Z }.

(** [monitorNetwork] when it starts. *)
Definition monitor_starts (fingerprint : string) (s : service) : service :=
  MkService (ws_runtime s) (ws_active s) (ws_digest s) (ws_ipv6Enabled s) (ws_monitor s) (ws_persistence s) (ws_persistence6 s) (ws_pool6 s)
    (ws_plane s) (ws_dns s) (Some (newNetworkRefreshState fingerprint)).

(** A tick of [monitorNetwork]. *)
Definition monitor_tick (i : worker_tick) (s : service) : service :=
  match ws_network s with
  | None => s
  | Some state =>
      if negb (shouldAttempt (wt_fingerprint i) (wt_woke i) state) then s
      else
        let '(plane, dns, err, state) :=
          match refreshNetwork (ws_active s) (wt_interfaces i) (ws_plane s) (ws_dns s) with
          | Ok (plane, dns) => (plane, rebind plane dns, None, succeeded (wt_fingerprint i) state)
          | Err e =>
              let text := Apperror.error_text (as_app e) in
              (ws_plane s, ws_dns s, Some text, (refresh_failed text state).2)
          end in
        MkService (ws_runtime s) (ws_active s) (ws_digest s) (ws_ipv6Enabled s) (networkResult (wt_now i) err (ws_monitor s))
          (ws_persistence s) (ws_persistence6 s) (ws_pool6 s) plane dns (Some state)
  end.

(** ** Goroutines and the end *)

Definition component_name (c : component) : string :=
  match c with
  | PacketPump => "TUN packet pump"
  | OutputPump => "netstack output pump"
  | ServingDNS => "Fake DNS"
  | NetworkMonitor => "network monitor"
  end.

Definition without (c : component) (p : parts) : parts :=
  MkParts (pa_device p) (pa_stack p) (pa_serving p) (pa_status p) (pa_data p) (filter (.≠ c) (pa_running p)).

(** [runComponent] from the end of [run] on; the monitor only ends with the
    context and reports nothing. *)
Definition component_ended (c : component) (err : option app_error) (w : ServiceWorker) : ServiceWorker :=
  let w' := with_parts (without c (wk_parts w)) w in
  if wk_closing w || negb (pa_data (wk_parts w)) || bool_decide (c = NetworkMonitor) then w'
  else
    let e := match err with None => Plain (component_name c +:+ " stopped unexpectedly") | Some e => Wrapped (component_name c) e end in
    match wk_done w with
    | None => with_done (Some e) w'
    | Some _ => w'
    end.

(** What the calls of [Close] return, and the error of the context when it
    ends before the goroutines. *)
Record close_input : Type := MkCloseInput {
  cz_status : option app_error;
  cz_dns : option app_error;
  cz_device : option app_error;
  cz_wait : option app_error;
  cz_stack : option app_error;
  cz_flush : option app_error;
  cz_flush6 : option app_error
}.

Definition when {A} (b : bool) (e : option A) : list A := if b then option_list e else [].

(** The failures in the order of the calls. *)
Definition close_failures (i : close_input) (w : ServiceWorker) : list app_error :=
  let started := bool_decide (is_Some (wk_service w)) in
  when (wk_statusServer w) (cz_status i) ++ when (wk_runningDNS w) (cz_dns i) ++ when (wk_device w) (cz_device i) ++ option_list (cz_wait i)
  ++ when started (cz_stack i) ++ when started (cz_flush i)
  ++ when (bool_decide (is_Some (wk_service w ≫= ws_persistence6))) (cz_flush6 i).

Definition closed_parts (i : close_input) (w : ServiceWorker) : parts :=
  let p := wk_parts w in
  let started := bool_decide (is_Some (wk_service w)) in
  MkParts (pa_device p && negb (wk_device w)) (pa_stack p && negb started) (pa_serving p && negb (wk_runningDNS w))
    (pa_status p && negb (wk_statusServer w)) (pa_data p && negb started) (if bool_decide (cz_wait i = None) then [] else pa_running p).

Definition Close (i : close_input) (w : ServiceWorker) : option app_error * ServiceWorker :=
  match wk_closed w with
  | Some e => (e, w)
  | None =>
      let failures := close_failures i w in
      let e := if bool_decide (failures = []) then None else Some (join_errors failures) in
      (e, MkWorker (wk_service w) (wk_prepared w) (wk_committed w) false (wk_listeners w) false false (wk_done w) true (Some e)
            (closed_parts i w) (wk_files w))
  end.

(** ** The life of a worker *)

(** The occupancy of the limiter changes with the flows. *)
Definition with_sessions (sessions : gset UDPKey) (counts : gmap addr Z) (s : service) : service :=
  let p := ws_plane s in
  let l := dp_udpLimiter p in
  MkService (ws_runtime s) (ws_active s) (ws_digest s) (ws_ipv6Enabled s) (ws_monitor s) (ws_persistence s) (ws_persistence6 s) (ws_pool6 s)
    (MkDataPlane (dp_pools p) (MkUDPLimiter (lim_maxSessions l) (lim_maxPerSource l) sessions counts) (dp_generations p) (dp_current p)
       (dp_retired p) (dp_base p)) (ws_dns s) (ws_network s).

Inductive worker_event : Type :=
| EvPrepare (b : Bootstrap) (i : prepare_input)
| EvCommit (stopped : option (option app_error))
| EvReload (reload : Privsep.Reload) (i : worker_reload_input)
| EvMonitor (fingerprint : string)
| EvTick (i : worker_tick)
| EvFlows (sessions : gset UDPKey) (counts : gmap addr Z)
| EvEnded (c : component) (err : option app_error)
| EvTaken
| EvClose (i : close_input).

Definition outcome_of (r : result app_error unit) : option app_error := match r with Ok _ => None | Err e => Some e end.

Definition on_service (f : service -> service) (w : ServiceWorker) : ServiceWorker := with_service (f <$> wk_service w) w.

(** An event: what the call returns, and the worker; [None] when it cannot
    happen. *)
Definition worker_step (ev : worker_event) (w : ServiceWorker) : option (option app_error * ServiceWorker) :=
  match ev with
  | EvPrepare b i => let '(r, w) := Prepare b i w in Some (outcome_of r, w)
  | EvCommit stopped => let '(r, w) := Commit stopped w in Some (outcome_of r, w)
  | EvReload reload i => let '(r, w) := Reload reload i w in Some (outcome_of r, w)
  | EvMonitor fingerprint => if bool_decide (NetworkMonitor ∈ pa_running (wk_parts w)) then Some (None, on_service (monitor_starts fingerprint) w) else None
  | EvTick i => if bool_decide (NetworkMonitor ∈ pa_running (wk_parts w)) then Some (None, on_service (monitor_tick i) w) else None
  | EvFlows sessions counts => Some (None, on_service (with_sessions sessions counts) w)
  | EvEnded c err => if bool_decide (c ∈ pa_running (wk_parts w)) then Some (None, component_ended c err w) else None
  | EvTaken => Some (wk_done w, with_done None w)
  | EvClose i => Some (Close i w)
  end.

(** The configuration and the servers that the worker was told and accepted
    last. *)
Definition accepts (ev : worker_event) (outcome : option app_error) (told : option (string * interface_dns)) : option (string * interface_dns) :=
  match ev, outcome with
  | EvPrepare b _, None => Some (bs_Config b, bs_InterfaceDNS b)
  | EvReload r _, None => Some (rl_Config r, rl_InterfaceDNS r)
  | _, _ => told
  end.

Fixpoint worker_run (evs : list worker_event) (w : ServiceWorker) (told : option (string * interface_dns))
    : option (ServiceWorker * option (string * interface_dns)) :=
  match evs with
  | [] => Some (w, told)
  | ev :: evs' =>
      match worker_step ev w with
      | Some (outcome, w) => worker_run evs' w (accepts ev outcome told)
      | None => None
      end
  end.
End worker.

(** ** The text of a listener *)

Lemma digits_char n : (n < 10)%N -> is_digit (pretty_N_char n) = true /\ digit_value (pretty_N_char n) = Z.of_N n.
Proof.
  intros H. assert (n = 0 \/ n = 1 \/ n = 2 \/ n = 3 \/ n = 4 \/ n = 5 \/ n = 6 \/ n = 7 \/ n = 8 \/ n = 9)%N as Hn by lia.
  repeat (destruct Hn as [->|Hn]; [done|]). by subst n.
Qed.

Lemma digits_text n s acc : acc = 0 -> digits_value acc (pretty_N_go n s) = digits_value (Z.of_N n) s.
Proof.
  intros ->. revert s. induction (N.lt_wf_0 n) as [n _ IH]; intros s. destruct (decide (n = 0)%N) as [->|Hn]; [done|].
  rewrite pretty_N_go_step by lia. rewrite IH by (apply N.div_lt; lia). cbn [digits_value].
  destruct (digits_char (n `mod` 10)) as [-> ->]; [apply N.mod_lt; lia|]. f_equal.
  rewrite (N.div_mod n 10) at 3 by lia. lia.
Qed.

Lemma text_digits n s : sforall is_digit s = true -> sforall is_digit (pretty_N_go n s) = true.
Proof.
  revert s. induction (N.lt_wf_0 n) as [n _ IH]; intros s Hs. destruct (decide (n = 0)%N) as [->|Hn]; [done|].
  rewrite pretty_N_go_step by lia. apply IH; [apply N.div_lt; lia|]. cbn [sforall]. rewrite Hs.
  by destruct (digits_char (n `mod` 10)) as [-> _]; [apply N.mod_lt; lia|].
Qed.

(** A positive number in decimal. *)
Lemma port_text z : 0 < z < 2 ^ 16 -> parse_uint 16 (pretty z) = Some z /\ sforall is_digit (pretty z) = true.
Proof.
  intros Hz. destruct z as [|p|p]; [lia| |lia]. change (pretty (Z.pos p)) with (pretty_N_go (N.pos p) "").
  split; [|by apply text_digits]. unfold parse_uint. destruct (String.eqb_spec (pretty_N_go (N.pos p) "") "") as [He|_].
  { exfalso. pose proof (digits_text (N.pos p) "" 0 eq_refl) as Hd. rewrite He in Hd. cbn in Hd. congruence. }
  rewrite digits_text by done. cbn [digits_value]. change (Z.of_N (N.pos p)) with (Z.pos p). by rewrite (proj2 (Z.ltb_lt _ _)) by lia.
Qed.

Lemma cut_last_sep c a b : sforall (fun d => negb (Ascii.eqb d c)) b = true -> cut_last c (a +:+ String c b) = Some (a, b).
Proof.
  intros Hb. assert (Hn : cut_last c b = None).
  { revert Hb. induction b as [|d b IH]; [done|]. cbn. intros [H1%negb_true_iff H2]%andb_true_iff. by rewrite IH, H1. }
  induction a as [|d a IH]; [|rewrite sapp_cons; cbn [cut_last]; by rewrite IH]. rewrite sapp_nil_l. cbn [cut_last]. by rewrite Hn, Ascii.eqb_refl.
Qed.

Lemma dec3_digit z r : 0 <= z < 256 -> exists c r', dec3 z +:+ r = String c r' /\ is_digit c = true.
Proof.
  intros Hz. unfold dec3. pose proof (Z.mod_pos_bound z 10). pose proof (Z.div_mod z 10). pose proof (Z.div_mod z 100). pose proof (Z.mod_pos_bound z 100).
  destruct (Z.ltb_spec z 10); [|destruct (Z.ltb_spec z 100)]; rewrite ?sapp_cons; eexists _, _; (split; [done|]; apply digit_char_is_digit; lia).
Qed.

Lemma parse_listener x : is4 (ap_addr x) = true -> addr_wf (ap_addr x) -> 0 < ap_port x < 2 ^ 16 -> parse_addr_port (addr_port_text x) = Some x.
Proof.
  destruct x as [[|v|v z] port]; cbn [ap_addr ap_port]; [done| |done]. intros _ Hwf Hport. destruct (port_text port Hport) as [Hp Hd].
  unfold addr_port_text. cbn [ap_addr ap_port addr_text].
  assert (Hv : 0 <= v < 2 ^ 32) by (cbn in Hwf; lia).
  unfold parse_addr_port. change (":" +:+ pretty port) with (String ":" (pretty port)). rewrite cut_last_sep.
  2: { eapply sforall_impl; [|exact Hd]. intros c Hc. apply negb_true_iff, Ascii.eqb_neq. by intros ->. }
  destruct (dec3_digit (v / 2 ^ 24 mod 256) ("." +:+ dec3 (v / 2 ^ 16 mod 256) +:+ "." +:+ dec3 (v / 2 ^ 8 mod 256) +:+ "." +:+ dec3 (v mod 256))) as (c & r & Hc & Hcd).
  { apply Z.mod_pos_bound. lia. }
  fold (ipv4_text v) in Hc.
  rewrite (bool_decide_eq_false_2 (ipv4_text v = "")) by (by rewrite Hc).
  rewrite (bool_decide_eq_false_2 (pretty port = "")) by (by intros He; rewrite He in Hp).
  assert (has_prefix (ipv4_text v) "[" = false) as ->.
  { apply not_true_iff_false. intros [q Hq]%has_prefix_spec. rewrite Hc in Hq. cbn in Hq. injection Hq as -> _. done. }
  cbn [orb andb negb]. by rewrite Hp, parse_ipv4_text.
Qed.

(** ** Facts of the parts *)

Lemma loaded_compiled config_yaml sha256 contents c digest :
  LoadBytesWithDigest config_yaml sha256 contents = Ok (c, digest) -> exists raw, compile raw = Ok c.
Proof.
  unfold LoadBytesWithDigest, Decode. intros H. inv_result. simplify_eq. destruct (config_yaml contents) as [raw|]; [|done]. eauto.
Qed.

Lemma commit_current {P} g (plane : dataPlane P) :
  let p := commit g plane in
  dp_generations p !! dp_current p = Some g /\ dp_udpLimiter p = dp_udpLimiter plane.
Proof.
  unfold commit, pruneLocked, swap_generation. cbn. destruct (prune_loop _ _ _ _) as [retained base]. cbn.
  by rewrite lookup_app_r, Nat.sub_diag by lia.
Qed.

(** A generation that serves a configuration with the servers of leases. *)
Definition serves (c : Config) (leases : interface_dns) (g : dataPlaneGeneration) : Prop :=
  exists routes, routes_of (Outbounds (runtimeWithInterfaceDNS c leases)) routes /\ tcp_routes (gen_tcp g) = routes /\ udp_routes (gen_udp g) = routes /\
    Rules.New (ConfigTypes.Rules c) = Ok (gen_matcher g) /\ tcp_matcher (gen_tcp g) = gen_matcher g /\ udp_matcher (gen_udp g) = gen_matcher g.

Definition limits_of (c : Config) (l : UDPLimiter) : Prop :=
  lim_maxSessions l = MaxUDPSessions (CSessions c) /\ lim_maxPerSource l = MaxUDPSessionsPerSource (CSessions c).

Lemma generation_serves {P} (pools : MappingPools (option P)) raw c leases l :
  compile raw = Ok c -> leases_ok leases -> limits_of c l ->
  exists g, buildDataPlaneGeneration pools (runtimeWithInterfaceDNS c leases) l = Ok g /\ serves c leases g.
Proof.
  intros Hc Hl [Hm Hp]. destruct l as [mx per ss ps]. cbn in Hm, Hp.
  destruct (build_generation_Ok pools _ leases raw c mx per ss ps Hc Hl eq_refl (eq_sym Hm) (eq_sym Hp)) as (g & engine & routes & Hg & He & Hr & Hx & Ht & Hu & Htm & Hum).
  exists g. split; [done|]. exists routes. split_and!; first [done|congruence].
Qed.

Lemma limiter_made raw c : compile raw = Ok c ->
  exists l, NewUDPLimiter (MaxUDPSessions (CSessions c)) (MaxUDPSessionsPerSource (CSessions c)) = Ok l /\ limits_of c l.
Proof.
  intros (default & _ & _ & _ & _ & _ & _ & _ & _ & _ & Hsess & _)%compile_Ok. apply compileSessions_Ok in Hsess as (_ & Hper & _).
  unfold NewUDPLimiter. replace (MaxUDPSessions (CSessions c) <=? 0) with false by (symmetry; apply Z.leb_gt; lia).
  replace (MaxUDPSessionsPerSource (CSessions c) <=? 0) with false by (symmetry; apply Z.leb_gt; lia).
  replace (MaxUDPSessions (CSessions c) <? MaxUDPSessionsPerSource (CSessions c)) with false by (symmetry; apply Z.ltb_ge; lia).
  eexists. split; [done|]. done.
Qed.

Lemma plane_serves raw c leases (p4 p6 : option pool_ref) :
  compile raw = Ok c -> leases_ok leases ->
  exists plane g, newDataPlane p4 p6 (runtimeWithInterfaceDNS c leases) = Ok plane /\ limits_of c (dp_udpLimiter plane) /\
    dp_generations plane !! dp_current plane = Some g /\ serves c leases g.
Proof.
  intros Hc Hl. destruct (limiter_made _ _ Hc) as (l & Hnew & Hlim).
  destruct (generation_serves (plane_pools p4 p6 (runtimeWithInterfaceDNS c leases)) raw c leases l Hc Hl Hlim) as (g & Hg & Hs).
  eexists. exists g. unfold newDataPlane. cbn [runtimeWithInterfaceDNS CSessions]. rewrite Hnew. cbn [mbind result_bind].
  change (MkConfig _ _ _ _ _ _ _ _ _ _ _) with (runtimeWithInterfaceDNS c leases) in *. rewrite Hg. cbn [mbind result_bind]. by split_and!.
Qed.

(** The resolver of the default outbound can always be built. *)
Lemma forward_client_made raw c leases : compile raw = Ok c -> leases_ok leases ->
  exists client, forward_client (runtimeWithInterfaceDNS c leases) (MaxConcurrent (CDNS c)) = Ok client.
Proof.
  intros Hc Hl. pose proof (compiled_listener _ _ Hc) as (_ & _ & _ & _ & Hm & _). pose proof Hc as (default & Hd & Hr & _)%compile_Ok.
  pose proof (oo_wf _ (effective_outbounds_ok leases _ Hl (compiled_outbounds_ok _ _ Hc))) as Hwf.
  unfold forward_client. cbn [runtimeWithInterfaceDNS Outbounds CDNS] in *. rewrite lookup_fmap, Hd. cbn [fmap option_fmap option_map].
  specialize (Hwf (DefaultOutbound (CDNS c)) (effective_outbound leases default)). rewrite lookup_fmap, Hd in Hwf.
  destruct (Hwf eq_refl) as (_ & _ & [[Ht _]|(_ & Hi & Hdns & _ & Hs)]).
  { exfalso. apply Hr. revert Ht. unfold effective_outbound. by destruct (_ && _). }
  by apply NewClient_valid.
Qed.

Lemma validate_limits c next l : ValidateReload (Some c) (Some next) = [] -> limits_of c l -> limits_of next l.
Proof.
  intros [Hs _]%validate_reload_spec [Hm Hp]. unfold host_state_of in Hs. injection Hs as _ _ _ _ _ _ _ _ _ _ _ _ _ H1 H2. unfold limits_of. by rewrite Hm, Hp.
Qed.

Lemma PreflightReload_Ok current next interfaces :
  PreflightReload current next interfaces = Ok tt <-> ValidateReload (Some current) (Some next) = [] /\ interfaces = None.
Proof. unfold PreflightReload. case_bool_decide; cbn [negb guard_err]; destruct interfaces; naive_solver. Qed.

Lemma compiled_ttl raw c : compile raw = Ok c -> 0 < DNSTTL (CFakeIP c).
Proof. intros (_ & _ & _ & [Ht _] & _)%compiled_pools_start. unfold second, millisecond, microsecond, nanosecond in Ht. lia. Qed.

Section facts.
Context (config_yaml : string -> option rawConfig) (sha256 : string -> string).
Context (unmarshal : string -> option journalRecord) (yaml_encode : Snapshot -> string) (yaml_decode : string -> option Snapshot).

Notation load := (LoadBytesWithDigest config_yaml sha256).

(** ** What a worker runs *)

(** The service runs a configuration, given as bytes, with the servers of
    leases: it is the one that was loaded, under its digest; the data plane
    serves new flows with its rules and with routes to its outbounds; Fake DNS
    has its lifetime, its exclusions, the policy of the same rules and the
    resolver of its default outbound; the monitor reports it. *)
Record runs (told : string * interface_dns) (s : service) : Prop := {
  rn_loaded : load told.1 = Ok (ws_runtime s, ws_digest s);
  rn_leases : leases_ok told.2;
  rn_active : ws_active s = runtimeWithInterfaceDNS (ws_runtime s) told.2;
  rn_limits : limits_of (ws_runtime s) (dp_udpLimiter (ws_plane s));
  rn_generation : exists g, dp_generations (ws_plane s) !! dp_current (ws_plane s) = Some g /\ serves (ws_runtime s) told.2 g;
  rn_policy : exists policy client,
    srv_runtime (ws_dns s) = MkRuntime (DNSTTL (CFakeIP (ws_runtime s))) runtimeDNSQueryTimeout (Exclude (CFakeIP (ws_runtime s))) (Some policy) client /\
    (forall domain, policy domain = shouldFake domain (ws_plane s)) /\
    forward_client (ws_active s) (MaxConcurrent (CDNS (ws_runtime s))) = Ok client;
  rn_monitor : mo_digest (ws_monitor s) = ws_digest s /\ mo_limits (ws_monitor s) = limitsFromConfig (ws_runtime s)
}.

(** What a reload needs. *)
Definition acceptable (reload : Privsep.Reload) (interfaces : option go_error) (s : service) : Prop :=
  exists next, load (rl_Config reload) = Ok (next, rl_ConfigDigest reload) /\ ValidateReload (Some (ws_runtime s)) (Some next) = [] /\ interfaces = None.

(** A checked reload, and what it will activate. *)
Lemma check_reload_cases told reload interfaces s :
  runs told s -> leases_ok (rl_InterfaceDNS reload) ->
  match check_reload config_yaml sha256 reload interfaces s with
  | Ok (next, digest, effective, g, dns) =>
      acceptable reload interfaces s /\ load (rl_Config reload) = Ok (next, digest) /\ effective = runtimeWithInterfaceDNS next (rl_InterfaceDNS reload) /\
      limits_of next (dp_udpLimiter (ws_plane s)) /\ serves next (rl_InterfaceDNS reload) g /\
      exists client, forward_client effective (MaxConcurrent (CDNS next)) = Ok client /\
        srv_runtime dns = MkRuntime (DNSTTL (CFakeIP next)) runtimeDNSQueryTimeout (Exclude (CFakeIP next)) (rc_shouldFake (srv_runtime (ws_dns s))) client
  | Err _ => ~ acceptable reload interfaces s
  end.
Proof.
  intros Hs Hl. unfold check_reload. destruct (load (rl_Config reload)) as [[next digest]|e] eqn:Hload; cbn [map_err mbind result_bind].
  2: { intros (next & H & _). congruence. }
  case_bool_decide as Hd; cbn [negb guard_err]. 2: { intros (n & H & _). congruence. }
  destruct (PreflightReload (ws_runtime s) next interfaces) as [[]|e] eqn:Hp; cbn [map_err mbind result_bind].
  2: { intros (n & H & Hv & Hi). assert (n = next) as -> by congruence.
       by rewrite (proj2 (PreflightReload_Ok (ws_runtime s) next interfaces) (conj Hv Hi)) in Hp. }
  apply PreflightReload_Ok in Hp as [Hv ->].
  destruct (loaded_compiled _ _ _ _ _ Hload) as [raw Hc]. pose proof (validate_limits _ _ _ Hv (rn_limits _ _ Hs)) as Hlim.
  unfold prepare. destruct (generation_serves (dp_pools (ws_plane s)) raw next _ _ Hc Hl Hlim) as (g & Hg & Hserves). rewrite Hg. cbn [map_err mbind result_bind].
  destruct (forward_client_made raw next _ Hc Hl) as [client Hcl]. rewrite Hcl. cbn [map_err mbind result_bind].
  unfold FakeDNS.Reload, ReloadPolicy. pose proof (compiled_ttl _ _ Hc) as Ht.
  replace (DNSTTL (CFakeIP next) <=? 0) with false by (symmetry; apply Z.leb_gt; lia). cbn [guard_err].
  change (runtimeDNSQueryTimeout <=? 0) with false. cbn [guard_err map_err mbind result_bind].
  split_and!; try done; [|by exists client]. exists next. subst digest. done.
Qed.

(** A reload changes everything or nothing. *)
Lemma reload_service_cases told reload i s :
  runs told s -> leases_ok (rl_InterfaceDNS reload) ->
  let '(r, s') := reload_service config_yaml sha256 reload i s in
  match r with
  | Ok _ => acceptable reload (ri_interfaces i) s /\ runs (rl_Config reload, rl_InterfaceDNS reload) s' /\ ws_digest s' = rl_ConfigDigest reload
  | Err e => ~ acceptable reload (ri_interfaces i) s /\ s' = with_monitor (ws_monitor s') s /\ runs told s'
  end.
Proof.
  intros Hs Hl. pose proof (check_reload_cases told reload (ri_interfaces i) s Hs Hl) as Hc. unfold reload_service.
  destruct (check_reload _ _ _ _ _) as [[[[[next digest] effective] g] dns]|e].
  - destruct Hc as (Ha & Hload & -> & Hlim & Hg & client & Hcl & Hdns). split; [done|].
    destruct (commit_current g (ws_plane s)) as [Hcur Hudp]. split.
    + split; cbn; [done|done|done|by rewrite Hudp|by exists g| |done].
      eexists _, client. rewrite Hdns. split; [done|]. by split.
    + destruct Ha as (n & Hn & _). cbn. congruence.
  - split; [done|]. split; [done|]. destruct Hs. by split.
Qed.

(** A tick rebuilds what the service runs. *)
Lemma monitor_tick_runs told i s : runs told s -> runs told (monitor_tick i s).
Proof.
  intros Hs. unfold monitor_tick. destruct (ws_network s) as [state|]; [|done]. destruct (negb _); [done|].
  unfold refreshNetwork. destruct (loaded_compiled _ _ _ _ _ (rn_loaded _ _ Hs)) as [raw Hc].
  destruct (wt_interfaces i) as [e|]; [destruct Hs; by split|]. pose proof (rn_active _ _ Hs) as Ha.
  unfold prepare. destruct (generation_serves (dp_pools (ws_plane s)) raw _ _ _ Hc (rn_leases _ _ Hs) (rn_limits _ _ Hs)) as (g & Hg & Hserves).
  rewrite Ha, Hg. cbn [map_err mbind result_bind].
  destruct (forward_client_made raw _ _ Hc (rn_leases _ _ Hs)) as [client Hcl]. cbn [CDNS runtimeWithInterfaceDNS CFakeIP] in *.
  change (MkConfig _ _ _ _ _ _ _ _ _ _ _) with (runtimeWithInterfaceDNS (ws_runtime s) told.2) in *. rewrite Hcl. cbn [map_err mbind result_bind].
  unfold FakeDNS.Reload, ReloadPolicy. pose proof (compiled_ttl _ _ Hc) as Ht.
  replace (DNSTTL (CFakeIP (ws_runtime s)) <=? 0) with false by (symmetry; apply Z.leb_gt; lia). cbn [guard_err].
  change (runtimeDNSQueryTimeout <=? 0) with false. cbn [guard_err map_err mbind result_bind].
  destruct (commit_current g (ws_plane s)) as [Hcur Hudp]. destruct Hs.
  split; cbn; try done; [by rewrite Hudp|by exists g|]. eexists _, client. split; [done|]. by split.
Qed.

Lemma with_sessions_runs told sessions counts s : runs told s -> runs told (with_sessions sessions counts s).
Proof. intros []. by split. Qed.

Lemma monitor_starts_runs told fingerprint s : runs told s -> runs told (monitor_starts fingerprint s).
Proof. intros []. by split. Qed.

(** ** Opening the pools *)

Lemma forget_domain_prefix domain p : p_prefix (forget_domain domain p) = p_prefix p.
Proof. unfold forget_domain. by destruct (_ ≫= _). Qed.

Lemma forget_address_prefix address p : p_prefix (forget_address address p) = p_prefix p.
Proof. unfold forget_address. by destruct (_ ≫= _). Qed.

Lemma forget_removed_prefix removed p p' : forget_removed removed p = Ok p' -> p_prefix p' = p_prefix p.
Proof.
  revert p. induction removed as [|name removed IH]; intros p; cbn [forget_removed]; [by intros [= <-]|].
  intros H. inv_result. apply IH in H. by rewrite H, forget_domain_prefix.
Qed.

Lemma replay_loop_prefix updates until p p' : replay_loop updates until p = Ok p' -> p_prefix p' = p_prefix p.
Proof.
  revert p. induction updates as [|u updates IH]; intros p; cbn [replay_loop]; [by intros [= <-]|].
  unfold replay_update. intros H. inv_result. apply IH in H. rewrite H.
  match goal with Hf : forget_removed _ _ = _ |- _ => apply forget_removed_prefix in Hf; rewrite <- Hf end.
  destruct x1 as [[d a] e]. inv_result. subst x. change (p_prefix (forget_address a (forget_domain d x0)) = p_prefix x0). by rewrite forget_address_prefix, forget_domain_prefix.
Qed.

Lemma open_snapshot_prefix path window now p w r w' : open_snapshot yaml_decode path window now p w = (Ok r, w') -> p_prefix r.1.1 = p_prefix p.
Proof.
  unfold open_snapshot, restore. intros H. repeat (case_match; simplify_eq; try done).
  cbn. match goal with Hr : _ = Ok _ |- _ => revert Hr end. intros Hr. inv_result. by apply restore_loop_prefix in Hr.
Qed.

Lemma open_journal_prefix path sn q window now p w r w' : open_journal unmarshal path sn q window now p w = (Ok r, w') -> p_prefix r.1.1.1 = p_prefix p.
Proof.
  unfold open_journal. destruct (readJournal _ _ _) as [[records err] w1].
  destruct (match err with Some _ => _ | None => _ end) as [[[q' due]|e] w2]; [|done].
  set (replayed := mbind _ _). destruct replayed as [[p' epoch]|e] eqn:Hr; [|by destruct due; [intros [= <- <-]|repeat (case_match; simplify_eq); intros [= <- <-]]].
  intros [= <- <-]. cbn. unfold replayed in Hr. inv_result. destruct x as [active epoch']. case_bool_decide; inv_result; simplify_eq; [done|].
  unfold restoreJournal in *. by match goal with Hl : replay_loop _ _ _ = _ |- _ => apply replay_loop_prefix in Hl end.
Qed.

Lemma OpenPersistence_prefix path window now p w r w' :
  OpenPersistence unmarshal yaml_encode yaml_decode path window now p w = (Ok r, w') -> p_prefix r.1.2 = p_prefix p.
Proof.
  unfold OpenPersistence. destruct (_ || _ || _); [done|]. destruct (window <? 0); [done|]. unfold io_then.
  destruct (open_snapshot _ _ _ _ _ _) as [[[[p1 sn] q]|e] w1] eqn:H1; [|done]. apply open_snapshot_prefix in H1. cbn in H1.
  destruct (open_journal _ _ _ _ _ _ _ _) as [[[[[p2 epoch] due] q2]|e] w2] eqn:H2; [|done]. apply open_journal_prefix in H2. cbn in H2.
  unfold io_return. intros H. repeat (case_match; simplify_eq; try done); cbn in *; congruence.
Qed.

Lemma masked_family pre : prefix_wf pre -> prefix_valid pre = true -> is4in6 (prefix_addr pre) = false ->
  is4 (prefix_addr (masked pre)) = is4 (prefix_addr pre) /\ is6 (prefix_addr (masked pre)) = is6 (prefix_addr pre) /\ is4in6 (prefix_addr (masked pre)) = false.
Proof.
  intros (Hwf & Hb & _) Hv H46. unfold masked. rewrite Hv. cbn [prefix_addr]. unfold prefix_bits, prefix_valid in *.
  destruct (prefix_addr pre) as [|v|v z]; cbn in *; [done|done|]. split_and!; [done..|].
  apply Z.eqb_neq. intros H%mask_not_mapped; [|lia|lia]. rewrite H in H46. by apply Z.eqb_neq in H46.
Qed.

Lemma newPool_masked pre ttl mx rf p : newPool pre ttl mx rf = Ok p -> prefix_valid pre = true /\ is4in6 (prefix_addr pre) = false /\ p_prefix p = masked pre.
Proof.
  unfold newPool. intros H. inv_result. to_prop. destruct (usableCapacity _ _); [|done]. inv_result. by subst p.
Qed.

Lemma on_files_Ok {A} text (m : IO file_error A) w r w' : on_files text m w = (Ok r, w') -> m (wk_files w) = (Ok r, wk_files w') /\ w' = with_files (wk_files w') w.
Proof. unfold on_files. destruct (m (wk_files w)) as [[a|e] f]; cbn; [by intros [= <- <-]|done]. Qed.

(** Opening the persistence files of a configuration. *)
Definition opens (c : Config) (now : Z) (w : ServiceWorker) : Prop :=
  is_ok ((act! _ := open_ipv4 unmarshal yaml_encode yaml_decode c now in open_ipv6 unmarshal yaml_encode yaml_decode c now) w).1 = true.

Lemma open_ipv4_spec raw c now w : compile raw = Ok c ->
  let '(r, w') := open_ipv4 unmarshal yaml_encode yaml_decode c now w in
  w' = with_files (wk_files w') w /\ match r with Ok o => is4 (prefix_addr (p_prefix o.1)) = true | Err _ => True end.
Proof.
  intros Hc. destruct (compiled_pools_start _ _ Hc) as ((p & Hp) & Hwf & H4 & _). unfold open_ipv4, act_bind, act_of. rewrite Hp. cbn [map_err].
  apply newPool_masked in Hp as (Hv & H46 & Hpre). destruct (masked_family _ Hwf Hv H46) as (Hf & _ & _).
  unfold on_files. destruct (OpenPersistence _ _ _ _ _ _ _ _) as [[[[pe p'] q]|e] f] eqn:Ho; cbn; [|done].
  split; [done|]. apply OpenPersistence_prefix in Ho. cbn in Ho. by rewrite Ho, Hpre, Hf.
Qed.

Lemma open_ipv6_spec raw c now w : compile raw = Ok c ->
  let '(r, w') := open_ipv6 unmarshal yaml_encode yaml_decode c now w in
  w' = with_files (wk_files w') w /\
  match r with Ok (Some o) => is6 (prefix_addr (p_prefix o.1)) = true /\ is4in6 (prefix_addr (p_prefix o.1)) = false | _ => True end.
Proof.
  intros Hc. destruct (compiled_pools_start _ _ Hc) as (_ & _ & _ & _ & H6). unfold open_ipv6. destruct (CFakeIPv6 c) as [f|]; [|by destruct w].
  destruct (H6 f eq_refl) as ((p & Hp) & Hwf & Hsix & _). unfold act_bind, act_of. rewrite Hp. cbn [map_err].
  apply newPool_masked in Hp as (Hv & H46 & Hpre). destruct (masked_family _ Hwf Hv H46) as (_ & Hs & Hm).
  unfold on_files. destruct (OpenPersistence _ _ _ _ _ _ _ _) as [[[[pe p'] q]|e] fs] eqn:Ho; cbn; [|done].
  split; [done|]. apply OpenPersistence_prefix in Ho. cbn in Ho. by rewrite Ho, Hpre, Hs.
Qed.

(** ** Building *)

(** With pools of their families the servers are always built. *)
Lemma build_servers_spec raw c leases plane p4 p6 w :
  compile raw = Ok c -> leases_ok leases -> is4 (prefix_addr (p_prefix p4)) = true ->
  match p6 with Some p => is6 (prefix_addr (p_prefix p)) = true /\ is4in6 (prefix_addr (p_prefix p)) = false | None => True end ->
  exists client dns, build_servers c (runtimeWithInterfaceDNS c leases) plane p4 p6 w = (Ok dns, w) /\
    forward_client (runtimeWithInterfaceDNS c leases) (MaxConcurrent (CDNS c)) = Ok client /\
    srv_runtime dns = MkRuntime (DNSTTL (CFakeIP c)) runtimeDNSQueryTimeout (Exclude (CFakeIP c)) (Some (fun domain => shouldFake domain plane)) client /\
    dc_Listen (srv_config dns) = Listen (CDNS c) /\ dc_UDP (srv_config dns) = true /\ dc_TCP (srv_config dns) = true.
Proof.
  intros Hc Hl H4 H6. destruct (forward_client_made raw c leases Hc Hl) as [client Hcl].
  pose proof (compiled_listener _ _ Hc) as (Hi4 & Hlo & _ & Hport & Hm & Hmtu & _ & Hbuf). pose proof (compiled_ttl _ _ Hc) as Ht.
  exists client. unfold build_servers. rewrite Hcl. cbn [map_err mbind result_bind]. unfold NewDualStack. cbn [dc_Listen dc_UDP dc_TCP dc_TTL dc_QueryTimeout dc_MaxConcurrent dc_ShouldFake].
  assert (ap_valid (Listen (CDNS c)) = true) as -> by (unfold ap_valid; by destruct (ap_addr (Listen (CDNS c)))). rewrite Hi4, Hlo. cbn [negb orb].
  replace (ap_port (Listen (CDNS c)) =? 0) with false by (symmetry; apply Z.eqb_neq; lia). cbn [guard_err andb].
  replace (DNSTTL (CFakeIP c) <=? 0) with false by (symmetry; apply Z.leb_gt; lia). cbn [guard_err].
  change (runtimeDNSQueryTimeout =? 0) with false. cbn iota. change (runtimeDNSQueryTimeout <? 0) with false. cbn [guard_err].
  replace ((MaxConcurrent (CDNS c) <=? 0) || (65536 <? MaxConcurrent (CDNS c))) with false by (symmetry; apply orb_false_iff; lia). cbn [guard_err].
  rewrite H4. cbn [negb guard_err].
  assert (match p6 with Some p => negb (is6 (prefix_addr (p_prefix p))) || is4in6 (prefix_addr (p_prefix p)) | None => false end = false) as ->.
  { destruct p6 as [p|]; [|done]. by destruct H6 as [-> ->]. }
  cbn [guard_err map_err mbind result_bind]. unfold Tun.NewBufferPool, Tun.PacketOffset.
  replace (4 + MTU (CTUN c) + 256 <=? 4) with false by (symmetry; apply Z.leb_gt; lia). cbn [guard_err].
  replace ((ConfigTypes.BufferPool (CTUN c) <? 2) || (4096 <? ConfigTypes.BufferPool (CTUN c))) with false by (symmetry; apply orb_false_iff; lia).
  cbn [guard_err map_err mbind result_bind]. eexists. split; [done|]. by split_and!.
Qed.

(** Everything else is built too: only the files and the library of the stack
    can fail. *)
Lemma build_spec b i c digest w : load (bs_Config b) = Ok (c, digest) -> leases_ok (bs_InterfaceDNS b) ->
  let '(r, w') := build unmarshal yaml_encode yaml_decode b i c digest w in
  match r with
  | Ok s => (opens c (pi_now i) w /\ pi_stack i = None) /\ runs (bs_Config b, bs_InterfaceDNS b) s /\
            (dc_Listen (srv_config (ws_dns s)) = Listen (CDNS c) /\ dc_UDP (srv_config (ws_dns s)) = true /\ dc_TCP (srv_config (ws_dns s)) = true) /\
            w' = with_parts (set_stack true (wk_parts w)) (with_files (wk_files w') w)
  | Err _ => ~ (opens c (pi_now i) w /\ pi_stack i = None) /\ w' = with_files (wk_files w') w
  end.
Proof.
  intros Hload Hl. destruct (loaded_compiled _ _ _ _ _ Hload) as [raw Hc]. unfold build, opens.
  pose proof (open_ipv4_spec raw c (pi_now i) w Hc) as H4. unfold act_bind.
  destruct (open_ipv4 _ _ _ c (pi_now i) w) as [[o4|e] w1]; cbn [fst snd is_ok]; [|split; [by intros [? _]|by apply H4]]. destruct H4 as [Hw1 H4].
  pose proof (open_ipv6_spec raw c (pi_now i) w1 Hc) as H6.
  destruct (open_ipv6 _ _ _ c (pi_now i) w1) as [[o6|e] w2]; cbn [fst snd is_ok].
  2: { split; [by intros [? _]|]. destruct H6 as [-> _]. rewrite Hw1. done. }
  destruct H6 as [Hw2 H6]. set (active6 := if bs_IPv6Enabled b then fst <$> o6 else None).
  destruct (plane_serves raw c (bs_InterfaceDNS b) (Some PoolIPv4) ((fun _ => PoolIPv6) <$> active6) Hc Hl) as (plane & g & Hp & Hlim & Hcur & Hg).
  unfold act_of. rewrite Hp. cbn [map_err].
  pose proof (compiled_listener _ _ Hc) as (_ & _ & _ & _ & _ & Hmtu & Hq & _). pose proof Hc as (_ & _ & _ & _ & _ & _ & _ & _ & _ & _ & Hsess & _)%compile_Ok.
  apply compileSessions_Ok in Hsess as (_ & _ & Hmax).
  assert (Netstack.check_config (Netstack.MkConfig (MTU (CTUN c)) (PacketQueue (CTUN c)) (MaxTCPFlows (CSessions c))) true true = Ok tt) as ->.
  { unfold Netstack.check_config, Netstack.IPv4MinimumSize. cbn.
    replace (MTU (CTUN c) <? 20) with false by (symmetry; apply Z.ltb_ge; lia). replace (PacketQueue (CTUN c) <=? 0) with false by (symmetry; apply Z.leb_gt; lia).
    replace (MaxTCPFlows (CSessions c) <=? 0) with false by (symmetry; apply Z.leb_gt; lia). done. }
  cbn [map_err]. destruct (pi_stack i) as [e|].
  { split; [by intros [_ ?]|]. rewrite Hw2, Hw1. done. }
  unfold on_parts, update. edestruct (build_servers_spec raw c (bs_InterfaceDNS b) plane o4.1 active6) as (client & dns & Hb & Hcl & Hrt & Hcfg); [done|done|done| |].
  { unfold active6. destruct (bs_IPv6Enabled b), o6 as [o6|]; cbn; done. }
  rewrite Hb. cbn [act_ret]. split; [done|]. split.
  - split; cbn; try done; [by exists g|]. eexists _, client. by split_and!.
  - split; [exact Hcfg|]. rewrite Hw2, Hw1. done.
Qed.

(** ** Starting *)

(** Whether the start of what was built succeeds. *)
Definition starts (i : prepare_input) : Prop := pi_serve i = None /\ pi_stopped i = None /\ pi_status i = None.

(** The worker after a start that succeeded, and after one that failed. *)
Definition started (s : service) (w : ServiceWorker) : ServiceWorker :=
  MkWorker (Some s) true (wk_committed w) (wk_device w) false true true (wk_done w) (wk_closing w) (wk_closed w)
    (start_status (start_serving (start_data (wk_parts w)))) (wk_files w).

Definition start_failed (s : service) (listeners : bool) (w : ServiceWorker) : ServiceWorker :=
  MkWorker (Some s) (wk_prepared w) (wk_committed w) (wk_device w) listeners false (wk_statusServer w) (wk_done w) (wk_closing w) (wk_closed w)
    (torn_down (wk_parts w)) (wk_files w).

Lemma start_spec i s w x :
  addr_port_text x = pi_udp i -> addr_port_text x = pi_tcp i -> parse_addr_port (addr_port_text x) = Some x ->
  dc_Listen (srv_config (ws_dns s)) = x /\ dc_UDP (srv_config (ws_dns s)) = true /\ dc_TCP (srv_config (ws_dns s)) = true ->
  let '(r, w') := start i s w in
  match r with
  | Ok _ => starts i /\ w' = started s w
  | Err _ => ~ starts i /\ exists listeners, w' = start_failed s listeners w
  end.
Proof.
  intros Hu Ht Hp (Hx & Hud & Htc). unfold start, starts, act_bind, update, on_parts.
  assert (check_listeners (srv_config (ws_dns s)) (Some (pi_udp i)) (Some (pi_tcp i)) = Ok tt) as ->.
  { unfold check_listeners, validateListenerAddress. rewrite Hud, Htc, <- Hu, <- Ht, Hx, Hp. cbn. by rewrite bool_decide_eq_true_2. }
  cbn [map_err mbind result_bind].
  destruct (pi_serve i) as [e|]; [split; [by intros (? & _)|]; eexists; reflexivity|].
  destruct (pi_stopped i) as [[e c]|]; [split; [by intros (_ & ? & _)|]; eexists; reflexivity|].
  destruct (pi_status i) as [e|]; [split; [by intros (_ & _ & ?)|]; eexists; reflexivity|]. done.
Qed.

(** What [Prepare] needs of the bootstrap message and of its surroundings. *)
Definition preparable (b : Bootstrap) (i : prepare_input) (w : ServiceWorker) : Prop :=
  wk_prepared w = false /\ wk_device w = true /\ wk_listeners w = true /\
  exists c, load (bs_Config b) = Ok (c, bs_ConfigDigest b) /\ addr_port_text (Listen (CDNS c)) = bs_DNSListen b /\
    UDP (CDNS c) = true /\ TCP (CDNS c) = true /\ pi_name i = bs_TUNName b /\ pi_mtu i = Ok (MTU (CTUN c)) /\
    pi_udp i = bs_DNSListen b /\ pi_tcp i = bs_DNSListen b /\
    opens c (pi_now i) w /\ pi_stack i = None /\ starts i.

Lemma check_bootstrap_spec b i w :
  let '(r, w') := check_bootstrap config_yaml sha256 b i w in
  w' = w /\
  match r with
  | Ok (c, digest) =>
      load (bs_Config b) = Ok (c, digest) /\ digest = bs_ConfigDigest b /\ addr_port_text (Listen (CDNS c)) = bs_DNSListen b /\
      UDP (CDNS c) = true /\ TCP (CDNS c) = true /\ pi_name i = bs_TUNName b /\ pi_mtu i = Ok (MTU (CTUN c)) /\
      pi_udp i = bs_DNSListen b /\ pi_tcp i = bs_DNSListen b /\ wk_device w = true /\ wk_listeners w = true
  | Err _ => ~ preparable b i w
  end.
Proof.
  unfold check_bootstrap, preparable, act_bind, act_of, act_unless.
  destruct (load (bs_Config b)) as [[c digest]|e]; cbn [map_err]; [|split; [done|]; by intros (_ & _ & _ & c & ? & _)].
  assert (Hneg : forall P : Config -> Prop, ~ P c ->
    ~ (wk_prepared w = false /\ wk_device w = true /\ wk_listeners w = true /\ exists c0, Ok (c, digest) = Ok (E := config_error) (c0, bs_ConfigDigest b) /\ P c0)).
  { intros P HP (_ & _ & _ & c0 & [= <- _] & H). by apply HP. }
  case_bool_decide as Hd; cbn [negb]; [|split; [done|]; intros (_ & _ & _ & c0 & [= _ ?] & _); done].
  case_bool_decide as Hl; cbn [negb]; [|split; [done|]; apply Hneg; by intros (? & _)].
  destruct (UDP (CDNS c)) eqn:Hu, (TCP (CDNS c)) eqn:Ht; cbn [negb orb]; try (split; [done|]; apply Hneg; intros (_ & ? & ? & _); congruence).
  destruct (wk_device w) eqn:Hdev; cbn [negb]; [|split; [done|]; by intros (_ & ? & _)].
  case_bool_decide as Hn; cbn [negb]; [|split; [done|]; apply Hneg; by intros (_ & _ & _ & ? & _)].
  destruct (pi_mtu i) as [mtu|e] eqn:Hm; cbn [map_err]; [|split; [done|]; apply Hneg; by intros (_ & _ & _ & _ & ? & _)].
  destruct (mtu =? MTU (CTUN c)) eqn:Hmtu; cbn [negb]; [|split; [done|]; apply Hneg; intros (_ & _ & _ & _ & [= ->] & _); by rewrite Z.eqb_refl in Hmtu].
  apply Z.eqb_eq in Hmtu as ->.
  destruct (wk_listeners w) eqn:Hli; cbn [negb]; [|split; [done|]; by intros (_ & _ & ? & _)].
  case_bool_decide as Hpu; cbn [negb]; [|split; [done|]; apply Hneg; by intros (_ & _ & _ & _ & _ & ? & _)].
  case_bool_decide as Hpt; cbn [negb act_ret]; [|split; [done|]; apply Hneg; by intros (_ & _ & _ & _ & _ & _ & ? & _)].
  by split_and!.
Qed.

(** A worker after a call that did not get to the start. *)
Definition built (stack : bool) (w w' : ServiceWorker) : ServiceWorker :=
  with_files (wk_files w') (if stack then with_parts (set_stack true (wk_parts w)) w else w).

Lemma Prepare_spec b i w : leases_ok (bs_InterfaceDNS b) ->
  let '(r, w') := Prepare config_yaml sha256 unmarshal yaml_encode yaml_decode b i w in
  match r with
  | Ok _ => preparable b i w /\ exists s, runs (bs_Config b, bs_InterfaceDNS b) s /\ w' = started s (built true w w')
  | Err _ => ~ preparable b i w /\
      (w' = built false w w' \/ wk_prepared w = false /\ wk_device w = true /\ exists s listeners, w' = start_failed s listeners (built true w w'))
  end.
Proof.
  intros Hl. unfold Prepare, act_unless. destruct (wk_prepared w) eqn:Hprep.
  { split; [by intros (? & _); congruence|]. left. by destruct w. }
  unfold act_bind. pose proof (check_bootstrap_spec b i w) as Hcheck. destruct (check_bootstrap _ _ b i w) as [[[c digest]|e] w1]; destruct Hcheck as [-> Hcheck].
  2: { split; [done|]. left. by destruct w. }
  destruct Hcheck as (Hload & Hdig & Hlisten & Hu & Ht & Hn & Hm & Hpu & Hpt & Hdev & Hli).
  cbn [fst snd]. pose proof (build_spec b i c digest w Hload Hl) as Hb. destruct (build _ _ _ b i c digest w) as [[s|e] w2].
  - destruct Hb as ([Ho Hst] & Hr & Hcfg & Hw2). destruct (loaded_compiled _ _ _ _ _ Hload) as [raw Hc].
    pose proof (compiled_listener _ _ Hc) as (Hi4 & _ & Hawf & Hport & _).
    pose proof (start_spec i s w2 (Listen (CDNS c)) ltac:(congruence) ltac:(congruence) (parse_listener _ Hi4 Hawf Hport) Hcfg) as Hs.
    destruct (start i s w2) as [[[]|e] w3].
    + destruct Hs as [Hs ->]. split.
      * unfold preparable. split_and!; [done..|]. exists c. subst digest. split_and!; done.
      * exists s. split; [done|]. rewrite Hw2. done.
    + destruct Hs as (Hs & listeners & ->). split.
      * intros (_ & _ & _ & c0 & Hc0 & H). apply Hs. naive_solver.
      * right. split; [done|]. split; [done|]. exists s, listeners. rewrite Hw2. done.
  - destruct Hb as [Hb Hw2]. split; [|by left]. intros (_ & _ & _ & c0 & Hc0 & H). assert (c0 = c) as -> by congruence. apply Hb. naive_solver.
Qed.

(** ** The life of a worker *)

(** The servers that a message brings come from leases. *)
Definition event_ok (ev : worker_event) : Prop :=
  match ev with
  | EvPrepare b _ => leases_ok (bs_InterfaceDNS b)
  | EvReload r _ => leases_ok (rl_InterfaceDNS r)
  | _ => True
  end.

(** Nothing that the worker started is open or runs. *)
Definition nothing_started (p : parts) : Prop := pa_stack p = false /\ pa_serving p = false /\ pa_status p = false /\ pa_data p = false.

Definition everything_started (w : ServiceWorker) : Prop :=
  let p := wk_parts w in
  pa_stack p = true /\ pa_serving p = true /\ pa_status p = true /\ pa_data p = true /\ wk_runningDNS w = true /\ wk_statusServer w = true.

Record worker_inv (told : option (string * interface_dns)) (w : ServiceWorker) : Prop := {
  wi_committed : wk_committed w = true -> wk_prepared w = true;
  wi_runs : wk_prepared w = true -> exists t s, told = Some t /\ wk_service w = Some s /\ runs t s;
  wi_device : pa_device (wk_parts w) = true -> wk_device w = true;
  wi_idle : wk_prepared w = false -> nothing_started (wk_parts w) /\ pa_running (wk_parts w) = [];
  wi_open : wk_prepared w = true -> wk_closed w = None -> everything_started w;
  wi_closed : is_Some (wk_closed w) -> wk_device w = false /\ nothing_started (wk_parts w)
}.

Notation run := (worker_run config_yaml sha256 unmarshal yaml_encode yaml_decode).
Notation step := (worker_step config_yaml sha256 unmarshal yaml_encode yaml_decode).

Lemma new_worker_inv files w : NewServiceWorker true true true true files = Ok w -> worker_inv None w.
Proof. intros [= <-]. split; cbn; try done; by intros [? ?]. Qed.

(** A change of the service that keeps what it runs. *)
Lemma on_service_inv told f w : (forall t s, runs t s -> runs t (f s)) -> worker_inv told w -> worker_inv told (on_service f w).
Proof.
  intros Hf [Hc Hr Hd Hi Ho Hcl]. split; cbn; try done. intros Hp. destruct (Hr Hp) as (t & s & -> & -> & Hs). exists t, (f s). cbn. auto.
Qed.

Lemma Prepare_inv told b i w r w' : leases_ok (bs_InterfaceDNS b) -> worker_inv told w ->
  Prepare config_yaml sha256 unmarshal yaml_encode yaml_decode b i w = (r, w') ->
  worker_inv (accepts (EvPrepare b i) (outcome_of r) told) w'.
Proof.
  intros Hl [Hc Hr Hd Hi Ho Hcl] He. pose proof (Prepare_spec b i w Hl) as Hs. rewrite He in Hs. destruct r as [[]|e]; cbn [outcome_of accepts].
  - destruct Hs as ((Hp & Hdev & _) & s & Hs & ->). destruct (Hi Hp) as [_ Hrun].
    assert (Hopen : wk_closed w = None) by (destruct (wk_closed w) as [x|]; [|done]; destruct (Hcl (ex_intro _ x eq_refl)); congruence).
    split; cbn; rewrite ?Hopen; try done; try (by intros [? ?]); try (by exists (bs_Config b, bs_InterfaceDNS b), s).
  - destruct Hs as [_ [->|(Hp & Hdev & s & listeners & ->)]]; [by split|]. destruct (Hi Hp) as [(_ & _ & Hst & _) Hrun].
    assert (Hopen : wk_closed w = None) by (destruct (wk_closed w) as [x|]; [|done]; destruct (Hcl (ex_intro _ x eq_refl)); congruence).
    split; cbn; rewrite ?Hp, ?Hopen; try done; try (by intros [? ?]); try (intros H; by rewrite Hc in Hp by done).
Qed.

Lemma Commit_inv told stopped w r w' : worker_inv told w -> Commit stopped w = (r, w') -> worker_inv told w'.
Proof.
  intros [Hc Hr Hd Hi Ho Hcl]. unfold Commit, act_unless. destruct (wk_prepared w) eqn:Hp; cbn [negb]; [|intros [= <- <-]; by split; rewrite ?Hp].
  destruct (wk_committed w) eqn:Hcom; [intros [= <- <-]; by split; rewrite ?Hp|].
  destruct (if wk_runningDNS w then stopped else None) as [[e|]|]; [intros [= <- <-]; by split; rewrite ?Hp..|].
  destruct (wk_done w) as [e|]; intros [= <- <-]; split; cbn; rewrite ?Hp, ?Hcom; try done; auto.
Qed.

Lemma Reload_inv told reload i w r w' : leases_ok (rl_InterfaceDNS reload) -> worker_inv told w -> Reload config_yaml sha256 reload i w = (r, w') ->
  worker_inv (accepts (EvReload reload i) (outcome_of r) told) w'.
Proof.
  intros Hl [Hc Hr Hd Hi Ho Hcl]. unfold Reload. destruct (wk_committed w) eqn:Hcom; cbn [negb]; [|intros [= <- <-]; by split; rewrite ?Hcom].
  destruct (Hr (Hc eq_refl)) as (t & s & -> & Hws & Hs). rewrite Hws. pose proof (reload_service_cases t reload i s Hs Hl) as Hspec.
  destruct (reload_service _ _ reload i s) as [[[]|e] s']; intros [= <- <-].
  - destruct Hspec as (_ & Hs' & _). split; cbn; rewrite ?Hcom; try done. intros _. by exists (rl_Config reload, rl_InterfaceDNS reload), s'.
  - destruct Hspec as (_ & _ & Hs'). split; cbn; rewrite ?Hcom; try done. intros _. by exists t, s'.
Qed.

Lemma component_ended_inv told c err w : c ∈ pa_running (wk_parts w) -> worker_inv told w -> worker_inv told (component_ended c err w).
Proof.
  intros Hin [Hc Hr Hd Hi Ho Hcl].
  assert (Hrun : wk_prepared w = false -> pa_running (wk_parts w) = []) by (intros H; by apply Hi).
  assert (Hp : wk_prepared w = true) by (destruct (wk_prepared w); [done|]; rewrite Hrun in Hin by done; by apply elem_of_nil in Hin).
  unfold component_ended. destruct (_ || _ || _); [|destruct (wk_done w)]; split; cbn; rewrite ?Hp; try done; auto.
Qed.

(** Everything that was open is closed. *)
Lemma Close_parts told i w : worker_inv told w -> wk_closed w = None -> pa_device (closed_parts i w) = false /\ nothing_started (closed_parts i w).
Proof.
  intros [Hc Hr Hd Hi Ho Hcl] Hopen. unfold closed_parts, nothing_started. cbn.
  assert (Hdev : pa_device (wk_parts w) && negb (wk_device w) = false) by (destruct (pa_device (wk_parts w)); [by rewrite Hd|done]).
  split; [done|]. destruct (wk_prepared w) eqn:Hp.
  - destruct (Ho eq_refl Hopen) as (-> & -> & -> & -> & -> & ->). destruct (Hr eq_refl) as (t & s & _ & -> & _). by rewrite bool_decide_eq_true_2 by done.
  - destruct (Hi eq_refl) as [(-> & -> & -> & ->) _]. done.
Qed.

Lemma Close_inv told i w e w' : worker_inv told w -> Close i w = (e, w') -> worker_inv told w'.
Proof.
  intros Hinv. pose proof (Close_parts told i w Hinv) as Hparts. destruct Hinv as [Hc Hr Hd Hi Ho Hcl]. unfold Close.
  destruct (wk_closed w) as [x|] eqn:Hopen; [intros [= <- <-]; by split; rewrite ?Hopen|]. intros [= <- <-].
  destruct (Hparts eq_refl) as [Hdev Hnone]. split; cbn; try done.
  - intros H. cbn in Hdev. congruence.
  - intros Hp. split; [done|]. destruct (Hi Hp) as [_ ->]. by destruct (bool_decide _).
Qed.

Lemma step_inv told ev w outcome w' : event_ok ev -> worker_inv told w -> step ev w = Some (outcome, w') -> worker_inv (accepts ev outcome told) w'.
Proof.
  intros Hok Hinv. destruct ev as [b i|stopped|reload i|fingerprint|i|sessions counts|c err| |i]; cbn [worker_step].
  - destruct (Prepare _ _ _ _ _ b i w) as [r w1] eqn:H. intros [= <- <-]. by eapply Prepare_inv.
  - destruct (Commit stopped w) as [r w1] eqn:H. intros [= <- <-]. by eapply Commit_inv.
  - destruct (Reload _ _ reload i w) as [r w1] eqn:H. intros [= <- <-]. by eapply Reload_inv.
  - case_bool_decide; [|done]. intros [= <- <-]. apply on_service_inv; [|done]. intros t s. apply monitor_starts_runs.
  - case_bool_decide; [|done]. intros [= <- <-]. apply on_service_inv; [|done]. intros t s. apply monitor_tick_runs.
  - intros [= <- <-]. apply on_service_inv; [|done]. intros t s. apply with_sessions_runs.
  - case_bool_decide; [|done]. intros [= <- <-]. by apply component_ended_inv.
  - intros [= <- <-]. destruct Hinv as [Hc Hr Hd Hi Ho Hcl]. by split.
  - destruct (Close i w) as [e w1] eqn:H. intros [= <- <-]. by eapply Close_inv.
Qed.

Lemma worker_run_inv evs told w told' w' : Forall event_ok evs -> worker_inv told w -> run evs w told = Some (w', told') -> worker_inv told' w'.
Proof.
  revert told w. induction evs as [|ev evs IH]; intros told w Hok Hinv; cbn [worker_run]; [by intros [= <- <-]|].
  apply Forall_cons in Hok as [Hev Hok]. destruct (step ev w) as [[outcome w1]|] eqn:Hs; [|done]. apply IH; [done|]. by eapply step_inv.
Qed.

Lemma reached_inv evs files w0 w told : NewServiceWorker true true true true files = Ok w0 -> Forall event_ok evs ->
  run evs w0 None = Some (w, told) -> worker_inv told w.
Proof. intros H0 Hok. eapply worker_run_inv; [done|]. by eapply new_worker_inv. Qed.

(** The errors of a refused reload. *)
Definition annotated (reload : Privsep.Reload) (e : app_error) : Prop :=
  exists code message retryable ds cause, e = Typed code "service.reload" message retryable ds cause /\
    ds !! "reload_request_id" = Some (DString (rl_ReloadRequestID reload)) /\ ds !! "phase" = Some (DString "worker").

Lemma annotated_made timedOut reload e : annotated reload (annotateWorkerReloadError timedOut reload e).
Proof.
  unfold annotateWorkerReloadError. eexists _, _, _, _, _. split; [done|]. unfold sanitizeDetails.
  assert (Ha : forall key value (d : details), d !! key = Some value -> safe_detail (key, value) -> filter safe_detail d !! key = Some value).
  { intros key value d Hd Hs. by apply map_lookup_filter_Some. }
  assert (Hkey : forall key, bool_decide (key ∈ allowedDetailKeys) = true -> key ∈ allowedDetailKeys) by (intros key; apply bool_decide_eq_true).
  split; apply Ha; [done|split; [by apply Hkey|done]|done|split; [by apply Hkey|done]].
Qed.

Lemma annotated_code timedOut reload code operation message retryable ds cause :
  is_deadline cause = false -> IsKnownCode code = true ->
  CodeOf (Some (annotateWorkerReloadError timedOut reload (Typed code operation message retryable ds (Some cause)))) =
    if timedOut then CodeReloadTimeout else code.
Proof.
  intros Hd Hk. unfold annotateWorkerReloadError. cbn [is_deadline]. rewrite Hd. cbn [orb find_typed].
  unfold CodeOf at 2. cbn [joined_children find_typed]. unfold normalizedCode. rewrite Hk. destruct timedOut; [done|].
  unfold CodeOf, Wrap, WithDetails. cbn [joined_children find_typed]. unfold normalizedCode. by rewrite !Hk.
Qed.

(** The code of a refusal says why. *)
Definition refusal_code (reload : Privsep.Reload) (i : worker_reload_input) (s : service) (code : Code) : Prop :=
  (ri_timedOut i = true -> code = CodeReloadTimeout) /\
  (ri_timedOut i = false ->
    match load (rl_Config reload) with
    | Err _ => code = CodeConfigInvalid
    | Ok (next, digest) =>
        if bool_decide (digest = rl_ConfigDigest reload)
        then ValidateReload (Some (ws_runtime s)) (Some next) <> [] -> code = CodeConfigRestartRequired
        else code = CodeReloadDigestMismatch
    end).

Lemma refusal_codes reload i s e : (reload_service config_yaml sha256 reload i s).1 = Err e -> refusal_code reload i s (CodeOf (Some e)) /\ annotated reload e.
Proof.
  unfold reload_service. destruct (check_reload config_yaml sha256 reload (ri_interfaces i) s) as [[[[[next digest] effective] g] dns]|err] eqn:Hc; cbn [fst]; [done|].
  intros [= <-]. split; [|apply annotated_made]. split.
  { intros Ht. unfold annotateWorkerReloadError. rewrite Ht, orb_true_r. done. }
  intros Ht. rewrite Ht. revert Hc. unfold check_reload.
  destruct (load (rl_Config reload)) as [[next digest]|e]; cbn [map_err mbind result_bind]; [|intros [= <-]; by apply annotated_code].
  case_bool_decide as Hd; cbn [negb guard_err]; [|intros [= <-]; by apply annotated_code].
  intros Hc Hv. unfold PreflightReload in Hc. rewrite bool_decide_eq_false_2 in Hc by done. cbn in Hc. injection Hc as <-.
  by apply annotated_code.
Qed.

Lemma not_running_annotated reload : annotated reload (not_running reload) /\ CodeOf (Some (not_running reload)) = CodeServiceNotRunning.
Proof.
  split; [|done]. eexists _, _, _, _, _. split; [done|]. unfold sanitizeDetails.
  assert (Hkey : forall key, bool_decide (key ∈ allowedDetailKeys) = true -> key ∈ allowedDetailKeys) by (intros key; apply bool_decide_eq_true).
  split; (apply map_lookup_filter_Some; split; [done|split; [by apply Hkey|done]]).
Qed.

(** ** Theorems *)

(** C5: The worker runs what it was told.  However preparations, commits,
    reloads, changes of the network, flows, failing parts and the end are
    interleaved, and whatever fails in them, a prepared worker runs exactly
    the configuration and the servers of the last bootstrap or reload that it
    accepted: its data plane, Fake DNS and monitor all agree on it. *)
Theorem worker_runs_accepted files w0 evs w told :
  NewServiceWorker true true true true files = Ok w0 -> Forall event_ok evs -> run evs w0 None = Some (w, told) ->
  wk_prepared w = true -> exists t s, told = Some t /\ wk_service w = Some s /\ runs t s.
Proof. intros H0 Hok Hrun Hp. by apply (wi_runs _ _ (reached_inv _ _ _ _ _ H0 Hok Hrun)). Qed.

(** C16: A reload of a committed worker is accepted exactly when its bytes
    compile to the digest that it names, the configuration may replace the
    running one without a restart and the interfaces are there; building its
    data plane, resolver and policy never fails then.  A refused one changes
    nothing but the report of the monitor, and its error names the request and
    carries the code of its reason. *)
Theorem worker_reload_exact files w0 evs w told reload i :
  NewServiceWorker true true true true files = Ok w0 -> Forall event_ok evs -> run evs w0 None = Some (w, told) ->
  leases_ok (rl_InterfaceDNS reload) ->
  let '(r, w') := Reload config_yaml sha256 reload i w in
  (r = Ok tt <-> wk_committed w = true /\ exists s, wk_service w = Some s /\ acceptable reload (ri_interfaces i) s) /\
  match r with
  | Ok _ => exists s', w' = with_service (Some s') w /\ runs (rl_Config reload, rl_InterfaceDNS reload) s' /\ ws_digest s' = rl_ConfigDigest reload
  | Err e =>
      annotated reload e /\
      if wk_committed w
      then exists s m, wk_service w = Some s /\ w' = with_service (Some (with_monitor m s)) w /\ refusal_code reload i s (CodeOf (Some e))
      else w' = w /\ CodeOf (Some e) = CodeServiceNotRunning
  end.
Proof.
  intros H0 Hok Hrun Hl. pose proof (reached_inv _ _ _ _ _ H0 Hok Hrun) as Hinv. unfold Reload. destruct (wk_committed w) eqn:Hcom; cbn [negb].
  2: { split; [by split; [|intros [? _]]|]. destruct (not_running_annotated reload). done. }
  destruct (wi_runs _ _ Hinv (wi_committed _ _ Hinv Hcom)) as (t & s & _ & Hws & Hs). rewrite Hws.
  pose proof (reload_service_cases t reload i s Hs Hl) as Hspec. pose proof (refusal_codes reload i s) as Hcodes.
  destruct (reload_service _ _ reload i s) as [[[]|e] s'].
  - destruct Hspec as (Ha & Hs' & Hd). split; [|by exists s']. split; [|done]. intros _. split; [done|]. by exists s.
  - destruct Hspec as (Ha & Hm & _). destruct (Hcodes e eq_refl) as [Hcode Hann]. split; [|split; [done|]; exists s, (ws_monitor s'); by rewrite <- Hm].
    split; [done|]. intros (_ & x & [= <-] & ?). done.
Qed.

(** Nothing that the worker started outlives it.  As long as it is not
    prepared - because [Prepare] was not called or failed, at whatever point -
    no stack, socket, context or goroutine of it is left; once prepared,
    everything is there until [Close].  [Close] closes all of it in every
    state, reports exactly the calls that failed, and does so once. *)
Theorem worker_releases files w0 evs w told i :
  NewServiceWorker true true true true files = Ok w0 -> Forall event_ok evs -> run evs w0 None = Some (w, told) ->
  (if wk_prepared w then wk_closed w = None -> everything_started w else nothing_started (wk_parts w) /\ pa_running (wk_parts w) = []) /\
  let '(e, w') := Close i w in
  pa_device (wk_parts w') = false /\ nothing_started (wk_parts w') /\
  (wk_closed w = None -> (e = None <-> close_failures i w = []) /\ (cz_wait i = None -> pa_running (wk_parts w') = [])) /\
  forall j, Close j w' = (e, w').
Proof.
  intros H0 Hok Hrun. pose proof (reached_inv _ _ _ _ _ H0 Hok Hrun) as Hinv. split.
  { destruct (wk_prepared w) eqn:Hp; [by apply (wi_open _ _ Hinv)|by apply (wi_idle _ _ Hinv)]. }
  pose proof (Close_parts told i w Hinv) as Hparts. unfold Close. destruct (wk_closed w) as [e|] eqn:Hopen.
  - rewrite Hopen. destruct (wi_closed _ _ Hinv) as [Hdev Hnone]; [by rewrite Hopen|]. split; [|by split_and!].
    apply not_true_iff_false. intros H%(wi_device _ _ Hinv). congruence.
  - destruct (Hparts eq_refl) as [Hdev Hnone]. cbn [wk_parts wk_closed]. split_and!; try done.
    + intros _. split; [by case_bool_decide|]. intros Hw. unfold closed_parts. cbn. by rewrite bool_decide_eq_true_2.
Qed.

(** C17: A first preparation succeeds exactly when the bootstrap fits the
    inherited device and listeners, the persistence files open and the stack,
    the listeners and the status socket start: for every configuration that
    compiles, none of the parts built from it can fail. *)
Theorem worker_prepares_compiled files w b i :
  NewServiceWorker true true true true files = Ok w -> leases_ok (bs_InterfaceDNS b) ->
  let '(r, w') := Prepare config_yaml sha256 unmarshal yaml_encode yaml_decode b i w in
  (r = Ok tt <-> preparable b i w) /\
  (r = Ok tt -> exists s, wk_service w' = Some s /\ runs (bs_Config b, bs_InterfaceDNS b) s /\ (Commit None w').1 = Ok tt).
Proof.
  intros [= <-] Hl. set (w := MkWorker _ _ _ _ _ _ _ _ _ _ _ _). pose proof (Prepare_spec b i w Hl) as Hs.
  destruct (Prepare _ _ _ _ _ b i w) as [[[]|e] w'].
  - destruct Hs as (Hp & s & Hs & ->). split; [done|]. intros _. exists s. split_and!; done.
  - destruct Hs as [Hn _]. by split.
Qed.
End facts.

(** ** Examples *)

Definition demo_yaml (_ : string) : option rawConfig := Some (demo_raw "" "" "").
Definition demo_sha256 (_ : string) : string := "00".
Definition demo_unmarshal (_ : string) : option journalRecord := None.
Definition demo_encode (_ : Snapshot) : string := "".
Definition demo_decode (_ : string) : option Snapshot := None.
Definition demo_disk : world := MkWorld ∅ [] 0 ["abcdefghijklmnop"; "ponmlkjihgfedcba"] [].

Definition demo_bootstrap : Bootstrap := MkBootstrap "first" "sha256:00" "utun9" "127.0.0.1:53" "/var/run/status.sock" false "" ∅.
Definition demo_inherited : prepare_input := MkPrepareInput "utun9" (Ok 1400) "127.0.0.1:53" "127.0.0.1:53" 1 None None None None.
Definition demo_reload (digest : string) : Privsep.Reload := MkReload "0123456789abcdef0123456789abcdef" "second" digest ∅.
Definition demo_reload_input : worker_reload_input := MkReloadInput None false 2.
Definition demo_close : close_input := MkCloseInput None None None None None None None.

Definition demo_new : ServiceWorker :=
  MkWorker None false false true true false false None false None (MkParts true false false false false []) demo_disk.

(** A life: a reload that is accepted and one that names another digest. *)
Definition demo_life : list worker_event :=
  [EvPrepare demo_bootstrap demo_inherited; EvCommit None; EvMonitor "en0"; EvReload (demo_reload "sha256:00") demo_reload_input;
   EvTick (MkWorkerTick "en1" false None 3); EvReload (demo_reload "sha256:11") demo_reload_input].

Notation demo_run := (fun evs => worker_run demo_yaml demo_sha256 demo_unmarshal demo_encode demo_decode evs demo_new None).

Lemma empty_leases : leases_ok ∅.
Proof. intros name servers H. by rewrite lookup_empty in H. Qed.

Lemma demo_life_ok : Forall event_ok demo_life.
Proof. repeat (apply Forall_cons; split; [first [exact I|apply empty_leases]|]). by apply Forall_nil. Qed.

Lemma worker_runs_accepted_witness :
  match demo_run demo_life with
  | Some (w, told) => wk_prepared w = true /\ told = Some ("second", ∅) /\ exists s, wk_service w = Some s /\ runs demo_yaml demo_sha256 ("second", ∅) s
  | None => False
  end.
Proof.
  assert (H : match demo_run demo_life with Some (w, told) => (wk_prepared w, bool_decide (told = Some ("second", ∅))) = (true, true) | None => False end)
    by (vm_compute; reflexivity).
  destruct (demo_run demo_life) as [[w told]|] eqn:Hrun; [|destruct H].
  injection H as Hp Ht%bool_decide_eq_true. split; [exact Hp|]. split; [exact Ht|].
  destruct (worker_runs_accepted demo_yaml demo_sha256 demo_unmarshal demo_encode demo_decode demo_disk demo_new demo_life w told eq_refl demo_life_ok Hrun Hp)
    as (t & s & Htold & Hs & Hruns).
  exists s. split; [exact Hs|]. rewrite Ht in Htold. injection Htold as <-. exact Hruns.
Defined.

Lemma worker_reload_exact_witness :
  match demo_run demo_life with
  | Some (w, _) =>
      (exists s', (Reload demo_yaml demo_sha256 (demo_reload "sha256:00") demo_reload_input w).2 = with_service (Some s') w /\ ws_digest s' = "sha256:00") /\
      exists e, (Reload demo_yaml demo_sha256 (demo_reload "sha256:11") demo_reload_input w).1 = Err e /\ annotated (demo_reload "sha256:11") e
  | None => False
  end.
Proof.
  assert (H : match demo_run demo_life with
              | Some (w, _) => (is_ok (Reload demo_yaml demo_sha256 (demo_reload "sha256:00") demo_reload_input w).1,
                                is_ok (Reload demo_yaml demo_sha256 (demo_reload "sha256:11") demo_reload_input w).1) = (true, false)
              | None => False
              end) by (vm_compute; reflexivity).
  destruct (demo_run demo_life) as [[w told]|] eqn:Hrun; [|destruct H].
  pose proof (worker_reload_exact demo_yaml demo_sha256 demo_unmarshal demo_encode demo_decode demo_disk demo_new demo_life w told
    (demo_reload "sha256:00") demo_reload_input eq_refl demo_life_ok Hrun empty_leases) as Hok.
  pose proof (worker_reload_exact demo_yaml demo_sha256 demo_unmarshal demo_encode demo_decode demo_disk demo_new demo_life w told
    (demo_reload "sha256:11") demo_reload_input eq_refl demo_life_ok Hrun empty_leases) as Hbad.
  destruct (Reload _ _ (demo_reload "sha256:00") _ w) as [[u|e] w1]; [|discriminate H].
  destruct (Reload _ _ (demo_reload "sha256:11") _ w) as [[u'|e] w2]; [discriminate H|]. split.
  - destruct Hok as (_ & s' & Hw & _ & Hd). exists s'. split; [exact Hw|exact Hd].
  - exists e. split; [reflexivity|]. apply Hbad.
Defined.

Lemma worker_releases_witness :
  match demo_run demo_life with
  | Some (w, _) => everything_started w /\ nothing_started (wk_parts (Close demo_close w).2) /\ (Close demo_close w).1 = None
  | None => False
  end.
Proof.
  assert (H : match demo_run demo_life with
              | Some (w, _) => (wk_prepared w, bool_decide (is_Some (wk_closed w)), bool_decide (close_failures demo_close w = [])) = (true, false, true)
              | None => False
              end) by (vm_compute; reflexivity).
  destruct (demo_run demo_life) as [[w told]|] eqn:Hrun; [|destruct H].
  pose proof (worker_releases demo_yaml demo_sha256 demo_unmarshal demo_encode demo_decode demo_disk demo_new demo_life w told demo_close
    eq_refl demo_life_ok Hrun) as [Hstart Hclose].
  injection H as Hp Hc%bool_decide_eq_false Hf%bool_decide_eq_true. apply eq_None_not_Some in Hc. rewrite Hp in Hstart.
  destruct (Close demo_close w) as [e w']. destruct Hclose as (_ & Hnone & Hopen & _). split; [exact (Hstart Hc)|]. split; [exact Hnone|].
  apply (Hopen Hc). exact Hf.
Defined.

Lemma worker_prepares_compiled_witness :
  exists s, wk_service (Prepare demo_yaml demo_sha256 demo_unmarshal demo_encode demo_decode demo_bootstrap demo_inherited demo_new).2 = Some s /\
    runs demo_yaml demo_sha256 ("first", ∅) s.
Proof.
  pose proof (worker_prepares_compiled demo_yaml demo_sha256 demo_unmarshal demo_encode demo_decode demo_disk demo_new demo_bootstrap demo_inherited
    eq_refl empty_leases) as H.
  assert (Hok : is_ok (Prepare demo_yaml demo_sha256 demo_unmarshal demo_encode demo_decode demo_bootstrap demo_inherited demo_new).1 = true) by (vm_compute; reflexivity).
  destruct (Prepare _ _ _ _ _ demo_bootstrap demo_inherited demo_new) as [[[]|e] w']; [|discriminate Hok].
  destruct H as [_ H]. destruct (H eq_refl) as (s & Hs & Hruns & _). exists s. split; [exact Hs|exact Hruns].
Defined.
