(* ===== verification/Explain.v ===== *)
(** * Component [cmd/tun-proxy]: explaining a flow

    [explain.go]: which rules a flow may match, which one it does match, and
    through which outbound its domain would be resolved, computed by the
    engine and the resolver of the program but outside of it.  Flags are
    parsed by the library.  Two theorems compare what the command says with
    what the sessions of the program do. *)

From stdpp Require Import pretty.
From S2P Require Import Prelude.
From S2P Require Import GoStrings.
From S2P Require Import GoTime.
From S2P Require Import NetIP.
From S2P Require Import DomainName.
From S2P Require Import ConfigTypes.
From S2P Require Import ConfigCompile.
From S2P Require Import ConfigFacts.
From S2P Require Import Outbound.
From S2P Require Import Resolver.
From S2P Require Import ResolverFacts.
From S2P Require Import Rules.
From S2P Require Import Session.
From S2P Require Import SessionHandle.
From S2P Require Import SessionFacts.
From S2P Require Import SessionProperties.
From S2P Require Import EffectiveDNS.
From S2P Require Import DataPlane.
From S2P Require Import DataPlaneFacts.

(** ** Data *)

(** [addressList.Set] *)
Definition addressList_Set (raw : string) (values : list addr) : result string (list addr) :=
  match parse_addr raw with
  | Some address => if is4in6 address then Err "invalid IP address" else Ok (values ++ [address])
  | None => Err "invalid IP address"
  end.

Record explainInput : Type := MkInput { ei_Domain : string; ei_IPs : list string; ei_Family : string }.

Record explainRule : Type := MkExplainRule {
  xr_ID : Z; xr_Domains : list string; xr_DomainSuffixes : list string; xr_DestinationCIDRs : list string;
  xr_Outbound : string; xr_DeferredUntilDNS : bool
}.

Record explainOutbound : Type := MkExplainOutbound {
  xo_Name : string; xo_Type : string; xo_Interface : string; xo_DNSSource : string; xo_DNS : list string;
  xo_ConnectTimeout : string; xo_Fallback : string
}.

Record explainDecision : Type := MkExplainDecision { xd_RuleID : Z; xd_Outbound : explainOutbound }.

Record explainResult : Type := MkExplain {
  xp_Config : string; xp_Input : explainInput; xp_Candidates : list explainRule; xp_CandidateDecision : explainDecision;
  xp_ResolutionOutbound : string; xp_ResolvedAddresses : list string; xp_FinalDecision : option explainDecision;
  xp_PendingDNS : bool; xp_Note : string
}.

Definition with_resolution (name : string) (addresses : list string) (r : explainResult) : explainResult :=
  MkExplain (xp_Config r) (xp_Input r) (xp_Candidates r) (xp_CandidateDecision r) name addresses
    (xp_FinalDecision r) (xp_PendingDNS r) (xp_Note r).

Definition with_final (final : explainDecision) (note : string) (r : explainResult) : explainResult :=
  MkExplain (xp_Config r) (xp_Input r) (xp_Candidates r) (xp_CandidateDecision r) (xp_ResolutionOutbound r)
    (xp_ResolvedAddresses r) (Some final) (xp_PendingDNS r) note.

Definition pending (note : string) (r : explainResult) : explainResult :=
  MkExplain (xp_Config r) (xp_Input r) (xp_Candidates r) (xp_CandidateDecision r) (xp_ResolutionOutbound r)
    (xp_ResolvedAddresses r) (xp_FinalDecision r) true note.

(** ** Summaries *)

(** [findRule] *)
Fixpoint findRule (configRules : list Rule) (id : Z) : option Rule :=
  match configRules with
  | [] => None
  | rule :: configRules' => if ID rule =? id then Some rule else findRule configRules' id
  end.

(** [summarizeRule] *)
Definition summarizeRule (rule : Rule) (deferred : bool) : explainRule :=
  MkExplainRule (ID rule) (Domains rule) (DomainSuffixes rule) (prefix_text <$> DestinationCIDRs rule)
    (RuleOutbound rule) deferred.

Definition not_configured : go_error := failure "outbound is not configured".

(** [summarizeDecision] *)
Definition summarizeDecision (runtime : Config) (decision : Decision) : result go_error explainDecision :=
  match Outbounds runtime !! DecisionOutbound decision with
  | None => Err not_configured
  | Some configured =>
      Ok (MkExplainDecision (RuleID decision)
            (MkExplainOutbound (Name configured) (OutType configured) (Interface configured) (DNSSource configured)
               (addr_port_text <$> OutDNS configured) (duration_text (ConnectTimeout configured)) (Fallback configured)))
  end.

(** The loop over the candidates; all but the last wait for DNS. *)
Fixpoint summarize_candidates (configRules : list Rule) (candidates : list Decision) : result go_error (list explainRule) :=
  match candidates with
  | [] => Ok []
  | candidate :: candidates' =>
      match findRule configRules (RuleID candidate) with
      | None => Err (failure "candidate rule is missing from configuration")
      | Some rule =>
          let! others := summarize_candidates configRules candidates' in
          Ok (summarizeRule rule (negb (bool_decide (candidates' = []))) :: others)
      end
  end.

(** The first deferred candidate that does not reject. *)
Fixpoint first_deferred (runtime : Config) (deferred : list Decision) : result go_error (option Decision) :=
  match deferred with
  | [] => Ok None
  | candidate :: deferred' =>
      match Outbounds runtime !! DecisionOutbound candidate with
      | None => Err not_configured
      | Some route =>
          if negb (bool_decide (OutType route = "reject")) then Ok (Some candidate) else first_deferred runtime deferred'
      end
  end.

(** [resolutionCandidate]; an empty list of candidates panics. *)
Definition resolutionCandidate (runtime : Config) (candidates : list Decision) : result go_error (Decision * bool) :=
  match last candidates with
  | None => Err (failure "panic: index out of range")
  | Some conclusive =>
      match Outbounds runtime !! DecisionOutbound conclusive with
      | None => Err not_configured
      | Some route =>
          if negb (bool_decide (OutType route = "reject")) then Ok (conclusive, true)
          else
            let! deferred := first_deferred runtime (removelast candidates) in
            match deferred with
            | Some candidate => Ok (candidate, true)
            | None => Ok (conclusive, false)
            end
      end
  end.

(** ** Resolution *)

Section explaining.
  (** The world, the exchange of one DNS query and the DNS library, as in
      [Resolver]; and what a lookup that starts in a world finds: the error of
      a finished context, the choice of its select, and the clock before and
      after the exchange. *)
  Context {W : Type}.
  Context (exchange : string -> Z -> Msg -> addr_port -> string -> W -> result go_error Msg * W).
  Context (Fqdn : string -> string) (SetQuestion : string -> Z -> Msg) (Copy : Msg -> Msg).
  Context (moment : W -> option go_error * bool * Z * Z).

(** The lookup of one outbound, with a client of its own. *)
Definition lookup_through (runtime : Config) (route : Outbound) (domain family : string) (timeout : Z) (w : W)
    : result go_error (list addr) * W :=
  match NewClient (Interface route) (OutDNS route) timeout (MaxConcurrent (CDNS runtime)) with
  | Err e => (Err e, w)
  | Ok client =>
      let '(done, prefer_done, now, later) := moment w in
      let '(r, _, w) :=
        (if bool_decide (family = "ipv6") then LookupIPv6 exchange Fqdn SetQuestion Copy
         else LookupIPv4 exchange Fqdn SetQuestion Copy) domain done prefer_done now later client w in
      (r, w)
  end.

(** The loop of [resolveConfigured]; without a failure [errors.Join] is nil.
    [None] is the end of the fuel. *)
Fixpoint resolve_configured (fuel : nat) (runtime : Config) (current domain family : string) (timeout : Z)
    (failures : list go_error) (w : W) : option (result go_error (list addr * string) * W) :=
  let ended failures := match errors_join failures with Some e => Err e | None => Ok ([], "") end in
  match fuel with
  | O => None
  | S fuel' =>
      if bool_decide (current = "") then Some (ended failures, w)
      else
        match Outbounds runtime !! current with
        | None => Some (Err not_configured, w)
        | Some route =>
            if bool_decide (OutType route = "reject") then Some (ended (failures ++ [rejected current]), w)
            else
              match lookup_through runtime route domain family timeout w with
              | (Ok addresses, w) => Some (Ok (addresses, current), w)
              | (Err e, w) =>
                  let failures := failures ++ [EWrap "outbound resolve" e] in
                  if IsBusinessError e || negb (IsRecoverable (Some e)) || bool_decide (Fallback route = "")
                  then Some (ended failures, w)
                  else resolve_configured fuel' runtime (Fallback route) domain family timeout failures w
              end
        end
  end.

(** [resolveConfigured]; a turn for every outbound and one for the end is
    enough fuel. *)
Definition resolveConfigured (runtime : Config) (start domain family : string) (timeout : Z) (w : W)
    : option (result go_error (list addr * string) * W) :=
  resolve_configured (S (size (Outbounds runtime))) runtime start domain family timeout [] w.

(** ** The flow *)

Definition no_dns_note : string := "all matching candidates reject without DNS resolution".
Definition changed_note : string :=
  "the final rule changes outbound; production keeps this decision immutable and re-resolves through the selected outbound".
Definition pending_note : string := "one or more earlier CIDR rules can still win after DNS resolution".

(** [explainFlow] up to the resolution: the engine, the candidates and what
    they say. *)
Definition explain_candidates (runtime : Config) (configPath domain : string) (addresses : list addr) (family : string)
    : result go_error (Engine * list Decision * explainResult) :=
  let! engine := map_err rules_failure (New (ConfigTypes.Rules runtime)) in
  let! candidates := map_err rules_failure (Candidates engine (MkFlowMetadata domain AddrZero AddrZero AddrZero 0)) in
  let! summaries := summarize_candidates (ConfigTypes.Rules runtime) candidates in
  match last candidates with
  | None => Err (failure "panic: index out of range")
  | Some conclusive =>
      let! decision := summarizeDecision runtime conclusive in
      Ok (engine, candidates,
          MkExplain configPath (MkInput domain (addr_text <$> addresses) family) summaries decision "" [] None false "")
  end.

(** [explainFlow] after the resolution. *)
Definition explain_final (runtime : Config) (engine : Engine) (candidates : list Decision) (domain : string)
    (addresses : list addr) (result : explainResult) : Prelude.result go_error explainResult :=
  if negb (bool_decide (addresses = [])) then
    let! final := map_err rules_failure (MatchResolved engine (MkFlowMetadata domain AddrZero AddrZero AddrZero 0) addresses) in
    let! summary := summarizeDecision runtime final in
    Ok (with_final summary
          (if negb (bool_decide (xp_ResolutionOutbound result = "")) &&
              negb (bool_decide (DecisionOutbound final = xp_ResolutionOutbound result))
           then changed_note else xp_Note result) result)
  else if (1 <? length candidates)%nat then Ok (pending pending_note result)
  else Ok (with_final (xp_CandidateDecision result) (xp_Note result) result).

(** [explainFlow] *)
Definition explainFlow (runtime : Config) (configPath domain : string) (addresses : list addr) (family : string)
    (resolve : bool) (resolveTimeout : Z) (w : W) : option (Prelude.result go_error explainResult * W) :=
  match explain_candidates runtime configPath domain addresses family with
  | Err e => Some (Err e, w)
  | Ok (engine, candidates, result) =>
      if bool_decide (addresses = []) && resolve then
        match resolutionCandidate runtime candidates with
        | Err e => Some (Err e, w)
        | Ok (_, false) => Some (Ok (with_final (xp_CandidateDecision result) no_dns_note result), w)
        | Ok (decision, true) =>
            match resolveConfigured runtime (DecisionOutbound decision) domain family resolveTimeout w with
            | None => None
            | Some (Err e, w) => Some (Err e, w)
            | Some (Ok (addresses, name), w) =>
                Some (explain_final runtime engine candidates domain addresses
                        (with_resolution name (addr_text <$> addresses) result), w)
            end
        end
      else Some (explain_final runtime engine candidates domain addresses result, w)
  end.

(** ** The command *)

Record explainOptions : Type := MkExplainOptions {
  eo_configPath : string; eo_domain : string; eo_family : string; eo_resolve : bool; eo_timeout : Z;
  eo_jsonOutput : bool; eo_addresses : list addr
}.

(** The checks of [explainCommand] on the options and the words left. *)
Definition explain_checks (options : explainOptions) (arguments : list string) : Prelude.result string string :=
  fail_if negb (bool_decide (arguments = [])) with "explain received unexpected arguments" in
  fail_if bool_decide (eo_domain options = "") && bool_decide (eo_addresses options = [])
  with "explain requires -domain or at least one -ip" in
  let family := to_lower (eo_family options) in
  fail_if negb (bool_decide (family = "ipv4")) && negb (bool_decide (family = "ipv6"))
  with "family must be ipv4 or ipv6" in
  fail_if eo_resolve options && negb (bool_decide (eo_addresses options = [])) with "-resolve and -ip cannot be used together" in
  fail_if eo_resolve options && bool_decide (eo_domain options = "") with "-resolve requires -domain" in
  fail_if eo_timeout options <=? 0 with "timeout must be positive" in
  Ok family.

(** [explainCommand] up to what it prints; [load] is [LoadFile] on the file
    system as it is. *)
Definition explainCommand (load : string -> Prelude.result go_error Config) (options : explainOptions) (arguments : list string)
    (w : W) : option (Prelude.result go_error explainResult * W) :=
  match explain_checks options arguments with
  | Err e => Some (Err (failure e), w)
  | Ok family =>
      match load (eo_configPath options) with
      | Err e => Some (Err e, w)
      | Ok runtime =>
          explainFlow runtime (eo_configPath options) (eo_domain options) (eo_addresses options) family
            (eo_resolve options) (eo_timeout options) w
      end
  end.
End explaining.

(** ** What holds of a compiled configuration *)

Lemma findRule_is_Some configRules rule : rule ∈ configRules -> is_Some (findRule configRules (ID rule)).
Proof.
  induction configRules as [|r configRules IH]; [by intros ?%elem_of_nil|]. cbn [findRule].
  intros [->|Hin]%elem_of_cons; [rewrite Z.eqb_refl; eauto|]. destruct (_ =? _); eauto.
Qed.

(** A decision of a rule of the configuration, with a defined outbound. *)
Definition rule_decision (c : Config) (d : Decision) : Prop :=
  is_Some (findRule (ConfigTypes.Rules c) (RuleID d)) /\ is_Some (Outbounds c !! DecisionOutbound d).

Lemma summarizeDecision_Ok c d : is_Some (Outbounds c !! DecisionOutbound d) -> exists s, summarizeDecision c d = Ok s.
Proof. unfold summarizeDecision. intros [o ->]. eauto. Qed.

Lemma summarize_candidates_Ok c cs :
  Forall (rule_decision c) cs ->
  exists summaries, summarize_candidates (ConfigTypes.Rules c) cs = Ok summaries /\ xr_ID <$> summaries = RuleID <$> cs.
Proof.
  induction 1 as [|d cs [[rule Hf] _] _ IH]; [by exists []|]. destruct IH as (summaries & Hs & Hids).
  cbn [summarize_candidates]. rewrite Hf, Hs. eexists. split; [done|]. rewrite !fmap_cons. f_equal; [|done].
  cbn. clear -Hf. induction (ConfigTypes.Rules c) as [|r rs IH]; cbn in Hf; [done|].
  destruct (ID r =? RuleID d) eqn:He; [|auto]. injection Hf as <-. by to_prop.
Qed.

Section compiled.
Context (raw : rawConfig) (c : Config) (engine : Engine).
Hypothesis Hcompile : compile raw = Ok c.
Hypothesis Hengine : New (ConfigTypes.Rules c) = Ok engine.

Lemma engine_rules : engine = compile_rule <$> ConfigTypes.Rules c.
Proof. unfold New in Hengine. apply guard_err_Ok in Hengine as [_ Heq]. by injection Heq. Qed.

Lemma engine_decision r : r ∈ engine -> rule_decision c (decision_of r).
Proof.
  rewrite engine_rules. intros (rule & -> & Hin)%list_elem_of_fmap.
  pose proof Hcompile as (_ & _ & _ & _ & _ & _ & _ & _ & _ & Hr & _)%compile_Ok.
  apply compileRules_Ok in Hr as (Hall & _). rewrite Forall_forall in Hall.
  split; [by apply findRule_is_Some|]. by apply Hall.
Qed.

Lemma matched_decision m addresses d : MatchResolved engine m addresses = Ok d -> rule_decision c d.
Proof.
  intros (_ & dom & r & _ & Hr & ->)%MatchResolved_Ok. apply engine_decision.
  apply first_match_Some in Hr as (l1 & l2 & -> & _). set_solver.
Qed.

Lemma candidate_decisions m cs : Candidates engine m = Ok cs -> Forall (rule_decision c) cs.
Proof.
  intros (dom & r & _ & Hr & ->)%Candidates_Ok. apply Forall_app. split.
  - apply Forall_fmap, Forall_forall. intros x [_ Hx]%list_elem_of_filter. cbn. apply engine_decision.
    rewrite (split_first_app (conclusive dom) engine). apply elem_of_app. by left.
  - apply Forall_singleton, engine_decision. apply first_match_Some in Hr as (l1 & l2 & -> & _). set_solver.
Qed.

(** The first half of [explainFlow] succeeds with the candidates. *)
Lemma explain_candidates_Ok path domain addresses family cs :
  Candidates engine (MkFlowMetadata domain AddrZero AddrZero AddrZero 0) = Ok cs ->
  exists result conclusive, explain_candidates c path domain addresses family = Ok (engine, cs, result) /\
    last cs = Some conclusive /\ summarizeDecision c conclusive = Ok (xp_CandidateDecision result) /\
    xr_ID <$> xp_Candidates result = RuleID <$> cs /\ xp_FinalDecision result = None /\ xp_PendingDNS result = false /\
    xp_ResolutionOutbound result = "" /\ xp_Note result = "".
Proof.
  intros Hcs. unfold explain_candidates. rewrite Hengine. cbn [map_err mbind result_bind]. rewrite Hcs. cbn [map_err mbind result_bind].
  pose proof (candidate_decisions _ _ Hcs) as Hall.
  destruct (summarize_candidates_Ok _ _ Hall) as (summaries & -> & Hids). cbn [mbind result_bind].
  destruct (Candidates_Ok _ _ _ Hcs) as (dom & r & _ & _ & Heq).
  assert (Hlast : last cs = Some (decision_of r)) by (by rewrite Heq, last_snoc).
  rewrite Hlast. rewrite Forall_forall in Hall.
  destruct (summarizeDecision_Ok c (decision_of r)) as [s Hs].
  { apply Hall. rewrite Heq. set_solver. }
  rewrite Hs. cbn [mbind result_bind]. eexists. exists (decision_of r). by split_and!.
Qed.

Lemma Candidates_domain m m' : FlowDomain m = FlowDomain m' -> Candidates engine m = Candidates engine m'.
Proof. unfold Candidates, normalizeMetadata. by intros ->. Qed.

Lemma MatchResolved_domain m m' addresses :
  FlowDomain m = FlowDomain m' -> MatchResolved engine m addresses = MatchResolved engine m' addresses.
Proof. unfold MatchResolved, match_, normalizeMetadata. by intros ->. Qed.
End compiled.
Lemma Forall_removelast {A} (P : A -> Prop) l : Forall P l -> Forall P (removelast l).
Proof. induction 1 as [|x l Hx Hl IH]; [constructor|]. destruct l; [constructor|]. constructor; [done|]. exact IH. Qed.


(** ** Explanations and sessions *)

(** Routes that decide like the outbounds of a configuration. *)
Definition routes_agree (m : gmap string Outbound) (routes : gmap string (Route Client Direct Direct)) : Prop :=
  forall name, match m !! name, routes !! name with
               | Some o, Some r => rt_Reject r = bool_decide (OutType o = "reject") /\ rt_Fallback r = Fallback o /\
                                   (rt_Reject r = false -> is_Some (rt_Resolver r))
               | None, None => True
               | _, _ => False
               end.

Lemma routes_of_agree leases m routes : routes_of (effective_outbound leases <$> m) routes -> routes_agree m routes.
Proof.
  intros Hr name. specialize (Hr name). rewrite lookup_fmap in Hr.
  destruct (m !! name) as [o|], (routes !! name) as [r|]; try done. destruct Hr as (_ & _ & Ht & _ & Hf & Hrej).
  assert (OutType (effective_outbound leases o) = OutType o /\ Fallback (effective_outbound leases o) = Fallback o) as [Ho Hfo]
    by (unfold effective_outbound; by destruct (_ && _)).
  rewrite Ho in Hrej. rewrite Hfo in Hf. split_and!; [done|done|]. intros Hn. destruct Ht as (_ & _ & Ht).
  rewrite Hn in Ht. by destruct Ht.
Qed.

Lemma agree_size m routes : routes_agree m routes -> size m = size routes.
Proof.
  intros Ha. rewrite <- !size_dom. f_equal. apply set_eq. intros name. specialize (Ha name).
  rewrite !elem_of_dom. by destruct (m !! name), (routes !! name).
Qed.

Lemma first_deferred_agrees c routes l :
  routes_agree (Outbounds c) routes -> Forall (rule_decision c) l ->
  exists o, first_deferred c l = Ok o /\ first_resolvable routes l = Ok o /\ (forall d, o = Some d -> d ∈ l).
Proof.
  intros Ha. induction 1 as [|d l [_ [o Ho]] _ IH]; [by exists None|]. cbn [first_deferred first_resolvable].
  pose proof (Ha (DecisionOutbound d)) as Hd. rewrite Ho in *. destruct (routes !! DecisionOutbound d) as [r|]; [|done].
  destruct Hd as (-> & _). destruct (bool_decide _); cbn [negb].
  - destruct IH as (x & ? & ? & Hin). exists x. split_and!; [done|done|]. intros d' Hx. right. by apply Hin.
  - exists (Some d). split_and!; [done|done|]. intros d' [= ->]. by left.
Qed.

Section sessions.
  Context {W W' PC : Type}.
  Context (exchange : string -> Z -> Msg -> addr_port -> string -> W -> result go_error Msg * W).
  Context (Fqdn : string -> string) (SetQuestion : string -> Z -> Msg) (Copy : Msg -> Msg).
  Context (moment : W -> option go_error * bool * Z * Z).
  Context (net : network W' Client Direct Direct PC) (c : Config) (routes : gmap string (Route Client Direct Direct)).
  Context (domain family : string) (timeout : Z).

Local Notation ipv6 := (bool_decide (family = "ipv6")).
Local Notation lookup := (lookup_through exchange Fqdn SetQuestion Copy moment).

(** The resolver of a running session and the client of the command get the
    same answer from the servers of an outbound. *)
Definition same_answers : Prop :=
  forall name o r client w w', Outbounds c !! name = Some o -> routes !! name = Some r -> rt_Resolver r = Some client ->
    fst ((if ipv6 then net_LookupIPv6 net else net_LookupIPv4 net) client domain w') =
    fst (lookup c o domain family timeout w).

Lemma lookup_through_nonempty o w l w2 :
  lookup c o domain family timeout w = (Ok l, w2) -> l <> [] /\ Forall (fun a => addr_valid a = true /\ is4in6 a = false) l.
Proof.
  unfold lookup_through. destruct (NewClient _ _ _ _) as [client|e] eqn:Hc; [|done].
  assert (Hinv : cache_inv client).
  { unfold NewClient, newClient in Hc. inv_result. subst client. split; [by vm_compute|]. intros d q e. cbn. by rewrite lookup_empty. }
  destruct (moment w) as [[[dn prefer] now] later].
  assert (Hgood : forall six : bool, good_addresses (if six then TypeAAAA else TypeA) l ->
    l <> [] /\ Forall (fun a => addr_valid a = true /\ is4in6 a = false) l).
  { intros six (Hne & _ & Hall). split; [done|]. eapply Forall_impl; [done|]. intros a. clear.
    destruct six; [change (is6 a = true /\ is4in6 a = false -> addr_valid a = true /\ is4in6 a = false)
                  |change (is4 a = true -> addr_valid a = true /\ is4in6 a = false)]; by destruct a. }
  destruct ipv6.
  - destruct (LookupIPv6 _ _ _ _ _ _ _ _ _ _ _) as [[r c'] w3] eqn:Hl. intros [= -> ->].
    eapply lookup_family_inv in Hl as (_ & _ & Hg); [|done]. by apply (Hgood true), Hg.
  - destruct (LookupIPv4 _ _ _ _ _ _ _ _ _ _ _) as [[r c'] w3] eqn:Hl. intros [= -> ->].
    eapply lookup_family_inv in Hl as (_ & _ & Hg); [|done]. by apply (Hgood false), Hg.
Qed.

(** The same outcome of a resolution. *)
Definition same_resolution (a : option (result go_error (list addr * string) * W))
    (b : option (result go_error routeResolution * flow W')) : Prop :=
  match a, b with
  | None, None => True
  | Some (Ok (addresses, name), _), Some (Ok p, _) =>
      p = MkResolution name addresses /\ name <> "" /\ addresses <> [] /\ Forall (fun a => addr_valid a = true /\ is4in6 a = false) addresses
  | Some (Err _, _), Some (Err _, _) => True
  | _, _ => False
  end.

Lemma resolve_agrees fuel current fs fs' w f :
  routes_agree (Outbounds c) routes -> same_answers -> current <> "" ->
  same_resolution (resolve_configured exchange Fqdn SetQuestion Copy moment fuel c current domain family timeout fs w)
    (resolve_loop net routes fuel current domain ipv6 fs' f).
Proof.
  intros Ha Hsame. revert current fs fs' w f. induction fuel as [|fuel IH]; intros current fs fs' w f Hcur; [done|].
  cbn [resolve_configured resolve_loop]. rewrite !(bool_decide_false (current = "")) by done.
  pose proof (Ha current) as Hc. destruct (Outbounds c !! current) as [o|] eqn:Ho, (routes !! current) as [r|] eqn:Hr; try done.
  destruct Hc as (Hrej & Hfall & Hres). rewrite Hrej. unfold joined, errors_join. destruct (bool_decide (OutType o = "reject")) eqn:Hb.
  { by destruct fs, fs'. }
  destruct (Hres Hrej) as [client Hclient]. unfold lookupAddresses. rewrite Hclient.
  pose proof (Hsame _ _ _ _ w (fl_world f) Ho Hr Hclient) as Heq.
  destruct (lookup c o domain family timeout w) as [x w2] eqn:Hl. cbn [fst] in Heq.
  destruct ((if ipv6 then net_LookupIPv6 net else net_LookupIPv4 net) client domain (fl_world f)) as [x' w3]. cbn [fst] in Heq. subst x'.
  destruct x as [addresses|e].
  - apply lookup_through_nonempty in Hl as [Hne Hall]. by destruct addresses.
  - unfold gives_up. rewrite Hfall. destruct (_ || _) eqn:Hg; [by destruct fs, fs'|].
    apply IH. apply orb_false_iff in Hg as [_ Hg]. by to_prop.
Qed.
End sessions.

(** What the command says, against what a session does with the same domain. *)
Definition foretold {W'} (c : Config) (explained : result go_error explainResult)
    (decided : option (result go_error (Decision * option routeResolution) * flow W')) : Prop :=
  match explained, decided with
  | Err _, Some (Err _, _) => True
  | Ok r, Some (Err _, _) => xp_Note r = changed_note
  | Ok r, Some (Ok (d, prepared), _) =>
      xp_PendingDNS r = false /\ (exists final, xp_FinalDecision r = Some final /\ summarizeDecision c d = Ok final) /\
      (xp_Note r <> changed_note ->
       match prepared with
       | Some p => xp_ResolutionOutbound r = rr_Outbound p /\ xp_ResolvedAddresses r = addr_text <$> rr_Addresses p
       | None => xp_ResolutionOutbound r = "" \/ exists o, Outbounds c !! DecisionOutbound d = Some o /\ OutType o = "reject"
       end)
  | _, None => False
  | Err _, Some (Ok _, _) => False
  end.

Section foretelling.
  Context {W W' PC : Type}.
  Context (exchange : string -> Z -> Msg -> addr_port -> string -> W -> result go_error Msg * W).
  Context (Fqdn : string -> string) (SetQuestion : string -> Z -> Msg) (Copy : Msg -> Msg).
  Context (moment : W -> option go_error * bool * Z * Z).
  Context (net : network W' Client Direct Direct PC) (raw : rawConfig) (c : Config) (engine : Engine).
  Context (routes : gmap string (Route Client Direct Direct)) (path domain family : string) (timeout : Z).
  Hypothesis Hcompile : compile raw = Ok c.
  Hypothesis Hengine : New (ConfigTypes.Rules c) = Ok engine.
  Hypothesis Hagree : routes_agree (Outbounds c) routes.
  Hypothesis Hvalid : routes_valid routes.
  Hypothesis Hsame : same_answers exchange Fqdn SetQuestion Copy moment net c routes domain family timeout.

Local Notation ipv6 := (bool_decide (family = "ipv6")).
Local Notation blank := (MkFlowMetadata domain AddrZero AddrZero AddrZero 0).

Lemma named_outbound d : rule_decision c d -> DecisionOutbound d <> "".
Proof.
  intros [_ [o Ho]] He. rewrite He in Ho. pose proof (oo_wf _ (compiled_outbounds_ok _ _ Hcompile) _ _ Ho) as (_ & Hid & _). done.
Qed.

Lemma route_reject d : rule_decision c d -> exists o r, Outbounds c !! DecisionOutbound d = Some o /\
  routes !! DecisionOutbound d = Some r /\ rt_Reject r = bool_decide (OutType o = "reject").
Proof.
  intros [_ [o Ho]]. pose proof (Hagree (DecisionOutbound d)) as Hd. rewrite Ho in Hd.
  destruct (routes !! _) as [r|]; [|done]. exists o, r. by destruct Hd.
Qed.

Lemma resolution_agrees d w f : rule_decision c d ->
  same_resolution (resolveConfigured exchange Fqdn SetQuestion Copy moment c (DecisionOutbound d) domain family timeout w)
    (resolveForDecision net routes (DecisionOutbound d) domain ipv6 f).
Proof.
  intros Hd. unfold resolveConfigured, resolveForDecision, route_fuel. rewrite (agree_size _ _ Hagree).
  apply resolve_agrees; [done|done|]. by apply named_outbound.
Qed.

Lemma resolution_total d f : exists x, resolveForDecision net routes d domain ipv6 f = Some x.
Proof. apply resolve_loop_total. by apply route_fuel_enough. Qed.

(** From the resolution of a candidate on. *)
Lemma resolved_foretold metadata d result w f cs :
  FlowDomain metadata = domain -> rule_decision c d ->
  xp_FinalDecision result = None -> xp_PendingDNS result = false -> xp_Note result = "" ->
  exists e w2,
  match resolveConfigured exchange Fqdn SetQuestion Copy moment c (DecisionOutbound d) domain family timeout w with
  | None => None
  | Some (Err e, w) => Some (Err e, w)
  | Some (Ok (addresses, name), w) =>
      Some (explain_final c engine cs domain addresses (with_resolution name (addr_text <$> addresses) result), w)
  end = Some (e, w2) /\
  foretold c e (decide_resolved net routes engine metadata d domain ipv6 f).
Proof.
  intros Hdom Hd Hfinal Hpend Hnote. pose proof (resolution_agrees d w f Hd) as Hres. unfold decide_resolved.
  destruct (resolution_total (DecisionOutbound d) f) as [[rs f2] Hrs]. rewrite Hrs in *.
  destruct (resolveConfigured _ _ _ _ _ _ _ _ _ _ _) as [[[[addresses name]|e] w2]|]; [|destruct rs as [p|e']; [done|eauto]|done].
  destruct rs as [p|e']; [|done]. cbn in Hres. destruct Hres as (-> & Hname & Hne & Haddr). cbn [rr_Addresses rr_Outbound].
  unfold explain_final. rewrite bool_decide_false by done. cbn [negb].
  rewrite (MatchResolved_domain engine blank metadata) by done.
  change (matcher_MatchResolved engine metadata addresses) with (map_err rules_failure (MatchResolved engine metadata addresses)).
  destruct (MatchResolved engine metadata addresses) as [final|e] eqn:Hm; cbn [map_err mbind result_bind]; [|by eexists _, _].
  pose proof (matched_decision raw c engine Hcompile Hengine _ _ _ Hm) as Hf.
  destruct (summarizeDecision_Ok c final (proj2 Hf)) as [s Hs]. rewrite Hs. cbn [mbind result_bind].
  eexists _, _. split; [done|].
  cbn [xp_ResolutionOutbound with_resolution xp_Note]. rewrite (bool_decide_false (name = "")) by done. cbn [negb andb].
  assert (Hshow : forall r, xp_PendingDNS r = false -> xp_FinalDecision r = Some s ->
    xp_PendingDNS r = false /\ exists final0, xp_FinalDecision r = Some final0 /\ summarizeDecision c final = Ok final0) by eauto.
  destruct (bool_decide (DecisionOutbound final = DecisionOutbound d) || bool_decide (DecisionOutbound final = name)) eqn:Hk.
  { cbn [foretold]. split; [done|]. split; [by exists s|]. cbn. intros _. done. }
  apply orb_false_iff in Hk as [Hk1 Hk2]. rewrite Hk2. cbn [negb].
  destruct (route_reject final Hf) as (o & r & Ho & Hr & Hrej). rewrite Hr.
  destruct (rt_Reject r); [cbn; split_and!; [done|by exists s|done]|].
  destruct (resolution_total (DecisionOutbound final) f2) as [[[q|e] f3] ->]; cbn; [|done]. split_and!; [done|by exists s|done].
Qed.
End foretelling.

(** C9: with [-resolve], explain tells what the program would do.  For a
    compiled configuration and a network that answers the command as it
    answers the program, it ends, and it fails or shows the decision of a
    session for the same domain, with the outbound and the addresses that the
    session uses.  Only when it notes that the rule changes the outbound may
    the session fail, or use addresses of its own. *)
Theorem explain_foretells_sessions {W W' PC : Type}
    (exchange : string -> Z -> Msg -> addr_port -> string -> W -> result go_error Msg * W)
    (Fqdn : string -> string) (SetQuestion : string -> Z -> Msg) (Copy : Msg -> Msg)
    (moment : W -> option go_error * bool * Z * Z) (net : network W' Client Direct Direct PC)
    (raw : rawConfig) (c : Config) (leases : gmap string (list addr_port)) (engine : Engine)
    (routes : gmap string (Route Client Direct Direct)) (path domain family : string) (timeout : Z) (w : W)
    (metadata : FlowMetadata) (f : flow W') :
  compile raw = Ok c -> leases_ok leases -> New (ConfigTypes.Rules c) = Ok engine ->
  BuildRoutes (Outbounds (runtimeWithInterfaceDNS c leases)) = Ok routes ->
  same_answers exchange Fqdn SetQuestion Copy moment net c routes domain family timeout ->
  FlowDomain metadata = domain ->
  exists explained w2,
    explainFlow exchange Fqdn SetQuestion Copy moment c path domain [] family true timeout w = Some (explained, w2) /\
    foretold c explained (decideFlow net routes engine metadata domain AddrZero (bool_decide (family = "ipv6")) f).
Proof.
  intros Hc Hl He Hb Hsame Hd.
  pose proof (effective_outbounds_ok leases _ Hl (compiled_outbounds_ok _ _ Hc)) as Hok.
  destruct (BuildRoutes_Ok _ Hok) as (routes' & Hb' & Hr). cbn [runtimeWithInterfaceDNS Outbounds] in Hb. rewrite Hb in Hb'. injection Hb' as <-.
  pose proof (routes_of_valid _ _ Hok Hr) as Hv. apply routes_of_agree in Hr as Ha.
  unfold explainFlow. destruct (Candidates engine (MkFlowMetadata domain AddrZero AddrZero AddrZero 0)) as [cs|e] eqn:Hcs; cycle 1.
  { unfold explain_candidates. rewrite He. cbn [map_err mbind result_bind]. rewrite Hcs. cbn. eexists _, _. split; [done|].
    unfold decideFlow. cbn [addr_valid].
    change (matcher_Candidates engine metadata) with (map_err rules_failure (Candidates engine metadata)).
    rewrite (Candidates_domain engine metadata (MkFlowMetadata domain AddrZero AddrZero AddrZero 0)) by done. by rewrite Hcs. }
  destruct (explain_candidates_Ok _ _ _ Hc He path domain [] family cs Hcs) as (r & k & -> & Hlast & Hk & _ & Hfinal & Hpend & Hres & Hnote).
  rewrite (bool_decide_true ([] = [])) by done. cbn [andb].
  pose proof (candidate_decisions _ _ _ Hc He _ _ Hcs) as Hall.
  assert (Hkd : rule_decision c k) by (rewrite Forall_forall in Hall; apply Hall; apply last_Some in Hlast as [l ->]; set_solver).
  destruct (route_reject c routes Ha k Hkd) as (o & rt & Ho & Hrt & Hrej).
  assert (Hdecide : decideFlow net routes engine metadata domain AddrZero (bool_decide (family = "ipv6")) f =
    if bool_decide (OutType o = "reject") then
      match first_resolvable routes (removelast cs) with
      | Err e => Some (Err e, f)
      | Ok None => Some (Ok (k, None), f)
      | Ok (Some deferred) => decide_resolved net routes engine metadata deferred domain (bool_decide (family = "ipv6")) f
      end
    else decide_resolved net routes engine metadata k domain (bool_decide (family = "ipv6")) f).
  { unfold decideFlow. cbn [addr_valid].
    change (matcher_Candidates engine metadata) with (map_err rules_failure (Candidates engine metadata)).
    rewrite (Candidates_domain engine metadata (MkFlowMetadata domain AddrZero AddrZero AddrZero 0)) by done.
    rewrite Hcs. cbn [map_err]. by rewrite Hlast, Hrt, Hrej. }
  unfold resolutionCandidate. rewrite Hlast, Ho. destruct (bool_decide (OutType o = "reject")) eqn:Hb2; cbn [negb].
  - destruct (first_deferred_agrees c routes (removelast cs) Ha) as (x & -> & Hx & Hin); [by apply Forall_removelast|].
    rewrite Hdecide, Hx. cbn [mbind result_bind]. destruct x as [deferred|].
    + eapply resolved_foretold; eauto. apply (Forall_removelast _ cs) in Hall. rewrite Forall_forall in Hall. by apply Hall, Hin.
    + eexists _, _. split; [done|]. cbn. rewrite Hpend. split_and!; [done|by eexists|]. by left.
  - rewrite Hdecide. cbn [mbind result_bind]. eapply resolved_foretold; eauto.
Qed.

(** Without addresses explain is right about all of them.  For a compiled
    configuration and a usable domain it ends with an explanation: whatever
    valid addresses the domain has, the rule that wins is one of the listed
    candidates, and it is the final decision unless the explanation waits for
    DNS and gives none.  With addresses the final decision is that of the
    engine. *)
Theorem explain_covers_decisions {W : Type}
    (exchange : string -> Z -> Msg -> addr_port -> string -> W -> result go_error Msg * W)
    (Fqdn : string -> string) (SetQuestion : string -> Z -> Msg) (Copy : Msg -> Msg)
    (moment : W -> option go_error * bool * Z * Z) (raw : rawConfig) (c : Config) (engine : Engine)
    (path domain family : string) (timeout : Z) (w : W) (addresses : list addr) :
  let metadata := MkFlowMetadata domain AddrZero AddrZero AddrZero 0 in
  let explain addresses :=
    explainFlow exchange Fqdn SetQuestion Copy moment c path domain addresses family false timeout w in
  compile raw = Ok c -> New (ConfigTypes.Rules c) = Ok engine -> domain_ok metadata ->
  Forall (fun a => addr_valid a = true /\ is4in6 a = false) addresses ->
  exists dec final offline, MatchResolved engine metadata addresses = Ok dec /\ summarizeDecision c dec = Ok final /\
    explain [] = Some (Ok offline, w) /\
    xd_RuleID final ∈ xr_ID <$> xp_Candidates offline /\
    xp_FinalDecision offline = (if xp_PendingDNS offline then None else Some final) /\
    (addresses <> [] -> exists r, explain addresses = Some (Ok r, w) /\ xp_FinalDecision r = Some final /\ xp_PendingDNS r = false).
Proof.
  intros metadata explain Hc He Hdom Haddr.
  destruct (resolved_decision_is_candidate _ engine metadata addresses He Hdom Haddr) as (cs & dec & Hcs & Hm & Hin & _).
  pose proof (candidate_decisions raw c engine Hc He _ _ Hcs) as Hall. rewrite Forall_forall in Hall.
  destruct (summarizeDecision_Ok c dec (proj2 (Hall _ Hin))) as [final Hfinal]. unfold explain, explainFlow.
  destruct (explain_candidates_Ok raw c engine Hc He path domain [] family cs Hcs) as (r & k & -> & Hlast & Hk & Hids & Hnf & Hnp & _).
  rewrite andb_false_r. unfold explain_final at 1. rewrite (bool_decide_true ([] = [])) by done. cbn [negb].
  exists dec, final.
  assert (Hid : xd_RuleID final = RuleID dec).
  { unfold summarizeDecision in Hfinal. destruct (_ !! _); [|done]. by injection Hfinal as <-. }
  exists (if (1 <? length cs)%nat then pending pending_note r else with_final (xp_CandidateDecision r) (xp_Note r) r).
  split; [done|]. split; [done|]. split; [by destruct (1 <? length cs)%nat|]. split; [|split].
  - destruct (1 <? length cs)%nat; cbn; rewrite Hids, Hid; by apply list_elem_of_fmap_2.
  - destruct (1 <? length cs)%nat eqn:Hlen; cbn; [done|]. rewrite Hnp.
    apply Nat.ltb_ge in Hlen. destruct cs as [|d [|]]; cbn in Hlen; [done| |lia]. injection Hlast as ->.
    apply list_elem_of_singleton in Hin. subst dec. congruence.
  - intros Hne.
    destruct (explain_candidates_Ok raw c engine Hc He path domain addresses family cs Hcs) as (r2 & k2 & -> & _ & _ & _ & _ & Hnp2 & Hres & _).
    rewrite (bool_decide_false (addresses = [])) by done. cbn [andb]. unfold explain_final. rewrite (bool_decide_false (addresses = [])) by done.
    cbn [negb]. fold metadata. rewrite Hm. cbn [map_err mbind result_bind]. rewrite Hfinal. cbn [mbind result_bind]. eexists. by split_and!.
Qed.

(** ** Demonstrations *)

(** A network on which only [en0] reaches a server. *)
Definition demo_dns (interface : string) (timeout : Z) (request : Msg) (server : addr_port) (network : string) (w : unit)
    : result go_error Msg * unit :=
  (if bool_decide (interface = "en0") then Ok (MkMsg 7 false false 0 [] [RR_A "example.com." 30 [192; 0; 2; 1]; RR_A "other.example." 30 [192; 0; 2; 1]])
   else Err DeadlineExceeded, w).

Definition demo_lookups (six : bool) (client : Client) (domain : string) (w : unit) : result go_error (list addr) * unit :=
  let '(r, _, w) := lookup_family demo_dns demo_fqdn demo_question id six domain None false 0 0 client w in (r, w).

Definition demo_sessions : network unit Client Direct Direct unit :=
  MkNetwork _ _ _ _ _ (demo_lookups false) (demo_lookups true) (fun _ _ _ w => (Ok tt, w)) (fun _ _ w => (Ok tt, w))
    (fun _ data w => (slen data, None, w)).

Definition demo_moment (w : unit) : option go_error * bool * Z * Z := (None, false, 0, 0).

(** The demonstration configuration of [ConfigFacts], with its default rule
    on [outbound]. *)
Definition demo_document (outbound : string) : rawConfig :=
  let raw := demo_raw "" "" "" in
  MkRawConfig (raw_Version raw) (raw_Log raw) (raw_System raw) (raw_Capture raw) (raw_TUN raw) (raw_FakeIP raw)
    (raw_FakeIPv6 raw) (raw_CDNS raw) (raw_Sessions raw) (raw_Outbounds raw)
    (removelast (raw_Rules raw) ++ [MkRawRule [] [] [] outbound]).

Definition demo_explain (c : Config) (domain : string) (resolve : bool) : option (result go_error explainResult * unit) :=
  explainFlow demo_dns demo_fqdn demo_question id demo_moment c "config.yaml" domain [] "ipv4" resolve second tt.

Definition demo_decide (c : Config) (engine : Engine) (routes : gmap string (Route Client Direct Direct)) (domain : string) :=
  decideFlow demo_sessions routes engine (MkFlowMetadata domain (Addr4 1) (Addr4 2) (Addr4 2) 443) domain AddrZero false (MkFlow tt [] 0).

Lemma demo_same_answers c routes domain :
  compile (demo_document "lan") = Ok c -> BuildRoutes (Outbounds c) = Ok routes -> domain = "example.com" ->
  same_answers demo_dns demo_fqdn demo_question id demo_moment demo_sessions c routes domain "ipv4" second.
Proof.
  intros Hc Hb ->. assert (Hall : Forall (fun '(name, o) => forall r client, routes !! name = Some r -> rt_Resolver r = Some client ->
    fst (demo_lookups false client "example.com" tt) =
    fst (lookup_through demo_dns demo_fqdn demo_question id demo_moment c o "example.com" "ipv4" second tt)) (map_to_list (Outbounds c))).
  { evaluate Hc. injection Hc as <-. evaluate Hb. injection Hb as <-.
    match goal with |- Forall _ ?l => remember l as outbounds eqn:Hl end. symmetry in Hl. evaluate Hl. subst outbounds.
    repeat constructor; intros r client Hr; evaluate Hr; injection Hr as <-; cbn [rt_Resolver];
      intros Hx; try discriminate Hx; injection Hx as <-; vm_compute; reflexivity. }
  intros name o r client [] [] Ho%elem_of_map_to_list. rewrite Forall_forall in Hall. exact (Hall _ Ho r client).
Qed.

Lemma runtime_without_leases c : Outbounds (runtimeWithInterfaceDNS c ∅) = Outbounds c.
Proof.
  cbn [runtimeWithInterfaceDNS Outbounds]. rewrite <- (map_fmap_id (Outbounds c)) at 2. apply map_fmap_ext. intros name o _.
  unfold effective_outbound, discovered_servers. rewrite lookup_empty. cbn. by rewrite andb_false_r.
Qed.

Lemma explain_foretells_sessions_witness :
  exists c engine routes explained w2, compile (demo_document "lan") = Ok c /\ New (ConfigTypes.Rules c) = Ok engine /\
    BuildRoutes (Outbounds c) = Ok routes /\ demo_explain c "example.com" true = Some (explained, w2) /\
    foretold c explained (demo_decide c engine routes "example.com") /\
    match explained with Ok r => xp_FinalDecision r <> None /\ xp_ResolutionOutbound r = "lan" | Err _ => False end.
Proof.
  destruct (compile (demo_document "lan")) as [c|e] eqn:Hc; [|evaluate Hc; discriminate Hc].
  destruct (compiled_engine _ _ Hc) as [engine He].
  destruct (BuildRoutes_Ok _ (compiled_outbounds_ok _ _ Hc)) as (routes & Hb & _).
  destruct (explain_foretells_sessions demo_dns demo_fqdn demo_question id demo_moment demo_sessions (demo_document "lan") c ∅ engine
    routes "config.yaml" "example.com" "ipv4" second tt (MkFlowMetadata "example.com" (Addr4 1) (Addr4 2) (Addr4 2) 443) (MkFlow tt [] 0))
    as (explained & w2 & Hx & Hf).
  - exact Hc.
  - intros name servers Hn. by rewrite lookup_empty in Hn.
  - exact He.
  - rewrite runtime_without_leases. exact Hb.
  - by apply demo_same_answers.
  - reflexivity.
  - exists c, engine, routes, explained, w2. split; [reflexivity|]. split; [exact He|]. split; [exact Hb|]. split; [exact Hx|].
    split; [exact Hf|]. clear Hf He Hb. evaluate Hc. injection Hc as <-. evaluate Hx. injection Hx as <- _. cbn. by split.
Defined.

Lemma explain_covers_decisions_witness :
  exists c engine dec, compile (demo_document "lan") = Ok c /\ New (ConfigTypes.Rules c) = Ok engine /\
    MatchResolved engine (MkFlowMetadata "example.com" AddrZero AddrZero AddrZero 0) [Addr4 0x0a000001] = Ok dec.
Proof.
  destruct (compile (demo_document "lan")) as [c|e] eqn:Hc; [|evaluate Hc; discriminate Hc].
  destruct (compiled_engine _ _ Hc) as [engine He].
  destruct (explain_covers_decisions demo_dns demo_fqdn demo_question id demo_moment (demo_document "lan") c engine "config.yaml"
    "example.com" "ipv4" second tt [Addr4 0x0a000001]) as (dec & final & offline & Hm & _).
  - exact Hc.
  - exact He.
  - right. exists "example.com". vm_compute. reflexivity.
  - repeat constructor.
  - exists c, engine, dec. by split_and!.
Defined.

(** The note of a changed outbound says too much.  Here the default rule
    sends everything to [vpn], whose servers do not answer, and [lan], its
    fallback, does: the rule stays the same, and explain notes that it changes
    the outbound and that the program resolves again, but the session makes no
    third lookup and uses the addresses of [lan]. *)
Theorem explain_note_overstates :
  exists c engine routes r f', compile (demo_document "vpn") = Ok c /\ New (ConfigTypes.Rules c) = Ok engine /\
    BuildRoutes (Outbounds c) = Ok routes /\ demo_explain c "other.example" true = Some (Ok r, tt) /\
    xp_FinalDecision r = Some (xp_CandidateDecision r) /\ xp_Note r = changed_note /\
    demo_decide c engine routes "other.example" =
      Some (Ok (MkDecision 3 "vpn", Some (MkResolution "lan" [Addr4 0xc0000201])), f') /\
    fl_calls f' = [CallLookup "vpn"; CallLookup "lan"].
Proof.
  destruct (compile (demo_document "vpn")) as [c|e] eqn:Hc; [|evaluate Hc; discriminate Hc].
  evaluate Hc. injection Hc as <-.
  do 5 eexists. split; [reflexivity|]. split; [vm_compute; reflexivity|]. split; [vm_compute; reflexivity|].
  split; [vm_compute; reflexivity|]. split; [vm_compute; reflexivity|]. split; [vm_compute; reflexivity|].
  split; vm_compute; reflexivity.
Qed.
