(* ===== verification/Diagnose.v ===== *)
(** * Component [cmd/tun-proxy]: the diagnosis

    [diagnose.go]: checks of the configuration, the service, the running
    process, the interfaces and the hosts file, collected into a report.  What
    the checks look at is an argument; of the snapshot of the status socket
    these are the fields that the checks read.  The theorems show that the
    verdict of a report is its worst check, and which entries of the hosts file
    are reported: all that hide a domain from Fake DNS. *)

From stdpp Require Import pretty.
From S2P Require Import Prelude.
From S2P Require Import GoStrings.
From S2P Require Import NetIP.
From S2P Require Import FakeDNS.
From S2P Require Import Worker.
From S2P Require Import DomainName.
From S2P Require Import ConfigTypes.
From S2P Require Import ConfigCompile.
From S2P Require Import ConfigFacts.
From S2P Require Import Rules.
From S2P Require Import HostState.
From S2P Require Import LaunchStorage.
From S2P Require Import LaunchManager.

(** ** Data *)

Record diagnosticCheck : Type := MkCheck { dk_Name : string; dk_Status : string; dk_Message : string }.

Record diagnosticConfig : Type := MkDiagnosticConfig {
  dc_Path : string; dc_Loaded : bool; dc_Digest : string; dc_Error : string; dc_Outbounds : Z; dc_Rules : Z; dc_DefaultRoute : bool
}.

Record diagnosticService : Type := MkDiagnosticService { ds_Available : bool; ds_Status : option Status; ds_Error : string }.

(** The parts of [status.Snapshot] that are checked. *)
Record runtime_snapshot : Type := MkSnapshot {
  sn_ConfigDigest : string; sn_Reload : ReloadStats; sn_Network : NetworkStats; sn_Limits : Limits; sn_DNS : FakeDNS.Stats;
  sn_IPv6 : IPv6Status
}.

Record diagnosticRuntime : Type := MkDiagnosticRuntime {
  dr_State : option State; dr_Alive : bool; dr_Snapshot : option runtime_snapshot; dr_Error : string
}.

(** [interfaceinfo.Interface] *)
Record net_interface : Type := MkNetInterface { ni_Name : string; ni_Index : Z; ni_Up : bool; ni_Running : bool; ni_Addresses : list string }.

Record diagnosticInterface : Type := MkDiagnosticInterface {
  di_Name : string; di_Index : Z; di_Up : bool; di_Running : bool; di_Addresses : list string; di_Required : bool; di_Error : string
}.

Record hostsConflict : Type := MkConflict { hc_Line : Z; hc_Address : string; hc_Domain : string }.

Record diagnosisReport : Type := MkReport {
  rp_Overall : string; rp_Config : diagnosticConfig; rp_Service : diagnosticService; rp_Runtime : diagnosticRuntime;
  rp_Interfaces : list diagnosticInterface; rp_HostsPath : string; rp_Hosts : list hostsConflict; rp_Checks : list diagnosticCheck
}.

(** ** The hosts file *)

(** What a policy names: exact domains and suffixes, in lower case. *)
Definition policy_names (configRules : list Rule) : gset string * list string :=
  (list_to_set (to_lower <$> (configRules ≫= Domains)), to_lower <$> (configRules ≫= DomainSuffixes)).

(** [policyDomainMatch] *)
Definition policyDomainMatch (domain : string) (exact : gset string) (suffixes : list string) : bool :=
  bool_decide (domain ∈ exact) ||
  existsb (fun suffix => bool_decide (domain = suffix) || has_suffix domain ("." +:+ suffix)) suffixes.

(** The tokens of a [bufio.Scanner]: lines without their end and one carriage
    return before it; [None] is a line that does not fit its buffer. *)
Definition max_token : Z := 65536.

Definition drop_cr (line : string) : string := trim_suffix line (String (byte 13) "").

Definition scan_lines (contents : string) : option (list string) :=
  let lines := split_on (byte 10) contents in
  let lines := match last lines with Some "" => removelast lines | _ => lines end in
  if existsb (fun line => max_token <=? slen line) lines then None else Some (drop_cr <$> lines).

(** The names one line gives an address. *)
Definition hosts_entry (text : string) : option (addr * list string) :=
  let text := match cut_at "#" text with Some (before, _) => before | None => text end in
  match fields text with
  | first :: (_ :: _) as names =>
      match parse_addr first with
      | Some address => if is4in6 address then None else Some (address, (fun name => trim_suffix (to_lower name) ".") <$> names)
      | None => None
      end
  | _ => None
  end.

Fixpoint scan_hosts (lines : list string) (number : Z) (exact : gset string) (suffixes : list string) : list hostsConflict :=
  match lines with
  | [] => []
  | text :: lines' =>
      match hosts_entry text with
      | None => []
      | Some (address, names) =>
          MkConflict number (addr_text address) <$> filter (fun domain => policyDomainMatch domain exact suffixes = true) names
      end ++ scan_hosts lines' (number + 1) exact suffixes
  end.

(** The hosts file as it was opened. *)
Inductive hosts_file : Type :=
| HostsUnopened (e : string)
| HostsUninspected (e : string)
| HostsOpened (regular : bool) (size : Z) (contents : result string string).

(** [scanHostsConflicts] *)
Definition scanHostsConflicts (file : hosts_file) (configRules : list Rule) : result string (list hostsConflict) :=
  match file with
  | HostsUnopened e => Err ("open hosts file: " +:+ e)
  | HostsUninspected e => Err ("inspect hosts file: " +:+ e)
  | HostsOpened regular size contents =>
      fail_if negb regular || (Z.shiftl 1 20 <? size) with "hosts file must be a regular file no larger than 1 MiB" in
      let '(exact, suffixes) := policy_names configRules in
      match contents with
      | Err e => Err ("read hosts file: " +:+ e)
      | Ok contents =>
          match scan_lines contents with
          | None => Err "read hosts file: bufio.Scanner: token too long"
          | Some lines => Ok (scan_hosts lines 1 exact suffixes)
          end
      end
  end.

(** ** Interfaces *)

(** [requiredInterfaces] *)
Definition requiredInterfaces (runtime : option Config) : gset string :=
  match runtime with
  | None => ∅
  | Some runtime =>
      list_to_set (Interface <$> filter (fun route => OutType route = "direct" /\ Interface route <> "") (map_to_list (Outbounds runtime)).*2)
  end.

(** [sortedSet] *)
Definition sortedSet (values : gset string) : list string := merge_sort String.le (elements values).

(** The address of [net.ParseCIDR]. *)
Definition ParseCIDR (s : string) : option addr :=
  match cut_at "/" s with
  | None => None
  | Some (address, mask) =>
      match parse_addr address, digits_value 0 mask with
      | Some a, Some n =>
          if has_zone a || bool_decide (mask = "") || (bit_len a <? n) then None else Some a
      | _, _ => None
      end
  end.

(** [hasUsableIPv4] *)
Definition hasUsableIPv4 (addresses : list string) : bool :=
  existsb (fun raw => match ParseCIDR raw with
                      | Some address => (is4 address || is4in6 address) && negb (is_loopback (unmap address))
                      | None => false
                      end) addresses.

Definition find_interface (interfaces : list net_interface) (name : string) : option net_interface :=
  last (filter (fun iface => ni_Name iface = name) interfaces).

Definition bool_text (b : bool) : string := if b then "true" else "false".

(** The report on one interface and its check. *)
Definition check_interface (interfaces : list net_interface) (name : string) : diagnosticInterface * diagnosticCheck :=
  match find_interface interfaces name with
  | None =>
      (MkDiagnosticInterface name 0 false false [] true "interface does not exist",
       MkCheck ("interface." +:+ name) "error" "configured direct interface does not exist")
  | Some iface =>
      (MkDiagnosticInterface (ni_Name iface) (ni_Index iface) (ni_Up iface) (ni_Running iface) (ni_Addresses iface) true "",
       if negb (ni_Up iface) || negb (hasUsableIPv4 (ni_Addresses iface))
       then MkCheck ("interface." +:+ name) "error"
              ("up=" +:+ bool_text (ni_Up iface) +:+ " usable_ipv4=" +:+ bool_text (hasUsableIPv4 (ni_Addresses iface)))
       else MkCheck ("interface." +:+ name) "pass" "configured direct interface is up with IPv4")
  end.

(** ** Checks *)

(** [add]: a check may raise the verdict. *)
Definition raise (overall : string) (check : diagnosticCheck) : string :=
  if bool_decide (dk_Status check = "error") then "error"
  else if bool_decide (dk_Status check = "warning") && bool_decide (overall = "ok") then "warning"
  else overall.

(** [addRuntimeChecks] *)
Definition addRuntimeChecks (runtimeConfig : option Config) (digest : string) (state : State) (snapshot : runtime_snapshot)
    : list diagnosticCheck :=
  [if bool_decide (sn_ConfigDigest snapshot = st_ConfigDigest state) &&
      (bool_decide (digest = "") || bool_decide (sn_ConfigDigest snapshot = digest))
   then MkCheck "config_digest" "pass" "configuration digests agree"
   else MkCheck "config_digest" "warning"
          ("file=" +:+ digest +:+ " state=" +:+ st_ConfigDigest state +:+ " runtime=" +:+ sn_ConfigDigest snapshot);
   if negb (bool_decide (re_LastError (sn_Reload snapshot) = "")) then MkCheck "reload" "warning" (re_LastError (sn_Reload snapshot))
   else MkCheck "reload" "pass"
          ("successes=" +:+ pretty (re_Successes (sn_Reload snapshot)) +:+ " failures=" +:+ pretty (re_Failures (sn_Reload snapshot)))] ++
  (if negb (bool_decide (ne_LastError (sn_Network snapshot) = "")) then [MkCheck "network_refresh" "warning" (ne_LastError (sn_Network snapshot))] else []) ++
  [if negb (Failures (sn_DNS snapshot) =? 0) || negb (CapacityRejects (sn_DNS snapshot) =? 0)
   then MkCheck "dns" "warning"
          ("queries=" +:+ pretty (Queries (sn_DNS snapshot)) +:+ " failures=" +:+ pretty (Failures (sn_DNS snapshot)) +:+
           " capacity_rejects=" +:+ pretty (CapacityRejects (sn_DNS snapshot)))
   else MkCheck "dns" "pass" ("queries=" +:+ pretty (Queries (sn_DNS snapshot)) +:+ " failures=0 capacity_rejects=0")] ++
  (if i6_Configured (sn_IPv6 snapshot) && negb (i6_Enabled (sn_IPv6 snapshot)) then [MkCheck "ipv6" "warning" (i6_FallbackReason (sn_IPv6 snapshot))] else []) ++
  match runtimeConfig with
  | Some c => if negb (li_TCPFlows (sn_Limits snapshot) =? MaxTCPFlows (CSessions c))
              then [MkCheck "runtime_limits" "warning" "runtime TCP flow limit differs from loaded configuration"] else []
  | None => []
  end.

(** [joinMessage] *)
Definition joinMessage (left_ right_ : string) : string := if bool_decide (left_ = "") then right_ else left_ +:+ "; " +:+ right_.

(** ** The report *)

(** What [collectDiagnosis] finds: the configuration with its digest, the
    status of the service when it is root, the recovery state (an error may be
    that there is none), whether its process exists, the snapshot of its
    socket, the interfaces and the hosts file. *)
Record findings : Type := MkFindings {
  fd_config : result string (Config * string);
  fd_root : bool;
  fd_service : result string Status;
  fd_state : result (bool * string) State;
  fd_alive : Z -> bool;
  fd_snapshot : string -> result string runtime_snapshot;
  fd_interfaces : result string (list net_interface);
  fd_hosts : hosts_file
}.

Definition check_config (path : string) (f : findings) : diagnosticConfig * list diagnosticCheck :=
  match fd_config f with
  | Err e => (MkDiagnosticConfig path false "" e 0 0 false, [MkCheck "config" "error" e])
  | Ok (c, digest) =>
      let outbounds := Z.of_nat (size (Outbounds c)) in
      let rules := Z.of_nat (length (ConfigTypes.Rules c)) in
      (MkDiagnosticConfig path true digest "" outbounds rules (DefaultRoute (CCapture c)),
       [MkCheck "config" "pass" ("loaded " +:+ pretty outbounds +:+ " outbounds and " +:+ pretty rules +:+ " rules")])
  end.

Definition check_service (f : findings) : diagnosticService * list diagnosticCheck :=
  if negb (fd_root f) then
    (MkDiagnosticService false None "root privileges are required for managed service inspection",
     [MkCheck "service" "warning" "managed launchd status unavailable without sudo"])
  else
    match fd_service f with
    | Err e => (MkDiagnosticService false None e, [MkCheck "service" "error" e])
    | Ok status =>
        let runtime := su_Runtime status in
        (MkDiagnosticService true (Some status) "",
         [if su_Installed status && su_Loaded status && rs_Running runtime && bool_decide (rs_Phase runtime = "running")
          then MkCheck "service" "pass" ("managed service running with supervisor PID " +:+ pretty (rs_PID runtime))
          else MkCheck "service" "warning"
                 ("installed=" +:+ bool_text (su_Installed status) +:+ " loaded=" +:+ bool_text (su_Loaded status) +:+
                  " running=" +:+ bool_text (rs_Running runtime) +:+ " phase=" +:+ rs_Phase runtime)])
    end.

Definition check_runtime (runtimeConfig : option Config) (digest : string) (f : findings) : diagnosticRuntime * list diagnosticCheck :=
  match fd_state f with
  | Err (absent, e) =>
      (MkDiagnosticRuntime None false None e,
       [MkCheck "runtime_state" "warning" (if absent then "runtime state file does not exist" else e)])
  | Ok state =>
      let alive := fd_alive f (st_PID state) in
      let process :=
        if alive then MkCheck "runtime_process" "pass" ("PID " +:+ pretty (st_PID state) +:+ " is alive in phase " +:+ st_Phase state)
        else MkCheck "runtime_process" "error" ("PID " +:+ pretty (st_PID state) +:+ " is not alive") in
      if bool_decide (st_StatusSocket state = "") then
        (MkDiagnosticRuntime (Some state) alive None "",
         [process; MkCheck "runtime_status" "warning" "state has no runtime status socket"])
      else
        match fd_snapshot f (st_StatusSocket state) with
        | Err e =>
            (MkDiagnosticRuntime (Some state) alive None (joinMessage "" e), [process; MkCheck "runtime_status" "warning" e])
        | Ok snapshot =>
            (MkDiagnosticRuntime (Some state) alive (Some snapshot) "",
             process :: addRuntimeChecks runtimeConfig digest state snapshot)
        end
  end.

Definition check_interfaces (runtimeConfig : option Config) (f : findings) : list diagnosticInterface * list diagnosticCheck :=
  match fd_interfaces f with
  | Err e => ([], [MkCheck "interfaces" "error" e])
  | Ok interfaces =>
      let checked := check_interface interfaces <$> sortedSet (requiredInterfaces runtimeConfig) in
      (checked.*1, checked.*2)
  end.

Definition check_hosts (runtimeConfig : option Config) (f : findings) : list hostsConflict * list diagnosticCheck :=
  match runtimeConfig with
  | None => ([], [])
  | Some c =>
      match scanHostsConflicts (fd_hosts f) (ConfigTypes.Rules c) with
      | Err e => ([], [MkCheck "hosts" "warning" e])
      | Ok [] => ([], [MkCheck "hosts" "pass" "no policy domains are overridden by the hosts file"])
      | Ok conflicts =>
          (conflicts, [MkCheck "hosts" "error" (pretty (Z.of_nat (length conflicts)) +:+ " hosts entries bypass Fake DNS policy")])
      end
  end.

(** [collectDiagnosis]: the interfaces are in the order of their names, which
    the last sort keeps. *)
Definition collectDiagnosis (configPath hostsPath : string) (f : findings) : diagnosisReport :=
  let '(runtimeConfig, digest) := match fd_config f with Ok (c, digest) => (Some c, digest) | Err _ => (None, "") end in
  let '(config, checks1) := check_config configPath f in
  let '(service, checks2) := check_service f in
  let '(runtime, checks3) := check_runtime runtimeConfig digest f in
  let '(interfaces, checks4) := check_interfaces runtimeConfig f in
  let '(hosts, checks5) := check_hosts runtimeConfig f in
  let checks := checks1 ++ checks2 ++ checks3 ++ checks4 ++ checks5 in
  MkReport (fold_left raise checks "ok") config service runtime interfaces hostsPath hosts checks.

(** ** The command *)

(** [strings.ToUpper] on the names of the statuses. *)
Fixpoint to_upper (s : string) : string :=
  match s with
  | "" => ""
  | String c s' => String (if is_lower c then byte (code c - 32) else c) (to_upper s')
  end.

(** The [%-ns] of a text of single-byte characters. *)
Definition pad_right (width : nat) (s : string) : string :=
  s +:+ Nat.iter (width - String.length s) (String " ") "".

(** [printDiagnosis]; [generated] is the formatted time. *)
Definition printDiagnosis (generated : string) (report : diagnosisReport) : list string :=
  ["diagnosis overall=" +:+ rp_Overall report +:+ " generated=" +:+ generated] ++
  ((fun check => pad_right 7 (to_upper (dk_Status check)) +:+ " " +:+ pad_right 24 (dk_Name check) +:+ " " +:+ dk_Message check)
     <$> rp_Checks report) ++
  (if bool_decide (rp_Hosts report = []) then []
   else "hosts conflicts:" ::
     ((fun conflict => "  " +:+ rp_HostsPath report +:+ ":" +:+ pretty (hc_Line conflict) +:+ " " +:+ hc_Address conflict +:+ " " +:+
                       hc_Domain conflict) <$> rp_Hosts report)).

(** [diagnoseCommand] after the flags: the report, which is printed as lines
    or as JSON. *)
Definition diagnoseCommand (arguments : list string) (configPath hostsPath : string) (f : findings) : result string diagnosisReport :=
  fail_if negb (bool_decide (arguments = [])) with "diagnose received unexpected arguments: " +:+ string_join " " arguments in
  Ok (collectDiagnosis configPath hostsPath f).

(** ** The verdict *)

(** The worst of a verdict and some checks. *)
Definition worst (overall : string) (checks : list diagnosticCheck) : string :=
  if bool_decide (overall = "error" \/ "error" ∈ dk_Status <$> checks) then "error"
  else if bool_decide (overall = "warning" \/ "warning" ∈ dk_Status <$> checks) then "warning" else "ok".

Lemma worst_cons overall check checks :
  overall ∈ ["ok"; "warning"; "error"] -> worst (raise overall check) checks = worst overall (check :: checks).
Proof.
  intros Ho. unfold worst. rewrite fmap_cons.
  assert (He : (raise overall check = "error" \/ "error" ∈ dk_Status <$> checks) <->
    (overall = "error" \/ "error" ∈ dk_Status check :: (dk_Status <$> checks))).
  { rewrite elem_of_cons. unfold raise. repeat case_bool_decide; cbn; naive_solver. }
  rewrite (bool_decide_ext _ _ He). case_bool_decide as Hn; [done|].
  assert (Hw : (raise overall check = "warning" \/ "warning" ∈ dk_Status <$> checks) <->
    (overall = "warning" \/ "warning" ∈ dk_Status check :: (dk_Status <$> checks))).
  { rewrite elem_of_cons in *. rewrite !elem_of_cons, elem_of_nil in Ho. unfold raise. repeat case_bool_decide; cbn; naive_solver. }
  by rewrite (bool_decide_ext _ _ Hw).
Qed.

Lemma raise_worst checks overall :
  overall ∈ ["ok"; "warning"; "error"] -> fold_left raise checks overall = worst overall checks.
Proof.
  revert overall. induction checks as [|check checks IH]; intros overall Ho; cbn [fold_left].
  - unfold worst. rewrite !elem_of_cons, elem_of_nil in Ho. destruct Ho as [->|[->|[->|[]]]]; reflexivity.
  - rewrite IH, worst_cons; [done|done|]. unfold raise. repeat case_bool_decide; cbn; set_solver.
Qed.

(** The verdict of a diagnosis is its worst check: an error if there is
    one, else a warning if there is one, else ok; and a configuration that
    does not load, a dead process, a missing interface and a hidden domain are
    errors. *)
Theorem diagnosis_verdict (configPath hostsPath : string) (f : findings) :
  let report := collectDiagnosis configPath hostsPath f in
  rp_Overall report =
    (if bool_decide ("error" ∈ dk_Status <$> rp_Checks report) then "error"
     else if bool_decide ("warning" ∈ dk_Status <$> rp_Checks report) then "warning" else "ok") /\
  (rp_Overall report <> "error" ->
   exists c digest, fd_config f = Ok (c, digest) /\ rp_Hosts report = [] /\
     (forall state, fd_state f = Ok state -> fd_alive f (st_PID state) = true) /\
     exists interfaces, fd_interfaces f = Ok interfaces /\ forall name, name ∈ requiredInterfaces (Some c) ->
       exists iface, find_interface interfaces name = Some iface /\ ni_Up iface = true /\ hasUsableIPv4 (ni_Addresses iface) = true).
Proof.
  intros report.
  assert (Hv : rp_Overall report = worst "ok" (rp_Checks report)).
  { unfold report, collectDiagnosis. destruct (match fd_config f with Ok _ => _ | Err _ => _ end) as [rc d].
    destruct (check_config _ _), (check_service _), (check_runtime _ _ _), (check_interfaces _ _), (check_hosts _ _).
    apply raise_worst. by left. }
  split.
  { rewrite Hv. unfold worst. rewrite (bool_decide_ext (_ \/ _) ("error" ∈ dk_Status <$> rp_Checks report)) by naive_solver.
    by rewrite (bool_decide_ext (_ \/ _) ("warning" ∈ dk_Status <$> rp_Checks report)) by naive_solver. }
  intros Hno. assert (Hnone : Forall (fun check => dk_Status check <> "error") (rp_Checks report)).
  { apply Forall_forall. intros check Hin Hs. apply Hno. rewrite Hv. unfold worst. rewrite bool_decide_true; [done|].
    right. apply list_elem_of_fmap. by exists check. }
  clear Hv Hno. revert Hnone. unfold report, collectDiagnosis, check_config.
  destruct (fd_config f) as [[c digest]|e] eqn:Hc; cycle 1.
  { destruct (check_service _), (check_runtime _ _ _), (check_interfaces _ _), (check_hosts _ _). cbn [rp_Checks].
    by intros [Hn _]%Forall_cons. }
  destruct (check_service f) as [service checks2], (check_runtime (Some c) digest f) as [runtime checks3] eqn:H3.
  destruct (check_interfaces (Some c) f) as [interfaces checks4] eqn:H4, (check_hosts (Some c) f) as [hosts checks5] eqn:H5.
  cbn [rp_Checks rp_Hosts]. rewrite !Forall_app. intros (_ & _ & Hn3 & Hn4 & Hn5). exists c, digest. split; [done|]. split; [|split].
  - unfold check_hosts in H5. destruct (scanHostsConflicts _ _) as [[|x l]|e]; injection H5 as <- <-; [done| |done].
    by apply Forall_cons in Hn5 as [? _].
  - intros state Hs. unfold check_runtime in H3. rewrite Hs in H3. destruct (fd_alive f (st_PID state)) eqn:Ha; [done|].
    exfalso. assert (exists rest, checks3 = MkCheck "runtime_process" "error" ("PID " +:+ pretty (st_PID state) +:+ " is not alive") :: rest) as [rest ->].
    { destruct (bool_decide _); [|destruct (fd_snapshot _ _)]; injection H3 as _ <-; by eexists. }
    by apply Forall_cons in Hn3 as [? _].
  - unfold check_interfaces in H4. destruct (fd_interfaces f) as [l|e]; cycle 1.
    { injection H4 as _ <-. by apply Forall_cons in Hn4 as [? _]. }
    injection H4 as _ <-. exists l. split; [done|]. intros name Hin. rewrite <- list_fmap_compose, Forall_fmap, Forall_forall in Hn4.
    assert (Hs : name ∈ sortedSet (requiredInterfaces (Some c)))
      by (unfold sortedSet; rewrite merge_sort_Permutation; by apply elem_of_elements).
    specialize (Hn4 name Hs). cbn in Hn4.
    unfold check_interface in Hn4. destruct (find_interface l name) as [iface|]; [|done]. exists iface. split; [done|].
    destruct (ni_Up iface), (hasUsableIPv4 (ni_Addresses iface)); cbn in Hn4; done.
Qed.

(** ** Hidden domains *)

(** A line of a hosts file that gives a domain an address. *)
Definition hosts_line (contents : string) (number : Z) (address : addr) (domain : string) : Prop :=
  exists lines n text names, scan_lines contents = Some lines /\ lines !! n = Some text /\ number = Z.of_nat n + 1 /\
    hosts_entry text = Some (address, names) /\ domain ∈ names.

Lemma scan_hosts_elem lines first exact suffixes conflict :
  conflict ∈ scan_hosts lines first exact suffixes <->
  exists n text address names domain, lines !! n = Some text /\ hosts_entry text = Some (address, names) /\ domain ∈ names /\
    policyDomainMatch domain exact suffixes = true /\ conflict = MkConflict (first + Z.of_nat n) (addr_text address) domain.
Proof.
  revert first. induction lines as [|text lines IH]; intros first; cbn [scan_hosts].
  { rewrite elem_of_nil. split; [done|]. by intros (n & text & _ & _ & _ & H & _). }
  rewrite elem_of_app, IH. split.
  - intros [Hin|(n & t & a & names & d & Hn & He & Hd & Hp & ->)].
    + destruct (hosts_entry text) as [[a names]|] eqn:He; [|by apply elem_of_nil in Hin].
      apply list_elem_of_fmap in Hin as (d & -> & [Hp Hd]%list_elem_of_filter). exists 0%nat, text, a, names, d.
      by rewrite Z.add_0_r.
    + exists (S n), t, a, names, d. split_and!; try done. f_equal. lia.
  - intros (n & t & a & names & d & Hn & He & Hd & Hp & ->). destruct n as [|n]; [left|right].
    + injection Hn as ->. rewrite He. rewrite Z.add_0_r. apply list_elem_of_fmap_2. by apply list_elem_of_filter.
    + exists n, t, a, names, d. split_and!; try done. f_equal. lia.
Qed.

(** Names of rules in the form of [Normalize]. *)
Definition names_canonical (r : Rule) : Prop := Forall canonical (Domains r) /\ Forall canonical (DomainSuffixes r).

Lemma compile_domains_canonical values acc l :
  compile_domains values acc = Ok l -> Forall canonical acc -> Forall canonical l.
Proof.
  revert acc. induction values as [|value values IH]; intros acc; cbn [compile_domains]; [by intros [= <-]|].
  intros H Hacc. inv_result. apply (IH _ H). unfold appendUnique. case_match; [done|].
  apply Forall_app. split; [done|]. apply Forall_singleton.
  match goal with Hn : Normalize _ = Ok _ |- _ => by apply Normalize_canonical in Hn end.
Qed.

Lemma compile_rules_canonical values index total outbounds acc defaults rs n :
  compile_rules_loop values index total outbounds acc defaults = Ok (rs, n) -> Forall names_canonical acc -> Forall names_canonical rs.
Proof.
  revert index acc defaults. induction values as [|value values IH]; intros index acc defaults; cbn [compile_rules_loop].
  - by intros [= <- _].
  - intros H Hacc. inv_result. apply (IH _ _ _ H). apply Forall_app. split; [done|]. apply Forall_singleton.
    split; cbn; (eapply compile_domains_canonical; [eassumption|constructor]).
Qed.

Lemma compiled_names raw c : compile raw = Ok c -> Forall names_canonical (ConfigTypes.Rules c).
Proof.
  intros (_ & _ & _ & _ & _ & _ & _ & _ & _ & Hr & _)%compile_Ok. unfold compileRules in Hr. inv_result.
  match goal with Hl : compile_rules_loop _ _ _ _ _ _ = Ok ?x |- _ => destruct x as [rs n]; cbn in *; subst rs;
    eapply compile_rules_canonical; [exact Hl|constructor] end.
Qed.

Lemma canonical_lower d : canonical d -> to_lower d = d.
Proof. intros H. apply to_lower_id. eauto using canonical_chars, sforall_impl, domain_char_lower_stable. Qed.

(** A domain that a rule names, or that lies below a suffix of it. *)
Definition named_by (r : Rule) (domain : string) : Prop :=
  domain ∈ Domains r \/ matchesAnySuffix domain (DomainSuffixes r) = true.

Lemma policy_match_spec rules domain :
  Forall names_canonical rules ->
  policyDomainMatch domain (policy_names rules).1 (policy_names rules).2 = true <-> exists r, r ∈ rules /\ named_by r domain.
Proof.
  intros Hall. unfold policyDomainMatch, policy_names, named_by, matchesAnySuffix. cbn [fst snd].
  rewrite orb_true_iff, bool_decide_eq_true, elem_of_list_to_set, existsb_elem_of, list_elem_of_fmap.
  setoid_rewrite list_elem_of_fmap. setoid_rewrite list_elem_of_bind. setoid_rewrite existsb_elem_of. rewrite Forall_forall in Hall.
  assert (Hlow : forall r d, r ∈ rules -> d ∈ Domains r \/ d ∈ DomainSuffixes r -> to_lower d = d).
  { intros r d Hr Hd. destruct (Hall r Hr) as [H1 H2]. rewrite Forall_forall in H1, H2. apply canonical_lower. destruct Hd; auto. }
  split.
  - intros [(d & -> & r & Hd & Hr)|(s & (d & -> & r & Hd & Hr) & Hs)]; exists r; (split; [done|]);
      rewrite (Hlow r d) in * by auto; [by left|right; by exists d].
  - intros (r & Hr & [Hd|(s & Hs & Hm)]).
    + left. exists domain. rewrite (Hlow r domain) by auto. split; [done|]. by exists r.
    + right. exists s. split; [|done]. exists s. rewrite (Hlow r s) by auto. split; [done|]. by exists r.
Qed.

Lemma matchesBase_named r domain :
  matchesBase (compile_rule r) domain = true -> explicit (compile_rule r) = true -> named_by r domain.
Proof.
  unfold matchesBase, explicit, named_by, compile_rule. cbn [cr_domains cr_suffixes]. intros Hm He.
  destruct (Domains r) as [|d ds] eqn:Hd.
  - rewrite bool_decide_true in He by done. cbn in He. apply negb_true_iff, bool_decide_eq_false in He.
    rewrite (bool_decide_true (list_to_set [] = ∅)) in Hm by done. cbn [negb andb] in Hm.
    rewrite (bool_decide_false (DomainSuffixes r = [])) in Hm by done. cbn [orb] in Hm. apply andb_true_iff in Hm as [_ Hm]. by right.
  - left. rewrite <- Hd in *. rewrite (bool_decide_false (list_to_set (Domains r) = ∅)) in Hm by (rewrite Hd; cbn; set_solver).
    destruct (bool_decide (domain ∈ _)) eqn:Hin; [|done]. apply bool_decide_eq_true in Hin. by apply elem_of_list_to_set in Hin.
Qed.

Lemma named_matchesBase r domain :
  Domains r = [] \/ DomainSuffixes r = [] -> domain <> "" -> named_by r domain ->
  explicit (compile_rule r) = true /\ matchesBase (compile_rule r) domain = true.
Proof.
  unfold matchesBase, explicit, named_by, compile_rule. cbn [cr_domains cr_suffixes]. intros [He|He] Hne Hn.
  - rewrite He in *. destruct Hn as [Hn|Hn]; [by apply elem_of_nil in Hn|]. rewrite (bool_decide_true (list_to_set [] = ∅)) by done.
    assert (DomainSuffixes r <> []) by (by intros Hs; rewrite Hs in Hn). rewrite !(bool_decide_false (_ = _)) by done. by rewrite Hn.
  - rewrite He in *. destruct Hn as [Hn|Hn]; [|done].
    assert (list_to_set (C := gset string) (Domains r) <> ∅) by (intros Hs; apply (elem_of_list_to_set (C := gset string)) in Hn; set_solver).
    rewrite (bool_decide_false (list_to_set _ = ∅)) by done. rewrite (bool_decide_true (domain ∈ _)) by (by apply elem_of_list_to_set).
    by rewrite bool_decide_true.
Qed.

(** C10: the report on the hosts file.  For the rules of a compiled
    configuration each conflict is an entry of a line that gives a domain an
    address, and every entry is reported whose domain the program would answer
    with a Fake IP.  A reported domain is named by a rule or lies below a
    suffix of one; if no rule has both names and suffixes, it would be answered
    with a Fake IP. *)
Theorem hosts_conflicts_spec (raw : rawConfig) (c : Config) (engine : Engine) (size : Z) (contents : string)
    (conflicts : list hostsConflict) :
  compile raw = Ok c -> New (ConfigTypes.Rules c) = Ok engine ->
  scanHostsConflicts (HostsOpened true size (Ok contents)) (ConfigTypes.Rules c) = Ok conflicts ->
  (forall conflict, conflict ∈ conflicts -> exists address,
     hosts_line contents (hc_Line conflict) address (hc_Domain conflict) /\ hc_Address conflict = addr_text address /\
     exists rule, rule ∈ ConfigTypes.Rules c /\ named_by rule (hc_Domain conflict)) /\
  (forall number address domain, hosts_line contents number address domain -> canonical domain ->
     (RequiresFakeIP engine domain = true -> MkConflict number (addr_text address) domain ∈ conflicts) /\
     (Forall (fun rule => Domains rule = [] \/ DomainSuffixes rule = []) (ConfigTypes.Rules c) ->
      MkConflict number (addr_text address) domain ∈ conflicts -> RequiresFakeIP engine domain = true)).
Proof.
  intros Hc He Hscan. pose proof (compiled_names _ _ Hc) as Hnames.
  unfold scanHostsConflicts in Hscan. apply guard_err_Ok in Hscan as [_ Hscan].
  destruct (policy_names (ConfigTypes.Rules c)) as [exact suffixes] eqn:Hp.
  assert (Hmatch : forall d, policyDomainMatch d exact suffixes = true <-> exists r, r ∈ ConfigTypes.Rules c /\ named_by r d).
  { intros d. pose proof (policy_match_spec _ d Hnames) as H. by rewrite Hp in H. }
  destruct (scan_lines contents) as [lines|] eqn:Hl; [|done]. injection Hscan as <-.
  assert (Hengine : engine = compile_rule <$> ConfigTypes.Rules c).
  { unfold New in He. apply guard_err_Ok in He as [_ He]. by injection He. }
  split.
  - intros conflict (n & text & a & names & d & Hn & Hx & Hd & Hm & ->)%scan_hosts_elem. exists a. cbn.
    split; [|split; [done|by apply Hmatch]]. exists lines, n, text, names. split_and!; try done. lia.
  - intros number address domain (lines' & n & text & names & Hl' & Hn & -> & Hx & Hd) Hcan. rewrite Hl in Hl'. injection Hl' as <-.
    assert (Hin : MkConflict (Z.of_nat n + 1) (addr_text address) domain ∈ scan_hosts lines 1 exact suffixes <->
      policyDomainMatch domain exact suffixes = true).
    { rewrite scan_hosts_elem. split.
      - by intros (n' & t & a & ns & d & _ & _ & _ & Hm & [= _ _ ->]).
      - intros Hm. exists n, text, address, names, domain. split_and!; try done. f_equal. lia. }
    rewrite Hin, Hmatch, requires_fake_ip_spec, Hengine. setoid_rewrite list_elem_of_fmap.
    pose proof (canonical_Normalize _ Hcan) as Hnorm. split.
    + intros (d & rule & Hd' & (r & -> & Hr) & Hex & Hb). rewrite Hnorm in Hd'. injection Hd' as <-.
      exists r. split; [done|]. by apply matchesBase_named.
    + rewrite Forall_forall. intros Hone (r & Hr & Hnamed). exists domain, (compile_rule r).
      destruct (named_matchesBase r domain (Hone r Hr) (proj1 Hcan) Hnamed). split_and!; try done. by exists r.
Qed.

(** ** Demonstrations *)

Definition demo_hosts : string :=
  "# hosts" +:+ String (byte 10) ("192.0.2.7 Example.com. other.example # blocked" +:+ String (byte 10) "10.0.0.1 x.ads").

Lemma hosts_conflicts_spec_witness :
  exists c conflicts, compile (demo_raw "" "" "") = Ok c /\
    scanHostsConflicts (HostsOpened true 80 (Ok demo_hosts)) (ConfigTypes.Rules c) = Ok conflicts /\
    MkConflict 2 "192.0.2.7" "example.com" ∈ conflicts.
Proof.
  destruct (compile (demo_raw "" "" "")) as [c|e] eqn:Hc; [|evaluate Hc; discriminate Hc].
  assert (Hnew : exists engine, New (ConfigTypes.Rules c) = Ok engine /\ RequiresFakeIP engine "example.com" = true).
  { evaluate Hc. injection Hc as <-. eexists. split; vm_compute; reflexivity. }
  destruct Hnew as (engine & He & Hfake).
  assert (Hscan : exists conflicts, scanHostsConflicts (HostsOpened true 80 (Ok demo_hosts)) (ConfigTypes.Rules c) = Ok conflicts)
    by (clear; eexists; reflexivity).
  destruct Hscan as [conflicts Hs].
  destruct (hosts_conflicts_spec (demo_raw "" "" "") c engine 80 demo_hosts conflicts Hc He Hs) as [_ Hall].
  exists c, conflicts. split; [reflexivity|]. split; [exact Hs|].
  destruct (Hall 2 (Addr4 0xc0000207) "example.com") as [Hin _].
  - eexists _, 1%nat, _, _. split; [vm_compute; reflexivity|]. split; [vm_compute; reflexivity|]. split; [reflexivity|].
    split; [vm_compute; reflexivity|]. by left.
  - eapply (Normalize_canonical "example.com"). vm_compute. reflexivity.
  - exact (Hin Hfake).
Defined.

(** With a rule that has names and suffixes, so that it needs both, an entry
    is reported that hides nothing: no rule matches the domain but the default
    one, and it would get no Fake IP. *)
Theorem hosts_conflicts_overstated :
  exists engine, New [MkRule 1 ["a.example"] ["b.example"] [] "vpn"; MkRule 2 [] [] [] "lan"] = Ok engine /\
    RequiresFakeIP engine "a.example" = false /\
    scanHostsConflicts (HostsOpened true 20 (Ok "192.0.2.7 a.example"))
      [MkRule 1 ["a.example"] ["b.example"] [] "vpn"; MkRule 2 [] [] [] "lan"] = Ok [MkConflict 1 "192.0.2.7" "a.example"].
Proof. eexists. split; [reflexivity|]. split; vm_compute; reflexivity. Qed.
