(* ===== verification/ServiceLogs.v ===== *)
(** * Component [cmd/tun-proxy]: the logs of the service

    [service_logs.go]: the last lines of the managed logs, following them as
    they grow or are replaced, clearing them, and the part written during one
    attempt to install the service.  Opening, reading and truncating files are
    operations of a world that other processes change too; each turn of the
    follower starts in the world it finds. *)

From S2P Require Import Prelude.
From S2P Require Import GoStrings.
From S2P Require Import GoTime.
From S2P Require Import Outbound.
From S2P Require Import LaunchLayout.

Definition maxTailWindow : Z := Z.shiftl 8 20.

(** ** Data *)

Record managedLog : Type := MkLog { ml_Name : string; ml_Path : string }.

(** What [os.FileInfo] tells: the file, its size and its type. *)
Record file_info : Type := MkInfo { fi_file : Z; fi_Size : Z; fi_symlink : bool; fi_regular : bool }.

(** [os.SameFile] *)
Definition SameFile (a b : file_info) : bool := fi_file a =? fi_file b.

Record followedLog : Type := MkFollowed { fw_log : managedLog; fw_Offset : Z; fw_Info : option file_info }.

Record managedLogCheckpoint : Type := MkCheckpoint { cp_Info : option file_info; cp_Size : Z }.

(** An error, and whether it is [os.ErrNotExist] to [errors.Is]. *)
Record log_error : Type := MkLogError { le_text : string; le_absent : bool }.

Definition refuse (text : string) : log_error := MkLogError text false.

(** ** Lines *)

Definition line_feed : ascii := byte 10.
Definition newline : string := String line_feed "".

(** The loop of [lastLines]: where the last [count] lines of [trimmed] before
    [start] begin, or the line feed before them. *)
Fixpoint last_lines_loop (count : nat) (trimmed : string) (start : nat) : nat :=
  match count with
  | O => start
  | S count' =>
      match cut_last line_feed (stake start trimmed) with
      | None => 0%nat
      | Some (before, _) =>
          let start := String.length before in
          if (start =? 0)%nat then start else last_lines_loop count' trimmed start
      end
  end.

(** [lastLines] *)
Definition lastLines (contents : string) (count : Z) : string :=
  if (count <=? 0) || bool_decide (contents = "") then ""
  else
    let trimmed := trim_suffix contents newline in
    if bool_decide (trimmed = "") then contents
    else
      let start := last_lines_loop (Z.to_nat count) trimmed (String.length trimmed) in
      let start := if (0 <? start)%nat && bool_decide (String.get start trimmed = Some line_feed) then S start else start in
      sdrop start contents.

(** What follows the first line feed, if there is one. *)
Definition after_first_line (contents : string) : string :=
  match cut_at line_feed contents with Some (_, rest) => rest | None => contents end.

Definition log_header (log : managedLog) : string := "==> " +:+ ml_Name log +:+ " (" +:+ ml_Path log +:+ ") <==" +:+ newline.

(** ** Files *)

(** The system calls on logs, on open files [F]: [Open] is for writing when
    its flag is set, [ReadAll] reads up to a limit. *)
Record log_system (W F : Type) : Type := MkLogSystem {
  sys_Lstat : string -> act W log_error file_info;
  sys_Open : bool -> string -> act W log_error F;
  sys_Stat : F -> act W log_error file_info;
  sys_Seek : F -> Z -> act W log_error unit;
  sys_ReadAll : F -> Z -> act W log_error string;
  sys_Truncate : F -> act W log_error unit;
  sys_Sync : F -> act W log_error unit;
  sys_Close : F -> act W log_error unit;
  (** writing to the output of the command *)
  sys_Print : string -> act W log_error unit
}.
Arguments sys_Lstat {W F}.
Arguments sys_Open {W F}.
Arguments sys_Stat {W F}.
Arguments sys_Seek {W F}.
Arguments sys_ReadAll {W F}.
Arguments sys_Truncate {W F}.
Arguments sys_Sync {W F}.
Arguments sys_Close {W F}.
Arguments sys_Print {W F}.

Section logs.
Context {W F : Type} (os : log_system W F).

Local Notation A := (act W log_error).

(** A call whose result does not matter. *)
Definition ignored {T} (m : A T) : A unit := fun w => (Ok tt, snd (m w)).

(** [m], with the file closed afterwards. *)
Definition then_close {T} (file : F) (m : A T) : A T := fun w => let '(r, w) := m w in (r, snd (sys_Close os file w)).

(** The common part of the two functions that open a log: the type of the
    file is checked before, its identity afterwards. *)
Definition open_checked (write : bool) (path : string) (before : file_info) : A (F * file_info) :=
  stop_if fi_symlink before || negb (fi_regular before) with refuse "managed log is not a regular file" in
  act! file := sys_Open os write path in
  fun w =>
    match sys_Stat os file w with
    | (Err e, w) => (Err e, snd (sys_Close os file w))
    | (Ok after, w) =>
        if SameFile before after then (Ok (file, after), w)
        else (Err (refuse "managed log changed while opening"), snd (sys_Close os file w))
    end.

(** [openManagedLog] *)
Definition openManagedLog (path : string) : A (F * file_info) :=
  act! before := sys_Lstat os path in
  open_checked false path before.

(** [openManagedLogForWrite]; [None] is a log that does not exist. *)
Definition openManagedLogForWrite (path : string) : A (option F) := fun w =>
  match sys_Lstat os path w with
  | (Err e, w) => if le_absent e then (Ok None, w) else (Err e, w)
  | (Ok before, w) =>
      match open_checked true path before w with
      | (Ok (file, _), w) => (Ok (Some file), w)
      | (Err e, w) => (Err e, w)
      end
  end.

(** [readManagedLogRange] *)
Definition readManagedLogRange (file : F) (start finish : Z) : A string :=
  stop_if (start <? 0) || (finish <? start) with refuse "invalid managed log range" in
  act! _ := sys_Seek os file start in
  sys_ReadAll os file (finish - start).

(** [tailManagedLog] *)
Definition tailManagedLog (path : string) (lines : Z) : A (string * file_info) :=
  act! opened := openManagedLog path in
  let '(file, info) := opened in
  then_close file (
    if (lines =? 0) || (fi_Size info =? 0) then act_ret ("", info)
    else
      let start := if fi_Size info - maxTailWindow <? 0 then 0 else fi_Size info - maxTailWindow in
      act! contents := readManagedLogRange file start (fi_Size info) in
      let contents := if 0 <? start then after_first_line contents else contents in
      act_ret (lastLines contents lines, info)).

(** [tailManagedLogSince] *)
Definition tailManagedLogSince (path : string) (checkpoint : managedLogCheckpoint) (lines : Z) : A string :=
  act! opened := openManagedLog path in
  let '(file, info) := opened in
  then_close file (
    let start :=
      match cp_Info checkpoint with
      | Some seen => if SameFile seen info && (cp_Size checkpoint <=? fi_Size info) then cp_Size checkpoint else 0
      | None => 0
      end in
    if (start =? fi_Size info) || (lines <=? 0) then act_ret ""
    else
      let cropped := maxTailWindow <? fi_Size info - start in
      let start := if cropped then fi_Size info - maxTailWindow else start in
      act! _ := sys_Seek os file start in
      act! contents := sys_ReadAll os file maxTailWindow in
      act_ret (lastLines (if cropped then after_first_line contents else contents) lines)).

(** ** Following *)

(** Writing to the output: the error, and what was written. *)
Fixpoint print_all (texts : list string) (w : W) : option log_error * list string * W :=
  match texts with
  | [] => (None, [], w)
  | text :: texts' =>
      match sys_Print os text w with
      | (Err e, w) => (Some e, [], w)
      | (Ok _, w) => let '(e, written, w) := print_all texts' w in (e, text :: written, w)
      end
  end.

(** Where a turn starts to read a log: from the beginning when it is new,
    another file or shorter than before. *)
Definition follow_offset (log : followedLog) (info : file_info) : Z :=
  match fw_Info log with
  | Some seen => if negb (SameFile seen info) || (fi_Size info <? fw_Offset log) then 0 else fw_Offset log
  | None => 0
  end.

(** One turn for one log: its new state, or the error, and the output. *)
Definition follow_one (many : bool) (log : followedLog) (w : W) : result log_error followedLog * list string * W :=
  match openManagedLog (ml_Path (fw_log log)) w with
  | (Err e, w) => if le_absent e then (Ok log, [], w) else (Err e, [], w)
  | (Ok (file, info), w) =>
      let start := follow_offset log info in
      if fi_Size info =? start then (Ok (MkFollowed (fw_log log) start (Some info)), [], snd (sys_Close os file w))
      else
        match then_close file (readManagedLogRange file start (fi_Size info)) w with
        | (Err e, w) => (Err e, [], w)
        | (Ok contents, w) =>
            let next := MkFollowed (fw_log log) (start + slen contents) (Some info) in
            if bool_decide (contents = "") then (Ok next, [], w)
            else
              let header := if many then ["==> " +:+ ml_Name (fw_log log) +:+ " <==" +:+ newline] else [] in
              match print_all (header ++ [contents]) w with
              | (Some e, written, w) => (Err e, written, w)
              | (None, written, w) => (Ok next, written, w)
              end
        end
  end.

(** One turn for all logs. *)
Fixpoint follow_turn (many : bool) (logs : list followedLog) (w : W) : result log_error (list followedLog) * list string * W :=
  match logs with
  | [] => (Ok [], [], w)
  | log :: logs' =>
      match follow_one many log w with
      | (Err e, written, w) => (Err e, written, w)
      | (Ok log, written, w) =>
          let '(r, more, w) := follow_turn many logs' w in
          (match r with Ok logs' => Ok (log :: logs') | Err e => Err e end, written ++ more, w)
      end
  end.

(** What wakes the follower: a tick, in the world as it is then, or the end of
    its context. *)
Inductive wake : Type :=
| Ticked (w : W)
| ContextDone (e : ctx_error).

Inductive follow_end : Type := Stopped | DeadlinePassed | Broken (e : log_error).

(** [followManagedLogsAtInterval]; without an end it is still following. *)
Fixpoint followManagedLogs (wakes : list wake) (logs : list followedLog) : option follow_end * list string * list followedLog :=
  match wakes with
  | [] => (None, [], logs)
  | ContextDone CtxCanceled :: _ => (Some Stopped, [], logs)
  | ContextDone CtxDeadline :: _ => (Some DeadlinePassed, [], logs)
  | Ticked w :: wakes' =>
      match follow_turn (1 <? length logs)%nat logs w with
      | (Err e, written, _) => (Some (Broken e), written, logs)
      | (Ok logs, written, _) =>
          let '(e, more, logs) := followManagedLogs wakes' logs in (e, written ++ more, logs)
      end
  end.

(** ** Selecting and clearing *)

(** [selectedManagedLogs] *)
Definition selectedManagedLogs (layout : Layout) (stream : string) : result log_error (list managedLog) :=
  let stdout := MkLog "stdout" (ly_StandardOut layout) in
  let stderr := MkLog "stderr" (ly_StandardErr layout) in
  if bool_decide (stream = "stdout") then Ok [stdout]
  else if bool_decide (stream = "stderr") then Ok [stderr]
  else if bool_decide (stream = "both") then Ok [stdout; stderr]
  else Err (refuse "service logs stream must be stdout, stderr, or both").

(** The first loop of [clearManagedLogs]: an error closes what is open. *)
Fixpoint close_all (opened : list (managedLog * F)) (w : W) : W :=
  match opened with
  | [] => w
  | (_, file) :: opened' => close_all opened' (snd (sys_Close os file w))
  end.

Fixpoint open_logs (logs : list managedLog) (opened : list (managedLog * F)) : A (list (managedLog * F)) :=
  match logs with
  | [] => act_ret opened
  | log :: logs' => fun w =>
      match openManagedLogForWrite (ml_Path log) w with
      | (Err e, w) => (Err e, close_all opened w)
      | (Ok None, w) => open_logs logs' opened w
      | (Ok (Some file), w) => open_logs logs' (opened ++ [(log, file)]) w
      end
  end.

(** The second loop: the logs that were cleared, and the failures. *)
Fixpoint clear_opened (opened : list (managedLog * F)) (w : W) : list managedLog * list log_error * W :=
  match opened with
  | [] => ([], [], w)
  | (log, file) :: opened' =>
      let '(done, failures, w) :=
        match sys_Truncate os file w with
        | (Err e, w) => ([], [e], w)
        | (Ok _, w) =>
            match sys_Sync os file w with
            | (Err e, w) => ([], [e], w)
            | (Ok _, w) => ([log], [], w)
            end
        end in
      let '(failures, w) :=
        match sys_Close os file w with (Err e, w) => (failures ++ [e], w) | (Ok _, w) => (failures, w) end in
      let '(cleared, others, w) := clear_opened opened' w in
      (done ++ cleared, failures ++ others, w)
  end.

(** [clearManagedLogs]: the logs cleared and the failures, which the code
    joins. *)
Definition clearManagedLogs (logs : list managedLog) : W -> list managedLog * list log_error * W := fun w =>
  match open_logs logs [] w with
  | (Err e, w) => ([], [e], w)
  | (Ok opened, w) => clear_opened opened w
  end.

(** ** The command *)

Record serviceLogsOptions : Type := MkLogsOptions { lo_lines : Z; lo_follow : bool; lo_clear : bool; lo_stream : string }.

(** The loop of [serviceLogsCommand] over the logs: what it prints, and the
    logs to follow. *)
Fixpoint tail_logs (many follow : bool) (lines : Z) (logs : list managedLog) (w : W)
    : result log_error (list followedLog) * list string * W :=
  match logs with
  | [] => (Ok [], [], w)
  | log :: logs' =>
      let next (followed : followedLog) (printed : list string) (w : W) :=
        let '(r, more, w) := tail_logs many follow lines logs' w in
        (match r with Ok others => Ok (followed :: others) | Err e => Err e end, printed ++ more, w) in
      match tailManagedLog (ml_Path log) lines w with
      | (Err e, w) => if follow && le_absent e then next (MkFollowed log 0 None) [] w else (Err e, [], w)
      | (Ok (contents, info), w) =>
          next (MkFollowed log (fi_Size info) (Some info))
            ((if many then [log_header log] else []) ++
             (if bool_decide (contents = "") then [] else if has_suffix contents newline then [contents] else [contents; newline])) w
      end
  end.

Inductive logs_end : Type := LogsDone | LogsFailed (es : list log_error) | Following (e : option follow_end).

(** [serviceLogsCommand] after the flags: how it ends and the lines it
    prints; [wakes] are those of the follower. *)
Definition serviceLogsCommand (layout : Layout) (options : serviceLogsOptions) (arguments : list string) (wakes : list wake) (w : W)
    : logs_end * list string :=
  if negb (bool_decide (arguments = [])) then (LogsFailed [refuse "service logs received unexpected arguments"], [])
  else if (lo_lines options <? 0) || (10000 <? lo_lines options) then (LogsFailed [refuse "service logs lines must be between 0 and 10000"], [])
  else
    match selectedManagedLogs layout (to_lower (lo_stream options)) with
    | Err e => (LogsFailed [e], [])
    | Ok logs =>
        let '(cleared, failures, w) := if lo_clear options then clearManagedLogs logs w else ([], [], w) in
        let said :=
          ((fun log => "cleared " +:+ ml_Name log +:+ " service log: " +:+ ml_Path log +:+ newline) <$> cleared) in
        if negb (bool_decide (failures = [])) then (LogsFailed failures, said)
        else
          let said := if lo_clear options && bool_decide (cleared = [])
                      then said ++ ["selected service logs are already absent" +:+ newline] else said in
          if lo_clear options && negb (lo_follow options) then (LogsDone, said)
          else
            match tail_logs (1 <? length logs)%nat (lo_follow options) (lo_lines options) logs w with
            | (Err e, printed, _) => (LogsFailed [e], said ++ printed)
            | (Ok followers, printed, _) =>
                if negb (lo_follow options) then (LogsDone, said ++ printed)
                else let '(e, written, _) := followManagedLogs wakes followers in (Following e, said ++ printed ++ written)
            end
    end.

(** ** One attempt to install *)

(** The two logs, in the order of the diagnosis. *)
Definition diagnosed (layout : Layout) : list managedLog :=
  [MkLog "stderr" (ly_StandardErr layout); MkLog "stdout" (ly_StandardOut layout)].

(** [checkpointManagedLogs]: a log that cannot be opened has no checkpoint. *)
Fixpoint checkpoint_logs (logs : list managedLog) (checkpoints : gmap string managedLogCheckpoint) (w : W)
    : gmap string managedLogCheckpoint * W :=
  match logs with
  | [] => (checkpoints, w)
  | log :: logs' =>
      match openManagedLog (ml_Path log) w with
      | (Err _, w) => checkpoint_logs logs' checkpoints w
      | (Ok (file, info), w) =>
          checkpoint_logs logs' (<[ml_Path log := MkCheckpoint (Some info) (fi_Size info)]> checkpoints) (snd (sys_Close os file w))
      end
  end.

Definition checkpointManagedLogs (layout : Layout) : W -> gmap string managedLogCheckpoint * W :=
  checkpoint_logs (diagnosed layout) ∅.

(** Contents as a section of their own, ended by a line feed. *)
Definition ended (contents : string) : string := if has_suffix contents newline then contents else contents +:+ newline.

(** The loop of [withServiceInstallLogDiagnostics]. *)
Fixpoint diagnostics (logs : list managedLog) (checkpoints : gmap string managedLogCheckpoint) (w : W) : string * W :=
  match logs with
  | [] => ("", w)
  | log :: logs' =>
      let '(r, w) := tailManagedLogSince (ml_Path log) (default (MkCheckpoint None 0) (checkpoints !! ml_Path log)) 50 w in
      let section :=
        match r with
        | Err e => if le_absent e then "" else log_header log +:+ "unable to read log: " +:+ le_text e +:+ newline
        | Ok contents => if bool_decide (contents = "") then "" else log_header log +:+ ended contents
        end in
      let '(others, w) := diagnostics logs' checkpoints w in
      (section +:+ others, w)
  end.

(** [withServiceInstallLogDiagnostics]: what is added to the error. *)
Definition withServiceInstallLogDiagnostics (err : option string) (layout : Layout) (checkpoints : gmap string managedLogCheckpoint)
    (w : W) : option string * W :=
  match err with
  | None => (None, w)
  | Some err =>
      let '(text, w) := diagnostics (diagnosed layout) checkpoints w in
      (Some (if bool_decide (text = "") then err
             else err +:+ newline +:+ "service output from this install attempt:" +:+ newline +:+ trim_suffix text newline), w)
  end.
End logs.

(** ** Lines *)

Section lines.
Context (sep : ascii).

Local Notation free := (sforall (fun c => negb (Ascii.eqb c sep))).

Lemma cut_last_free w : free w = true -> cut_last sep w = None.
Proof.
  induction w as [|c w IH]; [done|]. cbn [sforall cut_last]. intros [Hc Hw]%andb_true_iff.
  rewrite (IH Hw). apply negb_true_iff in Hc. by rewrite Hc.
Qed.

Lemma cut_last_line l w : free w = true -> cut_last sep (l +:+ String sep w) = Some (l, w).
Proof.
  intros Hw. induction l as [|c l IH]; [|by rewrite sapp_cons; cbn [cut_last]; rewrite IH].
  rewrite sapp_nil_l. cbn [cut_last]. by rewrite cut_last_free, Ascii.eqb_refl.
Qed.

Lemma split_on_free s : Forall (fun w => free w = true) (split_on sep s).
Proof.
  induction s as [|c s IH]; cbn [split_on]; [by repeat constructor|]. destruct (Ascii.eqb c sep) eqn:Hc; [by constructor|].
  destruct (split_on sep s) as [|w ws]; [by repeat constructor; cbn; rewrite Hc|].
  inversion IH; subst. constructor; [|done]. cbn. by rewrite Hc.
Qed.

Local Notation join := (string_join (String sep "")).

Lemma join_snoc l w : l <> [] -> join (l ++ [w]) = join l +:+ String sep w.
Proof. intros Hl. by rewrite string_join_app. Qed.

(** The last line of a text of lines without separators. *)
Lemma cut_last_join l w : free w = true -> cut_last sep (join (l ++ [w])) = match l with [] => None | _ => Some (join l, w) end.
Proof.
  intros Hw. destruct l as [|x l]; [by apply cut_last_free|]. rewrite join_snoc by done. by apply cut_last_line.
Qed.

Lemma join_empty l : l <> [] -> String.length (join l) = 0%nat -> l = [""].
Proof. destruct l as [|x [|y l]]; [done|by destruct x|]. intros _. rewrite string_join_cons by done. by destruct x. Qed.
End lines.

Lemma get_app a c b : String.get (String.length a) (a +:+ String c b) = Some c.
Proof. by induction a. Qed.

(** The beginning of the last lines: after [before] lines, unless these are
    one empty line. *)
Lemma last_lines_loop_spec count trimmed lines rest :
  Forall (fun w => sforall (fun c => negb (Ascii.eqb c line_feed)) w = true) lines -> lines <> [] ->
  (exists tail, trimmed = string_join newline lines +:+ tail) -> (0 < count)%nat -> rest = (length lines - count)%nat ->
  last_lines_loop count trimmed (String.length (string_join newline lines)) =
  match rest with O => 0%nat | _ => String.length (string_join newline (take rest lines)) end.
Proof.
  intros Hfree Hne Htrim Hcount ->. revert count Hcount. induction lines as [|w lines IH] using rev_ind; [done|]. clear Hne.
  apply Forall_app in Hfree as [Hfree [Hw _]%Forall_cons]. destruct Htrim as [tail Htrim]. intros count Hcount.
  assert (Hcut : cut_last line_feed (stake (String.length (string_join newline (lines ++ [w]))) trimmed) =
    match lines with [] => None | _ => Some (string_join newline lines, w) end)
    by (rewrite Htrim, stake_app; by apply cut_last_join).
  destruct count as [|count]; [lia|]. cbn [last_lines_loop]. rewrite Hcut, length_app. cbn [length].
  destruct (decide (lines = [])) as [->|Hl]; [by destruct count|].
  assert (match lines with [] => None | _ => Some (string_join newline lines, w) end = Some (string_join newline lines, w)) as ->
    by (by destruct lines).
  replace (length lines + 1 - S count)%nat with (length lines - count)%nat by lia.
  assert (Hpre : exists tail', trimmed = string_join newline lines +:+ tail').
  { exists (String line_feed w +:+ tail). rewrite Htrim. unfold newline. rewrite join_snoc by done. by rewrite <- sapp_assoc. }
  destruct (String.length (string_join newline lines) =? 0)%nat eqn:Hz.
  - apply Nat.eqb_eq in Hz. assert (lines = [""]) as -> by (by apply (join_empty line_feed)).
    destruct count as [|count]; [done|]. by replace (length [""] - S count)%nat with 0%nat by (cbn; lia).
  - destruct count as [|count].
    + cbn [last_lines_loop]. rewrite Nat.sub_0_r, take_app_length. by destruct lines.
    + rewrite (IH Hfree Hl Hpre) by lia. destruct (length lines - S count)%nat eqn:Hk; [done|]. by rewrite take_app_le by lia.
Qed.

(** [lastLines] returns the last [count] lines as they are - all of
    them when there are fewer, with the line feed at the end when there is one
    - except that one line too many is returned when this line is empty and
    the first of the text. *)
Theorem last_lines_spec (contents : string) (count : Z) :
  let trimmed := trim_suffix contents newline in
  let lines := split_on line_feed trimmed in
  let rest := (length lines - Z.to_nat count)%nat in
  contents <> "" -> 0 < count ->
  lastLines contents count =
  if bool_decide (rest = 1%nat /\ head lines = Some "") then contents
  else string_join newline (drop rest lines) +:+ (if has_suffix contents newline then newline else "").
Proof.
  intros trimmed lines rest Hne Hcount. unfold lastLines. fold trimmed.
  replace (count <=? 0) with false by (symmetry; apply Z.leb_gt; lia). rewrite bool_decide_false by done. cbn [orb].
  assert (Hcontents : contents = trimmed +:+ (if has_suffix contents newline then newline else "")).
  { unfold trimmed, trim_suffix. destruct (has_suffix contents newline) eqn:Hs; [|by rewrite sapp_nil_r].
    apply has_suffix_spec in Hs as [q ->]. rewrite sapp_length. replace (_ + _ - _)%nat with (String.length q) by lia. by rewrite stake_app. }
  set (tail := if has_suffix contents newline then newline else "") in *.
  assert (Hjoin : trimmed = string_join newline lines) by (symmetry; apply join_split).
  assert (Hlines : lines <> []) by apply split_on_nonempty.
  pose proof (split_on_free line_feed trimmed) as Hfree. fold lines in Hfree. clearbody lines trimmed tail.
  assert (Hloop : last_lines_loop (Z.to_nat count) trimmed (String.length trimmed) =
    match rest with O => 0%nat | _ => String.length (string_join newline (take rest lines)) end).
  { rewrite Hjoin at 2. apply last_lines_loop_spec; [done|done|exists ""; by rewrite sapp_nil_r, Hjoin|lia|done]. }
  rewrite Hloop. destruct rest as [|n] eqn:Hrest.
  { rewrite (bool_decide_false (_ /\ _)) by (by intros [[=] _]). change (drop 0 lines) with lines. rewrite <- Hjoin, <- Hcontents. case_bool_decide; [done|]. done. }
  assert (Hlen : (S n < length lines)%nat) by lia.
  assert (Hsplit : trimmed = string_join newline (take (S n) lines) +:+ newline +:+ string_join newline (drop (S n) lines)).
  { rewrite Hjoin, <- (take_drop (S n) lines) at 1. apply string_join_app; [by destruct lines|].
    intros Hd. apply (f_equal length) in Hd. rewrite length_drop in Hd. cbn in Hd. lia. }
  rewrite (bool_decide_false (trimmed = "")) by (rewrite Hsplit; by destruct (string_join _ (take _ _))).
  destruct (String.length (string_join newline (take (S n) lines))) as [|k] eqn:Hk.
  - cbn [Nat.ltb Nat.leb andb sdrop]. assert (take (S n) lines = [""]) as Ht.
    { apply (join_empty line_feed); [by destruct lines|done]. }
    rewrite bool_decide_true; [done|]. pose proof (f_equal length Ht) as Hl. rewrite length_take, Nat.min_l in Hl by lia.
    split; [exact Hl|]. destruct lines as [|x lines']; [done|]. cbn in Ht. by injection Ht as ->.
  - rewrite (bool_decide_false (_ /\ _)); cycle 1.
    { intros [Hn Hh]. assert (n = 0%nat) as -> by lia. destruct lines as [|x lines']; [done|]. injection Hh as ->. done. }
    change (0 <? S k)%nat with true. cbn [andb]. rewrite <- Hk.
    set (a := string_join newline (take (S n) lines)) in *. set (b := string_join newline (drop (S n) lines)) in *.
    assert (Hget : String.get (String.length a) trimmed = Some line_feed) by (rewrite Hsplit; apply get_app).
    rewrite Hget, bool_decide_true by done. rewrite Hcontents, Hsplit, <- !sapp_assoc.
    replace (S (String.length a)) with (String.length (a +:+ newline)) by (rewrite sapp_length; cbn; lia).
    by rewrite sapp_assoc, sdrop_app.
Qed.

Lemma last_lines_spec_witness :
  lastLines ("a" +:+ newline +:+ "b" +:+ newline +:+ "c" +:+ newline) 2 = "b" +:+ newline +:+ "c" +:+ newline /\
  lastLines (newline +:+ "c") 1 = newline +:+ "c".
Proof.
  split; (etransitivity; [apply last_lines_spec; [done|lia]|vm_compute; reflexivity]).
Defined.

(** ** Following *)

(** A log as a follower finds it in a world: a regular file that opens, and
    whose bytes can be read. *)
Definition holds {W F} (os : log_system W F) (path : string) (id : Z) (contents : string) (w : W) : Prop :=
  let info := MkInfo id (slen contents) false true in
  exists file w1 w2 w3, sys_Lstat os path w = (Ok info, w1) /\ sys_Open os false path w1 = (Ok file, w2) /\
    sys_Stat os file w2 = (Ok info, w3) /\
    forall start limit, exists w4 w5, sys_Seek os file start w3 = (Ok tt, w4) /\
      sys_ReadAll os file limit w4 = (Ok (stake (Z.to_nat limit) (sdrop (Z.to_nat start) contents)), w5).

(** What is new in a log since it was seen: what was appended to it, or all of
    the file that replaced it. *)
Definition appended (seen next : Z * string) : string :=
  if seen.1 =? next.1 then sdrop (String.length seen.2) next.2 else next.2.

Fixpoint all_appended (seen : Z * string) (nexts : list (Z * string)) : string :=
  match nexts with
  | [] => ""
  | next :: nexts' => appended seen next +:+ all_appended next nexts'
  end.

(** Each version of the log extends the one before, or is another file. *)
Fixpoint grows (seen : Z * string) (nexts : list (Z * string)) : Prop :=
  match nexts with
  | [] => True
  | next :: nexts' => (seen.1 = next.1 -> has_prefix next.2 seen.2 = true) /\ grows next nexts'
  end.

Definition output_of (texts : list string) : string := string_join "" texts.

Section following.
Context {W F : Type} (os : log_system W F) (log : managedLog).
Hypothesis Hprint : forall text w, fst (sys_Print os text w) = Ok tt.

(** The follower after it saw a version. *)
Definition at_version (seen : Z * string) : followedLog :=
  MkFollowed log (slen seen.2) (Some (MkInfo seen.1 (slen seen.2) false true)).

Lemma print_all_ok texts w : exists w', print_all os texts w = (None, texts, w').
Proof.
  revert w. induction texts as [|text texts IH]; intros w; cbn [print_all]; [by eexists|].
  pose proof (Hprint text w) as Hp. destruct (sys_Print os text w) as [r w1]. cbn in Hp. subst r.
  destruct (IH w1) as [w' ->]. by eexists.
Qed.

Lemma length_sdrop n s : String.length (sdrop n s) = (String.length s - n)%nat.
Proof. revert n. induction s as [|c s IH]; intros [|n]; cbn; auto. Qed.

(** Where the follower reads on. *)
Lemma follow_offset_version seen next :
  (seen.1 = next.1 -> has_prefix next.2 seen.2 = true) ->
  exists offset, follow_offset (at_version seen) (MkInfo next.1 (slen next.2) false true) = offset /\
    0 <= offset <= slen next.2 /\ appended seen next = sdrop (Z.to_nat offset) next.2.
Proof.
  intros Hgrow. eexists. split; [done|]. unfold follow_offset, appended, SameFile. cbn [at_version fw_Info fw_Offset fi_file fi_Size].
  unfold slen. destruct (seen.1 =? next.1) eqn:He; cbn [negb orb].
  - apply Z.eqb_eq, Hgrow, has_prefix_spec in He as [rest He]. rewrite He, sapp_length.
    replace (_ <? _) with false by (symmetry; apply Z.ltb_ge; lia). rewrite Nat2Z.id. split; [lia|done].
  - split; [lia|done].
Qed.

Lemma follow_one_appended seen next w :
  holds os (ml_Path log) next.1 next.2 w -> (seen.1 = next.1 -> has_prefix next.2 seen.2 = true) ->
  exists written w', follow_one os false (at_version seen) w = (Ok (at_version next), written, w') /\
    output_of written = appended seen next.
Proof.
  intros (file & w1 & w2 & w3 & Hl & Ho & Hs & Hr) Hgrow. unfold follow_one, openManagedLog, open_checked, act_bind, act_unless.
  cbn [fw_log at_version]. rewrite Hl. cbn [fi_symlink fi_regular orb negb]. rewrite Ho, Hs. unfold SameFile at 1. cbn [fi_file].
  rewrite Z.eqb_refl. cbn [fi_Size]. destruct (follow_offset_version seen next Hgrow) as (offset & -> & Hrange & ->).
  pose proof (length_sdrop (Z.to_nat offset) next.2) as Hlen. unfold slen in *. case Z.eqb_spec; intros Hoff.
  - eexists _, _. rewrite <- Hoff. split; [done|]. rewrite Nat2Z.id. pose proof (sdrop_app next.2 "") as Hd.
    by rewrite sapp_nil_r in Hd.
  - destruct (Hr offset (Z.of_nat (String.length next.2) - offset)) as (w4 & w5 & Hseek & Hread).
    unfold then_close, readManagedLogRange, act_unless, act_bind.
    replace (_ || _) with false by (symmetry; apply orb_false_iff; lia). rewrite Hseek, Hread, stake_all by lia.
    rewrite bool_decide_false by (intros He; rewrite He in Hlen; cbn in Hlen; lia).
    destruct (print_all_ok ([] ++ [sdrop (Z.to_nat offset) next.2]) (snd (sys_Close os file w5))) as [w6 ->].
    exists [sdrop (Z.to_nat offset) next.2], w6. split; [|done]. cbn [app]. unfold at_version, slen.
    by replace (offset + _) with (Z.of_nat (String.length next.2)) by lia.
Qed.
End following.

(** C11: following loses nothing and repeats nothing.  While the output
    can be written and every tick finds a regular file, which either extends
    what the follower saw or is another file, what it prints is what was
    appended from tick to tick, the whole of a new file included; and as long
    as the file stays the same this is the last version without the first. *)
Theorem follow_prints_growth {W F : Type} (os : log_system W F) (log : managedLog) (seen : Z * string)
    (ticks : list (W * (Z * string))) :
  (forall text w, fst (sys_Print os text w) = Ok tt) ->
  Forall (fun '(w, (id, contents)) => holds os (ml_Path log) id contents w) ticks -> grows seen ticks.*2 ->
  exists written, followManagedLogs os (Ticked <$> ticks.*1) [at_version log seen] =
      (None, written, [at_version log (default seen (last ticks.*2))]) /\
    output_of written = all_appended seen ticks.*2 /\
    (Forall (fun next => next.1 = seen.1) ticks.*2 ->
     seen.2 +:+ output_of written = (default seen (last ticks.*2)).2).
Proof.
  intros Hprint Hall. revert seen. induction Hall as [|[w [id contents]] ticks Hw _ IH]; intros seen Hgrow.
  - exists []. split_and!; [done|done|]. intros _. by rewrite sapp_nil_r.
  - destruct Hgrow as [Hgrow Hgrows].
    destruct (follow_one_appended os log Hprint seen (id, contents) w Hw Hgrow) as (one & w' & Hone & Hout).
    destruct (IH (id, contents) Hgrows) as (more & Hmore & Houts & Hsame). clear IH.
    assert (Hcat : forall a b, output_of (a ++ b) = output_of a +:+ output_of b).
    { intros a b. unfold output_of. destruct a as [|x a]; [done|]. destruct b as [|y b]; [by rewrite app_nil_r, sapp_nil_r|].
      by rewrite string_join_app. }
    exists (one ++ more). split; [|split].
    + cbn [fmap list_fmap followManagedLogs]. change (1 <? length [at_version log seen])%nat with false.
      cbn [follow_turn fst snd]. rewrite Hone, app_nil_r, Hmore.
      by rewrite last_cons; destruct (last ticks.*2).
    + rewrite Hcat, Hout, Houts. done.
    + intros [Hid Hids]%Forall_cons. cbn [fst snd] in Hid. rewrite Hcat, Hout. unfold appended. cbn [fst snd].
      rewrite Hid, Z.eqb_refl. destruct (proj1 (has_prefix_spec _ _) (Hgrow (eq_sym Hid))) as [rest Hrest]. cbn [snd] in Hrest, Hsame.
      rewrite Hrest at 1. rewrite sdrop_app, sapp_assoc, <- Hrest. rewrite Hsame.
      * cbn [fmap list_fmap]. rewrite last_cons. by destruct (last ticks.*2).
      * eapply Forall_impl; [exact Hids|]. intros x ->. by rewrite Hid.
Qed.

(** A file that grows by a line between two ticks, then is replaced; the
    world is what it contains. *)
Definition demo_log_system : log_system (Z * string) unit := {|
  sys_Lstat _ w := (Ok (MkInfo w.1 (slen w.2) false true), w);
  sys_Open _ _ w := (Ok tt, w);
  sys_Stat _ w := (Ok (MkInfo w.1 (slen w.2) false true), w);
  sys_Seek _ start w := (Ok tt, (w.1, sdrop (Z.to_nat start) w.2));
  sys_ReadAll _ limit w := (Ok (stake (Z.to_nat limit) w.2), w);
  sys_Truncate _ w := (Ok tt, (w.1, ""));
  sys_Sync _ w := (Ok tt, w);
  sys_Close _ w := (Ok tt, w);
  sys_Print _ w := (Ok tt, w)
|}.

Lemma demo_holds path w : holds demo_log_system path w.1 w.2 w.
Proof.
  destruct w as [id x]. exists tt, (id, x), (id, x), (id, x). do 3 (split; [done|]). intros start limit.
  exists (id, sdrop (Z.to_nat start) x), (id, sdrop (Z.to_nat start) x). by split.
Qed.

Lemma follow_prints_growth_witness :
  exists written logs, followManagedLogs demo_log_system [Ticked (7, "ab" +:+ newline); Ticked (9, "c")]
    [at_version (MkLog "stdout" "/log") (7, "a")] = (None, written, logs) /\
    output_of written = "b" +:+ newline +:+ "c".
Proof.
  destruct (follow_prints_growth demo_log_system (MkLog "stdout" "/log") (7, "a")
    [((7, "ab" +:+ newline), (7, "ab" +:+ newline)); ((9, "c"), (9, "c"))]) as (written & Hrun & Hout & _).
  - done.
  - constructor; [apply (demo_holds _ (7, _))|]. constructor; [apply (demo_holds _ (9, _))|constructor].
  - cbn. by repeat split.
  - eexists _, _. split; [exact Hrun|exact Hout].
Defined.

(** ** Clearing *)

(** Clearing touches all of the selected logs or none.  If one of them
    is a link, a directory or a device, the command fails before it truncates
    any file: the world is what looking at the logs and opening them leaves. *)
Theorem clearing_spares_irregular {W F : Type} (os : log_system W F) (P : W -> Prop) (logs : list managedLog) (log : managedLog) (w : W) :
  (forall path w, P w -> P (snd (sys_Lstat os path w))) -> (forall write path w, P w -> P (snd (sys_Open os write path w))) ->
  (forall file w, P w -> P (snd (sys_Stat os file w))) -> (forall file w, P w -> P (snd (sys_Close os file w))) ->
  log ∈ logs ->
  (forall w, P w -> exists info, fst (sys_Lstat os (ml_Path log) w) = Ok info /\ (fi_symlink info = true \/ fi_regular info = false)) ->
  P w ->
  exists e w', clearManagedLogs os logs w = ([], [e], w') /\ P w'.
Proof.
  intros Hlstat Hopen Hstat Hclose Hin Hbad Hw. unfold clearManagedLogs.
  assert (Hall : forall opened w, P w -> P (close_all os opened w)).
  { intros opened. induction opened as [|[l f] opened IH]; intros w0 H0; cbn; [done|]. by apply IH, Hclose. }
  assert (Hcheck : forall path before w, P w -> P (snd (open_checked os true path before w))).
  { intros path before w0 H0. unfold open_checked, act_unless. destruct (_ || _); [done|]. unfold act_bind.
    pose proof (Hopen true path w0 H0) as H1. destruct (sys_Open os true path w0) as [[f|e] w1]; [|done]. cbn in H1.
    pose proof (Hstat f w1 H1) as H2. destruct (sys_Stat os f w1) as [[after|e] w2]; cbn in H2; [|by apply Hclose].
    destruct (SameFile _ _); [done|by apply Hclose]. }
  assert (Hwrite : forall path w, P w -> P (snd (openManagedLogForWrite os path w))).
  { intros path w0 H0. unfold openManagedLogForWrite. pose proof (Hlstat path w0 H0) as H1.
    destruct (sys_Lstat os path w0) as [[before|e] w1]; [|by destruct (le_absent e)]. cbn in H1.
    pose proof (Hcheck path before w1 H1) as H2. by destruct (open_checked os true path before w1) as [[[f i]|e] w2]. }
  assert (Hrefused : forall w, P w -> exists e, fst (openManagedLogForWrite os (ml_Path log) w) = Err e).
  { intros w0 H0. unfold openManagedLogForWrite. destruct (Hbad w0 H0) as (info & Hi & Hirr).
    destruct (sys_Lstat os (ml_Path log) w0) as [r w1]. cbn in Hi. subst r. unfold open_checked, act_unless.
    replace (fi_symlink info || negb (fi_regular info)) with true by (by destruct Hirr as [-> | ->]; rewrite ?orb_true_r).
    by eexists. }
  assert (Hrun : forall opened w, P w -> exists e w', open_logs os logs opened w = (Err e, w') /\ P w').
  { induction Hin as [l|log l logs Hin IH]; intros opened w0 H0; cbn [open_logs].
    - pose proof (Hwrite (ml_Path l) w0 H0) as H1. destruct (Hrefused w0 H0) as [e He].
      destruct (openManagedLogForWrite os (ml_Path l) w0) as [r w1]. cbn in He, H1. subst r. eauto.
    - pose proof (Hwrite (ml_Path l) w0 H0) as H1.
      destruct (openManagedLogForWrite os (ml_Path l) w0) as [[[f|]|e] w1]; cbn in H1; eauto. }
  destruct (Hrun [] w Hw) as (e & w' & -> & Hw'). eauto.
Qed.

Lemma clearing_spares_irregular_witness :
  let os := MkLogSystem (Z * string) unit (fun _ w => (Ok (MkInfo w.1 (slen w.2) true false), w)) (sys_Open demo_log_system)
    (sys_Stat demo_log_system) (sys_Seek demo_log_system) (sys_ReadAll demo_log_system) (sys_Truncate demo_log_system)
    (sys_Sync demo_log_system) (sys_Close demo_log_system) (sys_Print demo_log_system) in
  exists e w', clearManagedLogs os [MkLog "stdout" "/log"] (7, "a") = ([], [e], w') /\ w' = (7, "a").
Proof.
  intros os. apply (clearing_spares_irregular os (fun w => w = (7, "a")) _ (MkLog "stdout" "/log")).
  - by intros path w ->.
  - by intros write path w ->.
  - by intros file w ->.
  - by intros file w ->.
  - by apply list_elem_of_singleton.
  - intros w ->. eexists. split; [reflexivity|]. by left.
  - reflexivity.
Defined.
